(* ===== verification/_CoqProject ===== *)
-Q . S2P
Prelude.v
Lit.v
DList.v
KHeap.v
KHeapInv.v
KHeapOps.v
KHeapSpec.v
KHeapCalls.v
KHeapInit.v
KHeapCheck.v
KHeapProps.v
Utf8.v
Utf8Props.v
Pty.v
PtyIn.v
PtyOps.v
PtyProps.v
KString.v
KStringProps.v
Textbuf.v
TextbufInv.v
TextbufOps.v
TextbufProps.v
Config.v
ConfigProps.v
Clock.v
Tz.v
ClockProps.v
Wire.v
Settings.v
Firewall.v
FirewallProps.v
NetState.v
Arp.v
Ip.v
NetRx.v
NetDev.v
NetSafe.v
NetDeliver.v
NetProps.v
NetDevProps.v
LeBytes.v
Bootmem.v
BootmemProps.v
Hmem.v
HmemProps.v
HmemInit.v
Upage.v
UpageProps.v
Crc.v
Volume.v
VolumeProps.v
Blockdev.v
BlockdevProps.v
Inflate.v
Deflate.v
DeflateBits.v
HuffTree.v
DeflateLz.v
DeflateBlock.v
DeflateProps.v
Tcp.v
TcpConn.v
TcpTable.v
TcpInv.v
TcpOut.v
TcpIn.v
TcpAck.v
TcpRun.v
TcpUser.v
TcpStream.v
TcpProps.v
TcpSafe.v
Aead.v
AeadPoly.v
AeadAes.v
AeadProps.v
Hash.v
Fips180.v
HashProps.v
