(* ===== verification/Prelude.v ===== *)
(** * Banana OS: a verification library for the kernel's core logic

    Banana OS is an x86 operating system written in C. This library models
    the parts of its kernel that are programs rather than device access, each
    as executable definitions that follow the C functions of the same names,
    and proves what each part is for. File names below are under src/.

    ** The parts and the files that hold them

    Memory. The kernel heap (kernel/kheap.c) is [KHeap]: block headers and
    bins in a store of nodes, the two-level bitmaps, kmalloc, kfree and
    krealloc; [KHeapSpec] is its abstract specification (a list of blocks),
    [KHeapInv], [KHeapOps], [KHeapCalls], [KHeapInit] and
    [KHeapCheck] the refinement, [KHeapProps] the properties; [DList] is the
    interface of the two kinds of linked list it threads through memory.
    What the boot loader says is installed (kernel/bootmem.c) is [Bootmem];
    the frames above 4 GiB (kernel/hmem.c) are [Hmem], started from the same
    information block ([HmemInit]); apps' pages (kernel/upage.c) are [Upage],
    which takes its chunks through the class [UpageEnv] whose laws [Hmem]
    discharges ([UpageProps]). [LeBytes] is what they share.

    Terminals. [Pty] (with its byte rings), [PtyIn], [PtyOps] and [PtyProps] are
    kernel/pty.c: two byte queues and the line discipline between them.

    Text. [Utf8] is kernel/utf8.h; [KString] kernel/kstring.c with its
    formatter; [Textbuf] kernel/textbuf.c, the editors' lines, cursor and
    selection; [Config] kernel/config.c, the key=value files, over a file
    system interface; [Settings] the two calls of kernel/settings.c that
    other parts use, implemented on [Config].

    Time. [Clock] is the calendar and the CMOS clock (kernel/rtc.c), [Tz] the
    time zones (kernel/tz.c).

    Network (net/). [Wire] is byte order, the Internet checksum and addresses
    as text; [NetState] the static variables of the stack in one record;
    [Arp], [Ip] (with ICMP and UDP) and [NetRx] the protocols, sending and
    receiving; [NetDev] the device table, the choice of the active device and
    the saved configuration; [Firewall] the ports let in and the answers let
    back, on the saved settings. [NetSafe] and [NetDeliver] carry the proofs
    of [NetProps] and [NetDevProps].

    Checksums and compression. [Crc] is kernel/crc32c.c and the CRC-32 of
    kernel/deflate.c.
    [Deflate] is the compressor of kernel/deflate.c; [Inflate] is the format
    it writes (RFC 1951), written out as a decompressor that is the reference
    and stands for no code of the kernel. The proof goes by the parts of the
    compressor: [DeflateBits] the bit output, [HuffTree] the code lengths and
    codes, [DeflateLz] the matches and the coded lengths, [DeflateBlock] a
    block, [DeflateProps] the whole.

    TCP (net/tcp.c). [Tcp] is one connection's state, the segments it sends
    and the data it takes in; [TcpConn] what it does with acknowledgements,
    segments, timeouts and its user's calls; [TcpTable] the table of
    connections, the listeners and tcp_input. A ghost state of positions that
    do not wrap around says what the sequence numbers stand for ([TcpInv]);
    [TcpOut], [TcpIn], [TcpAck], [TcpRun] and [TcpUser] show that each
    function moves it as it should. [TcpStream] puts two connections on a
    network that loses, repeats, reorders and delays; [TcpProps] has what
    their users can rely on, [TcpSafe] the whole table under any packets.

    Disks. [Volume] reads partition tables (kernel/volume.c: MBR, logical
    partitions, GPT) and mounts what a drive holds; [Blockdev] is the table of
    drives with its automounter (kernel/blockdev.c).

    Ciphers. [Aead] is crypto/aead.c and crypto/chacha20.c: AES-128-GCM and
    ChaCha20-Poly1305, which TLS and SSH seal their records with. Each
    standard is written out as the reference and the code shown equal to it:
    [AeadPoly] the arithmetic modulo [2 ^ 130 - 5], [AeadAes] FIPS 197's
    bytes and field, [AeadProps] the field of [2 ^ 128] elements, the two
    compositions and opening.
    [Hash] is SHA-256 with HMAC, HKDF and PBKDF2 (crypto/sha256.c) and
    SHA-512 (crypto/sha512.c); [Fips180] is FIPS 180-4 written out apart from
    the code, its constants computed from the roots of the primes, with the
    proof that the code's compression functions are its own; [HashProps] shows
    that however a message is cut into calls, its digest is the standard's.
    ** How the parts meet

    Parts call each other through classes that state what one promises the
    other: [FsOps] and [FsLaws] (the file system under [Config]),
    [SettingsOps] and [SettingsLaws] (under [Firewall] and [NetDev], with the
    instance on the configuration file), [BlockEnv] and [BlockLaws] (sectors, file
    systems and mount ids under [Volume] and [Blockdev]), [NetEnv] (what the stack calls out
    to: drivers, TCP, IPv6, handlers), [UpageEnv] and [UpageLaws] (under
    [Upage], with the instance on [Hmem]), [HmemEnv] (paging and the bitmaps'
    memory), [DNode] (the nodes of a linked list). [NetDeliver] composes two
    whole stacks: what ip_send of one gives its driver goes through net_rx of
    the other; [TcpStream] does the same for two TCP connections.

    ** Conventions

    An integer of the code is a [Z], with its wrap-around written out ([u8],
    [u16], [u32], [u64], [s32]); pointers are integers on the 64-bit kernel.
    C arrays are lists read with [aget] and written with [aset] where an index
    is in range by construction; bytes of a packet and entries of a table are
    read with [rd8], [rd16], [rd32], [rd_range] and [get_at] and written with
    [put_at] and [buf_write], which give [None] outside. A [None] in
    an option or [ST] result is a fault (a wild pointer, a read outside a
    buffer, or a loop that ran out of fuel), never an error the code reports:
    those are the values the C returns. So a theorem that a call gives [Some]
    says that it ends and touches nothing it must not. Allocation failures
    are explicit inputs (a list of outcomes, or a class). Spinlocks make a
    locked section one step; where a call works without its lock
    ([Upage.alloc], [Upage.upage_free]) its sections and what it calls between
    and after them are separate steps of a transition relation.

    Fuel. Loops whose recursion is not structural take a [nat]: the walks of
    the boot information block are given one more than its bytes and advance
    by at least eight; the heap's walks are given the number of its blocks (its self-check, which
    stops after a hundred errors, 102 times that); a TCP header's options
    their length and one;
    the search over the heap's bins the number of bins; the network's queues
    their lengths; the rounds that flatten Huffman
    frequencies 33, after which all are 1; the compressor the bytes of its
    input; the chain of logical partitions the 64 of the code; sending a TCP window
    the bytes of the send buffer and one, since each turn but the last sends
    one at least; the search for a port the random numbers given. The properties show the results, so the fuel suffices.

    ** What the theorems show

    Invariants of the state over every operation or every run: kfree_spec,
    pty_runs, textbuf_runs, net_runs, hmem_init_spec.
    Abstract specifications and refinement: kmalloc_spec and krealloc_spec
    (the heap is a list of blocks and a set of allocations), canonical_read (a
    terminal is a queue of lines), insert_at_cursor (a text is a
    string with a cursor), kheap_init_spec (the largest usable RAM, wherever
    the kernel ends), upage_runs (pages are reference counts, over every
    interleaving), hmem_alloc_spec. Equivalence with reference definitions:
    ksnprintf_spec, calendar, kheap_check_spec, crc_tables.
    Round trips: decode_encode, utf16_roundtrip, typed_line_read_back,
    cfg_set_get, udp_crosses,
    kmalloc_kfree, aead_open_seal. Termination and
    memory safety on any input: bootmem_walks_end, net_runs. Errors:
    krealloc_truncates, crc32c_burst. Progress:
    ping_crosses. Types: partitions_well_formed (or the
    one overrun there is: a GPT entry across the end of its sector).
    Disks: drives_run. Compression: deflate_inflate and
    deflate_bound.
    TCP: tcp_in_order and tcp_no_loss (the abstract specification: two byte
    streams), tcp_eof, tcp_safe. Ciphers, against their standards:
    aes_gcm_sp800_38d, poly1305_rfc8439, sha_fips180, kdf_rfcs,
    chacha20poly1305_rfc8439.

    ** What is not modelled, and why

    Code that is registers, page tables, interrupts or pixels (drivers,
    paging, task switching, graphics, the desktop) has no logic that a pure
    model would check. The web engine, public-key cryptography, archives, the file
    systems and what runs on TCP are programs that could be modelled and are
    not. Of the parts that are modelled, the log lines, the entropy
    fed to the random pool, the wake-ups of waiting tasks and the debugging
    prints are left out. *)

From Stdlib Require Export ZArith Lia.
From stdpp Require Export option numbers gmap list.

#[global] Open Scope Z_scope.

(** ** Record update: [r <| field := v |>] and [r <| field ::= f |>] *)

(** [Eta R] rebuilds a record from its projections; one instance per record. *)
Class Eta (R : Type) := eta : R -> R.

(** [Setter p] updates the field [p]; instances are computed from [Eta]. *)
Class Setter {R E : Type} (p : R -> E) := setter : (E -> E) -> R -> R.

Definition set {R E : Type} (p : R -> E) `{Setter R E p} : (E -> E) -> R -> R := setter.

Ltac build_setter R E p :=
  let e := constr:(ltac:(typeclasses eauto) : Eta R) in
  exact (fun (f : E -> E) (r : R) =>
    ltac:(let e' := eval hnf in e in
          let t := eval cbv beta in (e' r) in
          lazymatch (eval pattern (p r) in t) with
          | ?g _ => let t' := eval cbv beta in (g (f (p r))) in exact t'
          end)).

#[global] Hint Extern 1 (@Setter ?R ?E ?p) => build_setter R E p : typeclass_instances.

Declare Scope banana_scope.
Delimit Scope banana_scope with banana.

#[warnings="-postfix-notation-not-level-1"]
Notation "r <| p := v |>" := (set p (fun _ => v) r)
  (at level 12, left associativity, p at level 9, v at level 99,
   format "r  <| p  :=  v |>") : banana_scope.
#[warnings="-postfix-notation-not-level-1"]
Notation "r <| p ::= f |>" := (set p f r)
  (at level 12, left associativity, p at level 9, f at level 99,
   format "r  <| p  ::=  f |>") : banana_scope.
#[global] Open Scope banana_scope.

(** ** Machine integers: a w-bit unsigned value is a [Z] reduced mod 2^w *)

Definition u8 (x : Z) : Z := x mod 2 ^ 8.
Definition u16 (x : Z) : Z := x mod 2 ^ 16.
Definition u32 (x : Z) : Z := x mod 2 ^ 32.
Definition u64 (x : Z) : Z := x mod 2 ^ 64.

(** the two's complement reading of the low 32 (16, 8) bits *)
Definition sx (w x : Z) : Z := (x + 2 ^ (w - 1)) mod 2 ^ w - 2 ^ (w - 1).
Definition s8 (x : Z) : Z := sx 8 x.
Definition s16 (x : Z) : Z := sx 16 x.
Definition s32 (x : Z) : Z := sx 32 x.

Definition is_u8 (x : Z) : Prop := 0 <= x < 2 ^ 8.
Definition is_u16 (x : Z) : Prop := 0 <= x < 2 ^ 16.
Definition is_u32 (x : Z) : Prop := 0 <= x < 2 ^ 32.
Definition is_u64 (x : Z) : Prop := 0 <= x < 2 ^ 64.

(** [__builtin_clz] and [__builtin_ctz] on a non-zero 32-bit value *)
Definition clz32 (v : Z) : Z := 31 - Z.log2 v.

Fixpoint pos_ctz (p : positive) : Z :=
  match p with
  | xO q => 1 + pos_ctz q
  | _ => 0
  end.

Definition ctz (v : Z) : Z :=
  match v with
  | Zpos p => pos_ctz p
  | _ => 0
  end.

(** ** The error-and-state monad: [None] is a fault (a wild dereference, an
    array index out of range), not a C error code *)

Definition ST (S A : Type) : Type := S -> option (A * S).

Section st_monad.
Context {S : Type}.

Definition st_ret {A} (a : A) : ST S A := fun s => Some (a, s).

Definition st_bind {A B} (m : ST S A) (k : A -> ST S B) : ST S B :=
  fun s => match m s with
           | Some (a, s') => k a s'
           | None => None
           end.

Definition fault {A} : ST S A := fun _ => None.
Definition get : ST S S := fun s => Some (s, s).
Definition gets {A} (f : S -> A) : ST S A := fun s => Some (f s, s).
Definition modify (f : S -> S) : ST S unit := fun s => Some (tt, f s).
Definition when (b : bool) (m : ST S unit) : ST S unit := if b then m else st_ret tt.
Definition of_option {A} (o : option A) : ST S A :=
  fun s => match o with Some a => Some (a, s) | None => None end.
End st_monad.

Notation "'let!' x := m 'in' k" := (st_bind m (fun x => k))
  (at level 10, x pattern, m at level 100, k at level 200,
   format "'let!'  x  :=  m  'in' '//' k") : banana_scope.
Notation "m ;;; k" := (st_bind m (fun _ => k))
  (at level 100, k at level 200, right associativity, format "m ;;; '//' k") : banana_scope.

(** ** C arrays: a list indexed by [Z]; reads outside give the default and
    writes outside do nothing, so claims about them carry the bounds *)

Definition aget {A} `{Inhabited A} (l : list A) (i : Z) : A := l !!! Z.to_nat i.
Definition aset {A} (l : list A) (i : Z) (v : A) : list A := <[Z.to_nat i := v]> l.
Definition zlen {A} (l : list A) : Z := Z.of_nat (length l).

(** bytes [a, b) of an array *)
Definition slice {A} (l : list A) (a b : Z) : list A :=
  take (Z.to_nat (b - a)) (drop (Z.to_nat a) l).

(** ** Automation *)

Create HintDb banana.
Create Rewrite HintDb banana.

Ltac Zify.zify_post_hook ::= Z.to_euclidean_division_equations.

Ltac st_unfold :=
  unfold st_ret, st_bind, fault, get, gets, modify, of_option in *.

(** case analysis on the scrutinee of every conditional in the goal *)
Ltac case_bool :=
  match goal with
  | |- context [if ?b then _ else _] => destruct b eqn:?
  end.

(** boolean comparisons of [Z] turned into propositions *)
Ltac zbool :=
  repeat match goal with
  | H : _ && _ = true |- _ => apply andb_true_iff in H as [? ?]
  | H : _ && _ = false |- _ => apply andb_false_iff in H
  | H : _ || _ = false |- _ => apply orb_false_iff in H as [? ?]
  | H : _ || _ = true |- _ => apply orb_true_iff in H
  | H : negb _ = true |- _ => apply negb_true_iff in H
  | H : negb _ = false |- _ => apply negb_false_iff in H
  | H : (_ =? _) = true |- _ => apply Z.eqb_eq in H
  | H : (_ =? _) = false |- _ => apply Z.eqb_neq in H
  | H : (_ <? _) = true |- _ => apply Z.ltb_lt in H
  | H : (_ <? _) = false |- _ => apply Z.ltb_ge in H
  | H : (_ <=? _) = true |- _ => apply Z.leb_le in H
  | H : (_ <=? _) = false |- _ => apply Z.leb_gt in H
  end.

(** all the conditionals of the goal, their conditions as propositions *)
Ltac zors :=
  zbool; repeat match goal with
  | H : (_ = false) \/ _ |- _ => destruct H; zbool
  | H : (_ = true) \/ _ |- _ => destruct H; zbool
  end.
Ltac zcases := repeat case_bool; zors.

(** ... and those of the hypotheses *)
Ltac zcases_all :=
  repeat match goal with
  | |- context [if ?b then _ else _] => destruct b eqn:?
  | H : context [if ?b then _ else _] |- _ => destruct b eqn:?
  end; zors.

(** running one step of a monadic program whose result is known *)
Lemma bind_ok {S A B} (m : ST S A) (k : A -> ST S B) s a s' :
  m s = Some (a, s') -> st_bind m k s = k a s'.
Proof. unfold st_bind. by intros ->. Qed.

Lemma bind_assoc_ok {S A B} (m : ST S A) (k : A -> ST S B) s r :
  (exists a s', m s = Some (a, s') /\ k a s' = r) -> st_bind m k s = r.
Proof. intros (a & s' & Hm & Hk). by rewrite (bind_ok _ _ _ _ _ Hm). Qed.

Ltac st_step H := cbv beta iota; rewrite (bind_ok _ _ _ _ _ H); cbv beta iota.

(** ** Lemmas on machine integers *)

Lemma s32_small x : - 2 ^ 31 <= x < 2 ^ 31 -> s32 x = x.
Proof. intros H. unfold s32, sx. change (2 ^ (32 - 1)) with (2 ^ 31). rewrite Z.mod_small by lia. lia. Qed.

Lemma u32_small x : is_u32 x -> u32 x = x.
Proof. apply Z.mod_small. Qed.

Lemma u64_small x : is_u64 x -> u64 x = x.
Proof. apply Z.mod_small. Qed.

Lemma u16_small x : is_u16 x -> u16 x = x.
Proof. apply Z.mod_small. Qed.

Lemma u8_small x : is_u8 x -> u8 x = x.
Proof. apply Z.mod_small. Qed.

Lemma u32_bound x : is_u32 (u32 x).
Proof. apply Z.mod_pos_bound. lia. Qed.

Lemma u16_bound x : is_u16 (u16 x).
Proof. apply Z.mod_pos_bound. lia. Qed.

Lemma u8_bound x : is_u8 (u8 x).
Proof. apply Z.mod_pos_bound. lia. Qed.

#[export] Hint Resolve u32_bound u16_bound u8_bound : banana.

(** masking a w-bit value with [w] ones is reduction mod 2^w *)
Lemma land_ones_mod x w : 0 <= w -> Z.land x (Z.ones w) = x mod 2 ^ w.
Proof. intros. by apply Z.land_ones. Qed.

Lemma testbit_u32 x i : 0 <= i < 32 -> Z.testbit (u32 x) i = Z.testbit x i.
Proof. intros. unfold u32. apply Z.mod_pow2_bits_low. lia. Qed.

Lemma testbit_u32_high x i : 32 <= i -> Z.testbit (u32 x) i = false.
Proof. intros. unfold u32. apply Z.mod_pow2_bits_high. lia. Qed.

(** clearing the low [w] bits rounds down to a multiple of 2^w *)
Lemma land_lnot_ones x w : 0 <= w ->
  Z.land x (Z.lnot (Z.ones w)) = x / 2 ^ w * 2 ^ w.
Proof.
  intros. rewrite <- Z.ldiff_land, Z.ldiff_ones_r by done.
  by rewrite Z.shiftl_mul_pow2, Z.shiftr_div_pow2.
Qed.

(** setting the low [w] bits *)
Lemma lor_ones x w : 0 <= w -> Z.lor x (Z.ones w) = x / 2 ^ w * 2 ^ w + Z.ones w.
Proof.
  intros Hw. rewrite Z.add_nocarry_lxor.
  - apply Z.bits_inj'. intros i Hi. rewrite Z.lor_spec, Z.lxor_spec. destruct (decide (i < w)).
    + rewrite Z.mul_pow2_bits_low, Z.ones_spec_low by lia. by rewrite orb_true_r.
    + rewrite Z.ones_spec_high, Z.mul_pow2_bits by lia. rewrite orb_false_r, xorb_false_r.
      rewrite <- Z.shiftr_div_pow2, Z.shiftr_spec by lia. f_equal. lia.
  - apply Z.bits_inj_0. intros i. rewrite Z.land_spec. destruct (decide (i < w)).
    + by rewrite Z.mul_pow2_bits_low by lia.
    + rewrite Z.ones_spec_high by lia. apply andb_false_r.
Qed.

(** a value below 2^k has no bit from [k] on *)
Lemma testbit_above k y i : 0 <= k <= i -> 0 <= y < 2 ^ k -> Z.testbit y i = false.
Proof. intros Hk Hy. rewrite <- (Z.mod_small y (2 ^ k)) by done. by apply Z.mod_pow2_bits_high. Qed.

(** or-ing a value into cleared low bits adds it *)
Lemma lor_low k x y : 0 <= k -> 0 <= y < 2 ^ k -> x mod 2 ^ k = 0 -> Z.lor x y = x + y.
Proof.
  intros Hk Hy Hx. assert (Hx' : x = Z.shiftl (x / 2 ^ k) k).
  { rewrite Z.shiftl_mul_pow2 by done. pose proof (Z.div_mod x (2 ^ k) ltac:(lia)). lia. }
  symmetry. rewrite Z.add_nocarry_lxor.
  - apply Z.bits_inj'. intros i Hi. rewrite Z.lor_spec, Z.lxor_spec.
    destruct (decide (i < k)).
    + rewrite Hx', Z.shiftl_spec_low by lia. done.
    + by rewrite (testbit_above k y), orb_false_r, xorb_false_r by lia.
  - apply Z.bits_inj_0. intros i. rewrite Z.land_spec. destruct (decide (i < k)).
    + rewrite Hx'. destruct (decide (0 <= i)); [by rewrite Z.shiftl_spec_low by lia|].
      by rewrite Z.testbit_neg_r by lia.
    + by rewrite (testbit_above k y), andb_false_r by lia.
Qed.

Lemma ctz_spec v : 0 < v ->
  Z.testbit v (ctz v) = true /\ 0 <= ctz v /\
  forall i, 0 <= i < ctz v -> Z.testbit v i = false.
Proof.
  destruct v as [|p|p]; try lia. intros _. simpl ctz.
  assert (Hnn : forall q, 0 <= pos_ctz q) by (induction q; simpl; lia).
  induction p as [p _|p IH|].
  - split_and!; [done | done | simpl; lia].
  - destruct IH as (IH1 & _ & IH3). specialize (Hnn p).
    change (Zpos (xO p)) with (2 * Zpos p). simpl pos_ctz.
    split_and!; [| lia |].
    + replace (1 + pos_ctz p) with (Z.succ (pos_ctz p)) by lia.
      by rewrite Z.double_bits_succ.
    + intros i Hi. destruct (decide (i = 0)) as [->|].
      { apply Z.testbit_even_0. }
      replace i with (Z.succ (i - 1)) by lia.
      rewrite Z.double_bits_succ. apply IH3. lia.
  - split_and!; [done | done | simpl; lia].
Qed.

(** ** Lemmas on arrays *)

Lemma zlen_nonneg {A} (l : list A) : 0 <= zlen l.
Proof. unfold zlen. lia. Qed.

Lemma zlen_app {A} (l k : list A) : zlen (l ++ k) = zlen l + zlen k.
Proof. unfold zlen. rewrite length_app. lia. Qed.

Lemma zlen_cons {A} (x : A) l : zlen (x :: l) = 1 + zlen l.
Proof. unfold zlen. simpl. lia. Qed.

Lemma zlen_nil {A} : zlen (@nil A) = 0.
Proof. done. Qed.

Lemma zlen_aset {A} (l : list A) i v : zlen (aset l i v) = zlen l.
Proof. unfold zlen, aset. by rewrite length_insert. Qed.

Lemma aget_aset_eq {A} `{Inhabited A} (l : list A) i v :
  0 <= i < zlen l -> aget (aset l i v) i = v.
Proof.
  unfold aget, aset, zlen. intros. apply list_lookup_total_insert_eq. lia.
Qed.

Lemma aget_aset_ne {A} `{Inhabited A} (l : list A) i j v :
  0 <= i -> 0 <= j -> i <> j -> aget (aset l i v) j = aget l j.
Proof.
  unfold aget, aset. intros. apply list_lookup_total_insert_ne. lia.
Qed.

Lemma zlist_ext {A} `{Inhabited A} (l k : list A) : zlen l = zlen k ->
  (forall i, 0 <= i < zlen l -> aget l i = aget k i) -> l = k.
Proof.
  intros Hlen Heq. unfold zlen in *. apply list_eq_same_length with (length l); [lia|lia|].
  intros i x y Hi Hx Hy. specialize (Heq (Z.of_nat i) ltac:(lia)). unfold aget in Heq.
  rewrite Nat2Z.id in Heq. rewrite (list_lookup_total_correct _ _ _ Hx) in Heq.
  by rewrite (list_lookup_total_correct _ _ _ Hy) in Heq.
Qed.

Lemma aget_app {A} `{Inhabited A} (l k : list A) i : 0 <= i ->
  aget (l ++ k) i = if i <? zlen l then aget l i else aget k (i - zlen l).
Proof.
  intros Hi. unfold aget, zlen. rewrite !list_lookup_total_alt. destruct (_ <? _) eqn:E; zbool.
  - by rewrite lookup_app_l by lia.
  - rewrite lookup_app_r by lia. do 2 f_equal. lia.
Qed.

Lemma aget_mid {A} `{Inhabited A} (pre post : list A) x i : i = zlen pre -> aget (pre ++ x :: post) i = x.
Proof.
  intros ->. rewrite aget_app by apply zlen_nonneg. rewrite Z.ltb_irrefl, Z.sub_diag. done.
Qed.

Lemma aset_mid {A} (pre post : list A) x y i : i = zlen pre -> aset (pre ++ x :: post) i y = pre ++ y :: post.
Proof.
  intros ->. unfold aset, zlen. rewrite Nat2Z.id. induction pre; simpl; [done|]. by f_equal.
Qed.

Lemma aget_take {A} `{Inhabited A} (l : list A) n i : 0 <= i < n -> aget (take (Z.to_nat n) l) i = aget l i.
Proof. intros Hi. unfold aget. by rewrite !list_lookup_total_alt, lookup_take_lt by lia. Qed.

Lemma aget_drop {A} `{Inhabited A} (l : list A) n i : 0 <= i -> 0 <= n ->
  aget (drop (Z.to_nat n) l) i = aget l (n + i).
Proof.
  intros Hi Hn. unfold aget. rewrite !list_lookup_total_alt, lookup_drop. do 2 f_equal. lia.
Qed.

Lemma zlen_take {A} (l : list A) n : 0 <= n -> zlen (take (Z.to_nat n) l) = Z.min n (zlen l).
Proof. intros. unfold zlen. rewrite length_take. lia. Qed.

Lemma zlen_drop {A} (l : list A) n : 0 <= n -> zlen (drop (Z.to_nat n) l) = Z.max 0 (zlen l - n).
Proof. intros. unfold zlen. rewrite length_drop. lia. Qed.

(** a list of bytes, and case analysis on one *)
Definition bytes (p : list Z) : Prop := Forall is_u8 p.

Lemma forall_byte (P : Z -> bool) : forallb P (seqZ 0 256) = true -> forall b, is_u8 b -> P b = true.
Proof.
  intros H b Hb. rewrite forallb_forall in H. apply H. apply list_elem_of_In, elem_of_seqZ. unfold is_u8 in Hb. lia.
Qed.

Lemma bytes_app p q : bytes (p ++ q) <-> bytes p /\ bytes q.
Proof. apply Forall_app. Qed.

Lemma bytes_slice p a b : bytes p -> bytes (slice p a b).
Proof. intros H. by apply Forall_take, Forall_drop. Qed.

Lemma byte_at p i : bytes p -> 0 <= i < zlen p -> is_u8 (aget p i).
Proof.
  intros H Hi. unfold aget. destruct (lookup_lt_is_Some_2 p (Z.to_nat i)) as [x Hx]; [unfold zlen in *; lia|].
  rewrite (list_lookup_total_correct _ _ _ Hx). by eapply Forall_lookup_1.
Qed.

Lemma zlen_slice {A} (p : list A) a b : 0 <= a <= b -> b <= zlen p -> zlen (slice p a b) = b - a.
Proof. intros Ha Hb. unfold slice. rewrite zlen_take, zlen_drop by lia. lia. Qed.

(** the sum of a list of integers *)
Definition zsum (l : list Z) : Z := foldr Z.add 0 l.

Lemma zsum_app l k : zsum (l ++ k) = zsum l + zsum k.
Proof. induction l as [|x l IH]; simpl; [done|]. unfold zsum in *. simpl in *. lia. Qed.

Lemma zsum_cons x l : zsum (x :: l) = x + zsum l.
Proof. done. Qed.

Lemma zsum_update {A} (g : A -> Z) (l : list A) i x y : l !! i = Some x ->
  zsum (map g (<[i := y]> l)) = zsum (map g l) - g x + g y.
Proof.
  revert i. induction l as [|z l IH]; intros i Hi; [done|]. destruct i as [|i].
  - injection Hi as ->. change (<[O := y]> (x :: l)) with (y :: l). cbn [map]. rewrite !zsum_cons. lia.
  - change (<[S i := y]> (z :: l)) with (z :: <[i := y]> l). cbn [map]. rewrite !zsum_cons, (IH i Hi). lia.
Qed.

#[export] Instance zsum_perm : Proper (Permutation ==> eq) zsum.
Proof.
  induction 1; rewrite ?zsum_cons; lia.
Qed.

#[export] Hint Rewrite @zlen_app @zlen_cons @zlen_nil @zlen_aset @zsum_app @zsum_cons : banana.
#[export] Hint Resolve zlen_nonneg : banana.

Lemma u32_sub_l x y : u32 (u32 x - y) = u32 (x - y).
Proof. unfold u32. by rewrite Zminus_mod_idemp_l. Qed.

(** ** Weakest preconditions of the error-and-state monad *)

(** no fault, and [Q] after *)

Definition wp {S A : Type} (m : ST S A) (Q : A -> S -> Prop) (s : S) : Prop :=
  match m s with Some (a, s') => Q a s' | None => False end.

Section wp.
Context {S : Type}.
Implicit Types s : S.

Lemma wp_ret {A} (a : A) (Q : A -> S -> Prop) s : Q a s -> wp (st_ret a) Q s.
Proof. done. Qed.

Lemma wp_bind {A B} (m : ST S A) (k : A -> ST S B) Q s : wp m (fun a => wp (k a) Q) s -> wp (st_bind m k) Q s.
Proof. unfold wp, st_bind. by destruct (m s) as [[a s']|]. Qed.

Lemma wp_get (Q : S -> S -> Prop) s : Q s s -> wp get Q s.
Proof. done. Qed.

Lemma wp_gets {A} (f : S -> A) (Q : A -> S -> Prop) s : Q (f s) s -> wp (gets f) Q s.
Proof. done. Qed.

Lemma wp_modify f (Q : unit -> S -> Prop) s : Q tt (f s) -> wp (modify f) Q s.
Proof. done. Qed.

Lemma wp_option {A} (o : option A) (Q : A -> S -> Prop) s : (exists a, o = Some a /\ Q a s) -> wp (of_option o) Q s.
Proof. by intros (a & -> & ?). Qed.

Lemma wp_mono {A} (m : ST S A) (P Q : A -> S -> Prop) s : wp m P s -> (forall a s', P a s' -> Q a s') -> wp m Q s.
Proof. unfold wp. intros H HPQ. destruct (m s) as [[a s']|]; [by apply HPQ|done]. Qed.

Lemma wp_when b (m : ST S unit) (Q : unit -> S -> Prop) s : (b = true -> wp m Q s) -> (b = false -> Q tt s) -> wp (when b m) Q s.
Proof. destruct b; intros H1 H2; [by apply H1|by apply H2]. Qed.

(** two facts about one run *)
Lemma wp_and {A} (m : ST S A) (P Q : A -> S -> Prop) s : wp m P s -> wp m Q s -> wp m (fun a s' => P a s' /\ Q a s') s.
Proof. unfold wp. by destruct (m s) as [[a s']|]. Qed.

Lemma wp_run {A} (m : ST S A) (Q : A -> S -> Prop) s : wp m Q s -> exists a s', m s = Some (a, s') /\ Q a s'.
Proof. unfold wp. destruct (m s) as [[a s']|]; [eauto|done]. Qed.
End wp.
