(* ===== verification/Lit.v ===== *)
(** String literals: the bytes of a C literal. *)

From stdpp Require Export strings.
From S2P Require Import Prelude.

#[global] Open Scope Z_scope.
#[global] Open Scope list_scope.

Definition str (x : string) : list Z := (fun a => Z.of_N (Ascii.N_of_ascii a)) <$> String.list_ascii_of_string x.
Arguments str x%_string.

(** the string in a buffer: its bytes before the first NUL *)
Fixpoint c_string (b : list Z) : list Z :=
  match b with
  | c :: b => if c =? 0 then [] else c :: c_string b
  | [] => []
  end.
