(* ===== verification/DList.v ===== *)
(** Doubly linked, zero-terminated lists threaded through a store of nodes.

    Two lists of kheap.c have this shape: the list of all blocks (block_t's
    prev and next) and the free list of each bin (flink_t in a free block's
    payload). [DNode] is the interface a node type offers; the lemmas below
    say what the code's pointer surgery does to the list it represents. *)

From S2P Require Import Prelude.

Class DNode (N : Type) := {
  dn_prev : N -> Z;
  dn_next : N -> Z;
  dn_set_prev : Z -> N -> N;
  dn_set_next : Z -> N -> N;
  dn_prev_set_prev v n : dn_prev (dn_set_prev v n) = v;
  dn_next_set_prev v n : dn_next (dn_set_prev v n) = dn_next n;
  dn_prev_set_next v n : dn_prev (dn_set_next v n) = dn_prev n;
  dn_next_set_next v n : dn_next (dn_set_next v n) = v;
}.

(** the first element of [l], or [q] past its end; the last, or [p] *)
Definition first (l : list Z) (q : Z) : Z := match l with [] => q | a :: _ => a end.
Definition final (l : list Z) (p : Z) : Z := default p (last l).

(** A segment: [f a] is the (prev, next) pair stored in node [a]. *)
Fixpoint dseg (f : Z -> option (Z * Z)) (p : Z) (l : list Z) (q : Z) : Prop :=
  match l with
  | [] => True
  | a :: l' => f a = Some (p, first l' q) /\ dseg f a l' q
  end.

Record dl (f : Z -> option (Z * Z)) (l : list Z) : Prop := {
  dl_nodup : NoDup l;
  dl_nonnull : 0 ∉ l;
  dl_seg : dseg f 0 l 0;
}.

(** the links a store of nodes holds *)
Definition links {N} `{DNode N} (m : gmap Z N) (a : Z) : option (Z * Z) :=
  (fun n => (dn_prev n, dn_next n)) <$> m !! a.

Definition set_next {N} `{DNode N} (m : gmap Z N) (a v : Z) : gmap Z N :=
  alter (dn_set_next v) a m.
Definition set_prev {N} `{DNode N} (m : gmap Z N) (a v : Z) : gmap Z N :=
  alter (dn_set_prev v) a m.

(** [if (a) a->next = v;] *)
Definition set_next_if {N} `{DNode N} (m : gmap Z N) (a v : Z) : gmap Z N :=
  if a =? 0 then m else set_next m a v.
Definition set_prev_if {N} `{DNode N} (m : gmap Z N) (a v : Z) : gmap Z N :=
  if a =? 0 then m else set_prev m a v.

(** ** Segments *)

Lemma final_snoc l a p : final (l ++ [a]) p = a.
Proof. unfold final. by rewrite last_snoc. Qed.

Lemma final_cons a l p : final (a :: l) p = final l a.
Proof. unfold final. rewrite last_cons. by destruct (last l). Qed.

Lemma final_app l k p : final (l ++ k) p = final k (final l p).
Proof.
  revert p. induction l as [|a l IH]; intros p; simpl; [done|].
  by rewrite !final_cons.
Qed.

Lemma first_app l k q : first (l ++ k) q = first l (first k q).
Proof. by destruct l. Qed.

Lemma first_elem l : l <> [] -> first l 0 ∈ l.
Proof. destruct l; [done|]. intros _. left. Qed.

Lemma final_elem l : l <> [] -> final l 0 ∈ l.
Proof.
  intros Hl. destruct l as [|a l] using rev_ind; [done|].
  rewrite final_snoc. apply elem_of_app. right. left.
Qed.

Lemma dseg_app f p l k q :
  dseg f p (l ++ k) q <-> dseg f p l (first k q) /\ dseg f (final l p) k q.
Proof.
  revert p. induction l as [|a l IH]; intros p; simpl.
  { unfold final. simpl. tauto. }
  rewrite IH, first_app, final_cons. tauto.
Qed.

Lemma dseg_ext f g p l q :
  (forall x, x ∈ l -> f x = g x) -> dseg f p l q -> dseg g p l q.
Proof.
  revert p. induction l as [|a l IH]; intros p Hfg; simpl; [done|].
  intros [Ha Hl]. split.
  - rewrite <- Hfg; [done|left].
  - apply IH; [|done]. intros x Hx. apply Hfg. by right.
Qed.

Lemma dl_ext f g l : (forall x, x ∈ l -> f x = g x) -> dl f l -> dl g l.
Proof.
  intros Hfg [Hn H0 Hs]. split; [done..|]. by apply (dseg_ext f).
Qed.

Lemma dl_in f l a : dl f l -> a ∈ l -> is_Some (f a).
Proof.
  intros [_ _ Hs] Ha. apply list_elem_of_split in Ha as (l1 & l2 & ->).
  apply dseg_app in Hs as [_ [Hf _]]. eauto.
Qed.

(** the node in the middle of a list points at its neighbours *)
Lemma dl_at f l1 a l2 :
  dl f (l1 ++ a :: l2) -> f a = Some (final l1 0, first l2 0).
Proof. intros [_ _ Hs]. by apply dseg_app in Hs as [_ [? _]]. Qed.

Lemma dl_first_zero f l : dl f l -> first l 0 = 0 <-> l = [].
Proof.
  intros [_ H0 _]. split; [|by intros ->]. destruct l as [|a l]; [done|].
  simpl. intros ->. exfalso. apply H0. left.
Qed.

(** ** Stores *)

Section stores.
Context {N : Type} `{DNode N}.
Implicit Types (m : gmap Z N) (l : list Z).

Lemma links_set_next m a v x :
  links (set_next m a v) x =
  if decide (x = a) then (fun pn => (fst pn, v)) <$> links m x else links m x.
Proof.
  unfold links, set_next. case_decide as Hx.
  - subst. rewrite lookup_alter_eq. destruct (m !! a); simpl; [|done].
    by rewrite dn_prev_set_next, dn_next_set_next.
  - by rewrite lookup_alter_ne.
Qed.

Lemma links_set_prev m a v x :
  links (set_prev m a v) x =
  if decide (x = a) then (fun pn => (v, snd pn)) <$> links m x else links m x.
Proof.
  unfold links, set_prev. case_decide as Hx.
  - subst. rewrite lookup_alter_eq. destruct (m !! a); simpl; [|done].
    by rewrite dn_prev_set_prev, dn_next_set_prev.
  - by rewrite lookup_alter_ne.
Qed.

Lemma links_insert m a n x :
  links (<[a := n]> m) x =
  if decide (x = a) then Some (dn_prev n, dn_next n) else links m x.
Proof.
  unfold links. case_decide as Hx.
  - subst. by rewrite lookup_insert_eq.
  - by rewrite lookup_insert_ne.
Qed.

(** changing the successor of a segment changes only its last node *)
Lemma dseg_retarget f g p l q q' :
  NoDup l ->
  (forall x, x ∈ l -> x <> final l 0 -> g x = f x) ->
  (l <> [] -> g (final l 0) = (fun pn => (fst pn, q')) <$> f (final l 0)) ->
  dseg f p l q -> dseg g p l q'.
Proof.
  intros Hnd Hsame Hlast Hs.
  destruct l as [|a l] using rev_ind; [done|]. clear IHl.
  rewrite final_snoc in *. apply dseg_app in Hs as [Hs [Ha _]].
  apply NoDup_app in Hnd as (_ & Hd & _).
  apply dseg_app. split.
  - simpl in *. apply (dseg_ext f); [|done]. intros x Hx. symmetry. apply Hsame.
    + apply elem_of_app. by left.
    + intros ->. apply (Hd a Hx). left.
  - simpl in *. rewrite Hlast by (intros Hc; by apply (f_equal length) in Hc; rewrite length_app in Hc; simpl in Hc; lia). by rewrite Ha.
Qed.

(** changing the predecessor of a segment changes only its first node *)
Lemma dseg_reprev f g p p' l q :
  NoDup l ->
  (forall x, x ∈ l -> x <> first l 0 -> g x = f x) ->
  (l <> [] -> g (first l 0) = (fun pn => (p', snd pn)) <$> f (first l 0)) ->
  dseg f p l q -> dseg g p' l q.
Proof.
  intros Hnd Hsame Hfirst Hs. destruct l as [|a l]; [done|].
  simpl in *. destruct Hs as [Ha Hs]. split.
  - rewrite Hfirst by done. by rewrite Ha.
  - apply (dseg_ext f); [|done]. intros x Hx. symmetry. apply Hsame.
    + by right.
    + intros ->. apply NoDup_cons in Hnd as [? _]. done.
Qed.

Lemma dl_split_nodup (f : Z -> option (Z * Z)) l1 a l2 :
  dl f (l1 ++ a :: l2) ->
  NoDup l1 /\ NoDup l2 /\ a ∉ l1 /\ a ∉ l2 /\ a <> 0 /\
  0 ∉ l1 /\ 0 ∉ l2 /\ (forall x, x ∈ l1 -> x ∉ l2).
Proof.
  intros [Hnd H0 _]. apply NoDup_app in Hnd as (H1 & H12 & Ha).
  apply NoDup_cons in Ha as [Ha2 H2].
  split_and!; try done.
  - intros Hc. apply (H12 a Hc). left.
  - intros ->. apply H0. set_solver.
  - intros Hc. apply H0. set_solver.
  - intros Hc. apply H0. set_solver.
  - intros x Hx Hx2. apply (H12 x Hx). by right.
Qed.

Lemma first_in l : first l 0 <> 0 -> first l 0 ∈ l.
Proof. intros Hl. apply first_elem. by intros ->. Qed.

Lemma final_in l : final l 0 <> 0 -> final l 0 ∈ l.
Proof. intros Hl. apply final_elem. by intros ->. Qed.

(** Unlinking [a]: its predecessor, if any, gets its successor, and its
    successor, if any, its predecessor - in any function [g] that differs
    from the old links only so. *)
Lemma dl_unlink_fun (f g : Z -> option (Z * Z)) l1 a l2 :
  dl f (l1 ++ a :: l2) ->
  (forall x, x ∈ l1 ++ l2 -> x <> final l1 0 -> x <> first l2 0 -> g x = f x) ->
  (l1 <> [] -> g (final l1 0) = (fun pn => (fst pn, first l2 0)) <$> f (final l1 0)) ->
  (l2 <> [] -> g (first l2 0) = (fun pn => (final l1 0, snd pn)) <$> f (first l2 0)) ->
  dl g (l1 ++ l2).
Proof.
  intros Hdl Hsame Hp Hq.
  destruct (dl_split_nodup _ _ _ _ Hdl) as (N1 & N2 & A1 & A2 & _ & Z1 & Z2 & D).
  destruct Hdl as [Hnd H0 Hs].
  apply dseg_app in Hs as [Hs1 [_ Hs2]]. split.
  - apply NoDup_app. done.
  - set_solver.
  - apply dseg_app. split.
    + apply (dseg_retarget f g _ _ (first (a :: l2) 0)); try done.
      intros x Hx Hxf. apply Hsame; [set_solver | done |].
      intros ->. destruct l2 as [|b l2]; [simpl in Hx; done|].
      apply (D _ Hx). left.
    + apply (dseg_reprev f g a); try done.
      intros x Hx Hxf. apply Hsame; [set_solver | | done].
      intros ->. destruct l1 as [|b l1']; [unfold final in Hx; simpl in Hx; done|].
      apply (D (final (b :: l1') 0)); [by apply final_elem | done].
Qed.

(** kheap.c's two-sided unlink, as bin_remove and the merges write it *)
Lemma dl_unlink m l1 a l2 :
  dl (links m) (l1 ++ a :: l2) ->
  dl (links (set_prev_if (set_next_if m (final l1 0) (first l2 0))
              (first l2 0) (final l1 0))) (l1 ++ l2).
Proof.
  intros Hdl.
  destruct (dl_split_nodup _ _ _ _ Hdl) as (N1 & N2 & A1 & A2 & _ & Z1 & Z2 & D).
  assert (Hpq : l1 <> [] -> first l2 0 <> final l1 0).
  { intros Hne Heq. pose proof (final_elem l1 Hne) as Hf.
    destruct l2 as [|b l2].
    - simpl in Heq. rewrite <- Heq in Hf. done.
    - simpl in Heq. subst. apply (D _ Hf). left. }
  unfold set_prev_if, set_next_if.
  apply (dl_unlink_fun (links m) _ l1 a l2 Hdl).
  - intros x Hx Hxp Hxq.
    destruct (first l2 0 =? 0), (final l1 0 =? 0);
      rewrite ?links_set_prev, ?decide_False, ?links_set_next, ?decide_False; done.
  - intros Hne. pose proof (final_elem l1 Hne) as Hf.
    destruct (final l1 0 =? 0) eqn:E1; [zbool; congruence|].
    destruct (first l2 0 =? 0); rewrite ?links_set_prev, ?decide_False,
      ?links_set_next, decide_True; try done.
    intros Heq. by apply (Hpq Hne).
  - intros Hne. pose proof (first_elem l2 Hne) as Hf.
    destruct (first l2 0 =? 0) eqn:E1; [zbool; congruence|].
    rewrite links_set_prev, decide_True by done.
    destruct (final l1 0 =? 0) eqn:E2; [done|].
    rewrite links_set_next, decide_False; [done|].
    intros Heq. destruct l1 as [|b l1'].
    + unfold final in E2. simpl in E2. done.
    + by apply Hpq.
Qed.

(** writing a whole node in front of the list, as bin_insert does *)
Lemma dl_push_front m l a n :
  dl (links m) l -> a ∉ l -> a <> 0 ->
  dn_prev n = 0 -> dn_next n = first l 0 ->
  dl (links (set_prev_if (<[a := n]> m) (first l 0) a)) (a :: l).
Proof.
  intros [Hnd H0 Hs] Ha Ha0 Hp Hn. unfold set_prev_if.
  destruct l as [|b l]; simpl in *.
  { split; [apply NoDup_singleton | set_solver | simpl].
    rewrite links_insert, decide_True by done. by rewrite Hp, Hn. }
  assert (Hb : (b =? 0) = false) by (apply Z.eqb_neq; set_solver).
  rewrite Hb. apply NoDup_cons in Hnd as [Hbl Hnd]. destruct Hs as [Hfb Hs].
  split; [apply NoDup_cons; split; [done|by apply NoDup_cons] | set_solver | simpl].
  split_and!.
  - rewrite links_set_prev, decide_False, links_insert, decide_True by set_solver.
    by rewrite Hp, Hn.
  - rewrite links_set_prev, decide_True, links_insert, decide_False by set_solver.
    by rewrite Hfb.
  - apply (dseg_ext (links m)); [|done]. intros x Hx.
    rewrite links_set_prev, decide_False, links_insert, decide_False; set_solver.
Qed.

(** writing a whole node after [b], as split and take_aligned do *)
Lemma dl_insert_after m l1 b l2 a n :
  dl (links m) (l1 ++ b :: l2) -> a ∉ l1 ++ b :: l2 -> a <> 0 ->
  dn_prev n = b -> dn_next n = first l2 0 ->
  dl (links (set_next (set_prev_if (<[a := n]> m) (first l2 0) a) b a))
     (l1 ++ b :: a :: l2).
Proof.
  intros Hdl Ha Ha0 Hp Hn.
  destruct (dl_split_nodup _ _ _ _ Hdl) as (N1 & N2 & A1 & A2 & B0 & Z1 & Z2 & D).
  destruct Hdl as [Hnd H0 Hs]. unfold set_prev_if.
  apply dseg_app in Hs as [Hs1 [Hfb Hs2]].
  assert (Hq : forall x, x ∉ b :: l2 -> x <> a -> x <> 0 ->
    links (set_next (if first l2 0 =? 0 then <[a:=n]> m
      else set_prev (<[a:=n]> m) (first l2 0) a) b a) x = links m x).
  { intros x Hx Hxa Hx0. rewrite links_set_next, decide_False by set_solver.
    destruct (first l2 0 =? 0) eqn:E.
    - by rewrite links_insert, decide_False.
    - zbool. rewrite links_set_prev, decide_False, links_insert, decide_False; [done..|].
      intros ->. apply Hx. right. by apply first_in. }
  split.
  - apply NoDup_app. split_and!; [done | set_solver |].
    apply NoDup_cons. split; [set_solver|]. apply NoDup_cons. set_solver.
  - set_solver.
  - apply dseg_app. split; [|simpl; split_and!].
    + apply (dseg_ext (links m)); [|done]. intros x Hx. symmetry.
      apply Hq; set_solver.
    + rewrite links_set_next, decide_True by done.
      destruct (first l2 0 =? 0) eqn:E.
      * rewrite links_insert, decide_False, Hfb by set_solver. done.
      * zbool. rewrite links_set_prev, decide_False, links_insert, decide_False, Hfb;
          [done | set_solver |]. intros ->. apply A2. by apply first_in.
    + rewrite links_set_next, decide_False by set_solver.
      destruct (first l2 0 =? 0) eqn:E.
      * rewrite links_insert, decide_True by done. by rewrite Hp, Hn.
      * zbool. rewrite links_set_prev, decide_False, links_insert, decide_True;
          [by rewrite Hp, Hn | done |].
        intros Heq. apply Ha. rewrite Heq. pose proof (first_in l2 E). set_solver.
    + destruct l2 as [|c l2]; simpl in *; [done|].
      assert (E : (c =? 0) = false) by (apply Z.eqb_neq; set_solver).
      rewrite E in *. apply NoDup_cons in N2 as [Hc N2]. destruct Hs2 as [Hfc Hs2]. split.
      * rewrite links_set_next, decide_False by set_solver.
        rewrite links_set_prev, decide_True by done.
        rewrite links_insert, decide_False, Hfc by set_solver. done.
      * apply (dseg_ext (links m)); [|done]. intros x Hx. symmetry.
        rewrite links_set_next, decide_False by set_solver.
        rewrite links_set_prev, decide_False by set_solver.
        rewrite links_insert, decide_False; set_solver.
Qed.
End stores.
