(* ===== verification/KHeap.v ===== *)
(** The kernel heap (src/kernel/kheap.c): a two-level segregated-fit allocator
    whose blocks tile the heap, modelled on the 64-bit kernel (a 32-byte block
    header, so [HDR = 32]; pointers and sizes as in the code). *)

From S2P Require Import Prelude DList.

(** ** Data *)

Record block := Block { size : Z; used : Z; prev : Z; next : Z }.
#[export] Instance block_eta : Eta block := fun b => Block (size b) (used b) (prev b) (next b).

(** the links in a free block's payload *)
Record flink_t := Flink { l_next : Z; l_prev : Z }.
#[export] Instance flink_eta : Eta flink_t := fun l => Flink (l_next l) (l_prev l).

#[export, refine] Instance block_dnode : DNode block := {|
  dn_prev := prev; dn_next := next;
  dn_set_prev v b := b <| prev := v |>; dn_set_next v b := b <| next := v |> |}.
Proof. all: reflexivity. Defined.

#[export, refine] Instance flink_dnode : DNode flink_t := {|
  dn_prev := l_prev; dn_next := l_next;
  dn_set_prev v b := b <| l_prev := v |>; dn_set_next v b := b <| l_next := v |> |}.
Proof. all: reflexivity. Defined.

Definition HEAP_MAGIC : Z := 0xB16B00B5.
Definition HDR : Z := 32.
Definition ALIGN : Z := 16.
Definition MIN_SPLIT : Z := 64.
Definition SL_LOG : Z := 4.
Definition SL_N : Z := 16.
Definition FL_SHIFT : Z := 8.
Definition FL_N : Z := 25.

(** the block headers and free links in memory, by the block's address, and
    the file's static variables; address 0 is NULL *)
Record heap := Heap {
  blocks : gmap Z block;
  flinks : gmap Z flink_t;
  g_head : Z;
  g_bin : gmap (Z * Z) Z;
  g_flmap : Z;
  g_slmap : gmap Z Z;
  g_total : Z;
  g_used : Z;
}.
#[export] Instance heap_eta : Eta heap := fun h =>
  Heap (blocks h) (flinks h) (g_head h) (g_bin h) (g_flmap h) (g_slmap h) (g_total h) (g_used h).

Definition heap0 : heap := Heap ∅ ∅ 0 ∅ 0 ∅ 0 0.

Abbreviation M := (ST heap).

(** ** Memory accesses *)

(** a read of the header at [a]; a fault where no header was ever written *)
Definition load (a : Z) : M block := fun h =>
  match blocks h !! a with Some b => Some (b, h) | None => None end.
Definition store (a : Z) (f : block -> block) : M unit := fun h =>
  match blocks h !! a with
  | Some b => Some (tt, h <| blocks ::= <[a := f b]> |>)
  | None => None
  end.
(** all four fields of a new header *)
Definition write_header (a : Z) (b : block) : M unit := modify (fun h => h <| blocks ::= <[a := b]> |>).

Definition load_links (a : Z) : M flink_t := fun h =>
  match flinks h !! a with Some l => Some (l, h) | None => None end.
Definition store_links (a : Z) (f : flink_t -> flink_t) : M unit := fun h =>
  match flinks h !! a with
  | Some l => Some (tt, h <| flinks ::= <[a := f l]> |>)
  | None => None
  end.
Definition write_links (a : Z) (l : flink_t) : M unit := modify (fun h => h <| flinks ::= <[a := l]> |>).

(** g_bin[fl][sl] and g_slmap[fl]: static arrays, zero at first *)
Definition bin (h : heap) (k : Z * Z) : Z := default 0 (g_bin h !! k).
Definition slmap (h : heap) (fl : Z) : Z := default 0 (g_slmap h !! fl).
Definition in_table (fl sl : Z) : bool := (0 <=? fl) && (fl <? FL_N) && (0 <=? sl) && (sl <? SL_N).
Definition get_bin (fl sl : Z) : M Z := fun h =>
  if in_table fl sl then Some (bin h (fl, sl), h) else None.
Definition set_bin (fl sl v : Z) : M unit := fun h =>
  if in_table fl sl then Some (tt, h <| g_bin ::= <[(fl, sl) := v]> |>) else None.
Definition get_slmap (fl : Z) : M Z := fun h =>
  if in_table fl 0 then Some (slmap h fl, h) else None.
Definition set_slmap (fl v : Z) : M unit := fun h =>
  if in_table fl 0 then Some (tt, h <| g_slmap ::= <[fl := v]> |>) else None.

(** ** The bins *)

Definition log2u (v : Z) : Z := 31 - clz32 v.

Definition bin_of (sz : Z) : Z * Z :=
  if sz <? Z.shiftl 1 FL_SHIFT then (0, Z.shiftr sz (FL_SHIFT - SL_LOG))
  else let f := log2u sz in
       (f - (FL_SHIFT - 1), Z.lxor (Z.shiftr sz (f - SL_LOG)) SL_N).

Definition bin_insert (b : Z) : M unit :=
  let! blk := load b in
  let '(fl, sl) := bin_of (size blk) in
  let! nx := get_bin fl sl in
  write_links b (Flink nx 0) ;;;
  when (negb (nx =? 0)) (store_links nx (fun l => l <| l_prev := b |>)) ;;;
  set_bin fl sl b ;;;
  modify (fun h => h <| g_flmap ::= fun m => Z.lor m (Z.shiftl 1 fl) |>) ;;;
  let! m := get_slmap fl in
  set_slmap fl (Z.lor m (Z.shiftl 1 sl)).

Definition bin_remove (b : Z) : M unit :=
  let! blk := load b in
  let '(fl, sl) := bin_of (size blk) in
  let! l := load_links b in
  (if negb (l_prev l =? 0) then store_links (l_prev l) (fun p => p <| l_next := l_next l |>)
   else set_bin fl sl (l_next l)) ;;;
  when (negb (l_next l =? 0)) (store_links (l_next l) (fun n => n <| l_prev := l_prev l |>)) ;;;
  let! head := get_bin fl sl in
  when (head =? 0)
    (let! m := get_slmap fl in
     let m' := Z.land m (u32 (Z.lnot (Z.shiftl 1 sl))) in
     set_slmap fl m' ;;;
     when (m' =? 0)
       (modify (fun h => h <| g_flmap ::= fun m => Z.land m (u32 (Z.lnot (Z.shiftl 1 fl))) |>))).

(** the size bin_take searches for: [need] rounded up to its bin's step, or
    [None] when that does not fit in 32 bits *)
Definition take_size (need : Z) : option Z :=
  if Z.shiftl 1 FL_SHIFT <=? need then
    let round := Z.shiftl 1 (log2u need - SL_LOG) - 1 in
    if u32 (need + round) <? need then None else Some (u32 (need + round))
  else Some need.

Definition bin_take (need : Z) : M Z :=
  match take_size need with
  | None => st_ret 0
  | Some want =>
    let '(fl, sl) := bin_of want in
    if FL_N <=? fl then st_ret 0 else
    let! m := get_slmap fl in
    let slm := Z.land m (u32 (Z.shiftl 0xFFFFFFFF sl)) in
    let found (fl slm : Z) : M Z :=
      let! b := get_bin fl (ctz slm) in
      bin_remove b ;;; st_ret b in
    if slm =? 0 then
      let! flmap := gets g_flmap in
      let flm := if fl + 1 <? 32 then Z.land flmap (u32 (Z.shiftl 0xFFFFFFFF (fl + 1))) else 0 in
      if flm =? 0 then st_ret 0 else
      let! slm' := get_slmap (ctz flm) in
      found (ctz flm) slm'
    else found fl slm
  end.

(** ** Splitting and merging *)

Definition align_up (v a : Z) : Z := Z.land (u32 (v + a - 1)) (u32 (Z.lnot (a - 1))).

(** [if (a) a->prev = v;] *)
Definition set_prev_of (a v : Z) : M unit :=
  when (negb (a =? 0)) (store a (fun b => b <| prev := v |>)).

Definition split (b sz : Z) : M unit :=
  let! blk := load b in
  if size blk <? u32 (sz + HDR + MIN_SPLIT) then st_ret tt else
  let n := b + HDR + sz in
  write_header n (Block (u32 (size blk - sz - HDR)) 0 b (next blk)) ;;;
  set_prev_of (next blk) n ;;;
  store b (fun x => x <| next := n |>) ;;;
  store b (fun x => x <| size := sz |>) ;;;
  let after := next blk in
  (if after =? 0 then st_ret tt else
   let! ab := load after in
   when (used ab =? 0)
     (bin_remove after ;;;
      store n (fun x => x <| size ::= fun s => u32 (s + (HDR + size ab)) |>) ;;;
      store n (fun x => x <| next := next ab |>) ;;;
      set_prev_of (next ab) n)) ;;;
  bin_insert n.

Definition merge_next (b : Z) : M unit :=
  let! blk := load b in
  let n := next blk in
  if n =? 0 then st_ret tt else
  let! nb := load n in
  if negb (used nb =? 0) then st_ret tt else
  bin_remove n ;;;
  store b (fun x => x <| size ::= fun s => u32 (s + (HDR + size nb)) |>) ;;;
  store b (fun x => x <| next := next nb |>) ;;;
  set_prev_of (next nb) b.

(** [b->used = HEAP_MAGIC; g_used += b->size; return b + HDR;] *)
Definition hand_out (b : Z) : M Z :=
  store b (fun x => x <| used := HEAP_MAGIC |>) ;;;
  let! blk := load b in
  modify (fun h => h <| g_used ::= fun u => u32 (u + size blk) |>) ;;;
  st_ret (b + HDR).

Definition find_fit (need : Z) : M Z :=
  let! b := bin_take need in
  if b =? 0 then st_ret 0 else
  split b need ;;;
  hand_out b.

(** ** The allocator's calls *)

Section reclaim.
(** [may_reclaim()] (a callback is set, interrupts are on, the boot core) and
    the callback itself, which fs.c registers: it runs with the lock free,
    so it may change the heap through these same calls. *)
Context (may_reclaim : bool) (reclaim : Z -> heap -> heap).

Definition kmalloc (sz : Z) : M Z := fun h =>
  if (g_head h =? 0) || (sz =? 0) || (0xF0000000 <? sz) then Some (0, h) else
  let need := align_up (u32 sz) ALIGN in
  match find_fit need h with
  | Some (p, h1) =>
    if (p =? 0) && may_reclaim then find_fit need (reclaim (u32 (need + HDR)) h1)
    else Some (p, h1)
  | None => None
  end.

(** memset of [n] bytes of a payload; a fault if it is shorter *)
Definition memset_payload (p n : Z) : M unit :=
  let! b := load (p - HDR) in
  if n <=? size b then st_ret tt else fault.

Definition kzalloc (sz : Z) : M Z :=
  let! p := kmalloc sz in
  when (negb (p =? 0)) (memset_payload p sz) ;;;
  st_ret p.

(** [while (a != s && a - s < HDR + MIN_SPLIT) a += align;], with fuel *)
Fixpoint skip_sliver (fuel : nat) (s align a : Z) : option Z :=
  if negb (a =? s) && (u64 (a - s) <? HDR + MIN_SPLIT) then
    match fuel with
    | O => None
    | S fuel => skip_sliver fuel s align (u64 (a + align))
    end
  else Some a.

Definition aligned_spot (b bsize need align : Z) : option Z :=
  let s := b + HDR in
  let e := s + bsize in
  match skip_sliver 96 s align (Z.land (u64 (s + align - 1)) (u64 (Z.lnot (u32 (align - 1))))) with
  | Some a => Some (if a + need <=? e then a else 0)
  | None => None
  end.

Definition take_aligned (b a need : Z) : M Z :=
  let! blk := load b in
  let s := b + HDR in
  let e := s + size blk in
  let! b' :=
    (if a =? s then st_ret b else
     let n := a - HDR in
     write_header n (Block (u32 (e - a)) 0 b (next blk)) ;;;
     set_prev_of (next blk) n ;;;
     store b (fun x => x <| next := n |>) ;;;
     store b (fun x => x <| size := u32 (n - s) |>) ;;;
     bin_insert b ;;;
     st_ret n) in
  split b' need ;;;
  hand_out b'.

(** the walk over every block of find_fit_aligned, from [b] on; [fuel] is the
    number of blocks the list may still have *)
Fixpoint scan_aligned (fuel : nat) (b need align : Z) : M Z :=
  if b =? 0 then st_ret 0 else
  match fuel with
  | O => fault
  | S fuel =>
    let! blk := load b in
    if negb (used blk =? 0) || (size blk <? need) then scan_aligned fuel (next blk) need align else
    let! a := of_option (aligned_spot b (size blk) need align) in
    if a =? 0 then scan_aligned fuel (next blk) need align else
    bin_remove b ;;;
    take_aligned b a need
  end.

Definition find_fit_aligned (need align : Z) : M Z :=
  let room := need + align + HDR + MIN_SPLIT in
  let scan : M Z := fun h => scan_aligned (S (base.size (blocks h))) (g_head h) need align h in
  if room <? 0xF0000000 then
    let! b := bin_take room in
    if b =? 0 then scan else
    let! blk := load b in
    let! a := of_option (aligned_spot b (size blk) need align) in
    if a =? 0 then bin_insert b ;;; scan
    else take_aligned b a need
  else scan.

Definition kmalloc_aligned (sz align : Z) : M Z := fun h =>
  if align <=? ALIGN then kmalloc sz h else
  if (g_head h =? 0) || (sz =? 0) || (0xF0000000 <? sz)
     || negb (Z.land align (align - 1) =? 0) then Some (0, h) else
  let need := align_up (u32 sz) ALIGN in
  match find_fit_aligned need (u32 align) h with
  | Some (p, h1) =>
    if (p =? 0) && may_reclaim
    then find_fit_aligned need (u32 align) (reclaim (u32 (need + u32 align + HDR)) h1)
    else Some (p, h1)
  | None => None
  end.

(** the header before payload [p] if it is marked allocated, else NULL *)
Definition hdr_of (p : Z) : M Z :=
  let! b := load (p - HDR) in
  st_ret (if used b =? HEAP_MAGIC then p - HDR else 0).

Definition kfree (ptr : Z) : M unit :=
  if ptr =? 0 then st_ret tt else
  let! b := hdr_of ptr in
  if b =? 0 then st_ret tt else
  let! blk := load b in
  modify (fun h => h <| g_used ::= fun u => u32 (u - size blk) |>) ;;;
  store b (fun x => x <| used := 0 |>) ;;;
  merge_next b ;;;
  let! blk := load b in
  let p := prev blk in
  if p =? 0 then bin_insert b else
  let! pb := load p in
  if negb (used pb =? 0) then bin_insert b else
  bin_remove p ;;;
  store p (fun x => x <| size ::= fun s => u32 (s + (HDR + size blk)) |>) ;;;
  store p (fun x => x <| next := next blk |>) ;;;
  set_prev_of (next blk) p ;;;
  bin_insert p.

(** memcpy of [n] bytes between two payloads; a fault if either is shorter *)
Definition memcpy_payload (dst src n : Z) : M unit :=
  let! d := load (dst - HDR) in
  let! s := load (src - HDR) in
  if (n <=? size d) && (n <=? size s) then st_ret tt else fault.

Definition krealloc (ptr sz : Z) : M Z :=
  if ptr =? 0 then kmalloc sz else
  if sz =? 0 then kfree ptr ;;; st_ret 0 else
  let! b := hdr_of ptr in
  if b =? 0 then st_ret 0 else
  let need := align_up (u32 sz) ALIGN in
  let! blk := load b in
  if need <=? size blk then st_ret ptr else
  let n := next blk in
  let! grow :=
    (if n =? 0 then st_ret false else
     let! nb := load n in
     st_ret ((used nb =? 0) && (need <=? u32 (u32 (size blk + HDR) + size nb)))) in
  if grow : bool then
    modify (fun h => h <| g_used ::= fun u => u32 (u - size blk) |>) ;;;
    merge_next b ;;;
    split b need ;;;
    let! blk' := load b in
    modify (fun h => h <| g_used ::= fun u => u32 (u + size blk') |>) ;;;
    st_ret ptr
  else
    let! np := kmalloc sz in
    if np =? 0 then st_ret 0 else
    memcpy_payload np ptr (size blk) ;;;
    kfree ptr ;;;
    st_ret np.
End reclaim.

(** ** Start-up: the region the heap gets *)

Definition HEAP_MIN_ADDR : Z := 0x100000.
Definition HEAP_MAX_ADDR : Z := 0xE0000000.

(** the first excluded range [i] that overlaps [lo, hi) *)
Fixpoint overlap (lo hi : Z) (xs : list (Z * Z)) : option (Z * Z) :=
  match xs with
  | [] => None
  | (xlo, xhi) :: xs' =>
    if (xhi <=? lo) || (hi <=? xlo) then overlap lo hi xs' else Some (xlo, xhi)
  end.

(** the largest piece of [lo, hi) outside the excluded ranges, if larger than
    [best]; [None] when the fuel (the depth of the recursion) runs out *)
Fixpoint consider (fuel : nat) (xs : list (Z * Z)) (lo hi : Z) (best : Z * Z) : option (Z * Z) :=
  let lo := if lo <? HEAP_MIN_ADDR then HEAP_MIN_ADDR else lo in
  let hi := if HEAP_MAX_ADDR <? hi then HEAP_MAX_ADDR else hi in
  if hi <=? lo then Some best else
  match overlap lo hi xs with
  | Some (xlo, xhi) =>
    match fuel with
    | O => None
    | S fuel =>
      best1 ← consider fuel xs lo xlo best;
      consider fuel xs xhi hi best1
    end
  | None => Some (if best.2 - best.1 <? hi - lo then (lo, hi) else best)
  end.

Section pick_region.
(** memory as 32- and 64-bit reads; [_kernel_end] of boot/linker.ld *)
Context (rd32 rd64 : Z -> Z) (kernel_end : Z).

Definition excluded (mb2 : Z) : list (Z * Z) :=
  [(0x100000, align_up (u32 kernel_end) 4096); (mb2, mb2 + rd32 mb2)].

(** the entries of one memory-map tag at [mm] *)
Fixpoint mmap_entries (fuel : nat) (mb2 mm pos : Z) (best : Z * Z) : option (Z * Z) :=
  let entry_size := rd32 (mm + 8) in
  if u32 (pos + entry_size) <=? rd32 (mm + 4) then
    match fuel with
    | O => None
    | S fuel =>
      let e := mm + pos in
      best1 ← (if rd32 (e + 16) =? 1
               then consider 3 (excluded mb2) (rd64 e) (u64 (rd64 e + rd64 (e + 8))) best
               else Some best);
      mmap_entries fuel mb2 mm (u32 (pos + entry_size)) best1
    end
  else Some best.

Fixpoint mmap_tags (fuel : nat) (mb2 off : Z) (best : Z * Z) : option (Z * Z) :=
  if u32 (off + 8) <=? rd32 mb2 then
    let tag := u32 (mb2 + off) in
    if rd32 tag =? 0 then Some best else
    match fuel with
    | O => None
    | S fuel =>
      best1 ← (if rd32 tag =? 6 then mmap_entries fuel mb2 tag 16 best else Some best);
      let adv := align_up (rd32 (tag + 4)) 8 in
      mmap_tags fuel mb2 (u32 (off + (if adv <? 8 then 8 else adv))) best1
    end
  else Some best.

(** [Some (Some (lo, hi))]: a region; [Some None]: none; [None]: out of fuel *)
Definition pick_region (fuel : nat) (mb2 : Z) : option (option (Z * Z)) :=
  if mb2 =? 0 then Some None else
  best ← mmap_tags fuel mb2 8 (0, 0);
  Some (if best.2 <=? best.1 then None else Some best).

(** where the first block starts and ends, before the end is rounded down *)
Definition init_bounds (r : option (Z * Z)) : Z * Z :=
  match r with
  | Some (lo, hi) =>
    if Z.shiftl 1 20 <=? hi - lo then (align_up (u32 lo) 4096, u32 hi)
    else (align_up (u32 kernel_end) 4096, Z.shiftl 16 20)
  | None => (align_up (u32 kernel_end) 4096, Z.shiftl 16 20)
  end.

Definition kheap_init (fuel : nat) (mb2 : Z) : option heap :=
  r ← pick_region fuel mb2;
  let '(start, e) := init_bounds r in
  let e := Z.land e (u32 (Z.lnot (ALIGN - 1))) in
  let sz := u32 (e - start - HDR) in
  let h := heap0 <| blocks := {[start := Block sz 0 0 0]} |>
                 <| g_head := start |> <| g_total := sz |> in
  (bin_insert start ;;; st_ret tt) h ≫= fun r => Some r.2.
End pick_region.

(** ** Self-check and statistics *)

(** [while (x && x != b) x = LINKS(x)->next;] *)
Fixpoint find_in_bin (fuel : nat) (x b : Z) : M Z :=
  if (x =? 0) || (x =? b) then st_ret x else
  match fuel with
  | O => fault
  | S fuel => let! l := load_links x in find_in_bin fuel (l_next l) b
  end.

(** is something wrong with block [b] after [pv]? and the free blocks so far *)
Definition check_block (pv b : Z) (blk : block) (pfree : bool) (nfree : Z) : M (bool * Z) :=
  if negb (used blk =? 0) && negb (used blk =? HEAP_MAGIC) then st_ret (true, nfree)
  else if negb (prev blk =? pv) then st_ret (true, nfree)
  else if negb (pv =? 0) && (b <=? pv) then st_ret (true, nfree)
  else if negb (pv =? 0) && pfree && (used blk =? 0) then st_ret (true, nfree)
  else if used blk =? 0 then
    let '(fl, sl) := bin_of (size blk) in
    let! head := get_bin fl sl in
    let! x := (fun h => find_in_bin (S (base.size (flinks h))) head b h) in
    st_ret (x =? 0, nfree + 1)
  else st_ret (false, nfree).

(** the walk over the blocks: (bad, nfree); [pv] is NULL at the head *)
Fixpoint check_blocks (fuel : nat) (pv b bad nfree : Z) : M (Z * Z) :=
  if b =? 0 then st_ret (bad, nfree) else
  match fuel with
  | O => fault
  | S fuel =>
    let! blk := load b in
    let! pfree := (if pv =? 0 then st_ret false else
                   let! pb := load pv in st_ret (used pb =? 0)) in
    let! res := check_block pv b blk pfree nfree in
    let '(why, nfree') := res in
    let bad' := if why : bool then bad + 1 else bad in
    if 100 <? bad' then st_ret (bad', nfree')
    else check_blocks fuel b (next blk) bad' nfree'
  end.

(** [for (x = g_bin[fl][sl]; x && inbins <= nfree + 1; ...) inbins++;] *)
Fixpoint count_bin (fuel : nat) (x nfree inbins : Z) : M Z :=
  if (x =? 0) || (nfree + 1 <? inbins) then st_ret inbins else
  match fuel with
  | O => fault
  | S fuel => let! l := load_links x in count_bin fuel (l_next l) nfree (inbins + 1)
  end.

Definition check_bin (nfree : Z) (k : Z * Z) (acc : Z * Z) : M (Z * Z) :=
  let '(bad, inbins) := acc in
  let '(fl, sl) := k in
  let! head := get_bin fl sl in
  let! m := get_slmap fl in
  let! flm := gets g_flmap in
  let has := negb (head =? 0) in
  let bit := Z.testbit m sl in
  let bad' := if xorb has bit || (has && negb (Z.testbit flm fl)) then bad + 1 else bad in
  let! inbins' := count_bin (S (Z.to_nat (nfree + 2))) head nfree inbins in
  st_ret (bad', inbins').

Fixpoint check_bins (ks : list (Z * Z)) (nfree : Z) (acc : Z * Z) : M (Z * Z) :=
  match ks with
  | [] => st_ret acc
  | k :: ks => let! acc := check_bin nfree k acc in check_bins ks nfree acc
  end.

(** for (fl = 0; fl < FL_N; fl++) for (sl = 0; sl < SL_N; sl++) *)
Definition all_bins : list (Z * Z) :=
  fl ← seqZ 0 FL_N; (fun sl => (fl, sl)) <$> seqZ 0 SL_N.

Definition kheap_check : M Z := fun h =>
  (* a turn round a ring of blocks meets a wrong order: at most 101 turns *)
  (let! bn := check_blocks (102 * S (base.size (blocks h))) 0 (g_head h) 0 0 in
   let '(bad, nfree) := bn in
   let! bi := check_bins all_bins nfree (bad, 0) in
   let '(bad, inbins) := bi in
   st_ret (if inbins =? nfree then bad else bad + 1)) h.

(** the sizes of the free blocks, in list order *)
Fixpoint free_sizes (fuel : nat) (b : Z) : M (list Z) :=
  if b =? 0 then st_ret [] else
  match fuel with
  | O => fault
  | S fuel =>
    let! blk := load b in
    let! l := free_sizes fuel (next blk) in
    st_ret (if used blk =? 0 then size blk :: l else l)
  end.

Definition kheap_free_blocks : M Z := fun h =>
  (let! l := free_sizes (S (base.size (blocks h))) (g_head h) in st_ret (zlen l)) h.

Definition kheap_largest_free : M Z := fun h =>
  (let! l := free_sizes (S (base.size (blocks h))) (g_head h) in
   st_ret (foldl (fun best s => if best <? s then s else best) 0 l)) h.

(** the last block of the list *)
Fixpoint list_tail (fuel : nat) (b : Z) : M Z :=
  match fuel with
  | O => fault
  | S fuel =>
    let! blk := load b in
    if next blk =? 0 then st_ret b else list_tail fuel (next blk)
  end.

Definition kheap_add_region (lo hi : Z) : M unit := fun h =>
  let lo := Z.land (u64 (lo + ALIGN - 1)) (u64 (Z.lnot (ALIGN - 1))) in
  let hi := Z.land hi (u64 (Z.lnot (ALIGN - 1))) in
  if (g_head h =? 0) || (hi <=? lo) || (hi - lo <? 3 * HDR + MIN_SPLIT)
     || (0xF0000000 <? hi - lo) then Some (tt, h) else
  let lead := lo in
  let b := lo + HDR in
  let tail := hi - HDR in
  let bsize := u32 (tail - b - HDR) in
  (let! t := list_tail (S (base.size (blocks h))) (g_head h) in
   store t (fun x => x <| next := lead |>) ;;;
   write_header lead (Block 0 HEAP_MAGIC t b) ;;;
   write_header b (Block bsize 0 lead tail) ;;;
   write_header tail (Block 0 HEAP_MAGIC b 0) ;;;
   modify (fun h => h <| g_total ::= fun u => u32 (u + bsize) |>) ;;;
   bin_insert b) h.
