(* ===== verification/KHeapInv.v ===== *)
(** The abstract view of the kernel heap and the invariant relating it to the
    memory of [KHeap]: the blocks in list order, and the content of each bin.
    The bins are ordered by size, so the first non-empty bin from the rounded
    size's on holds only big enough blocks. *)

From S2P Require Import Prelude DList KHeap.

(** ** The abstract heap *)

Record ablk := ABlk { a_addr : Z; a_size : Z; a_used : bool }.

Definition tag (u : bool) : Z := if u then HEAP_MAGIC else 0.
Definition addrs (A : list ablk) : list Z := a_addr <$> A.
Definition a_end (x : ablk) : Z := a_addr x + HDR + a_size x.

(** the two levels of bitmaps say which bins hold something *)
Record bitmaps (sl : Z -> Z) (fl : Z) (bins : Z * Z -> list Z) : Prop := {
  m_sl i j : in_table i j = true -> Z.testbit (sl i) j = true <-> bins (i, j) <> [];
  m_sl_high i j : SL_N <= j -> Z.testbit (sl i) j = false;
  m_sl_nonneg i : 0 <= sl i;
  m_fl i : 0 <= i < FL_N -> Z.testbit fl i = true <-> sl i <> 0;
  m_fl_high j : FL_N <= j -> Z.testbit fl j = false;
  m_fl_nonneg : 0 <= fl;
}.

(** What memory says of the abstract heap [A] when the free blocks [X] are
    (for the moment) in no bin and bin [k] holds the addresses [bins k]. *)
Record core (h : heap) (A : list ablk) (X : gset Z) (bins : Z * Z -> list Z) : Prop := {
  c_dl : dl (links (blocks h)) (addrs A);
  c_blk x : x ∈ A -> exists b, blocks h !! a_addr x = Some b /\
                               size b = a_size x /\ used b = tag (a_used x);
  c_size x : x ∈ A -> is_u32 (a_size x);
  c_head : g_head h = first (addrs A) 0;
  c_bin_dl k : dl (links (flinks h)) (bins k);
  c_bin_head k : bin h k = first (bins k) 0;
  c_bin_mem k a : a ∈ bins k <->
    a ∉ X /\ exists x, x ∈ A /\ a_addr x = a /\ a_used x = false /\ bin_of (a_size x) = k;
  c_maps : bitmaps (slmap h) (g_flmap h) bins;
}.

(** what the bin operations leave alone *)
Record same_blocks (h h' : heap) : Prop := {
  sb_blocks : blocks h' = blocks h;
  sb_head : g_head h' = g_head h;
  sb_total : g_total h' = g_total h;
  sb_used : g_used h' = g_used h;
}.

#[export] Instance same_blocks_po : PreOrder same_blocks.
Proof.
  split; [by intros h|]. intros h1 h2 h3 [] []. split; congruence.
Qed.

(** ** Bin indices *)

Lemma in_table_spec fl sl :
  in_table fl sl = true <-> 0 <= fl < FL_N /\ 0 <= sl < SL_N.
Proof. unfold in_table, FL_N, SL_N. rewrite !andb_true_iff. lia. Qed.

Lemma lxor_16 x : 16 <= x < 32 -> Z.lxor x 16 = x - 16.
Proof.
  intros Hx.
  assert (x ∈ seqZ 16 16) as Hin by (apply elem_of_seqZ; lia).
  clear Hx. revert x Hin. apply Forall_forall. vm_compute. repeat constructor.
Qed.

Lemma log2u_eq v : log2u v = Z.log2 v.
Proof. unfold log2u, clz32. lia. Qed.

(** the leading bits bin_of keeps: [v >> (log2 v - 4)] is in [16, 32) *)
Lemma lead_bits v : 256 <= v < 2 ^ 32 ->
  8 <= Z.log2 v <= 31 /\ 16 <= v / 2 ^ (Z.log2 v - 4) < 32.
Proof.
  intros Hv. assert (H8 : 8 <= Z.log2 v) by (apply Z.log2_le_pow2; lia).
  assert (H31 : Z.log2 v < 32) by (apply Z.log2_lt_pow2; lia).
  split; [lia|]. destruct (Z.log2_spec v) as [Hlo Hhi]; [lia|].
  set (f := Z.log2 v) in *.
  assert (Hf : 2 ^ f = 16 * 2 ^ (f - 4)).
  { replace f with (4 + (f - 4)) at 1 by lia. rewrite Z.pow_add_r by lia. done. }
  rewrite Z.pow_succ_r in Hhi by lia.
  assert (0 < 2 ^ (f - 4)) by (apply Z.pow_pos_nonneg; lia).
  split.
  - apply Z.div_le_lower_bound; lia.
  - apply Z.div_lt_upper_bound; lia.
Qed.

Lemma bin_of_small v : 0 <= v < 256 -> bin_of v = (0, v / 16).
Proof.
  intros Hv. unfold bin_of. change (Z.shiftl 1 FL_SHIFT) with 256.
  destruct (v <? 256) eqn:E; [|zbool; lia].
  unfold FL_SHIFT, SL_LOG. rewrite Z.shiftr_div_pow2 by lia. done.
Qed.

Lemma bin_of_large v : 256 <= v < 2 ^ 32 ->
  bin_of v = (Z.log2 v - 7, v / 2 ^ (Z.log2 v - 4) - 16).
Proof.
  intros Hv. destruct (lead_bits v Hv) as [Hf Hl]. unfold bin_of.
  change (Z.shiftl 1 FL_SHIFT) with 256.
  destruct (v <? 256) eqn:E; [zbool; lia|].
  rewrite log2u_eq. unfold FL_SHIFT, SL_LOG, SL_N.
  rewrite Z.shiftr_div_pow2 by lia. rewrite lxor_16 by lia. done.
Qed.

Lemma bin_of_valid v fl sl : is_u32 v -> bin_of v = (fl, sl) -> in_table fl sl = true.
Proof.
  unfold is_u32. intros Hv. rewrite in_table_spec. unfold FL_N, SL_N.
  destruct (decide (v < 256)) as [Hs|Hs].
  - rewrite bin_of_small by lia. intros [= <- <-]. lia.
  - rewrite bin_of_large by lia. destruct (lead_bits v) as [Hf Hl]; [lia|].
    intros [= <- <-]. lia.
Qed.

(** ** Bitmaps *)

Lemma testbit_set_bit m i j : 0 <= i -> 0 <= j ->
  Z.testbit (Z.lor m (Z.shiftl 1 i)) j = Z.testbit m j || (i =? j).
Proof.
  intros. rewrite Z.lor_spec, Z.shiftl_1_l, Z.pow2_bits_eqb by done. done.
Qed.

Lemma testbit_clear_bit m i j : 0 <= i < 32 -> 0 <= j < 32 ->
  Z.testbit (Z.land m (u32 (Z.lnot (Z.shiftl 1 i)))) j = Z.testbit m j && negb (i =? j).
Proof.
  intros. rewrite Z.land_spec, testbit_u32, Z.lnot_spec by lia.
  by rewrite Z.shiftl_1_l, Z.pow2_bits_eqb by lia.
Qed.

Lemma testbit_land_high m x j : Z.testbit m j = false -> Z.testbit (Z.land m x) j = false.
Proof. intros Hm. by rewrite Z.land_spec, Hm. Qed.

(** a bitmap confined to the bits below [n] is zero iff no bit is set *)
Lemma bitmap_zero m n : (forall j, n <= j -> Z.testbit m j = false) ->
  m = 0 <-> forall j, 0 <= j < n -> Z.testbit m j = false.
Proof.
  intros Hhigh. split; [intros -> j _; apply Z.bits_0|].
  intros Hlow. apply Z.bits_inj_0. intros j.
  destruct (decide (j < 0)); [by apply Z.testbit_neg_r|].
  destruct (decide (j < n)); [apply Hlow; lia | apply Hhigh; lia].
Qed.

(** the bits from [i] on: [m & (~0u << i)] *)
Lemma testbit_from m i j : 0 <= i -> 0 <= j < 32 ->
  Z.testbit (Z.land m (u32 (Z.shiftl 0xFFFFFFFF i))) j = Z.testbit m j && (i <=? j).
Proof.
  intros Hi Hj. rewrite Z.land_spec, testbit_u32, Z.shiftl_spec by lia. f_equal.
  change 0xFFFFFFFF with (Z.ones 32). destruct (i <=? j) eqn:E; zbool.
  - apply Z.ones_spec_low. lia.
  - apply Z.testbit_neg_r. lia.
Qed.

(** ** The bitmaps when a bin changes *)

Definition bins_set (bins : Z * Z -> list Z) (k : Z * Z) (l : list Z) : Z * Z -> list Z :=
  fun k' => if decide (k' = k) then l else bins k'.

Definition map_set (sl : Z -> Z) (i v : Z) : Z -> Z :=
  fun i' => if decide (i' = i) then v else sl i'.

Lemma bitmaps_ext sl sl' fl bins :
  (forall i, sl i = sl' i) -> bitmaps sl fl bins -> bitmaps sl' fl bins.
Proof. intros Heq []. split; intros; rewrite <- ?Heq in *; auto. Qed.

Lemma bitmaps_set sl fl bins i j l :
  bitmaps sl fl bins -> in_table i j = true -> l <> [] ->
  bitmaps (map_set sl i (Z.lor (sl i) (Z.shiftl 1 j))) (Z.lor fl (Z.shiftl 1 i))
          (bins_set bins (i, j) l).
Proof.
  intros B Htab Hl. apply in_table_spec in Htab as [Hi Hj].
  unfold map_set, bins_set, FL_N, SL_N in *. split.
  - intros i' j' Htab'. pose proof (proj1 (in_table_spec _ _) Htab') as [Hi' Hj'].
    unfold FL_N, SL_N in *. case_decide as Hd.
    + subst i'. rewrite testbit_set_bit, orb_true_iff by lia.
      rewrite (m_sl _ _ _ B i j' Htab'), Z.eqb_eq. case_decide as Hk'.
      * split; [done|]. intros _. right. congruence.
      * split; [intros [?| ->]; [done|by destruct Hk']|]. by left.
    + rewrite decide_False by congruence. by apply B.
  - intros i' j' Hj'. case_decide; [|by apply B].
    rewrite testbit_set_bit, (m_sl_high _ _ _ B) by (unfold SL_N in *; lia). cbn. apply Z.eqb_neq.
    unfold SL_N in *. lia.
  - intros i'. case_decide; [|apply B].
    apply Z.lor_nonneg. split; [apply B|]. apply Z.shiftl_nonneg. lia.
  - intros i' Hi'. unfold FL_N in *. rewrite testbit_set_bit, orb_true_iff, Z.eqb_eq by lia.
    case_decide as Hd.
    + subst i'. split; [|by right]. intros _ Hz. apply (f_equal (fun m => Z.testbit m j)) in Hz.
      rewrite testbit_set_bit, Z.bits_0, Z.eqb_refl, orb_true_r in Hz by lia. done.
    + rewrite (m_fl _ _ _ B) by done. split; [intros [?| ->]; done|by left].
  - intros j' Hj'. unfold FL_N in *. rewrite testbit_set_bit, (m_fl_high _ _ _ B) by (unfold FL_N; lia).
    cbn. apply Z.eqb_neq. lia.
  - apply Z.lor_nonneg. split; [apply B|]. apply Z.shiftl_nonneg. lia.
Qed.

(** what bin_remove does to the bitmaps when bin (i, j) becomes empty *)
Lemma bitmaps_clear sl fl bins i j :
  bitmaps sl fl bins -> in_table i j = true ->
  let m := Z.land (sl i) (u32 (Z.lnot (Z.shiftl 1 j))) in
  bitmaps (map_set sl i m)
    (if m =? 0 then Z.land fl (u32 (Z.lnot (Z.shiftl 1 i))) else fl)
    (bins_set bins (i, j) []).
Proof.
  intros B Htab m. apply in_table_spec in Htab as [Hi Hj].
  unfold map_set, bins_set, FL_N, SL_N in *.
  assert (Hm0 : 0 <= m) by (apply Z.land_nonneg; left; apply B).
  assert (Hhigh : forall j', 16 <= j' -> Z.testbit m j' = false)
    by (intros; apply testbit_land_high; by apply B).
  split.
  - intros i' j' Htab'. pose proof (proj1 (in_table_spec _ _) Htab') as [Hi' Hj'].
    unfold FL_N, SL_N in *. case_decide as Hd.
    + subst i'. unfold m. rewrite testbit_clear_bit, andb_true_iff, negb_true_iff by lia.
      rewrite (m_sl _ _ _ B i j' Htab'), Z.eqb_neq. case_decide as Hk'.
      * split; [intros [_ ?]; congruence|done].
      * split; [by intros []|]. intros ?. split; [done|congruence].
    + rewrite decide_False by congruence. by apply B.
  - intros i' j' Hj'. case_decide; [by apply Hhigh|by apply B].
  - intros i'. case_decide; [done|apply B].
  - intros i' Hi'. unfold FL_N in *. case_decide as Hd.
    + subst i'. destruct (m =? 0) eqn:E; zbool.
      * rewrite E, testbit_clear_bit, Z.eqb_refl, andb_false_r by lia. done.
      * split; [done|]. intros _. apply (m_fl _ _ _ B); [done|]. intros H0. apply E.
        unfold m. by rewrite H0.
    + rewrite <- (m_fl _ _ _ B) by done. destruct (m =? 0); [|done].
      rewrite testbit_clear_bit, andb_true_iff, negb_true_iff, Z.eqb_neq by lia.
      split; [by intros []|]. intros ?. split; [done|congruence].
  - intros j' Hj'. destruct (m =? 0); [apply testbit_land_high|]; by apply B.
  - destruct (m =? 0); [apply Z.land_nonneg; left|]; apply B.
Qed.

(** ** Memory accesses, evaluated *)

Lemma insert_is_alter {V} (m : gmap Z V) a n (g : V -> V) :
  m !! a = Some n -> <[a := g n]> m = alter g a m.
Proof.
  intros Hn. apply map_eq. intros x. destruct (decide (x = a)) as [->|].
  - by rewrite lookup_insert_eq, lookup_alter_eq, Hn.
  - by rewrite lookup_insert_ne, lookup_alter_ne.
Qed.

Lemma links_some {N} `{DNode N} (m : gmap Z N) a : is_Some (links m a) -> is_Some (m !! a).
Proof. unfold links. rewrite fmap_is_Some. done. Qed.

Lemma store_links_ok h a f : is_Some (flinks h !! a) ->
  store_links a f h = Some (tt, h <| flinks ::= alter f a |>).
Proof.
  intros [l Hl]. unfold store_links. rewrite Hl. do 2 f_equal.
  cbn. unfold set, setter. f_equal. by apply insert_is_alter.
Qed.

Lemma store_ok h a f : is_Some (blocks h !! a) ->
  store a f h = Some (tt, h <| blocks ::= alter f a |>).
Proof.
  intros [l Hl]. unfold store. rewrite Hl. do 2 f_equal.
  cbn. unfold set, setter. f_equal. by apply insert_is_alter.
Qed.

(** ** Consequences of [core] *)

Section core_facts.
Context {h : heap} {A : list ablk} {X : gset Z} {bins : Z * Z -> list Z}.
Context (C : core h A X bins).

Lemma core_addr_inj x y : x ∈ A -> y ∈ A -> a_addr x = a_addr y -> x = y.
Proof.
  intros Hx Hy Heq. pose proof (dl_nodup _ _ (c_dl _ _ _ _ C)) as Hnd.
  apply list_elem_of_lookup in Hx as [i Hi], Hy as [j Hj].
  assert (i = j) as ->.
  { apply (NoDup_lookup _ i j (a_addr x) Hnd); unfold addrs;
      rewrite list_lookup_fmap; [by rewrite Hi | by rewrite Hj, Heq]. }
  congruence.
Qed.

Lemma core_addr_nonnull x : x ∈ A -> a_addr x <> 0.
Proof.
  intros Hx Heq. apply (dl_nonnull _ _ (c_dl _ _ _ _ C)). rewrite <- Heq.
  by apply list_elem_of_fmap_2.
Qed.

Lemma core_load x : x ∈ A -> exists b,
  load (a_addr x) h = Some (b, h) /\ blocks h !! a_addr x = Some b /\
  size b = a_size x /\ used b = tag (a_used x).
Proof.
  intros Hx. destruct (c_blk _ _ _ _ C x Hx) as (b & Hb & Hs & Hu).
  exists b. unfold load. rewrite Hb. done.
Qed.

Lemma core_bin_unique k k' a : a ∈ bins k -> a ∈ bins k' -> k = k'.
Proof.
  rewrite !(c_bin_mem _ _ _ _ C). intros (_ & x & Hx & Hax & _ & <-) (_ & y & Hy & Hay & _ & <-).
  assert (x = y) as -> by (apply core_addr_inj; congruence). done.
Qed.

Lemma core_bin_valid k a : a ∈ bins k -> in_table k.1 k.2 = true.
Proof.
  rewrite (c_bin_mem _ _ _ _ C). intros (_ & x & Hx & _ & _ & Hk).
  destruct k as [fl sl]. eapply bin_of_valid; [|done]. by eapply c_size.
Qed.

Lemma core_bin_links k a : a ∈ bins k -> is_Some (flinks h !! a).
Proof. intros Ha. apply links_some. by apply (dl_in _ (bins k)); [apply C|]. Qed.

Lemma core_excluded k a : a ∈ X -> a ∉ bins k.
Proof. intros Ha Hk. apply (c_bin_mem _ _ _ _ C) in Hk as [? _]. done. Qed.
End core_facts.

(** ** bin_insert *)

Lemma slmap_insert h fl v fl' :
  slmap (h <| g_slmap ::= <[fl := v]> |>) fl' = map_set (slmap h) fl v fl'.
Proof.
  unfold slmap, map_set. cbn. case_decide as Hd.
  - subst. by rewrite lookup_insert_eq.
  - by rewrite lookup_insert_ne.
Qed.

Definition bin_insert_result (h : heap) (bins : Z * Z -> list Z) (a : Z) (k : Z * Z) : heap :=
  let nx := first (bins k) 0 in
  h <| flinks := set_prev_if (<[a := Flink nx 0]> (flinks h)) nx a |>
    <| g_bin ::= <[k := a]> |>
    <| g_flmap ::= fun m => Z.lor m (Z.shiftl 1 k.1) |>
    <| g_slmap ::= <[k.1 := Z.lor (slmap h k.1) (Z.shiftl 1 k.2)]> |>.

Section insert.
Context {h : heap} {A : list ablk} {X : gset Z} {bins : Z * Z -> list Z} {x : ablk}.
Context (C : core h A X bins) (Hx : x ∈ A) (HX : a_addr x ∈ X).
Let a := a_addr x.
Let k := bin_of (a_size x).
Let nx := first (bins k) 0.

Lemma insert_valid : in_table k.1 k.2 = true /\ in_table k.1 0 = true.
Proof.
  pose proof (bin_of_valid (a_size x) k.1 k.2 (c_size _ _ _ _ C x Hx)) as Hv.
  specialize (Hv (surjective_pairing _)). split; [done|].
  apply in_table_spec in Hv as [? ?]. apply in_table_spec. unfold SL_N in *. lia.
Qed.

Lemma bin_insert_run : bin_insert a h = Some (tt, bin_insert_result h bins a k).
Proof.
  destruct (core_load C x Hx) as (b & Hload & Hb & Hsz & Hu).
  destruct insert_valid as [Htab Htab0].
  assert (Hget : get_bin k.1 k.2 h = Some (nx, h)).
  { unfold get_bin. rewrite Htab, <- surjective_pairing. by rewrite (c_bin_head _ _ _ _ C). }
  assert (Hprev : when (negb (nx =? 0)) (store_links nx (fun l => l <| l_prev := a |>))
      (h <| flinks ::= <[a := Flink nx 0]> |>) =
      Some (tt, h <| flinks := set_prev_if (<[a := Flink nx 0]> (flinks h)) nx a |>)).
  { unfold when, set_prev_if. destruct (nx =? 0) eqn:E; [done|]. zbool. cbn [negb].
    pose proof (first_in _ E) as Hin. rewrite store_links_ok; [done|]. cbn.
    rewrite lookup_insert_ne; [by apply (core_bin_links C k)|].
    intros Heq. apply (core_excluded C k a HX). by rewrite Heq. }
  unfold bin_insert. st_step Hload. rewrite Hsz. fold k.
  rewrite (surjective_pairing k). st_step Hget. rewrite (bind_ok _ _ _ tt _ eq_refl).
  st_step Hprev. unfold st_bind, set_bin, modify, get_slmap, set_slmap.
  rewrite Htab, Htab0, <- surjective_pairing. done.
Qed.

Lemma insert_links_other k' y : k' <> k -> y ∈ bins k' ->
  links (flinks h) y = links (flinks (bin_insert_result h bins a k)) y.
Proof.
  intros Hk' Hy. assert (Hya : y <> a) by (intros ->; by apply (core_excluded C k' a HX)).
  cbn. unfold set_prev_if. fold nx. destruct (nx =? 0) eqn:E.
  - by rewrite links_insert, decide_False.
  - zbool. rewrite links_set_prev, decide_False, links_insert, decide_False; try done.
    intros ->. apply Hk'. apply (core_bin_unique C _ _ nx); [done|]. by apply first_in.
Qed.

Lemma bin_insert_core : a_used x = false ->
  exists h', bin_insert a h = Some (tt, h') /\ same_blocks h h' /\
    core h' A (X ∖ {[a]}) (bins_set bins k (a :: bins k)).
Proof.
  intros Hfree. exists (bin_insert_result h bins a k).
  split_and!; [apply bin_insert_run | done |].
  split; cbn; try apply C.
  - intros k'. unfold bins_set. case_decide as Hk'.
    + subst k'. apply dl_push_front; try done; [apply C | by apply (core_excluded C)|].
      apply (core_addr_nonnull C x Hx).
    + apply (dl_ext (links (flinks h))); [intros y Hy; by apply (insert_links_other k') | apply C].
  - intros k'. unfold bins_set, bin. cbn. case_decide as Hk'.
    + subst k'. by rewrite lookup_insert_eq.
    + rewrite lookup_insert_ne by done. apply C.
  - intros k' y. unfold bins_set. case_decide as Hk'.
    + subst k'. rewrite elem_of_cons, (c_bin_mem _ _ _ _ C). split.
      * intros [->|[Hy Hex]]; [|set_solver]. split; [set_solver|]. by exists x.
      * intros [Hy Hex]. destruct (decide (y = a)); [by left|right]. set_solver.
    + rewrite (c_bin_mem _ _ _ _ C). split.
      * intros [Hy Hex]. split; [set_solver|done].
      * intros [Hy (z & Hz & Hza & Hzu & Hzk)]. split; [|by exists z].
        intros HyX. apply Hk'. destruct (decide (y = a)) as [->|]; [|set_solver].
        assert (z = x) as -> by by apply (core_addr_inj C). done.
  - apply (bitmaps_ext _ _ _ _ (fun i => eq_sym (slmap_insert _ _ _ i))).
    pose proof (bitmaps_set _ _ _ k.1 k.2 (a :: bins k) (c_maps _ _ _ _ C)) as Hs.
    rewrite <- surjective_pairing in Hs. apply Hs; [apply insert_valid | done].
Qed.
End insert.

(** ** bin_remove *)

Definition bin_remove_result (h : heap) (k : Z * Z) (l1 l2 : list Z) : heap :=
  let p := final l1 0 in
  let q := first l2 0 in
  let h1 := h <| flinks ::= fun m => set_prev_if (set_next_if m p q) q p |> in
  let h2 := if p =? 0 then h1 <| g_bin ::= <[k := q]> |> else h1 in
  let m := Z.land (slmap h k.1) (u32 (Z.lnot (Z.shiftl 1 k.2))) in
  if bool_decide (l1 ++ l2 = []) then
    h2 <| g_slmap ::= <[k.1 := m]> |>
       <| g_flmap ::= fun fl => if m =? 0 then Z.land fl (u32 (Z.lnot (Z.shiftl 1 k.1))) else fl |>
  else h2.

Section remove.
Context {h : heap} {A : list ablk} {X : gset Z} {bins : Z * Z -> list Z} {x : ablk}.
Context (C : core h A X bins) (Hx : x ∈ A).
Let a := a_addr x.
Let k := bin_of (a_size x).
Context {l1 l2 : list Z} (Hl : bins k = l1 ++ a :: l2).
Let p := final l1 0.
Let q := first l2 0.

Lemma remove_dl : dl (links (flinks h)) (l1 ++ a :: l2).
Proof. rewrite <- Hl. apply C. Qed.

Lemma remove_neighbour y : y ∈ l1 \/ y ∈ l2 -> y ∈ bins k /\ y <> a.
Proof.
  intros Hy. rewrite Hl. destruct (dl_split_nodup _ _ _ _ remove_dl) as (_ & _ & A1 & A2 & _).
  split; [set_solver|]. intros ->. set_solver.
Qed.

Lemma remove_links y : y ∈ bins k -> is_Some (flinks h !! y).
Proof. apply (core_bin_links C). Qed.

(** the unlinking of bin_remove, up to the second store *)
Lemma bin_remove_unlink : exists h2,
  (if negb (p =? 0) then store_links p (fun x => x <| l_next := q |>) else set_bin k.1 k.2 q) h
    = Some (tt, h2) /\
  when (negb (q =? 0)) (store_links q (fun x => x <| l_prev := p |>)) h2 =
    Some (tt, let h1 := h <| flinks ::= fun m => set_prev_if (set_next_if m p q) q p |> in
              if p =? 0 then h1 <| g_bin ::= <[k := q]> |> else h1).
Proof.
  destruct (insert_valid C Hx) as [Htab _]. fold k in Htab.
  assert (Hq : q <> 0 -> is_Some (flinks h !! q)).
  { intros Hq0. apply remove_links, remove_neighbour. right. by apply first_in. }
  unfold set_next_if, set_prev_if, when. destruct (p =? 0) eqn:Ep; cbn [negb].
  - unfold set_bin. rewrite Htab, <- surjective_pairing. eexists. split; [done|].
    destruct (q =? 0) eqn:Eq; cbn [negb]; [done|]. zbool. by rewrite store_links_ok by auto.
  - zbool. assert (Hp : is_Some (flinks h !! p)).
    { apply remove_links, remove_neighbour. left. by apply final_in. }
    rewrite store_links_ok by done. eexists. split; [done|].
    destruct (q =? 0) eqn:Eq; cbn [negb]; [done|]. zbool.
    rewrite store_links_ok; [done|]. cbn. unfold set_next.
    destruct (decide (q = p)) as [->|]; [rewrite lookup_alter_eq | rewrite lookup_alter_ne by done].
    + apply fmap_is_Some. auto.
    + auto.
Qed.

Lemma remove_head_after :
  default 0 ((if p =? 0 then <[k := q]> (g_bin h) else g_bin h) !! k) = first (l1 ++ l2) 0.
Proof.
  rewrite first_app. destruct (decide (l1 = [])) as [->|Hne].
  - cbn. by rewrite lookup_insert_eq.
  - assert (Hp : p <> 0).
    { intros Hp0. destruct (dl_split_nodup _ _ _ _ remove_dl) as (_ & _ & _ & _ & _ & Z1 & _).
      apply Z1. rewrite <- Hp0. by apply final_elem. }
    apply Z.eqb_neq in Hp. rewrite Hp. change (bin h k = first l1 (first l2 0)).
    rewrite (c_bin_head _ _ _ _ C), Hl. by destruct l1.
Qed.

Lemma first_zero_nil l : 0 ∉ l -> (first l 0 =? 0) = bool_decide (l = []).
Proof.
  intros H0. destruct l as [|b l]; [done|]. cbn [first].
  rewrite bool_decide_false by done. apply Z.eqb_neq. intros ->. apply H0. left.
Qed.

Lemma bin_remove_run : bin_remove a h = Some (tt, bin_remove_result h k l1 l2).
Proof.
  destruct (core_load C x Hx) as (b & Hload & Hb & Hsz & Hu).
  destruct (insert_valid C Hx) as [Htab Htab0]. fold k in Htab, Htab0.
  assert (Hll : load_links a h = Some (Flink q p, h)).
  { unfold load_links. pose proof (dl_at _ _ _ _ remove_dl) as Hat.
    unfold links in Hat. destruct (flinks h !! a) as [[? ?]|]; [|done].
    cbn in Hat. by injection Hat as -> ->. }
  destruct bin_remove_unlink as (h2 & H1 & H2).
  unfold bin_remove. st_step Hload. rewrite Hsz. fold k.
  rewrite (surjective_pairing k). st_step Hll. cbn [l_prev l_next].
  st_step H1. st_step H2. unfold get_bin. rewrite Htab, <- surjective_pairing.
  rewrite (bind_ok _ _ _ (first (l1 ++ l2) 0)
    (let h1 := h <| flinks ::= fun m => set_prev_if (set_next_if m p q) q p |> in
     if p =? 0 then h1 <| g_bin ::= <[k := q]> |> else h1)).
  2:{ do 2 f_equal. rewrite <- remove_head_after. unfold bin. by destruct (p =? 0). }
  rewrite first_zero_nil.
  2:{ destruct (dl_split_nodup _ _ _ _ remove_dl) as (_ & _ & _ & _ & _ & Z1 & Z2 & _). set_solver. }
  unfold bin_remove_result, when. fold p q. destruct (bool_decide (l1 ++ l2 = [])); [|done].
  unfold st_bind, get_slmap, set_slmap, modify. rewrite Htab0.
  unfold slmap. destruct (p =? 0); cbn; match goal with |- context [if ?c =? 0 then _ else _] => destruct (c =? 0) end; done.
Qed.

Lemma remove_links_same y : y <> p -> y <> q ->
  links (flinks (bin_remove_result h k l1 l2)) y = links (flinks h) y.
Proof.
  intros Hp Hq. unfold bin_remove_result. fold p q.
  assert (Hgoal : links (set_prev_if (set_next_if (flinks h) p q) q p) y = links (flinks h) y).
  { unfold set_prev_if, set_next_if. destruct (q =? 0), (p =? 0);
      rewrite ?links_set_prev, ?decide_False, ?links_set_next, ?decide_False; done. }
  destruct (bool_decide _), (p =? 0); exact Hgoal.
Qed.

Lemma remove_flinks : flinks (bin_remove_result h k l1 l2) =
  set_prev_if (set_next_if (flinks h) p q) q p.
Proof. unfold bin_remove_result. fold p q. by destruct (bool_decide _), (p =? 0). Qed.

Lemma remove_bin k' : bin (bin_remove_result h k l1 l2) k' =
  if decide (k' = k) then first (l1 ++ l2) 0 else bin h k'.
Proof.
  assert (Hgoal : default 0 ((if p =? 0 then <[k := q]> (g_bin h) else g_bin h) !! k') =
    if decide (k' = k) then first (l1 ++ l2) 0 else bin h k').
  { case_decide as Hd; [subst k'; apply remove_head_after|].
    destruct (p =? 0); [by rewrite lookup_insert_ne|done]. }
  rewrite <- Hgoal. unfold bin, bin_remove_result. fold p q.
  by destruct (bool_decide _), (p =? 0).
Qed.

Lemma remove_maps :
  bitmaps (slmap (bin_remove_result h k l1 l2)) (g_flmap (bin_remove_result h k l1 l2))
          (bins_set bins k (l1 ++ l2)).
Proof.
  destruct (insert_valid C Hx) as [Htab _]. fold k in Htab.
  unfold bin_remove_result. fold p q. case_bool_decide as Hnil.
  - rewrite Hnil. pose proof (bitmaps_clear _ _ _ _ _ (c_maps _ _ _ _ C) Htab) as Hc.
    rewrite <- surjective_pairing in Hc. cbv zeta in Hc.
    destruct (p =? 0); (eapply bitmaps_ext; [|exact Hc]);
      intros i; exact (eq_sym (slmap_insert h k.1 _ i)).
  - assert (Hb : bitmaps (slmap h) (g_flmap h) (bins_set bins k (l1 ++ l2))).
    { destruct (c_maps _ _ _ _ C) as [B1 B2 B3 B4 B5 B6]. split; try done.
      intros i j Hij. rewrite (B1 i j Hij). unfold bins_set. case_decide as Hd; [|done].
      rewrite Hd, Hl. split; [done|]. intros _ Hc. by destruct l1. }
    destruct (p =? 0); exact Hb.
Qed.

Lemma remove_same : same_blocks h (bin_remove_result h k l1 l2).
Proof. unfold bin_remove_result. fold p q. split; by destruct (bool_decide _), (p =? 0). Qed.

Lemma bin_remove_core :
  exists h', bin_remove a h = Some (tt, h') /\ same_blocks h h' /\
    core h' A ({[a]} ∪ X) (bins_set bins k (l1 ++ l2)).
Proof.
  exists (bin_remove_result h k l1 l2). split_and!; [apply bin_remove_run | |].
  { apply remove_same. }
  pose proof remove_same as Hsb.
  assert (Hin : forall y, y ∈ l1 ++ l2 <-> y ∈ bins k /\ y <> a).
  { intros y. split; [intros ?; apply remove_neighbour; set_solver|]. rewrite Hl. set_solver. }
  split; rewrite ?(sb_blocks _ _ Hsb), ?(sb_head _ _ Hsb); try apply C.
  - intros k'. unfold bins_set. case_decide as Hk'.
    + rewrite remove_flinks. apply dl_unlink with (a := a), remove_dl.
    + apply (dl_ext (links (flinks h))); [|apply C]. intros y Hy. symmetry.
      assert (Hny : forall z, z ∈ l1 ++ l2 -> y <> z).
      { intros z Hz ->. apply Hin in Hz as [Hz _]. apply Hk'. by apply (core_bin_unique C _ _ z). }
      assert (Hy0 : y <> 0) by (intros ->; by apply (dl_nonnull _ _ (c_bin_dl _ _ _ _ C k'))).
      apply remove_links_same.
      * destruct (decide (p = 0)); [congruence|]. apply Hny, elem_of_app. left. by apply final_in.
      * destruct (decide (q = 0)); [congruence|]. apply Hny, elem_of_app. right. by apply first_in.
  - intros k'. rewrite remove_bin. unfold bins_set. case_decide; [done|apply C].
  - intros k' y. unfold bins_set. case_decide as Hk'.
    + subst k'. rewrite Hin, (c_bin_mem _ _ _ _ C). set_solver.
    + rewrite (c_bin_mem _ _ _ _ C). split.
      * intros [Hy (z & Hz & Hza & Hzu & Hzk)]. split; [|by exists z].
        intros [->%elem_of_singleton|]%elem_of_union; [|done].
        assert (z = x) as -> by by apply (core_addr_inj C). by apply Hk'.
      * intros [Hy Hex]. split; [set_solver|done].
  - apply remove_maps.
Qed.
End remove.

(** the bin's position in the table, row after row *)
Definition bin_idx (v : Z) : Z := (bin_of v).1 * 16 + (bin_of v).2.

(** the size from which every free block is found: [need] rounded up *)
Definition fit (need : Z) : Z :=
  if need <? 256 then need else need + 2 ^ (Z.log2 need - 4) - 1.

Lemma bin_idx_small v : 0 <= v < 256 -> bin_idx v = v / 16.
Proof. intros. unfold bin_idx. rewrite bin_of_small by done. done. Qed.

Lemma bin_idx_large v : 256 <= v < 2 ^ 32 ->
  bin_idx v = (Z.log2 v - 7) * 16 + v / 2 ^ (Z.log2 v - 4) - 16.
Proof. intros. unfold bin_idx. rewrite bin_of_large by done. cbn. lia. Qed.

Lemma bin_idx_large_bounds v : 256 <= v < 2 ^ 32 ->
  16 <= bin_idx v /\ (Z.log2 v - 7) * 16 <= bin_idx v < (Z.log2 v - 6) * 16.
Proof. intros Hv. rewrite bin_idx_large by done. destruct (lead_bits v Hv). lia. Qed.

Lemma bin_idx_mono v w : 0 <= v <= w -> w < 2 ^ 32 -> bin_idx v <= bin_idx w.
Proof.
  intros Hvw Hw. destruct (decide (w < 256)).
  { rewrite !bin_idx_small by lia. apply Z.div_le_mono; lia. }
  pose proof (bin_idx_large_bounds w) as Hbw.
  destruct (decide (v < 256)).
  { rewrite (bin_idx_small v) by lia. assert (v / 16 < 16) by (apply Z.div_lt_upper_bound; lia). lia. }
  pose proof (bin_idx_large_bounds v) as Hbv.
  pose proof (Z.log2_le_mono v w) as Hlog.
  destruct (decide (Z.log2 v = Z.log2 w)) as [Heq|]; [|lia].
  rewrite !bin_idx_large by lia. rewrite Heq.
  assert (v / 2 ^ (Z.log2 w - 4) <= w / 2 ^ (Z.log2 w - 4)); [|lia].
  apply Z.div_le_mono; [|lia]. apply Z.pow_pos_nonneg; [lia|].
  destruct (lead_bits w); lia.
Qed.

(** blocks smaller than [need] lie in bins before the rounded size's *)
Lemma bin_idx_fit v need : 0 <= v < need -> v mod 16 = 0 -> need mod 16 = 0 ->
  fit need < 2 ^ 32 -> bin_idx v < bin_idx (fit need).
Proof.
  intros Hv Hv16 Hn16. unfold fit. destruct (need <? 256) eqn:E; zbool; intros Hfit.
  { rewrite !bin_idx_small by lia. lia. }
  assert (Hs : 0 < 2 ^ (Z.log2 need - 4)) by
    (apply Z.pow_pos_nonneg; [lia|]; assert (8 <= Z.log2 need) by (apply Z.log2_le_pow2; lia); lia).
  set (s := 2 ^ (Z.log2 need - 4)) in *. set (w := need + s - 1) in *.
  pose proof (bin_idx_large_bounds w) as Hbw.
  destruct (decide (v < 256)).
  { rewrite (bin_idx_small v) by lia. assert (v / 16 < 16) by (apply Z.div_lt_upper_bound; lia). lia. }
  pose proof (bin_idx_large_bounds v) as Hbv.
  assert (Z.log2 v <= Z.log2 need) by (apply Z.log2_le_mono; lia).
  assert (Z.log2 need <= Z.log2 w) by (apply Z.log2_le_mono; lia).
  destruct (decide (Z.log2 v = Z.log2 w)) as [Heq|]; [|lia].
  rewrite !bin_idx_large by lia. rewrite Heq.
  replace (Z.log2 w) with (Z.log2 need) in * by lia. fold s.
  assert (v / s + 1 <= w / s); [|lia].
  rewrite <- Z.div_add by lia. apply Z.div_le_mono; lia.
Qed.

Lemma take_size_fit need : 0 <= need < 2 ^ 32 ->
  take_size need = if fit need <? 2 ^ 32 then Some (fit need) else None.
Proof.
  intros Hn. unfold take_size, fit. change (Z.shiftl 1 FL_SHIFT) with 256.
  destruct (need <? 256) eqn:E; zbool.
  - destruct (256 <=? need) eqn:E2; zbool; [lia|].
    destruct (need <? 2 ^ 32) eqn:E3; zbool; [done|lia].
  - destruct (256 <=? need) eqn:E2; zbool; [|lia].
    destruct (lead_bits need) as [Hf _]; [lia|].
    rewrite log2u_eq. unfold SL_LOG. rewrite Z.shiftl_mul_pow2, Z.mul_1_l by lia.
    set (s := 2 ^ (Z.log2 need - 4)).
    assert (Hs : 0 < s <= 2 ^ 27).
    { unfold s. split; [apply Z.pow_pos_nonneg; lia|]. apply Z.pow_le_mono_r; lia. }
    replace (need + (s - 1)) with (need + s - 1) by lia.
    destruct (need + s - 1 <? 2 ^ 32) eqn:E3; zbool.
    + rewrite u32_small by (unfold is_u32; lia).
      destruct (need + s - 1 <? need) eqn:E4; zbool; [lia|done].
    + unfold u32. replace (need + s - 1) with ((need + s - 1 - 2 ^ 32) + 1 * 2 ^ 32) by lia.
      rewrite Z.mod_add, Z.mod_small by lia.
      destruct (need + s - 1 - 2 ^ 32 <? need) eqn:E4; zbool; [done|lia].
Qed.

(** ** The search *)

Section take.
Context {h : heap} {A : list ablk} {X : gset Z} {bins : Z * Z -> list Z}.
Context (C : core h A X bins).

(** what [found] of bin_take does with a non-empty bin *)
Lemma take_first k : bins k <> [] ->
  exists x h' bins', x ∈ A /\ a_used x = false /\ a_addr x ∉ X /\ bin_of (a_size x) = k /\
    (let! b := get_bin k.1 k.2 in bin_remove b ;;; st_ret b) h = Some (a_addr x, h') /\
    same_blocks h h' /\ core h' A ({[a_addr x]} ∪ X) bins'.
Proof.
  intros Hne. destruct (bins k) as [|a l] eqn:Hk; [done|].
  assert (Ha : a ∈ bins k) by (rewrite Hk; left).
  pose proof (core_bin_valid C k a Ha) as Htab.
  pose proof (proj1 (c_bin_mem _ _ _ _ C k a) Ha) as (HaX & x & Hx & <- & Hfree & Hxk).
  subst k. destruct (bin_remove_core C Hx (l1 := []) (l2 := l) Hk) as (h' & Hrun & Hsb & Hc).
  eexists x, h', _. split_and!; try done.
  assert (Hget : get_bin (bin_of (a_size x)).1 (bin_of (a_size x)).2 h = Some (a_addr x, h)).
  { unfold get_bin. rewrite Htab, <- surjective_pairing.
    by rewrite (c_bin_head _ _ _ _ C), Hk. }
  st_step Hget. st_step Hrun. done.
Qed.

Lemma bin_of_idx k v : bin_of v = k -> bin_idx v = k.1 * 16 + k.2.
Proof. unfold bin_idx. by intros ->. Qed.

(** the second level: bits from [sl] on in row [fl] *)
Lemma row_bit fl sl : in_table fl sl = true ->
  let slm := Z.land (slmap h fl) (u32 (Z.shiftl 0xFFFFFFFF sl)) in
  (slm <> 0 -> sl <= ctz slm /\ in_table fl (ctz slm) = true /\ bins (fl, ctz slm) <> []) /\
  (slm = 0 -> forall j, sl <= j -> in_table fl j = true -> bins (fl, j) = []).
Proof.
  intros Htab slm. pose proof (proj1 (in_table_spec _ _) Htab) as [Hfl Hsl]. unfold SL_N in Hsl.
  pose proof (c_maps _ _ _ _ C) as B.
  assert (Hnn : 0 <= slm) by (apply Z.land_nonneg; left; apply B).
  assert (Hhigh : forall j, 16 <= j -> Z.testbit slm j = false).
  { intros j Hj. apply testbit_land_high. by apply (m_sl_high _ _ _ B). }
  split.
  - intros Hnz. destruct (ctz_spec slm) as (Hbit & Hc0 & _); [lia|].
    assert (Hc16 : ctz slm < 16).
    { destruct (decide (ctz slm < 16)); [done|]. rewrite Hhigh in Hbit by lia. done. }
    unfold slm in Hbit at 1. rewrite testbit_from in Hbit by lia.
    apply andb_true_iff in Hbit as [Hbit Hge]. zbool.
    assert (Ht : in_table fl (ctz slm) = true) by (apply in_table_spec; unfold SL_N; lia).
    split_and!; [done..|]. by apply (m_sl _ _ _ B).
  - intros Hz j Hj Htj. pose proof (proj1 (in_table_spec _ _) Htj) as [_ Hj']. unfold SL_N in Hj'.
    destruct (decide (bins (fl, j) = [])) as [|Hne]; [done|exfalso].
    apply (m_sl _ _ _ B) in Hne; [|done].
    assert (Hb : Z.testbit slm j = true).
    { unfold slm. rewrite testbit_from, Hne by lia. apply Z.leb_le in Hj. by rewrite Hj. }
    by rewrite Hz, Z.bits_0 in Hb.
Qed.

(** the first level: rows from [fl + 1] on *)
Lemma level_bit fl : 0 <= fl < FL_N ->
  let flm := Z.land (g_flmap h) (u32 (Z.shiftl 0xFFFFFFFF (fl + 1))) in
  (flm <> 0 -> fl < ctz flm /\ in_table (ctz flm) 0 = true /\ slmap h (ctz flm) <> 0) /\
  (flm = 0 -> forall i j, fl < i -> in_table i j = true -> bins (i, j) = []).
Proof.
  intros Hfl flm. unfold FL_N in Hfl. pose proof (c_maps _ _ _ _ C) as B.
  assert (Hnn : 0 <= flm) by (apply Z.land_nonneg; left; apply B).
  assert (Hhigh : forall j, 25 <= j -> Z.testbit flm j = false).
  { intros j Hj. apply testbit_land_high. by apply (m_fl_high _ _ _ B). }
  split.
  - intros Hnz. destruct (ctz_spec flm) as (Hbit & Hc0 & _); [lia|].
    assert (Hc25 : ctz flm < 25).
    { destruct (decide (ctz flm < 25)); [done|]. rewrite Hhigh in Hbit by lia. done. }
    unfold flm in Hbit at 1. rewrite testbit_from in Hbit by lia.
    apply andb_true_iff in Hbit as [Hbit Hge]. zbool.
    split_and!; [lia | apply in_table_spec; unfold FL_N, SL_N; lia |].
    by apply (m_fl _ _ _ B).
  - intros Hz i j Hi Hij. pose proof (proj1 (in_table_spec _ _) Hij) as [Hi' _]. unfold FL_N in Hi'.
    destruct (decide (bins (i, j) = [])) as [|Hne]; [done|exfalso].
    apply (m_sl _ _ _ B) in Hne; [|done].
    assert (Hs : slmap h i <> 0) by (intros H0; by rewrite H0, Z.bits_0 in Hne).
    apply (m_fl _ _ _ B) in Hs; [|done].
    assert (Hb : Z.testbit flm i = true).
    { unfold flm. rewrite testbit_from, Hs by lia. apply Z.leb_le. lia. }
    by rewrite Hz, Z.bits_0 in Hb.
Qed.

(** bits of the whole row [i] *)
Lemma full_row_bit i : in_table i 0 = true -> slmap h i <> 0 ->
  in_table i (ctz (slmap h i)) = true /\ bins (i, ctz (slmap h i)) <> [].
Proof.
  intros Ht Hs. pose proof (row_bit i 0 Ht) as [Hrow _].
  change (u32 (Z.shiftl 0xFFFFFFFF 0)) with (Z.ones 32) in Hrow.
  assert (Heq : Z.land (slmap h i) (Z.ones 32) = slmap h i).
  { pose proof (c_maps _ _ _ _ C) as B. rewrite Z.land_ones by lia.
    apply Z.mod_small. split; [apply B|].
    destruct (decide (slmap h i < 2 ^ 32)); [done|exfalso].
    assert (Hl : 32 <= Z.log2 (slmap h i)) by (apply Z.log2_le_pow2; [apply Z.le_neq; split; [apply B|done]|lia]).
    assert (Z.testbit (slmap h i) (Z.log2 (slmap h i)) = true) as Hb
      by (apply Z.bit_log2; apply Z.le_neq; split; [apply B|done]).
    rewrite (m_sl_high _ _ _ B) in Hb by (unfold SL_N; lia). done. }
  rewrite Heq in Hrow. destruct (Hrow Hs) as (_ & ? & ?). done.
Qed.

Lemma idx_of_table k : in_table k.1 k.2 = true -> 0 <= k.1 <= 24 /\ 0 <= k.2 <= 15.
Proof. intros Ht. apply in_table_spec in Ht. unfold FL_N, SL_N in Ht. lia. Qed.

(** a free block taken from the bins, or the news that there is none *)
Definition took (need : Z) (r : option (Z * heap)) : Prop :=
  (r = Some (0, h) /\
    forall x, x ∈ A -> a_used x = false -> a_addr x ∉ X -> a_size x < fit need) \/
  exists x h' bins', r = Some (a_addr x, h') /\ x ∈ A /\ a_used x = false /\
    a_addr x ∉ X /\ need <= a_size x /\ same_blocks h h' /\
    core h' A ({[a_addr x]} ∪ X) bins'.

Context (Halign : forall x, x ∈ A -> a_size x mod 16 = 0).

Lemma took_bin need k : 0 <= need -> need mod 16 = 0 -> fit need < 2 ^ 32 ->
  bins k <> [] -> bin_idx (fit need) <= k.1 * 16 + k.2 ->
  took need ((let! b := get_bin k.1 k.2 in bin_remove b ;;; st_ret b) h).
Proof.
  intros Hn Hn16 Hfit Hne Hidx.
  destruct (take_first k Hne) as (x & h' & bins' & Hx & Hf & HX & Hk & Hrun & Hsb & Hc).
  right. exists x, h', bins'. split_and!; try done.
  destruct (decide (need <= a_size x)) as [|Hlt]; [done|exfalso].
  pose proof (c_size _ _ _ _ C x Hx) as [Hs0 _].
  pose proof (bin_idx_fit (a_size x) need) as Hlt'.
  rewrite (bin_of_idx k) in Hlt' by done. specialize (Halign x Hx). lia.
Qed.

Lemma took_none need : 0 <= need -> fit need < 2 ^ 32 ->
  (forall k, in_table k.1 k.2 = true -> bin_idx (fit need) <= k.1 * 16 + k.2 -> bins k = []) ->
  took need (Some (0, h)).
Proof.
  intros Hn Hfit Hall. left. split; [done|]. intros x Hx Hf HX.
  destruct (decide (a_size x < fit need)) as [|Hge]; [done|exfalso].
  pose proof (c_size _ _ _ _ C x Hx) as Hs. unfold is_u32 in Hs.
  assert (Hin : a_addr x ∈ bins (bin_of (a_size x))).
  { apply (c_bin_mem _ _ _ _ C). split; [done|]. by exists x. }
  pose proof (core_bin_valid C _ _ Hin) as Ht.
  rewrite Hall in Hin; [by apply elem_of_nil in Hin|done|].
  rewrite <- (bin_of_idx _ _ eq_refl). apply bin_idx_mono; [|lia].
  split; [|lia]. unfold fit. destruct (need <? 256) eqn:E; [done|zbool].
  assert (0 < 2 ^ (Z.log2 need - 4)); [|lia]. apply Z.pow_pos_nonneg; [lia|].
  assert (8 <= Z.log2 need) by (apply Z.log2_le_pow2; lia). lia.
Qed.

Lemma bin_take_core need : 0 <= need < 2 ^ 32 -> need mod 16 = 0 -> took need (bin_take need h).
Proof.
  intros Hn Hn16. unfold bin_take. rewrite take_size_fit by done.
  destruct (fit need <? 2 ^ 32) eqn:Hfit; zbool.
  2:{ left. split; [done|]. intros x Hx _ _.
      destruct (c_size _ _ _ _ C x Hx). lia. }
  destruct (bin_of (fit need)) as [fl sl] eqn:Hbin.
  assert (Hfit0 : is_u32 (fit need)).
  { split; [|lia]. unfold fit in *. destruct (need <? 256) eqn:E; [lia|zbool].
    assert (0 < 2 ^ (Z.log2 need - 4)); [|lia]. apply Z.pow_pos_nonneg; [lia|].
    assert (8 <= Z.log2 need) by (apply Z.log2_le_pow2; lia). lia. }
  pose proof (bin_of_valid _ _ _ Hfit0 Hbin) as Htab.
  pose proof (bin_of_idx _ _ Hbin) as Hidx. cbn [fst snd] in Hidx.
  pose proof (proj1 (in_table_spec _ _) Htab) as [Hfl Hsl]. unfold FL_N, SL_N in Hfl, Hsl.
  destruct (FL_N <=? fl) eqn:E; [zbool; unfold FL_N in E; lia|].
  assert (Hget : get_slmap fl h = Some (slmap h fl, h)).
  { unfold get_slmap. assert (in_table fl 0 = true) as -> by
      (apply in_table_spec; unfold FL_N, SL_N; lia). done. }
  st_step Hget. destruct (row_bit fl sl Htab) as [Hrow Hrow0].
  destruct (_ =? 0) eqn:Hslm; zbool.
  - rewrite (bind_ok _ _ _ (g_flmap h) h eq_refl).
    destruct (fl + 1 <? 32) eqn:E32; [|zbool; lia].
    destruct (level_bit fl Hfl) as [Hlev Hlev0].
    destruct (_ =? 0) eqn:Hflm; zbool.
    + apply took_none; [lia|lia|]. intros [i j] Ht Hij. cbn [fst snd] in *.
      destruct (idx_of_table (i, j) Ht) as [Hi Hj]. cbn [fst snd] in Hi, Hj.
      destruct (decide (i = fl)) as [->|]; [apply (Hrow0 Hslm j); [lia|done] | apply (Hlev0 Hflm); [lia|done]].
    + set (flm := Z.land (g_flmap h) (u32 (Z.shiftl 0xFFFFFFFF (fl + 1)))) in *.
      destruct (Hlev Hflm) as (Hlt & Ht0 & Hs).
      assert (Hget' : get_slmap (ctz flm) h = Some (slmap h (ctz flm), h)).
      { unfold get_slmap. by rewrite Ht0. }
      st_step Hget'. destruct (full_row_bit _ Ht0 Hs) as [Htt Hb].
      destruct (idx_of_table (ctz flm, ctz (slmap h (ctz flm))) Htt) as [Hi Hj].
      apply (took_bin need (ctz flm, ctz (slmap h (ctz flm)))); cbn [fst snd] in *; done || lia.
  - set (slm := Z.land (slmap h fl) (u32 (Z.shiftl 0xFFFFFFFF sl))) in *.
    destruct (Hrow Hslm) as (Hle & Ht & Hb).
    apply (took_bin need (fl, ctz slm)); cbn [fst snd]; done || lia.
Qed.
End take.
