(* ===== verification/KHeapOps.v ===== *)
(** What split, merge_next, find_fit and kfree do to the abstract heap. *)

From S2P Require Import Prelude DList KHeap KHeapInv.

Implicit Types (A : list ablk) (X : gset Z).

Definition a_resize (x : ablk) (sz : Z) : ablk := ABlk (a_addr x) sz (a_used x).
Definition a_mark (x : ablk) (u : bool) : ablk := ABlk (a_addr x) (a_size x) u.

(** merge_next on block [x] followed by [A2] *)
Definition a_merge (x : ablk) (A2 : list ablk) : list ablk :=
  match A2 with
  | y :: A2' => if a_used y then x :: A2 else a_resize x (a_size x + HDR + a_size y) :: A2'
  | [] => [x]
  end.

(** split of [x] followed by [A2] *)
Definition a_split (x : ablk) (sz : Z) (A2 : list ablk) : list ablk :=
  if a_size x <? sz + HDR + MIN_SPLIT then x :: A2 else
  a_resize x sz :: a_merge (ABlk (a_addr x + HDR + sz) (a_size x - sz - HDR) false) A2.

(** the parts of the state the bin operations and header writes leave alone *)
Record same_counts (h h' : heap) : Prop := {
  sc_total : g_total h' = g_total h;
  sc_used : g_used h' = g_used h;
}.
#[export] Instance same_counts_po : PreOrder same_counts.
Proof. split; [by intros h|]. intros h1 h2 h3 [] []. split; congruence. Qed.

Lemma same_blocks_counts h h' : same_blocks h h' -> same_counts h h'.
Proof. intros []. by split. Qed.

Lemma addrs_app A B : addrs (A ++ B) = addrs A ++ addrs B.
Proof. apply fmap_app. Qed.

Lemma addrs_cons x A : addrs (x :: A) = a_addr x :: addrs A.
Proof. done. Qed.

(** ** Changing headers under an unchanged set of bins *)

(** blocks that no bin knows - used, or in [X] - may change freely *)
Lemma core_headers h h' A A' X X' bins :
  core h A X bins ->
  flinks h' = flinks h -> g_bin h' = g_bin h -> g_slmap h' = g_slmap h -> g_flmap h' = g_flmap h ->
  dl (links (blocks h')) (addrs A') -> g_head h' = first (addrs A') 0 ->
  (forall x, x ∈ A' -> is_u32 (a_size x) /\ exists b, blocks h' !! a_addr x = Some b /\
     size b = a_size x /\ used b = tag (a_used x)) ->
  (forall x, a_used x = false -> (x ∈ A /\ a_addr x ∉ X) <-> (x ∈ A' /\ a_addr x ∉ X')) ->
  core h' A' X' bins.
Proof.
  intros C Hf Hb Hs Hm Hdl Hhd Hblk Hfree. split; try done.
  - intros x Hx. by apply Hblk.
  - intros x Hx. by apply Hblk.
  - rewrite Hf. apply C.
  - intros k. unfold bin. rewrite Hb. apply C.
  - intros k a. rewrite (c_bin_mem _ _ _ _ C). split.
    + intros (HX & x & Hx & <- & Hu & Hk). destruct (proj1 (Hfree x Hu)) as [Hx' HX']; [done|].
      split; [done|]. by exists x.
    + intros (HX & x & Hx & <- & Hu & Hk). destruct (proj2 (Hfree x Hu)) as [Hx' HX']; [done|].
      split; [done|]. by exists x.
  - rewrite Hm. apply (bitmaps_ext (slmap h)); [|apply C]. intros i. unfold slmap. by rewrite Hs.
Qed.

(** writing one block's size or mark *)
Lemma core_mark h A1 x A2 X X' bins (f : block -> block) x' :
  core h (A1 ++ x :: A2) X bins ->
  a_used x = true \/ a_addr x ∈ X -> a_used x' = true \/ a_addr x' ∈ X' ->
  X ∖ {[a_addr x]} = X' ∖ {[a_addr x]} ->
  a_addr x' = a_addr x -> is_u32 (a_size x') ->
  (forall b, prev (f b) = prev b /\ next (f b) = next b) ->
  (forall b, size b = a_size x -> used b = tag (a_used x) ->
     size (f b) = a_size x' /\ used (f b) = tag (a_used x')) ->
  store (a_addr x) f h = Some (tt, h <| blocks ::= alter f (a_addr x) |>) /\
  core (h <| blocks ::= alter f (a_addr x) |>) (A1 ++ x' :: A2) X' bins.
Proof.
  intros C Hun Hun' HX Ha Hsz Hlk Hf.
  assert (Hx : x ∈ A1 ++ x :: A2) by set_solver.
  destruct (c_blk _ _ _ _ C x Hx) as (b & Hb & Hbs & Hbu).
  split; [apply store_ok; eauto|].
  assert (Hne : forall y, y ∈ A1 ++ A2 -> a_addr y <> a_addr x).
  { intros y Hy Heq. pose proof (c_dl _ _ _ _ C) as Hdl. rewrite addrs_app, addrs_cons in Hdl.
    destruct (dl_split_nodup _ _ _ _ Hdl) as (_ & _ & N1 & N2 & _).
    rewrite <- Heq in N1, N2. apply elem_of_app in Hy as [Hy|Hy];
      [apply N1 | apply N2]; by apply list_elem_of_fmap_2. }
  assert (Haddr : addrs (A1 ++ x' :: A2) = addrs (A1 ++ x :: A2))
    by (rewrite !addrs_app, !addrs_cons; congruence).
  apply (core_headers h _ (A1 ++ x :: A2) _ X); try done.
  - rewrite Haddr. apply (dl_ext (links (blocks h))); [|apply C]. intros y _. unfold links. cbn.
    destruct (decide (y = a_addr x)) as [->|];
      [rewrite lookup_alter_eq, Hb; cbn; by destruct (Hlk b) as [-> ->] | by rewrite lookup_alter_ne].
  - rewrite Haddr. apply C.
  - intros y Hy. cbn. assert (y = x' \/ y ∈ A1 ++ A2) as [->|Hy'] by set_solver.
    + split; [done|]. exists (f b). rewrite Ha, lookup_alter_eq, Hb. by split; [|apply Hf].
    + rewrite lookup_alter_ne by (apply not_eq_sym; auto).
      assert (y ∈ A1 ++ x :: A2) by set_solver. split; [by eapply c_size | by eapply c_blk].
  - intros y Hy. assert (Hin : y ∈ A1 ++ A2 -> (a_addr y ∉ X <-> a_addr y ∉ X')).
    { intros Hin. specialize (Hne y Hin). set_solver. }
    split; intros [HyA HyX].
    + assert (y = x \/ y ∈ A1 ++ A2) as [->|Hy'] by set_solver; [destruct Hun; congruence|].
      split; [set_solver|]. by apply Hin.
    + assert (y = x' \/ y ∈ A1 ++ A2) as [->|Hy'] by set_solver; [destruct Hun'; congruence|].
      split; [set_solver|]. by apply Hin.
Qed.

(** ** Absorbing the next block *)

(** the three header writes that make block [b] swallow the block [nb] after
    it, as split, merge_next and kfree have them *)
Definition absorb (b : Z) (nb : block) : M unit :=
  store b (fun x => x <| size ::= fun s => u32 (s + (HDR + size nb)) |>) ;;;
  store b (fun x => x <| next := next nb |>) ;;;
  set_prev_of (next nb) b.

Definition absorb_blocks (m : gmap Z block) (b q sz : Z) : gmap Z block :=
  set_prev_if (set_next_if (alter (fun x => x <| size ::= fun s => u32 (s + (HDR + sz)) |>) b m) b q) q b.

Lemma store_next_set b v h : (fun h => h <| blocks ::= alter (fun x => x <| next := v |>) b |>) h
  = h <| blocks ::= fun m => set_next m b v |>.
Proof. done. Qed.

Lemma absorb_run h b q nb :
  is_Some (blocks h !! b) -> b <> 0 -> next nb = q -> (q <> 0 -> is_Some (blocks h !! q)) ->
  absorb b nb h = Some (tt, h <| blocks ::= fun m => absorb_blocks m b q (size nb) |>).
Proof.
  intros Hb Hb0 <- Hq. unfold absorb.
  rewrite (bind_ok _ _ _ _ _ (store_ok h b _ Hb)).
  assert (Hb1 : is_Some (blocks (h <| blocks ::= alter (fun x => x <| size ::= fun s => u32 (s + (HDR + size nb)) |>) b |>) !! b)).
  { cbn. rewrite lookup_alter_eq. by apply fmap_is_Some. }
  rewrite (bind_ok _ _ _ _ _ (store_ok _ b _ Hb1)).
  unfold set_prev_of, when, absorb_blocks, set_prev_if, set_next_if.
  apply Z.eqb_neq in Hb0. rewrite Hb0. destruct (next nb =? 0) eqn:E; cbn [negb]; [done|]. zbool.
  rewrite store_ok; [done|]. cbn. specialize (Hq E).
  destruct (decide (next nb = b)) as [Heq|Hne].
  - rewrite Heq, !lookup_alter_eq. by rewrite !fmap_is_Some.
  - by rewrite !lookup_alter_ne.
Qed.

Lemma absorb_lookup m b q sz y v : b <> q -> m !! y = Some v -> exists v',
  absorb_blocks m b q sz !! y = Some v' /\ used v' = used v /\
  size v' = if decide (y = b) then u32 (size v + (HDR + sz)) else size v.
Proof.
  intros Hbq Hy. unfold absorb_blocks, set_prev_if, set_next_if, set_prev, set_next.
  destruct (q =? 0) eqn:Eq, (b =? 0) eqn:Eb, (decide (y = b)) as [->|Hyb];
    try (destruct (decide (y = q)) as [->|Hyq]);
    rewrite ?lookup_alter_eq, ?lookup_alter_ne, ?lookup_alter_eq, ?lookup_alter_ne, ?lookup_alter_eq,
      ?lookup_alter_ne, Hy by done; cbn; eauto.
Qed.

Lemma links_alter_same {N} `{DNode N} (m : gmap Z N) (f : N -> N) a z :
  (forall n, dn_prev (f n) = dn_prev n /\ dn_next (f n) = dn_next n) ->
  links (alter f a m) z = links m z.
Proof.
  intros Hf. unfold links. destruct (decide (z = a)) as [->|]; [|by rewrite lookup_alter_ne].
  rewrite lookup_alter_eq. destruct (m !! a) as [n|]; [|done]. cbn. by destruct (Hf n) as [-> ->].
Qed.

Section absorb.
Context {h : heap} {A1 A2 : list ablk} {x y : ablk} {X : gset Z} {bins : Z * Z -> list Z}.
Context (C : core h (A1 ++ x :: y :: A2) X bins).
Context (Hx : a_used x = true \/ a_addr x ∈ X) (Hy : a_used y = true \/ a_addr y ∈ X).
Context (Hfit : is_u32 (a_size x + HDR + a_size y)).
Let q := first (addrs A2) 0.

Lemma absorb_dl : dl (links (blocks h)) ((addrs A1 ++ [a_addr x]) ++ a_addr y :: addrs A2).
Proof.
  rewrite <- app_assoc. cbn. pose proof (c_dl _ _ _ _ C) as Hdl.
  by rewrite addrs_app, !addrs_cons in Hdl.
Qed.

Lemma absorb_apart : a_addr x <> 0 /\ a_addr x <> q /\ a_addr x <> a_addr y /\
  (forall z, z ∈ A1 ++ A2 -> a_addr z <> a_addr x /\ a_addr z <> a_addr y) /\
  (q <> 0 -> q ∈ addrs A2).
Proof.
  destruct (dl_split_nodup _ _ _ _ absorb_dl) as (N1 & N2 & Ny1 & Ny2 & _ & Z1 & Z2 & D).
  apply NoDup_app in N1 as (N1 & Nx & _).
  assert (Hxin : a_addr x ∈ addrs A1 ++ [a_addr x]) by (apply elem_of_app; right; left).
  assert (Hx2 : a_addr x ∉ addrs A2) by by apply D.
  assert (Hq : q <> 0 -> q ∈ addrs A2) by apply first_in.
  assert (Hx0 : a_addr x <> 0) by congruence.
  split_and!; [done | | congruence | | done].
  - intros Heq. apply Hx2. rewrite Heq. apply Hq. congruence.
  - intros z Hz. assert (Hz' : a_addr z ∈ addrs A1 \/ a_addr z ∈ addrs A2).
    { apply elem_of_app in Hz as [Hz|Hz]; [left|right]; by apply list_elem_of_fmap_2. }
    destruct Hz' as [Hz'|Hz']; split; intros Heq; rewrite Heq in Hz'; try done.
    + apply (Nx _ Hz'). left.
    + apply Ny1, elem_of_app. by left.
Qed.

Lemma absorb_core nb : blocks h !! a_addr y = Some nb -> exists h',
  absorb (a_addr x) nb h = Some (tt, h') /\ same_counts h h' /\
  core h' (A1 ++ a_resize x (a_size x + HDR + a_size y) :: A2) (X ∖ {[a_addr y]}) bins.
Proof.
  intros Hnb. destruct absorb_apart as (Hx0 & Hxq & Hxy & Hne & Hq).
  assert (Hnext : next nb = q).
  { pose proof (dl_at _ _ _ _ absorb_dl) as Hat. unfold links in Hat.
    rewrite Hnb in Hat. cbn in Hat. by injection Hat. }
  destruct (c_blk _ _ _ _ C y) as (nb' & Hnb' & Hnsz & _); [set_solver|].
  assert (nb' = nb) as -> by congruence.
  assert (Hqs : q <> 0 -> is_Some (blocks h !! q)).
  { intros Hq0. specialize (Hq Hq0). apply list_elem_of_fmap in Hq as (z & -> & Hz).
    destruct (c_blk _ _ _ _ C z) as (b & Hb & _); [set_solver|eauto]. }
  assert (Hxs : is_Some (blocks h !! a_addr x)).
  { destruct (c_blk _ _ _ _ C x) as (b & Hb & _); [set_solver|eauto]. }
  exists (h <| blocks ::= fun m => absorb_blocks m (a_addr x) q (size nb) |>).
  split_and!; [exact (absorb_run h (a_addr x) q nb Hxs Hx0 Hnext Hqs) | by split |].
  apply (core_headers h _ (A1 ++ x :: y :: A2) _ X); try done; cbn.
    + rewrite addrs_app, addrs_cons. cbn. replace (addrs A1 ++ a_addr x :: addrs A2)
        with ((addrs A1 ++ [a_addr x]) ++ addrs A2) by by rewrite <- app_assoc.
      unfold absorb_blocks.
      pose proof (dl_unlink (alter (fun w => w <| size ::= fun s => u32 (s + (HDR + size nb)) |>)
        (a_addr x) (blocks h)) (addrs A1 ++ [a_addr x]) (a_addr y) (addrs A2)) as Hun.
      rewrite final_snoc in Hun. apply Hun.
      apply (dl_ext (links (blocks h))); [|apply absorb_dl].
      intros z _. symmetry. by apply links_alter_same.
    + rewrite (c_head _ _ _ _ C). by rewrite !addrs_app, !first_app.
    + intros z Hz. rewrite Hnsz. assert (z = a_resize x (a_size x + HDR + a_size y) \/ z ∈ A1 ++ A2)
        as [->|Hz'] by set_solver.
      * split; [done|]. destruct (c_blk _ _ _ _ C x) as (b & Hb & Hbs & Hbu); [set_solver|].
        destruct (absorb_lookup _ _ q (a_size y) _ _ Hxq Hb) as (b' & Hb' & Hu & Hs).
        exists b'. cbn. rewrite decide_True in Hs by done. split_and!; [done| |congruence].
        rewrite Hs, Hbs, Z.add_assoc. by apply u32_small.
      * split; [eapply (c_size _ _ _ _ C); set_solver|].
        destruct (c_blk _ _ _ _ C z) as (b & Hb & Hbs & Hbu); [set_solver|].
        destruct (absorb_lookup _ _ q (a_size y) _ _ Hxq Hb) as (b' & Hb' & Hu & Hs).
        exists b'. rewrite decide_False in Hs by by apply Hne. split_and!; congruence.
    + intros z Hzu. split; intros [Hz HzX].
      * assert (z = x \/ z = y \/ z ∈ A1 ++ A2) as [->|[->|Hz']] by set_solver;
          [destruct Hx; congruence | destruct Hy; congruence |].
        split; set_solver.
      * assert (z = a_resize x (a_size x + HDR + a_size y) \/ z ∈ A1 ++ A2) as [->|Hz'] by set_solver.
        -- cbn in *. destruct Hx; [congruence|]. set_solver.
        -- destruct (Hne z Hz') as [_ Hzy]. split; set_solver.
Qed.
End absorb.

(** ** merge_next *)

(** what a merge with the next block relies on *)
Definition mergeable (x : ablk) (A2 : list ablk) (X : gset Z) : Prop :=
  match A2 with
  | y :: _ => a_used y = false -> a_addr y ∉ X /\ is_u32 (a_size x + HDR + a_size y)
  | [] => True
  end.

Section ops.
Context {h : heap} {X : gset Z} {bins : Z * Z -> list Z}.

Lemma bin_remove_free A y : core h A X bins -> y ∈ A -> a_used y = false -> a_addr y ∉ X ->
  exists h' bins', bin_remove (a_addr y) h = Some (tt, h') /\ same_blocks h h' /\
    core h' A ({[a_addr y]} ∪ X) bins'.
Proof.
  intros C Hy Hu HX.
  assert (Hin : a_addr y ∈ bins (bin_of (a_size y))).
  { apply (c_bin_mem _ _ _ _ C). split; [done|]. by exists y. }
  apply list_elem_of_split in Hin as (l1 & l2 & Hl).
  destruct (bin_remove_core C Hy Hl) as (h' & Hrun & Hsb & Hc). eauto.
Qed.

Lemma core_next A1 x A2 b : core h (A1 ++ x :: A2) X bins ->
  blocks h !! a_addr x = Some b -> prev b = final (addrs A1) 0 /\ next b = first (addrs A2) 0.
Proof.
  intros C Hb. pose proof (c_dl _ _ _ _ C) as Hdl. rewrite addrs_app, addrs_cons in Hdl.
  pose proof (dl_at _ _ _ _ Hdl) as Hat. unfold links in Hat. rewrite Hb in Hat.
  cbn in Hat. by injection Hat.
Qed.

Lemma merge_next_core A1 x A2 : core h (A1 ++ x :: A2) X bins ->
  a_used x = true \/ a_addr x ∈ X -> mergeable x A2 X ->
  exists h' bins', merge_next (a_addr x) h = Some (tt, h') /\ same_counts h h' /\
    core h' (A1 ++ a_merge x A2) X bins'.
Proof.
  intros C Hx Hm. destruct (core_load C x) as (b & Hload & Hb & _); [set_solver|].
  destruct (core_next _ _ _ _ C Hb) as [_ Hnext].
  unfold merge_next. st_step Hload. rewrite Hnext.
  destruct A2 as [|y A2]; [by exists h, bins|]. cbn [addrs fmap list_fmap first].
  assert (Hy : y ∈ A1 ++ x :: y :: A2) by set_solver.
  pose proof (core_addr_nonnull C y Hy) as Hy0. apply Z.eqb_neq in Hy0.
  change (list_fmap ablk Z a_addr (y :: A2)) with (a_addr y :: addrs A2). cbn [first]. rewrite Hy0.
  destruct (core_load C y Hy) as (nb & Hloady & Hnb & _ & Hu). st_step Hloady.
  rewrite Hu. cbn [a_merge mergeable] in *. destruct (a_used y) eqn:Huy; [by exists h, bins|].
  cbn [tag negb Z.eqb]. destruct Hm as [HyX Hfit]; [done|].
  destruct (bin_remove_free _ y C Hy Huy HyX) as (h1 & bins1 & Hrem & Hsb & C1). st_step Hrem.
  destruct (absorb_core C1 ltac:(set_solver) ltac:(set_solver) Hfit nb) as (h2 & Hab & Hsc & C2).
  { by rewrite (sb_blocks _ _ Hsb). }
  replace (({[a_addr y]} ∪ X) ∖ {[a_addr y]}) with X in C2 by set_solver.
  exists h2, bins1. split_and!; [exact Hab | | exact C2].
  etrans; [by apply same_blocks_counts|done].
Qed.
End ops.

(** ** Carving a new free block off the end of [x] *)

Section carve.
Context {h : heap} {A1 A2 : list ablk} {x : ablk} {X : gset Z} {bins : Z * Z -> list Z}.
Context (C : core h (A1 ++ x :: A2) X bins).
Context (Hx : a_used x = true \/ a_addr x ∈ X).
Context (n nsz xsz : Z) (Hn : n ∉ addrs (A1 ++ x :: A2)) (Hn0 : n <> 0).
Context (Hnsz : is_u32 nsz) (Hxsz : is_u32 xsz).
Let b := a_addr x.
Let q := first (addrs A2) 0.
Let node := Block nsz 0 b q.

Definition carve_blocks (m : gmap Z block) : gmap Z block :=
  alter (fun w => w <| size := xsz |>) b (set_next (set_prev_if (<[n := node]> m) q n) b n).

Lemma carve_dl_pre : dl (links (blocks h)) (addrs A1 ++ b :: addrs A2).
Proof. pose proof (c_dl _ _ _ _ C) as Hdl. by rewrite addrs_app, addrs_cons in Hdl. Qed.

Lemma carve_apart : b <> 0 /\ b <> n /\ q <> n /\ q <> b /\ (q <> 0 -> q ∈ addrs A2) /\
  (forall z, z ∈ A1 ++ A2 -> a_addr z <> b /\ a_addr z <> n).
Proof.
  destruct (dl_split_nodup _ _ _ _ carve_dl_pre) as (_ & _ & B1 & B2 & B0 & _ & Z2 & _).
  rewrite addrs_app, addrs_cons, elem_of_app, elem_of_cons in Hn.
  assert (Hq : q <> 0 -> q ∈ addrs A2) by apply first_in.
  split_and!; [done | naive_solver | | | done |].
  - intros Heq. destruct (decide (q = 0)); [congruence|]. apply Hn. right. right.
    rewrite <- Heq. auto.
  - intros Heq. destruct (decide (q = 0)); [congruence|]. apply B2. rewrite <- Heq. auto.
  - intros z Hz. assert (Hz' : a_addr z ∈ addrs A1 \/ a_addr z ∈ addrs A2).
    { apply elem_of_app in Hz as [Hz|Hz]; [left|right]; by apply list_elem_of_fmap_2. }
    split; intros Heq; rewrite Heq in Hz'; naive_solver.
Qed.

Lemma carve_lookup z v : z <> n -> blocks h !! z = Some v -> exists v',
  carve_blocks (blocks h) !! z = Some v' /\ used v' = used v /\
  size v' = if decide (z = b) then xsz else size v.
Proof.
  intros Hzn Hz. destruct carve_apart as (B0 & Bn & Qn & Qb & _).
  unfold carve_blocks, set_prev_if, set_prev, set_next.
  destruct (q =? 0) eqn:Eq, (decide (z = b)) as [->|Hzb];
    try (destruct (decide (z = q)) as [->|Hzq]);
    rewrite ?lookup_alter_eq, ?lookup_alter_ne, ?lookup_alter_eq, ?lookup_alter_ne, ?lookup_alter_eq,
      ?lookup_insert_ne, ?Hz by congruence; cbn; eauto.
Qed.

Lemma carve_lookup_new : exists v', carve_blocks (blocks h) !! n = Some v' /\
  used v' = 0 /\ size v' = nsz.
Proof.
  destruct carve_apart as (B0 & Bn & Qn & Qb & _).
  unfold carve_blocks, set_prev_if, set_prev, set_next. destruct (q =? 0);
    rewrite !lookup_alter_ne, lookup_insert_eq by congruence; eexists; by split_and!.
Qed.

Lemma carve_core h' : blocks h' = carve_blocks (blocks h) ->
  flinks h' = flinks h -> g_bin h' = g_bin h -> g_slmap h' = g_slmap h -> g_flmap h' = g_flmap h ->
  g_head h' = g_head h ->
  core h' (A1 ++ a_resize x xsz :: ABlk n nsz false :: A2) ({[n]} ∪ X) bins.
Proof.
  intros Hb' Hf Hbin Hs Hm Hhd. destruct carve_apart as (B0 & Bn & Qn & Qb & Hq & Hne).
  apply (core_headers h _ (A1 ++ x :: A2) _ X); try done; rewrite ?Hb'.
  - rewrite addrs_app, !addrs_cons. cbn.
    apply (dl_ext (links (set_next (set_prev_if (<[n := node]> (blocks h)) q n) b n))).
    + intros z _. symmetry. by apply links_alter_same.
    + apply dl_insert_after; try done; [apply carve_dl_pre|].
      by rewrite addrs_app, addrs_cons in Hn.
  - rewrite Hhd, (c_head _ _ _ _ C). rewrite !addrs_app, !first_app. done.
  - intros z Hz. assert (z = a_resize x xsz \/ z = ABlk n nsz false \/ z ∈ A1 ++ A2)
      as [->|[->|Hz']] by set_solver.
    + split; [done|]. destruct (c_blk _ _ _ _ C x) as (w & Hw & Hws & Hwu); [set_solver|].
      destruct (carve_lookup _ _ Bn Hw) as (v & Hv & Hu & Hsz).
      rewrite decide_True in Hsz by done. exists v. cbn. split_and!; [exact Hv|congruence|congruence].
    + split; [done|]. destruct carve_lookup_new as (v & Hv & Hu & Hsz). by exists v.
    + destruct (Hne z Hz') as [Hzb Hzn].
      split; [eapply (c_size _ _ _ _ C); set_solver|].
      destruct (c_blk _ _ _ _ C z) as (w & Hw & Hws & Hwu); [set_solver|].
      destruct (carve_lookup _ _ Hzn Hw) as (v & Hv & Hu & Hsz).
      rewrite decide_False in Hsz by done. exists v. split_and!; congruence.
  - intros z Hzu. split; intros [Hz HzX].
    + assert (z = x \/ z ∈ A1 ++ A2) as [->|Hz'] by set_solver; [destruct Hx; congruence|].
      destruct (Hne z Hz'). split; set_solver.
    + assert (z = a_resize x xsz \/ z = ABlk n nsz false \/ z ∈ A1 ++ A2)
        as [->|[->|Hz']] by set_solver; cbn in *; [|set_solver|].
      * destruct Hx; [congruence|]. fold b in HzX. set_solver.
      * split; set_solver.
Qed.

(** the four statements that carve, one state after the other *)
Lemma carve_run : exists h1 h2 h3 h4,
  write_header n node h = Some (tt, h1) /\
  set_prev_of q n h1 = Some (tt, h2) /\
  store b (fun w => w <| next := n |>) h2 = Some (tt, h3) /\
  store b (fun w => w <| size := xsz |>) h3 = Some (tt, h4) /\
  same_counts h h4 /\
  core h4 (A1 ++ a_resize x xsz :: ABlk n nsz false :: A2) ({[n]} ∪ X) bins.
Proof.
  destruct carve_apart as (B0 & Bn & Qn & Qb & Hq & Hne).
  destruct (c_blk _ _ _ _ C x) as (w & Hw & _); [set_solver|]. fold b in Hw.
  set (h1 := h <| blocks ::= <[n := node]> |>).
  set (h2 := h1 <| blocks ::= fun m => set_prev_if m q n |>).
  set (h3 := h2 <| blocks ::= fun m => set_next m b n |>).
  set (h4 := h3 <| blocks ::= alter (fun w => w <| size := xsz |>) b |>).
  assert (Hb2 : is_Some (blocks h2 !! b)).
  { cbn. unfold set_prev_if, set_prev. destruct (q =? 0);
      rewrite ?lookup_alter_ne, lookup_insert_ne by congruence; eauto. }
  exists h1, h2, h3, h4. split_and!; [done | | | | by split |].
  - unfold set_prev_of, when, h2, set_prev_if. destruct (q =? 0) eqn:E; cbn [negb]; [done|].
    zbool. rewrite store_ok; [done|]. cbn. rewrite lookup_insert_ne by congruence.
    specialize (Hq E). apply list_elem_of_fmap in Hq as (z & -> & Hz).
    destruct (c_blk _ _ _ _ C z) as (v & Hv & _); [set_solver|eauto].
  - by rewrite store_ok.
  - rewrite store_ok; [done|]. cbn. unfold set_next. rewrite lookup_alter_eq.
    by apply fmap_is_Some.
  - by apply carve_core.
Qed.
End carve.

(** ** split *)

Section split.
Context {h : heap} {A1 A2 : list ablk} {x : ablk} {X : gset Z} {bins : Z * Z -> list Z}.
Context (C : core h (A1 ++ x :: A2) X bins).
Context (Hx : a_used x = true \/ a_addr x ∈ X).
Context (sz : Z) (Hsz : 0 <= sz) (Hsz' : sz + HDR + MIN_SPLIT < 2 ^ 32).
Let n := a_addr x + HDR + sz.
Let N := ABlk n (a_size x - sz - HDR) false.

(** the merge of the new block with a free block after it *)
Lemma split_merge h4 :
  core h4 (A1 ++ a_resize x sz :: N :: A2) ({[n]} ∪ X) bins ->
  mergeable N A2 ({[n]} ∪ X) ->
  exists h5 bins', same_counts h4 h5 /\
    core h5 (A1 ++ a_resize x sz :: a_merge N A2) ({[n]} ∪ X) bins' /\
    (let after := first (addrs A2) 0 in
     if after =? 0 then st_ret tt else
     let! ab := load after in
     when (used ab =? 0)
       (bin_remove after ;;;
        store n (fun x => x <| size ::= fun s => u32 (s + (HDR + size ab)) |>) ;;;
        store n (fun x => x <| next := next ab |>) ;;;
        set_prev_of (next ab) n)) h4 = Some (tt, h5).
Proof.
  intros C4 Hm. cbv zeta. destruct A2 as [|y A2']; [by exists h4, bins|].
  rewrite addrs_cons. cbn [first].
  assert (Hy : y ∈ A1 ++ a_resize x sz :: N :: y :: A2') by set_solver.
  pose proof (core_addr_nonnull C4 y Hy) as Hy0. apply Z.eqb_neq in Hy0. rewrite Hy0.
  destruct (core_load C4 y Hy) as (nb & Hloady & Hnb & _ & Hu). st_step Hloady.
  rewrite Hu. cbn [a_merge mergeable] in *.
  destruct (a_used y) eqn:Huy; [by exists h4, bins|].
  cbn [tag negb Z.eqb when]. destruct Hm as [HyX Hfit]; [done|].
  destruct (bin_remove_free _ y C4 Hy Huy HyX) as (h1 & bins1 & Hrem & Hsb & C1).
  replace (A1 ++ a_resize x sz :: N :: y :: A2') with ((A1 ++ [a_resize x sz]) ++ N :: y :: A2') in C1
    by by rewrite <- app_assoc.
  destruct (absorb_core C1 ltac:(set_solver) ltac:(set_solver) Hfit nb) as (h2 & Hab & Hsc & C2).
  { by rewrite (sb_blocks _ _ Hsb). }
  replace (({[a_addr y]} ∪ ({[n]} ∪ X)) ∖ {[a_addr y]}) with ({[n]} ∪ X) in C2 by set_solver.
  rewrite <- app_assoc in C2. exists h2, bins1. split_and!.
  - etrans; [by apply same_blocks_counts|done].
  - exact C2.
  - st_step Hrem. exact Hab.
Qed.

Lemma split_core :
  (sz + HDR + MIN_SPLIT <= a_size x ->
     n ∉ addrs (A1 ++ x :: A2) /\ n <> 0 /\ n ∉ X /\ mergeable N A2 X) ->
  exists h' bins', split (a_addr x) sz h = Some (tt, h') /\ same_counts h h' /\
    core h' (A1 ++ a_split x sz A2) X bins'.
Proof.
  intros Hroom. destruct (core_load C x) as (b & Hload & Hb & Hbs & _); [set_solver|].
  destruct (core_next _ _ _ _ C Hb) as [_ Hnext].
  pose proof (c_size _ _ _ _ C x) as Hsx. unfold is_u32 in Hsx.
  unfold split, a_split. st_step Hload. rewrite Hbs, Hnext.
  rewrite u32_small by (unfold is_u32, HDR, MIN_SPLIT in *; lia).
  destruct (a_size x <? sz + HDR + MIN_SPLIT) eqn:E; zbool; [by exists h, bins|].
  destruct (Hroom E) as (Hn & Hn0 & HnX & Hm). specialize (Hsx ltac:(set_solver)).
  rewrite u32_small by (unfold is_u32, HDR, MIN_SPLIT in *; lia).
  fold n. destruct (carve_run C Hx n (a_size x - sz - HDR) sz Hn Hn0) as
    (h1 & h2 & h3 & h4 & H1 & H2 & H3 & H4 & Hsc & C4);
    try (unfold is_u32, HDR, MIN_SPLIT in *; lia).
  st_step H1. st_step H2. st_step H3. st_step H4.
  destruct (split_merge h4 C4) as (h5 & bins5 & Hsc5 & C5 & H5).
  { destruct A2 as [|y A2']; [done|]. cbn in *. intros Hu. destruct (Hm Hu) as [HyX Hf].
    split; [|done]. rewrite not_elem_of_union, not_elem_of_singleton. split; [|done].
    intros Heq. apply Hn. rewrite addrs_app, !addrs_cons, <- Heq. set_solver. }
  cbv zeta in H5. st_step H5.
  assert (HN : exists N', a_merge N A2 = N' :: tail (a_merge N A2) /\ a_addr N' = n /\ a_used N' = false).
  { destruct A2 as [|y A2']; cbn; [by eexists|]. by destruct (a_used y); eexists. }
  destruct HN as (N' & HN & Ha & Hu). rewrite HN in *.
  destruct (bin_insert_core C5 (x := N')) as (h6 & H6 & Hsb & C6);
    [set_solver | rewrite Ha; set_solver | done |].
  rewrite Ha in *. replace (({[n]} ∪ X) ∖ {[n]}) with X in C6 by set_solver.
  fold N. rewrite HN. eexists h6, _. split_and!; [exact H6 | | exact C6].
  etrans; [done|]. etrans; [done|]. by apply same_blocks_counts.
Qed.
End split.
