(* ===== verification/KHeapSpec.v ===== *)
(** The abstract specification of the heap: what a well-formed list of blocks
    is, and that splitting, merging, handing out and freeing keep it so. *)

From S2P Require Import Prelude DList KHeap KHeapInv KHeapOps.

(** ** Relations between neighbours and between any two blocks *)

Fixpoint linked (R : ablk -> ablk -> Prop) (A : list ablk) : Prop :=
  match A with
  | [] => True
  | x :: A' => match A' with [] => True | y :: _ => R x y end /\ linked R A'
  end.

Fixpoint pairwise (R : ablk -> ablk -> Prop) (A : list ablk) : Prop :=
  match A with
  | [] => True
  | x :: A' => (forall y, y ∈ A' -> R x y) /\ pairwise R A'
  end.

Lemma linked_app R A B : linked R (A ++ B) <->
  linked R A /\ linked R B /\
  (forall x y, last A = Some x -> head B = Some y -> R x y).
Proof.
  induction A as [|x A IH]; simpl; [naive_solver|].
  rewrite IH. destruct A as [|z A]; simpl.
  - destruct B as [|y B]; naive_solver.
  - rewrite last_cons. naive_solver.
Qed.

Lemma pairwise_app R A B : pairwise R (A ++ B) <->
  pairwise R A /\ pairwise R B /\ (forall x y, x ∈ A -> y ∈ B -> R x y).
Proof.
  induction A as [|x A IH]; simpl; [set_solver|].
  rewrite IH. setoid_rewrite elem_of_app. setoid_rewrite elem_of_cons. naive_solver.
Qed.

(** [x] and [y] share no byte, headers included *)
Definition disj (x y : ablk) : Prop := a_end x <= a_addr y \/ a_end y <= a_addr x.

(** the used blocks of no size kheap_add_region puts around a region *)
Definition marker (x : ablk) : Prop := a_used x = true /\ a_size x = 0.

(** list neighbours are neighbours in memory, or a new region starts *)
Definition adj (x y : ablk) : Prop := a_addr y = a_end x \/ marker y.

Definition not_both_free (x y : ablk) : Prop := a_used x = true \/ a_used y = true.

Record block_ok (x : ablk) : Prop := {
  ok_pos : 0 < a_addr x;
  ok_addr : a_addr x mod 16 = 0;
  ok_size : a_size x mod 16 = 0;
  ok_nonneg : 0 <= a_size x;
  ok_free : a_used x = false -> 16 <= a_size x;
  ok_end : a_end x <= 2 ^ 32;
}.

(** The layout: aligned blocks inside the first 4 GiB that overlap nowhere,
    list neighbours adjacent in memory (but for regions). *)
Record geom (A : list ablk) : Prop := {
  gd_each x : x ∈ A -> block_ok x;
  gd_disj : pairwise disj A;
  gd_adj : linked adj A;
}.

(** A well-formed heap has no two free blocks side by side either. *)
Record good (A : list ablk) : Prop := {
  gd_geom : geom A;
  gd_merged : linked not_both_free A;
}.

Ltac geo := unfold disj, adj, marker, not_both_free in *; unfold a_end, HDR, MIN_SPLIT, ALIGN in *;
  cbn [a_addr a_size a_used a_resize a_mark] in *.

(** ** Replacing one block *)

Lemma good_mid A x B : good (A ++ x :: B) -> block_ok x.
Proof. intros G. apply (gd_each _ (gd_geom _ G)). set_solver. Qed.

(** what neighbours see of a block: its address, its end, its mark *)
Lemma pairwise_replace A x B ys :
  pairwise disj (A ++ x :: B) ->
  (forall y, y ∈ ys -> a_addr x <= a_addr y /\ a_end y <= a_end x) ->
  pairwise disj ys -> pairwise disj (A ++ ys ++ B).
Proof.
  rewrite !pairwise_app. simpl. intros (HA & [HxB HB] & HAB) Hin Hys.
  split_and!; try done.
  - intros y z Hy Hz. specialize (Hin y Hy). specialize (HxB z Hz). geo. lia.
  - intros w z Hw Hz. apply elem_of_app in Hz as [Hz|Hz]; [|apply HAB; set_solver].
    specialize (Hin z Hz). specialize (HAB w x Hw ltac:(left)). geo. lia.
Qed.

Lemma linked_replace R A x B ys y1 y2 :
  linked R (A ++ x :: B) -> linked R ys -> head ys = Some y1 -> last ys = Some y2 ->
  (forall w, R w x -> R w y1) -> (forall z, R x z -> R y2 z) ->
  linked R (A ++ ys ++ B).
Proof.
  rewrite !linked_app. intros (HA & HxB & HAx) Hys H1 H2 Hl Hr. simpl in HxB.
  destruct HxB as [HxB HB]. split_and!; try done.
  - intros u z Hu Hz. rewrite H2 in Hu. injection Hu as <-.
    destruct B as [|z' B]; [done|]. simpl in Hz. injection Hz as <-. auto.
  - intros w z Hw Hz. rewrite head_app, H1 in Hz. simpl in Hz. injection Hz as <-.
    apply Hl. by apply HAx.
Qed.

(** ** Handing out *)

Definition a_alloc (x : ablk) (need : Z) (A2 : list ablk) : list ablk :=
  match a_split x need A2 with
  | x' :: r => a_mark x' true :: r
  | [] => []
  end.

(** the block handed out of [x], and what is left of it *)
Definition a_rest (x : ablk) (need : Z) : list ablk :=
  if a_size x <? need + HDR + MIN_SPLIT then [a_mark x true]
  else [ABlk (a_addr x) need true; ABlk (a_addr x + HDR + need) (a_size x - need - HDR) false].

Lemma a_alloc_rest x need A2 :
  (forall y, head A2 = Some y -> a_used y = true) -> a_alloc x need A2 = a_rest x need ++ A2.
Proof.
  intros Hy. unfold a_alloc, a_split, a_rest. destruct (_ <? _); [done|].
  destruct A2 as [|y A2]; cbn; [done|]. by rewrite (Hy y).
Qed.

Lemma good_next_used A x B y : good (A ++ x :: B) -> a_used x = false ->
  head B = Some y -> a_used y = true.
Proof.
  intros G Hx Hy. pose proof (gd_merged _ G) as Hl. apply linked_app in Hl as (_ & [Hl _] & _).
  destruct B as [|z B]; [done|]. injection Hy as ->. unfold not_both_free in Hl. naive_solver congruence.
Qed.

(** the front of a block becomes an allocation, the rest (if worth it) a free
    block before the used block after it *)
Lemma good_rest A x B need :
  geom (A ++ x :: B) -> linked not_both_free A -> linked not_both_free B ->
  (forall y, head B = Some y -> a_used y = true) -> (a_used x = true -> 0 < a_size x) ->
  0 < need <= a_size x -> need mod 16 = 0 ->
  good (A ++ a_rest x need ++ B).
Proof.
  intros G HA HB HyB Hx Hneed Hn16.
  destruct (gd_each _ G x ltac:(set_solver)) as [P1 P2 P3 P4 P5 P6].
  assert (Hrest : exists y1 y2, head (a_rest x need) = Some y1 /\ last (a_rest x need) = Some y2 /\
    a_addr y1 = a_addr x /\ a_used y1 = true /\ a_size y1 <> 0 /\ a_end y2 = a_end x /\
    linked adj (a_rest x need) /\ linked not_both_free (a_rest x need) /\
    pairwise disj (a_rest x need) /\
    forall y, y ∈ a_rest x need -> block_ok y /\ a_addr x <= a_addr y /\ a_end y <= a_end x).
  { unfold a_rest. destruct (_ <? _) eqn:E; zbool.
    - exists (a_mark x true), (a_mark x true). split_and!; try done; [geo; lia | set_solver |].
      intros y ->%list_elem_of_singleton. split; [|geo; lia]. split; done.
    - eexists _, _. split_and!; try done; [geo; lia | geo; lia | | | | ].
      + simpl. split; [|done]. by left.
      + simpl. split; [|done]. by left.
      + simpl. split; [|set_solver]. intros y ->%list_elem_of_singleton. geo. lia.
      + intros y Hy. repeat (apply elem_of_cons in Hy as [->|Hy]); [| |set_solver];
          (split; [split; geo; try done; lia | geo; lia]). }
  destruct Hrest as (y1 & y2 & H1 & H2 & Ha1 & Hu1 & Hs1 & He2 & Hadj & Hnb & Hpw & Hok).
  split; [split|].
  - intros y Hy. apply elem_of_app in Hy as [Hy|Hy]; [apply (gd_each _ G); set_solver|].
    apply elem_of_app in Hy as [Hy|Hy]; [by apply Hok|apply (gd_each _ G); set_solver].
  - apply (pairwise_replace _ x); [apply G | | done]. intros y Hy. by apply Hok.
  - apply (linked_replace _ _ x _ _ y1 y2); try done; [apply G | |].
    + intros w [Hw|[Hw Hw0]]; [left; congruence|]. specialize (Hx Hw). lia.
    + intros z [Hz|Hz]; [left; congruence|by right].
  - rewrite !linked_app. split_and!; try done.
    + intros u z Hu Hz. right. by apply HyB.
    + intros w z _ Hz. rewrite head_app, H1 in Hz. injection Hz as <-. by right.
Qed.

Lemma good_alloc A x B need :
  good (A ++ x :: B) -> a_used x = false -> 0 < need <= a_size x -> need mod 16 = 0 ->
  good (A ++ a_rest x need ++ B).
Proof.
  intros G Hx Hneed Hn16. pose proof (gd_merged _ G) as Hm.
  apply linked_app in Hm as (HA & [_ HB] & _). apply good_rest; try done; [apply G | | congruence].
  intros y Hy. by eapply good_next_used.
Qed.

(** ** Marking free and merging *)

(** two adjacent blocks become one *)
Lemma geom_merge A x y B : geom (A ++ x :: y :: B) -> a_addr y = a_end x ->
  (a_used x = true -> 0 < a_size x) ->
  geom (A ++ a_resize x (a_size x + HDR + a_size y) :: B).
Proof.
  intros [Hok Hdj Hadj] Hxy Hpos.
  destruct (Hok x) as [X1 X2 X3 X4 X5 X6]; [set_solver|].
  destruct (Hok y) as [Y1 Y2 Y3 Y4 Y5 Y6]; [set_solver|].
  set (m := a_resize x (a_size x + HDR + a_size y)).
  split.
  - intros z Hz. assert (z = m \/ z ∈ A ++ x :: y :: B) as [->|Hz'] by set_solver; [|auto].
    subst m. split; geo; try done; lia.
  - rewrite !pairwise_app in *. simpl in *. destruct Hdj as (HA & (Hx & Hy & HB) & HAB).
    split_and!; try done.
    + intros z Hz. pose proof (Hx z ltac:(set_solver)) as D1. pose proof (Hy z Hz) as D2.
      destruct (Hok z) as [Z1 Z2 Z3 Z4 Z5 Z6]; [set_solver|]. subst m. geo. lia.
    + intros w z Hw Hz. apply elem_of_cons in Hz as [->|Hz]; [|apply HAB; set_solver].
      pose proof (HAB w x Hw ltac:(set_solver)) as D1. pose proof (HAB w y Hw ltac:(set_solver)) as D2.
      destruct (Hok w) as [Z1 Z2 Z3 Z4 Z5 Z6]; [set_solver|]. subst m. geo. lia.
  - rewrite !linked_app in *. simpl in *. destruct Hadj as (HA & (Hx & Hy & HB) & HAx).
    split_and!; try done.
    + destruct B as [|z B]; [done|]. destruct Hy as [Hy|Hy]; [left; subst m; geo; lia | by right].
    + intros w z Hw [= <-]. destruct (HAx w x Hw eq_refl) as [Hd|[Hu Hs]]; [by left|].
      exfalso. specialize (Hpos Hu). lia.
Qed.

(** a mark may change when the block is not a marker *)
Lemma geom_mark A x B u : geom (A ++ x :: B) -> 16 <= a_size x -> geom (A ++ a_mark x u :: B).
Proof.
  intros [Hok Hdj Hadj] Hsz. split.
  - intros z Hz. assert (z = a_mark x u \/ z ∈ A ++ x :: B) as [->|Hz'] by set_solver; [|auto].
    destruct (Hok x) as [X1 X2 X3 X4 X5 X6]; [set_solver|]. split; geo; done.
  - rewrite !pairwise_app in *. simpl in *. destruct Hdj as (HA & (Hx & HB) & HAB).
    split_and!; try done. intros w z Hw Hz. apply elem_of_cons in Hz as [->|Hz]; [|apply HAB; set_solver].
    apply (HAB w x); set_solver.
  - rewrite !linked_app in *. simpl in *. destruct Hadj as (HA & (Hx & HB) & HAx).
    split_and!; try done. intros w z Hw [= <-]. destruct (HAx w x Hw eq_refl) as [Hd|[_ Hs]]; [by left|lia].
Qed.

(** what freeing [x] leaves before the block before it is looked at *)
Lemma free_next A1 x A2 : good (A1 ++ x :: A2) -> a_used x = true -> 16 <= a_size x ->
  exists x' r, a_merge (a_mark x false) A2 = x' :: r /\ a_addr x' = a_addr x /\
    a_used x' = false /\ geom (A1 ++ x' :: r) /\ linked not_both_free A1 /\
    linked not_both_free r /\ (forall z, head r = Some z -> a_used z = true).
Proof.
  intros [G Hm] Hu Hs. pose proof (geom_mark _ _ _ false G Hs) as G'.
  apply linked_app in Hm as (Hm1 & Hm2 & _). simpl in Hm2. destruct Hm2 as [Hxy Hm2].
  destruct A2 as [|y A2]; cbn [a_merge].
  { exists (a_mark x false), []. by split_and!. }
  destruct (a_used y) eqn:Hy.
  { exists (a_mark x false), (y :: A2). split_and!; try done. by intros z [= <-]. }
  assert (Hadj : a_addr y = a_end (a_mark x false)).
  { pose proof (gd_adj _ G') as Ha. apply linked_app in Ha as (_ & [Ha _] & _). simpl in Ha.
    destruct Ha as [Ha|[Ha _]]; [done|congruence]. }
  eexists _, A2. split_and!; try done.
  - by apply geom_merge.
  - by destruct Hm2.
  - intros z Hz. destruct A2 as [|z' A2]; [done|]. injection Hz as ->.
    destruct Hm2 as [[?|?] _]; congruence.
Qed.

Lemma good_free A1 x A2 : good (A1 ++ x :: A2) -> a_used x = true -> 16 <= a_size x ->
  (forall p, last A1 = Some p -> a_used p = true) ->
  good (A1 ++ a_merge (a_mark x false) A2).
Proof.
  intros G Hu Hs Hp. destruct (free_next _ _ _ G Hu Hs) as (x' & r & -> & _ & Hu' & G' & H1 & H2 & Hr).
  split; [done|]. rewrite linked_app. simpl. split_and!; try done.
  - destruct r as [|z r]; [done|]. right. by apply Hr.
  - intros w z Hw _. left. by apply Hp.
Qed.

Lemma good_free_prev A1 p x A2 x' r :
  good ((A1 ++ [p]) ++ x :: A2) -> a_used x = true -> 16 <= a_size x -> a_used p = false ->
  a_merge (a_mark x false) A2 = x' :: r ->
  good (A1 ++ a_resize p (a_size p + HDR + a_size x') :: r).
Proof.
  intros G Hu Hs Hp Hmg.
  destruct (free_next _ _ _ G Hu Hs) as (x'' & r' & Hmg' & Ha & Hu' & G' & H1 & H2 & Hr).
  rewrite Hmg in Hmg'. injection Hmg' as <- <-.
  apply linked_app in H1 as (H1 & _ & Hpl). rewrite <- app_assoc in G'. cbn in G'.
  assert (Hadj : a_addr x' = a_end p).
  { pose proof (gd_adj _ G') as Hl. apply linked_app in Hl as (_ & [Hl _] & _).
    destruct Hl as [Hl|[Hl _]]; [done|congruence]. }
  split; [apply geom_merge; [done|done|congruence]|].
  rewrite linked_app. simpl. split_and!; try done.
  - destruct r as [|z r]; [done|]. right. by apply Hr.
  - intros w z Hw [= <-]. destruct (Hpl w p Hw eq_refl) as [?|?]; [by left|congruence].
Qed.

(** ** What clients see: the allocations, and the memory they and the free
    blocks take together *)

Definition is_live (x : ablk) : bool := a_used x && (0 <? a_size x).
Definition live (A : list ablk) : list ablk := filter (fun x => is_live x = true) A.
Definition sizes (A : list ablk) : Z := foldr (fun x n => a_size x + n) 0 A.

(** payload address and size of each allocation *)
Definition alloc_of (x : ablk) : Z * Z := (a_addr x + HDR, a_size x).
Definition allocs (A : list ablk) : list (Z * Z) := alloc_of <$> live A.

(** every byte of the heap is in a header, an allocation or a free block *)
Definition span (A : list ablk) : Z := foldr (fun x n => HDR + a_size x + n) 0 A.

Lemma live_app A B : live (A ++ B) = live A ++ live B.
Proof. apply filter_app. Qed.

Lemma allocs_app A B : allocs (A ++ B) = allocs A ++ allocs B.
Proof. unfold allocs. by rewrite live_app, fmap_app. Qed.

Lemma live_cons x A : live (x :: A) = if is_live x then x :: live A else live A.
Proof. unfold live. rewrite filter_cons. by destruct (is_live x). Qed.

Lemma allocs_cons x A : allocs (x :: A) = if is_live x then alloc_of x :: allocs A else allocs A.
Proof. unfold allocs. rewrite live_cons. by destruct (is_live x). Qed.

Lemma sizes_app A B : sizes (A ++ B) = sizes A + sizes B.
Proof. induction A; simpl; lia. Qed.

Lemma span_app A B : span (A ++ B) = span A + span B.
Proof. induction A; simpl; lia. Qed.

Lemma is_live_free x : a_used x = false -> is_live x = false.
Proof. unfold is_live. by intros ->. Qed.

Lemma is_live_used x : a_used x = true -> 0 < a_size x -> is_live x = true.
Proof. unfold is_live. intros -> Hs. by apply Z.ltb_lt. Qed.

Lemma live_spec A x : x ∈ live A <-> x ∈ A /\ a_used x = true /\ 0 < a_size x.
Proof.
  unfold live, is_live. rewrite list_elem_of_filter, andb_true_iff, Z.ltb_lt. naive_solver.
Qed.

Lemma sizes_allocs A : sizes (live A) = zsum (snd <$> allocs A).
Proof.
  unfold allocs. induction (live A) as [|x l IH]; [done|].
  rewrite !fmap_cons, zsum_cons, <- IH. done.
Qed.

(** a merge keeps the allocations and the span *)
Lemma merge_facts x A2 : a_used x = false ->
  live (a_merge x A2) = live A2 /\ span (a_merge x A2) = HDR + a_size x + span A2.
Proof.
  intros Hx. destruct A2 as [|y A2]; cbn [a_merge].
  - rewrite live_cons, is_live_free by done. split; [done|]. simpl. lia.
  - destruct (a_used y) eqn:Hy.
    + rewrite live_cons, is_live_free by done. split; [done|]. simpl. lia.
    + rewrite !live_cons, !is_live_free by done. split; [done|]. simpl. lia.
Qed.

Lemma rest_facts x need : 0 < need <= a_size x ->
  exists n, need <= n <= a_size x /\ live (a_rest x need) = [ABlk (a_addr x) n true] /\
    span (a_rest x need) = HDR + a_size x.
Proof.
  intros Hn. unfold a_rest. destruct (_ <? _) eqn:E; zbool.
  - exists (a_size x). rewrite live_cons, is_live_used by (cbn; done || lia).
    split_and!; try done; [lia|]. simpl. lia.
  - exists need. rewrite live_cons, is_live_used by (cbn; done || lia).
    rewrite live_cons, is_live_free by done. split_and!; try done; [lia|]. simpl. lia.
Qed.
