(* ===== verification/KHeapCalls.v ===== *)
(** The allocator's calls against the abstract heap: what find_fit, kmalloc,
    kfree and krealloc do to the list of blocks and to the allocations. *)

From S2P Require Import Prelude DList KHeap KHeapInv KHeapOps KHeapSpec.

(** ** The invariant between calls *)

(** memory [h] holds the well-formed heap [A], all free blocks in their bins,
    and g_used counts the bytes handed out (mod 2^32) *)
Record heap_inv (h : heap) (A : list ablk) : Prop := {
  hi_core : exists bins, core h A ∅ bins;
  hi_good : good A;
  hi_used : g_used h = u32 (sizes (live A));
}.

Lemma u32_add_l a b : u32 (u32 a + b) = u32 (a + b).
Proof. apply Zplus_mod_idemp_l. Qed.

Lemma good_each A x : good A -> x ∈ A -> block_ok x.
Proof. intros [G _]. apply G. Qed.

(** no header lies strictly inside a block *)
Lemma geom_inside A x B n : geom (A ++ x :: B) -> a_addr x < n < a_end x ->
  n ∉ addrs (A ++ x :: B).
Proof.
  intros [Hok Hdj _] Hn Hin. apply list_elem_of_fmap in Hin as (y & -> & Hy).
  destruct (Hok y Hy) as [_ _ _ Y _ _]. apply pairwise_app in Hdj as (_ & [Hx _] & HAB).
  apply elem_of_app in Hy as [Hy|Hy]; [|apply elem_of_cons in Hy as [->|Hy]].
  - specialize (HAB y x Hy ltac:(left)). geo. lia.
  - lia.
  - specialize (Hx y Hy). geo. lia.
Qed.

(** the condition of merge_next and split on the merged size *)
Lemma good_mergeable A x B X : geom (A ++ x :: B) ->
  (forall y, head B = Some y -> a_used y = false -> a_addr y ∉ X /\ a_addr y = a_end x) ->
  mergeable x B X.
Proof.
  intros [Hok Hdj _] HB. destruct B as [|y B]; [done|]. cbn. intros Hu.
  destruct (HB y eq_refl Hu) as [HX Hadj]. split; [done|].
  destruct (Hok x) as [X1 X2 X3 X4 X5 X6]; [set_solver|].
  destruct (Hok y) as [Y1 Y2 Y3 Y4 Y5 Y6]; [set_solver|].
  geo. unfold is_u32. lia.
Qed.

(** a step of the form [absorb b nb ;;; k] *)
Lemma absorb_then {B} b nb (k : M B) h h' : absorb b nb h = Some (tt, h') ->
  (store b (fun x => x <| size ::= fun s => u32 (s + (HDR + size nb)) |>) ;;;
   store b (fun x => x <| next := next nb |>) ;;;
   set_prev_of (next nb) b ;;; k) h = k h'.
Proof.
  unfold absorb, st_bind. destruct (store b _ h) as [[[] h1]|]; [|done].
  destruct (store b _ h1) as [[[] h2]|]; [|done]. by intros ->.
Qed.

(** ** find_fit *)

Lemma hand_out_core h A1 x A2 X bins : core h (A1 ++ x :: A2) X bins ->
  a_used x = true \/ a_addr x ∈ X -> exists h',
  hand_out (a_addr x) h = Some (a_addr x + HDR, h') /\
  core h' (A1 ++ a_mark x true :: A2) (X ∖ {[a_addr x]}) bins /\
  g_used h' = u32 (g_used h + a_size x) /\ g_total h' = g_total h.
Proof.
  intros C Hx.
  destruct (core_mark _ _ _ _ _ (X ∖ {[a_addr x]}) _ (fun w => w <| used := HEAP_MAGIC |>)
    (a_mark x true) C) as [Hrun C']; try done; [by left | set_solver | | ].
  { apply (c_size _ _ _ _ C x). set_solver. }
  destruct (core_load C' (a_mark x true)) as (b & Hload & _ & Hs & _); [set_solver|].
  unfold hand_out. st_step Hrun. cbn [a_addr a_mark] in Hload. st_step Hload.
  eexists. split_and!; [reflexivity | | |].
  - by destruct C'; split.
  - cbn. by rewrite Hs.
  - done.
Qed.

Lemma split_head x need A2 : 
  exists x0 r, a_split x need A2 = x0 :: r /\ a_addr x0 = a_addr x /\
    a_used x0 = a_used x /\ a_alloc x need A2 = a_mark x0 true :: r.
Proof. unfold a_alloc, a_split. destruct (_ <? _); eexists _, _; by split_and!. Qed.

(** splitting a block taken from the bins and handing it out *)
Lemma split_hand_out h A1 x A2 bins need :
  good (A1 ++ x :: A2) -> core h (A1 ++ x :: A2) {[a_addr x]} bins -> a_used x = false ->
  0 < need <= a_size x -> need mod 16 = 0 -> need <= 0xF0000000 ->
  g_used h = u32 (sizes (live (A1 ++ x :: A2))) ->
  exists h', (split (a_addr x) need ;;; hand_out (a_addr x)) h = Some (a_addr x + HDR, h') /\
    heap_inv h' (A1 ++ a_rest x need ++ A2) /\ g_total h' = g_total h.
Proof.
  intros G C Hu Hn Hn16 Hmax Hgu. destruct (good_mid _ _ _ G) as [P1 P2 P3 P4 P5 P6].
  destruct (split_core C ltac:(right; set_solver) need ltac:(lia) ltac:(unfold HDR, MIN_SPLIT; lia))
    as (h1 & bins1 & Hrun & Hsc & C1).
  { intros Hroom. unfold HDR, MIN_SPLIT in *. split_and!; try lia.
    - apply geom_inside; [apply G|]. geo. lia.
    - rewrite not_elem_of_singleton. lia.
    - destruct A2 as [|y A2]; [done|]. cbn. intros Huy.
      by rewrite (good_next_used _ _ _ y G Hu) in Huy. }
  destruct (split_head x need A2) as (x0 & r & Hsp & Ha & Hu0 & Hal). rewrite Hsp in C1.
  destruct (hand_out_core _ _ _ _ _ _ C1) as (h2 & Hho & C2 & Hgu2 & Hgt2); [right; set_solver|].
  rewrite Ha in *. st_step Hrun. exists h2. split; [done|].
  assert (HA : A1 ++ a_mark x0 true :: r = A1 ++ a_rest x need ++ A2).
  { rewrite <- Hal. f_equal. apply a_alloc_rest. intros y Hy. by eapply good_next_used. }
  rewrite HA in C2. split; [|rewrite Hgt2; apply Hsc]. split.
  - exists bins1. by replace ({[a_addr x]} ∖ {[a_addr x]}) with (∅ : gset Z) in C2 by set_solver.
  - by apply good_alloc.
  - rewrite Hgu2, (sc_used _ _ Hsc), Hgu, u32_add_l. f_equal.
    rewrite !live_app, live_cons, is_live_free, !sizes_app by done.
    destruct (rest_facts x need) as (n & Hn' & Hlive & _); [lia|].
    rewrite Hlive. cbn. assert (a_size x0 = n); [|lia].
    unfold a_split, a_rest in Hsp, Hlive. destruct (_ <? _); injection Hsp as <- <-;
      rewrite live_cons, is_live_used in Hlive by (cbn; done || lia); by injection Hlive.
Qed.

(** [r] is an allocation made of a free block of [A], giving [A'] *)
Definition handed (A : list ablk) (need r : Z) (A' : list ablk) : Prop :=
  exists A1 x A2, A = A1 ++ x :: A2 /\ a_used x = false /\ need <= a_size x /\
    r = a_addr x + HDR /\ A' = A1 ++ a_rest x need ++ A2.

(** no bin big enough for sure holds anything *)
Definition no_fit (A : list ablk) (need : Z) : Prop :=
  forall x, x ∈ A -> a_used x = false -> a_size x < fit need.

Definition fits (h : heap) (A : list ablk) (need : Z) (res : option (Z * heap)) : Prop :=
  (res = Some (0, h) /\ no_fit A need) \/
  exists r h' A', res = Some (r, h') /\ r <> 0 /\ heap_inv h' A' /\ handed A need r A' /\
    g_total h' = g_total h.

Lemma find_fit_core h A need : heap_inv h A ->
  0 < need <= 0xF0000000 -> need mod 16 = 0 -> fits h A need (find_fit need h).
Proof.
  intros [[bins C] G Hgu] Hn Hn16.
  assert (Halign : forall x, x ∈ A -> a_size x mod 16 = 0).
  { intros x Hx. apply (good_each A x G Hx). }
  unfold find_fit. destruct (bin_take_core C Halign need ltac:(lia) Hn16) as
    [[Hrun Hno] | (x & h1 & bins1 & Hrun & Hx & Hu & _ & Hsz & Hsb & C1)].
  - left. st_step Hrun. split; [done|]. intros x Hx Hu. apply Hno; [done|done|set_solver].
  - right. st_step Hrun. pose proof (good_each _ _ G Hx) as [P1 _ _ _ _ _].
    destruct (a_addr x =? 0) eqn:E; [zbool; lia|].
    apply list_elem_of_split in Hx as (A1 & A2 & ->).
    rewrite union_empty_r_L in C1.
    destruct (split_hand_out h1 A1 x A2 bins1 need) as (h2 & Hrun2 & Hinv & Hgt);
      try done; try lia; [by rewrite (sb_used _ _ Hsb)|].
    eexists _, h2, _. split_and!; [exact Hrun2 | unfold HDR; lia | exact Hinv | | ].
    + by exists A1, x, A2.
    + by rewrite Hgt, (sb_total _ _ Hsb).
Qed.

(** ** kmalloc *)

Lemma align_up_16 v : 0 <= v <= 0xF0000000 ->
  align_up v ALIGN mod 16 = 0 /\ v <= align_up v ALIGN < v + 16.
Proof.
  intros Hv. unfold align_up, ALIGN. rewrite u32_small by (unfold is_u32; lia).
  change (u32 (Z.lnot (16 - 1))) with (Z.ldiff (Z.ones 32) (Z.ones 4)).
  replace (Z.land (v + 16 - 1) (Z.ldiff (Z.ones 32) (Z.ones 4))) with (Z.ldiff (v + 15) (Z.ones 4)).
  - rewrite Z.ldiff_ones_r, Z.shiftl_mul_pow2, Z.shiftr_div_pow2 by lia.
    change (2 ^ 4) with 16. lia.
  - apply Z.bits_inj'. intros i Hi. rewrite Z.land_spec, !Z.ldiff_spec.
    replace (v + 16 - 1) with (v + 15) by lia.
    destruct (decide (i < 32)).
    + rewrite (Z.ones_spec_low 32) by lia. done.
    + rewrite (Z.ones_spec_high 32) by lia. cbn. rewrite andb_false_r.
      assert (Z.testbit (v + 15) i = false) as ->; [|done].
      apply Z.bits_above_log2; [lia|]. apply Z.log2_lt_pow2; [lia|].
      apply Z.lt_le_trans with (2 ^ 32); [lia|]. apply Z.pow_le_mono_r; lia.
Qed.

(** the callback frees memory through the allocator's own calls, so it keeps
    the invariant *)
Definition reclaim_ok (reclaim : Z -> heap -> heap) : Prop :=
  forall n h A, heap_inv h A -> exists A', heap_inv (reclaim n h) A'.

Definition need_of (sz : Z) : Z := align_up (u32 sz) ALIGN.

Lemma need_of_spec sz : 0 < sz <= 0xF0000000 ->
  need_of sz mod 16 = 0 /\ sz <= need_of sz < sz + 16 /\ 0 < need_of sz <= 0xF0000000.
Proof.
  intros Hs. unfold need_of. rewrite u32_small by (unfold is_u32; lia).
  destruct (align_up_16 sz) as [H1 H2]; lia.
Qed.

Lemma kmalloc_core rc_ok reclaim h A sz : heap_inv h A -> (rc_ok = true -> reclaim_ok reclaim) ->
  0 <= sz -> exists r h' A0 A',
  kmalloc rc_ok reclaim sz h = Some (r, h') /\ heap_inv h' A' /\
  (rc_ok = false -> A0 = A) /\
  (r = 0 /\ A' = A0 /\ (sz = 0 \/ 0xF0000000 < sz \/ no_fit A0 (need_of sz)) \/
   r <> 0 /\ 0 < sz <= 0xF0000000 /\ (exists h0, heap_inv h0 A0) /\ handed A0 (need_of sz) r A').
Proof.
  intros Hinv Hrc Hsz. unfold kmalloc. fold (need_of sz).
  destruct ((g_head h =? 0) || (sz =? 0) || (0xF0000000 <? sz)) eqn:E.
  { exists 0, h, A, A. split_and!; try done. left. split_and!; try done.
    destruct (g_head h =? 0) eqn:E0; cbn in E; zbool; [|destruct E as [E|E]; zbool; auto].
    right; right. destruct Hinv as [[bins C] _ _]. rewrite (c_head _ _ _ _ C) in E0.
    apply (dl_first_zero _ _ (c_dl _ _ _ _ C)) in E0. apply fmap_nil_inv in E0 as ->.
    by intros x Hx%elem_of_nil. }
  zbool. destruct (need_of_spec sz) as (N1 & N2 & N3); [lia|].
  destruct (find_fit_core h A (need_of sz) Hinv N3 N1) as
    [[-> Hno] | (r & h1 & A1 & -> & Hr & Hinv1 & Hh & _)].
  - cbn [Z.eqb andb]. destruct rc_ok.
    + destruct (Hrc eq_refl (u32 (need_of sz + HDR)) h A Hinv) as [A0 Hinv0].
      destruct (find_fit_core _ A0 (need_of sz) Hinv0 N3 N1) as
        [[-> Hno0] | (r & h1 & A1 & -> & Hr & Hinv1 & Hh & _)].
      * eexists 0, _, A0, A0. split_and!; try done. left. auto.
      * eexists r, h1, A0, A1. split_and!; try done. right. split_and!; eauto; lia.
    + exists 0, h, A, A. split_and!; try done. left. auto.
  - apply Z.eqb_neq in Hr as Hr'. rewrite Hr'. cbn [andb].
    exists r, h1, A, A1. split_and!; try done. right. split_and!; eauto; lia.
Qed.

(** what an allocation looks like from outside *)
Lemma handed_facts A need r A' : good A -> 0 < need -> handed A need r A' ->
  r mod 16 = 0 /\ span A' = span A /\
  exists n, need <= n /\ allocs A' ≡ₚ (r, n) :: allocs A /\ r + n <= 2 ^ 32 /\
    forall x, x ∈ A -> a_used x = true -> r + n <= a_addr x \/ a_end x <= r - HDR.
Proof.
  intros G Hn (A1 & x & A2 & -> & Hu & Hs & -> & ->).
  pose proof (good_mid _ _ _ G) as [P1 P2 P3 P4 P5 P6].
  destruct (rest_facts x need) as (n & Hn' & Hlive & Hspan); [lia|].
  split_and!; [unfold HDR; lia | rewrite !span_app, Hspan; simpl; lia |].
  exists n. split_and!; [lia | | geo; lia |].
  - unfold allocs. rewrite !live_app, live_cons, is_live_free, Hlive by done.
    rewrite !fmap_app. cbn. unfold alloc_of at 2. cbn. by rewrite <- Permutation_middle.
  - intros y Hy Hyu. assert (Hd : disj x y).
    { pose proof (gd_disj _ (gd_geom _ G)) as Hp. apply pairwise_app in Hp as (_ & [Hx _] & HAB).
      apply elem_of_app in Hy as [Hy|Hy]; [|apply elem_of_cons in Hy as [->|Hy]; [congruence|]].
      - specialize (HAB y x Hy ltac:(left)). unfold disj in *. tauto.
      - by apply Hx. }
    geo. lia.
Qed.

(** ** kfree *)

Lemma core_counts h h' A X bins : core h A X bins ->
  blocks h' = blocks h -> flinks h' = flinks h -> g_head h' = g_head h ->
  g_bin h' = g_bin h -> g_flmap h' = g_flmap h -> g_slmap h' = g_slmap h ->
  core h' A X bins.
Proof.
  intros C Hb Hf Hh Hbin Hfl Hsl. apply (core_headers h h' A A X X); try done;
    rewrite ?Hb, ?Hh; try apply C.
  intros x Hx. split; [by eapply c_size | by eapply c_blk].
Qed.

Lemma hdr_of_live h A X bins x : core h A X bins -> x ∈ A -> a_used x = true ->
  hdr_of (a_addr x + HDR) h = Some (a_addr x, h).
Proof.
  intros C Hx Hu. destruct (core_load C x Hx) as (b & Hload & _ & _ & Hub).
  unfold hdr_of. replace (a_addr x + HDR - HDR) with (a_addr x) by lia.
  st_step Hload. by rewrite Hub, Hu.
Qed.

(** the part of kfree that looks at the block before *)
Definition free_prev (b : Z) : M unit :=
  let! blk := load b in
  let p := prev blk in
  if p =? 0 then bin_insert b else
  let! pb := load p in
  if negb (used pb =? 0) then bin_insert b else
  bin_remove p ;;;
  store p (fun x => x <| size ::= fun s => u32 (s + (HDR + size blk)) |>) ;;;
  store p (fun x => x <| next := next blk |>) ;;;
  set_prev_of (next blk) p ;;;
  bin_insert p.

(** ... merges [x'] into a free block before it, or bins it *)
Lemma free_prev_core h A1 x' r bins :
  core h (A1 ++ x' :: r) {[a_addr x']} bins -> a_used x' = false ->
  (forall A0 p, A1 = A0 ++ [p] -> a_used p = false -> is_u32 (a_size p + HDR + a_size x')) ->
  exists h' bins', free_prev (a_addr x') h = Some (tt, h') /\ same_counts h h' /\
    ((forall p, last A1 = Some p -> a_used p = true) /\ core h' (A1 ++ x' :: r) ∅ bins' \/
     exists A0 p, A1 = A0 ++ [p] /\ a_used p = false /\
       core h' (A0 ++ a_resize p (a_size p + HDR + a_size x') :: r) ∅ bins').
Proof.
  intros C Hu Hfit. destruct (core_load C x') as (b & Hload & Hb & _); [set_solver|].
  destruct (core_next _ _ _ _ C Hb) as [Hprev _].
  assert (Hins : exists h' bins', bin_insert (a_addr x') h = Some (tt, h') /\ same_counts h h' /\
    core h' (A1 ++ x' :: r) ∅ bins').
  { destruct (bin_insert_core C (x := x')) as (h' & Hrun & Hsb & C'); try done; try set_solver.
    replace ({[a_addr x']} ∖ {[a_addr x']}) with (∅ : gset Z) in C' by set_solver.
    eexists h', _. split_and!; [done | by apply same_blocks_counts | done]. }
  unfold free_prev. st_step Hload. rewrite Hprev.
  destruct (decide (A1 = [])) as [->|Hne].
  { destruct Hins as (h' & bins' & ? & ? & ?). exists h', bins'. split_and!; [done|done|]. by left. }
  destruct (exists_last Hne) as (A0 & p & ->). rewrite addrs_app. cbn. rewrite final_snoc.
  assert (Hp : p ∈ (A0 ++ [p]) ++ x' :: r) by set_solver.
  pose proof (core_addr_nonnull C p Hp) as Hp0. apply Z.eqb_neq in Hp0. rewrite Hp0.
  destruct (core_load C p Hp) as (pb & Hloadp & _ & _ & Hup). st_step Hloadp.
  rewrite Hup. destruct (a_used p) eqn:Eu; cbn [tag negb Z.eqb].
  { change (HEAP_MAGIC =? 0) with false. cbn [negb].
    destruct Hins as (h' & bins' & ? & ? & ?). exists h', bins'. split_and!; [done|done|].
    left. split; [|done]. intros q. rewrite last_snoc. by intros [= <-]. }
  assert (HpX : a_addr p ∉ ({[a_addr x']} : gset Z)).
  { rewrite not_elem_of_singleton. intros Heq.
    assert (p = x') as ->; [apply (core_addr_inj C); set_solver|].
    pose proof (dl_nodup _ _ (c_dl _ _ _ _ C)) as Hnd. rewrite <- app_assoc, addrs_app in Hnd.
    apply NoDup_app in Hnd as (_ & _ & Hnd). cbn in Hnd. apply NoDup_cons in Hnd as [Hnd _].
    apply Hnd. left. }
  destruct (bin_remove_free _ p C Hp Eu HpX) as (h1 & bins1 & Hrem & Hsb & C1). st_step Hrem.
  rewrite <- app_assoc in C1. cbn in C1.
  destruct (absorb_core C1 ltac:(set_solver) ltac:(set_solver) (Hfit _ _ eq_refl Eu) b)
    as (h2 & Hab & Hsc & C2); [by rewrite (sb_blocks _ _ Hsb)|].
  rewrite (absorb_then _ _ _ _ _ Hab).
  destruct (bin_insert_core C2 (x := a_resize p (a_size p + HDR + a_size x')))
    as (h3 & Hrun3 & Hsb3 & C3); try done; [set_solver | cbn; set_solver |].
  eexists h3, _. split_and!; [exact Hrun3 | |].
  { etrans; [by apply same_blocks_counts|]. etrans; [done|]. by apply same_blocks_counts. }
  right. exists A0, p. split_and!; [done|done|].
  cbn [a_addr a_resize] in C3. match type of C3 with core _ _ ?S _ => replace S with (∅ : gset Z) in C3 by set_solver end.
  exact C3.
Qed.

(** marking [x] free and merging it with the block after *)
Lemma free_mark h A1 x A2 bins : core h (A1 ++ x :: A2) ∅ bins -> good (A1 ++ x :: A2) ->
  a_used x = true -> 16 <= a_size x -> exists h1 h2 bins',
  store (a_addr x) (fun w => w <| used := 0 |>) h = Some (tt, h1) /\
  merge_next (a_addr x) h1 = Some (tt, h2) /\ same_counts h h2 /\
  core h2 (A1 ++ a_merge (a_mark x false) A2) {[a_addr x]} bins'.
Proof.
  intros C G Hu Hs.
  destruct (core_mark _ _ _ _ _ {[a_addr x]} _ (fun w => w <| used := 0 |>)
    (a_mark x false) C) as [Hrun C1]; try done; [by left | right; cbn; set_solver | set_solver | | ].
  { apply (c_size _ _ _ _ C x). set_solver. }
  destruct (merge_next_core A1 (a_mark x false) A2 C1) as (h2 & bins2 & Hrun2 & Hsc2 & C2).
  { right. cbn. set_solver. }
  { apply (good_mergeable A1); [by apply geom_mark; [apply G|]|].
    intros y Hy Huy. cbn [a_end a_mark a_addr a_size]. split.
    - rewrite not_elem_of_singleton. intros Heq. destruct A2 as [|z A2]; [done|]. injection Hy as ->.
      assert (y = x) as ->; [apply (core_addr_inj C); set_solver|congruence].
    - pose proof (gd_adj _ (gd_geom _ G)) as Ha. apply linked_app in Ha as (_ & [Ha _] & _).
      destruct A2 as [|z A2]; [done|]. injection Hy as ->.
      destruct Ha as [Ha|[Ha _]]; [done|congruence]. }
  eexists _, h2, bins2. split_and!; [exact Hrun | exact Hrun2 | | exact C2].
  etrans; [|done]. by split.
Qed.

Lemma kfree_core h A1 x A2 : heap_inv h (A1 ++ x :: A2) -> is_live x = true -> exists h' A',
  kfree (a_addr x + HDR) h = Some (tt, h') /\ heap_inv h' A' /\ g_total h' = g_total h /\
  live A' = live A1 ++ live A2 /\ span A' = span (A1 ++ x :: A2).
Proof.
  intros [[bins C] G Hgu] Hl. pose proof (good_mid _ _ _ G) as [P1 P2 P3 P4 P5 P6].
  pose proof Hl as Hl'. unfold is_live in Hl'. apply andb_true_iff in Hl' as [Hu Hs]. zbool.
  assert (Hs16 : 16 <= a_size x) by lia.
  unfold kfree. destruct (a_addr x + HDR =? 0) eqn:E; [zbool; unfold HDR in *; lia|].
  st_step (hdr_of_live _ _ _ _ x C ltac:(set_solver) Hu).
  destruct (a_addr x =? 0) eqn:E0; [zbool; lia|].
  destruct (core_load C x) as (b & Hload & _ & Hbs & _); [set_solver|]. st_step Hload. rewrite Hbs.
  set (h0 := h <| g_used ::= fun u => u32 (u - a_size x) |>).
  assert (C0 : core h0 (A1 ++ x :: A2) ∅ bins) by by apply (core_counts h).
  destruct (free_mark _ _ _ _ _ C0 G Hu Hs16) as (h1 & h2 & bins2 & Hr1 & Hr2 & Hsc2 & C2).
  change (modify _ h) with (Some (tt, h0)). unfold modify at 1. rewrite (bind_ok _ _ h tt h0) by done.
  st_step Hr1. st_step Hr2.
  destruct (free_next _ _ _ G Hu Hs16) as (x' & r & Hmg & Ha & Hu' & G' & _ & _ & _).
  assert (Hfacts := merge_facts (a_mark x false) A2 eq_refl). rewrite Hmg in Hfacts, C2.
  rewrite live_cons, is_live_free in Hfacts by done. destruct Hfacts as [Hlive Hspan]. rewrite <- Ha in *.
  change (exists h' A', free_prev (a_addr x') h2 = Some (tt, h') /\ heap_inv h' A' /\
    g_total h' = g_total h /\ live A' = live A1 ++ live A2 /\ span A' = span (A1 ++ x :: A2)).
  assert (Hused : u32 (g_used h - a_size x) = u32 (sizes (live A1 ++ live A2))).
  { rewrite Hgu, u32_sub_l. f_equal. rewrite live_app, live_cons, Hl, !sizes_app. simpl. lia. }
  destruct (free_prev_core h2 A1 x' r bins2 C2 Hu') as (h3 & bins3 & Hr3 & Hsc3 & Hcase).
  { intros A0 p -> Hup. rewrite <- app_assoc in G'. cbn in G'.
    assert (Hm : mergeable p (x' :: r) ∅); [|by apply Hm].
    apply (good_mergeable A0); [done|]. intros y [= <-] _. split; [set_solver|].
    pose proof (gd_adj _ G') as Hl2. apply linked_app in Hl2 as (_ & [Hl2 _] & _).
    destruct Hl2 as [Hl2|[Hl2 _]]; [done|congruence]. }
  assert (Hcnt : g_used h3 = u32 (g_used h - a_size x) /\ g_total h3 = g_total h).
  { rewrite (sc_used _ _ Hsc3), (sc_used _ _ Hsc2), (sc_total _ _ Hsc3), (sc_total _ _ Hsc2). done. }
  destruct Hcnt as [Hcu Hct].
  destruct Hcase as [[Hlast C3] | (A0 & p & -> & Hup & C3)].
  - exists h3, (A1 ++ x' :: r).
    assert (Hlv : live (A1 ++ x' :: r) = live A1 ++ live A2).
    { by rewrite live_app, live_cons, (is_live_free x') by done; f_equal. }
    split_and!; try done.
    + split; [by exists bins3| | by rewrite Hcu, Hlv]. rewrite <- Hmg. by apply good_free.
    + rewrite !span_app. rewrite Hspan. simpl. lia.
  - exists h3, (A0 ++ a_resize p (a_size p + HDR + a_size x') :: r).
    assert (Hlv : live (A0 ++ a_resize p (a_size p + HDR + a_size x') :: r) = live (A0 ++ [p]) ++ live A2).
    { rewrite !live_app, !live_cons, (is_live_free p), (is_live_free (a_resize _ _)) by done.
      cbn. by rewrite app_nil_r, Hlive. }
    split_and!; try done.
    + split; [by exists bins3| | by rewrite Hcu, Hlv]. by eapply good_free_prev.
    + rewrite !span_app. simpl in *. lia.
Qed.

(** ** krealloc *)

Lemma mark_same x u : a_used x = u -> a_mark x u = x.
Proof. destruct x as [a s u']. cbn. by intros ->. Qed.

(** growing in place: merge with the free block after and split again *)
Lemma grow_core h A1 x y A2 bins need :
  core h (A1 ++ x :: y :: A2) ∅ bins -> good (A1 ++ x :: y :: A2) ->
  a_used x = true -> 0 < a_size x -> a_used y = false ->
  0 < need <= a_size x + HDR + a_size y -> need mod 16 = 0 -> need <= 0xF0000000 ->
  let m := a_resize x (a_size x + HDR + a_size y) in
  exists h1 h2 bins' b, merge_next (a_addr x) h = Some (tt, h1) /\
    split (a_addr x) need h1 = Some (tt, h2) /\ same_counts h h2 /\
    core h2 (A1 ++ a_rest m need ++ A2) ∅ bins' /\ good (A1 ++ a_rest m need ++ A2) /\
    load (a_addr x) h2 = Some (b, h2) /\ live (a_rest m need) = [ABlk (a_addr x) (size b) true].
Proof.
  intros C G Hu Hs Huy Hn Hn16 Hmax m.
  assert (Hadj : a_addr y = a_end x).
  { pose proof (gd_adj _ (gd_geom _ G)) as Ha. apply linked_app in Ha as (_ & [Ha _] & _).
    destruct Ha as [Ha|[Ha _]]; [done|congruence]. }
  assert (Gm : geom (A1 ++ m :: A2)) by (apply geom_merge; [apply G|done|done]).
  pose proof (gd_merged _ G) as Hmg. apply linked_app in Hmg as (HA1 & (_ & Hy2 & HA2) & _).
  assert (HyB : forall z, head A2 = Some z -> a_used z = true).
  { intros z Hz. destruct A2 as [|z' A2']; [done|]. injection Hz as ->. destruct Hy2; congruence. }
  destruct (merge_next_core A1 x (y :: A2) C ltac:(by left)) as (h1 & bins1 & Hr1 & Hsc1 & C1).
  { apply (good_mergeable A1); [apply G|]. intros z [= <-] _. split; [set_solver|done]. }
  cbn [a_merge] in C1. rewrite Huy in C1. fold m in C1.
  destruct (gd_each _ Gm m ltac:(set_solver)) as [P1 P2 P3 P4 P5 P6].
  destruct (split_core C1 ltac:(by left) need ltac:(lia) ltac:(unfold HDR, MIN_SPLIT; lia))
    as (h2 & bins2 & Hr2 & Hsc2 & C2).
  { intros Hroom. unfold HDR, MIN_SPLIT in *. split_and!; try (cbn in *; lia); [|set_solver|].
    - apply geom_inside; [done|]. geo. lia.
    - destruct A2 as [|z A2']; [done|]. cbn. intros Huz. by rewrite (HyB z) in Huz. }
  destruct (split_head m need A2) as (x0 & r & Hsp & Ha & Hu0 & Hal).
  assert (HA : a_split m need A2 = a_rest m need ++ A2).
  { rewrite Hsp, <- a_alloc_rest, Hal by done. rewrite mark_same; [done|]. by rewrite Hu0. }
  rewrite HA in C2. exists h1, h2, bins2.
  destruct (rest_facts m need) as (n & Hn' & Hlive & _); [cbn; lia|].
  assert (Hin : ABlk (a_addr x) n true ∈ A1 ++ a_rest m need ++ A2).
  { assert (Hl : ABlk (a_addr x) n true ∈ live (a_rest m need)) by (rewrite Hlive; left).
    apply live_spec in Hl. set_solver. }
  destruct (core_load C2 _ Hin) as (b & Hload & _ & Hbs & _). exists b.
  split_and!; try done; [by etrans | | by rewrite Hbs].
  apply good_rest; try done. intros _. cbn. unfold HDR in *. lia.
Qed.

Lemma memcpy_core h A X bins d s n : core h A X bins -> d ∈ A -> s ∈ A ->
  n <= a_size d -> n <= a_size s ->
  memcpy_payload (a_addr d + HDR) (a_addr s + HDR) n h = Some (tt, h).
Proof.
  intros C Hd Hs Hnd Hns. unfold memcpy_payload.
  replace (a_addr d + HDR - HDR) with (a_addr d) by lia.
  replace (a_addr s + HDR - HDR) with (a_addr s) by lia.
  destruct (core_load C d Hd) as (db & Hld & _ & Hds & _).
  destruct (core_load C s Hs) as (sb & Hls & _ & Hss & _). st_step Hld. st_step Hls.
  rewrite Hds, Hss. by rewrite (proj2 (Z.leb_le _ _) Hnd), (proj2 (Z.leb_le _ _) Hns).
Qed.

(** the allocation [handed] made, as a block of the new heap *)
Lemma handed_block A need r A' : 0 < need -> handed A need r A' ->
  exists d, d ∈ A' /\ is_live d = true /\ r = a_addr d + HDR /\ need <= a_size d.
Proof.
  intros Hn (A1 & x & A2 & -> & Hu & Hs & -> & ->).
  destruct (rest_facts x need) as (n & Hn' & Hlive & _); [lia|].
  exists (ABlk (a_addr x) n true). split_and!; [| by apply is_live_used; cbn; [|lia] | done | by cbn; lia].
  assert (Hl : ABlk (a_addr x) n true ∈ live (a_rest x need)) by (rewrite Hlive; left).
  apply live_spec in Hl. set_solver.
Qed.

(** blocks in use stay *)
Lemma handed_keeps A need r A' y : handed A need r A' -> y ∈ A -> a_used y = true -> y ∈ A'.
Proof.
  intros (A1 & x & A2 & -> & Hu & _ & _ & ->) Hy Huy.
  assert (y <> x) by congruence. set_solver.
Qed.

Definition resized (A1 A2 : list ablk) (need r : Z) (A' : list ablk) : Prop :=
  exists n, need <= n /\ allocs A' ≡ₚ (r, n) :: allocs (A1 ++ A2).

(** the slow path: a new block, the bytes copied, the old block freed *)
Lemma move_core rc h A1 x A2 sz : heap_inv h (A1 ++ x :: A2) -> is_live x = true ->
  0 < sz <= 0xF0000000 -> a_size x < need_of sz -> exists r h' A',
  (let! np := kmalloc false rc sz in
   if np =? 0 then st_ret 0 else
   memcpy_payload np (a_addr x + HDR) (a_size x) ;;;
   kfree (a_addr x + HDR) ;;;
   st_ret np) h = Some (r, h') /\ heap_inv h' A' /\ span A' = span (A1 ++ x :: A2) /\
  (r = 0 /\ A' = A1 ++ x :: A2 /\ no_fit A' (need_of sz) \/
   r <> 0 /\ resized A1 A2 (need_of sz) r A').
Proof.
  intros Hinv Hl Hsz Hlt. destruct (need_of_spec sz Hsz) as (N1 & N2 & N3).
  destruct (kmalloc_core false rc h (A1 ++ x :: A2) sz Hinv) as
    (r & h1 & A0 & A' & Hrun & Hinv1 & HA0 & Hcase); [done|lia|].
  specialize (HA0 eq_refl). subst A0. st_step Hrun.
  destruct Hcase as [(-> & -> & Hno) | (Hr & _ & _ & Hh)].
  { exists 0, h1, (A1 ++ x :: A2). split_and!; try done. left. split_and!; try done.
    by destruct Hno as [?|[?|?]]; [lia|lia|]. }
  apply Z.eqb_neq in Hr as Hr'. rewrite Hr'.
  destruct (handed_facts _ (need_of sz) _ _ (hi_good _ _ Hinv) ltac:(lia) Hh) as (_ & Hspan & n & Hn & Hperm & _).
  destruct (handed_block _ (need_of sz) _ _ ltac:(lia) Hh) as (d & Hd & Hdl & -> & Hds).
  assert (Hxu : a_used x = true) by (unfold is_live in Hl; apply andb_true_iff in Hl; tauto).
  assert (Hx' : x ∈ A') by (eapply handed_keeps; [done|set_solver|done]).
  destruct (hi_core _ _ Hinv1) as [bins1 C1].
  st_step (memcpy_core _ _ _ _ d x (a_size x) C1 Hd Hx' ltac:(lia) ltac:(lia)).
  apply list_elem_of_split in Hx' as (B1 & B2 & ->).
  destruct (kfree_core _ _ _ _ Hinv1 Hl) as (h2 & A'' & Hfree & Hinv2 & _ & Hlive & Hspan2).
  st_step Hfree. exists (a_addr d + HDR), h2, A''. split_and!; try done; [congruence|].
  right. split; [done|]. exists n. split; [done|].
  rewrite !allocs_app, !allocs_cons, Hl in Hperm. rewrite allocs_app.
  assert (HA'' : allocs A'' = allocs B1 ++ allocs B2).
  { unfold allocs. by rewrite Hlive, fmap_app. }
  rewrite HA''. rewrite <- !Permutation_middle in Hperm.
  apply (Permutation_cons_inv (a := alloc_of x)). rewrite Hperm. apply Permutation_swap.
Qed.

Lemma allocs_middle A1 x A2 : is_live x = true ->
  allocs (A1 ++ x :: A2) ≡ₚ alloc_of x :: allocs (A1 ++ A2).
Proof.
  intros Hl. rewrite !allocs_app, allocs_cons, Hl. symmetry. apply Permutation_middle.
Qed.

Lemma krealloc_core rc h A1 x A2 sz : heap_inv h (A1 ++ x :: A2) -> is_live x = true ->
  0 < sz <= 0xF0000000 -> exists r h' A',
  krealloc false rc (a_addr x + HDR) sz h = Some (r, h') /\ heap_inv h' A' /\
  span A' = span (A1 ++ x :: A2) /\
  (need_of sz <= a_size x -> r = a_addr x + HDR /\ h' = h) /\
  (r = 0 /\ A' = A1 ++ x :: A2 /\ no_fit A' (need_of sz) \/
   r <> 0 /\ resized A1 A2 (need_of sz) r A').
Proof.
  intros Hinv Hl Hsz. destruct (need_of_spec sz Hsz) as (N1 & N2 & N3).
  pose proof Hl as Hl'. unfold is_live in Hl'. apply andb_true_iff in Hl' as [Hu Hs]. zbool.
  pose proof Hinv as Hinv'. destruct Hinv' as [[bins C] G Hgu].
  pose proof (good_mid _ _ _ G) as [P1 P2 P3 P4 P5 P6].
  unfold krealloc. destruct (a_addr x + HDR =? 0) eqn:E1; [zbool; unfold HDR in *; lia|].
  destruct (sz =? 0) eqn:E2; [zbool; lia|].
  st_step (hdr_of_live _ _ _ _ x C ltac:(set_solver) Hu).
  destruct (a_addr x =? 0) eqn:E3; [zbool; lia|]. fold (need_of sz).
  destruct (core_load C x) as (b & Hload & Hb & Hbs & _); [set_solver|]. st_step Hload. rewrite Hbs.
  destruct (need_of sz <=? a_size x) eqn:E4; zbool.
  { exists (a_addr x + HDR), h, (A1 ++ x :: A2). split_and!; try done. right. split; [unfold HDR; lia|].
    exists (a_size x). split; [lia|]. by apply allocs_middle. }
  destruct (core_next _ _ _ _ C Hb) as [_ Hnext]. rewrite Hnext.
  assert (Hmove := move_core rc h A1 x A2 sz Hinv Hl Hsz ltac:(lia)).
  assert (Hno : ~ need_of sz <= a_size x) by lia.
  destruct A2 as [|y A2].
  { cbn. destruct Hmove as (r & h' & A' & -> & ? & ? & ?). exists r, h', A'. by split_and!. }
  rewrite addrs_cons. cbn [first].
  assert (Hy : y ∈ A1 ++ x :: y :: A2) by set_solver.
  pose proof (core_addr_nonnull C y Hy) as Hy0. apply Z.eqb_neq in Hy0. rewrite Hy0.
  destruct (core_load C y Hy) as (nb & Hly & _ & Hns & Huy).
  rewrite (bind_assoc_ok _ _ _ _ (ex_intro _ _ (ex_intro _ _ (conj (bind_ok _ _ _ _ _ Hly) eq_refl)))).
  rewrite Huy, Hns.
  destruct (tag (a_used y) =? 0) eqn:E5; cbn [andb].
  2:{ destruct Hmove as (r & h' & A' & -> & ? & ? & ?). exists r, h', A'. by split_and!. }
  assert (Huy' : a_used y = false) by by destruct (a_used y).
  assert (Hfit : is_u32 (a_size x + HDR + a_size y)).
  { assert (Hm : mergeable x (y :: A2) ∅); [|by apply Hm].
    apply (good_mergeable A1); [apply G|]. intros z [= <-] _. split; [set_solver|].
    pose proof (gd_adj _ (gd_geom _ G)) as Ha. apply linked_app in Ha as (_ & [Ha _] & _).
    destruct Ha as [Ha|[Ha _]]; [done|congruence]. }
  pose proof (c_size _ _ _ _ C y Hy) as Hsy.
  rewrite (u32_small (a_size x + HDR)) by (unfold is_u32, HDR in *; lia). rewrite u32_small by done.
  destruct (need_of sz <=? a_size x + HDR + a_size y) eqn:E6; zbool.
  2:{ destruct Hmove as (r & h' & A' & -> & ? & ? & ?). exists r, h', A'. by split_and!. }
  set (h0 := h <| g_used ::= fun u => u32 (u - a_size x) |>).
  assert (C0 : core h0 (A1 ++ x :: y :: A2) ∅ bins) by by apply (core_counts h).
  destruct (grow_core _ _ _ _ _ _ (need_of sz) C0 G Hu Hs Huy' ltac:(lia) N1 ltac:(lia)) as
    (h1 & h2 & bins2 & b2 & Hr1 & Hr2 & Hsc & C2 & G2 & Hl2 & Hlive).
  unfold modify at 1. rewrite (bind_ok _ _ h tt h0) by done. st_step Hr1. st_step Hr2. st_step Hl2.
  set (m := a_resize x (a_size x + HDR + a_size y)) in *.
  destruct (rest_facts m (need_of sz)) as (n & Hn' & Hlv & Hspan); [cbn; lia|].
  rewrite Hlive in Hlv. injection Hlv as Hn. 
  eexists _, _, (A1 ++ a_rest m (need_of sz) ++ A2). split_and!; [reflexivity | | | done |].
  - split; [exists bins2; by apply (core_counts h2) | done |].
    cbn. rewrite (sc_used _ _ Hsc). cbn. rewrite Hgu, u32_sub_l, u32_add_l. f_equal.
    rewrite !live_app, !live_cons, Hl, (is_live_free y), Hlive, !sizes_app by done. simpl. lia.
  - rewrite !span_app, Hspan. simpl. lia.
  - right. split; [unfold HDR; lia|]. exists n. split; [lia|].
    unfold allocs. rewrite !live_app, Hlive, live_cons, (is_live_free y) by done. rewrite Hn.
    rewrite !fmap_app. cbn. by rewrite Permutation_middle.
Qed.
