(* ===== verification/KHeapInit.v ===== *)
(** Start-up of the heap: the region it gets, its first block, and regions
    added later. *)

From S2P Require Import Prelude DList KHeap KHeapInv KHeapOps KHeapSpec KHeapCalls.

(** ** The end of the list *)

Lemma core_length h A X bins : core h A X bins -> (length A <= base.size (blocks h))%nat.
Proof.
  intros C. rewrite <- (length_fmap a_addr A). fold (addrs A).
  rewrite <- (size_dom (D := gset Z)). rewrite <- (size_list_to_set (C := gset Z) (addrs A)).
  - apply subseteq_size. intros a Ha. apply elem_of_list_to_set in Ha.
    apply list_elem_of_fmap in Ha as (x & -> & Hx).
    destruct (c_blk _ _ _ _ C x Hx) as (b & Hb & _). apply elem_of_dom. eauto.
  - apply C.
Qed.

Lemma list_tail_core fuel h A X bins A1 x A2 : core h A X bins -> A = A1 ++ x :: A2 ->
  (length A2 < fuel)%nat ->
  list_tail fuel (a_addr x) h = Some (final (addrs (x :: A2)) 0, h).
Proof.
  intros C. revert A1 x A2. induction fuel as [|fuel IH]; intros A1 x A2 -> Hlen; [lia|].
  destruct (core_load C x) as (b & Hload & Hb & _); [set_solver|].
  destruct (core_next _ _ _ _ C Hb) as [_ Hnext].
  cbn [list_tail]. st_step Hload. rewrite Hnext. destruct A2 as [|y A2]; [done|].
  rewrite !addrs_cons. cbn [first].
  pose proof (core_addr_nonnull C y ltac:(set_solver)) as Hy0. apply Z.eqb_neq in Hy0. rewrite Hy0.
  rewrite (IH (A1 ++ [x]) y A2); [|by rewrite <- app_assoc|simpl in Hlen; lia].
  by rewrite addrs_cons, !final_cons.
Qed.

(** ** kheap_add_region *)

(** the two markers and the free block between them *)
Definition region (lo hi : Z) : list ablk :=
  [ABlk lo 0 true; ABlk (lo + HDR) (hi - lo - 3 * HDR) false; ABlk (hi - HDR) 0 true].

(** the header writes of kheap_add_region after block [t] *)
Definition region_blocks (m : gmap Z block) (t lo hi : Z) : gmap Z block :=
  <[hi - HDR := Block 0 HEAP_MAGIC (lo + HDR) 0]>
  (<[lo + HDR := Block (hi - lo - 3 * HDR) 0 lo (hi - HDR)]>
   (<[lo := Block 0 HEAP_MAGIC t (lo + HDR)]> (alter (fun x => x <| next := lo |>) t m))).

Lemma region_dl m l t lo hi : dl (links m) (l ++ [t]) -> 0 < lo -> lo + 3 * HDR < hi ->
  lo ∉ l ++ [t] -> lo + HDR ∉ l ++ [t] -> hi - HDR ∉ l ++ [t] ->
  dl (links (region_blocks m t lo hi)) ((l ++ [t]) ++ [lo; lo + HDR; hi - HDR]).
Proof.
  intros Hdl Hlo Hhi N1 N2 N3. unfold HDR in *.
  pose proof (dl_insert_after m l t [] lo (Block 0 HEAP_MAGIC t 0) Hdl N1 ltac:(lia) eq_refl eq_refl) as D1.
  cbn [first] in D1. change (set_prev_if ?m 0 ?a) with m in D1.
  set (m1 := set_next _ t lo) in D1.
  replace (l ++ [t; lo]) with ((l ++ [t]) ++ lo :: []) in D1 by by rewrite <- app_assoc.
  pose proof (dl_insert_after m1 (l ++ [t]) lo [] (lo + 32) (Block (hi - lo - 3 * 32) 0 lo 0) D1
    ltac:(set_solver by lia) ltac:(lia) eq_refl eq_refl) as D2.
  cbn [first] in D2. change (set_prev_if ?m 0 ?a) with m in D2.
  set (m2 := set_next _ lo (lo + 32)) in D2.
  replace ((l ++ [t]) ++ [lo; lo + 32]) with (((l ++ [t]) ++ [lo]) ++ (lo + 32) :: []) in D2
    by by rewrite <- app_assoc.
  pose proof (dl_insert_after m2 ((l ++ [t]) ++ [lo]) (lo + 32) [] (hi - 32)
    (Block 0 HEAP_MAGIC (lo + 32) 0) D2 ltac:(set_solver by lia) ltac:(lia) eq_refl eq_refl) as D3.
  cbn [first] in D3. change (set_prev_if ?m 0 ?a) with m in D3.
  rewrite <- (app_assoc (l ++ [t])) in D3. cbn [app] in D3.
  eapply dl_ext; [|exact D3]. intros z _.
  assert (Ht : t ∈ l ++ [t]) by set_solver.
  assert (lo <> t /\ lo + 32 <> t /\ hi - 32 <> t) as (T1 & T2 & T3) by (split_and!; congruence).
  unfold region_blocks, m2, m1, links, set_next.
  destruct (decide (z = hi - 32)) as [->|]; [|destruct (decide (z = lo + 32)) as [->|];
    [|destruct (decide (z = lo)) as [->|]; [|destruct (decide (z = t)) as [->|]]]];
    unfold HDR; repeat (rewrite ?lookup_insert_eq, ?lookup_alter_eq; rewrite ?lookup_insert_ne, ?lookup_alter_ne by lia);
    try done; by destruct (m !! t).
Qed.

Lemma good_region A lo hi : good A -> 0 < lo -> hi <= 2 ^ 32 -> lo mod 16 = 0 -> hi mod 16 = 0 ->
  lo + 3 * HDR + MIN_SPLIT <= hi ->
  (forall x, x ∈ A -> a_end x <= lo \/ hi <= a_addr x) -> good (A ++ region lo hi).
Proof.
  intros [[Hok Hdj Hadj] Hm] Hlo Hhi L16 H16 Hroom Hout. unfold region. split; [split|].
  - intros x Hx. apply elem_of_app in Hx as [Hx|Hx]; [by apply Hok|].
    repeat (apply elem_of_cons in Hx as [->|Hx]); [| | |set_solver];
      split; geo; try done; lia.
  - rewrite pairwise_app. split_and!; [done | |].
    + simpl. split_and!; try set_solver; intros y Hy;
        repeat (apply elem_of_cons in Hy as [->|Hy]); try set_solver; geo; lia.
    + intros x y Hx Hy. specialize (Hout x Hx).
      repeat (apply elem_of_cons in Hy as [->|Hy]); try set_solver; geo; lia.
  - rewrite linked_app. split_and!; [done | |].
    + simpl. split_and!; try done; left; geo; lia.
    + intros x y _ [= <-]. right. by split.
  - rewrite linked_app. split_and!; [done | |].
    + simpl. split_and!; try done; [by left | by right].
    + intros x y _ [= <-]. by right.
Qed.

Lemma region_core h A0 t lo hi bins :
  let A := A0 ++ [t] in
  core h A ∅ bins -> 0 < lo -> lo + 3 * HDR + MIN_SPLIT <= hi -> hi <= 2 ^ 32 ->
  (forall x, x ∈ A -> 0 <= a_size x /\ (a_end x <= lo \/ hi <= a_addr x)) ->
  core (h <| blocks := region_blocks (blocks h) (a_addr t) lo hi |>) (A ++ region lo hi)
       {[lo + HDR]} bins.
Proof.
  intros A C Hlo Hroom Hhi Hout.
  assert (Hne : forall x z, x ∈ A -> lo <= z < hi -> a_addr x <> z).
  { intros x z Hx Hz. destruct (Hout x Hx) as [Hs Hd]. unfold a_end, HDR in Hd. lia. }
  assert (Hnin : forall z, lo <= z < hi -> z ∉ addrs A).
  { intros z Hz Hin. apply list_elem_of_fmap in Hin as (x & -> & Hx). by apply (Hne x (a_addr x)). }
  assert (HA : addrs A = addrs A0 ++ [a_addr t]) by (unfold A; by rewrite addrs_app).
  unfold HDR, MIN_SPLIT in *.
  assert (Hdl : dl (links (region_blocks (blocks h) (a_addr t) lo hi)) (addrs (A ++ region lo hi))).
  { rewrite addrs_app, HA. apply (region_dl _ (addrs A0)); rewrite <- ?HA; unfold HDR; try lia;
      [apply C | apply Hnin; lia..]. }
  apply (core_headers h _ A _ ∅); try done.
  - cbn. rewrite (c_head _ _ _ _ C), addrs_app, first_app, HA. by destruct (addrs A0).
  - intros x Hx. apply elem_of_app in Hx as [Hx|Hx].
    + split; [by eapply c_size|]. destruct (c_blk _ _ _ _ C x Hx) as (b & Hb & Hs & Hu).
      cbn. unfold region_blocks, HDR. rewrite !lookup_insert_ne by (apply not_eq_sym, Hne; done || lia).
      destruct (decide (a_addr x = a_addr t)) as [Heq|]; [|rewrite lookup_alter_ne by done; eauto].
      rewrite <- Heq, lookup_alter_eq, Hb. by eexists.
    + unfold region in Hx. repeat (apply elem_of_cons in Hx as [->|Hx]); [| | |set_solver];
        (split; [unfold is_u32, HDR; cbn; lia|]); cbn; unfold region_blocks, HDR;
        repeat (rewrite ?lookup_insert_eq; rewrite ?lookup_insert_ne by lia); by eexists.
  - intros x Hu. unfold region. split.
    + intros [Hx _]. split; [set_solver|]. rewrite not_elem_of_singleton. apply Hne; [done|unfold HDR; lia].
    + intros [Hx HX]. split; [|set_solver]. apply elem_of_app in Hx as [Hx|Hx]; [done|].
      repeat (apply elem_of_cons in Hx as [->|Hx]); cbn in *; try congruence; set_solver.
Qed.

(** the bounds kheap_add_region rounds to *)
Definition region_lo (lo : Z) : Z := Z.land (u64 (lo + ALIGN - 1)) (u64 (Z.lnot (ALIGN - 1))).
Definition region_hi (hi : Z) : Z := Z.land hi (u64 (Z.lnot (ALIGN - 1))).

Lemma land_down16 v : is_u64 v -> Z.land v (u64 (Z.lnot (ALIGN - 1))) = v / 16 * 16.
Proof.
  intros Hv. unfold ALIGN. change (u64 (Z.lnot (16 - 1))) with (Z.ldiff (Z.ones 64) (Z.ones 4)).
  change 16 with (2 ^ 4) at 1 2. rewrite <- land_lnot_ones by lia. rewrite Z.ldiff_land, Z.land_assoc.
  f_equal. rewrite Z.land_ones by lia. apply Z.mod_small. done.
Qed.

Lemma region_lo_eq lo : 0 <= lo < 2 ^ 63 -> region_lo lo = (lo + 15) / 16 * 16.
Proof.
  intros Hlo. unfold region_lo, ALIGN. rewrite (u64_small (lo + 16 - 1)) by (unfold is_u64; lia).
  rewrite land_down16 by (unfold is_u64; lia). f_equal. f_equal. lia.
Qed.

Lemma region_hi_eq hi : 0 <= hi < 2 ^ 63 -> region_hi hi = hi / 16 * 16.
Proof. intros. apply land_down16. unfold is_u64. lia. Qed.

(** is the rounded region big enough for its markers and a block? *)
Definition region_fits (lo hi : Z) : Prop :=
  region_lo lo + 3 * HDR + MIN_SPLIT <= region_hi hi /\ region_hi hi - region_lo lo <= 0xF0000000.

Lemma kheap_add_region_core h A lo hi : heap_inv h A -> A <> [] ->
  0 < lo -> lo <= hi <= 2 ^ 32 ->
  (forall x, x ∈ A -> a_end x <= lo \/ hi <= a_addr x) ->
  exists h', kheap_add_region lo hi h = Some (tt, h') /\
    (region_fits lo hi -> heap_inv h' (A ++ region (region_lo lo) (region_hi hi)) /\
       g_total h' = u32 (g_total h + (region_hi hi - region_lo lo - 3 * HDR))) /\
    (~ region_fits lo hi -> h' = h).
Proof.
  intros [[bins C] G Hgu] HA Hlo Hhi Hout.
  unfold kheap_add_region, region_fits. fold (region_lo lo) (region_hi hi).
  assert (L : 0 < region_lo lo /\ region_lo lo mod 16 = 0 /\ lo <= region_lo lo)
    by (rewrite region_lo_eq by lia; lia).
  assert (H : region_hi hi <= 2 ^ 32 /\ region_hi hi mod 16 = 0 /\ region_hi hi <= hi)
    by (rewrite region_hi_eq by lia; lia).
  set (l := region_lo lo) in *. set (r := region_hi hi) in *.
  assert (Hhead : g_head h <> 0).
  { rewrite (c_head _ _ _ _ C). rewrite (dl_first_zero _ _ (c_dl _ _ _ _ C)).
    intros Hn. by apply fmap_nil_inv in Hn. }
  apply Z.eqb_neq in Hhead as Hh0. rewrite Hh0. cbn [orb].
  destruct ((r <=? l) || (r - l <? 3 * HDR + MIN_SPLIT) || (0xF0000000 <? r - l)) eqn:E.
  { exists h. split_and!; [done | | done]. unfold HDR, MIN_SPLIT in *. intros Hf. exfalso. zbool.
    destruct E as [E|E]; zbool; [destruct E; zbool|]; lia. }
  zbool. destruct (exists_last HA) as (A0 & t & ->).
  assert (Htail : list_tail (S (base.size (blocks h))) (g_head h) h = Some (a_addr t, h)).
  { pose proof (core_length _ _ _ _ C) as Hlen. rewrite (c_head _ _ _ _ C).
    destruct (A0 ++ [t]) as [|x A'] eqn:EA; [by destruct A0|]. rewrite addrs_cons. cbn [first].
    rewrite (list_tail_core _ _ _ _ _ [] x A' C eq_refl) by (simpl in Hlen; lia).
    rewrite <- EA, addrs_app. change (addrs [t]) with [a_addr t]. by rewrite final_snoc. }
  st_step Htail.
  rewrite (bind_ok _ _ _ _ _ (store_ok h (a_addr t) _ ltac:(destruct (c_blk _ _ _ _ C t) as (b & Hb & _); [set_solver|eauto]))).
  unfold write_header, modify. unfold st_bind at 1 2 3 4.
  unfold HDR, MIN_SPLIT in *.
  assert (Hsz : u32 (r - 32 - (l + 32) - 32) = r - l - 3 * 32) by (rewrite u32_small; unfold is_u32; lia).
  rewrite Hsz.
  pose proof (region_core h A0 t l r bins C) as C1. cbv zeta in C1.
  destruct (bin_insert_core (x := ABlk (l + 32) (r - l - 96) false)
    (core_counts _ (h <| blocks := region_blocks (blocks h) (a_addr t) l r |>
                      <| g_total ::= fun u => u32 (u + (r - l - 96)) |>) _ _ _
      (C1 ltac:(lia) ltac:(unfold HDR, MIN_SPLIT; lia) ltac:(lia)
        ltac:(intros x Hx; split; [apply (good_each _ x G Hx) | destruct (Hout x Hx); lia]))
      eq_refl eq_refl eq_refl eq_refl eq_refl eq_refl)) as (h' & Hrun & Hsb & C2);
    [unfold region, HDR; set_solver | unfold HDR; cbn; set_solver | done |].
  exists h'. split_and!; [exact Hrun | | intros []; lia]. intros _. split; [split|].
  - eexists. match type of C2 with core _ _ ?S _ => replace S with (∅ : gset Z) in C2 end; [exact C2|].
    cbn. unfold HDR. set_solver.
  - apply good_region; try done; unfold HDR, MIN_SPLIT; try lia. intros x Hx. destruct (Hout x Hx); lia.
  - rewrite (sb_used _ _ Hsb). cbn. rewrite Hgu. f_equal.
    rewrite (live_app (A0 ++ [t])). change (live (region l r)) with (@nil ablk). by rewrite app_nil_r.
  - rewrite (sb_total _ _ Hsb). done.
Qed.

(** ** kheap_init *)

(** the heap right after its first block is written *)
Definition first_heap (start sz : Z) : heap :=
  heap0 <| blocks := {[start := Block sz 0 0 0]} |> <| g_head := start |> <| g_total := sz |>.

Lemma first_core start sz : 0 < start -> is_u32 sz -> core (first_heap start sz) [ABlk start sz false] {[start]} (fun _ => []).
Proof.
  intros Hs Hz. assert (Hnil : forall m : gmap Z flink_t, dl (links m) []) by by (intros; split; [constructor|set_solver|]).
  split; try done.
  - split; cbn; [apply NoDup_singleton | rewrite list_elem_of_singleton; lia |].
    split; [|done]. unfold links. by rewrite lookup_singleton_eq.
  - intros x ->%list_elem_of_singleton. cbn. rewrite lookup_singleton_eq. by eexists.
  - intros x ->%list_elem_of_singleton. done.
  - intros k a. split; [set_solver|]. intros (Ha & x & ->%list_elem_of_singleton & <- & _). set_solver.
  - split; cbn; intros; unfold slmap; cbn; rewrite ?Z.bits_0; done || (split; done).
Qed.

(** the heap's first block, free and in its bin *)
Lemma first_block_core start sz : 0 < start -> start mod 16 = 0 -> sz mod 16 = 0 ->
  16 <= sz -> start + HDR + sz <= 2 ^ 32 ->
  exists h', bin_insert start (first_heap start sz) = Some (tt, h') /\ same_blocks (first_heap start sz) h' /\ heap_inv h' [ABlk start sz false].
Proof.
  intros Hs Hs16 Hz16 Hz He. unfold HDR in *. pose proof (first_core start sz Hs ltac:(unfold is_u32; lia)) as C.
  destruct (bin_insert_core (x := ABlk start sz false) C) as (h' & Hrun & Hsb & C'); try done; [set_solver..|].
  exists h'. split_and!; [done | done |].
  cbn [a_addr] in C'. replace ({[start]} ∖ {[start]}) with (∅ : gset Z) in C' by set_solver.
  split; [eauto | | by rewrite (sb_used _ _ Hsb)].
  split; [split|]; [|simpl; set_solver|done|done].
  intros x ->%list_elem_of_singleton. split; geo; try done; lia.
Qed.

(** ** The region picked at start-up *)

(** [a, b) keeps clear of the range [x] *)
Definition avoids (a b : Z) (x : Z * Z) : Prop := b <= x.1 \/ x.2 <= a.

Definition overlaps (lo hi : Z) (xs : list (Z * Z)) : list (Z * Z) :=
  filter (fun x => ~ (x.2 <= lo \/ hi <= x.1)) xs.

Lemma overlap_some lo hi xs x : overlap lo hi xs = Some x -> x ∈ overlaps lo hi xs.
Proof.
  induction xs as [|[xlo xhi] xs IH]; [done|]. cbn [overlap]. unfold overlaps.
  rewrite filter_cons. cbn. destruct ((xhi <=? lo) || (hi <=? xlo)) eqn:E; zbool.
  - intros Hx. specialize (IH Hx). case_decide; [by right|done].
  - intros [= <-]. rewrite decide_True by lia. left.
Qed.

Lemma overlap_none lo hi xs x : overlap lo hi xs = None -> x ∈ xs -> avoids lo hi x.
Proof.
  induction xs as [|[xlo xhi] xs IH]; [set_solver|]. cbn [overlap].
  destruct ((xhi <=? lo) || (hi <=? xlo)) eqn:E; [|done].
  intros Ho Hx. apply elem_of_cons in Hx as [->|Hx]; [|auto].
  unfold avoids. cbn. zbool. destruct E; zbool; auto.
Qed.

(** a smaller range overlaps fewer: at least one fewer if it avoids [x] *)
Lemma overlaps_sub lo hi lo' hi' xs : lo <= lo' -> hi' <= hi ->
  (length (overlaps lo' hi' xs) <= length (overlaps lo hi xs))%nat.
Proof.
  intros. induction xs as [|x xs IH]; [done|]. unfold overlaps in *.
  rewrite !filter_cons. repeat case_decide; simpl; lia.
Qed.

Lemma overlaps_less lo hi lo' hi' xs x : lo <= lo' -> hi' <= hi -> x ∈ overlaps lo hi xs ->
  avoids lo' hi' x -> (length (overlaps lo' hi' xs) < length (overlaps lo hi xs))%nat.
Proof.
  intros Hlo Hhi Hx Hav. induction xs as [|y xs IH]; [by apply elem_of_nil in Hx|].
  pose proof (overlaps_sub lo hi lo' hi' xs Hlo Hhi) as Hsub. unfold overlaps, avoids in *.
  rewrite filter_cons in Hx |- *. rewrite filter_cons.
  destruct (decide (~ (y.2 <= lo \/ hi <= y.1))) as [D|D].
  - apply elem_of_cons in Hx as [->|Hx].
    + rewrite decide_False by lia. simpl. lia.
    + specialize (IH Hx). case_decide; simpl; lia.
  - rewrite decide_False by lia. auto.
Qed.

Lemma consider_total fuel xs lo hi best :
  (length (overlaps lo hi xs) <= fuel)%nat -> is_Some (consider fuel xs lo hi best).
Proof.
  revert lo hi best. induction fuel as [|fuel IH]; intros lo hi best Hf; cbn [consider];
    set (lo' := if lo <? HEAP_MIN_ADDR then HEAP_MIN_ADDR else lo);
    set (hi' := if HEAP_MAX_ADDR <? hi then HEAP_MAX_ADDR else hi);
    assert (lo <= lo' /\ hi' <= hi) as [L H] by
      (subst lo' hi'; destruct (lo <? _) eqn:?, (_ <? hi) eqn:?; zbool; lia);
    pose proof (overlaps_sub lo hi lo' hi' xs L H) as Hs;
    destruct (hi' <=? lo'); eauto;
    destruct (overlap lo' hi' xs) as [[xlo xhi]|] eqn:Eo; eauto; apply overlap_some in Eo as Ho.
  - destruct (overlaps lo' hi' xs) eqn:En; [by apply elem_of_nil in Ho|]. simpl in *. lia.
  - unfold overlaps in Ho. apply list_elem_of_filter in Ho as [Hov _]. cbn in Hov.
    pose proof (overlaps_less lo' hi' lo' xlo xs (xlo, xhi) ltac:(lia) ltac:(lia)
      (overlap_some _ _ _ _ Eo) ltac:(left; cbn; lia)).
    pose proof (overlaps_less lo' hi' xhi hi' xs (xlo, xhi) ltac:(lia) ltac:(lia)
      (overlap_some _ _ _ _ Eo) ltac:(right; cbn; lia)).
    destruct (IH lo' xlo best) as [b1 ->]; [lia|]. cbn. apply IH. lia.
Qed.

(** a candidate region: usable memory clear of the excluded ranges *)
Record usable (xs : list (Z * Z)) (lo hi : Z) : Prop := {
  us_lo : HEAP_MIN_ADDR <= lo;
  us_pos : lo < hi;
  us_hi : hi <= HEAP_MAX_ADDR;
  us_avoids x : x ∈ xs -> avoids lo hi x;
}.

Lemma consider_spec fuel xs lo hi best best' : consider fuel xs lo hi best = Some best' ->
  best.2 - best.1 <= best'.2 - best'.1 /\
  (best' = best \/ usable xs best'.1 best'.2 /\ lo <= best'.1 /\ best'.2 <= hi) /\
  (forall a b, usable xs a b -> lo <= a -> b <= hi -> b - a <= best'.2 - best'.1).
Proof.
  revert lo hi best best'. induction fuel as [|fuel IH]; intros lo hi best best'; cbn [consider];
    set (lo' := if lo <? HEAP_MIN_ADDR then HEAP_MIN_ADDR else lo);
    set (hi' := if HEAP_MAX_ADDR <? hi then HEAP_MAX_ADDR else hi);
    assert (lo <= lo' /\ hi' <= hi /\ HEAP_MIN_ADDR <= lo' /\ hi' <= HEAP_MAX_ADDR /\
      (lo' = lo \/ lo' = HEAP_MIN_ADDR) /\ (hi' = hi \/ hi' = HEAP_MAX_ADDR)) as (L & H & Lm & Hm & L' & H')
      by (subst lo' hi'; destruct (lo <? _) eqn:?, (_ <? hi) eqn:?; zbool; lia);
    (destruct (hi' <=? lo') eqn:E; zbool; [intros [= <-]; split_and!; [lia|by left|];
      intros a b [] ??; lia|]);
    destruct (overlap lo' hi' xs) as [[xlo xhi]|] eqn:Eo; try done.
  1,3: intros [= <-]; destruct (_ <? hi' - lo') eqn:E2; zbool; cbn;
    (split_and!; [lia | | intros a b [] ??; lia]); [right|by left];
    (split; [|lia]); split; try lia; intros x Hx; by eapply overlap_none.
  intros Hc. apply bind_Some in Hc as (b1 & H1 & H2).
  apply IH in H1 as (W1 & C1 & M1), H2 as (W2 & C2 & M2).
  apply overlap_some, list_elem_of_filter in Eo as [Ho Hx]. cbn in Ho.
  split_and!; [lia | |].
  - destruct C2 as [->|(U2 & ? & ?)]; [|right; split; [done|lia]].
    destruct C1 as [->|(U1 & ? & ?)]; [by left|right; split; [done|lia]].
  - intros a b U Ha Hb. pose proof (us_avoids _ _ _ U _ Hx) as Hav. unfold avoids in Hav. cbn in Hav.
    pose proof (us_lo _ _ _ U). pose proof (us_hi _ _ _ U). pose proof (us_pos _ _ _ U).
    destruct Hav as [Hav|Hav].
    + specialize (M1 a b U ltac:(lia) ltac:(lia)). lia.
    + specialize (M2 a b U ltac:(lia) ltac:(lia)). lia.
Qed.

Lemma align_up_4096 v : 0 <= v <= 0xFFFFF000 ->
  align_up v 4096 mod 4096 = 0 /\ v <= align_up v 4096 < v + 4096.
Proof.
  intros Hv. unfold align_up.
  change (u32 (Z.lnot (4096 - 1))) with (Z.ldiff (Z.ones 32) (Z.ones 12)).
  assert (Heq : Z.land (u32 (v + 4096 - 1)) (Z.ldiff (Z.ones 32) (Z.ones 12)) = (v + 4095) / 4096 * 4096).
  { rewrite u32_small by (unfold is_u32; lia). change 4096 with (2 ^ 12) at 2 3.
    rewrite <- land_lnot_ones by lia. rewrite Z.ldiff_land, Z.land_assoc. f_equal.
    rewrite Z.land_ones by lia. rewrite Z.mod_small by lia. lia. }
  cbv zeta. match goal with |- ?a mod _ = _ /\ _ => replace a with ((v + 4095) / 4096 * 4096) end; lia.
Qed.

Lemma align_up_8 v : 0 <= v <= 0xFFFFFFF8 -> v <= align_up v 8 < v + 8.
Proof.
  intros Hv. unfold align_up.
  change (u32 (Z.lnot (8 - 1))) with (Z.ldiff (Z.ones 32) (Z.ones 3)).
  assert (Heq : Z.land (u32 (v + 8 - 1)) (Z.ldiff (Z.ones 32) (Z.ones 3)) = (v + 7) / 8 * 8).
  { rewrite u32_small by (unfold is_u32; lia). change 8 with (2 ^ 3) at 2 3.
    rewrite <- land_lnot_ones by lia. rewrite Z.ldiff_land, Z.land_assoc. f_equal.
    rewrite Z.land_ones by lia. rewrite Z.mod_small by lia. lia. }
  cbv zeta. match goal with |- _ <= ?a < _ => replace a with ((v + 7) / 8 * 8) end; lia.
Qed.

(** the end, rounded down to a multiple of 16 *)
Lemma land_down16_32 e : is_u32 e -> Z.land e (u32 (Z.lnot (ALIGN - 1))) = e / 16 * 16.
Proof.
  intros He. unfold ALIGN. change (u32 (Z.lnot (16 - 1))) with (Z.ldiff (Z.ones 32) (Z.ones 4)).
  change 16 with (2 ^ 4) at 1 2. rewrite <- land_lnot_ones by lia. rewrite Z.ldiff_land, Z.land_assoc.
  f_equal. rewrite Z.land_ones by lia. by apply Z.mod_small.
Qed.

(** an image that leaves no room below 16 MiB: the size wraps, and the block is to end past the 4 GiB *)
Lemma init_wrapped start : 0x1000000 <= start <= 0xFFFFF000 -> start mod 16 = 0 ->
  let sz := u32 (0x1000000 - start - HDR) in
  exists h, bin_insert start (first_heap start sz) = Some (tt, h) /\ same_blocks (first_heap start sz) h /\
    start + HDR + sz = 2 ^ 32 + 0x1000000 /\ forall A, ~ heap_inv h A.
Proof.
  intros Hs H16 sz. unfold HDR in *. assert (Hsz : sz = 2 ^ 32 + 0x1000000 - start - 32).
  { unfold sz, u32. replace (0x1000000 - start - 32) with (2 ^ 32 + 0x1000000 - start - 32 + (-1) * 2 ^ 32) by lia. rewrite Z_mod_plus_full. apply Z.mod_small. lia. }
  destruct (bin_insert_core (x := ABlk start sz false) (first_core start sz ltac:(lia) ltac:(unfold is_u32; lia))) as (h & Hrun & Hsb & C); try done; [set_solver..|].
  exists h. split; [exact Hrun|]. split; [exact Hsb|]. split; [lia|]. intros A [[bins C1] G _].
  pose proof (c_head _ _ _ _ C1) as Hh. rewrite (sb_head _ _ Hsb) in Hh. cbn in Hh. destruct A as [|y A]; [cbn in Hh; lia|]. cbn in Hh.
  destruct (c_blk _ _ _ _ C1 y ltac:(left)) as (b & Hb & Hy & _). rewrite (sb_blocks _ _ Hsb) in Hb. cbn in Hb. rewrite <- Hh, lookup_singleton_eq in Hb. injection Hb as <-. cbn in Hy.
  pose proof (good_each _ y G ltac:(left)) as Hok. destruct Hok. unfold a_end, HDR in *. lia.
Qed.

Section pick.
Context (rd32 rd64 : Z -> Z) (kernel_end mb2 : Z).
Notation total := (rd32 mb2).
Notation xs := (excluded rd32 kernel_end mb2).

(** how far a tag moves the walk on *)
Definition tag_step (off : Z) : Z :=
  let adv := align_up (rd32 (mb2 + off + 4)) 8 in if adv <? 8 then 8 else adv.

(** the tags the walk comes to from the one at [off] on *)
Inductive tag_from : Z -> Z -> Prop :=
  | tag_here off : tag_from off off
  | tag_after off o : off + 8 <= total -> rd32 (mb2 + off) <> 0 -> tag_from (off + tag_step off) o -> tag_from off o.

(** the offsets at which the boot information has a tag *)
Definition tag_at : Z -> Prop := tag_from 8.

Lemma tag_next off : tag_at off -> off + 8 <= total -> rd32 (mb2 + off) <> 0 -> tag_at (off + tag_step off).
Proof.
  unfold tag_at. generalize 8 at 1 3 as o. intros o H Ho Hne. induction H as [off|off o' H1 H2 H3 IH]; [|by apply tag_after; auto].
  by apply tag_after, tag_here.
Qed.

(** boot information as Multiboot2 has it: its tags lie in it, and the
    entries of a memory map have a size *)
Record boot_info : Prop := {
  bi_addr : 0 < mb2;
  bi_total : 0 <= total /\ mb2 + total <= 0xFFF00000;
  bi_tag off : tag_at off -> off + 8 <= total -> rd32 (mb2 + off) <> 0 ->
    8 <= rd32 (mb2 + off + 4) /\ off + rd32 (mb2 + off + 4) <= total;
  bi_map off : tag_at off -> off + 8 <= total -> rd32 (mb2 + off) = 6 -> 24 <= rd32 (mb2 + off + 8) < 2 ^ 16;
}.

(** the usable ranges of the memory map in it: entry [n] of a map, marked 1 *)
Inductive ram : Z -> Z -> Prop :=
  | ram_entry off n :
      let mm := mb2 + off in
      let e := mm + (16 + n * rd32 (mm + 8)) in
      tag_at off -> off + 8 <= total -> rd32 mm = 6 ->
      0 <= n -> 16 + (n + 1) * rd32 (mm + 8) <= rd32 (mm + 4) -> rd32 (e + 16) = 1 ->
      ram (rd64 e) (u64 (rd64 e + rd64 (e + 8))).

Definition best_ok (best : Z * Z) : Prop :=
  best = (0, 0) \/ usable xs best.1 best.2 /\ exists lo hi, ram lo hi /\ lo <= best.1 /\ best.2 <= hi.

(** [best] is as large as every usable piece of [lo, hi) *)
Definition beats (best : Z * Z) (lo hi : Z) : Prop :=
  forall a b, usable xs a b -> lo <= a -> b <= hi -> b - a <= best.2 - best.1.

Lemma beats_mono best best' lo hi : best.2 - best.1 <= best'.2 - best'.1 -> beats best lo hi -> beats best' lo hi.
Proof. intros H Hb a b U Ha Hh. specialize (Hb a b U Ha Hh). lia. Qed.

(** entry [n] of the map at [off] *)
Notation at_entry off n := (mb2 + off + (16 + n * rd32 (mb2 + off + 8))).

Lemma consider_ok lo hi best : best_ok best -> ram lo hi ->
  exists best', consider 3 xs lo hi best = Some best' /\ best_ok best' /\ best.2 - best.1 <= best'.2 - best'.1 /\ beats best' lo hi.
Proof.
  intros Hb Hr. destruct (consider_total 3 xs lo hi best) as [best' Hc]; [etrans; [apply length_filter|]; cbn; lia|].
  exists best'. split; [done|]. destruct (consider_spec _ _ _ _ _ _ Hc) as (H1 & [->|(U & H2 & H3)] & H4); (split; [|by split]); [done|].
  right. split; [done|]. by exists lo, hi.
Qed.

Lemma mmap_entries_spec fuel off n best : boot_info -> tag_at off -> off + 8 <= total -> rd32 (mb2 + off) = 6 ->
  best_ok best -> 0 <= n -> 16 + n * rd32 (mb2 + off + 8) <= rd32 (mb2 + off + 4) + 16 -> rd32 (mb2 + off + 4) + 1 - n <= Z.of_nat fuel -> 8 <= off ->
  exists best', mmap_entries rd32 rd64 kernel_end fuel mb2 (mb2 + off) (16 + n * rd32 (mb2 + off + 8)) best = Some best' /\
    best_ok best' /\ best.2 - best.1 <= best'.2 - best'.1 /\
    forall m, n <= m -> 16 + (m + 1) * rd32 (mb2 + off + 8) <= rd32 (mb2 + off + 4) -> rd32 (at_entry off m + 16) = 1 ->
      beats best' (rd64 (at_entry off m)) (u64 (rd64 (at_entry off m) + rd64 (at_entry off m + 8))).
Proof.
  intros B Ht Ho H6 Hb Hn Hp Hf Hoff. pose proof (bi_map B off Ht Ho H6) as Hes. destruct (bi_tag B off Ht Ho ltac:(lia)) as [Hs1 Hs2].
  pose proof (bi_total B) as [T1 T2]. pose proof (bi_addr B) as Hmb. set (es := rd32 (mb2 + off + 8)) in *. set (sz := rd32 (mb2 + off + 4)) in *.
  revert n best Hb Hn Hp Hf. induction fuel as [|fuel IH]; intros n best Hb Hn Hp Hf; cbn [mmap_entries]; fold es sz.
  all: assert (Hpos : n <= n * es) by nia; rewrite (u32_small (16 + n * es + es)) by (unfold is_u32; lia).
  all: destruct (16 + n * es + es <=? sz) eqn:E; zbool.
  - lia.
  - exists best. split_and!; try done. intros m Hm Hm2. nia.
  - replace (16 + n * es + es) with (16 + (n + 1) * es) in E |- * by lia.
    assert (Hstep : exists b1, (if rd32 (at_entry off n + 16) =? 1
        then consider 3 xs (rd64 (at_entry off n)) (u64 (rd64 (at_entry off n) + rd64 (at_entry off n + 8))) best else Some best) = Some b1 /\
      best_ok b1 /\ best.2 - best.1 <= b1.2 - b1.1 /\ (rd32 (at_entry off n + 16) = 1 ->
        beats b1 (rd64 (at_entry off n)) (u64 (rd64 (at_entry off n) + rd64 (at_entry off n + 8))))).
    { destruct (_ =? 1) eqn:E1; zbool; [|by exists best].
      destruct (consider_ok (rd64 (at_entry off n)) (u64 (rd64 (at_entry off n) + rd64 (at_entry off n + 8))) best Hb) as (b1 & H1 & H2 & H3 & H4); [by apply (ram_entry off n)|].
      by exists b1. }
    destruct Hstep as (b1 & E1 & Hb1 & Hle & Hm1). fold es in E1. rewrite E1. cbn [mbind option_bind].
    destruct (IH (n + 1) b1 Hb1 ltac:(lia) ltac:(lia) ltac:(lia)) as (b2 & E2 & Hb2 & Hle2 & Hm2). exists b2. split; [done|]. split; [done|]. split; [lia|].
    intros m Hm Hm3 Hm4. destruct (decide (m = n)) as [->|]; [eapply beats_mono; [exact Hle2|by apply Hm1]|]. apply Hm2; [lia|done|done].
  - exists best. split_and!; try done. intros m Hm Hm2. nia.
Qed.

Lemma tag_step_bounds off : boot_info -> tag_at off -> off + 8 <= total -> rd32 (mb2 + off) <> 0 -> 0 <= off -> 8 <= tag_step off <= total - off + 8.
Proof.
  intros B Ht Ho Hne H0. destruct (bi_tag B off Ht Ho Hne) as [H1 H2]. pose proof (bi_total B). pose proof (bi_addr B).
  pose proof (align_up_8 (rd32 (mb2 + off + 4)) ltac:(lia)). unfold tag_step. cbv zeta. destruct (_ <? 8) eqn:E; zbool; lia.
Qed.

(** the walk over the tags ends, with a range as large as any it came to *)
Lemma mmap_tags_spec fuel off best : boot_info -> tag_at off -> 8 <= off <= total + 8 \/ off = 8 -> total - off + 2 <= Z.of_nat fuel -> best_ok best ->
  exists best', mmap_tags rd32 rd64 kernel_end fuel mb2 off best = Some best' /\ best_ok best' /\ best.2 - best.1 <= best'.2 - best'.1 /\
    forall o m, tag_from off o -> o + 8 <= total -> rd32 (mb2 + o) = 6 -> 0 <= m -> 16 + (m + 1) * rd32 (mb2 + o + 8) <= rd32 (mb2 + o + 4) ->
      rd32 (at_entry o m + 16) = 1 -> beats best' (rd64 (at_entry o m)) (u64 (rd64 (at_entry o m) + rd64 (at_entry o m + 8))).
Proof.
  intros B. pose proof (bi_total B) as [T1 T2]. pose proof (bi_addr B) as Hmb.
  revert off best. induction fuel as [|fuel IH]; intros off best Ht Hoff Hf Hb; cbn [mmap_tags]; rewrite (u32_small (off + 8)) by (unfold is_u32; lia).
  all: destruct (off + 8 <=? total) eqn:E; zbool; [|exists best; split_and!; try done; intros o m Ho Ho8; inversion Ho; subst; lia].
  { lia. }
  rewrite (u32_small (mb2 + off)) by (unfold is_u32; lia). cbv zeta.
  destruct (rd32 (mb2 + off) =? 0) eqn:E0; zbool.
  { exists best. split_and!; try done. intros o m Ho Ho8 H6. inversion Ho; subst; lia. }
  pose proof (tag_step_bounds off B Ht E E0 ltac:(lia)) as Hst.
  assert (Hstep : exists b1, (if rd32 (mb2 + off) =? 6 then mmap_entries rd32 rd64 kernel_end fuel mb2 (mb2 + off) 16 best else Some best) = Some b1 /\
    best_ok b1 /\ best.2 - best.1 <= b1.2 - b1.1 /\ (rd32 (mb2 + off) = 6 -> forall m, 0 <= m -> 16 + (m + 1) * rd32 (mb2 + off + 8) <= rd32 (mb2 + off + 4) ->
      rd32 (at_entry off m + 16) = 1 -> beats b1 (rd64 (at_entry off m)) (u64 (rd64 (at_entry off m) + rd64 (at_entry off m + 8))))).
  { destruct (_ =? 6) eqn:E6; zbool; [|by exists best]. destruct (bi_tag B off Ht E E0) as [S1 S2].
    destruct (mmap_entries_spec fuel off 0 best B Ht E E6 Hb) as (b1 & H1 & H2 & H3 & H4); [lia..|]. exists b1. by split_and!. }
  destruct Hstep as (b1 & E1 & Hb1 & Hle & Hm1). rewrite E1. cbn [mbind option_bind]. change (if _ <? 8 then 8 else _) with (tag_step off).
  rewrite (u32_small (off + tag_step off)) by (unfold is_u32; lia).
  destruct (IH (off + tag_step off) b1) as (b2 & E2 & Hb2 & Hle2 & Hm2); [by apply tag_next|lia|lia|done|]. exists b2. split; [done|]. split; [done|]. split; [lia|].
  intros o m Ho. inversion Ho as [|? ? ? ? Ho']; subst; [|by apply Hm2]. intros _ H6 Hm H H'. eapply beats_mono; [exact Hle2|by apply Hm1].
Qed.

(** pick_region ends, and gives the largest usable piece of RAM *)
Lemma pick_region_spec : boot_info ->
  exists r, pick_region rd32 rd64 kernel_end (Z.to_nat total) mb2 = Some r /\
    match r with
    | Some (lo, hi) => usable xs lo hi /\ (exists l h, ram l h /\ l <= lo /\ hi <= h) /\ forall l h, ram l h -> beats (lo, hi) l h
    | None => forall l h a b, ram l h -> usable xs a b -> l <= a -> b <= h -> False
    end.
Proof.
  intros B. pose proof (bi_addr B) as Hmb. pose proof (bi_total B) as [T1 T2].
  destruct (mmap_tags_spec (Z.to_nat total) 8 (0, 0) B) as (best & E & Hb & _ & Hm); [apply tag_here|by right|lia|by left|].
  assert (Hbeats : forall l h, ram l h -> beats best l h).
  { intros l h [off n mm e H1 H2 H3 H4 H5 H6]. by apply Hm. }
  unfold pick_region. rewrite (proj2 (Z.eqb_neq mb2 0)) by lia. rewrite E. cbn [mbind option_bind]. eexists. split; [done|].
  destruct Hb as [->|(U & H)].
  - cbn. intros l h a b Hr U Ha Hh. specialize (Hbeats l h Hr a b U Ha Hh). cbn in Hbeats. pose proof (us_pos _ _ _ U). lia.
  - pose proof (us_pos _ _ _ U). destruct best as [lo hi]. cbn [fst Datatypes.snd] in *. rewrite (proj2 (Z.leb_gt hi lo)) by lia. by split_and!.
Qed.

Lemma kheap_init_run fuel r start e : pick_region rd32 rd64 kernel_end fuel mb2 = Some r -> init_bounds kernel_end r = (start, e) -> is_u32 e ->
  kheap_init rd32 rd64 kernel_end fuel mb2 = (bin_insert start (first_heap start (u32 (e / 16 * 16 - start - HDR)))) ≫= fun r => Some r.2.
Proof.
  intros Hp Hb He. unfold kheap_init. rewrite Hp. cbn [mbind option_bind]. rewrite Hb. rewrite land_down16_32 by done. fold (first_heap start (u32 (e / 16 * 16 - start - HDR))).
  unfold st_bind. by destruct (bin_insert _ _) as [[[] h]|].
Qed.

(** the first block's heap: [x], free, and where it is well-formed *)
Definition one_block (h : heap) (x : ablk) : Prop :=
  blocks h = {[a_addr x := Block (a_size x) 0 0 0]} /\ g_head h = a_addr x /\ g_total h = a_size x /\ a_used x = false.

Lemma init_good fuel r s e : pick_region rd32 rd64 kernel_end fuel mb2 = Some r -> init_bounds kernel_end r = (s, e) ->
  0 < s -> s mod 16 = 0 -> s + 64 <= e -> e < 2 ^ 32 ->
  exists h x, kheap_init rd32 rd64 kernel_end fuel mb2 = Some h /\ one_block h x /\ heap_inv h [x] /\ a_addr x = s /\ a_end x = e / 16 * 16.
Proof.
  intros Hp Hb Hs H16 He He2. rewrite (kheap_init_run fuel r s e Hp Hb) by (unfold is_u32; lia). unfold HDR. rewrite (u32_small (_ - _)) by (unfold is_u32; lia).
  destruct (first_block_core s (e / 16 * 16 - s - 32)) as (h & Hrun & Hsb & Hinv); [lia..|unfold HDR; lia|]. rewrite Hrun. cbn [mbind option_bind].
  eexists h, _. split; [done|]. split; [|split; [exact Hinv|split; [done|unfold a_end, HDR; cbn; lia]]].
  destruct Hsb as [B1 B2 B3 _]. unfold one_block. rewrite B1, B2, B3. done.
Qed.


(** what pick_region gives *)
Definition picked (r : option (Z * Z)) : Prop :=
  match r with
  | Some (lo, hi) => usable xs lo hi /\ (exists l h, ram l h /\ l <= lo /\ hi <= h) /\ forall l h, ram l h -> beats (lo, hi) l h
  | None => mb2 = 0 \/ forall l h a b, ram l h -> usable xs a b -> l <= a -> b <= h -> False
  end.

Lemma pick_region_total : mb2 = 0 \/ boot_info -> exists r, pick_region rd32 rd64 kernel_end (Z.to_nat total) mb2 = Some r /\ picked r.
Proof.
  intros [->|B]; [exists None; by split; [|left]|]. destruct (pick_region_spec B) as (r & E & Hr). exists r. split; [done|].
  destruct r as [[lo hi]|]; [exact Hr|by right].
Qed.

(** the region, if it has 1 MiB *)
Definition big (r : option (Z * Z)) : option (Z * Z) :=
  match r with Some (lo, hi) => if 0x100000 <=? hi - lo then Some (lo, hi) else None | None => None end.

Lemma excluded_clear lo hi a b : usable xs lo hi -> 0x100000 <= kernel_end <= 0xFFFFF000 -> lo <= a -> b <= hi ->
  avoids a b (0x100000, kernel_end) /\ avoids a b (mb2, mb2 + total).
Proof.
  intros [_ _ _ Hav] Hk Ha Hb. destruct (align_up_4096 kernel_end ltac:(lia)) as [_ Hal].
  pose proof (Hav _ ltac:(left)) as H1. pose proof (Hav _ ltac:(right; left)) as H2. rewrite (u32_small kernel_end) in H1 by (unfold is_u32; lia).
  unfold avoids in *. cbn [fst Datatypes.snd] in *. lia.
Qed.
End pick.
