(* ===== verification/KHeapCheck.v ===== *)
(** kheap_check finds nothing wrong exactly where the memory is what it
    looks for: a list of blocks in address order, and bins that hold its free
    blocks. *)

From S2P Require Import Prelude DList KHeap KHeapInv KHeapOps KHeapSpec KHeapCalls KHeapInit.

(** ** What is looked for *)

Definition ascending (x y : ablk) : Prop := a_addr x < a_addr y.
Definition free_blocks (A : list ablk) : list ablk := filter (fun x => a_used x = false) A.

(** from [a] on, the forward links of the bins give [l], and end *)
Inductive threaded (h : heap) : Z -> list Z -> Prop :=
  | th_nil : threaded h 0 []
  | th_cons a f l : a <> 0 -> flinks h !! a = Some f -> threaded h (l_next f) l -> threaded h a (a :: l).

(** the addresses the bins [ks] hold *)
Definition binned (bins : Z * Z -> list Z) (ks : list (Z * Z)) : list Z := ks ≫= bins.

(** The memory holds the blocks [A]: linked both ways, in address order, each
    marked free or allocated, no two free ones side by side; the bins hold
    [bins]: every free block once, in the bin of its size; and the bits say
    which bins are empty. *)
Record well_kept (h : heap) (A : list ablk) (bins : Z * Z -> list Z) : Prop := {
  wk_head : g_head h = first (addrs A) 0;
  wk_null : 0 ∉ addrs A;
  wk_list : dseg (links (blocks h)) 0 (addrs A) 0;
  wk_blk x : x ∈ A -> exists b, blocks h !! a_addr x = Some b /\ size b = a_size x /\ used b = tag (a_used x);
  wk_order : linked ascending A;
  wk_merged : linked not_both_free A;
  wk_bins k : in_table k.1 k.2 = true -> threaded h (bin h k) (bins k);
  wk_free x : x ∈ A -> a_used x = false ->
    in_table (bin_of (a_size x)).1 (bin_of (a_size x)).2 = true /\ a_addr x ∈ bins (bin_of (a_size x));
  wk_once : binned bins all_bins ≡ₚ addrs (free_blocks A);
  wk_bit fl sl : in_table fl sl = true -> Z.testbit (slmap h fl) sl = true <-> bins (fl, sl) <> [];
  wk_level fl sl : in_table fl sl = true -> bins (fl, sl) <> [] -> Z.testbit (g_flmap h) fl = true;
}.

Lemma free_blocks_cons x A :
  free_blocks (x :: A) = if a_used x then free_blocks A else x :: free_blocks A.
Proof. unfold free_blocks. rewrite filter_cons. by destruct (a_used x). Qed.

Lemma all_bins_spec k : k ∈ all_bins <-> in_table k.1 k.2 = true.
Proof.
  unfold all_bins. rewrite in_table_spec, list_elem_of_bind. destruct k as [fl sl]. cbn [fst snd]. split.
  - intros (x & Hx' & Hx%elem_of_seqZ).
    apply list_elem_of_fmap in Hx' as (y & [= -> ->] & Hy%elem_of_seqZ). lia.
  - intros []. exists fl. split; [|apply elem_of_seqZ; lia].
    apply list_elem_of_fmap. exists sl. split; [done|]. apply elem_of_seqZ. lia.
Qed.

Lemma all_bins_nodup : NoDup all_bins.
Proof. refine (bool_decide_unpack (NoDup all_bins) _). vm_compute. exact I. Qed.

Lemma ascending_lt A x y : linked ascending (x :: A) -> y ∈ A -> a_addr x < a_addr y.
Proof.
  revert x. induction A as [|z A IH]; intros x [Hx Hl] Hy; [by apply elem_of_nil in Hy|].
  apply elem_of_cons in Hy as [->|Hy]; [done|]. specialize (IH z Hl Hy). unfold ascending in Hx. lia.
Qed.

Lemma ascending_nodup A : linked ascending A -> NoDup (addrs A).
Proof.
  induction A as [|x A IH]; [constructor|]. intros Hl. constructor; [|apply IH; apply Hl].
  intros (y & He & Hy)%list_elem_of_fmap. pose proof (ascending_lt A x y Hl Hy). lia.
Qed.

Lemma free_nodup A : linked ascending A -> NoDup (addrs (free_blocks A)).
Proof.
  induction A as [|x A IH]; [constructor|]. intros Hl. rewrite free_blocks_cons. destruct (a_used x); [apply IH, Hl|].
  constructor; [|apply IH, Hl]. intros (y & He & [_ Hy]%list_elem_of_filter)%list_elem_of_fmap. pose proof (ascending_lt A x y Hl Hy). lia.
Qed.

Lemma threaded_first h a l : threaded h a l -> a = first l 0 /\ 0 ∉ l.
Proof. induction 1 as [|a f l Ha Hf Hl IH]; [split; [done|set_solver]|]. split; [done|]. set_solver. Qed.

(** ** A well-formed heap in address order is one *)

Lemma dl_threaded h l : dl (links (flinks h)) l -> threaded h (first l 0) l.
Proof.
  intros [_ H0 Hs]. revert Hs H0. generalize 0 at 1 as p. induction l as [|a l IH]; intros p; [constructor|].
  intros [Ha Hl] H0. unfold links in Ha. destruct (flinks h !! a) as [f|] eqn:E; [|done]. injection Ha as _ Hn.
  apply (th_cons h a f); [set_solver|done|]. cbn in Hn. rewrite Hn. eapply IH; [exact Hl|set_solver].
Qed.

Lemma core_kept h A bins : core h A ∅ bins -> linked ascending A -> linked not_both_free A -> well_kept h A bins.
Proof.
  intros C Ha Hm. destruct (c_dl _ _ _ _ C) as [_ Hnull Hseg].
  assert (Hfree : forall x, x ∈ A -> a_used x = false -> in_table (bin_of (a_size x)).1 (bin_of (a_size x)).2 = true /\ a_addr x ∈ bins (bin_of (a_size x))).
  { intros x Hx Hu. assert (Hin : a_addr x ∈ bins (bin_of (a_size x))) by (apply (c_bin_mem _ _ _ _ C); split; [set_solver|by exists x]).
    split; [by apply (core_bin_valid C _ (a_addr x))|done]. }
  split; try done; try apply C.
  - intros k _. rewrite (c_bin_head _ _ _ _ C). apply dl_threaded, C.
  - apply NoDup_Permutation; [|by apply free_nodup|].
    + unfold binned. pose proof all_bins_nodup as Hnd.
      induction Hnd as [|k ks Hk Hnd IH]; [constructor|]. cbn [mbind list_bind].
      apply NoDup_app. split_and!; [apply C | | done].
      intros a Hin Hks. apply list_elem_of_bind in Hks as (k' & Ha' & Hk').
      assert (k = k') as -> by by eapply (core_bin_unique C). done.
    + intros a. unfold binned, free_blocks, addrs. rewrite list_elem_of_bind, list_elem_of_fmap. split.
      * intros (k & Hin & _). apply (c_bin_mem _ _ _ _ C) in Hin as (_ & x & Hx & <- & Hu & _).
        exists x. split; [done|]. by apply list_elem_of_filter.
      * intros (x & -> & Hx). apply list_elem_of_filter in Hx as [Hu Hx]. destruct (Hfree x Hx Hu) as [H1 H2].
        exists (bin_of (a_size x)). split; [done|by apply all_bins_spec].
  - intros fl sl Ht Hne. apply in_table_spec in Ht as Ht'. apply (m_fl _ _ _ (c_maps _ _ _ _ C)); [apply Ht'|].
    intros H0. apply (m_sl _ _ _ (c_maps _ _ _ _ C) _ _ Ht) in Hne. by rewrite H0, Z.bits_0 in Hne.
Qed.

(** ** Such memory passes *)

Section passes.
Context {h : heap} {A : list ablk} {bins : Z * Z -> list Z} (W : well_kept h A bins).

Lemma threaded_some a l x : threaded h a l -> x ∈ l -> is_Some (flinks h !! x).
Proof. induction 1 as [|a f l Ha Hf Hl IH]; [by intros ?%elem_of_nil|]. intros [->|Hx]%elem_of_cons; eauto. Qed.

Lemma bin_nodup k : in_table k.1 k.2 = true -> NoDup (bins k).
Proof.
  intros Hk. assert (Hnd : NoDup (binned bins all_bins)) by (rewrite (wk_once _ _ _ W); apply free_nodup, W).
  apply all_bins_spec, list_elem_of_split in Hk as (l1 & l2 & E). unfold binned in Hnd. rewrite E, bind_app in Hnd. cbn [mbind list_bind] in Hnd.
  by apply NoDup_app in Hnd as (_ & _ & (Hnd & _ & _)%NoDup_app).
Qed.

Lemma bin_length k : in_table k.1 k.2 = true -> (length (bins k) <= base.size (flinks h))%nat.
Proof.
  intros Hk. rewrite <- (size_dom (D := gset Z)), <- (size_list_to_set (C := gset Z) (bins k)) by by apply bin_nodup.
  apply subseteq_size. intros a Ha%elem_of_list_to_set. apply elem_of_dom. eapply threaded_some; [by apply (wk_bins _ _ _ W)|done].
Qed.

Lemma find_in_bin_ok a l x fuel : threaded h a l -> x ∈ l -> (length l <= fuel)%nat -> find_in_bin fuel a x h = Some (x, h).
Proof.
  intros Hl. revert fuel. induction Hl as [|a f l Ha Hf Hl IH]; intros fuel Hx Hlen; [by apply elem_of_nil in Hx|].
  cbn in Hlen. destruct fuel as [|fuel]; [lia|]. cbn [find_in_bin]. apply Z.eqb_neq in Ha as Ha'. rewrite Ha'. cbn [orb].
  destruct (a =? x) eqn:E; zbool; [by subst|]. unfold st_bind at 1, load_links. rewrite Hf. apply IH; [|lia].
  apply elem_of_cons in Hx as [->|Hx]; [done|done].
Qed.

Lemma count_bin_ok a l fuel nfree n : threaded h a l -> (length l <= fuel)%nat -> n + zlen l <= nfree + 1 ->
  count_bin fuel a nfree n h = Some (n + zlen l, h).
Proof.
  intros Hl. revert fuel n. induction Hl as [|a f l Ha Hf Hl IH]; intros fuel n Hf' Hn.
  { destruct fuel; cbn; by rewrite Z.add_0_r. }
  cbn in Hf'. rewrite zlen_cons in Hn |- *. pose proof (zlen_nonneg l). destruct fuel as [|fuel]; [lia|]. cbn [count_bin].
  apply Z.eqb_neq in Ha. rewrite Ha. cbn [orb]. rewrite (proj2 (Z.ltb_ge _ _)) by lia. unfold st_bind at 1, load_links. rewrite Hf.
  rewrite IH by lia. do 2 f_equal. lia.
Qed.

Lemma in_table_0 fl sl : in_table fl sl = true -> in_table fl 0 = true.
Proof. intros [? ?]%in_table_spec. apply in_table_spec. unfold SL_N in *. lia. Qed.

Lemma check_bin_ok k nfree n : in_table k.1 k.2 = true -> 0 <= n -> n + zlen (bins k) <= nfree ->
  check_bin nfree k (0, n) h = Some ((0, n + zlen (bins k)), h).
Proof.
  destruct k as [fl sl]. cbn [fst snd]. intros Ht Hn0 Hn. unfold check_bin, get_bin, get_slmap, gets. unfold st_bind at 1 2 3. rewrite Ht, (in_table_0 _ _ Ht).
  pose proof (wk_bins _ _ _ W (fl, sl) Ht) as Hth. destruct (threaded_first _ _ _ Hth) as [Hfirst Hz].
  assert (Hhas : negb (bin h (fl, sl) =? 0) = true <-> bins (fl, sl) <> []).
  { rewrite negb_true_iff, Z.eqb_neq, Hfirst. destruct (bins (fl, sl)) as [|a l]; cbn; [done|]. split; [done|]. intros _ ->. set_solver. }
  assert (Hbit : Z.testbit (slmap h fl) sl = negb (bin h (fl, sl) =? 0)) by (apply eq_true_iff_eq; by rewrite (wk_bit _ _ _ W _ _ Ht), Hhas).
  rewrite Hbit, xorb_nilpotent. cbn [orb]. replace (negb (bin h (fl, sl) =? 0) && negb (Z.testbit (g_flmap h) fl)) with false.
  2: { destruct (negb (bin h (fl, sl) =? 0)) eqn:E; [|done]. by rewrite (wk_level _ _ _ W fl sl Ht (proj1 Hhas eq_refl)). }
  erewrite bind_ok; [|apply (count_bin_ok _ (bins (fl, sl))); [done|unfold zlen in *; lia|lia]]. done.
Qed.

Lemma check_bins_ok ks nfree n : (forall k, k ∈ ks -> in_table k.1 k.2 = true) -> 0 <= n -> n + zlen (binned bins ks) <= nfree ->
  check_bins ks nfree (0, n) h = Some ((0, n + zlen (binned bins ks)), h).
Proof.
  revert n. induction ks as [|k ks IH]; intros n Hks Hn0 Hn; [cbn; by rewrite Z.add_0_r|].
  unfold binned in *. cbn [mbind list_bind] in *. rewrite zlen_app in *. pose proof (zlen_nonneg (ks ≫= bins)). pose proof (zlen_nonneg (bins k)).
  cbn [check_bins]. erewrite bind_ok; [|apply check_bin_ok; [apply Hks; left|lia|lia]]. rewrite IH; [do 3 f_equal; lia| |lia..].
  intros k' Hk'. apply Hks. by right.
Qed.

Lemma check_blocks_ok fuel A1 A2 nfree : A = A1 ++ A2 -> (length A2 <= fuel)%nat ->
  check_blocks fuel (final (addrs A1) 0) (first (addrs A2) 0) 0 nfree h = Some ((0, nfree + zlen (free_blocks A2)), h).
Proof.
  revert A1 A2 nfree. induction fuel as [|fuel IH]; intros A1 A2 nfree HA Hf.
  { destruct A2; [|simpl in Hf; lia]. cbn. by rewrite Z.add_0_r. }
  destruct A2 as [|x A2]; [cbn; by rewrite Z.add_0_r|].
  assert (Hnz : forall y, y ∈ A -> a_addr y <> 0).
  { intros y Hy Hy0. apply (wk_null _ _ _ W). rewrite <- Hy0. by apply list_elem_of_fmap_2. }
  assert (Hx : x ∈ A) by (rewrite HA; set_solver). destruct (wk_blk _ _ _ W x Hx) as (b & Hb & Hs & Hu). pose proof (Hnz x Hx) as Hx0.
  assert (Hlink : prev b = final (addrs A1) 0 /\ next b = first (addrs A2) 0).
  { pose proof (wk_list _ _ _ W) as Hd. rewrite HA, addrs_app, addrs_cons in Hd. apply dseg_app in Hd as (_ & Hd & _). unfold links in Hd. rewrite Hb in Hd. by injection Hd. }
  destruct Hlink as [Hprev Hnext]. rewrite addrs_cons. cbn [check_blocks first].
  apply Z.eqb_neq in Hx0 as Hx0'. rewrite Hx0'. assert (Hload : load (a_addr x) h = Some (b, h)) by (unfold load; by rewrite Hb). st_step Hload.
  assert (Hp : exists pf, (if final (addrs A1) 0 =? 0 then st_ret false
      else let! pb := load (final (addrs A1) 0) in st_ret (used pb =? 0)) h = Some (pf, h) /\
    (final (addrs A1) 0 <> 0 -> final (addrs A1) 0 < a_addr x /\ (pf = true -> a_used x = true))).
  { destruct (decide (A1 = [])) as [->|Hne]; [by exists false|].
    destruct (exists_last Hne) as (A0 & p & ->). rewrite addrs_app. change (addrs [p]) with [a_addr p]. rewrite final_snoc.
    assert (Hpin : p ∈ A) by (rewrite HA; set_solver). pose proof (Hnz p Hpin) as Hp0. apply Z.eqb_neq in Hp0. rewrite Hp0.
    destruct (wk_blk _ _ _ W p Hpin) as (pb & Hlp & _ & Hup). exists (used pb =? 0). split; [unfold st_bind, load; by rewrite Hlp|].
    pose proof (wk_order _ _ _ W) as Hasc. pose proof (wk_merged _ _ _ W) as Hnb. rewrite HA in Hasc, Hnb.
    apply linked_app in Hasc as (_ & _ & Ha), Hnb as (_ & _ & Hn).
    specialize (Ha p x (last_snoc _ _) eq_refl). specialize (Hn p x (last_snoc _ _) eq_refl).
    intros _. split; [done|]. rewrite Hup. destruct Hn as [Hn|Hn]; [|done]. by rewrite Hn. }
  destruct Hp as (pf & Hp & Hord). st_step Hp. unfold check_block. rewrite Hprev, Hu, Hs, Z.eqb_refl. cbn [negb].
  assert (Htag : negb (tag (a_used x) =? 0) && negb (tag (a_used x) =? HEAP_MAGIC) = false) by by destruct (a_used x).
  rewrite Htag.
  assert (Hlt : negb (final (addrs A1) 0 =? 0) && (a_addr x <=? final (addrs A1) 0) = false).
  { destruct (final (addrs A1) 0 =? 0) eqn:E; [done|]. zbool. destruct (Hord E) as [H _]. cbn. apply Z.leb_gt. lia. }
  rewrite Hlt.
  assert (Hboth : negb (final (addrs A1) 0 =? 0) && pf && (tag (a_used x) =? 0) = false).
  { destruct (final (addrs A1) 0 =? 0) eqn:E; [done|]. zbool. destruct (Hord E) as [_ H]. destruct pf; [|done]. by rewrite H. }
  rewrite Hboth.
  assert (Hrec : forall n, check_blocks fuel (a_addr x) (next b) 0 n h = Some ((0, n + zlen (free_blocks A2)), h)).
  { intros n. rewrite Hnext. specialize (IH (A1 ++ [x]) A2 n). rewrite addrs_app in IH.
    change (addrs [x]) with [a_addr x] in IH. rewrite final_snoc in IH. apply IH; [by rewrite <- app_assoc|simpl in Hf; lia]. }
  rewrite free_blocks_cons. destruct (a_used x) eqn:Eu; cbn [tag].
  { change (HEAP_MAGIC =? 0) with false. cbv iota. unfold st_bind at 1, st_ret at 1. cbn. apply Hrec. }
  change (0 =? 0) with true. cbv iota. destruct (wk_free _ _ _ W x Hx Eu) as [Ht Hin].
  destruct (bin_of (a_size x)) as [fl sl] eqn:Ebin. cbn [fst snd] in Ht.
  assert (Hfind : (let! head := get_bin fl sl in
    let! x0 := (fun h => find_in_bin (S (base.size (flinks h))) head (a_addr x) h) in
    st_ret (x0 =? 0, nfree + 1)) h = Some ((false, nfree + 1), h)).
  { unfold st_bind, get_bin. rewrite Ht. rewrite (find_in_bin_ok (bin h (fl, sl)) (bins (fl, sl)) (a_addr x)).
    - unfold st_ret. by rewrite Hx0'.
    - by apply (wk_bins _ _ _ W).
    - done.
    - pose proof (bin_length (fl, sl) Ht). lia. }
  rewrite (bind_ok _ _ _ _ _ Hfind). cbv beta iota. change (100 <? 0) with false. cbv iota.
  rewrite Hrec, zlen_cons. do 3 f_equal. lia.
Qed.

Lemma blocks_length : (length A <= base.size (blocks h))%nat.
Proof.
  rewrite <- (length_fmap a_addr A). fold (addrs A). rewrite <- (size_dom (D := gset Z)), <- (size_list_to_set (C := gset Z) (addrs A)) by apply ascending_nodup, W.
  apply subseteq_size. intros a (x & -> & Hx)%elem_of_list_to_set%list_elem_of_fmap.
  destruct (wk_blk _ _ _ W x Hx) as (b & Hb & _). apply elem_of_dom. eauto.
Qed.

Lemma kheap_check_passes : kheap_check h = Some (0, h).
Proof.
  unfold kheap_check. rewrite (wk_head _ _ _ W). erewrite bind_ok; [|apply (check_blocks_ok _ [] A 0); [done|pose proof blocks_length; lia]]. cbv beta iota.
  assert (Hz : zlen (binned bins all_bins) = zlen (free_blocks A)).
  { unfold zlen. f_equal. rewrite (Permutation_length (wk_once _ _ _ W)). apply length_fmap. }
  pose proof (zlen_nonneg (free_blocks A)).
  erewrite bind_ok; [|apply check_bins_ok; [intros k; apply all_bins_spec|lia|rewrite Hz; lia]]. cbv beta iota. rewrite Hz, Z.eqb_refl. done.
Qed.
End passes.

(** ** Memory that passes is such *)

Lemma bind_inv {S A B} (m : ST S A) (k : A -> ST S B) s r : st_bind m k s = Some r -> exists a s', m s = Some (a, s') /\ k a s' = Some r.
Proof. unfold st_bind. destruct (m s) as [[a s']|]; [|done]. eauto. Qed.

(** [b] is come to from [a] *)
Inductive reach (h : heap) (b : Z) : Z -> Prop :=
  | re_here : reach h b b
  | re_next a f : a <> 0 -> flinks h !! a = Some f -> reach h b (l_next f) -> reach h b a.

Lemma reach_in h a b l : threaded h a l -> reach h b a -> b <> 0 -> b ∈ l.
Proof.
  intros Hl. induction Hl as [|a f l Ha Hf Hl IH]; intros Hr Hb.
  - inversion Hr; subst; done.
  - inversion Hr as [|? f' _ Hf' Hr']; subst; [left|]. right. rewrite Hf in Hf'. injection Hf' as <-. by apply IH.
Qed.

Lemma find_in_bin_inv fuel a b h y h' : find_in_bin fuel a b h = Some (y, h') -> h' = h /\ (y <> 0 -> reach h b a).
Proof.
  revert a. induction fuel as [|fuel IH]; intros a; cbn [find_in_bin]; (destruct (a =? 0) eqn:E0; [zbool; by intros [= <- <-]|]);
    (destruct (a =? b) eqn:E; [zbool; intros [= <- <-]; split; [done|intros _; rewrite E; constructor]|]); cbn [orb]; [done|].
  zbool. intros (f & h1 & H1 & H2)%bind_inv. unfold load_links in H1. destruct (flinks h !! a) as [f'|] eqn:Ef; [|done]. injection H1 as -> <-.
  destruct (IH _ H2) as [-> Hr]. split; [done|]. intros Hy. eapply re_next; [done|exact Ef|by apply Hr].
Qed.

Lemma count_bin_inv fuel a nfree n h n' h' : count_bin fuel a nfree n h = Some (n', h') ->
  h' = h /\ n <= n' /\ (n' <= nfree -> exists l, threaded h a l /\ n' = n + zlen l).
Proof.
  revert a n. induction fuel as [|fuel IH]; intros a n; cbn [count_bin];
    (destruct (a =? 0) eqn:E0; [zbool; subst; intros [= <- <-]; split; [done|]; split; [lia|]; intros _; exists []; split; [constructor|by rewrite Z.add_0_r]|]);
    (destruct (nfree + 1 <? n) eqn:E; [zbool; intros [= <- <-]; split; [done|]; split; lia|]); cbn [orb]; [done|].
  zbool. intros (f & h1 & H1 & H2)%bind_inv. unfold load_links in H1. destruct (flinks h !! a) as [f'|] eqn:Ef; [|done]. injection H1 as -> <-.
  destruct (IH _ _ H2) as (-> & Hle & Hr). split; [done|]. split; [lia|]. intros Hn. destruct (Hr Hn) as (l & Hl & ->).
  exists (a :: l). split; [by apply (th_cons h a f)|]. rewrite zlen_cons. lia.
Qed.

(** what a bin holds, as far as [n] goes *)
Fixpoint thread (n : nat) (h : heap) (a : Z) : list Z :=
  match n with
  | O => []
  | S n => if a =? 0 then [] else match flinks h !! a with Some f => a :: thread n h (l_next f) | None => [] end
  end.

Lemma threaded_thread h a l n : threaded h a l -> (length l <= n)%nat -> thread n h a = l.
Proof.
  intros Hl. revert n. induction Hl as [|a f l Ha Hf Hl IH]; intros n Hn; [by destruct n|]. destruct n as [|n]; cbn in *; [lia|].
  apply Z.eqb_neq in Ha. rewrite Ha, Hf. f_equal. apply IH. lia.
Qed.

Definition held (nfree : Z) (h : heap) (k : Z * Z) : list Z := thread (Z.to_nat nfree) h (bin h k).

Lemma check_bin_inv nfree k bad n h bad' n' h' : check_bin nfree k (bad, n) h = Some ((bad', n'), h') -> 0 <= n ->
  h' = h /\ bad <= bad' /\ n <= n' /\
  (bad' = bad -> Z.testbit (slmap h k.1) k.2 = negb (bin h k =? 0) /\ (bin h k <> 0 -> Z.testbit (g_flmap h) k.1 = true)) /\
  (n' <= nfree -> threaded h (bin h k) (held nfree h k) /\ n' = n + zlen (held nfree h k)).
Proof.
  destruct k as [fl sl]. cbn [fst snd]. intros (head & h1 & H1 & (m & h2 & H2 & (flm & h3 & H3 & (n1 & h4 & H4 & H5)%bind_inv)%bind_inv)%bind_inv)%bind_inv Hn.
  unfold get_bin in H1. destruct (in_table fl sl); [|done]. injection H1 as <- <-. unfold get_slmap in H2. destruct (in_table fl 0); [|done]. injection H2 as <- <-.
  injection H3 as <- <-. apply count_bin_inv in H4 as (-> & Hle & Hth). injection H5 as Hb <- <-. split; [done|].
  split; [destruct (xorb _ _ || _); lia|]. split; [done|]. split.
  - intros ->. destruct (xorb _ _ || _) eqn:E in Hb; [lia|]. apply orb_false_iff in E as [E1 E2].
    destruct (bin h (fl, sl) =? 0) eqn:E0; cbn [negb andb] in E1, E2 |- *; (split; [by destruct (Z.testbit (slmap h fl) sl)|]).
    + intros Hne. zbool. done.
    + intros _. by apply negb_false_iff.
  - intros Hle'. destruct (Hth Hle') as (l & Hl & Hz). replace (held nfree h (fl, sl)) with l; [done|]. symmetry. apply threaded_thread; [done|]. unfold zlen in *. lia.
Qed.

Lemma check_bins_inv ks nfree bad n h bad' n' h' : check_bins ks nfree (bad, n) h = Some ((bad', n'), h') -> 0 <= n ->
  h' = h /\ bad <= bad' /\ n <= n' /\ (bad' = bad -> forall k, k ∈ ks ->
    Z.testbit (slmap h k.1) k.2 = negb (bin h k =? 0) /\ (bin h k <> 0 -> Z.testbit (g_flmap h) k.1 = true)) /\
  (n' <= nfree -> (forall k, k ∈ ks -> threaded h (bin h k) (held nfree h k)) /\ n' = n + zlen (binned (held nfree h) ks)).
Proof.
  revert bad n. induction ks as [|k ks IH]; intros bad n; cbn [check_bins].
  { intros [= <- <- <-] Hn. split; [done|]. split; [lia|]. split; [lia|]. split; [by intros _ k ?%elem_of_nil|]. intros _. split; [by intros k ?%elem_of_nil|]. cbn. by rewrite Z.add_0_r. }
  intros ([bad1 n1] & h1 & H1 & H2)%bind_inv Hn. destruct (check_bin_inv _ _ _ _ _ _ _ _ H1 Hn) as (-> & B1 & N1 & C1 & T1).
  destruct (IH _ _ H2 ltac:(lia)) as (-> & B2 & N2 & C2 & T2). split; [done|]. split; [lia|]. split; [lia|]. split.
  - intros Hb k' [->|Hk]%elem_of_cons; [apply C1; lia|]. apply C2; [lia|done].
  - intros Hle. destruct (T1 ltac:(lia)) as [Hth E1]. destruct (T2 Hle) as [Hths E2]. split.
    + intros k' [->|Hk]%elem_of_cons; [done|by apply Hths].
    + unfold binned in *. cbn [mbind list_bind]. rewrite zlen_app. lia.
Qed.

(** the blocks from one on, as the walk sees them *)
Record walked (h : heap) (pv : Z) (A : list ablk) : Prop := {
  wa_null : 0 ∉ addrs A;
  wa_list : dseg (links (blocks h)) pv (addrs A) 0;
  wa_blk x : x ∈ A -> exists b, blocks h !! a_addr x = Some b /\ size b = a_size x /\ used b = tag (a_used x);
  wa_order : linked ascending A;
  wa_merged : linked not_both_free A;
  wa_free x : x ∈ A -> a_used x = false ->
    in_table (bin_of (a_size x)).1 (bin_of (a_size x)).2 = true /\ reach h (a_addr x) (bin h (bin_of (a_size x)));
}.

(** [pv] is before them *)
Definition after (h : heap) (pv : Z) (A : list ablk) : Prop :=
  forall x, head A = Some x -> pv <> 0 -> pv < a_addr x /\ forall pb, blocks h !! pv = Some pb -> used pb = 0 -> a_used x = true.

Lemma check_block_inv h pv b blk pf n why n' h' : b <> 0 -> check_block pv b blk pf n h = Some ((why, n'), h') ->
  h' = h /\ (why = false -> exists u, used blk = tag u /\ prev blk = pv /\ (pv <> 0 -> pv < b /\ (pf = true -> u = true)) /\
    n' = n + (if u then 0 else 1) /\
    (u = false -> in_table (bin_of (size blk)).1 (bin_of (size blk)).2 = true /\ reach h b (bin h (bin_of (size blk))))).
Proof.
  intros Hb. unfold check_block. destruct (negb (used blk =? 0) && _) eqn:E1; [by intros [= <- <- <-]|]. destruct (negb (prev blk =? pv)) eqn:E2; [by intros [= <- <- <-]|].
  destruct (negb (pv =? 0) && (b <=? pv)) eqn:E3; [by intros [= <- <- <-]|]. destruct (negb (pv =? 0) && pf && _) eqn:E4; [by intros [= <- <- <-]|].
  apply negb_false_iff, Z.eqb_eq in E2.
  assert (Hord : pv <> 0 -> pv < b) by (intros Hp%Z.eqb_neq; rewrite Hp in E3; cbn in E3; zbool; lia).
  assert (Hfr : pv <> 0 -> pf = true -> (used blk =? 0) = false) by (intros Hp%Z.eqb_neq ->; by rewrite Hp in E4).
  destruct (used blk =? 0) eqn:E0.
  - apply Z.eqb_eq in E0. destruct (bin_of (size blk)) as [fl sl]. intros (hd & h1 & H1 & (x & h2 & H2 & H3)%bind_inv)%bind_inv. unfold get_bin in H1.
    destruct (in_table fl sl) eqn:Et; [|done]. injection H1 as <- <-. apply find_in_bin_inv in H2 as [-> Hr]. injection H3 as <- <- <-. split; [done|]. intros Hx. zbool.
    exists false. split; [done|]. split; [done|]. split; [intros Hp; split; [auto|intros Hpf; by specialize (Hfr Hp Hpf)]|]. split; [done|]. intros _. split; [done|by apply Hr].
  - intros [= <- <- <-]. split; [done|]. intros _. exists true. rewrite Z.add_0_r. split; [|by split_and!; auto].
    cbn [negb andb] in E1. apply negb_false_iff, Z.eqb_eq in E1. done.
Qed.

(** where the walk counted nothing *)
Lemma check_blocks_inv fuel pv b bad n h bad' n' h' : check_blocks fuel pv b bad n h = Some ((bad', n'), h') -> 0 <= bad ->
  h' = h /\ bad <= bad' /\ (bad' = 0 -> exists A, b = first (addrs A) 0 /\ walked h pv A /\ after h pv A /\ n' = n + zlen (free_blocks A)).
Proof.
  revert pv b bad n. induction fuel as [|fuel IH]; intros pv b bad n; cbn [check_blocks];
    (destruct (b =? 0) eqn:Eb; [zbool; subst; intros [= <- <- <-] Hbad; split; [done|]; split; [lia|]; intros _; exists [];
      split_and!; [done|split; try done; set_solver|done|by rewrite Z.add_0_r]|]); [done|].
  intros (blk & h1 & H1 & (pf & h2 & H2 & ([why n1] & h3 & H3 & H4)%bind_inv)%bind_inv)%bind_inv Hbad. zbool.
  unfold load in H1. destruct (blocks h !! b) as [blk'|] eqn:Eblk; [|done]. injection H1 as -> <-.
  assert (Hpf : h2 = h /\ (pv <> 0 -> exists pb, blocks h !! pv = Some pb /\ pf = (used pb =? 0))).
  { destruct (pv =? 0) eqn:Ep; zbool; [by injection H2 as <- <-|]. apply bind_inv in H2 as (pb & h4 & H2 & H5). unfold load in H2.
    destruct (blocks h !! pv) as [pb'|]; [|done]. injection H2 as -> <-. injection H5 as <- <-. split; [done|]. intros _. by exists pb. }
  destruct Hpf as [-> Hpf]. apply check_block_inv in H3 as [-> Hw]; [|done].
  set (bad1 := if why then bad + 1 else bad) in *. assert (Hb1 : bad <= bad1 /\ (bad1 = 0 -> why = false)) by (unfold bad1; destruct why; split; (done || lia)). clearbody bad1.
  destruct (100 <? bad1) eqn:E100; [injection H4 as <- <- <-; zbool; split; [done|]; split; [lia|]; intros ->; lia|].
  apply IH in H4 as (-> & Hle & Hrec); [|lia]. split; [done|]. split; [lia|]. intros Hz. rewrite (proj2 Hb1 ltac:(lia)) in Hw.
  destruct (Hw eq_refl) as (u & Hu & Hp & Hord & -> & Hfree). destruct (Hrec Hz) as (A & Hn & [W1 W2 W3 W4 W5 W6] & Haf & ->).
  exists (ABlk b (size blk) u :: A). split; [done|]. rewrite free_blocks_cons. cbn [a_used]. split; [|split; [|destruct u; rewrite ?zlen_cons; lia]].
  - split.
    + rewrite addrs_cons. set_solver.
    + rewrite addrs_cons. cbn [dseg a_addr]. split; [|done]. unfold links. rewrite Eblk. cbn. by rewrite Hp, Hn.
    + intros x [->|Hx]%elem_of_cons; [|by apply W3]. by exists blk.
    + split; [|done]. destruct A as [|y A]; [done|]. unfold ascending. cbn [a_addr]. by apply (Haf y eq_refl).
    + split; [|done]. destruct A as [|y A]; [done|]. unfold not_both_free. cbn [a_used]. destruct u; [by left|right].
      by apply (proj2 (Haf y eq_refl Eb) blk).
    + intros x [->|Hx]%elem_of_cons; [|by apply W6]. cbn [a_used a_size a_addr]. exact Hfree.
  - intros x [= <-] Hp0. cbn [a_addr a_used]. destruct (Hord Hp0) as [Hlt Hf]. split; [done|]. intros pb Hpb Hu0. destruct (Hpf Hp0) as (pb' & Hpb' & ->).
    rewrite Hpb in Hpb'. injection Hpb' as <-. apply Hf. by apply Z.eqb_eq.
Qed.

Lemma kheap_check_found h h' : kheap_check h = Some (0, h') -> h' = h /\ exists A bins, well_kept h A bins.
Proof.
  unfold kheap_check. intros ([bad1 nfree] & h1 & H1 & ([bad2 inb] & h2 & H2 & H3)%bind_inv)%bind_inv.
  apply check_blocks_inv in H1 as (-> & Hb1 & Hw); [|done]. destruct (check_bins_inv _ _ _ _ _ _ _ _ H2 ltac:(lia)) as (-> & Hb2 & _ & Hbits & Hths).
  injection H3 as Hz <-. split; [done|]. destruct (inb =? nfree) eqn:E; [|lia]. zbool. subst inb.
  destruct (Hw ltac:(lia)) as (A & Hn & [W1 W2 W3 W4 W5 W6] & _ & Hnf). cbn in Hnf. destruct (Hths ltac:(lia)) as [Hth Hcount]. specialize (Hbits ltac:(lia)).
  exists A, (held nfree h).
  assert (Hfree : forall x, x ∈ A -> a_used x = false -> in_table (bin_of (a_size x)).1 (bin_of (a_size x)).2 = true /\ a_addr x ∈ held nfree h (bin_of (a_size x))).
  { intros x Hx Hu. destruct (W6 x Hx Hu) as [Ht Hr]. split; [done|]. eapply reach_in; [apply Hth; by apply all_bins_spec|exact Hr|].
    intros H0. apply W1. rewrite <- H0. by apply list_elem_of_fmap_2. }
  assert (Hne : forall k, in_table k.1 k.2 = true -> bin h k <> 0 <-> held nfree h k <> []).
  { intros k Hk. destruct (threaded_first _ _ _ (Hth k (proj2 (all_bins_spec k) Hk))) as [Hf H0]. rewrite Hf. destruct (held nfree h k); cbn; [done|]. split; [done|]. intros _ ->. set_solver. }
  split; try done.
  - intros k Hk. by apply Hth, all_bins_spec.
  - symmetry. apply submseteq_length_Permutation.
    + apply NoDup_submseteq; [by apply free_nodup|]. intros a (x & -> & [Hu Hx]%list_elem_of_filter)%list_elem_of_fmap. destruct (Hfree x Hx Hu) as [Ht Hin].
      apply list_elem_of_bind. eexists. split; [exact Hin|by apply all_bins_spec].
    + unfold addrs. rewrite length_fmap. unfold zlen in *. lia.
  - intros fl sl Ht. rewrite <- (Hne (fl, sl) Ht). pose proof (proj1 (Hbits (fl, sl) (proj2 (all_bins_spec (fl, sl)) Ht))) as Hb. cbn [fst snd] in Hb.
    by rewrite Hb, negb_true_iff, Z.eqb_neq.
  - intros fl sl Ht Hl. apply (proj2 (Hbits (fl, sl) (proj2 (all_bins_spec (fl, sl)) Ht))). by apply (Hne (fl, sl) Ht).
Qed.
