(* ===== verification/KHeapProps.v ===== *)
(** The properties of the kernel heap, with a concrete heap they are applied
    to: one free block of 65504 bytes at 1 MiB. *)

From S2P Require Import Prelude DList KHeap KHeapInv KHeapOps KHeapSpec KHeapCalls.
From S2P Require Import KHeapInit KHeapCheck.

(** ** A concrete heap *)

Definition demo_block : ablk := ABlk 0x100000 0xFFE0 false.

Definition demo : heap :=
  match bin_insert 0x100000 (first_heap 0x100000 0xFFE0) with
  | Some (_, h) => h
  | None => heap0
  end.

Lemma demo_inv : heap_inv demo [demo_block].
Proof.
  destruct (first_block_core 0x100000 0xFFE0) as (h & Hrun & _ & Hinv); try (unfold HDR; lia).
  unfold demo. by rewrite Hrun.
Qed.

(** ... with 4096 bytes allocated *)
Definition demo_used : heap :=
  match kmalloc false (fun _ h => h) 4096 demo with Some (_, h) => h | None => heap0 end.
Definition demo_used_blocks : list ablk := a_rest demo_block 4096.

Lemma demo_used_inv : heap_inv demo_used demo_used_blocks.
Proof.
  destruct (find_fit_core demo [demo_block] 4096 demo_inv ltac:(lia) eq_refl) as
    [[Hrun _]|(r & h' & A' & Hrun & Hr & Hinv & (A1 & x & A2 & HA & _ & _ & _ & ->) & _)];
    [by vm_compute in Hrun|].
  destruct A1 as [|? A1]; [|by destruct A1]. injection HA as <- <-. rewrite app_nil_r in Hinv.
  assert (demo_used = h') as ->; [|done].
  unfold demo_used, kmalloc. replace (g_head demo =? 0) with false by (vm_compute; reflexivity).
  change (align_up (u32 4096) ALIGN) with 4096. rewrite Hrun. by apply Z.eqb_neq in Hr as ->.
Qed.

(** a region kheap_add_region takes, below and above the heap *)
Definition demo_low : heap :=
  match kheap_add_region 0x10000 0x20000 demo with Some (_, h) => h | None => heap0 end.

(** ** Allocation *)

(** C2: kmalloc never faults and keeps the heap well formed. Either it returns
    NULL and nothing changed since the last reclaim - for a size of 0, one
    above 0xF0000000, or because every free block is smaller than the rounded
    need - or it returns a 16-byte aligned payload of at least the bytes asked
    for, clear of every other allocation and its header, and the heap's bytes
    are all still accounted for. *)
Theorem kmalloc_spec rc reclaim h A sz :
  heap_inv h A -> (rc = true -> reclaim_ok reclaim) -> 0 <= sz ->
  exists r h' A0 A', kmalloc rc reclaim sz h = Some (r, h') /\ heap_inv h' A' /\
    (rc = false -> A0 = A) /\
    (r = 0 /\ A' = A0 /\ (sz = 0 \/ 0xF0000000 < sz \/ no_fit A0 (need_of sz)) \/
     r <> 0 /\ r mod 16 = 0 /\ span A' = span A0 /\
     exists n, sz <= n /\ r + n <= 2 ^ 32 /\ allocs A' ≡ₚ (r, n) :: allocs A0 /\
       forall q m, (q, m) ∈ allocs A0 -> r + n <= q - HDR \/ q + m <= r - HDR).
Proof.
  intros Hinv Hrc Hsz.
  destruct (kmalloc_core rc reclaim h A sz Hinv Hrc Hsz) as (r & h' & A0 & A' & Hrun & Hinv' & HA0 & Hc).
  exists r, h', A0, A'. split_and!; try done.
  destruct Hc as [(-> & -> & Hc) | (Hr & Hs & (h0 & Hi0) & Hh)]; [by left|right].
  destruct (need_of_spec sz Hs) as (_ & N2 & N3).
  destruct (handed_facts _ (need_of sz) _ _ (hi_good _ _ Hi0) ltac:(lia) Hh)
    as (H16 & Hspan & n & Hn & Hp & Hmax & Hout).
  split_and!; try done. exists n. split_and!; try done; [lia|].
  intros q m Hq. unfold allocs in Hq. apply list_elem_of_fmap in Hq as (x & [= -> ->] & Hx).
  apply live_spec in Hx as (Hx & Hu & _). specialize (Hout x Hx Hu). unfold a_end in Hout. lia.
Qed.

Lemma kmalloc_spec_witness : exists r h' A0 A', kmalloc false (fun _ h => h) 100 demo = Some (r, h') /\
  heap_inv h' A' /\ (false = false -> A0 = [demo_block]) /\
  (r = 0 /\ A' = A0 /\ (100 = 0 \/ 0xF0000000 < 100 \/ no_fit A0 (need_of 100)) \/
   r <> 0 /\ r mod 16 = 0 /\ span A' = span A0 /\
   exists n, 100 <= n /\ r + n <= 2 ^ 32 /\ allocs A' ≡ₚ (r, n) :: allocs A0 /\
     forall q m, (q, m) ∈ allocs A0 -> r + n <= q - HDR \/ q + m <= r - HDR).
Proof.
  apply (kmalloc_spec false (fun _ h => h) demo [demo_block] 100); [exact demo_inv | done | lia].
Defined.

(** C9: kfree of an allocation never faults, takes exactly that allocation
    away, leaves no two free neighbours unmerged (heap_inv), loses no byte, and
    g_used drops by the block's size. *)
Theorem kfree_spec h A p n : heap_inv h A -> (p, n) ∈ allocs A ->
  exists h' A', kfree p h = Some (tt, h') /\ heap_inv h' A' /\
    (p, n) :: allocs A' ≡ₚ allocs A /\ span A' = span A /\ g_used h' = u32 (g_used h - n) /\
    g_total h' = g_total h.
Proof.
  intros Hinv Hin. unfold allocs in Hin. apply list_elem_of_fmap in Hin as (x & [= -> ->] & Hx).
  apply live_spec in Hx as (Hx & Hu & Hs). pose proof (is_live_used x Hu Hs) as Hl.
  apply list_elem_of_split in Hx as (A1 & A2 & ->).
  destruct (kfree_core h A1 x A2 Hinv Hl) as (h' & A' & Hrun & Hinv' & Ht & Hlive & Hspan).
  exists h', A'. split_and!; try done.
  - rewrite allocs_middle by done. unfold allocs at 1. rewrite Hlive, <- live_app. done.
  - rewrite (hi_used _ _ Hinv'), (hi_used _ _ Hinv), u32_sub_l, Hlive. f_equal.
    rewrite live_app, live_cons, Hl, !sizes_app. simpl. lia.
Qed.

Lemma kfree_spec_witness : (0x100020, 4096) ∈ allocs demo_used_blocks /\
  exists h' A', kfree 0x100020 demo_used = Some (tt, h') /\ heap_inv h' A' /\
    (0x100020, 4096) :: allocs A' ≡ₚ allocs demo_used_blocks /\ span A' = span demo_used_blocks /\
    g_used h' = u32 (g_used demo_used - 4096) /\ g_total h' = g_total demo_used.
Proof.
  assert (Hin : (0x100020, 4096) ∈ allocs demo_used_blocks) by left.
  split; [exact Hin|]. apply (kfree_spec demo_used demo_used_blocks); [exact demo_used_inv | exact Hin].
Defined.

(** C10: krealloc of an allocation to 1..0xF0000000 bytes never faults and
    keeps the heap well formed: it returns NULL with the heap as it was (no
    block fits), or a payload of at least the new size in place of the old one,
    every other allocation untouched - and the same payload with no change at
    all when the block is already big enough. *)
Theorem krealloc_spec reclaim h A p n sz : heap_inv h A -> (p, n) ∈ allocs A -> 0 < sz <= 0xF0000000 ->
  exists r h' A', krealloc false reclaim p sz h = Some (r, h') /\ heap_inv h' A' /\ span A' = span A /\
    (need_of sz <= n -> r = p /\ h' = h) /\
    (r = 0 /\ A' = A /\ no_fit A (need_of sz) \/
     exists m others, r <> 0 /\ sz <= m /\ allocs A ≡ₚ (p, n) :: others /\ allocs A' ≡ₚ (r, m) :: others).
Proof.
  intros Hinv Hin Hsz. unfold allocs in Hin. apply list_elem_of_fmap in Hin as (x & [= -> ->] & Hx).
  apply live_spec in Hx as (Hx & Hu & Hs). pose proof (is_live_used x Hu Hs) as Hl.
  apply list_elem_of_split in Hx as (A1 & A2 & ->).
  destruct (krealloc_core reclaim h A1 x A2 sz Hinv Hl Hsz) as (r & h' & A' & Hrun & Hinv' & Hspan & Hsame & Hc).
  exists r, h', A'. split_and!; try done.
  destruct Hc as [(-> & -> & Hno) | (Hr & m & Hm & Hp)]; [by left|right].
  destruct (need_of_spec sz Hsz) as (_ & N2 & _).
  exists m, (allocs (A1 ++ A2)). split_and!; [done | lia | by apply allocs_middle | done].
Qed.

Lemma krealloc_spec_witness : exists r h' A',
  krealloc false (fun _ h => h) 0x100020 8000 demo_used = Some (r, h') /\ heap_inv h' A' /\
  span A' = span demo_used_blocks /\ (need_of 8000 <= 4096 -> r = 0x100020 /\ h' = demo_used) /\
  (r = 0 /\ A' = demo_used_blocks /\ no_fit demo_used_blocks (need_of 8000) \/
   exists m others, r <> 0 /\ 8000 <= m /\ allocs demo_used_blocks ≡ₚ (0x100020, 4096) :: others /\
     allocs A' ≡ₚ (r, m) :: others).
Proof.
  apply (krealloc_spec (fun _ h => h) demo_used demo_used_blocks 0x100020 4096 8000);
    [exact demo_used_inv | left | lia].
Defined.

(** C13: an allocation freed at once leaves the heap with the allocations, the
    bytes and the g_used it had before. *)
Theorem kmalloc_kfree reclaim h A sz r h1 : heap_inv h A -> 0 <= sz ->
  kmalloc false reclaim sz h = Some (r, h1) -> r <> 0 ->
  exists h2 A2, kfree r h1 = Some (tt, h2) /\ heap_inv h2 A2 /\
    allocs A2 ≡ₚ allocs A /\ span A2 = span A /\ g_used h2 = g_used h.
Proof.
  intros Hinv Hsz Hrun Hr.
  destruct (kmalloc_core false reclaim h A sz Hinv ltac:(done) Hsz) as
    (r' & h1' & A0 & A1 & Hrun' & Hinv1 & HA0 & Hc).
  rewrite Hrun in Hrun'. injection Hrun' as <- <-. specialize (HA0 eq_refl). subst A0.
  destruct Hc as [(-> & _)|(_ & Hs & _ & Hh)]; [done|].
  destruct (need_of_spec sz Hs) as (_ & _ & N3).
  destruct (handed_facts _ (need_of sz) _ _ (hi_good _ _ Hinv) ltac:(lia) Hh) as (_ & Hspan & n & _ & Hp & _).
  assert (Hin : (r, n) ∈ allocs A1) by (rewrite Hp; left).
  unfold allocs in Hin. apply list_elem_of_fmap in Hin as (x & Hx' & Hx).
  apply live_spec in Hx as (Hx & Hu & Hxs). pose proof (is_live_used x Hu Hxs) as Hl.
  injection Hx' as Hxr Hxn.
  apply list_elem_of_split in Hx as (B1 & B2 & ->).
  destruct (kfree_core h1 B1 x B2 Hinv1 Hl) as (h2 & A2 & Hrun2 & Hinv2 & _ & Hlive & Hspan2).
  exists h2, A2. rewrite Hxr. 
  assert (Hperm : allocs A2 ≡ₚ allocs A).
  { apply (Permutation_cons_inv (a := (r, n))). rewrite <- Hp, allocs_middle by done.
    unfold alloc_of. rewrite <- Hxr, <- Hxn. unfold allocs at 1. by rewrite Hlive, <- live_app. }
  split_and!; try done; [congruence|].
  by rewrite (hi_used _ _ Hinv2), (hi_used _ _ Hinv), !sizes_allocs, Hperm.
Qed.

Lemma kmalloc_kfree_witness : exists r h1, kmalloc false (fun _ h => h) 100 demo = Some (r, h1) /\
  exists h2 A2, kfree r h1 = Some (tt, h2) /\ heap_inv h2 A2 /\
    allocs A2 ≡ₚ allocs [demo_block] /\ span A2 = span [demo_block] /\ g_used h2 = g_used demo.
Proof.
  destruct (kmalloc false (fun _ h => h) 100 demo) as [[r h1]|] eqn:E; [|by vm_compute in E].
  exists r, h1. split; [done|].
  apply (kmalloc_kfree (fun _ h => h) demo [demo_block] 100 r h1); [exact demo_inv | lia | exact E |].
  intros ->. vm_compute in E. discriminate.
Defined.

(** good fit: kmalloc finds a block whenever some free block has room for
    the rounded size and a sixteenth of it more. *)
Theorem kmalloc_good_fit reclaim h A sz x : heap_inv h A -> 0 < sz <= 0xF0000000 ->
  x ∈ A -> a_used x = false -> need_of sz + need_of sz / 16 <= a_size x ->
  exists r h', kmalloc false reclaim sz h = Some (r, h') /\ r <> 0.
Proof.
  intros Hinv Hs Hx Hu Hroom. destruct (need_of_spec sz Hs) as (_ & N2 & N3).
  destruct (kmalloc_core false reclaim h A sz Hinv ltac:(done) ltac:(lia)) as
    (r & h' & A0 & A' & Hrun & _ & HA0 & Hc). specialize (HA0 eq_refl). subst A0.
  exists r, h'. split; [done|]. destruct Hc as [(_ & _ & [?|[?|Hno]])|(Hr & _)]; [lia|lia| |done].
  exfalso. specialize (Hno x Hx Hu). revert Hno. unfold fit.
  destruct (need_of sz <? 256) eqn:E; zbool; [lia|].
  assert (8 <= Z.log2 (need_of sz)) by (apply Z.log2_le_pow2; lia).
  destruct (Z.log2_spec (need_of sz)) as [Hl _]; [lia|].
  assert (2 ^ (Z.log2 (need_of sz) - 4) <= need_of sz / 16); [|lia].
  apply Z.div_le_lower_bound; [lia|]. change 16 with (2 ^ 4). rewrite <- Z.pow_add_r by lia.
  by replace (4 + (Z.log2 (need_of sz) - 4)) with (Z.log2 (need_of sz)) by lia.
Qed.

Lemma kmalloc_good_fit_witness : exists r h', kmalloc false (fun _ h => h) 60000 demo = Some (r, h') /\ r <> 0.
Proof.
  apply (kmalloc_good_fit (fun _ h => h) demo [demo_block] 60000 demo_block);
    [exact demo_inv | lia | left | reflexivity | vm_compute; discriminate].
Defined.

(** ** Start-up and regions *)

(** C14: kheap_init, wherever the kernel image ends (1 MiB to 4 GiB). With boot information that is as Multiboot2 has it (or none),
    the walk over it ends and picks the largest usable piece of RAM between 1 MiB and 3.5 GiB that is clear of the image and of the
    information, and the heap is one free block. With a region of 1 MiB or more that heap is well-formed, fills the region up to
    rounding, and keeps clear of the kernel image and of the boot information. Without one it is the memory from the image's end to
    16 MiB, well-formed if the image ends before that; for a larger image the size wraps: the block goes on past the end of the 4 GiB,
    and is no well-formed heap at all. *)
Theorem kheap_init_spec rd32 rd64 kernel_end mb2 : mb2 = 0 \/ boot_info rd32 mb2 -> 0x100000 <= kernel_end <= 0xFFFFF000 ->
  exists r h x, pick_region rd32 rd64 kernel_end (Z.to_nat (rd32 mb2)) mb2 = Some r /\ picked rd32 rd64 kernel_end mb2 r /\
    kheap_init rd32 rd64 kernel_end (Z.to_nat (rd32 mb2)) mb2 = Some h /\ one_block h x /\
    match big r with
    | Some (lo, hi) =>
      heap_inv h [x] /\ lo <= a_addr x < lo + 4096 /\ hi - 16 < a_end x <= hi /\
      avoids (a_addr x) (a_end x) (0x100000, kernel_end) /\ avoids (a_addr x) (a_end x) (mb2, mb2 + rd32 mb2)
    | None =>
      kernel_end <= a_addr x < kernel_end + 4096 /\
      if kernel_end <=? 0xFFF000 then heap_inv h [x] /\ a_end x = 0x1000000
      else a_end x = 2 ^ 32 + 0x1000000 /\ forall A, ~ heap_inv h A
    end.
Proof.
  intros B Hk. destruct (pick_region_total rd32 rd64 kernel_end mb2 B) as (r & Hp & Hr). exists r.
  destruct (big r) as [[lo hi]|] eqn:Eb.
  - destruct r as [[l1 h1]|]; cbn in Eb; [|done]. destruct (0x100000 <=? h1 - l1) eqn:E; [|done]. injection Eb as -> ->. zbool. destruct Hr as (U & Hr).
    pose proof (us_lo _ _ _ U) as U1. pose proof (us_hi _ _ _ U) as U2. unfold HEAP_MIN_ADDR, HEAP_MAX_ADDR in *. destruct (align_up_4096 lo ltac:(lia)) as [A1 A2].
    destruct (init_good rd32 rd64 kernel_end mb2 _ _ (align_up lo 4096) hi Hp) as (h & x & Hrun & Hone & Hinv & E1 & E2); [|lia..|].
    { unfold init_bounds. change (Z.shiftl 1 20) with 0x100000. rewrite (proj2 (Z.leb_le _ _) E). by rewrite !u32_small by (unfold is_u32; lia). }
    exists h, x. do 4 (split; [done|]). split; [done|]. split; [lia|]. split; [lia|]. apply (excluded_clear rd32 rd64 kernel_end mb2 lo hi); [exact U|lia..].
  - assert (Hib : init_bounds kernel_end r = (align_up kernel_end 4096, 0x1000000)).
    { unfold init_bounds. rewrite (u32_small kernel_end) by (unfold is_u32; lia). change (Z.shiftl 1 20) with 0x100000. destruct r as [[lo hi]|]; [|done]. cbn in Eb. by destruct (_ <=? _). }
    destruct (align_up_4096 kernel_end ltac:(lia)) as [A1 A2]. destruct (kernel_end <=? 0xFFF000) eqn:E; zbool.
    + destruct (init_good rd32 rd64 kernel_end mb2 _ _ _ _ Hp Hib) as (h & x & Hrun & Hone & Hinv & E1 & E2); [lia..|].
      exists h, x. do 4 (split; [done|]). split; [lia|]. split; [done|lia].
    + destruct (init_wrapped (align_up kernel_end 4096)) as (h & Hrun & Hsb & He & Hno); [lia..|].
      exists h, (ABlk (align_up kernel_end 4096) (u32 (0x1000000 - align_up kernel_end 4096 - HDR)) false). do 2 (split; [done|]).
      split. { rewrite (kheap_init_run _ _ _ _ _ _ _ _ Hp Hib) by (unfold is_u32; lia). change (0x1000000 / 16 * 16) with 0x1000000. by rewrite Hrun. }
      split. { destruct Hsb as [B1 B2 B3 _]. unfold one_block. by rewrite B1, B2, B3. }
      split; [cbn; lia|]. by split.
Qed.

(** a boot information block with one 128 MiB entry in its memory map *)
Definition demo_rd32 (a : Z) : Z :=
  match a with
  | 0x9000 => 64 | 0x9008 => 6 | 0x900C => 40 | 0x9010 => 24 | 0x9028 => 1 | _ => 0
  end.
Definition demo_rd64 (a : Z) : Z :=
  match a with 0x9018 => 0x100000 | 0x9020 => 0x8000000 | _ => 0 end.

Lemma demo_tags off : tag_at demo_rd32 0x9000 off -> off = 8 \/ off = 48.
Proof.
  intros H. inversion H as [|? ? _ _ H1]; subst; [by left|]. right. change (8 + tag_step demo_rd32 0x9000 8) with 48 in H1.
  inversion H1 as [|? ? _ Hne _]; subst; [done|]. by destruct Hne.
Qed.

Lemma demo_boot_info : boot_info demo_rd32 0x9000.
Proof.
  split; [done|split; done| |]; intros off [->| ->]%demo_tags _ H; try (split; vm_compute; discriminate || reflexivity); try done.
Qed.

(** an image of 99 MiB: with the map the heap is what is left of its 128 MiB; without boot information it is nonsense *)
Lemma kheap_init_spec_witness :
  (exists h x, kheap_init demo_rd32 demo_rd64 0x6400000 64 0x9000 = Some h /\ heap_inv h [x] /\ 0x6400000 <= a_addr x /\ a_end x <= 0x8100000) /\
  (exists h x, kheap_init (fun _ => 0) (fun _ => 0) 0x6400000 0 0 = Some h /\ g_total h = a_size x /\ a_end x = 2 ^ 32 + 0x1000000 /\ ~ heap_inv h [x]).
Proof.
  split.
  - destruct (kheap_init_spec demo_rd32 demo_rd64 0x6400000 0x9000) as (r & h & x & Hp & _ & Hrun & _ & H); [right; exact demo_boot_info|lia|].
    assert (Hr : Some r = Some (Some (0x6400000, 0x8100000))) by (rewrite <- Hp; vm_compute; reflexivity). injection Hr as ->.
    destruct H as (Hinv & Ha & He & _). exists h, x. split; [exact Hrun|]. split; [exact Hinv|]. lia.
  - destruct (kheap_init_spec (fun _ => 0) (fun _ => 0) 0x6400000 0) as (r & h & x & Hp & _ & Hrun & Hone & H); [left; reflexivity|lia|].
    injection Hp as <-. destruct H as (_ & He & Hno). exists h, x. split; [exact Hrun|]. destruct Hone as (_ & _ & Ht & _). split; [exact Ht|]. split; [exact He|]. apply Hno.
Defined.

(** for any list of excluded ranges, consider with a recursion depth of
    their number ends, and leaves the best region found: usable and clear of
    the excluded ranges unless it was the best before, and at least as large as
    every usable piece of the range considered. *)
Theorem consider_best fuel xs lo hi best : (length xs <= fuel)%nat ->
  exists best', consider fuel xs lo hi best = Some best' /\
    (best' = best \/ usable xs best'.1 best'.2 /\ lo <= best'.1 /\ best'.2 <= hi) /\
    best.2 - best.1 <= best'.2 - best'.1 /\
    forall a b, usable xs a b -> lo <= a -> b <= hi -> b - a <= best'.2 - best'.1.
Proof.
  intros Hf. destruct (consider_total fuel xs lo hi best) as [best' Hb].
  { etrans; [|exact Hf]. apply length_filter. }
  exists best'. split; [done|]. destruct (consider_spec _ _ _ _ _ _ Hb) as (? & ? & ?). done.
Qed.

Lemma consider_best_witness : exists best',
  consider 2 [(0x100000, 0x400000); (0x9000, 0x9040)] 0 0x8000000 (0, 0) = Some best' /\
  (best' = (0, 0) \/ usable [(0x100000, 0x400000); (0x9000, 0x9040)] best'.1 best'.2 /\
     0 <= best'.1 /\ best'.2 <= 0x8000000) /\
  (0, 0).2 - (0, 0).1 <= best'.2 - best'.1 /\
  forall a b, usable [(0x100000, 0x400000); (0x9000, 0x9040)] a b -> 0 <= a -> b <= 0x8000000 ->
    b - a <= best'.2 - best'.1.
Proof.
  apply (consider_best 2 [(0x100000, 0x400000); (0x9000, 0x9040)] 0 0x8000000 (0, 0)). cbn. lia.
Defined.

(** kheap_add_region of memory clear of the heap appends one free block
    between two markers that are never merged with their neighbours, and adds
    its size to g_total; a region too small or too large changes nothing. *)
Theorem kheap_add_region_spec h A lo hi : heap_inv h A -> A <> [] -> 0 < lo -> lo <= hi <= 2 ^ 32 ->
  (forall x, x ∈ A -> a_end x <= lo \/ hi <= a_addr x) ->
  exists h', kheap_add_region lo hi h = Some (tt, h') /\
    (region_fits lo hi -> heap_inv h' (A ++ region (region_lo lo) (region_hi hi)) /\
       g_total h' = u32 (g_total h + (region_hi hi - region_lo lo - 3 * HDR))) /\
    (~ region_fits lo hi -> h' = h).
Proof. apply kheap_add_region_core. Qed.

Lemma kheap_add_region_spec_witness : exists h', kheap_add_region 0x10001 0x20000 demo = Some (tt, h') /\
  (region_fits 0x10001 0x20000 ->
     heap_inv h' ([demo_block] ++ region (region_lo 0x10001) (region_hi 0x20000)) /\
     g_total h' = u32 (g_total demo + (region_hi 0x20000 - region_lo 0x10001 - 3 * HDR))) /\
  (~ region_fits 0x10001 0x20000 -> h' = demo).
Proof.
  apply (kheap_add_region_spec demo [demo_block] 0x10001 0x20000); [exact demo_inv | discriminate | lia | lia |].
  intros x ->%list_elem_of_singleton. unfold a_end, demo_block, HDR. cbn. lia.
Defined.

(** ** The self-check and two flaws *)

(** C15: kheap_check finds nothing wrong exactly where the memory is well kept: the blocks are linked both ways from the head, in
    address order, each marked free or allocated, no two free ones side by side; the bins hold every free block once, in the bin of its
    size, and nothing else; and the bits say which bins are empty. Then it has changed nothing, and every well-formed heap in address
    order is such memory. (It does not look at the backward links of the bins, nor at the counters.) *)
Theorem kheap_check_spec h :
  (forall h', kheap_check h = Some (0, h') <-> h' = h /\ exists A bins, well_kept h A bins) /\
  (forall A, heap_inv h A -> linked ascending A -> exists bins, well_kept h A bins).
Proof.
  split.
  - intros h'. split; [apply kheap_check_found|]. intros (-> & A & bins & W). exact (kheap_check_passes W).
  - intros A [[bins C] G _] Ha. exists bins. apply core_kept; [done|done|apply G].
Qed.

(** a heap with an allocation passes; with its bins emptied it does not *)
Lemma kheap_check_spec_witness : kheap_check demo_used = Some (0, demo_used) /\
  ~ exists A bins, well_kept (demo_used <| g_bin := ∅ |>) A bins.
Proof.
  split.
  - apply (kheap_check_spec demo_used). split; [reflexivity|]. destruct (proj2 (kheap_check_spec demo_used) demo_used_blocks demo_used_inv) as [bins W]; [vm_compute; done|].
    exists demo_used_blocks, bins. exact W.
  - intros H. pose proof (proj2 (proj1 (kheap_check_spec (demo_used <| g_bin := ∅ |>)) _) (conj eq_refl H)) as E. vm_compute in E. discriminate E.
Defined.

(** kheap_add_region of memory below the heap - as the built-in packages
    in the kernel image are - leaves a heap that is well formed and that
    kheap_check nevertheless reports as corrupt. *)
Theorem kheap_check_low_region : exists bad, kheap_add_region 0x10000 0x20000 demo = Some (tt, demo_low) /\
  heap_inv demo_low ([demo_block] ++ region 0x10000 0x20000) /\
  kheap_check demo_low = Some (bad, demo_low) /\ 0 < bad.
Proof.
  destruct (kheap_add_region_core demo [demo_block] 0x10000 0x20000 demo_inv) as (h' & Hrun & Hok & _);
    [done | lia | lia | intros x ->%list_elem_of_singleton; unfold a_end, demo_block, HDR; cbn; lia |].
  assert (Hd : demo_low = h') by (unfold demo_low; by rewrite Hrun).
  exists 1. split_and!; [by rewrite Hd | rewrite Hd; apply Hok | | lia].
  - unfold region_fits. vm_compute. split; discriminate.
  - vm_compute. reflexivity.
Qed.

(** C16: krealloc keeps only the low 32 bits of the size: of any allocation it
    reports success for more than 4 GiB without growing it. *)
Theorem krealloc_truncates rc reclaim h A p n : heap_inv h A -> (p, n) ∈ allocs A ->
  exists sz, 2 ^ 32 < sz /\ n < sz /\ krealloc rc reclaim p sz h = Some (p, h).
Proof.
  intros [[bins C] G _] Hin. unfold allocs in Hin. apply list_elem_of_fmap in Hin as (x & [= -> ->] & Hx).
  apply live_spec in Hx as (Hx & Hu & Hs).
  destruct (good_each _ x G Hx) as [P1 P2 P3 P4 P5 P6].
  unfold a_end, HDR in P6. exists (2 ^ 32 + 16). split_and!; [lia | lia |].
  unfold krealloc. destruct (a_addr x + HDR =? 0) eqn:E1; [zbool; unfold HDR in *; lia|].
  change (2 ^ 32 + 16 =? 0) with false. cbv iota.
  st_step (hdr_of_live _ _ _ _ x C Hx Hu). destruct (a_addr x =? 0) eqn:E2; [zbool; lia|].
  destruct (core_load C x Hx) as (b & Hload & _ & Hbs & _). st_step Hload. rewrite Hbs.
  change (align_up (u32 (2 ^ 32 + 16)) ALIGN) with 16.
  destruct (16 <=? a_size x) eqn:E3; [done|zbool; lia].
Qed.

Lemma krealloc_truncates_witness : exists sz, 2 ^ 32 < sz /\ 4096 < sz /\
  krealloc false (fun _ h => h) 0x100020 sz demo_used = Some (0x100020, demo_used).
Proof.
  apply (krealloc_truncates false (fun _ h => h) demo_used demo_used_blocks 0x100020 4096);
    [exact demo_used_inv | left].
Defined.
