(* ===== verification/Utf8.v ===== *)
(** UTF-8 text (src/kernel/utf8.h): stepping over, measuring, decoding and
    encoding characters, and the conversions to and from UTF-16. A string is
    its bytes as integers 0..255; reads past the end give 0. *)

From S2P Require Import Prelude.

Definition u8_cont (c : Z) : bool := Z.land c 0xC0 =? 0x80.

Definition u8_cols (s : list Z) (n : Z) : Z :=
  foldl (fun c i => if u8_cont (aget s i) then c else c + 1) 0 (seqZ 0 n).

(** [while (i < len && u8_cont(s[i])) i++;] *)
Fixpoint skip_cont (fuel : nat) (s : list Z) (len i : Z) : Z :=
  match fuel with
  | O => i
  | S fuel => if (i <? len) && u8_cont (aget s i) then skip_cont fuel s len (i + 1) else i
  end.

Definition u8_next (s : list Z) (len i : Z) : Z :=
  if len <=? i then len else skip_cont (Z.to_nat len) s len (i + 1).

Fixpoint u8_byte_at_from (fuel : nat) (s : list Z) (len i col : Z) : Z :=
  match fuel with
  | O => i
  | S fuel =>
    if (i <? len) && (0 <? col)
    then u8_byte_at_from fuel s len (skip_cont (Z.to_nat len) s len (i + 1)) (col - 1)
    else i
  end.
Definition u8_byte_at (s : list Z) (len col : Z) : Z := u8_byte_at_from (Z.to_nat len) s len 0 col.

(** [while (i > 0 && u8_cont(s[i])) i--;] *)
Fixpoint back_cont (fuel : nat) (s : list Z) (i : Z) : Z :=
  match fuel with
  | O => i
  | S fuel => if (0 <? i) && u8_cont (aget s i) then back_cont fuel s (i - 1) else i
  end.

Definition u8_prev (s : list Z) (i : Z) : Z :=
  if i <=? 0 then 0 else back_cont (Z.to_nat i) s (i - 1).

(** ** Display width *)

Definition u8_range_t : Type := (Z * Z)%type.

Definition U8_WIDE : list u8_range_t :=
  [ (0x1100, 0x115F); (0x231A, 0x231B); (0x2329, 0x232A); (0x23E9, 0x23EC); (0x23F0, 0x23F0);
    (0x23F3, 0x23F3); (0x25FD, 0x25FE); (0x2614, 0x2615); (0x2648, 0x2653); (0x267F, 0x267F);
    (0x2693, 0x2693); (0x26A1, 0x26A1); (0x26AA, 0x26AB); (0x26BD, 0x26BE); (0x26C4, 0x26C5);
    (0x26CE, 0x26CE); (0x26D4, 0x26D4); (0x26EA, 0x26EA); (0x26F2, 0x26F3); (0x26F5, 0x26F5);
    (0x26FA, 0x26FA); (0x26FD, 0x26FD); (0x2705, 0x2705); (0x270A, 0x270B); (0x2728, 0x2728);
    (0x274C, 0x274C); (0x274E, 0x274E); (0x2753, 0x2755); (0x2757, 0x2757); (0x2795, 0x2797);
    (0x27B0, 0x27B0); (0x27BF, 0x27BF); (0x2B1B, 0x2B1C); (0x2B50, 0x2B50); (0x2B55, 0x2B55);
    (0x2E80, 0x303E); (0x3041, 0x33FF); (0x3400, 0x4DBF); (0x4E00, 0x9FFF); (0xA000, 0xA4CF);
    (0xA960, 0xA97F); (0xAC00, 0xD7A3); (0xF900, 0xFAFF); (0xFE10, 0xFE19); (0xFE30, 0xFE6F);
    (0xFF00, 0xFF60); (0xFFE0, 0xFFE6); (0x16FE0, 0x16FE4); (0x17000, 0x18CFF); (0x1AFF0, 0x1B2FF);
    (0x1F004, 0x1F004); (0x1F0CF, 0x1F0CF); (0x1F18E, 0x1F18E); (0x1F191, 0x1F19A);
    (0x1F200, 0x1F202); (0x1F210, 0x1F23B); (0x1F240, 0x1F248); (0x1F250, 0x1F251);
    (0x1F260, 0x1F265); (0x1F300, 0x1F320); (0x1F32D, 0x1F335); (0x1F337, 0x1F37C);
    (0x1F37E, 0x1F393); (0x1F3A0, 0x1F3CA); (0x1F3CF, 0x1F3D3); (0x1F3E0, 0x1F3F0);
    (0x1F3F4, 0x1F3F4); (0x1F3F8, 0x1F43E); (0x1F440, 0x1F440); (0x1F442, 0x1F4FC);
    (0x1F4FF, 0x1F53D); (0x1F54B, 0x1F54E); (0x1F550, 0x1F567); (0x1F57A, 0x1F57A);
    (0x1F595, 0x1F596); (0x1F5A4, 0x1F5A4); (0x1F5FB, 0x1F64F); (0x1F680, 0x1F6C5);
    (0x1F6CC, 0x1F6CC); (0x1F6D0, 0x1F6D2); (0x1F6D5, 0x1F6D7); (0x1F6DC, 0x1F6DF);
    (0x1F6EB, 0x1F6EC); (0x1F6F4, 0x1F6FC); (0x1F7E0, 0x1F7EB); (0x1F7F0, 0x1F7F0);
    (0x1F90C, 0x1F93A); (0x1F93C, 0x1F945); (0x1F947, 0x1F9FF); (0x1FA70, 0x1FAFF);
    (0x20000, 0x2FFFD); (0x30000, 0x3FFFD) ].
Definition U8_ZERO : list u8_range_t :=
  [ (0x0300, 0x036F); (0x0483, 0x0489); (0x200B, 0x200F); (0x2060, 0x2064); (0x20D0, 0x20FF);
    (0xFE00, 0xFE0F); (0xFE20, 0xFE2F); (0xFEFF, 0xFEFF); (0xE0000, 0xE0FFF) ].

(** the binary search: [None] when the fuel runs out *)
Fixpoint u8_search (fuel : nat) (r : list u8_range_t) (lo hi cp : Z) : option bool :=
  if lo <=? hi then
    match fuel with
    | O => None
    | S fuel =>
      let m := (lo + hi) / 2 in
      if (aget r m).2 <? cp then u8_search fuel r (m + 1) hi cp
      else if cp <? (aget r m).1 then u8_search fuel r lo (m - 1) cp
      else Some true
    end
  else Some false.

Definition u8_in (r : list u8_range_t) (n cp : Z) : bool :=
  if (cp <? (aget r 0).1) || ((aget r (n - 1)).2 <? cp) then false
  else default false (u8_search (Z.to_nat n) r 0 (n - 1) cp).

Definition u8_wcwidth (cp : Z) : Z :=
  if cp <? 0x300 then 1
  else if u8_in U8_WIDE (zlen U8_WIDE) cp then 2
  else if u8_in U8_ZERO (zlen U8_ZERO) cp then 0
  else 1.

(** ** Decoding and encoding *)

(** the loop over the continuation bytes: the character, or 0xFFFD *)
Fixpoint u8_more (need : nat) (s : list Z) (len i cp : Z) : Z * Z :=
  match need with
  | O => (cp, i)
  | S need =>
    if (len <=? i) || negb (u8_cont (aget s i)) then (0xFFFD, i)
    else u8_more need s len (i + 1) (u32 (Z.lor (Z.shiftl cp 6) (Z.land (aget s i) 0x3F)))
  end.

(** the character at byte [i] and the byte after it *)
Definition u8_decode (s : list Z) (len i : Z) : Z * Z :=
  let b := aget s i in
  if b <? 0x80 then (b, i + 1) else
  let need := if 0xF0 <=? b then 3 else if 0xE0 <=? b then 2 else if 0xC0 <=? b then 1 else 0 in
  if need =? 0 then (0xFFFD, i + 1)
  else u8_more (Z.to_nat need) s len (i + 1) (Z.land b (Z.shiftr 0x3F need)).

Definition u8_encode (cp : Z) : list Z :=
  let trail x := u8 (Z.lor 0x80 (Z.land x 0x3F)) in
  if cp <? 0x80 then [cp]
  else if cp <? 0x800 then [u8 (Z.lor 0xC0 (Z.shiftr cp 6)); trail cp]
  else if cp <? 0x10000 then [u8 (Z.lor 0xE0 (Z.shiftr cp 12)); trail (Z.shiftr cp 6); trail cp]
  else [u8 (Z.lor 0xF0 (Z.shiftr cp 18)); trail (Z.shiftr cp 12); trail (Z.shiftr cp 6); trail cp].

(** one step of u8_width and u8_byte_at_col: the width and the next byte *)
Definition u8_step (s : list Z) (len i : Z) : Z * Z :=
  if aget s i <? 0x80 then (1, i + 1)
  else let '(cp, j) := u8_decode s len i in (u8_wcwidth cp, j).

Fixpoint u8_width_from (fuel : nat) (s : list Z) (n i c : Z) : Z :=
  match fuel with
  | O => c
  | S fuel =>
    if i <? n then let '(w, j) := u8_step s n i in u8_width_from fuel s n j (c + w) else c
  end.
Definition u8_width (s : list Z) (n : Z) : Z := u8_width_from (Z.to_nat n) s n 0 0.

Fixpoint u8_byte_at_col_from (fuel : nat) (s : list Z) (len col i c : Z) : Z :=
  match fuel with
  | O => i
  | S fuel =>
    if i <? len then
      let '(w, j) := u8_step s len i in
      if col <? c + w then i else u8_byte_at_col_from fuel s len col j (c + w)
    else i
  end.
Definition u8_byte_at_col (s : list Z) (len col : Z) : Z :=
  u8_byte_at_col_from (Z.to_nat len) s len col 0 0.

(** ** UTF-16 *)

(** the units of one character *)
Definition utf16_units (cp : Z) : list Z :=
  if (0x10000 <=? cp) && (cp <=? 0x10FFFF) then
    let cp := cp - 0x10000 in
    [u16 (Z.lor 0xD800 (Z.shiftr cp 10)); u16 (Z.lor 0xDC00 (Z.land cp 0x3FF))]
  else [u16 (if 0xFFFF <? cp then 0xFFFD else cp)].

(** [None] for -1: they do not fit in [cap] *)
Fixpoint u8_to_utf16_from (fuel : nat) (s : list Z) (len i cap : Z) (out : list Z) : option (list Z) :=
  match fuel with
  | O => Some out
  | S fuel =>
    if i <? len then
      let '(cp, j) := u8_decode s len i in
      if cap <? zlen out + zlen (utf16_units cp) then None
      else u8_to_utf16_from fuel s len j cap (out ++ utf16_units cp)
    else Some out
  end.
Definition u8_to_utf16 (s : list Z) (len cap : Z) : option (list Z) :=
  u8_to_utf16_from (Z.to_nat len) s len 0 cap [].

Definition is_hi (u : Z) : bool := (0xD800 <=? u) && (u <=? 0xDBFF).
Definition is_lo (u : Z) : bool := (0xDC00 <=? u) && (u <=? 0xDFFF).

(** the character at the front of the units, and how many it took *)
Definition utf16_char (us : list Z) : option (Z * nat) :=
  match us with
  | [] => None
  | u :: us' =>
    match us' with
    | v :: _ => if is_hi u && is_lo v
                then Some (0x10000 + Z.shiftl (u - 0xD800) 10 + (v - 0xDC00), 2%nat)
                else Some (if (0xD800 <=? u) && (u <=? 0xDFFF) then 0xFFFD else u, 1%nat)
    | [] => Some (if (0xD800 <=? u) && (u <=? 0xDFFF) then 0xFFFD else u, 1%nat)
    end
  end.

(** the bytes written before the final NUL *)
Fixpoint u8_from_utf16_from (fuel : nat) (us : list Z) (cap : Z) (out : list Z) : list Z :=
  match fuel with
  | O => out
  | S fuel =>
    match utf16_char us with
    | None => out
    | Some (cp, k) =>
      let u := u8_encode cp in
      if cap <? zlen out + zlen u + 1 then out
      else u8_from_utf16_from fuel (drop k us) cap (out ++ u)
    end
  end.
Definition u8_from_utf16 (us : list Z) (cap : Z) : list Z :=
  u8_from_utf16_from (length us) us cap [].

(** ** Strings in place: [s] up to its NUL *)

Definition u8_truncate (s : list Z) (cap : Z) : list Z :=
  let n := zlen s in
  if n <? cap then s
  else take (Z.to_nat (back_cont (Z.to_nat cap) s (cap - 1))) s.

Definition u8_backspace (s : list Z) : list Z :=
  take (Z.to_nat (u8_prev s (zlen s))) s.
