(* ===== verification/Utf8Props.v ===== *)
(** The properties of the UTF-8 routines: encoding and decoding are inverse,
    stepping crosses whole characters, the width tables are searched right, and
    UTF-16 round trips. *)

From S2P Require Import Prelude Utf8.

(** ** Bytes *)

Lemma u8_cont_spec b : 0 <= b < 256 -> u8_cont b = (128 <=? b) && (b <? 192).
Proof.
  intros Hb. apply eqb_prop.
  exact (forall_byte (fun b => eqb (u8_cont b) ((128 <=? b) && (b <? 192))) eq_refl b Hb).
Qed.

Lemma trail_spec x : 0 <= x -> u8 (Z.lor 0x80 (Z.land x 0x3F)) = 128 + x mod 64.
Proof.
  intros Hx. change 0x3F with (Z.ones 6). rewrite Z.land_ones by lia. change (2 ^ 6) with 64.
  rewrite (lor_low 6) by (lia || done). unfold u8. apply Z.mod_small. lia.
Qed.

Lemma lead_spec k y x : 0 <= k <= 8 -> 0 <= y -> y mod 2 ^ k = 0 -> y + 2 ^ k <= 256 -> 0 <= x < 2 ^ k ->
  u8 (Z.lor y x) = y + x.
Proof.
  intros Hk H0 Hy Hy2 Hx. rewrite (lor_low k) by lia. unfold u8. apply Z.mod_small. lia.
Qed.

(** the bytes of a character, in arithmetic *)
Lemma u8_encode_spec cp : 0 <= cp < 0x200000 -> u8_encode cp =
  if cp <? 0x80 then [cp]
  else if cp <? 0x800 then [192 + cp / 64; 128 + cp mod 64]
  else if cp <? 0x10000 then [224 + cp / 4096; 128 + (cp / 64) mod 64; 128 + cp mod 64]
  else [240 + cp / 262144; 128 + (cp / 4096) mod 64; 128 + (cp / 64) mod 64; 128 + cp mod 64].
Proof.
  intros Hcp. unfold u8_encode. rewrite !Z.shiftr_div_pow2 by lia. change (2 ^ 6) with 64.
  change (2 ^ 12) with 4096. change (2 ^ 18) with 262144.
  rewrite !trail_spec by lia.
  destruct (cp <? 0x80) eqn:E1; [done|]. destruct (cp <? 0x800) eqn:E2; zbool.
  { by rewrite (lead_spec 5) by (lia || done). }
  destruct (cp <? 0x10000) eqn:E3; zbool.
  { by rewrite (lead_spec 4) by (lia || done). }
  by rewrite (lead_spec 3) by (lia || done).
Qed.

(** ** Decoding *)

Lemma aget_app_r {A} `{Inhabited A} (l k : list A) i : 0 <= i -> aget (l ++ k) (zlen l + i) = aget k i.
Proof.
  intros Hi. unfold aget, zlen. rewrite list_lookup_total_alt, (list_lookup_total_alt k).
  rewrite lookup_app_r by lia. do 2 f_equal. lia.
Qed.

Lemma u8_more_step need s len i cp b : i < len -> aget s i = b -> 128 <= b < 192 ->
  0 <= cp < 2 ^ 26 ->
  u8_more (S need) s len i cp = u8_more need s len (i + 1) (cp * 64 + (b - 128)).
Proof.
  intros Hi Hb Hr Hcp. cbn [u8_more]. rewrite Hb, u8_cont_spec by lia.
  assert (Hc : (128 <=? b) && (b <? 192) = true) by (apply andb_true_iff; split; [apply Z.leb_le|apply Z.ltb_lt]; lia).
  rewrite Hc. destruct (len <=? i) eqn:E; [zbool; lia|]. cbn [orb negb]. f_equal.
  rewrite Z.shiftl_mul_pow2 by lia. change 0x3F with (Z.ones 6). rewrite Z.land_ones by lia.
  change (2 ^ 6) with 64. assert (Hm : b mod 64 = b - 128) by lia. rewrite Hm.
  rewrite (lor_low 6) by (change (2 ^ 6) with 64; lia). apply u32_small. unfold is_u32. lia.
Qed.

(** a lead byte and the number of bytes it asks for *)
Lemma u8_decode_lead s len i b n : 192 <= b < 248 -> aget s i = b ->
  n = (if 0xF0 <=? b then 3 else if 0xE0 <=? b then 2 else 1) ->
  u8_decode s len i = u8_more (Z.to_nat n) s len (i + 1) (b mod 2 ^ (6 - n)).
Proof.
  intros Hb Hs ->. unfold u8_decode. rewrite Hs. destruct (b <? 0x80) eqn:Eb; [zbool; lia|].
  destruct (0xF0 <=? b) eqn:Ef; [|destruct (0xE0 <=? b) eqn:Ee; [|destruct (0xC0 <=? b) eqn:Ec; [|zbool; lia]]];
    cbn [Z.eqb]; f_equal.
  - change (Z.shiftr 0x3F 3) with (Z.ones 3). by rewrite Z.land_ones.
  - change (Z.shiftr 0x3F 2) with (Z.ones 4). by rewrite Z.land_ones.
  - change (Z.shiftr 0x3F 1) with (Z.ones 5). by rewrite Z.land_ones.
Qed.

Lemma u8_decode_encode_at pre cp post len : 0 <= cp < 0x200000 ->
  zlen pre + zlen (u8_encode cp) <= len ->
  u8_decode (pre ++ u8_encode cp ++ post) len (zlen pre) = (cp, zlen pre + zlen (u8_encode cp)).
Proof.
  intros Hcp Hlen. set (s := pre ++ u8_encode cp ++ post).
  assert (Hat : forall k, 0 <= k -> aget s (zlen pre + k) = aget (u8_encode cp ++ post) k)
    by (intros; by apply aget_app_r).
  assert (H0 : aget s (zlen pre) = aget (u8_encode cp ++ post) 0) by (rewrite <- Hat by done; f_equal; lia).
  rewrite u8_encode_spec in * by done.
  destruct (cp <? 0x80) eqn:E1.
  { unfold u8_decode. rewrite H0. cbn [app]. change (aget (cp :: post) 0) with cp. by rewrite E1. }
  destruct (cp <? 0x800) eqn:E2; [|destruct (cp <? 0x10000) eqn:E3]; zbool;
    rewrite !zlen_cons, zlen_nil in *; cbn [app] in H0, Hat.
  - rewrite (u8_decode_lead s len (zlen pre) (192 + cp / 64) 1 ltac:(lia) H0).
    2:{ destruct (_ <=? _) eqn:E; zbool; [lia|]. destruct (224 <=? _) eqn:E'; zbool; [lia|done]. }
    change (Z.to_nat 1) with 1%nat.
    rewrite (u8_more_step _ _ _ _ _ (128 + cp mod 64)); [|lia|rewrite Hat by lia; done|lia|change (2 ^ (6 - 1)) with 32; lia].
    cbn [u8_more]. change (2 ^ (6 - 1)) with 32. f_equal; lia.
  - rewrite (u8_decode_lead s len (zlen pre) (224 + cp / 4096) 2 ltac:(lia) H0).
    2:{ destruct (_ <=? _) eqn:E; zbool; [lia|]. destruct (224 <=? _) eqn:E'; zbool; [done|lia]. }
    change (Z.to_nat 2) with 2%nat. change (2 ^ (6 - 2)) with 16.
    rewrite (u8_more_step _ _ _ _ _ (128 + (cp / 64) mod 64)); [|lia|rewrite Hat by lia; done|lia|lia].
    rewrite (u8_more_step _ _ _ _ _ (128 + cp mod 64));
      [|lia|rewrite <- Z.add_assoc, Hat by lia; done|lia|lia].
    cbn [u8_more]. f_equal; lia.
  - rewrite (u8_decode_lead s len (zlen pre) (240 + cp / 262144) 3 ltac:(lia) H0).
    2:{ destruct (_ <=? _) eqn:E; zbool; [done|lia]. }
    change (Z.to_nat 3) with 3%nat. change (2 ^ (6 - 3)) with 8.
    rewrite (u8_more_step _ _ _ _ _ (128 + (cp / 4096) mod 64)); [|lia|rewrite Hat by lia; done|lia|lia].
    rewrite (u8_more_step _ _ _ _ _ (128 + (cp / 64) mod 64));
      [|lia|rewrite <- Z.add_assoc, Hat by lia; done|lia|lia].
    rewrite (u8_more_step _ _ _ _ _ (128 + cp mod 64));
      [|lia|rewrite <- !Z.add_assoc, Hat by lia; done|lia|lia].
    cbn [u8_more]. f_equal; lia.
Qed.

(** ** Stepping *)

Lemma u8_encode_shape cp : 0 <= cp < 0x200000 -> exists b ts, u8_encode cp = b :: ts /\
  0 <= b < 256 /\ u8_cont b = false /\ Forall (fun t => u8_cont t = true) ts.
Proof.
  intros Hcp. rewrite u8_encode_spec by done.
  assert (Hlead : forall b, 0 <= b < 128 \/ 192 <= b < 256 -> 0 <= b < 256 /\ u8_cont b = false).
  { intros b Hb. split; [lia|]. rewrite u8_cont_spec by lia.
    destruct (128 <=? b) eqn:E1, (b <? 192) eqn:E2; try done. zbool. lia. }
  assert (Htr : forall x, u8_cont (128 + x mod 64) = true).
  { intros x. pose proof (Z.mod_pos_bound x 64). rewrite u8_cont_spec by lia.
    apply andb_true_iff. split; [apply Z.leb_le|apply Z.ltb_lt]; lia. }
  destruct (cp <? 0x80) eqn:E1; [|destruct (cp <? 0x800) eqn:E2; [|destruct (cp <? 0x10000) eqn:E3]]; zbool;
    (eexists _, _; split; [reflexivity|]);
    (split_and!; [lia | lia | apply Hlead; lia | repeat constructor; apply Htr]).
Qed.

Lemma back_cont_spec fuel s i k : 0 <= i <= k -> k - i <= Z.of_nat fuel ->
  (forall j, i < j <= k -> u8_cont (aget s j) = true) -> (i = 0 \/ u8_cont (aget s i) = false) ->
  back_cont fuel s k = i.
Proof.
  revert k. induction fuel as [|fuel IH]; intros k Hik Hf Hc Hi; cbn [back_cont]; [lia|].
  destruct (decide (k = i)) as [->|Hne].
  - destruct Hi as [->|Hi]; [done|]. by rewrite Hi, andb_false_r.
  - rewrite Hc by lia. destruct (0 <? k) eqn:E; zbool; [|lia]. cbn [andb].
    apply IH; [lia|lia| |done]. intros j Hj. apply Hc. lia.
Qed.

Lemma skip_cont_spec fuel s len i k : 0 <= i <= k -> k <= len -> k - i <= Z.of_nat fuel ->
  (forall j, i <= j < k -> u8_cont (aget s j) = true) -> (k = len \/ u8_cont (aget s k) = false) ->
  skip_cont fuel s len i = k.
Proof.
  revert i. induction fuel as [|fuel IH]; intros i Hik Hlen Hf Hc Hk; cbn [skip_cont]; [lia|].
  destruct (decide (i = k)) as [->|Hne].
  - destruct Hk as [->|Hk]; [by rewrite Z.ltb_irrefl|]. by rewrite Hk, andb_false_r.
  - rewrite Hc by lia. destruct (i <? len) eqn:E; zbool; [|lia]. cbn [andb].
    apply IH; [lia|lia|lia| |done]. intros j Hj. apply Hc. lia.
Qed.

(** the bytes of an encoded character inside a string *)
Lemma encoded_bytes pre cp post : 0 <= cp < 0x200000 ->
  let s := pre ++ u8_encode cp ++ post in
  u8_cont (aget s (zlen pre)) = false /\
  forall j, zlen pre < j < zlen pre + zlen (u8_encode cp) -> u8_cont (aget s j) = true.
Proof.
  intros Hcp s. destruct (u8_encode_shape cp Hcp) as (b & ts & He & _ & Hb & Hts).
  unfold s. rewrite He. split.
  - replace (zlen pre) with (zlen pre + 0) by lia. by rewrite aget_app_r.
  - intros j Hj. rewrite zlen_cons in Hj. replace j with (zlen pre + (j - zlen pre)) by lia.
    rewrite aget_app_r by lia. cbn [app].
    assert (Hlt : (Z.to_nat (j - zlen pre - 1) < length ts)%nat) by (unfold zlen in *; lia).
    destruct (lookup_lt_is_Some_2 ts _ Hlt) as [t Ht].
    assert (aget (b :: ts ++ post) (j - zlen pre) = t) as ->.
    { unfold aget. apply list_lookup_total_correct.
      replace (Z.to_nat (j - zlen pre)) with (S (Z.to_nat (j - zlen pre - 1))) by lia.
      cbn. by apply lookup_app_l_Some. }
    by eapply (Forall_lookup_1 (fun t => u8_cont t = true)).
Qed.

Lemma zlen_encode_pos cp : 0 <= cp < 0x200000 -> 0 < zlen (u8_encode cp).
Proof.
  intros Hcp. destruct (u8_encode_shape cp Hcp) as (b & ts & -> & _). rewrite zlen_cons.
  pose proof (zlen_nonneg ts). lia.
Qed.

Lemma u8_prev_encoded pre cp post : 0 <= cp < 0x200000 ->
  u8_prev (pre ++ u8_encode cp ++ post) (zlen pre + zlen (u8_encode cp)) = zlen pre.
Proof.
  intros Hcp. destruct (encoded_bytes pre cp post Hcp) as [Hlead Htr].
  pose proof (zlen_encode_pos cp Hcp). pose proof (zlen_nonneg pre).
  unfold u8_prev. destruct (_ <=? 0) eqn:E; zbool; [lia|].
  apply back_cont_spec; [lia|lia| |by right]. intros j Hj. apply Htr. lia.
Qed.

Lemma u8_next_encoded pre cp post len : 0 <= cp < 0x200000 ->
  zlen pre + zlen (u8_encode cp) <= len ->
  (zlen pre + zlen (u8_encode cp) = len \/
   u8_cont (aget (pre ++ u8_encode cp ++ post) (zlen pre + zlen (u8_encode cp))) = false) ->
  u8_next (pre ++ u8_encode cp ++ post) len (zlen pre) = zlen pre + zlen (u8_encode cp).
Proof.
  intros Hcp Hlen Hnext. destruct (encoded_bytes pre cp post Hcp) as [Hlead Htr].
  pose proof (zlen_encode_pos cp Hcp). pose proof (zlen_nonneg pre).
  unfold u8_next. destruct (len <=? zlen pre) eqn:E; zbool; [lia|].
  apply skip_cont_spec; [lia|lia|lia| |done]. intros j Hj. apply Htr. lia.
Qed.

(** ** The search in the tables *)

(** ranges in order, apart from each other *)
Fixpoint sorted_ranges (r : list u8_range_t) : bool :=
  match r with
  | [] => true
  | (lo, hi) :: r' =>
    (lo <=? hi) && match r' with (lo', _) :: _ => hi <? lo' | [] => true end && sorted_ranges r'
  end.

Definition in_range (cp : Z) (x : u8_range_t) : Prop := x.1 <= cp <= x.2.

Lemma sorted_lookup r i j x y : sorted_ranges r = true -> r !! i = Some x -> r !! j = Some y ->
  (i < j)%nat -> x.1 <= x.2 /\ x.2 < y.1 /\ y.1 <= y.2.
Proof.
  revert i j x y. induction r as [|[lo hi] r IH]; intros i j x y Hs Hi Hj Hij; [done|].
  cbn [sorted_ranges] in Hs. rewrite !andb_true_iff, Z.leb_le in Hs. destruct Hs as [[H1 H2] H3].
  destruct j as [|j]; [lia|]. cbn in Hj. destruct i as [|i].
  - cbn in Hi. injection Hi as <-. cbn. destruct r as [|[lo' hi'] r']; [done|]. apply Z.ltb_lt in H2.
    destruct j as [|j].
    + cbn in Hj. injection Hj as <-. cbn [sorted_ranges] in H3. rewrite !andb_true_iff, Z.leb_le in H3.
      cbn. lia.
    + destruct (IH 0%nat (S j) (lo', hi') y H3 eq_refl Hj ltac:(lia)) as (? & ? & ?). cbn in *. lia.
  - cbn in Hi. apply (IH i j); done || lia.
Qed.

Lemma u8_search_spec fuel r lo hi cp : sorted_ranges r = true -> 0 <= lo -> hi < zlen r ->
  hi - lo < Z.of_nat fuel ->
  (forall i x, r !! i = Some x -> in_range cp x -> lo <= Z.of_nat i <= hi) ->
  exists b, u8_search fuel r lo hi cp = Some b /\ (b = true <-> exists x, x ∈ r /\ in_range cp x).
Proof.
  intros Hs. revert lo hi. induction fuel as [|fuel IH]; intros lo hi Hlo Hhi Hf Hin; cbn [u8_search];
    (destruct (lo <=? hi) eqn:E; zbool; [|exists false; split; [done|]; split; [done|];
      intros (x & Hx & Hr); apply list_elem_of_lookup in Hx as [i Hi]; specialize (Hin i x Hi Hr); lia]); [lia|].
  set (m := (lo + hi) / 2). assert (Hm : lo <= m <= hi) by (subst m; lia).
  destruct (lookup_lt_is_Some_2 r (Z.to_nat m)) as [y Hy]; [unfold zlen in Hhi; lia|].
  assert (Hag : aget r m = y) by by apply list_lookup_total_correct.
  rewrite Hag. destruct (y.2 <? cp) eqn:E1; zbool.
  - apply IH; [lia|lia|lia|]. intros i x Hi Hr. pose proof (Hin i x Hi Hr).
    destruct (decide (Z.of_nat i <= m)) as [Hle|]; [exfalso|lia].
    destruct (decide (i = Z.to_nat m)) as [->|Hne]; [replace x with y in * by congruence; unfold in_range in Hr; lia|].
    destruct (sorted_lookup r i (Z.to_nat m) x y Hs Hi Hy ltac:(lia)) as (? & ? & ?). unfold in_range in Hr. lia.
  - destruct (cp <? y.1) eqn:E2; zbool.
    + apply IH; [lia|lia|lia|]. intros i x Hi Hr. pose proof (Hin i x Hi Hr).
      destruct (decide (m <= Z.of_nat i)) as [Hle|]; [exfalso|lia].
      destruct (decide (i = Z.to_nat m)) as [->|Hne]; [replace x with y in * by congruence; unfold in_range in Hr; lia|].
      destruct (sorted_lookup r (Z.to_nat m) i y x Hs Hy Hi ltac:(lia)) as (? & ? & ?). unfold in_range in Hr. lia.
    + exists true. split; [done|]. split; [|done]. intros _. exists y. split; [by eapply list_elem_of_lookup_2|].
      unfold in_range. lia.
Qed.

Lemma u8_in_spec r cp : sorted_ranges r = true -> r <> [] ->
  u8_in r (zlen r) cp = true <-> exists x, x ∈ r /\ in_range cp x.
Proof.
  intros Hs Hne. destruct (u8_search_spec (Z.to_nat (zlen r)) r 0 (zlen r - 1) cp Hs) as (b & Hb & Hspec);
    [lia | lia | lia | intros i x Hi _; apply lookup_lt_Some in Hi; unfold zlen; lia |].
  unfold u8_in. rewrite Hb. cbn [default].
  destruct ((cp <? (aget r 0).1) || ((aget r (zlen r - 1)).2 <? cp)) eqn:E; [|done].
  split; [done|]. intros (x & Hx & Hr). exfalso. apply list_elem_of_lookup in Hx as [i Hi].
  apply lookup_lt_Some in Hi as Hlt.
  destruct (lookup_lt_is_Some_2 r 0) as [y Hy]; [lia|].
  destruct (lookup_lt_is_Some_2 r (length r - 1)) as [z Hz]; [lia|].
  assert (Hy' : aget r 0 = y) by by apply list_lookup_total_correct.
  assert (Hz' : aget r (zlen r - 1) = z).
  { apply list_lookup_total_correct. rewrite <- Hz. f_equal. unfold zlen. lia. }
  rewrite Hy', Hz' in E. unfold in_range in Hr. zbool. destruct E as [E|E]; zbool.
  - destruct (decide (i = 0%nat)) as [->|]; [replace x with y in * by congruence; lia|].
    destruct (sorted_lookup r 0 i y x Hs Hy Hi ltac:(lia)) as (? & ? & ?). lia.
  - destruct (decide (i = (length r - 1)%nat)) as [->|]; [replace x with z in * by congruence; lia|].
    destruct (sorted_lookup r i (length r - 1) x z Hs Hi Hz ltac:(lia)) as (? & ? & ?). lia.
Qed.

(** ** Whole texts *)

Definition encode_all (cps : list Z) : list Z := concat (u8_encode <$> cps).

(** Unicode scalar values *)
Definition scalar (cp : Z) : Prop := 0 <= cp <= 0x10FFFF /\ ~ (0xD800 <= cp <= 0xDFFF).

Lemma encode_all_cons cp cps : encode_all (cp :: cps) = u8_encode cp ++ encode_all cps.
Proof. done. Qed.

Lemma zlen_encode_all cps : Forall scalar cps -> zlen cps <= zlen (encode_all cps).
Proof.
  induction 1 as [|cp cps Hcp _ IH]; [done|]. rewrite encode_all_cons, zlen_app, zlen_cons.
  pose proof (zlen_encode_pos cp). unfold scalar in Hcp. lia.
Qed.

(** a walk over a text, a character at a time, as the loops of u8_width and
    u8_to_utf16 have it *)
Lemma decode_front pre cp cps : scalar cp ->
  let s := pre ++ encode_all (cp :: cps) in
  u8_decode s (zlen s) (zlen pre) = (cp, zlen (pre ++ u8_encode cp)) /\ zlen pre < zlen s /\
  s = (pre ++ u8_encode cp) ++ encode_all cps.
Proof.
  intros [Hcp _]. cbv zeta. rewrite encode_all_cons.
  pose proof (zlen_encode_pos cp ltac:(lia)). pose proof (zlen_nonneg (encode_all cps)).
  rewrite u8_decode_encode_at by (rewrite ?zlen_app; lia). rewrite !zlen_app.
  split_and!; [done|lia|]. by rewrite <- app_assoc.
Qed.

Lemma u8_width_from_spec cps pre fuel c : Forall scalar cps ->
  (length cps <= fuel)%nat ->
  let s := pre ++ encode_all cps in
  u8_width_from fuel s (zlen s) (zlen pre) c = c + zsum (u8_wcwidth <$> cps).
Proof.
  revert pre fuel c. induction cps as [|cp cps IH]; intros pre fuel c Hs Hf; cbv zeta.
  { rewrite app_nil_r. cbn. destruct fuel; cbn [u8_width_from]; [lia|]. rewrite Z.ltb_irrefl. lia. }
  apply Forall_cons in Hs as [Hcp Hs]. destruct fuel as [|fuel]; [cbn in Hf; lia|].
  destruct (decode_front pre cp cps Hcp) as (Hd & Hlt & Heq). cbn [u8_width_from].
  destruct (_ <? _) eqn:E; zbool; [|lia]. unfold u8_step. rewrite Hd.
  assert (Hw : (if aget (pre ++ encode_all (cp :: cps)) (zlen pre) <? 128
    then (1, zlen pre + 1) else (u8_wcwidth cp, zlen (pre ++ u8_encode cp)))
    = (u8_wcwidth cp, zlen (pre ++ u8_encode cp))).
  { destruct (_ <? 128) eqn:E1; [|done]. zbool. unfold u8_decode in Hd.
    destruct (_ <? 128) eqn:E2 in Hd; [|zbool; lia]. injection Hd as Hb <-. rewrite Hb in E1.
    unfold u8_wcwidth. destruct (cp <? 768) eqn:E3; [done|zbool; lia]. }
  rewrite Hw, Heq, IH by (done || (cbn in Hf; lia)). rewrite fmap_cons, zsum_cons. lia.
Qed.

Lemma utf16_char_units cp us : scalar cp ->
  utf16_char (utf16_units cp ++ us) = Some (cp, length (utf16_units cp)).
Proof.
  intros [Hcp Hns]. unfold utf16_units.
  destruct ((0x10000 <=? cp) && (cp <=? 0x10FFFF)) eqn:E; zbool.
  - change 0x3FF with (Z.ones 10). rewrite Z.land_ones, Z.shiftr_div_pow2 by lia. change (2 ^ 10) with 1024.
    rewrite (lor_low 10 0xD800), (lor_low 10 0xDC00) by (change (2 ^ 10) with 1024; lia || done).
    unfold u16. rewrite !Z.mod_small by lia. cbn [app utf16_char]. unfold is_hi, is_lo.
    destruct ((_ && _) && (_ && _)) eqn:E2.
    + rewrite Z.shiftl_mul_pow2 by lia. change (2 ^ 10) with 1024. do 2 f_equal. lia.
    + exfalso. zbool. repeat (destruct E2 as [E2|E2]; zbool); lia.
  - assert (Hu : u16 (if 0xFFFF <? cp then 0xFFFD else cp) = cp).
    { destruct (0xFFFF <? cp) eqn:E1; zbool; [lia|]. unfold u16. apply Z.mod_small. lia. }
    rewrite Hu. cbn [app utf16_char length].
    assert (Hsur : (0xD800 <=? cp) && (cp <=? 0xDFFF) = false).
    { apply not_true_iff_false. rewrite andb_true_iff, !Z.leb_le. lia. }
    assert (Hhi : is_hi cp = false).
    { unfold is_hi. apply not_true_iff_false. rewrite andb_true_iff, !Z.leb_le. lia. }
    destruct us as [|v us]; [by rewrite Hsur|]. by rewrite Hhi, Hsur.
Qed.

Lemma u8_to_utf16_from_spec cps pre fuel cap out : Forall scalar cps ->
  (length cps <= fuel)%nat -> zlen out + zlen (concat (utf16_units <$> cps)) <= cap ->
  let s := pre ++ encode_all cps in
  u8_to_utf16_from fuel s (zlen s) (zlen pre) cap out = Some (out ++ concat (utf16_units <$> cps)).
Proof.
  revert pre fuel out. induction cps as [|cp cps IH]; intros pre fuel out Hs Hf Hcap; cbv zeta;
    (destruct fuel as [|fuel]; [try (cbn in Hf; lia)|]); cbn [u8_to_utf16_from].
  1,2: change (encode_all []) with (@nil Z); rewrite !app_nil_r, ?Z.ltb_irrefl; done.
  apply Forall_cons in Hs as [Hcp Hs].
  destruct (decode_front pre cp cps Hcp) as (Hd & Hlt & Heq). rewrite fmap_cons in *. cbn [concat] in *.
  rewrite zlen_app in Hcap. pose proof (zlen_nonneg (concat (utf16_units <$> cps))).
  destruct (_ <? zlen _) eqn:E; zbool; [|lia]. rewrite Hd.
  destruct (cap <? _) eqn:E2; zbool; [lia|].
  rewrite Heq, IH by (done || (cbn in Hf; lia) || (rewrite zlen_app; lia)). by rewrite <- app_assoc.
Qed.

Lemma u8_from_utf16_from_spec cps fuel cap out : Forall scalar cps ->
  (length (concat (utf16_units <$> cps)) <= fuel)%nat -> zlen out + zlen (encode_all cps) + 1 <= cap ->
  u8_from_utf16_from fuel (concat (utf16_units <$> cps)) cap out = out ++ encode_all cps.
Proof.
  revert fuel out. induction cps as [|cp cps IH]; intros fuel out Hs Hf Hcap.
  { rewrite app_nil_r. by destruct fuel. }
  apply Forall_cons in Hs as [Hcp Hs]. rewrite encode_all_cons, zlen_app in *.
  rewrite fmap_cons in *. cbn [concat] in *. rewrite length_app in Hf.
  pose proof (zlen_nonneg (encode_all cps)).
  assert (Hlen : (0 < length (utf16_units cp))%nat) by (unfold utf16_units; case_bool; cbn; lia).
  destruct fuel as [|fuel]; [lia|]. cbn [u8_from_utf16_from]. rewrite utf16_char_units by done.
  destruct (cap <? _) eqn:E; zbool; [lia|].
  rewrite drop_app_length' by done. rewrite IH by (done || lia || (rewrite zlen_app; lia)).
  by rewrite <- app_assoc.
Qed.

(** ** The properties *)

(** C20: decoding an encoded character, anywhere in a string, gives it back and
    moves past exactly its bytes. *)
Theorem decode_encode pre cp post len : 0 <= cp < 0x200000 -> zlen pre + zlen (u8_encode cp) <= len ->
  u8_decode (pre ++ u8_encode cp ++ post) len (zlen pre) = (cp, zlen pre + zlen (u8_encode cp)).
Proof. apply u8_decode_encode_at. Qed.

Lemma decode_encode_witness :
  u8_decode ([65] ++ u8_encode 0x20AC ++ [66]) 5 (zlen [65]) = (0x20AC, zlen [65] + zlen (u8_encode 0x20AC)).
Proof. apply (decode_encode [65] 0x20AC [66] 5); [lia | vm_compute; discriminate]. Defined.

(** in a text of whole characters u8_next and u8_prev cross exactly one
    character, in both directions. *)
Theorem step_characters pre cp cps : scalar cp -> Forall scalar cps ->
  let s := pre ++ encode_all (cp :: cps) in
  u8_next s (zlen s) (zlen pre) = zlen (pre ++ u8_encode cp) /\
  u8_prev s (zlen (pre ++ u8_encode cp)) = zlen pre.
Proof.
  intros [Hcp _] Hs. cbv zeta. rewrite encode_all_cons, !zlen_app. split.
  - pose proof (zlen_nonneg (encode_all cps)). apply u8_next_encoded; [lia|lia|].
    destruct cps as [|c2 cps]; [left; change (encode_all []) with (@nil Z); rewrite zlen_nil; lia|right].
    apply Forall_cons in Hs as [[Hc2 _] _].
    rewrite encode_all_cons, !app_assoc, <- (app_assoc (pre ++ _)), <- zlen_app.
    apply encoded_bytes. lia.
  - apply u8_prev_encoded. lia.
Qed.

Lemma step_characters_witness :
  u8_next ([65] ++ encode_all [0xE9; 0x1F600]) (zlen ([65] ++ encode_all [0xE9; 0x1F600])) (zlen [65])
    = zlen ([65] ++ u8_encode 0xE9) /\
  u8_prev ([65] ++ encode_all [0xE9; 0x1F600]) (zlen ([65] ++ u8_encode 0xE9)) = zlen [65].
Proof.
  apply (step_characters [65] 0xE9 [0x1F600]); [split; lia | repeat constructor; lia].
Defined.

(** the width of a text is the sum of its characters' widths, each 2, 0 or
    1 as the character lies in a range of the wide table, of the zero-width
    table, or of neither: the binary searches miss none. *)
Theorem width_spec cps : Forall scalar cps ->
  u8_width (encode_all cps) (zlen (encode_all cps)) = zsum (u8_wcwidth <$> cps) /\
  forall cp, 0x300 <= cp ->
    (u8_wcwidth cp = 2 <-> exists x, x ∈ U8_WIDE /\ in_range cp x) /\
    (u8_wcwidth cp = 0 <-> ~ (exists x, x ∈ U8_WIDE /\ in_range cp x) /\ exists x, x ∈ U8_ZERO /\ in_range cp x).
Proof.
  intros Hs. split.
  - unfold u8_width. pose proof (u8_width_from_spec cps [] (Z.to_nat (zlen (encode_all cps))) 0 Hs) as H.
    cbv zeta in H. rewrite app_nil_l in H. apply H.
    pose proof (zlen_encode_all cps Hs). unfold zlen in *. lia.
  - intros cp Hcp. unfold u8_wcwidth. destruct (cp <? 0x300) eqn:E; zbool; [lia|].
    rewrite <- (u8_in_spec U8_WIDE cp) by done. rewrite <- (u8_in_spec U8_ZERO cp) by done.
    destruct (u8_in U8_WIDE _ cp), (u8_in U8_ZERO _ cp); naive_solver lia.
Qed.

Lemma width_spec_witness :
  u8_width (encode_all [0x4E2D; 0x301; 65]) (zlen (encode_all [0x4E2D; 0x301; 65]))
    = zsum (u8_wcwidth <$> [0x4E2D; 0x301; 65]) /\
  forall cp, 0x300 <= cp ->
    (u8_wcwidth cp = 2 <-> exists x, x ∈ U8_WIDE /\ in_range cp x) /\
    (u8_wcwidth cp = 0 <-> ~ (exists x, x ∈ U8_WIDE /\ in_range cp x) /\ exists x, x ∈ U8_ZERO /\ in_range cp x).
Proof. apply (width_spec [0x4E2D; 0x301; 65]). repeat constructor; lia. Defined.

(** C21: UTF-16 round trip: a text of scalar values goes to UTF-16 units that
    fit exactly in their number, and those come back as the same bytes. *)
Theorem utf16_roundtrip cps cap1 cap2 : Forall scalar cps ->
  zlen (concat (utf16_units <$> cps)) <= cap1 -> zlen (encode_all cps) + 1 <= cap2 ->
  u8_to_utf16 (encode_all cps) (zlen (encode_all cps)) cap1 = Some (concat (utf16_units <$> cps)) /\
  u8_from_utf16 (concat (utf16_units <$> cps)) cap2 = encode_all cps.
Proof.
  intros Hs H1 H2. split.
  - unfold u8_to_utf16. pose proof (zlen_encode_all _ Hs).
    pose proof (u8_to_utf16_from_spec cps [] (Z.to_nat (zlen (encode_all cps))) cap1 [] Hs) as H'.
    cbv zeta in H'. rewrite !app_nil_l in H'. apply H'; unfold zlen in *; cbn; lia.
  - unfold u8_from_utf16. by rewrite u8_from_utf16_from_spec.
Qed.

Lemma utf16_roundtrip_witness :
  u8_to_utf16 (encode_all [65; 0x20AC; 0x1F600]) (zlen (encode_all [65; 0x20AC; 0x1F600])) 4
    = Some (concat (utf16_units <$> [65; 0x20AC; 0x1F600])) /\
  u8_from_utf16 (concat (utf16_units <$> [65; 0x20AC; 0x1F600])) 9 = encode_all [65; 0x20AC; 0x1F600].
Proof.
  apply (utf16_roundtrip [65; 0x20AC; 0x1F600] 4 9);
    [repeat constructor; lia | vm_compute; discriminate | vm_compute; discriminate].
Defined.
