(* ===== verification/Pty.v ===== *)
(** Pseudo-terminals (src/kernel/pty.c): the two queues and the line
    discipline between them. Locking and the wakeups of kfile_changed() are
    left out: each function is one step, as it is under g_lock. The queues are
    byte rings: an array of [cap] slots, a head index and a length; putting at
    the end and taking from the front act on what a ring holds as on a queue. *)

From S2P Require Import Prelude.

Section ring.
Context {A : Type} `{Inhabited A} (cap : Z) (Hcap : 0 < cap).

(** the content of a ring, from its head on *)
Definition contents (buf : list A) (head len : Z) : list A :=
  (fun i => aget buf ((head + i) mod cap)) <$> seqZ 0 len.

Record ring_ok (buf : list A) (head len : Z) : Prop := {
  ro_buf : zlen buf = cap;
  ro_head : 0 <= head < cap;
  ro_len : 0 <= len <= cap;
}.

Lemma zlen_contents buf head len : 0 <= len -> zlen (contents buf head len) = len.
Proof using Type. intros. unfold zlen, contents. rewrite length_fmap, length_seqZ. lia. Qed.

Lemma contents_lookup buf head len i : 0 <= i < len ->
  contents buf head len !! Z.to_nat i = Some (aget buf ((head + i) mod cap)).
Proof using Type.
  intros Hi. unfold contents. rewrite list_lookup_fmap, lookup_seqZ_lt by lia. cbn.
  do 3 f_equal. lia.
Qed.

Lemma contents_nil buf head : contents buf head 0 = [].
Proof using Type. done. Qed.

(** the content splits at any length *)
Lemma contents_add buf head n m : 0 <= n -> 0 <= m -> 0 <= head ->
  contents buf head (n + m) = contents buf head n ++ contents buf ((head + n) mod cap) m.
Proof using Hcap.
  intros Hn Hm Hh. unfold contents. rewrite seqZ_app by done. rewrite fmap_app. f_equal.
  replace (0 + n) with (n + 0) by lia. rewrite <- (fmap_add_seqZ n 0 m), <- list_fmap_compose.
  apply list_fmap_ext. intros i x Hx. cbn. f_equal.
  rewrite Zplus_mod_idemp_l. f_equal. lia.
Qed.

(** taking [n] from the front *)
Lemma contents_take buf head len n : 0 <= n <= len -> 0 <= head ->
  contents buf head n = take (Z.to_nat n) (contents buf head len) /\
  contents buf ((head + n) mod cap) (len - n) = drop (Z.to_nat n) (contents buf head len).
Proof using Hcap.
  intros Hn Hh. replace len with (n + (len - n)) at 1 3 by lia.
  rewrite contents_add by lia.
  assert (Hl : length (contents buf head n) = Z.to_nat n).
  { pose proof (zlen_contents buf head n). unfold zlen in *. lia. }
  rewrite take_app_length', drop_app_length' by done. done.
Qed.

Lemma take_ok buf head len n : ring_ok buf head len -> 0 <= n <= len ->
  ring_ok buf ((head + n) mod cap) (len - n).
Proof using Hcap.
  intros [] Hn. split; [done | apply Z.mod_pos_bound; lia | lia].
Qed.

(** putting one element at the end *)
Definition put (buf : list A) (head len : Z) (v : A) : list A := aset buf ((head + len) mod cap) v.

Lemma put_ok buf head len v : ring_ok buf head len -> len < cap ->
  ring_ok (put buf head len v) head (len + 1).
Proof using Type. intros [] Hl. split; unfold put; rewrite ?zlen_aset; lia. Qed.

Lemma put_contents buf head len v : ring_ok buf head len -> len < cap ->
  contents (put buf head len v) head (len + 1) = contents buf head len ++ [v].
Proof using Hcap.
  intros [Hb Hh Hl] Hlt. rewrite contents_add by lia. f_equal.
  - unfold contents. apply list_fmap_ext. intros i x Hx. apply lookup_seqZ in Hx as [-> Hi].
    unfold put. apply aget_aset_ne; try (apply Z.mod_pos_bound; lia).
    intros Heq.
    assert (Hc : forall z, 0 <= z < 2 * cap -> z mod cap = if z <? cap then z else z - cap).
    { intros z Hz. destruct (z <? cap) eqn:E; zbool; [apply Z.mod_small; lia|].
      symmetry. apply (Z.mod_unique z cap 1); lia. }
    rewrite !Hc in Heq by lia.
    destruct (_ <? cap) eqn:E1, (head + (0 + Z.of_nat i) <? cap) eqn:E2; zbool; lia.
  - unfold contents, put. change (seqZ 0 1) with [0]. cbn [fmap list_fmap]. f_equal. rewrite Z.add_0_r, Zmod_mod. apply aget_aset_eq.
    rewrite Hb. apply Z.mod_pos_bound. lia.
Qed.
End ring.

Arguments contents {A _} cap buf head len.
Arguments ring_ok {A} cap buf head len.
Arguments put {A} cap buf head len v.

(** ** Data *)

(** termios flags *)
Definition IGNCR : Z := 0x80.
Definition ICRNL : Z := 0x100.
Definition INLCR : Z := 0x40.
Definition ISTRIP : Z := 0x20.
Definition IXON : Z := 0x400.
Definition IXANY : Z := 0x800.
Definition IUTF8 : Z := 0x4000.
Definition OPOST : Z := 0x1.
Definition ONLCR : Z := 0x4.
Definition OCRNL : Z := 0x8.
Definition ONOCR : Z := 0x10.
Definition ONLRET : Z := 0x20.
Definition XTABS : Z := 0x1800.
Definition ISIG : Z := 0x1.
Definition ICANON : Z := 0x2.
Definition ECHO : Z := 0x8.
Definition ECHOE : Z := 0x10.
Definition ECHOK : Z := 0x20.
Definition ECHONL : Z := 0x40.
Definition NOFLSH : Z := 0x80.
Definition ECHOCTL : Z := 0x200.
Definition ECHOKE : Z := 0x800.
Definition IEXTEN : Z := 0x8000.
Definition CS8 : Z := 0x30.
Definition CREAD : Z := 0x80.
Definition HUPCL : Z := 0x400.
Definition B38400 : Z := 0xF.

(** indices of c_cc *)
Definition VINTR : Z := 0.
Definition VQUIT : Z := 1.
Definition VERASE : Z := 2.
Definition VKILL : Z := 3.
Definition VEOF : Z := 4.
Definition VTIME : Z := 5.
Definition VMIN : Z := 6.
Definition VSTART : Z := 8.
Definition VSTOP : Z := 9.
Definition VSUSP : Z := 10.
Definition VEOL : Z := 11.
Definition VREPRINT : Z := 12.
Definition VDISCARD : Z := 13.
Definition VWERASE : Z := 14.
Definition VLNEXT : Z := 15.
Definition VEOL2 : Z := 16.

Definition INQ : Z := 8192.
Definition LINE : Z := 4096.
Definition OUTQ : Z := 65536.
Definition RECS : Z := 512.
Definition PTY_NCCS : Z := 32.

Definition PTY_EV_SIGINT : Z := 1.
Definition PTY_EV_SIGQUIT : Z := 2.
Definition PTY_EV_SIGTSTP : Z := 4.
Definition PTY_EV_SIGWINCH : Z := 8.
Definition PTY_EV_HANGUP : Z := 16.

Record pty_termios_t := Termios {
  c_iflag : Z; c_oflag : Z; c_cflag : Z; c_lflag : Z; c_line : Z;
  c_cc : list Z; c_ispeed : Z; c_ospeed : Z;
}.

Record pty_winsize_t := Winsize { ws_row : Z; ws_col : Z; ws_xpixel : Z; ws_ypixel : Z }.

#[export] Instance winsize_eq_dec : EqDecision pty_winsize_t.
Proof. solve_decision. Defined.

(** [in_] is the source's [in]; booleans for the flags it keeps in ints *)
Record pty := Pty {
  index : Z;
  masters : Z; slaves : Z; slave_seen : bool;
  holds : Z;
  locked : Z; hung : bool;
  sid : Z; fg : Z;
  tio : pty_termios_t;
  ws : pty_winsize_t;
  in_ : list Z; in_head : Z; in_len : Z;
  rec : list Z; rec_head : Z; nrec : Z;
  line : list Z; llen : Z;
  lnext : bool;
  out : list Z; out_head : Z; out_len : Z;
  column : Z;
  stopped : bool;
  events : Z;
}.
#[export] Instance pty_eta : Eta pty := fun t =>
  Pty (index t) (masters t) (slaves t) (slave_seen t) (holds t) (locked t) (hung t) (sid t) (fg t)
    (tio t) (ws t) (in_ t) (in_head t) (in_len t) (rec t) (rec_head t) (nrec t) (line t) (llen t)
    (lnext t) (out t) (out_head t) (out_len t) (column t) (stopped t) (events t).

(** [flags & mask] as a condition *)
Definition has (flags mask : Z) : bool := negb (Z.land flags mask =? 0).
Definition cc (t : pty) (i : Z) : Z := aget (c_cc (tio t)) i.
(** [c == cc[i] && cc[i]] *)
Definition is_cc (t : pty) (c i : Z) : bool := (c =? cc t i) && negb (cc t i =? 0).

(** ** Output: the programs' bytes (and the echo) for the master *)

Definition out_put (t : pty) (c : Z) : pty :=
  if OUTQ <=? out_len t then t
  else t <| out := put OUTQ (out t) (out_head t) (out_len t) c |> <| out_len ::= Z.add 1 |>.

(** one byte through OPOST, with how many bytes it took (0: no room) *)
Definition out_char (t : pty) (c : Z) : pty * Z :=
  let ofl := c_oflag (tio t) in
  if OUTQ - out_len t <? 8 then (t, 0) else
  if negb (has ofl OPOST) then (out_put t c, 1) else
  if c =? 10 then
    if has ofl ONLCR then (out_put (out_put t 13) 10 <| column := 0 |>, 2) else
    let t := if has ofl ONLRET then t <| column := 0 |> else t in
    (out_put t 10, 1)
  else if c =? 13 then
    if has ofl ONOCR && (column t =? 0) then (t, 1) else
    if has ofl OCRNL then
      let t := out_put t 10 in
      (if has ofl ONLRET then t <| column := 0 |> else t, 1)
    else (out_put t 13 <| column := 0 |>, 1)
  else if c =? 9 then
    if Z.land ofl XTABS =? XTABS then
      let n := 8 - column t mod 8 in
      (Nat.iter (Z.to_nat n) (fun t => out_put t 32) t <| column ::= fun x => u32 (x + n) |>, n)
    else (out_put (t <| column := u32 (Z.lor (column t) 7 + 1) |>) c, 1)
  else if c =? 8 then
    (out_put (if negb (column t =? 0) then t <| column ::= fun x => x - 1 |> else t) c, 1)
  else
    let t := if (0x20 <=? c) && negb (Z.land c 0xC0 =? 0x80) && negb (c =? 0x7F)
             then t <| column ::= fun x => u32 (x + 1) |> else t in
    (out_put t c, 1).

Definition emit (t : pty) (c : Z) : pty := (out_char t c).1.

Definition echo_char (t : pty) (c : Z) : pty :=
  if has (c_lflag (tio t)) ECHOCTL &&
     (((c <? 0x20) && negb (c =? 9) && negb (c =? 10)) || (c =? 0x7F))
  then emit (emit t 94) (if c =? 0x7F then 63 else u8 (c + 0x40))
  else emit t c.

(** the columns the character of the line at [at_] took *)
Definition last_width (t : pty) (at_ : Z) : Z :=
  let c := aget (line t) at_ in
  if c =? 9 then 1
  else if ((c <? 0x20) || (c =? 0x7F)) && has (c_lflag (tio t)) ECHOCTL then 2 else 1.

(** [while (at > 0 && (line[at] & 0xC0) == 0x80) at--;] *)
Fixpoint seq_start (l : list Z) (at_ : nat) : nat :=
  match at_ with
  | O => O
  | S n => if Z.land (aget l (Z.of_nat at_)) 0xC0 =? 0x80 then seq_start l n else at_
  end.

(** the last character of the line goes; echoes it away *)
Definition erase_one (t : pty) : pty :=
  if llen t =? 0 then t else
  let at_ := llen t - 1 in
  let at_ := if has (c_iflag (tio t)) IUTF8 then Z.of_nat (seq_start (line t) (Z.to_nat at_)) else at_ in
  let w := last_width t at_ in
  let t := t <| llen := at_ |> in
  if has (c_lflag (tio t)) ECHO && has (c_lflag (tio t)) ECHOE
  then Nat.iter (Z.to_nat w) (fun t => emit (emit (emit t 8) 32) 8) t
  else t.

Definition is_space (c : Z) : bool := (c =? 32) || (c =? 9).

(** ** Input: what the master types *)

Definition in_room (t : pty) : Z := INQ - in_len t.

Fixpoint in_put (t : pty) (s : list Z) : pty :=
  match s with
  | [] => t
  | c :: s =>
    if in_len t <? INQ
    then in_put (t <| in_ := put INQ (in_ t) (in_head t) (in_len t) c |> <| in_len ::= Z.add 1 |>) s
    else t
  end.

(** the line being edited *)
Definition edited (t : pty) : list Z := take (Z.to_nat (llen t)) (line t).

Definition line_done (t : pty) : pty :=
  if (nrec t =? RECS) || (in_room t <? llen t) then t <| llen := 0 |> else
  let t := in_put t (edited t) in
  t <| rec := put RECS (rec t) (rec_head t) (nrec t) (llen t) |>
    <| nrec ::= Z.add 1 |> <| llen := 0 |>.

Definition flush_input (t : pty) : pty :=
  t <| in_len := 0 |> <| in_head := 0 |> <| nrec := 0 |> <| rec_head := 0 |> <| llen := 0 |>.

(** [t->line[t->llen++] = c] *)
Definition line_put (t : pty) (c : Z) : pty :=
  t <| line ::= fun l => aset l (llen t) c |> <| llen ::= Z.add 1 |>.

(** [while (t->llen && p(t->line[t->llen - 1])) erase_one(t);] - each erase
    shortens the line, so its length bounds the rounds *)
Fixpoint erase_while (fuel : nat) (p : Z -> bool) (t : pty) : pty :=
  match fuel with
  | O => t
  | S fuel =>
    if negb (llen t =? 0) && p (aget (line t) (llen t - 1))
    then erase_while fuel p (erase_one t) else t
  end.
Definition erase_all_while (p : Z -> bool) (t : pty) : pty :=
  erase_while (Z.to_nat (llen t)) p t.

(** the signal a typed character stands for, or 0 *)
Definition sig_of (t : pty) (c : Z) : Z :=
  if is_cc t c VINTR then PTY_EV_SIGINT
  else if is_cc t c VQUIT then PTY_EV_SIGQUIT
  else if is_cc t c VSUSP then PTY_EV_SIGTSTP else 0.

(** ISTRIP, then \r and \n mapped; [None]: the character is dropped *)
Definition map_char (iflag c : Z) : option Z :=
  let c := if has iflag ISTRIP then Z.land c 0x7F else c in
  if c =? 13 then
    if has iflag IGNCR then None
    else Some (if has iflag ICRNL then 10 else c)
  else if (c =? 10) && has iflag INLCR then Some 13
  else Some c.

Definition echo_if (b : bool) (t : pty) (c : Z) : pty := if b then echo_char t c else t.

(** type_char from ICANON's editing characters on *)
Definition type_canon (t : pty) (c : Z) : pty :=
  let lf := c_lflag (tio t) in
  if has lf IEXTEN && is_cc t c VLNEXT then
    let t := t <| lnext := true |> in
    if has lf ECHO && has lf ECHOCTL then emit (emit t 94) 8 else t
  else if is_cc t c VERASE then erase_one t
  else if has lf IEXTEN && is_cc t c VWERASE then
    erase_all_while (fun c => negb (is_space c)) (erase_all_while is_space t)
  else if is_cc t c VKILL then
    if has lf ECHO && has lf ECHOKE then erase_all_while (fun _ => true) t
    else
      let t := t <| llen := 0 |> in
      if has lf ECHO && has lf ECHOK then emit t 10 else t
  else if has lf IEXTEN && is_cc t c VREPRINT then
    if has lf ECHO then foldl echo_char (emit (echo_char t c) 10) (edited t) else t
  else if is_cc t c VEOF then line_done t
  else
    let eol := (c =? 10) || is_cc t c VEOL || is_cc t c VEOL2 in
    let t := if (llen t <? LINE - 1) || (eol && (llen t <? LINE)) then line_put t c else t in
    let t := echo_if (has lf ECHO || ((c =? 10) && has lf ECHONL)) t c in
    if eol then line_done t else t.

(** ... and in raw mode *)
Definition type_raw (t : pty) (c : Z) : pty * bool :=
  if in_room t =? 0 then (t, false)
  else (echo_if (has (c_lflag (tio t)) ECHO) (in_put t [c]) c, true).

(** one typed byte; [false] if it could not be taken *)
Definition type_char (t : pty) (c : Z) : pty * bool :=
  let lf := c_lflag (tio t) in
  let iflag := c_iflag (tio t) in
  let canon := has lf ICANON in
  if lnext t then
    let t := t <| lnext := false |> in
    if canon then
      let t := if llen t <? LINE - 1 then line_put t c else t in
      (echo_if (has lf ECHO) t c, true)
    else type_raw t c
  else
  match map_char iflag c with
  | None => (t, true)
  | Some c =>
    if has iflag IXON && is_cc t c VSTOP then (t <| stopped := true |>, true) else
    if has iflag IXON && is_cc t c VSTART then (t <| stopped := false |>, true) else
    let t := if has iflag IXON && has iflag IXANY then t <| stopped := false |> else t in
    let ev := sig_of t c in
    if has lf ISIG && negb (ev =? 0) then
      let t := t <| events ::= fun e => Z.lor e ev |> in
      let t := if has lf NOFLSH then t else flush_input t <| out_len := 0 |> in
      (echo_if (has lf ECHO) t c, true)
    else if canon then (type_canon t c, true)
    else type_raw t c
  end.

(** ** The two ends *)

(** the bytes typed until one is not taken, and how many were *)
Fixpoint type_all (t : pty) (buf : list Z) : pty * Z :=
  match buf with
  | [] => (t, 0)
  | c :: buf =>
    let '(t', ok) := type_char t c in
    if ok then let '(t'', n) := type_all t' buf in (t'', 1 + n) else (t', 0)
  end.

(** the count, or -11 when some were given and none taken *)
Definition count_or_again (i n : Z) : Z := if negb (i =? 0) then i else if negb (n =? 0) then -11 else 0.

Definition pty_master_write (t : pty) (buf : list Z) : pty * Z :=
  let '(t', i) := type_all t buf in (t', count_or_again i (zlen buf)).

(** reads give the new state, the result and the bytes *)
Definition pty_master_read (t : pty) (n : Z) : pty * Z * list Z :=
  if out_len t =? 0 then (t, if slave_seen t && (slaves t =? 0) then -5 else -11, []) else
  let take := if out_len t <? n then out_len t else n in
  let bytes := contents OUTQ (out t) (out_head t) take in
  (t <| out_head := (out_head t + take) mod OUTQ |> <| out_len ::= fun l => l - take |>, take, bytes).

Definition nothing_to_read (t : pty) : Z := if hung t then 0 else -11.

(** the first [take] bytes of the input ring taken out *)
Definition in_take (t : pty) (take : Z) : pty :=
  t <| in_head := (in_head t + take) mod INQ |> <| in_len ::= fun l => l - take |>.

Definition next_rec (t : pty) : pty :=
  t <| rec_head ::= fun h => (h + 1) mod RECS |> <| nrec ::= fun n => n - 1 |>.

Definition pty_slave_read (t : pty) (n : Z) : pty * Z * list Z :=
  if has (c_lflag (tio t)) ICANON then
    if nrec t =? 0 then (t, nothing_to_read t, []) else
    let len := aget (rec t) (rec_head t) in
    if len =? 0 then (next_rec t, 0, []) else
    let take := if len <? n then len else n in
    let bytes := contents INQ (in_ t) (in_head t) take in
    let t := in_take t take <| rec ::= fun r => aset r (rec_head t) (len - take) |> in
    (if len - take =? 0 then next_rec t else t, take, bytes)
  else
    if in_len t =? 0 then (t, nothing_to_read t, []) else
    let take := if in_len t <? n then in_len t else n in
    (in_take t take, take, contents INQ (in_ t) (in_head t) take).

Fixpoint out_all (t : pty) (buf : list Z) : pty * Z :=
  match buf with
  | [] => (t, 0)
  | c :: buf =>
    let '(t', k) := out_char t c in
    if k =? 0 then (t', 0) else let '(t'', n) := out_all t' buf in (t'', 1 + n)
  end.

Definition pty_slave_write (t : pty) (buf : list Z) : pty * Z :=
  if hung t then (t, -5) else
  if stopped t then (t, -11) else
  let '(t', i) := out_all t buf in (t', count_or_again i (zlen buf)).

Definition KF_POLLIN : Z := 1.
Definition KF_POLLOUT : Z := 4.
Definition KF_POLLERR : Z := 8.
Definition KF_POLLHUP : Z := 16.

Definition pty_poll (t : pty) (master : bool) (evs : Z) : Z :=
  let r :=
    if master then
      let r := if negb (out_len t =? 0) then KF_POLLIN
               else if slave_seen t && (slaves t =? 0) then Z.lor KF_POLLIN KF_POLLHUP else 0 in
      if negb (in_room t =? 0) then Z.lor r KF_POLLOUT else r
    else
      let ready := if has (c_lflag (tio t)) ICANON then 0 <? nrec t else 0 <? in_len t in
      let r := if ready then KF_POLLIN else 0 in
      if hung t then Z.lor r (Z.lor KF_POLLIN KF_POLLHUP)
      else if negb (stopped t) && (8 <=? OUTQ - out_len t) then Z.lor r KF_POLLOUT else r in
  Z.land r (Z.lor evs (Z.lor KF_POLLERR KF_POLLHUP)).

Definition pty_nread (t : pty) (master : bool) : Z :=
  if master then out_len t
  else if has (c_lflag (tio t)) ICANON
  then (if nrec t =? 0 then 0 else aget (rec t) (rec_head t)) else in_len t.

Definition pty_flush (t : pty) (queue : Z) : pty :=
  let t := if (queue =? 0) || (queue =? 2) then flush_input t else t in
  if (queue =? 1) || (queue =? 2) then t <| out_len := 0 |> <| out_head := 0 |> else t.

Definition pty_get_termios (t : pty) : pty_termios_t := tio t.

(** the lengths of the queued lines, and the bytes of the lines from [at_] on
    with an end of file as the character [eof] *)
Definition rec_lens (t : pty) : list Z := contents RECS (rec t) (rec_head t) (nrec t).

Fixpoint unrecord (t : pty) (eof at_ : Z) (lens : list Z) : list Z :=
  match lens with
  | [] => []
  | len :: lens =>
    if len =? 0 then eof :: unrecord t eof at_ lens
    else contents INQ (in_ t) at_ len ++ unrecord t eof ((at_ + len) mod INQ) lens
  end.

Definition pty_set_termios (t : pty) (new : pty_termios_t) (flush : bool) : pty :=
  let was := has (c_lflag (tio t)) ICANON in
  let now := has (c_lflag new) ICANON in
  let t := t <| tio := new |> in
  let t := if flush then flush_input t else t in
  let t :=
    if was && negb now then
      let eof := if cc t VEOF =? 0 then 4 else cc t VEOF in
      let eofs := zlen (filter (fun len => len = 0) (rec_lens t)) in
      let t := if negb (eofs =? 0) && (in_len t + eofs <=? INQ)
               then in_put (t <| in_head := 0 |> <| in_len := 0 |>) (unrecord t eof (in_head t) (rec_lens t))
               else t in
      let t := in_put t (edited t) in
      t <| llen := 0 |> <| nrec := 0 |> <| rec_head := 0 |>
    else if negb was && now && negb (in_len t =? 0) then
      t <| nrec := 1 |> <| rec_head := 0 |> <| rec ::= fun r => aset r 0 (in_len t) |>
    else t in
  if has (c_iflag new) IXON then t else t <| stopped := false |>.

Definition pty_get_winsize (t : pty) : pty_winsize_t := ws t.

Definition pty_set_winsize (t : pty) (new : pty_winsize_t) : pty :=
  if decide (ws t = new) then t
  else t <| ws := new |> <| events ::= fun e => Z.lor e PTY_EV_SIGWINCH |>.

Definition pty_read_mode (t : pty) : bool * Z * Z :=
  (has (c_lflag (tio t)) ICANON, cc t VMIN, cc t VTIME).

(** the events raised since the last call, cleared *)
Definition pty_events (t : pty) : pty * Z := (t <| events := 0 |>, events t).

(** ** The table of terminals *)

Definition cc_default : list Z :=
  foldl (fun l p => aset l p.1 p.2) (replicate 32 0)
    [(VINTR, 3); (VQUIT, 0x1C); (VERASE, 0x7F); (VKILL, 0x15); (VEOF, 4);
     (VTIME, 0); (VMIN, 1); (VSTART, 0x11); (VSTOP, 0x13); (VSUSP, 0x1A);
     (VREPRINT, 0x12); (VDISCARD, 0xF); (VWERASE, 0x17); (VLNEXT, 0x16)].

Definition defaults (t : pty) : pty :=
  t <| tio := Termios (Z.lor ICRNL (Z.lor IXON IUTF8)) (Z.lor OPOST ONLCR)
         (Z.lor B38400 (Z.lor CS8 (Z.lor CREAD HUPCL)))
         (Z.lor ISIG (Z.lor ICANON (Z.lor ECHO (Z.lor ECHOE (Z.lor ECHOK (Z.lor ECHOCTL (Z.lor ECHOKE IEXTEN)))))))
         0 cc_default B38400 B38400 |>
    <| ws := Winsize 24 80 0 0 |>.

(** zeroed memory with the output buffer [buf] (whatever it held) *)
Definition pty_zero (buf : list Z) : pty :=
  Pty 0 0 0 false 0 0 false 0 0 (Termios 0 0 0 0 0 (replicate 32 0) 0 0) (Winsize 0 0 0 0)
    (replicate (Z.to_nat INQ) 0) 0 0 (replicate (Z.to_nat RECS) 0) 0 0
    (replicate (Z.to_nat LINE) 0) 0 false buf 0 0 0 false 0.

(** g_ptys[0..g_nptys) (NULL as [None]) with g_cap, and the terminals in
    memory by their address *)
Record ptys := Ptys {
  g_ptys : list (option Z);
  g_cap : Z;
  store : gmap Z pty;
}.
#[export] Instance ptys_eta : Eta ptys := fun g => Ptys (g_ptys g) (g_cap g) (store g).

(** the first free slot *)
Definition free_slot (g : ptys) : option nat := fst <$> list_find (fun o => o = None) (g_ptys g).

(** [t] is what kzalloc gave for the terminal (0: no memory), [buf] what kmalloc
    gave for its output, [grow] whether the table's kzalloc succeeds; the new
    table and the terminal's address, or NULL *)
Definition pty_new (g : ptys) (t : Z) (buf : option (list Z)) (grow : bool) : ptys * Z :=
  match buf with
  | None => (g, 0)
  | Some buf =>
    if t =? 0 then (g, 0) else
    let made i := defaults (pty_zero buf <| index := i |> <| masters := 1 |> <| locked := 1 |>) in
    match free_slot g with
    | Some i => (g <| g_ptys ::= <[i := Some t]> |> <| store ::= <[t := made (Z.of_nat i)]> |>, t)
    | None =>
      let n := zlen (g_ptys g) in
      if (n =? g_cap g) && negb grow then (g, 0) else
      (g <| g_cap := if n =? g_cap g then (if g_cap g =? 0 then 16 else g_cap g * 2) else g_cap g |>
         <| g_ptys ::= fun l => l ++ [Some t] |> <| store ::= <[t := made n]> |>, t)
    end
  end.

Definition pty_find (g : ptys) (i : Z) : option Z :=
  if (0 <=? i) && (i <? zlen (g_ptys g)) then
    match aget (g_ptys g) i with
    | Some a =>
      match store g !! a with
      | Some t => if (masters t =? 0) || hung t then None else Some a
      | None => None
      end
    | None => None
    end
  else None.

Definition pty_count (g : ptys) : Z := zlen (filter (fun o => is_Some o) (g_ptys g)).

(** both ends closed: the terminal at [a] goes; whether it did *)
Definition maybe_free (g : ptys) (a : Z) (t : pty) : ptys * bool :=
  if (0 <? masters t) || (0 <? slaves t) || (0 <? holds t)
  then (g <| store ::= <[a := t]> |>, false)
  else
    let mine := (0 <=? index t) && (index t <? zlen (g_ptys g)) &&
                bool_decide (aget (g_ptys g) (index t) = Some a) in
    let g := if mine then g <| g_ptys ::= fun l => aset l (index t) None |> else g in
    (g <| store ::= delete a |>, true).

Definition master_ref (t : pty) (delta : Z) : pty :=
  let t := t <| masters ::= Z.add delta |> in
  if (masters t <=? 0) && negb (hung t)
  then t <| hung := true |> <| events ::= fun e => Z.lor e PTY_EV_HANGUP |> else t.

Definition slave_ref (t : pty) (delta : Z) : pty :=
  let t := t <| slaves ::= Z.add delta |> in
  if 0 <? delta then t <| slave_seen := true |> else t.

Definition with_pty (f : pty -> pty) (g : ptys) (a : Z) : option (ptys * bool) :=
  t ← store g !! a; Some (maybe_free g a (f t)).

Definition pty_master_ref (g : ptys) (a delta : Z) : option (ptys * bool) :=
  with_pty (fun t => master_ref t delta) g a.
Definition pty_slave_ref (g : ptys) (a delta : Z) : option (ptys * bool) :=
  with_pty (fun t => slave_ref t delta) g a.
Definition pty_hold (g : ptys) (a delta : Z) : option (ptys * bool) :=
  with_pty (fun t => t <| holds ::= Z.add delta |>) g a.
