(* ===== verification/PtyIn.v ===== *)
(** The two sides of the terminal: what out_char and the echo add to the
    master's queue, against a reference definition of OPOST; the queue of
    typed bytes cut into lines, the line being edited, and the invariant every
    operation keeps. *)

From S2P Require Import Prelude Pty.

Lemma OUTQ_pos : 0 < OUTQ.
Proof. done. Qed.

Lemma INQ_pos : 0 < INQ.
Proof. done. Qed.

Definition out_bytes (t : pty) : list Z := contents OUTQ (out t) (out_head t) (out_len t).
Definition out_ok (t : pty) : Prop := ring_ok OUTQ (out t) (out_head t) (out_len t).

(** ** Steps that only add to the output *)

(** [t'] is [t] with the bytes [bs] more in its output (and another column) *)
Inductive emits (t : pty) (bs : list Z) : pty -> Prop :=
| Emits o l c :
    ring_ok OUTQ o (out_head t) l ->
    contents OUTQ o (out_head t) l = out_bytes t ++ bs ->
    emits t bs (t <| out := o |> <| out_len := l |> <| column := c |>).

Lemma pty_same_out t c : t <| out := out t |> <| out_len := out_len t |> <| column := c |>
  = t <| column := c |>.
Proof. by destruct t. Qed.

Lemma emits_column t c : out_ok t -> emits t [] (t <| column := c |>).
Proof.
  intros Ht. rewrite <- pty_same_out. constructor; [done|]. by rewrite app_nil_r.
Qed.

Lemma emits_refl t : out_ok t -> emits t [] t.
Proof.
  intros Ht. pose proof (emits_column t (column t) Ht). by destruct t.
Qed.

Lemma emits_ok t bs t' : emits t bs t' -> out_ok t'.
Proof. by intros [o l c Ho _]. Qed.

Lemma emits_bytes t bs t' : emits t bs t' -> out_bytes t' = out_bytes t ++ bs.
Proof. by intros [o l c _ Hc]. Qed.

Lemma emits_trans t bs t' bs' t'' : emits t bs t' -> emits t' bs' t'' -> emits t (bs ++ bs') t''.
Proof.
  intros H1 H2. pose proof (emits_bytes _ _ _ H1) as Hb. destruct H1 as [o l c Ho Hc].
  destruct H2 as [o2 l2 c2 Ho2 Hc2]. cbn in Ho2, Hc2.
  apply (Emits t _ o2 l2 c2); [done|]. by rewrite Hc2, Hb, app_assoc.
Qed.

(** a step that at most adds bytes *)
Definition emits_some (t t' : pty) : Prop :=
  out_ok t -> 0 <= column t -> (exists bs, emits t bs t') /\ 0 <= column t'.

#[export] Instance emits_some_po : PreOrder emits_some.
Proof.
  split.
  - intros t Ht Hc. split; [|done]. exists []. by apply emits_refl.
  - intros t1 t2 t3 H1 H2 Ht Hc. destruct (H1 Ht Hc) as [[b1 E1] C1].
    destruct (H2 (emits_ok _ _ _ E1) C1) as [[b2 E2] C2]. split; [|done].
    exists (b1 ++ b2). by eapply emits_trans.
Qed.

Lemma out_put_emits t c : out_ok t -> out_len t < OUTQ -> emits t [c] (out_put t c).
Proof.
  intros Ht Hl. unfold out_put. destruct (OUTQ <=? out_len t) eqn:E; zbool; [lia|].
  change (t <| out := put OUTQ (out t) (out_head t) (out_len t) c |> <| out_len ::= Z.add 1 |>)
    with (t <| out := put OUTQ (out t) (out_head t) (out_len t) c |> <| out_len := 1 + out_len t |>
            <| column := column t |>).
  rewrite (Z.add_comm 1). constructor; [by apply put_ok|]. apply put_contents; try done.
Qed.

Lemma emits_len t bs t' : emits t bs t' -> out_ok t -> out_len t' = out_len t + zlen bs.
Proof.
  intros He Ht. pose proof (emits_bytes _ _ _ He) as Hb. pose proof (emits_ok _ _ _ He) as Hok.
  apply (f_equal zlen) in Hb. unfold out_bytes in Hb. rewrite zlen_app, !zlen_contents in Hb; [done|..].
  - apply Ht.
  - apply Hok.
Qed.

Lemma out_puts_emits n t c : out_ok t -> out_len t + Z.of_nat n <= OUTQ ->
  emits t (replicate n c) (Nat.iter n (fun t => out_put t c) t).
Proof.
  intros Ht Hn. induction n as [|n IH]; [by apply emits_refl|].
  rewrite replicate_S_end. change (Nat.iter (S n) ?f ?x) with (f (Nat.iter n f x)). cbv beta.
  assert (He : emits t (replicate n c) (Nat.iter n (fun t => out_put t c) t)) by (apply IH; lia).
  eapply emits_trans; [exact He|]. apply out_put_emits; [by eapply emits_ok|].
  rewrite (emits_len _ _ _ He Ht). unfold zlen. rewrite length_replicate. lia.
Qed.

(** ** The reference *)

(** one character through OPOST at column [col]: the bytes and the new column *)
Definition opost (ofl col c : Z) : list Z * Z :=
  if negb (has ofl OPOST) then ([c], col)
  else if c =? 10 then
    if has ofl ONLCR then ([13; 10], 0) else ([10], if has ofl ONLRET then 0 else col)
  else if c =? 13 then
    if has ofl ONOCR && (col =? 0) then ([], col)
    else if has ofl OCRNL then ([10], if has ofl ONLRET then 0 else col)
    else ([13], 0)
  else if c =? 9 then
    let stop := col + (8 - col mod 8) in
    if Z.land ofl XTABS =? XTABS then (replicate (Z.to_nat (stop - col)) 32, u32 stop)
    else ([9], u32 stop)
  else if c =? 8 then ([8], if col =? 0 then 0 else col - 1)
  else ([c], if (0x20 <=? c) && negb (c =? 0x7F) && negb (Z.land c 0xC0 =? 0x80)
             then u32 (col + 1) else col).

Fixpoint opost_all (ofl col : Z) (s : list Z) : list Z * Z :=
  match s with
  | [] => ([], col)
  | c :: s => let '(b, col') := opost ofl col c in
              let '(bs, col'') := opost_all ofl col' s in (b ++ bs, col'')
  end.

(** [(x | 7) + 1] is the next multiple of 8 *)
Lemma lor_7 x : 0 <= x -> Z.lor x 7 + 1 = x + (8 - x mod 8).
Proof.
  intros Hx. change 7 with (Z.ones 3). rewrite lor_ones by lia. change (2 ^ 3) with 8.
  change (Z.ones 3) with 7. lia.
Qed.

(** ** out_char does what the reference says, when there is room for 8 bytes *)

(** after a put, the column may change *)
Lemma put_column t c col : out_ok t -> out_len t < OUTQ ->
  emits t [c] (out_put t c <| column := col |>).
Proof.
  intros Ht Hl. rewrite <- (app_nil_r [c]). pose proof (out_put_emits t c Ht Hl) as He.
  eapply emits_trans; [exact He|]. apply emits_column. by eapply emits_ok.
Qed.

(** ... or before *)
Lemma column_put t c col : out_ok t -> out_len t < OUTQ ->
  emits t [c] (out_put (t <| column := col |>) c).
Proof.
  intros Ht Hl. change [c] with ([] ++ [c]). eapply emits_trans; [by apply emits_column|].
  by apply out_put_emits.
Qed.

Lemma out_put_column t c : column (out_put t c) = column t.
Proof. unfold out_put. by destruct (_ <=? _). Qed.

Definition wrote (t : pty) (c : Z) (r : pty * Z) : Prop :=
  let '(bs, col) := opost (c_oflag (tio t)) (column t) c in
  emits t bs r.1 /\ column r.1 = col /\ 0 < r.2.

Lemma out_char_room t c : out_ok t -> 0 <= column t -> 8 <= OUTQ - out_len t ->
  wrote t c (out_char t c).
Proof.
  intros Ht Hcol Hroom. unfold wrote, out_char, opost.
  destruct (OUTQ - out_len t <? 8) eqn:E; zbool; [lia|]. clear E.
  set (ofl := c_oflag (tio t)).
  destruct (negb (has ofl OPOST)).
  { split_and!; [apply out_put_emits; [done|lia] | apply out_put_column | done]. }
  destruct (c =? 10) eqn:E10; zbool.
  { subst c. destruct (has ofl ONLCR); [|destruct (has ofl ONLRET)]; cbn [fst snd].
    - split_and!; [|done|done]. change [13; 10] with ([13] ++ [10]).
      pose proof (out_put_emits t 13 Ht ltac:(lia)) as He. eapply emits_trans; [exact He|].
      apply put_column; [by eapply emits_ok|]. rewrite (emits_len _ _ _ He Ht). change (zlen [13]) with 1. lia.
    - split_and!; [apply column_put; [done|lia] | apply out_put_column | done].
    - split_and!; [apply out_put_emits; [done|lia] | apply out_put_column | done]. }
  destruct (c =? 13) eqn:E13; zbool.
  { subst c. destruct (has ofl ONOCR && (column t =? 0)); [|destruct (has ofl OCRNL)]; cbn [fst snd].
    - split_and!; [by apply emits_refl | done | done].
    - destruct (has ofl ONLRET).
      + split_and!; [apply put_column; [done|lia] | done | done].
      + split_and!; [apply out_put_emits; [done|lia] | apply out_put_column | done].
    - split_and!; [apply put_column; [done|lia] | done | done]. }
  destruct (c =? 9) eqn:E9; zbool.
  { subst c. cbv zeta. rewrite lor_7 by done. destruct (Z.land ofl XTABS =? XTABS); cbn [fst snd].
    - set (n := 8 - column t mod 8).
      replace (column t + n - column t) with n by lia.
      assert (He : emits t (replicate (Z.to_nat n) 32) (Nat.iter (Z.to_nat n) (fun t => out_put t 32) t)).
      { apply out_puts_emits; [done|]. subst n. pose proof (Z.mod_pos_bound (column t) 8). lia. }
      assert (Hc : column (Nat.iter (Z.to_nat n) (fun t => out_put t 32) t) = column t).
      { induction (Z.to_nat n) as [|k IH] in |- *; [done|]. cbn. by rewrite out_put_column. }
      split_and!; [|cbn; by rewrite Hc | subst n; pose proof (Z.mod_pos_bound (column t) 8); lia].
      rewrite <- (app_nil_r (replicate _ _)). eapply emits_trans; [exact He|].
      apply emits_column. by eapply emits_ok.
    - split_and!; [apply column_put; [done|lia] | apply out_put_column | done]. }
  destruct (c =? 8) eqn:E8; zbool.
  { subst c. cbn [fst snd]. destruct (column t =? 0) eqn:Ec; cbn [negb]; zbool.
    - split_and!; [apply out_put_emits; [done|lia] | by rewrite out_put_column | done].
    - split_and!; [apply column_put; [done|lia] | apply out_put_column | done]. }
  cbn [fst snd]. rewrite <- (andb_assoc (32 <=? c)), (andb_comm (negb (_ =? 128))), andb_assoc.
  destruct ((32 <=? c) && negb (c =? 127) && negb (Z.land c 192 =? 128)).
  - split_and!; [apply column_put; [done|lia] | apply out_put_column | done].
  - split_and!; [apply out_put_emits; [done|lia] | apply out_put_column | done].
Qed.

Lemma out_char_full t c : OUTQ - out_len t < 8 -> out_char t c = (t, 0).
Proof. intros H. unfold out_char. apply Z.ltb_lt in H. by rewrite H. Qed.

Lemma opost_column ofl col c : 0 <= col -> 0 <= (opost ofl col c).2.
Proof.
  intros Hc. unfold opost. pose proof (u32_bound (col + 1)) as B.
  pose proof (u32_bound (col + (8 - col mod 8))) as B2. unfold is_u32 in *.
  repeat case_bool; cbn; zbool; lia.
Qed.

Lemma emit_some t c : emits_some t (emit t c).
Proof.
  intros Ht Hc. unfold emit. destruct (decide (OUTQ - out_len t < 8)).
  - rewrite out_char_full by done. split; [|done]. exists []. by apply emits_refl.
  - pose proof (out_char_room t c Ht Hc ltac:(lia)) as Hw. unfold wrote in Hw.
    pose proof (opost_column (c_oflag (tio t)) _ c Hc) as Hcol.
    destruct (opost _ _ _) as [bs col]. destruct Hw as (He & <- & _). split; [by exists bs|done].
Qed.

Lemma echo_char_some t c : emits_some t (echo_char t c).
Proof.
  unfold echo_char. case_bool; [|apply emit_some]. etrans; apply emit_some.
Qed.

Lemma echo_if_some b t c : emits_some t (echo_if b t c).
Proof. destruct b; [apply echo_char_some|done]. Qed.

Lemma iter_some n f t : (forall t, emits_some t (f t)) -> emits_some t (Nat.iter n f t).
Proof. intros Hf. induction n as [|n IH]; [done|]. etrans; [exact IH|apply Hf]. Qed.

Lemma foldl_some (f : pty -> Z -> pty) l t : (forall t c, emits_some t (f t c)) -> emits_some t (foldl f t l).
Proof. intros Hf. revert t. induction l as [|c l IH]; intros t; [done|]. simpl. etrans; [apply Hf|apply IH]. Qed.

(** ** out_all: a prefix of the bytes, through OPOST *)

Lemma out_all_spec t buf : out_ok t -> 0 <= column t ->
  let '(t', n) := out_all t buf in
  0 <= n <= zlen buf /\
  (let '(bs, col) := opost_all (c_oflag (tio t)) (column t) (take (Z.to_nat n) buf) in
   emits t bs t' /\ column t' = col) /\
  (n < zlen buf -> OUTQ - out_len t' < 8).
Proof.
  revert t. induction buf as [|c buf IH]; intros t Ht Hc; cbn [out_all].
  { change (take (Z.to_nat 0) []) with (@nil Z). cbn [opost_all].
    split_and!; try done. by apply emits_refl. }
  destruct (decide (OUTQ - out_len t < 8)) as [Hfull|Hroom].
  { rewrite out_char_full by done. cbn. pose proof (zlen_nonneg (c :: buf)).
    change (take (Z.to_nat 0) (c :: buf)) with (@nil Z). cbn [opost_all].
    split_and!; try done. by apply emits_refl. }
  pose proof (out_char_room t c Ht Hc ltac:(lia)) as Hw. unfold wrote in Hw.
  pose proof (opost_column (c_oflag (tio t)) _ c Hc) as Hcol.
  destruct (opost _ _ c) as [b col] eqn:Eo. destruct (out_char t c) as [t1 k]. cbn [fst snd] in *.
  destruct Hw as (He & <- & Hk). destruct (k =? 0) eqn:E; zbool; [lia|].
  assert (Htio : tio t1 = tio t) by by destruct He.
  specialize (IH t1 (emits_ok _ _ _ He) Hcol). destruct (out_all t1 buf) as [t2 n].
  destruct IH as (Hn & Hpost & Hfull). rewrite zlen_cons. split_and!; [lia|lia| |intros; apply Hfull; lia].
  replace (Z.to_nat (1 + n)) with (S (Z.to_nat n)) by lia. change (take (S (Z.to_nat n)) (c :: buf)) with (c :: take (Z.to_nat n) buf). cbn [opost_all]. rewrite Eo.
  rewrite <- Htio. destruct (opost_all _ _ _) as [bs col2]. destruct Hpost as [He2 Hc2].
  split; [by eapply emits_trans|done].
Qed.

(** ** The state as a program sees it *)

Definition canonical (t : pty) : bool := has (c_lflag (tio t)) ICANON.
Definition in_bytes (t : pty) : list Z := contents INQ (in_ t) (in_head t) (in_len t).

Fixpoint split_lines (lens bytes : list Z) : list (list Z) :=
  match lens with
  | [] => []
  | n :: lens => take (Z.to_nat n) bytes :: split_lines lens (drop (Z.to_nat n) bytes)
  end.

(** the complete lines waiting (canonical mode) *)
Definition lines (t : pty) : list (list Z) := split_lines (rec_lens t) (in_bytes t).

Record pty_inv (t : pty) : Prop := {
  pi_in : ring_ok INQ (in_ t) (in_head t) (in_len t);
  pi_out : out_ok t;
  pi_rec : ring_ok RECS (rec t) (rec_head t) (nrec t);
  pi_line : zlen (line t) = LINE;
  pi_llen : 0 <= llen t <= LINE;
  pi_col : 0 <= column t;
  pi_lens : Forall (fun n => 0 <= n) (rec_lens t);
  pi_sum : if canonical t then zsum (rec_lens t) = in_len t else nrec t = 0;
}.

Lemma zlen_in_bytes t : pty_inv t -> zlen (in_bytes t) = in_len t.
Proof. intros I. apply zlen_contents, (ro_len _ _ _ _ (pi_in _ I)). Qed.

Lemma zlen_edited t : pty_inv t -> zlen (edited t) = llen t.
Proof.
  intros I. unfold edited. pose proof (pi_llen _ I). pose proof (pi_line _ I) as Hl.
  unfold zlen in *. rewrite length_take. lia.
Qed.

Lemma split_lines_snoc lens bytes l : Forall (fun n => 0 <= n) lens -> zsum lens = zlen bytes ->
  split_lines (lens ++ [zlen l]) (bytes ++ l) = split_lines lens bytes ++ [l].
Proof.
  intros Hpos. revert bytes. induction Hpos as [|n lens Hn Hpos IH]; intros bytes Hsum.
  { destruct bytes; [|rewrite zlen_cons in Hsum; cbn in Hsum; pose proof (zlen_nonneg bytes); lia].
    cbn. by rewrite take_ge by (unfold zlen; lia). }
  rewrite zsum_cons in Hsum. cbn [app split_lines].
  assert (Hs0 : 0 <= zsum lens).
  { clear -Hpos. induction Hpos; rewrite ?zsum_cons; [done|lia]. }
  assert (Hle : (Z.to_nat n <= length bytes)%nat) by (unfold zlen in Hsum; lia).
  rewrite take_app_le, drop_app_le by done. f_equal. apply IH.
  unfold zlen in *. rewrite length_drop. lia.
Qed.

(** ** Steps that only echo and shorten the line *)

Inductive trims (t : pty) : pty -> Prop :=
| Trims o l c n :
    ring_ok OUTQ o (out_head t) l -> 0 <= c -> 0 <= n <= llen t ->
    trims t (t <| out := o |> <| out_len := l |> <| column := c |> <| llen := n |>).

Definition trims_to (t t' : pty) : Prop :=
  out_ok t -> 0 <= column t -> 0 <= llen t -> trims t t'.

Lemma trims_refl t : out_ok t -> 0 <= column t -> 0 <= llen t -> trims t t.
Proof.
  intros Ho Hc Hl. assert (H : trims t (t <| out := out t |> <| out_len := out_len t |>
    <| column := column t |> <| llen := llen t |>)) by (by constructor; [| |lia]).
  by destruct t.
Qed.

#[export] Instance trims_to_po : PreOrder trims_to.
Proof.
  split; [intros t ???; by apply trims_refl|].
  intros t1 t2 t3 H12 H23 Ho Hc Hl. destruct (H12 Ho Hc Hl) as [o l c n Ho1 Hc1 Hn1].
  destruct (H23 Ho1 Hc1 (proj1 Hn1)) as [o2 l2 c2 n2 Ho2 Hc2 Hn2]. cbn in Ho2, Hn2.
  apply (Trims t1 o2 l2 c2 n2); [done|done|lia].
Qed.

Lemma emits_trims t t' : emits_some t t' -> trims_to t t'.
Proof.
  intros He Ho Hc Hl. destruct (He Ho Hc) as [[bs [o l c Ho' _]] Hc']. cbn in Hc'.
  assert (H : trims t (t <| out := o |> <| out_len := l |> <| column := c |> <| llen := llen t |>))
    by (by constructor; [| |lia]).
  by destruct t.
Qed.

Lemma shorten_trims t n : 0 <= n <= llen t -> trims_to t (t <| llen := n |>).
Proof.
  intros Hn Ho Hc Hl. assert (H : trims t (t <| out := out t |> <| out_len := out_len t |>
    <| column := column t |> <| llen := n |>)) by by constructor.
  by destruct t.
Qed.

Lemma seq_start_le l n : (seq_start l n <= n)%nat.
Proof. induction n as [|n IH]; cbn [seq_start]; [done|]. case_bool; lia. Qed.

(** where erase_one cuts the line *)
Definition erase_at (t : pty) : Z :=
  if has (c_iflag (tio t)) IUTF8 then Z.of_nat (seq_start (line t) (Z.to_nat (llen t - 1)))
  else llen t - 1.

Lemma erase_at_bound t : 0 < llen t -> 0 <= erase_at t < llen t.
Proof.
  intros Hl. unfold erase_at. case_bool; [|lia].
  pose proof (seq_start_le (line t) (Z.to_nat (llen t - 1))). lia.
Qed.

Lemma erase_one_llen t : 0 < llen t -> out_ok t -> 0 <= column t -> llen (erase_one t) = erase_at t.
Proof.
  intros Hl Ho Hc. unfold erase_one. destruct (llen t =? 0) eqn:E; zbool; [lia|]. fold (erase_at t).
  case_bool; [|done].
  assert (H : emits_some (t <| llen := erase_at t |>) (Nat.iter (Z.to_nat (last_width t (erase_at t)))
    (fun t => emit (emit (emit t 8) 32) 8) (t <| llen := erase_at t |>))).
  { apply iter_some. intros u. etrans; [apply emit_some|]. etrans; apply emit_some. }
  destruct (H Ho Hc) as [[bs [o l c Ho' _]] _]. done.
Qed.

Lemma erase_one_trims t : trims_to t (erase_one t).
Proof.
  unfold erase_one. destruct (llen t =? 0) eqn:E; [done|]. fold (erase_at t).
  intros Ho Hc Hl. zbool. pose proof (erase_at_bound t ltac:(lia)) as Hb.
  assert (H : trims_to t (t <| llen := erase_at t |>)) by (apply shorten_trims; lia).
  case_bool; [|by apply H].
  assert (H2 : trims_to t (Nat.iter (Z.to_nat (last_width t (erase_at t)))
    (fun t => emit (emit (emit t 8) 32) 8) (t <| llen := erase_at t |>))); [|by apply H2].
  etrans; [exact H|]. apply emits_trims, iter_some. intros u.
  etrans; [apply emit_some|]. etrans; apply emit_some.
Qed.

Lemma erase_while_trims fuel p t : trims_to t (erase_while fuel p t).
Proof.
  revert t. induction fuel as [|fuel IH]; intros t; cbn [erase_while]; [done|].
  case_bool; [|done]. etrans; [apply erase_one_trims|apply IH].
Qed.

Lemma inv_trims t t' : trims_to t t' -> pty_inv t -> pty_inv t'.
Proof.
  intros H I. pose proof (pi_llen _ I) as Hl.
  destruct (H (pi_out _ I) (pi_col _ I) (proj1 Hl)) as [o l c n Ho Hc Hn].
  destruct I. split; try done. cbn. lia.
Qed.

(** ** Putting bytes in the queue *)

(** what fits of [s] *)
Definition fitting (t : pty) (s : list Z) : list Z := take (Z.to_nat (in_room t)) s.

Lemma in_put_spec t s : ring_ok INQ (in_ t) (in_head t) (in_len t) -> exists o,
  in_put t s = t <| in_ := o |> <| in_len := in_len t + zlen (fitting t s) |> /\
  ring_ok INQ o (in_head t) (in_len t + zlen (fitting t s)) /\
  contents INQ o (in_head t) (in_len t + zlen (fitting t s)) = in_bytes t ++ fitting t s.
Proof.
  revert t. induction s as [|c s IH]; intros t Ht.
  { exists (in_ t). unfold fitting. rewrite take_nil. change (zlen (@nil Z)) with 0.
    rewrite Z.add_0_r, app_nil_r. split_and!; [by destruct t | done | done]. }
  cbn [in_put]. pose proof (ro_len _ _ _ _ Ht) as Hlen. unfold fitting, in_room.
  destruct (in_len t <? INQ) eqn:E; zbool.
  2:{ exists (in_ t). replace (INQ - in_len t) with 0 by lia. change (take _ _) with (@nil Z).
      change (zlen (@nil Z)) with 0. rewrite Z.add_0_r, app_nil_r.
      split_and!; [by destruct t | done | done]. }
  set (t1 := t <| in_ := put INQ (in_ t) (in_head t) (in_len t) c |> <| in_len ::= Z.add 1 |>).
  assert (H1 : ring_ok INQ (in_ t1) (in_head t1) (in_len t1)).
  { cbn. rewrite Z.add_comm. by apply put_ok. }
  assert (Hb : in_bytes t1 = in_bytes t ++ [c]).
  { unfold in_bytes. cbn. rewrite Z.add_comm. apply put_contents; try done. }
  destruct (IH t1 H1) as (o & -> & Ho & Hc). exists o. unfold fitting, in_room in *.
  assert (Htk : take (Z.to_nat (INQ - in_len t)) (c :: s) = c :: take (Z.to_nat (INQ - in_len t1)) s).
  { change (in_len t1) with (1 + in_len t).
    replace (Z.to_nat (INQ - in_len t)) with (S (Z.to_nat (INQ - (1 + in_len t)))) by lia. done. }
  rewrite Htk, zlen_cons.
  assert (Hl : in_len t + (1 + zlen (take (Z.to_nat (INQ - in_len t1)) s)) =
    in_len t1 + zlen (take (Z.to_nat (INQ - in_len t1)) s)) by (change (in_len t1) with (1 + in_len t); lia).
  rewrite Hl. split_and!; [done | done |]. change (in_head t1) with (in_head t) in Hc.
  rewrite Hc, Hb, <- app_assoc. done.
Qed.

Lemma fitting_all t s : zlen s <= in_room t -> fitting t s = s.
Proof. intros H. unfold fitting. apply take_ge. unfold zlen in H. lia. Qed.

(** ** line_done *)

Lemma line_done_spec t : pty_inv t -> canonical t = true ->
  pty_inv (line_done t) /\ llen (line_done t) = 0 /\ tio (line_done t) = tio t /\
  (nrec t < RECS -> llen t <= in_room t -> lines (line_done t) = lines t ++ [edited t] /\
     nrec (line_done t) = nrec t + 1 /\ in_len (line_done t) = in_len t + llen t) /\
  (RECS <= nrec t \/ in_room t < llen t -> line_done t = t <| llen := 0 |>).
Proof.
  intros I Hcan. pose proof (pi_sum _ I) as Hsum. rewrite Hcan in Hsum.
  pose proof (pi_llen _ I) as Hl. pose proof (ro_len _ _ _ _ (pi_rec _ I)) as Hnr.
  pose proof (zlen_edited _ I) as Hed.
  unfold line_done. destruct ((nrec t =? RECS) || (in_room t <? llen t)) eqn:E.
  { assert (I' : pty_inv (t <| llen := 0 |>)).
    { apply (inv_trims t); [|done]. apply shorten_trims. lia. }
    split_and!; try done. intros. exfalso. zbool. destruct E as [E|E]; zbool; lia. }
  zbool. destruct (in_put_spec t (edited t) (pi_in _ I)) as (o & -> & Ho & Hc).
  rewrite fitting_all in * by lia. rewrite Hed in *.
  assert (Hlens : contents RECS (put RECS (rec t) (rec_head t) (nrec t) (llen t)) (rec_head t) (nrec t + 1)
    = rec_lens t ++ [llen t]) by (apply put_contents; [done|apply I|lia]).
  assert (Hzl : zlen (in_bytes t) = in_len t) by by apply zlen_in_bytes.
  split_and!; try done.
  - split; cbn; try apply I; try done.
    + rewrite Z.add_comm. apply put_ok; [apply I|lia].
    + unfold rec_lens. cbn. rewrite (Z.add_comm 1), Hlens. apply Forall_app. split; [apply I|].
      constructor; [lia|constructor].
    + unfold canonical in *. cbn. rewrite Hcan. unfold rec_lens. cbn.
      rewrite (Z.add_comm 1), Hlens, zsum_app, Hsum. cbn. lia.
  - intros _ _. split_and!; [|cbn; lia|done]. unfold lines, rec_lens, in_bytes. cbn.
    rewrite (Z.add_comm 1), Hlens, Hc, <- Hed at 1. rewrite split_lines_snoc; [done|apply I|lia].
  - intros [?|?]; lia.
Qed.

Lemma flush_input_inv t : pty_inv t -> pty_inv (flush_input t) /\ lines (flush_input t) = [].
Proof.
  intros I. split; [|done]. pose proof (pi_line _ I). destruct I as [[] ? [] ? ? ? ? ?].
  split; cbn; try done. by destruct (canonical _).
Qed.

Lemma out_drop_inv t : pty_inv t -> pty_inv (t <| out_len := 0 |>).
Proof.
  intros [I1 I2 I3 I4 I5 I6 I7 I8]. constructor; try assumption.
  destruct I2 as [B H L]. constructor; [exact B | exact H | cbn; unfold OUTQ; lia].
Qed.

Lemma line_put_inv t c : pty_inv t -> llen t < LINE -> pty_inv (line_put t c).
Proof.
  intros [] Hl. split; try done; cbn; [by rewrite zlen_aset | lia].
Qed.

Lemma edited_put t c : pty_inv t -> llen t < LINE -> edited (line_put t c) = edited t ++ [c].
Proof.
  intros I Hl. pose proof (pi_llen _ I) as Hb. pose proof (pi_line _ I) as Hz. unfold edited, line_put. cbn.
  replace (Z.to_nat (1 + llen t)) with (S (Z.to_nat (llen t))) by lia.
  unfold aset. rewrite (take_S_r _ _ c).
  - by rewrite take_insert_ge by lia.
  - apply list_lookup_insert_eq. unfold zlen in Hz. lia.
Qed.

Lemma echo_if_inv b t c : pty_inv t -> pty_inv (echo_if b t c).
Proof. apply inv_trims, emits_trims, echo_if_some. Qed.

(** ** Every typed byte keeps the invariant *)

Lemma type_canon_inv t c : pty_inv t -> canonical t = true -> pty_inv (type_canon t c).
Proof.
  intros I Hcan. unfold type_canon. pose proof (pi_llen _ I) as Hl.
  case_bool.
  { assert (I' : pty_inv (t <| lnext := true |>)) by by destruct I.
    case_bool; [|done]. revert I'. apply inv_trims, emits_trims. etrans; apply emit_some. }
  case_bool; [revert I; apply inv_trims, erase_one_trims|].
  case_bool; [revert I; apply inv_trims; etrans; apply erase_while_trims|].
  case_bool.
  { case_bool; [revert I; apply inv_trims, erase_while_trims|].
    assert (I' : pty_inv (t <| llen := 0 |>)) by (revert I; apply inv_trims, shorten_trims; lia).
    case_bool; [|done]. revert I'. apply inv_trims, emits_trims, emit_some. }
  case_bool.
  { case_bool; [|done]. revert I. apply inv_trims, emits_trims.
    etrans; [apply echo_char_some|]. etrans; [apply emit_some|]. apply foldl_some, echo_char_some. }
  case_bool; [by apply line_done_spec|]. cbv zeta.
  set (eol := (c =? 10) || _ || _). set (b := (llen t <? LINE - 1) || (eol && (llen t <? LINE))).
  set (t1 := if b then line_put t c else t).
  assert (I1 : pty_inv t1 /\ canonical t1 = true).
  { subst t1. destruct b eqn:Eb; [|done]. split; [|done]. apply line_put_inv; [done|].
    subst b. apply orb_true_iff in Eb as [Eb|Eb]; zbool; lia. }
  destruct I1 as [I1 Hc1]. pose proof (echo_if_inv (has (c_lflag (tio t)) ECHO ||
    ((c =? 10) && has (c_lflag (tio t)) ECHONL)) t1 c I1) as I2.
  case_bool; [|done]. apply line_done_spec; [done|].
  destruct (echo_if_some (has (c_lflag (tio t)) ECHO || ((c =? 10) && has (c_lflag (tio t)) ECHONL)) t1 c
    (pi_out _ I1) (pi_col _ I1)) as [[bs [o l col Ho _]] _]. done.
Qed.

Lemma type_raw_inv t c : pty_inv t -> canonical t = false -> pty_inv (type_raw t c).1.
Proof.
  intros I Hcan. unfold type_raw. case_bool; [done|]. cbn [fst]. apply echo_if_inv.
  destruct (in_put_spec t [c] (pi_in _ I)) as (o & -> & Ho & _). destruct I.
  split; try done. unfold canonical in *. cbn. by rewrite Hcan in *.
Qed.

Lemma type_char_inv t c : pty_inv t -> pty_inv (type_char t c).1.
Proof.
  intros I. unfold type_char. fold (canonical t). destruct (lnext t).
  { assert (I' : pty_inv (t <| lnext := false |>)) by by destruct I.
    destruct (canonical t) eqn:Hcan; [|by apply type_raw_inv]. cbn [fst]. apply echo_if_inv.
    case_bool; [|done]. zbool. apply line_put_inv; [done|]. cbn in *. lia. }
  destruct (map_char _ _) as [c'|]; [|done]. 
  case_bool; [by destruct I|]. case_bool; [by destruct I|].
  set (t1 := if has _ IXON && _ then _ else t).
  assert (I1 : pty_inv t1 /\ canonical t1 = canonical t).
  { subst t1. case_bool; [|done]. split; [by destruct I|done]. }
  destruct I1 as [I1 Hc1]. case_bool.
  { cbn [fst]. apply echo_if_inv.
    assert (I2 : pty_inv (t1 <| events ::= fun e => Z.lor e (sig_of t1 c') |>)) by by destruct I1.
    case_bool; [done|]. apply out_drop_inv. by apply flush_input_inv. }
  destruct (canonical t) eqn:Hcan; [by apply type_canon_inv|by apply type_raw_inv].
Qed.
