(* ===== verification/PtyOps.v ===== *)
(** The calls on a terminal: what each read gives, what changing the modes
    does to the bytes that wait, and the invariant under every call. *)

From S2P Require Import Prelude Pty PtyIn.

(** ** Reads *)

Lemma in_take_spec t n : pty_inv t -> 0 <= n <= in_len t ->
  ring_ok INQ (in_ (in_take t n)) (in_head (in_take t n)) (in_len (in_take t n)) /\
  contents INQ (in_ t) (in_head t) n = take (Z.to_nat n) (in_bytes t) /\
  in_bytes (in_take t n) = drop (Z.to_nat n) (in_bytes t).
Proof.
  intros I Hn. pose proof (ro_head _ _ _ _ (pi_in _ I)) as Hh.
  destruct (contents_take INQ INQ_pos (in_ t) (in_head t) (in_len t) n Hn ltac:(lia)) as [H1 H2].
  split_and!; [apply take_ok; [done|apply I|exact Hn] | done | done].
Qed.

(** the records after the first one's length changes or goes *)
Lemma rec_lens_cons t : pty_inv t -> 0 < nrec t ->
  rec_lens t = aget (rec t) (rec_head t) :: rec_lens (next_rec t) /\
  ring_ok RECS (rec t) ((rec_head t + 1) mod RECS) (nrec t - 1).
Proof.
  intros I Hn. pose proof (pi_rec _ I) as R. pose proof (ro_head _ _ _ _ R) as Hh.
  split; [|apply take_ok; [done|done|lia]].
  unfold rec_lens. replace (nrec t) with (1 + (nrec t - 1)) at 1 by lia.
  rewrite contents_add by (done || lia). cbn [next_rec]. f_equal.
  change (contents RECS (rec t) (rec_head t) 1) with [aget (rec t) ((rec_head t + 0) mod RECS)].
  rewrite Z.add_0_r, Z.mod_small by done. done.
Qed.

(** writing the first record's length leaves the others *)
Lemma rec_set_tail t n : pty_inv t -> 0 < nrec t ->
  contents RECS (aset (rec t) (rec_head t) n) ((rec_head t + 1) mod RECS) (nrec t - 1)
    = rec_lens (next_rec t).
Proof.
  intros I Hn. destruct (pi_rec _ I) as [Hb Hh Hl]. unfold rec_lens, next_rec. cbn.
  unfold contents. apply list_fmap_ext. intros i x Hx. apply lookup_seqZ in Hx as [-> Hi].
  apply aget_aset_ne; [lia | apply Z.mod_pos_bound; done |].
  rewrite Zplus_mod_idemp_l. intros Heq.
  replace (rec_head t + 1 + (0 + Z.of_nat i)) with (rec_head t + (1 + Z.of_nat i)) in Heq by lia.
  destruct (decide (rec_head t + (1 + Z.of_nat i) < RECS)).
  - rewrite Z.mod_small in Heq by lia. lia.
  - rewrite <- (Z.mod_unique (rec_head t + (1 + Z.of_nat i)) RECS 1 (rec_head t + (1 + Z.of_nat i) - RECS)) in Heq; lia.
Qed.

Lemma rec_lens_set t n : pty_inv t -> 0 < nrec t ->
  contents RECS (aset (rec t) (rec_head t) n) (rec_head t) (nrec t) = n :: rec_lens (next_rec t) /\
  ring_ok RECS (aset (rec t) (rec_head t) n) (rec_head t) (nrec t) /\
  ring_ok RECS (aset (rec t) (rec_head t) n) ((rec_head t + 1) mod RECS) (nrec t - 1).
Proof.
  intros I Hn. pose proof (pi_rec _ I) as R. destruct R as [Hb Hh Hl].
  assert (R2 : ring_ok RECS (aset (rec t) (rec_head t) n) (rec_head t) (nrec t))
    by (by split; rewrite ?zlen_aset).
  split_and!; [|done|apply take_ok; [done|done|lia]].
  rewrite <- (rec_set_tail t n I Hn). replace (nrec t) with (1 + (nrec t - 1)) at 1 by lia.
  rewrite contents_add by (done || lia).
  change (contents RECS ?b (rec_head t) 1) with [aget b ((rec_head t + 0) mod RECS)].
  rewrite Z.add_0_r, Z.mod_small by done. by rewrite aget_aset_eq by lia.
Qed.

(** what a read of [n] bytes takes of the lines that wait *)
Definition read_line (n : Z) (ls : list (list Z)) : list Z * list (list Z) :=
  match ls with
  | [] => ([], [])
  | l :: ls => (take (Z.to_nat n) l,
                match drop (Z.to_nat n) l with [] => ls | l' => l' :: ls end)
  end.

Lemma lines_cons t : pty_inv t -> 0 < nrec t ->
  lines t = take (Z.to_nat (aget (rec t) (rec_head t))) (in_bytes t) ::
    split_lines (rec_lens (next_rec t)) (drop (Z.to_nat (aget (rec t) (rec_head t))) (in_bytes t)).
Proof. intros I Hn. unfold lines. by destruct (rec_lens_cons t I Hn) as [-> _]. Qed.

Lemma lines_nil t : pty_inv t -> nrec t = 0 <-> lines t = [].
Proof.
  intros I. pose proof (ro_len _ _ _ _ (pi_rec _ I)). split.
  - intros H0. unfold lines, rec_lens. by rewrite H0.
  - intros Hl. destruct (decide (nrec t = 0)); [done|]. rewrite lines_cons in Hl by (done || lia). done.
Qed.

(** the first line's length is within the queue *)
Lemma first_rec_bound t : pty_inv t -> canonical t = true -> 0 < nrec t ->
  0 <= aget (rec t) (rec_head t) <= in_len t /\
  zsum (rec_lens (next_rec t)) = in_len t - aget (rec t) (rec_head t) /\
  Forall (fun n => 0 <= n) (rec_lens (next_rec t)).
Proof.
  intros I Hcan Hn. destruct (rec_lens_cons t I Hn) as [Hr _].
  pose proof (pi_sum _ I) as Hs. rewrite Hcan, Hr, zsum_cons in Hs.
  pose proof (pi_lens _ I) as Hp. rewrite Hr in Hp. apply Forall_cons in Hp as [Hp1 Hp2].
  assert (0 <= zsum (rec_lens (next_rec t))).
  { clear -Hp2. induction Hp2; rewrite ?zsum_cons; [done|lia]. }
  split_and!; [lia | lia | lia | done].
Qed.

Lemma slave_read_canonical t n : pty_inv t -> canonical t = true -> 0 <= n ->
  let '(t', r, bytes) := pty_slave_read t n in
  pty_inv t' /\ canonical t' = true /\ edited t' = edited t /\
  (lines t = [] -> t' = t /\ bytes = [] /\ r = nothing_to_read t) /\
  (lines t <> [] -> r = zlen bytes /\ (bytes, lines t') = read_line n (lines t)).
Proof.
  intros I Hcan Hn. unfold pty_slave_read. fold (canonical t). rewrite Hcan.
  pose proof (ro_len _ _ _ _ (pi_rec _ I)) as Hnr. pose proof (zlen_in_bytes _ I) as Hzl.
  destruct (nrec t =? 0) eqn:E; zbool.
  { split_and!; try done. intros Hl. by apply lines_nil in E. }
  destruct (first_rec_bound t I Hcan ltac:(lia)) as (Hb & Hs & Hp).
  destruct (rec_lens_cons t I ltac:(lia)) as [Hr Hring].
  assert (Hne : lines t <> []) by (rewrite <- lines_nil by done; done).
  set (len := aget (rec t) (rec_head t)) in *.
  assert (Hlines := lines_cons t I ltac:(lia)). fold len in Hlines.
  destruct (len =? 0) eqn:E0; zbool.
  { rewrite E0 in *. split_and!; try done.
    - destruct I. split; try done. unfold canonical in *. cbn. rewrite Hcan. lia.
    - intros _. split; [done|]. rewrite Hlines. cbn [read_line].
      change (take (Z.to_nat 0) (in_bytes t)) with (@nil Z). by rewrite take_nil, drop_nil. }
  set (tk := if len <? n then len else n).
  assert (Htk : tk = Z.min len n) by (subst tk; destruct (len <? n) eqn:Et; zbool; lia).
  destruct (in_take_spec t tk I ltac:(lia)) as (R1 & R2 & R3).
  set (t1 := in_take t tk <| rec ::= fun r => aset r (rec_head t) (len - tk) |>).
  assert (Hlen : length (in_bytes t) = Z.to_nat (in_len t)) by (unfold zlen in Hzl; lia).
  assert (Hread : contents INQ (in_ t) (in_head t) tk = take (Z.to_nat n) (take (Z.to_nat len) (in_bytes t))).
  { rewrite R2, take_take. f_equal. lia. }
  assert (Hz : tk = zlen (contents INQ (in_ t) (in_head t) tk)) by (rewrite zlen_contents; lia).
  destruct (rec_lens_set t (len - tk) I ltac:(lia)) as (Hset & Hring2 & Hring3).
  pose proof (rec_set_tail t (len - tk) I ltac:(lia)) as Htail.
  destruct (len - tk =? 0) eqn:E1; zbool.
  - split_and!; try done.
    + destruct I. split; try done; unfold rec_lens; cbn in *; [by rewrite Htail|].
      unfold canonical in *. cbn. rewrite Hcan, Htail, Hs. lia.
    + intros _. split; [done|]. rewrite Hlines, Hread. cbn [read_line]. f_equal.
      rewrite (drop_ge (take _ _)) by (rewrite length_take; lia).
      assert (Hib : in_bytes (next_rec t1) = drop (Z.to_nat tk) (in_bytes t)) by exact R3.
      assert (Hrl : rec_lens (next_rec t1) = rec_lens (next_rec t)) by exact Htail.
      unfold lines. rewrite Hib, Hrl. do 3 f_equal. lia.
  - split_and!; try done.
    + destruct I. split; try done; unfold rec_lens; cbn in *; [rewrite Hset; by constructor; [lia|]|].
      unfold canonical in *. cbn. rewrite Hcan, Hset, zsum_cons, Hs. lia.
    + intros _. split; [done|]. rewrite Hlines, Hread. cbn [read_line]. f_equal.
      destruct (drop (Z.to_nat n) (take (Z.to_nat len) (in_bytes t))) eqn:Ed.
      { apply (f_equal length) in Ed. rewrite length_drop, length_take in Ed. cbn in Ed. lia. }
      assert (Hib : in_bytes t1 = drop (Z.to_nat tk) (in_bytes t)) by exact R3.
      assert (Hrl : rec_lens t1 = (len - tk) :: rec_lens (next_rec t)) by exact Hset.
      rewrite <- Ed. unfold lines. rewrite Hib, Hrl. cbn [split_lines].
      replace (Z.to_nat n) with (Z.to_nat tk) by lia.
      rewrite drop_drop, take_drop_commute. f_equal.
      * do 2 f_equal. lia.
      * do 2 f_equal. lia.
Qed.

Lemma slave_read_raw t n : pty_inv t -> canonical t = false -> 0 <= n ->
  let '(t', r, bytes) := pty_slave_read t n in
  pty_inv t' /\ canonical t' = false /\
  (in_len t = 0 -> t' = t /\ bytes = [] /\ r = nothing_to_read t) /\
  (in_len t <> 0 -> r = zlen bytes /\ bytes = take (Z.to_nat n) (in_bytes t) /\
     in_bytes t' = drop (Z.to_nat n) (in_bytes t)).
Proof.
  intros I Hcan Hn. unfold pty_slave_read. fold (canonical t). rewrite Hcan.
  pose proof (ro_len _ _ _ _ (pi_in _ I)) as Hl. pose proof (zlen_in_bytes _ I) as Hzl.
  destruct (in_len t =? 0) eqn:E; zbool; [by split_and!|].
  set (tk := if in_len t <? n then in_len t else n).
  assert (Htk : tk = Z.min (in_len t) n) by (subst tk; destruct (in_len t <? n) eqn:Et; zbool; lia).
  destruct (in_take_spec t tk I ltac:(lia)) as (R1 & R2 & R3).
  assert (Hlen : length (in_bytes t) = Z.to_nat (in_len t)) by (unfold zlen in Hzl; lia).
  split_and!; try done.
  - destruct I. split; try done. unfold canonical in *. cbn. by rewrite Hcan in *.
  - intros _. split_and!; [by rewrite zlen_contents by lia | |].
    + rewrite R2. destruct (decide (n <= in_len t)); [f_equal; lia|]. rewrite !take_ge by lia. done.
    + rewrite R3. destruct (decide (n <= in_len t)); [f_equal; lia|]. rewrite !drop_ge by lia. done.
Qed.

Lemma master_read_spec t n : pty_inv t -> 0 <= n ->
  let '(t', r, bytes) := pty_master_read t n in
  pty_inv t' /\
  (out_len t = 0 -> t' = t /\ bytes = [] /\ r = (if slave_seen t && (slaves t =? 0) then -5 else -11)) /\
  (out_len t <> 0 -> r = zlen bytes /\ bytes = take (Z.to_nat n) (out_bytes t) /\
     out_bytes t' = drop (Z.to_nat n) (out_bytes t)).
Proof.
  intros I Hn. unfold pty_master_read. pose proof (pi_out _ I) as O.
  pose proof (ro_len _ _ _ _ O) as Hl. pose proof (ro_head _ _ _ _ O) as Hh.
  destruct (out_len t =? 0) eqn:E; zbool; [by split_and!|].
  set (tk := if out_len t <? n then out_len t else n).
  assert (Htk : tk = Z.min (out_len t) n) by (subst tk; destruct (out_len t <? n) eqn:Et; zbool; lia).
  destruct (contents_take OUTQ OUTQ_pos (out t) (out_head t) (out_len t) tk ltac:(lia) ltac:(lia)) as [R2 R3].
  assert (Hlen : length (out_bytes t) = Z.to_nat (out_len t)).
  { pose proof (zlen_contents OUTQ (out t) (out_head t) (out_len t) ltac:(lia)) as Hz.
    unfold out_bytes, zlen in *. lia. }
  split_and!; try done.
  - destruct I. split; try done. exact (take_ok OUTQ OUTQ_pos _ _ _ tk O ltac:(lia)).
  - intros _. unfold out_bytes in *. split_and!; [by rewrite zlen_contents by lia | |].
    + rewrite R2. destruct (decide (n <= out_len t)); [f_equal; lia|]. rewrite !take_ge by lia. done.
    + cbn. rewrite R3. destruct (decide (n <= out_len t)); [f_equal; lia|]. rewrite !drop_ge by lia. done.
Qed.

(** ** Changing the modes *)

(** the waiting lines as plain bytes: an end of file is the character [eof] *)
Definition plain_line (eof : Z) (l : list Z) : list Z := match l with [] => [eof] | _ => l end.
Definition plain_lines (eof : Z) (ls : list (list Z)) : list Z := concat (plain_line eof <$> ls).

Definition eof_count (lens : list Z) : Z := zlen (filter (fun len => len = 0) lens).

Lemma eof_count_cons n lens : eof_count (n :: lens) = (if n =? 0 then 1 else 0) + eof_count lens.
Proof.
  unfold eof_count. rewrite filter_cons. destruct (n =? 0) eqn:E; zbool.
  - rewrite decide_True by done. apply zlen_cons.
  - by rewrite decide_False by done.
Qed.

Lemma zsum_nonneg lens : Forall (fun n => 0 <= n) lens -> 0 <= zsum lens.
Proof. induction 1; rewrite ?zsum_cons; [done|lia]. Qed.

Lemma unrecord_spec t eof at_ lens : 0 <= at_ -> Forall (fun n => 0 <= n) lens ->
  unrecord t eof at_ lens = plain_lines eof (split_lines lens (contents INQ (in_ t) at_ (zsum lens))).
Proof.
  intros Hat Hp. revert at_ Hat. induction Hp as [|n lens Hn Hp IH]; intros at_ Hat; [done|].
  pose proof (zsum_nonneg _ Hp). rewrite zsum_cons. cbn [unrecord split_lines].
  destruct (n =? 0) eqn:E; zbool.
  - subst n. by rewrite (IH at_ Hat).
  - rewrite (IH ((at_ + n) mod INQ)) by (apply Z.mod_pos_bound, INQ_pos).
    rewrite contents_add by (apply INQ_pos || lia).
    pose proof (zlen_contents INQ (in_ t) at_ n Hn) as Hl.
    rewrite take_app_length', drop_app_length' by (unfold zlen in Hl; lia).
    unfold plain_lines. rewrite fmap_cons. cbn [concat]. f_equal.
    destruct (contents INQ (in_ t) at_ n) eqn:Ec; [unfold zlen in Hl; cbn in Hl; lia|done].
Qed.

Lemma zlen_unrecord t eof at_ lens : Forall (fun n => 0 <= n) lens ->
  zlen (unrecord t eof at_ lens) = zsum lens + eof_count lens.
Proof.
  intros Hp. revert at_. induction Hp as [|n lens Hn Hp IH]; intros at_; [done|].
  rewrite zsum_cons, eof_count_cons. cbn [unrecord]. destruct (n =? 0) eqn:E; zbool.
  - rewrite zlen_cons, IH. lia.
  - rewrite zlen_app, IH, zlen_contents by done. lia.
Qed.

Lemma concat_split_lines lens bytes : Forall (fun n => 0 <= n) lens -> zsum lens = zlen bytes ->
  concat (split_lines lens bytes) = bytes.
Proof.
  intros Hp. revert bytes. induction Hp as [|n lens Hn Hp IH]; intros bytes Hs.
  { destruct bytes; [done|]. rewrite zlen_cons in Hs. pose proof (zlen_nonneg bytes). cbn in Hs. lia. }
  rewrite zsum_cons in Hs. pose proof (zsum_nonneg _ Hp). cbn. rewrite IH; [apply take_drop|].
  unfold zlen in *. rewrite length_drop. lia.
Qed.

(** no end of file waits: the plain bytes are the queue *)
Lemma plain_lines_no_eof eof lens bytes : Forall (fun n => 0 <= n) lens -> zsum lens = zlen bytes ->
  eof_count lens = 0 -> plain_lines eof (split_lines lens bytes) = bytes.
Proof.
  intros Hp. revert bytes. induction Hp as [|n lens Hn Hp IH]; intros bytes Hs He.
  { destruct bytes; [done|]. rewrite zlen_cons in Hs. pose proof (zlen_nonneg bytes). cbn in Hs. lia. }
  pose proof (zsum_nonneg _ Hp). rewrite zsum_cons in Hs. rewrite eof_count_cons in He.
  pose proof (zlen_nonneg (filter (fun l => l = 0) lens)). unfold eof_count in He, IH.
  destruct (n =? 0) eqn:E; zbool; [lia|]. unfold plain_lines. cbn [split_lines].
  rewrite fmap_cons. cbn [concat]. fold (plain_lines eof (split_lines lens (drop (Z.to_nat n) bytes))).
  rewrite IH; [|unfold zlen in *; rewrite length_drop; lia | lia].
  assert (Hne : plain_line eof (take (Z.to_nat n) bytes) = take (Z.to_nat n) bytes).
  { destruct (take (Z.to_nat n) bytes) eqn:Et; [|done]. apply (f_equal length) in Et.
    rewrite length_take in Et. unfold zlen in *. cbn in Et. lia. }
  rewrite Hne. apply take_drop.
Qed.

Definition eof_char (new : pty_termios_t) : Z :=
  if aget (c_cc new) VEOF =? 0 then 4 else aget (c_cc new) VEOF.

(** with the lines turned into plain bytes there is room for all of them *)
Definition eofs_fit (t : pty) : Prop := in_len t + eof_count (rec_lens t) <= INQ.

(** the queue of a terminal just out of canonical mode: an invariant but for
    its records *)
Record raw_ready (t : pty) : Prop := {
  rr_in : ring_ok INQ (in_ t) (in_head t) (in_len t);
  rr_out : out_ok t;
  rr_rec : zlen (rec t) = RECS;
  rr_line : zlen (line t) = LINE;
  rr_llen : 0 <= llen t <= LINE;
  rr_col : 0 <= column t;
  rr_raw : canonical t = false;
}.

(** the last steps of pty_set_termios on leaving canonical mode *)
Lemma leave_canonical t : raw_ready t ->
  let t' := in_put t (edited t) <| llen := 0 |> <| nrec := 0 |> <| rec_head := 0 |> in
  pty_inv t' /\ in_bytes t' = in_bytes t ++ fitting t (edited t).
Proof.
  intros [R1 R2 R3 R4 R5 R6 R7]. destruct (in_put_spec t (edited t) R1) as (o & -> & Ho & Hc).
  cbv zeta. split; [|exact Hc]. constructor; try done.
  unfold canonical in *. cbn. by rewrite R7.
Qed.

(** the queue rewritten with the ends of file as characters *)
Lemma unrecord_queue t l : ring_ok INQ (in_ t) (in_head t) (in_len t) -> zlen l <= INQ -> exists o,
  in_put (t <| in_head := 0 |> <| in_len := 0 |>) l
    = t <| in_head := 0 |> <| in_ := o |> <| in_len := zlen l |> /\
  ring_ok INQ o 0 (zlen l) /\ contents INQ o 0 (zlen l) = l.
Proof.
  intros R Hl. set (t0 := t <| in_head := 0 |> <| in_len := 0 |>).
  assert (R0 : ring_ok INQ (in_ t0) (in_head t0) (in_len t0)).
  { destruct R as [B H L]. constructor; [exact B | cbn; unfold INQ; lia | cbn; unfold INQ; lia]. }
  destruct (in_put_spec t0 l R0) as (o & -> & Ho & Hc).
  rewrite fitting_all in * by (unfold in_room; cbn; lia).
  exists o. split_and!; [done | exact Ho | exact Hc].
Qed.

(** what set_termios leaves in the queue, before the last touch to [stopped] *)
Definition switch (t : pty) (new : pty_termios_t) : pty :=
  let was := has (c_lflag (tio t)) ICANON in
  let now := has (c_lflag new) ICANON in
  let t := t <| tio := new |> in
  if was && negb now then
    let eofs := zlen (filter (fun len => len = 0) (rec_lens t)) in
    let t := if negb (eofs =? 0) && (in_len t + eofs <=? INQ)
             then in_put (t <| in_head := 0 |> <| in_len := 0 |>)
                    (unrecord t (eof_char new) (in_head t) (rec_lens t))
             else t in
    in_put t (edited t) <| llen := 0 |> <| nrec := 0 |> <| rec_head := 0 |>
  else if negb was && now && negb (in_len t =? 0) then
    t <| nrec := 1 |> <| rec_head := 0 |> <| rec ::= fun r => aset r 0 (in_len t) |>
  else t.

Lemma switch_to_raw t new : pty_inv t -> canonical t = true -> has (c_lflag new) ICANON = false ->
  pty_inv (switch t new) /\ llen (switch t new) = 0 /\
  (eofs_fit t -> exists fit, fit `prefix_of` edited t /\
     in_bytes (switch t new) = plain_lines (eof_char new) (lines t) ++ fit /\
     (in_len t + eof_count (rec_lens t) + llen t <= INQ -> fit = edited t)).
Proof.
  intros I Hcan Hnow. unfold canonical in Hcan. unfold switch. rewrite Hcan, Hnow. cbn [negb andb].
  set (t0 := t <| tio := new |>). change (rec_lens t0) with (rec_lens t).
  fold (eof_count (rec_lens t)). pose proof (pi_sum _ I) as Hsum. unfold canonical in Hsum. rewrite Hcan in Hsum.
  assert (Hin : contents INQ (in_ t) (in_head t) (zsum (rec_lens t)) = in_bytes t) by by rewrite Hsum.
  pose proof (pi_lens _ I) as Hpos. pose proof (zlen_in_bytes _ I) as Hzl. pose proof (zlen_edited _ I) as Hed.
  assert (Hun : unrecord t0 (eof_char new) (in_head t0) (rec_lens t) = plain_lines (eof_char new) (lines t)).
  { rewrite (unrecord_spec t0) by (done || apply (ro_head _ _ _ _ (pi_in _ I))).
    change (in_ t0) with (in_ t). change (in_head t0) with (in_head t). by rewrite Hin. }
  assert (Hunl : zlen (unrecord t0 (eof_char new) (in_head t0) (rec_lens t)) = in_len t + eof_count (rec_lens t)).
  { rewrite zlen_unrecord by done. lia. }
  set (b := negb (eof_count (rec_lens t) =? 0) && (in_len t0 + eof_count (rec_lens t) <=? INQ)).
  set (t1 := if b then _ else t0).
  assert (H1 : raw_ready t1 /\ edited t1 = edited t /\
    (eofs_fit t -> in_bytes t1 = plain_lines (eof_char new) (lines t) /\
       in_len t1 = in_len t + eof_count (rec_lens t))).
  { subst t1. destruct b eqn:Eb; subst b; zbool.
    - destruct (unrecord_queue t0 _ (pi_in _ I) ltac:(rewrite Hunl; exact H0)) as (o & -> & Ho & Hc).
      destruct I as [I1 I2 [B3 _ _] I4 I5 I6 _ _]. split_and!; [by constructor | done |].
      intros _. split; [etrans; [exact Hc|exact Hun] | exact Hunl].
    - destruct I as [I1 I2 [B3 _ _] I4 I5 I6 _ _]. split_and!; [by constructor | done |].
      intros Hfit. unfold eofs_fit in Hfit. change (in_len t0) with (in_len t) in Eb.
      destruct Eb as [Eb|Eb]; zbool; [|lia]. change (in_bytes t0) with (in_bytes t).
      unfold lines. rewrite plain_lines_no_eof by (done || lia). split; [done|cbn; lia]. }
  destruct H1 as (R & He & Hq). destruct (leave_canonical t1 R) as [I' Hb].
  split_and!; [exact I' | done |]. intros Hfit. destruct (Hq Hfit) as [Hq1 Hq2].
  exists (fitting t1 (edited t1)). split_and!.
  - rewrite He. unfold fitting. apply prefix_take.
  - rewrite <- Hq1. exact Hb.
  - intros Hroom. rewrite He. apply fitting_all. unfold in_room. lia.
Qed.

Lemma switch_to_canonical t new : pty_inv t -> canonical t = false -> has (c_lflag new) ICANON = true ->
  pty_inv (switch t new) /\
  lines (switch t new) = (if in_len t =? 0 then [] else [in_bytes t]).
Proof.
  intros I Hcan Hnow. unfold canonical in Hcan. pose proof (zlen_in_bytes _ I) as Hzl.
  pose proof (pi_sum _ I) as Hsum. unfold canonical in Hsum. rewrite Hcan in Hsum.
  unfold switch. rewrite Hcan, Hnow. cbn [negb andb].
  change (in_len (t <| tio := new |>)) with (in_len t).
  pose proof (ro_len _ _ _ _ (pi_in _ I)) as Hl.
  destruct (in_len t =? 0) eqn:E; cbn [negb]; zbool.
  - split.
    + destruct I as [I1 I2 I3 I4 I5 I6 I7 I8]. constructor; try done.
      unfold canonical, rec_lens. cbn. rewrite Hnow, Hsum. by rewrite E.
    + unfold lines, rec_lens. cbn. by rewrite Hsum.
  - set (t1 := t <| tio := new |> <| nrec := 1 |> <| rec_head := 0 |> <| rec ::= fun r => aset r 0 (in_len t) |>).
    assert (Hr : rec_lens t1 = [in_len t]).
    { unfold rec_lens. cbn. change (contents RECS ?b 0 1) with [aget b (0 mod RECS)].
      rewrite Z.mod_small by (unfold RECS; lia). rewrite aget_aset_eq; [done|].
      rewrite (ro_buf _ _ _ _ (pi_rec _ I)). unfold RECS. lia. }
    split.
    + destruct I as [I1 I2 [B3 _ _] I4 I5 I6 I7 I8]. constructor; try done.
      * constructor; cbn; [by rewrite zlen_aset | done | done].
      * rewrite Hr. by constructor; [lia|constructor].
      * unfold canonical. cbn -[rec_lens]. rewrite Hnow, Hr. cbn. lia.
    + unfold lines. rewrite Hr. cbn [split_lines]. change (in_bytes t1) with (in_bytes t).
      by rewrite take_ge by (unfold zlen in Hzl; lia).
Qed.

Lemma switch_same t new : pty_inv t -> has (c_lflag new) ICANON = canonical t ->
  switch t new = t <| tio := new |> /\ pty_inv (switch t new).
Proof.
  intros I Hn. unfold switch, canonical in *. rewrite Hn. destruct (has (c_lflag (tio t)) ICANON) eqn:E;
    (split; [done|]); cbn [negb andb]; destruct I as [I1 I2 I3 I4 I5 I6 I7 I8]; constructor; try done;
    unfold canonical in *; cbn; by rewrite Hn, E in *.
Qed.

Lemma switch_inv t new : pty_inv t -> pty_inv (switch t new).
Proof.
  intros I. destruct (canonical t) eqn:E, (has (c_lflag new) ICANON) eqn:En.
  - apply switch_same; congruence.
  - by apply switch_to_raw.
  - by apply switch_to_canonical.
  - apply switch_same; congruence.
Qed.

(** pty_set_termios is the switch, on a flushed queue if asked *)
Lemma set_termios_switch t new flush :
  pty_set_termios t new flush =
    (let t' := switch (if flush then flush_input t else t) new in
     if has (c_iflag new) IXON then t' else t' <| stopped := false |>).
Proof. unfold pty_set_termios. by destruct flush. Qed.

Lemma set_termios_inv t new flush : pty_inv t -> pty_inv (pty_set_termios t new flush).
Proof.
  intros I. rewrite set_termios_switch. cbv zeta.
  assert (I' : pty_inv (switch (if flush then flush_input t else t) new)).
  { apply switch_inv. destruct flush; [by apply flush_input_inv|done]. }
  case_bool; [done|]. by destruct I'.
Qed.
