(* ===== verification/PtyProps.v ===== *)
(** The properties of the terminal: its invariant over every run, typed lines
    and raw bytes read back, output processing, and mode changes. *)

From S2P Require Import Prelude Utf8 Utf8Props Pty PtyIn PtyOps.

(** ** Runs *)

Definition fresh (buf : list Z) : pty := defaults (pty_zero buf <| masters := 1 |> <| locked := 1 |>).

Inductive pty_step (t : pty) : pty -> Prop :=
| step_master_write buf : pty_step t (pty_master_write t buf).1
| step_master_read n : 0 <= n -> pty_step t (pty_master_read t n).1.1
| step_slave_read n : 0 <= n -> pty_step t (pty_slave_read t n).1.1
| step_slave_write buf : pty_step t (pty_slave_write t buf).1
| step_flush q : pty_step t (pty_flush t q)
| step_termios new fl : pty_step t (pty_set_termios t new fl)
| step_winsize new : pty_step t (pty_set_winsize t new)
| step_events : pty_step t (pty_events t).1
| step_master d : pty_step t (master_ref t d)
| step_slave d : pty_step t (slave_ref t d).

Lemma type_all_inv t buf : pty_inv t -> pty_inv (type_all t buf).1.
Proof.
  revert t. induction buf as [|c buf IH]; intros t I; [done|]. cbn [type_all].
  pose proof (type_char_inv t c I) as I'. destruct (type_char t c) as [t' ok]. destruct ok; [|done].
  specialize (IH t' I'). by destruct (type_all t' buf).
Qed.

Lemma out_all_inv t buf : pty_inv t -> pty_inv (out_all t buf).1.
Proof.
  intros I. apply (inv_trims t); [|done]. clear I. revert t.
  induction buf as [|c buf IH]; intros t; [done|]. cbn [out_all].
  pose proof (emits_trims _ _ (emit_some t c)) as H. unfold emit in H.
  destruct (out_char t c) as [t' k]. case_bool; [done|].
  specialize (IH t'). destruct (out_all t' buf). by etrans.
Qed.

Lemma fresh_inv buf : zlen buf = OUTQ -> pty_inv (fresh buf).
Proof.
  intros Hb. constructor; try done.
Qed.

Lemma step_inv t t' : pty_inv t -> pty_step t t' -> pty_inv t'.
Proof.
  intros I S. destruct S as [buf|n Hn|n Hn|buf|q|new fl|new| |d|d].
  - unfold pty_master_write. pose proof (type_all_inv t buf I). by destruct (type_all t buf).
  - pose proof (master_read_spec t n I Hn) as H. destruct (pty_master_read t n) as [[t' r] b]. apply H.
  - destruct (canonical t) eqn:E.
    + pose proof (slave_read_canonical t n I E Hn) as H. destruct (pty_slave_read t n) as [[t' r] b]. apply H.
    + pose proof (slave_read_raw t n I E Hn) as H. destruct (pty_slave_read t n) as [[t' r] b]. apply H.
  - unfold pty_slave_write. case_bool; [done|]. case_bool; [done|].
    pose proof (out_all_inv t buf I). by destruct (out_all t buf).
  - unfold pty_flush. assert (I1 : pty_inv (if (q =? 0) || (q =? 2) then flush_input t else t)).
    { case_bool; [by apply flush_input_inv|done]. }
    case_bool; [|done]. apply out_drop_inv in I1. destruct I1 as [I1 [B H L] I3 I4 I5 I6 I7 I8].
    constructor; try assumption. constructor; [exact B | cbn; unfold OUTQ; lia | exact L].
  - by apply set_termios_inv.
  - unfold pty_set_winsize. case_decide; [done|]. by destruct I.
  - by destruct I.
  - unfold master_ref. cbv zeta. case_bool; by destruct I.
  - unfold slave_ref. cbv zeta. case_bool; by destruct I.
Qed.

(** C17: from a new terminal, whatever is typed, written, read, flushed or set,
    in any order: the queues stay within their bounds, the lines queued in
    canonical mode add up to exactly the queued bytes, and none is recorded in
    raw mode. *)
Theorem pty_runs buf t : zlen buf = OUTQ -> rtc pty_step (fresh buf) t -> pty_inv t.
Proof.
  intros Hb Hr. pose proof (fresh_inv buf Hb) as I. induction Hr as [|t1 t2 t3 S _ IH]; [done|].
  apply IH. by eapply step_inv.
Qed.

Definition demo_buf : list Z := replicate (Z.to_nat OUTQ) 0.

Lemma demo_buf_len : zlen demo_buf = OUTQ.
Proof. unfold demo_buf, zlen. rewrite length_replicate. done. Qed.

Lemma pty_runs_witness : pty_inv (pty_master_write (fresh demo_buf) [97; 98; 10]).1.
Proof.
  apply (pty_runs demo_buf); [exact demo_buf_len|].
  eapply rtc_l; [apply (step_master_write (fresh demo_buf) [97; 98; 10]) | apply rtc_refl].
Defined.

(** ** Typing *)

(** a character the line editor takes as it is: unchanged by the input modes,
    and no control character *)
Definition plain (t : pty) (c : Z) : bool :=
  bool_decide (map_char (c_iflag (tio t)) c = Some c) && negb (c =? 10) &&
  forallb (fun i => negb (is_cc t c i))
    [VSTOP; VSTART; VINTR; VQUIT; VSUSP; VLNEXT; VERASE; VWERASE; VKILL; VREPRINT; VEOF; VEOL; VEOL2].

(** ... and a newline that ends a line *)
Definition plain_newline (t : pty) : bool :=
  bool_decide (map_char (c_iflag (tio t)) 10 = Some 10) &&
  forallb (fun i => negb (is_cc t 10 i))
    [VSTOP; VSTART; VINTR; VQUIT; VSUSP; VLNEXT; VERASE; VWERASE; VKILL; VREPRINT; VEOF].

(** the state at the start of type_canon: IXANY restarts the output *)
Definition restarted (t : pty) : pty :=
  if has (c_iflag (tio t)) IXON && has (c_iflag (tio t)) IXANY then t <| stopped := false |> else t.

Lemma type_char_canon t c : canonical t = true -> lnext t = false ->
  map_char (c_iflag (tio t)) c = Some c ->
  Forall (fun i => is_cc t c i = false) [VSTOP; VSTART; VINTR; VQUIT; VSUSP] ->
  type_char t c = (type_canon (restarted t) c, true).
Proof.
  intros Hcan Hl Hm Hcc. unfold type_char. fold (canonical t). rewrite Hl, Hm, Hcan.
  repeat (apply Forall_cons in Hcc as [?Hc Hcc]). rewrite Hc, Hc0, !andb_false_r.
  assert (Hsig : sig_of (restarted t) c = 0).
  { unfold sig_of. assert (Hsame : forall i, is_cc (restarted t) c i = is_cc t c i)
      by (intros; unfold restarted; by case_bool). by rewrite !Hsame, Hc1, Hc2, Hc3. }
  unfold restarted in *. by rewrite Hsig, andb_false_r.
Qed.

Lemma is_cc_ext t t' c i : tio t' = tio t -> is_cc t' c i = is_cc t c i.
Proof. unfold is_cc, cc. by intros ->. Qed.

(** what stays as it was when characters are put in the line *)
Record same_mode (t t' : pty) : Prop := {
  sm_tio : tio t' = tio t;
  sm_lnext : lnext t' = lnext t;
}.

Lemma plain_ext t t' c : tio t' = tio t -> plain t' c = plain t c.
Proof. unfold plain, is_cc, cc. by intros ->. Qed.

Lemma restarted_spec t : pty_inv t -> pty_inv (restarted t) /\ tio (restarted t) = tio t /\
  lnext (restarted t) = lnext t /\ lines (restarted t) = lines t /\ edited (restarted t) = edited t /\
  llen (restarted t) = llen t /\ in_len (restarted t) = in_len t /\ nrec (restarted t) = nrec t.
Proof. intros I. unfold restarted. case_bool; [|done]. split; [by destruct I|done]. Qed.

Lemma echo_spec b t c : pty_inv t -> pty_inv (echo_if b t c) /\ tio (echo_if b t c) = tio t /\
  lnext (echo_if b t c) = lnext t /\ lines (echo_if b t c) = lines t /\
  edited (echo_if b t c) = edited t /\ llen (echo_if b t c) = llen t /\
  in_len (echo_if b t c) = in_len t /\ in_bytes (echo_if b t c) = in_bytes t /\
  nrec (echo_if b t c) = nrec t.
Proof.
  intros I. pose proof (echo_if_inv b t c I) as H. revert H.
  destruct (echo_if_some b t c (pi_out _ I) (pi_col _ I)) as [[bs [o l col Ho _]] _]. intros H. by split_and!.
Qed.

Lemma type_plain t c : pty_inv t -> canonical t = true -> lnext t = false -> plain t c = true ->
  llen t < LINE - 1 -> let '(t', ok) := type_char t c in
  ok = true /\ pty_inv t' /\ tio t' = tio t /\ lnext t' = false /\ lines t' = lines t /\
  edited t' = edited t ++ [c] /\ llen t' = llen t + 1 /\ in_len t' = in_len t /\ nrec t' = nrec t.
Proof.
  intros I Hcan Hl Hp Hroom. unfold plain in Hp. rewrite !andb_true_iff, bool_decide_eq_true in Hp.
  destruct Hp as [[Hm H10] Hcc]. rewrite forallb_forall in Hcc.
  assert (Hno : forall i, In i [VSTOP; VSTART; VINTR; VQUIT; VSUSP; VLNEXT; VERASE; VWERASE; VKILL;
    VREPRINT; VEOF; VEOL; VEOL2] -> is_cc t c i = false).
  { intros i Hi. apply negb_true_iff. by apply Hcc. }
  rewrite type_char_canon; [|done|done|done|repeat constructor; apply Hno; simpl; tauto].
  destruct (restarted_spec t I) as (I1 & T1 & L1 & Ls1 & E1 & Ll1 & N1 & R1).
  set (t1 := restarted t) in *. unfold type_canon.
  rewrite !(is_cc_ext t t1) by done. rewrite !Hno by (simpl; tauto). rewrite !andb_false_r.
  apply negb_true_iff in H10. rewrite H10. cbn [orb].
  assert (Hlt : llen t1 <? LINE - 1 = true) by (apply Z.ltb_lt; lia). rewrite Hlt. cbn [orb].
  assert (I2 : pty_inv (line_put t1 c)) by (apply line_put_inv; [done|lia]).
  destruct (echo_spec (has (c_lflag (tio t1)) ECHO || false && has (c_lflag (tio t1)) ECHONL) _ c I2)
    as (I3 & T3 & L3 & Ls3 & E3 & Ll3 & N3 & _ & R3).
  split_and!; try done.
  - rewrite T3. exact T1.
  - rewrite L3. cbn. congruence.
  - rewrite Ls3. exact Ls1.
  - rewrite E3, edited_put by (done || lia). by rewrite E1.
  - rewrite Ll3. cbn. lia.
  - rewrite N3. exact N1.
  - rewrite R3. exact R1.
Qed.

Lemma type_plains t cs : pty_inv t -> canonical t = true -> lnext t = false ->
  forallb (plain t) cs = true -> llen t + zlen cs <= LINE - 1 ->
  let '(t', n) := type_all t cs in
  n = zlen cs /\ pty_inv t' /\ tio t' = tio t /\ lnext t' = false /\ lines t' = lines t /\
  edited t' = edited t ++ cs /\ llen t' = llen t + zlen cs /\ in_len t' = in_len t /\ nrec t' = nrec t.
Proof.
  revert t. induction cs as [|c cs IH]; intros t I Hcan Hl Hp Hroom.
  { cbn. rewrite app_nil_r. change (zlen (@nil Z)) with 0. rewrite Z.add_0_r. by split_and!. }
  cbn [forallb] in Hp. apply andb_true_iff in Hp as [Hp1 Hp2]. rewrite zlen_cons in *.
  pose proof (zlen_nonneg cs). cbn [type_all].
  pose proof (type_plain t c I Hcan Hl Hp1 ltac:(lia)) as H1. destruct (type_char t c) as [t1 ok].
  destruct H1 as (-> & I1 & T1 & L1 & Ls1 & E1 & Ll1 & N1 & R1).
  specialize (IH t1 I1). destruct (type_all t1 cs) as [t2 n].
  destruct IH as (-> & I2 & T2 & L2 & Ls2 & E2 & Ll2 & N2 & R2).
  - unfold canonical. by rewrite T1.
  - done.
  - rewrite <- Hp2. clear -T1. induction cs as [|d cs IH]; [done|]. cbn. by rewrite IH, (plain_ext t t1).
  - lia.
  - rewrite E2, E1, <- app_assoc. split_and!; try done; try congruence; lia.
Qed.

Lemma type_newline t : pty_inv t -> canonical t = true -> lnext t = false -> plain_newline t = true ->
  llen t < LINE -> nrec t < RECS -> llen t < in_room t -> let '(t', ok) := type_char t 10 in
  ok = true /\ pty_inv t' /\ tio t' = tio t /\ lines t' = lines t ++ [edited t ++ [10]].
Proof.
  intros I Hcan Hl Hp Hline Hrec Hroom. unfold plain_newline in Hp.
  rewrite !andb_true_iff, bool_decide_eq_true in Hp. destruct Hp as [Hm Hcc]. rewrite forallb_forall in Hcc.
  assert (Hno : forall i, In i [VSTOP; VSTART; VINTR; VQUIT; VSUSP; VLNEXT; VERASE; VWERASE; VKILL;
    VREPRINT; VEOF] -> is_cc t 10 i = false).
  { intros i Hi. apply negb_true_iff. by apply Hcc. }
  rewrite type_char_canon; [|done|done|done|repeat constructor; apply Hno; simpl; tauto].
  destruct (restarted_spec t I) as (I1 & T1 & L1 & Ls1 & E1 & Ll1 & N1 & R1).
  set (t1 := restarted t) in *. unfold type_canon.
  rewrite !(is_cc_ext t t1) by done. rewrite !(Hno _) by (simpl; tauto). rewrite !andb_false_r.
  change (10 =? 10) with true. cbn [orb andb].
  assert (Hlt : llen t1 <? LINE = true) by (apply Z.ltb_lt; lia). rewrite Hlt, orb_true_r.
  assert (I2 : pty_inv (line_put t1 10)) by (apply line_put_inv; [done|lia]).
  destruct (echo_spec (has (c_lflag (tio t1)) ECHO || has (c_lflag (tio t1)) ECHONL) _ 10 I2)
    as (I3 & T3 & L3 & Ls3 & E3 & Ll3 & N3 & _ & R3).
  set (t3 := echo_if _ _ 10) in *.
  destruct (line_done_spec t3 I3) as (I4 & _ & T4 & Hd & _).
  { unfold canonical. rewrite T3. change (tio (line_put t1 10)) with (tio t1). by rewrite T1. }
  destruct Hd as (Hd & _ & _).
  - rewrite R3. change (nrec (line_put t1 10)) with (nrec t1). lia.
  - rewrite Ll3. unfold in_room in *. rewrite N3. change (in_len (line_put t1 10)) with (in_len t1).
    change (llen (line_put t1 10)) with (1 + llen t1). lia.
  - split_and!; [done | done | | ].
    + rewrite T4, T3. exact T1.
    + rewrite Hd, Ls3, E3, edited_put, E1 by (done || lia). f_equal. exact Ls1.
Qed.

Lemma type_all_bound t a : 0 <= (type_all t a).2 <= zlen a.
Proof.
  revert t. induction a as [|c a IH]; intros t; [done|]. cbn [type_all]. rewrite zlen_cons.
  pose proof (zlen_nonneg a). destruct (type_char t c) as [t' ok]. destruct ok; cbn; [|lia].
  specialize (IH t'). destruct (type_all t' a). cbn in *. lia.
Qed.

Lemma type_all_app t a b t1 : type_all t a = (t1, zlen a) ->
  type_all t (a ++ b) = (let '(t2, k) := type_all t1 b in (t2, zlen a + k)).
Proof.
  revert t. induction a as [|c a IH]; intros t; cbn [type_all app].
  - intros [= ->]. by destruct (type_all t1 b).
  - rewrite zlen_cons. pose proof (zlen_nonneg a). destruct (type_char t c) as [t' ok].
    destruct ok; [|intros [= _ ?]; lia]. destruct (type_all t' a) as [t'' m] eqn:E.
    intros [= -> Hm]. assert (m = zlen a) as -> by lia. rewrite (IH _ E).
    destruct (type_all t1 b). f_equal. lia.
Qed.

(** C18: canonical mode round trip: a line of ordinary characters typed at the
    master, ended by a newline, is read back byte for byte by the program, by
    one read at least that long. *)
Theorem typed_line_read_back t cs n : pty_inv t -> canonical t = true -> lnext t = false ->
  lines t = [] -> llen t = 0 -> forallb (plain t) cs = true -> plain_newline t = true ->
  zlen cs < LINE - 1 -> zlen cs < n ->
  exists t1 t2, pty_master_write t (cs ++ [10]) = (t1, zlen cs + 1) /\
    pty_slave_read t1 n = (t2, zlen cs + 1, cs ++ [10]) /\ lines t2 = [] /\ pty_inv t2.
Proof.
  intros I Hcan Hl Hlines Hll Hp Hnl Hroom Hn. pose proof (zlen_nonneg cs) as H0.
  apply lines_nil in Hlines as Hnrec; [|done].
  assert (Hin : in_len t = 0).
  { pose proof (pi_sum _ I) as Hs. rewrite Hcan in Hs. unfold rec_lens in Hs. by rewrite Hnrec in Hs. }
  assert (Hed : edited t = []) by (unfold edited; by rewrite Hll).
  pose proof (type_plains t cs I Hcan Hl Hp ltac:(lia)) as H1.
  destruct (type_all t cs) as [t1 k] eqn:E1. destruct H1 as (-> & I1 & T1 & L1 & Ls1 & Ed1 & Ll1 & N1 & R1).
  assert (Hcan1 : canonical t1 = true) by (unfold canonical; by rewrite T1).
  assert (Hnl1 : plain_newline t1 = true) by (rewrite <- Hnl; unfold plain_newline, is_cc, cc; by rewrite T1).
  pose proof (type_newline t1 I1 Hcan1 L1 Hnl1 ltac:(unfold LINE in *; lia) ltac:(unfold RECS; lia)
    ltac:(unfold in_room, INQ, LINE in *; lia)) as H2.
  destruct (type_char t1 10) as [t2 ok] eqn:E2. destruct H2 as (-> & I2 & T2 & Ls2).
  assert (Hls : lines t2 = [cs ++ [10]]) by (rewrite Ls2, Ls1, Hlines, Ed1, Hed; done).
  assert (Hcan2 : canonical t2 = true) by (unfold canonical; by rewrite T2, T1).
  pose proof (slave_read_canonical t2 n I2 Hcan2 ltac:(lia)) as H3.
  destruct (pty_slave_read t2 n) as [[t3 r] bs] eqn:E3. destruct H3 as (I3 & _ & _ & _ & H3).
  assert (Hlen : zlen (cs ++ [10]) = zlen cs + 1) by by rewrite zlen_app.
  rewrite Hls in H3. destruct (H3 ltac:(done)) as [-> Hr]. cbn [read_line] in Hr.
  rewrite take_ge, drop_ge in Hr by (unfold zlen in *; lia). injection Hr as -> Hl3.
  exists t2, t3. split_and!; [|by rewrite Hlen in E3|done|done].
  unfold pty_master_write. rewrite (type_all_app _ _ _ _ E1). cbn [type_all]. rewrite E2. rewrite Z.add_0_r.
  unfold count_or_again. rewrite Hlen. destruct (zlen cs + 1 =? 0) eqn:E; zbool; [lia|done].
Qed.

Lemma typed_line_read_back_witness : exists t1 t2,
  pty_master_write (fresh demo_buf) ([104; 101; 108; 108; 111] ++ [10]) = (t1, zlen [104; 101; 108; 108; 111] + 1) /\
  pty_slave_read t1 100 = (t2, zlen [104; 101; 108; 108; 111] + 1, [104; 101; 108; 108; 111] ++ [10]) /\
  lines t2 = [] /\ pty_inv t2.
Proof.
  apply (typed_line_read_back (fresh demo_buf) [104; 101; 108; 108; 111] 100);
    [exact (fresh_inv demo_buf demo_buf_len) | reflexivity.. | |]; vm_compute; reflexivity.
Defined.

(** C19: a canonical read gives at most one line: the first [n] bytes of the
    oldest, whose rest (if any) stays first in the queue; an empty line (^D) is
    an end of file read once; with none it waits, or ends if the master hung up. *)
Theorem canonical_read t n : pty_inv t -> canonical t = true -> 0 <= n ->
  let '(t', r, bytes) := pty_slave_read t n in
  pty_inv t' /\ canonical t' = true /\ edited t' = edited t /\
  (lines t = [] -> t' = t /\ bytes = [] /\ r = nothing_to_read t) /\
  (lines t <> [] -> r = zlen bytes /\ (bytes, lines t') = read_line n (lines t)).
Proof. apply slave_read_canonical. Qed.

Lemma canonical_read_witness :
  let '(t', r, bytes) := pty_slave_read (fresh demo_buf) 10 in
  pty_inv t' /\ canonical t' = true /\ edited t' = edited (fresh demo_buf) /\
  (lines (fresh demo_buf) = [] -> t' = fresh demo_buf /\ bytes = [] /\ r = nothing_to_read (fresh demo_buf)) /\
  (lines (fresh demo_buf) <> [] -> r = zlen bytes /\ (bytes, lines t') = read_line 10 (lines (fresh demo_buf))).
Proof.
  apply (canonical_read (fresh demo_buf) 10); [exact (fresh_inv demo_buf demo_buf_len) | reflexivity | lia].
Defined.

(** ** Erasing *)

Lemma seq_start_spec l i k : (i <= k)%nat ->
  (forall j, (i < j <= k)%nat -> u8_cont (aget l (Z.of_nat j)) = true) ->
  u8_cont (aget l (Z.of_nat i)) = false -> seq_start l k = i.
Proof.
  induction k as [|k IH]; intros Hik Hc Hi; [by assert (i = 0)%nat as -> by lia|].
  cbn [seq_start]. fold (u8_cont (aget l (Z.of_nat (S k)))).
  destruct (decide (i = S k)) as [->|Hne]; [by rewrite Hi|].
  rewrite Hc by lia. apply IH; [lia| |done]. intros j Hj. apply Hc. lia.
Qed.

Lemma aget_edited t j : pty_inv t -> 0 <= j < llen t -> aget (edited t) j = aget (line t) j.
Proof.
  intros I Hj. unfold edited, aget. rewrite !list_lookup_total_alt, lookup_take_lt by lia. done.
Qed.

(** the erase character takes the whole last character of the line, all
    the bytes of its UTF-8 encoding and no others, and nothing that was read or
    queued before. *)
Theorem erase_one_character t pre cp : pty_inv t -> has (c_iflag (tio t)) IUTF8 = true ->
  scalar cp -> edited t = pre ++ u8_encode cp ->
  edited (erase_one t) = pre /\ lines (erase_one t) = lines t /\ pty_inv (erase_one t).
Proof.
  intros I Hu [Hcp _] Hed. pose proof (zlen_edited t I) as Hl. rewrite Hed, zlen_app in Hl.
  pose proof (zlen_encode_pos cp ltac:(lia)) as Hpos. pose proof (zlen_nonneg pre) as Hpre.
  destruct (encoded_bytes pre cp [] ltac:(lia)) as [Hlead Htr]. rewrite app_nil_r, <- Hed in Hlead, Htr.
  assert (Hat : erase_at t = zlen pre).
  { unfold erase_at. rewrite Hu. rewrite (seq_start_spec _ (length pre)); [done| | |].
    - unfold zlen in *. lia.
    - intros j Hj. unfold zlen in *. rewrite <- aget_edited by (done || lia). apply Htr. lia.
    - fold (zlen pre). rewrite <- aget_edited by (done || lia). exact Hlead. }
  pose proof (erase_one_llen t ltac:(lia) (pi_out _ I) (pi_col _ I)) as Hll. rewrite Hat in Hll.
  assert (He : edited (erase_one t) = take (Z.to_nat (zlen pre)) (line t) /\ lines (erase_one t) = lines t).
  { destruct (erase_one_trims t (pi_out _ I) (pi_col _ I)) as [o l c n _ _ _]; [lia|].
    cbn in Hll. subst n. done. }
  destruct He as [-> ->]. split_and!; [|done|by apply (inv_trims t); [apply erase_one_trims|]].
  assert (Ht : take (length pre) (edited t) = pre) by (rewrite Hed; by rewrite take_app_length).
  unfold edited in Ht. rewrite take_take in Ht. rewrite <- Ht at 2. f_equal. unfold zlen in *. lia.
Qed.

Definition demo_accent : pty := (pty_master_write (fresh demo_buf) [97; 0xC3; 0xA9]).1.

Lemma demo_accent_inv : pty_inv demo_accent.
Proof. apply (step_inv (fresh demo_buf)); [apply fresh_inv, demo_buf_len | apply step_master_write]. Qed.

Lemma erase_one_character_witness :
  edited (erase_one demo_accent) = [97] /\ lines (erase_one demo_accent) = lines demo_accent /\
  pty_inv (erase_one demo_accent).
Proof.
  apply (erase_one_character demo_accent [97] 0xE9);
    [exact demo_accent_inv | reflexivity | split; lia | vm_compute; reflexivity].
Defined.

(** ** Raw mode *)

Lemma type_raw_char t c : pty_inv t -> canonical t = false -> lnext t = false ->
  c_iflag (tio t) = 0 -> has (c_lflag (tio t)) ISIG = false -> 0 < in_room t ->
  let '(t', ok) := type_char t c in
  ok = true /\ pty_inv t' /\ tio t' = tio t /\ lnext t' = false /\
  in_bytes t' = in_bytes t ++ [c] /\ in_len t' = in_len t + 1.
Proof.
  intros I Hcan Hl Hi Hs Hroom. unfold type_char. fold (canonical t). rewrite Hl, Hi, Hs, Hcan.
  unfold map_char. cbn [has]. change (has 0 _) with false. cbn [andb].
  assert (Hm : (if c =? 13 then Some c else Some c) = Some c) by by destruct (c =? 13).
  rewrite andb_false_r.
  change (if c =? 13 then Some c else Some c) with (if c =? 13 then Some c else Some c) in *. rewrite Hm.
  unfold type_raw. destruct (in_room t =? 0) eqn:E; zbool; [lia|].
  destruct (in_put_spec t [c] (pi_in _ I)) as (o & Hput & Ho & Hc).
  rewrite fitting_all in * by (change (zlen [c]) with 1; lia). change (zlen [c]) with 1 in *.
  assert (I1 : pty_inv (in_put t [c])).
  { rewrite Hput. destruct I. constructor; try done. unfold canonical in *. cbn. by rewrite Hcan in *. }
  destruct (echo_spec (has (c_lflag (tio t)) ECHO) _ c I1) as (I2 & T2 & L2 & _ & _ & _ & N2 & B2 & _).
  split_and!; try done.
  - rewrite T2, Hput. done.
  - rewrite L2, Hput. done.
  - rewrite B2, Hput. exact Hc.
  - rewrite N2, Hput. done.
Qed.

(** raw mode is a FIFO: without input processing, bytes typed are appended
    to those waiting as they are, as many as there is room for (-11 when there
    is none); and reads take them from the front. *)
Theorem raw_write_appends t buf : pty_inv t -> canonical t = false -> lnext t = false ->
  c_iflag (tio t) = 0 -> has (c_lflag (tio t)) ISIG = false ->
  let '(t', r) := pty_master_write t buf in
  pty_inv t' /\ in_bytes t' = in_bytes t ++ take (Z.to_nat (in_room t)) buf /\
  r = (if buf then 0 else if in_room t =? 0 then -11 else Z.min (in_room t) (zlen buf)).
Proof.
  intros I Hcan Hl Hi Hs. unfold pty_master_write.
  assert (H : let '(t', k) := type_all t buf in pty_inv t' /\
    in_bytes t' = in_bytes t ++ take (Z.to_nat (in_room t)) buf /\ k = Z.min (in_room t) (zlen buf)).
  { revert t I Hcan Hl Hi Hs. induction buf as [|c buf IH]; intros t I Hcan Hl Hi Hs;
      pose proof (ro_len _ _ _ _ (pi_in _ I)) as Hlen; cbn [type_all].
    { rewrite take_nil, app_nil_r. unfold in_room. split_and!; [done|done|]. change (zlen []) with 0. lia. }
    destruct (decide (in_room t = 0)) as [Hz|Hz].
    { assert (Hf : type_char t c = (t, false)).
      { unfold type_char. fold (canonical t). rewrite Hl, Hi, Hs, Hcan. unfold map_char.
        change (has 0 _) with false. rewrite andb_false_r. cbn [andb].
        unfold type_raw. rewrite Hz. by destruct (c =? 13). }
      rewrite Hf, Hz. change (take _ _) with (@nil Z). rewrite app_nil_r.
      pose proof (zlen_nonneg (c :: buf)). split_and!; [done|done|lia]. }
    pose proof (type_raw_char t c I Hcan Hl Hi Hs ltac:(unfold in_room in *; lia)) as H.
    destruct (type_char t c) as [t1 ok]. destruct H as (-> & I1 & T1 & L1 & B1 & N1).
    specialize (IH t1 I1). destruct (type_all t1 buf) as [t2 k].
    destruct IH as (I2 & B2 & ->); rewrite ?T1; try done; [unfold canonical; by rewrite T1|].
    unfold in_room in *. rewrite N1 in *. rewrite zlen_cons. pose proof (zlen_nonneg buf).
    split_and!; [done| |lia]. rewrite B2, B1, <- app_assoc.
    by replace (Z.to_nat (INQ - in_len t)) with (S (Z.to_nat (INQ - (in_len t + 1)))) by lia. }
  destruct (type_all t buf) as [t' k]. destruct H as (I' & B' & ->). split_and!; [done|done|].
  pose proof (ro_len _ _ _ _ (pi_in _ I)) as Hlen. unfold count_or_again, in_room in *.
  destruct buf as [|c buf]; [change (zlen []) with 0; by rewrite Z.min_r by lia|].
  rewrite zlen_cons. pose proof (zlen_nonneg buf).
  destruct (INQ - in_len t =? 0) eqn:E; zbool.
  - rewrite E. rewrite Z.min_l by lia. cbn. destruct (1 + zlen buf =? 0) eqn:E2; [zbool; lia|done].
  - destruct (Z.min _ _ =? 0) eqn:E2; zbool; [lia|done].
Qed.

(** a terminal in raw mode without echo *)
Definition raw_mode : pty_termios_t := Termios 0 (Z.lor OPOST ONLCR) 0 0 0 cc_default 0 0.
Definition demo_raw : pty := pty_set_termios (fresh demo_buf) raw_mode true.

Lemma demo_raw_inv : pty_inv demo_raw.
Proof. apply set_termios_inv, fresh_inv, demo_buf_len. Qed.

Lemma raw_write_appends_witness :
  let '(t', r) := pty_master_write demo_raw [3; 4; 13; 10] in
  pty_inv t' /\ in_bytes t' = in_bytes demo_raw ++ take (Z.to_nat (in_room demo_raw)) [3; 4; 13; 10] /\
  r = (if in_room demo_raw =? 0 then -11 else Z.min (in_room demo_raw) (zlen [3; 4; 13; 10])).
Proof.
  apply (raw_write_appends demo_raw [3; 4; 13; 10]); [exact demo_raw_inv | reflexivity..].
Defined.

(** ** Output processing *)

(** a program's write puts a prefix of its bytes, each as the output modes
    say (\n as \r\n, tabs as spaces to the next stop, ...), at the end of the
    master's queue - never half an expansion - and stops only when fewer than
    8 bytes of room are left; nothing is taken while stopped or hung up. *)
Theorem slave_write_opost t buf : pty_inv t ->
  let '(t', r) := pty_slave_write t buf in
  pty_inv t' /\
  (hung t = true -> t' = t /\ r = -5) /\
  (hung t = false -> stopped t = true -> t' = t /\ r = -11) /\
  (hung t = false -> stopped t = false -> exists k, 0 <= k <= zlen buf /\
     r = count_or_again k (zlen buf) /\ (k < zlen buf -> OUTQ - out_len t' < 8) /\
     out_bytes t' = out_bytes t ++ (opost_all (c_oflag (tio t)) (column t) (take (Z.to_nat k) buf)).1 /\
     column t' = (opost_all (c_oflag (tio t)) (column t) (take (Z.to_nat k) buf)).2).
Proof.
  intros I. unfold pty_slave_write. destruct (hung t); [by split_and!|].
  destruct (stopped t); [by split_and!|].
  pose proof (out_all_spec t buf (pi_out _ I) (pi_col _ I)) as H. pose proof (out_all_inv t buf I) as I'.
  destruct (out_all t buf) as [t' k]. destruct H as (Hk & Hp & Hf).
  split_and!; try done. intros _ _. exists k.
  destruct (opost_all _ _ _) as [bs col]. destruct Hp as [He Hc].
  split_and!; try done; [lia | lia | by apply emits_bytes].
Qed.

Lemma slave_write_opost_witness :
  let '(t', r) := pty_slave_write demo_raw [104; 105; 10] in
  pty_inv t' /\ (hung demo_raw = true -> t' = demo_raw /\ r = -5) /\
  (hung demo_raw = false -> stopped demo_raw = true -> t' = demo_raw /\ r = -11) /\
  (hung demo_raw = false -> stopped demo_raw = false -> exists k, 0 <= k <= zlen [104; 105; 10] /\
     r = count_or_again k (zlen [104; 105; 10]) /\ (k < zlen [104; 105; 10] -> OUTQ - out_len t' < 8) /\
     out_bytes t' = out_bytes demo_raw ++
       (opost_all (c_oflag (tio demo_raw)) (column demo_raw) (take (Z.to_nat k) [104; 105; 10])).1 /\
     column t' = (opost_all (c_oflag (tio demo_raw)) (column demo_raw) (take (Z.to_nat k) [104; 105; 10])).2).
Proof. apply (slave_write_opost demo_raw [104; 105; 10]). exact demo_raw_inv. Defined.

(** ** Changing modes *)

(** turning line editing off loses nothing that fits: the waiting lines
    become plain bytes, an end of file among them the ^D character, followed by
    the line being edited; turning it on makes what waits one line. *)
Theorem set_termios_keeps_input t new : pty_inv t ->
  pty_inv (pty_set_termios t new false) /\
  (canonical t = true -> has (c_lflag new) ICANON = false ->
   in_len t + eof_count (rec_lens t) + llen t <= INQ ->
   in_bytes (pty_set_termios t new false) = plain_lines (eof_char new) (lines t) ++ edited t) /\
  (canonical t = false -> has (c_lflag new) ICANON = true ->
   lines (pty_set_termios t new false) = (if in_len t =? 0 then [] else [in_bytes t])).
Proof.
  intros I. split; [by apply set_termios_inv|]. rewrite set_termios_switch. cbv zeta iota.
  assert (Hsame : forall b : bool, in_bytes (if b then switch t new else switch t new <| stopped := false |>)
    = in_bytes (switch t new) /\ lines (if b then switch t new else switch t new <| stopped := false |>)
    = lines (switch t new)) by by intros [].
  destruct (Hsame (has (c_iflag new) IXON)) as [-> ->]. split.
  - intros Hc Hn Hfit. destruct (switch_to_raw t new I Hc Hn) as (_ & _ & H).
    destruct H as (fit & _ & -> & Hall).
    + unfold eofs_fit. pose proof (pi_llen _ I). lia.
    + by rewrite Hall.
  - intros Hc Hn. by apply switch_to_canonical.
Qed.

(** a terminal with a line, an end of file and half a line typed *)
Definition demo_typed : pty := (pty_master_write (fresh demo_buf) [104; 105; 10; 4; 120]).1.

Lemma demo_typed_inv : pty_inv demo_typed.
Proof. apply (step_inv (fresh demo_buf)); [apply fresh_inv, demo_buf_len | apply step_master_write]. Qed.

Lemma set_termios_keeps_input_witness :
  pty_inv (pty_set_termios demo_typed raw_mode false) /\
  (canonical demo_typed = true -> has (c_lflag raw_mode) ICANON = false ->
   in_len demo_typed + eof_count (rec_lens demo_typed) + llen demo_typed <= INQ ->
   in_bytes (pty_set_termios demo_typed raw_mode false)
     = plain_lines (eof_char raw_mode) (lines demo_typed) ++ edited demo_typed) /\
  (canonical demo_typed = false -> has (c_lflag raw_mode) ICANON = true ->
   lines (pty_set_termios demo_typed raw_mode false)
     = (if in_len demo_typed =? 0 then [] else [in_bytes demo_typed])).
Proof. apply (set_termios_keeps_input demo_typed raw_mode). exact demo_typed_inv. Defined.

Example demo_typed_becomes : in_bytes (pty_set_termios demo_typed raw_mode false) = [104; 105; 10; 4; 120].
Proof. vm_compute. reflexivity. Qed.

(** ** The table of terminals *)

(** every slot points at a terminal in memory that knows its slot *)
Record table_ok (g : ptys) : Prop := {
  tk_slot i a : g_ptys g !! i = Some (Some a) ->
    a <> 0 /\ exists t, store g !! a = Some t /\ index t = Z.of_nat i /\
    (0 < masters t \/ 0 < slaves t \/ 0 < holds t);
  tk_store a t : store g !! a = Some t -> exists i, g_ptys g !! i = Some (Some a);
  tk_cap : zlen (g_ptys g) <= g_cap g;
}.

(** pty_new uses the first free slot, or a new one at the end - growing the
    table when it is full - and never touches another terminal; without memory
    nothing changes. *)
Theorem pty_new_spec g a buf grow : table_ok g -> store g !! a = None ->
  let '(g', r) := pty_new g a buf grow in
  table_ok g' /\
  (r = 0 -> g' = g) /\
  (r <> 0 -> r = a /\ exists i t, g_ptys g' !! i = Some (Some a) /\ store g' !! a = Some t /\
     index t = Z.of_nat i /\ masters t = 1 /\ locked t = 1 /\
     (forall j, (j < i)%nat -> exists b, g_ptys g !! j = Some (Some b)) /\
     (forall j, j <> i -> g_ptys g' !! j = g_ptys g !! j) /\
     (forall b, b <> a -> store g' !! b = store g !! b)).
Proof.
  intros [Hs Hst Hcap] Hfresh. unfold pty_new. destruct buf as [buf|]; [|by split_and!].
  destruct (a =? 0) eqn:E; zbool; [by split_and!|]. unfold free_slot.
  assert (Hother : forall i b, g_ptys g !! i = Some (Some b) -> b <> a).
  { intros i b Hb ->. destruct (Hs i a Hb) as (_ & t & Ht & _). congruence. }
  destruct (list_find (fun o => o = None) (g_ptys g)) as [[i o]|] eqn:Ef; cbn [fmap option_fmap option_map fst].
  - apply list_find_Some in Ef as (Hi & -> & Hfirst). apply lookup_lt_Some in Hi as Hlt.
    split_and!; [split| done |].
    + intros j b. cbn. destruct (decide (i = j)) as [<-|Hne].
      * rewrite list_lookup_insert_eq by done. intros [= <-]. split; [done|].
        rewrite lookup_insert_eq. eexists. split_and!; [done|done|]. left. cbn. lia.
      * rewrite list_lookup_insert_ne by done. intros Hb. pose proof (Hother _ _ Hb).
        rewrite lookup_insert_ne by done. by apply Hs.
    + intros b t. cbn. destruct (decide (a = b)) as [<-|Hne].
      * intros _. exists i. by rewrite list_lookup_insert_eq.
      * rewrite lookup_insert_ne by done. intros Hb. destruct (Hst b t Hb) as [j Hj]. exists j.
        rewrite list_lookup_insert_ne; [done|congruence].
    + cbn. unfold zlen in *. by rewrite length_insert.
    + intros _. split; [done|]. eexists i, _. cbn. rewrite list_lookup_insert_eq, lookup_insert_eq by done.
      split_and!; try done.
      * intros j Hj. destruct (lookup_lt_is_Some_2 (g_ptys g) j ltac:(lia)) as [[b|] Hb]; [by exists b|].
        by destruct (Hfirst j None Hb Hj).
      * intros j Hj. by rewrite list_lookup_insert_ne.
      * intros b Hb. by rewrite lookup_insert_ne.
  - apply list_find_None in Ef. rewrite Forall_forall in Ef.
    destruct ((zlen (g_ptys g) =? g_cap g) && negb grow) eqn:Eg; [by split_and!|].
    assert (Hend : (g_ptys g ++ [Some a]) !! length (g_ptys g) = Some (Some a)) by by apply list_lookup_middle.
    split_and!; [split| done |].
    + intros j b. cbn. destruct (decide (j < length (g_ptys g))%nat) as [Hj|Hj].
      * rewrite lookup_app_l by done. intros Hb. pose proof (Hother _ _ Hb).
        rewrite lookup_insert_ne by done. by apply Hs.
      * intros Hb. assert (j = length (g_ptys g)) as ->.
        { apply lookup_lt_Some in Hb. rewrite length_app in Hb. cbn in Hb. lia. }
        rewrite Hend in Hb. injection Hb as <-. split; [done|].
        rewrite lookup_insert_eq. eexists. split_and!; [done|done|]. left. cbn. lia.
    + intros b t. cbn. destruct (decide (a = b)) as [<-|Hne]; [by eexists|].
      rewrite lookup_insert_ne by done. intros Hb. destruct (Hst b t Hb) as [j Hj]. exists j.
      by apply lookup_app_l_Some.
    + cbn. unfold zlen in *. rewrite length_app. cbn.
      destruct (Z.of_nat (length (g_ptys g)) =? g_cap g) eqn:E1; zbool; [|lia].
      destruct (g_cap g =? 0) eqn:E2; zbool; lia.
    + intros _. split; [done|]. eexists (length (g_ptys g)), _. cbn. rewrite Hend, lookup_insert_eq.
      split_and!; try done.
      * intros j Hj. destruct (lookup_lt_is_Some_2 (g_ptys g) j Hj) as [[b|] Hb]; [by exists b|].
        apply list_elem_of_lookup_2 in Hb. by destruct (Ef None Hb).
      * intros j Hj. destruct (decide (j < length (g_ptys g))%nat) as [Hj'|Hj'].
        { by apply lookup_app_l. }
        rewrite !lookup_ge_None_2; [done|lia|rewrite length_app; cbn; lia].
      * intros b Hb. by rewrite lookup_insert_ne.
Qed.

Definition demo_table : ptys := (pty_new (Ptys [] 0 ∅) 0x5000 (Some demo_buf) true).1.

Lemma empty_table_ok : table_ok (Ptys [] 0 ∅).
Proof. by split. Qed.

Lemma pty_new_spec_witness :
  let g := Ptys [] 0 ∅ in
  let '(g', r) := pty_new g 0x5000 (Some demo_buf) true in
  table_ok g' /\ (r = 0 -> g' = g) /\
  (r <> 0 -> r = 0x5000 /\ exists i t, g_ptys g' !! i = Some (Some 0x5000) /\ store g' !! 0x5000 = Some t /\
     index t = Z.of_nat i /\ masters t = 1 /\ locked t = 1 /\
     (forall j, (j < i)%nat -> exists b, g_ptys g !! j = Some (Some b)) /\
     (forall j, j <> i -> g_ptys g' !! j = g_ptys g !! j) /\
     (forall b, b <> 0x5000 -> store g' !! b = store g !! b)).
Proof. apply (pty_new_spec (Ptys [] 0 ∅) 0x5000 (Some demo_buf) true); [exact empty_table_ok | reflexivity]. Defined.

(** dropping or adding a master reference: the terminal hangs up, once,
    when the last master goes, and is freed - its slot free again, no other
    slot touched - exactly when no master, slave or process holds it. *)
Theorem pty_master_ref_spec g a t d : table_ok g -> store g !! a = Some t ->
  exists g' freed, pty_master_ref g a d = Some (g', freed) /\ table_ok g' /\
    (freed = true <-> d + masters t <= 0 /\ slaves t <= 0 /\ holds t <= 0) /\
    (freed = true -> store g' !! a = None /\ g_ptys g' !! Z.to_nat (index t) = Some None /\
       forall j, j <> Z.to_nat (index t) -> g_ptys g' !! j = g_ptys g !! j) /\
    (freed = false -> g_ptys g' = g_ptys g /\ store g' !! a = Some (master_ref t d)) /\
    (forall b, b <> a -> store g' !! b = store g !! b).
Proof.
  intros [Hs Hst Hcap] Ha. destruct (Hst a t Ha) as [i Hi].
  destruct (Hs i a Hi) as (_ & t' & Ht' & Hix & _). assert (t' = t) as -> by congruence.
  assert (Hidx : index (master_ref t d) = Z.of_nat i) by (unfold master_ref; cbv zeta; by case_bool).
  assert (Hrefs : masters (master_ref t d) = d + masters t /\ slaves (master_ref t d) = slaves t /\
    holds (master_ref t d) = holds t) by (unfold master_ref; cbv zeta; by case_bool).
  destruct Hrefs as (Hm & Hsl & Hh). apply lookup_lt_Some in Hi as Hlt.
  unfold pty_master_ref, with_pty. rewrite Ha. cbn [mbind option_bind]. unfold maybe_free.
  rewrite Hm, Hsl, Hh.
  destruct ((0 <? d + masters t) || (0 <? slaves t) || (0 <? holds t)) eqn:E.
  - eexists _, false. split_and!; [done | | | done | | intros b Hb; cbn; by rewrite lookup_insert_ne].
    + split; cbn.
      * intros j b Hj. destruct (decide (a = b)) as [<-|Hne].
        -- destruct (Hs j a Hj) as (Ha0 & t2 & Ht2 & Hj2 & _). split; [done|].
           exists (master_ref t d). rewrite lookup_insert_eq, Hidx, Hm, Hsl, Hh.
           assert (t2 = t) as -> by congruence. split_and!; [done|lia|].
           zbool. destruct E as [E|E]; zbool; [|lia]. destruct E as [E|E]; zbool; lia.
        -- rewrite lookup_insert_ne by done. by apply Hs.
      * intros b u. destruct (decide (a = b)) as [<-|Hne]; [by exists i|].
        rewrite lookup_insert_ne by done. apply Hst.
      * done.
    + split; [done|]. intros ?. zbool. destruct E as [E|E]; zbool; [|lia]. destruct E; zbool; lia.
    + intros _. cbn. by rewrite lookup_insert_eq.
  - zbool. rewrite Hidx. unfold aget. rewrite (list_lookup_total_correct _ _ (Some a)) by by rewrite Nat2Z.id.
    rewrite bool_decide_eq_true_2 by done.
    assert (Hb1 : (0 <=? Z.of_nat i) && (Z.of_nat i <? zlen (g_ptys g)) = true).
    { apply andb_true_iff. split; [apply Z.leb_le; lia|apply Z.ltb_lt; unfold zlen; lia]. }
    rewrite Hb1. cbn [andb]. unfold aset. rewrite Nat2Z.id.
    rewrite Hix, Nat2Z.id.
    eexists _, true. split_and!; [done | | done | | done | intros b Hb; cbn; by rewrite lookup_delete_ne].
    + split; cbn.
      * intros j b. destruct (decide (i = j)) as [<-|Hne]; [by rewrite list_lookup_insert_eq|].
        rewrite list_lookup_insert_ne by done. intros Hj. destruct (decide (a = b)) as [<-|Hab].
        { destruct (Hs j a Hj) as (_ & t2 & Ht2 & Hj2 & _). assert (t2 = t) as -> by congruence. lia. }
        rewrite lookup_delete_ne by done. by apply Hs.
      * intros b u. destruct (decide (a = b)) as [<-|Hne]; [by rewrite lookup_delete_eq|].
        rewrite lookup_delete_ne by done. intros Hb. destruct (Hst b u Hb) as [j Hj]. exists j.
        rewrite list_lookup_insert_ne; [done|congruence].
      * unfold zlen in *. by rewrite length_insert.
    + intros _. cbn. rewrite lookup_delete_eq, list_lookup_insert_eq by done. split_and!; try done.
      intros j Hj. by rewrite list_lookup_insert_ne.
Qed.

Definition demo_pty : pty := fresh demo_buf.

Lemma demo_table_ok : table_ok demo_table.
Proof.
  assert (Hst : store demo_table = {[0x5000 := demo_pty]}) by reflexivity.
  assert (Hg : g_ptys demo_table = [Some 0x5000]) by reflexivity.
  split; rewrite ?Hst, ?Hg.
  - intros [|i] a; cbn [lookup list_lookup]; [|done]. intros [= <-]. split; [done|].
    exists demo_pty. split_and!; [apply lookup_singleton_eq | done |]. left. cbn. lia.
  - intros a t Ha. apply lookup_singleton_Some in Ha as [<- _]. by exists 0%nat.
  - done.
Qed.

Lemma pty_master_ref_spec_witness : exists g' freed,
  pty_master_ref demo_table 0x5000 (-1) = Some (g', freed) /\ table_ok g' /\
  (freed = true <-> -1 + masters demo_pty <= 0 /\ slaves demo_pty <= 0 /\ holds demo_pty <= 0) /\
  (freed = true -> store g' !! 0x5000 = None /\ g_ptys g' !! Z.to_nat (index demo_pty) = Some None /\
     forall j, j <> Z.to_nat (index demo_pty) -> g_ptys g' !! j = g_ptys demo_table !! j) /\
  (freed = false -> g_ptys g' = g_ptys demo_table /\ store g' !! 0x5000 = Some (master_ref demo_pty (-1))) /\
  (forall b, b <> 0x5000 -> store g' !! b = store demo_table !! b).
Proof.
  apply (pty_master_ref_spec demo_table 0x5000 demo_pty (-1)); [exact demo_table_ok | reflexivity].
Defined.
