(* ===== verification/KString.v ===== *)
(** The kernel's memory and string routines (src/kernel/kstring.c). Memory is
    a list of bytes; a string is the list of its characters before the NUL. *)

From S2P Require Import Prelude.

(** ** Memory *)

(** the bytes [a, a + n) of [m] *)
Definition bytes_at (m : list Z) (a n : Z) : list Z := take (Z.to_nat n) (drop (Z.to_nat a) m).
(** [m] with the bytes [l] written at [a] *)
Definition write_at (m : list Z) (a : Z) (l : list Z) : list Z :=
  take (Z.to_nat a) m ++ l ++ drop (Z.to_nat a + length l) m.

(** "rep movs" of [count] units of [w] bytes, upwards *)
Fixpoint rep_movs (count : nat) (w : Z) (m : list Z) (dst src : Z) : list Z :=
  match count with
  | O => m
  | S count => rep_movs count w (write_at m dst (bytes_at m src w)) (dst + w) (src + w)
  end.

(** "std; rep movsb": downwards, [dst] and [src] the last bytes *)
Fixpoint rep_movsb_down (count : nat) (m : list Z) (dst src : Z) : list Z :=
  match count with
  | O => m
  | S count => rep_movsb_down count (write_at m dst (bytes_at m src 1)) (dst - 1) (src - 1)
  end.

Definition memcpy (m : list Z) (dst src n : Z) : list Z :=
  let dwords := Z.shiftr n 2 in
  let m := rep_movs (Z.to_nat dwords) 4 m dst src in
  rep_movs (Z.to_nat (Z.land n 3)) 1 m (dst + 4 * dwords) (src + 4 * dwords).

Definition memmove (m : list Z) (dst src n : Z) : list Z :=
  if (dst =? src) || (n =? 0) then m
  else if (dst <? src) || (src + n <=? dst) then memcpy m dst src n
  else rep_movsb_down (Z.to_nat n) m (dst + (n - 1)) (src + (n - 1)).

(** "rep stos" of [count] copies of [unit] *)
Fixpoint rep_stos (count : nat) (unit : list Z) (m : list Z) (dst : Z) : list Z :=
  match count with
  | O => m
  | S count => rep_stos count unit (write_at m dst unit) (dst + zlen unit)
  end.

Definition le_bytes (n : nat) (v : Z) : list Z :=
  (fun i => u8 (Z.shiftr v (8 * i))) <$> seqZ 0 (Z.of_nat n).

Definition memset (m : list Z) (dst c n : Z) : list Z :=
  let v := u8 c in
  let v := Z.lor v (u32 (Z.shiftl v 8)) in
  let v := Z.lor v (u32 (Z.shiftl v 16)) in
  let dwords := Z.shiftr n 2 in
  let m := rep_stos (Z.to_nat dwords) (le_bytes 4 v) m dst in
  rep_stos (Z.to_nat (Z.land n 3)) (le_bytes 1 v) m (dst + 4 * dwords).

Definition memset32 (m : list Z) (dst v count : Z) : list Z :=
  rep_stos (Z.to_nat count) (le_bytes 4 v) m dst.

Fixpoint memcmp (a b : list Z) (n : nat) : Z :=
  match n with
  | O => 0
  | S n => let x := default 0 (head a) in let y := default 0 (head b) in
           if negb (x =? y) then x - y else memcmp (tail a) (tail b) n
  end.

(** ** Strings *)

(** the character at the front: 0 at the end *)
Definition first_char (s : list Z) : Z := default 0 (head s).

Definition strlen (s : list Z) : Z := zlen s.

Fixpoint strcmp (a b : list Z) : Z :=
  match a with
  | [] => 0 - first_char b
  | x :: a' => if x =? first_char b then strcmp a' (tail b) else x - first_char b
  end.

Fixpoint strncmp (a b : list Z) (n : nat) : Z :=
  match n with
  | O => 0
  | S n => let x := first_char a in let y := first_char b in
           if negb (x =? y) then x - y
           else if x =? 0 then 0 else strncmp (tail a) (tail b) n
  end.

Definition k_tolower (c : Z) : Z := if (65 <=? c) && (c <=? 90) then c + 32 else c.

Fixpoint strcasecmp (a b : list Z) : Z :=
  match a with
  | [] => k_tolower 0 - k_tolower (first_char b)
  | x :: a' => if k_tolower x =? k_tolower (first_char b) then strcasecmp a' (tail b)
               else k_tolower x - k_tolower (first_char b)
  end.

Fixpoint strncasecmp (a b : list Z) (n : nat) : Z :=
  match n with
  | O => 0
  | S n => let ca := k_tolower (first_char a) in let cb := k_tolower (first_char b) in
           if negb (ca =? cb) then ca - cb
           else if ca =? 0 then 0 else strncasecmp (tail a) (tail b) n
  end.

(** positions instead of pointers, [None] for NULL *)
Fixpoint strchr_from (s : list Z) (c i : Z) : option Z :=
  match s with
  | [] => if c =? 0 then Some i else None
  | x :: s => if x =? c then Some i else strchr_from s c (i + 1)
  end.
Definition strchr (s : list Z) (c : Z) : option Z := strchr_from s (u8 c) 0.

Fixpoint strrchr_from (s : list Z) (c i : Z) (last : option Z) : option Z :=
  match s with
  | [] => if c =? 0 then Some i else last
  | x :: s => strrchr_from s c (i + 1) (if x =? c then Some i else last)
  end.
Definition strrchr (s : list Z) (c : Z) : option Z := strrchr_from s (u8 c) 0 None.

(** does [s] start with [needle]? the inner loop of strstr *)
Fixpoint starts (needle s : list Z) : bool :=
  match needle, s with
  | [], _ => true
  | x :: needle, y :: s => (x =? y) && starts needle s
  | _ :: _, [] => false
  end.

Fixpoint strstr_from (hay needle : list Z) (i : Z) : option Z :=
  match hay with
  | [] => None
  | _ :: hay' => if starts needle hay then Some i else strstr_from hay' needle (i + 1)
  end.
Definition strstr (hay needle : list Z) : option Z :=
  match needle with [] => Some 0 | _ => strstr_from hay needle 0 end.

(** the new content of the [n] bytes at dst ([None]: nothing is written) and
    the result *)
Definition kstrlcpy (src : list Z) (n : Z) : option (list Z) * Z :=
  let len := strlen src in
  (if n =? 0 then None else Some (take (Z.to_nat (if n <=? len then n - 1 else len)) src), len).

(** [dst]: the string in the [n]-byte buffer, or its [n] bytes when it has no
    NUL among them *)
Definition kstrlcat (dst src : list Z) (n : Z) : list Z * Z :=
  let dl := if zlen dst <? n then zlen dst else n in
  if dl =? n then (dst, n + strlen src)
  else let '(c, r) := kstrlcpy src (n - dl) in (dst ++ default [] c, dl + r).

Definition k_isdigit (c : Z) : bool := (48 <=? c) && (c <=? 57).
Definition k_isspace (c : Z) : bool := (c =? 32) || (c =? 9) || (c =? 13) || (c =? 10).

(** the characters taken and the value *)
Fixpoint k_parse_from (s : list Z) (i v : Z) : Z * Z :=
  match s with
  | c :: s => if k_isdigit c then k_parse_from s (i + 1) (u32 (u32 (v * 10) + (c - 48))) else (i, v)
  | [] => (i, v)
  end.
Definition k_parse_u32 (s : list Z) : Z * Z := k_parse_from s 0 0.

(** ** ksnprintf *)

Record outbuf_t := Outbuf { buf : list Z; cap : Z; len : Z }.
#[export] Instance outbuf_eta : Eta outbuf_t := fun o => Outbuf (buf o) (cap o) (len o).

Definition ob_putc (o : outbuf_t) (c : Z) : outbuf_t :=
  let o := if len o + 1 <? cap o then o <| buf ::= fun b => aset b (len o) c |> else o in
  o <| len ::= Z.add 1 |>.

Definition ob_pad (o : outbuf_t) (c count : Z) : outbuf_t :=
  Nat.iter (Z.to_nat count) (fun o => ob_putc o c) o.

Definition digit (upper : bool) (d : Z) : Z :=
  if d <? 10 then 48 + d else (if upper then 55 else 87) + d.

(** tmp[0..n): the digits, the lowest first; 24 is the size of tmp *)
Fixpoint num_digits (fuel : nat) (v base : Z) (upper : bool) : list Z :=
  match fuel with
  | O => []
  | S fuel => if v =? 0 then [] else digit upper (v mod base) :: num_digits fuel (v / base) base upper
  end.

Definition ob_puts (o : outbuf_t) (s : list Z) : outbuf_t := foldl ob_putc o s.

Definition ob_num (o : outbuf_t) (v base : Z) (upper neg : bool) (width : Z) (zero left : bool) : outbuf_t :=
  let tmp := if v =? 0 then [48] else num_digits 24 v base upper in
  let total := zlen tmp + (if neg then 1 else 0) in
  let o := if negb left && negb zero then ob_pad o 32 (width - total) else o in
  let o := if neg then ob_putc o 45 else o in
  let o := if negb left && zero then ob_pad o 48 (width - total) else o in
  let o := ob_puts o (rev tmp) in
  if left then ob_pad o 32 (width - total) else o.

(** the variable arguments: an integer already at its width, or a string *)
Inductive arg := Int (v : Z) | Str (s : option (list Z)).
Definition int_arg (args : list arg) : Z := match args with Int v :: _ => v | _ => 0 end.
Definition str_arg (args : list arg) : option (list Z) := match args with Str s :: _ => s | _ => None end.

(** the flags, then the width (an int), then the l's *)
Fixpoint parse_flags (fmt : list Z) (left zero : bool) : list Z * bool * bool :=
  match fmt with
  | c :: fmt' => if c =? 45 then parse_flags fmt' true zero
                 else if c =? 48 then parse_flags fmt' left true else (fmt, left, zero)
  | [] => ([], left, zero)
  end.
Fixpoint parse_width (fmt : list Z) (width : Z) : list Z * Z :=
  match fmt with
  | c :: fmt' => if k_isdigit c then parse_width fmt' (s32 (width * 10 + (c - 48))) else (fmt, width)
  | [] => ([], width)
  end.
Fixpoint parse_longs (fmt : list Z) (lng : Z) : list Z * Z :=
  match fmt with
  | c :: fmt' => if c =? 108 then parse_longs fmt' (lng + 1) else (fmt, lng)
  | [] => ([], lng)
  end.

Definition null_text : list Z := [40; 110; 117; 108; 108; 41].

(** one conversion: the output and the arguments left *)
Definition convert (o : outbuf_t) (c lng width : Z) (zero left : bool) (args : list arg) : outbuf_t * list arg :=
  let v := int_arg args in
  if (c =? 100) || (c =? 105) then
    let v := if 2 <=? lng then sx 64 v else s32 v in
    (ob_num o (u64 (Z.abs v)) 10 false (v <? 0) width zero left, tail args)
  else if c =? 117 then
    (ob_num o (if 2 <=? lng then u64 v else u32 v) 10 false false width zero left, tail args)
  else if (c =? 120) || (c =? 88) then
    (ob_num o (if 2 <=? lng then u64 v else u32 v) 16 (c =? 88) false width zero left, tail args)
  else if c =? 111 then
    (ob_num o (if 2 <=? lng then u64 v else u32 v) 8 false false width zero left, tail args)
  else if c =? 112 then
    (ob_num (ob_putc (ob_putc o 48) 120) (u64 v) 16 false false 8 true false, tail args)
  else if c =? 115 then
    let s := default null_text (str_arg args) in
    let o := if left then o else ob_pad o 32 (width - zlen s) in
    let o := ob_puts o s in
    (if left then ob_pad o 32 (width - zlen s) else o, tail args)
  else if c =? 99 then (ob_putc o (u8 v), tail args)
  else if c =? 37 then (ob_putc o 37, args)
  else (ob_putc (ob_putc o 37) c, args).

(** the loop over the format, whose length is fuel enough *)
Fixpoint format_loop (fuel : nat) (o : outbuf_t) (fmt : list Z) (args : list arg) : outbuf_t :=
  match fuel with
  | O => o
  | S fuel =>
    match fmt with
    | [] => o
    | c :: fmt =>
      if negb (c =? 37) then format_loop fuel (ob_putc o c) fmt args else
      let '(fmt, lft, zero) := parse_flags fmt false false in
      let '(fmt, width) := parse_width fmt 0 in
      let '(fmt, lng) := parse_longs fmt 0 in
      match fmt with
      | [] => o
      | c :: fmt =>
        let '(o, args) := convert o c lng width zero lft args in
        format_loop fuel o fmt args
      end
    end
  end.

(** the buffer and the result; [b] is what the [n] bytes held *)
Definition kvsnprintf (b : list Z) (n : Z) (fmt : list Z) (args : list arg) : list Z * Z :=
  let o := format_loop (length fmt) (Outbuf b n 0) fmt args in
  (if n =? 0 then buf o else aset (buf o) (if len o <? n then len o else n - 1) 0, s32 (len o)).

Definition ksnprintf := kvsnprintf.
