(* ===== verification/KStringProps.v ===== *)
(** The properties of the memory and string routines: memmove for every
    overlap, and what ksnprintf leaves in its buffer. *)

From S2P Require Import Prelude Lit KString.

(** ** Writing into memory *)

Lemma zlen_write_at m a l : 0 <= a -> a + zlen l <= zlen m -> zlen (write_at m a l) = zlen m.
Proof.
  intros Ha Hl. unfold write_at, zlen in *. rewrite !length_app, length_take, length_drop. lia.
Qed.

Lemma aget_write_at m a l j : 0 <= a -> a + zlen l <= zlen m -> 0 <= j ->
  aget (write_at m a l) j = if (a <=? j) && (j <? a + zlen l) then aget l (j - a) else aget m j.
Proof.
  intros Ha Hl Hj. unfold write_at. pose proof (zlen_nonneg l).
  rewrite aget_app by done. rewrite zlen_take by done. rewrite Z.min_l by lia.
  destruct (j <? a) eqn:E1; zbool.
  - rewrite aget_take by lia. destruct (a <=? j) eqn:E2; zbool; [lia|done].
  - destruct (a <=? j) eqn:E2; zbool; [|lia]. cbn [andb]. rewrite aget_app by lia.
    destruct (j - a <? zlen l) eqn:E3, (j <? a + zlen l) eqn:E4; zbool; try lia.
    replace (Z.to_nat a + length l)%nat with (Z.to_nat (a + zlen l)) by (unfold zlen; lia).
    rewrite aget_drop by lia. f_equal. lia.
Qed.

Lemma zlen_bytes_at m a n : 0 <= a -> 0 <= n -> a + n <= zlen m -> zlen (bytes_at m a n) = n.
Proof. intros. unfold bytes_at. rewrite zlen_take, zlen_drop by lia. lia. Qed.

Lemma aget_bytes_at m a n j : 0 <= a -> 0 <= j < n -> aget (bytes_at m a n) j = aget m (a + j).
Proof. intros. unfold bytes_at. rewrite aget_take, aget_drop by lia. done. Qed.

(** a copy that reads nothing it has already overwritten *)
Lemma rep_movs_spec count w m dst src : 0 < w -> 0 <= dst -> 0 <= src ->
  dst + Z.of_nat count * w <= zlen m -> src + Z.of_nat count * w <= zlen m ->
  dst < src \/ src + Z.of_nat count * w <= dst ->
  zlen (rep_movs count w m dst src) = zlen m /\
  forall j, 0 <= j -> aget (rep_movs count w m dst src) j =
    if (dst <=? j) && (j <? dst + Z.of_nat count * w) then aget m (src + (j - dst)) else aget m j.
Proof.
  intros Hw. revert m dst src. induction count as [|count IH]; intros m dst src Hd Hs Hdl Hsl Hov.
  { split; [done|]. intros j Hj. cbn [rep_movs]. destruct (dst <=? j) eqn:E1, (j <? dst + Z.of_nat 0 * w) eqn:E2; zbool; try done; lia. }
  cbn [rep_movs]. set (m1 := write_at m dst (bytes_at m src w)).
  assert (HK : Z.of_nat (S count) * w = w + Z.of_nat count * w) by lia. rewrite HK in *.
  assert (0 <= Z.of_nat count * w) by lia. set (K := Z.of_nat count * w) in *.
  assert (Hb : zlen (bytes_at m src w) = w) by (apply zlen_bytes_at; lia).
  assert (Hm1 : zlen m1 = zlen m) by (apply zlen_write_at; lia).
  destruct (IH m1 (dst + w) (src + w)) as [Hlen Hget]; [lia..|].
  split; [lia|]. intros j Hj. rewrite Hget by done.
  assert (H1 : forall i, 0 <= i -> aget m1 i = if (dst <=? i) && (i <? dst + w) then aget m (src + (i - dst)) else aget m i).
  { intros i Hi. unfold m1. rewrite aget_write_at by lia. rewrite Hb.
    destruct ((dst <=? i) && (i <? dst + w)) eqn:E; [|done]. zbool. by rewrite aget_bytes_at by lia. }
  destruct ((dst + w <=? j) && (j <? dst + w + K)) eqn:E1; zbool; rewrite H1 by lia;
    zcases; try lia; try done; f_equal; lia.
Qed.

Lemma rep_movsb_down_spec count m dst src : Z.of_nat count <= src + 1 -> src < dst -> dst < zlen m ->
  zlen (rep_movsb_down count m dst src) = zlen m /\
  forall j, 0 <= j -> aget (rep_movsb_down count m dst src) j =
    if (dst - Z.of_nat count <? j) && (j <=? dst) then aget m (src + (j - dst)) else aget m j.
Proof.
  revert m dst src. induction count as [|count IH]; intros m dst src Hs Hsd Hd.
  { split; [done|]. intros j Hj. cbn [rep_movsb_down]. destruct (dst - Z.of_nat 0 <? j) eqn:E1, (j <=? dst) eqn:E2; zbool; try done; lia. }
  cbn [rep_movsb_down]. set (m1 := write_at m dst (bytes_at m src 1)).
  assert (Hb : zlen (bytes_at m src 1) = 1) by (apply zlen_bytes_at; lia).
  assert (Hm1 : zlen m1 = zlen m) by (apply zlen_write_at; lia).
  destruct (IH m1 (dst - 1) (src - 1)) as [Hlen Hget]; [lia..|].
  split; [lia|]. intros j Hj. rewrite Hget by done.
  assert (H1 : forall i, 0 <= i -> aget m1 i = if (dst <=? i) && (i <? dst + 1) then aget m (src + (i - dst)) else aget m i).
  { intros i Hi. unfold m1. rewrite aget_write_at by lia. rewrite Hb.
    destruct ((dst <=? i) && (i <? dst + 1)) eqn:E; [|done]. zbool. by rewrite aget_bytes_at by lia. }
  destruct ((dst - 1 - Z.of_nat count <? j) && (j <=? dst - 1)) eqn:E1; zbool; rewrite H1 by lia;
    zcases; try lia; try done; f_equal; lia.
Qed.

Lemma memcpy_spec m dst src n : 0 <= dst -> 0 <= src -> 0 <= n -> dst + n <= zlen m -> src + n <= zlen m ->
  dst < src \/ src + n <= dst -> memcpy m dst src n = write_at m dst (bytes_at m src n).
Proof.
  intros Hd Hs Hn Hdl Hsl Hov. unfold memcpy. rewrite Z.shiftr_div_pow2 by lia. change (2 ^ 2) with 4.
  change 3 with (Z.ones 2) at 1. rewrite Z.land_ones by lia. change (2 ^ 2) with 4.
  destruct (rep_movs_spec (Z.to_nat (n / 4)) 4 m dst src) as [L1 G1]; [lia..|].
  set (m1 := rep_movs _ 4 m dst src) in *.
  destruct (rep_movs_spec (Z.to_nat (n mod 4)) 1 m1 (dst + 4 * (n / 4)) (src + 4 * (n / 4))) as [L2 G2]; [lia..|].
  pose proof (zlen_bytes_at m src n Hs Hn Hsl) as Hb.
  apply zlist_ext; [rewrite zlen_write_at by lia; lia|]. intros j Hj. rewrite G2 by lia.
  rewrite aget_write_at, Hb by lia.
  match goal with |- (if ?b then _ else _) = _ => destruct b eqn:E1 end; zors; rewrite G1 by lia;
    zcases; try lia; try done; rewrite ?aget_bytes_at by lia; f_equal; lia.
Qed.

(** memmove copies the bytes that were at [src], however the two ranges
    overlap - its dword copy upwards never reads what it has written, and it
    copies downwards when it must - and touches nothing else. *)
Theorem memmove_spec m dst src n : 0 <= dst -> 0 <= src -> 0 <= n ->
  dst + n <= zlen m -> src + n <= zlen m ->
  memmove m dst src n = write_at m dst (bytes_at m src n).
Proof.
  intros Hd Hs Hn Hdl Hsl. pose proof (zlen_bytes_at m src n Hs Hn Hsl) as Hb. unfold memmove.
  destruct ((dst =? src) || (n =? 0)) eqn:E.
  { apply zlist_ext; [by rewrite zlen_write_at by lia|]. intros j Hj. rewrite aget_write_at, Hb by lia.
    destruct ((dst <=? j) && (j <? dst + n)) eqn:E2; [|done]. zbool. destruct E as [E|E]; zbool; [|lia].
    rewrite aget_bytes_at by lia. f_equal. lia. }
  destruct ((dst <? src) || (src + n <=? dst)) eqn:E2.
  { zbool. apply memcpy_spec; try done. destruct E2 as [E2|E2]; zbool; auto. }
  zbool. destruct (rep_movsb_down_spec (Z.to_nat n) m (dst + (n - 1)) (src + (n - 1))) as [L G]; [lia..|].
  apply zlist_ext; [rewrite zlen_write_at by lia; lia|]. intros j Hj. rewrite G, aget_write_at, Hb by lia.
  zcases; try lia; try done; rewrite ?aget_bytes_at by lia; f_equal; lia.
Qed.

Lemma memmove_spec_witness : memmove (seqZ 0 20) 3 1 9 = write_at (seqZ 0 20) 3 (bytes_at (seqZ 0 20) 1 9).
Proof. apply (memmove_spec (seqZ 0 20) 3 1 9); vm_compute; discriminate. Defined.

(** ** ksnprintf against a reference that has no buffer *)

(** the text of a number *)
Definition pad_text (c count : Z) : list Z := replicate (Z.to_nat count) c.

Definition num_text (v base : Z) (upper neg : bool) (width : Z) (zero lft : bool) : list Z :=
  let digits := rev (if v =? 0 then [48] else num_digits 24 v base upper) in
  let sign := if neg then [45] else [] in
  let fill := width - (zlen digits + zlen sign) in
  if lft then sign ++ digits ++ pad_text 32 fill
  else if zero then sign ++ pad_text 48 fill ++ digits
  else pad_text 32 fill ++ sign ++ digits.

Definition convert_text (c lng width : Z) (zero lft : bool) (args : list arg) : list Z * list arg :=
  let v := int_arg args in
  let unsigned := if 2 <=? lng then u64 v else u32 v in
  if (c =? 100) || (c =? 105) then
    let v := if 2 <=? lng then sx 64 v else s32 v in
    (num_text (u64 (Z.abs v)) 10 false (v <? 0) width zero lft, tail args)
  else if c =? 117 then (num_text unsigned 10 false false width zero lft, tail args)
  else if (c =? 120) || (c =? 88) then (num_text unsigned 16 (c =? 88) false width zero lft, tail args)
  else if c =? 111 then (num_text unsigned 8 false false width zero lft, tail args)
  else if c =? 112 then ([48; 120] ++ num_text (u64 v) 16 false false 8 true false, tail args)
  else if c =? 115 then
    let s := default null_text (str_arg args) in
    (if lft then s ++ pad_text 32 (width - zlen s) else pad_text 32 (width - zlen s) ++ s, tail args)
  else if c =? 99 then ([u8 v], tail args)
  else if c =? 37 then ([37], args)
  else ([37; c], args).

Fixpoint format_text (fuel : nat) (fmt : list Z) (args : list arg) : list Z :=
  match fuel with
  | O => []
  | S fuel =>
    match fmt with
    | [] => []
    | c :: fmt =>
      if negb (c =? 37) then c :: format_text fuel fmt args else
      let '(fmt, lft, zero) := parse_flags fmt false false in
      let '(fmt, width) := parse_width fmt 0 in
      let '(fmt, lng) := parse_longs fmt 0 in
      match fmt with
      | [] => []
      | c :: fmt =>
        let '(t, args) := convert_text c lng width zero lft args in t ++ format_text fuel fmt args
      end
    end
  end.

(** [o] has taken the text [t] into a buffer of [n] bytes that held [b] *)
Record holds (b : list Z) (n : Z) (o : outbuf_t) (t : list Z) : Prop := {
  ho_cap : cap o = n;
  ho_len : len o = zlen t;
  ho_buf : buf o = take (Z.to_nat (n - 1)) t ++ drop (length (take (Z.to_nat (n - 1)) t)) b;
}.

Section holds.
Context (b : list Z) (n : Z) (Hn : 0 <= n) (Hb : zlen b = n).

Lemma putc_holds o t c : holds b n o t -> holds b n (ob_putc o c) (t ++ [c]).
Proof using Hn Hb.
  intros [Hc Hl Hbuf]. pose proof (zlen_nonneg t). unfold ob_putc. rewrite Hc, Hl.
  destruct (zlen t + 1 <? n) eqn:E; zbool; split; cbn; rewrite ?zlen_app, ?zlen_cons, ?zlen_nil; try lia.
  - rewrite Hbuf. rewrite (take_ge t), (take_ge (t ++ [c])) by (rewrite ?length_app; unfold zlen in *; cbn; lia).
    assert (Hd : exists x, drop (length t) b = x :: drop (S (length t)) b).
    { destruct (lookup_lt_is_Some_2 b (length t)) as [x Hx]; [unfold zlen in *; lia|].
      exists x. by apply drop_S. }
    destruct Hd as [x ->]. unfold aset. unfold zlen. rewrite Nat2Z.id.
    rewrite insert_app_r_alt by lia. rewrite Nat.sub_diag. rewrite length_app. cbn.
    rewrite Nat.add_1_r, <- app_assoc. done.
  - rewrite Hbuf. rewrite take_app_le by (unfold zlen in *; lia). done.
Qed.

Lemma puts_holds s o t : holds b n o t -> holds b n (ob_puts o s) (t ++ s).
Proof using Hn Hb.
  revert o t. induction s as [|c s IH]; intros o t H; [by rewrite app_nil_r|].
  change (c :: s) with ([c] ++ s). rewrite app_assoc. apply IH. by apply putc_holds.
Qed.

Lemma pad_holds c count o t : holds b n o t -> holds b n (ob_pad o c count) (t ++ pad_text c count).
Proof using Hn Hb.
  intros H. unfold ob_pad, pad_text. induction (Z.to_nat count) as [|k IH]; [by rewrite app_nil_r|].
  rewrite replicate_S_end, app_assoc. by apply putc_holds.
Qed.

Lemma num_holds v base upper neg width zero lft o t : holds b n o t ->
  holds b n (ob_num o v base upper neg width zero lft) (t ++ num_text v base upper neg width zero lft).
Proof using Hn Hb.
  intros H. unfold ob_num, num_text. set (tmp := if v =? 0 then [48] else num_digits 24 v base upper).
  assert (Htot : zlen tmp + (if neg then 1 else 0) = zlen (rev tmp) + zlen (if neg then [45] else [])).
  { unfold zlen. rewrite length_rev. by destruct neg. }
  rewrite Htot. set (fill := width - _).
  destruct lft, zero, neg; cbn [andb negb]; rewrite ?app_nil_r, ?app_nil_l, ?app_assoc;
    repeat first [apply pad_holds | apply puts_holds | apply putc_holds]; done.
Qed.

Lemma convert_holds c lng width zero lft args o t : holds b n o t ->
  (convert o c lng width zero lft args).2 = (convert_text c lng width zero lft args).2 /\
  holds b n (convert o c lng width zero lft args).1 (t ++ (convert_text c lng width zero lft args).1).
Proof using Hn Hb.
  intros H. unfold convert, convert_text.
  repeat (case_bool; [split; [done|]; cbn [fst]; try by apply num_holds|]).
  - change (t ++ [48; 120] ++ ?x) with (t ++ [48] ++ [120] ++ x). rewrite !app_assoc.
    by apply num_holds, putc_holds, putc_holds.
  - destruct lft; rewrite app_assoc; [by apply pad_holds, puts_holds|by apply puts_holds, pad_holds].
  - by apply putc_holds.
  - by apply putc_holds.
  - split; [done|]. cbn [fst]. change [37; c] with ([37] ++ [c]). rewrite app_assoc.
    by apply putc_holds, putc_holds.
Qed.

Lemma format_holds fuel fmt args o t : holds b n o t ->
  holds b n (format_loop fuel o fmt args) (t ++ format_text fuel fmt args).
Proof using Hn Hb.
  revert fmt args o t. induction fuel as [|fuel IH]; intros fmt args o t H; cbn [format_loop format_text];
    [by rewrite app_nil_r|].
  destruct fmt as [|c fmt]; [by rewrite app_nil_r|]. case_bool.
  { change (c :: format_text fuel fmt args) with ([c] ++ format_text fuel fmt args).
    rewrite app_assoc. by apply IH, putc_holds. }
  destruct (parse_flags fmt false false) as [[fmt1 lft] zero]. destruct (parse_width fmt1 0) as [fmt2 width].
  destruct (parse_longs fmt2 0) as [fmt3 lng]. destruct fmt3 as [|c2 fmt3]; [by rewrite app_nil_r|].
  pose proof (convert_holds c2 lng width zero lft args o t H) as [Ha Ho].
  destruct (convert _ _ _ _ _ _ _) as [o' args1], (convert_text _ _ _ _ _ _) as [t' args2].
  cbn [fst snd] in *. subst args2. rewrite app_assoc. by apply IH.
Qed.
End holds.

(** C22: ksnprintf: the formatted text, cut to [n - 1] characters and ended by a
    NUL, at the start of the buffer, no other byte of which changes; the result
    is the length of the whole text, as an int. *)
Theorem ksnprintf_spec b n fmt args : zlen b = n -> 0 < n ->
  let t := format_text (length fmt) fmt args in
  let kept := take (Z.to_nat (n - 1)) t in
  ksnprintf b n fmt args = (kept ++ [0] ++ drop (length kept + 1) b, s32 (zlen t)).
Proof.
  intros Hb Hn t kept. unfold ksnprintf, kvsnprintf.
  assert (H0 : holds b n (Outbuf b n 0) []) by (split; [done|done|by rewrite take_nil]).
  destruct (format_holds b n ltac:(lia) Hb (length fmt) fmt args _ _ H0) as [_ Hl Hbuf].
  change ([] ++ ?x) with x in *. fold t in Hl, Hbuf. fold kept in Hbuf. rewrite Hl, Hbuf.
  destruct (n =? 0) eqn:E; zbool; [lia|]. f_equal. clear E.
  assert (Hk : zlen kept = Z.min (n - 1) (zlen t)) by (apply zlen_take; lia).
  pose proof (zlen_nonneg t).
  assert (Hpos : (if zlen t <? n then zlen t else n - 1) = zlen kept).
  { destruct (_ <? _) eqn:E; zbool; lia. }
  rewrite Hpos. unfold aset.
  destruct (lookup_lt_is_Some_2 b (length kept)) as [x Hx]; [unfold zlen in *; lia|].
  rewrite (drop_S _ _ _ Hx). unfold zlen. rewrite Nat2Z.id.
  rewrite insert_app_r_alt by lia. rewrite Nat.sub_diag. cbn. by rewrite Nat.add_1_r.
Qed.

Lemma ksnprintf_spec_witness :
  let t := format_text 5 [37; 48; 53; 100; 33] [Int (-42)] in
  let kept := take (Z.to_nat (5 - 1)) t in
  ksnprintf [9; 9; 9; 9; 9] 5 [37; 48; 53; 100; 33] [Int (-42)]
    = (kept ++ [0] ++ drop (length kept + 1) [9; 9; 9; 9; 9], s32 (zlen t)).
Proof. apply (ksnprintf_spec [9; 9; 9; 9; 9] 5 [37; 48; 53; 100; 33] [Int (-42)]); [reflexivity | lia]. Defined.

(** ** Numbers *)

Lemma parse_snoc s d i v : forallb k_isdigit s = true -> k_isdigit d = true ->
  k_parse_from (s ++ [d]) i v =
    (let '(i', v') := k_parse_from s i v in (i' + 1, u32 (u32 (v' * 10) + (d - 48)))).
Proof.
  intros Hs Hd. revert i v. induction s as [|c s IH]; intros i v; cbn [app k_parse_from].
  - by rewrite Hd.
  - cbn [forallb] in Hs. apply andb_true_iff in Hs as [-> Hs]. by apply IH.
Qed.

Lemma parse_stop s rest i v : forallb k_isdigit s = true -> (forall c, head rest = Some c -> k_isdigit c = false) ->
  k_parse_from (s ++ rest) i v = k_parse_from s i v.
Proof.
  intros Hs Hr. revert i v. induction s as [|c s IH]; intros i v; cbn [app k_parse_from].
  - destruct rest as [|c rest]; [done|]. cbn. by rewrite (Hr c).
  - cbn [forallb] in Hs. apply andb_true_iff in Hs as [-> Hs]. by apply IH.
Qed.

Lemma digit_spec d : 0 <= d < 10 -> k_isdigit (digit false d) = true /\ digit false d - 48 = d.
Proof.
  intros Hd. unfold digit, k_isdigit. destruct (d <? 10) eqn:E; zbool; [|lia].
  split; [|lia]. apply andb_true_iff. split; apply Z.leb_le; lia.
Qed.

Lemma num_digits_spec fuel v : 0 <= v < 2 ^ 32 -> v < 10 ^ Z.of_nat fuel ->
  forallb k_isdigit (rev (num_digits fuel v 10 false)) = true /\
  k_parse_from (rev (num_digits fuel v 10 false)) 0 0 = (zlen (num_digits fuel v 10 false), v).
Proof.
  revert v. induction fuel as [|fuel IH]; intros v Hv Hf; cbn [num_digits].
  { assert (v = 0) as -> by (cbn in Hf; lia). done. }
  destruct (v =? 0) eqn:E; zbool; [by subst v|]. cbn [rev].
  assert (Hpow : 10 ^ Z.of_nat (S fuel) = 10 * 10 ^ Z.of_nat fuel).
  { rewrite Nat2Z.inj_succ. apply Z.pow_succ_r. lia. }
  rewrite Hpow in Hf. destruct (IH (v / 10)) as [H1 H2]; [lia|apply Z.div_lt_upper_bound; lia|].
  destruct (digit_spec (v mod 10)) as [D1 D2]; [lia|].
  split; [rewrite forallb_app, H1; cbn; by rewrite D1|].
  rewrite parse_snoc, H2 by done. rewrite zlen_cons, D2.
  rewrite (u32_small (v / 10 * 10)) by (unfold is_u32; lia). rewrite u32_small by (unfold is_u32; lia). f_equal; lia.
Qed.

(** the decimal digits of a number, and the conversions that write them *)
Definition dec_text (v : Z) : list Z := rev (if v =? 0 then [48] else num_digits 24 v 10 false).

Lemma num_text_dec v : num_text v 10 false false 0 false false = dec_text v.
Proof.
  unfold num_text, pad_text, dec_text. set (d := rev _).
  replace (Z.to_nat (0 - (zlen d + zlen []))) with 0%nat; [done|].
  pose proof (zlen_nonneg d). change (zlen (@nil Z)) with 0. lia.
Qed.

Lemma dec_digits v : 0 <= v < 2 ^ 32 -> forallb k_isdigit (dec_text v) = true.
Proof.
  intros Hv. unfold dec_text. destruct (v =? 0); [done|].
  apply num_digits_spec; [done|]. apply Z.lt_trans with (2 ^ 32); [apply Hv | reflexivity].
Qed.

Lemma parse_dec v rest : 0 <= v < 2 ^ 32 -> (forall c, head rest = Some c -> k_isdigit c = false) ->
  k_parse_u32 (dec_text v ++ rest) = (zlen (dec_text v), v).
Proof.
  intros Hv Hr. unfold k_parse_u32. rewrite parse_stop by auto using dec_digits.
  unfold dec_text. destruct (v =? 0) eqn:E; zbool; [by subst v|].
  destruct (num_digits_spec 24 v Hv) as [_ ->]; [apply Z.lt_trans with (2 ^ 32); [apply Hv | reflexivity]|].
  unfold zlen. by rewrite length_rev.
Qed.

(** a text that fits the buffer is the string left in it *)
Lemma c_string_text t rest : Forall (fun c => c <> 0) t -> c_string (t ++ 0 :: rest) = t.
Proof.
  induction 1 as [|c t Hc Ht IH]; [done|]. cbn. by rewrite (proj2 (Z.eqb_neq c 0) Hc), IH.
Qed.

Lemma ksnprintf_fits b n fmt args : let t := format_text (length fmt) fmt args in
  zlen b = n -> zlen t < n -> ksnprintf b n fmt args = (t ++ 0 :: drop (S (length t)) b, s32 (zlen t)).
Proof.
  intros t Hb Hn. pose proof (zlen_nonneg t). unfold ksnprintf, kvsnprintf.
  assert (H0 : holds b n (Outbuf b n 0) []) by (split; [done|done|by rewrite take_nil]).
  destruct (format_holds b n ltac:(lia) Hb (length fmt) fmt args _ _ H0) as [_ Hl Hbuf].
  change ([] ++ ?x) with x in *. fold t in Hl, Hbuf.
  rewrite (take_ge t) in Hbuf by (unfold zlen in *; lia).
  destruct (n =? 0) eqn:E; zbool; [lia|]. rewrite Hl. f_equal.
  rewrite Hbuf. destruct (zlen t <? n) eqn:E2; zbool; [|lia].
  destruct (lookup_lt_is_Some_2 b (length t)) as [x Hx]; [unfold zlen in *; lia|].
  rewrite (drop_S _ _ _ Hx). unfold aset, zlen. by rewrite Nat2Z.id, insert_app_r_alt, Nat.sub_diag by lia.
Qed.

Lemma ksnprintf_text b n fmt args : let t := format_text (length fmt) fmt args in
  zlen b = n -> zlen t < n -> Forall (fun c => c <> 0) t ->
  c_string (ksnprintf b n fmt args).1 = t.
Proof. intros t Hb Hn Ht. rewrite ksnprintf_fits by done. by apply c_string_text. Qed.

(** k_parse_u32 reads back what ksnprintf writes for "%u": every 32-bit
    value, and it stops right after the digits. *)
Theorem format_parse_u32 v rest : 0 <= v < 2 ^ 32 ->
  (forall c, head rest = Some c -> k_isdigit c = false) ->
  let t := format_text 2 [37; 117] [Int v] in
  k_parse_u32 (t ++ rest) = (zlen t, v).
Proof.
  intros Hv Hr t. assert (Ht : t = dec_text v).
  { transitivity (num_text (u32 v) 10 false false 0 false false ++ []); [reflexivity|].
    by rewrite u32_small, app_nil_r, num_text_dec. }
  rewrite Ht. by apply parse_dec.
Qed.

Lemma format_parse_u32_witness :
  let t := format_text 2 [37; 117] [Int 4294967295] in
  k_parse_u32 (t ++ [46; 53]) = (zlen t, 4294967295).
Proof. apply (format_parse_u32 4294967295 [46; 53]); [lia | intros c [= <-]; reflexivity]. Defined.
