(* ===== verification/Textbuf.v ===== *)
(** Editable texts (src/kernel/textbuf.c): lines, a cursor and a selection.
    The kernel heap is the list of what its next allocations do ([true]: it
    succeeds), so every failure path runs. *)

From S2P Require Import Prelude Utf8 KString.

(** a line: its bytes ([len] of them) and the size of its buffer *)
Record tb_line_t := Line { s : list Z; lcap : Z }.
#[export] Instance line_eta : Eta tb_line_t := fun l => Line (s l) (lcap l).
#[export] Instance line_inhabited : Inhabited tb_line_t := populate (Line [] 0).

Record textbuf_t := Textbuf {
  lines : list tb_line_t; cap : Z;
  cx : Z; cy : Z;
  want_x : Z;
  sel : bool; ax : Z; ay : Z;
  dirty : bool;
  heap : list bool;
}.
#[export] Instance textbuf_eta : Eta textbuf_t := fun t =>
  Textbuf (lines t) (cap t) (cx t) (cy t) (want_x t) (sel t) (ax t) (ay t) (dirty t) (heap t).

Definition MAX_LINES : Z := 200000.
Definition len (l : tb_line_t) : Z := zlen (s l).
Definition n (t : textbuf_t) : Z := zlen (lines t).
Definition line_at (t : textbuf_t) (y : Z) : tb_line_t := aget (lines t) y.
Definition set_line (t : textbuf_t) (y : Z) (l : tb_line_t) : textbuf_t := t <| lines ::= fun ls => aset ls y l |>.

(** does the next allocation succeed? (once the list is used up, they do) *)
Definition kmalloc (mem : list bool) : bool * list bool :=
  match mem with [] => (true, []) | b :: mem => (b, mem) end.

(** [while (cap < need) cap *= 2;] *)
Fixpoint double_cap (fuel : nat) (cap need : Z) : Z :=
  match fuel with
  | O => cap
  | S fuel => if cap <? need then double_cap fuel (cap * 2) need else cap
  end.

(** room for [need] bytes and a NUL: the line, or [None] for -1 *)
Definition line_reserve (mem : list bool) (l : tb_line_t) (need : Z) : option tb_line_t * list bool :=
  if 0x80000000 <=? need then (None, mem) else
  if need + 1 <=? lcap l then (Some l, mem) else
  let cap := double_cap 32 (if lcap l =? 0 then 16 else lcap l) (need + 1) in
  let '(ok, mem) := kmalloc mem in
  (if ok then Some (l <| lcap := cap |>) else None, mem).

(** the new capacity of the array of lines, or [None] for -1 *)
Definition lines_reserve (mem : list bool) (cap need : Z) : option Z * list bool :=
  if MAX_LINES <? need then (None, mem) else
  if need <=? cap then (Some cap, mem) else
  let cap := double_cap 32 (if cap =? 0 then 64 else cap) need in
  let '(ok, mem) := kmalloc mem in
  (if ok then Some cap else None, mem).

(** a new empty line at index [i]: the text and whether it worked *)
Definition insert_line (t : textbuf_t) (i : Z) : textbuf_t * bool :=
  let '(cap', mem) := lines_reserve (heap t) (cap t) (n t + 1) in
  let t := t <| heap := mem |> in
  match cap' with
  | None => (t, false)
  | Some cap' =>
    let t := t <| cap := cap' |> in
    let '(fresh, mem) := line_reserve mem (Line [] 0) 0 in
    let t := t <| heap := mem |> in
    match fresh with
    | None => (t, false)
    | Some fresh => (t <| lines ::= fun ls => take (Z.to_nat i) ls ++ fresh :: drop (Z.to_nat i) ls |>, true)
    end
  end.

Definition remove_line (t : textbuf_t) (i : Z) : textbuf_t := t <| lines ::= delete (Z.to_nat i) |>.

Definition empty (mem : list bool) : textbuf_t := Textbuf [] 0 0 0 0 false 0 0 false mem.

Definition tb_init (mem : list bool) : textbuf_t := (insert_line (empty mem) 0).1.

Definition tb_free (t : textbuf_t) : textbuf_t := empty (heap t).

(** the last loop of clamp: back to the start of a character *)
Definition clamp (t : textbuf_t) : textbuf_t :=
  let t := if cy t <? 0 then t <| cy := 0 |> else t in
  let t := if n t <=? cy t then t <| cy := n t - 1 |> else t in
  let t := if cx t <? 0 then t <| cx := 0 |> else t in
  let l := line_at t (cy t) in
  let t := if len l <? cx t then t <| cx := len l |> else t in
  t <| cx ::= fun x => back_cont (Z.to_nat x) (s l) x |>.

Definition tb_col (t : textbuf_t) (y x : Z) : Z :=
  if (y <? 0) || (n t <=? y) then x
  else let l := line_at t y in u8_width (s l) (if x <? len l then x else len l).

Definition tb_byte (t : textbuf_t) (y col : Z) : Z :=
  if (y <? 0) || (n t <=? y) then col
  else let l := line_at t y in u8_byte_at_col (s l) (len l) col.

(** ** Loading and saving *)

(** the line's bytes without the \r before its end *)
Definition chomp_cr (l : list Z) : list Z :=
  match last l with Some 13 => take (length l - 1) l | _ => l end.

(** the lines of a text, cut at \n: one more than there are \n's *)
Fixpoint cut_lines (text cur : list Z) : list (list Z) :=
  match text with
  | [] => [cur]
  | c :: text => if c =? 10 then cur :: cut_lines text [] else cut_lines text (cur ++ [c])
  end.

(** the loop of tb_load over the lines of the text: each fills the last line of
    [next], and is followed by a new one unless it ends the text *)
Fixpoint load_lines (next : textbuf_t) (ls : list (list Z)) : textbuf_t * bool :=
  match ls with
  | [] => (next, true)
  | l :: ls =>
    let l := chomp_cr l in
    let i := n next - 1 in
    let '(r, mem) := line_reserve (heap next) (line_at next i) (zlen l) in
    let next := next <| heap := mem |> in
    match r with
    | None => (next, false)
    | Some r =>
      let next := set_line next i (r <| s := l |>) in
      match ls with
      | [] => (next, true)
      | _ => let '(next, ok) := insert_line next (n next) in
             if ok then load_lines next ls else (next, false)
      end
    end
  end.

(** the new text and whether it was loaded (-1: it is as before), where [text] is not NULL *)
Definition load_text (t : textbuf_t) (text : list Z) : textbuf_t * bool :=
  if 0x80000000 <=? zlen text then (t, false) else
  let '(next, ok) := insert_line (empty (heap t)) 0 in
  if negb ok then (t <| heap := heap next |>, false) else
  let '(next, ok) := load_lines next (cut_lines text []) in
  if ok then (next, true) else (t <| heap := heap next |>, false).

(** ... and with what C passes: a pointer, NULL or to [len] bytes *)
Definition tb_load_at (t : textbuf_t) (text : option (list Z)) (len : Z) : textbuf_t * bool :=
  if (0x80000000 <=? len) || (bool_decide (text = None) && negb (len =? 0)) then (t, false)
  else load_text t (default [] text).
Definition tb_load (t : textbuf_t) (text : list Z) : textbuf_t * bool := tb_load_at t (Some text) (zlen text).

(** lines joined by \n *)
Fixpoint join_lines (ls : list (list Z)) : list Z :=
  match ls with
  | [] => []
  | [l] => l
  | l :: ls => l ++ [10] ++ join_lines ls
  end.

(** the text, or [None] without memory *)
Definition tb_text (t : textbuf_t) : textbuf_t * option (list Z) :=
  let '(ok, mem) := kmalloc (heap t) in
  (t <| heap := mem |>, if ok then Some (join_lines (s <$> lines t)) else None).

(** ** The selection *)

(** its bounds in order: (x0, y0, x1, y1) *)
Definition tb_sel_bounds (t : textbuf_t) : option (Z * Z * Z * Z) :=
  if negb (sel t) || ((ax t =? cx t) && (ay t =? cy t)) then None
  else if (ay t <? cy t) || ((ay t =? cy t) && (ax t <? cx t))
  then Some (ax t, ay t, cx t, cy t) else Some (cx t, cy t, ax t, ay t).

Definition has_sel (t : textbuf_t) : bool := if tb_sel_bounds t then true else false.

(** the lines y0..y1, the first from x0, the last up to x1 *)
Definition sel_lines (t : textbuf_t) (x0 y0 x1 y1 : Z) : list (list Z) :=
  (fun y => let l := line_at t y in
            let a := if y =? y0 then x0 else 0 in
            let b := if y =? y1 then x1 else len l in
            slice (s l) a b) <$> seqZ y0 (y1 - y0 + 1).

Definition tb_sel_text (t : textbuf_t) : textbuf_t * option (list Z) :=
  match tb_sel_bounds t with
  | None => (t, None)
  | Some (x0, y0, x1, y1) =>
    let '(ok, mem) := kmalloc (heap t) in
    (t <| heap := mem |>, if ok then Some (join_lines (sel_lines t x0 y0 x1 y1)) else None)
  end.

(** [for (y = y1; y > y0; y--) remove_line(t, y);] *)
Fixpoint remove_lines (count : nat) (t : textbuf_t) (y : Z) : textbuf_t :=
  match count with
  | O => t
  | S count => remove_lines count (remove_line t y) (y - 1)
  end.

Definition tb_sel_delete (t : textbuf_t) : textbuf_t :=
  match tb_sel_bounds t with
  | None => t <| sel := false |>
  | Some (x0, y0, x1, y1) =>
    let a := line_at t y0 in
    let b := line_at t y1 in
    let tail := len b - x1 in
    let '(r, mem) := line_reserve (heap t) a (x0 + tail) in
    let t := t <| heap := mem |> in
    let t := match r with
             | Some a => set_line t y0 (a <| s := slice (s a) 0 x0 ++ slice (s b) x1 (len b) |>)
             | None => t
             end in
    remove_lines (Z.to_nat (y1 - y0)) t y1
      <| cx := x0 |> <| cy := y0 |> <| sel := false |> <| dirty := true |>
  end.

(** ** Editing *)

(** the run of ordinary characters at the front *)
Fixpoint run (l : list Z) : list Z :=
  match l with
  | c :: l => if (c =? 10) || (c =? 13) then [] else c :: run l
  | [] => []
  end.

(** the \n branch of tb_insert: the text, and [false] where it returns *)
Definition newline (t : textbuf_t) : textbuf_t * bool :=
  let '(t, ok) := insert_line t (cy t + 1) in
  if negb ok then (t, false) else
  let l := line_at t (cy t) in
  let nl := line_at t (cy t + 1) in
  let '(r, mem) := line_reserve (heap t) nl (len l - cx t) in
  let t := t <| heap := mem |> in
  let t := match r with
           | Some nl => set_line (set_line t (cy t + 1) (nl <| s := drop (Z.to_nat (cx t)) (s l) |>))
                          (cy t) (l <| s ::= take (Z.to_nat (cx t)) |>)
           | None => t
           end in
  (t <| cy ::= Z.add 1 |> <| cx := 0 |>, true).

(** a run of ordinary characters at once *)
Definition put_run (t : textbuf_t) (text : list Z) : textbuf_t * bool :=
  let l := line_at t (cy t) in
  let '(r, mem) := line_reserve (heap t) l (u32 (len l + zlen text)) in
  let t := t <| heap := mem |> in
  match r with
  | None => (t, false)
  | Some l =>
    (set_line t (cy t) (l <| s ::= fun b => take (Z.to_nat (cx t)) b ++ text ++ drop (Z.to_nat (cx t)) b |>)
       <| cx ::= Z.add (zlen text) |>, true)
  end.

(** the loop of tb_insert: the text, and whether it took everything *)
Fixpoint insert_from (fuel : nat) (t : textbuf_t) (str : list Z) : textbuf_t * bool :=
  match fuel with
  | O => (t, true)
  | S fuel =>
    match str with
    | [] => (t, true)
    | c :: rest =>
      if c =? 13 then insert_from fuel t rest else
      let '(t, ok) := if c =? 10 then newline t else put_run t (run str) in
      if ok then insert_from fuel t (if c =? 10 then rest else drop (length (run str)) str) else (t, false)
    end
  end.

Definition tb_insert (t : textbuf_t) (str : list Z) : textbuf_t :=
  let t := if sel t then tb_sel_delete t else t in
  let t := t <| sel := false |> in
  let '(t, ok) := insert_from (length str) t str in
  if ok then t <| want_x := tb_col t (cy t) (cx t) |> <| dirty := true |> else t.

Definition tb_backspace (t : textbuf_t) : textbuf_t :=
  if has_sel t then tb_sel_delete t else
  let t := t <| sel := false |> in
  let done t := t <| want_x := tb_col t (cy t) (cx t) |> <| dirty := true |> in
  if 0 <? cx t then
    let l := line_at t (cy t) in
    let pv := u8_prev (s l) (cx t) in
    done (set_line t (cy t) (l <| s ::= fun b => take (Z.to_nat pv) b ++ drop (Z.to_nat (cx t)) b |>)
            <| cx := pv |>)
  else if 0 <? cy t then
    let p := line_at t (cy t - 1) in
    let l := line_at t (cy t) in
    let '(r, mem) := line_reserve (heap t) p (len p + len l) in
    let t := t <| heap := mem |> in
    match r with
    | None => t
    | Some p' =>
      done (remove_line (set_line t (cy t - 1) (p' <| s ::= fun b => b ++ s l |>)) (cy t)
              <| cy ::= fun y => y - 1 |> <| cx := len p |>)
    end
  else t.

Definition tb_delete (t : textbuf_t) : textbuf_t :=
  if has_sel t then tb_sel_delete t else
  let t := t <| sel := false |> in
  let l := line_at t (cy t) in
  if cx t <? len l then
    let d := u8_next (s l) (len l) (cx t) - cx t in
    set_line t (cy t) (l <| s ::= fun b => take (Z.to_nat (cx t)) b ++ drop (Z.to_nat (cx t + d)) b |>)
      <| dirty := true |>
  else if cy t <? n t - 1 then tb_backspace (t <| cy ::= Z.add 1 |> <| cx := 0 |>)
  else t.

(** ** Moving *)

Definition start_sel (t : textbuf_t) (select : bool) : textbuf_t :=
  if select then
    if sel t then t else t <| sel := true |> <| ax := cx t |> <| ay := cy t |>
  else t <| sel := false |>.

Definition see_x (t : textbuf_t) : textbuf_t := t <| want_x := tb_col t (cy t) (cx t) |>.

Definition tb_move (t : textbuf_t) (dx dy : Z) (select : bool) : textbuf_t :=
  let t := start_sel t select in
  if negb (dy =? 0) then
    let t := t <| cy ::= Z.add dy |> in
    let t := if cy t <? 0 then t <| cy := 0 |> <| want_x := 0 |> else t in
    let t := if n t <=? cy t
             then t <| cy := n t - 1 |> <| want_x := len (line_at t (n t - 1)) |> else t in
    clamp (t <| cx := tb_byte t (cy t) (want_x t) |>)
  else
  let l := line_at t (cy t) in
  see_x
   (if dx <? 0 then
      if 0 <? cx t then t <| cx := u8_prev (s l) (cx t) |>
      else if 0 <? cy t then t <| cy ::= fun y => y - 1 |> <| cx := len (line_at t (cy t - 1)) |>
      else t
    else if 0 <? dx then
      if cx t <? len l then t <| cx := u8_next (s l) (len l) (cx t) |>
      else if cy t <? n t - 1 then t <| cy ::= Z.add 1 |> <| cx := 0 |>
      else t
    else t).

Definition tb_home (t : textbuf_t) (select : bool) : textbuf_t :=
  start_sel t select <| cx := 0 |> <| want_x := 0 |>.

Definition tb_end (t : textbuf_t) (select : bool) : textbuf_t :=
  let t := start_sel t select in see_x (t <| cx := len (line_at t (cy t)) |>).

Definition tb_goto (t : textbuf_t) (x y : Z) (select : bool) : textbuf_t :=
  see_x (clamp (start_sel t select <| cy := y |> <| cx := x |>)).

Definition tb_select_all (t : textbuf_t) : textbuf_t :=
  t <| sel := true |> <| ax := 0 |> <| ay := 0 |> <| cy := n t - 1 |> <| cx := len (line_at t (n t - 1)) |>.

(** the line cut, with its \n, or [None] without memory *)
Definition tb_cut_line (t : textbuf_t) : textbuf_t * option (list Z) :=
  let l := line_at t (cy t) in
  let '(ok, mem) := kmalloc (heap t) in
  let t := t <| heap := mem |> in
  if negb ok then (t, None) else
  let t := if 1 <? n t then remove_line t (cy t) else set_line t (cy t) (l <| s := [] |>) in
  (clamp (t <| sel := false |>) <| cx := 0 |> <| dirty := true |>, Some (s l ++ [10])).

(** ** Searching *)

(** the first [x] from [from] on where the needle starts in the line *)
Fixpoint find_in_line (count : nat) (l needle : list Z) (x : Z) : option Z :=
  match count with
  | O => None
  | S count =>
    if x + zlen needle <=? zlen l then
      if strncasecmp (drop (Z.to_nat x) l) needle (length needle) =? 0 then Some x
      else find_in_line count l needle (x + 1)
    else None
  end.

Fixpoint find_pass (count : nat) (t : textbuf_t) (needle : list Z) (pass : Z) : option (Z * Z) :=
  match count with
  | O => None
  | S count =>
    let y := (cy t + pass) mod n t in
    let l := line_at t y in
    match find_in_line (S (length (s l))) (s l) needle (if pass =? 0 then cx t else 0) with
    | Some x => Some (x, y)
    | None => find_pass count t needle (pass + 1)
    end
  end.

Definition tb_find (t : textbuf_t) (needle : list Z) : textbuf_t * bool :=
  if strlen needle =? 0 then (t, false) else
  match find_pass (S (length (lines t))) t needle 0 with
  | Some (x, y) =>
    (t <| sel := true |> <| ay := y |> <| ax := x |> <| cy := y |> <| cx := x + zlen needle |>, true)
  | None => (t, false)
  end.
