(* ===== verification/TextbufInv.v ===== *)
(** The invariant of a text (Textbuf.v): bounded lines with room for their
    terminator, and a cursor and a selection inside the text. Every operation
    keeps it whatever the allocations do. *)

From S2P Require Import Prelude Utf8 KString Textbuf.

(** ** Bounds of the character steps *)

Lemma back_cont_bounds fuel l i : 0 <= i -> 0 <= back_cont fuel l i <= i.
Proof.
  revert i. induction fuel as [|fuel IH]; intros i Hi; cbn [back_cont]; [lia|].
  case_bool; [|lia]. zbool. specialize (IH (i - 1)). lia.
Qed.

Lemma skip_cont_bounds fuel l n i : i <= n -> i <= skip_cont fuel l n i <= n.
Proof.
  revert i. induction fuel as [|fuel IH]; intros i Hi; cbn [skip_cont]; [lia|].
  case_bool; [|lia]. zbool. specialize (IH (i + 1)). lia.
Qed.

Lemma u8_prev_bounds l i : 0 < i -> 0 <= u8_prev l i < i.
Proof.
  intros Hi. unfold u8_prev. case_bool; zbool; [lia|].
  pose proof (back_cont_bounds (Z.to_nat i) l (i - 1)). lia.
Qed.

Lemma u8_next_bounds l n i : i < n -> i < u8_next l n i <= n.
Proof.
  intros Hi. unfold u8_next. case_bool; zbool; [lia|].
  pose proof (skip_cont_bounds (Z.to_nat n) l n (i + 1)). lia.
Qed.

(** ** Capacities *)

Lemma double_cap_spec fuel cap need : 0 < cap < 2 ^ 32 -> need <= 2 ^ 31 -> need <= cap * 2 ^ Z.of_nat fuel ->
  need <= double_cap fuel cap need < 2 ^ 32.
Proof.
  revert cap. induction fuel as [|fuel IH]; intros cap Hc Hn Hf; cbn [double_cap].
  { change (2 ^ Z.of_nat 0) with 1 in Hf. lia. }
  case_bool; zbool; [|lia]. apply IH; [lia|lia|].
  rewrite Nat2Z.inj_succ, Z.pow_succ_r in Hf by lia. nia.
Qed.

Definition line_wf (l : tb_line_t) : Prop := len l + 1 <= lcap l < 2 ^ 32 /\ len l < 2 ^ 31.

(** a position of the text *)
Definition at_pos (t : textbuf_t) (x y : Z) : Prop := 0 <= y < n t /\ 0 <= x <= len (line_at t y).

Record wf (t : textbuf_t) : Prop := {
  wf_lines : Forall line_wf (lines t);
  wf_n : 1 <= n t <= MAX_LINES;
  wf_cap : n t <= cap t < 2 ^ 31;
  wf_cur : at_pos t (cx t) (cy t);
  wf_sel : sel t = true -> at_pos t (ax t) (ay t);
}.

(** a line before its buffer is allocated *)
Definition line_pre (l : tb_line_t) : Prop := line_wf l \/ l = Line [] 0.

Lemma line_reserve_spec mem l need : line_pre l -> 0 <= need ->
  match (line_reserve mem l need).1 with
  | Some l' => s l' = s l /\ need + 1 <= lcap l' < 2 ^ 32 /\ len l + 1 <= lcap l' /\ need < 2 ^ 31
  | None => True
  end.
Proof.
  intros Hl Hn. unfold line_reserve. case_bool; [done|]. zbool.
  assert (Hcap : 0 <= lcap l < 2 ^ 32 /\ (len l + 1 <= lcap l \/ len l = 0)).
  { pose proof (zlen_nonneg (s l)). destruct Hl as [[? ?]| ->];
    [unfold len in *; lia | split; [simpl; lia | by right]]. }
  case_bool; zbool; cbn [fst].
  { destruct Hl as [[? ?]| ->]; [|simpl in *; lia]. split_and!; try done; lia. }
  pose proof (double_cap_spec 32 (if lcap l =? 0 then 16 else lcap l) (need + 1)) as Hd.
  change (2 ^ Z.of_nat 32) with 4294967296 in Hd.
  destruct (kmalloc mem) as [[] mem']; cbn [fst s lcap]; [|done].
  cbn [s lcap set setter]. destruct (lcap l =? 0) eqn:E; zbool.
  - destruct Hl as [[? ?]| ->]; [unfold len in *; pose proof (zlen_nonneg (s l)); lia|].
    change (len (Line [] 0)) with 0. split_and!; try done; lia.
  - split_and!; try done; lia.
Qed.

(** growing a line to hold [b] *)
Lemma line_reserve_wf mem l l' need b : line_pre l -> zlen b <= need -> 0 <= need ->
  (line_reserve mem l need).1 = Some l' -> line_wf (l' <| s := b |>).
Proof.
  intros Hl Hb Hn E. pose proof (line_reserve_spec mem l need Hl Hn) as H. rewrite E in H.
  destruct H as (_ & ? & _ & ?). unfold line_wf, len. simpl. lia.
Qed.

Lemma line_wf_shrink l b : line_wf l -> zlen b <= len l -> line_wf (l <| s := b |>).
Proof. unfold line_wf, len. simpl. lia. Qed.

Lemma line_reserve_fresh mem l : (line_reserve mem (Line [] 0) 0).1 = Some l -> line_wf l /\ s l = [].
Proof.
  intros E. pose proof (line_reserve_spec mem (Line [] 0) 0 (or_intror eq_refl)) as H. rewrite E in H.
  destruct H as (Hs & ? & ? & ?); [lia|]. split; [|done]. change (s (Line [] 0)) with (@nil Z) in Hs.
  unfold line_wf, len in *. rewrite Hs in *. change (zlen (@nil Z)) with 0 in *. lia.
Qed.

Lemma line_reserve_self mem l l' need : line_pre l -> 0 <= need ->
  (line_reserve mem l need).1 = Some l' -> s l' = s l.
Proof.
  intros Hl Hn E. pose proof (line_reserve_spec mem l need Hl Hn) as H. rewrite E in H. by destruct H.
Qed.

Lemma lines_reserve_spec mem cap need c : 0 <= cap < 2 ^ 31 -> 0 <= need ->
  (lines_reserve mem cap need).1 = Some c -> need <= MAX_LINES /\ need <= c < 2 ^ 31.
Proof.
  intros Hc Hn. unfold lines_reserve. case_bool; [done|]. zbool. case_bool; zbool; cbn [fst].
  { intros [= <-]. lia. }
  destruct (kmalloc mem) as [[] mem']; cbn [fst]; [|done].
  intros E. apply (inj Some) in E. rewrite <- E. clear E.
  unfold MAX_LINES in *. split; [lia|].
  assert (Hgen : forall fuel c0, 0 < c0 < 400000 -> need <= c0 * 2 ^ Z.of_nat fuel -> need <= double_cap fuel c0 need < 400000).
  { induction fuel as [|fuel IH]; intros c0 H0 Hf; cbn [double_cap].
    { change (2 ^ Z.of_nat 0) with 1 in Hf. lia. }
    case_bool; zbool; [|lia]. apply IH; [lia|].
    rewrite Nat2Z.inj_succ, Z.pow_succ_r in Hf by lia. nia. }
  specialize (Hgen 32%nat (if cap =? 0 then 64 else cap)). change (2 ^ Z.of_nat 32) with 4294967296 in Hgen.
  case_bool; zbool; lia.
Qed.

(** with memory to spare (no failure recorded) only the limits fail *)
Lemma line_reserve_ok l need : need < 2 ^ 31 -> exists l', line_reserve [] l need = (Some l', []).
Proof.
  intros Hn. unfold line_reserve. case_bool; zbool; [lia|]. case_bool; [by eexists|].
  cbn [kmalloc]. by eexists.
Qed.

Lemma lines_reserve_ok cap need : need <= MAX_LINES -> exists c, lines_reserve [] cap need = (Some c, []).
Proof.
  intros Hn. unfold lines_reserve. case_bool; zbool; [lia|]. case_bool; [by eexists|].
  cbn [kmalloc]. by eexists.
Qed.

(** ** The lines around an index *)

Lemma delete_mid {A} (pre post : list A) x i : i = zlen pre -> delete (Z.to_nat i) (pre ++ x :: post) = pre ++ post.
Proof. intros ->. unfold zlen. rewrite Nat2Z.id. induction pre; simpl; [done|]. by f_equal. Qed.

Lemma take_mid {A} (pre post : list A) i : i = zlen pre -> take (Z.to_nat i) (pre ++ post) = pre.
Proof. intros ->. unfold zlen. rewrite Nat2Z.id. apply take_app_length. Qed.

Lemma drop_mid {A} (pre post : list A) i : i = zlen pre -> drop (Z.to_nat i) (pre ++ post) = post.
Proof. intros ->. unfold zlen. rewrite Nat2Z.id. apply drop_app_length. Qed.

Lemma split_at {A} `{Inhabited A} (l : list A) i : 0 <= i < zlen l ->
  exists pre post, l = pre ++ aget l i :: post /\ zlen pre = i.
Proof.
  intros Hi. unfold zlen in *. exists (take (Z.to_nat i) l), (drop (S (Z.to_nat i)) l). split.
  - symmetry. apply take_drop_middle. unfold aget. apply list_lookup_lookup_total_lt. lia.
  - rewrite length_take. lia.
Qed.

Lemma line_at_wf t y : Forall line_wf (lines t) -> 0 <= y < n t -> line_wf (line_at t y).
Proof.
  intros Hf Hy. destruct (split_at (lines t) y Hy) as (pre & post & Heq & _).
  rewrite Heq in Hf. apply Forall_app in Hf as [_ Hf]. apply Forall_cons in Hf. apply Hf.
Qed.

Lemma Forall_aset {A} (P : A -> Prop) l i x : Forall P l -> P x -> Forall P (aset l i x).
Proof. intros. by apply Forall_insert. Qed.

(** the bounds on the array of lines *)
Definition arr_wf (t : textbuf_t) : Prop :=
  Forall line_wf (lines t) /\ n t <= MAX_LINES /\ n t <= cap t < 2 ^ 31.

Lemma insert_line_spec t i : arr_wf t -> 0 <= i <= n t ->
  exists c h, n t <= c < 2 ^ 31 /\ (heap t = [] -> h = []) /\
  ((insert_line t i = (t <| cap := c |> <| heap := h |>, false) /\ (heap t = [] -> MAX_LINES < n t + 1)) \/
   (exists fresh, line_wf fresh /\ s fresh = [] /\ n t + 1 <= MAX_LINES /\ n t + 1 <= c /\
    insert_line t i = (t <| lines := take (Z.to_nat i) (lines t) ++ fresh :: drop (Z.to_nat i) (lines t) |>
                         <| cap := c |> <| heap := h |>, true))).
Proof.
  intros (Hl & Hn & Hc) Hi. pose proof (zlen_nonneg (lines t)) as Hn0. fold (n t) in Hn0.
  unfold insert_line.
  pose proof (lines_reserve_spec (heap t) (cap t) (n t + 1)) as Hres.
  pose proof (lines_reserve_ok (cap t) (n t + 1)) as Hok.
  destruct (lines_reserve (heap t) (cap t) (n t + 1)) as [[c|] h] eqn:El.
  2: { exists (cap t), h. split; [lia|].
       assert (Hmax : heap t = [] -> MAX_LINES < n t + 1).
       { intros Eh. rewrite Eh in El. destruct (decide (n t + 1 <= MAX_LINES)) as [Hle|]; [|lia].
         destruct (Hok Hle) as [c' Hc']. by rewrite Hc' in El. }
       split; [|left; split; [by destruct t|done]]. intros Eh. revert El. rewrite Eh. unfold lines_reserve.
       specialize (Hmax Eh). case_bool; zbool; [by intros [= <-] | lia]. }
  assert (Hh : heap t = [] -> h = []).
  { intros Eh. rewrite Eh in El. destruct (Hres c ltac:(lia) ltac:(lia) eq_refl) as [Hm _].
    destruct (Hok Hm) as [c' Hc']. rewrite Hc' in El. by apply (inj2 pair) in El as [_ <-]. }
  destruct (Hres c ltac:(lia) ltac:(lia) eq_refl) as [Hm Hcb].
  pose proof (fun l => line_reserve_fresh h l) as Hfr.
  pose proof (line_reserve_ok (Line [] 0) 0 ltac:(lia)) as [l0 Hl0].
  cbn [heap set setter]. destruct (line_reserve h (Line [] 0) 0) as [[fresh|] h'] eqn:Er.
  - destruct (Hfr fresh eq_refl) as [Hw Hs]. exists c, h'. split; [lia|]. split.
    + intros Eh. rewrite (Hh Eh), Hl0 in Er. by apply (inj2 pair) in Er as [_ <-].
    + right. exists fresh. split_and!; try done; lia.
  - exists c, h'. split; [lia|].
    assert (Hne : heap t <> []) by (intros Eh; rewrite (Hh Eh), Hl0 in Er; done).
    split; [done|]. left. by split; [destruct t|].
Qed.

(** the lines around the cursor *)
Record view (t : textbuf_t) (pre : list tb_line_t) (l : tb_line_t) (post : list tb_line_t) : Prop := {
  v_lines : lines t = pre ++ l :: post;
  v_cy : cy t = zlen pre;
  v_cx : 0 <= cx t <= len l;
  v_arr : arr_wf t;
}.

Lemma line_at_mid t pre l post : lines t = pre ++ l :: post -> line_at t (zlen pre) = l.
Proof. intros E. unfold line_at. rewrite E. by apply aget_mid. Qed.

Lemma view_line t pre l post : view t pre l post -> line_at t (cy t) = l.
Proof. intros []. rewrite v_cy0. by eapply line_at_mid. Qed.

Lemma view_wf t pre l post : view t pre l post -> line_wf l.
Proof.
  intros [E _ _ (Hf & _)]. rewrite E in Hf. apply Forall_app in Hf as [_ Hf]. by apply Forall_cons in Hf as [? _].
Qed.

Lemma n_mid t pre l post : lines t = pre ++ l :: post -> n t = zlen pre + 1 + zlen post.
Proof. intros E. unfold n. rewrite E, zlen_app, zlen_cons. lia. Qed.

Lemma wf_view t : wf t -> exists pre post, view t pre (line_at t (cy t)) post.
Proof.
  intros [Hl Hn Hc [Hcy Hcx] _]. destruct (split_at (lines t) (cy t) Hcy) as (pre & post & E & Hp).
  exists pre, post. split; [exact E| lia | done |]. split_and!; [done|lia|lia|lia].
Qed.

Lemma view_wf_intro t pre l post : view t pre l post ->
  (sel t = true -> at_pos t (ax t) (ay t)) -> wf t.
Proof.
  intros V Hs. pose proof (view_line _ _ _ _ V) as Hl. destruct V as [E Hcy Hcx (Hf & Hm & Hc)].
  pose proof (n_mid _ _ _ _ E). pose proof (zlen_nonneg pre). pose proof (zlen_nonneg post).
  split; try done; [lia|]. split; [lia|]. by rewrite Hl.
Qed.

Lemma arr_mid pre l post : Forall line_wf (pre ++ l :: post) ->
  Forall line_wf pre /\ line_wf l /\ Forall line_wf post.
Proof. intros H. apply Forall_app in H as [? H]. by apply Forall_cons in H as [? ?]. Qed.

(** ** Insertion *)

(** putting [text] at the cursor of its line *)
Definition put (t : textbuf_t) (l : tb_line_t) (text : list Z) : tb_line_t :=
  l <| s ::= fun b => take (Z.to_nat (cx t)) b ++ text ++ drop (Z.to_nat (cx t)) b |>.

Lemma zlen_put t l text : 0 <= cx t <= len l -> len (put t l text) = len l + zlen text.
Proof.
  intros H. unfold put, len in *. simpl. rewrite !zlen_app, zlen_take, zlen_drop by lia. lia.
Qed.

Lemma len_nonneg l : 0 <= len l.
Proof. apply zlen_nonneg. Qed.

(** what an operation may leave alone *)
Definition same_sel (t t' : textbuf_t) : Prop := sel t' = sel t /\ ax t' = ax t /\ ay t' = ay t.

Lemma arr_wf_set pre l l' post t t' : arr_wf t -> lines t = pre ++ l :: post -> line_wf l' ->
  lines t' = pre ++ l' :: post -> cap t' = cap t -> arr_wf t'.
Proof.
  intros (Hf & Hm & Hc) E Hw E' Ec. pose proof (n_mid _ _ _ _ E). pose proof (n_mid _ _ _ _ E').
  rewrite E in Hf. apply arr_mid in Hf as (? & _ & ?). unfold arr_wf. rewrite E', Ec.
  split_and!; try lia. apply Forall_app. split; [done|]. by apply Forall_cons.
Qed.

(** one run of ordinary characters *)
Lemma put_run_spec t pre l post text : view t pre l post -> zlen text < 2 ^ 31 ->
  let t' := (put_run t text).1 in
  same_sel t t' /\
  if (put_run t text).2
  then exists l', s l' = s l /\ view t' pre (put t l' text) post /\ cx t' = cx t + zlen text /\
         (heap t = [] -> heap t' = [])
  else view t' pre l post /\ (heap t = [] -> 2 ^ 31 <= len l + zlen text).
Proof.
  intros V Ht. pose proof (view_wf _ _ _ _ V) as Hw. pose proof (view_line _ _ _ _ V) as Hl.
  pose proof (zlen_nonneg text). pose proof (len_nonneg l). destruct V as [E Hcy Hcx Ha].
  unfold put_run. rewrite Hl, u32_small by (destruct Hw; red; lia).
  destruct (line_reserve (heap t) l (len l + zlen text)) as [[l'|] h] eqn:Er.
  2: { split; [done|]. split; [by split|]. intros Eh. rewrite Eh in Er.
       destruct (decide (2 ^ 31 <= len l + zlen text)); [done|].
       destruct (line_reserve_ok l (len l + zlen text)) as [? Ho]; [lia|]. by rewrite Ho in Er. }
  assert (Hh : heap t = [] -> h = []).
  { intros Eh. rewrite Eh in Er. destruct (decide (2 ^ 31 <= len l + zlen text)).
    - revert Er. unfold line_reserve. case_bool; zbool; [done|lia].
    - destruct (line_reserve_ok l (len l + zlen text)) as [? Ho]; [lia|]. rewrite Ho in Er.
      by apply (inj2 pair) in Er as [_ <-]. }
  assert (Er' : (line_reserve (heap t) l (len l + zlen text)).1 = Some l') by by rewrite Er.
  pose proof (line_reserve_self (heap t) l l' (len l + zlen text) (or_introl Hw) ltac:(lia) Er') as Hs.
  assert (Hll : len l' = len l) by (unfold len; by rewrite Hs).
  assert (Hw' : line_wf (put t l' text)).
  { apply (line_reserve_wf (heap t) l l' (len l + zlen text)); [by left| |lia|done].
    change (len (put t l' text) <= len l + zlen text). rewrite zlen_put by lia. lia. }
  cbv zeta. cbn [fst snd]. split; [done|]. exists l'. split; [done|]. split; [|split; [simpl; lia|done]].
  assert (E' : aset (lines t) (cy t) (put t l' text) = pre ++ put t l' text :: post)
    by (rewrite E; by apply aset_mid).
  split; [exact E' | exact Hcy | simpl; rewrite zlen_put; lia |].
  by eapply (arr_wf_set pre l _ post t).
Qed.

(** the \n branch: the line cut at the cursor (whole, without memory) *)
Lemma newline_spec t pre l post : view t pre l post ->
  let t' := (newline t).1 in
  same_sel t t' /\
  if (newline t).2
  then exists l1 l2, view t' (pre ++ [l1]) l2 post /\ cx t' = 0 /\ n t' = n t + 1 /\
         ((s l1 = take (Z.to_nat (cx t)) (s l) /\ s l2 = drop (Z.to_nat (cx t)) (s l)) \/
          (s l1 = s l /\ s l2 = [] /\ heap t <> [])) /\ (heap t = [] -> heap t' = [])
  else view t' pre l post /\ (heap t = [] -> MAX_LINES < n t + 1).
Proof.
  intros V. pose proof (view_wf _ _ _ _ V) as Hw. pose proof (len_nonneg l).
  pose proof (zlen_nonneg pre). pose proof (zlen_nonneg post).
  destruct V as [E Hcy Hcx Ha]. pose proof (n_mid _ _ _ _ E) as Hn. unfold newline.
  destruct (insert_line_spec t (cy t + 1) Ha ltac:(lia)) as (c & h & Hc & Hh & [[Hi Hmax]|(fresh & Hfw & Hfs & Hm & Hc' & Hi)]);
    rewrite Hi; cbn [negb].
  { split; [done|]. split; [|done]. split; try done. destruct Ha as (? & ? & ?).
    unfold arr_wf, n in *. simpl. split_and!; try done; lia. }
  assert (El : take (Z.to_nat (cy t + 1)) (lines t) ++ fresh :: drop (Z.to_nat (cy t + 1)) (lines t)
               = (pre ++ [l]) ++ fresh :: post).
  { rewrite E. replace (pre ++ l :: post) with ((pre ++ [l]) ++ post) by (by rewrite <- app_assoc).
    rewrite take_mid, drop_mid by (rewrite zlen_app, zlen_cons, zlen_nil; lia). done. }
  rewrite El. clear El.
  match goal with |- context [line_at ?x (cy ?x)] => set (t1 := x) end.
  assert (Ha1 : arr_wf t1).
  { destruct Ha as (Hf & ? & ?). rewrite E in Hf. apply arr_mid in Hf as (? & ? & ?).
    unfold arr_wf, n in *. simpl. rewrite !Forall_app, !Forall_cons, !zlen_app, !zlen_cons.
    rewrite E, zlen_app, zlen_cons in Hm, Hc'. rewrite zlen_nil. split_and!; try done; lia. }
  assert (E1 : line_at t1 (cy t1) = l).
  { change (cy t1) with (cy t). rewrite Hcy. unfold line_at. simpl. rewrite <- app_assoc. by apply aget_mid. }
  assert (E2 : line_at t1 (cy t1 + 1) = fresh).
  { unfold line_at. simpl. apply aget_mid. rewrite zlen_app, zlen_cons, zlen_nil. lia. }
  rewrite E1, E2. destruct (line_reserve (heap t1) fresh (len l - cx t1)) as [[nl|] h'] eqn:Er.
  2: { assert (Hne : heap t <> []).
       { intros Eh. rewrite (Hh Eh : heap t1 = []) in Er.
         destruct (line_reserve_ok fresh (len l - cx t1)) as [? Ho]; [destruct Hw; simpl; lia|]. by rewrite Ho in Er. }
       split; [done|]. exists l, fresh. split_and!; [|done| |by right|done].
       - split; [done| simpl; rewrite zlen_app, zlen_cons, zlen_nil; lia | simpl; pose proof (len_nonneg fresh); lia |].
         exact Ha1.
       - unfold n in *. simpl. rewrite !zlen_app, !zlen_cons, zlen_nil. lia. }
  assert (Er' : (line_reserve (heap t1) fresh (len l - cx t1)).1 = Some nl) by by rewrite Er.
  assert (Hh' : heap t = [] -> h' = []).
  { intros Eh. rewrite (Hh Eh : heap t1 = []) in Er.
    destruct (line_reserve_ok fresh (len l - cx t1)) as [? Ho]; [destruct Hw; simpl; lia|]. rewrite Ho in Er.
    by apply (inj2 pair) in Er as [_ <-]. }
  assert (Hnw : line_wf (nl <| s := drop (Z.to_nat (cx t)) (s l) |>)).
  { apply (line_reserve_wf (heap t1) fresh nl (len l - cx t1)); [by left| | |done]; simpl;
      [rewrite zlen_drop by lia; fold (len l)|]; lia. }
  assert (Hlw : line_wf (l <| s ::= take (Z.to_nat (cx t)) |>)).
  { apply line_wf_shrink; [done|]. rewrite zlen_take by lia. fold (len l). lia. }
  cbv zeta. cbn [fst snd]. split; [done|].
  exists (l <| s ::= take (Z.to_nat (cx t)) |>), (nl <| s := drop (Z.to_nat (cx t)) (s l) |>).
  split_and!; [| done | | by left | done].
  2: { unfold n in *. simpl. rewrite !zlen_aset, !zlen_app, !zlen_cons, zlen_nil. lia. }
  assert (Ef : aset (aset ((pre ++ [l]) ++ fresh :: post) (cy t + 1) (nl <| s := drop (Z.to_nat (cx t)) (s l) |>))
             (cy t) (l <| s ::= take (Z.to_nat (cx t)) |>) =
           (pre ++ [l <| s ::= take (Z.to_nat (cx t)) |>]) ++ (nl <| s := drop (Z.to_nat (cx t)) (s l) |>) :: post).
  { rewrite aset_mid by (rewrite zlen_app, zlen_cons, zlen_nil; lia).
    rewrite <- !app_assoc. cbn [app]. by apply aset_mid. }
  split; [exact Ef | simpl; rewrite zlen_app, zlen_cons, zlen_nil; lia | simpl; pose proof (len_nonneg
    (nl <| s := drop (Z.to_nat (cx t)) (s l) |>)); lia |].
  destruct Ha1 as (Hf1 & ? & ?). unfold arr_wf, n in *. simpl in *. rewrite Ef.
  rewrite !Forall_app, !Forall_cons in *. rewrite !zlen_app, !zlen_cons, !zlen_nil in *.
  destruct Hf1 as ((? & ? & ?) & ? & ?). split_and!; try done; lia.
Qed.
