(* ===== verification/TextbufOps.v ===== *)
(** Every operation of a text (Textbuf.v) keeps its invariant (TextbufInv.v),
    and what deleting the selection does to the lines. *)

From S2P Require Import Prelude Utf8 KString Textbuf TextbufInv.

(** ** Deleting the selection *)

Lemma remove_lines_spec mid t pre post y : lines t = pre ++ mid ++ post -> y = zlen pre + zlen mid - 1 ->
  remove_lines (length mid) t y = t <| lines := pre ++ post |>.
Proof.
  revert t post y. induction mid as [|x mid IH] using rev_ind; intros t post y E Hy.
  { cbn. simpl in E. rewrite <- E. by destruct t. }
  rewrite length_app. cbn [length]. rewrite Nat.add_1_r. cbn [remove_lines].
  rewrite zlen_app, zlen_cons, zlen_nil in Hy.
  assert (Er : remove_line t y = t <| lines := pre ++ mid ++ post |>).
  { unfold remove_line. unfold set, setter. simpl. f_equal.
    rewrite E, <- app_assoc. cbn [app]. rewrite app_assoc, delete_mid by (rewrite zlen_app; lia).
    by rewrite <- app_assoc. }
  rewrite Er, (IH _ post) by (try done; lia). done.
Qed.

(** the selected range: its first line, the lines after it and its last line *)
Lemma sel_range t x0 y0 x1 y1 : wf t -> tb_sel_bounds t = Some (x0, y0, x1, y1) ->
  at_pos t x0 y0 /\ at_pos t x1 y1 /\ (y0 < y1 \/ (y0 = y1 /\ x0 < x1)).
Proof.
  intros [_ _ _ Hc Hs] E. unfold tb_sel_bounds in E.
  destruct (sel t); [|done]. specialize (Hs eq_refl). cbn [negb orb] in E.
  destruct (_ && _) eqn:Ene; [done|].
  destruct ((ay t <? cy t) || (ay t =? cy t) && (ax t <? cx t)) eqn:El; injection E as <- <- <- <-;
    (split; [done|split; [done|]]); zors; try (exfalso; lia); lia.
Qed.

Lemma split_range (ls : list tb_line_t) y0 y1 : 0 <= y0 <= y1 -> y1 < zlen ls ->
  exists pre mid post, ls = pre ++ aget ls y0 :: mid ++ post /\ zlen pre = y0 /\ zlen mid = y1 - y0 /\
    Some (aget ls y1) = last (aget ls y0 :: mid).
Proof.
  intros H0 H1. destruct (split_at ls y0 ltac:(lia)) as (pre & rest & E & Hp).
  assert (Hr : zlen rest = zlen ls - y0 - 1) by (pose proof (f_equal zlen E) as El; rewrite zlen_app, zlen_cons in El; lia).
  exists pre, (take (Z.to_nat (y1 - y0)) rest), (drop (Z.to_nat (y1 - y0)) rest).
  rewrite take_drop. split; [done|]. split; [done|].
  assert (Hl : zlen (take (Z.to_nat (y1 - y0)) rest) = y1 - y0) by (rewrite zlen_take; lia).
  split; [done|]. destruct (decide (y1 = y0)) as [->|Hne].
  { rewrite Z.sub_diag. done. }
  rewrite last_cons.
  assert (El : last (take (Z.to_nat (y1 - y0)) rest) = Some (aget ls y1)); [|by rewrite El].
  assert (Eg : aget ls y1 = aget rest (y1 - y0 - 1)).
  { transitivity (aget (pre ++ aget ls y0 :: rest) y1); [by rewrite <- E|].
    rewrite aget_app, Hp by lia. destruct (_ <? _) eqn:Elt; zbool; [lia|].
    unfold aget. rewrite list_lookup_total_alt, lookup_cons_ne_0 by lia.
    rewrite list_lookup_total_alt. do 2 f_equal. lia. }
  rewrite Eg, last_lookup. unfold zlen, aget in *. rewrite lookup_take_lt by lia.
  rewrite list_lookup_lookup_total_lt by lia. do 2 f_equal. lia.
Qed.

Lemma sel_delete_spec t x0 y0 x1 y1 : wf t -> tb_sel_bounds t = Some (x0, y0, x1, y1) ->
  exists pre a mid b post a', lines t = pre ++ a :: mid ++ post /\ zlen pre = y0 /\ zlen mid = y1 - y0 /\
    a = line_at t y0 /\ b = line_at t y1 /\ Some b = last (a :: mid) /\
    view (tb_sel_delete t) pre a' post /\ cx (tb_sel_delete t) = x0 /\ sel (tb_sel_delete t) = false /\
    ((heap t = [] -> x0 + (len b - x1) < 2 ^ 31 -> heap (tb_sel_delete t) = []) /\
     ((s a' = take (Z.to_nat x0) (s a) ++ drop (Z.to_nat x1) (s b)) \/
      (s a' = s a /\ (heap t = [] -> 2 ^ 31 <= x0 + (len b - x1))))).
Proof.
  intros W Eb. destruct (sel_range t x0 y0 x1 y1 W Eb) as ([Hy0 Hx0] & [Hy1 Hx1] & Hord).
  destruct W as [Hf Hn Hc _ _].
  destruct (split_range (lines t) y0 y1) as (pre & mid & post & E & Hp & Hm & Hb);
    [lia | unfold n in *; lia |].
  fold (line_at t y0) in E, Hb. fold (line_at t y1) in Hb. unfold tb_sel_delete. rewrite Eb.
  pose proof (line_at_wf t y0 Hf Hy0) as Hwa. pose proof (line_at_wf t y1 Hf Hy1) as Hwb.
  set (a := line_at t y0) in *. set (b := line_at t y1) in *.
  assert (Hlen : Z.to_nat (y1 - y0) = length mid) by (unfold zlen in Hm; lia). rewrite Hlen.
  assert (Hgen : forall a' h, line_wf a' -> x0 <= len a' ->
            view (remove_lines (length mid) (set_line (t <| heap := h |>) y0 a') y1
                    <| cx := x0 |> <| cy := y0 |> <| sel := false |> <| dirty := true |>) pre a' post).
  { intros a' h Hw Ha'. rewrite (remove_lines_spec mid _ (pre ++ [a']) post).
    2: { unfold set_line. simpl. rewrite E. rewrite aset_mid by done. by rewrite <- app_assoc. }
    2: { rewrite zlen_app, zlen_cons, zlen_nil. lia. }
    rewrite E in Hf. apply arr_mid in Hf as (? & _ & Hf'). apply Forall_app in Hf' as [? ?].
    pose proof (n_mid t pre a (mid ++ post) E) as Hn'. rewrite zlen_app in Hn'. pose proof (zlen_nonneg mid).
    split; simpl.
    - by rewrite <- app_assoc.
    - lia.
    - lia.
    - unfold arr_wf, n. simpl. rewrite !Forall_app, !Forall_cons, !zlen_app, zlen_cons, zlen_nil.
      split_and!; try done; try lia. }
  destruct (line_reserve (heap t) a (x0 + (len b - x1))) as [[a1|] h] eqn:Er.
  - exists pre, a, mid, b, post, (a1 <| s := take (Z.to_nat x0) (s a) ++ drop (Z.to_nat x1) (s b) |>).
    assert (Er' : (line_reserve (heap t) a (x0 + (len b - x1))).1 = Some a1) by by rewrite Er.
    pose proof (line_reserve_self (heap t) a a1 (x0 + (len b - x1)) (or_introl Hwa) ltac:(lia) Er') as Hs.
    assert (Es : slice (s a1) 0 x0 ++ slice (s b) x1 (len b) = take (Z.to_nat x0) (s a) ++ drop (Z.to_nat x1) (s b)).
    { rewrite Hs. unfold slice. rewrite Z.sub_0_r. f_equal. apply take_ge. rewrite length_drop.
      unfold len, zlen in *. lia. }
    rewrite Es.
    assert (Hz : zlen (take (Z.to_nat x0) (s a) ++ drop (Z.to_nat x1) (s b)) = x0 + (len b - x1)).
    { rewrite zlen_app, zlen_take, zlen_drop by lia. fold (len a) (len b). lia. }
    split_and!; try done.
    + apply Hgen; [apply (line_reserve_wf (heap t) a a1 (x0 + (len b - x1))); [by left|lia|lia|done]|].
      unfold len. simpl. rewrite Hz. lia.
    + intros Eh Hsz. rewrite (remove_lines_spec mid _ (pre ++ [a1 <| s := take (Z.to_nat x0) (s a) ++ drop (Z.to_nat x1) (s b) |>]) post).
      3: { rewrite zlen_app, zlen_cons, zlen_nil. lia. }
      2: { unfold set_line. simpl. rewrite E. rewrite aset_mid by done. by rewrite <- app_assoc. }
      simpl. rewrite Eh in Er. destruct (line_reserve_ok a (x0 + (len b - x1)) Hsz) as [? Ho]. rewrite Ho in Er.
      by apply (inj2 pair) in Er as [_ <-].
    + by left.
  - exists pre, a, mid, b, post, a.
    assert (Ht : t <| heap := h |> = set_line (t <| heap := h |>) y0 a).
    { unfold set_line. unfold set, setter. simpl. f_equal. rewrite E. by rewrite aset_mid. }
    rewrite Ht. split_and!; try done.
    + apply Hgen; [done|lia].
    + intros Eh Hsz. rewrite Eh in Er. destruct (line_reserve_ok a (x0 + (len b - x1)) Hsz) as [? Ho]. by rewrite Ho in Er.
    + right. split; [done|]. intros Eh. rewrite Eh in Er. destruct (decide (2 ^ 31 <= x0 + (len b - x1))); [done|].
      destruct (line_reserve_ok a (x0 + (len b - x1))) as [? Ho]; [lia|]. by rewrite Ho in Er.
Qed.

(** ** The invariant *)

(** the cursor alone moved *)
Lemma wf_cursor t t' : wf t -> lines t' = lines t -> cap t' = cap t -> at_pos t (cx t') (cy t') ->
  (sel t' = true -> at_pos t (ax t') (ay t')) -> wf t'.
Proof.
  intros [Hf Hn Hc _ _] E Ec Hcur Hs. unfold at_pos, line_at in *.
  split; unfold at_pos, n, line_at in *; rewrite E, ?Ec; done.
Qed.

(** the lines and capacities of two texts are the same *)
Definition same_text (t t' : textbuf_t) : Prop := lines t' = lines t /\ cap t' = cap t.

Lemma sel_delete_wf t : wf t -> wf (tb_sel_delete t).
Proof.
  intros W. destruct (tb_sel_bounds t) as [[[[x0 y0] x1] y1]|] eqn:Eb.
  - destruct (sel_delete_spec t x0 y0 x1 y1 W Eb) as (pre & a & mid & b & post & a' & _ & _ & _ & _ & _ & _ & V & _ & Hs & _).
    eapply view_wf_intro; [exact V|]. by rewrite Hs.
  - unfold tb_sel_delete. rewrite Eb. by apply (wf_cursor t); try done; apply W.
Qed.

Lemma run_cons c str : c =? 13 = false -> c =? 10 = false -> 1 <= zlen (run (c :: str)) <= 1 + zlen str.
Proof.
  intros H1 H2. cbn [run]. rewrite H1, H2. cbn [orb]. rewrite zlen_cons.
  assert (H : 0 <= zlen (run str) <= zlen str); [|lia].
  clear. induction str as [|d str IH]; cbn [run]; [done|]. pose proof (zlen_nonneg str).
  rewrite zlen_cons. change (run (d :: str)) with (if (d =? 10) || (d =? 13) then [] else d :: run str).
  destruct (_ || _); [change (zlen (@nil Z)) with 0 | rewrite zlen_cons]; lia.
Qed.

Lemma insert_from_wf fuel t str pre l post : view t pre l post -> zlen str < 2 ^ 31 -> sel t = false ->
  let t' := (insert_from fuel t str).1 in
  sel t' = false /\ exists pre l post, view t' pre l post.
Proof.
  revert t str pre l post. induction fuel as [|fuel IH]; intros t str pre l post V Hs Hsel; cbn [insert_from].
  { split; [done|]. by exists pre, l, post. }
  destruct str as [|c str]; [split; [done|]; by exists pre, l, post|]. rewrite zlen_cons in Hs.
  destruct (c =? 13) eqn:E13; [by eapply IH; [done|lia|]|].
  destruct (c =? 10) eqn:E10.
  - pose proof (newline_spec t pre l post V) as [Hss Hn].
    destruct (newline t) as [t1 []]; simpl in Hss, Hn; destruct Hss as (Hse & _).
    + destruct Hn as (l1 & l2 & V1 & _). eapply IH; [exact V1 | lia | congruence].
    + destruct Hn as [V1 _]. split; [simpl; congruence|]. by exists pre, l, post.
  - pose proof (run_cons c str E13 E10) as Hr. remember (run (c :: str)) as text.
    pose proof (put_run_spec t pre l post text V ltac:(lia)) as [Hss Hn].
    destruct (put_run t text) as [t1 []]; simpl in Hss, Hn; destruct Hss as (Hse & _).
    + destruct Hn as (l' & _ & V1 & _). eapply IH; [exact V1 | | congruence].
      rewrite <- (Nat2Z.id (length text)). rewrite zlen_drop, zlen_cons by lia. unfold zlen in *. lia.
    + destruct Hn as [V1 _]. split; [simpl; congruence|]. by exists pre, l, post.
Qed.

Lemma insert_wf t str : wf t -> zlen str < 2 ^ 31 -> wf (tb_insert t str).
Proof.
  intros W Hs. unfold tb_insert.
  assert (W0 : wf ((if sel t then tb_sel_delete t else t) <| sel := false |>)).
  { assert (W1 : wf (if sel t then tb_sel_delete t else t)) by (destruct (sel t); [by apply sel_delete_wf|done]).
    by apply (wf_cursor (if sel t then tb_sel_delete t else t)); try done; apply W1. }
  remember ((if sel t then tb_sel_delete t else t) <| sel := false |>) as t0 eqn:E0.
  assert (Hsel : sel t0 = false) by by subst. clear E0.
  destruct (wf_view t0 W0) as (pre & post & V).
  destruct (insert_from_wf (length str) t0 str _ _ _ V Hs Hsel) as (Hsel' & pre' & l' & post' & V').
  assert (W' : wf (insert_from (length str) t0 str).1) by (eapply view_wf_intro; [exact V'|by rewrite Hsel']).
  destruct (insert_from (length str) t0 str) as [t1 []]; simpl in *; [|done].
  apply (wf_cursor t1); try done; try apply W'.
Qed.

(** editing one line in place *)
Lemma edit_line_wf t pre l post b x : view t pre l post -> sel t = false ->
  zlen b <= len l -> 0 <= x <= zlen b ->
  forall w, wf (set_line t (cy t) (l <| s := b |>) <| cx := x |> <| want_x := w |> <| dirty := true |>).
Proof.
  intros V Hs Hb Hx w. pose proof (view_wf _ _ _ _ V) as Hw. destruct V as [E Hcy Hcx Ha].
  assert (E' : aset (lines t) (cy t) (l <| s := b |>) = pre ++ l <| s := b |> :: post)
    by (rewrite E; by apply aset_mid).
  apply (view_wf_intro _ pre (l <| s := b |>) post); [|simpl; by rewrite Hs].
  split; [exact E' | exact Hcy | done |].
  eapply (arr_wf_set pre l (l <| s := b |>) post t); [exact Ha|exact E|by apply line_wf_shrink|exact E'|done].
Qed.

Lemma zlen_cut (l : list Z) a b : 0 <= a <= b -> b <= zlen l ->
  zlen (take (Z.to_nat a) l ++ drop (Z.to_nat b) l) = zlen l - (b - a).
Proof. intros. rewrite zlen_app, zlen_take, zlen_drop by lia. lia. Qed.

(** joining the line to the one before *)
Lemma join_wf t pre p l post h p' : view t (pre ++ [p]) l post -> sel t = false ->
  (line_reserve (heap t) p (len p + len l)).1 = Some p' ->
  let t1 := t <| heap := h |> in
  view (remove_line (set_line t1 (cy t1 - 1) (p' <| s ::= fun b => b ++ s l |>)) (cy t1)
          <| cy ::= fun y => y - 1 |> <| cx := len p |>) pre (p' <| s := s p ++ s l |>) post.
Proof.
  intros V Hs Er t1. destruct V as [E Hcy Hcx Ha]. rewrite zlen_app, zlen_cons, zlen_nil in Hcy.
  destruct Ha as (Hf & Hm & Hc). pose proof (n_mid _ _ _ _ E) as Hn. rewrite zlen_app, zlen_cons, zlen_nil in Hn.
  rewrite E in Hf. apply arr_mid in Hf as (Hpre & Hl & Hpost).
  apply Forall_app in Hpre as [Hpre Hp]. apply Forall_cons in Hp as [Hp _].
  pose proof (line_reserve_self (heap t) p p' (len p + len l) (or_introl Hp) ltac:(pose proof (len_nonneg p); pose proof (len_nonneg l); lia) Er) as Hps.
  assert (Ep : p' <| s ::= fun b => b ++ s l |> = p' <| s := s p ++ s l |>) by (unfold set, setter; by rewrite Hps).
  rewrite Ep. remember (p' <| s := s p ++ s l |>) as q eqn:Eq.
  assert (Hq : line_wf q).
  { subst q. apply (line_reserve_wf (heap t) p p' (len p + len l)); [by left| | |done];
      [rewrite zlen_app; fold (len p) (len l); lia | pose proof (len_nonneg p); pose proof (len_nonneg l); lia]. }
  assert (El : delete (Z.to_nat (cy t)) (aset (lines t) (cy t - 1) q) = pre ++ q :: post).
  { rewrite E, <- app_assoc. cbn [app]. rewrite aset_mid by lia.
    replace (pre ++ q :: l :: post) with ((pre ++ [q]) ++ l :: post) by by rewrite <- app_assoc.
    rewrite delete_mid by (rewrite zlen_app, zlen_cons, zlen_nil; lia). by rewrite <- app_assoc. }
  split.
  - exact El.
  - simpl. lia.
  - subst q. cbn. unfold len. simpl. rewrite zlen_app. pose proof (zlen_nonneg (s l)). pose proof (zlen_nonneg (s p)). lia.
  - unfold arr_wf, n. simpl. rewrite El. rewrite Forall_app, Forall_cons, zlen_app, zlen_cons.
    split_and!; try done; lia.
Qed.

Lemma last_line {A} `{Inhabited A} (pre : list A) : 0 < zlen pre -> exists ps p, pre = ps ++ [p] /\ p = aget pre (zlen pre - 1).
Proof.
  intros Hp. destruct pre as [|p ps _] using rev_ind; [done|]. exists ps, p. split; [done|].
  rewrite zlen_app, zlen_cons, zlen_nil. replace (zlen ps + (1 + 0) - 1) with (zlen ps) by lia.
  by rewrite aget_mid.
Qed.

Lemma backspace_wf t : wf t -> wf (tb_backspace t).
Proof.
  intros W. unfold tb_backspace. destruct (has_sel t); [by apply sel_delete_wf|].
  assert (W1 : wf (t <| sel := false |>)) by (apply (wf_cursor t); try done; apply W).
  destruct (wf_view _ W1) as (pre & post & V). set (t1 := t <| sel := false |>) in *.
  set (l := line_at t1 (cy t1)) in *. pose proof (v_cx _ _ _ _ V) as Hcx.
  destruct (0 <? cx t1) eqn:E0; zbool.
  - pose proof (u8_prev_bounds (s l) (cx t1) E0) as Hpv.
    apply (edit_line_wf t1 pre l post); try done;
      rewrite zlen_cut by (unfold len in *; lia); unfold len in *; lia.
  - destruct (0 <? cy t1) eqn:E1; zbool; [|done].
    destruct (last_line pre) as (ps & p & -> & _); [rewrite (v_cy _ _ _ _ V) in E1; done|].
    pose proof V as [E Hcy _ Ha]. rewrite zlen_app, zlen_cons, zlen_nil in Hcy.
    assert (Ep : line_at t1 (cy t1 - 1) = p).
    { unfold line_at. rewrite E, <- app_assoc. cbn [app]. apply aget_mid. lia. }
    rewrite Ep. fold l. destruct (line_reserve (heap t1) p (len p + len l)) as [[p'|] h] eqn:Er.
    + pose proof (join_wf t1 ps p l post h p' V eq_refl ltac:(by rewrite Er)) as V'. cbv zeta in V'.
      pose proof (view_wf_intro _ _ _ _ V' ltac:(done)) as W2.
      apply (wf_cursor _ _ W2); try done; apply W2.
    + apply (wf_cursor t1); try done. apply W1.
Qed.

Lemma delete_wf t : wf t -> wf (tb_delete t).
Proof.
  intros W. unfold tb_delete. destruct (has_sel t); [by apply sel_delete_wf|].
  assert (W1 : wf (t <| sel := false |>)) by (apply (wf_cursor t); try done; apply W).
  destruct (wf_view _ W1) as (pre & post & V). set (t1 := t <| sel := false |>) in *.
  set (l := line_at t1 (cy t1)) in *. pose proof (v_cx _ _ _ _ V) as Hcx.
  destruct (cx t1 <? len l) eqn:E0; zbool.
  - pose proof (u8_next_bounds (s l) (len l) (cx t1) E0) as Hn.
    set (b := take (Z.to_nat (cx t1)) (s l) ++ drop (Z.to_nat (cx t1 + (u8_next (s l) (len l) (cx t1) - cx t1))) (s l)).
    assert (Hb : zlen b = len l - (u8_next (s l) (len l) (cx t1) - cx t1)).
    { unfold b. rewrite zlen_cut by (unfold len in *; lia). unfold len in *. lia. }
    pose proof (edit_line_wf t1 pre l post b (cx t1) V eq_refl ltac:(lia) ltac:(lia) (want_x t1)) as We.
    exact We.
  - destruct (cy t1 <? n t1 - 1) eqn:E1; zbool; [|done]. apply backspace_wf.
    apply (wf_cursor t1); try done. split; [|split; [simpl; lia|apply len_nonneg]].
    destruct W1 as [_ _ _ [? _] _]. unfold n in *. simpl in *. lia.
Qed.

(** ** Moving, loading and searching *)

Lemma start_sel_wf t b : wf t -> wf (start_sel t b).
Proof.
  intros W. unfold start_sel. destruct b, (sel t) eqn:E; try done;
    apply (wf_cursor t); try done; try (intros _); apply W.
Qed.

Lemma clamp_spec t : 1 <= n t -> exists x y, clamp t = t <| cx := x |> <| cy := y |> /\ at_pos t x y.
Proof.
  intros Hn. destruct t as [ls c x y w se a b d h]. unfold clamp, at_pos, line_at, n in *. simpl in *.
  set (y1 := if zlen ls <=? (if y <? 0 then 0 else y) then zlen ls - 1 else if y <? 0 then 0 else y).
  assert (Hy : 0 <= y1 < zlen ls) by (unfold y1; zcases; lia).
  set (x1 := if len (aget ls y1) <? (if x <? 0 then 0 else x) then len (aget ls y1) else if x <? 0 then 0 else x).
  assert (Hx : 0 <= x1 <= len (aget ls y1)) by (pose proof (len_nonneg (aget ls y1)); unfold x1; zcases; lia).
  exists (back_cont (Z.to_nat x1) (s (aget ls y1)) x1), y1. split.
  - unfold x1, y1. clear. unfold set, setter.
    destruct (y <? 0) eqn:E1; simpl; [destruct (zlen ls <=? 0) | destruct (zlen ls <=? y)]; simpl;
    (destruct (x <? 0) eqn:E3; simpl; case_bool; simpl; by rewrite ?E3).
  - split; [done|]. pose proof (back_cont_bounds (Z.to_nat x1) (s (aget ls y1)) x1). lia.
Qed.

Lemma clamp_wf t x y : wf t -> wf (clamp (t <| cy := y |> <| cx := x |>)).
Proof.
  intros W. destruct (clamp_spec (t <| cy := y |> <| cx := x |>)) as (x1 & y1 & -> & Hp); [apply W|].
  apply (wf_cursor t); try done. apply W.
Qed.

Lemma see_x_wf t : wf t -> wf (see_x t).
Proof. intros W. apply (wf_cursor t); try done; apply W. Qed.

Lemma put_cursor_wf t x y : wf t -> at_pos t x y -> wf (t <| cy := y |> <| cx := x |>).
Proof. intros W Hp. apply (wf_cursor t); try done. apply W. Qed.

Lemma move_wf t dx dy b : wf t -> wf (tb_move t dx dy b).
Proof.
  intros W0. unfold tb_move. pose proof (start_sel_wf t b W0) as W. clear W0.
  set (t1 := start_sel t b) in *. clearbody t1. cbv zeta.
  destruct (dy =? 0) eqn:Edy; cbn [negb].
  - pose proof (wf_cur _ W) as [Hy Hx].
    assert (Hsame : wf (see_x t1)) by by apply see_x_wf. apply see_x_wf.
    set (l := line_at t1 (cy t1)) in *.
    destruct (dx <? 0) eqn:E1; zbool.
    + destruct (0 <? cx t1) eqn:E2; zbool.
      * apply (put_cursor_wf t1 _ (cy t1) W). split; [done|]. pose proof (u8_prev_bounds (s l) (cx t1)). fold l. lia.
      * destruct (0 <? cy t1) eqn:E3; zbool; [|done].
        apply (put_cursor_wf t1 _ (cy t1 - 1) W). split; [lia|]. split; [apply len_nonneg|done].
    + destruct (0 <? dx); [|done]. destruct (cx t1 <? len l) eqn:E2; zbool.
      * apply (put_cursor_wf t1 _ (cy t1) W). split; [done|]. pose proof (u8_next_bounds (s l) (len l) (cx t1)). fold l. lia.
      * destruct (cy t1 <? n t1 - 1) eqn:E3; zbool; [|done].
        apply (put_cursor_wf t1 0 (1 + cy t1) W). split; [lia|]. split; [done|apply len_nonneg].
  - match goal with |- context [tb_byte ?u _ _] => set (t2 := u) end.
    assert (W2 : forall x, wf (clamp (t2 <| cx := x |>))).
    { intros x. assert (E2 : exists y w, t2 = t1 <| want_x := w |> <| cy := y |>).
      { exists (cy t2), (want_x t2). unfold t2. clear. destruct t1. repeat case_bool; reflexivity. }
      destruct E2 as (y & w & ->). apply (clamp_wf (t1 <| want_x := w |>) x y).
      apply (wf_cursor t1); try done; apply W. }
    apply W2.
Qed.

Lemma cut_line_wf t : wf t -> wf (tb_cut_line t).1.
Proof.
  intros W. unfold tb_cut_line. destruct (kmalloc (heap t)) as [ok h]. destruct ok; cbn [negb].
  2: { apply (wf_cursor t); try done; apply W. }
  set (t1 := t <| heap := h |>). assert (W1 : wf t1) by (apply (wf_cursor t); try done; apply W).
  change (line_at t (cy t)) with (line_at t1 (cy t1)).
  clearbody t1. clear W. destruct (wf_view t1 W1) as (pre & post & V). pose proof V as [E Hcy Hcx (Hf & Hm & Hc)].
  pose proof (n_mid _ _ _ _ E) as Hn. pose proof (zlen_nonneg pre). pose proof (zlen_nonneg post).
  set (l := line_at t1 (cy t1)) in *.
  assert (G : forall t2, arr_wf t2 -> 1 <= n t2 -> wf (clamp (t2 <| sel := false |>) <| cx := 0 |> <| dirty := true |>)).
  { intros t2 (Hf2 & Hm2 & Hc2) Hn2. destruct (clamp_spec (t2 <| sel := false |>)) as (x & y & -> & [Hy Hx]); [done|].
    split; try done. split; [done|]. split; [done|apply len_nonneg]. }
  assert (El : lines (remove_line t1 (cy t1)) = pre ++ post)
    by (unfold remove_line; simpl; rewrite E; by apply delete_mid).
  rewrite E in Hf. apply arr_mid in Hf as (Hp & Hl & Hq). destruct (1 <? n t1) eqn:E1; zbool; cbn [fst]; apply G.
  - unfold arr_wf, n. rewrite El, Forall_app, zlen_app. change (cap (remove_line t1 (cy t1))) with (cap t1).
    split_and!; try done; lia.
  - unfold n. rewrite El, zlen_app. lia.
  - apply (arr_wf_set pre l (l <| s := [] |>) post t1); try done; [apply (v_arr _ _ _ _ V) | |].
    + apply line_wf_shrink; [done|apply len_nonneg].
    + unfold set_line. simpl. rewrite E. by apply aset_mid.
  - unfold n, set_line in *. simpl. rewrite zlen_aset. lia.
Qed.

Lemma find_in_line_bounds count l needle x r : 0 <= x -> find_in_line count l needle x = Some r ->
  0 <= r /\ r + zlen needle <= zlen l.
Proof.
  revert x. induction count as [|count IH]; intros x Hx; cbn [find_in_line]; [done|].
  case_bool; [|done]. zbool. case_bool; [intros [= <-]; lia|]. by apply IH; lia.
Qed.

Lemma find_pass_bounds count t needle pass x y : 0 <= cx t -> 1 <= n t -> find_pass count t needle pass = Some (x, y) ->
  0 <= y < n t /\ 0 <= x /\ x + zlen needle <= len (line_at t y).
Proof.
  intros Hc Hn. revert pass. induction count as [|count IH]; intros pass; cbn [find_pass]; [done|].
  destruct (find_in_line _ _ _ _) as [r|] eqn:E; [|apply IH].
  intros [= <- <-]. apply find_in_line_bounds in E; [|case_bool; lia].
  split; [apply Z.mod_pos_bound; lia|]. done.
Qed.

Lemma find_wf t needle : wf t -> wf (tb_find t needle).1.
Proof.
  intros W. unfold tb_find. case_bool; [done|]. zbool. unfold strlen in *.
  destruct (find_pass _ t needle 0) as [[x y]|] eqn:E; [|done].
  apply find_pass_bounds in E as (Hy & Hx & Hl); [| apply W | apply W]. pose proof (zlen_nonneg needle).
  apply (wf_cursor t); try done; (split; [done|simpl; lia]).
Qed.

Lemma chomp_cr_len l : zlen (chomp_cr l) <= zlen l.
Proof.
  assert (H : forall k, zlen (take k l) <= zlen l) by (intros k; unfold zlen; rewrite length_take; lia).
  unfold chomp_cr. repeat case_match; try done; try lia.
Qed.

(** a text being loaded: its last line is [l] *)
Lemma load_lines_wf ls t pre l : arr_wf t -> lines t = pre ++ [l] -> s l = [] -> cx t = 0 -> cy t = 0 -> sel t = false ->
  Forall (fun l => zlen l < 2 ^ 31) ls ->
  (load_lines t ls).2 = true -> wf (load_lines t ls).1.
Proof.
  revert t pre l. induction ls as [|b ls IH]; intros t pre l Ha E Hs Hcx Hcy Hsel Hb; cbn [load_lines].
  { intros _. cbn [fst]. destruct Ha as (Hf & Hm & Hc). pose proof (n_mid t pre l [] E) as Hn. change (zlen (@nil tb_line_t)) with 0 in Hn. pose proof (zlen_nonneg pre).
    split; try done; [lia| |by rewrite Hsel]. split; [lia|]. rewrite Hcx. split; [done|apply len_nonneg]. }
  apply Forall_cons in Hb as [Hb Hbs]. pose proof (chomp_cr_len b) as Hc. set (bt := chomp_cr b) in *.
  pose proof (n_mid t pre l [] E) as Hn. change (zlen (@nil tb_line_t)) with 0 in Hn.
  assert (El : line_at t (n t - 1) = l) by (unfold line_at; rewrite E; apply aget_mid; lia).
  pose proof Ha as (Hf & Hm & Hcap). rewrite E in Hf. apply arr_mid in Hf as (Hp & Hl & _).
  rewrite El. destruct (line_reserve (heap t) l (zlen bt)) as [[r|] h] eqn:Er; [|done].
  assert (Hr : line_wf (r <| s := bt |>)).
  { apply (line_reserve_wf (heap t) l r (zlen bt)); [by left|lia|apply zlen_nonneg|by rewrite Er]. }
  set (t1 := set_line (t <| heap := h |>) (n t - 1) (r <| s := bt |>)).
  assert (E1 : lines t1 = pre ++ [r <| s := bt |>]) by (unfold t1, set_line; simpl; rewrite E; apply aset_mid; lia).
  assert (Ha1 : arr_wf t1) by (eapply (arr_wf_set pre l _ [] t); try done).
  destruct ls as [|b2 ls].
  - intros _. cbn [fst]. destruct Ha1 as (Hf1 & Hm1 & Hc1). pose proof (n_mid t1 pre _ [] E1) as Hn1. change (zlen (@nil tb_line_t)) with 0 in Hn1.
    pose proof (zlen_nonneg pre). split; try done; [lia| |change (sel t1) with (sel t); by rewrite Hsel].
    split; [change (cy t1) with (cy t); lia|]. change (cx t1) with (cx t). rewrite Hcx. split; [done|apply len_nonneg].
  - destruct (insert_line_spec t1 (n t1) Ha1) as (c & h2 & Hc2 & _ & [[Hi _]|(fresh & Hfw & Hfs & Hm2 & Hc2' & Hi)]);
      [pose proof (zlen_nonneg (lines t1)); unfold n; lia | |]; rewrite Hi; [done|].
    assert (Et : take (Z.to_nat (n t1)) (lines t1) ++ fresh :: drop (Z.to_nat (n t1)) (lines t1) = lines t1 ++ [fresh]).
    { unfold n, zlen. rewrite Nat2Z.id, take_ge, drop_ge by done. done. }
    rewrite Et. apply (IH _ (lines t1) fresh); try done.
    destruct Ha1 as (Hf1 & ? & ?). unfold arr_wf, n in *. simpl. rewrite Forall_app, Forall_cons, zlen_app, zlen_cons.
    change (zlen (@nil tb_line_t)) with 0. split_and!; try done; lia.
Qed.

Lemma cut_lines_len text cur k : zlen text + zlen cur < k -> Forall (fun l => zlen l < k) (cut_lines text cur).
Proof.
  revert cur. induction text as [|c text IH]; intros cur Hk; cbn [cut_lines].
  { apply Forall_singleton. change (zlen (@nil Z)) with 0 in Hk. lia. }
  rewrite zlen_cons in Hk. pose proof (zlen_nonneg cur). pose proof (zlen_nonneg text). case_bool.
  - apply Forall_cons. split; [lia|]. apply IH. change (zlen (@nil Z)) with 0. lia.
  - apply IH. rewrite zlen_app, zlen_cons. change (zlen (@nil Z)) with 0. lia.
Qed.

(** a text loaded, or the one there was *)
Lemma load_text_cases t text : (load_text t text).2 = false /\ (exists h, (load_text t text).1 = t <| heap := h |>) \/
  (load_text t text).2 = true /\ wf (load_text t text).1.
Proof.
  unfold load_text. case_bool; zbool; [left; split; [done|]; exists (heap t); by destruct t|].
  pose proof (insert_line_spec (empty (heap t)) 0) as Hi. 
  destruct Hi as (c & h & Hc & _ & [[Hi _]|(fresh & Hfw & Hfs & Hm & Hc' & Hi)]); [done|done| |]; rewrite Hi; cbn [negb].
  { left. split; [done|]. by eexists. }
  pose proof (load_lines_wf (cut_lines text []) (empty (heap t) <| lines := [fresh] |> <| cap := c |> <| heap := h |>) [] fresh) as Hw.
  change (take (Z.to_nat 0) (lines (empty (heap t))) ++ fresh :: drop (Z.to_nat 0) (lines (empty (heap t)))) with [fresh].
  destruct (load_lines _ _) as [t1 []]; [right|left; split; [done|by eexists]].
  split; [done|]. apply Hw; try done.
  - unfold arr_wf, n. simpl. change (zlen [fresh]) with 1. change (n (empty (heap t))) with 0 in *.
    split_and!; try lia. by apply Forall_singleton.
  - apply cut_lines_len. change (zlen (@nil Z)) with 0. lia.
Qed.

(** with a NULL pointer, too *)
Lemma load_cases t text len : (tb_load_at t text len).2 = false /\ (exists h, (tb_load_at t text len).1 = t <| heap := h |>) \/
  (tb_load_at t text len).2 = true /\ wf (tb_load_at t text len).1.
Proof.
  unfold tb_load_at. destruct (orb (0x80000000 <=? len) _); [left; split; [done|]; exists (heap t); by destruct t|apply load_text_cases].
Qed.

(** a text in memory *)
Lemma load_some t text : tb_load t text = load_text t text.
Proof.
  unfold tb_load, tb_load_at. rewrite bool_decide_false by done. change (default [] (Some text)) with text. cbn [andb]. rewrite orb_false_r.
  unfold load_text. by destruct (0x80000000 <=? zlen text) eqn:E; [|rewrite ?E].
Qed.
