(* ===== verification/TextbufProps.v ===== *)
(** What the operations of a text (Textbuf.v) do: the invariant over every run
    of calls, loading and saving, and insertion and the selection seen as edits
    of one flat string around the cursor. *)

From S2P Require Import Prelude Utf8 KString Textbuf TextbufInv TextbufOps.

(** ** The text as one string around the cursor *)

Definition text (t : textbuf_t) : list Z := join_lines (s <$> lines t).

Definition before_at (t : textbuf_t) (x y : Z) : list Z :=
  join_lines ((s <$> take (Z.to_nat y) (lines t)) ++ [take (Z.to_nat x) (s (line_at t y))]).
Definition after_at (t : textbuf_t) (x y : Z) : list Z :=
  join_lines (drop (Z.to_nat x) (s (line_at t y)) :: (s <$> drop (S (Z.to_nat y)) (lines t))).

Definition before (t : textbuf_t) : list Z := before_at t (cx t) (cy t).
Definition after (t : textbuf_t) : list Z := after_at t (cx t) (cy t).

Lemma join_cons x y (ls : list (list Z)) : join_lines (x :: y :: ls) = x ++ 10 :: join_lines (y :: ls).
Proof. done. Qed.

Lemma join_app_head a b ys : join_lines ((a ++ b) :: ys) = a ++ join_lines (b :: ys).
Proof. destruct ys; cbn [join_lines]; by rewrite <- ?app_assoc. Qed.

Lemma join_app xs a b ys : join_lines (xs ++ [a]) ++ join_lines (b :: ys) = join_lines (xs ++ (a ++ b) :: ys).
Proof.
  induction xs as [|x xs IH]; [by rewrite !app_nil_l, join_app_head|].
  destruct xs as [|x' xs]; cbn [app] in *; rewrite !join_cons, <- app_assoc; cbn [app]; by rewrite <- IH.
Qed.

Lemma join_snoc_app xs a b : join_lines (xs ++ [a ++ b]) = join_lines (xs ++ [a]) ++ b.
Proof.
  rewrite <- (app_nil_r b) at 1. change ([a ++ b ++ []]) with ((a ++ (b ++ [])) :: []).
  rewrite <- join_app. by rewrite app_nil_r.
Qed.

Lemma join_snoc2 xs a b : join_lines (xs ++ [a] ++ [b]) = join_lines (xs ++ [a]) ++ [10] ++ b.
Proof.
  induction xs as [|x xs IH]; [done|].
  destruct xs as [|x' xs]; cbn [app] in *; rewrite !join_cons; [|rewrite <- app_assoc; cbn [app]; by rewrite IH].
  cbn. by rewrite <- app_assoc.
Qed.

Lemma zlen_join_last xs a : zlen a <= zlen (join_lines (xs ++ [a])).
Proof.
  rewrite <- (app_nil_l a) at 2. rewrite join_snoc_app, zlen_app. pose proof (zlen_nonneg (join_lines (xs ++ [[]]))). lia.
Qed.

Lemma zlen_join_head a ys : zlen a <= zlen (join_lines (a :: ys)).
Proof.
  rewrite <- (app_nil_r a) at 2. rewrite join_app_head, zlen_app. pose proof (zlen_nonneg (join_lines ([] :: ys))). lia.
Qed.

(** the two halves seen from a view *)
Definition bef (pre : list tb_line_t) (l : tb_line_t) (x : Z) : list Z :=
  join_lines ((s <$> pre) ++ [take (Z.to_nat x) (s l)]).
Definition aft (l : tb_line_t) (post : list tb_line_t) (x : Z) : list Z :=
  join_lines (drop (Z.to_nat x) (s l) :: (s <$> post)).

Lemma halves_at t pre l post x y : lines t = pre ++ l :: post -> zlen pre = y ->
  before_at t x y = bef pre l x /\ after_at t x y = aft l post x.
Proof.
  intros E <-. unfold before_at, after_at, bef, aft. rewrite (line_at_mid t pre l post) by done.
  rewrite E, take_mid by done. split; [done|].
  unfold zlen. rewrite Nat2Z.id. rewrite (drop_app_ge pre) by lia.
  by replace (S (length pre) - length pre)%nat with 1%nat by lia.
Qed.

Lemma view_halves t pre l post : view t pre l post ->
  before t = bef pre l (cx t) /\ after t = aft l post (cx t).
Proof. intros []. by apply halves_at. Qed.

Lemma text_halves_at t x y : at_pos t x y -> text t = before_at t x y ++ after_at t x y.
Proof.
  intros [Hy Hx]. destruct (split_at (lines t) y Hy) as (pre & post & E & Hp).
  destruct (halves_at t pre _ post x y E Hp) as [-> ->]. unfold bef, aft. rewrite join_app, take_drop.
  unfold text. rewrite E at 1. by rewrite fmap_app, fmap_cons.
Qed.

Lemma bef_bound pre l x : 0 <= x <= len l -> x <= zlen (bef pre l x).
Proof.
  intros H. unfold bef. etransitivity; [|apply zlen_join_last]. rewrite zlen_take by lia. unfold len in H. lia.
Qed.
Lemma aft_bound l post x : 0 <= x <= len l -> len l - x <= zlen (aft l post x).
Proof.
  intros H. unfold aft. etransitivity; [|apply zlen_join_head]. rewrite zlen_drop by lia. unfold len in *. lia.
Qed.

(** ** Insertion *)

(** the \n's of a string *)
Definition newlines (str : list Z) : Z := zlen (filter (fun c => c = 10) str).

Lemma run_split str : run str ++ drop (length (run str)) str = str.
Proof.
  induction str as [|c str IH]; [done|]. cbn [run]. destruct (_ || _); [done|]. cbn. by f_equal.
Qed.

Lemma run_plain str : filter (fun c => c <> 13) (run str) = run str /\ newlines (run str) = 0.
Proof.
  unfold newlines. induction str as [|c str [IH1 IH2]]; [done|]. cbn [run].
  destruct ((c =? 10) || (c =? 13)) eqn:E; [done|]. zbool. rewrite !filter_cons.
  rewrite decide_True, decide_False by done. by rewrite IH1.
Qed.

Lemma newlines_app a b : newlines (a ++ b) = newlines a + newlines b.
Proof. unfold newlines. by rewrite filter_app, zlen_app. Qed.

Lemma insert_from_text fuel t str pre l post : view t pre l post -> heap t = [] -> sel t = false ->
  zlen (before t) + zlen (after t) + zlen str < 2 ^ 31 -> n t + newlines str <= MAX_LINES ->
  (length str <= fuel)%nat ->
  let r := insert_from fuel t str in
  r.2 = true /\ before r.1 = before t ++ filter (fun c => c <> 13) str /\ after r.1 = after t.
Proof.
  revert t str pre l post. induction fuel as [|fuel IH]; intros t str pre l post V Hh Hsel Hz Hn Hf; cbn [insert_from].
  { destruct str; [|cbn in Hf; lia]. rewrite filter_nil, app_nil_r. done. }
  destruct str as [|c str]; [rewrite filter_nil, app_nil_r; done|].
  pose proof (view_halves _ _ _ _ V) as [Eb Ea]. rewrite zlen_cons in Hz. cbn [length] in Hf.
  change (c :: str) with ([c] ++ str) in Hn. rewrite newlines_app in Hn.
  destruct (c =? 13) eqn:E13; zbool.
  { subst c. rewrite filter_cons_False by tauto. change (newlines [13]) with 0 in Hn. eapply IH; try done; lia. }
  pose proof (bef_bound pre l (cx t) (v_cx _ _ _ _ V)) as Hbb. pose proof (aft_bound l post (cx t) (v_cx _ _ _ _ V)) as Hab.
  rewrite <- Eb in Hbb. rewrite <- Ea in Hab. pose proof (zlen_nonneg str). pose proof (v_cx _ _ _ _ V) as Hcx.
  destruct (c =? 10) eqn:E10; zbool.
  - subst c. change (newlines [10]) with 1 in Hn.
    pose proof (newline_spec t pre l post V) as [(Hse & _) Hnl].
    assert (Hmx : ~ MAX_LINES < n t + 1) by (pose proof (zlen_nonneg (filter (fun c => c = 10) str)); unfold newlines in Hn; lia).
    destruct (newline t) as [t1 []]; cbn [fst snd] in *; [|destruct Hnl as [_ Hnl]; by specialize (Hnl Hh)].
    destruct Hnl as (l1 & l2 & V1 & Hcx1 & Hn1 & [[Hs1 Hs2]|(_ & _ & Hne)] & Hh1); [|done].
    pose proof (view_halves _ _ _ _ V1) as [Eb1 Ea1].
    assert (Hb1 : before t1 = before t ++ [10]).
    { rewrite Eb1, Eb, Hcx1. unfold bef. rewrite fmap_app, <- app_assoc. cbn [Z.to_nat fmap list_fmap]. rewrite take_0.
      rewrite join_snoc2, Hs1. by rewrite app_nil_r. }
    assert (Ha1 : after t1 = after t).
    { rewrite Ea1, Ea, Hcx1. unfold aft. cbn [Z.to_nat]. by rewrite drop_0, Hs2. }
    rewrite filter_cons_True by lia. destruct (IH t1 str _ _ _ V1 (Hh1 Hh)) as (Ho & Hb2 & Ha2);
      [congruence | rewrite Hb1, Ha1, zlen_app; change (zlen [10]) with 1; lia | lia | lia |].
    split; [done|]. split; [|by rewrite Ha2]. rewrite Hb2, Hb1, <- app_assoc. done.
  - pose proof (run_cons c str ltac:(by apply Z.eqb_neq) ltac:(by apply Z.eqb_neq)) as Hr.
    pose proof (run_split (c :: str)) as Hsp. pose proof (run_plain (c :: str)) as [Hp Hnl0].
    rewrite <- newlines_app in Hn. change ([c] ++ str) with (c :: str) in Hn.
    remember (run (c :: str)) as txt eqn:Etxt. clear Etxt. remember (drop (length txt) (c :: str)) as rest.
    assert (Hlr : zlen txt + zlen rest = 1 + zlen str) by (rewrite <- zlen_app, Hsp, zlen_cons; done).
    pose proof (put_run_spec t pre l post txt V ltac:(lia)) as [(Hse & _) Hnl].
    destruct (put_run t txt) as [t1 []]; cbn [fst snd] in *; [|destruct Hnl as [_ Hnl]; specialize (Hnl Hh); lia].
    destruct Hnl as (l' & Hs' & V1 & Hcx1 & Hh1). pose proof (view_halves _ _ _ _ V1) as [Eb1 Ea1].
    assert (Es : s (put t l' txt) = take (Z.to_nat (cx t)) (s l) ++ txt ++ drop (Z.to_nat (cx t)) (s l)).
    { unfold put. simpl. by rewrite Hs'. }
    assert (Hzt : zlen (take (Z.to_nat (cx t)) (s l) ++ txt) = cx t + zlen txt).
    { rewrite zlen_app, zlen_take by lia. unfold len in Hcx. lia. }
    assert (Hb1 : before t1 = before t ++ txt).
    { rewrite Eb1, Eb, Hcx1. unfold bef. rewrite Es, app_assoc, take_mid by (by rewrite Hzt). by rewrite join_snoc_app. }
    assert (Ha1 : after t1 = after t).
    { rewrite Ea1, Ea, Hcx1. unfold aft. rewrite Es, app_assoc, drop_mid by (by rewrite Hzt). done. }
    assert (Hn1 : n t1 = n t).
    { rewrite (n_mid _ _ _ _ (v_lines _ _ _ _ V1)), (n_mid _ _ _ _ (v_lines _ _ _ _ V)). done. }
    destruct (IH t1 rest _ _ _ V1 (Hh1 Hh)) as (Ho & Hb2 & Ha2); [congruence | | | |].
    + rewrite Hb1, Ha1, zlen_app. lia.
    + rewrite Hn1. rewrite <- Hsp, newlines_app in Hn. lia.
    + unfold zlen in *. lia.
    + split; [done|]. split; [|by rewrite Ha2]. rewrite Hb2, Hb1, <- Hsp, filter_app, Hp. by rewrite app_assoc.
Qed.

(** ** Loading *)

(** a text with the \r before each \n, and at the end, left out *)
Fixpoint unix (l : list Z) : list Z :=
  match l with
  | [] => []
  | c :: r => if (c =? 13) && match r with [] => true | d :: _ => d =? 10 end then unix r else c :: unix r
  end.

Lemma chomp_cons c d l : chomp_cr (c :: d :: l) = c :: chomp_cr (d :: l).
Proof.
  unfold chomp_cr. rewrite last_cons_cons. destruct (last (d :: l)) as [x|]; [|done].
  cbn [length]. repeat case_match; try done. all: cbn; by rewrite ?Nat.sub_0_r.
Qed.

Lemma unix_line cur rest : Forall (fun c => c <> 10) cur ->
  unix (cur ++ 10 :: rest) = chomp_cr cur ++ 10 :: unix rest /\ unix cur = chomp_cr cur.
Proof.
  induction cur as [|c cur IH]; intros Hf; [done|]. apply Forall_cons in Hf as [Hc Hf].
  destruct (IH Hf) as [IH1 IH2]. clear IH. destruct cur as [|d cur].
  - cbn [app unix]. destruct (decide (c = 13)) as [->|Hne]; [done|].
    rewrite (proj2 (Z.eqb_neq c 13) Hne). cbn [andb].
    assert (Hch : chomp_cr [c] = [c]) by (unfold chomp_cr; cbn; repeat case_match; simplify_eq; done).
    by rewrite Hch.
  - rewrite chomp_cons. cbn [app unix] in *. apply Forall_cons in Hf as [Hd _].
    rewrite (proj2 (Z.eqb_neq d 10) Hd), andb_false_r. rewrite IH1, IH2. done.
Qed.

Lemma cut_lines_ne txt cur : cut_lines txt cur <> [].
Proof. revert cur. induction txt as [|c txt IH]; intros cur; cbn [cut_lines]; [done|]. by case_bool. Qed.

Lemma unix_cut txt cur : Forall (fun c => c <> 10) cur ->
  join_lines (chomp_cr <$> cut_lines txt cur) = unix (cur ++ txt).
Proof.
  revert cur. induction txt as [|c txt IH]; intros cur Hf; cbn [cut_lines].
  { rewrite app_nil_r. cbn. by destruct (unix_line cur [] Hf) as [_ ->]. }
  destruct (c =? 10) eqn:E; zbool.
  - subst c. destruct (unix_line cur txt Hf) as [-> _]. rewrite fmap_cons.
    pose proof (IH [] (List.Forall_nil _)) as IH'. pose proof (cut_lines_ne txt []) as Hne.
    destruct (cut_lines txt []) as [|l ls]; [done|].
    rewrite fmap_cons in *. by rewrite join_cons, IH'.
  - rewrite IH; [by rewrite <- app_assoc|]. apply Forall_app. split; [done|]. by apply Forall_singleton.
Qed.

Lemma load_lines_text ls t pre l : ls <> [] -> lines t = pre ++ [l] -> line_pre l -> (load_lines t ls).2 = true ->
  arr_wf t ->
  s <$> lines (load_lines t ls).1 = (s <$> pre) ++ (chomp_cr <$> ls) /\
  cx (load_lines t ls).1 = cx t /\ cy (load_lines t ls).1 = cy t /\
  sel (load_lines t ls).1 = sel t /\ dirty (load_lines t ls).1 = dirty t.
Proof.
  revert t pre l. induction ls as [|b ls IH]; intros t pre l Hne E Hl; cbn [load_lines]; [done|].
  pose proof (n_mid t pre l [] E) as Hn. change (zlen (@nil tb_line_t)) with 0 in Hn.
  assert (El : line_at t (n t - 1) = l) by (unfold line_at; rewrite E; apply aget_mid; lia).
  rewrite El. destruct (line_reserve (heap t) l (zlen (chomp_cr b))) as [[r|] h] eqn:Er; [|done].
  assert (E1 : forall x, lines (set_line (t <| heap := h |>) (n t - 1) x) = pre ++ [x])
    by (intros x; unfold set_line; simpl; rewrite E; apply aset_mid; lia).
  destruct ls as [|b2 ls].
  { cbn [fst snd]. rewrite E1, fmap_app. done. }
  set (q := r <| s := chomp_cr b |>). set (t1 := set_line (t <| heap := h |>) (n t - 1) q).
  intros Hok Ha.
  assert (Hq : line_wf q).
  { apply (line_reserve_wf (heap t) l r (zlen (chomp_cr b))); [done|lia|apply zlen_nonneg|by rewrite Er]. }
  assert (Ha1 : arr_wf t1) by (apply (arr_wf_set pre l q [] t); try done; apply E1).
  assert (El1 : lines t1 = pre ++ [q]) by apply E1.
  change (cx t) with (cx t1). change (cy t) with (cy t1). change (sel t) with (sel t1).
  change (dirty t) with (dirty t1). clearbody t1.
  revert Hok. destruct (insert_line_spec t1 (n t1) Ha1) as (c & h2 & Hc & _ & [[Hi _]|(fresh & Hfw & Hfs & Hm & Hcb & Hi)]);
    [pose proof (zlen_nonneg (lines t1)); unfold n; lia | |]; rewrite Hi; [done|].
  assert (Et : take (Z.to_nat (n t1)) (lines t1) ++ fresh :: drop (Z.to_nat (n t1)) (lines t1) = (pre ++ [q]) ++ [fresh]).
  { unfold n. rewrite El1. unfold zlen. rewrite Nat2Z.id, take_ge, drop_ge by done. done. }
  rewrite Et. intros Hok.
  destruct (IH (t1 <| lines := (pre ++ [q]) ++ [fresh] |> <| cap := c |> <| heap := h2 |>)
    (pre ++ [q]) fresh ltac:(done) eq_refl (or_introl Hfw) Hok) as (IH1 & IH2).
  - destruct Ha1 as (Hf1 & ? & ?). unfold arr_wf, n in *. simpl. rewrite El1 in Hf1, Hm, Hcb.
    rewrite Forall_app, Forall_cons, zlen_app, zlen_cons. change (zlen (@nil tb_line_t)) with 0. split_and!; try done; lia.
  - split; [|exact IH2]. rewrite IH1, fmap_app, <- app_assoc. done.
Qed.

(** a text that loads holds what was given, with \r\n turned into \n, the
    cursor at its start and nothing selected; saving it gives the same bytes
    back, and a load that fails leaves the text as it was *)
Theorem load_save t txt :
  let (t', ok) := tb_load t txt in
  if ok then
    text t' = unix txt /\ cx t' = 0 /\ cy t' = 0 /\ sel t' = false /\ dirty t' = false /\
    ((kmalloc (heap t')).1 = true -> (tb_text t').2 = Some (unix txt))
  else lines t' = lines t /\ cx t' = cx t /\ cy t' = cy t /\ sel t' = sel t /\ dirty t' = dirty t.
Proof.
  rewrite load_some. destruct (load_text t txt) as [t' ok] eqn:El. destruct ok.
  2: { destruct (load_text_cases t txt) as [[_ [h Hh]]|[Hf _]]; rewrite El in *; [|done]. cbn [fst] in Hh. by rewrite Hh. }
  revert El. unfold load_text. case_bool; [done|].
  pose proof (insert_line_spec (empty (heap t)) 0) as Hi.
  destruct Hi as (c & h & Hc & _ & [[Hi _]|(fresh & Hfw & Hfs & Hm & Hc' & Hi)]);
    [done|done| |]; rewrite Hi; cbn [negb]; [done|].
  change (take (Z.to_nat 0) (lines (empty (heap t))) ++ fresh :: drop (Z.to_nat 0) (lines (empty (heap t)))) with [fresh].
  pose proof (load_lines_text (cut_lines txt []) (empty (heap t) <| lines := [fresh] |> <| cap := c |> <| heap := h |>) [] fresh) as Hw.
  destruct (load_lines _ _) as [t1 []]; [|done]. intros [= <-]. cbn [fst snd] in Hw.
  destruct Hw as (Hl & ? & ? & ? & ?); try done; [apply cut_lines_ne|by left| |].
  { unfold arr_wf, n. simpl. change (zlen [fresh]) with 1. change (n (empty (heap t))) with 0 in *.
    split_and!; try lia. by apply Forall_singleton. }
  assert (Ht : text t1 = unix txt).
  { unfold text. rewrite Hl, fmap_nil, app_nil_l. by apply unix_cut. }
  split_and!; try done. intros Hk. unfold tb_text. destruct (kmalloc (heap t1)) as [[] ?]; [|done].
  cbn [snd]. by rewrite <- Ht.
Qed.

(** ** The properties *)

(** C24: with memory to spare and within the limits on lines and bytes,
    inserting a string where nothing is selected puts it, without its \r's,
    exactly at the cursor, which ends after it: nothing else of the text
    changes *)
Theorem insert_at_cursor t str : wf t -> heap t = [] -> sel t = false ->
  zlen (text t) + zlen str < 2 ^ 31 -> n t + newlines str <= MAX_LINES ->
  let t' := tb_insert t str in
  before t' = before t ++ filter (fun c => c <> 13) str /\ after t' = after t /\
  text t' = before t ++ filter (fun c => c <> 13) str ++ after t /\ dirty t' = true.
Proof.
  intros W Hh Hs Hz Hn. destruct (wf_view t W) as (pre & post & V).
  pose proof (text_halves_at t (cx t) (cy t) (wf_cur t W)) as Ht. fold (before t) (after t) in Ht.
  rewrite Ht, zlen_app in Hz.
  destruct (insert_from_text (length str) t str _ _ _ V Hh Hs ltac:(lia) Hn ltac:(done)) as (Hok & Hb & Ha).
  assert (W' : wf (tb_insert t str)).
  { apply insert_wf; [done|]. pose proof (zlen_nonneg (before t)). pose proof (zlen_nonneg (after t)). lia. }
  pose proof (text_halves_at _ _ _ (wf_cur _ W')) as Ht'. fold (before (tb_insert t str)) (after (tb_insert t str)) in Ht'.
  cbv zeta. rewrite Ht'. clear Ht'. unfold tb_insert. rewrite Hs.
  assert (E0 : t <| sel := false |> = t) by (rewrite <- Hs; by destruct t). rewrite E0.
  destruct (insert_from (length str) t str) as [t1 ok]. cbn [fst snd] in *. rewrite Hok.
  change (before (t1 <| want_x := _ |> <| dirty := true |>)) with (before t1).
  change (after (t1 <| want_x := _ |> <| dirty := true |>)) with (after t1).
  rewrite Hb, Ha. split_and!; try done. by rewrite <- app_assoc.
Qed.

(** ** The selection *)

Lemma sel_lines_mid t f mid P Q : lines t = P ++ mid ++ Q ->
  (forall y, zlen P <= y < zlen P + zlen mid -> f y = s (line_at t y)) ->
  f <$> seqZ (zlen P) (zlen mid) = s <$> mid.
Proof.
  revert P. induction mid as [|l mid IH]; intros P E Hf; [done|].
  rewrite zlen_cons in *. pose proof (zlen_nonneg mid). rewrite seqZ_cons by lia. rewrite !fmap_cons. f_equal.
  - rewrite Hf by lia. unfold line_at. rewrite E. by rewrite (aget_mid P (mid ++ Q) l).
  - replace (Z.pred (1 + zlen mid)) with (zlen mid) by lia.
    replace (Z.succ (zlen P)) with (zlen (P ++ [l])) by (rewrite zlen_app, zlen_cons; change (zlen (@nil tb_line_t)) with 0; lia).
    apply IH; [rewrite E, <- app_assoc; done|]. intros y Hy. apply Hf.
    rewrite zlen_app, zlen_cons in Hy. change (zlen (@nil tb_line_t)) with 0 in Hy. lia.
Qed.

(** the lines selected, of a text cut at the selection *)
Lemma sel_lines_spec t x0 y0 x1 y1 pre a mid b post : lines t = pre ++ a :: mid ++ post ->
  zlen pre = y0 -> zlen mid = y1 - y0 -> a = line_at t y0 -> b = line_at t y1 -> Some b = last (a :: mid) ->
  0 <= x0 <= len a -> 0 <= x1 <= len b -> y0 < y1 \/ (y0 = y1 /\ x0 < x1) ->
  text t = bef pre a x0 ++ join_lines (sel_lines t x0 y0 x1 y1) ++ aft b post x1.
Proof.
  intros E Hp Hm Ea Eb Hl Hx0 Hx1 Ho. unfold text. rewrite E.
  destruct (decide (y0 = y1)) as [<-|Hne].
  - rewrite Z.sub_diag in Hm. destruct mid; [|rewrite zlen_cons in Hm; pose proof (zlen_nonneg mid); lia].
    cbn in Hl. injection Hl as ->. rewrite app_nil_l. unfold sel_lines, bef, aft.
    replace (y0 - y0 + 1) with 1 by lia. rewrite (seqZ_cons y0), (seqZ_nil (Z.succ y0)) by lia. cbn [fmap list_fmap].
    rewrite Z.eqb_refl, <- Ea. unfold join_lines at 2. rewrite app_assoc.
    rewrite <- join_snoc_app. rewrite join_app, fmap_app, fmap_cons. do 3 f_equal. unfold slice.
    rewrite <- (take_drop (Z.to_nat x0) (s a)) at 1. rewrite <- app_assoc. f_equal.
    rewrite <- (take_drop (Z.to_nat (x1 - x0)) (drop (Z.to_nat x0) (s a))) at 1. f_equal.
    rewrite drop_drop. f_equal. lia.
  - destruct mid as [|b' mid _] using rev_ind; [change (zlen (@nil tb_line_t)) with 0 in Hm; lia|].
    rewrite app_comm_cons, last_snoc in Hl. injection Hl as <-.
    rewrite zlen_app, zlen_cons in Hm. change (zlen (@nil tb_line_t)) with 0 in Hm.
    assert (Es : sel_lines t x0 y0 x1 y1 = drop (Z.to_nat x0) (s a) :: (s <$> mid) ++ [take (Z.to_nat x1) (s b)]).
    { unfold sel_lines. pose proof (zlen_nonneg mid). rewrite seqZ_cons by lia. rewrite fmap_cons.
      replace (Z.pred (y1 - y0 + 1)) with (zlen mid + 1) by lia.
      rewrite seqZ_app by lia. rewrite fmap_app. f_equal; [|f_equal].
      - rewrite Z.eqb_refl, (proj2 (Z.eqb_neq y0 y1)) by lia. rewrite <- Ea. unfold slice.
        apply take_ge. rewrite length_drop. unfold len, zlen. lia.
      - replace (Z.succ y0) with (zlen (pre ++ [a])) by (rewrite zlen_app, zlen_cons; change (zlen (@nil tb_line_t)) with 0; lia).
        apply (sel_lines_mid t _ mid (pre ++ [a]) ([b] ++ post)); [rewrite E, <- !app_assoc; done|].
        intros y Hy. rewrite zlen_app, zlen_cons in Hy. change (zlen (@nil tb_line_t)) with 0 in Hy.
        rewrite !(proj2 (Z.eqb_neq _ _)) by lia. unfold slice. rewrite Z.sub_0_r. cbn [Z.to_nat]. rewrite drop_0.
        apply take_ge. unfold len, zlen. lia.
      - replace (Z.succ y0 + zlen mid) with y1 by lia. rewrite (seqZ_cons y1), (seqZ_nil (Z.succ y1)) by lia. cbn [fmap list_fmap].
        rewrite Z.eqb_refl, (proj2 (Z.eqb_neq y1 y0)) by lia. rewrite <- Eb. unfold slice.
        rewrite Z.sub_0_r. cbn [Z.to_nat]. by rewrite drop_0. }
    rewrite Es. unfold bef, aft. rewrite app_assoc, join_app, take_drop.
    replace ((s <$> pre) ++ s a :: (s <$> mid) ++ [take (Z.to_nat x1) (s b)])
      with (((s <$> pre) ++ s a :: (s <$> mid)) ++ [take (Z.to_nat x1) (s b)]) by by rewrite <- app_assoc.
    rewrite join_app, take_drop. rewrite !fmap_app, !fmap_cons, !fmap_app, <- !app_assoc. done.
Qed.

(** the text is what is before the selection, the selection and what is
    after it; tb_sel_text copies the middle part, and with memory to spare
    tb_sel_delete takes out exactly that part and leaves the cursor in the gap *)
Theorem sel_cut t x0 y0 x1 y1 : wf t -> heap t = [] -> zlen (text t) < 2 ^ 31 ->
  tb_sel_bounds t = Some (x0, y0, x1, y1) ->
  exists mid, text t = before_at t x0 y0 ++ mid ++ after_at t x1 y1 /\
    (tb_sel_text t).2 = Some mid /\
    let t' := tb_sel_delete t in
    before t' = before_at t x0 y0 /\ after t' = after_at t x1 y1 /\
    text t' = before_at t x0 y0 ++ after_at t x1 y1 /\ tb_sel_bounds t' = None.
Proof.
  intros W Hh Hz Eb. destruct (sel_range t x0 y0 x1 y1 W Eb) as ([Hy0 Hx0] & [Hy1 Hx1] & Ho).
  pose proof (sel_delete_wf t W) as W'. pose proof (text_halves_at _ _ _ (wf_cur _ W')) as Ht'.
  destruct (sel_delete_spec t x0 y0 x1 y1 W Eb) as (pre & a & mid & b & post & a' & E & Hp & Hm & Ea & Ebl & Hl & V & Hcx & Hs & _ & Ha').
  rewrite <- Ea in Hx0. rewrite <- Ebl in Hx1.
  destruct (halves_at t pre a (mid ++ post) x0 y0 E Hp) as [Hb0 _].
  pose proof (sel_lines_spec t x0 y0 x1 y1 pre a mid b post E Hp Hm Ea Ebl Hl Hx0 Hx1 Ho) as Htxt.
  assert (Haf : after_at t x1 y1 = aft b post x1).
  { unfold after_at. rewrite <- Ebl. unfold aft. do 3 f_equal. rewrite E.
    replace (S (Z.to_nat y1)) with (length (pre ++ a :: mid)) by (rewrite length_app; cbn; unfold zlen in *; lia).
    rewrite app_comm_cons, app_assoc. apply drop_app_length. }
  pose proof (bef_bound pre a x0 Hx0). pose proof (aft_bound b post x1 Hx1).
  rewrite Htxt, !zlen_app in Hz. pose proof (zlen_nonneg (join_lines (sel_lines t x0 y0 x1 y1))).
  destruct Ha' as [Ha'|[_ Hbad]]; [|specialize (Hbad Hh); lia].
  destruct (view_halves _ _ _ _ V) as [Hb' Hf']. rewrite Hcx in Hb', Hf'.
  assert (Hz0 : zlen (take (Z.to_nat x0) (s a)) = x0) by (rewrite zlen_take by lia; unfold len in Hx0; lia).
  assert (B' : before (tb_sel_delete t) = before_at t x0 y0).
  { rewrite Hb', Hb0. unfold bef. rewrite Ha', take_mid by (by rewrite Hz0). done. }
  assert (A' : after (tb_sel_delete t) = after_at t x1 y1).
  { rewrite Hf', Haf. unfold aft. rewrite Ha', drop_mid by (by rewrite Hz0). done. }
  exists (join_lines (sel_lines t x0 y0 x1 y1)). rewrite Haf, Hb0.
  split; [exact Htxt|]. split; [unfold tb_sel_text; rewrite Eb, Hh; done|]. cbv zeta.
  fold (before (tb_sel_delete t)) (after (tb_sel_delete t)) in Ht'. rewrite Ht', B', A', Haf, Hb0.
  split_and!; try done. unfold tb_sel_bounds. by rewrite Hs.
Qed.

(** ** Runs *)

Inductive call :=
  | Load (txt : option (list Z)) (len : Z) | Save | SelText
  | Insert (str : list Z) | Backspace | Delete | SelDelete | CutLine
  | Move (dx dy : Z) (select : bool) | Home (select : bool) | End_ (select : bool)
  | Goto (x y : Z) (select : bool) | SelectAll | Find (needle : list Z).

Definition apply_call (t : textbuf_t) (c : call) : textbuf_t :=
  match c with
  | Load txt len => (tb_load_at t txt len).1
  | Save => (tb_text t).1
  | SelText => (tb_sel_text t).1
  | Insert str => tb_insert t str
  | Backspace => tb_backspace t
  | Delete => tb_delete t
  | SelDelete => tb_sel_delete t
  | CutLine => (tb_cut_line t).1
  | Move dx dy select => tb_move t dx dy select
  | Home select => tb_home t select
  | End_ select => tb_end t select
  | Goto x y select => tb_goto t x y select
  | SelectAll => tb_select_all t
  | Find needle => (tb_find t needle).1
  end.

(** a C caller passes at most 2^31 - 1 bytes *)
Definition call_ok (c : call) : Prop := match c with Insert str => zlen str < 2 ^ 31 | _ => True end.

Lemma set_heap_wf t h : wf t -> wf (t <| heap := h |>).
Proof. intros W. apply (wf_cursor t); try done; apply W. Qed.

Lemma apply_call_wf t c : call_ok c -> wf t -> wf (apply_call t c).
Proof.
  intros Hc W. destruct c; cbn [apply_call].
  - destruct (load_cases t txt len) as [[_ [h ->]]|[_ W']]; [by apply set_heap_wf|done].
  - unfold tb_text. destruct (kmalloc _). by apply set_heap_wf.
  - unfold tb_sel_text. destruct (tb_sel_bounds t) as [[[[] ?] ?]|]; [|done]. destruct (kmalloc _). by apply set_heap_wf.
  - by apply insert_wf.
  - by apply backspace_wf.
  - by apply delete_wf.
  - by apply sel_delete_wf.
  - by apply cut_line_wf.
  - by apply move_wf.
  - pose proof (start_sel_wf t select W) as W1. unfold tb_home. apply (wf_cursor (start_sel t select)); try done; [|apply W1].
    split; [apply W1|]. split; [done|apply len_nonneg].
  - pose proof (start_sel_wf t select W) as W1. unfold tb_end. apply see_x_wf.
    apply (wf_cursor (start_sel t select)); try done; [|apply W1]. split; [apply W1|]. split; [apply len_nonneg|done].
  - unfold tb_goto. apply see_x_wf. by apply clamp_wf, start_sel_wf.
  - unfold tb_select_all. pose proof (wf_n t W) as Hn. apply (wf_cursor t); try done.
    + split; [simpl; lia|]. split; [apply len_nonneg|done].
    + intros _. split; [simpl; lia|]. split; [done|apply len_nonneg].
  - by apply find_wf.
Qed.

Lemma init_wf mem : (kmalloc mem).1 = true -> (kmalloc (kmalloc mem).2).1 = true -> wf (tb_init mem).
Proof.
  intros Hm1 Hm2. unfold tb_init, insert_line, lines_reserve. cbn [heap empty n lines cap].
  change (MAX_LINES <? n (empty mem) + 1) with false. change (n (empty mem) + 1 <=? 0) with false.
  cbv beta iota. destruct (kmalloc mem) as [[] m1]; [|done]. cbv beta iota.
  cbn [fst snd] in Hm2. unfold line_reserve. change (0x80000000 <=? 0) with false.
  change (0 + 1 <=? lcap (Line [] 0)) with false. cbv beta iota. cbn [heap set setter].
  destruct (kmalloc m1) as [[] m2]; [|done]. cbn [fst].
  split; try done. apply Forall_singleton. split; [|done]. vm_compute. split; done.
Qed.

Lemma runs_wf t cs : Forall call_ok cs -> wf t -> wf (foldl apply_call t cs).
Proof.
  intros Hcs. revert t. induction Hcs as [|c cs Hc _ IH]; intros t W; [done|].
  cbn. apply IH. by apply apply_call_wf.
Qed.

(** C23: over every run of calls from a text that could be set up, whatever the
    allocations do, there is a line, every line fits its buffer with its NUL
    and stays below 2 GB, the lines fit their array and the limit of 200000,
    and the cursor and the selection are positions of the text *)
Theorem textbuf_runs mem cs : (kmalloc mem).1 = true -> (kmalloc (kmalloc mem).2).1 = true ->
  Forall call_ok cs -> wf (foldl apply_call (tb_init mem) cs).
Proof.
  intros Hm1 Hm2 Hcs. apply runs_wf; [done|]. by apply init_wf.
Qed.

(** ** Backspace *)

(** at the start of a line other than the first, with memory to spare,
    tb_backspace joins the line to the one before it; inside a line it takes
    out the character before the cursor, from its first byte on; nothing else
    of the text changes *)
Theorem backspace_text t : wf t -> heap t = [] -> has_sel t = false -> zlen (text t) < 2 ^ 31 ->
  let t' := tb_backspace t in
  let l := line_at t (cy t) in
  after t' = after t /\
  before t = before t' ++ (if 0 <? cx t then slice (s l) (u8_prev (s l) (cx t)) (cx t)
                           else if 0 <? cy t then [10] else []).
Proof.
  intros W Hh Hns Hz. cbv zeta. unfold tb_backspace. rewrite Hns.
  pose proof (text_halves_at t (cx t) (cy t) (wf_cur t W)) as Ht. fold (before t) (after t) in Ht.
  rewrite Ht, zlen_app in Hz. clear Ht.
  destruct (wf_view t W) as (pre & post & V). set (l := line_at t (cy t)) in *.
  pose proof (view_halves _ _ _ _ V) as [Eb Ea]. pose proof (v_cx _ _ _ _ V) as Hcx.
  pose proof (aft_bound l post (cx t) Hcx) as Hab. rewrite <- Ea in Hab.
  change (line_at (t <| sel := false |>) (cy (t <| sel := false |>))) with l.
  change (cx (t <| sel := false |>)) with (cx t). change (cy (t <| sel := false |>)) with (cy t).
  destruct (0 <? cx t) eqn:E0; zbool.
  - pose proof (u8_prev_bounds (s l) (cx t) E0) as Hpv. set (pv := u8_prev (s l) (cx t)) in *.
    match goal with |- after ?u = _ /\ _ => set (t' := u) end.
    set (l' := l <| s ::= fun b => take (Z.to_nat pv) b ++ drop (Z.to_nat (cx t)) b |>).
    assert (E' : lines t' = pre ++ l' :: post) by (unfold t', set_line; simpl; rewrite (v_lines _ _ _ _ V); apply aset_mid, V).
    destruct (halves_at t' pre l' post pv (cy t) E' (eq_sym (v_cy _ _ _ _ V))) as [Hb' Ha'].
    change (before_at t' pv (cy t)) with (before t') in Hb'. change (after_at t' pv (cy t)) with (after t') in Ha'.
    assert (Hzt : zlen (take (Z.to_nat pv) (s l)) = pv) by (rewrite zlen_take by lia; unfold len in Hcx; lia).
    rewrite Hb', Ha', Eb, Ea. unfold bef, aft, l'. simpl.
    rewrite take_mid, drop_mid by (by rewrite Hzt). split; [done|]. rewrite <- join_snoc_app. do 3 f_equal.
    rewrite <- (take_drop (Z.to_nat pv) (take (Z.to_nat (cx t)) (s l))) at 1. rewrite take_take.
    f_equal; [f_equal; lia|]. unfold slice. rewrite take_drop_commute. do 2 f_equal. lia.
  - assert (Ecx : cx t = 0) by lia. destruct (0 <? cy t) eqn:E1; zbool; [|by rewrite app_nil_r].
    destruct (last_line pre) as (ps & p & -> & _); [rewrite (v_cy _ _ _ _ V) in E1; done|].
    pose proof V as [E Hcy _ Ha]. rewrite zlen_app, zlen_cons in Hcy. change (zlen (@nil tb_line_t)) with 0 in Hcy.
    assert (Ep : line_at (t <| sel := false |>) (cy t - 1) = p).
    { unfold line_at. simpl. rewrite E, <- app_assoc. cbn [app]. apply aget_mid. lia. }
    rewrite Ep. change (heap (t <| sel := false |>)) with (heap t). rewrite Hh.
    assert (Hlp : len p <= zlen (before t)).
    { rewrite Eb. unfold bef. rewrite Ecx. cbn [Z.to_nat]. rewrite take_0, fmap_app, <- app_assoc. cbn [fmap list_fmap].
      rewrite join_snoc2, !zlen_app. pose proof (zlen_join_last (s <$> ps) (s p)). unfold len. change (zlen [10]) with 1.
      change (zlen (@nil Z)) with 0. lia. }
    destruct (line_reserve_ok p (len p + len l)) as [p' Er]; [lia|]. rewrite Er.
    assert (V0 : view (t <| sel := false |>) (ps ++ [p]) l post) by by destruct V.
    pose proof (join_wf _ ps p l post [] p' V0 eq_refl ltac:(simpl; rewrite Hh; by rewrite Er)) as V'. cbv zeta in V'.
    pose proof (view_halves _ _ _ _ V') as [Eb' Ea'].
    split.
    + transitivity (aft (p' <| s := s p ++ s l |>) post (len p)); [exact Ea'|]. rewrite Ea, Ecx. unfold aft.
      change (s (p' <| s := s p ++ s l |>)) with (s p ++ s l). rewrite drop_mid by done. cbn [Z.to_nat]. by rewrite drop_0.
    + transitivity (bef ps (p' <| s := s p ++ s l |>) (len p) ++ [10]); [|f_equal; symmetry; exact Eb'].
      rewrite Eb, Ecx. unfold bef. change (s (p' <| s := s p ++ s l |>)) with (s p ++ s l). rewrite take_mid by done.
      cbn [Z.to_nat]. rewrite take_0, fmap_app, <- app_assoc. cbn [fmap list_fmap]. by rewrite join_snoc2, app_nil_r.
Qed.

(** ** Witnesses *)

(** "ab\ncd" with the cursor between c and d *)
Definition demo : textbuf_t := tb_goto (tb_load (tb_init []) [97; 98; 10; 99; 13; 100]).1 2 1 false.

Lemma demo_wf : wf demo.
Proof.
  unfold demo, tb_goto. apply see_x_wf, clamp_wf, start_sel_wf.
  rewrite load_some. destruct (load_text_cases (tb_init []) [97; 98; 10; 99; 13; 100]) as [[H _]|[_ W]]; [by vm_compute in H|exact W].
Qed.

Lemma textbuf_runs_witness :
  wf (foldl apply_call (tb_init [true; true; true; false])
        [Load None 3; Insert [97; 10; 98]; Move (-1) 0 true; SelDelete; Backspace; Goto 7 7 true; CutLine; Find [97]]).
Proof. apply (textbuf_runs [true; true; true; false]); [reflexivity|reflexivity|]. by repeat constructor. Defined.

Lemma insert_at_cursor_witness :
  let t' := tb_insert demo [120; 13; 10; 121] in
  before t' = before demo ++ filter (fun c => c <> 13) [120; 13; 10; 121] /\ after t' = after demo /\
  text t' = before demo ++ filter (fun c => c <> 13) [120; 13; 10; 121] ++ after demo /\ dirty t' = true.
Proof. apply (insert_at_cursor demo [120; 13; 10; 121]); [exact demo_wf|reflexivity..|vm_compute; discriminate]. Defined.

Definition demo_sel : textbuf_t := tb_move demo 0 (-1) true.

Lemma demo_sel_wf : wf demo_sel.
Proof. apply move_wf, demo_wf. Qed.

Lemma sel_cut_witness : exists mid, text demo_sel = before_at demo_sel 2 0 ++ mid ++ after_at demo_sel 2 1 /\
    (tb_sel_text demo_sel).2 = Some mid /\
    let t' := tb_sel_delete demo_sel in
    before t' = before_at demo_sel 2 0 /\ after t' = after_at demo_sel 2 1 /\
    text t' = before_at demo_sel 2 0 ++ after_at demo_sel 2 1 /\ tb_sel_bounds t' = None.
Proof. apply (sel_cut demo_sel 2 0 2 1); [exact demo_sel_wf|reflexivity..]. Defined.

Lemma backspace_text_witness :
  let t' := tb_backspace demo in
  let l := line_at demo (cy demo) in
  after t' = after demo /\
    before demo = before t' ++ (if 0 <? cx demo then slice (s l) (u8_prev (s l) (cx demo)) (cx demo)
                              else if 0 <? cy demo then [10] else []).
Proof. apply (backspace_text demo); [exact demo_wf|reflexivity..]. Defined.

(** without memory tb_sel_delete still removes the lines after the first, so
    the text after the selection on its last line is lost: here "ab\ncde" (with
    de the 20 bytes after the c) becomes "ab" *)
Lemma sel_delete_loses_text :
  let t := (tb_load (tb_init []) ([97; 98; 10; 99] ++ replicate 20 100)).1 <| sel := true |> <| ax := 1 |> <| ay := 1 |>
             <| cx := 2 |> <| heap := [false] |> in
  text (tb_sel_delete t) = [97; 98] /\ after_at t 1 1 = replicate 20 100.
Proof. split; vm_compute; reflexivity. Qed.
