(* ===== verification/Config.v ===== *)
(** The key=value files in /etc (src/kernel/config.c), against an interface to
    the file system. A string is the list of its characters before the NUL. *)

From S2P Require Import Prelude KString Lit.

(** what config.c asks of the file system: the state of the file at a path
    (fs_find_file, fs_pin and fs_get_file), and writing it *)
Inductive fs_file := Missing | Unreadable | Content (text : list Z).

Class FsOps (F : Type) := {
  fs_file_at : F -> list Z -> fs_file;
  fs_write_path : F -> list Z -> list Z -> F * bool;
}.

(** a write that succeeds is read back, and touches no other file; one that
    fails changes none *)
Class FsLaws (F : Type) `{FsOps F} := {
  fs_write_read : forall f path text, (fs_write_path f path text).2 = true ->
    fs_file_at (fs_write_path f path text).1 path = Content text;
  fs_write_other : forall f path text path', path' <> path ->
    fs_file_at (fs_write_path f path text).1 path' = fs_file_at f path';
  fs_write_failed : forall f path text, (fs_write_path f path text).2 = false ->
    fs_file_at (fs_write_path f path text).1 path = fs_file_at f path;
}.

(** [while (s < e && ( *s == ' ' || *s == '\t')) s++;] *)
Fixpoint skip_blank (fuel : nat) (text : list Z) (s e : Z) : Z :=
  match fuel with
  | O => s
  | S fuel => if (s <? e) && ((aget text s =? 32) || (aget text s =? 9)) then skip_blank fuel text (s + 1) e else s
  end.

(** the line holding [key]: where it starts and ends *)
Fixpoint find_line (fuel : nat) (text key : list Z) (p : Z) : option (Z * Z) :=
  match fuel with
  | O => None
  | S fuel =>
    if zlen text <=? p then None else
    let e := match strchr (drop (Z.to_nat p) text) 10 with Some i => p + i | None => zlen text end in
    let s := skip_blank (length text) text p e in
    if (strlen key <? e - s) && (strncmp (drop (Z.to_nat s) text) key (length key) =? 0) &&
       (aget text (s + strlen key) =? 61)
    then Some (p, e)
    else find_line fuel text key (if e <? zlen text then e + 1 else e)
  end.
Definition find (text key : list Z) : option (Z * Z) := find_line (S (length text)) text key 0.

(** [while (v < end && *v != '\r' && n < cap - 1) out[n++] = *v++;] *)
Fixpoint copy_value (fuel : nat) (text : list Z) (v e n cap : Z) : list Z :=
  match fuel with
  | O => []
  | S fuel => if (v <? e) && negb (aget text v =? 13) && (n <? cap - 1)
              then aget text v :: copy_value fuel text (v + 1) e (n + 1) cap else []
  end.

(** [while (n > 0 && (out[n - 1] == ' ' || out[n - 1] == '\t')) n--;] *)
Fixpoint trim (fuel : nat) (out : list Z) (n : Z) : list Z :=
  match fuel with
  | O => take (Z.to_nat n) out
  | S fuel => if (0 <? n) && ((aget out (n - 1) =? 32) || (aget out (n - 1) =? 9)) then trim fuel out (n - 1)
              else take (Z.to_nat n) out
  end.

Section config.
Context {F : Type} `{FsOps F}.

(** the value of [key], [None] when it is not set *)
Definition cfg_get (f : F) (path key : list Z) (cap : Z) : option (list Z) :=
  if cap <=? 0 then None else
  match fs_file_at f path with
  | Content text =>
    match find text key with
    | None => None
    | Some (p, e) =>
      let v := match strchr (drop (Z.to_nat p) text) 61 with Some i => p + i + 1 | None => 0 end in
      let out := copy_value (length text) text v e 0 cap in
      Some (trim (length out) out (zlen out))
    end
  | _ => None
  end.

(** the new text of the file *)
Definition new_text (old key : list Z) (value header : option (list Z)) : list Z :=
  let opt o := match o with Some s => strlen s | None => 0 end in
  let cap := strlen old + strlen key + opt value + opt header + 8 in
  let cat buf s := (kstrlcat buf s cap).1 in
  let buf := match old, header with [], Some h => cat [] h | _, _ => [] end in
  let line := find old key in
  let buf := match line with
             | Some (p, _) => buf ++ take (Z.to_nat p) old
             | None => let buf := cat buf old in
                       if (0 <? zlen buf) && negb (aget buf (zlen buf - 1) =? 10) then cat buf [10] else buf
             end in
  let buf := match value with
             | Some v => cat (cat (cat (cat buf key) [61]) v) [10]
             | None => buf
             end in
  match line with
  | Some (_, e) => if e <? zlen old then cat buf (drop (Z.to_nat (e + 1)) old) else buf
  | None => buf
  end.

(** [mem]: does kmalloc succeed? The new file system and 0 or -1 *)
Definition cfg_set (f : F) (mem : bool) (path key : list Z) (value header : option (list Z)) : F * Z :=
  let set old :=
    if negb mem then (f, -1) else
    let buf := new_text old key value header in
    if (strlen old =? strlen buf) && (memcmp old buf (length buf) =? 0) then (f, 0)
    else let '(f, ok) := fs_write_path f path buf in (f, if ok : bool then 0 else -1) in
  match fs_file_at f path with
  | Unreadable => (f, -1)
  | Missing => match value with None => (f, 0) | Some _ => set [] end
  | Content old => set old
  end.
End config.
