(* ===== verification/ConfigProps.v ===== *)
(** A setting written is read back, and the others stay (Config.v): the file
    seen as its lines. *)

From S2P Require Import Prelude KString Lit Textbuf Config.

(** ** Lines *)

Definition plain (l : list Z) : Prop := Forall (fun c => c <> 10) l.

Lemma strchr_from_spec l c rest i : Forall (fun x => x <> c) l ->
  strchr_from (l ++ c :: rest) c i = Some (i + zlen l).
Proof.
  revert i. induction l as [|x l IH]; intros i Hl; cbn [app strchr_from].
  - rewrite Z.eqb_refl. f_equal. change (zlen (@nil Z)) with 0. lia.
  - apply Forall_cons in Hl as [Hx Hl]. rewrite (proj2 (Z.eqb_neq x c) Hx), IH, zlen_cons by done. f_equal. lia.
Qed.

Lemma strchr_from_none l c i : c <> 0 -> Forall (fun x => x <> c) l -> strchr_from l c i = None.
Proof.
  intros Hc. revert i. induction l as [|x l IH]; intros i Hl; cbn [strchr_from].
  - by rewrite (proj2 (Z.eqb_neq c 0) Hc).
  - apply Forall_cons in Hl as [Hx Hl]. rewrite (proj2 (Z.eqb_neq x c) Hx). by apply IH.
Qed.

(** a line without the blanks at its start *)
Fixpoint skipb (l : list Z) : list Z :=
  match l with
  | c :: r => if (c =? 32) || (c =? 9) then skipb r else l
  | [] => []
  end.

Lemma skipb_len l : zlen (skipb l) <= zlen l.
Proof.
  induction l as [|c l IH]; [done|]. change (skipb (c :: l)) with (if (c =? 32) || (c =? 9) then skipb l else c :: l).
  rewrite zlen_cons. destruct (_ || _); [lia|]. rewrite zlen_cons. lia.
Qed.

Lemma drop_app_zlen (P T : list Z) n : 0 <= n -> drop (Z.to_nat (zlen P + n)) (P ++ T) = drop (Z.to_nat n) T.
Proof.
  intros Hn. unfold zlen. rewrite drop_app_ge by lia. f_equal. lia.
Qed.

Lemma aget_app_zlen (P T : list Z) n : 0 <= n -> aget (P ++ T) (zlen P + n) = aget T n.
Proof.
  intros Hn. rewrite aget_app by (pose proof (zlen_nonneg P); lia).
  destruct (_ <? _) eqn:E; zbool; [pose proof (zlen_nonneg P); lia|]. f_equal. lia.
Qed.

Lemma skip_blank_spec fuel P l R : (length l <= fuel)%nat ->
  skip_blank fuel (P ++ l ++ R) (zlen P) (zlen P + zlen l) = zlen P + (zlen l - zlen (skipb l)) /\
  drop (Z.to_nat (zlen P + (zlen l - zlen (skipb l)))) (P ++ l ++ R) = skipb l ++ R.
Proof.
  revert P l. induction fuel as [|fuel IH]; intros P l Hf.
  { destruct l; [|cbn in Hf; lia]. cbn. change (zlen (@nil Z)) with 0. rewrite drop_app_zlen by lia. split; [lia|done]. }
  destruct l as [|c l].
  { cbn [skip_blank]. change (zlen (@nil Z)) with 0.
    destruct (_ <? _) eqn:E; zbool; [lia|]. cbn [andb]. cbn [skipb]. change (zlen (@nil Z)) with 0.
    rewrite drop_app_zlen by lia. split; [lia|done]. }
  cbn [skip_blank length] in *. change (skipb (c :: l)) with (if (c =? 32) || (c =? 9) then skipb l else c :: l).
  assert (Hlt : zlen P <? zlen P + zlen (c :: l) = true) by (rewrite zlen_cons; pose proof (zlen_nonneg l); apply Z.ltb_lt; lia).
  assert (Hg : aget (P ++ (c :: l) ++ R) (zlen P) = c).
  { rewrite <- (Z.add_0_r (zlen P)) at 1. by rewrite aget_app_zlen by lia. }
  rewrite Hlt, Hg. cbn [andb]. destruct ((c =? 32) || (c =? 9)).
  - replace (P ++ (c :: l) ++ R) with ((P ++ [c]) ++ l ++ R) by by rewrite <- app_assoc.
    rewrite zlen_cons.
    assert (Hz : zlen (P ++ [c]) = zlen P + 1) by (rewrite zlen_app; done).
    replace (zlen P + (1 + zlen l)) with (zlen (P ++ [c]) + zlen l) by lia. rewrite <- Hz.
    destruct (IH (P ++ [c]) l ltac:(lia)) as [IH1 IH2]. rewrite IH1. split; [lia|].
    replace (zlen P + (1 + zlen l - zlen (skipb l))) with (zlen (P ++ [c]) + (zlen l - zlen (skipb l))) by lia. done.
  - rewrite Z.sub_diag, Z.add_0_r. split; [done|].
    rewrite <- (Z.add_0_r (zlen P)). by rewrite drop_app_zlen by lia.
Qed.

(** does the line set [key]? *)
Definition matches (key l : list Z) : bool :=
  (zlen key <? zlen (skipb l)) && starts key (skipb l) && (aget (skipb l) (zlen key) =? 61).

Lemma strncmp_starts key a : Forall (fun c => c <> 0) key -> (strncmp a key (length key) =? 0) = starts key a.
Proof.
  revert a. induction key as [|x key IH]; intros a Hk; [done|]. apply Forall_cons in Hk as [Hx Hk].
  cbn [length strncmp starts]. unfold first_char. destruct a as [|y a]; cbn [head default tail from_option id].
  - destruct (0 =? x) eqn:E; zbool; [done|]. cbn [negb]. apply Z.eqb_neq. lia.
  - rewrite (Z.eqb_sym x y). destruct (y =? x) eqn:E; zbool; cbn [negb andb].
    + subst y. rewrite (proj2 (Z.eqb_neq x 0) Hx). by apply IH.
    + apply Z.eqb_neq. lia.
Qed.

Lemma starts_app key a R : zlen key <= zlen a -> starts key (a ++ R) = starts key a.
Proof.
  revert a. induction key as [|x key IH]; intros a Hl; [done|]. destruct a as [|y a].
  - rewrite zlen_cons in Hl. change (zlen (@nil Z)) with 0 in Hl. pose proof (zlen_nonneg key). lia.
  - cbn [app starts]. rewrite !zlen_cons in Hl. by rewrite IH by lia.
Qed.

(** the first line of [ls] that sets [key], from offset [o] on *)
Fixpoint find_ref (key : list Z) (ls : list (list Z)) (o : Z) : option (Z * Z) :=
  match ls with
  | [] => None
  | l :: ls => if matches key l then Some (o, o + zlen l) else find_ref key ls (o + zlen l + 1)
  end.

Lemma find_line_ref fuel key ls P : Forall (fun c => c <> 0) key -> Forall plain ls -> (length ls <= fuel)%nat ->
  find_line fuel (P ++ join_lines ls) key (zlen P) = find_ref key ls (zlen P).
Proof.
  intros Hk. revert fuel P. induction ls as [|l ls IH]; intros fuel P Hp Hf.
  { destruct fuel; [done|]. cbn [find_line join_lines find_ref]. rewrite app_nil_r, Z.leb_refl. done. }
  destruct fuel as [|fuel]; [cbn in Hf; lia|]. cbn [length] in Hf. apply Forall_cons in Hp as [Hl Hp].
  set (R := match ls with [] => [] | _ => 10 :: join_lines ls end).
  assert (Ej : join_lines (l :: ls) = l ++ R) by (destruct ls; [by rewrite app_nil_r|done]).
  rewrite Ej. cbn [find_line find_ref]. rewrite !zlen_app. pose proof (zlen_nonneg l). pose proof (zlen_nonneg R).
  assert (Ee : match strchr (drop (Z.to_nat (zlen P)) (P ++ l ++ R)) 10 with
               | Some i => zlen P + i | None => zlen P + (zlen l + zlen R) end = zlen P + zlen l).
  { rewrite <- (Z.add_0_r (zlen P)) at 1. rewrite drop_app_zlen by lia. cbn [Z.to_nat]. rewrite drop_0.
    unfold strchr. change (u8 10) with 10. unfold R. destruct ls.
    - rewrite app_nil_r, strchr_from_none by (try done; lia). change (zlen (@nil Z)) with 0. lia.
    - rewrite strchr_from_spec by done. lia. }
  rewrite Ee. clear Ee.
  destruct (skip_blank_spec (length (P ++ l ++ R)) P l R) as [E1 E2]; [rewrite !length_app; lia|].
  rewrite E1, E2. clear E1.
  destruct (zlen P + (zlen l + zlen R) <=? zlen P) eqn:Eend; zbool.
  { assert (El : l = []) by (destruct l; [done|rewrite zlen_cons in *; pose proof (zlen_nonneg l); lia]).
    assert (Els : ls = []).
    { destruct ls as [|x ls]; [done|]. unfold R in *. rewrite zlen_cons in *. pose proof (zlen_nonneg (join_lines (x :: ls))). lia. }
    subst. unfold matches. cbn. pose proof (zlen_nonneg key). destruct (_ <? _) eqn:Ek; zbool; [|done].
    change (zlen (@nil Z)) with 0 in Ek. lia. }
  assert (Em : ((strlen key <? zlen P + zlen l - (zlen P + (zlen l - zlen (skipb l)))) &&
     (strncmp (skipb l ++ R) key (length key) =? 0) &&
     (aget (P ++ l ++ R) (zlen P + (zlen l - zlen (skipb l)) + strlen key) =? 61)) = matches key l).
  { unfold matches, strlen. replace (zlen P + zlen l - (zlen P + (zlen l - zlen (skipb l)))) with (zlen (skipb l)) by lia.
    destruct (zlen key <? zlen (skipb l)) eqn:Ek; zbool; [|done]. cbn [andb].
    rewrite strncmp_starts, starts_app by (try done; lia). f_equal. f_equal.
    pose proof (zlen_nonneg key). pose proof (skipb_len l). pose proof (zlen_nonneg P).
    transitivity (aget (skipb l ++ R) (zlen key)).
    - rewrite <- E2. rewrite aget_drop by lia. f_equal.
    - rewrite aget_app by lia. by rewrite (proj2 (Z.ltb_lt _ _) Ek). }
  rewrite Em. destruct (matches key l); [done|]. destruct ls as [|l2 ls].
  - unfold R. change (zlen (@nil Z)) with 0. rewrite Z.add_0_r, Z.ltb_irrefl, app_nil_r, <- zlen_app.
    cbn [find_ref]. destruct fuel; [done|]. cbn [find_line]. by rewrite Z.leb_refl.
  - unfold R in *. rewrite zlen_cons. pose proof (zlen_nonneg (join_lines (l2 :: ls))).
    destruct (zlen P + zlen l <? _) eqn:Elt; zbool; [|lia].
    replace (P ++ l ++ 10 :: join_lines (l2 :: ls)) with ((P ++ l ++ [10]) ++ join_lines (l2 :: ls)) by (by rewrite <- !app_assoc).
    assert (Hz : zlen P + zlen l + 1 = zlen (P ++ l ++ [10])) by (rewrite !zlen_app; change (zlen [10]) with 1; lia).
    rewrite Hz. apply IH; [done|lia].
Qed.

(** ** What a file says *)

Lemma cfg_lines_ne txt cur : cut_lines txt cur <> [].
Proof. revert cur. induction txt as [|c txt IH]; intros cur; cbn [cut_lines]; [done|]. by case_bool. Qed.

Lemma join_cons_ne x ls : ls <> [] -> join_lines (x :: ls) = x ++ 10 :: join_lines ls.
Proof. by destruct ls. Qed.

Lemma cut_join txt cur : join_lines (cut_lines txt cur) = cur ++ txt.
Proof.
  revert cur. induction txt as [|c txt IH]; intros cur; cbn [cut_lines]; [by rewrite app_nil_r|].
  destruct (c =? 10) eqn:E; zbool.
  - subst c. pose proof (IH []) as IH'. cbn [app] in IH'.
    rewrite join_cons_ne, IH'; [done|]. apply cfg_lines_ne.
  - rewrite IH. by rewrite <- app_assoc.
Qed.

Lemma cut_plain txt cur : plain cur -> Forall plain (cut_lines txt cur).
Proof.
  revert cur. induction txt as [|c txt IH]; intros cur Hc; cbn [cut_lines]; [by apply Forall_singleton|].
  destruct (c =? 10) eqn:E; zbool.
  - apply Forall_cons. split; [done|]. apply IH. constructor.
  - apply IH. apply Forall_app. split; [done|]. by apply Forall_singleton.
Qed.

(** complete lines, each with its \n *)
Definition unl (a : list (list Z)) : list Z := concat ((fun l => l ++ [10]) <$> a).

Lemma unl_snoc a l : unl (a ++ [l]) = unl a ++ l ++ [10].
Proof. unfold unl. rewrite fmap_app, concat_app. cbn. by rewrite app_nil_r. Qed.

Lemma join_unl a l b : join_lines (a ++ l :: b) = unl a ++ join_lines (l :: b).
Proof.
  induction a as [|x a IH]; [done|].
  cbn [app]. rewrite join_cons_ne, IH by by destruct a. unfold unl. cbn. by rewrite <- !app_assoc.
Qed.

(** the text after the first = of a line, as a value *)
Definition line_value (l : list Z) (cap : Z) : list Z :=
  let v := match strchr l 61 with Some i => i + 1 | None => 0 end in
  let out := copy_value (length l) l v (zlen l) 0 cap in
  trim (length out) out (zlen out).

Fixpoint get_ref (key : list Z) (ls : list (list Z)) (cap : Z) : option (list Z) :=
  match ls with
  | [] => None
  | l :: ls => if matches key l then Some (line_value l cap) else get_ref key ls cap
  end.

Lemma get_ref_app key a b cap : Forall (fun l => matches key l = false) a -> get_ref key (a ++ b) cap = get_ref key b cap.
Proof. induction 1 as [|l a Hl _ IH]; cbn; [done|]. by rewrite Hl. Qed.

Lemma find_ref_cases key ls o :
  match find_ref key ls o with
  | Some (p, e) => exists a l b, ls = a ++ l :: b /\ matches key l = true /\
      Forall (fun l => matches key l = false) a /\ p = o + zlen (unl a) /\ e = p + zlen l
  | None => Forall (fun l => matches key l = false) ls
  end.
Proof.
  revert o. induction ls as [|l ls IH]; intros o; cbn [find_ref]; [done|].
  destruct (matches key l) eqn:E.
  - exists [], l, ls. split_and!; try done. change (unl []) with (@nil Z). change (zlen (@nil Z)) with 0. lia.
  - specialize (IH (o + zlen l + 1)). destruct (find_ref key ls _) as [[p e]|].
    + destruct IH as (a & l' & b & -> & Hm & Ha & -> & ->). exists (l :: a), l', b. split_and!; try done.
      * by apply Forall_cons.
      * unfold unl. cbn. rewrite !zlen_app. change (zlen [10]) with 1. lia.
    + by apply Forall_cons.
Qed.

Lemma starts_split key a : starts key a = true -> exists r, a = key ++ r.
Proof.
  revert a. induction key as [|x key IH]; intros a Hs; [by exists a|]. destruct a as [|y a]; [done|].
  cbn in Hs. apply andb_true_iff in Hs as [Hx Hs]. apply Z.eqb_eq in Hx as ->. destruct (IH a Hs) as [r ->]. by exists r.
Qed.

Lemma skipb_suffix l : exists ws, l = ws ++ skipb l /\ Forall (fun c => c = 32 \/ c = 9) ws.
Proof.
  induction l as [|c l (ws & E & Hw)]; [by exists []|].
  change (skipb (c :: l)) with (if (c =? 32) || (c =? 9) then skipb l else c :: l).
  destruct ((c =? 32) || (c =? 9)) eqn:Ec; [|by exists []].
  exists (c :: ws). split; [cbn; by f_equal|]. apply Forall_cons. split; [|done]. zbool. destruct Ec; zbool; auto.
Qed.

(** a line that sets [key]: blanks, the key and = *)
Lemma matches_split key l : matches key l = true ->
  exists ws v, l = ws ++ key ++ 61 :: v /\ Forall (fun c => c = 32 \/ c = 9) ws /\ skipb l = key ++ 61 :: v.
Proof.
  unfold matches. intros H. apply andb_true_iff in H as [H H3]. apply andb_true_iff in H as [H1 H2].
  destruct (starts_split _ _ H2) as [r Er]. rewrite Er in H1, H3. zbool. rewrite zlen_app in H1.
  rewrite aget_app, Z.ltb_irrefl, Z.sub_diag in H3 by apply zlen_nonneg.
  destruct r as [|d v]; [change (zlen (@nil Z)) with 0 in H1; lia|]. assert (d = 61) as -> by exact H3.
  destruct (skipb_suffix l) as (ws & El & Hw). exists ws, v. rewrite El at 1. by rewrite Er.
Qed.

(** what a key may be *)
Definition good_key (key : list Z) : Prop :=
  Forall (fun c => c <> 0 /\ c <> 10 /\ c <> 61) key /\
  match key with c :: _ => c <> 32 /\ c <> 9 | [] => True end.

Lemma key_unique key key' v v' : Forall (fun c => c <> 61) key -> Forall (fun c => c <> 61) key' ->
  key ++ 61 :: v = key' ++ 61 :: v' -> key = key'.
Proof.
  revert key'. induction key as [|x key IH]; intros [|y key'] Hk Hk' E; [done|..]; cbn in E.
  - injection E as <- _. by apply Forall_cons in Hk' as [? _].
  - injection E as -> _. by apply Forall_cons in Hk as [? _].
  - injection E as -> E. f_equal. apply Forall_cons in Hk as [_ ?], Hk' as [_ ?]. by apply (IH key').
Qed.

Lemma good_key_no61 key : good_key key -> Forall (fun c => c <> 61) key.
Proof. intros [H _]. eapply Forall_impl; [exact H|]. by intros c (_ & _ & ?). Qed.

Lemma good_key_no0 key : good_key key -> Forall (fun c => c <> 0) key.
Proof. intros [H _]. eapply Forall_impl; [exact H|]. by intros c (? & _). Qed.

(** a line sets one key at most *)
Lemma matches_other key key' l : good_key key -> good_key key' -> key' <> key -> matches key l = true -> matches key' l = false.
Proof.
  intros Hk Hk' Hne Hm. destruct (matches key' l) eqn:E; [|done].
  destruct (matches_split _ _ Hm) as (_ & v & _ & _ & E1). destruct (matches_split _ _ E) as (_ & v' & _ & _ & E2).
  rewrite E1 in E2. exfalso. apply Hne. symmetry. by eapply key_unique; [..|exact E2]; apply good_key_no61.
Qed.

Lemma matches_kv key v : good_key key -> matches key (key ++ 61 :: v) = true.
Proof.
  intros [_ Hk]. assert (Es : skipb (key ++ 61 :: v) = key ++ 61 :: v).
  { destruct key as [|c key]; [done|]. cbn. destruct Hk as [H1 H2].
    by rewrite (proj2 (Z.eqb_neq c 32) H1), (proj2 (Z.eqb_neq c 9) H2). }
  unfold matches. rewrite Es, zlen_app, zlen_cons. pose proof (zlen_nonneg v).
  rewrite aget_app, Z.ltb_irrefl, Z.sub_diag by apply zlen_nonneg. rewrite !andb_true_iff. split; [split|].
  - apply Z.ltb_lt. lia.
  - clear. induction key as [|x key IH]; [done|]. cbn. by rewrite Z.eqb_refl.
  - done.
Qed.

(** ** Reading *)

Lemma copy_value_spec fuel P l R i n cap : 0 <= i -> zlen l - i <= Z.of_nat fuel ->
  copy_value fuel (P ++ l ++ R) (zlen P + i) (zlen P + zlen l) n cap =
  copy_value (length l) l i (zlen l) n cap.
Proof.
  assert (Hfuel : forall f1 f2 j m, 0 <= j -> zlen l - j <= Z.of_nat f1 -> zlen l - j <= Z.of_nat f2 ->
            copy_value f1 (P ++ l ++ R) (zlen P + j) (zlen P + zlen l) m cap = copy_value f2 l j (zlen l) m cap).
  { induction f1 as [|f1 IH]; intros f2 j m Hj H1 H2; cbn [copy_value].
    - destruct f2 as [|f2]; [done|]. cbn [copy_value]. destruct (j <? zlen l) eqn:E; zbool; [lia|done].
    - destruct (j <? zlen l) eqn:E; zbool.
      + destruct f2 as [|f2]; [lia|]. cbn [copy_value]. rewrite (proj2 (Z.ltb_lt j (zlen l)) E).
        destruct (zlen P + j <? zlen P + zlen l) eqn:E2; zbool; [|lia]. cbn [andb].
        assert (Hg : aget (P ++ l ++ R) (zlen P + j) = aget l j).
        { rewrite aget_app_zlen, aget_app by lia. by rewrite (proj2 (Z.ltb_lt j (zlen l)) E). }
        rewrite Hg. destruct (_ && _); [|done]. f_equal. rewrite <- Z.add_assoc. apply IH; lia.
      + destruct (zlen P + j <? zlen P + zlen l) eqn:E2; zbool; [lia|]. cbn [andb].
        destruct f2 as [|f2]; [done|]. cbn [copy_value]. destruct (j <? zlen l) eqn:E3; zbool; [lia|done]. }
  intros Hi Hf. apply Hfuel; [done|done|unfold zlen; lia].
Qed.

(** the first = of a text that starts with a line that has one *)
Lemma strchr_line l R : 61 ∈ l -> strchr (l ++ R) 61 = strchr l 61 /\
  exists i, strchr l 61 = Some i /\ 0 <= i < zlen l.
Proof.
  intros Hin. assert (Hs : exists m v, l = m ++ 61 :: v /\ Forall (fun c => c <> 61) m).
  { induction l as [|c l IH]; [by apply elem_of_nil in Hin|]. destruct (decide (c = 61)) as [->|Hne].
    - by exists [], l.
    - apply elem_of_cons in Hin as [?|Hin]; [done|]. destruct (IH Hin) as (m & v & -> & Hm).
      exists (c :: m), v. split; [done|]. by apply Forall_cons. }
  destruct Hs as (m & v & -> & Hm). unfold strchr. change (u8 61) with 61.
  rewrite <- app_assoc. cbn [app]. rewrite !strchr_from_spec by done. split; [done|].
  exists (0 + zlen m). split; [done|]. rewrite zlen_app, zlen_cons. pose proof (zlen_nonneg v). pose proof (zlen_nonneg m). lia.
Qed.

(** what cfg_get reads from the content of the file *)
Definition get_text (text key : list Z) (cap : Z) : option (list Z) :=
  match find text key with
  | None => None
  | Some (p, e) =>
    let v := match strchr (drop (Z.to_nat p) text) 61 with Some i => p + i + 1 | None => 0 end in
    let out := copy_value (length text) text v e 0 cap in
    Some (trim (length out) out (zlen out))
  end.

Lemma length_join ls : ls <> [] -> (length ls <= S (length (join_lines ls)))%nat.
Proof.
  induction ls as [|l ls IH]; [done|]. intros _. destruct ls as [|l2 ls]; [cbn; lia|].
  specialize (IH ltac:(done)). rewrite join_cons_ne by done. rewrite length_app. cbn [length] in *. lia.
Qed.

Lemma find_lines ls key : ls <> [] -> good_key key -> Forall plain ls -> find (join_lines ls) key = find_ref key ls 0.
Proof.
  intros Hne Hk Hp. unfold find.
  apply (find_line_ref (S (length (join_lines ls))) key ls []); [by apply good_key_no0|done|by apply length_join].
Qed.

Lemma get_text_ref ls key cap : ls <> [] -> good_key key -> Forall plain ls ->
  get_text (join_lines ls) key cap = get_ref key ls cap.
Proof.
  intros Hne Hk Hp. unfold get_text. rewrite find_lines by done.
  pose proof (find_ref_cases key ls 0) as Hc. destruct (find_ref key ls 0) as [[p e]|].
  2: { rewrite <- (app_nil_r ls). by rewrite get_ref_app. }
  destruct Hc as (a & l & b & -> & Hm & Ha & -> & ->). rewrite get_ref_app by done. cbn [get_ref]. rewrite Hm. f_equal.
  rewrite join_unl. set (R := match b with [] => [] | _ => 10 :: join_lines b end).
  assert (Ej : join_lines (l :: b) = l ++ R) by (destruct b; [by rewrite app_nil_r|done]). rewrite Ej. rewrite !Z.add_0_l.
  destruct (matches_split _ _ Hm) as (ws & v & El & _).
  assert (Hin : 61 ∈ l) by (rewrite El; rewrite !elem_of_app, elem_of_cons; tauto).
  destruct (strchr_line l R Hin) as (Ec & i & Hi & Hib).
  assert (Hd : drop (Z.to_nat (zlen (unl a))) (unl a ++ l ++ R) = l ++ R)
    by (unfold zlen; rewrite Nat2Z.id; apply drop_app_length). rewrite Hd.
  unfold line_value. rewrite Ec, Hi. cbv beta iota zeta. rewrite <- Z.add_assoc.
  rewrite copy_value_spec by (unfold zlen in *; rewrite ?length_app; lia). done.
Qed.

(** ** Writing *)

Lemma kstrlcat_fits dst src n : zlen dst + zlen src < n -> (kstrlcat dst src n).1 = dst ++ src.
Proof.
  intros Hn. pose proof (zlen_nonneg dst). pose proof (zlen_nonneg src). unfold kstrlcat, strlen.
  rewrite (proj2 (Z.ltb_lt (zlen dst) n)) by lia. destruct (zlen dst =? n) eqn:E; zbool; [lia|].
  unfold kstrlcpy, strlen. destruct (n - zlen dst =? 0) eqn:E2; zbool; [lia|].
  destruct (n - zlen dst <=? zlen src) eqn:E3; zbool; [lia|]. cbn [default from_option fst id]. f_equal.
  unfold zlen. rewrite Nat2Z.id. apply take_ge. lia.
Qed.

(** what the file says before: its text, or the header of a new one *)
Definition base_text (old : list Z) (header : option (list Z)) : list Z :=
  match old, header with [], Some h => h | _, _ => old end.

Definition kv (key v : list Z) : list Z := key ++ 61 :: v.

Lemma matches_nil key : matches key [] = false.
Proof.
  unfold matches. cbn. pose proof (zlen_nonneg key). change (zlen (@nil Z)) with 0.
  destruct (zlen key <? 0) eqn:E; zbool; [lia|done].
Qed.

Lemma get_ref_app_cases key a b cap :
  get_ref key (a ++ b) cap = match get_ref key a cap with Some v => Some v | None => get_ref key b cap end.
Proof. induction a as [|l a IH]; cbn; [done|]. by destruct (matches key l). Qed.

(** a text as complete lines, with the \n its last one may lack *)
Lemma complete_lines base : exists cs,
  (if (0 <? zlen base) && negb (aget base (zlen base - 1) =? 10) then base ++ [10] else base) = unl cs /\
  Forall plain cs /\ forall k cap, good_key k -> get_ref k cs cap = get_text base k cap /\
    (find base k = None -> Forall (fun l => matches k l = false) cs).
Proof.
  pose proof (cut_join base []) as E. cbn [app] in E. pose proof (cut_plain base [] ltac:(constructor)) as Hp.
  pose proof (cfg_lines_ne base []) as Hne. remember (cut_lines base []) as ls eqn:Els. clear Els.
  assert (Hg : forall k, good_key k -> find base k = None -> Forall (fun l => matches k l = false) ls).
  { intros k Hk Hf. rewrite <- E, find_lines in Hf by done. pose proof (find_ref_cases k ls 0) as Hc. by rewrite Hf in Hc. }
  assert (Ht : forall k cap, good_key k -> get_text base k cap = get_ref k ls cap) by (intros; rewrite <- E; by apply get_text_ref).
  destruct ls as [|x xs _] using rev_ind; [done|]. rewrite join_unl in E. cbn [join_lines] in E.
  apply Forall_app in Hp as [Hxs Hx]. apply Forall_cons in Hx as [Hx _].
  destruct x as [|c x' _] using rev_ind.
  - rewrite app_nil_r in E. exists xs. split.
    + rewrite E. destruct xs as [|y ys _] using rev_ind; [by rewrite <- E|].
      rewrite unl_snoc, app_assoc in E. rewrite <- E.
      rewrite zlen_app. change (zlen [10]) with 1. rewrite Z.add_simpl_r.
      rewrite aget_app by apply zlen_nonneg. rewrite Z.ltb_irrefl, Z.sub_diag. cbn. by rewrite andb_false_r.
    + split; [done|]. intros k cap Hk. rewrite Ht, get_ref_app_cases by done. cbn [get_ref]. rewrite matches_nil. split.
      * by destruct (get_ref k xs cap).
      * intros Hf. specialize (Hg k Hk Hf). by apply Forall_app in Hg as [? _].
  - exists (xs ++ [x' ++ [c]]). split.
    + assert (Hc : c <> 10) by (apply Forall_app in Hx as [_ Hx]; by apply Forall_cons in Hx as [? _]).
      rewrite unl_snoc, <- E, <- !app_assoc. rewrite !app_assoc.
      rewrite (zlen_app _ [c]). change (zlen [c]) with 1. rewrite Z.add_simpl_r.
      rewrite aget_app by apply zlen_nonneg. rewrite Z.ltb_irrefl, Z.sub_diag.
      pose proof (zlen_nonneg (unl xs ++ x')). destruct (0 <? _) eqn:E0; zbool; [|lia].
      change (aget [c] 0) with c. by rewrite (proj2 (Z.eqb_neq c 10) Hc).
    + split; [apply Forall_app; split; [done|by apply Forall_singleton]|]. intros k cap Hk. rewrite Ht by done. split; [done|].
      by apply Hg.
Qed.

(** the lines of the new text: a line of [key] replaced or left out, or one
    added at the end; the other keys see the same *)
Lemma new_text_lines old key value header : good_key key -> (forall v, value = Some v -> plain v) ->
  (old = [] -> find (base_text old header) key = None) ->
  exists a b, b <> [] /\ Forall plain (a ++ b) /\ Forall (fun l => matches key l = false) a /\
    new_text old key value header = join_lines (a ++ (match value with Some v => [kv key v] | None => [] end) ++ b) /\
    forall k cap, good_key k -> k <> key -> get_ref k (a ++ b) cap = get_text (base_text old header) k cap.
Proof.
  intros Hk Hv Hh. unfold new_text. cbv zeta.
  set (n := strlen old + strlen key + _ + _ + 8).
  assert (Hn : zlen old + zlen key + match value with Some v => zlen v | None => 0 end +
            match header with Some h => zlen h | None => 0 end + 8 = n) by done. clearbody n.
  pose proof (zlen_nonneg old). pose proof (zlen_nonneg key).
  set (kvs := match value with Some v => [kv key v] | None => [] end).
  assert (Hkv : forall buf, zlen buf <= zlen old + match header with Some h => zlen h | None => 0 end + 1 ->
    match value with
    | Some v => (kstrlcat (kstrlcat (kstrlcat (kstrlcat buf key n).1 [61] n).1 v n).1 [10] n).1
    | None => buf end = buf ++ unl kvs).
  { intros buf Hb. destruct value as [v|]; [|by rewrite app_nil_r]. pose proof (zlen_nonneg v).
    assert (Hhd : 0 <= match header with Some h => zlen h | None => 0 end) by (destruct header; [apply zlen_nonneg|lia]).
    rewrite (kstrlcat_fits buf), (kstrlcat_fits (buf ++ key)), (kstrlcat_fits ((buf ++ key) ++ [61])),
      (kstrlcat_fits (((buf ++ key) ++ [61]) ++ v)) by
      (rewrite ?zlen_app; change (zlen [61]) with 1; change (zlen [10]) with 1; lia).
    unfold kvs, unl, kv. cbn. rewrite app_nil_r, <- !app_assoc. done. }
  destruct (find old key) as [[p e]|] eqn:Ef.
  - pose proof (cut_join old []) as E. cbn [app] in E. pose proof (cut_plain old [] ltac:(constructor)) as Hp.
    pose proof (cfg_lines_ne old []) as Hne. remember (cut_lines old []) as ls eqn:Els. clear Els.
    assert (Hold : old <> []) by (intros ->; cbn in Ef; done).
    assert (Eb : base_text old header = old) by by destruct old. rewrite Eb.
    assert (Ebuf : match old, header with [], Some h => (kstrlcat [] h n).1 | _, _ => [] end = []) by by destruct old.
    rewrite Ebuf. cbn [app]. clear Ebuf.
    assert (Ht : forall k cap, good_key k -> get_text old k cap = get_ref k ls cap) by (intros; rewrite <- E; by apply get_text_ref).
    rewrite <- E, find_lines in Ef by done. pose proof (find_ref_cases key ls 0) as Hc. rewrite Ef in Hc.
    destruct Hc as (a & l & b & -> & Hm & Ha & -> & ->). rewrite Z.add_0_l.
    exists a, (match b with [] => [[]] | _ => b end).
    apply Forall_app in Hp as [Hpa Hp]. apply Forall_cons in Hp as [Hpl Hpb].
    assert (Hoth : forall k cap, good_key k -> k <> key ->
              get_ref k (a ++ match b with [] => [[]] | _ => b end) cap = get_text old k cap).
    { intros k cap Hgk Hne'. rewrite Ht by done. rewrite !get_ref_app_cases. destruct (get_ref k a cap); [done|].
      cbn [get_ref]. rewrite (matches_other key k l) by done. destruct b; [|done]. cbn. by rewrite matches_nil. }
    split_and!; [by destruct b| |done| |exact Hoth].
    { apply Forall_app. split; [done|]. destruct b; [by repeat constructor|done]. }
    rewrite join_unl in E. set (R := match b with [] => [] | _ => 10 :: join_lines b end).
    assert (Ej : join_lines (l :: b) = l ++ R) by (destruct b; [by rewrite app_nil_r|done]). rewrite Ej in E.
    rewrite <- E. assert (Etk : take (Z.to_nat (zlen (unl a))) (unl a ++ l ++ R) = unl a)
      by (unfold zlen; rewrite Nat2Z.id; apply take_app_length). rewrite Etk.
    rewrite Hkv.
    2: { rewrite <- E, !zlen_app. pose proof (zlen_nonneg l). pose proof (zlen_nonneg R).
         destruct header as [h|]; [pose proof (zlen_nonneg h)|]; lia. }
    assert (Ekv : forall c, unl a ++ unl kvs ++ join_lines c = join_lines (a ++ kvs ++ c) \/ c = []).
    { intros [|c0 c]; [by right|left]. rewrite !app_assoc. rewrite (join_unl (a ++ kvs)).
      unfold unl. by rewrite fmap_app, concat_app. }
    destruct b as [|b0 b].
    + unfold R. rewrite app_nil_r, zlen_app, Z.ltb_irrefl. destruct (Ekv [[]]) as [Ek|]; [|done].
      rewrite <- Ek. cbn [join_lines]. by rewrite app_nil_r.
    + assert (Elt : zlen (unl a) + zlen l <? zlen (unl a ++ l ++ R) = true).
      { apply Z.ltb_lt. unfold R. rewrite !zlen_app, zlen_cons. pose proof (zlen_nonneg (join_lines (b0 :: b))). lia. }
      rewrite Elt. assert (Edr : drop (Z.to_nat (zlen (unl a) + zlen l + 1)) (unl a ++ l ++ R) = join_lines (b0 :: b)).
      { unfold R. replace (unl a ++ l ++ 10 :: join_lines (b0 :: b)) with ((unl a ++ l ++ [10]) ++ join_lines (b0 :: b)) by by rewrite <- !app_assoc.
        replace (zlen (unl a) + zlen l + 1) with (zlen (unl a ++ l ++ [10])) by (rewrite !zlen_app; change (zlen [10]) with 1; lia).
        unfold zlen. rewrite Nat2Z.id. apply drop_app_length. }
      rewrite Edr. rewrite kstrlcat_fits.
      * destruct (Ekv (b0 :: b)) as [Ek|]; [|done]. rewrite <- Ek. by rewrite <- app_assoc.
      * rewrite <- E in Hn. unfold R in Hn. rewrite !zlen_app, zlen_cons in Hn. rewrite !zlen_app.
        pose proof (zlen_nonneg l).
        assert (Hku : zlen (unl kvs) <= zlen key + match value with Some v => zlen v | None => 0 end + 2).
        { unfold kvs, unl, kv. destruct value as [v|]; [|change (zlen (concat _)) with 0; lia]. cbn.
          rewrite app_nil_r, !zlen_app, zlen_cons. change (zlen [10]) with 1. lia. }
        destruct header as [h|]; [pose proof (zlen_nonneg h)|]; lia.
  - assert (Ebase : (let buf := (kstrlcat (match old, header with [], Some h => (kstrlcat [] h n).1 | _, _ => [] end) old n).1 in
        if (0 <? zlen buf) && negb (aget buf (zlen buf - 1) =? 10) then (kstrlcat buf [10] n).1 else buf) =
        (if (0 <? zlen (base_text old header)) && negb (aget (base_text old header) (zlen (base_text old header) - 1) =? 10)
         then base_text old header ++ [10] else base_text old header) /\
        zlen (base_text old header) <= zlen old + match header with Some h => zlen h | None => 0 end).
    { assert (Hvn : 0 <= match value with Some v => zlen v | None => 0 end) by (destruct value as [v|]; [apply zlen_nonneg|lia]).
      assert (Eb : (kstrlcat (match old, header with [], Some h => (kstrlcat [] h n).1 | _, _ => [] end) old n).1 = base_text old header).
      { destruct old as [|c old]; [|by apply kstrlcat_fits; change (zlen (@nil Z)) with 0; destruct header as [h|];
          [pose proof (zlen_nonneg h)|]; lia].
        destruct header as [h|]; cbn [base_text]; [|by rewrite kstrlcat_fits by (change (zlen (@nil Z)) with 0 in *; lia)].
        change (zlen (@nil Z)) with 0 in *. pose proof (zlen_nonneg h).
        rewrite (kstrlcat_fits [] h) by (change (zlen (@nil Z)) with 0; lia). cbn [app].
        rewrite (kstrlcat_fits h []) by (change (zlen (@nil Z)) with 0; lia). apply app_nil_r. }
      assert (Hz : zlen (base_text old header) <= zlen old + match header with Some h => zlen h | None => 0 end).
      { destruct old as [|c old]; cbn [base_text]; [|destruct header as [h|]; [pose proof (zlen_nonneg h)|]; lia].
        change (zlen (@nil Z)) with 0. destruct header; [lia|done]. }
      cbv zeta. rewrite Eb. split; [|done]. destruct (_ && _); [|done]. apply kstrlcat_fits. change (zlen [10]) with 1. lia. }
    destruct Ebase as [Ebase Hz]. cbv zeta in Ebase. rewrite Ebase. clear Ebase.
    destruct (complete_lines (base_text old header)) as (cs & Ecs & Hpc & Hcs). rewrite Ecs.
    assert (Hzc : zlen (unl cs) <= zlen (base_text old header) + 1).
    { rewrite <- Ecs. case_bool; [rewrite zlen_app; change (zlen [10]) with 1|]; lia. }
    rewrite Hkv by lia. exists cs, [[]]. split_and!; [done| | | |].
    + apply Forall_app. split; [done|by repeat constructor].
    + destruct (Hcs key 0 Hk) as [_ Hno]. apply Hno. destruct old as [|c old]; [by apply Hh|]. by cbn [base_text].
    + rewrite app_assoc, join_unl. cbn [join_lines]. rewrite app_nil_r. unfold unl. by rewrite fmap_app, concat_app.
    + intros k cap Hgk _. destruct (Hcs k cap Hgk) as [<- _]. rewrite get_ref_app_cases. cbn [get_ref]. rewrite matches_nil.
      by destruct (get_ref k cs cap).
Qed.

(** ** The property *)

Lemma copy_value_all v P i n cap : Forall (fun c => c <> 13) v -> n + zlen v < cap ->
  i = zlen P -> forall fuel, (length v <= fuel)%nat -> copy_value fuel (P ++ v) i (zlen P + zlen v) n cap = v.
Proof.
  intros Hv. revert P i n. induction Hv as [|c v Hc Hv IH]; intros P i n Hn -> fuel Hf.
  { change (zlen (@nil Z)) with 0. rewrite Z.add_0_r. destruct fuel; cbn [copy_value]; [done|]. by rewrite Z.ltb_irrefl. }
  destruct fuel as [|fuel]; [cbn in Hf; lia|]. cbn [copy_value length] in *. rewrite zlen_cons in *. pose proof (zlen_nonneg v).
  destruct (zlen P <? _) eqn:E1; zbool; [|lia].
  assert (Hg : aget (P ++ c :: v) (zlen P) = c).
  { rewrite <- (Z.add_0_r (zlen P)) at 1. by rewrite aget_app_zlen by lia. }
  rewrite Hg, (proj2 (Z.eqb_neq c 13) Hc). cbn [negb andb]. destruct (n <? cap - 1) eqn:E2; zbool; [|lia]. f_equal.
  replace (P ++ c :: v) with ((P ++ [c]) ++ v) by by rewrite <- app_assoc.
  assert (Hz : zlen (P ++ [c]) = zlen P + 1) by (rewrite zlen_app; done).
  replace (zlen P + (1 + zlen v)) with (zlen (P ++ [c]) + zlen v) by lia. apply IH; lia.
Qed.

(** what a value may be: cfg_get leaves out a \r and what follows, and blanks at
    the end *)
Definition good_value (v : list Z) : Prop :=
  Forall (fun c => c <> 10 /\ c <> 13) v /\
  match last v with Some c => c <> 32 /\ c <> 9 | None => True end.

Lemma line_value_kv key v cap : good_key key -> good_value v -> zlen v < cap -> line_value (kv key v) cap = v.
Proof.
  intros Hk [Hv Hl] Hc. unfold line_value, kv, strchr. change (u8 61) with 61.
  rewrite strchr_from_spec by by apply good_key_no61. rewrite Z.add_0_l. cbv zeta.
  replace (key ++ 61 :: v) with ((key ++ [61]) ++ v) by by rewrite <- app_assoc.
  rewrite zlen_app. rewrite copy_value_all; [|by eapply Forall_impl; [exact Hv|intros c []]|lia|by rewrite zlen_app|rewrite !length_app; lia].
  destruct v as [|c v _] using rev_ind; [done|]. rewrite last_snoc in Hl. destruct Hl as [H1 H2].
  rewrite length_app. cbn [length]. rewrite Nat.add_1_r. cbn [trim]. rewrite zlen_app. change (zlen [c]) with 1.
  rewrite Z.add_simpl_r, aget_app, Z.ltb_irrefl, Z.sub_diag by apply zlen_nonneg. change (aget [c] 0) with c.
  rewrite (proj2 (Z.eqb_neq c 32) H1), (proj2 (Z.eqb_neq c 9) H2), andb_false_r.
  apply take_ge. rewrite length_app. unfold zlen. cbn. lia.
Qed.

Lemma memcmp_same a b : length a = length b -> memcmp a b (length b) = 0 -> a = b.
Proof.
  revert b. induction a as [|x a IH]; intros [|y b] Hl Hm; try done. cbn in Hl, Hm.
  destruct (x =? y) eqn:E; zbool; cbn [negb] in Hm; [|cbn in Hm; unfold id in Hm; lia]. subst y. f_equal.
  apply IH; [lia|done].
Qed.

Section laws.
Context {F : Type} `{FsLaws F}.

(** a cfg_set that succeeds leaves the new text in the file *)
Lemma cfg_set_text f mem path key v header f' old :
  match fs_file_at f path with Content t => t = old | Missing => old = [] | Unreadable => False end ->
  cfg_set f mem path key (Some v) header = (f', 0) ->
  fs_file_at f' path = Content (new_text old key (Some v) header) \/
  (f' = f /\ fs_file_at f path = Missing /\ new_text old key (Some v) header = []).
Proof.
  intros Hold. unfold cfg_set. 
  assert (G : forall o, o = old -> (if negb mem then (f, -1) else
      let buf := new_text o key (Some v) header in
      if (strlen o =? strlen buf) && (memcmp o buf (length buf) =? 0) then (f, 0)
      else let '(f, ok) := fs_write_path f path buf in (f, if ok : bool then 0 else -1)) = (f', 0) ->
    fs_file_at f' path = Content (new_text old key (Some v) header) \/ (f' = f /\ new_text old key (Some v) header = old)).
  { intros o ->. destruct mem; [|done]. cbn [negb]. cbv zeta.
    destruct (_ && _) eqn:E.
    - intros [= <-]. right. split; [done|]. apply andb_true_iff in E as [E1 E2]. zbool.
      unfold strlen, zlen in E1. symmetry. apply memcmp_same; [lia|done].
    - pose proof (fs_write_read f path (new_text old key (Some v) header)) as Hr.
      destruct (fs_write_path f path _) as [f1 []]; [|done]. intros [= <-]. left. by apply Hr. }
  destruct (fs_file_at f path) as [| |t] eqn:Ef; [..|subst t].
  - subst old. intros Hs. destruct (G [] eq_refl Hs) as [?|[-> ?]]; [by left|right; by split_and!].
  - done.
  - intros Hs. destruct (G old eq_refl Hs) as [?|[-> E]]; [by left|left]. by rewrite Ef, E.
Qed.

(** the lines of the file after a cfg_set that succeeded, as cfg_get sees them *)
Lemma cfg_set_lines f mem path key v header f' old cap : good_key key -> good_value v -> 0 < cap ->
  match fs_file_at f path with Content t => t = old | Missing => old = [] | Unreadable => False end ->
  (old = [] -> find (base_text old header) key = None) ->
  cfg_set f mem path key (Some v) header = (f', 0) ->
  exists a b, Forall (fun l => matches key l = false) a /\
    (forall k, good_key k -> cfg_get f' path k cap = get_ref k (a ++ [kv key v] ++ b) cap) /\
    forall k, good_key k -> k <> key -> get_ref k (a ++ b) cap = get_text (base_text old header) k cap.
Proof.
  intros Hk Hv Hc Hold Hh Hs.
  assert (Hpv : forall v', Some v = Some v' -> plain v').
  { intros v' [= <-]. eapply Forall_impl; [apply Hv|]. by intros c [? _]. }
  destruct (new_text_lines old key (Some v) header Hk Hpv Hh) as (a & b & Hb & Hp & Ha & Et & Ho).
  assert (Hne : a ++ [kv key v] ++ b <> []) by by destruct a.
  assert (Hpl : Forall plain (a ++ [kv key v] ++ b)).
  { apply Forall_app in Hp as [? ?]. rewrite !Forall_app. split_and!; [done| |done]. apply Forall_singleton.
    unfold kv. apply Forall_app. split; [|apply Forall_cons; split; [lia|by apply Hpv]].
    eapply Forall_impl; [apply Hk|]. by intros c (_ & ? & _). }
  exists a, b. split_and!; [done| |auto]. intros k Hgk.
  rewrite <- get_text_ref, <- Et by done. unfold cfg_get. destruct (cap <=? 0) eqn:E0; zbool; [lia|].
  destruct (cfg_set_text f mem path key v header f' old Hold Hs) as [-> |(_ & _ & En)]; [done|].
  exfalso. pose proof (join_unl a (kv key v) b) as Ej. cbn [app] in Et. rewrite Et, Ej in En.
  apply app_nil in En as [_ En]. destruct b; [done|]. cbn in En. unfold kv in En. by destruct key.
Qed.

Lemma get_ref_kv key v a b cap : good_key key -> good_value v -> zlen v < cap ->
  Forall (fun l => matches key l = false) a -> get_ref key (a ++ [kv key v] ++ b) cap = Some v.
Proof.
  intros Hk Hv Hc Ha. rewrite get_ref_app by done. cbn [get_ref app].
  change (kv key v) with (key ++ 61 :: v) at 1. rewrite matches_kv by done. by rewrite line_value_kv.
Qed.

Lemma get_ref_kv_other key v k a b cap : good_key key -> good_key k -> k <> key ->
  get_ref k (a ++ [kv key v] ++ b) cap = get_ref k (a ++ b) cap.
Proof.
  intros Hk Hgk Hne. rewrite !get_ref_app_cases. destruct (get_ref k a cap); [done|].
  cbn [get_ref app]. rewrite (matches_other key k); try done. by apply matches_kv.
Qed.

(** C25: a setting that cfg_set wrote, without an error, is what cfg_get then
    reads, and every other key of the file - or of the header, in a new file -
    reads as before *)
Theorem cfg_set_get f mem path key v header f' old cap :
  good_key key -> good_value v -> zlen v < cap ->
  match fs_file_at f path with Content t => t = old | Missing => old = [] | Unreadable => False end ->
  (old = [] -> find (base_text old header) key = None) ->
  cfg_set f mem path key (Some v) header = (f', 0) ->
  cfg_get f' path key cap = Some v /\
  forall k, good_key k -> k <> key -> cfg_get f' path k cap = get_text (base_text old header) k cap.
Proof.
  intros Hk Hv Hc Hold Hh Hs. pose proof (zlen_nonneg v).
  destruct (cfg_set_lines f mem path key v header f' old cap) as (a & b & Ha & Hread & Ho); [done|done|lia|done|done|done|].
  split.
  - rewrite Hread by done. by apply get_ref_kv.
  - intros k Hgk Hne. rewrite Hread, get_ref_kv_other by done. by apply Ho.
Qed.
End laws.

(** ** A file system the property applies to *)

#[export] Instance map_fs : FsOps (gmap (list Z) (list Z)) := {
  fs_file_at f path := match f !! path with Some t => Content t | None => Missing end;
  fs_write_path f path text := (<[path := text]> f, true);
}.

#[export] Instance map_fs_laws : FsLaws (gmap (list Z) (list Z)).
Proof.
  split; [| |done].
  - intros f path text _. cbn. by rewrite lookup_insert_eq.
  - intros f path text path' Hne. cbn. by rewrite lookup_insert_ne.
Qed.

Definition demo_fs : gmap (list Z) (list Z) :=
  {[str "/etc/rc.conf" := str "httpd=on" ++ [10] ++ str " port = 80" ++ [13; 10] ++ str "sshd=off"]}.
Definition demo_fs' : gmap (list Z) (list Z) :=
  (cfg_set demo_fs true (str "/etc/rc.conf") (str "sshd") (Some (str "on")) None).1.

Lemma cfg_set_get_witness :
  cfg_get demo_fs' (str "/etc/rc.conf") (str "sshd") 8 = Some (str "on") /\
  forall k, good_key k -> k <> str "sshd" ->
    cfg_get demo_fs' (str "/etc/rc.conf") k 8 =
    get_text (base_text (str "httpd=on" ++ [10] ++ str " port = 80" ++ [13; 10] ++ str "sshd=off") None) k 8.
Proof.
  apply (cfg_set_get demo_fs true (str "/etc/rc.conf") (str "sshd") (str "on") None).
  - split; [by repeat constructor|by vm_compute; split].
  - split; [by repeat constructor|by vm_compute; split].
  - reflexivity.
  - vm_compute. reflexivity.
  - intros E. by vm_compute in E.
  - vm_compute. reflexivity.
Defined.
