(* ===== verification/Clock.v ===== *)
(** The calendar and the clock chip (src/kernel/rtc.c). The CMOS is a device:
    what reading and writing a register does is a parameter of the model. *)

From S2P Require Import Prelude KString Lit.

Record rtc_datetime_t := Datetime { second : Z; minute : Z; hour : Z; day : Z; month : Z; year : Z }.
#[export] Instance datetime_eta : Eta rtc_datetime_t := fun d =>
  Datetime (second d) (minute d) (hour d) (day d) (month d) (year d).
#[export] Instance datetime_eq : EqDecision rtc_datetime_t.
Proof. solve_decision. Defined.

(** ** Seconds since 1970 and civil dates; C's / truncates *)

Definition days_from_civil (y m d : Z) : Z :=
  let y := if m <=? 2 then y - 1 else y in
  let era := Z.quot (if 0 <=? y then y else y - 399) 400 in
  let yoe := y - era * 400 in
  let doy := Z.quot (153 * (m + (if 2 <? m then -3 else 9)) + 2) 5 + d - 1 in
  let doe := yoe * 365 + Z.quot yoe 4 - Z.quot yoe 100 + doy in
  era * 146097 + doe - 719468.

Definition rtc_make_time (year month day hour minute second : Z) : Z :=
  if (year <? 1970) || (month <? 1) || (12 <? month) || (day <? 1) || (31 <? day) then 0 else
  u32 (u32 (u32 (days_from_civil year month day) * 86400) + u32 (hour * 3600 + minute * 60 + second)).

Definition rtc_split_time (t : Z) : rtc_datetime_t :=
  let z := t / 86400 + 719468 in
  let secs := t mod 86400 in
  let era := Z.quot (if 0 <=? z then z else z - 146096) 146097 in
  let doe := z - era * 146097 in
  let yoe := Z.quot (doe - Z.quot doe 1460 + Z.quot doe 36524 - Z.quot doe 146096) 365 in
  let y := yoe + era * 400 in
  let doy := doe - (365 * yoe + Z.quot yoe 4 - Z.quot yoe 100) in
  let mp := Z.quot (5 * doy + 2) 153 in
  let d := doy - Z.quot (153 * mp + 2) 5 + 1 in
  let m := mp + (if mp <? 10 then 3 else -9) in
  {| year := u16 (y + (if m <=? 2 then 1 else 0)); month := u8 m; day := u8 d;
     hour := u8 (secs / 3600); minute := u8 ((secs / 60) mod 60); second := u8 (secs mod 60) |}.

(** "10/10/2026 16:45": the text and its length, [None] for the empty text of 0
    when there is no room for it *)
Definition rtc_format (t : Z) (out : list Z) (cap : Z) : list Z :=
  if t =? 0 then (if 0 <? cap then aset out 0 0 else out) else
  let dt := rtc_split_time t in
  (ksnprintf out cap (str "%02u/%02u/%04u %02u:%02u")
     [Int (day dt); Int (month dt); Int (year dt); Int (hour dt); Int (minute dt)]).1.

(** ** The clock chip *)

Definition bcd_to_bin (v : Z) : Z := Z.land v 0x0F + Z.shiftr v 4 * 10.
Definition bin_to_bcd (v : Z) : Z := u8 (Z.lor (Z.shiftl (Z.quot v 10) 4) (Z.rem v 10)).

Section cmos.
Context {D : Type} (cmos_read : Z -> D -> Z * D) (cmos_write : Z -> Z -> D -> D).

Definition M (A : Type) : Type := D -> A * D.
Definition rd (reg : Z) : M Z := cmos_read reg.

Definition rtc_read_raw (d : D) : rtc_datetime_t * Z * D :=
  let '(s, d) := rd 0x00 d in
  let '(mi, d) := rd 0x02 d in
  let '(h, d) := rd 0x04 d in
  let '(da, d) := rd 0x07 d in
  let '(mo, d) := rd 0x08 d in
  let '(y, d) := rd 0x09 d in
  let '(reg_b, d) := rd 0x0B d in
  (Datetime s mi h da mo y, reg_b, d).

(** waiting for the update in progress to end: [false] after 100000 looks *)
Fixpoint wait_update (spins : nat) (d : D) : bool * D :=
  match spins with
  | O => (false, d)
  | S spins => let '(a, d) := rd 0x0A d in
               if negb (Z.land a 0x80 =? 0) then wait_update spins d else (true, d)
  end.
Definition SPINS : nat := Z.to_nat 100000.

(** two readings in a row that agree; [guard] is the counter after the [guard--] of the
    loop's condition *)
Fixpoint read_twice (guard : nat) (d : D) : option (rtc_datetime_t * Z) * D :=
  match guard with
  | O => (None, d)
  | S guard =>
    let '(ok, d) := wait_update SPINS d in
    if negb ok then (None, d) else
    let '(a, _, d) := rtc_read_raw d in
    let '(ok, d) := wait_update SPINS d in
    if negb ok then (None, d) else
    let '(b, reg_b, d) := rtc_read_raw d in
    if decide (a = b) then (if guard is O then None else Some (b, reg_b), d)
    else read_twice guard d
  end.

(** register values as a date *)
Definition decode_regs (b : rtc_datetime_t) (reg_b : Z) : rtc_datetime_t :=
  let b :=
    if Z.land reg_b 0x04 =? 0
    then {| second := u8 (bcd_to_bin (second b)); minute := u8 (bcd_to_bin (minute b));
            hour := u8 (Z.lor (bcd_to_bin (Z.land (hour b) 0x7F)) (Z.land (hour b) 0x80));
            day := u8 (bcd_to_bin (day b)); month := u8 (bcd_to_bin (month b));
            year := u16 (bcd_to_bin (year b)) |}
    else b in
  let b :=
    if Z.land reg_b 0x02 =? 0 then
      let pm := negb (Z.land (hour b) 0x80 =? 0) in
      let h := Z.land (hour b) 0x7F in
      let h := if pm && (h <? 12) then h + 12 else h in
      let h := if negb pm && (h =? 12) then 0 else h in
      b <| hour := u8 h |>
    else b <| hour ::= fun h => Z.land h 0x7F |> in
  b <| year ::= fun y => u16 (2000 + y mod 100) |>.

(** the date the chip holds, or [None] for -1 *)
Definition cmos_datetime (d : D) : option rtc_datetime_t * D :=
  let '(r, d) := read_twice (Z.to_nat 10000) d in
  (match r with Some (b, reg_b) => Some (decode_regs b reg_b) | None => None end, d).

(** the values write_raw stores for a date, in the chip's format *)
Definition reg_value (reg_b x : Z) : Z := if negb (Z.land reg_b 0x04 =? 0) then u8 x else bin_to_bcd x.
Definition hour_value (reg_b hour : Z) : Z :=
  let bin := negb (Z.land reg_b 0x04 =? 0) in
  if negb (Z.land reg_b 0x02 =? 0) then (if bin then u8 hour else bin_to_bcd hour)
  else
    let pm := 12 <=? hour in
    let h12 := if negb (Z.rem hour 12 =? 0) then Z.rem hour 12 else 12 in
    u8 (Z.lor (if bin then h12 else bin_to_bcd h12) (if pm then 0x80 else 0)).

(** the writes of write_raw: the clock stops (SET) while it is written *)
Definition write_regs (dt : rtc_datetime_t) (reg_b : Z) (d : D) : D :=
  let d := cmos_write 0x0B (u8 (Z.lor reg_b 0x80)) d in
  let d := cmos_write 0x00 (reg_value reg_b (second dt)) d in
  let d := cmos_write 0x02 (reg_value reg_b (minute dt)) d in
  let d := cmos_write 0x04 (hour_value reg_b (hour dt)) d in
  let d := cmos_write 0x07 (reg_value reg_b (day dt)) d in
  let d := cmos_write 0x08 (reg_value reg_b (month dt)) d in
  let d := cmos_write 0x09 (reg_value reg_b (Z.rem (year dt) 100)) d in
  cmos_write 0x0B reg_b d.

(** what the kernel keeps of the time: [base] raw seconds at timer_ms()
    [base_ms]; [ms] is what timer_ms() returns now *)
Record rtc := Rtc { base : Z; base_ms : Z; have : bool; g_utc : bool; ms : Z; dev : D }.
#[local] Instance rtc_eta : Eta rtc := fun r => Rtc (base r) (base_ms r) (have r) (g_utc r) (ms r) (dev r).

Definition raw_now (r : rtc) : Z * rtc :=
  let now := ms r in
  let fail_or_ok r := (u32 (base r + u32 (now - base_ms r) / 1000), r) in
  if negb (have r) || (600000 <? u32 (now - base_ms r)) then
    let '(dt, d) := cmos_datetime (dev r) in
    let r := r <| dev := d |> in
    match dt with
    | Some dt =>
      if 1970 <=? year dt then
        fail_or_ok (r <| base := rtc_make_time (year dt) (month dt) (day dt) (hour dt) (minute dt) (second dt) |>
                      <| base_ms := now |> <| have := true |>)
      else if negb (have r) then (0, r) else fail_or_ok r
    | None => if negb (have r) then (0, r) else fail_or_ok r
    end
  else fail_or_ok r.

(** the chip set to [t]: 0 or -1 *)
Definition write_raw (t : Z) (r : rtc) : Z * rtc :=
  if t <? 946684800 then (-1, r) else
  let dt := rtc_split_time t in
  if 2099 <? year dt then (-1, r) else
  let '(reg_b, d) := rd 0x0B (dev r) in
  let d := write_regs dt reg_b d in
  (0, r <| dev := d |> <| base := t |> <| base_ms := ms r |> <| have := true |>).
End cmos.
