(* ===== verification/Tz.v ===== *)
(** Time zones and the system's time (src/kernel/tz.c and the end of rtc.c). *)

From S2P Require Import Prelude KString Lit Clock.

Definition TZR_NONE : Z := 0.
Definition TZR_EU : Z := 1.
Definition TZR_US : Z := 2.
Definition TZR_AU : Z := 3.
Definition TZR_NZ : Z := 4.
Definition TZR_CL : Z := 5.

Record tz_zone_t := Zone { id : string; label : string; std_min : Z; rule : Z }.
#[export] Instance zone_inhabited : Inhabited tz_zone_t := populate (Zone "" "" 0 0).

Definition ZONES : list tz_zone_t :=
  [ Zone "UTC" "UTC (no time zone)" 0 TZR_NONE;
    Zone "Pacific/Honolulu" "Honolulu" (-600) TZR_NONE;
    Zone "America/Anchorage" "Alaska" (-540) TZR_US;
    Zone "America/Los_Angeles" "Los Angeles, Vancouver (Pacific)" (-480) TZR_US;
    Zone "America/Phoenix" "Arizona" (-420) TZR_NONE;
    Zone "America/Denver" "Denver, Calgary (Mountain)" (-420) TZR_US;
    Zone "America/Chicago" "Chicago, Winnipeg (Central)" (-360) TZR_US;
    Zone "America/Mexico_City" "Mexico City" (-360) TZR_NONE;
    Zone "America/New_York" "New York, Toronto (Eastern)" (-300) TZR_US;
    Zone "America/Bogota" "Bogota, Lima, Quito" (-300) TZR_NONE;
    Zone "America/Halifax" "Halifax (Atlantic)" (-240) TZR_US;
    Zone "America/Caracas" "Caracas, La Paz" (-240) TZR_NONE;
    Zone "America/Santiago" "Santiago" (-240) TZR_CL;
    Zone "America/St_Johns" "Newfoundland" (-210) TZR_US;
    Zone "America/Sao_Paulo" "Sao Paulo, Rio de Janeiro" (-180) TZR_NONE;
    Zone "America/Argentina/Buenos_Aires" "Buenos Aires, Montevideo" (-180) TZR_NONE;
    Zone "Atlantic/Azores" "Azores" (-60) TZR_EU;
    Zone "Atlantic/Reykjavik" "Reykjavik, Dakar, Accra" 0 TZR_NONE;
    Zone "Europe/London" "London, Dublin, Lisbon" 0 TZR_EU;
    Zone "Africa/Lagos" "Lagos, Kinshasa, Algiers" 60 TZR_NONE;
    Zone "Africa/Casablanca" "Casablanca" 60 TZR_NONE;
    Zone "Europe/Paris" "Paris, Brussels, Amsterdam" 60 TZR_EU;
    Zone "Europe/Zurich" "Zurich, Geneva, Bern" 60 TZR_EU;
    Zone "Europe/Berlin" "Berlin, Vienna, Stockholm, Oslo" 60 TZR_EU;
    Zone "Europe/Rome" "Rome, Madrid, Prague, Warsaw" 60 TZR_EU;
    Zone "Africa/Johannesburg" "Johannesburg, Harare" 120 TZR_NONE;
    Zone "Africa/Cairo" "Cairo" 120 TZR_NONE;
    Zone "Europe/Athens" "Athens, Bucharest, Sofia" 120 TZR_EU;
    Zone "Europe/Helsinki" "Helsinki, Kyiv, Riga, Tallinn" 120 TZR_EU;
    Zone "Europe/Istanbul" "Istanbul" 180 TZR_NONE;
    Zone "Europe/Moscow" "Moscow, Minsk" 180 TZR_NONE;
    Zone "Asia/Riyadh" "Riyadh, Baghdad, Kuwait" 180 TZR_NONE;
    Zone "Africa/Nairobi" "Nairobi, Addis Ababa" 180 TZR_NONE;
    Zone "Asia/Tehran" "Tehran" 210 TZR_NONE;
    Zone "Asia/Dubai" "Dubai, Abu Dhabi, Baku" 240 TZR_NONE;
    Zone "Asia/Kabul" "Kabul" 270 TZR_NONE;
    Zone "Asia/Karachi" "Karachi, Tashkent" 300 TZR_NONE;
    Zone "Asia/Kolkata" "India (Kolkata, Mumbai, Delhi)" 330 TZR_NONE;
    Zone "Asia/Kathmandu" "Kathmandu" 345 TZR_NONE;
    Zone "Asia/Dhaka" "Dhaka, Almaty" 360 TZR_NONE;
    Zone "Asia/Yangon" "Yangon" 390 TZR_NONE;
    Zone "Asia/Bangkok" "Bangkok, Hanoi, Jakarta" 420 TZR_NONE;
    Zone "Asia/Shanghai" "Beijing, Shanghai, Hong Kong" 480 TZR_NONE;
    Zone "Asia/Singapore" "Singapore, Kuala Lumpur, Manila" 480 TZR_NONE;
    Zone "Australia/Perth" "Perth" 480 TZR_NONE;
    Zone "Asia/Tokyo" "Tokyo, Seoul" 540 TZR_NONE;
    Zone "Australia/Darwin" "Darwin" 570 TZR_NONE;
    Zone "Australia/Adelaide" "Adelaide" 570 TZR_AU;
    Zone "Australia/Brisbane" "Brisbane" 600 TZR_NONE;
    Zone "Australia/Sydney" "Sydney, Melbourne, Canberra" 600 TZR_AU;
    Zone "Pacific/Noumea" "Noumea, Solomon Islands" 660 TZR_NONE;
    Zone "Pacific/Auckland" "Auckland, Wellington" 720 TZR_NZ;
    Zone "Pacific/Fiji" "Fiji" 720 TZR_NONE;
    Zone "Pacific/Tongatapu" "Nuku'alofa" 780 TZR_NONE ].
Definition NZONES : Z := zlen ZONES.

Definition tz_count : Z := NZONES.
Definition tz_get (i : Z) : option tz_zone_t := if (0 <=? i) && (i <? NZONES) then Some (aget ZONES i) else None.

Fixpoint find_zone (zs : list tz_zone_t) (i : Z) (name : list Z) : Z :=
  match zs with
  | [] => -1
  | z :: zs => if strcasecmp (str (id z)) name =? 0 then i else find_zone zs (i + 1) name
  end.
Definition tz_find (name : option (list Z)) : Z :=
  match name with None => -1 | Some name => find_zone ZONES 0 name end.

(** ** Summer time *)

Definition leap (y : Z) : bool :=
  ((Z.rem y 4 =? 0) && negb (Z.rem y 100 =? 0)) || (Z.rem y 400 =? 0).
Definition mdays (y m : Z) : Z :=
  aget [31; 28; 31; 30; 31; 30; 31; 31; 30; 31; 30; 31] (m - 1) + (if (m =? 2) && leap y then 1 else 0).

(** [while (day + 7 <= mdays(y, m)) day += 7;] *)
Fixpoint last_week (fuel : nat) (y m day : Z) : Z :=
  match fuel with
  | O => day
  | S fuel => if day + 7 <=? mdays y m then last_week fuel y m (day + 7) else day
  end.

Definition sunday (y m n : Z) : Z :=
  let first := rtc_make_time y m 1 0 0 0 in
  let wd := (first / 86400 + 4) mod 7 in
  let day := 1 + (7 - wd) mod 7 in
  let day := if 0 <? n then day + 7 * (n - 1) else last_week 5 y m day in
  u32 (first + u32 ((day - 1) * 86400)).

Definition summer (rule std utc : Z) : bool :=
  if rule =? TZR_NONE then false else
  let y := year (rtc_split_time (u32 (utc + std))) in
  let u := utc in
  if rule =? TZR_EU then (sunday y 3 (-1) + 3600 <=? u) && (u <? sunday y 10 (-1) + 3600)
  else if rule =? TZR_US then (sunday y 3 2 + 7200 - std <=? u) && (u <? sunday y 11 1 + 7200 - (std + 3600))
  else if rule =? TZR_AU then negb ((sunday y 4 1 + 10800 - (std + 3600) <=? u) && (u <? sunday y 10 1 + 7200 - std))
  else if rule =? TZR_NZ then (u <? sunday y 4 1 + 10800 - (std + 3600)) || (sunday y 9 (-1) + 7200 - std <=? u)
  else if rule =? TZR_CL then (u <? sunday y 4 1 + 10800) || (sunday y 9 1 + 14400 <=? u)
  else false.

Definition tz_is_summer (i utc : Z) : bool :=
  match tz_get i with Some z => summer (rule z) (std_min z * 60) utc | None => false end.

Definition tz_offset_at (i utc : Z) : Z :=
  match tz_get i with
  | None => 0
  | Some z => let std := std_min z * 60 in std + (if summer (rule z) std utc then 3600 else 0)
  end.

(** with [zone] the zone in use *)
Definition tz_to_local (zone utc : Z) : Z := u32 (utc + tz_offset_at zone utc).

Definition tz_to_utc (zone local : Z) : Z :=
  let z := tz_get zone in
  let std := match z with Some z => std_min z * 60 | None => 0 end in
  let w := u32 (local - std) in
  match z with
  | Some z =>
    if negb (rule z =? TZR_NONE) then
      let s := u32 (local - std - 3600) in
      if tz_offset_at zone s =? std + 3600 then s else w
    else w
  | None => w
  end.

Definition tz_format_offset (secs : Z) (out : list Z) (cap : Z) : list Z :=
  let neg := secs <? 0 in
  let secs := if neg then - secs else secs in
  (ksnprintf out cap (str "UTC%c%02d:%02d")
     [Int (if neg then 45 else 43); Int (Z.quot secs 3600); Int (Z.rem (Z.quot secs 60) 60)]).1.

(** the zone used for now: it and the one before *)
Definition tz_use (zone i : Z) : Z * Z := (if (0 <=? i) && (i <? NZONES) then i else zone, zone).

(** ** The system's time: the clock chip keeps local time, or UTC ([g_utc]) *)

Section time.
Context {D : Type} (cmos_read : Z -> D -> Z * D) (cmos_write : Z -> Z -> D -> D).
Context (zone : Z).

Definition rtc_now_utc (r : rtc) : Z * rtc (D := D) :=
  let '(t, r) := raw_now cmos_read r in
  (if t =? 0 then 0 else if g_utc r then t else tz_to_utc zone t, r).

Definition rtc_now (r : rtc) : Z * rtc (D := D) :=
  let '(t, r) := raw_now cmos_read r in
  (if t =? 0 then 0 else if g_utc r then tz_to_local zone t else t, r).

Definition rtc_read_datetime (r : rtc) : option rtc_datetime_t * rtc (D := D) :=
  let '(t, r) := rtc_now r in
  (if t =? 0 then None else Some (rtc_split_time t), r).

Definition rtc_set_utc (utc : Z) (r : rtc) : Z * rtc (D := D) :=
  if utc =? 0 then (-1, r)
  else write_raw cmos_read cmos_write (if g_utc r then utc else tz_to_local zone utc) r.

Definition rtc_set_time (t : Z) (r : rtc) : Z * rtc (D := D) :=
  if negb (t =? 0) then rtc_set_utc (tz_to_utc zone t) r else (-1, r).

Definition rtc_zone_changed (utc : Z) (r : rtc) : rtc (D := D) :=
  if negb (g_utc r) then (rtc_set_utc utc r).2 else r.
End time.
