(* ===== verification/ClockProps.v ===== *)
(** The calendar (Clock.v) is right on every 32-bit time, and the clock chip
    gives back the date it was set to, in each of its formats. *)

From S2P Require Import Prelude KString Lit Clock Tz.

(** ** Years of 400: the year of a day and the first day of a year *)

Lemma yoe_ok doe : 0 <= doe <= 146096 ->
  let yoe := (doe - doe / 1460 + doe / 36524 - doe / 146096) / 365 in
  0 <= yoe <= 399 /\ 0 <= doe - (365 * yoe + yoe / 4 - yoe / 100) <= 365 /\
  (doe - (365 * yoe + yoe / 4 - yoe / 100) = 365 ->
   (yoe + 1) mod 4 = 0 /\ ((yoe + 1) mod 100 <> 0 \/ (yoe + 1) mod 400 = 0)).
Proof.
  intros Hd yoe.
  assert (H : doe / 36524 = 0 \/ doe / 36524 = 1 \/ doe / 36524 = 2 \/ doe / 36524 = 3 \/ doe / 36524 = 4) by lia.
  assert (H3 : doe / 146096 = 0 \/ doe / 146096 = 1) by lia.
  unfold yoe. clear yoe.
  destruct H as [H|[H|[H|[H|H]]]], H3 as [H3|H3]; rewrite H, H3; lia.
Qed.

Lemma yoe_inv yoe doy : 0 <= yoe <= 399 -> 0 <= doy <= 365 ->
  (doy = 365 -> (yoe + 1) mod 4 = 0 /\ ((yoe + 1) mod 100 <> 0 \/ (yoe + 1) mod 400 = 0)) ->
  let doe := yoe * 365 + yoe / 4 - yoe / 100 + doy in
  0 <= doe <= 146096 /\ (doe - doe / 1460 + doe / 36524 - doe / 146096) / 365 = yoe.
Proof.
  intros Hy Hd Hl doe.
  assert (Hb : 0 <= doe <= 146096) by (unfold doe; lia).
  split; [done|].
  assert (H : doe / 36524 = 0 \/ doe / 36524 = 1 \/ doe / 36524 = 2 \/ doe / 36524 = 3 \/ doe / 36524 = 4) by lia.
  assert (H3 : doe / 146096 = 0 \/ doe / 146096 = 1) by lia.
  assert (H4 : yoe / 100 = 0 \/ yoe / 100 = 1 \/ yoe / 100 = 2 \/ yoe / 100 = 3) by lia.
  assert (E : doe = yoe * 365 + yoe / 4 - yoe / 100 + doy) by done. clearbody doe.
  destruct H as [H|[H|[H|[H|H]]]], H3 as [H3|H3], H4 as [H4|[H4|[H4|H4]]]; rewrite H, H3; rewrite H4 in E; lia.
Qed.

(** the months, March first: the first day of each, and the month of a day *)
Definition first_of (mp : Z) : Z := (153 * mp + 2) / 5.

Lemma month_of doy : 0 <= doy <= 365 -> let mp := (5 * doy + 2) / 153 in
  0 <= mp <= 11 /\ 1 <= doy - first_of mp + 1 <= 31.
Proof. unfold first_of. lia. Qed.

(** the length of a month counted from March, with [l] = 1 in the February of a
    leap year *)
Definition mp_days (mp l : Z) : Z := if mp =? 11 then 28 + l else first_of (mp + 1) - first_of mp.

Lemma month_days doy l : 0 <= doy <= 364 + l -> 0 <= l <= 1 -> let mp := (5 * doy + 2) / 153 in
  doy - first_of mp + 1 <= mp_days mp l.
Proof. unfold mp_days, first_of. intros. case_bool; zbool; lia. Qed.

Lemma month_inv mp d l : 0 <= mp <= 11 -> 1 <= d <= mp_days mp l -> 0 <= l <= 1 ->
  (5 * (first_of mp + d - 1) + 2) / 153 = mp /\ 0 <= first_of mp + d - 1 <= 364 + l.
Proof. unfold mp_days, first_of. intros. zcases_all; lia. Qed.

Definition mp_of (m : Z) : Z := m + (if 2 <? m then -3 else 9).

Lemma mdays_mp y m : 0 <= y -> 1 <= m <= 12 -> mdays y m = mp_days (mp_of m) (if leap y then 1 else 0).
Proof.
  intros Hy Hm. unfold mdays, mp_of.
  assert (H : m = 1 \/ m = 2 \/ m = 3 \/ m = 4 \/ m = 5 \/ m = 6 \/ m = 7 \/ m = 8 \/ m = 9 \/ m = 10 \/ m = 11 \/ m = 12) by lia.
  destruct H as [->|[->|[->|[->|[->|[->|[->|[->|[->|[->|[->| ->]]]]]]]]]]]; try reflexivity; by destruct (leap y).
Qed.

Lemma leap_spec y : 0 <= y -> leap y = true <-> (y mod 4 = 0 /\ (y mod 100 <> 0 \/ y mod 400 = 0)).
Proof.
  intros Hy. unfold leap. rewrite !Z.rem_mod_nonneg by lia.
  rewrite orb_true_iff, andb_true_iff, negb_true_iff, !Z.eqb_eq, Z.eqb_neq. lia.
Qed.

(** ** The calendar *)

Definition valid_date (d : rtc_datetime_t) : Prop :=
  1970 <= year d <= 2106 /\ 1 <= month d <= 12 /\ 1 <= day d <= mdays (year d) (month d) /\
  0 <= hour d < 24 /\ 0 <= minute d < 60 /\ 0 <= second d < 60.

Definition time_of (d : rtc_datetime_t) : Z :=
  rtc_make_time (year d) (month d) (day d) (hour d) (minute d) (second d).

(** the year that starts in March *)
Definition march_year (y m : Z) : Z := if m <=? 2 then y - 1 else y.

Lemma days_from_civil_eq y m d : 1970 <= y -> 1 <= m <= 12 -> 1 <= d ->
  let ym := march_year y m in
  days_from_civil y m d = ym / 400 * 146097 + ((ym mod 400) * 365 + (ym mod 400) / 4 - (ym mod 400) / 100 +
    (first_of (mp_of m) + d - 1)) - 719468.
Proof.
  intros Hy Hm Hd ym. unfold days_from_civil. fold (march_year y m). fold ym. fold (mp_of m).
  assert (Hym : 1969 <= ym) by (unfold ym, march_year; case_bool; lia). cbv zeta.
  rewrite (proj2 (Z.leb_le 0 ym)) by lia. rewrite (Z.quot_div_nonneg ym) by lia.
  replace (ym - ym / 400 * 400) with (ym mod 400) by (rewrite Z.mod_eq by lia; lia).
  assert (H4 : 0 <= ym mod 400) by (apply Z.mod_pos_bound; lia).
  rewrite !(Z.quot_div_nonneg (ym mod 400)) by lia.
  rewrite (Z.quot_div_nonneg (153 * mp_of m + 2)) by (unfold mp_of; zcases; lia). done.
Qed.

(** the date of day [z], days counted from 0000-03-01 *)
Lemma split_time_eq t : 0 <= t < 2 ^ 32 ->
  let z := t / 86400 + 719468 in
  let doe := z mod 146097 in
  let yoe := (doe - doe / 1460 + doe / 36524 - doe / 146096) / 365 in
  let doy := doe - (365 * yoe + yoe / 4 - yoe / 100) in
  let mp := (5 * doy + 2) / 153 in
  let m := mp + (if mp <? 10 then 3 else -9) in
  rtc_split_time t = {| year := yoe + z / 146097 * 400 + (if m <=? 2 then 1 else 0); month := m;
    day := doy - first_of mp + 1; hour := t mod 86400 / 3600; minute := t mod 86400 / 60 mod 60; second := t mod 86400 mod 60 |}.
Proof.
  intros Ht z doe yoe doy mp m. unfold rtc_split_time. fold z. cbv zeta.
  assert (Hz : 719468 <= z <= 769178) by (unfold z; lia).
  rewrite (proj2 (Z.leb_le 0 z)) by lia. rewrite (Z.quot_div_nonneg z) by lia.
  replace (z - z / 146097 * 146097) with doe by (unfold doe; rewrite Z.mod_eq by lia; lia).
  assert (Hd : 0 <= doe <= 146096) by (unfold doe; lia).
  rewrite !(Z.quot_div_nonneg doe) by lia.
  destruct (yoe_ok doe Hd) as (Hy & Hdoy & _). fold yoe in Hy, Hdoy. fold doy in Hdoy.
  rewrite (Z.quot_div_nonneg (_ - _)) by lia. fold yoe.
  rewrite !(Z.quot_div_nonneg yoe) by lia. fold doy.
  destruct (month_of doy Hdoy) as [Hmp Hday]. fold mp in Hmp, Hday.
  rewrite (Z.quot_div_nonneg (5 * doy + 2)) by lia. fold mp.
  rewrite (Z.quot_div_nonneg (153 * mp + 2)) by lia. fold (first_of mp). fold m.
  assert (Hm : 1 <= m <= 12) by (unfold m; zcases; lia).
  assert (Hera : z / 146097 = 4 \/ z / 146097 = 5) by lia.
  assert (Hs : 0 <= t mod 86400 < 86400) by lia.
  f_equal; unfold u8, u16; rewrite Z.mod_small; try lia; case_bool; lia.
Qed.

Lemma u32_days a b : 0 <= a -> 0 <= b < 86400 -> a * 86400 + b < 2 ^ 32 -> u32 (u32 (u32 a * 86400) + u32 b) = a * 86400 + b.
Proof.
  intros Ha Hb Hs. rewrite (u32_small a), (u32_small b), (u32_small (a * 86400)), u32_small by (unfold is_u32; lia). done.
Qed.

Lemma time_parts t : 0 <= t < 2 ^ 32 ->
  u32 (u32 (u32 (t / 86400) * 86400) + u32 (t mod 86400 / 3600 * 3600 + t mod 86400 / 60 mod 60 * 60 + t mod 86400 mod 60)) = t.
Proof.
  intros Ht. assert (Hs : 0 <= t mod 86400 < 86400) by (apply Z.mod_pos_bound; lia).
  assert (E : t mod 86400 / 3600 * 3600 + t mod 86400 / 60 mod 60 * 60 + t mod 86400 mod 60 = t mod 86400)
    by (revert Hs; generalize (t mod 86400); intros x Hx; lia).
  pose proof (Z.div_mod t 86400 ltac:(lia)) as Hdm. pose proof (Z.div_pos t 86400 ltac:(lia) ltac:(lia)).
  rewrite E. rewrite u32_days by lia. lia.
Qed.

Lemma split_then_make t : 0 <= t < 2 ^ 32 -> valid_date (rtc_split_time t) /\ time_of (rtc_split_time t) = t.
Proof.
  intros Ht. rewrite split_time_eq by done.
  set (z := t / 86400 + 719468). set (doe := z mod 146097).
  set (yoe := (doe - doe / 1460 + doe / 36524 - doe / 146096) / 365). set (doy := doe - (365 * yoe + yoe / 4 - yoe / 100)).
  set (mp := (5 * doy + 2) / 153). set (m := mp + (if mp <? 10 then 3 else -9)).
  set (y := yoe + z / 146097 * 400 + (if m <=? 2 then 1 else 0)).
  assert (Hd : 0 <= doe <= 146096) by (unfold doe; lia).
  destruct (yoe_ok doe Hd) as (Hy & Hdoy & Hlp). fold yoe in Hy, Hdoy, Hlp. fold doy in Hdoy, Hlp.
  destruct (month_of doy Hdoy) as [Hmp Hday]. fold mp in Hmp, Hday.
  assert (Hm : 1 <= m <= 12 /\ mp_of m = mp /\ march_year y m = yoe + z / 146097 * 400 /\ (m <= 2 <-> 10 <= mp)).
  { unfold y, march_year, mp_of, m. zcases; lia. }
  destruct Hm as (Hm & Hmpm & Hmy & Hm2).
  assert (Hera : z / 146097 = 4 \/ z / 146097 = 5) by (unfold z; lia).
  assert (Hmd : march_year y m / 400 = z / 146097 /\ march_year y m mod 400 = yoe) by (rewrite Hmy; lia).
  destruct Hmd as [Hq Hr].
  assert (Hz : z = z / 146097 * 146097 + doe) by (unfold doe; rewrite Z.mod_eq by lia; lia).
  assert (Hdays : 1970 <= y -> days_from_civil y m (doy - first_of mp + 1) = t / 86400).
  { intros Hy1. rewrite days_from_civil_eq by lia. cbv zeta. rewrite Hq, Hr, Hmpm.
    assert (Hzz : z = t / 86400 + 719468) by done.
    assert (Hdd : doe = 365 * yoe + yoe / 4 - yoe / 100 + doy) by (unfold doy; lia).
    clearbody doy mp. lia. }
  assert (Hyb : 1970 <= y <= 2106 /\ y = yoe + z / 146097 * 400 + (if 10 <=? mp then 1 else 0)).
  { assert (Hyeq : y = yoe + z / 146097 * 400 + (if 10 <=? mp then 1 else 0)) by (unfold y; zcases; lia).
    split; [|done]. rewrite Hyeq. assert (Hzb : 719468 <= z <= 769178) by (unfold z; lia).
    assert (Hdd : doe = 365 * yoe + yoe / 4 - yoe / 100 + doy) by (unfold doy; lia).
    unfold mp. clear -Hera Hz Hzb Hdd Hdoy Hy. case_bool; zbool; destruct Hera as [E|E]; rewrite E in *; lia. }
  destruct Hyb as [Hyb Hyeq].
  split.
  + unfold valid_date. cbn [year month day hour minute second].
    split; [done|]. split; [done|]. split.
    * split; [lia|]. rewrite mdays_mp by lia. rewrite Hmpm. apply month_days; [|case_bool; lia].
      destruct (decide (doy = 365)) as [E|]; [|case_bool; lia].
      assert (Hmp11 : mp = 11) by (unfold mp; lia). rewrite Hmp11 in Hyeq. cbn in Hyeq.
      destruct (Hlp E) as [L1 L2].
      assert (Hl : leap y = true) by (apply leap_spec; [lia|]; destruct Hera as [H|H]; rewrite H in Hyeq; lia). rewrite Hl. lia.
    * lia.
  + unfold time_of, rtc_make_time. cbn [year month day hour minute second].
    rewrite (proj2 (Z.ltb_ge y 1970)), (proj2 (Z.ltb_ge m 1)), (proj2 (Z.ltb_ge 12 m)),
      (proj2 (Z.ltb_ge (doy - first_of mp + 1) 1)), (proj2 (Z.ltb_ge 31 (doy - first_of mp + 1))) by lia.
    cbn [orb]. rewrite Hdays by lia. apply time_parts, Ht.
Qed.

Lemma make_then_split d : valid_date d ->
  days_from_civil (year d) (month d) (day d) * 86400 + hour d * 3600 + minute d * 60 + second d < 2 ^ 32 ->
  rtc_split_time (time_of d) = d.
Proof.
  destruct d as [s mi h d m y]. intros (Hy & Hm & Hd & Hh & Hmi & Hs) Ht. cbn [year month day hour minute second] in *.
  assert (Hl01 : 0 <= (if leap y then 1 else 0) <= 1) by (case_bool; lia).
  rewrite mdays_mp in Hd by lia.
  assert (Hmp : 0 <= mp_of m <= 11) by (unfold mp_of; zcases; lia).
  destruct (month_inv (mp_of m) d _ Hmp Hd Hl01) as [Hmi' Hdoy].
  pose proof (days_from_civil_eq y m d ltac:(lia) Hm ltac:(lia)) as Hdays. cbv zeta in Hdays.
  set (ym := march_year y m) in *. set (doy := first_of (mp_of m) + d - 1) in *.
  assert (Hyoe : 0 <= ym mod 400 <= 399) by lia.
  assert (Hym : 1969 <= ym <= 2106 /\ y = ym + (if m <=? 2 then 1 else 0)) by (unfold ym, march_year; case_bool; lia).
  destruct (yoe_inv (ym mod 400) doy Hyoe) as [Hdoe Hinv].
  { zcases_all; lia. }
  { intros E. destruct (leap y) eqn:El; [|lia]. apply leap_spec in El; [|lia].
    assert (Hm2 : m <= 2).
    { destruct (decide (m <= 2)); [done|]. unfold doy, mp_of, mp_days, first_of in *. zcases_all; lia. }
    rewrite (proj2 (Z.leb_le m 2) Hm2) in Hym. lia. }
  set (doe := ym mod 400 * 365 + ym mod 400 / 4 - ym mod 400 / 100 + doy) in *.
  assert (Hn : 0 <= days_from_civil y m d).
  { rewrite Hdays. unfold doe, ym, march_year, doy, mp_of, first_of in *. zcases_all; lia. }
  set (N := days_from_civil y m d) in *.
  assert (Hd31 : d <= 31) by (unfold mp_days, first_of in Hd; zcases_all; lia).
  assert (Htime : time_of (Datetime s mi h d m y) = N * 86400 + h * 3600 + mi * 60 + s).
  { unfold time_of, rtc_make_time. cbn [year month day hour minute second].
    rewrite (proj2 (Z.ltb_ge y 1970)), (proj2 (Z.ltb_ge m 1)), (proj2 (Z.ltb_ge 12 m)),
      (proj2 (Z.ltb_ge d 1)), (proj2 (Z.ltb_ge 31 d)) by lia. cbn [orb]. fold N. rewrite <- !Z.add_assoc.
    rewrite (u32_days N (h * 3600 + (mi * 60 + s))) by lia. lia. }
  rewrite Htime. rewrite split_time_eq by lia.
  assert (Hq : (N * 86400 + h * 3600 + mi * 60 + s) / 86400 = N) by lia. rewrite Hq.
  assert (Hz : (N + 719468) mod 146097 = doe /\ (N + 719468) / 146097 = ym / 400) by (rewrite Hdays; lia).
  destruct Hz as [-> ->]. cbv zeta. rewrite Hinv.
  assert (Hdoy' : doe - (365 * (ym mod 400) + ym mod 400 / 4 - ym mod 400 / 100) = doy) by (unfold doe; lia).
  rewrite Hdoy', Hmi'.
  assert (Hmm : mp_of m + (if mp_of m <? 10 then 3 else -9) = m) by (unfold mp_of; zcases; lia). rewrite Hmm.
  f_equal; lia.
Qed.

(** C26: rtc_split_time gives each of the 2^32 times its one valid civil date,
    whose time is that time again; and rtc_make_time of a valid date below
    2106-02-07 06:28:16 is split back into that date *)
Theorem calendar :
  (forall t, 0 <= t < 2 ^ 32 -> valid_date (rtc_split_time t) /\ time_of (rtc_split_time t) = t) /\
  (forall d, valid_date d -> days_from_civil (year d) (month d) (day d) * 86400 + hour d * 3600 + minute d * 60 + second d < 2 ^ 32 ->
     rtc_split_time (time_of d) = d).
Proof. split; [exact split_then_make|exact make_then_split]. Qed.

(** ** The clock chip *)

Lemma bcd_roundtrip x : 0 <= x < 100 -> bcd_to_bin (bin_to_bcd x) = x.
Proof.
  intros Hx. assert (H : forallb (fun x => bcd_to_bin (bin_to_bcd x) =? x) (seqZ 0 100) = true) by (vm_compute; reflexivity).
  rewrite forallb_forall in H. apply Z.eqb_eq, H. apply list_elem_of_In, elem_of_seqZ. lia.
Qed.

(** the hour in the four formats of register B *)
Lemma hour_roundtrip reg_b h : 0 <= h < 24 ->
  hour (decode_regs (Datetime 0 0 (hour_value reg_b h) 0 0 0) reg_b) = h.
Proof.
  intros Hh. assert (H : forall bin h24, forallb (fun h =>
      let v := if h24 : bool then (if bin : bool then u8 h else bin_to_bcd h)
               else u8 (Z.lor (if bin then (if negb (Z.rem h 12 =? 0) then Z.rem h 12 else 12)
                               else bin_to_bcd (if negb (Z.rem h 12 =? 0) then Z.rem h 12 else 12)) (if 12 <=? h then 0x80 else 0)) in
      let v := if bin then v else u8 (Z.lor (bcd_to_bin (Z.land v 0x7F)) (Z.land v 0x80)) in
      (if h24 then Z.land v 0x7F else
       let pm := negb (Z.land v 0x80 =? 0) in
       let k := Z.land v 0x7F in
       let k := if pm && (k <? 12) then k + 12 else k in
       u8 (if negb pm && (k =? 12) then 0 else k)) =? h) (seqZ 0 24) = true)
    by (intros [] []; vm_compute; reflexivity).
  specialize (H (negb (Z.land reg_b 4 =? 0)) (negb (Z.land reg_b 2 =? 0))). rewrite forallb_forall in H.
  specialize (H h ltac:(apply list_elem_of_In, elem_of_seqZ; lia)). apply Z.eqb_eq in H. rewrite <- H at 2. clear H.
  unfold decode_regs, hour_value. destruct (Z.land reg_b 4 =? 0), (Z.land reg_b 2 =? 0); reflexivity.
Qed.

Lemma decode_written rb dt : 2000 <= year dt <= 2099 -> 1 <= month dt <= 12 -> 1 <= day dt <= 31 ->
  0 <= hour dt < 24 -> 0 <= minute dt < 60 -> 0 <= second dt < 60 ->
  decode_regs (Datetime (reg_value rb (second dt)) (reg_value rb (minute dt)) (hour_value rb (hour dt))
    (reg_value rb (day dt)) (reg_value rb (month dt)) (reg_value rb (Z.rem (year dt) 100))) rb = dt.
Proof.
  intros Hy Hm Hd Hh Hmi Hs. pose proof (hour_roundtrip rb (hour dt) Hh) as Ehr.
  assert (Hr : 0 <= Z.rem (year dt) 100 < 100) by (rewrite Z.rem_mod_nonneg by lia; lia).
  assert (Hyy : u16 (2000 + Z.rem (year dt) 100 mod 100) = year dt) by (rewrite Z.rem_mod_nonneg by lia; unfold u16; lia).
  assert (Hb : forall x, 0 <= x < 100 -> u8 (bcd_to_bin (bin_to_bcd x)) = x)
    by (intros x Hx; rewrite bcd_roundtrip by done; unfold u8; lia).
  assert (Hb16 : forall x, 0 <= x < 100 -> u16 (bcd_to_bin (bin_to_bcd x)) = x)
    by (intros x Hx; rewrite bcd_roundtrip by done; unfold u16; lia).
  assert (Hu : forall x, 0 <= x < 100 -> u8 x = x) by (intros x Hx; unfold u8; lia).
  unfold decode_regs, reg_value in *. destruct dt as [s mi h d m y]. cbn [year month day hour minute second] in *.
  destruct (Z.land rb 4 =? 0), (Z.land rb 2 =? 0); unfold set, setter in *; cbn [negb year month day hour minute second] in *;
    rewrite ?Hb16, ?Hb, ?(Hu s), ?(Hu mi), ?(Hu d), ?(Hu m), ?(Hu (Z.rem y 100)) by lia; f_equal; done.
Qed.

Lemma valid_split t : 0 <= t < 2 ^ 32 -> valid_date (rtc_split_time t).
Proof. intros Ht. by apply split_then_make. Qed.

Lemma mdays_31 y m : 1 <= m <= 12 -> mdays y m <= 31.
Proof.
  intros Hm. unfold mdays.
  assert (H : m = 1 \/ m = 2 \/ m = 3 \/ m = 4 \/ m = 5 \/ m = 6 \/ m = 7 \/ m = 8 \/ m = 9 \/ m = 10 \/ m = 11 \/ m = 12) by lia.
  destruct H as [->|[->|[->|[->|[->|[->|[->|[->|[->|[->|[->| ->]]]]]]]]]]]; destruct (leap y); vm_compute; discriminate.
Qed.

(** the chip's years start in 2000 *)
Lemma year_2000 t : 0 <= t < 2 ^ 32 -> 946684800 <= t -> 2000 <= year (rtc_split_time t).
Proof.
  intros Ht Ht2. rewrite split_time_eq by done. cbn [year].
  set (z := t / 86400 + 719468). assert (Hz : 730425 <= z <= 769178) by (unfold z; lia). clearbody z.
  set (doe := z mod 146097). set (yoe := (doe - doe / 1460 + doe / 36524 - doe / 146096) / 365).
  assert (Hera : z / 146097 = 4 /\ 146037 <= doe <= 146096 \/ z / 146097 = 5) by (unfold doe; lia).
  assert (Hd : 0 <= doe <= 146096) by (unfold doe; lia). clearbody doe.
  destruct (yoe_ok doe Hd) as (Hy & _). fold yoe in Hy.
  destruct Hera as [[-> Hdo]| ->]; [|case_bool; lia].
  assert (Ey : yoe = 399) by (unfold yoe; lia). rewrite Ey.
  change (365 * 399 + 399 / 4 - 399 / 100) with 145731.
  assert (Hmp : 10 <= (5 * (doe - 145731) + 2) / 153 <= 11) by lia.
  set (mp := (5 * (doe - 145731) + 2) / 153) in *. clearbody mp. zcases_all; lia.
Qed.

Section chip.
(** a chip between two ticks: registers that keep what is written, reading them
    changes none, and no update is in progress *)
Context {D : Type} (cmos_read : Z -> D -> Z * D) (cmos_write : Z -> Z -> D -> D) (regs : D -> Z -> Z).
Hypothesis read_reg : forall i d, (cmos_read i d).1 = regs d i.
Hypothesis read_keeps : forall i j d, regs (cmos_read i d).2 j = regs d j.
Hypothesis write_reg : forall i v d j, i <> 0x0A -> regs (cmos_write i v d) j = if j =? i then v else regs d j.
Hypothesis no_update : forall d, Z.land (regs d 0x0A) 0x80 = 0.

Definition raw_date (d : D) : rtc_datetime_t :=
  Datetime (regs d 0) (regs d 2) (regs d 4) (regs d 7) (regs d 8) (regs d 9).

Lemma read_spec i d : exists d', rd cmos_read i d = (regs d i, d') /\ forall j, regs d' j = regs d j.
Proof.
  exists (cmos_read i d).2. split; [|intros j; apply read_keeps].
  unfold rd. rewrite <- read_reg. by destruct (cmos_read i d).
Qed.

Lemma read_raw_spec d : exists d', rtc_read_raw cmos_read d = (raw_date d, regs d 0x0B, d') /\ forall j, regs d' j = regs d j.
Proof.
  unfold rtc_read_raw, raw_date.
  destruct (read_spec 0x00 d) as (d1 & -> & R1). destruct (read_spec 0x02 d1) as (d2 & -> & R2).
  destruct (read_spec 0x04 d2) as (d3 & -> & R3). destruct (read_spec 0x07 d3) as (d4 & -> & R4).
  destruct (read_spec 0x08 d4) as (d5 & -> & R5). destruct (read_spec 0x09 d5) as (d6 & -> & R6).
  destruct (read_spec 0x0B d6) as (d7 & -> & R7). exists d7. split.
  - rewrite !R6, !R5, !R4, !R3, !R2, !R1. done.
  - intros j. by rewrite R7, R6, R5, R4, R3, R2, R1.
Qed.

Lemma wait_spec k d : exists d', wait_update cmos_read (S k) d = (true, d') /\ forall j, regs d' j = regs d j.
Proof.
  cbn [wait_update]. destruct (read_spec 0x0A d) as (d1 & -> & R1). exists d1. by rewrite no_update.
Qed.

Lemma cmos_datetime_spec d : exists d', cmos_datetime cmos_read d = (Some (decode_regs (raw_date d) (regs d 0x0B)), d').
Proof.
  unfold cmos_datetime. assert (H : exists k, Z.to_nat 10000 = S (S k)) by (exists (Z.to_nat 9998); lia).
  assert (HS : exists k, SPINS = S k) by (exists (Z.to_nat 99999); unfold SPINS; lia).
  destruct H as [k ->]. destruct HS as [sp Esp]. cbn [read_twice]. rewrite Esp.
  destruct (wait_spec sp d) as (d1 & -> & R1). cbn [negb].
  destruct (read_raw_spec d1) as (d2 & -> & R2).
  destruct (wait_spec sp d2) as (d3 & -> & R3). cbn [negb].
  destruct (read_raw_spec d3) as (d4 & -> & R4). exists d4.
  assert (E1 : raw_date d1 = raw_date d) by (unfold raw_date; by rewrite !R1).
  assert (E3 : raw_date d3 = raw_date d) by (unfold raw_date; by rewrite !R3, !R2, !R1).
  rewrite E1, E3, decide_True by done. by rewrite R3, R2, R1.
Qed.

Lemma write_regs_spec dt rb d : regs (write_regs cmos_write dt rb d) 0x0B = rb /\
  raw_date (write_regs cmos_write dt rb d) = Datetime (reg_value rb (second dt)) (reg_value rb (minute dt))
    (hour_value rb (hour dt)) (reg_value rb (day dt)) (reg_value rb (month dt)) (reg_value rb (Z.rem (year dt) 100)).
Proof.
  unfold raw_date, write_regs. generalize (hour_value rb (hour dt)). generalize (reg_value rb). intros f h.
  rewrite !write_reg by done. by split.
Qed.

(** a time that write_raw accepts is read back from the chip as the same
    date, whether the chip counts in BCD or binary, to 12 or to 24 hours *)
Theorem chip_roundtrip t r r' : 0 <= t < 2 ^ 32 -> write_raw cmos_read cmos_write t r = (0, r') ->
  (cmos_datetime cmos_read (dev r')).1 = Some (rtc_split_time t) /\
  raw_now cmos_read r' = (t, r').
Proof.
  intros Ht. unfold write_raw. destruct (t <? 946684800) eqn:E1; [done|]. destruct (2099 <? year (rtc_split_time t)) eqn:E2; [done|].
  destruct (valid_split t Ht) as (Hy & Hm & Hd & Hh & Hmi & Hs). pose proof (mdays_31 (year (rtc_split_time t)) _ Hm) as Hd31.
  pose proof (year_2000 t Ht ltac:(by zbool)) as Hy0.
  set (dt := rtc_split_time t) in *. destruct (read_spec 0x0B (dev r)) as (d1 & Er & R1). rewrite Er.
  set (rb := regs (dev r) 0x0B).
  intros E. apply (inj2 pair) in E as [_ <-]. split.
  - cbn [dev set setter]. destruct (cmos_datetime_spec (write_regs cmos_write dt rb d1)) as (d2 & ->). cbn [fst]. f_equal.
    pose proof (write_regs_spec dt rb d1) as Hregs.
    destruct Hregs as [-> ->]. zbool. apply decode_written; lia.
  - unfold raw_now. cbn [have base_ms ms base set setter]. rewrite Z.sub_diag. change (u32 0) with 0. cbn [negb orb].
    change (600000 <? 0) with false. cbv iota. change (0 / 1000) with 0. rewrite Z.add_0_r, u32_small by exact Ht. done.
Qed.
End chip.

(** ** Time zones *)

(** local time and back is the instant one started from, except in the hour
    that summer time repeats in autumn: there, and only there, it is the earlier
    of the two instants, which has the same local time *)
Theorem zone_roundtrip zone utc :
  0 <= zone < NZONES -> 3600 <= utc -> 0 <= utc + tz_offset_at zone utc < 2 ^ 32 -> utc < 2 ^ 32 ->
  let back := tz_to_utc zone (tz_to_local zone utc) in
  let repeated := tz_is_summer zone (utc - 3600) && negb (tz_is_summer zone utc) in
  back = (if repeated then utc - 3600 else utc) /\ tz_to_local zone back = tz_to_local zone utc.
Proof.
  intros Hz Hu Hl Hu2. cbv zeta. unfold tz_to_utc, tz_to_local, tz_is_summer, tz_offset_at in *.
  assert (Eg : tz_get zone = Some (aget ZONES zone)).
  { unfold tz_get. rewrite (proj2 (Z.leb_le 0 zone)), (proj2 (Z.ltb_lt zone NZONES)) by lia. done. }
  rewrite Eg in *. set (z := aget ZONES zone) in *. set (std := std_min z * 60) in *.
  set (on := summer (rule z) std utc) in *. set (was := summer (rule z) std (utc - 3600)).
  rewrite (u32_small (utc + _)) by (unfold is_u32; lia).
  destruct (rule z =? TZR_NONE) eqn:Er; cbn [negb].
  - assert (Hs : forall u, summer (rule z) std u = false) by (intros u; unfold summer; by rewrite Er).
    assert (Hon : on = false) by apply Hs. assert (Hwas : was = false) by apply Hs.
    rewrite Hon, Hwas in *. cbn [andb negb].
    replace (utc + (std + 0) - std) with utc by lia. rewrite u32_small by (unfold is_u32; lia). split; [done|].
    fold on. rewrite Hon. rewrite u32_small by (unfold is_u32; lia). done.
  - destruct on eqn:Eon.
    + replace (utc + (std + 3600) - std - 3600) with utc by lia. rewrite u32_small by (unfold is_u32; lia).
      fold on. rewrite Eon, Z.eqb_refl, andb_false_r. split; [done|]. fold on. rewrite Eon.
      rewrite u32_small by (unfold is_u32; lia). done.
    + replace (utc + (std + 0) - std - 3600) with (utc - 3600) by lia.
      replace (utc + (std + 0) - std) with utc by lia. rewrite !u32_small by (unfold is_u32; lia).
      fold was. cbn [negb]. rewrite andb_true_r. destruct was eqn:Ew.
      * rewrite Z.eqb_refl. split; [done|]. fold was. rewrite Ew. rewrite u32_small by (unfold is_u32; lia). lia.
      * rewrite (proj2 (Z.eqb_neq _ _)) by lia. split; [done|]. fold on. rewrite Eon.
        rewrite u32_small by (unfold is_u32; lia). done.
Qed.

Lemma last_week_spec fuel y m day : 1 <= day -> day <= mdays y m <= day + 7 * Z.of_nat fuel + 6 ->
  let d := last_week fuel y m day in day <= d <= mdays y m /\ mdays y m < d + 7 /\ (d - day) mod 7 = 0.
Proof.
  revert day. induction fuel as [|fuel IH]; intros day H1 H2; cbn [last_week].
  { split_and!; lia. }
  case_bool; zbool; [|split_and!; lia].
  destruct (IH (day + 7)) as (Hd & He & Hf); [lia|lia|]. split_and!; try lia.
Qed.

(** sunday gives midnight of a Sunday of the month: the n-th, or for n <= 0
    the last one *)
Theorem sunday_spec y m n : 1970 <= y <= 2105 -> 1 <= m <= 12 -> n <= 4 ->
  let s := sunday y m n in
  let d := rtc_split_time s in
  s mod 86400 = 0 /\ (s / 86400 + 4) mod 7 = 0 /\ year d = y /\ month d = m /\
  (if 0 <? n then 7 * (n - 1) < day d <= 7 * n else mdays y m - 7 < day d <= mdays y m).
Proof.
  intros Hy Hm Hn. cbv zeta.
  set (N := days_from_civil y m 1).
  assert (HN : 0 <= N /\ N + 31 < 49710 /\ forall d, days_from_civil y m d = N + d - 1).
  { unfold N, days_from_civil. split_and!.
    - pose proof (days_from_civil_eq y m 1 ltac:(lia) Hm ltac:(lia)) as E. unfold days_from_civil in E. rewrite E.
      unfold march_year, mp_of, first_of. zcases_all; lia.
    - pose proof (days_from_civil_eq y m 1 ltac:(lia) Hm ltac:(lia)) as E. unfold days_from_civil in E. rewrite E.
      unfold march_year, mp_of, first_of. zcases_all; lia.
    - intros d. cbv zeta. lia. }
  destruct HN as (HN0 & HN1 & HNd).
  assert (Hfirst : rtc_make_time y m 1 0 0 0 = N * 86400).
  { unfold rtc_make_time. rewrite (proj2 (Z.ltb_ge y 1970)), (proj2 (Z.ltb_ge m 1)), (proj2 (Z.ltb_ge 12 m)) by lia.
    cbn [orb]. fold N. change (1 <? 1) with false. change (31 <? 1) with false. cbn [orb].
    rewrite (u32_days N (0 * 3600 + 0 * 60 + 0)) by lia. lia. }
  assert (Hml : 28 <= mdays y m <= 31).
  { split; [|by apply mdays_31]. rewrite mdays_mp by lia. unfold mp_days, mp_of, first_of. zcases_all; lia. }
  unfold sunday. rewrite Hfirst. rewrite Z.div_mul by lia.
  set (day0 := 1 + (7 - (N + 4) mod 7) mod 7). assert (H0 : 1 <= day0 <= 7 /\ (N + day0 - 1 + 4) mod 7 = 0) by (unfold day0; lia).
  set (dd := if 0 <? n then day0 + 7 * (n - 1) else last_week 5 y m day0).
  assert (Hdd : 1 <= dd <= mdays y m /\ (N + dd - 1 + 4) mod 7 = 0 /\
    (if 0 <? n then 7 * (n - 1) < dd <= 7 * n else mdays y m - 7 < dd <= mdays y m)).
  { unfold dd. destruct (0 <? n) eqn:En; zbool; [lia|].
    destruct (last_week_spec 5 y m day0) as (H1 & H2 & H3); [lia|lia|]. lia. }
  clearbody dd. destruct Hdd as (Hd1 & Hd2 & Hd3).
  rewrite (u32_small ((dd - 1) * 86400)), u32_small by (unfold is_u32; lia).
  replace (N * 86400 + (dd - 1) * 86400) with ((N + dd - 1) * 86400) by lia.
  rewrite Z.mod_mul, Z.div_mul by lia.
  pose proof (make_then_split (Datetime 0 0 0 dd m y)) as Hms. cbn [year month day hour minute second] in Hms.
  unfold time_of in Hms. cbn [year month day hour minute second] in Hms. rewrite HNd in Hms.
  assert (Hmk : rtc_make_time y m dd 0 0 0 = (N + dd - 1) * 86400).
  { unfold rtc_make_time. rewrite (proj2 (Z.ltb_ge y 1970)), (proj2 (Z.ltb_ge m 1)), (proj2 (Z.ltb_ge 12 m)),
      (proj2 (Z.ltb_ge dd 1)), (proj2 (Z.ltb_ge 31 dd)) by lia. cbn [orb]. rewrite HNd.
    rewrite (u32_days (N + dd - 1) (0 * 3600 + 0 * 60 + 0)) by lia. lia. }
  rewrite Hmk in Hms. rewrite Hms; [|unfold valid_date; cbn [year month day hour minute second]; lia|lia].
  cbn [year month day]. split_and!; try done; lia.
Qed.

(** ** Witnesses *)

(** a chip: its registers, with no update in progress; here in BCD and 12 hours *)
Definition demo_regs (d : gmap Z Z) (i : Z) : Z := if i =? 0x0A then 0x26 else default 0 (d !! i).
Definition demo_read (i : Z) (d : gmap Z Z) : Z * gmap Z Z := (demo_regs d i, d).
Definition demo_write (i v : Z) (d : gmap Z Z) : gmap Z Z := if i =? 0x0A then d else <[i := v]> d.

(** the instant 2026-10-10 16:45:20 *)
Definition demo_rtc : rtc (D := gmap Z Z) := Rtc 0 0 false true 1000 ∅.
Definition demo_set : rtc (D := gmap Z Z) := (write_raw demo_read demo_write 1791650720 demo_rtc).2.

Lemma chip_roundtrip_witness :
  (cmos_datetime demo_read (dev demo_set)).1 = Some (rtc_split_time 1791650720) /\
  raw_now demo_read demo_set = (1791650720, demo_set).
Proof.
  apply (chip_roundtrip demo_read demo_write demo_regs) with (r := demo_rtc).
  - reflexivity.
  - reflexivity.
  - intros i v d j Hi. unfold demo_regs, demo_write. rewrite (proj2 (Z.eqb_neq i 0x0A) Hi).
    destruct (j =? 0x0A) eqn:Ej, (j =? i) eqn:Eji; zbool; subst; try done; [by rewrite lookup_insert_eq|by rewrite lookup_insert_ne by congruence].
  - reflexivity.
  - split; [discriminate|reflexivity].
  - vm_compute. reflexivity.
Defined.

(** Paris, in the hour that is repeated on 2026-10-25 (00:30 and 01:30 UTC) *)
Lemma zone_roundtrip_witness :
  let back := tz_to_utc 21 (tz_to_local 21 1792891800) in
  let repeated := tz_is_summer 21 (1792891800 - 3600) && negb (tz_is_summer 21 1792891800) in
  back = (if repeated then 1792891800 - 3600 else 1792891800) /\ tz_to_local 21 back = tz_to_local 21 1792891800.
Proof. apply (zone_roundtrip 21 1792891800); vm_compute; intuition discriminate. Defined.

Lemma sunday_spec_witness :
  let s := sunday 2026 10 (-1) in
  let d := rtc_split_time s in
  s mod 86400 = 0 /\ (s / 86400 + 4) mod 7 = 0 /\ year d = 2026 /\ month d = 10 /\
  (if 0 <? -1 then 7 * (-1 - 1) < day d <= 7 * -1 else mdays 2026 10 - 7 < day d <= mdays 2026 10).
Proof. apply (sunday_spec 2026 10 (-1)); lia. Defined.

Lemma calendar_witness :
  (valid_date (rtc_split_time 1791650720) /\ time_of (rtc_split_time 1791650720) = 1791650720) /\
  rtc_split_time (time_of (Datetime 15 28 6 7 2 2106)) = Datetime 15 28 6 7 2 2106.
Proof.
  split.
  - apply calendar. split; [discriminate|reflexivity].
  - apply calendar; [|reflexivity]. vm_compute; intuition discriminate.
Defined.
