(* ===== verification/Wire.v ===== *)
(** The wire format (src/net/net.h and src/net/net.c): byte order, the
    Internet checksum, and the text of an IPv4 address. A packet is the list of
    its bytes; a read outside it is a fault. What is written is read back, the
    checksum verifies what it was computed for and detects a changed word, and
    an address survives its text. *)

From S2P Require Import Prelude Lit KString KStringProps.

(** ** net.h: byte order *)

Definition htons (v : Z) : Z := u16 (Z.lor (Z.shiftl v 8) (Z.shiftr v 8)).
Definition ntohs (v : Z) : Z := htons v.
Definition htonl (v : Z) : Z :=
  Z.lor (Z.lor (Z.lor (u32 (Z.shiftl (Z.land v 0xFF) 24)) (u32 (Z.shiftl (Z.land v 0xFF00) 8)))
               (Z.land (Z.shiftr v 8) 0xFF00)) (Z.shiftr v 24).
Definition ntohl (v : Z) : Z := htonl v.

Definition rd8 (p : list Z) (i : Z) : option Z := if 0 <=? i then p !! Z.to_nat i else None.

Definition rd16 (p : list Z) (i : Z) : option Z :=
  a ← rd8 p i; b ← rd8 p (i + 1); Some (u16 (Z.lor (Z.shiftl a 8) b)).

Definition rd32 (p : list Z) (i : Z) : option Z :=
  a ← rd8 p i; b ← rd8 p (i + 1); c ← rd8 p (i + 2); d ← rd8 p (i + 3);
  Some (u32 (Z.lor (Z.lor (Z.lor (Z.shiftl a 24) (Z.shiftl b 16)) (Z.shiftl c 8)) d)).

(** the bytes from [a] up to [b]: what code given a pointer to the one and the
    length between them may read. A range that is not in the packet, its
    length below zero (where the C one wraps) included, is a fault *)
Definition rd_range (p : list Z) (a b : Z) : option (list Z) :=
  if (0 <=? a) && (a <=? b) && (b <=? zlen p) then Some (slice p a b) else None.

(** an element of an array, and the array with one written; outside it, a fault *)
Definition get_at {A} (l : list A) (i : Z) : option A := if 0 <=? i then l !! Z.to_nat i else None.
Definition put_at {A} (l : list A) (i : Z) (v : A) : option (list A) :=
  if (0 <=? i) && (i <? zlen l) then Some (aset l i v) else None.

(** [n] bytes written from [off] on in an array of [cap] bytes *)
Definition buf_write {S} (cap off n : Z) : ST S unit :=
  if (0 <=? off) && (0 <=? n) && (off + n <=? cap) then st_ret tt else fault.

(** the bytes [wr16] and [wr32] store *)
Definition be16 (v : Z) : list Z := [u8 (Z.shiftr v 8); u8 v].
Definition be32 (v : Z) : list Z := [u8 (Z.shiftr v 24); u8 (Z.shiftr v 16); u8 (Z.shiftr v 8); u8 v].

Definition wr16 (p : list Z) (i v : Z) : list Z := aset (aset p i (u8 (Z.shiftr v 8))) (i + 1) (u8 v).
Definition wr32 (p : list Z) (i v : Z) : list Z :=
  aset (aset (aset (aset p i (u8 (Z.shiftr v 24))) (i + 1) (u8 (Z.shiftr v 16))) (i + 2) (u8 (Z.shiftr v 8))) (i + 3) (u8 v).

(** ** net.c: the Internet checksum *)

Fixpoint net_csum_add (sum : Z) (p : list Z) : Z :=
  match p with
  | a :: b :: p => net_csum_add (u32 (sum + Z.lor (Z.shiftl a 8) b)) p
  | [a] => u32 (sum + Z.shiftl a 8)
  | [] => sum
  end.

(** [while (sum >> 16) sum = (sum & 0xFFFF) + (sum >> 16);] *)
Fixpoint fold_carries (fuel : nat) (sum : Z) : Z :=
  match fuel with
  | O => sum
  | S fuel => if Z.shiftr sum 16 =? 0 then sum else fold_carries fuel (u32 (Z.land sum 0xFFFF + Z.shiftr sum 16))
  end.
Definition net_csum_fold (sum : Z) : Z := u16 (Z.lnot (fold_carries 2 sum)).

Definition net_checksum (data : list Z) : Z := net_csum_fold (net_csum_add 0 data).

(** ** net.c: errors and addresses *)

Definition NET_OK : Z := 0.
Definition NET_ERR_TIMEOUT : Z := -1.
Definition NET_ERR_RESET : Z := -2.
Definition NET_ERR_REFUSED : Z := -3.
Definition NET_ERR_NOROUTE : Z := -4.
Definition NET_ERR_NOMEM : Z := -5.
Definition NET_ERR_CLOSED : Z := -6.
Definition NET_ERR_DNS : Z := -7.
Definition NET_ERR_NOTREADY : Z := -8.
Definition NET_ERR_NODEV : Z := -9.
Definition NET_ERR_PROTO : Z := -10.
Definition NET_ERR_INTR : Z := -11.

Definition net_strerror (err : Z) : list Z :=
  if err =? NET_OK then str "success"
  else if err =? NET_ERR_TIMEOUT then str "connection timed out"
  else if err =? NET_ERR_RESET then str "connection reset by peer"
  else if err =? NET_ERR_REFUSED then str "connection refused"
  else if err =? NET_ERR_NOROUTE then str "no route to host"
  else if err =? NET_ERR_NOMEM then str "out of memory"
  else if err =? NET_ERR_CLOSED then str "connection closed"
  else if err =? NET_ERR_DNS then str "could not resolve host"
  else if err =? NET_ERR_NOTREADY then str "network is not configured (no DHCP lease yet?)"
  else if err =? NET_ERR_NODEV then str "no network card found"
  else if err =? NET_ERR_PROTO then str "protocol error"
  else if err =? NET_ERR_INTR then str "interrupted"
  else str "unknown error".

Definition IP4 (a b c d : Z) : Z :=
  Z.lor (Z.lor (Z.lor (Z.shiftl a 24) (Z.shiftl b 16)) (Z.shiftl c 8)) d.
Definition IP4_BROADCAST : Z := 0xFFFFFFFF.

(** the string in a buffer that held [out] *)
Definition ip4_to_str (ip : Z) (out : list Z) : list Z :=
  c_string (ksnprintf out 16 (str "%u.%u.%u.%u")
    [Int (Z.shiftr ip 24); Int (Z.land (Z.shiftr ip 16) 0xFF); Int (Z.land (Z.shiftr ip 8) 0xFF); Int (Z.land ip 0xFF)]).1.

(** the address, or [None] for 0; [part]: the parts still to read *)
Fixpoint str_to_ip4_from (parts : nat) (s : list Z) (v : Z) : option Z :=
  match parts with
  | O => if first_char s =? 0 then Some v else None
  | S parts =>
    let '(used, n) := k_parse_u32 s in
    if (used =? 0) || (3 <? used) || (255 <? n) then None else
    let v := Z.lor (u32 (Z.shiftl v 8)) n in
    let s := drop (Z.to_nat used) s in
    match parts with
    | O => str_to_ip4_from parts s v
    | S _ => if negb (first_char s =? 46) then None else str_to_ip4_from parts (tail s) v
    end
  end.
Definition str_to_ip4 (s : list Z) : option Z := str_to_ip4_from 4 s 0.

(** ** Byte order *)

Lemma word_of a b : is_u8 b -> Z.lor (Z.shiftl a 8) b = a * 256 + b.
Proof.
  unfold is_u8. intros Hb. rewrite Z.shiftl_mul_pow2 by lia. apply (lor_low 8); [lia|done|].
  change (2 ^ 8) with 256. lia.
Qed.

Lemma rd8_at p i : 0 <= i < zlen p -> rd8 p i = Some (aget p i).
Proof.
  intros Hi. unfold rd8. destruct (0 <=? i) eqn:E; zbool; [|lia].
  unfold aget. rewrite list_lookup_total_alt.
  destruct (lookup_lt_is_Some_2 p (Z.to_nat i)) as [x ->]; [unfold zlen in *; lia|done].
Qed.

Lemma rd16_at p i : bytes p -> 0 <= i -> i + 2 <= zlen p ->
  rd16 p i = Some (aget p i * 256 + aget p (i + 1)).
Proof.
  intros Hp Hi Hl. unfold rd16. rewrite !rd8_at by lia. cbn.
  pose proof (byte_at p i Hp ltac:(lia)) as Ha. pose proof (byte_at p (i + 1) Hp ltac:(lia)) as Hb.
  rewrite word_of by done. f_equal. unfold u16, is_u8 in *. apply Z.mod_small. lia.
Qed.

Lemma rd32_at p i : bytes p -> 0 <= i -> i + 4 <= zlen p ->
  rd32 p i = Some (aget p i * 2 ^ 24 + aget p (i + 1) * 2 ^ 16 + aget p (i + 2) * 2 ^ 8 + aget p (i + 3)).
Proof.
  intros Hp Hi Hl. unfold rd32. rewrite !rd8_at by lia. cbn -[Z.pow].
  pose proof (byte_at p i Hp ltac:(lia)) as Ha. pose proof (byte_at p (i + 1) Hp ltac:(lia)) as Hb.
  pose proof (byte_at p (i + 2) Hp ltac:(lia)) as Hc. pose proof (byte_at p (i + 3) Hp ltac:(lia)) as Hd.
  unfold is_u8 in *. rewrite !Z.shiftl_mul_pow2 by lia.
  rewrite (lor_low 24 _ (_ * 2 ^ 16)) by lia. rewrite (lor_low 16 _ (_ * 2 ^ 8)) by lia.
  rewrite (lor_low 8 _ (aget p (i + 3))) by lia. f_equal. unfold u32. apply Z.mod_small. lia.
Qed.

Lemma bytes_be16 v : bytes (be16 v).
Proof. unfold be16. repeat constructor; apply u8_bound. Qed.

Lemma bytes_be32 v : bytes (be32 v).
Proof. unfold be32. repeat constructor; apply u8_bound. Qed.

Lemma be16_eq v : is_u16 v -> be16 v = [v / 256; v mod 256].
Proof.
  unfold is_u16. intros Hv. unfold be16, u8. rewrite Z.shiftr_div_pow2 by lia. repeat f_equal. lia.
Qed.

Lemma be32_value v : is_u32 v ->
  u8 (Z.shiftr v 24) * 2 ^ 24 + u8 (Z.shiftr v 16) * 2 ^ 16 + u8 (Z.shiftr v 8) * 2 ^ 8 + u8 v = v.
Proof. unfold is_u32, u8. intros Hv. rewrite !Z.shiftr_div_pow2 by lia. lia. Qed.

(** a field is found where it was put *)
Lemma aget_shift (p q : list Z) n i : zlen p = n -> n <= i -> aget (p ++ q) i = aget q (i - n).
Proof. intros <- Hi. pose proof (zlen_nonneg p). rewrite aget_app by lia. by rewrite (proj2 (Z.ltb_ge _ _) Hi). Qed.

Lemma rd16_field p q v n : bytes (p ++ be16 v ++ q) -> zlen p = n -> is_u16 v -> rd16 (p ++ be16 v ++ q) n = Some v.
Proof.
  intros Hb Hn Hv. pose proof (zlen_nonneg p). pose proof (zlen_nonneg q).
  rewrite rd16_at; [|done|lia|rewrite !zlen_app; change (zlen (be16 v)) with 2; lia].
  rewrite !(aget_shift p _ n), be16_eq by (done || lia). replace (n - n) with 0 by lia. replace (n + 1 - n) with 1 by lia.
  f_equal. unfold is_u16 in Hv. change (v / 256 * 256 + v mod 256 = v). lia.
Qed.

Lemma rd32_field p q v n : bytes (p ++ be32 v ++ q) -> zlen p = n -> is_u32 v -> rd32 (p ++ be32 v ++ q) n = Some v.
Proof.
  intros Hb Hn Hv. pose proof (zlen_nonneg p). pose proof (zlen_nonneg q).
  rewrite rd32_at; [|done|lia|rewrite !zlen_app; change (zlen (be32 v)) with 4; lia].
  rewrite !(aget_shift p _ n) by (done || lia). replace (n - n) with 0 by lia. replace (n + 1 - n) with 1 by lia.
  replace (n + 2 - n) with 2 by lia. replace (n + 3 - n) with 3 by lia.
  f_equal. by apply be32_value.
Qed.

(** ** The Internet checksum *)

(** the sum of the 16-bit words, the last one padded *)
Fixpoint wsum (p : list Z) : Z :=
  match p with
  | a :: b :: p => a * 256 + b + wsum p
  | [a] => a * 256
  | [] => 0
  end.

Lemma pairs_ind (P : list Z -> Prop) : P [] -> (forall a, P [a]) ->
  (forall a b p, P p -> P (a :: b :: p)) -> forall p, P p.
Proof.
  intros H0 H1 H2 p. enough (P p /\ forall a, P (a :: p)) by tauto.
  induction p as [|x p [IH IH']]; [auto|]. split; [auto|]. intros a. by apply H2.
Qed.

Lemma wsum_bound p : bytes p -> 0 <= wsum p /\ 2 * wsum p <= 65535 * (zlen p + 1).
Proof.
  induction p as [|a|a b p IH] using pairs_ind; intros Hp; cbn [wsum].
  - change (zlen (@nil Z)) with 0. lia.
  - inv Hp. change (zlen [a]) with 1. unfold is_u8 in *. lia.
  - apply Forall_cons in Hp as [Ha Hp]. apply Forall_cons in Hp as [Hb Hp]. specialize (IH Hp).
    rewrite !zlen_cons. unfold is_u8 in *. lia.
Qed.

Lemma wsum_app p q : Z.even (zlen p) = true -> wsum (p ++ q) = wsum p + wsum q.
Proof.
  induction p as [|a|a b p IH] using pairs_ind; intros Hp; [done|done|]. cbn [app wsum].
  rewrite !zlen_cons in Hp. rewrite IH; [lia|]. replace (1 + (1 + zlen p)) with (zlen p + 2) in Hp by lia.
  by rewrite Z.even_add in Hp; destruct (Z.even (zlen p)).
Qed.

Lemma wsum_be16 v : is_u16 v -> wsum (be16 v) = v.
Proof. intros Hv. rewrite be16_eq by done. cbn. unfold is_u16 in Hv. lia. Qed.

(** no sum of a packet overflows its 32 bits *)
Lemma csum_add_sum p s : bytes p -> 0 <= s -> s + wsum p < 2 ^ 32 -> net_csum_add s p = s + wsum p.
Proof.
  revert s. induction p as [|a|a b p IH] using pairs_ind; intros s Hp Hs Hl; cbn [wsum net_csum_add] in *.
  - lia.
  - inv Hp. rewrite Z.shiftl_mul_pow2 by lia. apply u32_small. unfold is_u32, is_u8 in *. change (2 ^ 8) with 256. lia.
  - apply Forall_cons in Hp as [Ha Hp]. apply Forall_cons in Hp as [Hb Hp]. pose proof (wsum_bound p Hp).
    rewrite word_of by done. unfold is_u8 in *. rewrite u32_small by (unfold is_u32; lia).
    rewrite IH by (done || lia). lia.
Qed.

Lemma fold_step s : is_u32 s -> Z.shiftr s 16 = s / 65536 /\ u32 (Z.land s 0xFFFF + Z.shiftr s 16) = s mod 65536 + s / 65536.
Proof.
  unfold is_u32. intros Hs. rewrite Z.shiftr_div_pow2 by lia. change (2 ^ 16) with 65536. split; [done|].
  change 0xFFFF with (Z.ones 16). rewrite Z.land_ones by lia. change (2 ^ 16) with 65536.
  apply u32_small. unfold is_u32. lia.
Qed.

(** two rounds are enough: the folded sum fits 16 bits and keeps its value
    modulo 65535, zero only for zero *)
Lemma fold_carries_spec s : is_u32 s ->
  let f := fold_carries 2 s in is_u16 f /\ f mod 65535 = s mod 65535 /\ (f = 0 <-> s = 0).
Proof.
  intros Hs f. subst f. cbn [fold_carries]. pose proof (fold_step s Hs) as [-> ->]. unfold is_u32 in Hs.
  set (s1 := s mod 65536 + s / 65536). assert (H1 : is_u32 s1) by (unfold is_u32; lia).
  pose proof (fold_step s1 H1) as [-> ->]. unfold is_u16. destruct (s / 65536 =? 0) eqn:E1; zbool; [lia|].
  assert (E : s1 mod 65535 = s mod 65535) by (subst s1; lia).
  assert (B : 0 < s1 < 2 * 65536) by (subst s1; lia).
  destruct (s1 / 65536 =? 0) eqn:E2; zbool; lia.
Qed.

Lemma csum_fold_spec s : is_u32 s -> exists f, net_csum_fold s = 65535 - f /\ is_u16 f /\
  f mod 65535 = s mod 65535 /\ (f = 0 <-> s = 0).
Proof.
  intros Hs. destruct (fold_carries_spec s Hs) as (Hf & Hm & H0). exists (fold_carries 2 s). split_and!; try done.
  unfold net_csum_fold, u16, Z.lnot. unfold is_u16 in Hf. lia.
Qed.

Lemma csum_fold_bound s : is_u32 s -> is_u16 (net_csum_fold s).
Proof. intros Hs. apply csum_fold_spec in Hs as (f & -> & Hf & _). unfold is_u16 in *. lia. Qed.

Lemma csum_fold_zero s : is_u32 s -> net_csum_fold s = 0 <-> s <> 0 /\ s mod 65535 = 0.
Proof.
  intros Hs. destruct (csum_fold_spec s Hs) as (f & -> & Hf & Hm & H0). unfold is_u16 in Hf. lia.
Qed.

(** the sum with the checksum in its place *)
Lemma csum_verifies s cs : 0 <= s -> s + 65535 < 2 ^ 32 ->
  cs = net_csum_fold s \/ cs = 0xFFFF /\ net_csum_fold s = 0 -> net_csum_fold (s + cs) = 0.
Proof.
  intros Hs Hl Hc. destruct (csum_fold_spec s) as (f & Hf & Hb & Hm & H0); [unfold is_u32; lia|]. unfold is_u16 in Hb.
  apply csum_fold_zero; [unfold is_u32; lia|]. destruct Hc as [->|[-> Hc]]; lia.
Qed.

(** packets short enough that no sum overflows: an IPv4 packet is at most
    65535 bytes *)
Lemma wsum_short p : bytes p -> zlen p <= 65536 -> 0 <= wsum p < 2 ^ 32 - 65536.
Proof. intros Hp Hl. pose proof (wsum_bound p Hp). lia. Qed.

Lemma net_checksum_sum p : bytes p -> zlen p <= 65536 -> net_checksum p = net_csum_fold (wsum p).
Proof.
  intros Hp Hl. pose proof (wsum_short p Hp Hl). unfold net_checksum. by rewrite csum_add_sum by (done || lia).
Qed.

Lemma wr16_at a b x y v : wr16 (a ++ x :: y :: b) (zlen a) v = a ++ be16 v ++ b.
Proof.
  unfold wr16, aset, zlen. rewrite Nat2Z.id. replace (Z.to_nat (Z.of_nat (length a) + 1)) with (length a + 1)%nat by lia.
  rewrite insert_app_r_alt, Nat.sub_diag by lia. rewrite insert_app_r_alt by lia.
  by replace (length a + 1 - length a)%nat with 1%nat by lia.
Qed.

Lemma wsum_field a b v : Z.even (zlen a) = true -> is_u16 v -> wsum (a ++ be16 v ++ b) = wsum a + v + wsum b.
Proof.
  intros Ha Hv. rewrite wsum_app by done. rewrite wsum_app by done. rewrite wsum_be16 by done. lia.
Qed.

Lemma bytes_field a b v : bytes (a ++ b) -> bytes (a ++ be16 v ++ b).
Proof. rewrite !bytes_app. intros [? ?]. split_and!; try done. apply bytes_be16. Qed.

Lemma zlen_field {A} (a b c d : list A) : zlen c = zlen d -> zlen (a ++ c ++ b) = zlen (a ++ d ++ b).
Proof. rewrite !zlen_app. lia. Qed.

(** the sum of a packet with a field in it *)
Lemma field_sum a b v : bytes (a ++ b) -> Z.even (zlen a) = true -> zlen (a ++ b) <= 65534 -> is_u16 v ->
  net_checksum (a ++ be16 v ++ b) = net_csum_fold (wsum a + v + wsum b) /\ 0 <= wsum a + v + wsum b < 2 ^ 32 - 65536.
Proof.
  intros Hp Ha Hl Hv. rewrite zlen_app in Hl. pose proof (bytes_field a b v Hp) as Hb.
  assert (L : zlen (a ++ be16 v ++ b) <= 65536) by (rewrite !zlen_app; change (zlen (be16 v)) with 2; lia).
  pose proof (wsum_short _ Hb L) as B. rewrite net_checksum_sum by done. by rewrite wsum_field in * by done.
Qed.

(** a checksum computed with its field zero and then stored there verifies:
    the sum over the whole folds to zero *)
Lemma checksum_stored a b : bytes (a ++ b) -> Z.even (zlen a) = true -> zlen (a ++ b) <= 65534 ->
  let cs := net_checksum (a ++ 0 :: 0 :: b) in
  is_u16 cs /\ wr16 (a ++ 0 :: 0 :: b) (zlen a) cs = a ++ be16 cs ++ b /\ net_checksum (a ++ be16 cs ++ b) = 0.
Proof.
  intros Hp Ha Hl cs. destruct (field_sum a b 0 Hp Ha Hl ltac:(done)) as [E B].
  change (a ++ be16 0 ++ b) with (a ++ 0 :: 0 :: b) in E. fold cs in E.
  assert (Hc : is_u16 cs) by (rewrite E; apply csum_fold_bound; unfold is_u32; lia).
  split_and!; [done|apply wr16_at|]. destruct (field_sum a b cs Hp Ha Hl Hc) as [-> B'].
  replace (wsum a + cs + wsum b) with (wsum a + 0 + wsum b + cs) by lia. apply csum_verifies; [lia|lia|by left].
Qed.

(** a packet that verifies no longer does when one of its 16-bit words is
    changed, but for the two zeros of ones' complement arithmetic. *)
Theorem checksum_detects a b v w : bytes (a ++ b) -> Z.even (zlen a) = true -> zlen (a ++ b) <= 65534 ->
  is_u16 v -> is_u16 w -> v <> w -> Z.abs (v - w) <> 65535 ->
  net_checksum (a ++ be16 v ++ b) = 0 -> net_checksum (a ++ be16 w ++ b) <> 0.
Proof.
  intros Hp Ha Hl Hv Hw Hne Hz. destruct (field_sum a b v Hp Ha Hl Hv) as [-> Bv].
  destruct (field_sum a b w Hp Ha Hl Hw) as [-> Bw]. unfold is_u16 in *. rewrite !csum_fold_zero by (unfold is_u32; lia). lia.
Qed.

(** ** Addresses *)

Lemma octets ip : is_u32 ip -> IP4 (Z.shiftr ip 24) (Z.land (Z.shiftr ip 16) 0xFF) (Z.land (Z.shiftr ip 8) 0xFF) (Z.land ip 0xFF) = ip
  /\ is_u8 (Z.shiftr ip 24) /\ is_u8 (Z.land (Z.shiftr ip 16) 0xFF) /\ is_u8 (Z.land (Z.shiftr ip 8) 0xFF) /\ is_u8 (Z.land ip 0xFF).
Proof.
  unfold is_u32. intros Hip. change 0xFF with (Z.ones 8). rewrite !Z.land_ones, !Z.shiftr_div_pow2 by lia.
  unfold IP4, is_u8. rewrite !Z.shiftl_mul_pow2 by lia.
  rewrite (lor_low 24 _ (_ * 2 ^ 16)) by lia. rewrite (lor_low 16 _ (_ * 2 ^ 8)) by lia.
  rewrite (lor_low 8) by lia. lia.
Qed.

Lemma dec_short v : is_u8 v -> 1 <= zlen (dec_text v) <= 3.
Proof.
  intros Hv. pose proof (forall_byte (fun v => (1 <=? zlen (dec_text v)) && (zlen (dec_text v) <=? 3)) eq_refl v Hv).
  cbn beta in *. zbool. lia.
Qed.

Lemma dec_nonzero v : 0 <= v < 2 ^ 32 -> Forall (fun c => c <> 0) (dec_text v).
Proof.
  intros Hv. pose proof (dec_digits v Hv) as H. apply Forall_forall. intros c Hc ->.
  rewrite forallb_forall in H. by specialize (H 0 (proj1 (list_elem_of_In _ _) Hc)).
Qed.

(** the four parts *)
Definition dotted (a b c d : Z) : list Z := dec_text a ++ [46] ++ dec_text b ++ [46] ++ dec_text c ++ [46] ++ dec_text d.

Lemma dotted_text a b c d : is_u8 a -> is_u8 b -> is_u8 c -> is_u8 d ->
  format_text 11 (str "%u.%u.%u.%u") [Int a; Int b; Int c; Int d] = dotted a b c d.
Proof.
  unfold is_u8. intros Ha Hb Hc Hd. transitivity
    (num_text (u32 a) 10 false false 0 false false ++ 46 :: num_text (u32 b) 10 false false 0 false false ++ 46 ::
     num_text (u32 c) 10 false false 0 false false ++ 46 :: num_text (u32 d) 10 false false 0 false false ++ []); [reflexivity|].
  rewrite !u32_small by (unfold is_u32; lia). by rewrite !num_text_dec, app_nil_r.
Qed.

Lemma ip4_to_str_dotted ip out : is_u32 ip -> zlen out = 16 ->
  exists a b c d, is_u8 a /\ is_u8 b /\ is_u8 c /\ is_u8 d /\ ip = IP4 a b c d /\ ip4_to_str ip out = dotted a b c d.
Proof.
  intros Hip Ho. destruct (octets ip Hip) as (E & Ha & Hb & Hc & Hd). exists (Z.shiftr ip 24), (Z.land (Z.shiftr ip 16) 0xFF), (Z.land (Z.shiftr ip 8) 0xFF), (Z.land ip 0xFF).
  split_and!; try done.
  unfold ip4_to_str. pose proof (ksnprintf_text out 16 (str "%u.%u.%u.%u")
    [Int (Z.shiftr ip 24); Int (Z.land (Z.shiftr ip 16) 0xFF); Int (Z.land (Z.shiftr ip 8) 0xFF); Int (Z.land ip 0xFF)]) as H.
  cbv zeta in H. change (length (str "%u.%u.%u.%u")) with 11%nat in H. rewrite dotted_text in H by done.
  apply H; [done| |].
  - unfold dotted. rewrite !zlen_app. change (zlen [46]) with 1.
    pose proof (dec_short _ Ha). pose proof (dec_short _ Hb). pose proof (dec_short _ Hc). pose proof (dec_short _ Hd). lia.
  - unfold dotted, is_u8 in *. repeat (apply Forall_app; split); try (apply dec_nonzero; lia); by repeat constructor.
Qed.

(** reading one part *)
Lemma part_read parts v n rest : is_u8 n -> (forall c, head rest = Some c -> k_isdigit c = false) ->
  str_to_ip4_from (S parts) (dec_text n ++ rest) v =
    (let v := Z.lor (u32 (Z.shiftl v 8)) n in
     match parts with
     | O => str_to_ip4_from parts rest v
     | S _ => if negb (first_char rest =? 46) then None else str_to_ip4_from parts (tail rest) v
     end).
Proof.
  intros Hn Hr. cbn [str_to_ip4_from]. rewrite parse_dec by (done || unfold is_u8 in *; lia).
  pose proof (dec_short n Hn) as Hs. unfold is_u8 in Hn.
  rewrite (proj2 (Z.eqb_neq (zlen (dec_text n)) 0)), (proj2 (Z.ltb_ge 3 _)), (proj2 (Z.ltb_ge 255 n)) by lia. cbn [orb].
  unfold zlen. rewrite Nat2Z.id. by rewrite drop_app_length.
Qed.

(** every IPv4 address fits its 16-byte text buffer, and str_to_ip4 reads that
    text back as the same address *)
Lemma ip4_text_roundtrip ip out : is_u32 ip -> zlen out = 16 -> str_to_ip4 (ip4_to_str ip out) = Some ip.
Proof.
  intros Hip Ho. destruct (ip4_to_str_dotted ip out Hip Ho) as (a & b & c & d & Ha & Hb & Hc & Hd & -> & ->).
  unfold str_to_ip4, dotted.
  do 3 (rewrite part_read by (done || by intros ? [= <-]); cbn [first_char head default app negb tail Z.eqb Pos.eqb]).
  rewrite <- (app_nil_r (dec_text d)), part_read by done. cbn [str_to_ip4_from first_char head default Z.eqb]. f_equal.
  unfold IP4, is_u8, u32 in *. rewrite !Z.shiftl_mul_pow2 by lia.
  rewrite !(lor_low 24 _ (_ * 2 ^ 16)) by lia. rewrite !(lor_low 16 _ (_ * 2 ^ 8)) by lia.
  repeat rewrite (lor_low 8) by lia. lia.
Qed.

(** ** Reads inside the packet *)

Lemma rd8_some p i : 0 <= i < zlen p -> is_Some (rd8 p i).
Proof. intros Hi. by rewrite rd8_at. Qed.

Lemma rd16_some p i : 0 <= i -> i + 2 <= zlen p -> is_Some (rd16 p i).
Proof. intros Hi Hl. unfold rd16. by rewrite !rd8_at by lia. Qed.

Lemma rd32_some p i : 0 <= i -> i + 4 <= zlen p -> is_Some (rd32 p i).
Proof. intros Hi Hl. unfold rd32. by rewrite !rd8_at by lia. Qed.

Lemma land_15 x : 0 <= Z.land x 0x0F <= 15.
Proof. pose proof (Z.land_ones x 4 ltac:(lia)) as H. change (Z.ones 4) with 15 in H. rewrite H. change (2 ^ 4) with 16. lia. Qed.

Lemma bytes_drop p n : bytes p -> bytes (drop n p).
Proof. apply Forall_drop. Qed.

Lemma u16_join v : is_u16 v -> u16 (Z.lor (Z.shiftl (u8 (Z.shiftr v 8)) 8) (u8 v)) = v.
Proof.
  unfold is_u16. intros Hv. pose proof (u8_bound v). rewrite word_of by done. unfold u8, u16. rewrite Z.shiftr_div_pow2 by lia. lia.
Qed.

Lemma u32_join v : is_u32 v ->
  u32 (Z.lor (Z.lor (Z.lor (Z.shiftl (u8 (Z.shiftr v 24)) 24) (Z.shiftl (u8 (Z.shiftr v 16)) 16)) (Z.shiftl (u8 (Z.shiftr v 8)) 8)) (u8 v)) = v.
Proof.
  intros Hv. pose proof (be32_value v Hv) as E.
  pose proof (u8_bound (Z.shiftr v 24)). pose proof (u8_bound (Z.shiftr v 16)).
  pose proof (u8_bound (Z.shiftr v 8)). pose proof (u8_bound v). unfold is_u8 in *. rewrite !Z.shiftl_mul_pow2 by lia.
  rewrite (lor_low 24 _ (_ * 2 ^ 16)) by lia. rewrite (lor_low 16 _ (_ * 2 ^ 8)) by lia.
  rewrite (lor_low 8) by lia. rewrite E. by apply u32_small.
Qed.

Lemma rd_range_at p a b : 0 <= a <= b -> b <= zlen p -> rd_range p a b = Some (slice p a b).
Proof. intros. unfold rd_range. by rewrite (proj2 (Z.leb_le 0 a)), (proj2 (Z.leb_le a b)), (proj2 (Z.leb_le b _)) by lia. Qed.

Lemma rd_range_some p a b : 0 <= a <= b -> b <= zlen p -> is_Some (rd_range p a b).
Proof. intros. rewrite rd_range_at by done. eauto. Qed.

Lemma get_at_in {A} `{Inhabited A} (l : list A) i : 0 <= i < zlen l -> get_at l i = Some (aget l i).
Proof.
  intros Hi. unfold get_at, aget, zlen in *. rewrite (proj2 (Z.leb_le 0 i)) by lia.
  apply list_lookup_lookup_total_lt. lia.
Qed.

Lemma get_at_some {A} `{Inhabited A} (l : list A) i : 0 <= i < zlen l -> is_Some (get_at l i).
Proof. intros. rewrite get_at_in by done. eauto. Qed.

Lemma put_at_in {A} (l : list A) i v : 0 <= i < zlen l -> put_at l i v = Some (aset l i v).
Proof. intros. unfold put_at. by rewrite (proj2 (Z.leb_le 0 i)), (proj2 (Z.ltb_lt i _)) by lia. Qed.

Lemma put_at_inv {A} (l l' : list A) i v : put_at l i v = Some l' -> 0 <= i < zlen l /\ l' = aset l i v.
Proof. unfold put_at. destruct (_ && _) eqn:E; [|done]. zbool. by intros [= <-]. Qed.

Lemma buf_write_run {S} cap off n (s : S) : 0 <= off -> 0 <= n -> off + n <= cap -> buf_write cap off n s = Some (tt, s).
Proof. intros. unfold buf_write. by rewrite (proj2 (Z.leb_le 0 off)), (proj2 (Z.leb_le 0 n)), (proj2 (Z.leb_le _ cap)) by lia. Qed.

Lemma slice_all {A} (p : list A) : slice p 0 (zlen p) = p.
Proof. unfold slice. cbn. rewrite Z.sub_0_r. unfold zlen. rewrite Nat2Z.id. apply firstn_all. Qed.

Lemma slice_head {A} (p q : list A) : slice (p ++ q) 0 (zlen p) = p.
Proof. unfold slice. cbn. rewrite Z.sub_0_r. unfold zlen. rewrite Nat2Z.id. apply take_app_length. Qed.

Lemma slice_tail {A} (p q : list A) : slice (p ++ q) (zlen p) (zlen p + zlen q) = q.
Proof.
  unfold slice. replace (zlen p + zlen q - zlen p) with (zlen q) by lia. unfold zlen. rewrite !Nat2Z.id, drop_app_length. apply firstn_all.
Qed.

Lemma rd8_skip a q i : 0 <= i -> rd8 (a ++ q) (zlen a + i) = rd8 q i.
Proof.
  intros Hi. pose proof (zlen_nonneg a). unfold rd8. rewrite !(proj2 (Z.leb_le 0 _)) by lia.
  rewrite lookup_app_r by (unfold zlen; lia). f_equal. unfold zlen. lia.
Qed.

Lemma rd16_put a v q n : is_u16 v -> zlen a = n -> rd16 (a ++ be16 v ++ q) n = Some v.
Proof.
  intros Hv <-. unfold rd16. replace (zlen a) with (zlen a + 0) at 1 by lia. rewrite !rd8_skip by lia.
  transitivity (Some (u16 (Z.lor (Z.shiftl (u8 (Z.shiftr v 8)) 8) (u8 v)))); [reflexivity|by rewrite u16_join].
Qed.

Lemma rd32_put a v q n : is_u32 v -> zlen a = n -> rd32 (a ++ be32 v ++ q) n = Some v.
Proof.
  intros Hv <-. unfold rd32. replace (zlen a) with (zlen a + 0) at 1 by lia. rewrite !rd8_skip by lia.
  transitivity (Some (u32 (Z.lor (Z.lor (Z.lor (Z.shiftl (u8 (Z.shiftr v 24)) 24) (Z.shiftl (u8 (Z.shiftr v 16)) 16))
    (Z.shiftl (u8 (Z.shiftr v 8)) 8)) (u8 v)))); [reflexivity|by rewrite u32_join].
Qed.

Lemma rd8_put a v q n : zlen a = n -> rd8 (a ++ [v] ++ q) n = Some v.
Proof. intros <-. replace (zlen a) with (zlen a + 0) by lia. by rewrite rd8_skip. Qed.

Lemma checksum_detects_witness : net_checksum ([0x45; 0] ++ be16 0x001C ++ [0xBA; 0xE3]) = 0 /\
  net_checksum ([0x45; 0] ++ be16 0x001D ++ [0xBA; 0xE3]) <> 0.
Proof.
  assert (Hb : bytes ([0x45; 0] ++ [0xBA; 0xE3])) by (repeat (apply Forall_cons; split; [done|]); constructor).
  split; [reflexivity|].
  apply (checksum_detects [0x45; 0] [0xBA; 0xE3] 0x001C 0x001D Hb); done.
Defined.
