(* ===== verification/Settings.v ===== *)
(** The saved settings (settings_get and settings_set of
    src/kernel/settings.c): the interface the kernel's other parts use, its
    laws, and its implementation on the settings file. *)

From S2P Require Import Prelude KString Lit Textbuf Config ConfigProps.

(** a value, and storing one *)
Class SettingsOps (C : Type) := {
  settings_get : C -> list Z -> Z -> option (list Z);
  settings_set : C -> list Z -> list Z -> C;
}.

(** on settings that can be written, a value stored is read back, and the
    other keys keep theirs *)
Class SettingsLaws (C : Type) `{SettingsOps C} := {
  writable : C -> Prop;
  set_writable : forall c k v, writable c -> good_key k -> good_value v -> writable (settings_set c k v);
  get_set_eq : forall c k v cap, writable c -> good_key k -> good_value v -> zlen v < cap ->
    settings_get (settings_set c k v) k cap = Some v;
  get_set_ne : forall c k v k' cap, writable c -> good_key k -> good_value v -> good_key k' -> k' <> k -> 0 < cap ->
    settings_get (settings_set c k v) k' cap = settings_get c k' cap;
}.

(** a file system that takes every write *)
Class FsRoom (F : Type) `{FsOps F} :=
  fs_write_ok : forall f path text, (fs_write_path f path text).2 = true.

Definition CFG_SETTINGS : list Z := str "/etc/settings.conf".
Definition settings_header : list Z := str "# Banana OS settings (the Settings app writes this)" ++ [10].

(** an error is reported on the screen and the file left as it was; pushing
    the file to the disk (cfg_persist) is not modelled *)
Definition save_setting {F} `{FsOps F} (mem : bool) (f : F) (key value : list Z) : F * bool :=
  let '(f', r) := cfg_set f mem CFG_SETTINGS key (Some value) (Some settings_header) in
  if negb (r =? 0) then (f, false) else (f', true).

#[export] Instance file_settings {F} `{FsOps F} : SettingsOps F := {
  settings_get f key cap := cfg_get f CFG_SETTINGS key cap;
  settings_set f key value := (save_setting true f key value).1;
}.

(** ** The laws *)

Section laws.
Context {F : Type} `{FsLaws F} {R : FsRoom F}.

Definition settings_readable (f : F) : Prop := fs_file_at f CFG_SETTINGS <> Unreadable.

Lemma find_no61 text key : Forall (fun c => c <> 61) text -> find text key = None.
Proof.
  intros Ht. unfold find. generalize 0. induction (S (length text)) as [|fuel IH]; intros p; cbn [find_line]; [done|].
  destruct (zlen text <=? p); [done|]. set (s := skip_blank _ _ _ _).
  assert (Hs : (aget text (s + strlen key) =? 61) = false).
  { apply Z.eqb_neq. unfold aget. rewrite list_lookup_total_alt. destruct (text !! _) as [c|] eqn:E; [|done]. cbn.
    by apply (Forall_lookup_1 _ _ _ _ Ht E). }
  rewrite Hs, !andb_false_r. apply IH.
Qed.

Lemma header_plain : Forall (fun c => c <> 61) settings_header.
Proof. by repeat constructor. Qed.

Lemma cfg_set_ok f path key v header : fs_file_at f path <> Unreadable ->
  (cfg_set f true path key (Some v) header).2 = 0.
Proof using R.
  intros Hf. unfold cfg_set.
  assert (G : forall old buf : list Z, (if (strlen old =? strlen buf) && (memcmp old buf (length buf) =? 0) then (f, 0)
    else let '(f, ok) := fs_write_path f path buf in (f, if ok : bool then 0 else -1)).2 = 0).
  { intros old buf. destruct (_ && _); [done|]. pose proof (fs_write_ok f path buf) as Hw.
    destruct (fs_write_path f path buf) as [f1 ok]. cbn in *. by subst ok. }
  destruct (fs_file_at f path) as [| |t]; [apply G|done|apply G].
Qed.

(** a write to a readable file works, and leaves lines that read as they
    should; [header] has no '=' *)
Lemma write_lines path header f k v cap : Forall (fun c => c <> 61) header ->
  fs_file_at f path <> Unreadable -> good_key k -> good_value v -> 0 < cap ->
  exists f', cfg_set f true path k (Some v) (Some header) = (f', 0) /\ fs_file_at f' path <> Unreadable /\
  exists a b, Forall (fun l => matches k l = false) a /\
    (forall k', good_key k' -> cfg_get f' path k' cap = get_ref k' (a ++ [kv k v] ++ b) cap) /\
    forall k', good_key k' -> k' <> k -> get_ref k' (a ++ b) cap = cfg_get f path k' cap.
Proof using R H0.
  intros Hp Hf Hk Hv Hc. set (old := match fs_file_at f path with Content t => t | _ => [] end).
  assert (Hold : match fs_file_at f path with Content t => t = old | Missing => old = [] | Unreadable => False end).
  { subst old. by destruct (fs_file_at f path). }
  destruct (cfg_set f true path k (Some v) (Some header)) as [f' r] eqn:Es.
  assert (r = 0) as ->.
  { apply (f_equal snd) in Es. rewrite cfg_set_ok in Es; done. }
  assert (Hh : forall k', find (base_text [] (Some header)) k' = None) by (intros k'; by apply find_no61).
  exists f'. split; [done|]. split.
  { by destruct (cfg_set_text f true _ k v _ f' old Hold Es) as [-> |(-> & -> & _)]. }
  destruct (cfg_set_lines f true path k v (Some header) f' old cap) as (a & b & Ha & Hr & Ho); try done.
  { by intros ->. }
  exists a, b. split_and!; [done|done|]. intros k' Hk' Hne. rewrite Ho by done.
  unfold cfg_get. destruct (cap <=? 0) eqn:E; zbool; [lia|].
  assert (Hn : get_text (base_text [] (Some header)) k' cap = None) by (unfold get_text; by rewrite Hh).
  destruct (fs_file_at f path) as [| |t]; [by rewrite Hold|done|].
  rewrite Hold. change (get_text (base_text old (Some header)) k' cap = get_text old k' cap).
  destruct old; [by rewrite Hn|reflexivity].
Qed.

(** the same as laws of one file; [header] has no '=' *)
Lemma put_readable path header f k v : Forall (fun c => c <> 61) header -> fs_file_at f path <> Unreadable ->
  good_key k -> good_value v -> fs_file_at (cfg_set f true path k (Some v) (Some header)).1 path <> Unreadable.
Proof using R H0.
  intros Hp Hf Hk Hv. by destruct (write_lines path header f k v 1 Hp Hf Hk Hv ltac:(done)) as (f' & -> & Hr & _).
Qed.

Lemma put_get_eq path header f k v cap : Forall (fun c => c <> 61) header -> fs_file_at f path <> Unreadable ->
  good_key k -> good_value v -> zlen v < cap ->
  cfg_get (cfg_set f true path k (Some v) (Some header)).1 path k cap = Some v.
Proof using R H0.
  intros Hp Hf Hk Hv Hc. pose proof (zlen_nonneg v).
  destruct (write_lines path header f k v cap Hp Hf Hk Hv ltac:(lia)) as (f' & -> & _ & a & b & Ha & Hr & _). cbn [fst].
  rewrite Hr by done. by apply get_ref_kv.
Qed.

Lemma put_get_ne path header f k v k' cap : Forall (fun c => c <> 61) header -> fs_file_at f path <> Unreadable ->
  good_key k -> good_value v -> good_key k' -> k' <> k -> 0 < cap ->
  cfg_get (cfg_set f true path k (Some v) (Some header)).1 path k' cap = cfg_get f path k' cap.
Proof using R H0.
  intros Hp Hf Hk Hv Hk' Hne Hc.
  destruct (write_lines path header f k v cap Hp Hf Hk Hv Hc) as (f' & -> & _ & a & b & Ha & Hr & Ho). cbn [fst].
  rewrite Hr, get_ref_kv_other by done. by apply Ho.
Qed.

Lemma settings_set_put f k v : settings_readable f ->
  settings_set f k v = (cfg_set f true CFG_SETTINGS k (Some v) (Some settings_header)).1.
Proof using R.
  intros Hf. pose proof (cfg_set_ok f CFG_SETTINGS k v (Some settings_header) Hf) as Hok.
  unfold settings_set, file_settings, save_setting. by destruct (cfg_set _ _ _ _ _ _) as [f' r]; cbn in Hok; subst r.
Qed.

#[export] Instance file_settings_laws : SettingsLaws F.
Proof using R H0.
  refine {| writable := settings_readable |}.
  - intros f k v Hf Hk Hv. rewrite settings_set_put by done. by apply put_readable, Hv; [apply header_plain| |].
  - intros f k v cap Hf Hk Hv Hc. rewrite settings_set_put by done. by apply put_get_eq; [apply header_plain|..].
  - intros f k v k' cap Hf Hk Hv Hk' Hne Hc. rewrite settings_set_put by done. by apply put_get_ne; [apply header_plain|..].
Defined.
End laws.

#[export] Instance map_fs_room : FsRoom (gmap (list Z) (list Z)).
Proof. by intros f path text. Qed.
