(* ===== verification/Firewall.v ===== *)
(** The firewall (src/net/firewall.c), against an interface to the saved
    settings. The ports allowed in are the first [g_ntcp] ([g_nudp]) entries of
    their array, as a list; what the kernel log says is not modelled. *)

From S2P Require Import Prelude Lit KString Settings.

Definition FW_TCP : Z := 6.
Definition FW_UDP : Z := 17.
Definition MAX_PORTS : Z := 32.
Definition UDP_OUT : Z := 32.
Definition UDP_OUT_MS : Z := 5 * 60 * 1000.
Definition LOG_N : Z := 16.

(** a port we sent from, and when ([g_out]) *)
Record out_t := Out { port : Z; ms : Z }.
#[export] Instance out_eta : Eta out_t := fun o => Out (port o) (ms o).
#[export] Instance out_inhabited : Inhabited out_t := populate (Out 0 0).

Record fw_t (C : Type) := Fw {
  g_on : bool; g_ping : bool;
  g_tcp : list Z; g_udp : list Z;
  g_out : list out_t;
  g_blocked : Z;
  g_log : list (list Z); g_log_at : Z; g_log_n : Z;
  conf : C;
}.
Arguments Fw {C}. Arguments g_on {C}. Arguments g_ping {C}. Arguments g_tcp {C}. Arguments g_udp {C}.
Arguments g_out {C}. Arguments g_blocked {C}. Arguments g_log {C}. Arguments g_log_at {C}. Arguments g_log_n {C}.
Arguments conf {C}.
#[export] Instance fw_eta {C} : Eta (fw_t C) := fun f =>
  Fw (g_on f) (g_ping f) (g_tcp f) (g_udp f) (g_out f) (g_blocked f) (g_log f) (g_log_at f) (g_log_n f) (conf f).

(** zeroed memory and the settings on disk *)
Definition fw_zero {C} (c : C) : fw_t C :=
  Fw false false [] [] (replicate 32 (Out 0 0)) 0 (replicate 16 (replicate 64 0)) 0 0 c.

Section firewall.
Context {C : Type} `{SettingsOps C}.
Notation fw := (fw_t C).

(** ** The saved port lists *)

Definition PORTS_BUF : Z := MAX_PORTS * 6 + 2.

(** the loop of save_ports over one list: the buffer and [o] *)
Fixpoint write_ports (v : list Z) (o : Z) (first : bool) (a : list Z) : list Z * Z :=
  match a with
  | [] => (v, o)
  | x :: a =>
    let '(b, n) := ksnprintf (drop (Z.to_nat o) v) (u64 (PORTS_BUF - o)) (if first then str "%u" else str ",%u") [Int x] in
    write_ports (take (Z.to_nat o) v ++ b) (o + n) false a
  end.
Definition ports_text (a : list Z) : list Z :=
  c_string (write_ports (aset (replicate (Z.to_nat PORTS_BUF) 0) 0 0) 0 true a).1.

Definition save_ports (f : fw) : fw :=
  let f := f <| conf ::= fun c => settings_set c (str "fw.tcp") (ports_text (g_tcp f)) |> in
  f <| conf ::= fun c => settings_set c (str "fw.udp") (ports_text (g_udp f)) |>.

Fixpoint parse_ports (fuel : nat) (s a : list Z) : list Z :=
  match fuel with
  | O => a
  | S fuel =>
    if (first_char s =? 0) || (MAX_PORTS <=? zlen a) then a else
    let '(d, x) := k_parse_u32 s in
    if d =? 0 then a else
    let a := if negb (x =? 0) && (x <? 65536) then a ++ [u16 x] else a in
    let s := drop (Z.to_nat d) s in
    parse_ports fuel (if first_char s =? 44 then tail s else s) a
  end.
Definition load_ports (c : C) (key : list Z) : list Z :=
  match settings_get c key PORTS_BUF with
  | Some v => parse_ports (length v) v []
  | None => []
  end.

(** [settings_get(key, v, sizeof(v)) > 0 && !strcmp(v, "on")] *)
Definition setting_on (c : C) (key : list Z) : bool :=
  match settings_get c key 8 with
  | Some v => strcmp v (str "on") =? 0
  | None => false
  end.

Definition fw_boot (f : fw) : fw :=
  f <| g_on := setting_on (conf f) (str "firewall") |>
    <| g_ping := setting_on (conf f) (str "fw.ping") |>
    <| g_tcp := load_ports (conf f) (str "fw.tcp") |>
    <| g_udp := load_ports (conf f) (str "fw.udp") |>.

Definition fw_enabled (f : fw) : bool := g_on f.
Definition fw_enable (f : fw) (on : bool) : fw :=
  f <| g_on := on |> <| conf ::= fun c => settings_set c (str "firewall") (if on then str "on" else str "off") |>.
Definition fw_ping_allowed (f : fw) : bool := g_ping f.
Definition fw_set_ping (f : fw) (allow : bool) : fw :=
  f <| g_ping := allow |> <| conf ::= fun c => settings_set c (str "fw.ping") (if allow then str "on" else str "off") |>.

(** ** The allowed ports *)

Definition ports_of (f : fw) (proto : Z) : list Z := if proto =? FW_UDP then g_udp f else g_tcp f.
Definition set_ports (f : fw) (proto : Z) (a : list Z) : fw :=
  if proto =? FW_UDP then f <| g_udp := a |> else f <| g_tcp := a |>.

Definition fw_allowed (f : fw) (proto port : Z) : bool := existsb (Z.eqb port) (ports_of f proto).

(** the last index holding [port], -1 when there is none *)
Fixpoint last_at (a : list Z) (port i at_ : Z) : Z :=
  match a with
  | [] => at_
  | x :: a => last_at a port (i + 1) (if x =? port then i else at_)
  end.

Definition fw_allow (f : fw) (proto port : Z) (allow : bool) : fw * Z :=
  let a := ports_of f proto in
  let at_ := last_at a port 0 (-1) in
  if allow && (at_ <? 0) then
    if MAX_PORTS <=? zlen a then (f, -1) else (save_ports (set_ports f proto (a ++ [port])), 0)
  else if negb allow && (0 <=? at_) then
    let n := zlen a - 1 in
    (save_ports (set_ports f proto (take (Z.to_nat n) (aset a at_ (aget a n)))), 0)
  else (save_ports f, 0).

Definition fw_ports (f : fw) (proto max : Z) : list Z :=
  let n := zlen (ports_of f proto) in
  let n := if max <? n then max else n in
  take (Z.to_nat n) (ports_of f proto).

(** ** What was blocked *)

Definition fw_blocked_count (f : fw) : Z := g_blocked f.

Definition blocked (f : fw) (what from : list Z) (port : Z) : fw :=
  let f := f <| g_blocked ::= fun n => u32 (n + 1) |> in
  let fmt := if negb (port =? 0) then str "%s from %s to port %u" else str "%s from %s" in
  let line := (ksnprintf (aget (g_log f) (g_log_at f)) 64 fmt [Str (Some what); Str (Some from); Int port]).1 in
  let f := f <| g_log ::= fun l => aset l (g_log_at f) line |> in
  let f := f <| g_log_at ::= fun i => Z.rem (i + 1) LOG_N |> in
  if g_log_n f <? LOG_N then f <| g_log_n ::= Z.add 1 |> else f.

(** the newest first: [count] lines from the [i]-th on *)
Fixpoint log_lines (count : nat) (f : fw) (i : Z) : list (list Z) :=
  match count with
  | O => []
  | S count => let k := Z.rem (g_log_at f - 1 - i + 2 * LOG_N) LOG_N in
               default [] (kstrlcpy (c_string (aget (g_log f) k)) 64).1 :: log_lines count f (i + 1)
  end.
Definition fw_log (f : fw) (max : Z) : list (list Z) := log_lines (Z.to_nat (Z.min (g_log_n f) max)) f 0.

(** ** The filters: [true] lets the packet in *)

Definition fw_in_tcp (f : fw) (from : list Z) (dport : Z) (syn_only : bool) : fw * bool :=
  if negb (g_on f) || negb syn_only || fw_allowed f FW_TCP dport then (f, true)
  else (blocked f (str "tcp") from dport, false).

(** the slot of [sport]: its own, or the one used longest ago *)
Fixpoint out_slot (l : list out_t) (out : list out_t) (sport i k : Z) : Z :=
  match l with
  | [] => k
  | o :: l => if port o =? sport then i else out_slot l out sport (i + 1) (if ms o <? ms (aget out k) then i else k)
  end.
Definition fw_out_udp (f : fw) (now sport : Z) : fw :=
  let k := out_slot (g_out f) (g_out f) sport 0 0 in
  f <| g_out ::= fun l => aset l k (Out sport (if negb (now =? 0) then now else 1)) |>.

Definition fw_in_udp (f : fw) (now : Z) (from : list Z) (sport dport : Z) : fw * bool :=
  if negb (g_on f) || fw_allowed f FW_UDP dport then (f, true) else
  if existsb (fun o => (port o =? dport) && negb (ms o =? 0) && (u32 (now - ms o) <? UDP_OUT_MS)) (g_out f) then (f, true) else
  if dport =? 68 then (f, true) else (blocked f (str "udp") from dport, false).

Definition fw_in_ping (f : fw) (from : list Z) : fw * bool :=
  if negb (g_on f) || g_ping f then (f, true) else (blocked f (str "ping") from 0, false).
End firewall.
