(* ===== verification/FirewallProps.v ===== *)
(** The firewall: the allowed ports are a set, what is saved is what the next
    boot loads, and the answers to what we sent come in. *)

From S2P Require Import Prelude Lit KString KStringProps Config ConfigProps Settings Firewall.

(** ** The port lists *)

Lemma last_at_spec a port i d :
  (~ In port a /\ last_at a port i d = d) \/
  (exists l r, a = l ++ port :: r /\ ~ In port r /\ last_at a port i d = i + zlen l).
Proof.
  revert i d. induction a as [|x a IH]; intros i d; cbn [last_at]; [left; split; [by intros []|done]|].
  destruct (IH (i + 1) (if x =? port then i else d)) as [[Hn ->]|(l & r & -> & Hr & ->)].
  - destruct (x =? port) eqn:E; zbool.
    + subst x. right. exists [], a. split_and!; [done|done|]. change (zlen (@nil Z)) with 0. lia.
    + left. split; [|done]. by intros [?|?].
  - right. exists (x :: l), r. split_and!; [done|done|]. rewrite zlen_cons. lia.
Qed.

(** dropping the port at [at]: the last entry takes its place *)
Lemma drop_port (l : list Z) port r : let a := l ++ port :: r in
  Permutation a (port :: take (Z.to_nat (zlen a - 1)) (aset a (zlen l) (aget a (zlen a - 1)))).
Proof.
  intros a. subst a. destruct r as [|y r _] using rev_ind.
  - rewrite zlen_app, zlen_cons. change (zlen (@nil Z)) with 0. replace (zlen l + (1 + 0) - 1) with (zlen l) by lia.
    rewrite aget_app by apply zlen_nonneg. rewrite Z.ltb_irrefl, Z.sub_diag. unfold aset, zlen. rewrite Nat2Z.id.
    rewrite insert_app_r_alt, Nat.sub_diag by lia. cbn [insert list_insert]. rewrite take_app_length.
    symmetry. apply Permutation_cons_append.
  - assert (El : zlen (l ++ port :: r ++ [y]) - 1 = zlen (l ++ port :: r))
      by (rewrite !zlen_app, !zlen_cons, zlen_app; change (zlen [y]) with 1; lia).
    rewrite El. assert (Eg : aget (l ++ port :: r ++ [y]) (zlen (l ++ port :: r)) = y).
    { change (l ++ port :: r ++ [y]) with (l ++ (port :: r) ++ [y]). rewrite app_assoc.
      rewrite aget_app by apply zlen_nonneg. by rewrite Z.ltb_irrefl, Z.sub_diag. }
    rewrite Eg. unfold aset, zlen. rewrite !Nat2Z.id, insert_app_r_alt, Nat.sub_diag by lia. cbn [insert list_insert].
    change (l ++ y :: r ++ [y]) with (l ++ (y :: r) ++ [y]). rewrite app_assoc.
    rewrite (take_app_length' (l ++ y :: r)) by (rewrite !length_app; cbn; lia).
    rewrite (Permutation_app_comm l). change ((port :: r ++ [y]) ++ l) with (port :: ((r ++ [y]) ++ l)). constructor.
    rewrite (Permutation_app_comm l). rewrite <- app_assoc. cbn. by rewrite Permutation_middle.
Qed.

Lemma allowed_spec {C} (f : fw_t C) proto port : fw_allowed f proto port = true <-> port ∈ ports_of f proto.
Proof.
  unfold fw_allowed. rewrite existsb_exists, list_elem_of_In. split.
  - intros (x & Hx & E). zbool. by subst x.
  - intros Hx. exists port. split; [done|apply Z.eqb_refl].
Qed.

(** ** The saved text *)

Definition port_text (first : bool) (x : Z) : list Z := if first then dec_text x else 44 :: dec_text x.
Fixpoint list_text (first : bool) (a : list Z) : list Z :=
  match a with [] => [] | x :: a => port_text first x ++ list_text false a end.

Lemma port_text_format (first : bool) x : is_u16 x ->
  format_text (length (if first then str "%u" else str ",%u")) (if first then str "%u" else str ",%u") [Int x] = port_text first x.
Proof.
  unfold is_u16. intros Hx. transitivity ((if first then [] else [44]) ++ num_text (u32 x) 10 false false 0 false false ++ []).
  { by destruct first. }
  rewrite u32_small, num_text_dec, app_nil_r by (unfold is_u32; lia). by destruct first.
Qed.

Lemma dec_len v : 0 <= v < 10 ^ 5 -> 1 <= zlen (dec_text v) <= 5.
Proof.
  intros Hv. unfold dec_text. destruct (v =? 0) eqn:E; zbool; [done|].
  assert (Hd : forall fuel n x, (n <= fuel)%nat -> 0 <= x < 10 ^ Z.of_nat n -> zlen (num_digits fuel x 10 false) <= Z.of_nat n).
  { induction fuel as [|fuel IH]; intros n x Hn Hx; cbn [num_digits]; [change (zlen (@nil Z)) with 0; lia|].
    destruct (x =? 0) eqn:Ex; zbool; [change (zlen (@nil Z)) with 0; lia|]. rewrite zlen_cons.
    destruct n as [|n]; [cbn in Hx; lia|]. rewrite Nat2Z.inj_succ, Z.pow_succ_r in Hx by lia.
    specialize (IH n (x / 10) ltac:(lia) ltac:(lia)). lia. }
  specialize (Hd 24%nat 5%nat v ltac:(lia) Hv). unfold zlen in *. rewrite length_rev. split; [|lia].
  change (num_digits 24 v 10 false) with (if v =? 0 then [] else digit false (v mod 10) :: num_digits 23 (v / 10) 10 false).
  rewrite (proj2 (Z.eqb_neq v 0)) by done. cbn [length]. lia.
Qed.

Lemma list_text_chars first a : Forall is_u16 a -> Forall (fun c => c = 44 \/ k_isdigit c = true) (list_text first a).
Proof.
  intros Ha. revert first. induction Ha as [|x a Hx Ha IH]; intros first; [constructor|]. cbn [list_text].
  apply Forall_app. split; [|apply IH].
  assert (Hd : Forall (fun c => c = 44 \/ k_isdigit c = true) (dec_text x)).
  { apply Forall_forall. intros c Hc. right. pose proof (dec_digits x) as H. unfold is_u16 in Hx.
    specialize (H ltac:(lia)). rewrite forallb_forall in H. apply H. by apply list_elem_of_In. }
  destruct first; [done|]. cbn. constructor; [by left|done].
Qed.

Lemma list_text_nonzero first a : Forall is_u16 a -> Forall (fun c => c <> 0) (list_text first a).
Proof. intros Ha. eapply Forall_impl; [by apply list_text_chars|]. intros c [->|Hc] Hz; [done|]. by subst c. Qed.

Lemma write_ports_spec a first t r : Forall is_u16 a -> Forall (fun c => c <> 0) t ->
  zlen (t ++ 0 :: r) = PORTS_BUF -> zlen t + 6 * zlen a < PORTS_BUF ->
  c_string (write_ports (t ++ 0 :: r) (zlen t) first a).1 = t ++ list_text first a.
Proof.
  intros Ha. revert first t r. induction Ha as [|x a Hx Ha IH]; intros first t r Ht Hl Hf; cbn [write_ports list_text].
  { rewrite app_nil_r. by apply c_string_text. }
  rewrite zlen_cons in Hf. rewrite zlen_app, zlen_cons in Hl. pose proof (zlen_nonneg t). pose proof (zlen_nonneg r). pose proof (zlen_nonneg a).
  assert (Hd : drop (Z.to_nat (zlen t)) (t ++ 0 :: r) = 0 :: r) by (unfold zlen; by rewrite Nat2Z.id, drop_app_length).
  assert (Htk : take (Z.to_nat (zlen t)) (t ++ 0 :: r) = t) by (unfold zlen; by rewrite Nat2Z.id, take_app_length).
  assert (Hu : u64 (PORTS_BUF - zlen t) = PORTS_BUF - zlen t) by (apply u64_small; unfold is_u64, PORTS_BUF, MAX_PORTS in *; lia).
  assert (Hp : zlen (port_text first x) <= 6).
  { unfold is_u16 in Hx. pose proof (dec_len x ltac:(lia)). destruct first; cbn [port_text]; rewrite ?zlen_cons; lia. }
  rewrite Hd, Htk, Hu, ksnprintf_fits; rewrite ?port_text_format by done; [|rewrite zlen_cons; lia|lia].
  rewrite (s32_small (zlen _)) by (pose proof (zlen_nonneg (port_text first x)); lia). rewrite app_assoc. rewrite <- zlen_app. rewrite IH; [by rewrite app_assoc| | |rewrite zlen_app; lia].
  - apply Forall_app. split; [done|]. pose proof (list_text_nonzero first [x] (proj2 (Forall_singleton _ _) Hx)) as Hz.
    cbn in Hz. by rewrite app_nil_r in Hz.
  - rewrite !zlen_app, zlen_cons. cbn [drop]. fold (drop (A:=Z)). unfold zlen in *. rewrite length_drop. lia.
Qed.

Lemma ports_text_spec a : Forall is_u16 a -> zlen a <= MAX_PORTS -> ports_text a = list_text true a.
Proof. intros Ha Hl. apply (write_ports_spec a true [] (replicate 193 0)); try done. unfold PORTS_BUF, MAX_PORTS in *. change (zlen (@nil Z)) with 0. lia. Qed.

Lemma parse_ports_spec a acc fuel : (length a <= fuel)%nat -> Forall is_u16 a -> Forall (fun x => x <> 0) a ->
  zlen acc + zlen a <= MAX_PORTS -> parse_ports fuel (list_text true a) acc = acc ++ a.
Proof.
  revert acc fuel. induction a as [|x a IH]; intros acc fuel Hf Hu Hn Hl; [destruct fuel; by rewrite app_nil_r|].
  destruct fuel as [|fuel]; [cbn in Hf; lia|]. apply Forall_cons in Hu as [Hx Hu]. apply Forall_cons in Hn as [Hxn Hn].
  rewrite zlen_cons in Hl. pose proof (zlen_nonneg a). unfold is_u16 in Hx. cbn [parse_ports list_text port_text].
  assert (Hne : forall c, head (dec_text x ++ list_text false a) = Some c -> c <> 0).
  { intros c Hc. pose proof (list_text_nonzero true (x :: a)) as Hz. cbn [list_text port_text] in Hz.
    specialize (Hz ltac:(by constructor)). destruct (dec_text x ++ _); [done|]. inv Hc. by apply Forall_cons in Hz as [? _]. }
  pose proof (dec_len x ltac:(lia)) as Hd.
  assert (Hfirst : (first_char (dec_text x ++ list_text false a) =? 0) = false).
  { unfold first_char. destruct (dec_text x) as [|d ds]; [change (zlen (@nil Z)) with 0 in Hd; lia|]. apply Z.eqb_neq. by apply Hne. }
  rewrite Hfirst, (proj2 (Z.leb_gt MAX_PORTS _)) by lia. cbn [orb].
  rewrite parse_dec; [|lia|by destruct a; [|intros c [= <-]]].
  rewrite (proj2 (Z.eqb_neq _ 0)), (proj2 (Z.eqb_neq x 0)), (proj2 (Z.ltb_lt x 65536)) by (done || lia). cbn [negb andb].
  assert (Hdr : drop (Z.to_nat (zlen (dec_text x))) (dec_text x ++ list_text false a) = list_text false a)
    by (unfold zlen; by rewrite Nat2Z.id, drop_app_length).
  rewrite Hdr. assert (Hs : (if first_char (list_text false a) =? 44 then tail (list_text false a) else list_text false a) = list_text true a)
    by (by destruct a).
  rewrite Hs. unfold u16. rewrite Z.mod_small by lia. rewrite IH; [by rewrite <- app_assoc|cbn in Hf; lia|done|done|].
  rewrite zlen_app. change (zlen [x]) with 1. lia.
Qed.

Section props.
Context {C : Type} `{SettingsLaws C}.
Notation fw := (fw_t C).

(** each list has no port twice, and fits its array *)
Record fw_ok (f : fw) : Prop := {
  ok_tcp : NoDup (g_tcp f) /\ zlen (g_tcp f) <= MAX_PORTS /\ Forall is_u16 (g_tcp f);
  ok_udp : NoDup (g_udp f) /\ zlen (g_udp f) <= MAX_PORTS /\ Forall is_u16 (g_udp f);
  ok_out : zlen (g_out f) = UDP_OUT /\ Forall (fun o => is_u32 (ms o)) (g_out f);
  ok_log : 0 <= g_log_at f < LOG_N /\ 0 <= g_log_n f <= LOG_N /\ zlen (g_log f) = LOG_N /\ Forall (fun l => zlen l = 64) (g_log f);
}.

Lemma ports_ok f proto : fw_ok f -> NoDup (ports_of f proto) /\ zlen (ports_of f proto) <= MAX_PORTS /\ Forall is_u16 (ports_of f proto).
Proof. intros [? ? _ _]. unfold ports_of. by destruct (proto =? FW_UDP). Qed.

Lemma set_ports_ok f proto a : fw_ok f -> NoDup a -> zlen a <= MAX_PORTS -> Forall is_u16 a -> fw_ok (save_ports (set_ports f proto a)).
Proof. intros [? ? ? ?] ???. unfold set_ports. by destruct (proto =? FW_UDP); split. Qed.

Lemma ports_set f proto proto' a : ports_of (save_ports (set_ports f proto a)) proto' =
  if Bool.eqb (proto =? FW_UDP) (proto' =? FW_UDP) then a else ports_of f proto'.
Proof. unfold ports_of, set_ports. by destruct (proto =? FW_UDP), (proto' =? FW_UDP). Qed.

(** fw_allow on a well-formed firewall fails exactly when a new port finds
    the 32 entries taken, and changes nothing then; otherwise it keeps the
    firewall well-formed (no port twice, no list above 32) and afterwards
    exactly the named port of the named protocol is (or is not) allowed in,
    every other port of both protocols as before. *)
Theorem fw_allow_spec f proto port allow : fw_ok f -> is_u16 port ->
  let '(f', r) := fw_allow f proto port allow in
  (r = -1 /\ f' = f /\ allow = true /\ fw_allowed f proto port = false /\ zlen (ports_of f proto) = MAX_PORTS) \/
  (r = 0 /\ fw_ok f' /\ forall proto' port', fw_allowed f' proto' port' =
     if Bool.eqb (proto =? FW_UDP) (proto' =? FW_UDP) && (port' =? port) then allow else fw_allowed f proto' port').
Proof.
  intros Hf Hport. destruct (ports_ok f proto Hf) as (Hnd & Hlen & Hu). unfold fw_allow.
  set (a := ports_of f proto) in *.
  assert (Heqb : forall x y, (x = true <-> y = true) -> x = y) by (intros [] []; intuition congruence).
  assert (Hset : forall a', (forall q, q ∈ a' <-> if q =? port then allow = true else q ∈ a) -> forall proto' q,
    fw_allowed (save_ports (set_ports f proto a')) proto' q =
    if Bool.eqb (proto =? FW_UDP) (proto' =? FW_UDP) && (q =? port) then allow else fw_allowed f proto' q).
  { intros a' Ha' proto' q. apply Heqb. rewrite allowed_spec, ports_set.
    destruct (Bool.eqb _ _) eqn:E; cbn [andb]; [|by rewrite allowed_spec]. rewrite Ha'.
    destruct (q =? port); [done|]. rewrite allowed_spec. unfold a, ports_of. apply eqb_prop in E. by rewrite E. }
  assert (Hsave : save_ports f = save_ports (set_ports f proto a)).
  { destruct f. unfold set_ports, a, ports_of. by destruct (proto =? FW_UDP). }
  assert (Hin : forall q, q = port \/ (q =? port) = false) by (intros q; destruct (q =? port) eqn:E; zbool; auto).
  destruct (last_at_spec a port 0 (-1)) as [[Hn ->]|(l & r & Ea & Hr & ->)].
  - change (-1 <? 0) with true. change (0 <=? -1) with false. rewrite andb_true_r, andb_false_r. destruct allow.
    + destruct (MAX_PORTS <=? zlen a) eqn:E; zbool.
      * left. split_and!; try done; [|lia]. apply not_true_is_false. by rewrite allowed_spec, list_elem_of_In.
      * right. split_and!; [done| |].
        { apply set_ports_ok; [done| | |].
          - apply NoDup_app. split_and!; [done| |apply NoDup_singleton]. intros x Hx ->%list_elem_of_singleton.
            by rewrite list_elem_of_In in Hx.
          - rewrite zlen_app. change (zlen [port]) with 1. lia.
          - apply Forall_app. split; [done|by apply Forall_singleton]. }
        apply Hset. intros q. rewrite elem_of_app, list_elem_of_singleton. destruct (Hin q) as [->|E']; [rewrite Z.eqb_refl; tauto|].
        rewrite E'. zbool. tauto.
    + right. rewrite Hsave. split_and!; [done|by apply set_ports_ok|]. apply Hset. intros q.
      destruct (Hin q) as [->|E']; [|by rewrite E']. rewrite Z.eqb_refl, list_elem_of_In. by split.
  - pose proof (zlen_nonneg l). rewrite (proj2 (Z.ltb_ge (0 + zlen l) 0)), (proj2 (Z.leb_le 0 (0 + zlen l))) by lia.
    rewrite andb_false_r, andb_true_r. destruct allow; cbn [negb]; right.
    + rewrite Hsave. split_and!; [done|by apply set_ports_ok|]. apply Hset. intros q.
      destruct (Hin q) as [->|E']; [|by rewrite E']. rewrite Z.eqb_refl, Ea, elem_of_app, elem_of_cons. tauto.
    + pose proof (drop_port l port r) as Hp. cbv zeta in Hp. rewrite <- Ea in Hp. rewrite Z.add_0_l.
      set (a' := take _ _) in *. rewrite Hp in Hnd, Hu. apply NoDup_cons in Hnd as [Hni Hnd]. apply Forall_cons in Hu as [_ Hu].
      assert (Hl : zlen a = 1 + zlen a') by (unfold zlen; rewrite Hp; cbn; lia).
      split_and!; [done|apply set_ports_ok; try done; lia|]. apply Hset. intros q.
      assert (Hq : q ∈ a <-> q = port \/ q ∈ a') by (rewrite <- elem_of_cons; split; apply elem_of_Permutation_proper; by rewrite Hp).
      destruct (Hin q) as [->|E']; [rewrite Z.eqb_refl; by split|rewrite E'; zbool; tauto].
Qed.

(** ** What is saved is what is loaded *)

Lemma text_good a : Forall is_u16 a -> good_value (list_text true a).
Proof.
  intros Ha. pose proof (list_text_chars true a Ha) as Hc. split.
  - eapply Forall_impl; [exact Hc|]. intros c [->|Hd]; [done|]. split; intros ->; done.
  - destruct (last (list_text true a)) as [c|] eqn:E; [|done]. apply last_Some_elem_of in E.
    rewrite Forall_forall in Hc. destruct (Hc c E) as [->|Hd]; [done|]. split; intros ->; done.
Qed.

Lemma list_text_len a first : Forall is_u16 a -> zlen a <= zlen (list_text first a) <= 6 * zlen a.
Proof.
  intros Ha. revert first. induction Ha as [|x a Hx Ha IH]; intros first; cbn [list_text]; [done|].
  rewrite zlen_app, zlen_cons. specialize (IH false). unfold is_u16 in Hx. pose proof (dec_len x ltac:(lia)).
  destruct first; cbn [port_text]; rewrite ?zlen_cons; lia.
Qed.

Lemma load_saved c key a : Forall is_u16 a -> Forall (fun x => x <> 0) a -> zlen a <= MAX_PORTS ->
  settings_get c key PORTS_BUF = Some (list_text true a) -> load_ports c key = a.
Proof using Type.
  intros Hu Hn Hl Hg. unfold load_ports. rewrite Hg. pose proof (list_text_len a true Hu) as Hlen.
  change a with ([] ++ a) at 3. apply parse_ports_spec; try done. unfold zlen in Hlen. lia.
Qed.

Lemma on_off_good b : good_value (if b : bool then str "on" else str "off").
Proof. destruct b; (split; [by repeat constructor|done]). Qed.

Lemma fw_keys : good_key (str "firewall") /\ good_key (str "fw.ping") /\ good_key (str "fw.tcp") /\ good_key (str "fw.udp").
Proof. unfold good_key. split_and!; try done; by repeat constructor. Qed.

Lemma on_read c key (b : bool) : settings_get c key 8 = Some (if b then str "on" else str "off") -> setting_on c key = b.
Proof using Type. intros Hg. unfold setting_on. rewrite Hg. by destruct b. Qed.

(** what is saved is what the next boot loads: on settings that can be
    written, after the port lists, the switch and the ping switch have been
    saved, a boot from those settings finds both port lists - same ports, same
    order, whatever their number up to the 32 - and both switches. *)
Theorem fw_saved_boot f on ping : fw_ok f -> writable (conf f) ->
  Forall (fun x => x <> 0) (g_tcp f) -> Forall (fun x => x <> 0) (g_udp f) ->
  let g := fw_boot (fw_zero (conf (fw_set_ping (fw_enable (save_ports f) on) ping))) in
  g_on g = on /\ g_ping g = ping /\ g_tcp g = g_tcp f /\ g_udp g = g_udp f.
Proof.
  intros [(_ & Ht & Htu) (_ & Hu & Huu) _ _] Hw Htn Hun. cbv zeta.
  destruct fw_keys as (K1 & K2 & K3 & K4). set (c0 := conf f).
  assert (E : conf (fw_set_ping (fw_enable (save_ports f) on) ping) =
    settings_set (settings_set (settings_set (settings_set c0 (str "fw.tcp") (list_text true (g_tcp f)))
      (str "fw.udp") (list_text true (g_udp f))) (str "firewall") (if on then str "on" else str "off"))
      (str "fw.ping") (if ping then str "on" else str "off")).
  { rewrite <- !ports_text_spec by done. by destruct f. }
  rewrite E. set (c1 := settings_set c0 _ _). set (c2 := settings_set c1 _ _). set (c3 := settings_set c2 _ _).
  pose proof (text_good _ Htu) as V1. pose proof (text_good _ Huu) as V2.
  pose proof (on_off_good on) as V3. pose proof (on_off_good ping) as V4.
  assert (W1 : writable c1) by (by apply set_writable). assert (W2 : writable c2) by (by apply set_writable).
  assert (W3 : writable c3) by (by apply set_writable).
  pose proof (list_text_len _ true Htu). pose proof (list_text_len _ true Huu).
  assert (P : 0 < PORTS_BUF /\ 6 * MAX_PORTS < PORTS_BUF) by done.
  unfold fw_boot. cbn [g_on g_ping g_tcp g_udp conf fw_zero set setter]. subst c1 c2 c3. split_and!.
  - apply on_read. rewrite get_set_ne by done. apply get_set_eq; try done. by destruct on.
  - apply on_read. apply get_set_eq; try done. by destruct ping.
  - apply load_saved; try done. rewrite !get_set_ne by (done || lia). apply get_set_eq; (done || lia).
  - apply load_saved; try done. rewrite !get_set_ne by (done || lia). apply get_set_eq; (done || lia).
Qed.

(** ** The filters *)

Lemma out_slot_spec l out sport i k : zlen l + i = zlen out -> 0 <= i -> 0 <= k < zlen out \/ zlen out = 0 ->
  (forall j, 0 <= j < zlen l -> aget l j = aget out (i + j)) ->
  let s := out_slot l out sport i k in 0 <= s < zlen out \/ zlen out = 0.
Proof.
  revert i k. induction l as [|o l IH]; intros i k Hl Hi Hk Hg; cbn [out_slot]; [done|].
  rewrite zlen_cons in Hl. pose proof (zlen_nonneg l). destruct (port o =? sport); [left; lia|].
  apply IH; try lia.
  - destruct (ms o <? ms (aget out k)); [left; lia|done].
  - intros j Hj. specialize (Hg (j + 1)). rewrite zlen_cons in Hg. rewrite <- Z.add_assoc, (Z.add_comm 1 j), <- Hg by lia.
    unfold aget. rewrite !list_lookup_total_alt. replace (Z.to_nat (j + 1)) with (S (Z.to_nat j)) by lia. done.
Qed.

(** the answers to a datagram we sent come in: for five minutes after
    fw_out_udp has noted the port - at any clock, which wraps, but 0 - the
    filter lets a datagram to that port in, allowed or not. *)
Theorem fw_answer_in f now sport from dport t : fw_ok f -> is_u32 now -> now <> 0 -> 0 <= t < UDP_OUT_MS ->
  let f' := fw_out_udp f now dport in
  fw_ok f' /\ fw_in_udp f' (u32 (now + t)) from sport dport = (f', true).
Proof.
  intros [Ht Hu [Ho Hm] Hl] Hn Hnz Htt. cbv zeta. unfold fw_out_udp.
  set (k := out_slot _ _ _ _ _). assert (Hk : 0 <= k < zlen (g_out f)).
  { destruct (out_slot_spec (g_out f) (g_out f) dport 0 0) as [Hk|Hk]; [lia|lia|left; rewrite Ho; done|done|exact Hk|].
    rewrite Ho in Hk. done. }
  set (m := if negb (now =? 0) then now else 1). assert (Hm0 : m <> 0 /\ is_u32 m /\ u32 (u32 (now + t) - m) < UDP_OUT_MS).
  { subst m. unfold is_u32, u32, UDP_OUT_MS in *. rewrite (proj2 (Z.eqb_neq now 0)) by done. cbn [negb]. lia. }
  destruct Hm0 as (M1 & M2 & M3). split.
  - split; try done. cbn [g_out set setter]. rewrite zlen_aset. split; [done|]. unfold aset. by apply Forall_insert.
  - unfold fw_in_udp. cbn [g_out set setter]. destruct (_ || _); [done|].
    rewrite (proj2 (existsb_exists _ _)); [done|]. exists (Out dport m). split.
    + apply list_elem_of_In. unfold aset. apply list_elem_of_insert. unfold zlen in Hk. lia.
    + cbn [port ms]. rewrite Z.eqb_refl. rewrite (proj2 (Z.eqb_neq m 0)) by done. cbn [negb andb]. by apply Z.ltb_lt.
Qed.
End props.

(** ** A firewall the properties apply to *)

Definition demo_fw : fw_t (gmap (list Z) (list Z)) := fw_zero ∅.

Lemma zero_ok {C} (c : C) : fw_ok (fw_zero c).
Proof.
  split; cbn [fw_zero g_tcp g_udp g_out g_log g_log_at g_log_n]; [split_and!; [constructor|done|constructor]..| |].
  - split; [done|]. by apply Forall_replicate.
  - split_and!; try done. by apply Forall_replicate.
Qed.

(** with some ports allowed *)
Definition demo_fw2 : fw_t (gmap (list Z) (list Z)) := (fw_allow (fw_allow demo_fw FW_TCP 22 true).1 FW_TCP 8080 true).1.

Lemma demo_fw2_ok : fw_ok demo_fw2.
Proof.
  pose proof (zero_ok (∅ : gmap (list Z) (list Z))) as [? ? ? ?]. split; [|done..].
  split_and!; [|done|].
  - apply (bool_decide_unpack _). by vm_compute.
  - repeat (constructor; [by split|]). constructor.
Qed.

Lemma fw_allow_spec_witness : fw_ok demo_fw2 /\ is_u16 8080 /\
  let '(f', r) := fw_allow demo_fw2 FW_TCP 8080 false in
  (r = -1 /\ f' = demo_fw2 /\ false = true /\ fw_allowed demo_fw2 FW_TCP 8080 = false /\ zlen (ports_of demo_fw2 FW_TCP) = MAX_PORTS) \/
  (r = 0 /\ fw_ok f' /\ forall proto' port', fw_allowed f' proto' port' =
     if Bool.eqb (FW_TCP =? FW_UDP) (proto' =? FW_UDP) && (port' =? 8080) then false else fw_allowed demo_fw2 proto' port').
Proof.
  assert (Hp : is_u16 8080) by (split; [discriminate|reflexivity]).
  split; [exact demo_fw2_ok|]. split; [exact Hp|]. exact (fw_allow_spec demo_fw2 FW_TCP 8080 false demo_fw2_ok Hp).
Defined.

Lemma map_writable (c : gmap (list Z) (list Z)) : writable c.
Proof. unfold writable, file_settings_laws, settings_readable, fs_file_at, map_fs. by destruct (c !! CFG_SETTINGS). Qed.

Lemma fw_saved_boot_witness :
  Forall (fun x => x <> 0) (g_tcp demo_fw2) /\
  let g := fw_boot (fw_zero (conf (fw_set_ping (fw_enable (save_ports demo_fw2) true) false))) in
  g_on g = true /\ g_ping g = false /\ g_tcp g = g_tcp demo_fw2 /\ g_udp g = g_udp demo_fw2.
Proof.
  assert (Hp : Forall (fun x => x <> 0) (g_tcp demo_fw2)) by (repeat (constructor; [discriminate|]); constructor).
  split; [exact Hp|].
  exact (fw_saved_boot demo_fw2 true false demo_fw2_ok (map_writable (conf demo_fw2)) Hp (Forall_nil_2 _)).
Defined.

Lemma fw_answer_in_witness : is_u32 4294967290 /\
  let f' := fw_out_udp demo_fw2 4294967290 50000 in
  fw_ok f' /\ fw_in_udp f' (u32 (4294967290 + 5000)) (str "10.0.2.3") 53 50000 = (f', true).
Proof.
  assert (Hn : is_u32 4294967290) by (split; [discriminate|reflexivity]). split; [exact Hn|].
  apply (fw_answer_in demo_fw2 4294967290 53 (str "10.0.2.3") 50000 5000 demo_fw2_ok Hn); [discriminate|].
  split; [discriminate|reflexivity].
Defined.
