(* ===== verification/NetState.v ===== *)
(** The state of the network stack (src/net: the static variables of net.c,
    arp.c, ip.c, icmp.c and udp.c) and sending an Ethernet frame.

    The clock (timer_ms) is the field [now], which stands still while one call
    runs; the heap is the list of what its next allocations do; [tx] is what
    has been given to the drivers, oldest first. What other code does when the
    stack calls it - the drivers, the UDP handlers, TCP and IPv6 - is the class
    [NetEnv]. The entropy and the kernel log the code feeds are left out. *)

From S2P Require Import Prelude Lit KString Settings Firewall Wire.

(** ** Loops over the state *)

Fixpoint st_each {S A : Type} (l : list A) (f : A -> ST S unit) : ST S unit :=
  match l with
  | [] => st_ret tt
  | x :: l => f x ;;; st_each l f
  end.

(** ** The state *)

(** netdev_t, less the driver's own fields; [dev_link]: what link_up answers,
    when there is one *)
Record netdev_t := Netdev {
  ifname : list Z; is_usb : bool; present : bool; mac : list Z;
  dev_link : option bool; is_wifi : bool;
}.
#[export] Instance netdev_eta : Eta netdev_t := fun d =>
  Netdev (ifname d) (is_usb d) (present d) (mac d) (dev_link d) (is_wifi d).

(** netif_t; a device is known by its address *)
Record netif_t := Netif {
  if_dev : option Z;
  if_ip : Z; if_netmask : Z; if_gateway : Z; if_dns : Z;
  if_configured : bool; if_dhcp : bool;
  if_dhcp_server : Z; if_lease_s : Z; if_bound_ms : Z;
}.
#[export] Instance netif_eta : Eta netif_t := fun i =>
  Netif (if_dev i) (if_ip i) (if_netmask i) (if_gateway i) (if_dns i) (if_configured i) (if_dhcp i)
        (if_dhcp_server i) (if_lease_s i) (if_bound_ms i).

(** arp.c *)
Record arp_entry_t := ArpEntry { arp_ip : Z; arp_mac : list Z; updated_ms : Z; arp_valid : bool }.
#[export] Instance arp_entry_eta : Eta arp_entry_t := fun e => ArpEntry (arp_ip e) (arp_mac e) (updated_ms e) (arp_valid e).
#[export] Instance arp_entry_inhabited : Inhabited arp_entry_t := populate (ArpEntry 0 [] 0 false).

Record arp_pending_t := ArpPending { next_hop : Z; pkt : option (list Z); queued_ms : Z; last_req_ms : Z }.
#[export] Instance arp_pending_eta : Eta arp_pending_t := fun p => ArpPending (next_hop p) (pkt p) (queued_ms p) (last_req_ms p).
#[export] Instance arp_pending_inhabited : Inhabited arp_pending_t := populate (ArpPending 0 None 0 0).

(** icmp.c *)
Record icmp_event_t := IcmpEvent {
  ev_src : Z; ev_id : Z; ev_seq : Z; ev_ttl : Z; ev_type : Z; ev_bytes : Z; recv_ms : Z;
}.
#[export] Instance icmp_event_eta : Eta icmp_event_t := fun e =>
  IcmpEvent (ev_src e) (ev_id e) (ev_seq e) (ev_ttl e) (ev_type e) (ev_bytes e) (recv_ms e).
#[export] Instance icmp_event_inhabited : Inhabited icmp_event_t := populate (IcmpEvent 0 0 0 0 0 0 0).

(** udp.c; a handler is known by its address *)
Record udp_binding_t := UdpBinding { b_port : Z; b_handler : option Z; b_ctx : Z }.
#[export] Instance udp_binding_inhabited : Inhabited udp_binding_t := populate (UdpBinding 0 None 0).

(** netconf.c *)
Record netconf_t := Netconf {
  loaded : bool; priority : Z; iface : list Z; is_static : bool; c_ip : Z; c_mask : Z; c_gw : Z; c_dns : Z;
}.
#[export] Instance netconf_eta : Eta netconf_t := fun c =>
  Netconf (loaded c) (priority c) (iface c) (is_static c) (c_ip c) (c_mask c) (c_gw c) (c_dns c).

Record net_t (C : Type) := Net {
  g_if : netif_t;
  g_cfg : netconf_t;
  g_candidate : option Z; g_candidate_since : Z;
  g_devs : list Z;                        (* g_devs[0 .. g_ndevs) *)
  devices : gmap Z netdev_t;              (* what the pointers point to *)
  g_cache : list arp_entry_t;
  g_pending : list arp_pending_t;
  g_loop : list (option (list Z));
  g_ip_id : Z;
  g_ip_rx_dropped : Z;
  g_ev : list icmp_event_t; g_ev_head : Z; g_ev_count : Z;
  g_bind : list udp_binding_t;
  firewall : fw_t C;
  now : Z;
  heap : list bool;
  tx : list (Z * list Z);
}.
Arguments Net {C}. Arguments g_if {C}. Arguments g_cfg {C}. Arguments g_candidate {C}. Arguments g_candidate_since {C}. Arguments g_devs {C}. Arguments devices {C}. Arguments g_cache {C}.
Arguments g_pending {C}. Arguments g_loop {C}. Arguments g_ip_id {C}. Arguments g_ip_rx_dropped {C}.
Arguments g_ev {C}. Arguments g_ev_head {C}. Arguments g_ev_count {C}. Arguments g_bind {C}.
Arguments firewall {C}. Arguments now {C}. Arguments heap {C}. Arguments tx {C}.
#[export] Instance net_eta {C} : Eta (net_t C) := fun n =>
  Net (g_if n) (g_cfg n) (g_candidate n) (g_candidate_since n) (g_devs n) (devices n) (g_cache n) (g_pending n) (g_loop n) (g_ip_id n) (g_ip_rx_dropped n)
      (g_ev n) (g_ev_head n) (g_ev_count n) (g_bind n) (firewall n) (now n) (heap n) (tx n).

(** ** What the stack calls *)

Class NetEnv (C : Type) := {
  (** does the driver take the frame? (what it was given before, the device,
      the frame) *)
  drv_takes : list (Z * list Z) -> Z -> list Z -> bool;
  (** a bound UDP handler: address, context, source, source port, data *)
  udp_handler : Z -> Z -> Z -> Z -> list Z -> ST (net_t C) unit;
  (** tcp.c and ipv6.c *)
  tcp_rx : Z -> Z -> list Z -> ST (net_t C) unit;
  ipv6_rx : list Z -> ST (net_t C) unit;
  (** dhcp.c, dns.c, tcp.c and ipv6.c, when the interface changes *)
  dhcp_stop : ST (net_t C) unit;
  dhcp_start : ST (net_t C) unit;
  tcp_network_changed : ST (net_t C) unit;
  ipv6_network_changed : ST (net_t C) unit;
  dns_flush_cache : ST (net_t C) unit;
}.

Section net.
Context {C : Type} {E : NetEnv C}.
Notation net := (net_t C).

Definition kmalloc : ST net bool := fun n =>
  match heap n with
  | [] => Some (true, n)
  | b :: h => Some (b, n <| heap := h |>)
  end.

Definition ETH_FRAME_MAX : Z := 1514.
Definition ETH_TYPE_IP : Z := 0x0800.
Definition ETH_TYPE_ARP : Z := 0x0806.
Definition ETH_BROADCAST : list Z := replicate 6 0xFF.

(** the frame, and NET_OK or an error *)
Definition eth_send (dst : list Z) (type : Z) (payload : list Z) : ST net Z :=
  let! n := get in
  match if_dev (g_if n) with
  | None => st_ret NET_ERR_NODEV
  | Some nd =>
    if ETH_FRAME_MAX - 14 <? zlen payload then st_ret NET_ERR_PROTO else
    let! d := of_option (devices n !! nd) in
    buf_write ETH_FRAME_MAX 14 (zlen payload) ;;;
    let frame := dst ++ mac d ++ be16 type ++ payload in
    if drv_takes (tx n) nd frame
    then modify (fun n => n <| tx ::= fun t => t ++ [(nd, frame)] |>) ;;; st_ret NET_OK
    else st_ret NET_ERR_NOMEM
  end.
End net.
