(* ===== verification/Arp.v ===== *)
(** ARP (src/net/arp.c). *)

From S2P Require Import Prelude Wire NetState.

Definition ARP_CACHE : Z := 16.
Definition ARP_TTL_MS : Z := 10 * 60 * 1000.
Definition ARP_RETRY_MS : Z := 1000.
Definition ARP_PENDING : Z := 16.
Definition ARP_PENDING_MS : Z := 3000.

Section arp.
Context {C : Type} {E : NetEnv C}.
Notation net := (net_t C).

Definition arp_packet (op : Z) (my_mac : list Z) (my_ip : Z) (target_mac : list Z) (target_ip : Z) : list Z :=
  be16 1 ++ be16 ETH_TYPE_IP ++ [6; 4] ++ be16 op ++ my_mac ++ be32 my_ip ++ target_mac ++ be32 target_ip.

Definition arp_send (op : Z) (dst_mac target_mac : list Z) (target_ip : Z) : ST net unit :=
  let! n := get in
  let! nd := of_option (if_dev (g_if n)) in
  let! d := of_option (devices n !! nd) in
  let! _ := eth_send dst_mac ETH_TYPE_ARP (arp_packet op (mac d) (if_ip (g_if n)) target_mac target_ip) in
  st_ret tt.

Definition arp_request (ip : Z) : ST net unit :=
  let! n := get in
  match if_dev (g_if n) with
  | None => st_ret tt
  | Some _ => arp_send 1 ETH_BROADCAST (replicate 6 0) ip
  end.

(** the first entry of [ip] from the [i]-th on *)
Fixpoint find_entry (l : list arp_entry_t) (ip i : Z) : option Z :=
  match l with
  | [] => None
  | e :: l => if arp_valid e && (arp_ip e =? ip) then Some i else find_entry l ip (i + 1)
  end.

(** the slot to use: the first free one, or the one updated longest ago; -1 if
    none is below [oldest] *)
Fixpoint victim (l : list arp_entry_t) (i slot oldest : Z) : Z :=
  match l with
  | [] => slot
  | e :: l => if negb (arp_valid e) then i
              else if updated_ms e <? oldest then victim l (i + 1) i (updated_ms e)
              else victim l (i + 1) slot oldest
  end.

Definition cache_put (ip : Z) (m : list Z) : ST net unit :=
  let! n := get in
  let slot := match find_entry (g_cache n) ip 0 with Some i => i | None => victim (g_cache n) 0 (-1) 0xFFFFFFFF end in
  let! c := of_option (put_at (g_cache n) slot (ArpEntry ip m (now n) true)) in
  modify (fun n => n <| g_cache := c |>).

Definition arp_lookup (n : net) (ip : Z) : option (list Z) :=
  match find_entry (g_cache n) ip 0 with Some i => Some (arp_mac (aget (g_cache n) i)) | None => None end.

(** [g_pending[i] = p] *)
Definition put_pending (i : Z) (p : arp_pending_t) : ST net unit :=
  let! n := get in
  let! l := of_option (put_at (g_pending n) i p) in
  modify (fun n => n <| g_pending := l |>).

Definition flush_one (ip : Z) (m : list Z) (i : Z) : ST net unit :=
  let! n := get in
  let! p := of_option (get_at (g_pending n) i) in
  match pkt p with
  | Some packet =>
    if next_hop p =? ip then
      let! _ := eth_send m ETH_TYPE_IP packet in
      put_pending i (p <| pkt := None |>)
    else st_ret tt
  | None => st_ret tt
  end.
Definition flush_pending (ip : Z) (m : list Z) : ST net unit := st_each (seqZ 0 ARP_PENDING) (flush_one ip m).

(** the first free slot *)
Fixpoint free_pending (l : list arp_pending_t) (i : Z) : option Z :=
  match l with
  | [] => None
  | p :: l => match pkt p with None => Some i | Some _ => free_pending l (i + 1) end
  end.

Definition asking (p : arp_pending_t) (hop : Z) : bool :=
  match pkt p with Some _ => next_hop p =? hop | None => false end.

Definition arp_queue_packet (hop : Z) (ip_pkt : list Z) : ST net unit :=
  let! n := get in
  let already_asking := existsb (fun p => asking p hop) (g_pending n) in
  match free_pending (g_pending n) 0 with
  | None => st_ret tt
  | Some slot =>
    let! ok := kmalloc in
    if negb ok then st_ret tt else
    put_pending slot (ArpPending hop (Some ip_pkt) (now n) (now n)) ;;;
    when (negb already_asking) (arp_request hop)
  end.

Definition arp_rx (p : list Z) : ST net unit :=
  if zlen p <? 28 then st_ret tt else
  let! hw := of_option (rd16 p 0) in
  let! pr := of_option (rd16 p 2) in
  let! hl := of_option (rd8 p 4) in
  let! pl := of_option (rd8 p 5) in
  if negb (hw =? 1) || negb (pr =? ETH_TYPE_IP) || negb (hl =? 6) || negb (pl =? 4) then st_ret tt else
  let! op := of_option (rd16 p 6) in
  let! sender_mac := of_option (rd_range p 8 14) in
  let! sender_ip := of_option (rd32 p 14) in
  let! target_ip := of_option (rd32 p 24) in
  let! n := get in
  let nif := g_if n in
  when (negb (sender_ip =? 0))
    (when ((op =? 2) || (target_ip =? if_ip nif) || bool_decide (is_Some (arp_lookup n sender_ip)))
       (cache_put sender_ip sender_mac) ;;;
     flush_pending sender_ip sender_mac) ;;;
  when ((op =? 1) && if_configured nif && (target_ip =? if_ip nif))
    (arp_send 2 sender_mac sender_mac sender_ip).

Definition expire (t : Z) (e : arp_entry_t) : arp_entry_t :=
  if arp_valid e && (ARP_TTL_MS <? u32 (t - updated_ms e)) then e <| arp_valid := false |> else e.

Definition timer_one (t i : Z) : ST net unit :=
  let! n := get in
  let! p := of_option (get_at (g_pending n) i) in
  match pkt p with
  | None => st_ret tt
  | Some _ =>
    if ARP_PENDING_MS <? u32 (t - queued_ms p) then
      put_pending i (p <| pkt := None |>)
    else if ARP_RETRY_MS <? u32 (t - last_req_ms p) then
      put_pending i (p <| last_req_ms := t |>) ;;;
      arp_request (next_hop p)
    else st_ret tt
  end.

Definition arp_timer : ST net unit :=
  let! n := get in
  modify (fun n' => n' <| g_cache ::= fmap (expire (now n)) |>) ;;;
  st_each (seqZ 0 ARP_PENDING) (timer_one (now n)).

Definition arp_flush : ST net unit :=
  modify (fun n => n <| g_cache ::= fmap (fun e => e <| arp_valid := false |>) |>
                     <| g_pending ::= fmap (fun p => p <| pkt := None |>) |>).
End arp.
