(* ===== verification/Ip.v ===== *)
(** Sending IPv4 packets (src/net/ip.c: ip_send and the loopback queue), and
    what goes over it: ICMP (src/net/icmp.c), answering pings and the events
    for the ping command; UDP (src/net/udp.c), the table of bound ports,
    sending and receiving datagrams. *)

From S2P Require Import Prelude Wire Firewall NetState Arp.

Definition IP_PROTO_ICMP : Z := 1.
Definition IP_PROTO_TCP : Z := 6.
Definition IP_PROTO_UDP : Z := 17.
Definition IP_MAX_PAYLOAD : Z := 1480.
Definition LOOP_MAX : Z := 128.

(** the 20-byte header with its checksum *)
Definition ip_header (len id proto src dst : Z) : list Z :=
  let p := [0x45; 0] ++ be16 (u16 (20 + len)) ++ be16 id ++ be16 0x4000 ++ [64; proto] ++ be16 0 ++ be32 src ++ be32 dst in
  wr16 p 10 (net_checksum p).

Section ip.
Context {C : Type} {E : NetEnv C}.
Notation net := (net_t C).

Definition is_local (n : net) (dst : Z) : bool :=
  (Z.shiftr dst 24 =? 127) || (if_configured (g_if n) && (dst =? if_ip (g_if n))).

Fixpoint free_loop (l : list (option (list Z))) (i : Z) : option Z :=
  match l with
  | [] => None
  | None :: _ => Some i
  | Some _ :: l => free_loop l (i + 1)
  end.

(** [g_ip_id++] *)
Definition next_id : ST net Z :=
  let! id := gets g_ip_id in
  modify (fun n => n <| g_ip_id := u16 (id + 1) |>) ;;; st_ret id.

(** [g_loop[i].pkt = p] *)
Definition put_loop (i : Z) (p : option (list Z)) : ST net unit :=
  let! n := get in
  let! l := of_option (put_at (g_loop n) i p) in
  modify (fun n => n <| g_loop := l |>).

Definition loopback_send (dst proto : Z) (payload : list Z) : ST net Z :=
  let! n := get in
  match free_loop (g_loop n) 0 with
  | None => st_ret NET_ERR_NOMEM
  | Some i =>
    let! ok := kmalloc in
    if negb ok then st_ret NET_ERR_NOMEM else
    let! id := next_id in
    let p := ip_header (zlen payload) id proto dst dst ++ payload in
    put_loop i (Some p) ;;; st_ret NET_OK
  end.

Definition ip_send (dst proto : Z) (payload : list Z) : ST net Z :=
  let! n := get in
  let nif := g_if n in
  if IP_MAX_PAYLOAD <? zlen payload then st_ret NET_ERR_PROTO else
  if is_local n dst then loopback_send dst proto payload else
  match if_dev nif with
  | None => st_ret NET_ERR_NODEV
  | Some _ =>
    if negb (if_configured nif) && negb (dst =? IP4_BROADCAST) then st_ret NET_ERR_NOTREADY else
    let! id := next_id in
    buf_write (20 + IP_MAX_PAYLOAD) 20 (zlen payload) ;;;
    let pkt := ip_header (zlen payload) id proto (if if_configured nif then if_ip nif else 0) dst ++ payload in
    if (dst =? IP4_BROADCAST) ||
       (if_configured nif && negb (if_netmask nif =? 0) && (Z.lor dst (if_netmask nif) =? IP4_BROADCAST) &&
        (Z.land dst (if_netmask nif) =? Z.land (if_ip nif) (if_netmask nif)))
    then eth_send ETH_BROADCAST ETH_TYPE_IP pkt else
    if Z.shiftr dst 28 =? 0xE then
      eth_send [0x01; 0x00; 0x5E; Z.land (Z.shiftr dst 16) 0x7F; u8 (Z.shiftr dst 8); u8 dst] ETH_TYPE_IP pkt
    else
    let off_link := negb (Z.land dst (if_netmask nif) =? Z.land (if_ip nif) (if_netmask nif)) in
    if off_link && (if_gateway nif =? 0) then st_ret NET_ERR_NOROUTE else
    let hop := if off_link then if_gateway nif else dst in
    let! n := get in
    match arp_lookup n hop with
    | Some m => eth_send m ETH_TYPE_IP pkt
    | None => arp_queue_packet hop pkt ;;; st_ret NET_OK
    end
  end.
End ip.

Definition EV_MAX : Z := 16.

Section icmp.
Context {C : Type} {E : NetEnv C}.
Notation net := (net_t C).

(** [g_ev[(g_ev_head + i) % EV_MAX]] *)
Definition ev_at (i : Z) : ST net icmp_event_t :=
  let! n := get in of_option (get_at (g_ev n) (Z.rem (g_ev_head n + i) EV_MAX)).
Definition put_ev (idx : Z) (e : icmp_event_t) : ST net unit :=
  let! n := get in
  let! l := of_option (put_at (g_ev n) idx e) in
  modify (fun n => n <| g_ev := l |>).

Definition push_event (e : icmp_event_t) : ST net unit :=
  let! n := get in
  let idx := Z.rem (g_ev_head n + g_ev_count n) EV_MAX in
  when (g_ev_count n =? EV_MAX)
    (modify (fun n => n <| g_ev_head ::= fun h => Z.rem (h + 1) EV_MAX |> <| g_ev_count ::= fun c => c - 1 |>)) ;;;
  put_ev idx e ;;;
  modify (fun n => n <| g_ev_count ::= Z.add 1 |>).

(** the position of the first event of [id] among the [count] from [i] on *)
Fixpoint find_event (count : nat) (id i : Z) : ST net (option Z) :=
  match count with
  | O => st_ret None
  | S count =>
    let! e := ev_at i in
    if ev_id e =? id then st_ret (Some i) else find_event count id (i + 1)
  end.

(** the later events moved down: [count] of them from position [j] on *)
Fixpoint shift_events (count : nat) (j : Z) : ST net unit :=
  match count with
  | O => st_ret tt
  | S count =>
    let! e := ev_at (j + 1) in
    let! n := get in
    put_ev (Z.rem (g_ev_head n + j) EV_MAX) e ;;;
    shift_events count (j + 1)
  end.

Definition icmp_poll_event (id : Z) : ST net (option icmp_event_t) :=
  let! n := get in
  let! found := find_event (Z.to_nat (g_ev_count n)) id 0 in
  match found with
  | None => st_ret None
  | Some i =>
    let! out := ev_at i in
    shift_events (Z.to_nat (g_ev_count n - 1 - i)) i ;;;
    modify (fun n => n <| g_ev_count ::= fun c => c - 1 |>) ;;;
    st_ret (Some out)
  end.

(** the pattern: [(uint8_t)(0x10 + i)], and the time in its first four bytes *)
Definition echo_data (t len : Z) : list Z :=
  let d := (fun i => u8 (0x10 + i)) <$> seqZ 0 len in
  if 4 <=? len then wr32 d 0 t else d.

Definition icmp_echo_send (dst id seq data_len : Z) : ST net Z :=
  let! n := get in
  let data_len := if 1472 <? data_len then 1472 else data_len in
  buf_write (8 + 1472) 8 data_len ;;;
  let msg := [8; 0] ++ be16 0 ++ be16 id ++ be16 seq ++ echo_data (now n) data_len in
  ip_send dst IP_PROTO_ICMP (wr16 msg 2 (net_checksum msg)).

(** what is sent back for an echo request *)
Definition echo_reply (msg : list Z) : list Z :=
  let reply := wr16 (aset msg 0 0) 2 0 in wr16 reply 2 (net_checksum reply).

Definition icmp_rx (src : Z) (msg : list Z) (ttl : Z) : ST net unit :=
  if (zlen msg <? 8) || negb (net_checksum msg =? 0) then st_ret tt else
  let! type := of_option (rd8 msg 0) in
  if type =? 8 then
    if 8 + 1472 <? zlen msg then st_ret tt else
    buf_write (8 + 1472) 0 (zlen msg) ;;;
    let! _ := ip_send src IP_PROTO_ICMP (echo_reply msg) in st_ret tt
  else
  let! n := get in
  if type =? 0 then
    let! id := of_option (rd16 msg 4) in
    let! seq := of_option (rd16 msg 6) in
    push_event (IcmpEvent src id seq ttl type (zlen msg) (now n))
  else if ((type =? 3) || (type =? 11)) && (8 + 20 + 8 <=? zlen msg) then
    let! b0 := of_option (rd8 msg 8) in
    let ihl := Z.land b0 0x0F * 4 in
    let! proto := of_option (rd8 msg (8 + 9)) in
    if negb (proto =? IP_PROTO_ICMP) || (zlen msg <? 8 + ihl + 8) then st_ret tt else
    let! e0 := of_option (rd8 msg (8 + ihl)) in
    if negb (e0 =? 8) then st_ret tt else
    let! id := of_option (rd16 msg (8 + ihl + 4)) in
    let! seq := of_option (rd16 msg (8 + ihl + 6)) in
    push_event (IcmpEvent src id seq ttl type 0 (now n))
  else st_ret tt.
End icmp.

Definition UDP_BINDINGS : Z := 32.

Section udp.
Context {C : Type} {E : NetEnv C}.
Notation net := (net_t C).

Definition bound_to (port : Z) (b : udp_binding_t) : bool :=
  match b_handler b with Some _ => b_port b =? port | None => false end.

Fixpoint free_binding (l : list udp_binding_t) (i : Z) : option Z :=
  match l with
  | [] => None
  | b :: l => match b_handler b with None => Some i | Some _ => free_binding l (i + 1) end
  end.

Definition udp_bind (port handler ctx : Z) : ST net Z :=
  let! n := get in
  if existsb (bound_to port) (g_bind n) then st_ret (-1) else
  match free_binding (g_bind n) 0 with
  | None => st_ret (-1)
  | Some slot =>
    let! l := of_option (put_at (g_bind n) slot (UdpBinding port (Some handler) ctx)) in
    modify (fun n => n <| g_bind := l |>) ;;; st_ret 0
  end.

Definition udp_unbind (port : Z) (n : net) : net :=
  n <| g_bind ::= fmap (fun b => if bound_to port b then UdpBinding (b_port b) None (b_ctx b) else b) |>.

(** [draws]: the numbers random_u32 returns; the port, and the draws left *)
Fixpoint udp_ephemeral_port (draws : list Z) (n : net) : option (Z * list Z) :=
  match draws with
  | [] => None
  | r :: draws =>
    let p := u16 (49152 + r mod 16384) in
    if existsb (bound_to p) (g_bind n) then udp_ephemeral_port draws n else Some (p, draws)
  end.

Definition pseudo_header (src dst len : Z) : list Z := be32 src ++ be32 dst ++ [0; IP_PROTO_UDP] ++ be16 len.

Definition udp_checksum (src dst : Z) (d : list Z) (len : Z) : Z :=
  net_csum_fold (net_csum_add (net_csum_add 0 (pseudo_header src dst len)) d).

(** the datagram with its checksum, as it goes out from [src] *)
Definition udp_datagram (src dst sport dport : Z) (data : list Z) : list Z :=
  let len := u16 (8 + zlen data) in
  let d := be16 sport ++ be16 dport ++ be16 len ++ be16 0 ++ data in
  let cs := udp_checksum src dst d len in
  wr16 d 6 (if negb (cs =? 0) then cs else 0xFFFF).

Definition udp_send (dst sport dport : Z) (data : list Z) : ST net Z :=
  modify (fun n => n <| firewall ::= fun f => fw_out_udp f (now n) sport |>) ;;;
  let! n := get in
  if IP_MAX_PAYLOAD - 8 <? zlen data then st_ret NET_ERR_PROTO else
  buf_write IP_MAX_PAYLOAD 8 (zlen data) ;;;
  let src := if Z.shiftr dst 24 =? 127 then dst else if if_configured (g_if n) then if_ip (g_if n) else 0 in
  ip_send dst IP_PROTO_UDP (udp_datagram src dst sport dport data).

(** the first binding of [port] *)
Fixpoint find_binding (l : list udp_binding_t) (port : Z) : option (Z * Z) :=
  match l with
  | [] => None
  | b :: l => match b_handler b with
              | Some h => if b_port b =? port then Some (h, b_ctx b) else find_binding l port
              | None => find_binding l port
              end
  end.

Definition udp_rx (src dst : Z) (d : list Z) : ST net unit :=
  if zlen d <? 8 then st_ret tt else
  let! ulen := of_option (rd16 d 4) in
  if (ulen <? 8) || (zlen d <? ulen) then st_ret tt else
  let! sum := of_option (rd16 d 6) in
  let! ok := (if negb (sum =? 0)
              then let! summed := of_option (rd_range d 0 ulen) in st_ret (udp_checksum src dst summed ulen =? 0)
              else st_ret true) in
  if negb ok then st_ret tt else
  let! sport := of_option (rd16 d 0) in
  let! dport := of_option (rd16 d 2) in
  let! n := get in
  match find_binding (g_bind n) dport with
  | Some (h, ctx) => let! data := of_option (rd_range d 8 ulen) in udp_handler h ctx src sport data
  | None => st_ret tt
  end.
End udp.
