(* ===== verification/NetRx.v ===== *)
(** Receiving (src/net/ip.c and src/net/net.c): a frame from a driver down to
    the protocols, the loopback queue and the polling loop. *)

From S2P Require Import Prelude Lit Wire Settings Firewall NetState Arp Ip.

Section rx.
Context {C : Type} `{SettingsOps C} {E : NetEnv C}.
Notation net := (net_t C).

Definition drop_packet : ST net unit := modify (fun n => n <| g_ip_rx_dropped ::= fun d => u32 (d + 1) |>).

(** a filter of the firewall as a step *)
Definition ask (f : fw_t C -> fw_t C * bool) : ST net bool := fun n =>
  let '(fw, ok) := f (firewall n) in Some (ok, n <| firewall := fw |>).

(** does the firewall, when it is on, let the packet in? *)
Definition fw_pass (src proto : Z) (payload : list Z) : ST net bool :=
  let! n := get in
  if fw_enabled (firewall n) && negb (Z.shiftr src 24 =? 127) && negb (if_configured (g_if n) && (src =? if_ip (g_if n))) then
    let from := ip4_to_str src (replicate 16 0) in
    let! ok := (if (proto =? IP_PROTO_TCP) && (14 <=? zlen payload) then
                  let! dport := of_option (rd16 payload 2) in
                  let! flags := of_option (rd8 payload 13) in
                  ask (fun f => fw_in_tcp f from dport (Z.land flags 0x12 =? 0x02))
                else st_ret true) in
    if negb ok then st_ret false else
    let! ok := (if (proto =? IP_PROTO_UDP) && (8 <=? zlen payload) then
                  let! sport := of_option (rd16 payload 0) in
                  let! dport := of_option (rd16 payload 2) in
                  ask (fun f => fw_in_udp f (now n) from sport dport)
                else st_ret true) in
    if negb ok then st_ret false else
    if (proto =? IP_PROTO_ICMP) && (1 <=? zlen payload) then
      let! type := of_option (rd8 payload 0) in
      if type =? 8 then ask (fun f => fw_in_ping f from) else st_ret true
    else st_ret true
  else st_ret true.

Definition for_us (nif : netif_t) (dst : Z) : bool :=
  (dst =? IP4_BROADCAST) || negb (if_configured nif) || (dst =? if_ip nif) || (Z.shiftr dst 24 =? 127) ||
  (negb (if_netmask nif =? 0) && (dst =? Z.lor (Z.land (if_ip nif) (if_netmask nif)) (u32 (Z.lnot (if_netmask nif))))).

Definition ip_rx (p : list Z) : ST net unit :=
  let! n := get in
  let nif := g_if n in
  if zlen p <? 20 then st_ret tt else
  let! b0 := of_option (rd8 p 0) in
  if negb (Z.shiftr b0 4 =? 4) then st_ret tt else
  let ihl := Z.land b0 0x0F * 4 in
  let! total := of_option (rd16 p 2) in
  if (ihl <? 20) || (total <? ihl) || (zlen p <? total) then drop_packet else
  let! header := of_option (rd_range p 0 ihl) in
  if negb (net_checksum header =? 0) then drop_packet else
  let! frag := of_option (rd16 p 6) in
  if negb (Z.land frag 0x2000 =? 0) || negb (Z.land frag 0x1FFF =? 0) then drop_packet else
  let! src := of_option (rd32 p 12) in
  let! dst := of_option (rd32 p 16) in
  if negb (for_us nif dst) then st_ret tt else
  let! payload := of_option (rd_range p ihl total) in
  let! proto := of_option (rd8 p 9) in
  let! ok := fw_pass src proto payload in
  if negb ok then st_ret tt else
  if proto =? IP_PROTO_ICMP then let! ttl := of_option (rd8 p 8) in icmp_rx src payload ttl
  else if proto =? IP_PROTO_UDP then udp_rx src dst payload
  else if proto =? IP_PROTO_TCP then
    (if if_configured nif || (Z.shiftr dst 24 =? 127) then tcp_rx src dst payload else st_ret tt)
  else st_ret tt.

(** [LOOP_MAX] turns: each slot emptied, then its packet received *)
Definition drain_one (i : Z) : ST net unit :=
  let! n := get in
  let! slot := of_option (get_at (g_loop n) i) in
  match slot with
  | None => st_ret tt
  | Some p => put_loop i None ;;; ip_rx p
  end.
Definition ip_loopback_drain : ST net unit := st_each (seqZ 0 LOOP_MAX) drain_one.

Definition ip6_is_loopback (a : list Z) : bool := bool_decide (a = replicate 15 0 ++ [1]).

(** a frame from the card [nd] *)
Definition net_rx (nd : Z) (frame : list Z) : ST net unit :=
  let! n := get in
  if negb (bool_decide (if_dev (g_if n) = Some nd)) then st_ret tt else
  if zlen frame <? 14 then st_ret tt else
  let! type := of_option (rd16 frame 12) in
  let! packet := of_option (rd_range frame 14 (zlen frame)) in
  if type =? ETH_TYPE_ARP then arp_rx packet else
  if type =? ETH_TYPE_IP then
    if 34 <=? zlen frame then
      let! s0 := of_option (rd8 frame 26) in
      let! d0 := of_option (rd8 frame 30) in
      if (s0 =? 127) || (d0 =? 127) then st_ret tt else ip_rx packet
    else ip_rx packet
  else if type =? 0x86DD then
    let! loops := (if 54 <=? zlen frame
                   then let! s := of_option (rd_range frame 22 38) in
                        let! d := of_option (rd_range frame 38 54) in
                        st_ret (ip6_is_loopback s || ip6_is_loopback d)
                   else st_ret false) in
    if (loops : bool) then st_ret tt else ipv6_rx packet
  else st_ret tt.

Definition net_set_static (ip mask gw dns : Z) : ST net unit :=
  dhcp_stop ;;;
  modify (fun n => n <| g_if ::= fun i =>
    i <| if_ip := ip |> <| if_netmask := mask |> <| if_gateway := gw |>
      <| if_dns ::= fun d => if negb (dns =? 0) then dns else d |>
      <| if_dhcp := false |> <| if_configured := negb (ip =? 0) |> <| if_bound_ms := now n |> |>).
End rx.
