(* ===== verification/NetDev.v ===== *)
(** The interfaces (src/net/net.c: the device table and the choice of the
    active one; src/net/netpolicy.c) and the saved network settings
    (src/net/netconf.c). [conf (firewall n)] is the file system. *)

From S2P Require Import Prelude Lit KString Wire Config Settings Firewall NetState Arp NetRx.

(** ** netpolicy.c *)

Definition NET_PRIORITY_AUTO : Z := 0.
Definition NET_PRIORITY_ETHERNET : Z := 1.
Definition NET_PRIORITY_WIFI : Z := 2.

Definition score (d : netdev_t) (priority : Z) (pinned : list Z) : Z :=
  if negb (present d) then -1 else
  if is_wifi d && bool_decide (dev_link d = None) then -1 else
  if bool_decide (dev_link d = Some false) then -1 else
  if negb (first_char pinned =? 0) && (strcmp pinned (ifname d) =? 0) then 100 else
  if (if priority =? NET_PRIORITY_WIFI then is_wifi d else negb (is_wifi d)) then 20 else 10.

Fixpoint choose_from (l : list (Z * netdev_t)) (current : option Z) (priority : Z) (pinned : list Z)
    (best : option Z) (best_score : Z) : option Z :=
  match l with
  | [] => best
  | (a, d) :: l =>
    let s := score d priority pinned in
    if (best_score <? s) || ((0 <=? s) && (s =? best_score) && bool_decide (Some a = current))
    then choose_from l current priority pinned (Some a) s
    else choose_from l current priority pinned best best_score
  end.
Definition netpolicy_choose (l : list (Z * netdev_t)) (current : option Z) (priority : Z) (pinned : list Z) : option Z :=
  choose_from l current priority pinned None (-1).

Definition CFG_NETWORK : list Z := str "/etc/network.conf".
Definition HEADER : list Z :=
  str "# Banana OS network settings - written by `ifconfig` and `dhcp`." ++ [10] ++
  str "# Delete this file (or run `ifconfig reset`) to go back to DHCP." ++ [10].
Definition NET_MAX_DEVS : Z := 16.

Section dev.
Context {C : Type} `{FsOps C} {E : NetEnv C}.
Notation net := (net_t C).

(** ** net.c: the device table *)

Definition net_device_count (n : net) : Z := zlen (g_devs n).
Definition net_device_at (n : net) (i : Z) : option Z :=
  if (0 <=? i) && (i <? zlen (g_devs n)) then Some (aget (g_devs n) i) else None.

(** the devices of the table, with what their pointers point to *)
Definition table (n : net) (l : list Z) : option (list (Z * netdev_t)) :=
  mapM (fun a => d ← devices n !! a; Some (a, d)) l.

Definition net_select_device (nd : option Z) : ST net unit :=
  let! n := get in
  let changed := negb (bool_decide (if_dev (g_if n) = nd)) in
  when changed tcp_network_changed ;;;
  modify (fun n => n <| g_if ::= fun i =>
    i <| if_dev := nd |> <| if_configured := false |>
      <| if_ip := 0 |> <| if_netmask := 0 |> <| if_gateway := 0 |> <| if_dns := 0 |> <| if_lease_s := 0 |> |>) ;;;
  arp_flush ;;;
  when changed (ipv6_network_changed ;;; dns_flush_cache) ;;;
  match nd with None => dhcp_stop | Some _ => dhcp_start end.

(** ** netconf.c *)

Definition file (n : net) : C := conf (firewall n).
Definition set_file (n : net) (f : C) : net := n <| firewall ::= fun w => w <| conf := f |> |>.

Definition get_ip (f : C) (key : list Z) : Z :=
  match cfg_get f CFG_NETWORK key 20 with
  | Some v => default 0 (str_to_ip4 v)
  | None => 0
  end.

Definition load (f : C) : netconf_t :=
  let c := Netconf true 0 [] false 0 0 0 0 in
  let c := match cfg_get f CFG_NETWORK (str "priority") 20 with
           | Some v => if strcmp v (str "wifi") =? 0 then c <| priority := NET_PRIORITY_WIFI |>
                       else if strcmp v (str "ethernet") =? 0 then c <| priority := NET_PRIORITY_ETHERNET |> else c
           | None => c
           end in
  let c := match cfg_get f CFG_NETWORK (str "iface") 20 with
           | Some v => c <| iface := default [] (kstrlcpy v 8).1 |>
           | None => c
           end in
  match cfg_get f CFG_NETWORK (str "mode") 20 with
  | Some v =>
    if strcmp v (str "static") =? 0 then
      let c := c <| c_ip := get_ip f (str "ip") |> <| c_mask := get_ip f (str "netmask") |>
                 <| c_gw := get_ip f (str "gateway") |> <| c_dns := get_ip f (str "dns") |> in
      let c := if c_mask c =? 0 then c <| c_mask := IP4 255 255 255 0 |> else c in
      c <| is_static := negb (c_ip c =? 0) |>
    else c
  | None => c
  end.

Definition netconf_claims (n : net) (d : netdev_t) : bool :=
  loaded (g_cfg n) && negb (first_char (iface (g_cfg n)) =? 0) && (strcmp (iface (g_cfg n)) (ifname d) =? 0).
Definition netconf_pins_iface (n : net) : bool := loaded (g_cfg n) && negb (first_char (iface (g_cfg n)) =? 0).
Definition netconf_is_static (n : net) : bool := loaded (g_cfg n) && is_static (g_cfg n).

Definition netconf_apply_to (nd : Z) : ST net unit :=
  let! n := get in
  when (negb (bool_decide (if_dev (g_if n) = Some nd))) (net_select_device (Some nd)) ;;;
  let! n := get in
  when (is_static (g_cfg n)) (net_set_static (c_ip (g_cfg n)) (c_mask (g_cfg n)) (c_gw (g_cfg n)) (c_dns (g_cfg n))).

(** the text of an address in a 16-byte buffer *)
Definition ip_text (ip : Z) : list Z := ip4_to_str ip (replicate 16 0).

(** one cfg_set of save: the file, and whether something went wrong ([bad]) *)
Definition put (mem : bool) (key : list Z) (value : option (list Z)) (s : C * bool) : C * bool :=
  let '(f, r) := cfg_set s.1 mem CFG_NETWORK key value (Some HEADER) in (f, s.2 || negb (r =? 0)).

(** [persisted]: what cfg_persist answers; [nd]: the device's name *)
Definition save_file (mem : bool) (f : C) (nd : option (list Z)) (is_static : bool) (ip mask gw dns : Z) : C * bool :=
  let s := put mem (str "iface") nd (f, false) in
  let s := put mem (str "mode") (Some (if is_static then str "static" else str "dhcp")) s in
  let s := put mem (str "ip") (if is_static then Some (ip_text ip) else None) s in
  let s := put mem (str "netmask") (if is_static then Some (ip_text mask) else None) s in
  let s := put mem (str "gateway") (if is_static && negb (gw =? 0) then Some (ip_text gw) else None) s in
  put mem (str "dns") (if is_static && negb (dns =? 0) then Some (ip_text dns) else None) s.

Definition save (mem : bool) (persisted : Z) (nd : option (list Z)) (is_static : bool) (ip mask gw dns : Z) (n : net) : net * Z :=
  let '(f, bad) := save_file mem (file n) nd is_static ip mask gw dns in
  let n := set_file n f <| g_cfg := load f |> in
  (n, if bad : bool then -1 else persisted).

Definition netconf_save_static (mem : bool) (persisted : Z) (nd : list Z) (ip mask gw dns : Z) (n : net) : net * Z :=
  save mem persisted (Some nd) true ip mask gw dns n.
Definition netconf_save_dhcp (mem : bool) (persisted : Z) (nd : option (list Z)) (n : net) : net * Z :=
  save mem persisted nd false 0 0 0 0 n.

(** ** net.c: which device is the active one *)

Definition preferred (n : net) : option (option Z) :=
  l ← table n (g_devs n);
  Some (netpolicy_choose l (if_dev (g_if n)) (priority (g_cfg n)) (iface (g_cfg n))).

(** the saved addresses if they name it, DHCP otherwise *)
Definition take_device (nd : Z) : ST net unit :=
  let! n := get in
  let! d := of_option (devices n !! nd) in
  if netconf_claims n d then netconf_apply_to nd else net_select_device (Some nd).

Definition net_reselect : ST net unit :=
  let! n := get in
  let! best := of_option (preferred n) in
  modify (fun n => n <| g_candidate := None |>) ;;;
  match best with
  | None => st_ret tt
  | Some nd => if bool_decide (if_dev (g_if n) = Some nd) then st_ret tt else take_device nd
  end.

(** an alternative must stay the best for three seconds *)
Definition failover : ST net unit :=
  let! n := get in
  let! best := of_option (preferred n) in
  match best with
  | None => modify (fun n => n <| g_candidate := None |>)
  | Some nd =>
    if bool_decide (if_dev (g_if n) = Some nd) then modify (fun n => n <| g_candidate := None |>) else
    if negb (bool_decide (g_candidate n = Some nd)) then
      modify (fun n => n <| g_candidate := Some nd |> <| g_candidate_since := now n |>)
    else when (3000 <=? u32 (now n - g_candidate_since n)) net_reselect
  end.

Definition netconf_boot : ST net unit :=
  modify (fun n => n <| g_cfg := load (file n) |>) ;;;
  net_reselect ;;;
  let! n := get in
  match fs_file_at (file n) CFG_NETWORK with
  | Missing => st_ret tt
  | _ =>
    let! l := of_option (table n (g_devs n)) in
    let pinned := iface (g_cfg n) in
    let named := negb (first_char pinned =? 0) in
    let hit (p : Z * netdev_t) := if named then strcmp (ifname p.2) pinned =? 0 else bool_decide (if_dev (g_if n) = Some p.1) in
    let target := foldl (fun t p => if hit p then Some p.1 else t) None l in
    match (match target with None => if named then None else if_dev (g_if n) | _ => target end) with
    | Some nd => netconf_apply_to nd
    | None => st_ret tt
    end
  end.

Definition netconf_use_dhcp (mem : bool) (persisted : Z) (n : net) : net * Z :=
  let s := put mem (str "mode") (Some (str "dhcp")) (file n, false) in
  let '(f, bad) := foldl (fun s key => put mem key None s) s [str "ip"; str "netmask"; str "gateway"; str "dns"] in
  let n := set_file n f <| g_cfg := load f |> in
  (n, if bad : bool then -1 else persisted).

Definition netconf_set_priority (mem : bool) (persisted p : Z) : ST net Z :=
  if (p <? NET_PRIORITY_AUTO) || (NET_PRIORITY_WIFI <? p) then st_ret (-1) else
  let name := if p =? NET_PRIORITY_WIFI then str "wifi" else if p =? NET_PRIORITY_ETHERNET then str "ethernet" else str "auto" in
  let! n := get in
  let '(f, bad) := put mem (str "priority") (Some name) (file n, false) in
  let '(n, disk) := save mem persisted None false 0 0 0 0 (set_file n f) in
  modify (fun _ => n) ;;;
  net_select_device (if_dev (g_if n)) ;;;
  net_reselect ;;;
  st_ret (if bad : bool then -1 else disk).

(** the name of the [k]-th interface with a prefix, in its 8-byte buffer *)
Definition if_name (prefix : list Z) (k : Z) (old : list Z) : list Z :=
  (ksnprintf old 8 (str "%s%d") [Str (Some prefix); Int k]).1.

(** the first name from the [k]-th on that no device of the table has, else the
    last one tried *)
Fixpoint free_name (count : nat) (used : list (list Z)) (prefix buf : list Z) (k : Z) : list Z :=
  match count with
  | O => buf
  | S count =>
    let buf := if_name prefix k buf in
    if existsb (fun u => strcmp u (c_string buf) =? 0) used then free_name count used prefix buf (k + 1) else buf
  end.

Definition net_register_device (nd : Z) : ST net unit :=
  let! n := get in
  if NET_MAX_DEVS <=? zlen (g_devs n) then st_ret tt else
  let! d := of_option (devices n !! nd) in
  let! l := of_option (table n (g_devs n)) in
  let prefix := if is_wifi d then str "wlan" else if is_usb d then str "usb" else str "eth" in
  let name := c_string (free_name 16 ((fun x => ifname x.2) <$> l) prefix (replicate 8 0) 0) in
  modify (fun n => n <| devices ::= fun m => <[nd := d <| ifname := name |> <| present := true |>]> m |>
                     <| g_devs ::= fun l => l ++ [nd] |>) ;;;
  let! n := get in
  match if_dev (g_if n) with
  | Some _ => st_ret tt
  | None =>
    let! best := of_option (preferred n) in
    match (match best with None => if negb (is_wifi d) then Some nd else None | Some _ => best end) with
    | None => st_ret tt
    | Some best => take_device best
    end
  end.

Definition net_unregister_device (nd : Z) : ST net unit :=
  modify (fun n => n <| g_devs ::= filter (fun a => a <> nd) |>
                     <| devices ::= alter (fun d => d <| present := false |>) nd |>
                     <| g_candidate ::= fun c => if bool_decide (c = Some nd) then None else c |>) ;;;
  let! n := get in
  when (bool_decide (if_dev (g_if n) = Some nd)) (net_select_device None ;;; net_reselect).
End dev.
