(* ===== verification/NetSafe.v ===== *)
(** The stack never reads outside a packet or writes outside a table or a
    buffer: whatever frame arrives, in any well-formed state, every handler runs
    to its end and leaves the state well-formed - but for one, the write of
    cache_put before the ARP cache, in the one state that makes it. *)

From S2P Require Import Prelude Lit Wire Settings Firewall NetState Arp Ip NetRx.

(** ** Loops *)

Section wp.
Context {S : Type}.
Implicit Types s : S.

Lemma wp_each {A} (l : list A) (f : A -> ST S unit) (P : S -> Prop) :
  (forall x s, x ∈ l -> P s -> wp (f x) (fun _ => P) s) -> forall s, P s -> wp (st_each l f) (fun _ => P) s.
Proof.
  induction l as [|x l IH]; intros Hf s Hs; [done|]. cbn [st_each]. apply wp_bind.
  eapply wp_mono; [apply Hf; [by left|done]|]. intros [] s' Hs'. apply IH; [|done].
  intros y t Hy. apply Hf. by right.
Qed.
End wp.

(** ** Well-formed states *)

Section safe.
Context {C : Type} `{SettingsOps C} {E : NetEnv C}.
Notation net := (net_t C).

(** the queue of ICMP events *)
Definition ring_ok (n : net) : Prop :=
  zlen (g_ev n) = EV_MAX /\ 0 <= g_ev_head n < EV_MAX /\ 0 <= g_ev_count n <= EV_MAX.

(** the selected device; no handler changes it *)
Variable dv : option Z.

Record net_ok (n : net) : Prop := {
  nk_sel : if_dev (g_if n) = dv;
  nk_dev : forall nd, dv = Some nd -> exists d, devices n !! nd = Some d;
  nk_cache : zlen (g_cache n) = ARP_CACHE /\ Forall (fun e => is_u32 (updated_ms e)) (g_cache n);
  nk_now : is_u32 (now n);
  nk_pending : zlen (g_pending n) = ARP_PENDING;
  nk_loop : zlen (g_loop n) = LOOP_MAX;
  nk_bind : zlen (g_bind n) = UDP_BINDINGS;
  nk_ring : ring_ok n;
}.

(** every entry of the ARP cache was learned in the last millisecond a 32-bit
    clock counts: cache_put finds no older one *)
Definition arp_full (n : net) : Prop :=
  Forall (fun e => arp_valid e = true /\ updated_ms e = 0xFFFFFFFF) (g_cache n).

(** [keeps m]: in a well-formed state, [m] does not fault and leaves one *)
Definition keeps {A} (m : ST net A) : Prop := forall n, net_ok n -> wp m (fun _ => net_ok) n.

(** what the stack relies on: the handlers it calls do so too *)
Record env_ok : Prop := {
  ek_udp : forall h ctx src sport data, keeps (udp_handler h ctx src sport data);
  ek_tcp : forall src dst seg, keeps (tcp_rx src dst seg);
  ek_ipv6 : forall p, keeps (ipv6_rx p);
  ek_dhcp : keeps dhcp_stop;
}.

Lemma keeps_ret {A} (a : A) : keeps (st_ret a).
Proof. by intros n Hn. Qed.

Lemma keeps_bind {A B} (m : ST net A) (k : A -> ST net B) : keeps m -> (forall a, keeps (k a)) -> keeps (st_bind m k).
Proof. intros Hm Hk n Hn. apply wp_bind. eapply wp_mono; [by apply Hm|]. intros a s' Hs. by apply Hk. Qed.

(** reading the state: the continuation may use that it is well-formed *)
Lemma keeps_get {B} (k : net -> ST net B) : (forall n, net_ok n -> wp (k n) (fun _ => net_ok) n) -> keeps (st_bind get k).
Proof. intros Hk n Hn. apply wp_bind, wp_get. by apply Hk. Qed.

Lemma keeps_option {A B} (o : option A) (k : A -> ST net B) : is_Some o -> (forall a, o = Some a -> keeps (k a)) ->
  keeps (st_bind (of_option o) k).
Proof. intros [a Ha] Hk n Hn. apply wp_bind, wp_option. exists a. split; [done|]. by apply Hk. Qed.

Lemma keeps_modify f : (forall n, net_ok n -> net_ok (f n)) -> keeps (modify f).
Proof. intros Hf n Hn. apply wp_modify. by apply Hf. Qed.

Lemma keeps_buf cap off k : 0 <= off -> 0 <= k -> off + k <= cap -> keeps (buf_write cap off k).
Proof. intros H1 H2 H3 n Hn. unfold wp. by rewrite buf_write_run. Qed.

Lemma keeps_gets {A} (f : net -> A) : keeps (gets f).
Proof. by intros n Hn. Qed.

Lemma keeps_when b m : keeps m -> keeps (when b m).
Proof. intros Hm. destruct b; [exact Hm|apply keeps_ret]. Qed.

Lemma keeps_each {A} (l : list A) f : (forall x, x ∈ l -> keeps (f x)) -> keeps (st_each l f).
Proof. intros Hf n Hn. apply wp_each; [|done]. intros x s Hx Hs. by apply Hf. Qed.

(** [safe m]: the same, but for the overrun of the ARP cache *)
Definition safe {A} (m : ST net A) : Prop := forall n, net_ok n ->
  match m n with Some (_, n') => net_ok n' | None => arp_full n end.

Lemma safe_keeps {A} (m : ST net A) : keeps m -> safe m.
Proof. intros Hm n Hn. specialize (Hm n Hn). unfold wp in Hm. by destruct (m n) as [[a n']|]. Qed.

Lemma safe_bind {A B} (m : ST net A) (k : A -> ST net B) : safe m -> (forall a, keeps (k a)) -> safe (st_bind m k).
Proof.
  intros Hm Hk n Hn. specialize (Hm n Hn). unfold st_bind. destruct (m n) as [[a n']|]; [|done].
  specialize (Hk a n' Hm). unfold wp in Hk. by destruct (k a n') as [[b n'']|].
Qed.

Lemma safe_option {A B} (o : option A) (k : A -> ST net B) : is_Some o -> (forall a, o = Some a -> safe (k a)) ->
  safe (st_bind (of_option o) k).
Proof. intros [a ->] Hk n Hn. by apply Hk. Qed.

Lemma safe_read {B} (k : net -> ST net B) : (forall n, net_ok n -> safe (k n)) -> safe (st_bind get k).
Proof. intros Hk n Hn. by apply Hk. Qed.

Lemma safe_when b m : safe m -> safe (when b m).
Proof. intros Hm. destruct b; [exact Hm|apply safe_keeps, keeps_ret]. Qed.

(** ... or no more than that it was read from some well-formed state *)
Lemma keeps_read {B} (k : net -> ST net B) : (forall n, net_ok n -> keeps (k n)) -> keeps (st_bind get k).
Proof. intros Hk. apply keeps_get. intros n Hn. by apply Hk. Qed.

End safe.

(** updates of fields the invariant does not read *)
Arguments keeps {C} dv {A} m.
Arguments net_ok {C} dv n.
Arguments env_ok C {E} dv.
Arguments ring_ok {C} n.
Arguments arp_full {C} n.
Arguments safe {C} dv {A} m.

Ltac same := by intros ? []; split.

Create HintDb keeps.
#[export] Hint Resolve keeps_ret keeps_gets : keeps.

(** one operation after the other *)
Ltac keep1 :=
  cbv beta zeta;
  lazymatch goal with
  | |- keeps _ (st_bind get _) => apply keeps_read; intros ? ?
  | |- keeps _ (st_bind (of_option _) _) => apply keeps_option; [eauto with keeps|intros ? ?]
  | |- keeps _ (st_bind _ _) => apply keeps_bind; [|intros ?]
  | |- keeps _ (when _ _) => apply keeps_when
  | |- keeps _ (modify _) => first [solve [eauto with keeps] | apply keeps_modify; try same]
  | |- keeps _ (buf_write _ _ _) =>
      apply keeps_buf; zors; unfold ETH_FRAME_MAX, IP_MAX_PAYLOAD in *; auto using zlen_nonneg; lia
  | |- keeps _ (st_each _ _) => apply keeps_each; intros ? ?
  | |- keeps _ (match ?x with _ => _ end) => destruct x eqn:?
  | |- keeps _ _ => solve [eauto with keeps]
  end.
Ltac keep := repeat keep1.

Ltac safe1 :=
  cbv beta zeta;
  lazymatch goal with
  | |- safe _ (st_bind get _) => apply safe_read; intros ? ?
  | |- safe _ (st_bind (of_option _) _) => apply safe_option; [eauto with keeps|intros ? ?]
  | |- safe _ (match ?x with _ => _ end) => destruct x eqn:?
  | |- safe _ (st_ret _) => apply safe_keeps, keeps_ret
  end.

(** ** Each operation *)

Section operations.
Context {C : Type} `{SettingsOps C} {E : NetEnv C}.
Notation net := (net_t C).
Variable dv : option Z.

Lemma kmalloc_keeps : keeps (C := C) dv kmalloc.
Proof. intros n []. unfold wp, kmalloc. destruct (heap n); by split. Qed.

Lemma eth_send_keeps dst type payload : keeps (C := C) dv (eth_send dst type payload).
Proof.
  apply keeps_get. intros n Hn. rewrite (nk_sel dv n Hn). destruct dv as [nd|] eqn:Ed; [|done].
  destruct (_ <? _) eqn:El; [done|]. zbool. apply wp_bind, wp_option. destruct (nk_dev _ n Hn nd eq_refl) as [d Hd].
  exists d. split; [done|]. pose proof (zlen_nonneg payload). apply wp_bind. unfold wp at 1.
  rewrite buf_write_run by (unfold ETH_FRAME_MAX in *; lia).
  cbv beta zeta. match goal with |- context [if ?b then _ else _] => destruct b; [|done] end.
  apply wp_bind, wp_modify, wp_ret. destruct Hn. by split.
Qed.

Lemma arp_send_keeps op dst tm tip : is_Some dv -> keeps (C := C) dv (arp_send op dst tm tip).
Proof.
  intros Hd n Hn. apply wp_bind, wp_get, wp_bind, wp_option. rewrite (nk_sel dv n Hn). destruct Hd as [nd Hd].
  exists nd. split; [done|]. destruct (nk_dev dv n Hn nd Hd) as [d Hdd]. apply wp_bind, wp_option. exists d. split; [done|].
  apply wp_bind. eapply wp_mono; [by apply eth_send_keeps|]. done.
Qed.

Lemma arp_request_keeps ip : keeps (C := C) dv (arp_request ip).
Proof.
  apply keeps_read. intros n Hn. rewrite (nk_sel dv n Hn). destruct dv eqn:Ed; [|apply keeps_ret].
  rewrite <- Ed. apply arp_send_keeps. by rewrite Ed.
Qed.

Lemma find_entry_spec l ip i : match find_entry l ip i with
  | Some j => i <= j < i + zlen l /\ arp_valid (aget l (j - i)) = true /\ arp_ip (aget l (j - i)) = ip
  | None => Forall (fun e => arp_valid e && (arp_ip e =? ip) = false) l
  end.
Proof.
  revert i. induction l as [|e l IH]; intros i; cbn [find_entry]; [constructor|].
  rewrite zlen_cons. pose proof (zlen_nonneg l). destruct (_ && _) eqn:Eb.
  - rewrite Z.sub_diag. change (aget (e :: l) 0) with e. zbool. split; [lia|done].
  - specialize (IH (i + 1)). destruct (find_entry l ip (i + 1)) as [j|]; [|by constructor].
    destruct IH as (IH1 & IH2 & IH3). assert (Ej : aget (e :: l) (j - i) = aget l (j - (i + 1))).
    { unfold aget. rewrite !list_lookup_total_alt. replace (Z.to_nat (j - i)) with (S (Z.to_nat (j - (i + 1)))) by lia. done. }
    rewrite Ej. split_and!; (done || lia).
Qed.

(** the slot of the oldest entry, or none when all of them are as new as can be *)
Lemma victim_spec l i slot oldest : Forall (fun e => is_u32 (updated_ms e)) l ->
  0 <= slot < i \/ slot = -1 /\ oldest = 0xFFFFFFFF ->
  0 <= i -> 0 <= victim l i slot oldest < i + zlen l \/
  slot = -1 /\ Forall (fun e => arp_valid e = true /\ updated_ms e = 0xFFFFFFFF) l.
Proof.
  intros Hl. revert i slot oldest. induction Hl as [|e l He Hl IH]; intros i slot oldest Hs Hi; cbn [victim].
  - change (zlen (@nil arp_entry_t)) with 0 in *. destruct Hs as [|[-> _]]; [left; lia|right; split; [done|constructor]].
  - rewrite zlen_cons in *. pose proof (zlen_nonneg l). destruct (arp_valid e) eqn:Ev; cbn [negb]; [|left; lia].
    unfold is_u32 in He. destruct (updated_ms e <? oldest) eqn:Eb; zbool.
    + destruct (IH (i + 1) i (updated_ms e) ltac:(lia) ltac:(lia)) as [? | [? _]]; [left; lia|lia].
    + destruct (IH (i + 1) slot oldest ltac:(lia) ltac:(lia)) as [? | [-> Hf]]; [left; lia|].
      right. split; [done|]. constructor; [|done]. split; [done|lia].
Qed.

(** the slot cache_put writes *)
Definition put_slot (n : net) (ip : Z) : Z :=
  match find_entry (g_cache n) ip 0 with Some i => i | None => victim (g_cache n) 0 (-1) 0xFFFFFFFF end.

Lemma put_slot_spec n ip : net_ok dv n -> ~ arp_full n -> 0 <= put_slot n ip < ARP_CACHE.
Proof.
  intros [_ _ [Hl Hc] _] Hf. unfold put_slot. pose proof (find_entry_spec (g_cache n) ip 0) as He. rewrite Hl in He.
  destruct (find_entry _ _ _); [lia|].
  destruct (victim_spec (g_cache n) 0 (-1) 0xFFFFFFFF Hc ltac:(by right) ltac:(lia)) as [? | [_ ?]]; [|done]. by rewrite <- Hl.
Qed.

Lemma cache_put_run n ip m : net_ok dv n -> ~ arp_full n ->
  cache_put ip m n = Some (tt, n <| g_cache := aset (g_cache n) (put_slot n ip) (ArpEntry ip m (now n) true) |>).
Proof.
  intros Hn Hf. pose proof (put_slot_spec n ip Hn Hf) as Hs. unfold cache_put, st_bind, get. fold (put_slot n ip).
  rewrite put_at_in; [done|]. by rewrite (proj1 (nk_cache dv n Hn)).
Qed.

(** it writes outside the table only when every entry is as new as can be *)
Lemma cache_put_safe ip m : safe (C := C) dv (cache_put ip m).
Proof.
  intros n Hn. destruct (cache_put ip m n) as [[[] n']|] eqn:Ec.
  - unfold cache_put, st_bind, get in Ec. fold (put_slot n ip) in Ec.
    destruct (put_at _ _ _) as [c|] eqn:Ep; [|done]. injection Ec as <-. apply put_at_inv in Ep as [_ ->].
    destruct Hn as [? ? [Hl Hc] Hnow]. split; try done. cbn [g_cache set setter]. rewrite zlen_aset. split; [done|].
    by apply Forall_insert.
  - destruct (decide (arp_full n)) as [|Hf]; [done|]. by rewrite (cache_put_run n ip m Hn Hf) in Ec.
Qed.

#[local] Hint Resolve kmalloc_keeps eth_send_keeps arp_request_keeps : keeps.

#[local] Hint Extern 1 (is_Some (get_at _ _)) => (apply get_at_some; erewrite ?nk_pending, ?nk_loop by eassumption; lia) : keeps.

Lemma put_pending_keeps i p : 0 <= i < ARP_PENDING -> keeps (C := C) dv (put_pending i p).
Proof.
  intros Hi. apply keeps_get. intros n Hn. rewrite put_at_in by (by rewrite (nk_pending dv n Hn)).
  apply wp_bind, wp_option. eexists. split; [done|]. apply wp_modify. destruct Hn. split; try done.
  cbn [g_pending set setter]. by rewrite zlen_aset.
Qed.

Lemma free_pending_spec l i j : free_pending l i = Some j -> i <= j < i + zlen l.
Proof.
  revert i. induction l as [|p l IH]; intros i; cbn [free_pending]; [done|]. rewrite zlen_cons. pose proof (zlen_nonneg l).
  destruct (pkt p); [|intros [= <-]; lia]. intros Hf. specialize (IH (i + 1) Hf). lia.
Qed.

Lemma in_seqZ x m k : x ∈ seqZ m k -> m <= x < m + k.
Proof. apply elem_of_seqZ. Qed.

Lemma flush_pending_keeps ip m : keeps (C := C) dv (flush_pending ip m).
Proof.
  unfold flush_pending, flush_one. apply keeps_each. intros i Hi. apply in_seqZ in Hi. keep. apply put_pending_keeps. lia.
Qed.

Lemma arp_queue_keeps hop p : keeps (C := C) dv (arp_queue_packet hop p).
Proof.
  apply keeps_read. intros n Hn. cbv zeta. destruct (free_pending (g_pending n) 0) as [slot|] eqn:Es; [|apply keeps_ret].
  apply free_pending_spec in Es. rewrite (nk_pending dv n Hn) in Es. keep. apply put_pending_keeps. lia.
Qed.

Lemma cache_map_keeps f : (forall e, is_u32 (updated_ms e) -> is_u32 (updated_ms (f e))) ->
  keeps (C := C) dv (modify (fun n => n <| g_cache ::= fmap f |>)).
Proof.
  intros Hf. apply keeps_modify. intros n [? ? [Hl Hc] Hnow]. split; try done. cbn [g_cache set setter].
  unfold zlen in *. rewrite length_fmap. split; [done|]. apply Forall_fmap. eapply Forall_impl; [exact Hc|]. exact Hf.
Qed.

Lemma arp_timer_keeps : keeps (C := C) dv arp_timer.
Proof.
  apply keeps_read. intros n Hn. apply keeps_bind; [|intros _].
  - apply cache_map_keeps. intros e He. unfold expire. by destruct (_ && _).
  - unfold timer_one. apply keeps_each. intros i Hi. apply in_seqZ in Hi. keep; apply put_pending_keeps; lia.
Qed.

Lemma arp_flush_keeps : keeps (C := C) dv arp_flush.
Proof.
  apply keeps_modify. intros n [? ? [Hl Hc] Hnow Hp]. split; try done; cbn [g_cache g_pending set setter].
  - unfold zlen in *. rewrite length_fmap. split; [done|]. by apply Forall_fmap.
  - unfold zlen in *. by rewrite length_fmap.
Qed.

#[local] Hint Extern 1 (is_Some (rd8 _ _)) => (apply rd8_some; zors; lia) : keeps.
#[local] Hint Extern 1 (is_Some (rd16 _ _)) => (apply rd16_some; zors; lia) : keeps.
#[local] Hint Extern 1 (is_Some (rd32 _ _)) => (apply rd32_some; zors; lia) : keeps.
#[local] Hint Extern 1 (is_Some (rd_range _ _ _)) => (apply rd_range_some; zors; lia) : keeps.
#[local] Hint Resolve flush_pending_keeps arp_queue_keeps : keeps.

Lemma arp_rx_safe p : is_Some dv -> safe (C := C) dv (arp_rx p).
Proof.
  intros Hd. unfold arp_rx. repeat safe1. apply safe_bind; [|intros _; keep; by apply arp_send_keeps].
  apply safe_when, safe_bind; [apply safe_when, cache_put_safe|intros _; apply flush_pending_keeps].
Qed.

Lemma free_loop_spec l i j : free_loop l i = Some j -> i <= j < i + zlen l.
Proof.
  revert i. induction l as [|p l IH]; intros i; cbn [free_loop]; [done|]. rewrite zlen_cons. pose proof (zlen_nonneg l).
  destruct p; [|intros [= <-]; lia]. intros Hf. specialize (IH (i + 1) Hf). lia.
Qed.

Lemma put_loop_keeps i x : 0 <= i < LOOP_MAX -> keeps (C := C) dv (put_loop i x).
Proof.
  intros Hi. apply keeps_get. intros n Hn. rewrite put_at_in by (by rewrite (nk_loop dv n Hn)).
  apply wp_bind, wp_option. eexists. split; [done|]. apply wp_modify. destruct Hn. split; try done.
  cbn [g_loop set setter]. by rewrite zlen_aset.
Qed.

Lemma loopback_send_keeps dst proto payload : keeps (C := C) dv (loopback_send dst proto payload).
Proof.
  unfold loopback_send. apply keeps_read. intros n Hn. destruct (free_loop (g_loop n) 0) as [i|] eqn:Ei; [|apply keeps_ret].
  apply free_loop_spec in Ei. rewrite (nk_loop dv n Hn) in Ei. unfold next_id. keep.
  apply put_loop_keeps. lia.
Qed.

#[local] Hint Resolve loopback_send_keeps : keeps.

Lemma ip_send_keeps dst proto payload : keeps (C := C) dv (ip_send dst proto payload).
Proof. unfold ip_send, next_id. keep. Qed.

#[local] Hint Resolve ip_send_keeps : keeps.

(** ** The queue of events *)

Lemma ev_at_run (n : net) i : ring_ok n -> 0 <= g_ev_head n + i ->
  ev_at i n = Some (aget (g_ev n) (Z.rem (g_ev_head n + i) EV_MAX), n).
Proof.
  intros (Hl & Hh & Hc) Hi. unfold ev_at, st_bind, get. pose proof (Z.rem_bound_pos (g_ev_head n + i) 16 ltac:(lia) ltac:(lia)).
  rewrite get_at_in; [done|]. rewrite Hl. unfold EV_MAX in *. lia.
Qed.

Lemma put_ev_run (n : net) idx e : ring_ok n -> 0 <= idx < EV_MAX -> put_ev idx e n = Some (tt, n <| g_ev := aset (g_ev n) idx e |>).
Proof. intros (Hl & _) Hi. unfold put_ev, st_bind, get. by rewrite put_at_in by (by rewrite Hl). Qed.

Lemma put_ev_keeps idx e : 0 <= idx < EV_MAX -> keeps (C := C) dv (put_ev idx e).
Proof.
  intros Hi n Hn. unfold wp. rewrite put_ev_run by (done || apply Hn). destruct Hn as [? ? ? ? ? ? ? Hr]. split; try done.
  destruct Hr. split; [|done]. cbn [g_ev set setter]. by rewrite zlen_aset.
Qed.

Lemma find_event_run (n : net) id count i : ring_ok n -> 0 <= i ->
  exists r, find_event count id i n = Some (r, n) /\ forall j, r = Some j -> i <= j < i + Z.of_nat count.
Proof.
  intros Hr. revert i. induction count as [|count IH]; intros i Hi; cbn [find_event]; [by eexists|].
  rewrite (bind_ok _ _ _ _ _ (ev_at_run n i Hr ltac:(destruct Hr; lia))). destruct (_ =? id).
  - eexists. split; [done|]. intros j [= <-]. lia.
  - destruct (IH (i + 1) ltac:(lia)) as (r & -> & Hj). eexists. split; [done|]. intros j Ej. specialize (Hj j Ej). lia.
Qed.

(** the events moved, and nothing else *)
Lemma shift_events_run count : forall j (n : net), net_ok dv n -> 0 <= j ->
  exists n', shift_events count j n = Some (tt, n') /\ net_ok dv n' /\ g_ev_count n' = g_ev_count n.
Proof.
  induction count as [|count IH]; intros j n Hn Hj; cbn [shift_events]; [by exists n|].
  pose proof (nk_ring dv n Hn) as Hr. pose proof (proj1 (proj2 Hr)) as Hh.
  rewrite (bind_ok _ _ _ _ _ (ev_at_run n (j + 1) Hr ltac:(lia))).
  assert (Hi : 0 <= Z.rem (g_ev_head n + j) EV_MAX < EV_MAX) by (apply Z.rem_bound_pos; [lia|done]).
  match goal with |- context [put_ev _ ?e] => pose proof (put_ev_keeps _ e Hi n Hn) as Hk end.
  unfold st_bind, get. unfold wp in Hk. rewrite put_ev_run in * by done.
  destruct (IH (j + 1) _ Hk ltac:(lia)) as (n' & Es & Hn' & Hc). by exists n'.
Qed.

Lemma icmp_poll_keeps id : keeps (C := C) dv (icmp_poll_event id).
Proof.
  apply keeps_get. intros n Hn. pose proof (nk_ring dv n Hn) as Hr. pose proof (proj2 (proj2 Hr)) as Hc. pose proof (proj1 (proj2 Hr)) as Hh.
  destruct (find_event_run n id (Z.to_nat (g_ev_count n)) 0 Hr ltac:(lia)) as (r & Ef & Hj).
  unfold wp. rewrite (bind_ok _ _ _ _ _ Ef). destruct r as [i|]; [|done]. specialize (Hj i eq_refl).
  rewrite (bind_ok _ _ _ _ _ (ev_at_run n i Hr ltac:(lia))).
  destruct (shift_events_run (Z.to_nat (g_ev_count n - 1 - i)) i n Hn ltac:(lia)) as (n' & Es & Hn' & Hc').
  rewrite (bind_ok _ _ _ _ _ Es). destruct Hn' as [? ? ? ? ? ? ? (Hl2 & Hh2 & Hc2)]. split; try done.
  split; [exact Hl2|split; [exact Hh2|]]. cbn [g_ev_count set setter]. lia.
Qed.

Lemma push_event_keeps e : keeps (C := C) dv (push_event e).
Proof.
  apply keeps_get. intros n Hn. pose proof (nk_ring dv n Hn) as (Hl & Hh & Hc).
  assert (Hi : 0 <= Z.rem (g_ev_head n + g_ev_count n) EV_MAX < EV_MAX) by (apply Z.rem_bound_pos; [lia|done]).
  set (idx := Z.rem (g_ev_head n + g_ev_count n) EV_MAX) in *. cbv zeta.
  apply wp_bind. eapply wp_mono with (P := fun _ n' => net_ok dv n' /\ g_ev_count n' < EV_MAX).
  - destruct (g_ev_count n =? EV_MAX) eqn:Ec; zbool; [|split; [done|lia]]. apply wp_modify. split; [|cbn [g_ev_count set setter]; lia].
    destruct Hn. split; try done. split; [done|]. cbn [g_ev_head g_ev_count set setter]. split; [|lia].
    apply Z.rem_bound_pos; [lia|done].
  - intros _ n1 [Hn1 Hc1]. apply wp_bind. eapply wp_mono with (P := fun _ n' => net_ok dv n' /\ g_ev_count n' < EV_MAX).
    + pose proof (put_ev_keeps idx e Hi n1 Hn1) as Hk. unfold wp in *. rewrite put_ev_run in * by (done || apply Hn1). done.
    + intros _ n2 [Hn2 Hc2]. apply wp_modify. destruct Hn2 as [? ? ? ? ? ? ? (Hl2 & Hh2 & Hc3)]. split; try done.
      split; [exact Hl2|split; [exact Hh2|]]. cbn [g_ev_count set setter]. lia.
Qed.

Lemma ask_keeps f : keeps (C := C) dv (ask f).
Proof. intros n []. unfold wp, ask. destruct (f (firewall n)). by split. Qed.

#[local] Hint Extern 1 (is_Some _) =>
  match goal with |- context [Z.land ?x 15] => pose proof (land_15 x) end;
  (apply rd8_some || apply rd16_some); zors; lia : keeps.
#[local] Hint Resolve push_event_keeps ask_keeps : keeps.

Lemma icmp_rx_keeps src msg ttl : keeps (C := C) dv (icmp_rx src msg ttl).
Proof. unfold icmp_rx. keep. Qed.

Lemma icmp_echo_send_keeps dst id seq len : 0 <= len -> keeps (C := C) dv (icmp_echo_send dst id seq len).
Proof.
  intros Hl. apply keeps_read. intros n Hn. cbv zeta. apply keeps_bind; [|intros; apply ip_send_keeps].
  apply keeps_buf; destruct (Z.ltb_spec 1472 len); lia.
Qed.

Lemma udp_send_keeps dst sport dport data : keeps (C := C) dv (udp_send dst sport dport data).
Proof. unfold udp_send. keep. Qed.

Lemma fw_pass_keeps src proto payload : keeps (C := C) dv (fw_pass src proto payload).
Proof. unfold fw_pass. keep. Qed.

Context (Henv : env_ok C dv).

Lemma udp_rx_keeps src dst d : keeps (C := C) dv (udp_rx src dst d).
Proof using Henv. unfold udp_rx. keep. apply Henv. Qed.

#[local] Hint Resolve icmp_rx_keeps udp_rx_keeps fw_pass_keeps : keeps.

Lemma ip_rx_keeps p : keeps (C := C) dv (ip_rx p).
Proof using Henv. unfold ip_rx, drop_packet. keep. apply Henv. Qed.

#[local] Hint Resolve ip_rx_keeps : keeps.

Lemma ip_loopback_drain_keeps : keeps (C := C) dv ip_loopback_drain.
Proof using Henv.
  unfold ip_loopback_drain, drain_one. apply keeps_each. intros i Hi. apply in_seqZ in Hi. apply keeps_read. intros n Hn.
  apply keeps_option; [eauto with keeps|]. intros slot _. destruct slot; [|apply keeps_ret].
  apply keeps_bind; [apply put_loop_keeps; lia|intros; apply ip_rx_keeps].
Qed.

Lemma net_rx_safe nd frame : safe (C := C) dv (net_rx nd frame).
Proof using Henv.
  apply safe_read. intros n Hn. rewrite (nk_sel dv n Hn). destruct (bool_decide _) eqn:Ed; [|apply safe_keeps, keeps_ret].
  apply bool_decide_eq_true in Ed. cbn [negb]. destruct (_ <? _) eqn:El; [apply safe_keeps, keeps_ret|].
  safe1. safe1. destruct (_ =? ETH_TYPE_ARP); [apply arp_rx_safe; by rewrite Ed|]. apply safe_keeps. keep. apply Henv.
Qed.

Lemma net_set_static_keeps ip mask gw dns : keeps (C := C) dv (net_set_static ip mask gw dns).
Proof using Henv. unfold net_set_static. keep. apply Henv. Qed.

Lemma free_binding_spec l i j : free_binding l i = Some j -> i <= j < i + zlen l.
Proof.
  revert i. induction l as [|p l IH]; intros i; cbn [free_binding]; [done|]. rewrite zlen_cons. pose proof (zlen_nonneg l).
  destruct (b_handler p); [|intros [= <-]; lia]. intros Hf. specialize (IH (i + 1) Hf). lia.
Qed.

Lemma udp_bind_keeps port h ctx : keeps (C := C) dv (udp_bind port h ctx).
Proof.
  apply keeps_get. intros n Hn. destruct (existsb _ _); [done|]. destruct (free_binding (g_bind n) 0) as [slot|] eqn:Es; [|done].
  apply free_binding_spec in Es. rewrite put_at_in by lia. apply wp_bind, wp_option. eexists. split; [done|].
  apply wp_bind, wp_modify, wp_ret. destruct Hn. split; try done. cbn [g_bind set setter]. by rewrite zlen_aset.
Qed.

Lemma udp_unbind_keeps port : keeps (C := C) dv (modify (udp_unbind port)).
Proof.
  apply keeps_modify. intros n []. split; try done. unfold udp_unbind. cbn [g_bind set setter]. unfold zlen in *. by rewrite length_fmap.
Qed.
End operations.
