(* ===== verification/NetDeliver.v ===== *)
(** What one host sends the other receives: a packet of ip_send, in its frame,
    comes out of the other stack's ip_rx with the same source, protocol and
    payload; so do a datagram and a ping. *)

From S2P Require Import Prelude Lit Wire Settings Firewall NetState Arp Ip NetRx.

(** ** Running a program on a state *)

Section run.
Context {S A B : Type}.
Lemma bind_get (k : S -> ST S B) s : st_bind get k s = k s s.
Proof. done. Qed.
Lemma bind_modify f (k : unit -> ST S B) s : st_bind (modify f) k s = k tt (f s).
Proof. done. Qed.
Lemma bind_ret (a : A) (k : A -> ST S B) s : st_bind (st_ret a) k s = k a s.
Proof. done. Qed.
Lemma bind_some o (a : A) (k : A -> ST S B) s : o = Some a -> st_bind (of_option o) k s = k a s.
Proof. by intros ->. Qed.
Lemma bind_eq (m m' : ST S A) (k : A -> ST S B) s s' : m s = m' s' -> st_bind m k s = st_bind m' k s'.
Proof. unfold st_bind. by intros ->. Qed.
Lemma bind_assoc {D} (m : ST S A) (f : A -> ST S B) (k : B -> ST S D) s :
  st_bind (st_bind m f) k s = st_bind m (fun a => st_bind (f a) k) s.
Proof. unfold st_bind. by destruct (m s) as [[a s']|]. Qed.
End run.

Ltac run1 :=
  first [ rewrite bind_get | rewrite bind_modify | rewrite bind_ret | erewrite bind_some by eassumption ]; cbv beta iota zeta.

(** ** The header *)

Lemma header_shape len id proto src dst : is_u8 proto -> exists cs, is_u16 cs /\
  ip_header len id proto src dst =
    [0x45; 0] ++ be16 (u16 (20 + len)) ++ be16 id ++ be16 0x4000 ++ [64; proto] ++ be16 cs ++ be32 src ++ be32 dst /\
  net_checksum (ip_header len id proto src dst) = 0.
Proof.
  intros Hp. set (a := [0x45; 0] ++ be16 (u16 (20 + len)) ++ be16 id ++ be16 0x4000 ++ [64; proto]).
  set (b := be32 src ++ be32 dst). destruct (checksum_stored a b) as (Hc & Ew & Es).
  - subst a b. rewrite !bytes_app. split_and!; auto using bytes_be16, bytes_be32; repeat (constructor; try done).
  - done.
  - done.
  - exists (net_checksum (a ++ 0 :: 0 :: b)). split; [done|].
    assert (Eh : ip_header len id proto src dst = wr16 (a ++ 0 :: 0 :: b) (zlen a) (net_checksum (a ++ 0 :: 0 :: b))) by done.
    rewrite Eh, Ew. split; [|done]. subst a b. by rewrite <- !app_assoc.
Qed.

Lemma zlen_header len id proto src dst : zlen (ip_header len id proto src dst) = 20.
Proof. unfold ip_header, wr16. by rewrite !zlen_aset. Qed.

(** a unicast address that is neither a loopback one nor ours *)
Definition far (a : Z) : Prop := is_u32 a /\ Z.shiftr a 24 <> 127.

Section deliver.
Context {C : Type} `{SettingsOps C} {E : NetEnv C}.
Notation net := (net_t C).

(** what ip_rx does with a packet that is for us *)
Definition dispatch (src dst ttl proto : Z) (payload : list Z) : ST net unit :=
  let! n := get in
  let! ok := fw_pass src proto payload in
  if negb ok then st_ret tt else
  if proto =? IP_PROTO_ICMP then icmp_rx src payload ttl
  else if proto =? IP_PROTO_UDP then udp_rx src dst payload
  else if proto =? IP_PROTO_TCP then
    (if if_configured (g_if n) || (Z.shiftr dst 24 =? 127) then tcp_rx src dst payload else st_ret tt)
  else st_ret tt.

Lemma ip_rx_packet id proto src dst payload n : is_u8 proto -> is_u16 id -> is_u32 src -> is_u32 dst ->
  zlen payload <= IP_MAX_PAYLOAD -> for_us (g_if n) dst = true ->
  ip_rx (ip_header (zlen payload) id proto src dst ++ payload) n = dispatch src dst 64 proto payload n.
Proof.
  intros Hp Hid Hs Hd Hl Hf. pose proof (zlen_nonneg payload). unfold IP_MAX_PAYLOAD in Hl.
  pose proof (header_shape (zlen payload) id proto src dst Hp) as (cs & Hcs & Eh & Hsum).
  pose proof (zlen_header (zlen payload) id proto src dst) as Hz. set (h := ip_header _ _ _ _ _) in *. set (p := h ++ payload).
  assert (Hzp : zlen p = 20 + zlen payload) by (subst p; rewrite zlen_app, Hz; done).
  assert (Ht : is_u16 (u16 (20 + zlen payload)) /\ u16 (20 + zlen payload) = 20 + zlen payload)
    by (split; [apply u16_bound|unfold u16; rewrite Z.mod_small; lia]). destruct Ht as [Ht Ht'].
  assert (Ep : p = [0x45; 0] ++ be16 (20 + zlen payload) ++ be16 id ++ be16 0x4000 ++ [64] ++ [proto] ++ be16 cs ++ be32 src ++ be32 dst ++ payload).
  { subst p. rewrite Eh, Ht'. by rewrite <- !app_assoc. }
  rewrite Ht' in Ht.
  assert (R0 : rd8 p 0 = Some 0x45) by (by rewrite Ep).
  assert (R2 : rd16 p 2 = Some (20 + zlen payload)) by (rewrite Ep; by apply rd16_put).
  assert (R6 : rd16 p 6 = Some 0x4000) by (rewrite Ep; by apply (rd16_put ([0x45; 0] ++ be16 (20 + zlen payload) ++ be16 id))).
  assert (R8 : rd8 p 8 = Some 64) by (by rewrite Ep).
  assert (R9 : rd8 p 9 = Some proto) by (by rewrite Ep).
  assert (R12 : rd32 p 12 = Some src) by (rewrite Ep;
    by apply (rd32_put ([0x45; 0] ++ be16 (20 + zlen payload) ++ be16 id ++ be16 0x4000 ++ [64] ++ [proto] ++ be16 cs))).
  assert (R16 : rd32 p 16 = Some dst) by (rewrite Ep;
    by apply (rd32_put ([0x45; 0] ++ be16 (20 + zlen payload) ++ be16 id ++ be16 0x4000 ++ [64] ++ [proto] ++ be16 cs ++ be32 src))).
  assert (S0 : rd_range p 0 20 = Some h) by (rewrite rd_range_at by lia; rewrite <- Hz; f_equal; apply slice_head).
  assert (S1 : rd_range p 20 (20 + zlen payload) = Some payload) by (rewrite rd_range_at by lia; rewrite <- Hz; f_equal; apply slice_tail).
  clear Ep. clearbody p h. clear Eh. unfold ip_rx. run1. rewrite Hzp, (proj2 (Z.ltb_ge _ _)) by lia. run1.
  change (negb (Z.shiftr 0x45 4 =? 4)) with false. change (Z.land 0x45 0x0F * 4) with 20. cbv iota. run1.
  rewrite (proj2 (Z.ltb_ge 20 20)), (proj2 (Z.ltb_ge _ 20)), (proj2 (Z.ltb_ge (20 + _) _)) by lia. cbn [orb].
  run1. rewrite Hsum. change (negb (0 =? 0)) with false. cbv iota. run1. 
  change (negb (Z.land 0x4000 0x2000 =? 0) || negb (Z.land 0x4000 0x1FFF =? 0)) with false. cbv iota. run1. run1.
  rewrite Hf. cbn [negb]. run1. run1. unfold dispatch. rewrite bind_get. unfold st_bind at 1 3.
  destruct (fw_pass src proto payload n) as [[ok n']|]; [|done]. destruct ok; [|done]. cbn [negb].
  destruct (proto =? IP_PROTO_ICMP); [by run1|done].
Qed.
(** ** Sending *)

(** the destination is another host, whose next hop has the address [m] in
    the ARP cache *)
Record routed (n : net) (dst : Z) (m : list Z) : Prop := {
  ro_conf : if_configured (g_if n) = true;
  ro_far : is_local n dst = false;
  ro_bcast : dst <> IP4_BROADCAST;
  ro_subnet : Z.lor dst (if_netmask (g_if n)) <> IP4_BROADCAST;
  ro_mcast : Z.shiftr dst 28 <> 0xE;
  ro_hop : let off_link := negb (Z.land dst (if_netmask (g_if n)) =? Z.land (if_ip (g_if n)) (if_netmask (g_if n))) in
    off_link && (if_gateway (g_if n) =? 0) = false /\
    arp_lookup n (if off_link then if_gateway (g_if n) else dst) = Some m;
}.

(** an interface with its device *)
Record on_device (n : net) (nd : Z) (d : netdev_t) : Prop := {
  od_dev : if_dev (g_if n) = Some nd;
  od_known : devices n !! nd = Some d;
}.

Definition eth_frame (dst src : list Z) (type : Z) (payload : list Z) : list Z := dst ++ src ++ be16 type ++ payload.

Lemma bind_write {B} cap off k (f : unit -> ST net B) s : 0 <= off -> 0 <= k -> off + k <= cap ->
  st_bind (buf_write cap off k) f s = f tt s.
Proof. intros. by apply (bind_ok _ _ s tt s), buf_write_run. Qed.

Lemma eth_send_run n nd d dst type payload : on_device n nd d -> zlen payload <= ETH_FRAME_MAX - 14 ->
  drv_takes (tx n) nd (eth_frame dst (mac d) type payload) = true ->
  eth_send dst type payload n = Some (NET_OK, n <| tx ::= fun t => t ++ [(nd, eth_frame dst (mac d) type payload)] |>).
Proof.
  intros [Hd Hk] Hl Ht. unfold eth_send. run1. rewrite Hd. rewrite (proj2 (Z.ltb_ge _ _)) by lia. run1.
  pose proof (zlen_nonneg payload). rewrite bind_write by (unfold ETH_FRAME_MAX in *; lia).
  fold (eth_frame dst (mac d) type payload). by rewrite Ht.
Qed.

(** the packet ip_send makes, and the state it leaves *)
Definition sent_packet (n : net) (dst proto : Z) (payload : list Z) : list Z :=
  ip_header (zlen payload) (g_ip_id n) proto (if_ip (g_if n)) dst ++ payload.
Definition sent_frame (n : net) (d : netdev_t) (m : list Z) (dst proto : Z) (payload : list Z) : list Z :=
  eth_frame m (mac d) ETH_TYPE_IP (sent_packet n dst proto payload).
Definition after_send (n : net) (nd : Z) (frame : list Z) : net :=
  n <| g_ip_id ::= fun i => u16 (i + 1) |> <| tx ::= fun t => t ++ [(nd, frame)] |>.

Lemma ip_send_run n nd d dst m proto payload : routed n dst m -> on_device n nd d -> zlen payload <= IP_MAX_PAYLOAD ->
  let frame := sent_frame n d m dst proto payload in
  drv_takes (tx n) nd frame = true -> ip_send dst proto payload n = Some (NET_OK, after_send n nd frame).
Proof.
  intros [Hc Hf Hb Hsub Hm [Hg Ha]] Hd Hl frame Ht. unfold ip_send. run1. rewrite (proj2 (Z.ltb_ge _ _)) by lia.
  rewrite Hf, (od_dev n nd d Hd), Hc. cbn [negb andb].
  rewrite (bind_ok next_id _ n (g_ip_id n) (n <| g_ip_id := u16 (g_ip_id n + 1) |>)) by done. cbv beta zeta.
  pose proof (zlen_nonneg payload). rewrite bind_write by (unfold IP_MAX_PAYLOAD in *; lia).
  rewrite (proj2 (Z.eqb_neq dst _)), (proj2 (Z.eqb_neq (Z.lor _ _) _)), (proj2 (Z.eqb_neq (Z.shiftr _ _) _)) by done.
  rewrite !andb_false_r. cbn [orb andb]. rewrite Hg. cbv iota. run1.
  assert (Ha' : forall i h, arp_lookup (n <| g_ip_id := i |>) h = arp_lookup n h) by done. rewrite Ha', Ha.
  rewrite (eth_send_run _ nd d); [done|by destruct Hd; split| |done].
  rewrite zlen_app, zlen_header. unfold IP_MAX_PAYLOAD, ETH_FRAME_MAX in *. lia.
Qed.

(** ** Receiving *)

Lemma frame_fields dm sm type payload : zlen dm = 6 -> zlen sm = 6 -> is_u16 type ->
  let f := eth_frame dm sm type payload in
  zlen f = 14 + zlen payload /\ rd16 f 12 = Some type /\ rd_range f 14 (zlen f) = Some payload /\ forall i, 0 <= i -> rd8 f (14 + i) = rd8 payload i.
Proof.
  intros H1 H2 Ht f. assert (Ef : f = (dm ++ sm ++ be16 type) ++ payload) by (subst f; unfold eth_frame; by rewrite <- !app_assoc).
  assert (Hz : zlen (dm ++ sm ++ be16 type) = 14) by (rewrite !zlen_app; change (zlen (be16 type)) with 2; lia). split_and!.
  - rewrite Ef, zlen_app. lia.
  - subst f. unfold eth_frame. rewrite app_assoc. apply rd16_put; [done|]. rewrite zlen_app. lia.
  - pose proof (zlen_nonneg payload). rewrite rd_range_at by (rewrite Ef, zlen_app; lia). f_equal.
    rewrite Ef, zlen_app, Hz. rewrite <- Hz at 1 2. apply slice_tail.
  - intros i Hi. rewrite Ef, <- Hz. by apply rd8_skip.
Qed.

Lemma net_rx_packet n nd dm sm id proto src dst payload : if_dev (g_if n) = Some nd -> zlen dm = 6 -> zlen sm = 6 ->
  is_u8 proto -> is_u16 id -> far src -> far dst -> zlen payload <= IP_MAX_PAYLOAD -> for_us (g_if n) dst = true ->
  net_rx nd (eth_frame dm sm ETH_TYPE_IP (ip_header (zlen payload) id proto src dst ++ payload)) n =
  dispatch src dst 64 proto payload n.
Proof.
  intros Hd H1 H2 Hp Hid [Hs Hs7] [Hdd Hd7] Hl Hf. pose proof (zlen_nonneg payload).
  set (p := ip_header _ _ _ _ _ ++ payload). set (f := eth_frame _ _ _ _).
  destruct (frame_fields dm sm ETH_TYPE_IP p H1 H2 ltac:(done)) as (Ez & Et & Ed & Eb). fold f in Ez, Et, Ed, Eb.
  destruct (header_shape (zlen payload) id proto src dst Hp) as (cs & _ & Eh & _).
  assert (Hzp : zlen p = 20 + zlen payload) by (subst p; by rewrite zlen_app, zlen_header).
  assert (Hoct : forall a, is_u32 a -> u8 (Z.shiftr a 24) = Z.shiftr a 24).
  { unfold is_u32, u8. intros a Ha. rewrite Z.shiftr_div_pow2 by lia. lia. }
  assert (Eb12 : rd8 f 26 = Some (Z.shiftr src 24)).
  { change 26 with (14 + 12). rewrite Eb by done. subst p. rewrite Eh, <- (Hoct src Hs). reflexivity. }
  assert (Eb16 : rd8 f 30 = Some (Z.shiftr dst 24)).
  { change 30 with (14 + 16). rewrite Eb by done. subst p. rewrite Eh, <- (Hoct dst Hdd). reflexivity. }
  unfold net_rx. run1. rewrite bool_decide_eq_true_2 by done. cbn [negb]. rewrite (proj2 (Z.ltb_ge _ 14)) by lia. run1. run1.
  change (ETH_TYPE_IP =? ETH_TYPE_ARP) with false. change (ETH_TYPE_IP =? ETH_TYPE_IP) with true. cbv iota.
  rewrite (proj2 (Z.leb_le 34 _)) by lia. run1. run1. rewrite (proj2 (Z.eqb_neq _ 127)), (proj2 (Z.eqb_neq _ 127)) by done.
  cbn [orb]. by apply ip_rx_packet.
Qed.

(** ** Datagrams *)

Lemma udp_sum src dst d len : bytes d -> zlen d <= 65536 ->
  udp_checksum src dst d len = net_csum_fold (wsum (pseudo_header src dst len) + wsum d) /\
  0 <= wsum (pseudo_header src dst len) + wsum d < 2 ^ 32 - 65536.
Proof.
  intros Hd Hl. assert (Hph : bytes (pseudo_header src dst len)).
  { unfold pseudo_header. rewrite !bytes_app. split_and!; auto using bytes_be16, bytes_be32; by repeat (constructor; try done). }
  pose proof (wsum_bound _ Hph) as B1. pose proof (wsum_bound _ Hd) as B2. change (zlen (pseudo_header src dst len)) with 12 in B1.
  unfold udp_checksum. rewrite (csum_add_sum (pseudo_header src dst len)) by (done || lia). rewrite csum_add_sum by (done || lia).
  split; [done|lia].
Qed.

(** a datagram as it goes out is accepted, whatever its length *)
Lemma datagram_shape src dst sport dport data : bytes data -> zlen data <= IP_MAX_PAYLOAD - 8 ->
  exists cs, is_u16 cs /\ cs <> 0 /\
    udp_datagram src dst sport dport data = be16 sport ++ be16 dport ++ be16 (8 + zlen data) ++ be16 cs ++ data /\
    udp_checksum src dst (udp_datagram src dst sport dport data) (8 + zlen data) = 0.
Proof.
  intros Hb Hl. pose proof (zlen_nonneg data). unfold IP_MAX_PAYLOAD in Hl. set (len := 8 + zlen data).
  assert (El : u16 len = len) by (subst len; unfold u16; rewrite Z.mod_small; lia).
  set (a := be16 sport ++ be16 dport ++ be16 len). assert (Ha : bytes a) by (subst a; rewrite !bytes_app; auto using bytes_be16).
  assert (Hd : forall v, is_u16 v -> bytes (a ++ be16 v ++ data) /\ zlen (a ++ be16 v ++ data) <= 65536 /\
            wsum (a ++ be16 v ++ data) = wsum a + v + wsum data).
  { intros v Hv. split_and!; [rewrite !bytes_app; auto using bytes_be16| |by apply wsum_field].
    rewrite !zlen_app. change (zlen a) with 6. change (zlen (be16 v)) with 2. lia. }
  set (cs0 := udp_checksum src dst (a ++ be16 0 ++ data) len).
  destruct (Hd 0 ltac:(done)) as (D1 & D2 & D3). destruct (udp_sum src dst _ len D1 D2) as [E0 B0]. fold cs0 in E0. rewrite D3 in E0, B0.
  assert (Hc : is_u16 cs0) by (rewrite E0; apply csum_fold_bound; unfold is_u32; lia).
  set (cs := if negb (cs0 =? 0) then cs0 else 0xFFFF).
  assert (Hcs : is_u16 cs /\ cs <> 0 /\ (cs = cs0 \/ cs = 0xFFFF /\ cs0 = 0)).
  { subst cs. destruct (cs0 =? 0) eqn:Ec; zbool; cbn [negb]; split_and!; auto; done. }
  destruct Hcs as (C1 & C2 & C3). exists cs.
  assert (Es : udp_datagram src dst sport dport data = a ++ be16 cs ++ data).
  { unfold udp_datagram. fold len. rewrite El. cbv zeta.
    change (be16 sport ++ be16 dport ++ be16 len ++ be16 0 ++ data) with (a ++ 0 :: 0 :: data).
    change (udp_checksum src dst (a ++ 0 :: 0 :: data) len) with cs0. fold cs.
    change 6 with (zlen a). apply wr16_at. }
  split_and!; [done|done|by rewrite Es|]. rewrite Es. destruct (Hd cs C1) as (D4 & D5 & D6).
  destruct (udp_sum src dst _ len D4 D5) as [-> B1]. rewrite D6 in *.
  replace (wsum (pseudo_header src dst len) + (wsum a + cs + wsum data)) with (wsum (pseudo_header src dst len) + (wsum a + 0 + wsum data) + cs) by lia.
  apply csum_verifies; [lia|lia|]. rewrite <- E0. done.
Qed.

Lemma udp_rx_run n src dst sport dport data h ctx : bytes data -> zlen data <= IP_MAX_PAYLOAD - 8 -> is_u16 sport -> is_u16 dport ->
  find_binding (g_bind n) dport = Some (h, ctx) ->
  udp_rx src dst (udp_datagram src dst sport dport data) n = udp_handler h ctx src sport data n.
Proof.
  intros Hb Hl Hs Hp Hf. pose proof (zlen_nonneg data).
  destruct (datagram_shape src dst sport dport data Hb Hl) as (cs & C1 & C2 & Es & Ec). unfold IP_MAX_PAYLOAD in Hl.
  assert (Hz : zlen (udp_datagram src dst sport dport data) = 8 + zlen data).
  { rewrite Es, !zlen_app. change (zlen (be16 _)) with 2. lia. }
  assert (Hz16 : is_u16 (8 + zlen data)) by (unfold is_u16; lia).
  set (d := udp_datagram _ _ _ _ _) in *.
  assert (R0 : rd16 d 0 = Some sport) by (rewrite Es; by apply (rd16_put [])).
  assert (R2 : rd16 d 2 = Some dport) by (rewrite Es; by apply (rd16_put (be16 sport))).
  assert (R4 : rd16 d 4 = Some (8 + zlen data)) by (rewrite Es; by apply (rd16_put (be16 sport ++ be16 dport))).
  assert (R6 : rd16 d 6 = Some cs) by (rewrite Es; by apply (rd16_put (be16 sport ++ be16 dport ++ be16 (8 + zlen data)))).
  assert (S8 : rd_range d 8 (8 + zlen data) = Some data).
  { rewrite rd_range_at by lia. f_equal. rewrite Es. rewrite !app_assoc. apply (slice_tail (((be16 sport ++ be16 dport) ++ be16 (8 + zlen data)) ++ be16 cs)). }
  assert (S0 : rd_range d 0 (8 + zlen data) = Some d) by (rewrite rd_range_at by lia; rewrite <- Hz; f_equal; apply slice_all).
  clearbody d. unfold udp_rx. rewrite (proj2 (Z.ltb_ge _ 8)) by lia. run1.
  rewrite (proj2 (Z.ltb_ge _ 8)), (proj2 (Z.ltb_ge _ _)) by lia. cbn [orb]. run1. rewrite (bind_ok _ _ n true n).
  2: { destruct (negb _); [|done]. run1. rewrite Ec. done. }
  cbn [negb]. run1. run1. run1. rewrite Hf. by run1.
Qed.
End deliver.
