(* ===== verification/NetProps.v ===== *)
(** The properties of the network stack: any run of calls and frames ends
    without a fault but one, a datagram and a ping cross from one host to the other, and
    an ARP reply releases what waited for it. *)

From S2P Require Import Prelude Lit Wire Settings Firewall FirewallProps NetState Arp Ip NetRx NetSafe NetDeliver.

Section props.
Context {C : Type} `{SettingsOps C} {E : NetEnv C}.
Notation net := (net_t C).

(** ** Runs *)

(** what happens to the stack: frames, its timers, the calls of the rest of
    the kernel, and time passing *)
Inductive net_call :=
  | Rx (nd : Z) (frame : list Z) | Drain | ArpTimer | ArpFlush | Tick (t : Z)
  | Send (dst proto : Z) (payload : list Z) | Ping (dst id seq len : Z) | PollEvent (id : Z)
  | Bind (port handler ctx : Z) | Unbind (port : Z) | SendTo (dst sport dport : Z) (data : list Z)
  | SetStatic (ip mask gw dns : Z).

Definition ignore {A} (m : ST net A) : ST net unit := st_bind m (fun _ => st_ret tt).

Definition net_do (c : net_call) : ST net unit :=
  match c with
  | Rx nd frame => net_rx nd frame
  | Drain => ip_loopback_drain
  | ArpTimer => arp_timer
  | ArpFlush => arp_flush
  | Tick t => modify (fun n => n <| now := t |>)
  | Send dst proto payload => ignore (ip_send dst proto payload)
  | Ping dst id seq len => ignore (icmp_echo_send dst id seq len)
  | PollEvent id => ignore (icmp_poll_event id)
  | Bind port handler ctx => ignore (udp_bind port handler ctx)
  | Unbind port => modify (udp_unbind port)
  | SendTo dst sport dport data => ignore (udp_send dst sport dport data)
  | SetStatic ip mask gw dns => net_set_static ip mask gw dns
  end.

(** the arguments that are 32-bit counts: any *)
Definition call_ok (c : net_call) : Prop :=
  match c with Tick t => is_u32 t | Ping _ _ _ len => is_u32 len | _ => True end.

(** what the calls do before one of them overruns the ARP cache *)
Definition overruns dv (calls : list net_call) (n : net) : Prop :=
  exists pre nd frame post n1, calls = pre ++ Rx nd frame :: post /\
    st_each pre net_do n = Some (tt, n1) /\ net_ok dv n1 /\ arp_full n1 /\ net_rx nd frame n1 = None.

Lemma ignore_keeps {A} dv (m : ST net A) : keeps (C := C) dv m -> keeps (C := C) dv (ignore m).
Proof. intros Hm. apply keeps_bind; [done|]. intros a. apply keeps_ret. Qed.

Lemma net_do_keeps dv c : env_ok C dv -> call_ok c -> (forall nd frame, c <> Rx nd frame) -> keeps (C := C) dv (net_do c).
Proof.
  intros He Hc Hr. destruct c; cbn [net_do].
  - by destruct (Hr nd frame).
  - by apply ip_loopback_drain_keeps.
  - apply arp_timer_keeps.
  - apply arp_flush_keeps.
  - apply keeps_modify. intros s []. by split.
  - apply ignore_keeps, ip_send_keeps.
  - apply ignore_keeps, icmp_echo_send_keeps, Hc.
  - apply ignore_keeps, icmp_poll_keeps.
  - apply ignore_keeps, udp_bind_keeps.
  - apply udp_unbind_keeps.
  - apply ignore_keeps, udp_send_keeps.
  - by apply net_set_static_keeps.
Qed.

(** C11: whatever frames the card delivers, byte for byte, whatever the rest of
    the kernel calls meanwhile and whatever the clock shows, no handler of the
    stack reads outside a packet, follows a bad pointer, or reads or writes
    outside a table or a buffer, and each one returns: a run from a well-formed
    state ends in one. There is one exception: when all sixteen entries of the
    ARP cache are valid and were learned in the millisecond 0xFFFFFFFF, the
    packet from a seventeenth address makes cache_put write at index -1; a run
    that faults has come to that state and nowhere else. *)
Theorem net_runs dv calls n : env_ok C dv -> net_ok dv n -> Forall call_ok calls ->
  match st_each calls net_do n with
  | Some (_, n') => net_ok dv n'
  | None => overruns dv calls n
  end.
Proof.
  intros He. revert n. induction calls as [|c calls IH]; intros n Hn Hc; [done|].
  apply Forall_cons in Hc as [Hc Hcs]. cbn [st_each].
  assert (Hone : match net_do c n with Some (_, n') => net_ok dv n' | None => arp_full n /\ exists nd frame, c = Rx nd frame end).
  { destruct c as [nd frame| | | | | | | | | | |] eqn:Ec.
    1: { pose proof (net_rx_safe dv He nd frame n Hn) as Hs. cbn [net_do]. destruct (net_rx nd frame n) as [[[] n']|]; [done|]. eauto. }
    all: assert (Hk : keeps (C := C) dv (net_do c)) by (apply net_do_keeps; [done|by subst c|by intros ? ?; subst c]);
      rewrite <- Ec; specialize (Hk n Hn); unfold wp in Hk; by destruct (net_do c n) as [[[] n']|]. }
  unfold st_bind. destruct (net_do c n) as [[[] n1]|] eqn:E1.
  - specialize (IH n1 Hone Hcs). destruct (st_each calls net_do n1) as [[[] n']|]; [done|].
    destruct IH as (pre & nd & frame & post & n2 & -> & Hp & Hrest). exists (c :: pre), nd, frame, post, n2.
    split; [done|]. split; [|done]. cbn [st_each]. by rewrite (bind_ok _ _ _ _ _ E1).
  - destruct Hone as (Hf & nd & frame & ->). by exists [], nd, frame, calls, n.
Qed.

(** ** Datagrams *)

Lemma fw_pass_udp (n : net) src sport dport payload : 8 <= zlen payload -> rd16 payload 0 = Some sport -> rd16 payload 2 = Some dport ->
  fw_in_udp (firewall n) (now n) (ip4_to_str src (replicate 16 0)) sport dport = (firewall n, true) ->
  fw_pass src IP_PROTO_UDP payload n = Some (true, n).
Proof.
  intros Hl H0 H2 Hf. unfold fw_pass. run1. match goal with |- (if ?b then _ else _) _ = _ => destruct b; [|done] end.
  change (IP_PROTO_UDP =? IP_PROTO_TCP) with false. change (IP_PROTO_UDP =? IP_PROTO_UDP) with true.
  change (IP_PROTO_UDP =? IP_PROTO_ICMP) with false. rewrite (proj2 (Z.leb_le 8 _)) by done. cbn [andb]. run1. cbn [negb].
  rewrite bind_assoc. run1. rewrite bind_assoc. run1.
  rewrite (bind_ok _ _ n true n); [done|]. unfold ask. rewrite Hf. by destruct n.
Qed.

(** the receiving host: on its device, with the destination's address *)
Definition at_address (n : net) (nd ip : Z) : Prop :=
  if_dev (g_if n) = Some nd /\ if_configured (g_if n) = true /\ if_ip (g_if n) = ip.

Lemma for_us_at (n : net) nd ip : at_address n nd ip -> for_us (g_if n) ip = true.
Proof.
  intros (_ & Hc & <-). unfold for_us. rewrite Z.eqb_refl, Hc. cbn [negb]. by rewrite orb_true_r.
Qed.

(** C27: a datagram crosses: when udp_send on one host has a route with a
    known hardware address, the frame it gives to its driver - any payload up to
    the limit - makes net_rx on the host with the destination address call the
    handler bound to the destination port with exactly the sender's address,
    port and data, provided that host's firewall lets the datagram in. *)
Theorem udp_crosses n1 nd1 d1 m n2 nd2 dst sport dport data h ctx :
  routed n1 dst m -> on_device n1 nd1 d1 -> zlen m = 6 -> zlen (mac d1) = 6 ->
  (forall t f, drv_takes t nd1 f = true) ->
  bytes data -> zlen data <= IP_MAX_PAYLOAD - 8 -> is_u16 sport -> is_u16 dport -> is_u16 (g_ip_id n1) ->
  far dst -> far (if_ip (g_if n1)) ->
  at_address n2 nd2 dst ->
  fw_in_udp (firewall n2) (now n2) (ip4_to_str (if_ip (g_if n1)) (replicate 16 0)) sport dport = (firewall n2, true) ->
  find_binding (g_bind n2) dport = Some (h, ctx) ->
  exists n1' frame, udp_send dst sport dport data n1 = Some (NET_OK, n1') /\ tx n1' = tx n1 ++ [(nd1, frame)] /\
    net_rx nd2 frame n2 = udp_handler h ctx (if_ip (g_if n1)) sport data n2.
Proof.
  intros Hr Hd Hm Hmac Ht Hb Hl Hs Hp Hid Hfd Hfs Ha Hfw Hbind. pose proof (zlen_nonneg data).
  destruct (datagram_shape (if_ip (g_if n1)) dst sport dport data Hb Hl) as (cs & C1 & C2 & Es & Ec).
  set (dg := udp_datagram _ _ _ _ _) in *.
  assert (Hz : zlen dg = 8 + zlen data) by (rewrite Es, !zlen_app; change (zlen (be16 _)) with 2; lia).
  set (n0 := n1 <| firewall ::= fun f => fw_out_udp f (now n1) sport |>).
  assert (Hr0 : routed n0 dst m) by (by destruct Hr). assert (Hd0 : on_device n0 nd1 d1) by (by destruct Hd).
  exists (after_send n0 nd1 (sent_frame n0 d1 m dst IP_PROTO_UDP dg)), (sent_frame n0 d1 m dst IP_PROTO_UDP dg). split_and!.
  - unfold udp_send. run1. run1. fold n0. rewrite (proj2 (Z.ltb_ge _ _)) by lia.
    rewrite bind_write by (unfold IP_MAX_PAYLOAD in *; lia).
    rewrite (proj2 (Z.eqb_neq _ 127)) by apply Hfd. change (if_configured (g_if n0)) with (if_configured (g_if n1)).
    rewrite (ro_conf _ _ _ Hr). change (if_ip (g_if n0)) with (if_ip (g_if n1)). fold dg.
    apply (ip_send_run n0 nd1 d1); [done|done|unfold IP_MAX_PAYLOAD in *; lia|apply Ht].
  - done.
  - unfold sent_frame, sent_packet. pose proof Ha as (Ha1 & _). rewrite net_rx_packet; try done.
    2: by (unfold IP_MAX_PAYLOAD in *; lia). 2: by eapply for_us_at.
    unfold dispatch. run1. rewrite (bind_ok _ _ n2 true n2).
    + change (IP_PROTO_UDP =? IP_PROTO_ICMP) with false. cbn [negb]. by apply udp_rx_run.
    + apply (fw_pass_udp n2 _ sport dport); [lia| | |done].
      * rewrite Es. by apply (rd16_put []).
      * rewrite Es. by apply (rd16_put (be16 sport)).
Qed.
(** ** Ping *)

(** an echo message of type [ty] with its checksum *)
Definition echo (ty cs id seq : Z) (data : list Z) : list Z := [ty; 0] ++ be16 cs ++ be16 id ++ be16 seq ++ data.

Lemma echo_checksum ty id seq data : is_u8 ty -> bytes data -> zlen data <= 1472 ->
  exists cs, is_u16 cs /\ wr16 (echo ty 0 id seq data) 2 (net_checksum (echo ty 0 id seq data)) = echo ty cs id seq data /\
    net_checksum (echo ty cs id seq data) = 0.
Proof.
  intros Ht Hb Hl. set (b := be16 id ++ be16 seq ++ data).
  destruct (checksum_stored [ty; 0] b) as (Hc & Ew & Es).
  - subst b. rewrite !bytes_app. split_and!; auto using bytes_be16. by repeat (apply Forall_cons; split; [done|]).
  - done.
  - subst b. rewrite !zlen_app. change (zlen (be16 _)) with 2. change (zlen [ty; 0]) with 2. lia.
  - by exists (net_checksum ([ty; 0] ++ 0 :: 0 :: b)).
Qed.

Lemma echo_answer cs id seq data : bytes data -> zlen data <= 1472 ->
  exists cs', is_u16 cs' /\ echo_reply (echo 8 cs id seq data) = echo 0 cs' id seq data /\
    net_checksum (echo 0 cs' id seq data) = 0.
Proof.
  intros Hb Hl. destruct (echo_checksum 0 id seq data ltac:(done) Hb Hl) as (cs' & Hc & Ew & Es).
  exists cs'. split_and!; [done| |done]. rewrite <- Ew. reflexivity.
Qed.

Lemma zlen_echo ty cs id seq data : zlen (echo ty cs id seq data) = 8 + zlen data.
Proof. unfold echo. rewrite !zlen_app. change (zlen (be16 _)) with 2. change (zlen [ty; 0]) with 2. lia. Qed.

Lemma echo_fields ty cs id seq data : is_u16 id -> is_u16 seq ->
  rd8 (echo ty cs id seq data) 0 = Some ty /\ rd16 (echo ty cs id seq data) 4 = Some id /\ rd16 (echo ty cs id seq data) 6 = Some seq.
Proof.
  intros Hi Hs. split_and!; [done| |].
  - by apply (rd16_put ([ty; 0] ++ be16 cs)).
  - by apply (rd16_put ([ty; 0] ++ be16 cs ++ be16 id)).
Qed.

(** the host that is pinged *)
Lemma icmp_request_run (n : net) src cs id seq data ttl : zlen data <= 1472 -> net_checksum (echo 8 cs id seq data) = 0 ->
  is_u16 id -> is_u16 seq ->
  icmp_rx src (echo 8 cs id seq data) ttl n = ignore (ip_send src IP_PROTO_ICMP (echo_reply (echo 8 cs id seq data))) n.
Proof.
  intros Hl Hs Hi Hq. pose proof (zlen_nonneg data). destruct (echo_fields 8 cs id seq data Hi Hq) as (E0 & _ & _).
  unfold icmp_rx. rewrite zlen_echo, Hs. rewrite (proj2 (Z.ltb_ge _ 8)) by lia. cbn [orb negb Z.eqb]. run1.
  change (8 =? 8) with true. cbv iota. rewrite (proj2 (Z.ltb_ge _ _)) by lia. by rewrite bind_write by lia.
Qed.

Lemma icmp_answer_run (n : net) src cs id seq data ttl : net_checksum (echo 0 cs id seq data) = 0 -> is_u16 id -> is_u16 seq ->
  icmp_rx src (echo 0 cs id seq data) ttl n = push_event (IcmpEvent src id seq ttl 0 (8 + zlen data) (now n)) n.
Proof.
  intros Hs Hi Hq. pose proof (zlen_nonneg data). destruct (echo_fields 0 cs id seq data Hi Hq) as (E0 & E4 & E6).
  unfold icmp_rx. rewrite Hs, (zlen_echo 0 cs). rewrite (proj2 (Z.ltb_ge _ 8)) by lia. cbn [orb negb Z.eqb]. run1.
  change (0 =? 8) with false. change (0 =? 0) with true. cbv iota. run1. run1. by run1.
Qed.

(** the event queue, oldest first *)
Definition events (n : net) : list icmp_event_t :=
  (fun i => aget (g_ev n) (Z.rem (g_ev_head n + i) EV_MAX)) <$> seqZ 0 (g_ev_count n).

(** the state after an event was put in a queue with room *)
Definition pushed (n : net) (e : icmp_event_t) : net :=
  n <| g_ev := aset (g_ev n) (Z.rem (g_ev_head n + g_ev_count n) EV_MAX) e |> <| g_ev_count ::= Z.add 1 |>.

Lemma push_event_run (n : net) e : ring_ok n -> g_ev_count n < EV_MAX -> push_event e n = Some (tt, pushed n e).
Proof.
  intros Hr Hlt. pose proof Hr as (Hl & Hh & Hc). unfold push_event. run1. rewrite (proj2 (Z.eqb_neq _ _)) by lia. cbn [when]. run1.
  rewrite (bind_ok _ _ _ _ _ (put_ev_run n (Z.rem (g_ev_head n + g_ev_count n) EV_MAX) e Hr
    (Z.rem_bound_pos (g_ev_head n + g_ev_count n) EV_MAX ltac:(lia) eq_refl))). done.
Qed.

Lemma pushed_ok (n : net) e : ring_ok n -> g_ev_count n < EV_MAX -> ring_ok (pushed n e).
Proof.
  intros (Hl & Hh & Hc) Hlt. split; [cbn [g_ev pushed set setter]; by rewrite zlen_aset|]. split; [done|].
  cbn [g_ev_count pushed set setter]. lia.
Qed.

(** a search passes the events of other numbers and finds the first of its own *)
Lemma find_event_spec (n : net) id count i : ring_ok n -> 0 <= i ->
  (forall j, i <= j < i + Z.of_nat count -> ev_id (aget (g_ev n) (Z.rem (g_ev_head n + j) EV_MAX)) <> id) ->
  ev_id (aget (g_ev n) (Z.rem (g_ev_head n + (i + Z.of_nat count)) EV_MAX)) = id ->
  find_event (S count) id i n = Some (Some (i + Z.of_nat count), n).
Proof.
  intros Hr. pose proof Hr as (_ & Hh & _). revert i. induction count as [|count IH]; intros i Hi Hn Hy.
  - cbn [find_event]. change (Z.of_nat 0) with 0 in *. rewrite Z.add_0_r in *.
    rewrite (bind_ok _ _ _ _ _ (ev_at_run n i Hr ltac:(lia))). by rewrite (proj2 (Z.eqb_eq _ _) Hy).
  - change (find_event (S (S count)) id i) with (let! e := ev_at i in
      if ev_id e =? id then st_ret (Some i) else find_event (S count) id (i + 1) : ST net (option Z)).
    rewrite (bind_ok _ _ _ _ _ (ev_at_run n i Hr ltac:(lia))).
    rewrite (proj2 (Z.eqb_neq _ _)) by (apply Hn; lia). replace (i + Z.of_nat (S count)) with (i + 1 + Z.of_nat count) in * by lia.
    apply IH; [lia| |done]. intros j Hj. apply Hn. lia.
Qed.

(** an event just recorded is the one ping gets, when no older one has its
    number *)
Lemma poll_pushed (n : net) e : ring_ok n -> g_ev_count n < EV_MAX -> Forall (fun x => ev_id x <> ev_id e) (events n) ->
  exists n', icmp_poll_event (ev_id e) (pushed n e) = Some (Some e, n').
Proof.
  intros Hr Hlt Hf. pose proof Hr as (Hl & Hh & Hc). pose proof (pushed_ok n e Hr Hlt) as Hr'. set (n' := pushed n e) in *.
  set (idx := Z.rem (g_ev_head n + g_ev_count n) EV_MAX). unfold EV_MAX in *.
  assert (Hidx : 0 <= idx < 16) by (subst idx; apply Z.rem_bound_pos; lia).
  assert (Hold : forall j, 0 <= j < g_ev_count n -> aget (g_ev n') (Z.rem (g_ev_head n + j) EV_MAX) = aget (g_ev n) (Z.rem (g_ev_head n + j) EV_MAX)).
  { intros j Hj. unfold EV_MAX. cbn [g_ev set setter n' pushed]. pose proof (Z.rem_bound_pos (g_ev_head n + j) 16 ltac:(lia) ltac:(lia)).
    apply aget_aset_ne; [lia|unfold EV_MAX; lia|]. fold idx. subst idx. unfold EV_MAX. rewrite !Z.rem_mod_nonneg by lia. lia. }
  assert (Hnew : aget (g_ev n') (Z.rem (g_ev_head n + g_ev_count n) EV_MAX) = e) by (apply aget_aset_eq; rewrite Hl; exact Hidx).
  assert (Hfound : find_event (Z.to_nat (g_ev_count n')) (ev_id e) 0 n' = Some (Some (g_ev_count n), n')).
  { change (g_ev_count n') with (1 + g_ev_count n). replace (Z.to_nat (1 + g_ev_count n)) with (S (Z.to_nat (g_ev_count n))) by lia.
    rewrite find_event_spec; [do 3 f_equal; lia|done|lia| |].
    - intros j Hj. change (g_ev_head n') with (g_ev_head n). rewrite Hold by lia. rewrite Forall_forall in Hf. apply Hf.
      unfold events. apply list_elem_of_fmap. exists j. split; [done|]. apply elem_of_seqZ. lia.
    - change (g_ev_head n') with (g_ev_head n). rewrite Z.add_0_l, Z2Nat.id by lia. by rewrite Hnew. }
  unfold icmp_poll_event. run1. rewrite (bind_ok _ _ _ _ _ Hfound).
  rewrite (bind_ok _ _ _ _ _ (ev_at_run n' (g_ev_count n) Hr' ltac:(change (g_ev_head n') with (g_ev_head n); lia))).
  change (g_ev_head n') with (g_ev_head n). rewrite Hnew. change (g_ev_count n') with (1 + g_ev_count n).
  replace (Z.to_nat (1 + g_ev_count n - 1 - g_ev_count n)) with 0%nat by lia. by eexists.
Qed.

Lemma fw_pass_icmp (n : net) src ty payload : 1 <= zlen payload -> rd8 payload 0 = Some ty ->
  (ty = 8 -> fw_in_ping (firewall n) (ip4_to_str src (replicate 16 0)) = (firewall n, true)) ->
  fw_pass src IP_PROTO_ICMP payload n = Some (true, n).
Proof.
  intros Hl H0 Hf. unfold fw_pass. run1. match goal with |- (if ?b then _ else _) _ = _ => destruct b; [|done] end.
  change (IP_PROTO_ICMP =? IP_PROTO_TCP) with false. change (IP_PROTO_ICMP =? IP_PROTO_UDP) with false.
  change (IP_PROTO_ICMP =? IP_PROTO_ICMP) with true. rewrite (proj2 (Z.leb_le 1 _)) by done. cbn [andb]. run1. cbn [negb]. run1.
  cbn [negb]. run1. destruct (ty =? 8) eqn:E8; zbool; [|done]. unfold ask. rewrite Hf by done. by destruct n.
Qed.

Lemma echo_data_spec t len : 0 <= len -> bytes (echo_data t len) /\ zlen (echo_data t len) = len.
Proof.
  intros Hl. unfold echo_data. set (d := _ <$> _). assert (Hd : bytes d /\ zlen d = len).
  { subst d. split; [|unfold zlen; rewrite length_fmap, length_seqZ; lia].
    apply Forall_fmap, Forall_forall. intros i _. apply u8_bound. }
  destruct Hd as [Hb Hz]. destruct (4 <=? len) eqn:E4; [|done]. unfold wr32. rewrite !zlen_aset. split; [|done].
  unfold aset. repeat apply Forall_insert; auto using u8_bound.
Qed.

(** C28: a ping crosses and comes back: between two hosts that have each other's
    hardware address, the frame icmp_echo_send hands to the driver makes the
    other host's net_rx hand one frame to its own, and that frame makes the
    first host's net_rx record exactly one event, which icmp_poll_event returns:
    from the other host, with the same number, sequence and size. *)
Theorem ping_crosses n1 nd1 d1 m1 n2 nd2 d2 m2 id seq len :
  let a1 := if_ip (g_if n1) in let a2 := if_ip (g_if n2) in
  routed n1 a2 m1 -> routed n2 a1 m2 -> on_device n1 nd1 d1 -> on_device n2 nd2 d2 ->
  zlen m1 = 6 -> zlen m2 = 6 -> zlen (mac d1) = 6 -> zlen (mac d2) = 6 ->
  (forall t nd f, drv_takes t nd f = true) -> is_u16 (g_ip_id n1) -> is_u16 (g_ip_id n2) -> far a1 -> far a2 ->
  fw_in_ping (firewall n2) (ip4_to_str a1 (replicate 16 0)) = (firewall n2, true) ->
  ring_ok n1 -> g_ev_count n1 < EV_MAX -> Forall (fun x => ev_id x <> id) (events n1) ->
  is_u16 id -> is_u16 seq -> 0 <= len <= 1472 ->
  exists n1' f1 n2' f2 n1'',
    icmp_echo_send a2 id seq len n1 = Some (NET_OK, n1') /\ tx n1' = tx n1 ++ [(nd1, f1)] /\
    net_rx nd2 f1 n2 = Some (tt, n2') /\ tx n2' = tx n2 ++ [(nd2, f2)] /\
    net_rx nd1 f2 n1' = Some (tt, n1'') /\
    exists n1''', icmp_poll_event id n1'' = Some (Some (IcmpEvent a2 id seq 64 0 (8 + len) (now n1)), n1''').
Proof.
  intros a1 a2 R1 R2 D1 D2 Hm1 Hm2 Hc1 Hc2 Ht Hi1 Hi2 F1 F2 Hfw Hring Hroom Hnone Hid Hseq Hlen.
  destruct (echo_data_spec (now n1) len ltac:(lia)) as [Hb Hz]. set (data := echo_data (now n1) len) in *.
  destruct (echo_checksum 8 id seq data ltac:(done) Hb ltac:(lia)) as (cs & Hcs & Ew & Es).
  destruct (echo_answer cs id seq data Hb ltac:(lia)) as (cs' & Hcs' & Ea & Es').
  set (n1' := after_send n1 nd1 (sent_frame n1 d1 m1 a2 IP_PROTO_ICMP (echo 8 cs id seq data))).
  set (n2' := after_send n2 nd2 (sent_frame n2 d2 m2 a1 IP_PROTO_ICMP (echo 0 cs' id seq data))).
  assert (A1 : at_address n1' nd1 a1) by (split_and!; [apply D1|apply R1|done]).
  assert (A2 : at_address n2 nd2 a2) by (split_and!; [apply D2|apply R2|done]).
  exists n1', (sent_frame n1 d1 m1 a2 IP_PROTO_ICMP (echo 8 cs id seq data)), n2',
    (sent_frame n2 d2 m2 a1 IP_PROTO_ICMP (echo 0 cs' id seq data)), (pushed n1' (IcmpEvent a2 id seq 64 0 (8 + len) (now n1))).
  split_and!; [|done| |done| |].
  - unfold icmp_echo_send. run1. rewrite (proj2 (Z.ltb_ge _ len)) by lia. rewrite bind_write by lia. fold data.
    change ([8; 0] ++ be16 0 ++ be16 id ++ be16 seq ++ data) with (echo 8 0 id seq data). rewrite Ew.
    apply (ip_send_run n1 nd1 d1); [done|done|rewrite zlen_echo; unfold IP_MAX_PAYLOAD; lia|apply Ht].
  - unfold sent_frame, sent_packet. rewrite net_rx_packet; try done; [|apply A2|rewrite zlen_echo; unfold IP_MAX_PAYLOAD; lia|by eapply for_us_at].
    unfold dispatch. run1. rewrite (bind_ok _ _ n2 true n2).
    2: { apply (fw_pass_icmp n2 _ 8); [rewrite zlen_echo; lia|done|done]. }
    change (IP_PROTO_ICMP =? IP_PROTO_ICMP) with true. cbn [negb]. rewrite icmp_request_run by (done || lia). rewrite Ea.
    unfold ignore. rewrite (bind_ok _ _ _ NET_OK n2'); [done|].
    apply (ip_send_run n2 nd2 d2); [done|done|rewrite zlen_echo; unfold IP_MAX_PAYLOAD; lia|apply Ht].
  - unfold sent_frame, sent_packet. rewrite net_rx_packet; try done; [|apply A1|rewrite zlen_echo; unfold IP_MAX_PAYLOAD; lia|by eapply for_us_at].
    unfold dispatch. run1. rewrite (bind_ok _ _ n1' true n1').
    2: { apply (fw_pass_icmp n1' _ 0); [rewrite zlen_echo; lia|done|done]. }
    change (IP_PROTO_ICMP =? IP_PROTO_ICMP) with true. cbn [negb]. rewrite icmp_answer_run by done. rewrite Hz. by apply push_event_run.
  - apply (poll_pushed n1' (IcmpEvent a2 id seq 64 0 (8 + len) (now n1))); [exact Hring|done|exact Hnone].
Qed.

(** ** Resolution *)

(** the packets waiting for [hop], in the order of their slots *)
Definition waits (hop : Z) (p : arp_pending_t) : option (list Z) := if asking p hop then pkt p else None.
Definition waiting (n : net) (hop : Z) : list (list Z) := omap (waits hop) (g_pending n).

Definition released (hop : Z) (p : arp_pending_t) : arp_pending_t := if asking p hop then p <| pkt := None |> else p.

Lemma waits_released hop hop' p : waits hop' (released hop p) = if hop' =? hop then None else waits hop' p.
Proof.
  unfold waits, released, asking. destruct p as [h [q|] t1 t2]; cbn; [|by destruct (hop' =? hop)].
  destruct (h =? hop) eqn:E1, (hop' =? hop) eqn:E2; cbn; zbool; try done.
  - by rewrite (proj2 (Z.eqb_neq h hop')) by congruence.
  - by rewrite (proj2 (Z.eqb_neq h hop')) by congruence.
Qed.

Lemma waiting_released l hop hop' :
  omap (waits hop') (released hop <$> l) = if hop' =? hop then [] else omap (waits hop') l.
Proof.
  induction l as [|p l IH]; [by destruct (_ =? _)|]. cbn [fmap list_fmap omap list_omap] in *.
  rewrite waits_released. destruct (hop' =? hop); [done|]. by rewrite IH.
Qed.

(** the queue set and frames sent *)
Definition moved (n : net) (l : list arp_pending_t) (t : list (Z * list Z)) : net :=
  n <| g_pending := l |> <| tx ::= fun t0 => t0 ++ t |>.

Lemma moved_nil n l : g_pending n = l -> moved n l [] = n.
Proof. intros <-. destruct n. unfold moved, set, setter. cbn. by rewrite app_nil_r. Qed.

Lemma moved_moved n l t l' t' : moved (moved n l t) l' t' = moved n l' (t ++ t').
Proof. destruct n. unfold moved, set, setter. cbn. by rewrite app_assoc. Qed.

(** the loop of flush_pending, from slot [zlen a] on *)
Lemma flush_run nd d ip m l a (n : net) : on_device n nd d -> (forall t f, drv_takes t nd f = true) ->
  Forall (fun p => forall q, pkt p = Some q -> zlen q <= ETH_FRAME_MAX - 14) l -> g_pending n = a ++ l ->
  st_each (seqZ (zlen a) (zlen l)) (flush_one ip m) n =
    Some (tt, moved n (a ++ (released ip <$> l)) ((fun q => (nd, eth_frame m (mac d) ETH_TYPE_IP q)) <$> omap (waits ip) l)).
Proof.
  intros Hd Ht. revert a n Hd. induction l as [|p l IH]; intros a n Hd Hl Hp.
  { change (zlen (@nil arp_pending_t)) with 0. cbn [fmap list_fmap omap list_omap]. by rewrite moved_nil. }
  apply Forall_cons in Hl as [Hlp Hl]. rewrite zlen_cons. pose proof (zlen_nonneg l).
  rewrite seqZ_cons by lia. replace (Z.pred (1 + zlen l)) with (zlen l) by lia.
  replace (Z.succ (zlen a)) with (zlen (a ++ [released ip p])) by (rewrite zlen_app; change (zlen [released ip p]) with 1; lia).
  assert (Hat : aget (g_pending n) (zlen a) = p).
  { rewrite Hp, aget_app by apply zlen_nonneg. by rewrite Z.ltb_irrefl, Z.sub_diag. }
  assert (Hset : forall x, aset (g_pending n) (zlen a) x = (a ++ [x]) ++ l).
  { intros x. rewrite Hp, <- app_assoc. unfold aset, zlen. by rewrite Nat2Z.id, insert_app_r_alt, Nat.sub_diag by lia. }
  assert (Hone : flush_one ip m (zlen a) n = Some (tt, moved n ((a ++ [released ip p]) ++ l)
     ((fun q => (nd, eth_frame m (mac d) ETH_TYPE_IP q)) <$> omap (waits ip) [p]))).
  { assert (Hin : 0 <= zlen a < zlen (g_pending n)) by (rewrite Hp, zlen_app, zlen_cons; pose proof (zlen_nonneg a); lia).
    unfold flush_one. run1. rewrite (bind_some _ p) by (by rewrite get_at_in, Hat). cbn [omap list_omap]. unfold released, waits, asking.
    destruct (pkt p) as [q|] eqn:Ep; [destruct (next_hop p =? ip)|]; cbn [fmap list_fmap].
    - rewrite (bind_ok _ _ _ _ _ (eth_send_run n nd d m ETH_TYPE_IP q Hd (Hlp q eq_refl) (Ht _ _))).
      unfold put_pending. run1. change (g_pending (n <| tx ::= _ |>)) with (g_pending n).
      rewrite (bind_some _ _ _ _ (put_at_in _ _ _ Hin)), Hset. by destruct n.
    - rewrite moved_nil; [done|]. by rewrite <- app_assoc.
    - rewrite moved_nil; [done|]. by rewrite <- app_assoc. }
  cbn [st_each]. rewrite (bind_ok _ _ _ _ _ Hone). rewrite IH; [|by destruct Hd|done|done].
  rewrite moved_moved, <- app_assoc, <- fmap_app, <- omap_app. reflexivity.
Qed.

(** the entry an address is looked up by *)
Lemma find_entry_at l ip i j : 0 <= j < zlen l -> arp_valid (aget l j) = true -> arp_ip (aget l j) = ip ->
  (forall k, 0 <= k < j -> arp_valid (aget l k) && (arp_ip (aget l k) =? ip) = false) -> find_entry l ip i = Some (i + j).
Proof.
  revert i j. induction l as [|e l IH]; intros i j Hj Hv Hi Hb; [change (zlen (@nil arp_entry_t)) with 0 in Hj; lia|].
  assert (Hs : forall k, 0 <= k -> aget (e :: l) (k + 1) = aget l k).
  { intros k Hk. unfold aget. rewrite !list_lookup_total_alt. by replace (Z.to_nat (k + 1)) with (S (Z.to_nat k)) by lia. }
  rewrite zlen_cons in Hj. cbn [find_entry]. destruct (decide (j = 0)) as [->|Hne].
  - change (aget (e :: l) 0) with e in *. rewrite Hv, (proj2 (Z.eqb_eq _ _) Hi). cbn. f_equal. lia.
  - specialize (Hb 0 ltac:(lia)) as Hb0. change (aget (e :: l) 0) with e in Hb0. rewrite Hb0.
    replace j with (j - 1 + 1) in * by lia. rewrite Hs in Hv, Hi by lia. rewrite (IH (i + 1) (j - 1)); try done; [f_equal; lia|lia|].
    intros k Hk. rewrite <- Hs by lia. apply Hb. lia.
Qed.

Lemma find_entry_before l ip i j : find_entry l ip i = Some j ->
  forall k, 0 <= k < j - i -> arp_valid (aget l k) && (arp_ip (aget l k) =? ip) = false.
Proof.
  revert i. induction l as [|e l IH]; intros i Hf k Hk; [done|]. cbn [find_entry] in Hf.
  destruct (arp_valid e && _) eqn:Eb; [injection Hf as <-; lia|].
  destruct (decide (k = 0)) as [->|]; [done|]. specialize (IH (i + 1) Hf (k - 1) ltac:(lia)).
  unfold aget in *. rewrite !list_lookup_total_alt in *. by replace (Z.to_nat k) with (S (Z.to_nat (k - 1))) by lia.
Qed.

(** what cache_put stores is what arp_lookup finds *)
Lemma put_lookup dv (n : net) ip m : net_ok dv n -> ~ arp_full n ->
  find_entry (aset (g_cache n) (put_slot n ip) (ArpEntry ip m (now n) true)) ip 0 = Some (put_slot n ip).
Proof.
  intros Hn Hnf. pose proof (put_slot_spec dv n ip Hn Hnf) as Hs. destruct (nk_cache dv n Hn) as [Hl _].
  rewrite (find_entry_at _ ip 0 (put_slot n ip)); [by rewrite Z.add_0_l|by rewrite zlen_aset, Hl|..].
  1,2: by rewrite aget_aset_eq by (rewrite Hl; done).
  intros k Hk. rewrite aget_aset_ne by lia. unfold put_slot in *.
  destruct (find_entry (g_cache n) ip 0) as [j|] eqn:Ef.
  - apply (find_entry_before _ _ _ _ Ef). lia.
  - pose proof (find_entry_spec (g_cache n) ip 0) as Hf. rewrite Ef in Hf. unfold aget. rewrite list_lookup_total_alt.
    destruct (g_cache n !! Z.to_nat k) as [x|] eqn:Ex; [|done]. cbn. by apply (Forall_lookup_1 _ _ _ _ Hf Ex).
Qed.

Lemma arp_fields op mac1 ip1 mac2 ip2 : zlen mac1 = 6 -> zlen mac2 = 6 -> is_u16 op -> is_u32 ip1 -> is_u32 ip2 ->
  let p := arp_packet op mac1 ip1 mac2 ip2 in
  zlen p = 28 /\ rd16 p 0 = Some 1 /\ rd16 p 2 = Some ETH_TYPE_IP /\ rd8 p 4 = Some 6 /\ rd8 p 5 = Some 4 /\
  rd16 p 6 = Some op /\ rd_range p 8 14 = Some mac1 /\ rd32 p 14 = Some ip1 /\ rd32 p 24 = Some ip2.
Proof.
  intros H1 H2 Ho Hi1 Hi2 p. subst p. unfold arp_packet. set (h := be16 1 ++ be16 ETH_TYPE_IP ++ [6; 4]).
  assert (Hh : zlen h = 6) by done. split_and!; try done.
  - rewrite !zlen_app, H1, H2. done.
  - by apply (rd16_put h).
  - assert (Es : be16 1 ++ be16 ETH_TYPE_IP ++ [6; 4] ++ be16 op ++ mac1 ++ be32 ip1 ++ mac2 ++ be32 ip2 =
      (h ++ be16 op) ++ mac1 ++ be32 ip1 ++ mac2 ++ be32 ip2) by (subst h; by rewrite <- !app_assoc).
    rewrite Es. rewrite rd_range_at; [f_equal|lia|rewrite !zlen_app, H1, H2; done].
    unfold slice. change (Z.to_nat 8) with (length (h ++ be16 op)). rewrite drop_app_length.
    apply take_app_length'. unfold zlen in H1. lia.
  - assert (Es : be16 1 ++ be16 ETH_TYPE_IP ++ [6; 4] ++ be16 op ++ mac1 ++ be32 ip1 ++ mac2 ++ be32 ip2 =
      (h ++ be16 op ++ mac1) ++ be32 ip1 ++ mac2 ++ be32 ip2) by (subst h; by rewrite <- !app_assoc).
    rewrite Es. apply rd32_put; [done|]. rewrite !zlen_app, H1. done.
  - assert (Es : be16 1 ++ be16 ETH_TYPE_IP ++ [6; 4] ++ be16 op ++ mac1 ++ be32 ip1 ++ mac2 ++ be32 ip2 =
      (h ++ be16 op ++ mac1 ++ be32 ip1 ++ mac2) ++ be32 ip2 ++ []) by (subst h; by rewrite <- !app_assoc, app_nil_r).
    rewrite Es. apply rd32_put; [done|]. rewrite !zlen_app, H1, H2. done.
Qed.

(** an ARP reply resolves: the packet arp_send makes on the host that has
    the address puts its hardware address in our cache, where arp_lookup then
    finds it, and gives the driver exactly the packets that waited for that
    address, each once and in slot order; what waits for other addresses stays. *)
Theorem arp_reply_releases n nd d ip m : net_ok (Some nd) n -> ~ arp_full n -> on_device n nd d -> (forall t f, drv_takes t nd f = true) ->
  Forall (fun p => forall q, pkt p = Some q -> zlen q <= ETH_FRAME_MAX - 14) (g_pending n) ->
  zlen m = 6 -> zlen (mac d) = 6 -> is_u32 ip -> ip <> 0 -> is_u32 (if_ip (g_if n)) ->
  exists n', arp_rx (arp_packet 2 m ip (mac d) (if_ip (g_if n))) n = Some (tt, n') /\
    arp_lookup n' ip = Some m /\
    tx n' = tx n ++ ((fun q => (nd, eth_frame m (mac d) ETH_TYPE_IP q)) <$> waiting n ip) /\
    waiting n' ip = [] /\ forall hop, hop <> ip -> waiting n' hop = waiting n hop.
Proof.
  intros Hn Hnf Hd Ht Hl Hm Hmac Hip Hne Hus.
  destruct (arp_fields 2 m ip (mac d) (if_ip (g_if n)) Hm Hmac ltac:(done) Hip Hus) as (Ez & E0 & E2 & E4 & E5 & E6 & E8 & E14 & E24).
  set (p := arp_packet _ _ _ _ _) in *. clearbody p.
  set (n1 := n <| g_cache := aset (g_cache n) (put_slot n ip) (ArpEntry ip m (now n) true) |>).
  pose proof (nk_pending _ n Hn) as Hz.
  set (n' := moved n1 (released ip <$> g_pending n) ((fun q => (nd, eth_frame m (mac d) ETH_TYPE_IP q)) <$> omap (waits ip) (g_pending n))).
  exists n'. split_and!.
  - unfold arp_rx. rewrite Ez. change (28 <? 28) with false. cbv iota. do 4 run1.
    change (negb (1 =? 1) || negb (ETH_TYPE_IP =? ETH_TYPE_IP) || negb (6 =? 6) || negb (4 =? 4)) with false. cbv iota. do 5 run1.
    rewrite (proj2 (Z.eqb_neq ip 0)) by done. change (2 =? 2) with true. change (2 =? 1) with false. cbn [negb orb andb when].
    rewrite bind_assoc. rewrite (bind_ok _ _ _ _ _ (cache_put_run _ n ip m Hn Hnf)). fold n1.
    pose proof (flush_run nd d ip m (g_pending n) [] n1 ltac:(by destruct Hd) Ht Hl eq_refl) as Hrun.
    rewrite Hz in Hrun. by rewrite (bind_ok (flush_pending ip m) _ n1 tt n' Hrun).
  - change (arp_lookup n' ip) with (match find_entry (g_cache n1) ip 0 with Some i => Some (arp_mac (aget (g_cache n1) i)) | None => None end).
    cbn [g_cache n1 set setter]. rewrite (put_lookup _ n ip m Hn Hnf). pose proof (put_slot_spec _ n ip Hn Hnf) as Hs.
    destruct (nk_cache _ n Hn) as [Hcl _]. by rewrite aget_aset_eq by (rewrite Hcl; done).
  - done.
  - change (waiting n' ip) with (omap (waits ip) (released ip <$> g_pending n)). by rewrite waiting_released, Z.eqb_refl.
  - intros hop Hh. change (waiting n' hop) with (omap (waits hop) (released ip <$> g_pending n)).
    rewrite waiting_released. by rewrite (proj2 (Z.eqb_neq hop ip) Hh).
Qed.
End props.

(** ** Two hosts the properties apply to *)

Definition demo_conf : Type := gmap (list Z) (list Z).

(** drivers that take every frame; a handler that notes what it got *)
#[local] Instance demo_env : NetEnv demo_conf := {
  drv_takes _ _ _ := true;
  udp_handler h _ _ _ data := modify (fun n => n <| tx ::= fun t => t ++ [(h, data)] |>);
  tcp_rx _ _ _ := st_ret tt;
  ipv6_rx _ := st_ret tt;
  dhcp_stop := st_ret tt; dhcp_start := st_ret tt; tcp_network_changed := st_ret tt;
  ipv6_network_changed := st_ret tt; dns_flush_cache := st_ret tt;
}.

Definition demo_mac (k : Z) : list Z := [2; 0; 0; 0; 0; k].
Definition demo_dev (k : Z) : netdev_t := Netdev (str "eth0") false true (demo_mac k) (Some true) false.

(** the host 10.0.0.[me], which knows 10.0.0.[peer], with packets waiting for
    10.0.0.9 *)
Definition demo_host (me peer : Z) : net_t demo_conf :=
  Net (Netif (Some 1) (0x0A000000 + me) 0xFFFFFF00 0 0 true false 0 0 0)
      (Netconf false 0 [] false 0 0 0 0) None 0
      [1] {[1 := demo_dev me]}
      (ArpEntry (0x0A000000 + peer) (demo_mac peer) 5 true :: replicate 15 (ArpEntry 0 (replicate 6 0) 0 false))
      (ArpPending 0x0A000009 (Some [69; 1]) 7 7 :: ArpPending 0x0A000008 (Some [69; 2]) 7 7 :: replicate 14 (ArpPending 0 None 0 0))
      (replicate 128 None) 1 0
      (replicate 16 (IcmpEvent 0 0 0 0 0 0 0)) 0 0
      (UdpBinding 7 (Some 99) 3 :: replicate 31 (UdpBinding 0 None 0))
      (fw_zero ∅) 1000 [] [].

Lemma demo_env_ok dv : env_ok demo_conf dv.
Proof. by split; repeat intro; apply wp_modify || apply wp_ret; destruct H. Qed.

Lemma demo_ok me peer : net_ok (Some 1) (demo_host me peer).
Proof.
  split; try done.
  - intros nd [= <-]. by exists (demo_dev me).
  - split; [done|]. repeat (apply Forall_cons; split; [done|]). constructor.
Qed.

(** a host that learned sixteen addresses in the clock's last millisecond *)
Definition full_host : net_t demo_conf :=
  demo_host 1 2 <| g_cache := map (fun k => ArpEntry (0x0A000100 + k) (demo_mac k) 0xFFFFFFFF true) (seqZ 0 16) |> <| now := 0xFFFFFFFF |>.

Lemma full_ok : net_ok (Some 1) full_host.
Proof.
  split; try done.
  - intros nd [= <-]. by exists (demo_dev 1).
  - split; [done|]. repeat (apply Forall_cons; split; [done|]). constructor.
Qed.

(** the one fault: an answer from a seventeenth address *)
Theorem cache_overrun : net_rx 1 (eth_frame (demo_mac 1) (demo_mac 9) ETH_TYPE_ARP
    (arp_packet 2 (demo_mac 9) 0x0A000009 (demo_mac 1) 0x0A000001)) full_host = None.
Proof. vm_compute. reflexivity. Qed.

Lemma demo_device me peer : on_device (demo_host me peer) 1 (demo_dev me).
Proof. by split. Qed.

Lemma demo_takes (t : list (Z * list Z)) (nd : Z) (f : list Z) : drv_takes t nd f = true.
Proof. done. Qed.

Lemma demo_routed : routed (demo_host 1 2) 0x0A000002 (demo_mac 2) /\ routed (demo_host 2 1) 0x0A000001 (demo_mac 1).
Proof. split; split; try done; by vm_compute. Qed.

Lemma net_runs_witness :
  let calls := [SendTo 0x0A000002 40000 7 [1; 2; 3]; Rx 1 (replicate 13 0); Rx 1 (replicate 60 0x45); Tick 0xFFFFFFFF; ArpTimer;
                Ping 0x7F000001 1 1 8; Drain; PollEvent 1; Bind 53 1 2; Unbind 53] in
  let frame := eth_frame (demo_mac 1) (demo_mac 9) ETH_TYPE_ARP (arp_packet 2 (demo_mac 9) 0x0A000009 (demo_mac 1) 0x0A000001) in
  Forall call_ok calls /\
  match st_each calls net_do (demo_host 1 2) with
  | Some (_, n') => net_ok (Some 1) n'
  | None => overruns (Some 1) calls (demo_host 1 2)
  end /\
  match st_each [Rx 1 frame] net_do full_host with
  | Some (_, n') => net_ok (Some 1) n'
  | None => overruns (Some 1) [Rx 1 frame] full_host
  end.
Proof.
  intros calls frame. assert (Hc : Forall call_ok calls) by (repeat (apply Forall_cons; split; [done|]); constructor).
  assert (Hf : Forall call_ok [Rx 1 frame]) by (apply Forall_cons; split; [exact I|constructor]).
  split; [exact Hc|]. split.
  - exact (net_runs (Some 1) calls (demo_host 1 2) (demo_env_ok _) (demo_ok 1 2) Hc).
  - exact (net_runs (Some 1) [Rx 1 frame] full_host (demo_env_ok _) full_ok Hf).
Defined.

Lemma udp_crosses_witness :
  bytes [104; 105] /\
  exists n1' frame, udp_send 0x0A000002 40000 7 [104; 105] (demo_host 1 2) = Some (NET_OK, n1') /\
    tx n1' = tx (demo_host 1 2) ++ [(1, frame)] /\
    net_rx 1 frame (demo_host 2 1) = udp_handler 99 3 0x0A000001 40000 [104; 105] (demo_host 2 1).
Proof.
  assert (Hb : bytes [104; 105]) by (repeat (apply Forall_cons; split; [done|]); constructor). split; [exact Hb|].
  apply (udp_crosses (demo_host 1 2) 1 (demo_dev 1) (demo_mac 2) (demo_host 2 1) 1 0x0A000002 40000 7 [104; 105] 99 3
    (proj1 demo_routed) (demo_device 1 2) eq_refl eq_refl (fun t f => demo_takes t 1 f) Hb); done.
Defined.

Lemma ping_crosses_witness :
  is_u16 77 /\
  exists n1' f1 n2' f2 n1'',
    icmp_echo_send 0x0A000002 77 3 56 (demo_host 1 2) = Some (NET_OK, n1') /\ tx n1' = tx (demo_host 1 2) ++ [(1, f1)] /\
    net_rx 1 f1 (demo_host 2 1) = Some (tt, n2') /\ tx n2' = tx (demo_host 2 1) ++ [(1, f2)] /\
    net_rx 1 f2 n1' = Some (tt, n1'') /\
    exists n1''', icmp_poll_event 77 n1'' = Some (Some (IcmpEvent 0x0A000002 77 3 64 0 (8 + 56) 1000), n1''').
Proof.
  assert (Hi : is_u16 77) by done. split; [exact Hi|].
  apply (ping_crosses (demo_host 1 2) 1 (demo_dev 1) (demo_mac 2) (demo_host 2 1) 1 (demo_dev 2) (demo_mac 1) 77 3 56
    (proj1 demo_routed) (proj2 demo_routed) (demo_device 1 2) (demo_device 2 1) eq_refl eq_refl eq_refl eq_refl demo_takes);
    try done.
Defined.

Lemma arp_reply_releases_witness :
  is_u32 0x0A000009 /\
  exists n', arp_rx (arp_packet 2 (demo_mac 9) 0x0A000009 (demo_mac 1) 0x0A000001) (demo_host 1 2) = Some (tt, n') /\
    arp_lookup n' 0x0A000009 = Some (demo_mac 9) /\
    tx n' = tx (demo_host 1 2) ++ ((fun q => (1, eth_frame (demo_mac 9) (demo_mac 1) ETH_TYPE_IP q)) <$> waiting (demo_host 1 2) 0x0A000009) /\
    waiting n' 0x0A000009 = [] /\ forall hop, hop <> 0x0A000009 -> waiting n' hop = waiting (demo_host 1 2) hop.
Proof.
  assert (Hi : is_u32 0x0A000009) by done. split; [exact Hi|].
  assert (Hf : ~ arp_full (demo_host 1 2)) by (intros Hf; apply Forall_cons in Hf as [[_ Hf] _]; discriminate).
  apply (arp_reply_releases (demo_host 1 2) 1 (demo_dev 1) 0x0A000009 (demo_mac 9) (demo_ok 1 2) Hf (demo_device 1 2) (fun t f => demo_takes t 1 f));
    try done.
  repeat (apply Forall_cons; split; [by intros q [= <-]|]). constructor.
Defined.
