(* ===== verification/NetDevProps.v ===== *)
(** The interfaces: the best device is chosen and kept, names do not clash, and
    a saved address comes back. *)

From S2P Require Import Prelude Lit KString KStringProps Wire Config ConfigProps Settings Firewall NetState Arp NetRx NetDev.

(** ** The choice of the active device *)

Lemma score_cases d priority pinned : score d priority pinned ∈ [-1; 10; 20; 100].
Proof. unfold score. repeat case_bool; set_solver. Qed.

Section choice.
Context (current : option Z) (priority : Z) (pinned : list Z).
Notation sc d := (score d priority pinned).

(** the best of the devices seen *)
Definition best_of (seen : list (Z * netdev_t)) (best : option Z) (s : Z) : Prop :=
  match best with
  | None => s = -1 /\ Forall (fun p => sc p.2 = -1) seen
  | Some a => 0 <= s /\ (exists d, (a, d) ∈ seen /\ sc d = s) /\ Forall (fun p => sc p.2 <= s) seen /\
      forall c d, current = Some c -> (c, d) ∈ seen -> sc d = s -> a = c
  end.

Lemma choose_from_spec l seen best s : NoDup (seen ++ l).*1 -> best_of seen best s ->
  exists s', best_of (seen ++ l) (choose_from l current priority pinned best s) s'.
Proof.
  revert seen best s. induction l as [|[a d] l IH]; intros seen best s Hnd Hb; cbn [choose_from].
  { rewrite app_nil_r. by exists s. }
  change ((a, d) :: l) with ([(a, d)] ++ l) in *. rewrite app_assoc in *.
  pose proof (score_cases d priority pinned) as Hs.
  assert (Hc : -1 <= sc d /\ (sc d = -1 \/ 0 <= sc d)) by (rewrite !elem_of_cons, elem_of_nil in Hs; lia).
  assert (Hni : forall x, (a, x) ∉ seen).
  { intros x Hx. rewrite !fmap_app in Hnd. apply NoDup_app in Hnd as [Hnd _]. apply NoDup_app in Hnd as (_ & Hd & _).
    apply (Hd a); [by apply (list_elem_of_fmap_2 fst _ (a, x))|by left]. }
  destruct ((s <? sc d) || _) eqn:E; apply IH; try done.
  - assert (Hs' : s < sc d \/ 0 <= sc d /\ sc d = s /\ current = Some a).
    { apply orb_true_iff in E as [E|E]; zbool; [by left|right]. split_and!; [done|done|]. symmetry. by eapply bool_decide_eq_true_1. }
    cbn. split_and!.
    + destruct best; cbn in Hb; lia.
    + exists d. split; [|done]. apply elem_of_app. right. by left.
    + apply Forall_app. split; [|by repeat constructor]. destruct best; cbn in Hb.
      * eapply Forall_impl; [apply Hb|]. intros p Hp. cbn in Hp. lia.
      * eapply Forall_impl; [apply Hb|]. intros p Hp. cbn in Hp. lia.
    + intros c x Hcur Hx Hsx. apply elem_of_app in Hx as [Hx|Hx]; [|apply list_elem_of_singleton in Hx; by injection Hx].
      destruct Hs' as [Hs'|(_ & _ & Hs')]; [|congruence]. exfalso. destruct best; cbn in Hb.
      * destruct Hb as (_ & _ & Hb & _). rewrite Forall_forall in Hb. specialize (Hb _ Hx). cbn in Hb. lia.
      * destruct Hb as (Hs1 & Hb). rewrite Forall_forall in Hb. specialize (Hb _ Hx). cbn in Hb. lia.
  - apply orb_false_iff in E as [E1 E2]. zbool.
    assert (Hcur : forall c, current = Some c -> sc d = s -> 0 <= s -> c <> a).
    { intros c Hcu Hsd Hs0 ->. destruct E2 as [E2|E2]; [apply andb_false_iff in E2 as [E2|E2]; zbool; lia|].
      apply bool_decide_eq_false in E2. congruence. }
    destruct best as [b|]; cbn in *.
    + destruct Hb as (Hb0 & (db & Hdb & Hsb) & Hall & Hk). split_and!; [done| | |].
      * exists db. split; [|done]. apply elem_of_app. by left.
      * apply Forall_app. split; [done|]. by repeat constructor.
      * intros c x Hcu Hx Hsx. apply elem_of_app in Hx as [Hx|Hx]; [by eapply Hk|].
        apply list_elem_of_singleton in Hx. injection Hx as -> ->. by destruct (Hcur a Hcu Hsx Hb0).
    + destruct Hb as [-> Hall]. split; [done|]. apply Forall_app. split; [done|]. repeat constructor. cbn. lia.
Qed.
End choice.

(** the interface policy: netpolicy_choose returns no device exactly when
    none can carry traffic (present, and with its carrier), and otherwise one
    whose rank - pinned by name, of the preferred kind, any - no other device
    exceeds; the active device stays chosen when it has that rank. *)
Theorem choose_best l current priority pinned : NoDup l.*1 ->
  match netpolicy_choose l current priority pinned with
  | None => Forall (fun p => score p.2 priority pinned = -1) l
  | Some a => exists d, (a, d) ∈ l /\ 0 <= score d priority pinned /\
      Forall (fun p => score p.2 priority pinned <= score d priority pinned) l /\
      forall c x, current = Some c -> (c, x) ∈ l -> score x priority pinned = score d priority pinned -> a = c
  end.
Proof.
  intros Hnd. destruct (choose_from_spec current priority pinned l [] None (-1) Hnd) as [s Hs]; [by split; [|constructor]|].
  unfold netpolicy_choose. cbn [app] in Hs. destruct (choose_from _ _ _ _ _ _) as [a|]; [|apply Hs].
  destruct Hs as (Hs0 & (d & Hd & <-) & Hall & Hk). exists d. split_and!; try done.
Qed.

(** ** The saved addresses *)

Lemma ip_text_dotted ip : is_u32 ip -> exists a b c d, is_u8 a /\ is_u8 b /\ is_u8 c /\ is_u8 d /\ ip_text ip = dotted a b c d.
Proof.
  intros Hip. destruct (ip4_to_str_dotted ip (replicate 16 0) Hip eq_refl) as (a & b & c & d & ? & ? & ? & ? & _ & E).
  by exists a, b, c, d.
Qed.

Lemma dec_chars v : is_u8 v -> Forall (fun c => 48 <= c <= 57) (dec_text v).
Proof.
  intros Hv. unfold is_u8 in Hv. pose proof (dec_digits v ltac:(lia)) as H. apply Forall_forall. intros c Hc.
  rewrite forallb_forall in H. specialize (H c (proj1 (list_elem_of_In _ _) Hc)). unfold k_isdigit in H. zbool. lia.
Qed.

Lemma ip_text_good ip : is_u32 ip -> good_value (ip_text ip) /\ zlen (ip_text ip) < 16.
Proof.
  intros Hip. destruct (ip_text_dotted ip Hip) as (a & b & c & d & Ha & Hb & Hc & Hd & ->).
  assert (Hch : Forall (fun c => 46 <= c <= 57) (dotted a b c d)).
  { unfold dotted. repeat (apply Forall_app; split); try (apply Forall_singleton; lia);
      (eapply Forall_impl; [by apply dec_chars|]; cbn; lia). }
  split; [split|].
  - eapply Forall_impl; [exact Hch|]. cbn. lia.
  - destruct (last (dotted a b c d)) as [x|] eqn:E; [|done]. apply last_Some_elem_of in E.
    rewrite Forall_forall in Hch. specialize (Hch x E). cbn in Hch. lia.
  - unfold dotted. rewrite !zlen_app. change (zlen [46]) with 1.
    pose proof (dec_short _ Ha). pose proof (dec_short _ Hb). pose proof (dec_short _ Hc). pose proof (dec_short _ Hd). lia.
Qed.

Section netconf.
Context {C : Type} `{FsLaws C} {R : FsRoom C}.

Lemma header_no61 : Forall (fun c => c <> 61) HEADER.
Proof using Type. by repeat constructor. Qed.

Notation ok f := (fs_file_at f CFG_NETWORK <> Unreadable).

Lemma put_run f k v b : ok f -> good_key k -> good_value v -> exists f', put true k (Some v) (f, b) = (f', b) /\ ok f' /\
  (forall cap, zlen v < cap -> cfg_get f' CFG_NETWORK k cap = Some v) /\
  (forall k' cap, good_key k' -> k' <> k -> 0 < cap -> cfg_get f' CFG_NETWORK k' cap = cfg_get f CFG_NETWORK k' cap).
Proof using R H0.
  intros Hf Hk Hv. pose proof header_no61 as Hh. exists (cfg_set f true CFG_NETWORK k (Some v) (Some HEADER)).1. split_and!.
  - unfold put. cbn [fst snd]. pose proof (cfg_set_ok f CFG_NETWORK k v (Some HEADER) Hf) as Hok.
    destruct (cfg_set f true CFG_NETWORK k (Some v) (Some HEADER)) as [f' r]. cbn [fst snd] in *. subst r. cbn. by rewrite orb_false_r.
  - by apply put_readable.
  - intros cap Hc. by apply put_get_eq.
  - intros k' cap Hk' Hne Hc. by apply put_get_ne.
Qed.

Lemma net_keys : Forall good_key [str "priority"; str "iface"; str "mode"; str "ip"; str "netmask"; str "gateway"; str "dns"].
Proof using Type. repeat (apply Forall_cons; split; [unfold good_key; split; [by repeat constructor|done]|]). constructor. Qed.

(** the parts of what load finds *)
Definition saved_priority (v : option (list Z)) : Z :=
  match v with
  | Some v => if strcmp v (str "wifi") =? 0 then NET_PRIORITY_WIFI
              else if strcmp v (str "ethernet") =? 0 then NET_PRIORITY_ETHERNET else 0
  | None => 0
  end.

Lemma load_priority f : priority (load f) = saved_priority (cfg_get f CFG_NETWORK (str "priority") 20).
Proof using Type.
  unfold load, saved_priority. destruct (cfg_get f CFG_NETWORK (str "priority") 20) as [v|];
    [destruct (strcmp v (str "wifi") =? 0); [|destruct (strcmp v (str "ethernet") =? 0)]|];
    destruct (cfg_get f CFG_NETWORK (str "iface") 20); destruct (cfg_get f CFG_NETWORK (str "mode") 20) as [m|]; try done;
    destruct (strcmp m (str "static") =? 0); try done; cbn [c_mask set setter]; by destruct (get_ip f (str "netmask") =? 0).
Qed.

Lemma load_static f nd ip mask gw dns : default [] (kstrlcpy nd 8).1 = nd -> ip <> 0 -> mask <> 0 ->
  cfg_get f CFG_NETWORK (str "iface") 20 = Some nd -> cfg_get f CFG_NETWORK (str "mode") 20 = Some (str "static") ->
  get_ip f (str "ip") = ip -> get_ip f (str "netmask") = mask -> get_ip f (str "gateway") = gw -> get_ip f (str "dns") = dns ->
  load f = Netconf true (saved_priority (cfg_get f CFG_NETWORK (str "priority") 20)) nd true ip mask gw dns.
Proof using Type.
  intros Hcp Hi Hm V2 V3 V4 V5 V6 V7. unfold load, saved_priority. rewrite V2, V3, V4, V5, V6, V7, Hcp.
  change (strcmp (str "static") (str "static") =? 0) with true. cbn [c_mask set setter]. rewrite (proj2 (Z.eqb_neq mask 0)) by done.
  cbn [c_ip set setter]. rewrite (proj2 (Z.eqb_neq ip 0)) by done.
  destruct (cfg_get f CFG_NETWORK (str "priority") 20) as [v|]; [|done].
  destruct (strcmp v (str "wifi") =? 0); [done|]. by destruct (strcmp v (str "ethernet") =? 0).
Qed.

(** a static configuration saved is the one loaded: on a network settings
    file that can be written, netconf_save_static succeeds, and what load then
    finds is that interface, static, with exactly those four addresses and the
    media preference it had before. *)
Theorem netconf_roundtrip f nd ip mask gw dns : ok f -> good_value nd -> zlen nd < 8 ->
  is_u32 ip -> is_u32 mask -> is_u32 gw -> is_u32 dns -> ip <> 0 -> mask <> 0 -> gw <> 0 -> dns <> 0 ->
  exists f', save_file true f (Some nd) true ip mask gw dns = (f', false) /\ ok f' /\
    load f' = Netconf true (priority (load f)) nd true ip mask gw dns.
Proof.
  intros Hf Hnd Hl Hip Hm Hg Hd Nip Nm Ng Nd. pose proof net_keys as Hk.
  rewrite !Forall_cons in Hk. destruct Hk as (K1 & K2 & K3 & K4 & K5 & K6 & K7 & _).
  destruct (ip_text_good ip Hip) as [G4 L4]. destruct (ip_text_good mask Hm) as [G5 L5].
  destruct (ip_text_good gw Hg) as [G6 L6]. destruct (ip_text_good dns Hd) as [G7 L7].
  assert (G3 : good_value (str "static")) by (split; [by repeat constructor|done]).
  destruct (put_run f _ nd false Hf K2 Hnd) as (f2 & E2 & O2 & Q2 & N2).
  destruct (put_run f2 _ _ false O2 K3 G3) as (f3 & E3 & O3 & Q3 & N3).
  destruct (put_run f3 _ _ false O3 K4 G4) as (f4 & E4 & O4 & Q4 & N4).
  destruct (put_run f4 _ _ false O4 K5 G5) as (f5 & E5 & O5 & Q5 & N5).
  destruct (put_run f5 _ _ false O5 K6 G6) as (f6 & E6 & O6 & Q6 & N6).
  destruct (put_run f6 _ _ false O6 K7 G7) as (f7 & E7 & O7 & Q7 & N7).
  exists f7. split_and!; [|done|].
  - unfold save_file. rewrite E2, E3, E4, E5. rewrite (proj2 (Z.eqb_neq gw 0)), (proj2 (Z.eqb_neq dns 0)) by done.
    cbn [negb andb]. by rewrite E6, E7.
  - assert (Rd : forall k v c, is_u32 c -> v = ip_text c -> cfg_get f7 CFG_NETWORK k 20 = Some v -> get_ip f7 k = c).
    { intros k v c Hc -> Hv. unfold get_ip. rewrite Hv. unfold ip_text. by rewrite ip4_text_roundtrip. }
    assert (V1 : cfg_get f7 CFG_NETWORK (str "priority") 20 = cfg_get f CFG_NETWORK (str "priority") 20)
      by (rewrite N7, N6, N5, N4, N3, N2 by done; done).
    assert (V2 : cfg_get f7 CFG_NETWORK (str "iface") 20 = Some nd)
      by (rewrite N7, N6, N5, N4, N3 by done; apply Q2; lia).
    assert (V3 : cfg_get f7 CFG_NETWORK (str "mode") 20 = Some (str "static"))
      by (rewrite N7, N6, N5, N4 by done; by apply Q3).
    assert (V4 : get_ip f7 (str "ip") = ip) by (apply (Rd _ _ ip Hip eq_refl); rewrite N7, N6, N5 by done; apply Q4; lia).
    assert (V5 : get_ip f7 (str "netmask") = mask) by (apply (Rd _ _ mask Hm eq_refl); rewrite N7, N6 by done; apply Q5; lia).
    assert (V6 : get_ip f7 (str "gateway") = gw) by (apply (Rd _ _ gw Hg eq_refl); rewrite N7 by done; apply Q6; lia).
    assert (V7 : get_ip f7 (str "dns") = dns) by (apply (Rd _ _ dns Hd eq_refl); apply Q7; lia).
    assert (Hcp : default [] (kstrlcpy nd 8).1 = nd).
    { unfold kstrlcpy. cbn [fst Z.eqb]. change (strlen nd) with (zlen nd). rewrite (proj2 (Z.leb_gt 8 (zlen nd))) by done.
      cbn [default]. unfold zlen. rewrite Nat2Z.id. apply firstn_all. }
    rewrite (load_priority f), <- V1. apply load_static; try done.
Qed.
End netconf.

Lemma netconf_roundtrip_witness :
  let f : gmap (list Z) (list Z) := {[CFG_NETWORK := HEADER ++ str "priority=wifi" ++ [10]]} in
  exists f', save_file true f (Some (str "eth0")) true 0xC0A80132 0xFFFFFF00 0xC0A80101 0x01010101 = (f', false) /\
    fs_file_at f' CFG_NETWORK <> Unreadable /\
    load f' = Netconf true (priority (load f)) (str "eth0") true 0xC0A80132 0xFFFFFF00 0xC0A80101 0x01010101.
Proof.
  intros f. apply (netconf_roundtrip f (str "eth0") 0xC0A80132 0xFFFFFF00 0xC0A80101 0x01010101); try done.
  split; [by repeat constructor|done].
Defined.

Lemma choose_best_witness :
  let l := [(1, Netdev (str "eth0") false true [] (Some false) false); (2, Netdev (str "wlan0") false true [] (Some true) true);
            (3, Netdev (str "usb0") true true [] (Some true) false)] in
  NoDup l.*1 /\
  match netpolicy_choose l (Some 2) NET_PRIORITY_WIFI [] with
  | None => Forall (fun p => score p.2 NET_PRIORITY_WIFI [] = -1) l
  | Some a => exists d, (a, d) ∈ l /\ 0 <= score d NET_PRIORITY_WIFI [] /\
      Forall (fun p => score p.2 NET_PRIORITY_WIFI [] <= score d NET_PRIORITY_WIFI []) l /\
      forall c x, Some 2 = Some c -> (c, x) ∈ l -> score x NET_PRIORITY_WIFI [] = score d NET_PRIORITY_WIFI [] -> a = c
  end.
Proof.
  intros l. assert (Hl : NoDup l.*1) by (apply (bool_decide_unpack _); by vm_compute). split; [exact Hl|].
  exact (choose_best l (Some 2) NET_PRIORITY_WIFI [] Hl).
Defined.
