(* ===== verification/LeBytes.v ===== *)
(** * Little-endian reads of a byte buffer, and bitmaps of bytes

    kernel/bootmem.c and kernel/volume.c read firmware and disk structures a
    byte at a time with their own [rd32]; the two are the same text and are
    modelled once. A read outside the buffer is a fault ([None]).
    kernel/hmem.c keeps the frames in use, and kernel/upage.c the pages, as
    one bit each. [bit] is the abstract view of such a map: what marking does
    to it, counting its ones, and that a map is determined by its bits. *)

From S2P Require Import Prelude Wire.

Definition rd32 (p : list Z) (i : Z) : option Z :=
  a ← rd8 p i; b ← rd8 p (i + 1); c ← rd8 p (i + 2); d ← rd8 p (i + 3);
  Some (Z.lor (Z.lor (Z.lor a (Z.shiftl b 8)) (Z.shiftl c 16)) (Z.shiftl d 24)).

Definition rd64 (p : list Z) (i : Z) : option Z :=
  lo ← rd32 p i; hi ← rd32 p (i + 4); Some (Z.lor lo (Z.shiftl hi 32)).

(** the bytes of a little-endian value *)
Definition le32 (v : Z) : list Z := [u8 v; u8 (Z.shiftr v 8); u8 (Z.shiftr v 16); u8 (Z.shiftr v 24)].
Definition le64 (v : Z) : list Z := le32 (u32 v) ++ le32 (Z.shiftr v 32).

Lemma join_bytes a b c d : is_u8 a -> is_u8 b -> is_u8 c -> is_u8 d ->
  Z.lor (Z.lor (Z.lor a (Z.shiftl b 8)) (Z.shiftl c 16)) (Z.shiftl d 24) = a + b * 2 ^ 8 + c * 2 ^ 16 + d * 2 ^ 24.
Proof.
  unfold is_u8. intros. rewrite !Z.shiftl_mul_pow2 by lia.
  rewrite (Z.lor_comm a), (lor_low 8 (b * _)) by lia.
  rewrite (Z.lor_comm _ (c * _)), (lor_low 16 (c * _)) by lia.
  rewrite (Z.lor_comm _ (d * _)), (lor_low 24 (d * _)) by lia. lia.
Qed.

Lemma le_rd32_at p i : bytes p -> 0 <= i -> i + 4 <= zlen p ->
  rd32 p i = Some (aget p i + aget p (i + 1) * 2 ^ 8 + aget p (i + 2) * 2 ^ 16 + aget p (i + 3) * 2 ^ 24).
Proof.
  intros Hp Hi Hl. unfold rd32. rewrite !rd8_at by lia. cbn [mbind option_bind].
  rewrite join_bytes by (apply byte_at; [done|lia]). done.
Qed.

Lemma rd32_in p i : bytes p -> 0 <= i -> i + 4 <= zlen p -> exists v, rd32 p i = Some v /\ is_u32 v.
Proof.
  intros Hp Hi Hl. rewrite le_rd32_at by done. eexists. split; [done|].
  pose proof (byte_at p i Hp ltac:(lia)). pose proof (byte_at p (i + 1) Hp ltac:(lia)).
  pose proof (byte_at p (i + 2) Hp ltac:(lia)). pose proof (byte_at p (i + 3) Hp ltac:(lia)).
  unfold is_u8, is_u32 in *. lia.
Qed.

Lemma join_words lo hi : is_u32 lo -> Z.lor lo (Z.shiftl hi 32) = lo + hi * 2 ^ 32.
Proof. unfold is_u32. intros. rewrite Z.shiftl_mul_pow2, Z.lor_comm, (lor_low 32) by lia. lia. Qed.

Lemma rd64_in p i : bytes p -> 0 <= i -> i + 8 <= zlen p -> exists v, rd64 p i = Some v /\ is_u64 v.
Proof.
  intros Hp Hi Hl. unfold rd64.
  destruct (rd32_in p i Hp ltac:(lia) ltac:(lia)) as (lo & -> & Hlo).
  destruct (rd32_in p (i + 4) Hp ltac:(lia) ltac:(lia)) as (hi & -> & Hhi).
  cbn [mbind option_bind]. eexists. split; [done|]. rewrite join_words by done. unfold is_u32, is_u64 in *. lia.
Qed.

Lemma bytes_le32 v : bytes (le32 v).
Proof. repeat (apply Forall_cons; split; [apply u8_bound|]). constructor. Qed.

Lemma bytes_le64 v : bytes (le64 v).
Proof. apply bytes_app. split; apply bytes_le32. Qed.

Lemma rd32_skip a q n m : zlen a = n -> n <= m -> rd32 (a ++ q) m = rd32 q (m - n).
Proof.
  intros <- Hm.
  assert (E : forall k, 0 <= k -> rd8 (a ++ q) (m + k) = rd8 q (m - zlen a + k)).
  { intros k Hk. replace (m + k) with (zlen a + (m - zlen a + k)) by lia. apply rd8_skip. lia. }
  unfold rd32. pose proof (E 0 ltac:(lia)) as E0. rewrite !Z.add_0_r in E0. by rewrite E0, !E by lia.
Qed.

Lemma rd32_le32 v b : is_u32 v -> rd32 (le32 v ++ b) 0 = Some v.
Proof.
  intros Hv. change (rd32 (le32 v ++ b) 0) with
    (Some (Z.lor (Z.lor (Z.lor (u8 v) (Z.shiftl (u8 (Z.shiftr v 8)) 8)) (Z.shiftl (u8 (Z.shiftr v 16)) 16))
       (Z.shiftl (u8 (Z.shiftr v 24)) 24))).
  rewrite join_bytes by apply u8_bound. pose proof (be32_value v Hv). f_equal. lia.
Qed.

(** reading the field [v] that [a] bytes precede *)
Lemma le_rd32_field a v b n : zlen a = n -> is_u32 v -> rd32 (a ++ le32 v ++ b) n = Some v.
Proof. intros Ha Hv. rewrite (rd32_skip _ _ n) by lia. rewrite Z.sub_diag. by apply rd32_le32. Qed.

Lemma le_rd64_field a v b n : zlen a = n -> is_u64 v -> rd64 (a ++ le64 v ++ b) n = Some v.
Proof.
  intros Ha Hv. unfold rd64, le64. rewrite <- app_assoc.
  rewrite (le_rd32_field a (u32 v) _ n Ha (u32_bound v)). cbn [mbind option_bind].
  rewrite app_assoc, (le_rd32_field (a ++ _)); [|by rewrite zlen_app, Ha|].
  - cbn [mbind option_bind]. rewrite join_words by apply u32_bound. f_equal.
    rewrite Z.shiftr_div_pow2 by lia. unfold u32. lia.
  - unfold is_u32, is_u64 in *. rewrite Z.shiftr_div_pow2 by lia. lia.
Qed.

(** bit [i] of a map of [w]-bit words *)
Definition wbit (w : Z) (m : list Z) (i : Z) : bool := Z.testbit (aget m (i / w)) (i mod w).
Definition bit (m : list Z) (i : Z) : bool := wbit 8 m i.

(** ** The number of ones among [n] bits from [a] *)

Fixpoint cnt (f : Z -> bool) (a : Z) (n : nat) : Z :=
  match n with
  | O => 0
  | S n => Z.b2z (f a) + cnt f (a + 1) n
  end.

Lemma cnt_app f n : forall a m, cnt f a (n + m) = cnt f a n + cnt f (a + Z.of_nat n) m.
Proof.
  induction n as [|n IH]; intros a m; cbn [cnt Nat.add]; [rewrite Z.add_0_r; lia|].
  rewrite IH. replace (a + 1 + Z.of_nat n) with (a + Z.of_nat (S n)) by lia. lia.
Qed.

Lemma cnt_ext f g n : forall a, (forall i, a <= i < a + Z.of_nat n -> f i = g i) -> cnt f a n = cnt g a n.
Proof.
  induction n as [|n IH]; intros a H; cbn [cnt]; [done|]. rewrite H by lia. f_equal. apply IH. intros. apply H. lia.
Qed.

Lemma cnt_const f b n : forall a, (forall i, a <= i < a + Z.of_nat n -> f i = b) -> cnt f a n = Z.b2z b * Z.of_nat n.
Proof.
  induction n as [|n IH]; intros a H; cbn [cnt]; [lia|]. rewrite H by lia. rewrite IH; [lia|]. intros. apply H. lia.
Qed.

Lemma cnt_bound f n : forall a, 0 <= cnt f a n <= Z.of_nat n.
Proof. induction n as [|n IH]; intros a; cbn [cnt]; [lia|]. specialize (IH (a + 1)). destruct (f a); cbn [Z.b2z]; lia. Qed.

(** fewer ones than bits: some bit is clear *)
Lemma cnt_full f n a : cnt f a n = Z.of_nat n -> forall i, a <= i < a + Z.of_nat n -> f i = true.
Proof.
  revert a. induction n as [|n IH]; intros a H i Hi; [lia|]. cbn [cnt] in H.
  pose proof (cnt_bound f n (a + 1)). destruct (f a) eqn:E; cbn [Z.b2z] in H; [|lia].
  destruct (decide (i = a)) as [->|]; [done|]. apply (IH (a + 1)); lia.
Qed.

Lemma cnt_none f n a : cnt f a n = 0 -> forall i, a <= i < a + Z.of_nat n -> f i = false.
Proof.
  revert a. induction n as [|n IH]; intros a H i Hi; [lia|]. cbn [cnt] in H.
  pose proof (cnt_bound f n (a + 1)). destruct (f a) eqn:E; cbn [Z.b2z] in H; [lia|].
  destruct (decide (i = a)) as [->|]; [done|]. apply (IH (a + 1)); lia.
Qed.

(** writing [b] to the [k] bits from [i] changes the count by the bits that differ *)
Lemma cnt_write f g b i k n : 0 <= i -> 0 <= k -> i + k <= Z.of_nat n ->
  (forall j, i <= j < i + k -> f j = negb b) -> (forall j, i <= j < i + k -> g j = b) ->
  (forall j, 0 <= j < Z.of_nat n -> ~ i <= j < i + k -> g j = f j) ->
  cnt g 0 n = cnt f 0 n + (if b then k else - k).
Proof.
  intros Hi Hk Hn Hf Hg Hother.
  replace n with (Z.to_nat i + (Z.to_nat k + (n - Z.to_nat i - Z.to_nat k)))%nat by lia.
  rewrite !cnt_app, (cnt_ext g f (Z.to_nat i) 0) by (intros; apply Hother; lia).
  rewrite (cnt_const g b (Z.to_nat k)) by (intros; apply Hg; lia).
  rewrite (cnt_const f (negb b) (Z.to_nat k)) by (intros; apply Hf; lia).
  rewrite (cnt_ext g f (n - _ - _)) by (intros; apply Hother; lia).
  destruct b; cbn [negb Z.b2z]; lia.
Qed.

(** ** One word *)

Lemma testbit_set b j i : 0 <= i -> Z.testbit (Z.lor b (Z.shiftl 1 i)) j = (j =? i) || Z.testbit b j.
Proof.
  intros Hi. rewrite Z.lor_spec, Z.shiftl_1_l, Z.pow2_bits_eqb by done. rewrite (Z.eqb_sym i). apply orb_comm.
Qed.

Lemma testbit_clear b j i : 0 <= i -> Z.testbit (Z.ldiff b (Z.shiftl 1 i)) j = negb (j =? i) && Z.testbit b j.
Proof.
  intros Hi. rewrite Z.ldiff_spec, Z.shiftl_1_l, Z.pow2_bits_eqb by done. rewrite (Z.eqb_sym i). apply andb_comm.
Qed.

Lemma below_pow2 w x : 0 <= w -> 0 <= x -> (forall j, w <= j -> Z.testbit x j = false) -> x < 2 ^ w.
Proof.
  intros Hw Hx H. assert (E : x = x mod 2 ^ w).
  { apply Z.bits_inj'. intros j Hj. destruct (decide (j < w)); [by rewrite Z.mod_pow2_bits_low|].
    rewrite Z.mod_pow2_bits_high by lia. apply H. lia. }
  rewrite E. apply Z.mod_pos_bound. lia.
Qed.

Lemma word_set w b i : 0 <= i < w -> 0 <= b < 2 ^ w -> 0 <= Z.lor b (Z.shiftl 1 i) < 2 ^ w.
Proof.
  intros Hi Hb. assert (0 <= Z.lor b (Z.shiftl 1 i)) by (apply Z.lor_nonneg; rewrite Z.shiftl_1_l; lia).
  split; [done|]. apply below_pow2; [lia|done|]. intros j Hj. rewrite testbit_set by lia.
  rewrite (testbit_above w b) by lia. destruct (j =? i) eqn:E; zbool; [lia|done].
Qed.

Lemma word_clear w b i : 0 <= i < w -> 0 <= b < 2 ^ w -> 0 <= Z.ldiff b (Z.shiftl 1 i) < 2 ^ w.
Proof.
  intros Hi Hb. assert (0 <= Z.ldiff b (Z.shiftl 1 i)) by (apply Z.ldiff_nonneg; lia).
  split; [done|]. apply below_pow2; [lia|done|]. intros j Hj. rewrite testbit_clear by lia.
  rewrite (testbit_above w b) by lia. apply andb_false_r.
Qed.

(** ** Setting and clearing a bit of a map *)

Definition words (w : Z) (m : list Z) : Prop := Forall (fun b => 0 <= b < 2 ^ w) m.

Definition wset (w : Z) (m : list Z) (i : Z) (b : bool) : list Z :=
  let x := aget m (i / w) in
  aset m (i / w) (if b then Z.lor x (Z.shiftl 1 (i mod w)) else Z.ldiff x (Z.shiftl 1 (i mod w))).

Lemma zlen_wset w m i b : zlen (wset w m i b) = zlen m.
Proof. apply zlen_aset. Qed.

Lemma words_at w m k : words w m -> 0 <= k < zlen m -> 0 <= aget m k < 2 ^ w.
Proof.
  intros H Hk. unfold aget. destruct (lookup_lt_is_Some_2 m (Z.to_nat k)) as [x Hx]; [unfold zlen in *; lia|].
  rewrite (list_lookup_total_correct _ _ _ Hx). by eapply Forall_lookup_1 in H.
Qed.

Lemma words_wset w m i b : 0 < w -> words w m -> 0 <= i < w * zlen m -> words w (wset w m i b).
Proof.
  intros Hw Hm Hi. unfold wset. cbv zeta. apply Forall_insert; [done|].
  pose proof (words_at w m (i / w) Hm ltac:(nia)).
  pose proof (Z.mod_pos_bound i w Hw). destruct b; [by apply word_set|by apply word_clear].
Qed.

Lemma wbit_wset w m i b j : 0 < w -> 0 <= i < w * zlen m -> 0 <= j ->
  wbit w (wset w m i b) j = if j =? i then b else wbit w m j.
Proof.
  intros Hw Hi Hj. unfold wbit, wset. cbv zeta. pose proof (Z.mod_pos_bound i w Hw). pose proof (Z.mod_pos_bound j w Hw).
  assert (0 <= i / w < zlen m) by nia. assert (0 <= j / w) by (apply Z.div_pos; lia).
  destruct (decide (i / w = j / w)) as [E|].
  - rewrite E, aget_aset_eq by lia. destruct (j =? i) eqn:Ej; zbool; [subst|].
    + destruct b; [rewrite testbit_set by lia|rewrite testbit_clear by lia]; by rewrite Z.eqb_refl.
    + assert (j mod w <> i mod w) by (pose proof (Z.div_mod i w ltac:(lia)); pose proof (Z.div_mod j w ltac:(lia)); congruence).
      destruct b; [rewrite testbit_set by lia|rewrite testbit_clear by lia]; by rewrite (proj2 (Z.eqb_neq _ _)).
  - rewrite aget_aset_ne by (done || lia). destruct (j =? i) eqn:Ej; zbool; [congruence|done].
Qed.

(** a map of words is its bits *)
Lemma wbit_ext w m m' : 0 < w -> words w m -> words w m' -> zlen m = zlen m' ->
  (forall i, 0 <= i < w * zlen m -> wbit w m i = wbit w m' i) -> m = m'.
Proof.
  intros Hw Hm Hm' Hlen Hbits. apply zlist_ext; [done|]. intros k Hk. apply Z.bits_inj'. intros j Hj.
  destruct (decide (j < w)).
  - specialize (Hbits (w * k + j) ltac:(nia)). unfold wbit in Hbits.
    rewrite Z.mul_comm, Z.div_add_l, Z.div_small, Z.add_0_r, Z.add_comm, Z.mod_add, Z.mod_small in Hbits by lia. done.
  - pose proof (words_at w m k Hm Hk). pose proof (words_at w m' k Hm' ltac:(lia)).
    by rewrite !(testbit_above w) by lia.
Qed.

Lemma wbit_zeros w n i : 0 < w -> 0 <= i < w * Z.of_nat n -> wbit w (replicate n 0) i = false.
Proof.
  intros Hw Hi. unfold wbit, aget. rewrite lookup_total_replicate_2; [apply Z.bits_0|].
  assert (0 <= i / w < Z.of_nat n) by nia. lia.
Qed.
