(* ===== verification/Bootmem.v ===== *)
(** * The memory map the boot loader hands over (kernel/bootmem.c)

    Both readers of the Multiboot2 information block, as walks over its bytes:
    a read outside the buffer is [None], and so is a loop that its fuel does
    not finish, so that a result shows both that the walk ends and that it
    stays inside the buffer. [BootmemProps] proves that there always is one. *)

From S2P Require Import Prelude Wire LeBytes.

Definition U64_MAX : Z := 2 ^ 64 - 1.

Definition kib (b : Z) : Z :=
  let n := Z.shiftr b 10 in
  if 0xffffffff <? n then 0xffffffff else u32 n.

(** [for (pos = 16; n - pos >= stride; pos += stride)], [visit] being the body *)
Fixpoint mb2_entries {A} (visit : Z -> A -> option A) (fuel : nat) (n stride pos : Z) (acc : A) : option A :=
  match fuel with
  | O => None
  | S fuel =>
      if negb (stride <=? u32 (n - pos)) then Some acc
      else acc ← visit pos acc; mb2_entries visit fuel n stride (u32 (pos + stride)) acc
  end.

(** [for (off = 8; total - off >= 8; )] with the checks and the advance of both
    readers; [visit off type n] is what each does with a tag *)
Fixpoint mb2_tags {A} (p : list Z) (visit : Z -> Z -> Z -> A -> option A) (fuel : nat) (total off : Z) (acc : A) : option A :=
  match fuel with
  | O => None
  | S fuel =>
      if negb (8 <=? u32 (total - off)) then Some acc
      else
        type ← rd32 p off;
        n ← rd32 p (off + 4);
        if (n <? 8) || (u32 (total - off) <? n) || (type =? 0) then Some acc
        else
          acc ← visit off type n acc;
          if 0xfffffff8 <? n then Some acc
          else
            let advance := Z.land (u32 (n + 7)) (u32 (Z.lnot 7)) in
            if u32 (total - off) <? advance then Some acc
            else mb2_tags p visit fuel total (u32 (off + advance)) acc
  end.

(** the fuel the walks are run with: both loops advance by at least 8 bytes *)
Definition mb2_fuel (total : Z) : nat := S (Z.to_nat total).

(** the body of bootmem_kb_mb2's inner loop: [e] is the entry's offset *)
Definition usable_entry (p : list Z) (e usable : Z) : option Z :=
  base ← rd64 p e;
  len ← rd64 p (e + 8);
  t ← rd32 p (e + 16);
  if negb (t =? 1) || (u64 (Z.lnot 0) - base <? len) then Some usable
  else Some (if u64 (Z.lnot 0) - usable <? len then u64 (Z.lnot 0) else usable + len).

(** the basic memory information tag: KiB below 1 MiB, then above it *)
Definition kb_basic (p : list Z) (off type n fallback : Z) : option Z :=
  if (type =? 4) && (16 <=? n) then
    v ← rd32 p (off + 12);
    let basic := v + 1024 in
    Some (if 0xffffffff <? basic then 0xffffffff else u32 basic)
  else Some fallback.

(** the body of its outer loop, on (fallback, mapped) *)
Definition kb_tag (p : list Z) (off type n : Z) (acc : Z * Z) : option (Z * Z) :=
  let '(fallback, mapped) := acc in
  fallback ← kb_basic p off type n fallback;
  if (type =? 6) && (16 <=? n) then
    stride ← rd32 p (off + 8);
    version ← rd32 p (off + 12);
    if (24 <=? stride) && (version =? 0) && (u32 (n - 16) mod stride =? 0) then
      usable ← mb2_entries (fun pos => usable_entry p (off + pos)) (mb2_fuel n) n stride 16 0;
      let count := kib usable in
      Some (fallback, if mapped <? count then count else mapped)
    else Some (fallback, mapped)
  else Some (fallback, mapped).

Definition bootmem_kb_mb2 (data : option (list Z)) (size : Z) : option Z :=
  match data with
  | None => Some 0
  | Some p =>
      if size <? 8 then Some 0
      else
        total ← rd32 p 0;
        if (total <? 8) || (size <? total) then Some 0
        else
          '(fallback, mapped) ← mb2_tags p (kb_tag p) (mb2_fuel total) total 8 (0, 0);
          Some (if mapped =? 0 then fallback else mapped)
  end.

(** the body of bootmem_wake_page_mb2's inner loop *)
Definition wake_entry (p : list Z) (e page : Z) : option Z :=
  base ← rd64 p e;
  len ← rd64 p (e + 8);
  t ← rd32 p (e + 16);
  if negb (t =? 1) || (u64 (Z.lnot 0) - base <? len) then Some page
  else
    let end_ := u64 (base + len) in
    let end_ := if 0x90000 <? end_ then 0x90000 else end_ in
    if end_ <? 0x11000 then Some page
    else
      let candidate := Z.land (u32 (end_ - 4096)) (u32 (Z.lnot 4095)) in
      Some (if (0x10000 <=? candidate) && (base <=? candidate) && (page <? candidate) then candidate else page).

Definition wake_tag (p : list Z) (off type n page : Z) : option Z :=
  if (type =? 6) && (16 <=? n) then
    stride ← rd32 p (off + 8);
    version ← rd32 p (off + 12);
    if (24 <=? stride) && (version =? 0) && (u32 (n - 16) mod stride =? 0) then
      mb2_entries (fun pos => wake_entry p (off + pos)) (mb2_fuel n) n stride 16 page
    else Some page
  else Some page.

Definition bootmem_wake_page_mb2 (data : option (list Z)) (size : Z) : option Z :=
  match data with
  | None => Some 0
  | Some p =>
      if size <? 8 then Some 0
      else
        total ← rd32 p 0;
        if (total <? 8) || (size <? total) then Some 0
        else mb2_tags p (wake_tag p) (mb2_fuel total) total 8 0
  end.
