(* ===== verification/BootmemProps.v ===== *)
(** * The boot memory map: both walks end inside the buffer, and what they find

    [mb2_entries_ok] and [mb2_tags_ok] are the loop rules: an invariant of the
    accumulator that every visited entry (tag) keeps holds of the result, and
    there is a result. [bootmem_kb_block] reads back a block that a boot loader
    wrote ([mb2_block]). *)

From S2P Require Import Prelude Wire LeBytes Bootmem.

Lemma u32_sub a b : 0 <= b <= a -> a < 2 ^ 32 -> u32 (a - b) = a - b.
Proof. intros. apply u32_small. unfold is_u32. lia. Qed.

Lemma lor_not7 n : 0 <= n -> n + 7 < 2 ^ 32 -> Z.land (u32 (n + 7)) (u32 (Z.lnot 7)) = (n + 7) / 8 * 8.
Proof.
  intros Hn Hs. rewrite u32_small by (unfold is_u32; lia).
  transitivity (Z.land (n + 7) (Z.lnot (Z.ones 3))); [|by rewrite land_lnot_ones].
  apply Z.bits_inj'. intros i Hi. rewrite !Z.land_spec.
  destruct (decide (i < 32)); [by rewrite testbit_u32|].
  by rewrite (testbit_above 32 (n + 7)) by lia.
Qed.

Lemma lor_not4095 n : is_u32 n -> Z.land n (u32 (Z.lnot 4095)) = n / 4096 * 4096.
Proof.
  intros Hn. transitivity (Z.land n (Z.lnot (Z.ones 12))); [|by rewrite land_lnot_ones].
  apply Z.bits_inj'. intros i Hi. rewrite !Z.land_spec.
  destruct (decide (i < 32)); [by rewrite testbit_u32|].
  by rewrite (testbit_above 32 n) by (unfold is_u32 in *; lia).
Qed.

(** ** Loop rules *)

Lemma mb2_entries_ok {A} (I : A -> Prop) visit n stride :
  24 <= stride -> 0 <= n < 2 ^ 32 ->
  (forall pos acc, I acc -> 16 <= pos -> pos + stride <= n -> exists acc', visit pos acc = Some acc' /\ I acc') ->
  forall fuel pos acc, I acc -> 16 <= pos <= n -> n - pos < Z.of_nat fuel ->
  exists acc', mb2_entries visit fuel n stride pos acc = Some acc' /\ I acc'.
Proof.
  intros Hs Hn Hvisit. induction fuel as [|fuel IH]; intros pos acc HI Hpos Hf; [lia|].
  cbn [mb2_entries]. rewrite u32_sub by lia. destruct (stride <=? n - pos) eqn:E; zbool; cbn [negb]; [|by eauto].
  destruct (Hvisit pos acc HI ltac:(lia) ltac:(lia)) as (acc' & -> & HI'). cbn [mbind option_bind].
  rewrite u32_small by (unfold is_u32; lia). apply IH; [done|lia|lia].
Qed.

Lemma mb2_tags_ok {A} (I : A -> Prop) p visit total :
  bytes p -> 8 <= total < 2 ^ 32 -> total <= zlen p ->
  (forall off type n acc, I acc -> 8 <= off -> 8 <= n -> off + n <= total -> rd32 p off = Some type -> type <> 0 ->
     rd32 p (off + 4) = Some n -> exists acc', visit off type n acc = Some acc' /\ I acc') ->
  forall fuel off acc, I acc -> 8 <= off <= total -> total - off < Z.of_nat fuel ->
  exists acc', mb2_tags p visit fuel total off acc = Some acc' /\ I acc'.
Proof.
  intros Hp Ht Hlen Hvisit. induction fuel as [|fuel IH]; intros off acc HI Ho Hf; [lia|].
  cbn [mb2_tags]. rewrite u32_sub by lia. destruct (8 <=? total - off) eqn:E; zbool; cbn [negb]; [|by eauto].
  destruct (rd32_in p off Hp ltac:(lia) ltac:(lia)) as (type & Htype & Bt).
  destruct (rd32_in p (off + 4) Hp ltac:(lia) ltac:(lia)) as (n & Hn & Bn).
  rewrite Htype, Hn. cbn [mbind option_bind]. destruct (_ || _) eqn:Eb; [by eauto|].
  apply orb_false_iff in Eb as [Eb ?]. zbool.
  destruct (Hvisit off type n acc HI ltac:(lia) ltac:(lia) ltac:(lia) Htype ltac:(done) Hn) as (acc' & -> & HI').
  cbn [mbind option_bind]. destruct (0xfffffff8 <? n) eqn:E8; zbool; [by eauto|].
  rewrite lor_not7 by lia. cbv zeta. destruct (total - off <? _) eqn:Ea; zbool; [by eauto|].
  rewrite u32_small by (unfold is_u32; lia). apply IH; [done|lia|lia].
Qed.

(** the memory-map tag, common to both readers *)
Lemma mb2_map_ok {A} (I : A -> Prop) off n visit stride (acc : A) :
  16 <= n < 2 ^ 32 -> I acc -> 24 <= stride ->
  (forall e acc, I acc -> off + 16 <= e -> e + 24 <= off + n -> exists acc', visit e acc = Some acc' /\ I acc') ->
  exists acc', mb2_entries (fun pos => visit (off + pos)) (mb2_fuel n) n stride 16 acc = Some acc' /\ I acc'.
Proof.
  intros Hn HI Hs Hvisit. apply mb2_entries_ok; [done|lia| |done|lia|unfold mb2_fuel; lia].
  intros pos a Ha Hpos Hend. apply Hvisit; [done|lia|lia].
Qed.

(** the 32-bit (64-bit) field at [i], which the buffer holds *)
Ltac read32 H i :=
  let v := fresh "v" in let E := fresh "E" in let B := fresh "B" in
  destruct (rd32_in _ i H ltac:(lia) ltac:(lia)) as (v & E & B); rewrite E; cbn [mbind option_bind].
Ltac read64 H i :=
  let v := fresh "v" in let E := fresh "E" in let B := fresh "B" in
  destruct (rd64_in _ i H ltac:(lia) ltac:(lia)) as (v & E & B); rewrite E; cbn [mbind option_bind].

(** ** What the readers do with a tag *)

Lemma kib_bound b : 0 <= b -> is_u32 (kib b).
Proof. intros. unfold kib, is_u32. cbv zeta. case_bool; [lia|]. apply u32_bound. Qed.

Lemma usable_entry_ok p e usable : bytes p -> 0 <= e -> e + 24 <= zlen p -> is_u64 usable ->
  exists u, usable_entry p e usable = Some u /\ is_u64 u.
Proof.
  intros Hp He Hl Hu. unfold usable_entry. read64 Hp e. read64 Hp (e + 8). read32 Hp (e + 16).
  change (u64 (Z.lnot 0)) with U64_MAX. unfold U64_MAX, is_u64 in *.
  destruct (_ || _); [by eauto|]. eexists. split; [done|]. case_bool; zbool; lia.
Qed.

Lemma kb_basic_ok p off type n fallback : bytes p -> 0 <= off -> off + n <= zlen p -> is_u32 fallback ->
  exists f, kb_basic p off type n fallback = Some f /\ is_u32 f.
Proof.
  intros Hp Ho Hl Hf. unfold kb_basic. destruct (_ && _) eqn:E; [|by eauto]. zbool. read32 Hp (off + 12).
  eexists. split; [done|]. case_bool; [unfold is_u32; lia|apply u32_bound].
Qed.

Definition kb_ok (acc : Z * Z) : Prop := is_u32 acc.1 /\ is_u32 acc.2.

Lemma kb_tag_ok p off type n acc : bytes p -> 0 <= off -> 8 <= n < 2 ^ 32 -> off + n <= zlen p -> kb_ok acc ->
  exists acc', kb_tag p off type n acc = Some acc' /\ kb_ok acc'.
Proof.
  intros Hp Ho Hn Hl [Hf Hm]. destruct acc as [fallback mapped]. cbn [fst snd] in *. unfold kb_tag.
  destruct (kb_basic_ok p off type n fallback Hp Ho ltac:(lia) Hf) as (f & -> & Bf).
  cbn [mbind option_bind]. destruct (_ && _) eqn:E; [|eexists; split; [done|by split]]. zbool.
  read32 Hp (off + 8). read32 Hp (off + 12). destruct (_ && _) eqn:Es; [|eexists; split; [done|by split]]. zbool.
  destruct (mb2_map_ok is_u64 off n (usable_entry p) v 0) as (u & -> & Bu); [lia|unfold is_u64; lia|lia| |].
  { intros e a Ha He Hend. apply usable_entry_ok; [done|lia|lia|done]. }
  cbn [mbind option_bind]. eexists. split; [done|]. split; cbn [fst snd]; [done|].
  case_bool; [|done]. apply kib_bound. unfold is_u64 in Bu. lia.
Qed.

(** a page that the wake-up code may use *)
Definition wake_page_ok (p : list Z) (page : Z) : Prop :=
  page = 0 \/
  (page mod 4096 = 0 /\ 0x10000 <= page /\ page + 4096 <= 0x90000 /\
   exists e base len, rd64 p e = Some base /\ rd64 p (e + 8) = Some len /\ rd32 p (e + 16) = Some 1 /\
     base <= page /\ page + 4096 <= base + len).

Lemma wake_entry_ok p e page : bytes p -> 0 <= e -> e + 24 <= zlen p -> wake_page_ok p page ->
  exists page', wake_entry p e page = Some page' /\ wake_page_ok p page'.
Proof.
  intros Hp He Hl Hpage. unfold wake_entry. read64 Hp e. read64 Hp (e + 8). read32 Hp (e + 16).
  change (u64 (Z.lnot 0)) with U64_MAX. unfold U64_MAX, is_u64 in *.
  destruct (_ || _) eqn:Eg; [by eauto|]. apply orb_false_iff in Eg as [Eg Eg2]. zbool. subst.
  rewrite u64_small by (unfold is_u64; lia). cbv zeta.
  destruct (_ <? 0x11000) eqn:Eh; [by eauto|]. zbool.
  assert (Hend : exists x, (if 0x90000 <? v + v0 then 0x90000 else v + v0) = x /\ x <= v + v0 /\ x <= 0x90000).
  { eexists. split; [done|]. case_bool; zbool; lia. }
  destruct Hend as (x & Hx & Hx1 & Hx2). rewrite Hx in *.
  rewrite lor_not4095 by (rewrite u32_small by (unfold is_u32; lia); unfold is_u32; lia).
  rewrite u32_small by (unfold is_u32; lia). eexists. split; [done|].
  destruct (_ && _) eqn:Ec; [|done]. zbool. right. split_and!; [lia|lia|lia|].
  exists e, v, v0. split_and!; [done..|lia|lia].
Qed.

Lemma wake_tag_ok p off type n page : bytes p -> 0 <= off -> 8 <= n < 2 ^ 32 -> off + n <= zlen p ->
  wake_page_ok p page -> exists page', wake_tag p off type n page = Some page' /\ wake_page_ok p page'.
Proof.
  intros Hp Ho Hn Hl Hpage. unfold wake_tag. destruct (_ && _) eqn:E; [|by eauto]. zbool.
  read32 Hp (off + 8). read32 Hp (off + 12). destruct (_ && _) eqn:Es; [|by eauto]. zbool.
  apply mb2_map_ok; [lia|done|lia|]. intros e a Ha He Hend. apply wake_entry_ok; [done|lia|lia|done].
Qed.

(** ** The information block a boot loader writes *)

Record mmap_entry : Type := { me_base : Z; me_len : Z; me_type : Z }.

Inductive mb2_tag : Type :=
  | TBasic (lower upper : Z)
  | TMmap (es : list mmap_entry)
  | TOther (type : Z) (payload : list Z).

Definition entry_bytes (e : mmap_entry) : list Z := le64 (me_base e) ++ le64 (me_len e) ++ le32 (me_type e) ++ le32 0.

Definition tag_bytes (t : mb2_tag) : list Z :=
  match t with
  | TBasic lower upper => le32 4 ++ le32 16 ++ le32 lower ++ le32 upper
  | TMmap es => le32 6 ++ le32 (16 + 24 * zlen es) ++ le32 24 ++ le32 0 ++ concat (map entry_bytes es)
  | TOther type payload => le32 type ++ le32 (8 + zlen payload) ++ payload
  end.

Definition padding (n : Z) : list Z := replicate (Z.to_nat ((- n) mod 8)) 0.
Definition tags_bytes (ts : list mb2_tag) : list Z := concat (map (fun t => tag_bytes t ++ padding (zlen (tag_bytes t))) ts).

Definition mb2_block (ts : list mb2_tag) : list Z :=
  le32 (16 + zlen (tags_bytes ts)) ++ le32 0 ++ tags_bytes ts ++ le32 0 ++ le32 8.

Definition entry_ok (e : mmap_entry) : Prop := is_u64 (me_base e) /\ is_u64 (me_len e) /\ is_u32 (me_type e).
Definition tag_ok (t : mb2_tag) : Prop :=
  match t with
  | TBasic lower upper => is_u32 lower /\ is_u32 upper
  | TMmap es => Forall entry_ok es
  | TOther type payload => is_u32 type /\ type <> 0 /\ type <> 4 /\ type <> 6 /\ bytes payload
  end.

(** *** The reference: what the block says is installed *)

Definition entry_usable (e : mmap_entry) : bool := (me_type e =? 1) && (me_base e + me_len e <=? U64_MAX).
Definition usable_bytes (es : list mmap_entry) : Z :=
  Z.min U64_MAX (zsum (map (fun e => if entry_usable e then me_len e else 0) es)).
Definition kib_of (b : Z) : Z := Z.min 0xffffffff (b / 1024).

(** the last basic-memory tag, and the largest memory map *)
Fixpoint basic_kb (ts : list mb2_tag) (fallback : Z) : Z :=
  match ts with
  | [] => fallback
  | TBasic _ upper :: ts => basic_kb ts (Z.min 0xffffffff (upper + 1024))
  | _ :: ts => basic_kb ts fallback
  end.
Fixpoint mapped_kb (ts : list mb2_tag) : Z :=
  match ts with
  | [] => 0
  | TMmap es :: ts => Z.max (kib_of (usable_bytes es)) (mapped_kb ts)
  | _ :: ts => mapped_kb ts
  end.
Definition installed_kb (ts : list mb2_tag) : Z := if mapped_kb ts =? 0 then basic_kb ts 0 else mapped_kb ts.

(** *** Walking the block's own bytes *)

Lemma zlen_le32 v : zlen (le32 v) = 4.
Proof. done. Qed.
Lemma zlen_le64 v : zlen (le64 v) = 8.
Proof. done. Qed.
Lemma zlen_entry e : zlen (entry_bytes e) = 24.
Proof. done. Qed.
Lemma zlen_entries es : zlen (concat (map entry_bytes es)) = 24 * zlen es.
Proof. induction es as [|e es IH]; [done|]. cbn [map concat]. rewrite zlen_app, zlen_cons, IH, zlen_entry. lia. Qed.

(** the field [v] of a buffer written as [a], [v], [b] *)
Lemma rd32_eq p a v b n : p = a ++ le32 v ++ b -> zlen a = n -> is_u32 v -> rd32 p n = Some v.
Proof. intros ->. apply le_rd32_field. Qed.
Lemma rd64_eq p a v b n : p = a ++ le64 v ++ b -> zlen a = n -> is_u64 v -> rd64 p n = Some v.
Proof. intros ->. apply le_rd64_field. Qed.

Ltac in_block := match goal with H : ?p = _ |- ?p = _ => rewrite H; by rewrite <- ?app_assoc end.
Ltac block_len := rewrite ?zlen_app, ?zlen_le32, ?zlen_le64; lia.

Lemma usable_entry_field p a e b n usable : p = a ++ entry_bytes e ++ b -> zlen a = n -> entry_ok e -> is_u64 usable ->
  usable_entry p n usable = Some (Z.min U64_MAX (usable + if entry_usable e then me_len e else 0)).
Proof.
  intros Hp Hn (H1 & H2 & H3) Hu. unfold usable_entry, entry_bytes in *.
  erewrite (rd64_eq p a (me_base e) _ n); [|in_block|done|done]. cbn [mbind option_bind].
  erewrite (rd64_eq p (a ++ le64 (me_base e)) (me_len e) _ (n + 8)); [|in_block|block_len|done]. cbn [mbind option_bind].
  erewrite (rd32_eq p ((a ++ le64 (me_base e)) ++ le64 (me_len e)) (me_type e) _ (n + 16)); [|in_block|block_len|done].
  cbn [mbind option_bind]. change (u64 (Z.lnot 0)) with U64_MAX. unfold entry_usable, U64_MAX, is_u64 in *.
  destruct (me_type e =? 1) eqn:E1; cbn [negb orb andb]; [|f_equal; zbool; lia].
  zcases_all; f_equal; lia.
Qed.

Lemma sat_add u x y : 0 <= x -> 0 <= y -> Z.min U64_MAX (Z.min U64_MAX (u + x) + y) = Z.min U64_MAX (u + (x + y)).
Proof. lia. Qed.

Lemma entry_weight e : entry_ok e -> 0 <= (if entry_usable e then me_len e else 0).
Proof. intros (_ & H & _). unfold is_u64 in H. case_bool; lia. Qed.

Lemma weights_nonneg es : Forall entry_ok es -> 0 <= zsum (map (fun e => if entry_usable e then me_len e else 0) es).
Proof.
  induction 1 as [|e es He _ IH]; [done|]. cbn [map]. rewrite zsum_cons. pose proof (entry_weight e He). lia.
Qed.

Lemma mb2_entries_read p off n : n < 2 ^ 32 -> forall es a b fuel pos usable,
  p = a ++ concat (map entry_bytes es) ++ b -> zlen a = off + pos -> 16 <= pos -> n - pos = 24 * zlen es ->
  Forall entry_ok es -> is_u64 usable -> (length es < fuel)%nat ->
  mb2_entries (fun pos => usable_entry p (off + pos)) fuel n 24 pos usable =
    Some (Z.min U64_MAX (usable + zsum (map (fun e => if entry_usable e then me_len e else 0) es))).
Proof.
  intros Hn. induction es as [|e es IH]; intros a b fuel pos usable Hp Ha Hpos Hlen Hes Hu Hf.
  - destruct fuel as [|fuel]; [cbn in Hf; lia|]. cbn [mb2_entries map]. change (zlen []) with 0 in Hlen.
    rewrite u32_sub, (proj2 (Z.leb_gt _ _)) by lia. cbn [negb]. change (zsum []) with 0.
    unfold is_u64, U64_MAX in *. f_equal. lia.
  - destruct fuel as [|fuel]; [cbn in Hf; lia|]. cbn [mb2_entries map concat] in *.
    rewrite zlen_cons in Hlen. pose proof (zlen_nonneg es). apply Forall_cons in Hes as [He Hes'].
    rewrite u32_sub, (proj2 (Z.leb_le _ _)) by lia. cbn [negb].
    erewrite (usable_entry_field p a e); [|in_block|done..]. cbn [mbind option_bind].
    rewrite u32_small by (unfold is_u32; lia).
    pose proof (entry_weight e He). pose proof (weights_nonneg es Hes'). unfold is_u64 in Hu.
    rewrite (IH (a ++ entry_bytes e) b); [|in_block|rewrite zlen_app, zlen_entry; lia|lia|lia|done| |cbn in Hf; lia].
    + rewrite zsum_cons. by rewrite sat_add.
    + unfold is_u64, U64_MAX. lia.
Qed.

Lemma zlen_tag t : zlen (tag_bytes t) =
  match t with TBasic _ _ => 16 | TMmap es => 16 + 24 * zlen es | TOther _ payload => 8 + zlen payload end.
Proof. destruct t; cbn [tag_bytes]; [done| |]; rewrite !zlen_app, ?zlen_entries, !zlen_le32; lia. Qed.

Lemma zlen_padded t : zlen (tag_bytes t ++ padding (zlen (tag_bytes t))) = (zlen (tag_bytes t) + 7) / 8 * 8.
Proof.
  rewrite zlen_app. unfold padding. unfold zlen at 2. rewrite length_replicate. lia.
Qed.

(** the type and the size are the first two words of every tag *)
Definition tag_type (t : mb2_tag) : Z :=
  match t with TBasic _ _ => 4 | TMmap _ => 6 | TOther type _ => type end.

Lemma tag_head t : exists rest, tag_bytes t = le32 (tag_type t) ++ le32 (zlen (tag_bytes t)) ++ rest.
Proof. rewrite zlen_tag. destruct t; eexists; reflexivity. Qed.

Lemma tag_long t : 8 <= zlen (tag_bytes t).
Proof.
  rewrite zlen_tag. destruct t as [| es | ty pl]; [lia|pose proof (zlen_nonneg es); lia|pose proof (zlen_nonneg pl); lia].
Qed.

Lemma tag_type_ok t : tag_ok t -> is_u32 (tag_type t) /\ tag_type t <> 0.
Proof. unfold is_u32. destruct t; cbn; [lia|lia|]. intros (H & Hz & _). by unfold is_u32 in H. Qed.

Lemma kib_eq b : 0 <= b -> kib b = kib_of b.
Proof.
  intros. unfold kib, kib_of. rewrite Z.shiftr_div_pow2 by lia. change (2 ^ 10) with 1024. cbv zeta.
  case_bool; zbool; [lia|]. rewrite u32_small by (unfold is_u32; lia). lia.
Qed.

Definition tag_result (t : mb2_tag) (acc : Z * Z) : Z * Z :=
  (basic_kb [t] acc.1, match t with TMmap es => Z.max acc.2 (kib_of (usable_bytes es)) | _ => acc.2 end).

Lemma kb_tag_read p a t b n acc : p = a ++ tag_bytes t ++ b -> zlen a = n -> tag_ok t -> zlen (tag_bytes t) < 2 ^ 32 ->
  kb_tag p n (tag_type t) (zlen (tag_bytes t)) acc = Some (tag_result t acc).
Proof.
  intros Hp Hn Ht Hlen. destruct acc as [fallback mapped]. unfold tag_result. rewrite zlen_tag in *.
  destruct t as [lower upper|es|type payload]; cbn [tag_type basic_kb fst snd]; unfold kb_tag, kb_basic.
  - change ((4 =? 4) && (16 <=? 16)) with true. change ((4 =? 6) && (16 <=? 16)) with false. cbv iota.
    destruct Ht as [_ Hu]. cbn [tag_bytes] in Hp.
    erewrite (rd32_eq p (((a ++ le32 4) ++ le32 16) ++ le32 lower) upper _ (n + 12)); [|in_block|block_len|done].
    cbn [mbind option_bind]. unfold is_u32 in Hu. do 2 f_equal. case_bool; zbool; [lia|].
    rewrite u32_small by (unfold is_u32; lia). lia.
  - pose proof (zlen_nonneg es). change (6 =? 4) with false. change (6 =? 6) with true. cbn [andb mbind option_bind].
    rewrite (proj2 (Z.leb_le 16 _)) by lia. cbn [tag_bytes] in Hp.
    erewrite (rd32_eq p ((a ++ le32 6) ++ le32 _) 24 _ (n + 8)); [|in_block|block_len|by unfold is_u32]. cbn [mbind option_bind].
    erewrite (rd32_eq p (((a ++ le32 6) ++ le32 _) ++ le32 24) 0 _ (n + 12)); [|in_block|block_len|by unfold is_u32].
    cbn [mbind option_bind]. rewrite u32_sub by lia. replace (16 + 24 * zlen es - 16) with (zlen es * 24) by lia.
    rewrite Z.mod_mul by lia. change ((24 <=? 24) && (0 =? 0) && (0 =? 0)) with true. cbv iota.
    rewrite (mb2_entries_read p n _ Hlen es ((((a ++ le32 6) ++ le32 (16 + 24 * zlen es)) ++ le32 24) ++ le32 0) b _ 16 0);
      [|in_block|block_len|lia|lia|done|unfold is_u64; lia|unfold mb2_fuel, zlen in *; lia].
    cbn [mbind option_bind]. rewrite Z.add_0_l. fold (usable_bytes es). pose proof (weights_nonneg es Ht).
    rewrite kib_eq by (unfold usable_bytes, U64_MAX; lia). cbv zeta. do 2 f_equal. case_bool; zbool; lia.
  - destruct Ht as (_ & _ & H4 & H6 & _). rewrite (proj2 (Z.eqb_neq _ _) H4), (proj2 (Z.eqb_neq _ _) H6). done.
Qed.

Lemma mb2_tags_read p total : total < 2 ^ 32 -> forall ts a fuel acc,
  p = a ++ tags_bytes ts ++ le32 0 ++ le32 8 -> total = zlen p -> 8 <= zlen a -> Forall tag_ok ts -> (length ts < fuel)%nat ->
  mb2_tags p (kb_tag p) fuel total (zlen a) acc = Some (foldl (fun acc t => tag_result t acc) acc ts).
Proof.
  intros Ht. induction ts as [|t ts IH]; intros a fuel acc Hp Hlen Ha Hts Hf.
  - destruct fuel as [|fuel]; [cbn in Hf; lia|]. cbn [mb2_tags foldl].
    change (tags_bytes []) with (@nil Z) in Hp. cbn [app] in Hp.
    assert (zlen p = zlen a + 8) by (rewrite Hp, !zlen_app, !zlen_le32; lia). rewrite u32_sub, (proj2 (Z.leb_le _ _)) by lia. cbn [negb].
    erewrite (rd32_eq p a 0 _ (zlen a)); [|in_block|done|by unfold is_u32]. cbn [mbind option_bind].
    erewrite (rd32_eq p (a ++ le32 0) 8 [] (zlen a + 4)); [|in_block|block_len|by unfold is_u32]. cbn [mbind option_bind].
    change (0 =? 0) with true. by rewrite orb_true_r.
  - destruct fuel as [|fuel]; [cbn in Hf; lia|]. cbn [mb2_tags foldl].
    apply Forall_cons in Hts as [Hok Hts']. unfold tags_bytes in Hp. cbn [map concat] in Hp. fold (tags_bytes ts) in Hp.
    destruct (tag_head t) as (rest & Hhead). pose proof (zlen_padded t) as Hpad.
    assert (Hsum : zlen p = zlen a + (zlen (tag_bytes t) + 7) / 8 * 8 + zlen (tags_bytes ts) + 8).
    { rewrite Hp, zlen_app, (zlen_app (_ ++ tags_bytes ts)), (zlen_app _ (tags_bytes ts)), Hpad, zlen_app, !zlen_le32. lia. }
    pose proof (zlen_nonneg (tags_bytes ts)). pose proof (zlen_tag t) as Hn.
    pose proof (tag_long t).
    rewrite u32_sub, (proj2 (Z.leb_le _ _)) by lia. cbn [negb].
    pose proof (tag_type_ok t Hok) as Htype.
    pose proof Hp as Hp'. rewrite Hhead in Hp. remember (zlen (tag_bytes t)) as n eqn:En.
    erewrite (rd32_eq p a (tag_type t) _ (zlen a)); [|in_block|done|apply Htype]. cbn [mbind option_bind].
    erewrite (rd32_eq p (a ++ le32 (tag_type t)) n _ (zlen a + 4)); [|in_block|block_len|unfold is_u32; lia].
    cbn [mbind option_bind].
    rewrite (proj2 (Z.ltb_ge _ 8)), (proj2 (Z.ltb_ge _ n)), (proj2 (Z.eqb_neq _ _) (proj2 Htype)) by lia. cbn [orb].
    clear Hp. subst n. erewrite (kb_tag_read p a t); [|in_block|done|done|lia]. cbn [mbind option_bind].
    rewrite (proj2 (Z.ltb_ge _ _)), lor_not7 by lia. cbv zeta. rewrite (proj2 (Z.ltb_ge _ _)) by lia.
    rewrite u32_small, <- Hpad, <- zlen_app by (unfold is_u32; lia). 
    apply IH; [in_block|done|rewrite zlen_app; lia|done|cbn in Hf; lia].
Qed.

Lemma mapped_nonneg ts : Forall tag_ok ts -> 0 <= mapped_kb ts.
Proof.
  induction 1 as [|t ts Ht _ IH]; cbn [mapped_kb]; [lia|]. destruct t as [| es |]; lia.
Qed.

Lemma tag_results ts : forall acc, Forall tag_ok ts -> 0 <= acc.2 ->
  foldl (fun acc t => tag_result t acc) acc ts = (basic_kb ts acc.1, Z.max acc.2 (mapped_kb ts)).
Proof.
  induction ts as [|t ts IH]; intros [f m] Hts Hm; cbn [fst snd] in Hm; [cbn; f_equal; lia|].
  apply Forall_cons in Hts as [Ht Hts]. cbn [foldl]. pose proof (mapped_nonneg ts Hts).
  rewrite IH; [|done|]; unfold tag_result; destruct t; cbn [fst snd basic_kb mapped_kb]; f_equal; lia.
Qed.

(** every tag takes at least 8 bytes *)
Lemma tags_long ts : zlen ts <= zlen (tags_bytes ts).
Proof.
  induction ts as [|t ts IH]; [done|]. unfold tags_bytes. cbn [map concat]. fold (tags_bytes ts).
  rewrite zlen_cons, zlen_app, zlen_padded. pose proof (tag_long t). lia.
Qed.

(** ** Properties *)

(** C29: whatever bytes the boot loader left, both readers of the memory map end and never read outside
    the buffer: the first gives a 32-bit count, and the second gives no page or a page-aligned page between
    0x10000 and 0x90000 that lies inside an entry of type 1 (usable RAM) of the buffer. *)
Theorem bootmem_walks_end p size : bytes p -> 0 <= size <= zlen p -> size < 2 ^ 32 ->
  (exists kb, bootmem_kb_mb2 (Some p) size = Some kb /\ is_u32 kb) /\
  (exists page, bootmem_wake_page_mb2 (Some p) size = Some page /\ wake_page_ok p page).
Proof.
  intros Hp Hsize Hsmall. unfold bootmem_kb_mb2, bootmem_wake_page_mb2.
  destruct (size <? 8) eqn:E8; zbool; [split; eexists; (split; [done|]); [by unfold is_u32|by left]|].
  destruct (rd32_in p 0 Hp ltac:(lia) ltac:(lia)) as (total & -> & Bt). cbn [mbind option_bind].
  destruct (_ || _) eqn:Et; zors; [split; eexists; (split; [done|]); [by unfold is_u32|by left]..|].
  split.
  - destruct (mb2_tags_ok kb_ok p (kb_tag p) total Hp ltac:(lia) ltac:(lia)
      ltac:(intros; apply kb_tag_ok; (done || lia)) (mb2_fuel total) 8 (0, 0)) as ([f m] & -> & Hf & Hm);
      [by unfold kb_ok, is_u32|lia|unfold mb2_fuel; lia|].
    cbn [mbind option_bind]. eexists. split; [done|]. by case_bool.
  - apply mb2_tags_ok; [done|lia|lia| |by left|lia|unfold mb2_fuel; lia].
    intros off type n acc Hacc Ho Hn Hend _ _ _. apply wake_tag_ok; (done || lia).
Qed.

(** a well-formed Multiboot2 block is read for what it says: the memory in KiB is that of its largest
    memory map, which counts the lengths of the usable entries (type 1 and not past the end of the address
    space), saturating at 2^64 - 1 bytes and 2^32 - 1 KiB, and without a usable map the last basic-memory
    tag's upper memory and the first mebibyte; tags of other types are passed over. *)
Theorem bootmem_kb_block ts : Forall tag_ok ts -> zlen (mb2_block ts) < 2 ^ 32 ->
  bootmem_kb_mb2 (Some (mb2_block ts)) (zlen (mb2_block ts)) = Some (installed_kb ts).
Proof.
  intros Hts Hlen. set (p := mb2_block ts) in *.
  assert (Hp : p = (le32 (16 + zlen (tags_bytes ts)) ++ le32 0) ++ tags_bytes ts ++ le32 0 ++ le32 8)
    by (unfold p, mb2_block; by rewrite <- !app_assoc).
  assert (Htotal : zlen p = 16 + zlen (tags_bytes ts)) by (rewrite Hp, !zlen_app, !zlen_le32; lia).
  pose proof (zlen_nonneg (tags_bytes ts)). unfold bootmem_kb_mb2.
  rewrite (proj2 (Z.ltb_ge (zlen p) 8)) by lia.
  erewrite (rd32_eq p [] (16 + zlen (tags_bytes ts)) _ 0); [|in_block|done|unfold is_u32; lia]. cbn [mbind option_bind].
  rewrite (proj2 (Z.ltb_ge _ 8)), (proj2 (Z.ltb_ge (zlen p) _)) by lia. cbn [orb].
  pose proof (mb2_tags_read p (16 + zlen (tags_bytes ts)) ltac:(lia) ts _ (mb2_fuel (16 + zlen (tags_bytes ts))) (0, 0) Hp
    ltac:(lia) ltac:(by cbn) Hts) as Hread. rewrite zlen_app, !zlen_le32 in Hread. change (4 + 4) with 8 in Hread. rewrite Hread.
  - cbn [mbind option_bind]. rewrite tag_results by (done || cbn; lia). cbn [fst snd].
    pose proof (mapped_nonneg ts Hts). unfold installed_kb. rewrite Z.max_r by lia. done.
  - unfold mb2_fuel. pose proof (tags_long ts). unfold zlen in *. lia.
Qed.

(** a PC with 640 KiB and then 255 MiB of RAM around the firmware's hole *)
Definition demo_tags : list mb2_tag :=
  [TOther 1 [66; 65; 0]; TBasic 639 261120;
   TMmap [{| me_base := 0; me_len := 0x9FC00; me_type := 1 |}; {| me_base := 0xF0000; me_len := 0x10000; me_type := 2 |};
          {| me_base := 0x100000; me_len := 0xFF00000; me_type := 1 |}]].

Lemma demo_tags_ok : Forall tag_ok demo_tags.
Proof.
  repeat (apply Forall_cons; split); cbn; unfold entry_ok, bytes, is_u8, is_u32, is_u64; cbn;
    repeat (apply Forall_cons || split); try apply Forall_nil_2; lia.
Qed.

Lemma bytes_block ts : Forall tag_ok ts -> bytes (mb2_block ts).
Proof.
  intros Hts. unfold mb2_block. rewrite !bytes_app. split_and!; try apply bytes_le32.
  induction Hts as [|t ts Ht _ IH]; [constructor|]. unfold tags_bytes. cbn [map concat]. fold (tags_bytes ts).
  rewrite !bytes_app. split_and!; [|by apply Forall_replicate|done].
  destruct t as [| es | ty pl]; cbn [tag_bytes]; rewrite !bytes_app; split_and!; try apply bytes_le32.
  - cbn in Ht. clear. induction es as [|e es IH]; [constructor|]. cbn [map concat]. rewrite bytes_app. split; [|done].
    unfold entry_bytes. rewrite !bytes_app. split_and!; try apply bytes_le64; apply bytes_le32.
  - apply Ht.
Qed.

Lemma bootmem_walks_end_witness :
  (exists page, bootmem_wake_page_mb2 (Some (mb2_block demo_tags)) (zlen (mb2_block demo_tags)) = Some page /\
    wake_page_ok (mb2_block demo_tags) page).
Proof. apply (bootmem_walks_end (mb2_block demo_tags)); [apply bytes_block, demo_tags_ok|split; [apply zlen_nonneg|reflexivity]|reflexivity]. Defined.

Lemma bootmem_kb_block_witness :
  bootmem_kb_mb2 (Some (mb2_block demo_tags)) (zlen (mb2_block demo_tags)) = Some 261759.
Proof. exact (bootmem_kb_block demo_tags demo_tags_ok eq_refl). Defined.
