(* ===== verification/Hmem.v ===== *)
(** * RAM above 4 GiB in 2 MiB frames (kernel/hmem.c)

    Stretches of RAM from the firmware's memory map, each with a bitmap of the
    frames in use. The bitmaps come from the kernel heap and the stretches are
    identity-mapped by the paging code: whether those calls succeed is the
    class [HmemEnv]. The spinlock makes every call one step of the state. *)

From S2P Require Import Prelude Wire LeBytes.

Definition FRAME : Z := 0x200000.
Definition LOW : Z := Z.shiftl 4 30.
Definition HIGH : Z := Z.shiftl 512 30.
Definition RANGES : Z := 32.

Record hrange_t := Hrange { base : Z; frames : Z; used : Z; fmap : list Z }.
#[export] Instance hrange_eta : Eta hrange_t := fun r => Hrange (base r) (frames r) (used r) (fmap r).
#[export] Instance hrange_inhabited : Inhabited hrange_t := populate (Hrange 0 0 0 []).

(** the file's static variables; [g_n] is the length of [g_r] *)
Record hmem := Hmem { g_r : list hrange_t; g_total : Z; g_used : Z }.
#[export] Instance hmem_eta : Eta hmem := fun h => Hmem (g_r h) (g_total h) (g_used h).

Definition hmem_zero : hmem := Hmem [] 0 0.

(** [kzalloc n] finds room; [paging_map_ram lo len] succeeds *)
Class HmemEnv := { kzalloc_ok : Z -> bool; paging_map_ram : Z -> Z -> bool }.

(** ** Start-up *)

Section Init.
Context `{HmemEnv}.

(** the zeroed bytes, or NULL *)
Definition kzalloc (n : Z) : option (list Z) := if kzalloc_ok n then Some (replicate (Z.to_nat n) 0) else None.

Definition add_range (lo hi : Z) (h : hmem) : hmem :=
  let lo := if lo <? LOW then LOW else lo in
  let hi := if HIGH <? hi then HIGH else hi in
  let lo := Z.land (u64 (lo + FRAME - 1)) (u64 (Z.lnot (FRAME - 1))) in
  let hi := Z.land hi (u64 (Z.lnot (FRAME - 1))) in
  if (hi <=? lo) || (RANGES <=? zlen (g_r h)) then h
  else
    let frames := u32 ((hi - lo) / FRAME) in
    match kzalloc (u32 (frames + 7) / 8) with
    | None => h
    | Some map =>
      if negb (paging_map_ram lo (hi - lo)) then h
      else h <| g_r ::= fun l => l ++ [Hrange lo frames 0 map] |> <| g_total ::= fun t => u64 (t + (hi - lo)) |>
    end.

(** the map's entries: [p] holds the information block, [mm] is the tag's offset *)
Fixpoint init_entries (fuel : nat) (p : list Z) (mm entry_size size pos : Z) (h : hmem) : option hmem :=
  match fuel with
  | O => None
  | S fuel =>
      if (entry_size =? 0) || negb (u32 (pos + entry_size) <=? size) then Some h
      else
        base ← rd64 p (mm + pos);
        length ← rd64 p (mm + pos + 8);
        type ← rd32 p (mm + pos + 16);
        let h := if (type =? 1) && (LOW <? u64 (base + length)) then add_range base (u64 (base + length)) h else h in
        init_entries fuel p mm entry_size size (u32 (pos + entry_size)) h
  end.

Fixpoint init_tags (fuel : nat) (p : list Z) (total off : Z) (h : hmem) : option hmem :=
  match fuel with
  | O => None
  | S fuel =>
      if negb (u32 (off + 8) <=? total) then Some h
      else
        type ← rd32 p off;
        if type =? 0 then Some h
        else
          size ← rd32 p (off + 4);
          h ← (if type =? 6 then
                 entry_size ← rd32 p (off + 8);
                 init_entries (S (Z.to_nat size)) p off entry_size size 16 h
               else Some h);
          let adv := Z.land (u32 (size + 7)) (u32 (Z.lnot 7)) in
          init_tags fuel p total (u32 (off + (if adv <? 8 then 8 else adv))) h
  end.

(** [mb2]: the block's bytes, [None] for no block *)
Definition hmem_init (mb2 : option (list Z)) (h : hmem) : option hmem :=
  match mb2 with
  | None => Some h
  | Some p => total ← rd32 p 0; init_tags (S (Z.to_nat total)) p total 8 h
  end.
End Init.

(** ** Frames *)

Definition used_at (r : hrange_t) (i : Z) : Z :=
  Z.land (Z.shiftr (aget (fmap r) (Z.shiftr i 3)) (Z.land i 7)) 1.

Fixpoint mark_from (n : nat) (map : list Z) (k : Z) (used : bool) : list Z :=
  match n with
  | O => map
  | S n =>
      let b := aget map (Z.shiftr k 3) in
      let b := if used then Z.lor b (u8 (Z.shiftl 1 (Z.land k 7)))
               else Z.land b (u8 (Z.lnot (Z.shiftl 1 (Z.land k 7)))) in
      mark_from n (aset map (Z.shiftr k 3) b) (k + 1) used
  end.

(** [for (k = i; k < i + n; k++)] *)
Definition mark (r : hrange_t) (i n : Z) (used : bool) : hrange_t :=
  r <| fmap := mark_from (Z.to_nat (u32 (i + n) - i)) (fmap r) i used |>.

(** the first frame of [n] free ones in a row: [todo] frames are left from [i]
    on, and the [len] before [i] are free *)
Fixpoint find_run (todo : nat) (r : hrange_t) (n i len : Z) : option Z :=
  match todo with
  | O => None
  | S todo =>
      if negb (used_at r i =? 0) then find_run todo r n (i + 1) 0
      else
        let len := len + 1 in
        if len <? n then find_run todo r n (i + 1) len
        else Some (i + 1 - n)
  end.

Definition range_run (r : hrange_t) (n : Z) : option Z :=
  if u32 (frames r - used r) <? n then None else find_run (Z.to_nat (frames r)) r n 0 0.

Fixpoint find_range (l : list hrange_t) (n ri : Z) : option (Z * hrange_t * Z) :=
  match l with
  | [] => None
  | r :: l =>
      match range_run r n with
      | Some first => Some (ri, r, first)
      | None => find_range l n (ri + 1)
      end
  end.

Definition alloc_locked (n : Z) (h : hmem) : Z * hmem :=
  match find_range (g_r h) n 0 with
  | Some (ri, r, first) =>
      (u64 (base r + first * FRAME),
       h <| g_r ::= fun l => aset l ri (mark r first n true <| used ::= fun u => u32 (u + n) |>) |>
         <| g_used ::= fun u => u64 (u + n * FRAME) |>)
  | None => (0, h)
  end.

Definition hmem_alloc (n : Z) (h : hmem) : Z * hmem := if n =? 0 then (0, h) else alloc_locked n h.

(** the first range that [addr] lies in *)
Fixpoint range_of (l : list hrange_t) (addr ri : Z) : option (Z * hrange_t) :=
  match l with
  | [] => None
  | r :: l =>
      if (addr <? base r) || (u64 (base r + frames r * FRAME) <=? addr) then range_of l addr (ri + 1)
      else Some (ri, r)
  end.

Definition hmem_free (addr n : Z) (h : hmem) : hmem :=
  match range_of (g_r h) addr 0 with
  | Some (ri, r) =>
      let first := u32 ((addr - base r) / FRAME) in
      if u32 (first + n) <=? frames r then
        h <| g_r ::= fun l => aset l ri (mark r first n false <| used ::= fun u => u32 (u - n) |>) |>
          <| g_used ::= fun u => u64 (u - n * FRAME) |>
      else h
  | None => h
  end.

Definition hmem_total_bytes (h : hmem) : Z := g_total h.
Definition hmem_used_bytes (h : hmem) : Z := g_used h.
