(* ===== verification/HmemProps.v ===== *)
(** * RAM above 4 GiB: the frame allocator hands out runs of free frames

    [hmem_ok] is the invariant: the stretches are whole frames between 4 and
    512 GiB that do not overlap, each bitmap's ones are the count [used], and
    the totals are the sums. [frame] is the abstract view, the state of the
    frame at an address. *)

From S2P Require Import Prelude Wire LeBytes Bootmem BootmemProps Hmem.

(** ** Bits of a range *)

Lemma used_at_bit r i : used_at r i = Z.b2z (bit (fmap r) i).
Proof.
  unfold used_at, bit, wbit. rewrite (Z.shiftr_div_pow2 i 3) by lia. change (2 ^ 3) with 8.
  assert (E7 : Z.land i 7 = i mod 8) by (change 7 with (Z.ones 3); by rewrite Z.land_ones).
  assert (E1 : forall x, Z.land x 1 = Z.b2z (Z.testbit x 0))
    by (intros x; change 1 with (Z.ones 1); rewrite Z.land_ones, Z.bit0_mod; done).
  rewrite E1, E7, Z.shiftr_spec by done. by rewrite Z.add_0_l.
Qed.

Lemma used_at_zero r i : negb (used_at r i =? 0) = bit (fmap r) i.
Proof. rewrite used_at_bit. by destruct (bit _ _). Qed.

Lemma mark_byte b i (used : bool) : 0 <= i < 8 -> is_u8 b ->
  (if used then Z.lor b (u8 (Z.shiftl 1 i)) else Z.land b (u8 (Z.lnot (Z.shiftl 1 i)))) =
  (if used then Z.lor b (Z.shiftl 1 i) else Z.ldiff b (Z.shiftl 1 i)).
Proof.
  intros Hi Hb. destruct used.
  - f_equal. unfold u8. rewrite Z.mod_small; [done|]. rewrite Z.shiftl_1_l.
    split; [lia|]. apply Z.pow_lt_mono_r; lia.
  - rewrite Z.ldiff_land. apply Z.bits_inj'. intros j Hj. rewrite !Z.land_spec.
    destruct (decide (j < 8)); [unfold u8; by rewrite Z.mod_pow2_bits_low|].
    by rewrite (testbit_above 8 b) by (unfold is_u8 in *; lia).
Qed.

Lemma mark_step map k (used : bool) : bytes map -> 0 <= k < 8 * zlen map ->
  aset map (Z.shiftr k 3) (if used then Z.lor (aget map (Z.shiftr k 3)) (u8 (Z.shiftl 1 (Z.land k 7)))
    else Z.land (aget map (Z.shiftr k 3)) (u8 (Z.lnot (Z.shiftl 1 (Z.land k 7))))) = wset 8 map k used.
Proof.
  intros Hm Hk. unfold wset. cbv zeta. rewrite Z.shiftr_div_pow2 by lia. change (2 ^ 3) with 8.
  change 7 with (Z.ones 3). rewrite Z.land_ones by lia. change (2 ^ 3) with 8.
  pose proof (Z.mod_pos_bound k 8 ltac:(lia)). rewrite mark_byte; [done|lia|apply byte_at; [done|lia]].
Qed.

Lemma mark_from_spec used n : forall map k, bytes map -> 0 <= k -> k + Z.of_nat n <= 8 * zlen map ->
  bytes (mark_from n map k used) /\ zlen (mark_from n map k used) = zlen map /\
  forall j, 0 <= j -> bit (mark_from n map k used) j = if (k <=? j) && (j <? k + Z.of_nat n) then used else bit map j.
Proof.
  induction n as [|n IH]; intros map k Hm Hk Hn; cbn [mark_from].
  - split_and!; [done..|]. intros j Hj. destruct (_ && _) eqn:E; zbool; [lia|done].
  - cbv zeta. rewrite mark_step by (done || lia).
    destruct (IH (wset 8 map k used) (k + 1)) as (H1 & H2 & H3); [by apply words_wset; [lia|done|lia]|lia|rewrite zlen_wset; lia|].
    rewrite zlen_wset in H2. split_and!; [done..|]. intros j Hj. rewrite H3 by done. unfold bit.
    rewrite wbit_wset by lia. zcases; done || lia.
Qed.

Lemma mark_bits r i n used : bytes (fmap r) -> 0 <= i -> 0 <= n -> i + n <= 8 * zlen (fmap r) -> i + n < 2 ^ 32 ->
  bytes (fmap (mark r i n used)) /\ zlen (fmap (mark r i n used)) = zlen (fmap r) /\
  forall j, 0 <= j -> bit (fmap (mark r i n used)) j = if (i <=? j) && (j <? i + n) then used else bit (fmap r) j.
Proof.
  intros Hm Hi Hn Hlen Hw. unfold mark, set, setter. cbn [fmap].
  rewrite u32_small by (unfold is_u32; lia). replace (i + n - i) with n by lia.
  destruct (mark_from_spec used (Z.to_nat n) (fmap r) i Hm Hi ltac:(lia)) as (H1 & H2 & H3).
  split_and!; [done..|]. intros j Hj. rewrite H3 by done. by rewrite Z2Nat.id by done.
Qed.

(** ** Finding a run *)

Definition free_run (r : hrange_t) (n f : Z) : Prop :=
  0 <= f /\ f + n <= frames r /\ forall k, f <= k < f + n -> bit (fmap r) k = false.

Lemma find_run_some r n : 0 < n -> forall todo i len f, 0 <= len < n -> len <= i ->
  (forall k, i - len <= k < i -> bit (fmap r) k = false) -> find_run todo r n i len = Some f ->
  0 <= f /\ f + n <= i + Z.of_nat todo /\ forall k, f <= k < f + n -> bit (fmap r) k = false.
Proof.
  intros Hn. induction todo as [|todo IH]; intros i len f Hlen Hi Hfree Hrun; [done|].
  cbn [find_run] in Hrun. rewrite used_at_zero in Hrun. destruct (bit (fmap r) i) eqn:Eb.
  - apply IH in Hrun as (H1 & H2 & H3); [|lia|lia|intros; lia]. split_and!; [done|lia|done].
  - cbv zeta in Hrun. assert (Hext : forall k, i - len <= k < i + 1 -> bit (fmap r) k = false).
    { intros k Hk. destruct (decide (k = i)) as [->|]; [done|]. apply Hfree. lia. }
    destruct (len + 1 <? n) eqn:El; zbool.
    + apply IH in Hrun as (H1 & H2 & H3); [|lia|lia|intros; apply Hext; lia]. split_and!; [done|lia|done].
    + injection Hrun as <-. split_and!; [lia|lia|]. intros k Hk. apply Hext. lia.
Qed.

Lemma find_run_none r n : 0 < n -> forall todo i len, 0 <= len < n -> find_run todo r n i len = None ->
  forall f, i - len <= f -> f + n <= i + Z.of_nat todo -> exists k, f <= k < f + n /\ bit (fmap r) k = true.
Proof.
  intros Hn. induction todo as [|todo IH]; intros i len Hlen Hrun f Hf Hend; [lia|].
  cbn [find_run] in Hrun. rewrite used_at_zero in Hrun. destruct (bit (fmap r) i) eqn:Eb.
  - destruct (decide (f <= i)); [exists i; split; [lia|done]|]. apply (IH (i + 1) 0 ltac:(lia) Hrun); lia.
  - cbv zeta in Hrun. destruct (len + 1 <? n) eqn:El; zbool; [|done]. apply (IH (i + 1) (len + 1) ltac:(lia) Hrun); lia.
Qed.

(** ** The invariant *)

Definition range_ok (r : hrange_t) : Prop :=
  base r mod FRAME = 0 /\ LOW <= base r /\ base r + frames r * FRAME <= HIGH /\ 0 < frames r /\
  zlen (fmap r) = (frames r + 7) / 8 /\ bytes (fmap r) /\ used r = cnt (bit (fmap r)) 0 (Z.to_nat (frames r)).

Definition apart (r1 r2 : hrange_t) : Prop :=
  base r1 + frames r1 * FRAME <= base r2 \/ base r2 + frames r2 * FRAME <= base r1.

Definition disjoint_ranges (l : list hrange_t) : Prop :=
  forall i j r s, l !! i = Some r -> l !! j = Some s -> i <> j -> apart r s.

Definition hmem_ok (h : hmem) : Prop :=
  Forall range_ok (g_r h) /\ zlen (g_r h) <= RANGES /\ disjoint_ranges (g_r h) /\
  g_used h = zsum (map used (g_r h)) * FRAME /\ g_total h = zsum (map frames (g_r h)) * FRAME.

(** the state of the frame at address [a]: in use, free, or no frame of ours *)
Definition frame (h : hmem) (a : Z) : option bool :=
  '(_, r) ← range_of (g_r h) a 0;
  if (a - base r) mod FRAME =? 0 then Some (bit (fmap r) ((a - base r) / FRAME)) else None.

Lemma range_size r : range_ok r -> 0 <= used r <= frames r /\ frames r <= 2 ^ 18 /\ frames r <= 8 * zlen (fmap r).
Proof.
  unfold range_ok, FRAME, LOW, HIGH. rewrite !Z.shiftl_mul_pow2 by lia. intros (H1 & H2 & H3 & H4 & H5 & H6 & H7).
  pose proof (cnt_bound (bit (fmap r)) (Z.to_nat (frames r)) 0). lia.
Qed.

Lemma range_end r : range_ok r -> u64 (base r + frames r * FRAME) = base r + frames r * FRAME.
Proof.
  unfold range_ok, FRAME, LOW, HIGH. rewrite !Z.shiftl_mul_pow2 by lia. intros (H1 & H2 & H3 & H4 & H5).
  apply u64_small. unfold is_u64. lia.
Qed.

Lemma range_of_some l : forall addr ri k r, range_of l addr ri = Some (k, r) ->
  exists i, k = ri + Z.of_nat i /\ l !! i = Some r /\ base r <= addr < u64 (base r + frames r * FRAME).
Proof.
  induction l as [|r0 l IH]; intros addr ri k r H; [done|]. cbn [range_of] in H. destruct (_ || _) eqn:E.
  - apply IH in H as (i & -> & Hi & Ha). exists (S i). split_and!; [lia|done|lia|lia].
  - injection H as <- <-. zbool. exists O. split_and!; [lia|done|lia|lia].
Qed.

Lemma range_of_at l : forall i addr ri r, Forall range_ok l -> disjoint_ranges l -> l !! i = Some r ->
  base r <= addr < base r + frames r * FRAME -> range_of l addr ri = Some (ri + Z.of_nat i, r).
Proof.
  induction l as [|r0 l IH]; intros i addr ri r Hl Hd Hi Ha; [done|]. apply Forall_cons in Hl as [Hr0 Hl].
  cbn [range_of]. rewrite range_end by done. destruct i as [|i].
  - injection Hi as ->. destruct (_ || _) eqn:E; zors; [lia..|]. do 2 f_equal. lia.
  - assert (Hap : apart r0 r) by (by apply (Hd O (S i))). destruct (_ || _) eqn:E.
    + rewrite (IH i addr (ri + 1) r); [do 2 f_equal; lia|done| |done|done].
      intros i' j' r' s' Hi' Hj' Hne. apply (Hd (S i') (S j')); [done|done|lia].
    + zbool. destruct Hap; lia.
Qed.

(** the frame view of one range changed in place *)
Lemma frame_at h i r a : hmem_ok h -> g_r h !! i = Some r -> base r <= a < base r + frames r * FRAME ->
  frame h a = if (a - base r) mod FRAME =? 0 then Some (bit (fmap r) ((a - base r) / FRAME)) else None.
Proof.
  intros (Hl & _ & Hd & _) Hi Ha. unfold frame. by rewrite (range_of_at _ i a 0 r).
Qed.

Lemma range_of_none l : forall addr ri, Forall range_ok l ->
  (forall i r, l !! i = Some r -> ~ base r <= addr < base r + frames r * FRAME) -> range_of l addr ri = None.
Proof.
  induction l as [|r0 l IH]; intros addr ri Hl Hout; [done|]. apply Forall_cons in Hl as [Hr0 Hl]. cbn [range_of].
  rewrite range_end by done. pose proof (Hout O r0 eq_refl). destruct (_ || _) eqn:E; [|zbool; lia].
  apply IH; [done|]. intros i r Hi. by apply (Hout (S i)).
Qed.

Lemma disjoint_update l i r r' : disjoint_ranges l -> l !! i = Some r -> base r' = base r -> frames r' = frames r ->
  disjoint_ranges (<[i := r']> l).
Proof.
  intros Hd Hi Hb Hf j k x y Hj Hk Hne.
  apply list_lookup_insert_Some in Hj as [(<- & <- & _)|(Hne1 & Hj)];
    apply list_lookup_insert_Some in Hk as [(<- & <- & _)|(Hne2 & Hk)].
  - done.
  - unfold apart. rewrite Hb, Hf. by apply (Hd i k r y).
  - unfold apart. rewrite Hb, Hf. by apply (Hd j i x r).
  - by apply (Hd j k).
Qed.

(** ** Changing the state of a run of frames of one range *)

Definition marked (h : hmem) (i : nat) (r : hrange_t) (f n : Z) (b : bool) : hmem :=
  let d := if b then n else - n in
  h <| g_r := <[i := mark r f n b <| used := used r + d |>]> (g_r h) |> <| g_used := g_used h + d * FRAME |>.

Definition run_is (r : hrange_t) (f n : Z) (b : bool) : Prop :=
  0 <= f /\ 0 < n /\ f + n <= frames r /\ forall k, f <= k < f + n -> bit (fmap r) k = b.

Lemma marked_range r f n b : range_ok r -> run_is r f n (negb b) ->
  range_ok (mark r f n b <| used := used r + if b then n else - n |>).
Proof.
  intros Hr (Hf & Hn & Hend & Hbits). pose proof (range_size r Hr). destruct Hr as (H1 & H2 & H3 & H4 & H5 & H6 & H7).
  destruct (mark_bits r f n b) as (M1 & M2 & M3); [done|lia|lia|lia|lia|].
  unfold range_ok, mark, set, setter in *. cbn [base frames used fmap] in *. split_and!; [done..|lia|done|].
  rewrite (cnt_write (bit (fmap r)) _ b f n); [rewrite H7; by destruct b|lia|lia|lia|done| |].
  - intros j Hj. rewrite M3 by lia. destruct (_ && _) eqn:E; zors; [done|lia..].
  - intros j Hj Hout. rewrite M3 by lia. destruct (_ && _) eqn:E; zors; [lia|done..].
Qed.

Lemma marked_ok h i r f n b : hmem_ok h -> g_r h !! i = Some r -> run_is r f n (negb b) -> hmem_ok (marked h i r f n b).
Proof.
  intros (Hl & Hlen & Hd & Hu & Ht) Hi Hrun. unfold marked, set, setter. cbv zeta.
  pose proof (Forall_lookup_1 _ _ _ _ Hl Hi) as Hr. unfold hmem_ok. cbn [g_r g_used g_total]. split_and!.
  - apply Forall_insert; [done|]. by apply marked_range.
  - unfold zlen in *. by rewrite length_insert.
  - by apply (disjoint_update _ i r).
  - rewrite (zsum_update used _ i r) by done. cbn [used]. rewrite Hu. lia.
  - rewrite (zsum_update frames _ i r) by done. cbn [frames]. change (frames (mark r f n b)) with (frames r). rewrite Ht. f_equal. lia.
Qed.

Lemma div_frames x k : 0 <= x -> x mod FRAME = 0 -> (x + k * FRAME) mod FRAME = 0.
Proof. unfold FRAME. lia. Qed.

(** exactly the frames of the run change *)
Lemma marked_frames h i r f n b a : hmem_ok h -> g_r h !! i = Some r -> run_is r f n (negb b) ->
  frame (marked h i r f n b) a =
    if (base r + f * FRAME <=? a) && (a <? base r + (f + n) * FRAME) then (if a mod FRAME =? 0 then Some b else None)
    else frame h a.
Proof.
  intros Hh Hi Hrun. pose proof (marked_ok h i r f n b Hh Hi Hrun) as Hh'. destruct Hh as (Hl & Hlen & Hd & Hu & Ht) eqn:Eh. clear Eh.
  pose proof (Forall_lookup_1 _ _ _ _ Hl Hi) as Hr. pose proof Hrun as (Hf & Hn & Hend & _). pose proof (range_size r Hr).
  set (r' := mark r f n b <| used := used r + if b then n else - n |>).
  assert (Hi' : g_r (marked h i r f n b) !! i = Some r').
  { unfold marked, set, setter. cbn [g_r]. apply list_lookup_insert_eq. by eapply lookup_lt_Some. }
  destruct (mark_bits r f n b) as (M1 & M2 & M3); [apply Hr|lia|lia|lia|lia|].
  destruct (decide (base r <= a < base r + frames r * FRAME)) as [Hin|Hout].
  - rewrite (frame_at _ i r' a) by done. rewrite (frame_at h i r a) by done.
    change (base r') with (base r). change (fmap r') with (fmap (mark r f n b)).
    destruct Hr as (Hb & Hb2 & _). unfold FRAME, LOW in *. rewrite Z.shiftl_mul_pow2 in Hb2 by lia.
    rewrite M3 by lia. zcases_all; try done; try lia.
  - destruct (_ && _) eqn:E; zbool; [unfold FRAME in *; lia|]. clear E.
    unfold frame. destruct (range_of (g_r h) a 0) as [[k s]|] eqn:Es.
    + destruct (range_of_some _ _ _ _ _ Es) as (j & -> & Hj & Ha). rewrite range_end in Ha by (by eapply Forall_lookup_1 in Hl).
      assert (i <> j) by (intros <-; congruence).
      rewrite (range_of_at _ j a 0 s); [done|apply Hh'|apply Hh'| |done].
      unfold marked, set, setter. cbn [g_r]. by rewrite list_lookup_insert_ne.
    + rewrite range_of_none; [done|apply Hh'|]. intros j s Hj Ha.
      unfold marked, set, setter in Hj. cbn [g_r] in Hj.
      apply list_lookup_insert_Some in Hj as [(<- & <- & _)|(Hne & Hj)]; [done|].
      by rewrite (range_of_at _ j a 0 s) in Es.
Qed.

(** clearing the bits that were just set gives the old map back *)
Lemma mark_back r f n b u : range_ok r -> run_is r f n (negb b) ->
  fmap (mark (mark r f n b <| used := u |>) f n (negb b)) = fmap r.
Proof.
  intros Hr (Hf & Hn & Hend & Hbits). pose proof (range_size r Hr). pose proof Hr as (_ & _ & _ & _ & _ & Hm & _).
  destruct (mark_bits r f n b) as (M1 & M2 & M3); [done|lia|lia|lia|lia|].
  set (r' := mark r f n b <| used := u |>). change (fmap (mark r f n b)) with (fmap r') in *.
  destruct (mark_bits r' f n (negb b)) as (N1 & N2 & N3); [done|lia|lia|lia|lia|].
  apply (wbit_ext 8); [lia|done|done|lia|]. intros j Hj. fold (bit (fmap (mark r' f n (negb b))) j) (bit (fmap r) j).
  rewrite N3, M3 by lia. destruct (_ && _) eqn:E; [|done]. zbool. by rewrite Hbits by lia.
Qed.

(** ** Allocating and freeing *)

Lemma zsum_bound {A} (g : A -> Z) (l : list A) m : Forall (fun x => 0 <= g x <= m) l -> 0 <= zsum (map g l) <= m * zlen l.
Proof. induction 1 as [|x l Hx _ IH]; [change (zlen (@nil A)) with 0; cbn; lia|]. cbn [map]. rewrite zsum_cons, zlen_cons. lia. Qed.

Lemma used_total h : hmem_ok h -> 0 <= g_used h <= 2 ^ 44.
Proof.
  intros (Hl & Hlen & _ & -> & _). unfold RANGES, FRAME in *.
  assert (Hb : Forall (fun r => 0 <= used r <= 2 ^ 18) (g_r h)).
  { eapply Forall_impl; [exact Hl|]. intros r Hr. pose proof (range_size r Hr). lia. }
  pose proof (zsum_bound used _ _ Hb). lia.
Qed.

Lemma used_part l i r : Forall range_ok l -> l !! i = Some r -> used r <= zsum (map used l).
Proof.
  intros Hl. assert (Hpos : forall l, Forall range_ok l -> 0 <= zsum (map used l)).
  { induction 1 as [|x k Hx _ IH]; [done|]. cbn [map]. rewrite zsum_cons. pose proof (range_size x Hx). lia. }
  revert i. induction Hl as [|x k Hx Hk IH]; intros i Hi; [done|]. cbn [map]. rewrite zsum_cons. pose proof (range_size x Hx).
  destruct i as [|i]; [injection Hi as ->; pose proof (Hpos k Hk)|specialize (IH i Hi)]; lia.
Qed.

(** a range whose count leaves too few free frames has no run *)
Lemma range_run_spec r n : range_ok r -> 0 < n < 2 ^ 32 ->
  match range_run r n with
  | Some f => run_is r f n false
  | None => forall f, ~ run_is r f n false
  end.
Proof.
  intros Hr Hn. pose proof (range_size r Hr) as (Hu & Hfr & _). unfold range_run.
  rewrite u32_small by (unfold is_u32; lia). destruct (_ <? n) eqn:E; zbool.
  - intros f (Hf & _ & Hend & Hbits). destruct Hr as (_ & _ & _ & _ & _ & _ & H7).
    pose proof (cnt_bound (bit (fmap r)) (Z.to_nat f) 0).
    pose proof (fun a => cnt_bound (bit (fmap r)) (Z.to_nat (frames r - f - n)) a) as Hc.
    replace (Z.to_nat (frames r)) with (Z.to_nat f + (Z.to_nat n + Z.to_nat (frames r - f - n)))%nat in H7 by lia.
    rewrite !cnt_app, (cnt_const _ false (Z.to_nat n)) in H7 by (intros; apply Hbits; lia). cbn [Z.b2z] in H7.
    match type of H7 with _ = _ + (_ + cnt _ ?a _) => specialize (Hc a) end. lia.
  - destruct (find_run _ r n 0 0) as [f|] eqn:Ef.
    + apply find_run_some in Ef as (H1 & H2 & H3); [|lia..]. split_and!; [done|lia|lia|done].
    + intros f (Hf & _ & Hend & Hbits). destruct (find_run_none r n ltac:(lia) (Z.to_nat (frames r)) 0 0 ltac:(lia) Ef f) as (k & Hk & Hk2); [lia|lia|].
      rewrite Hbits in Hk2; done.
Qed.

Lemma find_range_spec n : 0 < n < 2 ^ 32 -> forall l ri, Forall range_ok l ->
  match find_range l n ri with
  | Some (k, r, f) => exists i, k = ri + Z.of_nat i /\ l !! i = Some r /\ run_is r f n false
  | None => forall i r f, l !! i = Some r -> ~ run_is r f n false
  end.
Proof.
  intros Hn. induction l as [|r l IH]; intros ri Hl; cbn [find_range]; [by intros ? ? ? ?|].
  apply Forall_cons in Hl as [Hr Hl]. pose proof (range_run_spec r n Hr Hn) as Hrun. destruct (range_run r n) as [f|].
  - exists O. split_and!; [lia|done|done].
  - specialize (IH (ri + 1) Hl). destruct (find_range l n (ri + 1)) as [[[k r'] f]|].
    + destruct IH as (i & -> & Hi & Hrun'). exists (S i). split_and!; [lia|done|done].
    + intros [|i] r' f Hi; [injection Hi as <-; apply Hrun|by apply (IH i)].
Qed.

Lemma run_addr r f n : range_ok r -> run_is r f n false \/ run_is r f n true ->
  u64 (base r + f * FRAME) = base r + f * FRAME /\ base r + f * FRAME <> 0 /\ (base r + f * FRAME) mod FRAME = 0 /\
  LOW <= base r + f * FRAME /\ base r + (f + n) * FRAME <= HIGH.
Proof.
  intros Hr Hrun. assert (0 <= f /\ 0 < n /\ f + n <= frames r) as (H1 & H2 & H3) by (destruct Hrun as [(? & ? & ? & _)|(? & ? & ? & _)]; lia).
  destruct Hr as (Hb & Hlo & Hhi & _). unfold LOW, HIGH, FRAME in *. rewrite !Z.shiftl_mul_pow2 in * by lia.
  split_and!; [apply u64_small; unfold is_u64; lia|lia|lia|lia|lia].
Qed.

(** allocation in terms of [marked] *)
Lemma hmem_alloc_marked n h : hmem_ok h -> 0 < n < 2 ^ 32 ->
  (exists i r f, g_r h !! i = Some r /\ run_is r f n false /\ hmem_alloc n h = (base r + f * FRAME, marked h i r f n true)) \/
  (hmem_alloc n h = (0, h) /\ forall i r f, g_r h !! i = Some r -> ~ run_is r f n false).
Proof.
  intros Hh Hn. pose proof (used_total h Hh). pose proof Hh as (Hl & _). pose proof (find_range_spec n Hn (g_r h) 0 Hl) as Hfind.
  unfold hmem_alloc, alloc_locked. rewrite (proj2 (Z.eqb_neq n 0)) by lia.
  destruct (find_range (g_r h) n 0) as [[[k r] f]|]; [|by right]. destruct Hfind as (i & -> & Hi & Hrun).
  left. exists i, r, f. split_and!; [done..|]. pose proof (Forall_lookup_1 _ _ _ _ Hl Hi) as Hr.
  destruct (run_addr r f n Hr ltac:(by left)) as (-> & _). pose proof (range_size r Hr). destruct Hrun as (? & ? & ? & _).
  f_equal. unfold marked, aset, set, setter, FRAME in *. cbn [used mark]. rewrite Z.add_0_l, Nat2Z.id.
  rewrite u32_small by (unfold is_u32; cbn; lia). cbn [g_r g_total g_used].
  rewrite u64_small by (unfold is_u64; lia). done.
Qed.

Lemma hmem_free_marked i r f n h : hmem_ok h -> g_r h !! i = Some r -> run_is r f n true ->
  hmem_free (base r + f * FRAME) n h = marked h i r f n false.
Proof.
  intros Hh Hi Hrun. pose proof (used_total h Hh). pose proof Hh as (Hl & _ & Hd & Hu & _).
  pose proof (Forall_lookup_1 _ _ _ _ Hl Hi) as Hr. pose proof (range_size r Hr). pose proof Hrun as (? & ? & ? & Hbits).
  unfold hmem_free. rewrite (range_of_at _ i _ 0 r) by (done || unfold FRAME; lia).
  replace (base r + f * FRAME - base r) with (f * FRAME) by lia. rewrite Z.div_mul by done.
  rewrite (u32_small f) by (unfold is_u32; lia). rewrite (u32_small (f + n)) by (unfold is_u32; lia). cbv zeta.
  rewrite (proj2 (Z.leb_le _ _)) by lia. unfold marked, aset, set, setter. cbn [used mark]. rewrite Z.add_0_l, Nat2Z.id.
  pose proof (marked_range r f n false Hr Hrun) as Hr'. pose proof (range_size _ Hr') as (Hr2 & _). cbn [used set setter] in Hr2.
  assert (Hn : n <= used r) by (unfold set, setter in Hr2; cbn [used] in Hr2; lia).
  rewrite u32_small by (unfold is_u32; cbn; lia). cbn [g_r g_total g_used].
  change (used (mark r f n false)) with (used r).
  replace (used r + - n) with (used r - n) by lia. f_equal. rewrite u64_small; [lia|].
  assert (used r <= zsum (map used (g_r h))).
  { by apply (used_part _ i). }
  unfold is_u64, FRAME in *. lia.
Qed.

(** ** Properties *)

(** C31: hmem_alloc n gives the address of n consecutive 2 MiB frames, aligned and between 4 and 512 GiB,
    that were all free and are now in use, no other frame's state changing, and counts them; it gives 0
    exactly when no stretch of RAM has n free frames in a row, changing nothing. The allocator's invariant
    is kept: each stretch's count is the number of ones in its bitmap. *)
Theorem hmem_alloc_spec n h a h' : hmem_ok h -> 0 < n < 2 ^ 32 -> hmem_alloc n h = (a, h') ->
  hmem_ok h' /\
  ((a = 0 /\ h' = h /\ forall i r f, g_r h !! i = Some r -> ~ run_is r f n false) \/
   (LOW <= a /\ a + n * FRAME <= HIGH /\ a mod FRAME = 0 /\
    (forall k, 0 <= k < n -> frame h (a + k * FRAME) = Some false) /\
    (forall b, frame h' b = if (a <=? b) && (b <? a + n * FRAME) then (if b mod FRAME =? 0 then Some true else None) else frame h b) /\
    hmem_used_bytes h' = hmem_used_bytes h + n * FRAME)).
Proof.
  intros Hh Hn Halloc. destruct (hmem_alloc_marked n h Hh Hn) as [(i & r & f & Hi & Hrun & Heq)|[Heq Hnone]];
    rewrite Heq in Halloc; injection Halloc as <- <-; [|split; [done|by left]].
  pose proof (Forall_lookup_1 _ _ _ _ (proj1 Hh) Hi) as Hr.
  split; [by apply marked_ok|]. right. destruct (run_addr r f n Hr ltac:(by left)) as (_ & _ & Hal & Hlo & Hhi).
  assert (Heqn : base r + f * FRAME + n * FRAME = base r + (f + n) * FRAME) by lia. split_and!; [done|lia|done| | |done].
  - intros k Hk. destruct Hrun as (Hf & _ & Hend & Hbits).
    rewrite (frame_at h i r) by (done || unfold FRAME; lia).
    replace (base r + f * FRAME + k * FRAME - base r) with ((f + k) * FRAME) by lia.
    rewrite Z.mod_mul, Z.div_mul by done. cbn. f_equal. apply Hbits. lia.
  - intros b. rewrite (marked_frames h i r f n true b Hh Hi Hrun). by rewrite Heqn.
Qed.

(** C0: hmem_free of a run of frames in use (n of them from frame f of one stretch) makes exactly those
    frames free again, changes no other, keeps the invariant and takes them off the count. *)
Theorem hmem_free_spec i r f n h : hmem_ok h -> g_r h !! i = Some r -> run_is r f n true ->
  let a := base r + f * FRAME in
  let h' := hmem_free a n h in
  hmem_ok h' /\
  (forall b, frame h' b = if (a <=? b) && (b <? a + n * FRAME) then (if b mod FRAME =? 0 then Some false else None) else frame h b) /\
  hmem_used_bytes h' = hmem_used_bytes h - n * FRAME.
Proof.
  intros Hh Hi Hrun. cbv zeta. rewrite (hmem_free_marked i) by done. split_and!; [by apply marked_ok| |].
  - intros b. rewrite (marked_frames h i r f n false b Hh Hi Hrun). by rewrite Z.mul_add_distr_r, Z.add_assoc.
  - unfold hmem_used_bytes, marked, set, setter. cbn [g_used]. lia.
Qed.

(** freeing what an allocation gave restores the allocator's state exactly: bitmaps, counts and totals. *)
Theorem hmem_alloc_free n h a h' : hmem_ok h -> 0 < n < 2 ^ 32 -> hmem_alloc n h = (a, h') -> a <> 0 ->
  hmem_free a n h' = h.
Proof.
  intros Hh Hn Halloc Ha. destruct (hmem_alloc_marked n h Hh Hn) as [(i & r & f & Hi & Hrun & Heq)|[Heq _]];
    rewrite Heq in Halloc; injection Halloc as <- <-; [|done].
  pose proof (Forall_lookup_1 _ _ _ _ (proj1 Hh) Hi) as Hr. pose proof (lookup_lt_Some _ _ _ Hi).
  set (r' := mark r f n true <| used := used r + n |>).
  assert (Hi' : g_r (marked h i r f n true) !! i = Some r').
  { unfold marked, set, setter. cbn [g_r]. by apply list_lookup_insert_eq. }
  assert (Hrun' : run_is r' f n true).
  { destruct Hrun as (H1 & H2 & H3 & _). split_and!; [done..|]. intros k Hk. pose proof (range_size r Hr).
    destruct (mark_bits r f n true) as (_ & _ & M3); [apply Hr|lia..|]. change (fmap r') with (fmap (mark r f n true)).
    rewrite M3 by lia. rewrite (proj2 (Z.leb_le _ _)), (proj2 (Z.ltb_lt _ _)) by lia. done. }
  change (base r + f * FRAME) with (base r' + f * FRAME). rewrite (hmem_free_marked i); [|by apply marked_ok|done|done].
  pose proof (mark_back r f n true (used r + n) Hr Hrun) as Hback. fold r' in Hback. cbn [negb] in Hback.
  unfold marked, set, setter in *. cbn [g_r g_used g_total]. destruct h as [l t u]. cbn [g_r g_used g_total] in *.
  rewrite list_insert_insert_eq. f_equal; [|lia]. rewrite list_insert_id; [done|]. rewrite Hi. f_equal.
  destruct r as [rb rf ru rm]. unfold r' in *. unfold mark, set, setter in *. cbn [base frames used fmap] in *. by rewrite Hback; f_equal; lia.
Qed.

(** ** Witnesses: five frames at 4 GiB, the first and the third in use *)

Definition demo_hmem : hmem := Hmem [Hrange LOW 5 2 [5]] (5 * FRAME) (2 * FRAME).

Lemma demo_hmem_ok : hmem_ok demo_hmem.
Proof.
  split; [|split; [done|split; [|done]]].
  - apply Forall_singleton. split_and!; try done. by apply Forall_singleton.
  - intros [|i] [|j] r s Hi Hj Hne; done.
Qed.

Lemma demo_run : run_is (Hrange LOW 5 2 [5]) 2 1 true.
Proof. split_and!; [done|done|done|]. intros k Hk. by replace k with 2 by lia. Qed.

Lemma hmem_alloc_spec_witness :
  hmem_alloc 2 demo_hmem = (LOW + 3 * FRAME, Hmem [Hrange LOW 5 4 [29]] (5 * FRAME) (4 * FRAME)) /\
  frame demo_hmem (LOW + 3 * FRAME + 1 * FRAME) = Some false.
Proof.
  split; [reflexivity|].
  destruct (hmem_alloc_spec 2 demo_hmem (LOW + 3 * FRAME) (Hmem [Hrange LOW 5 4 [29]] (5 * FRAME) (4 * FRAME))
    demo_hmem_ok (conj eq_refl eq_refl) eq_refl) as (_ & [(Hz & _)|(_ & _ & _ & Hfree & _)]); [discriminate Hz|].
  apply (Hfree 1). lia.
Defined.

Lemma hmem_free_spec_witness : hmem_used_bytes (hmem_free (LOW + 2 * FRAME) 1 demo_hmem) = FRAME.
Proof. exact (proj2 (proj2 (hmem_free_spec 0 (Hrange LOW 5 2 [5]) 2 1 demo_hmem demo_hmem_ok eq_refl demo_run))). Defined.

Lemma hmem_alloc_free_witness :
  hmem_free (LOW + 3 * FRAME) 2 (Hmem [Hrange LOW 5 4 [29]] (5 * FRAME) (4 * FRAME)) = demo_hmem.
Proof. exact (hmem_alloc_free 2 demo_hmem _ _ demo_hmem_ok (conj eq_refl eq_refl) eq_refl ltac:(discriminate)). Defined.
