(* ===== verification/HmemInit.v ===== *)
(** * RAM above 4 GiB: what start-up takes from the memory map

    [hmem_init] walks the information block that [BootmemProps.mb2_block]
    encodes; every stretch it makes lies inside one usable entry. *)

From S2P Require Import Prelude Wire LeBytes Bootmem BootmemProps Hmem HmemProps.

Lemma frame_up x : 0 <= x -> x + FRAME - 1 < 2 ^ 64 ->
  Z.land (u64 (x + FRAME - 1)) (u64 (Z.lnot (FRAME - 1))) = (x + FRAME - 1) / FRAME * FRAME.
Proof.
  intros Hx Hs. rewrite u64_small by (unfold is_u64, FRAME in *; lia).
  transitivity (Z.land (x + FRAME - 1) (Z.lnot (Z.ones 21))); [|by rewrite land_lnot_ones].
  apply Z.bits_inj'. intros i Hi. rewrite !Z.land_spec. change (Z.ones 21) with (FRAME - 1). unfold u64.
  destruct (decide (i < 64)); [by rewrite Z.mod_pow2_bits_low|].
  by rewrite (testbit_above 64 (x + FRAME - 1)) by (unfold FRAME in *; lia).
Qed.

Lemma frame_down x : 0 <= x < 2 ^ 64 -> Z.land x (u64 (Z.lnot (FRAME - 1))) = x / FRAME * FRAME.
Proof.
  intros Hx. transitivity (Z.land x (Z.lnot (Z.ones 21))); [|by rewrite land_lnot_ones].
  apply Z.bits_inj'. intros i Hi. rewrite !Z.land_spec. change (Z.ones 21) with (FRAME - 1). unfold u64.
  destruct (decide (i < 64)); [by rewrite Z.mod_pow2_bits_low|]. by rewrite (testbit_above 64 x) by lia.
Qed.

Lemma round_up x : x <= (x + FRAME - 1) / FRAME * FRAME /\ ((x + FRAME - 1) / FRAME * FRAME) mod FRAME = 0.
Proof. split; [unfold FRAME; lia|by apply Z.mod_mul]. Qed.

Lemma round_down x : x / FRAME * FRAME <= x /\ (x / FRAME * FRAME) mod FRAME = 0.
Proof. split; [unfold FRAME; lia|by apply Z.mod_mul]. Qed.

(** a range inside the bytes [lo, hi) *)
Definition within (r : hrange_t) (lo hi : Z) : Prop := lo <= base r /\ base r + frames r * FRAME <= hi.

Section Init.
Context `{HmemEnv}.

Lemma add_range_spec lo hi h : 0 <= lo -> lo < 2 ^ 64 - FRAME -> 0 <= hi < 2 ^ 64 ->
  add_range lo hi h = h \/
  exists r, range_ok r /\ used r = 0 /\ within r lo hi /\ zlen (g_r h) < RANGES /\
    add_range lo hi h = h <| g_r := g_r h ++ [r] |> <| g_total := u64 (g_total h + frames r * FRAME) |>.
Proof.
  intros Hlo Hlo2 Hhi. unfold add_range. set (lo' := if lo <? LOW then LOW else lo). set (hi' := if HIGH <? hi then HIGH else hi).
  assert (Hl : lo <= lo' /\ LOW <= lo' < 2 ^ 64 - FRAME).
  { unfold lo', LOW, FRAME in *. rewrite !Z.shiftl_mul_pow2 by lia. case_bool; zbool; lia. }
  assert (Hh : hi' <= hi /\ hi' <= HIGH /\ 0 <= hi') by (unfold hi', HIGH in *; rewrite !Z.shiftl_mul_pow2 in * by lia; case_bool; zbool; lia).
  unfold LOW, HIGH in Hl, Hh. rewrite Z.shiftl_mul_pow2 in Hl, Hh by lia.
  rewrite frame_up by (unfold FRAME in *; lia). rewrite frame_down by lia. cbv zeta.
  destruct (_ || _) eqn:E; [by left|]. unfold kzalloc. destruct (kzalloc_ok _); [|by left]. destruct (negb _); [by left|]. right. zbool.
  set (a := (lo' + FRAME - 1) / FRAME * FRAME) in *. set (b := hi' / FRAME * FRAME) in *.
  assert (Ha : lo' <= a /\ a mod FRAME = 0) by apply round_up.
  assert (Hb : b <= hi' /\ b mod FRAME = 0) by apply round_down.
  assert (Hn : exists n, b - a = n * FRAME /\ 0 < n < 2 ^ 20) by (exists ((b - a) / FRAME); unfold FRAME in *; lia).
  destruct Hn as (n & Hn & Hn2). rewrite Hn, Z.div_mul by done. rewrite (u32_small n), (u32_small (n + 7)) by (unfold is_u32; lia).
  exists (Hrange a n 0 (replicate (Z.to_nat ((n + 7) / 8)) 0)).
  clearbody a b lo' hi'.
  assert (Hmap : zlen (replicate (Z.to_nat ((n + 7) / 8)) 0) = (n + 7) / 8) by (unfold zlen; rewrite length_replicate; lia).
  split; [|split; [done|split; [|split; [lia|]]]].
  - clear Hlo Hlo2 Hhi. unfold range_ok. cbn [base frames used fmap]. unfold LOW, HIGH. rewrite !Z.shiftl_mul_pow2 by done.

    split; [apply Ha|]. split; [lia|]. split; [lia|]. split; [lia|]. split; [exact Hmap|]. split; [by apply Forall_replicate|].
    rewrite (cnt_const _ false); [done|]. intros i Hi. apply wbit_zeros; lia.
  - unfold within. cbn [base frames]. lia.
  - reflexivity.
Qed.

(** ** The walk of a well-formed block *)

(** what an entry adds *)
Definition take_entry (h : hmem) (e : mmap_entry) : hmem :=
  if (me_type e =? 1) && (LOW <? u64 (me_base e + me_len e)) then add_range (me_base e) (u64 (me_base e + me_len e)) h else h.

Lemma init_entries_read p mm n : n < 2 ^ 32 -> forall es a b fuel pos h,
  p = a ++ concat (map entry_bytes es) ++ b -> zlen a = mm + pos -> 16 <= pos -> n - pos = 24 * zlen es ->
  Forall entry_ok es -> n + 24 < 2 ^ 32 -> (length es < fuel)%nat ->
  init_entries fuel p mm 24 n pos h = Some (foldl take_entry h es).
Proof.
  intros Hn. induction es as [|e es IH]; intros a b fuel pos h Hp Ha Hpos Hlen Hes Hn24 Hf.
  - destruct fuel as [|fuel]; [cbn in Hf; lia|]. cbn [init_entries foldl]. change (zlen []) with 0 in Hlen.
    rewrite u32_small, (proj2 (Z.leb_gt _ _)) by (unfold is_u32; lia). done.
  - destruct fuel as [|fuel]; [cbn in Hf; lia|]. cbn [init_entries map concat foldl] in *.
    rewrite zlen_cons in Hlen. pose proof (zlen_nonneg es). apply Forall_cons in Hes as [(H1 & H2 & H3) Hes].
    rewrite u32_small, (proj2 (Z.leb_le _ _)) by (unfold is_u32; lia). change (24 =? 0) with false. cbn [negb orb].
    unfold entry_bytes at 1 in Hp.
    erewrite (rd64_eq p a (me_base e) _ (mm + pos)); [|in_block|done|done]. cbn [mbind option_bind].
    erewrite (rd64_eq p (a ++ le64 (me_base e)) (me_len e) _ (mm + pos + 8)); [|in_block|block_len|done]. cbn [mbind option_bind].
    erewrite (rd32_eq p ((a ++ le64 (me_base e)) ++ le64 (me_len e)) (me_type e) _ (mm + pos + 16)); [|in_block|block_len|done].
    cbn [mbind option_bind]. fold (take_entry h e).
    apply (IH (a ++ entry_bytes e) b); [unfold entry_bytes at 1; in_block|rewrite zlen_app, zlen_entry; lia|lia|lia|done|done|cbn in Hf; lia].
Qed.

Definition tag_entries (t : mb2_tag) : list mmap_entry := match t with TMmap es => es | _ => [] end.
(** every entry of every memory map, in order *)
Definition all_entries (ts : list mb2_tag) : list mmap_entry := concat (map tag_entries ts).

Lemma init_map_read p a t b n h : p = a ++ tag_bytes t ++ b -> zlen a = n -> tag_ok t -> zlen (tag_bytes t) + 24 < 2 ^ 32 ->
  (if tag_type t =? 6 then
     entry_size ← rd32 p (n + 8);
     init_entries (S (Z.to_nat (zlen (tag_bytes t)))) p n entry_size (zlen (tag_bytes t)) 16 h
   else Some h) = Some (foldl take_entry h (tag_entries t)).
Proof.
  intros Hp Hn Ht Hlen. rewrite zlen_tag in *. destruct t as [lower upper|es|type payload]; [done| |].
  - cbn [tag_type tag_bytes tag_entries] in *. change (6 =? 6) with true. cbv iota. pose proof (zlen_nonneg es).
    erewrite (rd32_eq p ((a ++ le32 6) ++ le32 _) 24 _ (n + 8)); [|in_block|block_len|by unfold is_u32]. cbn [mbind option_bind].
    rewrite (init_entries_read p n (16 + 24 * zlen es) ltac:(lia) es ((((a ++ le32 6) ++ le32 (16 + 24 * zlen es)) ++ le32 24) ++ le32 0) b);
      [done|in_block|block_len|lia|lia|done|lia|unfold zlen in *; lia].
  - destruct Ht as (_ & _ & _ & H6 & _). cbn [tag_type]. by rewrite (proj2 (Z.eqb_neq _ _) H6).
Qed.

Lemma init_tags_read p total : total < 2 ^ 32 -> forall ts a fuel h,
  p = a ++ tags_bytes ts ++ le32 0 ++ le32 8 -> total = zlen p -> 8 <= zlen a -> Forall tag_ok ts -> (length ts < fuel)%nat ->
  total + 24 < 2 ^ 32 -> init_tags fuel p total (zlen a) h = Some (foldl take_entry h (all_entries ts)).
Proof.
  intros Ht. induction ts as [|t ts IH]; intros a fuel h Hp Hlen Ha Hts Hf H24.
  - destruct fuel as [|fuel]; [cbn in Hf; lia|]. cbn [init_tags]. change (tags_bytes []) with (@nil Z) in Hp. cbn [app] in Hp.
    assert (zlen p = zlen a + 8) by (rewrite Hp, !zlen_app, !zlen_le32; lia).
    rewrite u32_small, (proj2 (Z.leb_le _ _)) by (unfold is_u32; lia). cbn [negb].
    erewrite (rd32_eq p a 0 _ (zlen a)); [|in_block|done|by unfold is_u32]. done.
  - destruct fuel as [|fuel]; [cbn in Hf; lia|]. cbn [init_tags]. apply Forall_cons in Hts as [Hok Hts].
    unfold tags_bytes in Hp. cbn [map concat] in Hp. fold (tags_bytes ts) in Hp.
    unfold all_entries. cbn [map concat]. fold (all_entries ts). rewrite foldl_app.
    destruct (tag_head t) as (rest & Hhead). pose proof (zlen_padded t) as Hpad.
    assert (Hsum : zlen p = zlen a + (zlen (tag_bytes t) + 7) / 8 * 8 + zlen (tags_bytes ts) + 8).
    { rewrite Hp, zlen_app, (zlen_app (_ ++ tags_bytes ts)), (zlen_app _ (tags_bytes ts)), Hpad, zlen_app, !zlen_le32. lia. }
    pose proof (zlen_nonneg (tags_bytes ts)). pose proof (tag_long t).
    destruct (tag_type_ok t Hok) as [Htype Hnz].
    rewrite u32_small, (proj2 (Z.leb_le _ _)) by (unfold is_u32; lia). cbn [negb].
    pose proof Hp as Hp'. rewrite Hhead in Hp.
    erewrite (rd32_eq p a (tag_type t) _ (zlen a)); [|in_block|done|done]. cbn [mbind option_bind].
    rewrite (proj2 (Z.eqb_neq _ _) Hnz).
    erewrite (rd32_eq p (a ++ le32 (tag_type t)) (zlen (tag_bytes t)) _ (zlen a + 4)); [|in_block|block_len|unfold is_u32; lia].
    cbn [mbind option_bind]. clear Hp. erewrite (init_map_read p a t); [|in_block|done|done|lia]. cbn [mbind option_bind].
    rewrite lor_not7 by lia. cbv zeta. rewrite (proj2 (Z.ltb_ge _ _)) by lia.
    rewrite u32_small, <- Hpad, <- zlen_app by (unfold is_u32; lia).
    apply IH; [in_block|done|rewrite zlen_app; lia|done|cbn in Hf; lia|done].
Qed.

(** ** The invariant of start-up *)

Definition entry_end (e : mmap_entry) : Z := me_base e + me_len e.
Definition usable_apart (e f : mmap_entry) : Prop := entry_end e <= me_base f \/ entry_end f <= me_base e.

(** no stretch of RAM runs past the end of the address space, and no two overlap *)
Definition sane_map (es : list mmap_entry) : Prop :=
  Forall (fun e => entry_ok e /\ (me_type e = 1 -> entry_end e < 2 ^ 64 - FRAME)) es /\
  forall i j e f, es !! i = Some e -> es !! j = Some f -> me_type e = 1 -> me_type f = 1 -> i <> j -> usable_apart e f.

Definition range_from (r : hrange_t) (es : list mmap_entry) : Prop :=
  exists e, e ∈ es /\ me_type e = 1 /\ within r (me_base e) (entry_end e).

Definition start_ok (es : list mmap_entry) (h : hmem) : Prop :=
  hmem_ok h /\ g_used h = 0 /\ Forall (fun r => range_from r es) (g_r h).

Lemma range_from_app r es e : range_from r es -> range_from r (es ++ [e]).
Proof. intros (x & Hx & Ht & Hw). exists x. split; [|done]. apply elem_of_app. by left. Qed.

Lemma total_bound h : hmem_ok h -> 0 <= g_total h <= 2 ^ 44.
Proof.
  intros (Hl & Hlen & _ & _ & ->). unfold RANGES, FRAME in *.
  assert (Hb : Forall (fun r => 0 <= frames r <= 2 ^ 18) (g_r h)).
  { eapply Forall_impl; [exact Hl|]. intros r Hr. pose proof (range_size r Hr). lia. }
  pose proof (zsum_bound frames _ _ Hb). lia.
Qed.

Lemma append_range h r : hmem_ok h -> range_ok r -> used r = 0 -> zlen (g_r h) < RANGES ->
  Forall (fun s => apart s r) (g_r h) ->
  hmem_ok (h <| g_r := g_r h ++ [r] |> <| g_total := u64 (g_total h + frames r * FRAME) |>).
Proof.
  intros Hh Hr Hu Hlen Hap. pose proof (total_bound h Hh). pose proof (range_size r Hr) as (_ & Hfr & _).
  destruct Hh as (Hl & _ & Hd & Hus & Htot). unfold hmem_ok, set, setter. cbn [g_r g_used g_total]. split; [|split; [|split; [|split]]].
  - apply Forall_app. split; [done|by apply Forall_singleton].
  - rewrite zlen_app. change (zlen [r]) with 1. lia.
  - assert (Hlast : forall i x, (g_r h ++ [r]) !! i = Some x -> g_r h !! i = Some x \/ (i = length (g_r h) /\ x = r)).
    { intros i x Hx. apply lookup_app_Some in Hx as [|[Hi Hx]]; [by left|right].
      destruct (i - length (g_r h))%nat eqn:E; [|done]. injection Hx as <-. split; [lia|done]. }
    intros i j x y Hx Hy Hne.
    destruct (Hlast i x Hx) as [Hi|[-> ->]], (Hlast j y Hy) as [Hj|[-> ->]]; [by apply (Hd i j)| | |done].
    + by apply (Forall_lookup_1 _ _ _ _ Hap Hi).
    + pose proof (Forall_lookup_1 _ _ _ _ Hap Hj) as [|]; unfold apart; lia.
  - rewrite map_app, zsum_app, Hus. cbn [map]. rewrite zsum_cons, Hu. change (zsum []) with 0. lia.
  - rewrite map_app, zsum_app. cbn [map]. rewrite zsum_cons. change (zsum []) with 0.
    pose proof (range_size r Hr) as (Hur & _). rewrite u64_small by (unfold is_u64, FRAME in *; lia). lia.
Qed.

Lemma take_entry_ok es e h : sane_map (es ++ [e]) -> start_ok es h -> start_ok (es ++ [e]) (take_entry h e).
Proof.
  intros (Hes & Hd) (Hh & Hu & Hr). assert (Hr' : Forall (fun r => range_from r (es ++ [e])) (g_r h)).
  { eapply Forall_impl; [exact Hr|]. intros r. apply range_from_app. }
  apply Forall_app in Hes as [_ He]. apply Forall_singleton in He as [(H1 & H2 & _) Hend].
  unfold take_entry. destruct (_ && _) eqn:E; [|by split_and!]. zbool. specialize (Hend ltac:(done)).
  unfold is_u64, entry_end, FRAME in *. rewrite u64_small in * by (unfold is_u64; lia).
  destruct (add_range_spec (me_base e) (me_base e + me_len e) h) as [->|(r & Hok & Hz & Hin & Hroom & ->)];
    [lia|unfold FRAME; lia|lia|by split_and!|].
  assert (Hmem : range_from r (es ++ [e])) by (exists e; split; [apply elem_of_app; right; apply list_elem_of_singleton|]; done).
  split; [apply append_range; try done|].
  - apply Forall_lookup_2. intros i s Hs. pose proof (Forall_lookup_1 _ _ _ _ Hr Hs) as (f & Hf & Hft & Hfin).
    apply list_elem_of_lookup in Hf as (j & Hj). pose proof (lookup_lt_Some _ _ _ Hj).
    destruct (Hd j (length es) f e) as [Hap|Hap]; [by apply lookup_app_l_Some| |done|done|lia|..].
    { rewrite lookup_app_r, Nat.sub_diag by lia. done. }
    all: unfold within, apart, entry_end in *; lia.
  - split; [done|]. unfold set, setter. cbn [g_r]. apply Forall_app. split; [done|]. by apply Forall_singleton.
Qed.

Lemma take_entries_ok es : forall done h, sane_map (done ++ es) -> start_ok done h ->
  start_ok (done ++ es) (foldl take_entry h es).
Proof.
  induction es as [|e es IH]; intros dn h Hs Hh; cbn [foldl]; [by rewrite app_nil_r|].
  replace (dn ++ e :: es) with ((dn ++ [e]) ++ es) in * by (by rewrite <- app_assoc). apply IH; [done|].
  apply take_entry_ok; [|done]. destruct Hs as [Hf Hd]. apply Forall_app in Hf as [Hf _]. split; [done|].
  intros i j x y Hx Hy. apply Hd; by apply lookup_app_l_Some.
Qed.

(** C30: start-up on a well-formed boot information block whose memory map does not overlap itself ends with
    the allocator's invariant established and nothing in use, and every stretch it may hand out lies inside
    an entry the firmware listed as usable RAM. *)
Theorem hmem_init_spec ts : Forall tag_ok ts -> zlen (mb2_block ts) + 24 < 2 ^ 32 -> sane_map (all_entries ts) ->
  exists h, hmem_init (Some (mb2_block ts)) hmem_zero = Some h /\ hmem_ok h /\ hmem_used_bytes h = 0 /\
    Forall (fun r => range_from r (all_entries ts)) (g_r h).
Proof.
  intros Hts Hlen Hsane. exists (foldl take_entry hmem_zero (all_entries ts)). split.
  - set (p := mb2_block ts) in *.
    assert (Hp : p = (le32 (16 + zlen (tags_bytes ts)) ++ le32 0) ++ tags_bytes ts ++ le32 0 ++ le32 8)
      by (unfold p, mb2_block; by rewrite <- !app_assoc).
    assert (Htotal : zlen p = 16 + zlen (tags_bytes ts)) by (rewrite Hp, !zlen_app, !zlen_le32; lia).
    pose proof (zlen_nonneg (tags_bytes ts)). unfold hmem_init.
    erewrite (rd32_eq p [] (16 + zlen (tags_bytes ts)) _ 0); [|in_block|done|unfold is_u32; lia]. cbn [mbind option_bind].
    pose proof (init_tags_read p (16 + zlen (tags_bytes ts)) ltac:(lia) ts _ (S (Z.to_nat (16 + zlen (tags_bytes ts)))) hmem_zero Hp
      ltac:(lia) ltac:(by cbn) Hts) as Hread. rewrite zlen_app, !zlen_le32 in Hread. change (4 + 4) with 8 in Hread.
    apply Hread; [|lia]. pose proof (tags_long ts). unfold zlen in *. lia.
  - apply (take_entries_ok _ [] hmem_zero Hsane). split; [|split; [done|constructor]].
    split_and!; [constructor|done|by intros ? ? ? ?|done|done].
Qed.
End Init.

(** ** Witness: 1 GiB above 4 GiB, which the memory map lists unaligned *)

#[export] Instance roomy : HmemEnv := {| kzalloc_ok := fun _ => true; paging_map_ram := fun _ _ => true |}.

Definition high_tags : list mb2_tag :=
  [TMmap [{| me_base := 0x100000; me_len := 0xBFF00000; me_type := 1 |};
          {| me_base := 0x100001000; me_len := 0x40000000; me_type := 1 |}]].

Lemma high_tags_ok : Forall tag_ok high_tags.
Proof.
  apply Forall_singleton. cbn. unfold entry_ok, is_u32, is_u64. cbn. repeat (apply Forall_cons || split); try apply Forall_nil_2; done.
Qed.

Lemma high_tags_sane : sane_map (all_entries high_tags).
Proof.
  pose proof high_tags_ok as H%Forall_singleton. cbn in H. apply Forall_cons in H as [H1 H%Forall_singleton]. split.
  - repeat (apply Forall_cons || split || apply Forall_nil_2); done.
  - intros [|[|i]] [|[|j]] e f He Hf _ _ Hne; try done; injection He as <-; injection Hf as <-; [by left|by right].
Qed.

Lemma hmem_init_spec_witness :
  (exists h, hmem_init (Some (mb2_block high_tags)) hmem_zero = Some h /\ hmem_ok h /\ hmem_used_bytes h = 0 /\
    Forall (fun r => range_from r (all_entries high_tags)) (g_r h)) /\
  option_map hmem_total_bytes (hmem_init (Some (mb2_block high_tags)) hmem_zero) = Some (511 * FRAME).
Proof. split; [exact (hmem_init_spec high_tags high_tags_ok eq_refl high_tags_sane)|vm_compute; reflexivity]. Defined.
