(* ===== verification/Upage.v ===== *)
(** * 4 KiB pages for apps (kernel/upage.c)

    Chunks of up to 512 pages, each with a bitmap of the pages handed out and
    a count of references past the first. Where the chunks come from - frames
    above 4 GiB ([Hmem]) first, else the kernel heap - is the class [UpageEnv].

    [alloc] holds the lock in two separate sections, [alloc_begin] and
    [alloc_end], between which other processors run, and makes a chunk between
    them with no lock ([make_step]); upage_free gives an empty chunk back after
    its section ([free_locked]); the other calls are one section each. *)

From S2P Require Import Prelude LeBytes.

Definition CHUNK : Z := 2 * 1024 * 1024.
Definition PER : Z := CHUNK / 4096.

(** pchunk_t; [next] is the order of the list *)
Record pchunk_t := Pchunk {
  base : Z; npages : Z; used : list Z; extra : list Z; nused : Z; high : bool;
}.
#[export] Instance pchunk_eta : Eta pchunk_t := fun c =>
  Pchunk (base c) (npages c) (used c) (extra c) (nused c) (high c).
#[export] Instance pchunk_inhabited : Inhabited pchunk_t := populate (Pchunk 0 0 [] [] 0 false).

(** what the allocator calls, over a state [M] of its own:
    kzalloc(sizeof(pchunk_t)) finding room and kfree(c), hmem_alloc(1) and
    hmem_free, kmalloc_aligned and kfree of pages, the heap's counts *)
Class UpageEnv (M : Type) := {
  chunk_kzalloc : M -> bool * M;
  chunk_kfree : M -> M;
  frame_alloc : M -> Z * M;
  frame_free : Z -> M -> M;
  pages_kmalloc : Z -> M -> Z * M;
  pages_kfree : Z -> M -> M;
  kheap_total_bytes : M -> Z;
  kheap_used_bytes : M -> Z;
}.

Section Upage.
Context {M : Type} `{UpageEnv M}.

Record upage := Upages { g_chunks : list pchunk_t; g_used : Z; g_held : Z; mem : M }.
#[export] Instance upage_eta : Eta upage := fun u => Upages (g_chunks u) (g_used u) (g_held u) (mem u).

(** ** Chunks *)

Definition sizes : list Z := [PER; 64; 16].

Definition spare (m : M) : Z :=
  let total := kheap_total_bytes m in
  let used := kheap_used_bytes m in
  let keep := if Z.shiftl 4 20 <? total / 32 then total / 32 else Z.shiftl 4 20 in
  if keep <? u32 (total - used) then u32 (u32 (total - used) - keep) else 0.

(** [for (k = 0; !mem && k < 3; k++)]: the address and the pages of what was found *)
Fixpoint heap_chunk (sizes : list Z) (avail mem npages : Z) (m : M) : Z * Z * M :=
  match sizes with
  | [] => (mem, npages, m)
  | n :: sizes =>
      if negb (mem =? 0) then (mem, npages, m)
      else if avail <? n * 4096 then heap_chunk sizes avail mem npages m
      else let '(mem, m) := pages_kmalloc (n * 4096) m in heap_chunk sizes avail mem n m
  end.

(** the pages from [i] on, marked in use *)
Fixpoint mark_tail (n : nat) (used : list Z) (i : Z) : list Z :=
  match n with
  | O => used
  | S n => mark_tail n (aset used (i / 64) (Z.lor (aget used (i / 64)) (Z.shiftl 1 (i mod 64)))) (i + 1)
  end.

(** a new chunk of [npages] pages at [mem] *)
Definition blank (mem npages : Z) (high : bool) : pchunk_t :=
  Pchunk mem npages (mark_tail (Z.to_nat (PER - npages)) (replicate (Z.to_nat (PER / 64)) 0) npages)
    (replicate (Z.to_nat PER) 0) 0 high.

Definition new_chunk (m : M) : option pchunk_t * M :=
  let '(ok, m) := chunk_kzalloc m in
  if negb ok then (None, m)
  else
    let '(mem, m) := frame_alloc m in
    let high := negb (mem =? 0) in
    let '(mem, npages, m) := heap_chunk sizes (spare m) mem PER m in
    if mem =? 0 then (None, chunk_kfree m)
    else
      (Some (blank mem npages high), m).

(** new_chunk holds no lock: other processors run between what it calls, and
    these are the places where it can be *)
Inductive make_t : Type :=
  | Kzalloc
  | Frame
  | Spare
  | Heap (sizes : list Z) (avail : Z).

(** from one to the next, or to its end *)
Definition make_step (s : make_t) (m : M) : (make_t + option pchunk_t) * M :=
  match s with
  | Kzalloc => let '(ok, m) := chunk_kzalloc m in (if ok then inl Frame else inr None, m)
  | Frame => let '(mem, m) := frame_alloc m in (if mem =? 0 then inl Spare else inr (Some (blank mem PER true)), m)
  | Spare => (inl (Heap sizes (spare m)), m)
  | Heap [] _ => (inr None, chunk_kfree m)
  | Heap (n :: l) avail =>
      if avail <? n * 4096 then (inl (Heap l avail), m)
      else let '(mem, m) := pages_kmalloc (n * 4096) m in
           (if mem =? 0 then inl (Heap l avail) else inr (Some (blank mem n false)), m)
  end.

Definition free_chunk (c : pchunk_t) (m : M) : M :=
  chunk_kfree (if high c then frame_free (base c) m else pages_kfree (base c) m).

(** ** Handing out a page *)

Definition RESERVE : Z := 16.

(** the first chunk with a free page *)
Fixpoint find_room (l : list pchunk_t) (i : nat) : option nat :=
  match l with
  | [] => None
  | c :: l => if nused c =? npages c then find_room l (S i) else Some i
  end.

(** the first clear bit: [for (w = 0; w < PER / 64; w++)] *)
Fixpoint free_bit (words : list Z) (w : Z) : option Z :=
  match words with
  | [] => None
  | x :: words => if x =? u64 (Z.lnot 0) then free_bit words (w + 1) else Some (w * 64 + ctz (u64 (Z.lnot x)))
  end.

(** the rest of [alloc], from chunk [i] *)
Definition take_page (i : nat) (u : upage) : Z * upage :=
  let c := g_chunks u !!! i in
  match free_bit (used c) 0 with
  | None => (0, u)
  | Some k =>
      let c' := c <| used := aset (used c) (k / 64) (Z.lor (aget (used c) (k / 64)) (Z.shiftl 1 (k mod 64))) |>
                  <| nused := u32 (nused c + 1) |> in
      (u64 (base c + k * 4096), u <| g_chunks ::= fun l => <[i := c']> l |> <| g_used ::= fun n => u64 (n + 4096) |>)
  end.

(** where the first locked section leaves the call: a page (or none), or a
    chunk to make, with the chunk it had found *)
Inductive alloc_state : Type :=
  | Page (p : Z)
  | NeedChunk (c : option nat).

Definition alloc_begin (reserve : bool) (u : upage) : alloc_state * upage :=
  match find_room (g_chunks u) 0 with
  | Some i =>
      if negb reserve && (u64 (g_held u - g_used u) <=? RESERVE * 4096) then (NeedChunk (Some i), u)
      else let '(p, u) := take_page i u in (Page p, u)
  | None => (NeedChunk None, u)
  end.

(** the second one, with the chunk [n] that new_chunk made; [c] is NULL or,
    for a caller without the reserve, not used again *)
Definition alloc_end (reserve : bool) (c : option nat) (n : option pchunk_t) (u : upage) : Z * upage :=
  match n with
  | Some n => take_page 0 (u <| g_chunks ::= cons n |> <| g_held ::= fun h => u64 (h + npages n * 4096) |>)
  | None =>
      match c with
      | Some i => if negb reserve then (0, u) else take_page i u
      | None => (0, u)
      end
  end.

Definition alloc (reserve : bool) (u : upage) : Z * upage :=
  match alloc_begin reserve u with
  | (Page p, u) => (p, u)
  | (NeedChunk c, u) =>
      let '(n, m) := new_chunk (mem u) in
      alloc_end reserve c n (u <| mem := m |>)
  end.

Definition upage_alloc (u : upage) : Z * upage := alloc false u.
Definition upage_alloc_reserve (u : upage) : Z * upage := alloc true u.

(** ** References *)

Definition in_chunk (c : pchunk_t) (a : Z) : bool :=
  negb ((a <? base c) || (u64 (base c + npages c * 4096) <=? a)).
Definition page_index (c : pchunk_t) (a : Z) : Z := u32 ((a - base c) / 4096).
Definition page_used (c : pchunk_t) (i : Z) : bool :=
  negb (Z.land (aget (used c) (i / 64)) (Z.shiftl 1 (i mod 64)) =? 0).

(** the chunk that [a] lies in, at its place in the list *)
Fixpoint chunk_at (l : list pchunk_t) (a : Z) (k : nat) : option (nat * pchunk_t) :=
  match l with
  | [] => None
  | c :: l => if in_chunk c a then Some (k, c) else chunk_at l a (S k)
  end.

Definition chunk_of (u : upage) (a : Z) : option (nat * pchunk_t * Z) :=
  match chunk_at (g_chunks u) a 0 with
  | Some (k, c) => let i := page_index c a in if page_used c i then Some (k, c, i) else None
  | None => None
  end.

Definition upage_ref (p : Z) (u : upage) : Z * upage :=
  match chunk_of u p with
  | Some (k, c, i) =>
      if aget (extra c) i <? 0xFFFF then
        (0, u <| g_chunks ::= fun l => <[k := c <| extra ::= fun x => aset x i (aget x i + 1) |>]> l |>)
      else (-1, u)
  | None => (-1, u)
  end.

Definition upage_refs (p : Z) (u : upage) : Z :=
  match chunk_of u p with
  | Some (_, c, i) => u32 (1 + aget (extra c) i)
  | None => 0
  end.

(** page [i]'s bit cleared, and the count *)
Definition clear_page (c : pchunk_t) (i : Z) : pchunk_t :=
  c <| used := aset (used c) (i / 64) (Z.land (aget (used c) (i / 64)) (u64 (Z.lnot (Z.shiftl 1 (i mod 64))))) |>
    <| nused := u32 (nused c - 1) |>.

(** the locked section of upage_free; with a chunk that is empty then and out
    of the list: it goes back to the system once the lock is free *)
Definition free_locked (p : Z) (u : upage) : upage * option pchunk_t :=
  match chunk_at (g_chunks u) p 0 with
  | None => (u, None)
  | Some (k, c) =>
      let i := page_index c p in
      if negb (page_used c i) then (u, None)
      else if negb (aget (extra c) i =? 0) then
        (u <| g_chunks ::= fun l => <[k := c <| extra ::= fun x => aset x i (u16 (aget x i - 1)) |>]> l |>, None)
      else
        let c := clear_page c i in
        let u := u <| g_used ::= fun n => u64 (n - 4096) |> in
        if nused c =? 0 then (u <| g_chunks ::= delete k |> <| g_held ::= fun h => u64 (h - npages c * 4096) |>, Some c)
        else if negb (k =? 0)%nat then (u <| g_chunks ::= fun l => c :: delete k l |>, None)
        else (u <| g_chunks ::= fun l => <[k := c]> l |>, None)
  end.

Definition upage_free (p : Z) (u : upage) : upage :=
  let '(u, drop) := free_locked p u in
  match drop with Some c => u <| mem ::= free_chunk c |> | None => u end.

Definition upage_used_bytes (u : upage) : Z := g_used u.
Definition upage_held_bytes (u : upage) : Z := g_held u.
End Upage.
#[global] Arguments upage : clear implicits.
