(* ===== verification/UpageProps.v ===== *)
(** * Pages for apps: reference counts over every interleaving

    [upage_refs] is the abstract view: how many references a page has. The
    steps of callers that run at once are a transition relation, and the
    counts agree with it after every run. Then [Hmem] discharges the
    interface [UpageLaws]: pages come from the frames above 4 GiB. *)

From S2P Require Import Prelude LeBytes Hmem HmemProps Upage.

(** ** What the allocator relies on

    [given m a] is the region that the sources have handed out at [a]: whether
    it is a frame above 4 GiB, and its length. *)

Section Laws.
Context {M : Type} `{UpageEnv M}.

Definition same_given (given : M -> Z -> option (bool * Z)) (m m' : M) : Prop := forall b, given m' b = given m b.

Definition new_region (given : M -> Z -> option (bool * Z)) (m m' : M) (high : bool) (a len : Z) : Prop :=
  0 < a /\ a mod 4096 = 0 /\ a + len < 2 ^ 64 /\ given m a = None /\
  forall b, given m' b = if b =? a then Some (high, len) else given m b.
End Laws.

Class UpageLaws (M : Type) `{UpageEnv M} := {
  env_ok : M -> Prop;
  given : M -> Z -> option (bool * Z);
  given_apart : forall m a b x y l k, env_ok m -> given m a = Some (x, l) -> given m b = Some (y, k) -> a <> b ->
    a + l <= b \/ b + k <= a;
  law_kzalloc : forall m ok m', env_ok m -> chunk_kzalloc m = (ok, m') -> env_ok m' /\ same_given given m m';
  law_kfree : forall m, env_ok m -> env_ok (chunk_kfree m) /\ same_given given m (chunk_kfree m);
  law_frame_alloc : forall m a m', env_ok m -> frame_alloc m = (a, m') ->
    env_ok m' /\ ((a = 0 /\ same_given given m m') \/ new_region given m m' true a (PER * 4096));
  law_frame_free : forall m a, env_ok m -> given m a = Some (true, PER * 4096) ->
    env_ok (frame_free a m) /\ forall b, given (frame_free a m) b = if b =? a then None else given m b;
  law_kmalloc : forall m n a m', env_ok m -> 0 < n < 2 ^ 32 -> pages_kmalloc n m = (a, m') ->
    env_ok m' /\ ((a = 0 /\ same_given given m m') \/ new_region given m m' false a n);
  given_high : forall m a n, env_ok m -> given m a = Some (true, n) -> n = PER * 4096;
  law_pages_kfree : forall m a n, env_ok m -> given m a = Some (false, n) ->
    env_ok (pages_kfree a m) /\ forall b, given (pages_kfree a m) b = if b =? a then None else given m b;
}.

(** ** Bits of a chunk *)

Lemma land_bit x i : 0 <= i -> negb (Z.land x (Z.shiftl 1 i) =? 0) = Z.testbit x i.
Proof.
  intros Hi. destruct (Z.testbit x i) eqn:E.
  - apply negb_true_iff, Z.eqb_neq. intros Hz. apply (f_equal (fun y => Z.testbit y i)) in Hz.
    by rewrite Z.land_spec, E, Z.shiftl_1_l, Z.pow2_bits_true, Z.bits_0 in Hz by done.
  - apply negb_false_iff, Z.eqb_eq. apply Z.bits_inj'. intros j Hj.
    rewrite Z.land_spec, Z.shiftl_1_l, Z.pow2_bits_eqb, Z.bits_0 by done.
    destruct (i =? j) eqn:Ej; zbool; [subst; by rewrite E|apply andb_false_r].
Qed.

Lemma page_used_bit c i : page_used c i = wbit 64 (used c) i.
Proof. unfold page_used, wbit. apply land_bit. apply Z.mod_pos_bound. lia. Qed.

Lemma clear_word x i : 0 <= i < 64 -> is_u64 x -> Z.land x (u64 (Z.lnot (Z.shiftl 1 i))) = Z.ldiff x (Z.shiftl 1 i).
Proof.
  intros Hi Hx. rewrite Z.ldiff_land. apply Z.bits_inj'. intros j Hj. rewrite !Z.land_spec.
  destruct (decide (j < 64)); [unfold u64; by rewrite Z.mod_pow2_bits_low|].
  by rewrite (testbit_above 64 x) by (unfold is_u64 in *; lia).
Qed.

Lemma not_word x : is_u64 x -> x <> u64 (Z.lnot 0) -> 0 < u64 (Z.lnot x) /\
  forall i, 0 <= i -> Z.testbit (u64 (Z.lnot x)) i = (i <? 64) && negb (Z.testbit x i).
Proof.
  unfold is_u64. intros Hx Hne. change (u64 (Z.lnot 0)) with (2 ^ 64 - 1) in Hne.
  split.
  - unfold u64. replace (Z.lnot x) with (- x - 1) by (unfold Z.lnot; lia). lia.
  - intros i Hi. unfold u64. destruct (i <? 64) eqn:E; zbool; cbn [andb].
    + rewrite Z.mod_pow2_bits_low by lia. by apply Z.lnot_spec.
    + by rewrite Z.mod_pow2_bits_high by lia.
Qed.

Lemma free_bit_spec ws : forall w, words 64 ws ->
  match free_bit ws w with
  | Some k => 0 <= k - w * 64 < 64 * zlen ws /\ wbit 64 ws (k - w * 64) = false
  | None => forall i, 0 <= i < 64 * zlen ws -> wbit 64 ws i = true
  end.
Proof.
  induction ws as [|x ws IH]; intros w Hws; cbn [free_bit]; [change (zlen (@nil Z)) with 0; intros; lia|].
  apply Forall_cons in Hws as [Hx Hws]. pose proof (zlen_nonneg ws). rewrite zlen_cons.
  assert (Hhead : forall i, 0 <= i < 64 -> wbit 64 (x :: ws) i = Z.testbit x i).
  { intros i Hi. unfold wbit. rewrite Z.div_small, Z.mod_small by lia. done. }
  assert (Htail : forall i, 64 <= i -> wbit 64 (x :: ws) i = wbit 64 ws (i - 64)).
  { intros i Hi. unfold wbit. replace i with (i - 64 + 1 * 64) at 1 2 by lia. rewrite Z.div_add, Z.mod_add by lia.
    unfold aget. replace (Z.to_nat ((i - 64) / 64 + 1)) with (S (Z.to_nat ((i - 64) / 64))) by lia. done. }
  destruct (x =? u64 (Z.lnot 0)) eqn:E; zbool.
  - specialize (IH (w + 1) Hws). destruct (free_bit ws (w + 1)) as [k|].
    + destruct IH as [Hk Hb]. split; [lia|]. rewrite Htail by lia. by replace (k - w * 64 - 64) with (k - (w + 1) * 64) by lia.
    + intros i Hi. destruct (decide (i < 64)); [|rewrite Htail by lia; apply IH; lia].
      rewrite Hhead, E by lia. change (u64 (Z.lnot 0)) with (Z.ones 64). apply Z.ones_spec_low. lia.
  - destruct (not_word x Hx E) as [Hpos Hbits]. destruct (ctz_spec _ Hpos) as (Hset & Hnn & _).
    rewrite Hbits in Hset by done. zbool. replace (w * 64 + ctz _ - w * 64) with (ctz (u64 (Z.lnot x))) by lia.
    split; [lia|]. by rewrite Hhead by lia.
Qed.

Lemma mark_tail_spec n : forall ws i, words 64 ws -> 0 <= i -> i + Z.of_nat n <= 64 * zlen ws ->
  words 64 (mark_tail n ws i) /\ zlen (mark_tail n ws i) = zlen ws /\
  forall j, 0 <= j -> wbit 64 (mark_tail n ws i) j = if (i <=? j) && (j <? i + Z.of_nat n) then true else wbit 64 ws j.
Proof.
  induction n as [|n IH]; intros ws i Hws Hi Hn; cbn [mark_tail].
  - split_and!; [done..|]. intros j Hj. destruct (_ && _) eqn:E; zbool; [lia|done].
  - change (aset ws (i / 64) _) with (wset 64 ws i true).
    destruct (IH (wset 64 ws i true) (i + 1)) as (H1 & H2 & H3); [apply words_wset; [lia|done|lia]|lia|rewrite zlen_wset; lia|].
    rewrite zlen_wset in H2. split_and!; [done..|]. intros j Hj. rewrite H3, wbit_wset by lia. zcases; done || lia.
Qed.

(** ** The invariant *)

Definition chunk_ok (c : pchunk_t) : Prop :=
  (0 < base c /\ base c mod 4096 = 0 /\ base c + npages c * 4096 < 2 ^ 64) /\ 0 < npages c <= PER /\
  (words 64 (used c) /\ zlen (used c) = PER / 64) /\ (Forall is_u16 (extra c) /\ zlen (extra c) = PER) /\
  (forall i, npages c <= i < PER -> wbit 64 (used c) i = true) /\
  (forall i, 0 <= i < npages c -> wbit 64 (used c) i = false -> aget (extra c) i = 0) /\
  nused c = cnt (wbit 64 (used c)) 0 (Z.to_nat (npages c)).

(** the references to the page that [a] lies in *)
Definition crefs (c : pchunk_t) (a : Z) : Z :=
  let i := (a - base c) / 4096 in if wbit 64 (used c) i then 1 + aget (extra c) i else 0.

Definition spans (c : pchunk_t) (a : Z) : Prop := base c <= a < base c + npages c * 4096.

Lemma in_chunk_spans c a : chunk_ok c -> in_chunk c a = true <-> spans c a.
Proof.
  intros ((H1 & H2 & H3) & H4 & _). unfold in_chunk, spans. rewrite u64_small by (unfold is_u64; lia).
  rewrite negb_true_iff, orb_false_iff, Z.ltb_ge, Z.leb_gt. lia.
Qed.

Lemma index_range c a : chunk_ok c -> spans c a -> page_index c a = (a - base c) / 4096 /\ 0 <= (a - base c) / 4096 < npages c.
Proof.
  intros (_ & H4 & _). unfold spans, page_index, PER, CHUNK in *. intros Ha.
  rewrite u32_small by (unfold is_u32; lia). split; [done|lia].
Qed.

Section Inv.
Context {M : Type} `{UpageLaws M}.

Definition from_env (m : M) (c : pchunk_t) : Prop := given m (base c) = Some (high c, npages c * 4096).

(** [l]: the chunks in the list and those that calls have made and not put in it yet *)
Definition chunks_ok (m : M) (l : list pchunk_t) : Prop :=
  env_ok m /\ Forall chunk_ok l /\ Forall (from_env m) l /\ NoDup (map base l).

Definition counts_ok (u : upage M) : Prop :=
  g_used u = u64 (zsum (map nused (g_chunks u)) * 4096) /\ g_held u = u64 (zsum (map npages (g_chunks u)) * 4096).

Definition upage_base (u : upage M) (pend : list pchunk_t) : Prop :=
  chunks_ok (mem u) (g_chunks u ++ pend) /\ counts_ok u /\ Forall (fun c => nused c = 0) pend.

(** a chunk in the list has a page in use *)
Definition upage_inv (u : upage M) (pend : list pchunk_t) : Prop :=
  upage_base u pend /\ Forall (fun c => 0 < nused c) (g_chunks u).

(** ** The reference count of an address is a sum over the chunks *)

Definition point (a : Z) (c : pchunk_t) : Z := if in_chunk c a then crefs c a else 0.
Definition total_refs (l : list pchunk_t) (a : Z) : Z := zsum (map (point a) l).

Lemma chunk_at_some l a : forall k k' c, chunk_at l a k = Some (k', c) ->
  exists i, k' = (k + i)%nat /\ l !! i = Some c /\ in_chunk c a = true.
Proof.
  induction l as [|c0 l IH]; intros k k' c Hc; [done|]. cbn [chunk_at] in Hc. destruct (in_chunk c0 a) eqn:E.
  - injection Hc as <- <-. exists O. split_and!; [lia|done|done].
  - apply IH in Hc as (i & -> & Hi & Hin). exists (S i). split_and!; [lia|done|done].
Qed.

Lemma chunk_at_none l a : forall k, chunk_at l a k = None -> Forall (fun c => in_chunk c a = false) l.
Proof.
  induction l as [|c0 l IH]; intros k Hc; [constructor|]. cbn [chunk_at] in Hc. destruct (in_chunk c0 a) eqn:E; [done|].
  apply Forall_cons. split; [done|by eapply IH].
Qed.

Lemma one_chunk m l a i j c d : chunks_ok m l -> l !! i = Some c -> l !! j = Some d ->
  in_chunk c a = true -> in_chunk d a = true -> i = j.
Proof.
  intros (Hm & Hl & Hg & Hnd) Hi Hj Hc Hd. destruct (decide (i = j)) as [|Hne]; [done|exfalso].
  pose proof (Forall_lookup_1 _ _ _ _ Hl Hi) as Oc. pose proof (Forall_lookup_1 _ _ _ _ Hl Hj) as Od.
  apply in_chunk_spans in Hc; [|done]. apply in_chunk_spans in Hd; [|done].
  assert (Hb : base c <> base d).
  { intros Hb. apply Hne. eapply NoDup_lookup; [exact Hnd| |]; rewrite list_lookup_fmap; [by rewrite Hi|rewrite Hj; cbn; by rewrite Hb]. }
  pose proof (Forall_lookup_1 _ _ _ _ Hg Hi) as Gc. pose proof (Forall_lookup_1 _ _ _ _ Hg Hj) as Gd.
  unfold from_env, spans in *. destruct (given_apart _ _ _ _ _ _ _ Hm Gc Gd Hb); lia.
Qed.

Lemma zsum_zero {A} (g : A -> Z) l : Forall (fun x => g x = 0) l -> zsum (map g l) = 0.
Proof. induction 1 as [|x l Hx _ IH]; [done|]. cbn [map]. rewrite zsum_cons. lia. Qed.

Lemma zsum_single {A} (g : A -> Z) l i x : l !! i = Some x ->
  (forall j y, l !! j = Some y -> j <> i -> g y = 0) -> zsum (map g l) = g x.
Proof.
  revert i. induction l as [|z l IH]; intros i Hi Hz; [done|]. cbn [map]. rewrite zsum_cons. destruct i as [|i].
  - injection Hi as ->. rewrite zsum_zero; [lia|]. apply Forall_lookup_2. intros j y Hj. by apply (Hz (S j)).
  - rewrite (Hz O z), (IH i Hi); [lia| |done|done]. intros j y Hj Hne. apply (Hz (S j)); [done|lia].
Qed.

Lemma refs_sum u pend a : upage_base u pend -> upage_refs a u = total_refs (g_chunks u) a.
Proof.
  intros (Hok & _ & _). unfold upage_refs, chunk_of, total_refs.
  destruct (chunk_at (g_chunks u) a 0) as [[k c]|] eqn:E.
  - apply chunk_at_some in E as (i & -> & Hi & Hin).
    assert (Hi' : (g_chunks u ++ pend) !! i = Some c) by (by apply lookup_app_l_Some).
    assert (Oc : chunk_ok c) by (by apply (Forall_lookup_1 _ _ _ _ (proj1 (proj2 Hok)) Hi')).
    pose proof (proj1 (in_chunk_spans c a Oc) Hin) as Hs. destruct (index_range c a Oc Hs) as (Hx & Hr).
    rewrite (zsum_single _ _ i c Hi).
    + cbv zeta. unfold point. rewrite Hin. unfold crefs. rewrite page_used_bit, Hx. cbv zeta.
      destruct (wbit _ _ _); [|done]. destruct Oc as (_ & H4 & _ & (He & Hel) & _). apply u32_small.
      assert (is_u16 (aget (extra c) ((a - base c) / 4096))) as Hu.
      { unfold aget. destruct (lookup_lt_is_Some_2 (extra c) (Z.to_nat ((a - base c) / 4096))) as [x Hx'];
          [unfold zlen, PER, CHUNK in *; lia|]. rewrite (list_lookup_total_correct _ _ _ Hx'). by eapply Forall_lookup_1. }
      unfold is_u32, is_u16 in *. lia.
    + intros j d Hj Hne. unfold point. destruct (in_chunk d a) eqn:Ed; [|done].
      exfalso. apply Hne. eapply (one_chunk _ _ a); [done|by apply lookup_app_l_Some|done|done|done].
  - symmetry. apply zsum_zero. apply chunk_at_none in E. eapply Forall_impl; [exact E|].
    intros c Hc. cbn. unfold point. by rewrite Hc.
Qed.

(** ** Changing one chunk, and the order of the list *)

Lemma u64_add x y : u64 (u64 x + y) = u64 (x + y).
Proof. apply Zplus_mod_idemp_l. Qed.

Lemma upage_base_perm l u pend : l ≡ₚ g_chunks u -> upage_base u pend -> upage_base (u <| g_chunks := l |>) pend.
Proof.
  intros Hp ((Hm & Hl & Hg & Hnd) & (Hu & Hh) & Hf). unfold upage_base, chunks_ok, counts_ok, set, setter.
  cbn [g_chunks g_used g_held mem].
  assert (Hpp : l ++ pend ≡ₚ g_chunks u ++ pend) by (by apply Permutation_app_tail).
  assert (zsum (map nused l) = zsum (map nused (g_chunks u))) as -> by (by apply zsum_perm, Permutation_map).
  assert (zsum (map npages l) = zsum (map npages (g_chunks u))) as -> by (by apply zsum_perm, Permutation_map).
  symmetry in Hpp. apply (Permutation_Forall Hpp) in Hl.
  apply (Permutation_Forall Hpp) in Hg. apply NoDup_ListNoDup, (Permutation_NoDup (Permutation_map base Hpp)), NoDup_ListNoDup in Hnd.
  exact (conj (conj Hm (conj Hl (conj Hg Hnd))) (conj (conj Hu Hh) Hf)).
Qed.

Definition same_place (c c' : pchunk_t) : Prop := base c' = base c /\ npages c' = npages c /\ high c' = high c.

Lemma upage_base_update u pend i c c' used' : upage_base u pend -> g_chunks u !! i = Some c -> chunk_ok c' -> same_place c c' ->
  used' = u64 (g_used u + (nused c' - nused c) * 4096) ->
  upage_base (u <| g_chunks := <[i := c']> (g_chunks u) |> <| g_used := used' |>) pend.
Proof.
  intros ((Hm & Hl & Hg & Hnd) & (Hu & Hh) & Hf) Hi Hc' (Hb & Hn & Hhi) ->.
  unfold upage_base, chunks_ok, counts_ok, set, setter. cbn [g_chunks g_used g_held mem].
  apply Forall_app in Hl as [Hl Hlp]. apply Forall_app in Hg as [Hg Hgp]. rewrite !Forall_app, map_app in *.
  assert (Hbase : map base (<[i:=c']> (g_chunks u)) = map base (g_chunks u)).
  { change (map base) with (stdpp.base.fmap (M := list) base). rewrite list_fmap_insert, Hb. apply list_insert_id. by rewrite list_lookup_fmap, Hi. }
  rewrite Hbase, (zsum_update nused _ _ c), (zsum_update npages _ _ c), Hn by done.
  split; [split; [done|split; [|split; [|done]]]|split; [split|done]].
  - split; [by apply Forall_insert|done].
  - split; [|done]. apply Forall_insert; [done|]. unfold from_env. rewrite Hb, Hn, Hhi. by apply (Forall_lookup_1 _ _ _ _ Hg Hi).
  - rewrite Hu, u64_add. f_equal. lia.
  - rewrite Hh. f_equal. lia.
Qed.

Lemma total_refs_update l i c c' a : l !! i = Some c -> total_refs (<[i := c']> l) a = total_refs l a - point a c + point a c'.
Proof. apply zsum_update. Qed.

Lemma chunk_at_place c c' a : same_place c c' -> in_chunk c' a = in_chunk c a.
Proof. intros (Hb & Hn & _). unfold in_chunk. by rewrite Hb, Hn. Qed.

Lemma total_at u pend i c a : upage_base u pend -> g_chunks u !! i = Some c -> in_chunk c a = true ->
  total_refs (g_chunks u) a = crefs c a.
Proof.
  intros (Hok & _ & _) Hi Hin. unfold total_refs. rewrite (zsum_single _ _ i c Hi); [unfold point; by rewrite Hin|].
  intros j d Hj Hne. unfold point. destruct (in_chunk d a) eqn:Ed; [|done].
  exfalso. apply Hne. eapply (one_chunk _ _ a); [done|by apply lookup_app_l_Some|by apply lookup_app_l_Some|done|done].
Qed.

(** a chunk whose page [k] changes *)
Lemma point_change c c' k a : chunk_ok c -> same_place c c' -> 0 <= k < npages c ->
  (forall i, 0 <= i < npages c -> i <> k -> wbit 64 (used c') i = wbit 64 (used c) i /\ aget (extra c') i = aget (extra c) i) ->
  point a c' = if a / 4096 =? (base c + k * 4096) / 4096 then crefs c' (base c + k * 4096) else point a c.
Proof.
  intros Hc Hp Hk Hsame. unfold point. rewrite (chunk_at_place c c' a Hp). destruct Hp as (Hb & Hn & _).
  pose proof (in_chunk_spans c a Hc) as Hs. unfold spans in Hs. destruct Hc as ((Hb1 & Hb2 & Hb3) & H4 & _).
  destruct (a / 4096 =? _) eqn:Ea; zbool.
  - rewrite (proj2 Hs) by lia. unfold crefs. rewrite Hb. by replace ((a - base c) / 4096) with ((base c + k * 4096 - base c) / 4096) by lia.
  - destruct (in_chunk c a); [|done]. pose proof (proj1 Hs eq_refl). unfold crefs. cbv zeta. rewrite Hb.
    destruct (Hsame ((a - base c) / 4096) ltac:(lia) ltac:(lia)) as [-> ->]. done.
Qed.

Lemma crefs_at c k : crefs c (base c + k * 4096) = if wbit 64 (used c) k then 1 + aget (extra c) k else 0.
Proof. unfold crefs. replace (base c + k * 4096 - base c) with (k * 4096) by lia. by rewrite Z.div_mul. Qed.

Lemma page_addr c k : chunk_ok c -> 0 <= k < npages c -> u64 (base c + k * 4096) = base c + k * 4096 /\
  in_chunk c (base c + k * 4096) = true /\ base c + k * 4096 <> 0 /\ (base c + k * 4096) mod 4096 = 0.
Proof.
  intros Hc Hk. pose proof (in_chunk_spans c (base c + k * 4096) Hc) as Hs. unfold spans in Hs.
  destruct Hc as ((Hb1 & Hb2 & Hb3) & _). rewrite (proj2 Hs) by lia.
  split; [apply u64_small; unfold is_u64; lia|]. split; [done|]. lia.
Qed.

(** the reference counts after the change of page [k] of a chunk in the list *)
Lemma total_change u pend i c c' k a : upage_base u pend -> g_chunks u !! i = Some c -> same_place c c' -> 0 <= k < npages c ->
  (forall j, 0 <= j < npages c -> j <> k -> wbit 64 (used c') j = wbit 64 (used c) j /\ aget (extra c') j = aget (extra c) j) ->
  total_refs (<[i := c']> (g_chunks u)) a =
    if a / 4096 =? (base c + k * 4096) / 4096 then crefs c' (base c + k * 4096) else total_refs (g_chunks u) a.
Proof.
  intros Hu Hi Hp Hk Hsame. assert (Hc : chunk_ok c) by (destruct Hu as ((_ & Hl & _) & _);
    apply Forall_app in Hl as [Hl _]; by apply (Forall_lookup_1 _ _ _ _ Hl Hi)).
  rewrite (total_refs_update _ i c), (point_change c c' k a) by done.
  destruct (a / 4096 =? _) eqn:Ea; [|lia]. zbool.
  assert (Hin : in_chunk c a = true).
  { apply in_chunk_spans; [done|]. unfold spans. destruct Hc as ((H1 & H2 & _) & _). lia. }
  rewrite (total_at u pend i c a Hu Hi Hin). unfold point. rewrite Hin. lia.
Qed.

(** setting the bit of a free page *)
Definition with_page (c : pchunk_t) (k : Z) : pchunk_t := c <| used := wset 64 (used c) k true |> <| nused := nused c + 1 |>.

Lemma with_page_ok c k : chunk_ok c -> 0 <= k < npages c -> wbit 64 (used c) k = false ->
  chunk_ok (with_page c k) /\ same_place c (with_page c k).
Proof.
  intros (H1 & H2 & (H3 & H4) & H5 & H6 & H7 & H8) Hk Hbit. split; [|done].
  unfold chunk_ok, with_page, set, setter. cbn [base npages used extra nused high]. unfold PER, CHUNK in *.
  assert (Hw : forall j, 0 <= j -> wbit 64 (wset 64 (used c) k true) j = if j =? k then true else wbit 64 (used c) j)
    by (intros; apply wbit_wset; lia).
  split; [done|]. split; [done|]. split; [split; [apply words_wset; [lia|done|lia]|by rewrite zlen_wset]|].
  split; [done|]. split; [|split].
  - intros i Hi. rewrite Hw by lia. case_bool; [done|]. by apply H6.
  - intros i Hi. rewrite Hw by lia. case_bool; [done|]. by apply H7.
  - rewrite (cnt_write (wbit 64 (used c)) _ true k 1); [by rewrite <- H8|lia|lia|lia| | |].
    + intros j Hj. by replace j with k by lia.
    + intros j Hj. rewrite Hw by lia. replace j with k by lia. by rewrite Z.eqb_refl.
    + intros j Hj Hne. rewrite Hw by lia. by rewrite (proj2 (Z.eqb_neq j k)) by lia.
Qed.

Lemma with_page_bit c k j : chunk_ok c -> 0 <= k < npages c -> 0 <= j ->
  wbit 64 (used (with_page c k)) j = if j =? k then true else wbit 64 (used c) j.
Proof.
  intros (_ & Hn & (_ & Hz) & _) Hk Hj. unfold with_page, set, setter. cbn [used]. unfold PER, CHUNK in *. apply wbit_wset; lia.
Qed.

Lemma chunk_in u pend i c : upage_base u pend -> g_chunks u !! i = Some c -> chunk_ok c.
Proof. intros ((_ & Hl & _) & _) Hi. apply Forall_app in Hl as [Hl _]. by apply (Forall_lookup_1 _ _ _ _ Hl Hi). Qed.

Lemma take_page_ok u pend i c : upage_base u pend -> g_chunks u !! i = Some c -> nused c < npages c ->
  exists k, 0 <= k < npages c /\ wbit 64 (used c) k = false /\
    take_page i u = (base c + k * 4096, u <| g_chunks := <[i := with_page c k]> (g_chunks u) |> <| g_used := u64 (g_used u + 4096) |>).
Proof.
  intros Hu Hi Hroom. pose proof (chunk_in u pend i c Hu Hi) as Hc.
  pose proof Hc as (_ & H2 & (H3 & H4) & _ & H6 & _ & H8). unfold PER, CHUNK in *.
  pose proof (free_bit_spec (used c) 0 H3) as Hfree. unfold take_page.
  rewrite (list_lookup_total_correct _ _ _ Hi). destruct (free_bit (used c) 0) as [k|].
  - destruct Hfree as [Hk Hbit]. replace (k - 0 * 64) with k in * by lia.
    assert (k < npages c) by (destruct (decide (k < npages c)); [done|rewrite H6 in Hbit by lia; done]).
    exists k. split; [lia|]. split; [done|]. destruct (page_addr c k Hc ltac:(lia)) as (-> & _). f_equal.
    unfold with_page, wset, set, setter. cbv zeta. pose proof (cnt_bound (wbit 64 (used c)) (Z.to_nat (npages c)) 0).
    cbn [used nused]. rewrite u32_small by (unfold is_u32; lia). done.
  - exfalso. rewrite (cnt_const _ true) in H8; [cbn [Z.b2z] in H8; lia|]. intros j Hj. apply Hfree. lia.
Qed.

(** what handing out a page does *)
Lemma take_page_spec u pend i c : upage_base u pend -> g_chunks u !! i = Some c -> nused c < npages c ->
  exists p c' u', take_page i u = (p, u') /\ upage_base u' pend /\ mem u' = mem u /\
    g_chunks u' = <[i := c']> (g_chunks u) /\ nused c' = nused c + 1 /\ p <> 0 /\ p mod 4096 = 0 /\ total_refs (g_chunks u) p = 0 /\
    forall a, total_refs (g_chunks u') a = if a / 4096 =? p / 4096 then 1 else total_refs (g_chunks u) a.
Proof.
  intros Hu Hi Hroom. destruct (take_page_ok u pend i c Hu Hi Hroom) as (k & Hk & Hbit & Heq).
  pose proof (chunk_in u pend i c Hu Hi) as Hc.
  destruct (with_page_ok c k Hc Hk Hbit) as [Hc' Hplace]. destruct (page_addr c k Hc Hk) as (_ & Hin & Hnz & Hal).
  eexists _, (with_page c k), _. split; [exact Heq|]. pose proof (total_at u pend i c _ Hu Hi Hin) as Hat.
  rewrite crefs_at, Hbit in Hat.
  split; [|split; [done|split; [done|split; [done|split; [done|split; [done|split; [done|]]]]]]].
  - apply (upage_base_update u pend i c); [done..|]. f_equal. unfold with_page, set, setter. cbn [nused]. lia.
  - intros a. unfold set, setter. cbn [g_chunks].
    rewrite (total_change u pend i c (with_page c k) k a Hu Hi Hplace Hk).
    + rewrite (crefs_at (with_page c k)), with_page_bit, Z.eqb_refl by (done || lia). destruct Hc as (_ & _ & _ & _ & _ & H7 & _). unfold with_page, set, setter. cbn [extra].
      by rewrite (H7 k Hk Hbit).
    + intros j Hj Hne. split; [|done]. rewrite with_page_bit by (done || lia). by rewrite (proj2 (Z.eqb_neq _ _)).
Qed.

(** ** Making a chunk *)

Lemma chunks_ok_env m m' l : env_ok m' -> same_given given m m' -> chunks_ok m l -> chunks_ok m' l.
Proof.
  intros Hm' Hs (Hm & Hl & Hg & Hnd). split; [done|split; [done|split; [|done]]].
  eapply Forall_impl; [exact Hg|]. intros c Hc. unfold from_env. by rewrite Hs.
Qed.

Lemma same_trans m m' m'' : same_given given m m' -> same_given given m' m'' -> same_given given m m''.
Proof. intros H1 H2 b. by rewrite H2, H1. Qed.

(** new_chunk with nothing in between *)
Fixpoint make_all (fuel : nat) (st : make_t) (m : M) : option (option pchunk_t * M) :=
  match fuel with
  | O => None
  | S fuel => match make_step st m with (inl st, m) => make_all fuel st m | (inr n, m) => Some (n, m) end
  end.

Lemma make_all_S fuel st m : make_all (S fuel) st m =
  match make_step st m with (inl st, m) => make_all fuel st m | (inr n, m) => Some (n, m) end.
Proof. done. Qed.

(** the sizes that are left *)
Lemma make_all_heap l fuel avail np m : (length l < fuel)%nat ->
  make_all fuel (Heap l avail) m =
    Some (let '(a, np, m) := heap_chunk l avail 0 np m in if a =? 0 then (None, chunk_kfree m) else (Some (blank a np false), m)).
Proof.
  revert fuel np m. induction l as [|n l IH]; intros fuel np m Hf; (destruct fuel as [|fuel]; [cbn in Hf; lia|]); [done|].
  cbn in Hf. rewrite make_all_S. cbn [make_step heap_chunk]. change (negb (0 =? 0)) with false. cbv iota.
  destruct (avail <? n * 4096); [apply IH; lia|]. destruct (pages_kmalloc (n * 4096) m) as [a m1]. destruct (a =? 0) eqn:Ea.
  - apply Z.eqb_eq in Ea as ->. apply IH. lia.
  - replace (heap_chunk l avail a n m1) with (a, n, m1); [by rewrite Ea|]. destruct l; [done|]. cbn [heap_chunk]. by rewrite Ea.
Qed.

Lemma new_chunk_made m : make_all 7 Kzalloc m = Some (new_chunk m).
Proof.
  unfold new_chunk. rewrite make_all_S. cbn [make_step]. destruct (chunk_kzalloc m) as [[|] m1]; cbn [negb]; [|done].
  rewrite make_all_S. cbn [make_step]. destruct (frame_alloc m1) as [a m2]. destruct (a =? 0) eqn:Ea; cbn [negb].
  - apply Z.eqb_eq in Ea as ->. rewrite make_all_S. cbn [make_step]. apply (make_all_heap sizes 4 (spare m2) PER m2). cbn. lia.
  - unfold sizes. cbn [heap_chunk]. rewrite Ea. cbn [negb]. by rewrite ?Ea.
Qed.

Lemma blank_ok base np high : 0 < base -> base mod 4096 = 0 -> base + np * 4096 < 2 ^ 64 -> 0 < np <= PER -> chunk_ok (blank base np high).
Proof.
  intros H1 H2 H3 H4. unfold PER, CHUNK in H4. set (z := replicate (Z.to_nat (PER / 64)) 0).
  assert (Hz : words 64 z /\ zlen z = 8) by (split; [by apply Forall_replicate|done]). destruct Hz as [Hz Hzl].
  destruct (mark_tail_spec (Z.to_nat (PER - np)) z np Hz) as (M1 & M2 & M3); [lia|unfold PER, CHUNK; lia|].
  assert (Hb : forall j, 0 <= j < 512 -> wbit 64 (mark_tail (Z.to_nat (PER - np)) z np) j = (np <=? j)).
  { intros j Hj. rewrite M3 by lia. unfold z. rewrite wbit_zeros by (unfold PER, CHUNK; lia).
    unfold PER, CHUNK. zcases; done || lia. }
  unfold chunk_ok, blank. cbn [Upage.base npages used extra nused]. fold z. 
  split; [done|]. split; [done|]. split; [by rewrite M2|]. split; [split; [by apply Forall_replicate|done]|].
  unfold PER, CHUNK. split; [|split].
  - intros i Hi. rewrite Hb by lia. apply Z.leb_le. lia.
  - intros i Hi _. unfold aget. by rewrite lookup_total_replicate_2 by (unfold PER, CHUNK; lia).
  - rewrite (cnt_const _ false); [done|]. intros i Hi. rewrite Hb by lia. by apply Z.leb_gt; lia.
Qed.

(** a region that was handed out is none of the chunks' *)
Lemma new_base m m' high a len l : chunks_ok m l -> new_region given m m' high a len -> a ∉ map base l.
Proof.
  intros (_ & _ & Hg & _) (_ & _ & _ & Hnone & _) Hin. apply list_elem_of_fmap in Hin as (c & -> & Hc).
  apply list_elem_of_lookup in Hc as (i & Hi). pose proof (Forall_lookup_1 _ _ _ _ Hg Hi) as Hgc. unfold from_env in Hgc. congruence.
Qed.

Definition making_ok (st : make_t) : Prop := match st with Heap l _ => Forall (fun n => 0 < n <= PER) l | _ => True end.

(** a chunk that was made, in memory that was just given *)
Lemma upage_base_made u pend m c : upage_base u pend -> env_ok m -> new_region given (mem u) m (high c) (base c) (npages c * 4096) ->
  chunk_ok c -> nused c = 0 -> upage_base (u <| mem := m |>) (pend ++ [c]).
Proof.
  intros (Hok & Hcnt & Hpend) Hme Hnew Hc Hz. pose proof (new_base _ _ _ _ _ _ Hok Hnew) as Hfresh.
  destruct Hok as (_ & Hl & Hg & Hnd). destruct Hnew as (_ & _ & _ & Hnone & Hgiven).
  unfold upage_base, set, setter. cbn [mem g_chunks]. split; [|split; [done|apply Forall_app; split; [done|by apply Forall_singleton]]].
  rewrite app_assoc. split; [done|]. split; [apply Forall_app; split; [done|by apply Forall_singleton]|]. split.
  - apply Forall_app. split; [|apply Forall_singleton; unfold from_env; by rewrite Hgiven, Z.eqb_refl].
    eapply Forall_impl; [exact Hg|]. intros d Hd. unfold from_env. rewrite Hgiven. destruct (base d =? base c) eqn:E; [|done].
    zbool. unfold from_env in Hd. congruence.
  - rewrite map_app. apply NoDup_app. split; [done|]. split; [|apply NoDup_singleton].
    intros x Hx ->%list_elem_of_singleton. by apply Hfresh.
Qed.

Lemma upage_base_env u pend m : upage_base u pend -> env_ok m -> same_given given (mem u) m -> upage_base (u <| mem := m |>) pend.
Proof.
  intros (Hok & Hcnt & Hpend) Hm Hs. split; [|by split]. unfold set, setter. cbn [mem g_chunks]. by apply (chunks_ok_env (mem u)).
Qed.

Lemma make_step_ok u pend st r m : upage_base u pend -> making_ok st -> make_step st (mem u) = (r, m) ->
  match r with
  | inl st' => making_ok st' /\ upage_base (u <| mem := m |>) pend
  | inr n => upage_base (u <| mem := m |>) (pend ++ option_list n)
  end.
Proof.
  intros Hu Hst Hr. pose proof Hu as ((Hm & _) & _). destruct st as [| | |[|n l] avail]; cbn [make_step] in Hr.
  - destruct (chunk_kzalloc (mem u)) as [ok m1] eqn:E1. destruct (law_kzalloc _ _ _ Hm E1) as (Hm1 & Hs1).
    destruct ok; injection Hr as <- <-; [split; [done|]|cbn; rewrite app_nil_r]; by apply upage_base_env.
  - destruct (frame_alloc (mem u)) as [a m1] eqn:E1. destruct (law_frame_alloc _ _ _ Hm E1) as (Hm1 & [(-> & Hs)|Hnew]).
    + injection Hr as <- <-. split; [done|]. by apply upage_base_env.
    + pose proof Hnew as (Hpos & Hal & Hend & _). rewrite (proj2 (Z.eqb_neq a 0)) in Hr by lia. injection Hr as <- <-.
      apply (upage_base_made u pend m1 (blank a PER true)); [done|done|done|by apply blank_ok|done].
  - injection Hr as <- <-. split; [by repeat constructor|]. by destruct u.
  - injection Hr as <- <-. cbn. rewrite app_nil_r. destruct (law_kfree _ Hm) as (Hm1 & Hs1). by apply upage_base_env.
  - apply Forall_cons in Hst as [Hn Hl]. destruct (avail <? n * 4096); [injection Hr as <- <-; split; [done|by destruct u]|].
    destruct (pages_kmalloc (n * 4096) (mem u)) as [a m1] eqn:E1.
    destruct (law_kmalloc _ (n * 4096) _ _ Hm ltac:(unfold PER, CHUNK in *; lia) E1) as (Hm1 & [(-> & Hs)|Hnew]).
    + injection Hr as <- <-. split; [done|]. by apply upage_base_env.
    + pose proof Hnew as (Hpos & Hal & Hend & _). rewrite (proj2 (Z.eqb_neq a 0)) in Hr by lia. injection Hr as <- <-.
      apply (upage_base_made u pend m1 (blank a n false)); [done|done|done|by apply blank_ok|done].
Qed.

(** ** Finding the chunk of an address *)

Lemma chunk_at_case u pend a : upage_base u pend ->
  match chunk_at (g_chunks u) a 0 with
  | Some (i, c) => exists k, g_chunks u !! i = Some c /\ chunk_ok c /\ 0 <= k < npages c /\ page_index c a = k /\
      (base c + k * 4096) / 4096 = a / 4096 /\ total_refs (g_chunks u) a = (if wbit 64 (used c) k then 1 + aget (extra c) k else 0) /\
      is_u16 (aget (extra c) k)
  | None => total_refs (g_chunks u) a = 0
  end.
Proof.
  intros Hu. destruct (chunk_at (g_chunks u) a 0) as [[i c]|] eqn:E.
  - apply chunk_at_some in E as (i' & -> & Hi & Hin). change (0 + i')%nat with i'. pose proof (chunk_in u pend i' c Hu Hi) as Hc.
    pose proof (proj1 (in_chunk_spans c a Hc) Hin) as Hs. destruct (index_range c a Hc Hs) as (Hx & Hr).
    exists ((a - base c) / 4096). rewrite (total_at u pend i' c a Hu Hi Hin). split; [done|split; [done|split; [done|split; [done|]]]].
    destruct Hc as ((H1 & H2 & H3) & H4 & _ & (He & Hel) & _). unfold spans in Hs. split; [lia|]. split; [done|].
    unfold aget. destruct (lookup_lt_is_Some_2 (extra c) (Z.to_nat ((a - base c) / 4096))) as [x Hx'];
      [unfold zlen, PER, CHUNK in *; lia|]. rewrite (list_lookup_total_correct _ _ _ Hx'). by eapply Forall_lookup_1.
  - apply chunk_at_none in E. apply zsum_zero. eapply Forall_impl; [exact E|]. intros c Hc. cbn. unfold point. by rewrite Hc.
Qed.

Lemma total_page u pend a b : upage_base u pend -> a / 4096 = b / 4096 -> total_refs (g_chunks u) a = total_refs (g_chunks u) b.
Proof.
  intros Hu Hab. unfold total_refs. f_equal. apply map_ext_in. intros c Hin. apply list_elem_of_In, list_elem_of_lookup in Hin as (i & Hi).
  pose proof (chunk_in u pend i c Hu Hi) as Hc. pose proof (in_chunk_spans c a Hc) as Ha. pose proof (in_chunk_spans c b Hc) as Hb.
  unfold spans in *. destruct Hc as ((H1 & H2 & H3) & _). unfold point, crefs.
  replace ((a - base c) / 4096) with ((b - base c) / 4096) by lia.
  destruct (in_chunk c a), (in_chunk c b); try done; exfalso; [pose proof (proj1 Ha eq_refl)|pose proof (proj1 Hb eq_refl)].
  - assert (false = true) by (apply Hb; lia). done.
  - assert (false = true) by (apply Ha; lia). done.
Qed.

(** changing the extra references of page [k] *)
Definition with_extra (c : pchunk_t) (k x : Z) : pchunk_t := c <| extra := aset (extra c) k x |>.

Lemma with_extra_ok c k x : chunk_ok c -> 0 <= k < npages c -> is_u16 x -> wbit 64 (used c) k = true ->
  chunk_ok (with_extra c k x) /\ same_place c (with_extra c k x).
Proof.
  intros (H1 & H2 & H3 & (H4 & H5) & H6 & H7 & H8) Hk Hx Hbit. split; [|done].
  unfold chunk_ok, with_extra, set, setter. cbn [base npages used extra nused high]. unfold PER, CHUNK in *.
  split; [done|split; [done|split; [done|split; [|split; [done|split; [|done]]]]]].
  - split; [by apply Forall_insert|by rewrite zlen_aset].
  - intros i Hi Hfree. rewrite aget_aset_ne; [by apply H7|lia|lia|]. intros ->. congruence.
Qed.

Lemma with_extra_spec u pend i c k x : upage_base u pend -> g_chunks u !! i = Some c -> 0 <= k < npages c -> is_u16 x ->
  wbit 64 (used c) k = true ->
  let u' := u <| g_chunks := <[i := with_extra c k x]> (g_chunks u) |> in
  upage_base u' pend /\ forall a, total_refs (g_chunks u') a =
    if a / 4096 =? (base c + k * 4096) / 4096 then 1 + x else total_refs (g_chunks u) a.
Proof.
  intros Hu Hi Hk Hx Hbit. pose proof (chunk_in u pend i c Hu Hi) as Hc.
  destruct (with_extra_ok c k x Hc Hk Hx Hbit) as [Hc' Hp]. cbv zeta. split.
  - pose proof (upage_base_update u pend i c _ (g_used u) Hu Hi Hc' Hp) as Hupd. destruct u as [l us he m]. apply Hupd.
    destruct Hu as (_ & (Hus & _) & _). cbn [g_used g_chunks] in *. replace (nused (with_extra c k x)) with (nused c) by done.
    rewrite Z.sub_diag, Hus, u64_add. f_equal. lia.
  - intros a. unfold set, setter. cbn [g_chunks]. rewrite (total_change u pend i c _ k a Hu Hi Hp Hk).
    + rewrite (crefs_at (with_extra c k x)). unfold with_extra, set, setter. cbn [used extra base]. rewrite Hbit, aget_aset_eq; [done|].
      destruct Hc as (_ & H2 & _ & (_ & H5) & _). lia.
    + intros j Hj Hne. split; [done|]. unfold with_extra, set, setter. cbn [extra]. by rewrite aget_aset_ne by lia.
Qed.

Definition same_page (a p : Z) : bool := a / 4096 =? p / 4096.

Lemma upage_ref_ok u pend p r u' : upage_base u pend -> upage_ref p u = (r, u') ->
  upage_base u' pend /\ map nused (g_chunks u') = map nused (g_chunks u) /\
  (r = 0 /\ 0 < total_refs (g_chunks u) p < 65536 /\
     (forall a, total_refs (g_chunks u') a = total_refs (g_chunks u) a + if same_page a p then 1 else 0) \/
   r = -1 /\ u' = u /\ (total_refs (g_chunks u) p = 0 \/ total_refs (g_chunks u) p = 65536)).
Proof.
  intros Hu Hr. pose proof (chunk_at_case u pend p Hu) as Hcase. unfold upage_ref, chunk_of in Hr.
  destruct (chunk_at (g_chunks u) p 0) as [[i c]|].
  2: { injection Hr as <- <-. split; [done|]. split; [done|]. right. tauto. }
  destruct Hcase as (k & Hi & Hc & Hk & Hx & Hpage & Hrefs & He). cbv zeta in Hr. rewrite Hx, page_used_bit in Hr.
  destruct (wbit 64 (used c) k) eqn:Eb; [|injection Hr as <- <-; split; [done|]; split; [done|]; right; tauto].
  unfold is_u16 in He. destruct (aget (extra c) k <? 0xFFFF) eqn:El; zbool; injection Hr as <- <-.
  - destruct (with_extra_spec u pend i c k (aget (extra c) k + 1) Hu Hi Hk ltac:(unfold is_u16; lia) Eb) as [H1 H2].
    split; [exact H1|]. split.
    { unfold set, setter. cbn [g_chunks]. change (map nused) with (stdpp.base.fmap (M := list) nused). rewrite list_fmap_insert.
      apply list_insert_id. by rewrite list_lookup_fmap, Hi. }
    left. split; [done|]. split; [lia|]. intros a. unfold same_page. etransitivity; [apply H2|]. rewrite Hpage.
    destruct (a / 4096 =? p / 4096) eqn:Ea; [|lia]. zbool.
    assert (total_refs (g_chunks u) a = total_refs (g_chunks u) p) as ->; [|lia]. by apply (total_page u pend).
  - split; [done|]. split; [done|]. right. split; [done|]. split; [done|]. lia.
Qed.

(** ** Giving a page back *)

Definition without_page (c : pchunk_t) (k : Z) : pchunk_t := c <| used := wset 64 (used c) k false |> <| nused := nused c - 1 |>.

Lemma without_page_ok c k : chunk_ok c -> 0 <= k < npages c -> wbit 64 (used c) k = true -> aget (extra c) k = 0 ->
  chunk_ok (without_page c k) /\ same_place c (without_page c k) /\
  forall j, 0 <= j -> wbit 64 (used (without_page c k)) j = if j =? k then false else wbit 64 (used c) j.
Proof.
  intros (H1 & H2 & (H3 & H4) & H5 & H6 & H7 & H8) Hk Hbit Hx.
  assert (Hw : forall j, 0 <= j -> wbit 64 (wset 64 (used c) k false) j = if j =? k then false else wbit 64 (used c) j)
    by (intros; unfold PER, CHUNK in *; apply wbit_wset; lia).
  split; [|split; [done|exact Hw]]. unfold chunk_ok, without_page, set, setter. cbn [base npages used extra nused high].
  unfold PER, CHUNK in *.
  split; [done|]. split; [done|]. split; [split; [apply words_wset; [lia|done|lia]|by rewrite zlen_wset]|].
  split; [done|]. split; [|split].
  - intros i Hi. rewrite Hw by lia. rewrite (proj2 (Z.eqb_neq i k)) by lia. by apply H6.
  - intros i Hi. rewrite Hw by lia. destruct (i =? k) eqn:E; zbool; [by subst|by apply H7].
  - rewrite (cnt_write (wbit 64 (used c)) _ false k 1); [rewrite <- H8; lia|lia|lia|lia| | |].
    + intros j Hj. by replace j with k by lia.
    + intros j Hj. rewrite Hw by lia. replace j with k by lia. by rewrite Z.eqb_refl.
    + intros j Hj Hne. rewrite Hw by lia. by rewrite (proj2 (Z.eqb_neq j k)) by lia.
Qed.

Lemma without_page_refs u pend i c k a : upage_base u pend -> g_chunks u !! i = Some c -> 0 <= k < npages c ->
  wbit 64 (used c) k = true -> aget (extra c) k = 0 ->
  total_refs (<[i := without_page c k]> (g_chunks u)) a =
    if same_page a (base c + k * 4096) then 0 else total_refs (g_chunks u) a.
Proof.
  intros Hu Hi Hk Hbit Hx. pose proof (chunk_in u pend i c Hu Hi) as Hc.
  destruct (without_page_ok c k Hc Hk Hbit Hx) as (Hc' & Hp & Hw). rewrite (total_change u pend i c _ k a Hu Hi Hp Hk).
  - rewrite (crefs_at (without_page c k)), Hw, Z.eqb_refl by lia. done.
  - intros j Hj Hne. split; [|done]. rewrite Hw by lia. by rewrite (proj2 (Z.eqb_neq _ _)).
Qed.

(** an empty chunk counts for no page *)
Lemma empty_point c a : chunk_ok c -> nused c = 0 -> point a c = 0.
Proof.
  intros Hc Hz. unfold point. destruct (in_chunk c a) eqn:E; [|done]. apply in_chunk_spans in E; [|done].
  destruct (index_range c a Hc E) as (_ & Hr). destruct Hc as (_ & H2 & _ & _ & _ & _ & H8). unfold crefs. cbv zeta.
  destruct (wbit 64 (used c) ((a - base c) / 4096)) eqn:Eb; [exfalso|done].
  pose proof (cnt_none _ _ _ (eq_trans (eq_sym H8) Hz) ((a - base c) / 4096) ltac:(lia)). congruence.
Qed.

(** an empty chunk leaves the list *)
Lemma upage_base_unlink u pend c l : upage_base u pend -> g_chunks u ≡ₚ c :: l -> nused c = 0 ->
  upage_base (u <| g_chunks := l |> <| g_held := u64 (g_held u - npages c * 4096) |>) (c :: pend).
Proof.
  intros Hu Hp Hz. apply (upage_base_perm (c :: l)) in Hu; [|by symmetry]. unfold set, setter in Hu. cbn in Hu.
  destruct Hu as ((Hm & Hl & Hg & Hnd) & (Hus & Hh) & Hf). cbn [g_chunks g_used g_held mem map] in *.
  assert (Hpp : (c :: l) ++ pend ≡ₚ l ++ c :: pend) by (apply (Permutation_middle l pend c)).
  unfold upage_base, set, setter. cbn [g_chunks g_used g_held mem]. split; [split; [done|split; [|split]]|split; [split|]].
  - by apply (Permutation_Forall Hpp).
  - by apply (Permutation_Forall Hpp).
  - apply NoDup_ListNoDup, (Permutation_NoDup (Permutation_map base Hpp)), NoDup_ListNoDup, Hnd.
  - rewrite zsum_cons, Hz in Hus. by rewrite Hus.
  - rewrite zsum_cons in Hh. rewrite Hh. unfold Z.sub. rewrite u64_add. cbn [g_held g_chunks]. f_equal. lia.
  - by apply Forall_cons.
Qed.

(** and goes back to the system *)
Lemma upage_base_return u p1 c p2 : upage_base u (p1 ++ c :: p2) -> upage_base (u <| mem ::= free_chunk c |>) (p1 ++ p2).
Proof.
  intros ((Hm & Hl & Hg & Hnd) & Hcnt & Hf).
  assert (Hp : g_chunks u ++ p1 ++ c :: p2 ≡ₚ c :: (g_chunks u ++ p1 ++ p2)).
  { rewrite (app_assoc _ p1), (app_assoc _ p1). symmetry. apply (Permutation_middle (g_chunks u ++ p1)). }
  apply (Permutation_Forall Hp) in Hl, Hg. apply NoDup_ListNoDup, (Permutation_NoDup (Permutation_map base Hp)), NoDup_ListNoDup in Hnd. cbn [map] in Hnd.
  apply Forall_cons in Hl as [Hc Hl]. apply Forall_cons in Hg as [Hgc Hg]. apply NoDup_cons in Hnd as [Hnin Hnd].
  apply Forall_app in Hf as [Hf1 Hf2]. apply Forall_cons in Hf2 as [_ Hf2].
  unfold upage_base, set, setter. cbn [g_chunks g_used g_held mem].
  assert (Hfree : env_ok (free_chunk c (mem u)) /\ forall b, given (free_chunk c (mem u)) b = if b =? base c then None else given (mem u) b).
  { unfold free_chunk. unfold from_env in Hgc. destruct (high c) eqn:Eh.
    - assert (npages c * 4096 = PER * 4096) as Hper by exact (given_high _ _ _ Hm Hgc). rewrite Hper in Hgc.
      destruct (law_frame_free _ _ Hm Hgc) as (Hm1 & G1). destruct (law_kfree _ Hm1) as (Hm2 & G2). split; [done|]. intros b. by rewrite G2, G1.
    - destruct (law_pages_kfree _ _ _ Hm Hgc) as (Hm1 & G1). destruct (law_kfree _ Hm1) as (Hm2 & G2). split; [done|]. intros b. by rewrite G2, G1. }
  destruct Hfree as (Hm' & Hgiven). split; [|split; [done|by apply Forall_app]].
  split; [done|split; [done|split; [|done]]]. apply Forall_lookup_2. intros i d Hi. unfold from_env. rewrite Hgiven.
  destruct (base d =? base c) eqn:E; zbool; [exfalso|by apply (Forall_lookup_1 _ _ _ _ Hg Hi)].
  apply Hnin. rewrite <- E. apply list_elem_of_fmap. exists d. split; [done|by eapply list_elem_of_lookup_2].
Qed.

Lemma delete_front {A} (l : list A) k x y : l !! k = Some x -> y :: delete k l ≡ₚ <[k := y]> l.
Proof.
  intros Hk. pose proof (lookup_lt_Some _ _ _ Hk). rewrite (delete_Permutation (<[k := y]> l) k y) by (by apply list_lookup_insert_eq).
  apply perm_skip. revert k Hk H1. induction l as [|z l IH]; intros k Hk Hlt; [done|]. destruct k as [|k]; [done|].
  cbn in Hlt |- *. apply perm_skip, (IH k); [done|lia].
Qed.

Definition nonempty (u : upage M) : Prop := Forall (fun c => 0 < nused c) (g_chunks u).

Lemma nonempty_nused u u' : map nused (g_chunks u') = map nused (g_chunks u) -> nonempty u -> nonempty u'.
Proof.
  unfold nonempty. intros Heq Hn. apply Forall_lookup_2. intros i c Hi.
  assert (Hi' : map nused (g_chunks u) !! i = Some (nused c)) by (by rewrite <- Heq, list_lookup_fmap, Hi).
  rewrite list_lookup_fmap in Hi'. apply fmap_Some in Hi' as (d & Hd & ->). by apply (Forall_lookup_1 _ _ _ _ Hn Hd).
Qed.

Lemma clear_page_eq c k : chunk_ok c -> 0 <= k < npages c -> wbit 64 (used c) k = true -> aget (extra c) k = 0 ->
  clear_page c k = without_page c k /\ 0 <= nused (without_page c k).
Proof.
  intros Hc Hk Eb Ez. destruct (without_page_ok c k Hc Hk Eb Ez) as (Hc' & Hp' & _).
  pose proof (cnt_bound (wbit 64 (used (without_page c k))) (Z.to_nat (npages (without_page c k))) 0) as Hcb.
  pose proof Hc' as (_ & Hnp & _ & _ & _ & _ & H8). rewrite <- H8 in Hcb. unfold PER, CHUNK in Hnp. split; [|apply Hcb].
  destruct Hc as (_ & Hn2 & (Hw & Hz) & _). unfold PER, CHUNK in *.
  unfold clear_page. rewrite clear_word; [|lia|apply words_at; [done|lia]].
  change (nused (without_page c k)) with (nused c - 1) in Hcb.
  unfold without_page, wset, set, setter. cbv zeta. cbn [nused base npages used extra high].
  rewrite u32_small; [done|]. unfold is_u32. lia.
Qed.

(** taking page [k] of chunk [i] away, with the three ways the list goes on *)
Lemma drop_page_ok u pend i c k : upage_base u pend -> nonempty u -> g_chunks u !! i = Some c -> 0 <= k < npages c ->
  wbit 64 (used c) k = true -> aget (extra c) k = 0 ->
  let c' := without_page c k in
  let u1 := u <| g_used := u64 (g_used u - 4096) |> in
  let '(u', drop) := if nused c' =? 0 then
      (u1 <| g_chunks ::= delete i |> <| g_held ::= fun h => u64 (h - npages c' * 4096) |>, Some c')
    else if negb (i =? 0)%nat then (u1 <| g_chunks ::= fun l => c' :: delete i l |>, None)
    else (u1 <| g_chunks ::= fun l => <[i := c']> l |>, None) in
  upage_base u' (option_list drop ++ pend) /\ nonempty u' /\
  forall a, total_refs (g_chunks u') a = total_refs (<[i := c']> (g_chunks u)) a.
Proof.
  intros Hu Hne Hi Hk Eb Ez. cbv zeta. pose proof (chunk_in u pend i c Hu Hi) as Hc.
  destruct (without_page_ok c k Hc Hk Eb Ez) as (Hc' & Hp' & _). destruct (clear_page_eq c k Hc Hk Eb Ez) as (_ & Hnn).
  set (c' := without_page c k) in *. pose proof (delete_front _ i c c' Hi) as Hperm.
  set (u1 := u <| g_chunks := <[i := c']> (g_chunks u) |> <| g_used := u64 (g_used u - 4096) |>).
  assert (H1 : upage_base u1 pend).
  { apply (upage_base_update u pend i c c'); [done..|]. f_equal. change (nused c') with (nused c - 1). lia. }
  assert (Hrest : Forall (fun d => 0 < nused d) (delete i (g_chunks u))).
  { apply (delete_Permutation _ _ _) in Hi. unfold nonempty in Hne. rewrite Hi in Hne. by apply Forall_cons in Hne as [_ Hne]. }
  assert (Htot : forall a l, l ≡ₚ <[i := c']> (g_chunks u) -> total_refs l a = total_refs (<[i := c']> (g_chunks u)) a).
  { intros a l Hl. unfold total_refs. by apply zsum_perm, Permutation_map. }
  destruct (nused c' =? 0) eqn:E; zbool.
  - split; [|split; [exact Hrest|]].
    + apply (upage_base_unlink u1 pend c' (delete i (g_chunks u))); [done|by symmetry|done].
    + intros a. rewrite <- (Htot a _ Hperm). unfold total_refs, set, setter. cbn [g_chunks map].
      rewrite zsum_cons, (empty_point c' a Hc' E). lia.
  - assert (Hne' : Forall (fun d => 0 < nused d) (c' :: delete i (g_chunks u))) by (apply Forall_cons; split; [lia|done]).
    destruct (negb (i =? 0)%nat).
    + split; [|split; [exact Hne'|]].
      * apply (upage_base_perm (c' :: delete i (g_chunks u)) u1); done.
      * intros a. by apply Htot.
    + split; [exact H1|split; [|intros a; by apply Htot]]. unfold nonempty, set, setter. cbn [g_chunks]. by rewrite <- Hperm.
Qed.

Lemma free_locked_ok u pend p u' drop : upage_base u pend -> nonempty u -> free_locked p u = (u', drop) ->
  upage_base u' (option_list drop ++ pend) /\ nonempty u' /\
  forall a, total_refs (g_chunks u') a =
    total_refs (g_chunks u) a - if same_page a p && (0 <? total_refs (g_chunks u) p) then 1 else 0.
Proof.
  intros Hu Hne. pose proof (chunk_at_case u pend p Hu) as Hcase. unfold free_locked.
  destruct (chunk_at (g_chunks u) p 0) as [[i c]|].
  2: { intros [= <- <-]. split; [done|]. split; [done|]. intros a. rewrite Hcase, andb_false_r. lia. }
  destruct Hcase as (k & Hi & Hc & Hk & Hx & Hpage & Hrefs & He). cbv zeta. rewrite Hx, page_used_bit.
  destruct (wbit 64 (used c) k) eqn:Eb; cbn [negb].
  2: { intros [= <- <-]. split; [done|]. split; [done|]. intros a. rewrite Hrefs, andb_false_r. lia. }
  unfold is_u16 in He. rewrite (proj2 (Z.ltb_lt 0 _)) by lia.
  assert (Hsame : forall a, same_page a p = same_page a (base c + k * 4096)) by (intros; unfold same_page; by rewrite Hpage).
  assert (Htot : forall a, same_page a p = true -> total_refs (g_chunks u) a = total_refs (g_chunks u) p)
    by (intros a Ha; apply (total_page u pend); [done|by apply Z.eqb_eq]).
  destruct (aget (extra c) k =? 0) eqn:Ez; cbn [negb]; zbool.
  - destruct (clear_page_eq c k Hc Hk Eb Ez) as (-> & _).
    pose proof (drop_page_ok u pend i c k Hu Hne Hi Hk Eb Ez) as H1. intros E. cbv zeta in H1.
    match type of H1 with match ?t with _ => _ end => replace t with (u', drop) in H1 by (symmetry; exact E) end. destruct H1 as (H1 & H2 & H3). split; [exact H1|]. split; [exact H2|].
    intros a. etransitivity; [apply H3|]. rewrite (without_page_refs u pend) by done. rewrite <- Hsame.
    destruct (same_page a p) eqn:Ea; cbn [andb]; [rewrite (Htot a Ea)|]; lia.
  - assert (Hx1 : c <| extra ::= fun x => aset x k (u16 (aget x k - 1)) |> = with_extra c k (aget (extra c) k - 1)).
    { unfold with_extra, set, setter. cbn [extra]. unfold u16. by rewrite Z.mod_small by lia. }
    rewrite Hx1. intros [= <- <-].
    destruct (with_extra_spec u pend i c k (aget (extra c) k - 1) Hu Hi Hk ltac:(unfold is_u16; lia) Eb) as [H2 H3].
    split; [|split].
    + exact H2.
    + apply (nonempty_nused u); [|done]. unfold set, setter. cbn [g_chunks]. change (map nused) with (stdpp.base.fmap (M := list) nused).
      rewrite list_fmap_insert. apply list_insert_id. by rewrite list_lookup_fmap, Hi.
    + intros a. etransitivity; [apply H3|]. fold (same_page a (base c + k * 4096)). rewrite <- Hsame.
      destruct (same_page a p) eqn:Ea; cbn [andb]; [rewrite (Htot a Ea)|]; lia.
Qed.

(** ** The two sections of [alloc] *)

Lemma find_room_spec l : forall k, match find_room l k with
  | Some i => exists j c, i = (k + j)%nat /\ l !! j = Some c /\ nused c <> npages c
  | None => True
  end.
Proof.
  induction l as [|c l IH]; intros k; cbn [find_room]; [done|]. destruct (nused c =? npages c) eqn:E; zbool.
  - specialize (IH (S k)). destruct (find_room l (S k)); [|done]. destruct IH as (j & d & -> & Hj & Hne). exists (S j), d. split_and!; [lia|done|done].
  - exists O, c. split_and!; [lia|done|done].
Qed.

Lemma chunk_room c : chunk_ok c -> nused c <> npages c -> nused c < npages c.
Proof. intros (_ & H2 & _ & _ & _ & _ & H8) Hne. pose proof (cnt_bound (wbit 64 (used c)) (Z.to_nat (npages c)) 0). lia. Qed.

(** what a call that hands out [p] leaves behind *)
Definition handed (u : upage M) (pend : list pchunk_t) (p : Z) (u' : upage M) : Prop :=
  upage_base u' pend /\ nonempty u' /\
  (p <> 0 -> p mod 4096 = 0 /\ total_refs (g_chunks u) p = 0) /\
  forall a, total_refs (g_chunks u') a = total_refs (g_chunks u) a + if negb (p =? 0) && same_page a p then 1 else 0.

Lemma handed_none u pend : upage_base u pend -> nonempty u -> handed u pend 0 u.
Proof. intros Hu Hne. split; [done|]. split; [done|]. split; [done|]. intros a. cbn. lia. Qed.

Lemma nonempty_insert u i c : nonempty u -> 0 < nused c -> Forall (fun d => 0 < nused d) (<[i := c]> (g_chunks u)).
Proof. intros. by apply Forall_insert. Qed.

Lemma take_page_handed u pend i c : upage_base u pend -> Forall (fun d => 0 <= nused d) (g_chunks u) ->
  (forall j d, g_chunks u !! j = Some d -> j <> i -> 0 < nused d) -> g_chunks u !! i = Some c -> nused c < npages c ->
  handed u pend (take_page i u).1 (take_page i u).2.
Proof.
  intros Hu Hnn Hother Hi Hroom. destruct (take_page_spec u pend i c Hu Hi Hroom) as (p & c' & u' & -> & Hu' & _ & Hl & Hn & Hnz & Hal & Hz & Htot).
  cbn [fst snd]. split; [done|]. split; [|split; [done|]].
  - unfold nonempty. rewrite Hl. apply Forall_lookup_2. intros j d Hj. apply list_lookup_insert_Some in Hj as [(<- & <- & _)|(Hne & Hj)].
    + pose proof (Forall_lookup_1 _ _ _ _ Hnn Hi). cbn in *. lia.
    + by apply (Hother j).
  - intros a. rewrite Htot, (proj2 (Z.eqb_neq p 0)) by done. cbn [negb andb]. unfold same_page.
    destruct (a / 4096 =? p / 4096) eqn:E; [|lia]. zbool. rewrite (total_page u pend a p) by done. lia.
Qed.

Lemma alloc_begin_ok u pend reserve st u' : upage_base u pend -> nonempty u -> alloc_begin reserve u = (st, u') ->
  match st with
  | Page p => handed u pend p u'
  | NeedChunk seen => u' = u /\ (seen <> None -> reserve = false)
  end.
Proof.
  intros Hu Hne Hb. unfold alloc_begin in Hb. pose proof (find_room_spec (g_chunks u) 0) as Hf.
  destruct (find_room (g_chunks u) 0) as [i|]; [|injection Hb as <- <-; by split].
  destruct Hf as (j & c & -> & Hj & Hroom). change (0 + j)%nat with j in *.
  destruct (negb reserve && _) eqn:E.
  - injection Hb as <- <-. split; [done|]. intros _. apply andb_true_iff in E as [E _]. by apply negb_true_iff.
  - destruct (take_page j u) as [p u1] eqn:Et. injection Hb as <- <-.
    pose proof (take_page_handed u pend j c Hu) as Hh. rewrite Et in Hh. apply Hh.
    + eapply Forall_impl; [exact Hne|]. cbn. lia.
    + intros k d Hk _. by apply (Forall_lookup_1 _ _ _ _ Hne Hk).
    + done.
    + apply chunk_room; [by apply (chunk_in u pend j)|done].
Qed.

(** a chunk that a call made joins the list *)
Lemma upage_base_push u p1 c p2 : upage_base u (p1 ++ c :: p2) ->
  upage_base (u <| g_chunks ::= cons c |> <| g_held ::= fun h => u64 (h + npages c * 4096) |>) (p1 ++ p2).
Proof.
  intros ((Hm & Hl & Hg & Hnd) & (Hu & Hh) & Hf).
  assert (Hp : g_chunks u ++ p1 ++ c :: p2 ≡ₚ (c :: g_chunks u) ++ p1 ++ p2).
  { rewrite (app_assoc _ p1), (app_assoc _ p1). symmetry. apply (Permutation_middle (g_chunks u ++ p1)). }
  apply Forall_app in Hf as [Hf1 Hf2]. apply Forall_cons in Hf2 as [Hz Hf2].
  unfold upage_base, chunks_ok, counts_ok, set, setter. cbn [g_chunks g_used g_held mem map].
  split; [split; [done|split; [|split]]|split; [split|]].
  - by apply (Permutation_Forall Hp).
  - by apply (Permutation_Forall Hp).
  - apply NoDup_ListNoDup, (Permutation_NoDup (Permutation_map base Hp)), NoDup_ListNoDup, Hnd.
  - rewrite zsum_cons, Hz. done.
  - rewrite zsum_cons, Hh, u64_add. f_equal. lia.
  - apply Forall_app. by split.
Qed.

Lemma alloc_end_ok u p1 p2 reserve seen n p u' : (seen <> None -> reserve = false) ->
  upage_base u (p1 ++ option_list n ++ p2) -> nonempty u -> alloc_end reserve seen n u = (p, u') -> handed u (p1 ++ p2) p u'.
Proof.
  intros Hseen Hu Hne He. unfold alloc_end in He. destruct n as [c|]; cbn [option_list app] in Hu.
  - pose proof (upage_base_push u p1 c p2 Hu) as Hpush. set (u1 := u <| g_chunks ::= cons c |> <| g_held ::= _ |>) in *.
    assert (Hz : nused c = 0) by (destruct Hu as (_ & _ & Hf); apply Forall_app in Hf as [_ Hf]; by apply Forall_cons in Hf as [Hf _]).
    assert (Hc : chunk_ok c) by (by apply (chunk_in u1 (p1 ++ p2) 0)).
    pose proof (take_page_handed u1 (p1 ++ p2) 0 c Hpush) as Hh. rewrite He in Hh. cbn [fst snd] in Hh.
    destruct Hh as (H1 & H2 & H3 & H4); [| |done| |].
    + apply Forall_cons. split; [lia|]. eapply Forall_impl; [exact Hne|]. cbn. lia.
    + intros [|j] d Hj Hj0; [done|]. by apply (Forall_lookup_1 _ _ _ _ Hne Hj).
    + apply chunk_room; [done|]. destruct Hc as (_ & ? & _). lia.
    + assert (Htot : forall a, total_refs (g_chunks u1) a = total_refs (g_chunks u) a).
      { intros a. unfold u1, set, setter, total_refs. cbn [g_chunks map]. rewrite zsum_cons, (empty_point c a Hc Hz). lia. }
      split; [done|]. split; [done|]. split; [intros Hp; rewrite <- Htot; by apply H3|]. intros a. by rewrite H4, Htot.
  - destruct seen as [i|]; [|injection He as <- <-; by apply handed_none].
    rewrite (Hseen ltac:(done)) in He. injection He as <- <-. by apply handed_none.
Qed.

(** ** Interleaved calls *)

Record call := Call { c_reserve : bool; c_seen : option nat }.

(** the allocator, the calls of [alloc] that are making a chunk, those that have made one (or failed to), and the
    chunks that calls of upage_free are about to give back *)
Record system := System { pages : upage M; asking : list (call * make_t); made : list (call * option pchunk_t); dropped : list pchunk_t }.

Inductive event : Type :=
  | Got (p : Z)       (* a call returned page p, or NULL *)
  | Shared (p : Z)    (* upage_ref p returned 0 *)
  | Dropped (p : Z)   (* upage_free p *)
  | Quiet.

Inductive ustep : system -> event -> system -> Prop :=
  | u_page u u' ask md dr reserve p : alloc_begin reserve u = (Page p, u') ->
      ustep (System u ask md dr) (Got p) (System u' ask md dr)
  | u_need u u' ask md dr reserve seen : alloc_begin reserve u = (NeedChunk seen, u') ->
      ustep (System u ask md dr) Quiet (System u' ((Call reserve seen, Kzalloc) :: ask) md dr)
  | u_make u a1 k st a2 md dr st' m' : make_step st (mem u) = (inl st', m') ->
      ustep (System u (a1 ++ (k, st) :: a2) md dr) Quiet (System (u <| mem := m' |>) (a1 ++ (k, st') :: a2) md dr)
  | u_made u a1 k st a2 md dr n m' : make_step st (mem u) = (inr n, m') ->
      ustep (System u (a1 ++ (k, st) :: a2) md dr) Quiet (System (u <| mem := m' |>) (a1 ++ a2) (md ++ [(k, n)]) dr)
  | u_end u u' ask m1 k n m2 dr p : alloc_end (c_reserve k) (c_seen k) n u = (p, u') ->
      ustep (System u ask (m1 ++ (k, n) :: m2) dr) (Got p) (System u' ask (m1 ++ m2) dr)
  | u_ref u u' ask md dr p : upage_ref p u = (0, u') -> ustep (System u ask md dr) (Shared p) (System u' ask md dr)
  | u_refused u u' ask md dr p r : upage_ref p u = (r, u') -> r <> 0 -> ustep (System u ask md dr) Quiet (System u' ask md dr)
  | u_free u u' ask md dr p drop : free_locked p u = (u', drop) ->
      ustep (System u ask md dr) (Dropped p) (System u' ask md (option_list drop ++ dr))
  | u_return u ask md d1 c d2 :
      ustep (System u ask md (d1 ++ c :: d2)) Quiet (System (u <| mem ::= free_chunk c |>) ask md (d1 ++ d2)).

Inductive urun : system -> list event -> system -> Prop :=
  | urun_nil s : urun s [] s
  | urun_step s e s' tr s'' : ustep s e s' -> urun s' tr s'' -> urun s (e :: tr) s''.

(** the reference: counting the events of a page *)
Definition after (e : event) (f : Z -> Z) (a : Z) : Z :=
  match e with
  | Got p => f a + if negb (p =? 0) && same_page a p then 1 else 0
  | Shared p => f a + if same_page a p then 1 else 0
  | Dropped p => f a - if same_page a p && (0 <? f p) then 1 else 0
  | Quiet => f a
  end.
Definition counted (tr : list event) (f : Z -> Z) : Z -> Z := foldl (fun f e => after e f) f tr.

(** a page is handed out only when nobody has it, and shared only by its owners *)
Definition event_ok (e : event) (f : Z -> Z) : Prop :=
  match e with
  | Got p => p <> 0 -> p mod 4096 = 0 /\ f p = 0
  | Shared p => 0 < f p
  | _ => True
  end.

Fixpoint exclusive (tr : list event) (f : Z -> Z) : Prop :=
  match tr with
  | [] => True
  | e :: tr => event_ok e f /\ exclusive tr (after e f)
  end.

Definition call_ok (k : call) : Prop := c_seen k <> None -> c_reserve k = false.

(** chunks that are in no list: made and not used yet, or unlinked *)
Definition pending (s : system) : list pchunk_t := dropped s ++ omap snd (made s).
Definition sys_ok (s : system) : Prop :=
  upage_base (pages s) (pending s) /\ nonempty (pages s) /\
  Forall (fun a => call_ok a.1 /\ making_ok a.2) (asking s) /\ Forall call_ok (map fst (made s)).

Lemma pending_app (m1 : list (call * option pchunk_t)) x m2 :
  omap snd (m1 ++ x :: m2) = omap snd m1 ++ option_list (snd x) ++ omap snd m2.
Proof. rewrite omap_app. f_equal. by destruct x as [k [c|]]. Qed.

Lemma ustep_ok s e s' : ustep s e s' -> sys_ok s -> sys_ok s' /\ event_ok e (total_refs (g_chunks (pages s))) /\
  forall a, total_refs (g_chunks (pages s')) a = after e (total_refs (g_chunks (pages s))) a.
Proof.
  intros Hs (Hu & Hne & Ha & Hm). unfold sys_ok, pending in *. destruct Hs; cbn [pages asking made dropped] in *.
  - destruct (alloc_begin_ok _ _ _ _ _ Hu Hne H1) as (H2 & H3 & H4 & H5). done.
  - destruct (alloc_begin_ok _ _ _ _ _ Hu Hne H1) as (-> & Hseen). split; [|done].
    split; [done|]. split; [done|]. split; [|done]. by apply Forall_cons.
  - apply Forall_app in Ha as [Ha1 Ha2]. apply Forall_cons in Ha2 as [[Hk Hst] Ha2].
    destruct (make_step_ok u _ st _ m' Hu Hst H1) as [Hst' Hu']. split; [|done]. split; [done|]. split; [done|]. split; [|done].
    apply Forall_app. split; [done|]. by apply Forall_cons.
  - apply Forall_app in Ha as [Ha1 Ha2]. apply Forall_cons in Ha2 as [[Hk Hst] Ha2].
    pose proof (make_step_ok u _ st _ m' Hu Hst H1) as Hn. split; [|done]. split; [|split; [done|split; [by apply Forall_app|]]].
    + rewrite omap_app, app_assoc. destruct n as [c|]; exact Hn.
    + rewrite map_app. apply Forall_app. split; [done|]. by apply Forall_singleton.
  - rewrite pending_app in Hu. cbn [snd] in Hu. rewrite app_assoc in Hu. rewrite map_app in Hm. apply Forall_app in Hm as [Hm1 Hm2].
    cbn [map fst] in Hm2. apply Forall_cons in Hm2 as [Hk Hm2].
    destruct (alloc_end_ok _ _ _ _ _ _ _ _ Hk Hu Hne H1) as (H2 & H3 & H4 & H5). split; [|done].
    rewrite omap_app, map_app, app_assoc. split; [done|]. split; [done|]. split; [done|]. by apply Forall_app.
  - destruct (upage_ref_ok _ _ _ _ _ Hu H1) as (H2 & H3 & [(_ & Hr & Htot)|(? & _)]); [|done].
    split; [|split; [cbn; lia|done]]. split; [done|]. split; [by eapply nonempty_nused|done].
  - destruct (upage_ref_ok _ _ _ _ _ Hu H1) as (H3 & H4 & [(? & _)|(_ & -> & _)]); done.
  - destruct (free_locked_ok _ _ p _ _ Hu Hne H1) as (H2 & H3 & H4). rewrite <- app_assoc. done.
  - rewrite <- app_assoc in Hu. cbn [app] in Hu. pose proof (upage_base_return u d1 c (d2 ++ omap snd md) Hu) as Hu'.
    rewrite <- app_assoc. done.
Qed.

Lemma after_ext e f g : (forall a, f a = g a) -> forall a, after e f a = after e g a.
Proof. intros Hfg a. destruct e; cbn; by rewrite ?Hfg. Qed.

Lemma counted_ext tr : forall f g, (forall a, f a = g a) -> forall a, counted tr f a = counted tr g a.
Proof. induction tr as [|e tr IH]; intros f g Hfg a; [done|]. cbn. apply IH, after_ext, Hfg. Qed.

Lemma exclusive_ext tr : forall f g, (forall a, f a = g a) -> exclusive tr f -> exclusive tr g.
Proof.
  induction tr as [|e tr IH]; intros f g Hfg; [done|]. intros [He Htr]. split; [|by apply (IH _ _ (after_ext e f g Hfg))].
  destruct e; cbn in *; by rewrite <- ?Hfg.
Qed.

Lemma urun_ok s tr s' : urun s tr s' -> sys_ok s -> sys_ok s' /\ exclusive tr (total_refs (g_chunks (pages s))) /\
  forall a, total_refs (g_chunks (pages s')) a = counted tr (total_refs (g_chunks (pages s))) a.
Proof.
  induction 1 as [s|s e s1 tr s2 Hstep _ IH]; intros Hs; [done|].
  destruct (ustep_ok s e s1 Hstep Hs) as (H1 & H2 & H3). destruct (IH H1) as (H4 & H5 & H6).
  split; [done|]. split; [split; [done|by eapply exclusive_ext]|]. intros a. rewrite H6. exact (counted_ext tr _ _ H3 a).
Qed.

Definition start (m : M) : system := System (Upages [] 0 0 m) [] [] [].

Lemma start_ok m : env_ok m -> sys_ok (start m).
Proof.
  intros Hm. split; [|split; [constructor|split; constructor]]. split; [|split; [by split|constructor]].
  split; [done|]. split; [constructor|]. split; [constructor|]. apply NoDup_nil_2.
Qed.

(** C12: over every run of the page allocator from empty, with calls on several processors interleaved between
    its locked sections and whatever the memory below gives, upage_refs is for every address the count of the
    run's events on its page: handed out once, plus each share, less each free that found a reference. A page
    is handed out only page-aligned and while it has no reference, and shared only while it has one; every
    chunk stays well formed, disjoint from the others and from what the memory has given to anyone else. *)
Theorem upage_runs m tr s : env_ok m -> urun (start m) tr s ->
  sys_ok s /\ exclusive tr (fun _ => 0) /\ forall a, upage_refs a (pages s) = counted tr (fun _ => 0) a.
Proof.
  intros Hm Hrun. destruct (urun_ok _ _ _ Hrun (start_ok m Hm)) as (H1 & H2 & H3).
  split; [done|]. split; [exact H2|]. intros a. destruct H1 as (H4 & _). rewrite (refs_sum _ _ a H4), H3. done.
Qed.
End Inv.

#[export] Instance hmem_source : UpageEnv hmem := {|
  chunk_kzalloc := fun h => (true, h);
  chunk_kfree := fun h => h;
  frame_alloc := hmem_alloc 1;
  frame_free := fun a h => hmem_free a 1 h;
  pages_kmalloc := fun _ h => (0, h);
  pages_kfree := fun _ h => h;
  kheap_total_bytes := fun _ => 0;
  kheap_used_bytes := fun _ => 0;
|}.

Definition frame_given (h : hmem) (a : Z) : option (bool * Z) :=
  match frame h a with
  | Some true => Some (true, FRAME)
  | _ => None
  end.

Lemma frame_aligned h a b : hmem_ok h -> frame h a = Some b -> a mod FRAME = 0 /\
  exists i r f, g_r h !! i = Some r /\ a = Hmem.base r + f * FRAME /\ 0 <= f < frames r /\ bit (fmap r) f = b.
Proof.
  intros (Hl & _) Hf. unfold frame in Hf. destruct (range_of (g_r h) a 0) as [[k r]|] eqn:E; [|done]. cbn [mbind option_bind] in Hf.
  apply range_of_some in E as (i & _ & Hi & Ha). pose proof (Forall_lookup_1 _ _ _ _ Hl Hi) as Hr.
  rewrite range_end in Ha by done. destruct Hr as (Hb & _). destruct (_ =? 0) eqn:E; [|done]. zbool. injection Hf as Hf.
  split; [unfold FRAME in *; lia|]. exists i, r, ((a - Hmem.base r) / FRAME). unfold FRAME in *. split; [done|]. split; [lia|]. split; [lia|done].
Qed.

Lemma given_true h a x l : frame_given h a = Some (x, l) -> frame h a = Some true /\ x = true /\ l = FRAME.
Proof. unfold frame_given. destruct (frame h a) as [[|]|]; try done. by intros [= <- <-]. Qed.

(** one frame changes state *)
Lemma given_marked h i r f b : hmem_ok h -> g_r h !! i = Some r -> run_is r f 1 (negb b) ->
  forall a, frame_given (marked h i r f 1 b) a =
    if a =? Hmem.base r + f * FRAME then (if b then Some (true, FRAME) else None) else frame_given h a.
Proof.
  intros Hh Hi Hrun a. unfold frame_given at 1. rewrite (marked_frames h i r f 1 b a Hh Hi Hrun).
  assert (Hal : (Hmem.base r + f * FRAME) mod FRAME = 0).
  { pose proof (Forall_lookup_1 _ _ _ _ (proj1 Hh) Hi) as (Hb & _). unfold FRAME in *. lia. }
  destruct (a =? _) eqn:E; zbool.
  - subst. rewrite Hal. unfold FRAME in *. destruct (_ && _) eqn:E; [by destruct b|]. exfalso. zors; lia.
  - destruct (_ && _) eqn:E2; [|done]. zbool. destruct (a mod FRAME =? 0) eqn:E3; zbool; [exfalso; unfold FRAME in *; lia|].
    unfold frame_given. destruct (frame h a) as [[|]|] eqn:Ef; try done. destruct (frame_aligned h a true Hh Ef) as [? _]. lia.
Qed.

#[export] Instance hmem_source_laws : UpageLaws hmem.
Proof.
  refine {| env_ok := hmem_ok; given := frame_given |}.
  - intros h a b x y l k Hh (Ha & -> & ->)%given_true (Hb & -> & ->)%given_true Hne.
    destruct (frame_aligned h a true Hh Ha) as [Hal _]. destruct (frame_aligned h b true Hh Hb) as [Hbl _]. unfold FRAME in *. lia.
  - intros h ok h' Hh [= <- <-]. by split.
  - intros h Hh. by split.
  - intros h a h' Hh Hal. destruct (hmem_alloc_marked 1 h Hh ltac:(lia)) as [(i & r & f & Hi & Hrun & Heq)|[Heq _]];
      change (frame_alloc h) with (hmem_alloc 1 h) in Hal; rewrite Heq in Hal; injection Hal as <- <-; [|split; [done|by left]].
    split; [by apply marked_ok|]. right. pose proof (Forall_lookup_1 _ _ _ _ (proj1 Hh) Hi) as Hr.
    destruct (run_addr r f 1 Hr ltac:(by left)) as (_ & _ & Hal & Hlo & Hhi).
    change (PER * 4096) with FRAME. unfold LOW, HIGH in *. rewrite Z.shiftl_mul_pow2 in Hlo, Hhi by lia.
    split; [lia|]. split; [unfold FRAME in *; lia|]. split; [unfold FRAME in *; lia|]. split.
    + unfold frame_given. destruct Hrun as (Hf & _ & Hend & Hbits). rewrite (frame_at h i r) by (done || unfold FRAME; lia).
      replace (Hmem.base r + f * FRAME - Hmem.base r) with (f * FRAME) by lia. rewrite Z.mod_mul, Z.div_mul by done. cbn.
      by rewrite Hbits by lia.
    + intros b. by rewrite (given_marked h i r f true Hh Hi Hrun).
  - intros h a Hh (Ha & _ & _)%given_true. destruct (frame_aligned h a true Hh Ha) as (_ & i & r & f & Hi & -> & Hf & Hbit).
    assert (Hrun : run_is r f 1 true) by (split; [lia|split; [lia|split; [lia|intros k Hk; by replace k with f by lia]]]).
    change (frame_free (Hmem.base r + f * FRAME) h) with (hmem_free (Hmem.base r + f * FRAME) 1 h).
    rewrite (hmem_free_marked i) by done. split; [by apply marked_ok|].
    intros b. by rewrite (given_marked h i r f false Hh Hi Hrun).
  - intros h n a h' Hh Hn [= <- <-]. split; [done|]. by left.
  - intros h a n Hh (_ & _ & ->)%given_true. done.
  - intros h a n Hh (_ & Hx & _)%given_true. done.
Defined.

(** ** Witness: a page taken from a fresh frame, shared and given back once *)

Definition page0 : Z := LOW + FRAME.

Lemma demo_run_pages : exists s, urun (start demo_hmem) [Quiet; Quiet; Quiet; Got page0; Shared page0; Dropped page0] s.
Proof.
  eexists. eapply urun_step; [eapply (u_need _ _ _ _ _ false); reflexivity|].
  eapply urun_step; [eapply (u_make _ [] _ _ []); reflexivity|].
  eapply urun_step; [eapply (u_made _ [] _ _ []); reflexivity|].
  eapply urun_step; [eapply (u_end _ _ _ [] _ _ []); reflexivity|].
  eapply urun_step; [eapply u_ref; reflexivity|].
  eapply urun_step; [eapply u_free; reflexivity|]. apply urun_nil.
Qed.

Lemma upage_runs_witness : exists s, urun (start demo_hmem) [Quiet; Quiet; Quiet; Got page0; Shared page0; Dropped page0] s /\
  upage_refs (page0 + 5) (pages s) = 1.
Proof.
  destruct demo_run_pages as (s & Hs). exists s. split; [exact Hs|].
  destruct (@upage_runs hmem hmem_source hmem_source_laws demo_hmem _ s demo_hmem_ok Hs) as (_ & _ & H). exact (H (page0 + 5)).
Defined.
