(* ===== verification/Crc.v ===== *)
(** * The two CRCs (kernel/crc32c.c and crc32_update of kernel/deflate.c)

    Both are the same table-driven loop with different polynomials; the table
    is a static variable made on the first call. They are the bit-by-bit CRC,
    whose reference shifts the message in one byte at a time and divides by
    the polynomial bit by bit, and they detect every short burst. Everything
    is for an arbitrary polynomial with its top bit set, and then for the two
    of the kernel. *)

From S2P Require Import Prelude LeBytes.

Section Table.
Variable poly : Z.

(** [c = (c & 1) ? (c >> 1) ^ poly : c >> 1] *)
Definition crc_shift (c : Z) : Z :=
  if negb (Z.land c 1 =? 0) then Z.lxor (Z.shiftr c 1) poly else Z.shiftr c 1.

Definition make_table : list Z := map (Nat.iter 8 crc_shift) (seqZ 0 256).
End Table.

(** [while (len--) crc = tab[(crc ^ *p++) & 0xFF] ^ (crc >> 8)] *)
Fixpoint crc_bytes (tab : list Z) (crc : Z) (data : list Z) : Z :=
  match data with
  | [] => crc
  | b :: data => crc_bytes tab (Z.lxor (aget tab (Z.land (Z.lxor crc b) 0xFF)) (Z.shiftr crc 8)) data
  end.

Definition POLY_C : Z := 0x82F63B78.
Definition POLY_ZIP : Z := 0xEDB88320.

(** kernel/crc32c.c: g_tab and g_made *)
Record crc_state := Crc_state { g_tab : list Z; g_made : bool }.
Definition crc_zero : crc_state := Crc_state (replicate 256 0) false.

Definition crc32c (crc : Z) (data : list Z) (s : crc_state) : Z * crc_state :=
  let s := if negb (g_made s) then Crc_state (make_table POLY_C) true else s in
  let crc := u32 (Z.lnot crc) in
  (u32 (Z.lnot (crc_bytes (g_tab s) crc data)), s).

(** kernel/deflate.c: the state is g_crc_table, all zeros until it is made *)
Definition crc32_update (crc : Z) (data : list Z) (g_crc_table : list Z) : Z * list Z :=
  let tab := if aget g_crc_table 1 =? 0 then make_table POLY_ZIP else g_crc_table in
  let crc := u32 (Z.lnot crc) in
  (u32 (Z.lnot (crc_bytes tab crc data)), tab).

Section Ref.
Variable poly : Z.
Hypothesis poly_u32 : is_u32 poly.

Definition shifts (n : nat) (c : Z) : Z := Nat.iter n (crc_shift poly) c.

(** the reference: xor the byte in, then eight divisions *)
Definition crc_run (c : Z) (data : list Z) : Z := foldl (fun c b => shifts 8 (Z.lxor c b)) c data.
Definition crc_ref (crc : Z) (data : list Z) : Z := u32 (Z.lnot (crc_run (u32 (Z.lnot crc)) data)).

Lemma shift_bit c : negb (Z.land c 1 =? 0) = Z.testbit c 0.
Proof.
  assert (E : Z.land c 1 = Z.b2z (Z.testbit c 0)) by (change 1 with (Z.ones 1); rewrite Z.land_ones, Z.bit0_mod; done).
  rewrite E. by destruct (Z.testbit c 0).
Qed.

(** a division is linear over exclusive or *)
Lemma shift_lxor x y : crc_shift poly (Z.lxor x y) = Z.lxor (crc_shift poly x) (crc_shift poly y).
Proof.
  unfold crc_shift. rewrite !shift_bit, Z.lxor_spec, Z.shiftr_lxor.
  destruct (Z.testbit x 0), (Z.testbit y 0); cbn [xorb]; apply Z.bits_inj'; intros i Hi; rewrite !Z.lxor_spec;
    destruct (Z.testbit (Z.shiftr x 1) i), (Z.testbit (Z.shiftr y 1) i), (Z.testbit poly i); done.
Qed.

Lemma shifts_lxor n x y : shifts n (Z.lxor x y) = Z.lxor (shifts n x) (shifts n y).
Proof. induction n as [|n IH]; [done|]. unfold shifts in *. rewrite !Nat.iter_succ, IH. apply shift_lxor. Qed.

Lemma shifts_add m n x : shifts (m + n) x = shifts m (shifts n x).
Proof. apply Nat.iter_add. Qed.

(** bits that are shifted out without meeting the low end *)
Lemma shifts_high n y : shifts n (Z.shiftl y (Z.of_nat n)) = y.
Proof.
  revert y. induction n as [|n IH]; intros y; [apply Z.shiftl_0_r|].
  unfold shifts in *. rewrite Nat.iter_succ_r.
  assert (E : crc_shift poly (Z.shiftl y (Z.of_nat (S n))) = Z.shiftl y (Z.of_nat n)).
  { unfold crc_shift. rewrite shift_bit, Z.shiftl_spec_low by lia. rewrite Z.shiftr_shiftl_r by lia.
    replace (1 - Z.of_nat (S n)) with (- Z.of_nat n) by lia. by rewrite Z.shiftr_opp_r. }
  by rewrite E.
Qed.

Lemma lxor_u32 x y : is_u32 x -> is_u32 y -> is_u32 (Z.lxor x y).
Proof.
  unfold is_u32. intros Hx Hy. assert (0 <= Z.lxor x y) by (apply Z.lxor_nonneg; lia). split; [done|].
  apply below_pow2; [lia|done|]. intros j Hj. by rewrite Z.lxor_spec, !(testbit_above 32) by lia.
Qed.

Lemma shift_u32 x : is_u32 x -> is_u32 (crc_shift poly x).
Proof.
  intros Hx. assert (is_u32 (Z.shiftr x 1)) by (unfold is_u32 in *; rewrite Z.shiftr_div_pow2 by lia; lia).
  unfold crc_shift. case_bool; [by apply lxor_u32|done].
Qed.

Lemma shifts_u32 n x : is_u32 x -> is_u32 (shifts n x).
Proof. intros Hx. induction n as [|n IH]; [done|]. unfold shifts in *. rewrite Nat.iter_succ. by apply shift_u32. Qed.

(** ** The table *)

Lemma table_at i : 0 <= i < 256 -> aget (make_table poly) i = shifts 8 i.
Proof.
  intros Hi. unfold aget, make_table. apply list_lookup_total_correct. rewrite list_lookup_fmap, lookup_seqZ_lt by lia.
  rewrite Z2Nat.id by lia. by rewrite Z.add_0_l.
Qed.

(** a word is its low byte and the rest *)
Lemma low_high c : 0 <= c -> c = Z.lxor (Z.land c 0xFF) (Z.shiftl (Z.shiftr c 8) 8).
Proof.
  intros Hc. apply Z.bits_inj'. intros i Hi. rewrite Z.lxor_spec. change 0xFF with (Z.ones 8).
  rewrite Z.land_spec. destruct (decide (i < 8)).
  - rewrite Z.ones_spec_low, Z.shiftl_spec_low by lia. by rewrite andb_true_r, xorb_false_r.
  - rewrite Z.ones_spec_high, Z.shiftl_spec, Z.shiftr_spec by lia. rewrite andb_false_r, xorb_false_l. f_equal. lia.
Qed.

Lemma table_step c b : is_u32 c -> is_u8 b ->
  Z.lxor (aget (make_table poly) (Z.land (Z.lxor c b) 0xFF)) (Z.shiftr c 8) = shifts 8 (Z.lxor c b).
Proof.
  intros Hc Hb. assert (Hx : 0 <= Z.lxor c b) by (apply Z.lxor_nonneg; unfold is_u32, is_u8 in *; lia).
  assert (Hl : 0 <= Z.land (Z.lxor c b) 0xFF < 256) by (change 0xFF with (Z.ones 8); rewrite Z.land_ones by done; apply Z.mod_pos_bound; lia).
  rewrite table_at by done. rewrite (low_high (Z.lxor c b) Hx) at 2. rewrite shifts_lxor.
  pose proof (shifts_high 8 (Z.shiftr (Z.lxor c b) 8)) as E. change (Z.of_nat 8) with 8 in E. rewrite E, Z.shiftr_lxor.
  replace (Z.shiftr b 8) with 0; [by rewrite Z.lxor_0_r|].
  rewrite Z.shiftr_div_pow2 by lia. unfold is_u8 in Hb. symmetry. apply Z.div_small. lia.
Qed.

Lemma crc_bytes_run data : forall c, is_u32 c -> bytes data -> crc_bytes (make_table poly) c data = crc_run c data.
Proof.
  induction data as [|b data IH]; intros c Hc Hd; [done|]. apply Forall_cons in Hd as [Hb Hd]. cbn [crc_bytes].
  rewrite table_step by done. apply IH; [|done]. apply shifts_u32, lxor_u32; [done|]. unfold is_u8, is_u32 in *. lia.
Qed.

Lemma crc_run_u32 data : forall c, is_u32 c -> bytes data -> is_u32 (crc_run c data).
Proof.
  induction data as [|b data IH]; intros c Hc Hd; [done|]. apply Forall_cons in Hd as [Hb Hd]. apply (IH _); [|done].
  apply shifts_u32, lxor_u32; [done|]. unfold is_u8, is_u32 in *. lia.
Qed.

Lemma not_not c : is_u32 c -> u32 (Z.lnot (u32 (Z.lnot c))) = c.
Proof.
  intros Hc. unfold is_u32 in Hc. unfold u32. rewrite !(fun x => eq_refl : Z.lnot x = Z.pred (- x)). lia.
Qed.

Lemma not_inj x y : is_u32 x -> is_u32 y -> u32 (Z.lnot x) = u32 (Z.lnot y) -> x = y.
Proof. intros Hx Hy H. rewrite <- (not_not x), <- (not_not y), H; done. Qed.

Lemma crc_ref_app c a b : bytes a -> crc_ref (crc_ref c a) b = crc_ref c (a ++ b).
Proof.
  intros Ha. unfold crc_ref. rewrite not_not by (apply crc_run_u32; [apply u32_bound|done]).
  unfold crc_run. by rewrite foldl_app.
Qed.

(** ** Bursts *)

Hypothesis poly_top : Z.testbit poly 31 = true.

(** a division can be undone: the top bit says whether the polynomial was used *)
Lemma shift_inj x y : is_u32 x -> is_u32 y -> crc_shift poly x = crc_shift poly y -> x = y.
Proof.
  intros Hx Hy H.
  assert (Htop : forall z, is_u32 z -> Z.testbit (crc_shift poly z) 31 = Z.testbit z 0).
  { intros z Hz. unfold crc_shift. rewrite shift_bit. unfold is_u32 in Hz.
    destruct (Z.testbit z 0); [rewrite Z.lxor_spec, poly_top|]; rewrite Z.shiftr_spec by lia;
      by rewrite (testbit_above 32 z) by lia. }
  assert (H0 : Z.testbit x 0 = Z.testbit y 0) by (by rewrite <- !Htop, H).
  unfold crc_shift in H. rewrite !shift_bit, H0 in H.
  assert (Hs : Z.shiftr x 1 = Z.shiftr y 1).
  { destruct (Z.testbit y 0); [|done]. rewrite <- (Z.lxor_0_r (Z.shiftr x 1)), <- (Z.lxor_nilpotent poly), <- Z.lxor_assoc, H.
    by rewrite Z.lxor_assoc, Z.lxor_nilpotent, Z.lxor_0_r. }
  apply Z.bits_inj'. intros i Hi. destruct (decide (i = 0)) as [->|]; [done|].
  replace i with (i - 1 + 1) by lia. by rewrite <- !Z.shiftr_spec, Hs by lia.
Qed.

Lemma shifts_inj n x y : is_u32 x -> is_u32 y -> shifts n x = shifts n y -> x = y.
Proof.
  intros Hx Hy. induction n as [|n IH]; [done|]. unfold shifts in *. rewrite !Nat.iter_succ. intros H.
  apply IH, shift_inj; [by apply (shifts_u32 n)|by apply (shifts_u32 n)|done].
Qed.

Lemma lxor_cancel c x y : Z.lxor c x = Z.lxor c y -> x = y.
Proof.
  intros H. rewrite <- (Z.lxor_0_l x), <- (Z.lxor_0_l y), <- (Z.lxor_nilpotent c), !Z.lxor_assoc, H. done.
Qed.

(** equal states after the same suffix were equal before it *)
Lemma crc_run_inj data : forall x y, bytes data -> is_u32 x -> is_u32 y -> crc_run x data = crc_run y data -> x = y.
Proof.
  induction data as [|b data IH]; intros x y Hd Hx Hy H; [done|]. apply Forall_cons in Hd as [Hb Hd].
  assert (is_u32 b) by (unfold is_u8, is_u32 in *; lia).
  apply IH in H; [|done|apply shifts_u32; by apply lxor_u32..].
  apply shifts_inj in H; [|by apply lxor_u32..]. rewrite (Z.lxor_comm x), (Z.lxor_comm y) in H. by apply lxor_cancel in H.
Qed.

(** up to four bytes go in as one little-endian word *)
Fixpoint le_word (w : list Z) : Z :=
  match w with
  | [] => 0
  | b :: w => Z.lxor b (Z.shiftl (le_word w) 8)
  end.

Lemma le_word_bound w : bytes w -> 0 <= le_word w < 2 ^ (8 * zlen w).
Proof.
  induction 1 as [|b w Hb Hw IH]; [done|]. cbn [le_word]. pose proof (zlen_nonneg w). rewrite zlen_cons.
  replace (8 * (1 + zlen w)) with (8 + 8 * zlen w) by lia. rewrite Z.pow_add_r by lia.
  assert (0 <= Z.shiftl (le_word w) 8) by (apply Z.shiftl_nonneg; lia).
  assert (0 <= Z.lxor b (Z.shiftl (le_word w) 8)) by (apply Z.lxor_nonneg; unfold is_u8 in Hb; lia).
  split; [done|]. rewrite <- Z.pow_add_r by lia. apply below_pow2; [lia|done|]. intros j Hj. rewrite Z.lxor_spec, Z.shiftl_spec by lia.
  unfold is_u8 in Hb. rewrite (testbit_above 8 b) by lia. by rewrite (testbit_above (8 * zlen w) (le_word w)) by lia.
Qed.

Lemma le_word_inj w : forall w', bytes w -> bytes w' -> length w = length w' -> le_word w = le_word w' -> w = w'.
Proof.
  induction w as [|b w IH]; intros [|b' w'] Hw Hw' Hlen H; try done.
  apply Forall_cons in Hw as [Hb Hw]. apply Forall_cons in Hw' as [Hb' Hw']. cbn [le_word] in H.
  assert (Hbit : forall i, 0 <= i -> xorb (Z.testbit b i) (Z.testbit (Z.shiftl (le_word w) 8) i) =
      xorb (Z.testbit b' i) (Z.testbit (Z.shiftl (le_word w') 8) i)) by (intros; by rewrite <- !Z.lxor_spec, H).
  unfold is_u8 in *. f_equal.
  - apply Z.bits_inj'. intros i Hi. destruct (decide (i < 8)); [|by rewrite !(testbit_above 8) by lia].
    specialize (Hbit i Hi). by rewrite !Z.shiftl_spec_low, !xorb_false_r in Hbit by lia.
  - apply IH; [done|done|by injection Hlen|]. apply Z.bits_inj'. intros i Hi. specialize (Hbit (i + 8) ltac:(lia)).
    rewrite (testbit_above 8 b), (testbit_above 8 b'), !xorb_false_l, !Z.shiftl_spec, !Z.add_simpl_r in Hbit by lia. done.
Qed.

Lemma crc_run_word w : forall c, bytes w -> crc_run c w = shifts (8 * length w) (Z.lxor c (le_word w)).
Proof.
  induction w as [|b w IH] using rev_ind; intros c Hw; [cbn; by rewrite Z.lxor_0_r|].
  apply bytes_app in Hw as [Hw Hb]. unfold crc_run. rewrite foldl_app. cbn [foldl]. fold (crc_run c w). rewrite IH by done.
  assert (E : le_word (w ++ [b]) = Z.lxor (le_word w) (Z.shiftl b (Z.of_nat (8 * length w)))).
  { clear. induction w as [|x w IH]; [cbn [le_word app length]; rewrite Z.shiftl_0_l, Z.lxor_0_r, Z.lxor_0_l; symmetry; apply Z.shiftl_0_r|].
    cbn [le_word app]. rewrite IH, Z.shiftl_lxor, Z.shiftl_shiftl by lia. rewrite Z.lxor_assoc. do 3 f_equal. cbn [length]. lia. }
  rewrite E, length_app, <- Z.lxor_assoc. replace (8 * (length w + length [b]))%nat with (8 + 8 * length w)%nat by (cbn; lia).
  by rewrite shifts_add, (shifts_lxor (8 * length w) (Z.lxor c (le_word w))), shifts_high.
Qed.

Lemma burst_detected c a w w' b : is_u32 c -> bytes a -> bytes w -> bytes w' -> bytes b -> length w = length w' -> zlen w <= 4 ->
  crc_ref c (a ++ w ++ b) = crc_ref c (a ++ w' ++ b) -> w = w'.
Proof.
  intros Hc Ha Hw Hw' Hb Hlen Hz H. unfold crc_ref in H.
  assert (Hstart : is_u32 (u32 (Z.lnot c))) by apply u32_bound.
  assert (Hwu : forall v, bytes v -> length v = length w -> is_u32 (le_word v)).
  { intros v Hv Hl. pose proof (le_word_bound v Hv) as Hbd. unfold is_u32. split; [lia|].
    eapply Z.lt_le_trans; [apply Hbd|]. apply Z.pow_le_mono_r; unfold zlen in *; lia. }
  apply not_inj in H; [|apply crc_run_u32; [done|rewrite !bytes_app; done]..].
  unfold crc_run in H. rewrite !foldl_app in H. fold (crc_run (u32 (Z.lnot c)) a) in H.
  assert (Hs : is_u32 (crc_run (u32 (Z.lnot c)) a)) by (by apply crc_run_u32).
  set (s := crc_run (u32 (Z.lnot c)) a) in *. fold (crc_run s w) (crc_run s w') in H.
  fold (crc_run (crc_run s w) b) (crc_run (crc_run s w') b) in H.
  apply crc_run_inj in H; [|done|by apply crc_run_u32..]. rewrite !crc_run_word, <- Hlen in H by done.
  apply shifts_inj in H; [|apply lxor_u32; [done|by apply Hwu]..]. apply lxor_cancel in H. by apply le_word_inj.
Qed.
End Ref.

(** ** The kernel's two *)

Definition crc_made (s : crc_state) : Prop := g_made s = true -> g_tab s = make_table POLY_C.
Definition zip_made (tab : list Z) : Prop := aget tab 1 = 0 \/ tab = make_table POLY_ZIP.

Lemma crc32c_run c data s : crc_made s -> bytes data ->
  (crc32c c data s).1 = crc_ref POLY_C c data /\ crc_made (crc32c c data s).2.
Proof.
  intros Hs Hd. unfold crc32c. assert (Hpoly : is_u32 POLY_C) by done.
  destruct (g_made s) eqn:E; cbn [negb fst snd]; [rewrite (Hs E)|]; cbn [g_tab]; rewrite (crc_bytes_run POLY_C Hpoly) by (done || apply u32_bound); by split.
Qed.

Lemma crc32_update_run c data tab : zip_made tab -> bytes data ->
  (crc32_update c data tab).1 = crc_ref POLY_ZIP c data /\ zip_made (crc32_update c data tab).2.
Proof.
  intros Hs Hd. unfold crc32_update. assert (Hpoly : is_u32 POLY_ZIP) by done. destruct (aget tab 1 =? 0) eqn:E; cbn [fst snd].
  - rewrite (crc_bytes_run POLY_ZIP Hpoly) by (done || apply u32_bound). split; [done|by right].
  - zbool. destruct Hs as [|Hs]; [done|]. rewrite Hs, (crc_bytes_run POLY_ZIP Hpoly) by (done || apply u32_bound). split; [done|by right].
Qed.

(** C32: both table-driven checksums, from their first call on, are the bit-by-bit CRC of their polynomial,
    and feeding a result back in goes on with the next piece: the CRC of a concatenation. *)
Theorem crc_tables c a b s tab : crc_made s -> zip_made tab -> bytes a -> bytes b ->
  (crc32c c a s).1 = crc_ref POLY_C c a /\ crc_made (crc32c c a s).2 /\
  (let '(r, s) := crc32c c a s in (crc32c r b s).1) = crc_ref POLY_C c (a ++ b) /\
  (crc32_update c a tab).1 = crc_ref POLY_ZIP c a /\ zip_made (crc32_update c a tab).2 /\
  (let '(r, tab) := crc32_update c a tab in (crc32_update r b tab).1) = crc_ref POLY_ZIP c (a ++ b).
Proof.
  intros Hs Ht Ha Hb. destruct (crc32c_run c a s Hs Ha) as [H1 H2]. destruct (crc32_update_run c a tab Ht Ha) as [H3 H4].
  split; [done|]. split; [done|]. split.
  { destruct (crc32c c a s) as [r s']. cbn [fst snd] in *. destruct (crc32c_run r b s' H2 Hb) as [-> _].
    rewrite H1. by apply crc_ref_app. }
  split; [done|]. split; [done|]. destruct (crc32_update c a tab) as [r t']. cbn [fst snd] in *.
  destruct (crc32_update_run r b t' H4 Hb) as [-> _]. rewrite H3. by apply crc_ref_app.
Qed.

(** C33: two messages that differ only within four consecutive bytes never have the same CRC-32C. *)
Theorem crc32c_burst c a w w' b s s' : crc_made s -> crc_made s' -> is_u32 c -> bytes a -> bytes w -> bytes w' -> bytes b ->
  length w = length w' -> zlen w <= 4 -> w <> w' -> (crc32c c (a ++ w ++ b) s).1 <> (crc32c c (a ++ w' ++ b) s').1.
Proof.
  intros Hs Hs' Hc Ha Hw Hw' Hb Hlen Hz Hne H. apply Hne.
  destruct (crc32c_run c (a ++ w ++ b) s Hs) as [-> _] in H; [by rewrite !bytes_app|].
  destruct (crc32c_run c (a ++ w' ++ b) s' Hs') as [-> _] in H; [by rewrite !bytes_app|].
  by apply (burst_detected POLY_C ltac:(done) ltac:(done) c a w w' b).
Qed.

Definition digits : list Z := [49; 50; 51; 52; 53; 54; 55; 56; 57].

Lemma bytes_small l : forallb (fun b => (0 <=? b) && (b <? 256)) l = true -> bytes l.
Proof. intros H. apply Forall_forall. intros x Hx. apply list_elem_of_In in Hx. rewrite forallb_forall in H. specialize (H x Hx). zbool. unfold is_u8. lia. Qed.

(** the published check values of the two CRCs *)
Lemma crc_tables_witness :
  (let '(r, s) := crc32c 0 (take 4 digits) crc_zero in (crc32c r (drop 4 digits) s).1) = 0xE3069283 /\
  (let '(r, t) := crc32_update 0 (take 4 digits) (replicate 256 0) in (crc32_update r (drop 4 digits) t).1) = 0xCBF43926.
Proof.
  destruct (crc_tables 0 (take 4 digits) (drop 4 digits) crc_zero (replicate 256 0)) as (_ & _ & H1 & _ & _ & H2);
    [discriminate|by left|by apply bytes_small|by apply bytes_small|].
  split; [rewrite H1|rewrite H2]; reflexivity.
Defined.

Lemma crc32c_burst_witness :
  (crc32c 0 ([1; 2] ++ [3; 4; 5; 6] ++ [7]) crc_zero).1 <> (crc32c 0 ([1; 2] ++ [3; 9; 5; 200] ++ [7]) crc_zero).1.
Proof.
  apply crc32c_burst; [discriminate|discriminate|by unfold is_u32|by apply bytes_small..|reflexivity|discriminate|discriminate].
Defined.
