(* ===== verification/Volume.v ===== *)
(** * Partition tables and the volumes of drives (kernel/volume.c)

    [rd lba] is what the device's read of one sector leaves in the 512-byte
    buffer, [None] when it fails; a read of the buffer outside its 512 bytes
    is a fault ([None] of the whole result). Strings are kept as their
    characters, cut to the arrays they are copied to. *)

From S2P Require Import Prelude Lit KString Wire LeBytes.

Record vol_part_t := Vol_part {
  number : Z; base : Z; sectors : Z; mbr_type : Z; type : list Z; label : list Z;
}.

#[export] Instance vol_part_eta : Eta vol_part_t := fun p =>
  Vol_part (number p) (base p) (sectors p) (mbr_type p) (type p) (label p).
#[export] Instance vol_part_inhabited : Inhabited vol_part_t := populate (Vol_part 0 0 0 0 [] []).

Definition VOL_MAX_PARTS : Z := 32.

Definition mbr_type_name (t : Z) : list Z :=
  if t =? 0x01 then str "FAT12" else
  if (t =? 0x04) || (t =? 0x06) || (t =? 0x0E) then str "FAT16" else
  if t =? 0x0B then str "FAT32" else
  if t =? 0x0C then str "FAT32 (LBA)" else
  if t =? 0x07 then str "NTFS / exFAT" else
  if (t =? 0x0F) || (t =? 0x05) || (t =? 0x85) then str "Extended" else
  if t =? 0x82 then str "Linux swap" else
  if t =? 0x83 then str "Linux" else
  if t =? 0x8E then str "Linux LVM" else
  if t =? 0xA5 then str "FreeBSD" else
  if t =? 0xAF then str "HFS+" else
  if t =? 0xEE then str "GPT protective" else
  if t =? 0xEF then str "EFI System" else
  if t =? 0xFD then str "Linux RAID" else
  if t =? 0x00 then str "empty" else str "other".

(** the first four bytes of the type GUIDs one meets, and their names *)
Definition GPT_TYPES : list (Z * list Z) :=
  [(0xC12A7328, str "EFI System"); (0xEBD0A0A2, str "Microsoft basic data");
   (0xE3C9E316, str "Microsoft reserved"); (0xDE94BBA4, str "Windows recovery");
   (0x0FC63DAF, str "Linux filesystem"); (0x0657FD6D, str "Linux swap");
   (0xE6D6D379, str "Linux LVM"); (0x21686148, str "BIOS boot");
   (0x48465300, str "Apple HFS+"); (0x7C3457EF, str "Apple APFS");
   (0x4F68BCE3, str "Linux root (x86-64)"); (0x933AC7E1, str "Linux /home")].

Fixpoint type_named (l : list (Z * list Z)) (d1 : Z) : list Z :=
  match l with
  | [] => str "other"
  | (d, name) :: l => if d =? d1 then name else type_named l d1
  end.
(** [g]: the offset of the entry in the buffer *)
Definition gpt_type_name (b : list Z) (g : Z) : option (list Z) := d1 ← rd32 b g; Some (type_named GPT_TYPES d1).

(** the text [kstrlcpy] leaves in an array of [n] bytes *)
Definition copied (src : list Z) (n : Z) : list Z := default [] (kstrlcpy src n).1.

(** [n] is the length of [out] *)
Definition add_part (out : list vol_part_t) (max number base sectors mbr : Z) (type : list Z) : list vol_part_t :=
  if max <=? zlen out then out
  else out ++ [Vol_part number base sectors mbr (copied type 24) []].

(** the buffer's last two bytes are 55 AA *)
Definition signed (b : list Z) : option bool := x ← rd8 b 510; y ← rd8 b 511; Some ((x =? 0x55) && (y =? 0xAA)).

(** [for (k = 0; k < 16; k++) if (ge[k]) empty = 0] *)
Fixpoint all_zero (n : nat) (b : list Z) (p : Z) : option bool :=
  match n with
  | O => Some true
  | S n => x ← rd8 b p; r ← all_zero n b (p + 1); Some ((x =? 0) && r)
  end.

(** the partition's name: UTF-16LE, kept as ASCII *)
Fixpoint gpt_label (n : nat) (b : list Z) (ge c : Z) : option (list Z) :=
  match n with
  | O => Some []
  | S n =>
      lo ← rd8 b (ge + 56 + 2 * c);
      hi ← rd8 b (ge + 57 + 2 * c);
      let u := u16 (Z.lor lo (Z.shiftl hi 8)) in
      if u =? 0 then Some []
      else l ← gpt_label n b ge (c + 1); Some ((if u <? 128 then u else 63) :: l)
  end.

Section Read.
Variable rd : Z -> option (list Z).
(** the device's size *)
Variable size : Z.

(** one entry of a GPT: [b] is the sector it is in, [ge] its offset there *)
Definition gpt_entry (b : list Z) (ge i max : Z) (out : list vol_part_t) : option (list vol_part_t) :=
  e ← all_zero 16 b ge;
  if (e : bool) then Some out
  else
    first ← rd32 b (ge + 32);
    last ← rd32 b (ge + 40);
    if (first =? 0) || (size <=? first) || (last <? first) then Some out
    else
      name ← gpt_type_name b ge;
      l ← gpt_label 36 b ge 0;
      let out := add_part out max (i + 1) first (u32 (last - first + 1)) 0 name in
      Some (aset out (zlen out - 1) (aget out (zlen out - 1) <| label := l |>)).

(** [for (i = 0; i < nent && n < max; i++)] *)
Fixpoint gpt_entries (todo : nat) (ent_lba esz i max : Z) (out : list vol_part_t) : option (list vol_part_t) :=
  match todo with
  | O => Some out
  | S todo =>
      if max <=? zlen out then Some out
      else
        let off := u32 (i * esz) in
        match rd (u32 (ent_lba + off / 512)) with
        | None => Some out
        | Some b => out ← gpt_entry b (off mod 512) i max out; gpt_entries todo ent_lba esz (i + 1) max out
        end
  end.

Definition is_extended (type : Z) : bool := (type =? 0x05) || (type =? 0x0F) || (type =? 0x85).

(** the four primary entries: [mbr] is their 64 bytes *)
Fixpoint mbr_entries (todo : nat) (mbr : list Z) (i max : Z) (out : list vol_part_t) (ext_base : Z)
    : option (list vol_part_t * Z) :=
  match todo with
  | O => Some (out, ext_base)
  | S todo =>
      type ← rd8 mbr (i * 16 + 4);
      lba ← rd32 mbr (i * 16 + 8);
      cnt ← rd32 mbr (i * 16 + 12);
      if (type =? 0) || (lba =? 0) || (size <=? lba) then mbr_entries todo mbr (i + 1) max out ext_base
      else if is_extended type then mbr_entries todo mbr (i + 1) max out (if ext_base =? 0 then lba else ext_base)
      else mbr_entries todo mbr (i + 1) max (add_part out max (i + 1) lba cnt type (mbr_type_name type)) ext_base
  end.

(** the chain of logical partitions, at most [guard] long *)
Fixpoint ebr_chain (guard : nat) (ext_base ebr number max : Z) (out : list vol_part_t) : option (list vol_part_t) :=
  match guard with
  | O => Some out
  | S guard =>
      if (ebr =? 0) || (max <=? zlen out) then Some out
      else if size <=? ebr then Some out
      else
        match rd ebr with
        | None => Some out
        | Some b =>
            ok ← signed b;
            if negb ok then Some out
            else
              t0 ← rd8 b (446 + 4);
              s0 ← rd32 b (446 + 8);
              c0 ← rd32 b (446 + 12);
              let lba := u32 (ebr + s0) in
              let '(out, number) :=
                if negb (t0 =? 0) && negb (s0 =? 0) && (lba <? size)
                then (add_part out max number lba c0 t0 (mbr_type_name t0), number + 1)
                else (out, number) in
              t1 ← rd8 b (462 + 4);
              next ← rd32 b (462 + 8);
              ebr_chain guard ext_base (if negb (t1 =? 0) && negb (next =? 0) then u32 (ext_base + next) else 0) number max out
        end
  end.

(** an entry of the MBR is the protective one of a GPT *)
Fixpoint protective (todo : nat) (mbr : list Z) (i : Z) : option bool :=
  match todo with
  | O => Some false
  | S todo => t ← rd8 mbr (i * 16 + 4); r ← protective todo mbr (i + 1); Some ((t =? 0xEE) || r)
  end.

Definition EFI_PART : list Z := str "EFI PART".

(** the GPT header at sector 1, when there is one *)
Definition gpt_header (gpt : bool) : option (list Z) :=
  if gpt then
    match rd 1 with
    | Some b => if memcmp b EFI_PART 8 =? 0 then Some b else None
    | None => None
    end
  else None.

Definition read_gpt (b : list Z) (max : Z) : option (list vol_part_t) :=
  ent_lba ← rd32 b 72;
  nent ← rd32 b 80;
  esz ← rd32 b 84;
  let nent := if (esz <? 128) || (512 <? esz) || (128 <? nent) then 0 else nent in
  gpt_entries (Z.to_nat nent) ent_lba esz 0 max [].

Definition read_mbr (mbr : list Z) (max : Z) : option (list vol_part_t) :=
  '(out, ext_base) ← mbr_entries 4 mbr 0 max [] 0;
  ebr_chain 64 ext_base ext_base 5 max out.

(** the partitions and *is_gpt; [mem]: the sector buffer could be had *)
Definition volume_partitions (mem present : bool) (max : Z) : option (list vol_part_t * bool) :=
  if negb mem || negb present then Some ([], false)
  else
    match rd 0 with
    | None => Some ([], false)
    | Some b =>
        ok ← signed b;
        if negb ok then Some ([], false)
        else
          let mbr := slice b 446 510 in
          gpt ← protective 4 mbr 0;
          match gpt_header gpt with
          | Some h => out ← read_gpt h max; Some (out, true)
          | None => out ← read_mbr mbr max; Some (out, false)
          end
    end.
End Read.
