(* ===== verification/VolumeProps.v ===== *)
(** * What reading a partition table yields (kernel/volume.c)

    Whatever bytes a disk holds, the partitions listed are well formed; the
    only read outside the sector buffer is that of a GPT entry whose size lets
    it cross the end of its sector. *)

From S2P Require Import Prelude Lit KString Wire LeBytes Crc Volume.

(** a partition of a drive of [size] sectors, as the other parts may rely on *)
Record part_ok (size : Z) (p : vol_part_t) : Prop := Part_ok {
  po_number : 1 <= number p;
  po_base : 0 <= base p < size;
  po_sectors : is_u32 (sectors p);
  po_mbr : is_u8 (mbr_type p);
  po_type : zlen (type p) <= 23;
  po_label : zlen (label p) <= 36 /\ Forall (fun c => 0 < c < 128) (label p);
}.

(** the partitions found so far; the next number is at least [k] *)
Definition parts_ok (size max k : Z) (out : list vol_part_t) : Prop :=
  zlen out <= max /\ Forall (part_ok size) out /\ NoDup (map number out) /\ Forall (fun p => number p < k) out.

(** no entry of the table at [h] crosses a sector *)
Definition entries_fit (h : list Z) : Prop :=
  forall esz, rd32 h 84 = Some esz -> 128 <= esz <= 512 -> 512 mod esz = 0.

(** an entry of the table at [h] does *)
Definition entry_crosses (h : list Z) : Prop :=
  exists nent esz j, rd32 h 80 = Some nent /\ rd32 h 84 = Some esz /\ 128 <= esz <= 512 /\
    0 <= j < nent /\ nent <= 128 /\ 512 < (j * esz) mod 512 + 128.

(** sectors as the drives give them *)
Definition gives_sectors (rd : Z -> option (list Z)) : Prop :=
  forall lba b, rd lba = Some b -> bytes b /\ zlen b = 512.

Lemma copied_short src n : 0 < n -> zlen (copied src n) <= n - 1.
Proof.
  intros Hn. unfold copied, kstrlcpy, strlen. destruct (n =? 0) eqn:E; zbool; [lia|].
  cbn [fst from_option default]. unfold id. pose proof (zlen_nonneg src).
  destruct (n <=? zlen src) eqn:E2; zbool.
  - rewrite zlen_take; lia.
  - rewrite zlen_take; lia.
Qed.

Lemma parts_mono size max k k' out : parts_ok size max k out -> k <= k' -> parts_ok size max k' out.
Proof. intros (A & B & C & D) Hk. split; [done|]. split; [done|]. split; [done|]. eapply Forall_impl; [exact D|]. cbn. lia. Qed.

Lemma parts_add size max k out p : parts_ok size max k out -> zlen out < max -> part_ok size p -> k <= number p ->
  parts_ok size max (number p + 1) (out ++ [p]).
Proof.
  intros (A & B & C & D) Hl Hp Hk. split; [rewrite zlen_app, zlen_cons, zlen_nil; lia|]. split; [|split].
  - apply Forall_app. auto.
  - rewrite map_app. apply NoDup_app. split; [done|]. split; [|apply NoDup_singleton].
    intros n Hn Hn'. cbn in Hn'. rewrite list_elem_of_singleton in Hn'. subst.
    apply list_elem_of_fmap in Hn as (q & Hq & Hin). rewrite Forall_forall in D. specialize (D q Hin). lia.
  - apply Forall_app. split; [eapply Forall_impl; [exact D|]; cbn; lia|]. repeat constructor. lia.
Qed.

Lemma add_part_ok size max k out num b s t name : parts_ok size max k out -> k <= num -> 1 <= num ->
  0 <= b < size -> is_u32 s -> is_u8 t ->
  parts_ok size max (num + 1) (add_part out max num b s t name).
Proof.
  intros H Hk Hn Hb Hs Ht. unfold add_part. destruct (max <=? zlen out) eqn:E; zbool.
  - apply (parts_mono size max k); [done|lia].
  - apply (parts_add size max k out (Vol_part num b s t (copied name 24) [])); [done|lia| |done].
    split; [done|done|done|done| |]; cbn [type label]; [apply copied_short; lia|].
    split; [rewrite zlen_nil; lia|constructor].
Qed.

Lemma signed_some b : zlen b = 512 -> exists r, signed b = Some r.
Proof. intros. unfold signed. rewrite !rd8_at by lia. cbn. eauto. Qed.

Lemma all_zero_some n b p : 0 <= p -> p + Z.of_nat n <= zlen b -> exists r, all_zero n b p = Some r.
Proof.
  revert p. induction n as [|n IH]; intros p Hp Hl; cbn [all_zero]; [eauto|].
  rewrite rd8_at by lia. destruct (IH (p + 1) ltac:(lia) ltac:(lia)) as [r ->]. cbn. eauto.
Qed.

Lemma label_some n b ge c : 0 <= ge -> 0 <= c -> ge + 56 + 2 * (c + Z.of_nat n) <= zlen b ->
  exists l, gpt_label n b ge c = Some l.
Proof.
  intros Hg. revert c. induction n as [|n IH]; intros c Hc Hl; cbn [gpt_label]; [eauto|].
  rewrite !rd8_at by lia. cbn [mbind option_bind]. destruct (_ =? 0); [eauto|].
  destruct (IH (c + 1) ltac:(lia) ltac:(lia)) as (l & ->). cbn. eauto.
Qed.

Lemma label_ok n b ge c l : gpt_label n b ge c = Some l -> zlen l <= Z.of_nat n /\ Forall (fun x => 0 < x < 128) l.
Proof.
  revert c l. induction n as [|n IH]; intros c l; cbn [gpt_label].
  - intros [= <-]. split; [rewrite zlen_nil; lia|constructor].
  - destruct (rd8 b (ge + 56 + 2 * c)) as [lo|]; [|done]. destruct (rd8 b (ge + 57 + 2 * c)) as [hi|]; [|done].
    cbn [mbind option_bind]. set (u := u16 _). assert (Hu : is_u16 u) by apply u16_bound. clearbody u. unfold is_u16 in Hu.
    destruct (u =? 0) eqn:E; zbool.
    + intros [= <-]. split; [rewrite zlen_nil; lia|constructor].
    + destruct (gpt_label n b ge (c + 1)) as [k|] eqn:Ek; [|done]. intros [= <-].
      destruct (IH _ _ Ek) as [Hn Hf]. split; [rewrite zlen_cons; lia|]. constructor; [|done].
      destruct (u <? 128) eqn:E2; zbool; lia.
Qed.

(** a word that could be read was inside *)
Lemma rd32_word p i v : bytes p -> 0 <= i -> rd32 p i = Some v -> is_u32 v.
Proof.
  intros Hp Hi Hv. assert (Hl : i + 4 <= zlen p).
  { unfold rd32 in Hv. destruct (rd8 p i), (rd8 p (i + 1)), (rd8 p (i + 2)); try done. cbn in Hv.
    destruct (rd8 p (i + 3)) eqn:E; [|done]. unfold rd8 in E. destruct (0 <=? i + 3); [|done]. apply lookup_lt_Some in E.
    unfold zlen. lia. }
  destruct (rd32_in p i Hp Hi Hl) as (v' & E & H). congruence.
Qed.

Section Reading.
Context (rd : Z -> option (list Z)) (size max : Z).
Hypothesis Hrd : gives_sectors rd.

(** setting the label of the partition just added *)
Lemma label_last p l : part_ok size p -> zlen l <= 36 -> Forall (fun c => 0 < c < 128) l ->
  part_ok size (p <| label := l |>).
Proof. intros [] Hl Hf. by constructor. Qed.

(** an entry inside the buffer can be read *)
Lemma gpt_entry_some b ge i out : bytes b -> zlen b = 512 -> 0 <= ge -> ge + 128 <= 512 ->
  exists out', gpt_entry size b ge i max out = Some out'.
Proof.
  intros Hb Hl Hg Hge. unfold gpt_entry.
  destruct (all_zero_some 16 b ge ltac:(lia) ltac:(lia)) as [e ->]. cbn [mbind option_bind]. destruct e; [eauto|].
  destruct (rd32_in b (ge + 32) Hb ltac:(lia) ltac:(lia)) as (first & -> & _).
  destruct (rd32_in b (ge + 40) Hb ltac:(lia) ltac:(lia)) as (last & -> & _). cbn [mbind option_bind].
  destruct (_ || _); [eauto|]. unfold gpt_type_name.
  destruct (rd32_in b ge Hb ltac:(lia) ltac:(lia)) as (d1 & -> & _). cbn [mbind option_bind].
  destruct (label_some 36 b ge 0 Hg ltac:(lia) ltac:(lia)) as (l & ->). cbn [mbind option_bind]. eauto.
Qed.

Lemma gpt_entry_ok b ge i k out out' : bytes b -> 0 <= ge -> 0 <= i -> k <= i + 1 ->
  parts_ok size max k out -> zlen out < max -> gpt_entry size b ge i max out = Some out' -> parts_ok size max (i + 2) out'.
Proof.
  intros Hb Hg Hi Hk Ho Hm. unfold gpt_entry.
  assert (Hstay : parts_ok size max (i + 2) out) by (apply (parts_mono size max k); [done|lia]).
  destruct (all_zero 16 b ge) as [[|]|]; [by intros [= <-]| |done]. cbn [mbind option_bind].
  destruct (rd32 b (ge + 32)) as [first|] eqn:Ef; [|done]. apply (rd32_word b) in Ef as Hf; [|done|lia].
  destruct (rd32 b (ge + 40)) as [last|]; [|done]. cbn [mbind option_bind].
  destruct (_ || _) eqn:E; [by intros [= <-]|]. zbool.
  unfold gpt_type_name. destruct (rd32 b ge) as [d1|]; [|done]. cbn [mbind option_bind].
  destruct (gpt_label 36 b ge 0) as [l|] eqn:El; [|done]. destruct (label_ok 36 b ge 0 l El) as [Hll Hlf]. cbn [mbind option_bind].
  generalize (type_named GPT_TYPES d1) as nm. intros nm.
  unfold add_part. destruct (max <=? zlen out) eqn:E2; zbool; [lia|].
  set (p := Vol_part _ _ _ _ _ _).
  assert (E3 : zlen (out ++ [p]) - 1 = zlen out) by (rewrite zlen_app, zlen_cons, zlen_nil; lia).
  rewrite E3. rewrite (aget_mid out [] p) by done. rewrite (aset_mid out [] p) by done. intros [= <-].
  replace (i + 2) with (number (p <| label := l |>) + 1) by (cbn; lia).
  apply (parts_add size max k); [done|done| |cbn; lia].
  constructor; cbn -[Z.of_nat copied]; [lia|unfold is_u32 in Hf; lia|apply u32_bound|unfold is_u8; lia|apply copied_short; lia|done].
Qed.

(** an entry whose size divides the sector's ends in the sector it starts in *)
Lemma entry_inside i esz : 0 < esz -> 512 mod esz = 0 -> 0 <= i -> (i * esz) mod 512 + esz <= 512.
Proof.
  intros He Hd Hi. apply Z.mod_divide in Hd as [q Hq]; [|lia]. assert (Hq0 : 0 < q) by nia.
  rewrite Hq, Z.mul_mod_distr_r by lia. pose proof (Z.mod_pos_bound i q Hq0). nia.
Qed.

(** the parts listed, or entry [j] of those from [i] on reaches past its sector *)
Lemma gpt_entries_ok todo ent_lba esz i out : 128 <= esz <= 512 -> 0 <= i ->
  i + Z.of_nat todo <= 128 -> parts_ok size max (i + 1) out ->
  match gpt_entries rd size todo ent_lba esz i max out with
  | Some out' => parts_ok size max (i + Z.of_nat todo + 1) out'
  | None => exists j, i <= j < i + Z.of_nat todo /\ 512 < (j * esz) mod 512 + 128
  end.
Proof.
  intros He. revert i out. induction todo as [|todo IH]; intros i out Hi Ht Ho; cbn [gpt_entries].
  { by rewrite Z.add_0_r. }
  assert (Hstay : parts_ok size max (i + Z.of_nat (S todo) + 1) out) by (apply (parts_mono size max (i + 1)); [done|lia]).
  destruct (max <=? zlen out) eqn:E; zbool; [done|].
  rewrite (u32_small (i * esz)) by (unfold is_u32; nia).
  pose proof (Z.mod_pos_bound (i * esz) 512 ltac:(lia)).
  destruct (rd _) as [b|] eqn:Eb; [|done]. destruct (Hrd _ _ Eb) as [Hb Hl].
  destruct (gpt_entry size b ((i * esz) mod 512) i max out) as [out'|] eqn:Eg; cbn [mbind option_bind].
  - pose proof (gpt_entry_ok b ((i * esz) mod 512) i (i + 1) out out' Hb ltac:(lia) Hi ltac:(lia) Ho ltac:(lia) Eg) as Ho'.
    specialize (IH (i + 1) out' ltac:(lia) ltac:(lia)). replace (i + 1 + 1) with (i + 2) in IH by lia. specialize (IH Ho').
    destruct (gpt_entries _ _ _ _ _ _ _ _).
    + by replace (i + Z.of_nat (S todo) + 1) with (i + 1 + Z.of_nat todo + 1) by lia.
    + destruct IH as (j & Hj & Hc). exists j. split; [lia|done].
  - exists i. split; [lia|]. destruct (Z.le_gt_cases ((i * esz) mod 512 + 128) 512) as [Hle|]; [|lia].
    destruct (gpt_entry_some b ((i * esz) mod 512) i out Hb Hl ltac:(lia) Hle). congruence.
Qed.

Lemma read_gpt_ok h : bytes h -> zlen h = 512 -> 0 <= max ->
  match read_gpt rd size h max with
  | Some out => parts_ok size max 129 out
  | None => entry_crosses h
  end.
Proof.
  intros Hb Hl Hm. unfold read_gpt.
  destruct (rd32_in h 72 Hb ltac:(lia) ltac:(lia)) as (lba & -> & _).
  destruct (rd32_in h 80 Hb ltac:(lia) ltac:(lia)) as (nent & Hne & Hn). rewrite Hne.
  destruct (rd32_in h 84 Hb ltac:(lia) ltac:(lia)) as (esz & He & _). rewrite He. cbn [mbind option_bind].
  assert (H0 : parts_ok size max 1 []).
  { split; [rewrite zlen_nil; lia|]. split; [constructor|]. split; constructor. }
  destruct (_ || _) eqn:E; zbool.
  { apply (parts_mono size max 1); [done|lia]. }
  unfold is_u32 in Hn. pose proof (gpt_entries_ok (Z.to_nat nent) lba esz 0 [] ltac:(lia) ltac:(lia) ltac:(lia) H0) as Hg.
  destruct (gpt_entries _ _ _ _ _ _ _ _) as [out|].
  - apply (parts_mono size max _ _ _ Hg). lia.
  - destruct Hg as (j & Hj & Hc). exists nent, esz, j. split_and!; (done || lia).
Qed.

Lemma mbr_entries_ok todo mbr i out ext : bytes mbr -> zlen mbr = 64 -> 0 <= i -> i + Z.of_nat todo = 4 ->
  parts_ok size max (i + 1) out ->
  exists out' ext', mbr_entries size todo mbr i max out ext = Some (out', ext') /\ parts_ok size max 5 out'.
Proof.
  intros Hb Hl. revert i out ext. induction todo as [|todo IH]; intros i out ext Hi Ht Ho; cbn [mbr_entries].
  { exists out, ext. split; [done|]. by replace 5 with (i + 1) by lia. }
  assert (Hstay : parts_ok size max (i + 1 + 1) out) by (apply (parts_mono size max (i + 1)); [done|lia]).
  rewrite rd8_at by lia. pose proof (byte_at mbr (i * 16 + 4) Hb ltac:(lia)) as Ht8.
  destruct (rd32_in mbr (i * 16 + 8) Hb ltac:(lia) ltac:(lia)) as (lba & -> & Hlba).
  destruct (rd32_in mbr (i * 16 + 12) Hb ltac:(lia) ltac:(lia)) as (cnt & -> & Hcnt). cbn [mbind option_bind].
  destruct (_ || _) eqn:E; [apply IH; [lia|lia|done]|]. zbool.
  destruct (is_extended _); [apply IH; [lia|lia|done]|]. apply IH; [lia|lia|].
  unfold is_u32 in Hlba. apply (add_part_ok size max (i + 1)); [done|lia|lia|lia|done|done].
Qed.

Lemma ebr_chain_ok guard ext ebr num out : 5 <= num -> parts_ok size max num out ->
  exists out', ebr_chain rd size guard ext ebr num max out = Some out' /\ parts_ok size max (num + Z.of_nat guard) out'.
Proof.
  revert ebr num out. induction guard as [|guard IH]; intros ebr num out Hn Ho; cbn [ebr_chain].
  { exists out. split; [done|]. by rewrite Z.add_0_r. }
  assert (Hstay : parts_ok size max (num + Z.of_nat (S guard)) out) by (apply (parts_mono size max num); [done|lia]).
  destruct (_ || _) eqn:E; [by eauto|]. zbool. destruct (size <=? ebr) eqn:E2; [by eauto|].
  destruct (rd ebr) as [b|] eqn:Eb; [|by eauto]. destruct (Hrd _ _ Eb) as [Hb Hl].
  destruct (signed_some b Hl) as [ok ->]. cbn [mbind option_bind]. destruct (negb ok); [by eauto|].
  rewrite !rd8_at by lia. pose proof (byte_at b (446 + 4) Hb ltac:(lia)) as Ht8.
  destruct (rd32_in b (446 + 8) Hb ltac:(lia) ltac:(lia)) as (s0 & -> & Hs0).
  destruct (rd32_in b (446 + 12) Hb ltac:(lia) ltac:(lia)) as (c0 & -> & Hc0).
  destruct (rd32_in b (462 + 8) Hb ltac:(lia) ltac:(lia)) as (next & -> & _). cbn [mbind option_bind].
  destruct (_ && _) eqn:E3; zbool; cbn [mbind option_bind].
  - pose proof (u32_bound (ebr + s0)). unfold is_u32 in *.
    destruct (IH (if negb (aget b (462 + 4) =? 0) && negb (next =? 0) then u32 (ext + next) else 0) (num + 1)
      (add_part out max num (u32 (ebr + s0)) c0 (aget b (446 + 4)) (mbr_type_name (aget b (446 + 4)))) ltac:(lia)) as (o & -> & Ho').
    { apply (add_part_ok size max num); [done|lia|lia|lia|done|done]. }
    exists o. split; [done|]. apply (parts_mono size max _ _ _ Ho'). lia.
  - destruct (IH (if negb (aget b (462 + 4) =? 0) && negb (next =? 0) then u32 (ext + next) else 0) num out Hn Ho) as (o & -> & Ho').
    exists o. split; [done|]. apply (parts_mono size max _ _ _ Ho'). lia.
Qed.
End Reading.

Lemma parts_nil size max k : 0 <= max -> parts_ok size max k [].
Proof. intros. split; [rewrite zlen_nil; lia|]. split; [constructor|]. split; constructor. Qed.

Lemma read_mbr_ok rd size max mbr : gives_sectors rd -> bytes mbr -> zlen mbr = 64 -> 0 <= max ->
  exists out, read_mbr rd size mbr max = Some out /\ parts_ok size max 69 out.
Proof.
  intros Hrd Hb Hl Hm. unfold read_mbr.
  destruct (mbr_entries_ok size max 4 mbr 0 [] 0 Hb Hl ltac:(lia) ltac:(lia) (parts_nil size max (0 + 1) Hm)) as (out & ext & -> & Ho).
  cbn [mbind option_bind].
  destruct (ebr_chain_ok rd size max Hrd 64 ext ext 5 out ltac:(lia) Ho) as (out' & -> & Ho'). by eauto.
Qed.

Lemma protective_some n mbr i : zlen mbr = 64 -> 0 <= i -> i + Z.of_nat n <= 4 -> exists g, protective n mbr i = Some g.
Proof.
  intros Hl. revert i. induction n as [|n IH]; intros i Hi Hn; cbn [protective]; [eauto|].
  rewrite rd8_at by lia. destruct (IH (i + 1) ltac:(lia) ltac:(lia)) as [g ->]. cbn. eauto.
Qed.

(** C34: reading the partition table of any disk, whatever its bytes, ends. It
    lists at most [max] partitions, each well formed - it starts inside the
    drive, its numbers and texts fit their fields, and no two have the same
    number, by which the other parts name them - unless it reads outside the
    sector buffer, and the only way to make it do that is a GPT whose entry
    size puts an entry across the end of a sector; with a size that divides
    512, as the standard asks, it never does. *)
Theorem partitions_well_formed rd size mem present max : gives_sectors rd -> 0 <= max ->
  match volume_partitions rd size mem present max with
  | Some (parts, gpt) => zlen parts <= max /\ Forall (part_ok size) parts /\ NoDup (map number parts)
  | None => exists h, rd 1 = Some h /\ entry_crosses h /\ ~ entries_fit h
  end.
Proof.
  intros Hrd Hm.
  enough (match volume_partitions rd size mem present max with
          | Some (parts, gpt) => exists k, parts_ok size max k parts
          | None => exists h, rd 1 = Some h /\ entry_crosses h end) as H.
  { destruct (volume_partitions rd size mem present max) as [[parts gpt]|]; [by destruct H as (k & A & B & C & _)|].
    destruct H as (h & E & Hc). exists h. split; [done|]. split; [done|]. intros Hfit.
    destruct Hc as (nent & esz & j & _ & He & Hr & Hj & _ & Hlt).
    pose proof (entry_inside j esz ltac:(lia) (Hfit esz He Hr) ltac:(lia)). lia. }
  unfold volume_partitions. destruct (_ || _).
  { exists 0. by apply parts_nil. }
  destruct (rd 0) as [b|] eqn:E0; [|exists 0; by apply parts_nil].
  destruct (Hrd _ _ E0) as [Hb Hl]. destruct (signed_some b Hl) as [ok ->]. cbn [mbind option_bind].
  destruct (negb ok); [exists 0; by apply parts_nil|].
  assert (Hl' : zlen (slice b 446 510) = 64) by (rewrite zlen_slice; lia).
  destruct (protective_some 4 (slice b 446 510) 0 Hl' ltac:(lia) ltac:(lia)) as [g ->]. cbn [mbind option_bind].
  destruct (gpt_header rd g) as [h|] eqn:Eh.
  - assert (E1 : rd 1 = Some h).
    { unfold gpt_header in Eh. destruct g; [|done]. destruct (rd 1) as [h'|]; [|done]. destruct (_ =? 0); congruence. }
    destruct (Hrd _ _ E1) as [Hh Hlh]. pose proof (read_gpt_ok rd size max Hrd h Hh Hlh Hm) as Ho.
    destruct (read_gpt rd size h max); cbn; eauto.
  - destruct (read_mbr_ok rd size max (slice b 446 510) Hrd (bytes_slice b 446 510 Hb) Hl' Hm) as (out & -> & Ho). cbn. eauto.
Qed.

(** ** Disks to try it on *)

(** a boot sector with one entry in its table *)
Definition demo_mbr (type lba cnt : Z) : list Z :=
  replicate 446 0 ++ [0; 0; 0; 0; type; 0; 0; 0] ++ le32 lba ++ le32 cnt ++ replicate 48 0 ++ [0x55; 0xAA].

(** a GPT header for [nent] entries of [esz] bytes from sector 2 on *)
Definition demo_header (nent esz : Z) : list Z :=
  EFI_PART ++ replicate 64 0 ++ le64 2 ++ le32 nent ++ le32 esz ++ replicate 424 0.

(** an entry named "data" *)
Definition demo_entry (first last : Z) : list Z :=
  le32 0x0FC63DAF ++ replicate 28 1 ++ le64 first ++ le64 last ++ replicate 8 0
  ++ [100; 0; 97; 0; 116; 0; 97; 0] ++ replicate 64 0.

Definition demo_gpt (lba : Z) : option (list Z) :=
  if lba =? 0 then Some (demo_mbr 0xEE 1 99999)
  else if lba =? 1 then Some (demo_header 4 128)
  else if lba =? 2 then Some (demo_entry 2048 4095 ++ replicate 128 0 ++ demo_entry 8192 12287 ++ replicate 128 0)
  else None.

Lemma gives_demo : gives_sectors demo_gpt.
Proof.
  intros lba b. unfold demo_gpt.
  repeat (destruct (_ =? _); [intros [= <-]; split; [by apply bytes_small|reflexivity]|]). done.
Qed.

(** Entries of 160 bytes are accepted, and the fourth begins 32 bytes before
    the end of its sector: its fields are read past the buffer. *)
Definition crossing_gpt (lba : Z) : option (list Z) :=
  if lba =? 0 then Some (demo_mbr 0xEE 1 99999)
  else if lba =? 1 then Some (demo_header 4 160)
  else if lba =? 2 then Some (replicate 512 1)
  else None.

Lemma gives_crossing : gives_sectors crossing_gpt.
Proof.
  intros lba b. unfold crossing_gpt.
  repeat (destruct (_ =? _); [intros [= <-]; split; [by apply bytes_small|reflexivity]|]). done.
Qed.

(** a disk with two partitions, and one whose table crosses a sector *)
Lemma partitions_well_formed_witness :
  match volume_partitions demo_gpt 100000 true true 32 with
  | Some (parts, gpt) => zlen parts <= 32 /\ Forall (part_ok 100000) parts /\ NoDup (map number parts)
  | None => exists h, demo_gpt 1 = Some h /\ entry_crosses h /\ ~ entries_fit h
  end /\
  match volume_partitions crossing_gpt 100000 true true 32 with
  | Some (parts, gpt) => zlen parts <= 32 /\ Forall (part_ok 100000) parts /\ NoDup (map number parts)
  | None => exists h, crossing_gpt 1 = Some h /\ entry_crosses h /\ ~ entries_fit h
  end.
Proof.
  split.
  - exact (partitions_well_formed demo_gpt 100000 true true 32 gives_demo ltac:(lia)).
  - exact (partitions_well_formed crossing_gpt 100000 true true 32 gives_crossing ltac:(lia)).
Defined.

Example demo_parts : volume_partitions demo_gpt 100000 true true 32 =
  Some ([Vol_part 1 2048 2048 0 (str "Linux filesystem") (str "data");
         Vol_part 3 8192 4096 0 (str "Linux filesystem") (str "data")], true).
Proof. vm_compute. reflexivity. Qed.

(** ** What the code lets a disk do *)

Theorem gpt_entry_crosses : volume_partitions crossing_gpt 100000 true true 32 = None.
Proof. vm_compute. reflexivity. Qed.

(** A logical partition's start is not checked for zero, as a primary one's
    is: the sum wraps, and partition 5 is the boot sector. *)
Definition wrapping_ebr (lba : Z) : option (list Z) :=
  if lba =? 0 then Some (demo_mbr 0x0F 2048 90000)
  else if lba =? 2048 then Some (demo_mbr 0x83 (2 ^ 32 - 2048) 5000)
  else None.

Theorem logical_wraps_to_zero : volume_partitions wrapping_ebr 100000 true true 32 =
  Some ([Vol_part 5 0 5000 0x83 (str "Linux") []], false).
Proof. vm_compute. reflexivity. Qed.
