(* ===== verification/Blockdev.v ===== *)
(** * Drives and their mounted volumes (kernel/blockdev.c, and the mounting of
    kernel/volume.c)

    The table of drives, the volumes mounted from each, and mounting what a
    drive holds. The file system, its drivers and the drives themselves are
    the class [BlockEnv] over a state [F]; a drive's driver is the number
    [drv]. Mounting runs in the automount task: one pass of its loop over the
    drives is [automount_pass]. *)

From S2P Require Import Prelude Lit KString Volume.

Definition BLOCKDEV_MAX : Z := 16.
Definition BD_MAX_VOLS : Z := 8.
Definition FS_MAX_MOUNTS : Z := 16.
Definition FS_PATH_LEN : Z := 512.

Record blockdev_t := Blockdev {
  used : bool; present : bool; name : list Z; kind : list Z; model : list Z;
  sectors : Z; sector_size : Z; drv : Z; mount_state : Z; mnt : Z; nvol : Z;
  vol_mnt : list Z; vol_base : list Z; system : bool;
}.
#[export] Instance blockdev_eta : Eta blockdev_t := fun d =>
  Blockdev (used d) (present d) (name d) (kind d) (model d) (sectors d) (sector_size d) (drv d)
    (mount_state d) (mnt d) (nvol d) (vol_mnt d) (vol_base d) (system d).
Definition blockdev_zero : blockdev_t :=
  Blockdev false false [] [] [] 0 0 0 0 0 0 (replicate 8 0) (replicate 8 0) false.
#[export] Instance blockdev_inhabited : Inhabited blockdev_t := populate blockdev_zero.

(** what the code calls. [vol_mount f dev base where] is g_fs[f]->mount: the
    mount id (or -1, -2), the error text, the new state *)
Class BlockEnv (F : Type) := {
  dev_read : F -> Z -> Z -> option (list Z);
  fs_unmount : Z -> F -> F;
  fs_is_ready : F -> bool;
  fs_find_dir : F -> list Z -> Z;
  fs_path_mount : F -> list Z -> bool;
  fs_list_dirs : F -> list Z -> Z;
  fs_list_files : F -> list Z -> Z;
  vol_mount : nat -> Z -> Z -> list Z -> F -> Z * list Z * F;
  vol_describe : nat -> F -> Z -> option (list Z);
  vol_space : nat -> F -> Z -> option (Z * Z);
}.

(** the drivers, in the order they are tried: fat32_volfs and exfat_volfs *)
Definition NFS : nat := 2.
Definition fs_name (f : nat) : list Z := match f with O => str "FAT32" | _ => str "exFAT" end.
Definition fs_type (f : nat) : list Z := match f with O => str "fat32" | _ => str "exfat" end.

Section Blockdev.
Context {F : Type} `{BlockEnv F}.

Record drives := Drives { g_bd : list blockdev_t; g_go : bool; fsys : F }.
#[export] Instance drives_eta : Eta drives := fun s => Drives (g_bd s) (g_go s) (fsys s).

Definition bd_at (s : drives) (i : Z) : blockdev_t := aget (g_bd s) i.
Definition set_bd (i : Z) (f : blockdev_t -> blockdev_t) (s : drives) : drives :=
  s <| g_bd ::= fun l => aset l i (f (aget l i)) |>.

Definition blockdev_start_mounting (s : drives) : drives := s <| g_go := true |>.

(** ** The table *)

Fixpoint count_kind (l : list blockdev_t) (k : list Z) : Z :=
  match l with
  | [] => 0
  | d :: l => (if used d && (strcmp (kind d) k =? 0) then 1 else 0) + count_kind l k
  end.

Fixpoint free_slot (l : list blockdev_t) (i : Z) : option Z :=
  match l with
  | [] => None
  | d :: l => if used d then free_slot l (i + 1) else Some i
  end.

(** "%s%d" into name[16] *)
Definition drive_name (k : list Z) (same : Z) : list Z :=
  c_string (ksnprintf (replicate 16 0) 16 (str "%s%d") [Str (Some k); Int same]).1.

Definition blockdev_register_kind (k m : list Z) (sectors sector_size drv : Z) (s : drives) : option Z * drives :=
  let same := count_kind (g_bd s) k in
  match free_slot (g_bd s) 0 with
  | Some i =>
      (Some i, set_bd i (fun _ => Blockdev true true (drive_name k same) (copied k 8) (copied m 40) sectors sector_size drv
                                    0 0 0 (replicate 8 0) (replicate 8 0) false) s)
  | None => (None, s)
  end.

Definition blockdev_register (m : list Z) (sectors sector_size drv : Z) (s : drives) : option Z * drives :=
  blockdev_register_kind (str "usb") m sectors sector_size drv s.

(** fs_unmount of the volumes [v..] *)
Fixpoint unmount_all (n : nat) (d : blockdev_t) (v : Z) (f : F) : F :=
  match n with
  | O => f
  | S n => unmount_all n d (v + 1) (fs_unmount (aget (vol_mnt d) v) f)
  end.

Definition drop_volumes (i : Z) (s : drives) : drives :=
  let d := bd_at s i in
  set_bd i (fun d => d <| nvol := 0 |> <| mnt := 0 |>) (s <| fsys ::= unmount_all (Z.to_nat (nvol d)) d 0 |>).

Definition blockdev_unregister (i : Z) (s : drives) : drives :=
  if negb (used (bd_at s i)) then s
  else
    let s := set_bd i (fun d => d <| present := false |>) s in
    let s := if negb (nvol (bd_at s i) =? 0) then drop_volumes i s else s in
    set_bd i (fun d => d <| used := false |>) s.

Definition blockdev_get (i : Z) (s : drives) : option Z :=
  if (0 <=? i) && (i <? BLOCKDEV_MAX) && used (bd_at s i) then Some i else None.

Fixpoint find_named (l : list blockdev_t) (n : list Z) (i : Z) : option Z :=
  match l with
  | [] => None
  | d :: l => if used d && (strcmp (name d) n =? 0) then Some i else find_named l n (i + 1)
  end.
Definition blockdev_find (n : list Z) (s : drives) : option Z := find_named (g_bd s) n 0.

Definition blockdev_add_volume (i m b : Z) (s : drives) : drives :=
  if BD_MAX_VOLS <=? nvol (bd_at s i) then s
  else
    set_bd i (fun d =>
      let d := d <| vol_mnt ::= fun l => aset l (nvol d) m |> <| vol_base ::= fun l => aset l (nvol d) b |>
                 <| nvol ::= fun n => n + 1 |> in
      d <| mnt := aget (vol_mnt d) 0 |> <| mount_state := 1 |>) s.

(** the volume of [d] with mount id [m], from [v] on *)
Fixpoint vol_index (n : nat) (d : blockdev_t) (m v : Z) : option Z :=
  match n with
  | O => None
  | S n => if aget (vol_mnt d) v =? m then Some v else vol_index n d m (v + 1)
  end.

(** the first drive in use with a volume of mount id [m], and the volume *)
Fixpoint mount_index (l : list blockdev_t) (m i : Z) : option (Z * Z) :=
  match l with
  | [] => None
  | d :: l =>
      if negb (used d) then mount_index l m (i + 1)
      else match vol_index (Z.to_nat (nvol d)) d m 0 with
           | Some v => Some (i, v)
           | None => mount_index l m (i + 1)
           end
  end.

Definition blockdev_of_mount (m : Z) (s : drives) : option (Z * Z) :=
  '(i, v) ← mount_index (g_bd s) m 0; Some (i, aget (vol_base (bd_at s i)) v).

(** [for (k = v; k + 1 < nvol; k++) l[k] = l[k + 1]] *)
Fixpoint shift_down (n : nat) (l : list Z) (k : Z) : list Z :=
  match n with
  | O => l
  | S n => shift_down n (aset l k (aget l (k + 1))) (k + 1)
  end.

(** the drive's volume [v] taken out of its arrays *)
Definition without_volume (v : Z) (d : blockdev_t) : blockdev_t :=
  let n := Z.to_nat (nvol d - 1 - v) in
  let d := d <| vol_mnt ::= fun l => shift_down n l v |> <| vol_base ::= fun l => shift_down n l v |>
             <| nvol ::= fun n => n - 1 |> in
  let d := d <| mnt := if negb (nvol d =? 0) then aget (vol_mnt d) 0 else 0 |> in
  if nvol d =? 0 then d <| mount_state := 2 |> else d.

Definition blockdev_eject (m : Z) (s : drives) : Z * drives :=
  match mount_index (g_bd s) m 0 with
  | None => (0, s)
  | Some (i, v) => (1, set_bd i (without_volume v) (s <| fsys ::= fs_unmount m |>))
  end.

Definition blockdev_eject_all (i : Z) (s : drives) : drives :=
  if negb (used (bd_at s i)) then s
  else set_bd i (fun d => d <| mount_state := 2 |>) (drop_volumes i s).

Definition blockdev_retry_all (s : drives) : drives :=
  s <| g_bd ::= map (fun d =>
    if used d && present d && negb (system d) && (nvol d =? 0) then d <| mount_state := 0 |> else d) |>.

Definition blockdev_set_system (i : Z) (s : drives) : drives :=
  if negb (used (bd_at s i)) then s
  else
    let s := if negb (nvol (bd_at s i) =? 0) then drop_volumes i s else s in
    set_bd i (fun d => d <| system := true |> <| mount_state := 2 |>) s.

(** ** Mounting (kernel/volume.c) *)

Definition kind_or_usb (d : blockdev_t) : list Z := if negb (first_char (kind d) =? 0) then kind d else str "usb".

(** "/mnt/%s" or "/mnt/%s%d" *)
Definition point_text (k : list Z) (i : Z) : list Z :=
  if i =? 1 then c_string (ksnprintf (replicate 512 0) FS_PATH_LEN (str "/mnt/%s") [Str (Some k)]).1
  else c_string (ksnprintf (replicate 512 0) FS_PATH_LEN (str "/mnt/%s%d") [Str (Some k); Int i]).1.

(** the first free one; the last one tried when none is *)
Fixpoint free_point (n : nat) (i : Z) (k : list Z) (f : F) : list Z :=
  let w := point_text k i in
  match n with
  | O => w
  | S n =>
      if fs_find_dir f w <? 0 then w
      else if negb (fs_path_mount f w) && (fs_list_dirs f w =? 0) && (fs_list_files f w =? 0) then w
      else match n with O => w | S _ => free_point n (i + 1) k f end
  end.

Definition no_volume : list Z := str "no FAT32 or exFAT volume there".

(** the drivers from [f] on: the mount id, or -1 with the first error *)
Fixpoint try_mounts (todo : nat) (f : nat) (i b : Z) (w first_err : list Z) (s : drives) : Z * list Z * drives :=
  match todo with
  | O => (-1, (if negb (first_char first_err =? 0) then first_err else no_volume), s)
  | S todo =>
      let '(m, e, fs) := vol_mount f (drv (bd_at s i)) b w (fsys s) in
      let s := s <| fsys := fs |> in
      if 0 <? m then (m, [], blockdev_add_volume i m b s)
      else
        let first_err :=
          if (m =? -1) && (first_char first_err =? 0)
          then c_string (ksnprintf (replicate 96 0) 96 (str "%s: %s") [Str (Some (fs_name f)); Str (Some e)]).1
          else first_err in
        try_mounts todo (S f) i b w first_err s
  end.

(** the mount id and what is in err, a buffer of [errcap] bytes *)
Definition volume_mount_at (i b : Z) (path : option (list Z)) (errcap : Z) (s : drives) : Z * list Z * drives :=
  let w := match path with
           | Some p => copied p FS_PATH_LEN
           | None => free_point (Z.to_nat (FS_MAX_MOUNTS + 1)) 1 (kind_or_usb (bd_at s i)) (fsys s)
           end in
  let '(m, e, s) := try_mounts NFS 0 i b w [] s in
  (m, copied e errcap, s).

(** the partitions that a driver knows, while the drive has room for volumes *)
Fixpoint mount_parts (ps : list vol_part_t) (i mounted : Z) (first_err : list Z) (s : drives) : Z * list Z * drives :=
  match ps with
  | [] => (mounted, first_err, s)
  | p :: ps =>
      if BD_MAX_VOLS <=? nvol (bd_at s i) then (mounted, first_err, s)
      else
        let '(m, e, s) := volume_mount_at i (Volume.base p) None 96 s in
        if 0 <? m then mount_parts ps i (mounted + 1) first_err s
        else
          let first_err :=
            if (first_char first_err =? 0) && negb (strncmp e (str "no FAT32") 8 =? 0)
            then c_string (ksnprintf (replicate 96 0) 96 (str "partition %d: %s") [Int (number p); Str (Some e)]).1
            else first_err in
          mount_parts ps i mounted first_err s
  end.

(** [mem], [mem2]: the partition list and volume_partitions' buffer could be had *)
Definition volume_mount_all (mem mem2 : bool) (i errcap : Z) (s : drives) : option (Z * list Z * drives) :=
  let '(m, e, s) := volume_mount_at i 0 None 96 s in
  if 0 <? m then Some (1, [], s)
  else if negb mem then Some (0, copied (str "out of memory") errcap, s)
  else
    let d := bd_at s i in
    '(parts, _) ← volume_partitions (dev_read (fsys s) (drv d)) (sectors d) mem2 (present d) VOL_MAX_PARTS;
    let '(mounted, first_err, s) := mount_parts parts i 0 [] s in
    let err := if mounted =? 0
               then copied (if negb (first_char first_err =? 0) then first_err
                            else if negb (zlen parts =? 0) then str "no FAT32 or exFAT partition"
                            else str "no FAT32 or exFAT volume found") errcap
               else [] in
    Some (mounted, err, s).

Definition ready_to_mount (s : drives) (i : Z) : bool :=
  let d := bd_at s i in
  g_go s && fs_is_ready (fsys s) && used d && present d && negb (system d) && (mount_state d =? 0).

(** one pass of automount_task over the drives [i..]; [mem] answers for each *)
Fixpoint automount_pass (todo : nat) (mem : Z -> bool) (i : Z) (s : drives) : option drives :=
  match todo with
  | O => Some s
  | S todo =>
      if negb (ready_to_mount s i) then automount_pass todo mem (i + 1) s
      else
        '(n, _, s) ← volume_mount_all (mem i) (mem i) i 96 s;
        automount_pass todo mem (i + 1) (if n <=? 0 then set_bd i (fun d => d <| mount_state := -1 |>) s else s)
  end.

Fixpoint describe_from (todo f : nat) (m : Z) (fs : F) : option (nat * list Z) :=
  match todo with
  | O => None
  | S todo => match vol_describe f fs m with
              | Some t => Some (f, t)
              | None => describe_from todo (S f) m fs
              end
  end.
Definition volume_describe (m : Z) (s : drives) : option (list Z) := snd <$> describe_from NFS 0 m (fsys s).
Definition volume_fs_name (m : Z) (s : drives) : list Z :=
  match describe_from NFS 0 m (fsys s) with
  | Some (f, _) => fs_type f
  | None => []
  end.

Fixpoint space_from (todo f : nat) (m : Z) (fs : F) : option (Z * Z) :=
  match todo with
  | O => None
  | S todo => match vol_space f fs m with
              | Some t => Some t
              | None => space_from todo (S f) m fs
              end
  end.
Definition volume_space (m : Z) (s : drives) : option (Z * Z) := space_from NFS 0 m (fsys s).
End Blockdev.
#[global] Arguments drives : clear implicits.
