(* ===== verification/BlockdevProps.v ===== *)
(** * What the drive table keeps (kernel/blockdev.c)

    Over every run of registrations, removals, mounts and ejections a mount
    id belongs to one volume of one drive, so that ejecting it removes that
    volume alone. The file system promises [BlockLaws]. *)

From S2P Require Import Prelude Lit KString KStringProps Volume Blockdev.

(** what the file systems promise: a mount that succeeds gets an id no
    mounted one has, and unmounting ends that mount only *)
Class BlockLaws (F : Type) `{BlockEnv F} := {
  fs_mounted : F -> Z -> Prop;
  unmounted : forall f m m', fs_mounted (fs_unmount m f) m' <-> fs_mounted f m' /\ m' <> m;
  mount_fresh : forall k d b w f m e f', vol_mount k d b w f = (m, e, f') -> 0 < m ->
    ~ fs_mounted f m /\ forall m', fs_mounted f' m' <-> m' = m \/ fs_mounted f m';
  mount_failed : forall k d b w f m e f', vol_mount k d b w f = (m, e, f') -> m <= 0 ->
    forall m', fs_mounted f' m' <-> fs_mounted f m';
}.

(** ** Lists of volumes *)

Lemma zlen_shift_down n l k : zlen (shift_down n l k) = zlen l.
Proof. revert l k. induction n as [|n IH]; intros l k; cbn [shift_down]; [done|]. by rewrite IH, zlen_aset. Qed.

Lemma aget_shift_down n l k j : 0 <= k -> k + Z.of_nat n < zlen l -> 0 <= j ->
  aget (shift_down n l k) j = if (k <=? j) && (j <? k + Z.of_nat n) then aget l (j + 1) else aget l j.
Proof.
  revert l k. induction n as [|n IH]; intros l k Hk Hl Hj; cbn [shift_down].
  - destruct (_ && _) eqn:E; [zbool; lia|done].
  - rewrite IH by (rewrite ?zlen_aset; lia).
    destruct (_ && _) eqn:E; zors; destruct (_ && _) eqn:E2; zors; try lia;
      try (rewrite aget_aset_ne by lia; done).
    assert (k = j) by lia. subst. by rewrite aget_aset_eq by lia.
Qed.

(** ** The invariant *)

Record drive_ok (d : blockdev_t) : Prop := Drive_ok {
  do_mnts : zlen (vol_mnt d) = BD_MAX_VOLS;
  do_bases : zlen (vol_base d) = BD_MAX_VOLS;
  do_nvol : 0 <= nvol d <= BD_MAX_VOLS;
  do_unused : used d = false -> nvol d = 0;
  do_first : mnt d = if nvol d =? 0 then 0 else aget (vol_mnt d) 0;
  do_state : 0 < nvol d -> mount_state d = 1;
}.

Lemma drive_ok_zero : drive_ok blockdev_zero.
Proof. by constructor. Qed.

Section Drives.
Context {F : Type} `{HL : BlockLaws F}.

(** volume [v] of drive [i] is mounted as [m] from sector [b] *)
Definition volume (s : drives F) (i v m b : Z) : Prop :=
  0 <= i < BLOCKDEV_MAX /\ 0 <= v < nvol (bd_at s i) /\ aget (vol_mnt (bd_at s i)) v = m /\ aget (vol_base (bd_at s i)) v = b.

Record drives_ok (s : drives F) : Prop := Drives_ok {
  ds_len : zlen (g_bd s) = BLOCKDEV_MAX;
  ds_each : forall i, 0 <= i < BLOCKDEV_MAX -> drive_ok (bd_at s i);
  ds_unique : forall i j v w m b c, volume s i v m b -> volume s j w m c -> i = j /\ v = w;
  ds_mounted : forall i v m b, volume s i v m b -> 0 < m /\ fs_mounted (fsys s) m;
}.

Lemma bd_at_set i j f (s : drives F) : zlen (g_bd s) = BLOCKDEV_MAX -> 0 <= i < BLOCKDEV_MAX -> 0 <= j ->
  bd_at (set_bd i f s) j = if j =? i then f (bd_at s i) else bd_at s j.
Proof.
  intros Hl Hi Hj. unfold bd_at, set_bd. cbn [g_bd].
  change (g_bd (s <| g_bd ::= fun l => aset l i (f (aget l i)) |>)) with (aset (g_bd s) i (f (aget (g_bd s) i))).
  destruct (j =? i) eqn:E; zbool; subst.
  - by rewrite aget_aset_eq by lia.
  - by rewrite aget_aset_ne by lia.
Qed.

Lemma set_bd_len i f (s : drives F) : zlen (g_bd (set_bd i f s)) = zlen (g_bd s).
Proof. cbn. apply zlen_aset. Qed.

(** a state whose volumes are some of those of another, renumbered by [r] *)
Lemma subset_ok (r : Z -> Z -> Z) (s s' : drives F) : drives_ok s -> (forall i v w, r i v = r i w -> v = w) ->
  zlen (g_bd s') = BLOCKDEV_MAX -> (forall i, 0 <= i < BLOCKDEV_MAX -> drive_ok (bd_at s' i)) ->
  (forall i v m b, volume s' i v m b -> volume s i (r i v) m b /\ fs_mounted (fsys s') m) -> drives_ok s'.
Proof.
  intros [Hl He Hu Hm] Hr Hl' He' Hsub. split; [done|done| |].
  - intros i j v w m b c Hv%Hsub Hw%Hsub. destruct (Hu _ _ _ _ _ _ _ (proj1 Hv) (proj1 Hw)) as [-> Hvw].
    split; [done|]. by eapply Hr.
  - intros i v m b Hv%Hsub. split; [by eapply Hm, Hv|apply Hv].
Qed.

(** one drive changed, its volumes the same or none *)
Lemma set_bd_ok i f (s : drives F) : drives_ok s -> 0 <= i < BLOCKDEV_MAX -> drive_ok (f (bd_at s i)) ->
  nvol (f (bd_at s i)) = 0 \/
  (vol_mnt (f (bd_at s i)) = vol_mnt (bd_at s i) /\ vol_base (f (bd_at s i)) = vol_base (bd_at s i) /\
   nvol (f (bd_at s i)) = nvol (bd_at s i)) ->
  drives_ok (set_bd i f s).
Proof.
  intros Hs Hi Hf Hv. pose proof Hs as [Hl He Hu Hm]. apply (subset_ok (fun _ v => v) s); [done|done|by rewrite set_bd_len| |].
  - intros j Hj. rewrite bd_at_set by lia. destruct (j =? i); auto.
  - intros j v m b (Hj & Hvol). rewrite bd_at_set in Hvol by lia.
    assert (volume s j v m b) by (destruct (j =? i) eqn:E; zbool; [subst; destruct Hv as [Hv|(E1 & E2 & E3)]; [lia|]; rewrite E1, E2, E3 in Hvol|]; by split).
    split; [done|]. by eapply Hm.
Qed.

(** ** Dropping volumes *)

Lemma unmount_all_mounted n d v f m : 0 <= v ->
  (forall w, v <= w < v + Z.of_nat n -> aget (vol_mnt d) w <> m) -> fs_mounted f m -> fs_mounted (unmount_all n d v f) m.
Proof.
  revert v f. induction n as [|n IH]; intros v f Hv Hne Hf; cbn [unmount_all]; [done|].
  apply IH; [lia|intros w Hw; apply Hne; lia|]. apply unmounted. split; [done|]. intros ->. by apply (Hne v); [lia|].
Qed.

Lemma drop_volumes_ok i (s : drives F) : drives_ok s -> 0 <= i < BLOCKDEV_MAX ->
  drives_ok (drop_volumes i s) /\ nvol (bd_at (drop_volumes i s) i) = 0.
Proof.
  intros Hs Hi. pose proof Hs as [Hl He Hu Hm]. unfold drop_volumes.
  set (s1 := s <| fsys ::= unmount_all (Z.to_nat (nvol (bd_at s i))) (bd_at s i) 0 |>).
  assert (Hat : forall j, 0 <= j -> bd_at (set_bd i (fun d => d <| nvol := 0 |> <| mnt := 0 |>) s1) j =
    if j =? i then bd_at s i <| nvol := 0 |> <| mnt := 0 |> else bd_at s j) by (intros; by rewrite bd_at_set).
  split; [|rewrite Hat by lia; by rewrite Z.eqb_refl].
  apply (subset_ok (fun _ v => v) s); [done|done|by rewrite set_bd_len| |].
  - intros j Hj. rewrite Hat by lia. destruct (j =? i); [|auto]. destruct (He i Hi). constructor; cbn; try done; lia.
  - intros j v m b (Hj & Hvol). rewrite Hat in Hvol by lia. destruct (j =? i) eqn:E; zbool; [cbn in Hvol; lia|].
    assert (Hv : volume s j v m b) by by split. split; [done|]. destruct (Hm _ _ _ _ Hv) as [_ Hfs].
    apply unmount_all_mounted; [lia| |done]. intros w Hw <-.
    pose proof (do_nvol _ (He i Hi)). edestruct (Hu i j w v); [|exact Hv|lia]. split; [done|]. split; [lia|]. by split.
Qed.

Lemma drop_if_ok i (s : drives F) : drives_ok s -> 0 <= i < BLOCKDEV_MAX ->
  let s' := if negb (nvol (bd_at s i) =? 0) then drop_volumes i s else s in
  drives_ok s' /\ nvol (bd_at s' i) = 0.
Proof. intros Hs Hi. cbv zeta. destruct (negb _) eqn:E; zbool; [by apply drop_volumes_ok|done]. Qed.

(** ** The operations *)

Lemma drive_ok_none (d : blockdev_t) (f : blockdev_t -> blockdev_t) : drive_ok d -> nvol (f d) = 0 -> mnt (f d) = 0 ->
  vol_mnt (f d) = vol_mnt d -> vol_base (f d) = vol_base d -> drive_ok (f d).
Proof.
  intros [] Hn Hm Hv Hb. constructor; rewrite ?Hv, ?Hb, ?Hn; try done; lia.
Qed.

Lemma mnt_none (d : blockdev_t) : drive_ok d -> nvol d = 0 -> mnt d = 0.
Proof. intros [] Hn. by rewrite do_first0, Hn. Qed.

Lemma free_slot_some l i j : free_slot l i = Some j -> i <= j < i + zlen l /\ used (aget l (j - i)) = false.
Proof.
  revert i. induction l as [|d l IH]; intros i Hs; cbn [free_slot] in Hs; [done|]. pose proof (zlen_nonneg l). rewrite zlen_cons.
  destruct (used d) eqn:E.
  - apply IH in Hs as [Hj Hu]. split; [lia|]. unfold aget in *. replace (Z.to_nat (j - i)) with (S (Z.to_nat (j - (i + 1)))) by lia. done.
  - injection Hs as <-. split; [lia|]. by rewrite Z.sub_diag.
Qed.

Lemma register_ok k m n ss dr (s : drives F) : drives_ok s -> drives_ok (blockdev_register_kind k m n ss dr s).2.
Proof.
  intros Hs. unfold blockdev_register_kind. destruct (free_slot _ _) as [i|] eqn:E; [|done]. cbn [snd].
  apply free_slot_some in E as [Hi _]. rewrite (ds_len _ Hs) in Hi. apply set_bd_ok; [done|lia|by constructor|by left].
Qed.

Lemma unregister_ok i (s : drives F) : drives_ok s -> 0 <= i < BLOCKDEV_MAX -> drives_ok (blockdev_unregister i s).
Proof.
  intros Hs Hi. unfold blockdev_unregister. destruct (negb _); [done|].
  set (s1 := set_bd i (fun d => d <| present := false |>) s).
  assert (H1 : drives_ok s1).
  { apply set_bd_ok; [done|done| |right; done]. destruct (ds_each _ Hs i Hi). by constructor. }
  destruct (drop_if_ok i s1 H1 Hi) as [H2 Hn]. set (s2 := if negb (nvol (bd_at s1 i) =? 0) then drop_volumes i s1 else s1) in *. clearbody s2.
  pose proof (ds_each _ H2 i Hi) as Hd. apply set_bd_ok; [done|done| |right; done].
  apply (drive_ok_none _ (fun d : blockdev_t => d <| used := false |>)); [done|done|by apply (mnt_none _ Hd)|done|done].
Qed.

Lemma eject_all_ok i (s : drives F) : drives_ok s -> 0 <= i < BLOCKDEV_MAX -> drives_ok (blockdev_eject_all i s).
Proof.
  intros Hs Hi. unfold blockdev_eject_all. destruct (negb _); [done|].
  destruct (drop_volumes_ok i s Hs Hi) as [H2 Hn]. pose proof (ds_each _ H2 i Hi) as Hd. apply set_bd_ok; [done|done| |right; done].
  apply (drive_ok_none _ (fun d : blockdev_t => d <| mount_state := 2 |>)); [done|done|by apply (mnt_none _ Hd)|done|done].
Qed.

Lemma set_system_ok i (s : drives F) : drives_ok s -> 0 <= i < BLOCKDEV_MAX -> drives_ok (blockdev_set_system i s).
Proof.
  intros Hs Hi. unfold blockdev_set_system. destruct (negb _); [done|].
  destruct (drop_if_ok i s Hs Hi) as [H2 Hn]. set (s2 := if negb (nvol (bd_at s i) =? 0) then drop_volumes i s else s) in *. clearbody s2.
  pose proof (ds_each _ H2 i Hi) as Hd. apply set_bd_ok; [done|done| |right; done].
  apply (drive_ok_none _ (fun d : blockdev_t => d <| system := true |> <| mount_state := 2 |>)); [done|done|by apply (mnt_none _ Hd)|done|done].
Qed.

Lemma retry_all_ok (s : drives F) : drives_ok s -> drives_ok (blockdev_retry_all s).
Proof.
  intros Hs. pose proof Hs as [Hl He Hu Hm]. unfold blockdev_retry_all. set (g := fun d : blockdev_t => if used d && present d && negb (system d) && (nvol d =? 0) then _ else _).
  assert (Hat : forall i, 0 <= i < BLOCKDEV_MAX -> bd_at (s <| g_bd ::= map g |>) i = g (bd_at s i)).
  { intros i Hi. unfold bd_at, aget. cbn. unfold zlen in Hl.
    destruct (lookup_lt_is_Some_2 (g_bd s) (Z.to_nat i)) as [d Hd]; [lia|].
    rewrite (list_lookup_total_correct _ _ _ Hd). apply list_lookup_total_correct. apply list_lookup_fmap_Some. eauto. }
  assert (Hg : forall d, vol_mnt (g d) = vol_mnt d /\ vol_base (g d) = vol_base d /\ nvol (g d) = nvol d).
  { intros d. unfold g. destruct (_ && _); done. }
  apply (subset_ok (fun _ v => v) s); [done|done|cbn; unfold zlen in *; by rewrite length_map| |].
  - intros i Hi. rewrite Hat by done. pose proof (He i Hi) as Hd. unfold g. destruct (_ && _) eqn:E; zbool; [|done].
    apply (drive_ok_none _ (fun d : blockdev_t => d <| mount_state := 0 |>)); [done|done|by apply (mnt_none _ Hd)|done|done].
  - intros i v m b (Hi & Hv). rewrite Hat in Hv by done. destruct (Hg (bd_at s i)) as (E1 & E2 & E3). rewrite E1, E2, E3 in Hv.
    assert (volume s i v m b) by by split. split; [done|]. by eapply Hm.
Qed.

(** ** Finding and ejecting *)

Lemma vol_index_some n d m v w : vol_index n d m v = Some w -> v <= w < v + Z.of_nat n /\ aget (vol_mnt d) w = m.
Proof.
  revert v. induction n as [|n IH]; intros v Hv; cbn [vol_index] in Hv; [done|].
  destruct (_ =? _) eqn:E; zbool; [injection Hv as <-; split; [lia|done]|]. apply IH in Hv as [??]. split; [lia|done].
Qed.

Lemma vol_index_none n d m v w : vol_index n d m v = None -> v <= w < v + Z.of_nat n -> aget (vol_mnt d) w <> m.
Proof.
  revert v. induction n as [|n IH]; intros v Hv Hw; cbn [vol_index] in Hv; [lia|].
  destruct (_ =? _) eqn:E; zbool; [done|]. destruct (decide (v = w)) as [->|]; [done|]. apply (IH (v + 1)); [done|lia].
Qed.

Lemma aget_cons_pos {A} `{Inhabited A} (x : A) l j : 0 < j -> aget (x :: l) j = aget l (j - 1).
Proof. intros Hj. unfold aget. replace (Z.to_nat j) with (S (Z.to_nat (j - 1))) by lia. done. Qed.

Lemma mount_index_some l m i j v : mount_index l m i = Some (j, v) ->
  i <= j < i + zlen l /\ used (aget l (j - i)) = true /\ 0 <= v < nvol (aget l (j - i)) /\ aget (vol_mnt (aget l (j - i))) v = m.
Proof.
  revert i. induction l as [|d l IH]; intros i Hs; cbn [mount_index] in Hs; [done|]. pose proof (zlen_nonneg l). rewrite zlen_cons.
  assert (Hrec : mount_index l m (i + 1) = Some (j, v) -> i <= j < i + (1 + zlen l) /\ used (aget (d :: l) (j - i)) = true /\
    0 <= v < nvol (aget (d :: l) (j - i)) /\ aget (vol_mnt (aget (d :: l) (j - i))) v = m).
  { intros (Hj & Hr)%IH. rewrite aget_cons_pos by lia. replace (j - i - 1) with (j - (i + 1)) by lia. split; [lia|done]. }
  destruct (used d) eqn:E; cbn [negb] in Hs; [|auto].
  destruct (vol_index _ _ _ _) as [w|] eqn:Ev; [|auto]. injection Hs as <- <-. apply vol_index_some in Ev as [Hw Hm].
  rewrite Z.sub_diag. change (aget (d :: l) 0) with d. split; [lia|]. split; [done|]. split; [lia|done].
Qed.

Lemma mount_index_none l m i j v : mount_index l m i = None -> 0 <= j < zlen l -> used (aget l j) = true ->
  0 <= v < nvol (aget l j) -> aget (vol_mnt (aget l j)) v <> m.
Proof.
  revert i j. induction l as [|d l IH]; intros i j Hs Hj Hu Hv; [change (zlen (@nil blockdev_t)) with 0 in Hj; lia|].
  rewrite zlen_cons in Hj. cbn [mount_index] in Hs. destruct (decide (j = 0)) as [->|Hne].
  - change (aget (d :: l) 0) with d in *. rewrite Hu in Hs. cbn [negb] in Hs.
    destruct (vol_index _ _ _ _) as [w|] eqn:Ev; [done|]. eapply vol_index_none; [exact Ev|lia].
  - rewrite aget_cons_pos in * by lia. apply (IH (i + 1)); [|lia|done|done].
    destruct (negb (used d)); [done|]. by destruct (vol_index _ _ _ _).
Qed.

Lemma volume_used (s : drives F) i v m b : drives_ok s -> volume s i v m b -> used (bd_at s i) = true.
Proof.
  intros Hs (Hi & Hv & _). destruct (used _) eqn:E; [done|]. pose proof (do_unused _ (ds_each _ Hs i Hi) E). lia.
Qed.

Lemma index_iff (s : drives F) m i v : drives_ok s ->
  mount_index (g_bd s) m 0 = Some (i, v) <-> volume s i v m (aget (vol_base (bd_at s i)) v).
Proof.
  intros Hs. split.
  - intros (Hi & _ & Hv & Hm)%mount_index_some. rewrite Z.sub_0_r in *. rewrite (ds_len _ Hs) in Hi. by split; [lia|].
  - intros Hv. destruct (mount_index _ _ _) as [[j w]|] eqn:E.
    + pose proof (mount_index_some _ _ _ _ _ E) as (Hj & _ & Hw & Hm). rewrite Z.sub_0_r in *. rewrite (ds_len _ Hs) in Hj.
      edestruct (ds_unique _ Hs i j v w) as [-> ->]; [exact Hv| |done]. by split; [lia|].
    + exfalso. pose proof (volume_used _ _ _ _ _ Hs Hv) as Hu. destruct Hv as (Hi & Hv & Hm & _).
      eapply mount_index_none; [exact E|rewrite (ds_len _ Hs); exact Hi|exact Hu|exact Hv|exact Hm].
Qed.

Lemma of_mount_iff (s : drives F) m i b : drives_ok s ->
  blockdev_of_mount m s = Some (i, b) <-> exists v, volume s i v m b.
Proof.
  intros Hs. unfold blockdev_of_mount. split.
  - destruct (mount_index _ _ _) as [[j w]|] eqn:E; cbn; [|done]. intros [= <- <-]. exists w. by apply index_iff.
  - intros [v Hv]. assert (Hb := Hv). destruct Hb as (_ & _ & _ & <-). apply (index_iff s m i v Hs) in Hv. by rewrite Hv.
Qed.

Lemma without_volume_ok d v : drive_ok d -> 0 <= v < nvol d ->
  drive_ok (without_volume v d) /\ nvol (without_volume v d) = nvol d - 1 /\
  forall w, 0 <= w < nvol d - 1 ->
    aget (vol_mnt (without_volume v d)) w = aget (vol_mnt d) (if v <=? w then w + 1 else w) /\
    aget (vol_base (without_volume v d)) w = aget (vol_base d) (if v <=? w then w + 1 else w).
Proof.
  intros [H1 H2 H3 H4 H5 H6] Hv. unfold BD_MAX_VOLS in *. set (n := Z.to_nat (nvol d - 1 - v)).
  assert (E : vol_mnt (without_volume v d) = shift_down n (vol_mnt d) v /\ vol_base (without_volume v d) = shift_down n (vol_base d) v /\
    nvol (without_volume v d) = nvol d - 1 /\ used (without_volume v d) = used d /\
    mnt (without_volume v d) = (if negb (nvol d - 1 =? 0) then aget (shift_down n (vol_mnt d) v) 0 else 0) /\
    mount_state (without_volume v d) = if nvol d - 1 =? 0 then 2 else mount_state d).
  { clear. unfold n. destruct d. unfold without_volume. cbn -[Z.sub Z.eqb shift_down].
    destruct (_ - 1 =? 0); do 5 (split; [reflexivity|]); reflexivity. }
  destruct E as (E1 & E2 & E3 & E4 & E5 & E6). split; [|split; [done|]].
  - constructor; unfold BD_MAX_VOLS; rewrite ?E1, ?E2, ?E3, ?E4, ?E5, ?E6, ?zlen_shift_down; try done; try lia.
    + by destruct (nvol d - 1 =? 0).
    + intros Hn. destruct (nvol d - 1 =? 0) eqn:E; zbool; [lia|]. apply H6. lia.
  - intros w Hw. rewrite E1, E2, !aget_shift_down by (unfold n; lia).
    replace ((v <=? w) && (w <? v + Z.of_nat n)) with (v <=? w); [by destruct (v <=? w)|].
    unfold n. destruct (v <=? w) eqn:E; zbool; [|done]. symmetry. apply Z.ltb_lt. lia.
Qed.

(** the drive after volume [v] is taken out *)
Lemma eject_volumes (s : drives F) m i v : drives_ok s -> mount_index (g_bd s) m 0 = Some (i, v) ->
  let s' := (blockdev_eject m s).2 in
  (blockdev_eject m s).1 = 1 /\ fsys s' = fs_unmount m (fsys s) /\ zlen (g_bd s') = BLOCKDEV_MAX /\
  (forall j, 0 <= j < BLOCKDEV_MAX -> drive_ok (bd_at s' j)) /\
  (forall j w m' b, volume s' j w m' b <->
     if (j =? i) && (v <=? w) then volume s j (w + 1) m' b else volume s j w m' b /\ ~ (j = i /\ w = v)).
Proof.
  intros Hs Hx. pose proof (proj1 (index_iff s m i v Hs) Hx) as (Hi & Hv & Hm & _). unfold blockdev_eject. rewrite Hx. cbv zeta. cbn [fst snd].
  pose proof Hs as [Hl He _ _]. destruct (without_volume_ok _ v (He i Hi) Hv) as (Hd & Hn & Hw).
  set (f := without_volume v) in *. split; [done|]. split; [done|]. split; [by rewrite set_bd_len|].
  assert (Hat : forall j, 0 <= j -> bd_at (set_bd i f (s <| fsys ::= fs_unmount m |>)) j = if j =? i then f (bd_at s i) else bd_at s j)
    by (intros; by rewrite bd_at_set).
  split.
  - intros j Hj. rewrite Hat by lia. destruct (j =? i); auto.
  - intros j w m' b. unfold volume. destruct (decide (0 <= j < BLOCKDEV_MAX)) as [Hj|Hj]; [|destruct (_ && _); split; intros ?; exfalso; intuition].
    rewrite Hat by lia. destruct (j =? i) eqn:E; zbool; cbn [andb]; [subst j; rewrite Hn|intuition].
    destruct (decide (0 <= w < nvol (bd_at s i) - 1)) as [Hr|Hr].
    + destruct (Hw w Hr) as [-> ->]. destruct (v <=? w) eqn:E2; zbool; intuition lia.
    + destruct (v <=? w) eqn:E2; zbool; intuition lia.
Qed.

Lemma eject_ok m (s : drives F) : drives_ok s -> drives_ok (blockdev_eject m s).2.
Proof.
  intros Hs. destruct (mount_index (g_bd s) m 0) as [[i v]|] eqn:E; [|unfold blockdev_eject; by rewrite E].
  destruct (eject_volumes s m i v Hs E) as (_ & Hfs & Hl & Hd & Hvol). pose proof (proj1 (index_iff s m i v Hs) E) as Hv.
  apply (subset_ok (fun j w => if (j =? i) && (v <=? w) then w + 1 else w) s); [done| |done|done|].
  - intros j w w'. zcases; lia.
  - intros j w m' b Hw. pose proof (proj1 (Hvol j w m' b) Hw) as Hw'. rewrite Hfs.
    assert (Hold : volume s j (if (j =? i) && (v <=? w) then w + 1 else w) m' b) by (destruct (_ && _); [done|apply Hw']).
    split; [done|]. apply unmounted. split; [by eapply (ds_mounted _ Hs)|]. intros ->.
    edestruct (ds_unique _ Hs) as [E1 E2]; [exact Hold|exact Hv|]. subst j.
    rewrite Z.eqb_refl in *. cbn [andb] in *. destruct (v <=? w) eqn:E3; zbool; [lia|]. destruct Hw'. lia.
Qed.

(** ejecting a mounted volume unmounts it and takes out that volume
    alone: afterwards its mount id belongs to no drive, and every other id to
    the drive and start sector it had. An id that is not mounted ejects
    nothing. *)
Theorem blockdev_eject_spec (s : drives F) m : drives_ok s ->
  match blockdev_of_mount m s with
  | None => blockdev_eject m s = (0, s)
  | Some _ => exists s', blockdev_eject m s = (1, s') /\ drives_ok s' /\ fsys s' = fs_unmount m (fsys s) /\
                forall m', blockdev_of_mount m' s' = if m' =? m then None else blockdev_of_mount m' s
  end.
Proof.
  intros Hs. pose proof (eject_ok m s Hs) as Hs'. destruct (mount_index (g_bd s) m 0) as [[i v]|] eqn:E.
  2: { unfold blockdev_of_mount, blockdev_eject. by rewrite E. }
  unfold blockdev_of_mount at 1. rewrite E. cbn [mbind option_bind].
  destruct (eject_volumes s m i v Hs E) as (H1 & Hfs & _ & _ & Hvol). pose proof (proj1 (index_iff s m i v Hs) E) as Hv.
  destruct (blockdev_eject m s) as [r s']. cbn [fst snd] in *. subst r. exists s'. split; [done|]. split; [done|]. split; [done|].
  intros m'. apply option_eq. intros [j b]. rewrite of_mount_iff by done. destruct (m' =? m) eqn:Em; zbool.
  - subst m'. split; [|done]. intros [w Hw]. apply Hvol in Hw.
    destruct ((j =? i) && (v <=? w)) eqn:E2; [|destruct Hw as [Hw Hne]];
      (edestruct (ds_unique _ Hs) as [Ej E3]; [exact Hw|exact Hv|]); zbool; [lia|destruct Hne; auto].
  - rewrite of_mount_iff by done. split.
    + intros [w Hw]. apply Hvol in Hw. destruct (_ && _); [eauto|destruct Hw; eauto].
    + intros [w Hw]. destruct (decide (j = i /\ v < w)) as [[-> Hlt]|Hne].
      * exists (w - 1). apply Hvol. rewrite Z.eqb_refl, (proj2 (Z.leb_le v (w - 1))) by lia. cbn [andb].
        by replace (w - 1 + 1) with w by lia.
      * exists w. apply Hvol. destruct ((j =? i) && (v <=? w)) eqn:E2; zbool.
        -- assert (w = v) by lia. subst. destruct Hv as (_ & _ & Hm & _). destruct Hw as (_ & _ & Hm' & _). lia.
        -- split; [done|]. intros [-> ->]. destruct Hv as (_ & _ & Hm & _). destruct Hw as (_ & _ & Hm' & _). lia.
Qed.

(** ** Mounting *)

(** a mount that failed: only the file system's state is another *)
Lemma refreshed_ok (s : drives F) fs : drives_ok s -> (forall m, fs_mounted (fsys s) m -> fs_mounted fs m) ->
  drives_ok (s <| fsys := fs |>).
Proof.
  intros Hs Hfs. pose proof Hs as [Hl He Hu Hm]. apply (subset_ok (fun _ v => v) s); [done|done|done|done|].
  intros i v m b Hv. split; [done|]. by eapply Hfs, Hm.
Qed.

Lemma add_volume_ok (s : drives F) i m b fs : drives_ok s -> 0 <= i < BLOCKDEV_MAX -> used (bd_at s i) = true -> 0 < m ->
  ~ fs_mounted (fsys s) m -> (forall m', fs_mounted fs m' <-> m' = m \/ fs_mounted (fsys s) m') ->
  drives_ok (blockdev_add_volume i m b (s <| fsys := fs |>)) /\ used (bd_at (blockdev_add_volume i m b (s <| fsys := fs |>)) i) = true.
Proof.
  intros Hs Hi Hu Hm Hfresh Hfs. assert (H0 : drives_ok (s <| fsys := fs |>)) by (apply refreshed_ok; [done|]; intros; apply Hfs; auto).
  unfold blockdev_add_volume. change (bd_at (s <| fsys := fs |>) i) with (bd_at s i). destruct (_ <=? _) eqn:E; [done|]. zbool.
  set (f := fun d : blockdev_t => _). pose proof (ds_each _ Hs i Hi) as [H1 H2 H3 H4 H5 H6].
  set (n := nvol (bd_at s i)) in *.
  assert (Hf : vol_mnt (f (bd_at s i)) = aset (vol_mnt (bd_at s i)) n m /\ vol_base (f (bd_at s i)) = aset (vol_base (bd_at s i)) n b /\
    nvol (f (bd_at s i)) = n + 1 /\ used (f (bd_at s i)) = true /\ mount_state (f (bd_at s i)) = 1 /\
    mnt (f (bd_at s i)) = aget (aset (vol_mnt (bd_at s i)) n m) 0) by (split; [done|]; split; [done|]; split; [done|]; done).
  destruct Hf as (E1 & E2 & E3 & E4 & E5 & E6).
  assert (Hat : forall j, 0 <= j -> bd_at (set_bd i f (s <| fsys := fs |>)) j = if j =? i then f (bd_at s i) else bd_at s j)
    by (intros; rewrite bd_at_set by (done || apply (ds_len _ Hs)); done).
  assert (Hvol : forall j w m' c, volume (set_bd i f (s <| fsys := fs |>)) j w m' c -> volume s j w m' c \/ (j = i /\ w = n /\ m' = m)).
  { intros j w m' c (Hj & Hw). rewrite Hat in Hw by lia. destruct (j =? i) eqn:Ej; zbool; [subst j|left; by split].
    rewrite E1, E2, E3 in Hw. destruct (decide (w = n)) as [->|Hne].
    - right. rewrite aget_aset_eq in Hw by lia. intuition.
    - left. rewrite !aget_aset_ne in Hw by lia. split; [done|]. unfold n in *. intuition lia. }
  split; [|rewrite Hat by lia; by rewrite Z.eqb_refl]. pose proof Hs as [Hl He Huq Hmt]. split.
  - by rewrite set_bd_len.
  - intros j Hj. rewrite Hat by lia. destruct (j =? i); [|auto]. unfold BD_MAX_VOLS in *.
    constructor; unfold BD_MAX_VOLS; rewrite ?E1, ?E2, ?E3, ?E4, ?E5, ?E6, ?zlen_aset; try done; try lia.
    destruct (n + 1 =? 0) eqn:E'; zbool; [lia|done].
  - intros j k v w m' c c' [Hv|(-> & -> & ->)]%Hvol [Hw|(-> & -> & ?)]%Hvol; [by eapply Huq| | |done]; exfalso; subst.
    + by apply Hfresh, (Hmt _ _ _ _ Hv).
    + by apply Hfresh, (Hmt _ _ _ _ Hw).
  - intros j w m' c [Hv|(_ & _ & ->)]%Hvol; [|split; [done|]; apply Hfs; by left].
    destruct (Hmt _ _ _ _ Hv). split; [done|]. apply Hfs. by right.
Qed.

Lemma try_mounts_ok todo k i b w err (s : drives F) : drives_ok s -> 0 <= i < BLOCKDEV_MAX -> used (bd_at s i) = true ->
  let '(m, _, s') := try_mounts todo k i b w err s in
  drives_ok s' /\ used (bd_at s' i) = true /\ (m <= 0 -> g_bd s' = g_bd s).
Proof.
  intros Hs Hi Hu. revert k err s Hs Hu. induction todo as [|todo IH]; intros k err s Hs Hu; cbn [try_mounts]; [done|].
  destruct (vol_mount _ _ _ _ _) as [[m e] fs] eqn:E. destruct (0 <? m) eqn:Em; zbool.
  - destruct (mount_fresh _ _ _ _ _ _ _ _ E Em) as [Hf Hfs].
    destruct (add_volume_ok s i m b fs Hs Hi Hu Em Hf Hfs). split; [done|]. split; [done|]. lia.
  - specialize (IH (S k) (if (m =? -1) && (first_char err =? 0)
          then c_string (ksnprintf (replicate 96 0) 96 (str "%s: %s") [Str (Some (fs_name k)); Str (Some e)]).1 else err)
      (s <| fsys := fs |>)). apply IH; [|done].
    apply refreshed_ok; [done|]. intros m'. by apply (mount_failed _ _ _ _ _ _ _ _ E).
Qed.

Lemma mount_at_ok i b path cap (s : drives F) : drives_ok s -> 0 <= i < BLOCKDEV_MAX -> used (bd_at s i) = true ->
  let '(m, _, s') := volume_mount_at i b path cap s in
  drives_ok s' /\ used (bd_at s' i) = true /\ (m <= 0 -> g_bd s' = g_bd s).
Proof.
  intros Hs Hi Hu. unfold volume_mount_at.
  pose proof (try_mounts_ok NFS 0 i b (match path with
           | Some p => copied p FS_PATH_LEN
           | None => free_point (Z.to_nat (FS_MAX_MOUNTS + 1)) 1 (kind_or_usb (bd_at s i)) (fsys s)
           end) [] s Hs Hi Hu) as H0.
  destruct (try_mounts _ _ _ _ _ _ _) as [[m e] s']. done.
Qed.

Lemma mount_parts_ok ps i k err (s : drives F) : drives_ok s -> 0 <= i < BLOCKDEV_MAX -> used (bd_at s i) = true ->
  let '(n, _, s') := mount_parts ps i k err s in
  drives_ok s' /\ used (bd_at s' i) = true /\ k <= n /\ (n = k -> g_bd s' = g_bd s).
Proof.
  intros Hs Hi. revert k err s Hs. induction ps as [|p ps IH]; intros k err s Hs Hu; cbn [mount_parts].
  { split; [done|]. split; [done|]. split; [lia|done]. }
  destruct (_ <=? _). { split; [done|]. split; [done|]. split; [lia|done]. }
  pose proof (mount_at_ok i (Volume.base p) None 96 s Hs Hi Hu) as H1.
  destruct (volume_mount_at _ _ _ _ _) as [[m e] s1]. destruct H1 as (Hs1 & Hu1 & Hsame). destruct (0 <? m) eqn:Em; zbool.
  - pose proof (IH (k + 1) err s1 Hs1 Hu1) as H2. destruct (mount_parts _ _ _ _ _) as [[n e2] s2].
    destruct H2 as (? & ? & ? & ?). split; [done|]. split; [done|]. split; lia.
  - match goal with |- context [mount_parts ps i k ?e' s1] => pose proof (IH k e' s1 Hs1 Hu1) as H2; destruct (mount_parts ps i k e' s1) as [[n e2] s2] end.
    destruct H2 as (? & ? & ? & Hk). split; [done|]. split; [done|]. split; [done|]. intros Hn. rewrite Hk, Hsame by lia. done.
Qed.

Lemma mount_all_ok mem mem2 i cap (s : drives F) n e s' : drives_ok s -> 0 <= i < BLOCKDEV_MAX -> used (bd_at s i) = true ->
  volume_mount_all mem mem2 i cap s = Some (n, e, s') ->
  drives_ok s' /\ used (bd_at s' i) = true /\ (n <= 0 -> g_bd s' = g_bd s).
Proof.
  intros Hs Hi Hu. unfold volume_mount_all. pose proof (mount_at_ok i 0 None 96 s Hs Hi Hu) as H1.
  destruct (volume_mount_at _ _ _ _ _) as [[m e1] s1]. destruct H1 as (Hs1 & Hu1 & Hsame).
  destruct (0 <? m) eqn:Em; zbool; [intros [= <- <- <-]; split; [done|]; split; [done|]; lia|].
  destruct mem; cbn [negb]; [|intros [= <- <- <-]; split; [done|]; split; [done|auto]].
  destruct (volume_partitions _ _ _ _ _) as [[parts g]|]; cbn [mbind option_bind]; [|done].
  pose proof (mount_parts_ok parts i 0 [] s1 Hs1 Hi Hu1) as H2. destruct (mount_parts _ _ _ _ _) as [[k e2] s2].
  destruct H2 as (Hs2 & Hu2 & Hk & Hsame2). intros [= <- <- <-]. split; [done|]. split; [done|].
  intros Hn. rewrite Hsame2, Hsame by lia. done.
Qed.

Lemma automount_ok todo mem i (s s' : drives F) : drives_ok s -> 0 <= i -> i + Z.of_nat todo <= BLOCKDEV_MAX ->
  automount_pass todo mem i s = Some s' -> drives_ok s'.
Proof.
  revert i s. induction todo as [|todo IH]; intros i s Hs Hi Ht; cbn [automount_pass]; [congruence|].
  destruct (negb (ready_to_mount s i)) eqn:E; [apply IH; [done|lia|lia]|]. zbool. unfold ready_to_mount in E. zbool.
  destruct (volume_mount_all _ _ _ _ _) as [[[n e] s1]|] eqn:Ea; cbn [mbind option_bind]; [|done].
  destruct (mount_all_ok (mem i) (mem i) i 96 s n e s1 Hs ltac:(lia) ltac:(done) Ea) as (Hs1 & _ & Hsame).
  destruct (n <=? 0) eqn:En; zbool; [|apply IH; [done|lia|lia]]. apply IH; [|lia|lia]. specialize (Hsame En).
  pose proof (ds_each _ Hs1 i ltac:(lia)) as Hd.
  assert (Hn : nvol (bd_at s1 i) = 0).
  { unfold bd_at in *. rewrite Hsame in *. pose proof (do_nvol _ Hd). pose proof (do_state _ Hd). lia. }
  apply set_bd_ok; [done|lia| |by left].
  apply (drive_ok_none _ (fun d : blockdev_t => d <| mount_state := -1 |>)); [done|done|by apply (mnt_none _ Hd)|done|done].
Qed.

(** ** Runs *)

Definition bd_start (f : F) : drives F := Drives (replicate (Z.to_nat BLOCKDEV_MAX) blockdev_zero) false f.

Inductive bd_step : drives F -> drives F -> Prop :=
| b_go s : bd_step s (blockdev_start_mounting s)
| b_register k m n ss dr s : bd_step s (blockdev_register_kind k m n ss dr s).2
| b_unregister i s : 0 <= i < BLOCKDEV_MAX -> bd_step s (blockdev_unregister i s)
| b_mount i b path cap s : 0 <= i < BLOCKDEV_MAX -> used (bd_at s i) = true -> bd_step s (volume_mount_at i b path cap s).2
| b_automount mem s s' : automount_pass (Z.to_nat BLOCKDEV_MAX) mem 0 s = Some s' -> bd_step s s'
| b_eject m s : bd_step s (blockdev_eject m s).2
| b_eject_all i s : 0 <= i < BLOCKDEV_MAX -> bd_step s (blockdev_eject_all i s)
| b_retry s : bd_step s (blockdev_retry_all s)
| b_system i s : 0 <= i < BLOCKDEV_MAX -> bd_step s (blockdev_set_system i s).

Lemma bd_start_ok f : drives_ok (bd_start f).
Proof.
  assert (Hat : forall i, bd_at (bd_start f) i = blockdev_zero).
  { intros i. unfold bd_at, aget. destruct (decide (Z.to_nat i < 16)%nat) as [Hl|Hl].
    - apply list_lookup_total_correct, lookup_replicate. split; [done|exact Hl].
    - rewrite list_lookup_total_alt, lookup_ge_None_2; [done|]. unfold bd_start. cbn [g_bd]. rewrite length_replicate. change (Z.to_nat BLOCKDEV_MAX) with 16%nat. lia. }
  assert (Hno : forall i v m b, ~ volume (bd_start f) i v m b) by (intros i v m b (_ & Hv & _); rewrite Hat in Hv; cbn in Hv; lia).
  split; [done|intros; rewrite Hat; apply drive_ok_zero| |].
  - intros i j v w m b c []%Hno.
  - intros i v m b []%Hno.
Qed.

(** C35: over every run of the drives being plugged in, mounted, ejected and
    removed, each mount id belongs to one volume of one drive in use and is
    mounted in the file system; a drive's main mount is its first volume; and
    a drive with volumes is not one the automounter mounts again. *)
Theorem drives_run f s : rtc bd_step (bd_start f) s -> drives_ok s.
Proof.
  intros Hrun. remember (bd_start f) as s0 eqn:E. assert (H0 : drives_ok s0) by (subst; apply bd_start_ok). clear E.
  induction Hrun as [|s0 s1 s2 Hstep _ IH]; [done|]. apply IH. destruct Hstep as [s|k m n ss dr s|i s Hi|i b path cap s Hi Hu|mem s s' Ha|m s|i s Hi|s|i s Hi].
  - by destruct H0.
  - by apply register_ok.
  - by apply unregister_ok.
  - pose proof (mount_at_ok i b path cap s H0 Hi Hu) as H1. destruct (volume_mount_at _ _ _ _ _) as [[m e] s']. apply H1.
  - by apply (automount_ok (Z.to_nat BLOCKDEV_MAX) mem 0 s).
  - by apply eject_ok.
  - by apply eject_all_ok.
  - by apply retry_all_ok.
  - by apply set_system_ok.
Qed.
End Drives.

(** ** A file system to try it on *)

(** the ids mounted so far, the newest first; the drives with an even number
    hold a FAT32 volume at their start *)
Definition demo_fs : Type := list Z * Z.

#[export] Instance demo_env : BlockEnv demo_fs := {
  dev_read := fun _ _ _ => None;
  fs_unmount := fun m f => (filter (fun x => x <> m) f.1, f.2);
  fs_is_ready := fun _ => true;
  fs_find_dir := fun _ _ => -1;
  fs_path_mount := fun _ _ => false;
  fs_list_dirs := fun _ _ => 0;
  fs_list_files := fun _ _ => 0;
  vol_mount := fun k d b w f =>
    if (Nat.eqb k 0) && Z.even d && (b =? 0) && forallb (fun x => x <? f.2) f.1 && (0 <? f.2)
    then (f.2, [], (f.2 :: f.1, f.2 + 1)) else (-2, [], f);
  vol_describe := fun _ _ _ => None;
  vol_space := fun _ _ _ => None;
}.

#[export] Instance demo_laws : BlockLaws demo_fs.
Proof.
  refine {| fs_mounted := fun (f : demo_fs) m => In m f.1 |}.
  - intros f m m'. cbn. rewrite <- !list_elem_of_In, list_elem_of_filter. tauto.
  - intros k d b w f m e f' Hv Hm. cbn in Hv. destruct (_ && _) eqn:E; [|by injection Hv as <- <- <-].
    injection Hv as <- <- <-. zbool. split; [|intros m'; cbn; intuition].
    intros Hin. match goal with Hf : forallb _ _ = true |- _ => rewrite forallb_forall in Hf; specialize (Hf _ Hin) end. zbool. lia.
  - intros k d b w f m e f' Hv Hm m'. cbn in Hv. destruct (_ && _) eqn:E; [|by injection Hv as <- <- <-].
    injection Hv as <- <- <-. zbool. lia.
Defined.

Definition demo_start : drives demo_fs := bd_start ([], 1).

(** two sticks and a card are plugged in; the automounter mounts the sticks *)
Definition demo_drives : drives demo_fs :=
  default demo_start (automount_pass (Z.to_nat BLOCKDEV_MAX) (fun _ => true) 0
    (blockdev_register_kind (str "sd") (str "card") 1000 512 3
      (blockdev_register (str "stick") 1000 512 2
        (blockdev_register (str "stick") 1000 512 0
          (blockdev_start_mounting demo_start)).2).2).2).

Lemma demo_drives_ok : drives_ok demo_drives.
Proof.
  unfold demo_drives. set (s := snd _). assert (Hs : drives_ok s).
  { do 3 apply register_ok. by destruct (bd_start_ok (F := demo_fs) ([], 1)). }
  destruct (automount_pass _ _ _ _) as [s'|] eqn:E; cbn; [|apply bd_start_ok]. by apply (automount_ok _ _ 0 s) in E.
Qed.

Lemma blockdev_eject_spec_witness : exists s', blockdev_eject 1 demo_drives = (1, s') /\
  blockdev_of_mount 1 s' = None /\ blockdev_of_mount 2 s' = Some (1, 0).
Proof.
  pose proof (blockdev_eject_spec demo_drives 1 demo_drives_ok) as H.
  assert (E : blockdev_of_mount 1 demo_drives = Some (0, 0)) by (vm_compute; reflexivity).
  rewrite E in H. destruct H as (s' & H1 & _ & _ & H2). exists s'. split; [exact H1|].
  split; [exact (H2 1)|]. rewrite H2. vm_compute. reflexivity.
Defined.

Lemma drives_run_witness : exists s, rtc bd_step demo_start s /\ mnt (bd_at s 1) = 2 /\ drives_ok s.
Proof.
  assert (Hrun : rtc bd_step demo_start demo_drives).
  { eapply rtc_l; [apply b_go|]. eapply rtc_l; [apply (b_register (str "usb") (str "stick") 1000 512 0)|].
    eapply rtc_l; [apply (b_register (str "usb") (str "stick") 1000 512 2)|].
    eapply rtc_l; [apply (b_register (str "sd") (str "card") 1000 512 3)|].
    eapply rtc_l; [apply (b_automount (fun _ => true)); vm_compute; reflexivity|]. apply rtc_refl. }
  exists demo_drives. split; [exact Hrun|]. split; [vm_compute; reflexivity|]. exact (drives_run _ _ Hrun).
Defined.

(** ** What the code lets drives do *)

(** The number in a drive's name is how many of its kind there are, so after
    the first of two sticks is pulled the next one gets the other's name, and
    a look-up by that name finds the wrong one. *)
Definition replugged : drives demo_fs :=
  (blockdev_register (str "new stick") 2000 512 0 (blockdev_unregister 0 demo_drives)).2.

Theorem same_name_twice : name (bd_at replugged 0) = str "usb1" /\ name (bd_at replugged 1) = str "usb1" /\
  used (bd_at replugged 0) = true /\ used (bd_at replugged 1) = true /\ blockdev_find (str "usb1") replugged = Some 0.
Proof. vm_compute. repeat (split; [reflexivity|]). reflexivity. Qed.

(** A ninth volume of a drive is mounted in the file system but not put in
    the table: no later call finds it to unmount it. *)
Definition mount_again (n : nat) : drives demo_fs :=
  Nat.iter n (fun s => (volume_mount_at 0 0 None 96 s).2) demo_drives.

Theorem ninth_mount_lost : (volume_mount_at 0 0 None 96 (mount_again 7)).1.1 = 10 /\
  let s := (volume_mount_at 0 0 None 96 (mount_again 7)).2 in
  In 10 (fsys s).1 /\ blockdev_of_mount 10 s = None /\ blockdev_eject 10 s = (0, s).
Proof. vm_compute. split; [reflexivity|]. split; [by left|]. split; reflexivity. Qed.
