(* ===== verification/Inflate.v ===== *)
(** * DEFLATE decompression, from RFC 1951

    The reference that kernel/deflate.c is measured against: what a stream of
    the format means, written from the document and not from the code. Bits
    are taken in the order of the stream; a stream that is not one of the
    format, or a code that is not complete (RFC 1951, 3.2.2: every string of
    bits is a string of codes), has no meaning ([None]). *)

From S2P Require Import Prelude.

(** the bits of an integer and of bytes, the least significant first *)
Fixpoint bits_of (n : nat) (v : Z) : list bool :=
  match n with
  | O => []
  | S n => Z.odd v :: bits_of n (Z.div2 v)
  end.
Definition stream (p : list Z) : list bool := concat (map (bits_of 8) p).

(** [n] bits as an integer *)
Fixpoint take_bits (n : nat) (s : list bool) : option (Z * list bool) :=
  match n with
  | O => Some (0, s)
  | S n =>
      match s with
      | [] => None
      | b :: s => '(v, s) ← take_bits n s; Some (Z.b2z b + 2 * v, s)
      end
  end.

(** ** Canonical Huffman codes: [lens] has the length of each symbol's code, 0 for none *)

Definition count_len (lens : list Z) (l : Z) : Z := zlen (filter (fun x => x = l) lens).

(** the first code of length [l] *)
Fixpoint first_code (lens : list Z) (l : nat) : Z :=
  match l with
  | O => 0
  | S l => 2 * (first_code lens l + if Nat.eqb l 0 then 0 else count_len lens (Z.of_nat l))
  end.

(** the symbol with the code [code] of length [l]; [next] is the code of the
    first symbol of that length from [i] on *)
Fixpoint find_symbol (lens : list Z) (l code next i : Z) : option Z :=
  match lens with
  | [] => None
  | x :: lens =>
      if x =? l then if next =? code then Some i else find_symbol lens l code (next + 1) (i + 1)
      else find_symbol lens l code next (i + 1)
  end.

(** codes are sent with their most significant bit first *)
Fixpoint decode_symbol (todo : nat) (lens : list Z) (l : nat) (code : Z) (s : list bool) : option (Z * list bool) :=
  match todo with
  | O => None
  | S todo =>
      match s with
      | [] => None
      | b :: s =>
          let l := S l in
          let code := 2 * code + Z.b2z b in
          match find_symbol lens (Z.of_nat l) code (first_code lens l) 0 with
          | Some i => Some (i, s)
          | None => decode_symbol todo lens l code s
          end
      end
  end.
Definition symbol (lens : list Z) (s : list bool) : option (Z * list bool) := decode_symbol 15 lens 0 0 s.

(** Kraft's sum, in units of 2^-15 *)
Definition kraft (lens : list Z) : Z := zsum (map (fun l => if l =? 0 then 0 else 2 ^ (15 - l)) lens).
Definition complete (lens : list Z) : bool := kraft lens =? 2 ^ 15.

(** ** Length and distance codes: the tables of 3.2.5 *)

Definition len_base : list Z :=
  [3; 4; 5; 6; 7; 8; 9; 10; 11; 13; 15; 17; 19; 23; 27; 31; 35; 43; 51; 59; 67; 83; 99; 115; 131; 163; 195; 227; 258].
Definition len_extra : list Z := [0; 0; 0; 0; 0; 0; 0; 0; 1; 1; 1; 1; 2; 2; 2; 2; 3; 3; 3; 3; 4; 4; 4; 4; 5; 5; 5; 5; 0].
Definition dist_base : list Z :=
  [1; 2; 3; 4; 5; 7; 9; 13; 17; 25; 33; 49; 65; 97; 129; 193; 257; 385; 513; 769; 1025; 1537; 2049; 3073; 4097; 6145;
   8193; 12289; 16385; 24577].
Definition dist_extra : list Z :=
  [0; 0; 0; 0; 1; 1; 2; 2; 3; 3; 4; 4; 5; 5; 6; 6; 7; 7; 8; 8; 9; 9; 10; 10; 11; 11; 12; 12; 13; 13].
(** the order of the code-length code's lengths (3.2.7) *)
Definition clen_order : list Z := [16; 17; 18; 0; 8; 7; 9; 6; 10; 5; 11; 4; 12; 3; 13; 2; 14; 1; 15].

(** [n] bytes from [dist] back, a byte at a time so that they may overlap *)
Fixpoint copy_back (n : nat) (dist : Z) (out : list Z) : list Z :=
  match n with
  | O => out
  | S n => copy_back n dist (out ++ [aget out (zlen out - dist)])
  end.

(** the symbols of a block up to the end-of-block one *)
Fixpoint symbols (todo : nat) (lit dist : list Z) (s : list bool) (out : list Z) : option (list Z * list bool) :=
  match todo with
  | O => None
  | S todo =>
      '(v, s) ← symbol lit s;
      if v <? 256 then symbols todo lit dist s (out ++ [v])
      else if v =? 256 then Some (out, s)
      else if 285 <? v then None
      else
        '(e, s) ← take_bits (Z.to_nat (aget len_extra (v - 257))) s;
        let n := aget len_base (v - 257) + e in
        '(d, s) ← symbol dist s;
        if 29 <? d then None
        else
          '(e, s) ← take_bits (Z.to_nat (aget dist_extra d)) s;
          let back := aget dist_base d + e in
          if zlen out <? back then None
          else symbols todo lit dist s (copy_back (Z.to_nat n) back out)
  end.

(** ** The code lengths of a dynamic block *)

Fixpoint clen_lengths (order : list Z) (n : nat) (s : list bool) (lens : list Z) : option (list Z * list bool) :=
  match n, order with
  | S n, i :: order => '(v, s) ← take_bits 3 s; clen_lengths order n s (aset lens i v)
  | _, _ => Some (lens, s)
  end.

(** [want] code lengths, those already read in [acc] *)
Fixpoint code_lengths (todo : nat) (clens : list Z) (want : Z) (s : list bool) (acc : list Z) : option (list Z * list bool) :=
  if want <? zlen acc then None
  else if zlen acc =? want then Some (acc, s)
  else
    match todo with
    | O => None
    | S todo =>
        '(v, s) ← symbol clens s;
        if v <? 16 then code_lengths todo clens want s (acc ++ [v])
        else if v =? 16 then
          if zlen acc =? 0 then None
          else '(e, s) ← take_bits 2 s;
               code_lengths todo clens want s (acc ++ replicate (Z.to_nat (3 + e)) (aget acc (zlen acc - 1)))
        else if v =? 17 then '(e, s) ← take_bits 3 s; code_lengths todo clens want s (acc ++ replicate (Z.to_nat (3 + e)) 0)
        else '(e, s) ← take_bits 7 s; code_lengths todo clens want s (acc ++ replicate (Z.to_nat (11 + e)) 0)
    end.

(** a block with codes of its own. A distance code may be absent (all zero). *)
Definition dynamic_block (s : list bool) (out : list Z) : option (list Z * list bool) :=
  '(hlit, s) ← take_bits 5 s;
  '(hdist, s) ← take_bits 5 s;
  '(hclen, s) ← take_bits 4 s;
  '(clens, s) ← clen_lengths clen_order (Z.to_nat (hclen + 4)) s (replicate 19 0);
  if negb (complete clens) then None
  else
    '(lens, s) ← code_lengths (length s) clens (hlit + 257 + (hdist + 1)) s [];
    let lit := take (Z.to_nat (hlit + 257)) lens in
    let dist := drop (Z.to_nat (hlit + 257)) lens in
    if negb (complete lit) || (aget lit 256 =? 0) then None
    else if negb (complete dist) && negb (forallb (fun l => l =? 0) dist) then None
    else symbols (length s) lit dist s out.

Definition fixed_lit : list Z := replicate 144 8 ++ replicate 112 9 ++ replicate 24 7 ++ replicate 8 8.
Definition fixed_dist : list Z := replicate 32 5.

(** [n] bytes as they are *)
Fixpoint take_bytes (n : nat) (s : list bool) : option (list Z * list bool) :=
  match n with
  | O => Some ([], s)
  | S n => '(v, s) ← take_bits 8 s; '(l, s) ← take_bytes n s; Some (v :: l, s)
  end.

(** the stream ends at a byte boundary, so what is left tells where one is *)
Definition stored_block (s : list bool) (out : list Z) : option (list Z * list bool) :=
  let s := drop (length s mod 8) s in
  '(n, s) ← take_bits 16 s;
  '(c, s) ← take_bits 16 s;
  if negb (c =? 65535 - n) then None
  else '(l, s) ← take_bytes (Z.to_nat n) s; Some (out ++ l, s).

Definition block (s : list bool) (out : list Z) : option (bool * list Z * list bool) :=
  '(final, s) ← take_bits 1 s;
  '(type, s) ← take_bits 2 s;
  '(out, s) ← (if type =? 0 then stored_block s out
               else if type =? 1 then symbols (length s) fixed_lit fixed_dist s out
               else if type =? 2 then dynamic_block s out else None);
  Some (final =? 1, out, s).

Fixpoint blocks (todo : nat) (s : list bool) (out : list Z) : option (list Z * list bool) :=
  match todo with
  | O => None
  | S todo =>
      '(final, out, s) ← block s out;
      if (final : bool) then Some (out, s) else blocks todo s out
  end.

(** what the stream [p] is the compression of, and the bits after its last block *)
Definition inflate (p : list Z) : option (list Z * list bool) := blocks (length (stream p)) (stream p) [].

(** ** Streams made by zlib: a block with the fixed codes, one with its own *)

Example inflate_fixed :
  fst <$> inflate [0xCB; 0x48; 0xCD; 0xC9; 0xC9; 0x57; 0xC8; 0x40; 0x90; 0x00] =
  Some [104; 101; 108; 108; 111; 32; 104; 101; 108; 108; 111; 32; 104; 101; 108; 108; 111].
Proof. vm_compute. reflexivity. Qed.

Example inflate_dynamic :
  fst <$> inflate
    [141; 139; 193; 17; 0; 48; 12; 130; 102; 213; 104; 116; 255; 9; 154; 17; 202; 241; 132; 161; 217; 54; 98; 145; 160; 22; 23;
     71; 20; 168; 213; 74; 53; 194; 49; 55; 178; 123; 141; 146; 217; 189; 129; 243; 239; 3] =
  Some [99; 98; 101; 98; 104; 104; 104; 103; 100; 98; 104; 97; 103; 103; 97; 104; 101; 100; 98; 102; 97; 97; 97; 97; 103; 100;
        103; 97; 100; 104; 104; 100; 102; 100; 100; 104; 101; 97; 103; 98; 99; 101; 98; 102; 103; 100; 101; 101; 104; 103; 97;
        104; 100; 103; 103; 99; 102; 102; 98; 104; 97; 98; 99; 97; 98; 99; 97; 98; 99; 97; 98; 99; 97; 98; 99; 97; 98; 99; 97;
        98; 99; 97; 98; 99; 97; 98; 99; 97; 98; 99; 97; 98; 99; 97; 98; 99; 97; 98; 99; 97; 98; 99; 97; 98; 99].
Proof. vm_compute. reflexivity. Qed.
