(* ===== verification/Deflate.v ===== *)
(** * DEFLATE compression (kernel/deflate.c)

    [grow] says whether krealloc gives a buffer of so many bytes; of none it
    gives NULL. The scratch arrays are written before they are read and are
    local lists here; the array [prev] is read where it was written only, and
    its first contents are whatever the heap held ([prev0]). The counts of
    bits that choose a block's kind stay below 2^32 and are plain integers. *)

From S2P Require Import Prelude.

Definition WSIZE : Z := 32768.
Definition HASH_BITS : Z := 15.
Definition HASH_SIZE : Z := 32768.
Definition MIN_MATCH : Z := 3.
Definition MAX_MATCH : Z := 258.
Definition CHAIN_MAX : Z := 64.
Definition GOOD_LAZY : Z := 32.
Definition BLOCK_TOKENS : Z := 32768.

Definition LBASE : list Z :=
  [3; 4; 5; 6; 7; 8; 9; 10; 11; 13; 15; 17; 19; 23; 27; 31; 35; 43; 51; 59;
   67; 83; 99; 115; 131; 163; 195; 227; 258].
Definition LEXT : list Z := [0; 0; 0; 0; 0; 0; 0; 0; 1; 1; 1; 1; 2; 2; 2; 2; 3; 3; 3; 3; 4; 4; 4; 4; 5; 5; 5; 5; 0].
Definition DBASE : list Z :=
  [1; 2; 3; 4; 5; 7; 9; 13; 17; 25; 33; 49; 65; 97; 129; 193; 257; 385; 513; 769;
   1025; 1537; 2049; 3073; 4097; 6145; 8193; 12289; 16385; 24577].
Definition DEXT : list Z :=
  [0; 0; 0; 0; 1; 1; 2; 2; 3; 3; 4; 4; 5; 5; 6; 6; 7; 7; 8; 8; 9; 9; 10; 10; 11; 11; 12; 12; 13; 13].
Definition CLORDER : list Z := [16; 17; 18; 0; 8; 7; 9; 6; 10; 5; 11; 4; 12; 3; 13; 2; 14; 1; 15].

(** ** Bit output *)

(** [buf] holds [len] bytes of its [cap] *)
Record bw_t := Bw { buf : list Z; cap : Z; bits : Z; nbits : Z; oom : bool }.
#[export] Instance bw_eta : Eta bw_t := fun w => Bw (buf w) (cap w) (bits w) (nbits w) (oom w).
Definition bw_zero : bw_t := Bw [] 0 0 0 false.

Section Writer.
Variable grow : Z -> bool.

Definition bw_byte (w : bw_t) (b : Z) : bw_t :=
  if oom w then w
  else if cap w <=? zlen (buf w) then
    let c := if negb (cap w =? 0) then u32 (cap w * 2) else 4096 in
    if negb (c =? 0) && grow c then w <| cap := c |> <| buf ::= fun l => l ++ [b] |>
    else w <| oom := true |>
  else w <| buf ::= fun l => l ++ [b] |>.

(** [while (w->nbits >= 8)] *)
Fixpoint bw_drain (todo : nat) (w : bw_t) : bw_t :=
  match todo with
  | O => w
  | S todo =>
      if nbits w <? 8 then w
      else bw_drain todo (bw_byte w (u8 (bits w)) <| bits ::= fun b => Z.shiftr b 8 |> <| nbits ::= fun n => n - 8 |>)
  end.

Definition bw_put (w : bw_t) (v n : Z) : bw_t :=
  let w := w <| bits ::= fun b => Z.lor b (u32 (Z.shiftl v (nbits w))) |> <| nbits ::= fun k => k + n |> in
  bw_drain (Z.to_nat (nbits w)) w.

Definition bw_align (w : bw_t) : bw_t :=
  let w := if 0 <? nbits w then bw_byte w (u8 (bits w)) else w in
  w <| bits := 0 |> <| nbits := 0 |>.

Fixpoint bw_bytes (w : bw_t) (l : list Z) : bw_t :=
  match l with
  | [] => w
  | b :: l => bw_bytes (bw_byte w b) l
  end.

Fixpoint stored_blocks (todo : nat) (w : bw_t) (input : list Z) (final : bool) : bw_t :=
  match todo with
  | O => w
  | S todo =>
      let n := zlen input in
      let k := if 65535 <? n then 65535 else n in
      let last := final && (k =? n) in
      let w := bw_align (bw_put (bw_put w (Z.b2z last) 1) 0 2) in
      let w := bw_byte (bw_byte w (u8 k)) (u8 (Z.shiftr k 8)) in
      let w := bw_byte (bw_byte w (u8 (u32 (Z.lnot k)))) (u8 (Z.shiftr (u32 (Z.lnot k)) 8)) in
      let w := bw_bytes w (take (Z.to_nat k) input) in
      if n - k =? 0 then w else stored_blocks todo w (drop (Z.to_nat k) input) final
  end.
End Writer.

(** ** Huffman codes *)

(** the nodes so far: the symbols, then the inner ones in the order they are made *)
Record forest := Forest { weight : list Z; alive : list bool; parent : list Z }.

(** the two lightest nodes alive, from [i] on *)
Fixpoint two_least (todo : nat) (f : forest) (i a b : Z) : Z * Z :=
  match todo with
  | O => (a, b)
  | S todo =>
      if negb (aget (alive f) i) then two_least todo f (i + 1) a b
      else if (a <? 0) || (aget (weight f) i <? aget (weight f) a) then two_least todo f (i + 1) i a
      else if (b <? 0) || (aget (weight f) i <? aget (weight f) b) then two_least todo f (i + 1) a i
      else two_least todo f (i + 1) a b
  end.

Definition join (f : forest) : forest :=
  let nodes := zlen (weight f) in
  let '(a, b) := two_least (length (weight f)) f 0 (-1) (-1) in
  Forest (weight f ++ [u32 (aget (weight f) a + aget (weight f) b)])
         (aset (aset (alive f) a false) b false ++ [true])
         (aset (aset (parent f) a nodes) b nodes ++ [-1]).

(** [for (p = i; parent[p] >= 0; p = parent[p]) d++] *)
Fixpoint depth (todo : nat) (par : list Z) (p : Z) : option Z :=
  match todo with
  | O => None
  | S todo => if aget par p <? 0 then Some 0 else d ← depth todo par (aget par p); Some (1 + d)
  end.

(** len and too_long, from the symbol [i] on *)
Fixpoint lengths_from (freq : list Z) (f : forest) (maxbits i : Z) : option (list Z * bool) :=
  match freq with
  | [] => Some ([], false)
  | x :: freq =>
      if x =? 0 then '(l, t) ← lengths_from freq f maxbits (i + 1); Some (0 :: l, t)
      else
        d ← depth (length (parent f)) (parent f) i;
        '(l, t) ← lengths_from freq f maxbits (i + 1);
        Some (u8 d :: l, (maxbits <? d) || t)
  end.

Fixpoint used_last (freq : list Z) (i used last : Z) : Z * Z :=
  match freq with
  | [] => (used, last)
  | x :: freq => if negb (x =? 0) then used_last freq (i + 1) (used + 1) i else used_last freq (i + 1) used last
  end.

Definition leaves (freq : list Z) : forest :=
  Forest freq (map (fun x => negb (x =? 0)) freq) (replicate (length freq) (-1)).

Definition flatten (freq : list Z) : list Z := map (fun x => if negb (x =? 0) then Z.lor (Z.shiftr x 1) 1 else x) freq.

(** each round of the loop is one unit of fuel *)
Fixpoint huff_lengths (todo : nat) (freq : list Z) (maxbits : Z) : option (list Z) :=
  match todo with
  | O => None
  | S todo =>
      let '(used, last) := used_last freq 0 0 (-1) in
      let none := replicate (length freq) 0 in
      if used =? 0 then Some none
      else if used =? 1 then Some (aset (aset none last 1) (if last =? 0 then 1 else 0) 1)
      else
        '(len, too_long) ← lengths_from freq (Nat.iter (Z.to_nat (used - 1)) join (leaves freq)) maxbits 0;
        if too_long : bool then huff_lengths todo (flatten freq) maxbits else Some len
  end.

(** rounds after which every frequency is 1, and one more *)
Definition ROUNDS : nat := 33.

Definition bump (l : list Z) (i : Z) : list Z := aset l i (u32 (aget l i + 1)).

(** next[b], [c] being that of [b - 1] *)
Fixpoint next_codes (todo : nat) (count : list Z) (b c : Z) : list Z :=
  match todo with
  | O => []
  | S todo => let c := u16 (Z.shiftl (c + aget count (b - 1)) 1) in c :: next_codes todo count (b + 1) c
  end.

Fixpoint reversed (n : nat) (v r : Z) : Z :=
  match n with
  | O => r
  | S n => reversed n (Z.shiftr v 1) (u16 (Z.lor (Z.shiftl r 1) (Z.land v 1)))
  end.

Fixpoint codes_from (len : list Z) (next : list Z) : list Z :=
  match len with
  | [] => []
  | l :: len =>
      if l =? 0 then 0 :: codes_from len next
      else let v := aget next l in
           reversed (Z.to_nat l) v 0 :: codes_from len (aset next l (u16 (v + 1)))
  end.

Definition huff_codes (len : list Z) : list Z :=
  let count := aset (foldl (fun c l => aset c l (u16 (aget c l + 1))) (replicate 16 0) len) 0 0 in
  codes_from len (0 :: next_codes 15 count 1 0).

(** ** Tokens and blocks *)

(** [tdist] 0: the byte [tlen] itself *)
Record tok_t := Tok { tlen : Z; tdist : Z }.

(** [while (base[s] > x) s--] *)
Fixpoint sym_down (s : nat) (base : list Z) (x : Z) : Z :=
  if x <? aget base (Z.of_nat s) then match s with O => -1 | S s => sym_down s base x end else Z.of_nat s.
Definition len_sym (len : Z) : Z := sym_down 28 LBASE len.
Definition dist_sym (dist : Z) : Z := sym_down 29 DBASE dist.

Fixpoint count_tokens (t : list tok_t) (lf df : list Z) : list Z * list Z :=
  match t with
  | [] => (lf, df)
  | x :: t =>
      if tdist x =? 0 then count_tokens t (bump lf (tlen x)) df
      else count_tokens t (bump lf (257 + len_sym (tlen x))) (bump df (dist_sym (tdist x)))
  end.

(** [while (h > lo && !len(h - 1)) h--] *)
Fixpoint trim (todo : nat) (lo : Z) (len : Z -> Z) (h : Z) : Z :=
  match todo with
  | O => h
  | S todo => if (lo <? h) && (len (h - 1) =? 0) then trim todo lo len (h - 1) else h
  end.

Fixpoint run_of (v : Z) (l : list Z) : Z :=
  match l with
  | [] => 0
  | x :: l => if x =? v then 1 + run_of v l else 0
  end.

(** the code lengths, run-length coded: a symbol with its extra bits *)
Fixpoint rle_lens (todo : nat) (lens : list Z) : list (Z * Z) :=
  match todo, lens with
  | S todo, v :: rest =>
      let run := 1 + run_of v rest in
      if (v =? 0) && (3 <=? run) then
        let k := if 138 <? run then 138 else run in
        (if 11 <=? k then (18, u8 (k - 11)) else (17, u8 (k - 3))) :: rle_lens todo (drop (Z.to_nat k) lens)
      else if negb (v =? 0) && (4 <=? run) then
        let k := if 6 <? run - 1 then 6 else run - 1 in
        (u8 v, 0) :: (16, u8 (k - 3)) :: rle_lens todo (drop (Z.to_nat (1 + k)) lens)
      else (u8 v, 0) :: rle_lens todo rest
  | _, _ => []
  end.

Definition rle_bits (s : Z) : Z := if s =? 16 then 2 else if s =? 17 then 3 else if s =? 18 then 7 else 0.

(** sum of f(i) for i from [i] on *)
Fixpoint sum_upto (n : nat) (f : Z -> Z) (i : Z) : Z :=
  match n with
  | O => 0
  | S n => f i + sum_upto n f (i + 1)
  end.

Definition block_bits (lf df ll dl cl : list Z) (rle : list (Z * Z)) (hclen : Z) : Z :=
  3 + 5 + 5 + 4 + 3 * hclen
  + zsum (map (fun '(s, _) => aget cl s + rle_bits s) rle)
  + sum_upto 286 (fun i => aget lf i * aget ll i) 0
  + sum_upto 29 (fun i => aget lf (257 + i) * aget LEXT i) 0
  + sum_upto 30 (fun i => aget df i * (aget dl i + aget DEXT i)) 0.

Definition stored_bits (raw : Z) : Z := raw * 8 + ((raw + 65534) / 65535 + Z.b2z (raw =? 0)) * 40 + 8.

Section Blocks.
Variable grow : Z -> bool.

Fixpoint put_clens (n : nat) (order cl : list Z) (w : bw_t) : bw_t :=
  match n, order with
  | S n, s :: order => put_clens n order cl (bw_put grow w (aget cl s) 3)
  | _, _ => w
  end.

Fixpoint put_rle (rle : list (Z * Z)) (cc cl : list Z) (w : bw_t) : bw_t :=
  match rle with
  | [] => w
  | (s, e) :: rle =>
      let w := bw_put grow w (aget cc s) (aget cl s) in
      let w := if s =? 16 then bw_put grow w e 2 else if s =? 17 then bw_put grow w e 3
               else if s =? 18 then bw_put grow w e 7 else w in
      put_rle rle cc cl w
  end.

Definition put_token (lc ll dc dl : list Z) (w : bw_t) (x : tok_t) : bw_t :=
  if tdist x =? 0 then bw_put grow w (aget lc (tlen x)) (aget ll (tlen x))
  else
    let ls := len_sym (tlen x) in
    let ds := dist_sym (tdist x) in
    let w := bw_put grow w (aget lc (257 + ls)) (aget ll (257 + ls)) in
    let w := if negb (aget LEXT ls =? 0) then bw_put grow w (u32 (tlen x - aget LBASE ls)) (aget LEXT ls) else w in
    let w := bw_put grow w (aget dc ds) (aget dl ds) in
    if negb (aget DEXT ds =? 0) then bw_put grow w (u32 (tdist x - aget DBASE ds)) (aget DEXT ds) else w.

(** the block of the tokens [t], which stand for the bytes [raw] *)
Definition write_block (t : list tok_t) (raw : list Z) (final : bool) (w : bw_t) : option bw_t :=
  let '(lf, df) := count_tokens t (replicate 286 0) (replicate 30 0) in
  let lf := aset lf 256 1 in
  ll ← huff_lengths ROUNDS lf 15;
  dl ← huff_lengths ROUNDS df 15;
  let hlit := trim 286 257 (aget ll) 286 in
  let hdist := trim 30 1 (aget dl) 30 in
  let lens := take (Z.to_nat hlit) ll ++ take (Z.to_nat hdist) dl in
  let rle := rle_lens (length lens) lens in
  cl ← huff_lengths ROUNDS (foldl bump (replicate 19 0) (map fst rle)) 7;
  let hclen := trim 19 4 (fun i => aget cl (aget CLORDER i)) 19 in
  if stored_bits (zlen raw) <=? block_bits lf df ll dl cl rle hclen
  then Some (stored_blocks grow (S (length raw)) w raw final)
  else
    let lc := huff_codes ll in
    let dc := huff_codes dl in
    let cc := huff_codes cl in
    let w := bw_put grow (bw_put grow w (Z.b2z final) 1) 2 2 in
    let w := bw_put grow (bw_put grow (bw_put grow w (hlit - 257) 5) (hdist - 1) 5) (hclen - 4) 4 in
    let w := put_clens (Z.to_nat hclen) CLORDER cl w in
    let w := put_rle rle cc cl w in
    let w := foldl (put_token lc ll dc dl) w t in
    Some (bw_put grow w (aget lc 256) (aget ll 256)).
End Blocks.

(** ** Finding matches *)

Section Match.
Variable input : list Z.

Definition hash3 (p : Z) : Z :=
  Z.land (Z.lxor (Z.lxor (Z.shiftl (aget input p) 10) (Z.shiftl (aget input (p + 1)) 5)) (aget input (p + 2))) (HASH_SIZE - 1).

(** [while (k < max && in[c + k] == in[pos + k]) k++] *)
Fixpoint match_len (todo : nat) (c pos k : Z) : Z :=
  match todo with
  | O => k
  | S todo => if aget input (c + k) =? aget input (pos + k) then match_len todo c pos (k + 1) else k
  end.

(** the chain from [cand] on: the best length so far and its distance *)
Fixpoint follow (chain : nat) (prev : list Z) (pos max cand best dist : Z) : Z * Z :=
  match chain with
  | O => (best, dist)
  | S chain =>
      if (cand <? 0) || (pos <=? cand) || (WSIZE <? pos - cand) then (best, dist)
      else if (aget input (cand + best) =? aget input (pos + best)) && (aget input cand =? aget input pos) then
        let k := match_len (Z.to_nat max) cand pos 0 in
        if best <? k then
          if k =? max then (k, pos - cand)
          else follow chain prev pos max (aget prev (Z.land cand (WSIZE - 1))) k (pos - cand)
        else follow chain prev pos max (aget prev (Z.land cand (WSIZE - 1))) best dist
      else follow chain prev pos max (aget prev (Z.land cand (WSIZE - 1))) best dist
  end.

Definition longest (pos : Z) (head prev : list Z) : Z * Z :=
  let max := if zlen input - pos <? MAX_MATCH then zlen input - pos else MAX_MATCH in
  if max <? MIN_MATCH then (0, 0)
  else
    let '(best, dist) := follow (Z.to_nat CHAIN_MAX) prev pos max (aget head (hash3 pos)) 0 0 in
    (if MIN_MATCH <=? best then best else 0, dist).

(** INSERT(p) *)
Definition insert_at (p : Z) (hp : list Z * list Z) : list Z * list Z :=
  let '(head, prev) := hp in
  if u32 (p + MIN_MATCH) <=? zlen input
  then let h := hash3 p in (aset head h (s32 p), aset prev (Z.land p (WSIZE - 1)) (aget head h))
  else hp.

(** INSERT(p), INSERT(p + 1), ... *)
Fixpoint insert_run (n : nat) (p : Z) (hp : list Z * list Z) : list Z * list Z :=
  match n with
  | O => hp
  | S n => insert_run n (p + 1) (insert_at p hp)
  end.

Record lz_t := Lz { pos : Z; block_start : Z; toks : list tok_t; tables : list Z * list Z; out : bw_t }.
#[global] Instance lz_eta : Eta lz_t := fun z => Lz (pos z) (block_start z) (toks z) (tables z) (out z).

Definition literal (z : lz_t) : lz_t :=
  z <| toks ::= fun t => t ++ [Tok (aget input (pos z)) 0] |> <| pos ::= fun p => p + 1 |>.
Definition matched (mlen dist : Z) (z : lz_t) : lz_t :=
  z <| toks ::= fun t => t ++ [Tok (u16 mlen) (u16 dist)] |> <| pos ::= fun p => p + mlen |>.

(** the tokens of one turn of the loop *)
Definition next_token (z : lz_t) : lz_t :=
  let p := pos z in
  let '(mlen, dist) := longest p (tables z).1 (tables z).2 in
  let finish mlen dist (z : lz_t) :=
    if negb (mlen =? 0) then matched mlen dist (z <| tables ::= insert_run (Z.to_nat mlen) (pos z) |>)
    else literal (z <| tables ::= insert_at (pos z) |>) in
  if negb (mlen =? 0) && (mlen <? GOOD_LAZY) && (p + 1 <? zlen input) then
    let z := z <| tables ::= insert_at p |> in
    let '(m2, d2) := longest (p + 1) (tables z).1 (tables z).2 in
    if mlen <? m2 then finish m2 d2 (literal z)
    else matched mlen dist (z <| tables ::= insert_run (Z.to_nat (mlen - 1)) (p + 1) |>)
  else finish mlen dist z.

Variable grow : Z -> bool.

Definition end_block (final : bool) (z : lz_t) : option lz_t :=
  w ← write_block grow (toks z) (slice input (block_start z) (pos z)) final (out z);
  Some (z <| out := w |> <| block_start := pos z |> <| toks := [] |>).

(** [while (pos < len)] *)
Fixpoint compress (todo : nat) (z : lz_t) : option lz_t :=
  if zlen input <=? pos z then Some z
  else
    match todo with
    | O => None
    | S todo =>
        let z := next_token z in
        z ← (if BLOCK_TOKENS - 2 <=? zlen (toks z) then end_block (zlen input <=? pos z) z else Some z);
        compress todo z
    end.

(** [mem]: the four tables could be had. The result is NULL or the bytes. *)
Definition deflate_compress (mem : bool) (prev0 : list Z) : option (option (list Z)) :=
  if negb mem then Some None
  else
    z ← compress (length input) (Lz 0 0 [] (replicate (Z.to_nat HASH_SIZE) (-1), prev0) bw_zero);
    z ← (if negb (zlen (toks z) =? 0) || (zlen input =? 0) || (block_start z <? zlen input) then end_block true z else Some z);
    let w := bw_align grow (out z) in
    if oom w then Some None
    else if (cap w =? 0) && negb (grow 1) then Some None
    else Some (Some (buf w)).
End Match.
