(* ===== verification/DeflateBits.v ===== *)
(** * The bits that DEFLATE's writer puts out (kernel/deflate.c)

    [emits grow w bs w']: from [w] the bits [bs] were added, unless memory ran
    out. Memory runs out only where krealloc refuses a buffer, as long as the
    output stays below 2 GiB. *)

From S2P Require Import Prelude Inflate Deflate.

(** ** Bits of integers *)

Lemma length_bits_of n v : length (bits_of n v) = n.
Proof. revert v. induction n; intros; cbn; auto. Qed.

Lemma zlen_bits_of n v : 0 <= n -> zlen (bits_of (Z.to_nat n) v) = n.
Proof. intros. unfold zlen. rewrite length_bits_of. lia. Qed.

Lemma div2_odd v : v = 2 * Z.div2 v + Z.b2z (Z.odd v).
Proof. pose proof (Z.div2_odd v). destruct (Z.odd v); cbn [Z.b2z] in *; lia. Qed.

Lemma bits_of_join a b x y : 0 <= x < 2 ^ Z.of_nat a ->
  bits_of (a + b) (x + y * 2 ^ Z.of_nat a) = bits_of a x ++ bits_of b y.
Proof.
  revert x. induction a as [|a IH]; intros x Hx.
  - change (2 ^ Z.of_nat 0) with 1 in *. cbn. f_equal. lia.
  - cbn [Nat.add bits_of app]. rewrite Nat2Z.inj_succ, Z.pow_succ_r in * by lia.
    pose proof (div2_odd x) as E. set (h := Z.div2 x) in *. set (o := Z.odd x) in *.
    assert (Ev : x + y * (2 * 2 ^ Z.of_nat a) = 2 * (h + y * 2 ^ Z.of_nat a) + Z.b2z o) by lia.
    rewrite Ev. rewrite Z.add_comm, Z.odd_add_mul_2, Z.div2_div.
    replace ((Z.b2z o + 2 * (h + y * 2 ^ Z.of_nat a)) / 2) with (h + y * 2 ^ Z.of_nat a) by (destruct o; cbn [Z.b2z]; lia).
    f_equal; [by destruct o|]. apply IH. destruct o; cbn [Z.b2z] in *; lia.
Qed.

Lemma bits_of_zero n : bits_of n 0 = replicate n false.
Proof. induction n as [|n IH]; cbn; [done|]. by rewrite IH. Qed.

Lemma take_bits_of n v s : 0 <= v < 2 ^ Z.of_nat n -> take_bits n (bits_of n v ++ s) = Some (v, s).
Proof.
  revert v. induction n as [|n IH]; intros v Hv; cbn [bits_of take_bits app].
  - change (2 ^ Z.of_nat 0) with 1 in Hv. do 2 f_equal. lia.
  - rewrite Nat2Z.inj_succ, Z.pow_succ_r in Hv by lia. pose proof (div2_odd v).
    rewrite IH by (destruct (Z.odd v); cbn [Z.b2z] in *; lia). cbn [mbind option_bind]. do 2 f_equal. lia.
Qed.

Lemma stream_app p q : stream (p ++ q) = stream p ++ stream q.
Proof. unfold stream. by rewrite map_app, concat_app. Qed.

Lemma zlen_stream p : zlen (stream p) = 8 * zlen p.
Proof.
  induction p as [|b p IH]; [done|]. rewrite zlen_cons. change (stream (b :: p)) with (bits_of 8 b ++ stream p).
  rewrite zlen_app, IH. change 8%nat with (Z.to_nat 8). rewrite zlen_bits_of by lia. lia.
Qed.

(** the low byte of what is pending, and the rest *)
Lemma bits_of_byte n v : (8 <= n)%nat -> 0 <= v -> bits_of n v = bits_of 8 (u8 v) ++ bits_of (n - 8) (Z.shiftr v 8).
Proof.
  intros Hn Hv. replace n with (8 + (n - 8))%nat at 1 by lia. rewrite <- bits_of_join by (unfold u8; lia).
  f_equal. rewrite Z.shiftr_div_pow2 by lia. unfold u8. change (2 ^ Z.of_nat 8) with 256. lia.
Qed.

(** ** The writer *)

Section Emits.
Variable grow : Z -> bool.

(** krealloc refused one of the buffers the writer asks for *)
Definition refused : Prop := exists k, 0 <= k <= 19 /\ grow (2 ^ (12 + k)) = false.

Definition written (w : bw_t) : list bool := stream (buf w) ++ bits_of (Z.to_nat (nbits w)) (bits w).

Record caps_ok (w : bw_t) : Prop := Caps_ok {
  co_cap : (cap w = 0 /\ buf w = []) \/ exists k, 0 <= k <= 19 /\ cap w = 2 ^ (12 + k);
  co_len : zlen (buf w) <= cap w;
  co_bits : 0 <= nbits w /\ 0 <= bits w < 2 ^ nbits w;
}.
Record wok (w : bw_t) : Prop := Wok { wk_caps : caps_ok w; wk_nbits : nbits w < 8 }.

Definition adds (w : bw_t) (bs : list bool) (w' : bw_t) : Prop :=
  (oom w' = false -> oom w = false /\ written w' = written w ++ bs) /\
  (oom w' = true -> oom w = false -> zlen (written w) + zlen bs < 2 ^ 34 -> refused).

Definition emits (w : bw_t) (bs : list bool) (w' : bw_t) : Prop :=
  wok w -> wok w' /\ nbits w' = (nbits w + zlen bs) mod 8 /\ adds w bs w'.

Lemma wok_zero : wok bw_zero.
Proof. split; [|reflexivity]. split; [by left|reflexivity|]. split; [reflexivity|]. split; [discriminate|reflexivity]. Qed.

Lemma adds_nil w : adds w [] w.
Proof. split; [by rewrite app_nil_r|congruence]. Qed.

Lemma adds_app w a w1 b w2 : adds w a w1 -> adds w1 b w2 -> adds w (a ++ b) w2.
Proof.
  intros [A1 A2] [B1 B2]. split.
  - intros H. destruct (B1 H) as [H1 ->]. destruct (A1 H1) as [H2 ->]. by rewrite app_assoc.
  - intros H H0 Hl. rewrite zlen_app in Hl. pose proof (zlen_nonneg a). pose proof (zlen_nonneg b).
    destruct (oom w1) eqn:E; [apply A2; [done|done|lia]|]. destruct (A1 eq_refl) as [_ E1].
    apply B2; [done|done|]. rewrite E1, zlen_app. lia.
Qed.

Lemma emits_nil w : emits w [] w.
Proof.
  intros Hw. split; [done|]. split; [|apply adds_nil]. destruct Hw as [[_ _ []] ?]. change (zlen (@nil bool)) with 0.
  rewrite Z.add_0_r, Z.mod_small; lia.
Qed.

Lemma emits_app w a w1 b w2 : emits w a w1 -> emits w1 b w2 -> emits w (a ++ b) w2.
Proof.
  intros HA HB Hw. destruct (HA Hw) as (Hw1 & Ha & A). destruct (HB Hw1) as (Hw2 & Hb & B).
  split; [done|]. split; [rewrite Hb, Ha, zlen_app, Zplus_mod_idemp_l; f_equal; lia|]. by apply (adds_app w a w1).
Qed.

Lemma written_len w : caps_ok w -> zlen (written w) = 8 * zlen (buf w) + nbits w.
Proof. intros []. unfold written. rewrite zlen_app, zlen_stream, zlen_bits_of by lia. done. Qed.

(** the next buffer's size: none when 2 GiB are full *)
Lemma next_cap w : caps_ok w -> let c := if negb (cap w =? 0) then u32 (cap w * 2) else 4096 in
  (c = 0 /\ cap w = 2 ^ 31) \/ (cap w < c /\ exists k, 0 <= k <= 19 /\ c = 2 ^ (12 + k)).
Proof.
  intros [Hc _ _]. cbv zeta. destruct Hc as [[Hc _]|(k & Hk & Hc)]; rewrite Hc.
  - right. cbn. split; [lia|]. by exists 0.
  - assert (0 < 2 ^ (12 + k)) by lia. destruct (_ =? 0) eqn:E0; zbool; [lia|]. cbn [negb].
    destruct (decide (k = 19)) as [->|Hne]; [by left|]. right.
    assert (2 ^ (12 + k) < 2 ^ 31) by (apply Z.pow_lt_mono_r; lia). rewrite u32_small by (unfold is_u32; lia).
    split; [lia|]. exists (k + 1). split; [lia|]. replace (12 + (k + 1)) with (Z.succ (12 + k)) by lia.
    rewrite Z.pow_succ_r by lia. lia.
Qed.

Lemma bw_byte_ok w b : caps_ok w -> let w' := bw_byte grow w b in
  caps_ok w' /\ bits w' = bits w /\ nbits w' = nbits w /\
  (oom w' = false -> oom w = false /\ buf w' = buf w ++ [b]) /\
  (oom w' = true -> oom w = false -> zlen (buf w) < 2 ^ 31 -> refused).
Proof.
  intros Hw. pose proof Hw as [Hc Hl Hb]. cbv zeta. unfold bw_byte. destruct (oom w) eqn:Eo.
  { split; [done|]. split; [done|]. split; [done|]. split; congruence. }
  assert (Hpush : forall c, (exists k, 0 <= k <= 19 /\ c = 2 ^ (12 + k)) -> zlen (buf w) < c ->
    caps_ok (w <| cap := c |> <| buf ::= fun l => l ++ [b] |>)).
  { intros c Hk Hlt. split; [by right| |done]. cbn. rewrite zlen_app, zlen_cons, zlen_nil. lia. }
  destruct (cap w <=? zlen (buf w)) eqn:E; zbool.
  - destruct (next_cap w Hw) as [[-> Hc31]|(Hlt & Hk)].
    + cbn [negb Z.eqb andb]. split; [by split|]. split; [done|]. split; [done|]. split; [done|]. intros _ _ ?. lia.
    + set (c := if negb (cap w =? 0) then u32 (cap w * 2) else 4096) in *. clearbody c.
      destruct (negb (c =? 0) && grow c) eqn:Eg; zbool.
      * split; [apply Hpush; [done|lia]|]. split; [done|]. split; [done|]. split; [done|]. cbn. congruence.
      * split; [by split|]. split; [done|]. split; [done|]. split; [done|]. intros _ _ _.
        destruct Hk as (k & Hk & ->). exists k. split; [done|]. assert (0 < 2 ^ (12 + k)) by lia.
        destruct Eg as [Eg|Eg]; [zbool; lia|done].
  - assert (Hk : exists k, 0 <= k <= 19 /\ cap w = 2 ^ (12 + k)).
    { destruct Hc as [[Hc Hn]|Hk]; [|done]. rewrite Hc, Hn in E. change (zlen (@nil Z)) with 0 in E. lia. }
    pose proof (Hpush (cap w) Hk E) as Hp. split; [by destruct Hp|]. split; [done|]. split; [done|]. split; [done|]. cbn. congruence.
Qed.

(** while bits wait, bytes of them are moved *)
Lemma bw_drain_ok todo w : caps_ok w -> (Z.to_nat (nbits w) < todo * 8 + 8)%nat ->
  wok (bw_drain grow todo w) /\ nbits (bw_drain grow todo w) = nbits w mod 8 /\ adds w [] (bw_drain grow todo w).
Proof.
  revert w. induction todo as [|todo IH]; intros w Hw Ht; cbn [bw_drain]; pose proof (co_bits _ Hw) as [Hn0 _].
  { split; [split; [done|lia]|]. split; [rewrite Z.mod_small; lia|apply adds_nil]. }
  destruct (nbits w <? 8) eqn:E; zbool; [split; [by split|]; split; [rewrite Z.mod_small; lia|apply adds_nil]|].
  destruct (bw_byte_ok w (u8 (bits w)) Hw) as (Hw1 & Hb1 & Hn1 & H1 & H2). set (w1 := bw_byte grow w (u8 (bits w))) in *. clearbody w1.
  set (w2 := w1 <| bits ::= _ |> <| nbits ::= _ |>).
  assert (Hw2 : caps_ok w2).
  { destruct Hw1 as [C1 C2 [C3 C4]]. split; [done|done|]. cbn. rewrite Hb1, Hn1 in *. split; [lia|].
    rewrite Z.shiftr_div_pow2 by lia. split; [apply Z.div_pos; lia|]. apply Z.div_lt_upper_bound; [lia|].
    rewrite <- Z.pow_add_r by lia. replace (8 + (nbits w - 8)) with (nbits w) by lia. apply C4. }
  assert (H12 : adds w [] w2).
  { split.
    - intros Ho. destruct (H1 Ho) as [Ho' Hbuf]. split; [done|]. rewrite app_nil_r. unfold written. cbn [buf bits nbits w2 set].
      change (buf w2) with (buf w1). change (nbits w2) with (nbits w1 - 8). change (bits w2) with (Z.shiftr (bits w1) 8).
      rewrite Hbuf, Hb1, Hn1, stream_app. destruct Hw as [_ _ [_ Hbits]].
      rewrite (bits_of_byte (Z.to_nat (nbits w))) by lia. rewrite <- app_assoc. f_equal.
      change (stream [u8 (bits w)]) with (bits_of 8 (u8 (bits w)) ++ []). rewrite app_nil_r. do 2 f_equal. lia.
    - intros Ho Ho' Hl. apply H2; [done|done|]. rewrite written_len in Hl by done. change (zlen (@nil bool)) with 0 in Hl. lia. }
  destruct (IH w2 Hw2) as (Hok & Hnb & Hadd); [change (nbits w2) with (nbits w1 - 8); rewrite Hn1; lia|].
  split; [done|]. split; [rewrite Hnb; change (nbits w2) with (nbits w1 - 8); rewrite Hn1; lia|]. change (@nil bool) with (@nil bool ++ []). by apply (adds_app w [] w2).
Qed.

(** [n] bits of [v] are written after those before *)
Lemma emits_put w v n : 0 <= n <= 16 -> 0 <= v < 2 ^ n -> emits w (bits_of (Z.to_nat n) v) (bw_put grow w v n).
Proof.
  intros Hn Hv [Hw Hb]. pose proof Hw as [C1 C2 [C3 C4]]. unfold bw_put.
  set (w1 := w <| bits ::= _ |> <| nbits ::= _ |>).
  assert (Ebits : bits w1 = bits w + v * 2 ^ nbits w).
  { change (bits w1) with (Z.lor (bits w) (u32 (Z.shiftl v (nbits w)))). rewrite Z.shiftl_mul_pow2 by lia.
    assert (v * 2 ^ nbits w < 2 ^ 32).
    { assert (v * 2 ^ nbits w < 2 ^ n * 2 ^ nbits w) by nia. rewrite <- Z.pow_add_r in * by lia.
      assert (2 ^ (n + nbits w) <= 2 ^ 32) by (apply Z.pow_le_mono_r; lia). lia. }
    rewrite u32_small by (unfold is_u32; nia). rewrite Z.lor_comm, (lor_low (nbits w)); [lia|lia|exact C4|apply Z.mod_mul; lia]. }
  assert (En : nbits w1 = nbits w + n) by done.
  assert (Hw1 : caps_ok w1).
  { split; [done|done|]. rewrite Ebits, En, Z.pow_add_r by lia. split; [lia|nia]. }
  destruct (bw_drain_ok (Z.to_nat (nbits w1)) w1 Hw1 ltac:(lia)) as (Hok & Hnb & Hadd).
  split; [done|]. split; [rewrite Hnb, En, zlen_bits_of by lia; done|]. rewrite <- (app_nil_r (bits_of _ _)). apply (adds_app w _ w1); [|done].
  split; [|cbn; congruence]. intros Ho. split; [done|]. unfold written. rewrite Ebits, En.
  rewrite <- app_assoc. f_equal. rewrite <- bits_of_join; rewrite Z2Nat.id by lia; [|exact C4]. f_equal. lia.
Qed.

(** zeros up to the next byte *)
Lemma emits_align w : wok w -> let w' := bw_align grow w in
  emits w (replicate (Z.to_nat ((- nbits w) mod 8)) false) w' /\ nbits w' = 0.
Proof.
  intros [Hw Hb]. pose proof Hw as [C1 C2 [C3 C4]]. cbv zeta. split; [|done]. intros _. unfold bw_align.
  destruct (0 <? nbits w) eqn:E; zbool.
  - destruct (bw_byte_ok w (u8 (bits w)) Hw) as (Hw1 & Hb1 & Hn1 & H1 & H2). set (w1 := bw_byte grow w (u8 (bits w))) in *. clearbody w1.
    split; [split; [|cbn; lia]; destruct Hw1; split; [done|done|cbn; lia]|].
    split; [change (0 = (nbits w + zlen (replicate (Z.to_nat (- nbits w mod 8)) false)) mod 8); unfold zlen; rewrite length_replicate; lia|]. split.
    + intros Ho. destruct (H1 Ho) as [Ho' Hbuf]. split; [done|]. unfold written. cbn [bits_of app].
      change (buf (_ <| bits := 0 |> <| nbits := 0 |>)) with (buf w1). rewrite Hbuf, stream_app, app_nil_r, <- app_assoc. f_equal.
      change (stream [u8 (bits w)]) with (bits_of 8 (u8 (bits w)) ++ []). rewrite app_nil_r.
      assert (2 ^ nbits w <= 2 ^ 8) by (apply Z.pow_le_mono_r; lia). replace (u8 (bits w)) with (bits w) by (unfold u8; lia).
      rewrite <- bits_of_zero, <- bits_of_join by (rewrite Z2Nat.id by lia; exact C4). rewrite Z.mul_0_l, Z.add_0_r. f_equal. lia.
    + intros Ho Ho' Hl. apply H2; [done|done|]. rewrite written_len in Hl by done. pose proof (zlen_nonneg (replicate (Z.to_nat (- nbits w mod 8)) false)). lia.
  - assert (nbits w = 0) as E0 by lia. rewrite E0. change (replicate _ false) with (@nil bool).
    split; [split; [split; [done|done|split; [reflexivity|]; split; [reflexivity|reflexivity]]|reflexivity]|]. split; [reflexivity|]. split; [|cbn; congruence]. intros Ho. split; [done|].
    rewrite app_nil_r. unfold written. rewrite E0. reflexivity.
Qed.

(** whole bytes, when no bits wait *)
Lemma emits_byte w b : nbits w = 0 -> emits w (stream [b]) (bw_byte grow w b) /\ nbits (bw_byte grow w b) = 0.
Proof.
  intros Hn. split.
  - intros [Hw Hb]. destruct (bw_byte_ok w b Hw) as (Hw1 & Hb1 & Hn1 & H1 & H2). split; [split; [done|lia]|].
    split; [rewrite Hn1, Hn, zlen_stream; change (zlen [b]) with 1; done|]. split.
    + intros Ho. destruct (H1 Ho) as [Ho' Hbuf]. split; [done|]. unfold written. rewrite Hbuf, Hn1, Hn. cbn [bits_of Z.to_nat].
      by rewrite stream_app, !app_nil_r.
    + intros Ho Ho' Hl. apply H2; [done|done|]. rewrite written_len, zlen_stream in Hl by done. rewrite zlen_cons in Hl.
      change (zlen (@nil Z)) with 0 in Hl. lia.
  - unfold bw_byte. destruct (oom w); [done|]. repeat case_bool; done.
Qed.

Lemma emits_stream l w : nbits w = 0 -> emits w (stream l) (bw_bytes grow w l) /\ nbits (bw_bytes grow w l) = 0.
Proof.
  revert w. induction l as [|b l IH]; intros w Hn; cbn [bw_bytes]; [split; [apply emits_nil|done]|].
  destruct (emits_byte w b Hn) as [He Hn1]. destruct (IH _ Hn1) as [He2 Hn2]. split; [|done].
  change (stream (b :: l)) with (stream ([b] ++ l)). rewrite stream_app. by apply (emits_app w _ (bw_byte grow w b)).
Qed.
End Emits.
