(* ===== verification/HuffTree.v ===== *)
(** * Huffman codes (kernel/deflate.c: huff_codes, huff_lengths)

    The codes the compressor makes from code lengths are those of RFC 1951:
    the reference decoder reads each back, whatever follows it. The loop that
    joins the two lightest nodes builds a tree of the used symbols, so their
    depths are the lengths of a complete code; flattening the frequencies
    ends, because a tree of equal weights is shallow enough. *)

From S2P Require Import Prelude Inflate Deflate DeflateBits.

(** ** Counting lengths *)

Lemma count_len_cons x lens l : count_len (x :: lens) l = (if x =? l then 1 else 0) + count_len lens l.
Proof.
  unfold count_len. rewrite filter_cons. destruct (decide (x = l)) as [->|H].
  - rewrite Z.eqb_refl, zlen_cons. done.
  - by rewrite (proj2 (Z.eqb_neq _ _)) by done.
Qed.

Lemma count_len_nil l : count_len [] l = 0.
Proof. done. Qed.

Lemma count_len_app a b l : count_len (a ++ b) l = count_len a l + count_len b l.
Proof. unfold count_len. by rewrite filter_app, zlen_app. Qed.

Lemma count_len_zeros n l : l <> 0 -> count_len (replicate n 0) l = 0.
Proof.
  intros Hl. induction n as [|n IH]; [done|]. cbn [replicate]. rewrite count_len_cons, IH.
  by rewrite (proj2 (Z.eqb_neq _ _)) by done.
Qed.

Lemma count_len_nonneg lens l : 0 <= count_len lens l.
Proof. apply zlen_nonneg. Qed.

Lemma count_len_le lens l : count_len lens l <= zlen lens.
Proof. unfold count_len, zlen. pose proof (length_filter (fun x => x = l) lens). lia. Qed.

(** the symbols of length [l]; none have length 0 *)
Definition cnt (lens : list Z) (l : nat) : Z := if Nat.eqb l 0 then 0 else count_len lens (Z.of_nat l).

Lemma first_code_S lens l : first_code lens (S l) = 2 * (first_code lens l + cnt lens l).
Proof. done. Qed.

Lemma first_code_pad lens n l : first_code (lens ++ replicate n 0) l = first_code lens l.
Proof.
  induction l as [|l IH]; [done|]. rewrite !first_code_S, IH. unfold cnt. destruct (Nat.eqb_spec l 0); [done|].
  rewrite count_len_app, count_len_zeros by lia. lia.
Qed.

Lemma cnt_nonneg lens l : 0 <= cnt lens l.
Proof. unfold cnt. destruct (Nat.eqb l 0); [done|apply count_len_nonneg]. Qed.

Lemma first_code_nonneg lens l : 0 <= first_code lens l.
Proof. induction l as [|l IH]; [done|]. rewrite first_code_S. pose proof (cnt_nonneg lens l). lia. Qed.

(** ** Kraft's sum *)

(** of the symbols of length at most [l] *)
Definition part (lens : list Z) (l : Z) : Z :=
  zsum (map (fun x => if (x =? 0) || (l <? x) then 0 else 2 ^ (15 - x)) lens).

Lemma part_S lens l : Forall (fun x => 0 <= x) lens -> 0 <= l -> part lens (l + 1) = part lens l + count_len lens (l + 1) * 2 ^ (15 - (l + 1)).
Proof.
  intros Hf Hl. induction Hf as [|x lens Hx _ IH]; [done|]. unfold part in *. cbn [map]. rewrite !zsum_cons, IH, count_len_cons.
  destruct (x =? l + 1) eqn:E; zbool.
  - subst. rewrite (proj2 (Z.eqb_neq (l + 1) 0)), (proj2 (Z.ltb_ge (l + 1) (l + 1))), (proj2 (Z.ltb_lt l (l + 1))) by lia. cbn [orb]. lia.
  - replace (l + 1 <? x) with (l <? x); [lia|]. destruct (l <? x) eqn:E2; zbool; symmetry; [apply Z.ltb_lt|apply Z.ltb_ge]; lia.
Qed.

Lemma part_first lens l : Forall (fun x => 0 <= x) lens -> (l <= 15)%nat ->
  part lens (Z.of_nat l) = (first_code lens l + cnt lens l) * 2 ^ (15 - Z.of_nat l).
Proof.
  intros Hf. induction l as [|l IH]; intros Hl.
  - transitivity 0; [|done]. unfold part. induction Hf as [|x lens Hx _ IH]; [done|]. cbn [map]. rewrite zsum_cons, IH.
    destruct (x =? 0) eqn:E; [done|]. cbn [orb]. change (Z.of_nat 0) with 0. rewrite (proj2 (Z.ltb_lt 0 x)) by (zbool; lia). done.
  - replace (Z.of_nat (S l)) with (Z.of_nat l + 1) by lia. rewrite part_S by (done || lia). rewrite IH by lia.
    rewrite first_code_S. unfold cnt at 3. cbn [Nat.eqb]. replace (Z.of_nat (S l)) with (Z.of_nat l + 1) by lia.
    replace (15 - Z.of_nat l) with (Z.succ (15 - (Z.of_nat l + 1))) by lia. rewrite Z.pow_succ_r by lia. lia.
Qed.

Lemma part_le lens l : Forall (fun x => 0 <= x) lens -> part lens l <= kraft lens.
Proof.
  intros Hf. unfold part, kraft. induction Hf as [|x lens Hx _ IH]; [done|]. cbn [map]. rewrite !zsum_cons.
  assert (0 <= 2 ^ (15 - x)) by lia. destruct (x =? 0); cbn [orb]; [lia|]. destruct (l <? x); lia.
Qed.

(** lengths that some code has: Kraft's inequality *)
Definition lens_ok (lens : list Z) : Prop := Forall (fun x => 0 <= x <= 15) lens /\ kraft lens <= 2 ^ 15 /\ zlen lens < 2 ^ 16.

Lemma lens_nonneg lens : lens_ok lens -> Forall (fun x => 0 <= x) lens.
Proof. intros (H & _). eapply Forall_impl; [exact H|]. cbn. lia. Qed.

Lemma first_fits lens l : lens_ok lens -> (l <= 15)%nat -> first_code lens l + cnt lens l <= 2 ^ Z.of_nat l.
Proof.
  intros Hok Hl. pose proof (lens_nonneg lens Hok) as Hf. destruct Hok as (_ & Hk & _).
  pose proof (part_le lens (Z.of_nat l) Hf) as Hp. rewrite part_first in Hp by done.
  replace (2 ^ 15) with (2 ^ Z.of_nat l * 2 ^ (15 - Z.of_nat l)) in Hk by (rewrite <- Z.pow_add_r by lia; f_equal; lia).
  assert (0 < 2 ^ (15 - Z.of_nat l)) by lia. nia.
Qed.

(** the codes of a longer length begin past all those of a shorter one *)
Lemma first_after lens l n : (1 <= l)%nat -> (first_code lens l + cnt lens l) * 2 ^ Z.of_nat (S n) <= first_code lens (l + S n).
Proof.
  intros Hl. induction n as [|n IH].
  - rewrite Nat.add_1_r, first_code_S. change (2 ^ Z.of_nat 1) with 2. lia.
  - rewrite Nat.add_succ_r, first_code_S. pose proof (cnt_nonneg lens (l + S n)).
    rewrite (Nat2Z.inj_succ (S n)), Z.pow_succ_r by lia. lia.
Qed.

(** ** The code of a symbol *)

(** those of its length before it *)
Definition rank (lens : list Z) (i : Z) : Z := count_len (take (Z.to_nat i) lens) (aget lens i).
Definition canon (lens : list Z) (i : Z) : Z := first_code lens (Z.to_nat (aget lens i)) + rank lens i.

Lemma lookup_split (lens : list Z) i : 0 <= i < zlen lens -> exists post, lens = take (Z.to_nat i) lens ++ aget lens i :: post.
Proof.
  intros Hi. unfold aget, zlen in *. destruct (lookup_lt_is_Some_2 lens (Z.to_nat i)) as [x Hx]; [lia|].
  rewrite (list_lookup_total_correct _ _ _ Hx). exists (drop (S (Z.to_nat i)) lens). symmetry. by apply take_drop_middle.
Qed.

Lemma rank_lt lens i : 0 <= i < zlen lens -> 0 <= rank lens i < count_len lens (aget lens i).
Proof.
  intros Hi. destruct (lookup_split lens i Hi) as [post E]. unfold rank. split; [apply count_len_nonneg|].
  set (x := aget lens i) in *. clearbody x. rewrite E at 2. rewrite count_len_app, count_len_cons, Z.eqb_refl.
  pose proof (count_len_nonneg post x). lia.
Qed.

Lemma find_symbol_hit pre x post next i : find_symbol (pre ++ x :: post) x (next + count_len pre x) next i = Some (i + zlen pre).
Proof.
  revert next i. induction pre as [|y pre IH]; intros next i; cbn [app find_symbol].
  - rewrite Z.eqb_refl, count_len_nil, Z.add_0_r, Z.eqb_refl. change (zlen (@nil Z)) with 0. f_equal. lia.
  - rewrite count_len_cons, zlen_cons. destruct (y =? x) eqn:E.
    + pose proof (count_len_nonneg pre x). rewrite (proj2 (Z.eqb_neq _ _)) by lia.
      replace (next + (1 + count_len pre x)) with (next + 1 + count_len pre x) by lia. rewrite IH. f_equal. lia.
    + rewrite Z.add_0_l, IH. f_equal. lia.
Qed.

Lemma find_symbol_past lens l code next i : next + count_len lens l <= code -> find_symbol lens l code next i = None.
Proof.
  revert next i. induction lens as [|x lens IH]; intros next i Hc; cbn [find_symbol]; [done|]. rewrite count_len_cons in Hc.
  destruct (x =? l) eqn:E; [|apply IH; lia]. pose proof (count_len_nonneg lens l).
  rewrite (proj2 (Z.eqb_neq _ _)) by lia. apply IH. lia.
Qed.

(** the [n] low bits of [v], the most significant first *)
Fixpoint msb_bits (n : nat) (v : Z) : list bool :=
  match n with
  | O => []
  | S n => Z.testbit v (Z.of_nat n) :: msb_bits n v
  end.

Lemma shiftr_step v n : 0 <= n -> Z.shiftr v n = 2 * Z.shiftr v (n + 1) + Z.b2z (Z.testbit v n).
Proof.
  intros Hn. rewrite Z.testbit_odd, <- (Z.shiftr_shiftr v n 1) by lia. apply div2_odd.
Qed.

Section Decode.
Variable lens : list Z.
Hypothesis Hok : lens_ok lens.

Lemma aget_lens i : 0 <= i < zlen lens -> 0 <= aget lens i <= 15.
Proof.
  intros Hi. unfold aget, zlen in *. destruct (lookup_lt_is_Some_2 lens (Z.to_nat i)) as [x Hx]; [lia|].
  rewrite (list_lookup_total_correct _ _ _ Hx). exact (Forall_lookup_1 _ _ _ _ (proj1 Hok) Hx).
Qed.

(** after [l] of its bits a symbol's code is past all codes that long *)
Lemma prefix_past i l : 0 <= i < zlen lens -> (1 <= l)%nat -> Z.of_nat l < aget lens i ->
  first_code lens l + cnt lens l <= Z.shiftr (canon lens i) (aget lens i - Z.of_nat l).
Proof.
  intros Hi Hl Hlt. pose proof (rank_lt lens i Hi) as Hr. rewrite Z.shiftr_div_pow2 by lia. apply Z.div_le_lower_bound; [lia|].
  unfold canon. destruct (Z.to_nat (aget lens i) - l)%nat as [|n] eqn:E; [lia|].
  pose proof (first_after lens l n Hl) as H. replace (l + S n)%nat with (Z.to_nat (aget lens i)) in H by lia.
  replace (aget lens i - Z.of_nat l) with (Z.of_nat (S n)) by lia. lia.
Qed.

Lemma decode_from i n s : 0 <= i < zlen lens -> (1 <= n)%nat -> Z.of_nat n <= aget lens i ->
  decode_symbol (15 - (Z.to_nat (aget lens i) - n)) lens (Z.to_nat (aget lens i) - n) (Z.shiftr (canon lens i) (Z.of_nat n))
    (msb_bits n (canon lens i) ++ s) = Some (i, s).
Proof.
  intros Hi. pose proof (aget_lens i Hi) as Hl15. induction n as [|n IH]; intros Hn Hle; [lia|].
  destruct (15 - (Z.to_nat (aget lens i) - S n))%nat as [|todo] eqn:Et; [lia|]. cbn [decode_symbol msb_bits app].
  set (l := (Z.to_nat (aget lens i) - S n)%nat) in *.
  replace (2 * Z.shiftr (canon lens i) (Z.of_nat (S n)) + Z.b2z (Z.testbit (canon lens i) (Z.of_nat n)))
    with (Z.shiftr (canon lens i) (Z.of_nat n)) by (rewrite (shiftr_step _ (Z.of_nat n)) by lia; do 3 f_equal; lia).
  destruct (decide (n = 0)%nat) as [->|Hn0].
  - change (Z.of_nat 0) with 0. rewrite Z.shiftr_0_r. replace (Z.of_nat (S l)) with (aget lens i) by lia.
    destruct (lookup_split lens i Hi) as [post E]. unfold canon, rank. replace (S l) with (Z.to_nat (aget lens i)) by lia.
    clear IH Et Hle. set (x := aget lens i) in *. clearbody x. rewrite E at 1. rewrite find_symbol_hit. rewrite zlen_take by lia. rewrite Z.min_l by lia. done.
  - rewrite find_symbol_past.
    + replace todo with (15 - (Z.to_nat (aget lens i) - n))%nat by lia.
      replace (S l) with (Z.to_nat (aget lens i) - n)%nat by lia. apply IH; lia.
    + pose proof (prefix_past i (S l) Hi ltac:(lia) ltac:(lia)) as H. unfold cnt in H. cbn [Nat.eqb] in H.
      replace (aget lens i - Z.of_nat (S l)) with (Z.of_nat n) in H by lia. done.
Qed.

Lemma canon_fits i : 0 <= i < zlen lens -> 0 < aget lens i -> 0 <= canon lens i < 2 ^ aget lens i.
Proof.
  intros Hi Hl. pose proof (aget_lens i Hi). pose proof (rank_lt lens i Hi). unfold canon.
  pose proof (first_code_nonneg lens (Z.to_nat (aget lens i))).
  pose proof (first_fits lens (Z.to_nat (aget lens i)) Hok ltac:(lia)) as Hf. unfold cnt in Hf.
  destruct (Nat.eqb_spec (Z.to_nat (aget lens i)) 0); [lia|]. rewrite Z2Nat.id in Hf by lia. lia.
Qed.

(** the reference decoder reads a canonical code back *)
Lemma symbol_canon i s : 0 <= i < zlen lens -> 0 < aget lens i ->
  symbol lens (msb_bits (Z.to_nat (aget lens i)) (canon lens i) ++ s) = Some (i, s).
Proof.
  intros Hi Hl. pose proof (canon_fits i Hi Hl) as Hc. pose proof (decode_from i (Z.to_nat (aget lens i)) s Hi ltac:(lia) ltac:(lia)) as H.
  rewrite Nat.sub_diag, Z2Nat.id, Z.shiftr_div_pow2, Z.div_small in H by lia. exact H.
Qed.
End Decode.

(** ** The codes as the compressor makes them *)

Lemma reversed_bits n k v r : 0 <= r < 2 ^ Z.of_nat k -> (k + n <= 16)%nat ->
  bits_of (n + k) (reversed n v r) = msb_bits n v ++ bits_of k r /\ 0 <= reversed n v r < 2 ^ Z.of_nat (n + k).
Proof.
  revert k v r. induction n as [|n IH]; intros k v r Hr Hk; cbn [reversed msb_bits app]; [done|].
  assert (E : u16 (Z.lor (Z.shiftl r 1) (Z.land v 1)) = 2 * r + Z.b2z (Z.odd v)).
  { rewrite Z.shiftl_mul_pow2 by lia. change 1 with (Z.ones 1) at 2. rewrite Z.land_ones by lia. change (2 ^ 1) with 2.
    rewrite Zmod_odd. assert (2 ^ Z.of_nat (S k) <= 2 ^ 16) by (apply Z.pow_le_mono_r; lia).
    rewrite Nat2Z.inj_succ, Z.pow_succ_r in * by lia.
    rewrite (lor_low 1) by (destruct (Z.odd v); lia). rewrite u16_small by (unfold is_u16; destruct (Z.odd v); lia).
    destruct (Z.odd v); cbn [Z.b2z]; lia. }
  rewrite E. destruct (IH (S k) (Z.shiftr v 1) (2 * r + Z.b2z (Z.odd v))) as [H1 H2];
    [rewrite Nat2Z.inj_succ, Z.pow_succ_r by lia; destruct (Z.odd v); cbn [Z.b2z]; lia|lia|].
  rewrite Nat.add_succ_r in H1, H2. split; [|exact H2]. cbn [Nat.add]. rewrite H1. clear.
  assert (Hs : forall m w, msb_bits m (Z.shiftr w 1) ++ [Z.odd w] = msb_bits (S m) w).
  { induction m as [|m IHm]; intros w.
    - cbn. by rewrite Z.bit0_odd.
    - cbn [msb_bits app]. f_equal; [rewrite Z.shiftr_spec by lia; f_equal; lia|apply IHm]. }
  change (Z.testbit v (Z.of_nat n) :: msb_bits n v ++ bits_of k r) with (msb_bits (S n) v ++ bits_of k r).
  rewrite <- Hs, <- app_assoc. f_equal. cbn [bits_of app]. rewrite Z.add_comm, Z.odd_add_mul_2, Z.div2_div.
  f_equal; [by destruct (Z.odd v)|]. f_equal. destruct (Z.odd v); cbn [Z.b2z]; lia.
Qed.

Lemma zlen_codes_from l next : zlen (codes_from l next) = zlen l.
Proof.
  revert next. induction l as [|x l IH]; intros next; [done|]. cbn [codes_from]. destruct (x =? 0); rewrite !zlen_cons, IH; done.
Qed.

Lemma aget_cons_S {A} `{Inhabited A} (x : A) l i : 0 < i -> aget (x :: l) i = aget l (i - 1).
Proof. intros Hi. unfold aget. replace (Z.to_nat i) with (S (Z.to_nat (i - 1))) by lia. done. Qed.

Section Codes.
Variable lens : list Z.
Hypothesis Hok : lens_ok lens.

Lemma codes_from_at suf pre next i : lens = pre ++ suf -> zlen next = 16 ->
  (forall l, 1 <= l <= 15 -> aget next l = first_code lens (Z.to_nat l) + count_len pre l) ->
  0 <= i < zlen suf -> aget suf i <> 0 ->
  aget (codes_from suf next) i = reversed (Z.to_nat (aget suf i)) (canon lens (zlen pre + i)) 0.
Proof.
  revert pre next i. induction suf as [|x suf IH]; intros pre next i E Hn Hnext Hi Hx; [change (zlen (@nil Z)) with 0 in Hi; lia|].
  rewrite zlen_cons in Hi. pose proof (zlen_nonneg pre) as Hp. cbn [codes_from].
  assert (Ex : aget lens (zlen pre) = x) by (rewrite E; by apply aget_mid).
  assert (Et : take (Z.to_nat (zlen pre)) lens = pre).
  { rewrite E. unfold zlen. rewrite Nat2Z.id. apply take_app_length. }
  assert (Hx15 : 0 <= x <= 15).
  { rewrite <- Ex. apply aget_lens; [done|]. rewrite E, zlen_app, zlen_cons. pose proof (zlen_nonneg suf). lia. }
  assert (E' : lens = (pre ++ [x]) ++ suf) by (rewrite <- app_assoc; exact E).
  assert (Hp' : zlen (pre ++ [x]) = zlen pre + 1) by (rewrite zlen_app, zlen_cons, zlen_nil; lia).
  assert (Hnew : forall next', zlen next' = 16 ->
    (forall l, 1 <= l <= 15 -> aget next' l = first_code lens (Z.to_nat l) + count_len (pre ++ [x]) l) -> 0 < i ->
    aget (codes_from suf next') (i - 1) = reversed (Z.to_nat (aget (x :: suf) i)) (canon lens (zlen pre + i)) 0).
  { intros next' Hl Hc Hi0. rewrite aget_cons_S in * by lia. rewrite (IH (pre ++ [x]) next' (i - 1) E' Hl Hc) by (done || lia).
    rewrite Hp'. do 2 f_equal. lia. }
  assert (Hcnt : forall l, count_len (pre ++ [x]) l = count_len pre l + (if x =? l then 1 else 0)).
  { intros l. by rewrite count_len_app, count_len_cons, count_len_nil, Z.add_0_r. }
  destruct (x =? 0) eqn:E0; zbool.
  - destruct (decide (i = 0)) as [->|Hne]; [done|]. rewrite aget_cons_S by lia. apply Hnew; [done| |lia].
    intros l Hl. rewrite Hcnt, Hnext by done. destruct (x =? l) eqn:Exl; zbool; [lia|]. lia.
  - destruct (decide (i = 0)) as [->|Hne].
    + change (aget (x :: suf) 0) with x. change (aget (?a :: ?l) 0) with a. rewrite Z.add_0_r. f_equal.
      unfold canon, rank. rewrite Ex, Et. apply Hnext. lia.
    + rewrite aget_cons_S by lia. apply Hnew; [by rewrite zlen_aset| |lia]. intros l Hl. rewrite Hcnt.
      pose proof (first_fits lens (Z.to_nat x) Hok ltac:(lia)) as Hf. unfold cnt in Hf.
      destruct (Nat.eqb_spec (Z.to_nat x) 0); [lia|]. rewrite Z2Nat.id in Hf by lia.
      assert (count_len pre x < count_len lens x).
      { rewrite E, count_len_app, count_len_cons, Z.eqb_refl. pose proof (count_len_nonneg suf x). lia. }
      assert (2 ^ x <= 2 ^ 15) by (apply Z.pow_le_mono_r; lia).
      pose proof (first_code_nonneg lens (Z.to_nat x)). pose proof (count_len_nonneg pre x).
      destruct (x =? l) eqn:Exl; zbool.
      * subst l. rewrite aget_aset_eq, Hnext by lia. rewrite u16_small by (unfold is_u16; lia). lia.
      * rewrite aget_aset_ne, Hnext by lia. lia.
Qed.

Lemma counts_at l c : Forall (fun x => 0 <= x <= 15) l -> zlen c = 16 -> (forall i, 0 <= i < 16 -> 0 <= aget c i /\ aget c i + zlen l < 2 ^ 16) ->
  let c' := foldl (fun c l => aset c l (u16 (aget c l + 1))) c l in
  zlen c' = 16 /\ forall i, 0 <= i < 16 -> aget c' i = aget c i + count_len l i.
Proof.
  intros Hl. revert c. induction Hl as [|x l Hx _ IH]; intros c Hc Hb; cbn [foldl].
  { split; [done|]. intros i Hi. rewrite count_len_nil. lia. }
  pose proof (zlen_nonneg l). destruct (Hb x ltac:(lia)) as [Hx0 Hx1]. rewrite zlen_cons in Hx1.
  assert (Hc' : forall i, 0 <= i < 16 -> aget (aset c x (u16 (aget c x + 1))) i = aget c i + if x =? i then 1 else 0).
  { intros i Hi. destruct (x =? i) eqn:E; zbool.
    - subst. rewrite aget_aset_eq by lia. by rewrite u16_small by (unfold is_u16; lia).
    - rewrite aget_aset_ne by lia. lia. }
  destruct (IH (aset c x (u16 (aget c x + 1)))) as [H1 H2].
  - by rewrite zlen_aset.
  - intros i Hi. rewrite Hc' by done. destruct (Hb i Hi) as [? Hbi]. rewrite zlen_cons in Hbi. destruct (x =? i); lia.
  - split; [done|]. intros i Hi. rewrite H2, Hc', count_len_cons by done. lia.
Qed.

Lemma next_codes_at count n b i : (forall l, 1 <= l <= 15 -> aget count l = count_len lens l) -> aget count 0 = 0 ->
  1 <= b -> b + Z.of_nat n = 16 -> 0 <= i < Z.of_nat n ->
  aget (next_codes n count b (first_code lens (Z.to_nat (b - 1)))) i = first_code lens (Z.to_nat (b + i)).
Proof.
  intros Hc H0. revert b i. induction n as [|n IH]; intros b i Hb Hbn Hi; [lia|]. cbn [next_codes].
  assert (E : u16 (Z.shiftl (first_code lens (Z.to_nat (b - 1)) + aget count (b - 1)) 1) = first_code lens (Z.to_nat b)).
  { assert (Ec : aget count (b - 1) = cnt lens (Z.to_nat (b - 1))).
    { unfold cnt. destruct (Nat.eqb_spec (Z.to_nat (b - 1)) 0) as [Ez|Ez]; [by replace (b - 1) with 0 by lia|].
      rewrite Z2Nat.id by lia. apply Hc. lia. }
    pose proof (first_fits lens (Z.to_nat (b - 1)) Hok ltac:(lia)) as Hf. pose proof (first_code_nonneg lens (Z.to_nat (b - 1))).
    pose proof (cnt_nonneg lens (Z.to_nat (b - 1))). assert (2 ^ Z.of_nat (Z.to_nat (b - 1)) <= 2 ^ 14) by (apply Z.pow_le_mono_r; lia).
    rewrite Ec, Z.shiftl_mul_pow2 by lia. replace (Z.to_nat b) with (S (Z.to_nat (b - 1))) by lia. rewrite first_code_S.
    rewrite u16_small by (unfold is_u16; lia). lia. }
  rewrite E. destruct (decide (i = 0)) as [->|Hne]; [by rewrite Z.add_0_r|]. rewrite aget_cons_S by lia.
  replace (first_code lens (Z.to_nat b)) with (first_code lens (Z.to_nat (b + 1 - 1))) by (do 2 f_equal; lia).
  rewrite IH by lia. do 2 f_equal. lia.
Qed.

Lemma zlen_next_codes n count b c : zlen (next_codes n count b c) = Z.of_nat n.
Proof. revert b c. induction n as [|n IH]; intros; [done|]. cbn [next_codes]. rewrite zlen_cons, IH. lia. Qed.

(** huff_codes gives each symbol the reference's code, its bits in the order
    the writer puts them out *)
Lemma huff_codes_bits i : 0 <= i < zlen lens -> 0 < aget lens i ->
  bits_of (Z.to_nat (aget lens i)) (aget (huff_codes lens) i) = msb_bits (Z.to_nat (aget lens i)) (canon lens i) /\
  0 <= aget (huff_codes lens) i < 2 ^ aget lens i.
Proof.
  intros Hi Hl. pose proof (aget_lens lens Hok i Hi) as Hl15. unfold huff_codes.
  destruct (counts_at lens (replicate 16 0)) as [Hc1 Hc2]; [apply Hok|done| |].
  { intros j Hj. assert (aget (replicate 16 0) j = 0) as ->.
    { unfold aget. apply list_lookup_total_correct, lookup_replicate. split; [done|lia]. }
    destruct Hok as (_ & _ & ?). lia. }
  set (c := foldl _ _ lens) in *. clearbody c.
  assert (Hc : forall l, 1 <= l <= 15 -> aget (aset c 0 0) l = count_len lens l).
  { intros l Hll. rewrite aget_aset_ne, Hc2 by lia. assert (aget (replicate 16 0) l = 0) as ->; [|lia].
    unfold aget. apply list_lookup_total_correct, lookup_replicate. split; [done|lia]. }
  assert (Hn : forall l, 1 <= l <= 15 -> aget (0 :: next_codes 15 (aset c 0 0) 1 0) l = first_code lens (Z.to_nat l) + count_len [] l).
  { intros l Hll. rewrite aget_cons_S, count_len_nil by lia.
    pose proof (next_codes_at (aset c 0 0) 15 1 (l - 1) Hc ltac:(rewrite aget_aset_eq; lia) ltac:(lia) ltac:(lia) ltac:(lia)) as H.
    change (first_code lens (Z.to_nat (1 - 1))) with 0 in H. rewrite H. rewrite Z.add_0_r. do 2 f_equal. lia. }
  assert (Hz : zlen (0 :: next_codes 15 (aset c 0 0) 1 0) = 16) by (rewrite zlen_cons, zlen_next_codes; lia).
  rewrite (codes_from_at lens [] _ i eq_refl Hz Hn Hi) by lia.
  change (zlen (@nil Z) + i) with i.
  destruct (reversed_bits (Z.to_nat (aget lens i)) 0 (canon lens i) 0) as [H1 H2]; [split; [lia|reflexivity]|lia|].
  rewrite Nat.add_0_r, app_nil_r in *. rewrite Z2Nat.id in H2 by lia. done.
Qed.
End Codes.

(** ** Codes with trailing zero lengths left out *)

Lemma kraft_pad lens n : kraft (lens ++ replicate n 0) = kraft lens.
Proof.
  unfold kraft. rewrite map_app, zsum_app. assert (E : forall m, zsum (map (fun l => if l =? 0 then 0 else 2 ^ (15 - l)) (replicate m 0)) = 0).
  { induction m as [|m IH]; [done|]. cbn [replicate map]. rewrite zsum_cons, IH. done. }
  rewrite E. lia.
Qed.

(** the writer's code for symbol [i], read by the reference with the lengths
    that are sent *)
Lemma symbol_code lens n i s : lens_ok (lens ++ replicate n 0) -> 0 <= i < zlen lens -> 0 < aget lens i ->
  symbol lens (bits_of (Z.to_nat (aget lens i)) (aget (huff_codes (lens ++ replicate n 0)) i) ++ s) = Some (i, s) /\
  0 <= aget (huff_codes (lens ++ replicate n 0)) i < 2 ^ aget lens i.
Proof.
  intros Hok Hi Hl.
  assert (Ea : aget (lens ++ replicate n 0) i = aget lens i) by (rewrite aget_app, (proj2 (Z.ltb_lt _ _)) by lia; done).
  destruct (huff_codes_bits (lens ++ replicate n 0) Hok i) as [Hb Hr]; [rewrite zlen_app; pose proof (zlen_nonneg (replicate n 0)); lia|lia|].
  rewrite Ea in *. split; [|done]. rewrite Hb.
  assert (Ec : canon (lens ++ replicate n 0) i = canon lens i).
  { unfold canon, rank. rewrite Ea, first_code_pad. do 2 f_equal. apply take_app_le. unfold zlen in *. lia. }
  rewrite Ec. apply symbol_canon; [|done|done]. destruct Hok as (H1 & H2 & H3). apply Forall_app in H1 as [H1 _].
  split; [done|]. rewrite kraft_pad, zlen_app in *. split; [done|]. pose proof (zlen_nonneg (replicate n 0)). lia.
Qed.

(** ** Trees *)

Inductive tree := Leaf (i : Z) | Node (l r : tree).

Fixpoint symbols_of (t : tree) : list Z :=
  match t with Leaf i => [i] | Node l r => symbols_of l ++ symbols_of r end.

(** the symbols with their depths, the root's being [d] *)
Fixpoint depths (t : tree) (d : Z) : list (Z * Z) :=
  match t with Leaf i => [(i, d)] | Node l r => depths l (d + 1) ++ depths r (d + 1) end.

Fixpoint height (t : tree) : Z :=
  match t with Leaf _ => 0 | Node l r => 1 + Z.max (height l) (height r) end.

Lemma height_nonneg t : 0 <= height t.
Proof. induction t; cbn [height]; lia. Qed.

Lemma height_lt t : height t < zlen (symbols_of t).
Proof. induction t; cbn [height symbols_of]; [reflexivity|]. rewrite zlen_app. pose proof (height_nonneg t1). pose proof (height_nonneg t2). lia. Qed.

Lemma depths_symbols t d : map fst (depths t d) = symbols_of t.
Proof. revert d. induction t as [i|l IHl r IHr]; intros d; cbn [depths symbols_of]; [done|]. by rewrite map_app, IHl, IHr. Qed.

Lemma depths_shift t d k : depths t (d + k) = map (fun '(i, x) => (i, x + k)) (depths t d).
Proof.
  revert d. induction t as [i|l IHl r IHr]; intros d; cbn [depths]; [done|].
  replace (d + k + 1) with (d + 1 + k) by lia. by rewrite IHl, IHr, map_app.
Qed.

Lemma depths_bound t d i x : (i, x) ∈ depths t d -> d <= x <= d + height t.
Proof.
  revert d. induction t as [j|l IHl r IHr]; intros d H; cbn [depths height] in *.
  - apply list_elem_of_singleton in H as [= -> ->]. lia.
  - pose proof (height_nonneg l). pose proof (height_nonneg r). apply elem_of_app in H as [H|H]; [apply IHl in H|apply IHr in H]; lia.
Qed.

(** the depths of a tree fill the code space *)
Lemma depths_kraft m t d : 0 <= d -> d + height t <= m -> zsum (map (fun '(_, x) => 2 ^ (m - x)) (depths t d)) = 2 ^ (m - d).
Proof.
  revert d. induction t as [i|l IHl r IHr]; intros d Hd Hm; cbn [depths height] in *; [cbn; lia|].
  pose proof (height_nonneg l). pose proof (height_nonneg r). rewrite map_app, zsum_app, IHl, IHr by lia.
  replace (m - d) with (Z.succ (m - (d + 1))) by lia. rewrite Z.pow_succ_r by lia. lia.
Qed.

(** ** Trees in the array of parents *)

Inductive rep (par : list Z) : tree -> Z -> Prop :=
| rep_leaf i : rep par (Leaf i) i
| rep_node l r a b p : rep par l a -> rep par r b -> 0 <= a < p -> 0 <= b < p -> aget par a = p -> aget par b = p ->
    rep par (Node l r) p.

(** hanging a root under a new node leaves the trees below as they are *)
Lemma rep_grow par par' t r : rep par t r -> (forall c, 0 <= c < r -> 0 <= aget par c -> aget par' c = aget par c) -> rep par' t r.
Proof.
  intros Hr. induction Hr as [i|l r a b p Hl IHl Hr IHr Ha Hb Ea Eb]; intros Hsame; [constructor|].
  apply (rep_node par' l r a b p); [apply IHl; intros; apply Hsame; lia|apply IHr; intros; apply Hsame; lia|done|done| |];
    rewrite Hsame; lia.
Qed.

Lemma depth_more todo k par i d : depth todo par i = Some d -> depth (todo + k) par i = Some d.
Proof.
  revert i d. induction todo as [|todo IH]; intros i d H; [done|]. cbn [depth Nat.add] in *.
  destruct (_ <? 0); [done|]. destruct (depth todo par _) as [x|] eqn:E; [|done]. by rewrite (IH _ _ E).
Qed.

(** following the parents from a symbol counts its depth *)
Lemma rep_depth par t r i d todo dr : rep par t r -> (i, d) ∈ depths t 0 -> depth todo par r = Some dr ->
  depth (Z.to_nat d + todo) par i = Some (d + dr).
Proof.
  intros Hr. revert i d todo dr. induction Hr as [j|l r a b p Hl IHl Hr IHr Ha Hb Ea Eb]; intros i d todo dr Hin Hd.
  - cbn [depths] in Hin. apply list_elem_of_singleton in Hin as [= -> ->]. change (Z.to_nat 0 + todo)%nat with todo. rewrite Hd. f_equal.
  - assert (Hstep : forall c, aget par c = p -> depth (S todo) par c = Some (dr + 1)).
    { intros c Ec. cbn [depth]. rewrite Ec, (proj2 (Z.ltb_ge p 0)), Hd by lia. cbn. f_equal. lia. }
    cbn [depths] in Hin. rewrite !(depths_shift _ 0 1) in Hin. apply elem_of_app in Hin as [Hin|Hin];
      apply list_elem_of_fmap in Hin as ([j x] & [= -> ->] & Hin); pose proof (depths_bound _ _ _ _ Hin);
      replace (Z.to_nat (x + 1) + todo)%nat with (Z.to_nat x + S todo)%nat by lia.
    + rewrite (IHl _ _ _ _ Hin (Hstep a Ea)). f_equal. lia.
    + rewrite (IHr _ _ _ _ Hin (Hstep b Eb)). f_equal. lia.
Qed.

(** ** The two lightest nodes *)

(** [a], [b]: the lightest two of the nodes alive below [i] *)
Definition least (f : forest) (i a b : Z) : Prop :=
  (a = -1 /\ b = -1 /\ forall c, 0 <= c < i -> aget (alive f) c = false) \/
  (0 <= a < i /\ aget (alive f) a = true /\ b = -1 /\ forall c, 0 <= c < i -> aget (alive f) c = true -> c = a) \/
  (0 <= a < i /\ 0 <= b < i /\ aget (alive f) a = true /\ aget (alive f) b = true /\ a <> b /\
   aget (weight f) a <= aget (weight f) b /\
   forall c, 0 <= c < i -> aget (alive f) c = true -> c <> a -> aget (weight f) b <= aget (weight f) c).

Lemma two_least_ok f todo i a b : 0 <= i -> least f i a b ->
  let '(a', b') := two_least todo f i a b in least f (i + Z.of_nat todo) a' b'.
Proof.
  revert i a b. induction todo as [|todo IH]; intros i a b Hi Hl; cbn [two_least]; [by rewrite Z.add_0_r|].
  replace (i + Z.of_nat (S todo)) with (i + 1 + Z.of_nat todo) by lia.
  assert (Hlt : forall c, 0 <= c < i + 1 -> c < i \/ c = i) by lia.
  destruct (aget (alive f) i) eqn:Ei; cbn [negb].
  2: { apply IH; [lia|]. destruct Hl as [(-> & -> & Hn)|[(Ha & Hal & -> & Hn)|(Ha & Hb & Hal & Hbl & Hne & Hw & Hn)]].
    - left. split; [done|]. split; [done|]. intros c Hc. destruct (Hlt c Hc) as [| ->]; [apply Hn; lia|done].
    - right. left. split; [lia|]. split; [done|]. split; [done|]. intros c Hc Hcl. destruct (Hlt c Hc) as [| ->]; [apply Hn; [lia|done]|congruence].
    - right. right. split; [lia|]. split; [lia|]. do 4 (split; [done|]). intros c Hc Hcl Hca.
      destruct (Hlt c Hc) as [| ->]; [apply Hn; [lia|done|done]|congruence]. }
  destruct Hl as [(-> & -> & Hn)|[(Ha & Hal & -> & Hn)|(Ha & Hb & Hal & Hbl & Hne & Hw & Hn)]].
  - cbn [Z.ltb Z.compare orb]. apply IH; [lia|]. right. left. split; [lia|]. split; [done|]. split; [done|].
    intros c Hc Hcl. destruct (Hlt c Hc) as [| ->]; [rewrite Hn in Hcl by lia; done|done].
  - rewrite (proj2 (Z.ltb_ge a 0)) by lia. cbn [orb]. destruct (_ <? _) eqn:E; zbool; (apply IH; [lia|]); right; right.
    + do 2 (split; [lia|]). do 2 (split; [done|]). split; [lia|]. split; [lia|]. intros c Hc Hcl Hca.
      destruct (Hlt c Hc) as [| ->]; [by rewrite (Hn c) by (done || lia)|done].
    + do 2 (split; [lia|]). do 2 (split; [done|]). split; [lia|]. split; [lia|]. intros c Hc Hcl Hca.
      destruct (Hlt c Hc) as [| ->]; [by rewrite (Hn c) in Hca by (done || lia)|done].
  - rewrite (proj2 (Z.ltb_ge a 0)), (proj2 (Z.ltb_ge b 0)) by lia. cbn [orb].
    destruct (aget (weight f) i <? aget (weight f) a) eqn:E; zbool; [|destruct (aget (weight f) i <? aget (weight f) b) eqn:E2; zbool];
      (apply IH; [lia|]); right; right; do 2 (split; [lia|]); do 2 (split; [done|]); (split; [lia|]); (split; [lia|]);
      intros c Hc Hcl Hca; (destruct (Hlt c Hc) as [Hci|Hci]; [|subst c; first [done|lia]]).
    + destruct (decide (c = a)) as [->|Hne']; [done|]. specialize (Hn c ltac:(lia) Hcl Hne'). lia.
    + specialize (Hn c ltac:(lia) Hcl Hca). lia.
    + apply Hn; [lia|done|done].
Qed.

(** ** The forest *)

(** the trees of the nodes alive *)
Record forest_ok (f : forest) (ts : list (Z * tree)) : Prop := Forest_ok {
  fo_alive_len : zlen (alive f) = zlen (weight f);
  fo_parent_len : zlen (parent f) = zlen (weight f);
  fo_nodup : NoDup (map fst ts);
  fo_alive : forall i, 0 <= i < zlen (weight f) -> aget (alive f) i = true <-> i ∈ map fst ts;
  fo_trees : Forall (fun '(r, t) => 0 <= r < zlen (weight f) /\ aget (parent f) r = -1 /\ rep (parent f) t r) ts;
}.

Lemma forest_perm f ts ts' : ts ≡ₚ ts' -> forest_ok f ts -> forest_ok f ts'.
Proof.
  intros Hp [H1 H2 H3 H4 H5]. assert (Hm : map fst ts ≡ₚ map fst ts') by by apply Permutation_map.
  split; [done|done| | |].
  - apply NoDup_ListNoDup. apply NoDup_ListNoDup in H3. by eapply Permutation_NoDup.
  - intros i Hi. rewrite H4 by done. by rewrite Hm.
  - by rewrite <- Hp.
Qed.

(** the two lightest trees, apart from the others *)
Lemma two_trees f ts : forest_ok f ts -> 2 <= zlen ts ->
  let '(a, b) := two_least (length (weight f)) f 0 (-1) (-1) in
  exists ta tb rest, ts ≡ₚ (a, ta) :: (b, tb) :: rest /\ aget (weight f) a <= aget (weight f) b /\
    Forall (fun '(c, _) => aget (weight f) b <= aget (weight f) c) rest.
Proof.
  intros Hf Hlen. pose proof (two_least_ok f (length (weight f)) 0 (-1) (-1) ltac:(lia)) as H.
  destruct (two_least _ _ _ _ _) as [a b]. destruct H as [(-> & -> & Hn)|[(Ha & Hal & -> & Hn)|(Ha & Hb & Hal & Hbl & Hne & Hw & Hn)]].
  { left. split; [done|]. split; [done|]. lia. }
  all: change (0 + Z.of_nat (length (weight f))) with (zlen (weight f)) in *.
  - exfalso. destruct ts as [|[r t] ts]; [by change (zlen (@nil (Z * tree))) with 0 in Hlen|].
    pose proof (fo_trees _ _ Hf) as Ht. apply Forall_cons in Ht as [(Hr & _) _].
    assert (aget (alive f) r = true) by (apply (fo_alive _ _ Hf); [done|by left]). rewrite Hn in *; [done|done].
  - exfalso. destruct ts as [|[r t] [|[r' t'] ts]]; [by change (zlen (@nil (Z * tree))) with 0 in Hlen| |].
    { rewrite zlen_cons in Hlen. change (zlen (@nil (Z * tree))) with 0 in Hlen. lia. }
    pose proof (fo_trees _ _ Hf) as Ht. apply Forall_cons in Ht as [(Hr & _) Ht]. apply Forall_cons in Ht as [(Hr' & _) _].
    assert (r = a) by (apply Hn; [done|apply (fo_alive _ _ Hf); [done|by left]]).
    assert (r' = a) by (apply Hn; [done|apply (fo_alive _ _ Hf); [done|right; by left]]).
    pose proof (fo_nodup _ _ Hf) as Hnd. cbn in Hnd. apply NoDup_cons in Hnd as [Hnd _]. apply Hnd. subst. by left.
  - apply (fo_alive _ _ Hf) in Hal; [|done]. apply list_elem_of_fmap in Hal as ([a' ta] & Ea & Hina). cbn in Ea. subst a'.
    apply elem_of_Permutation in Hina as [ts1 Hp1].
    assert (Hbin : b ∈ map fst ts1).
    { apply (fo_alive _ _ Hf) in Hbl; [|done]. rewrite Hp1 in Hbl. cbn in Hbl. apply elem_of_cons in Hbl as [->|]; done. }
    apply list_elem_of_fmap in Hbin as ([b' tb] & Eb & Hinb). cbn in Eb. subst b'.
    apply elem_of_Permutation in Hinb as [rest Hp2]. exists ta, tb, rest.
    assert (Hp : ts ≡ₚ (a, ta) :: (b, tb) :: rest) by (by rewrite Hp1, Hp2).
    split; [done|]. split; [done|]. pose proof (forest_perm _ _ _ Hp Hf) as Hf'.
    apply Forall_forall. intros [c tc] Hc. pose proof (fo_nodup _ _ Hf') as Hnd. cbn in Hnd. apply NoDup_cons in Hnd as [Hnd _].
    assert (Hcin : c ∈ map fst rest) by (apply list_elem_of_fmap; by exists (c, tc)).
    pose proof (fo_trees _ _ Hf') as Ht. rewrite Forall_forall in Ht. destruct (Ht (c, tc)) as (Hcr & _); [by do 2 right|].
    apply Hn; [done|apply (fo_alive _ _ Hf'); [done|cbn; by do 2 right]|]. intros ->. apply Hnd. by right.
Qed.

Lemma join_ok f ts : forest_ok f ts -> 2 <= zlen ts ->
  exists a ta b tb rest, ts ≡ₚ (a, ta) :: (b, tb) :: rest /\ aget (weight f) a <= aget (weight f) b /\
    Forall (fun '(c, _) => aget (weight f) b <= aget (weight f) c) rest /\
    weight (join f) = weight f ++ [u32 (aget (weight f) a + aget (weight f) b)] /\
    forest_ok (join f) ((zlen (weight f), Node ta tb) :: rest).
Proof.
  intros Hf Hlen. pose proof (two_trees f ts Hf Hlen) as H. unfold join. destruct (two_least _ _ _ _ _) as [a b].
  destruct H as (ta & tb & rest & Hp & Hw & Hrest). exists a, ta, b, tb, rest. do 3 (split; [done|]). split; [done|].
  pose proof (forest_perm _ _ _ Hp Hf) as [H1 H2 H3 H4 H5]. cbn in H3. set (n := zlen (weight f)) in *.
  apply Forall_cons in H5 as [(Ha & Hpa & Hra) H5]. apply Forall_cons in H5 as [(Hb & Hpb & Hrb) H5].
  apply NoDup_cons in H3 as [Hna H3]. apply NoDup_cons in H3 as [Hnb H3].
  assert (Hab : a <> b) by (intros ->; apply Hna; by left).
  assert (Hn : zlen (weight f ++ [u32 (aget (weight f) a + aget (weight f) b)]) = n + 1) by (rewrite zlen_app, zlen_cons, zlen_nil; lia).
  assert (Hpar : forall c, 0 <= c < n -> aget (aset (aset (parent f) a n) b n ++ [-1]) c =
    if (c =? a) || (c =? b) then n else aget (parent f) c).
  { intros c Hc. rewrite aget_app, !zlen_aset by lia. rewrite (proj2 (Z.ltb_lt c _)) by lia.
    destruct (c =? b) eqn:Eb; zbool; [subst; rewrite aget_aset_eq by (rewrite ?zlen_aset; lia); by rewrite orb_true_r|].
    rewrite aget_aset_ne by lia. destruct (c =? a) eqn:Ea; zbool; [subst; by rewrite aget_aset_eq by lia|by rewrite aget_aset_ne by lia]. }
  assert (Hgrow : forall t r, 0 <= r < n -> rep (parent f) t r -> rep (aset (aset (parent f) a n) b n ++ [-1]) t r).
  { intros t r Hr Hrep. apply (rep_grow _ _ _ _ Hrep). intros c Hc Hcp. rewrite Hpar by lia.
    destruct (_ || _) eqn:E; [|done]. zors; subst; lia. }
  assert (Hfst : forall c t, (c, t) ∈ rest -> c ∈ map fst rest) by (intros c t Hc; apply list_elem_of_fmap; by exists (c, t)).
  split; cbn [weight alive parent map fst].
  - rewrite Hn, zlen_app, !zlen_aset, zlen_cons, zlen_nil. lia.
  - rewrite Hn, zlen_app, !zlen_aset, zlen_cons, zlen_nil. lia.
  - apply NoDup_cons. split; [|done]. intros Hin. apply list_elem_of_fmap in Hin as ([c t] & Ec & Hin). cbn in Ec. subst c.
    rewrite Forall_forall in H5. destruct (H5 _ Hin). lia.
  - rewrite Hn. intros i Hi. rewrite aget_app, !zlen_aset by lia. destruct (i <? zlen (alive f)) eqn:E; zbool.
    + assert (Hin : i ∈ n :: map fst rest <-> i ∈ map fst rest).
      { rewrite elem_of_cons. split; [intros [->|]; [lia|done]|by right]. }
      rewrite Hin. destruct (decide (i = b)) as [->|Hib]; [rewrite aget_aset_eq by (rewrite zlen_aset; lia); done|].
      rewrite aget_aset_ne by lia. destruct (decide (i = a)) as [->|Hia].
      * rewrite aget_aset_eq by lia. split; [done|]. intros Hx. destruct Hna. by right.
      * rewrite aget_aset_ne, H4 by lia. cbn. rewrite !elem_of_cons. intuition.
    + replace (i - zlen (alive f)) with 0 by lia. split; [|done]. intros _. replace i with n by lia. left.
  - apply Forall_cons. rewrite Hn. split.
    + split; [lia|]. split; [rewrite aget_app, !zlen_aset, (proj2 (Z.ltb_ge _ _)) by lia; replace (n - zlen (parent f)) with 0 by lia; done|].
      apply (rep_node _ ta tb a b n); [by apply Hgrow|by apply Hgrow|lia|lia| |]; rewrite Hpar by lia; rewrite Z.eqb_refl, ?orb_true_r; done.
    + apply Forall_forall. intros [c t] Hc. rewrite Forall_forall in H5. destruct (H5 _ Hc) as (Hcr & Hcp & Hct). split; [lia|].
      split; [|by apply Hgrow]. rewrite Hpar by lia. destruct (_ || _) eqn:E; [|done]. exfalso. zors; subst.
      * destruct Hna. right. by eapply Hfst.
      * destruct Hnb. by eapply Hfst.
Qed.

(** ** The leaves *)

(** the symbols that occur, from [i] on *)
Fixpoint used_from (freq : list Z) (i : Z) : list Z :=
  match freq with
  | [] => []
  | x :: freq => if x =? 0 then used_from freq (i + 1) else i :: used_from freq (i + 1)
  end.

Lemma used_from_in freq i j : j ∈ used_from freq i <-> i <= j < i + zlen freq /\ aget freq (j - i) <> 0.
Proof.
  revert i. induction freq as [|x freq IH]; intros i.
  { change (zlen (@nil Z)) with 0. split; [intros H; by apply elem_of_nil in H|lia]. }
  rewrite zlen_cons. pose proof (zlen_nonneg freq). cbn [used_from].
  assert (Hrec : j ∈ used_from freq (i + 1) <-> i + 1 <= j < i + 1 + zlen freq /\ aget (x :: freq) (j - i) <> 0).
  { rewrite IH. split; intros [Hj Hx]; (split; [done|]).
    - rewrite aget_cons_S by lia. by replace (j - i - 1) with (j - (i + 1)) by lia.
    - rewrite aget_cons_S in Hx by lia. by replace (j - (i + 1)) with (j - i - 1) by lia. }
  assert (H0 : aget (x :: freq) (i - i) = x) by (rewrite Z.sub_diag; done).
  destruct (x =? 0) eqn:E; zbool.
  - rewrite Hrec. split; [intros [? ?]; split; [lia|done]|]. intros [? ?]. destruct (decide (j = i)) as [->|]; [congruence|]. split; [lia|done].
  - rewrite elem_of_cons, Hrec. split.
    + intros [->|[? ?]]; [split; [lia|congruence]|split; [lia|done]].
    + intros [? ?]. destruct (decide (j = i)) as [->|]; [by left|]. right. split; [lia|done].
Qed.

Lemma used_from_nodup freq i : NoDup (used_from freq i).
Proof.
  revert i. induction freq as [|x freq IH]; intros i; cbn [used_from]; [constructor|].
  destruct (x =? 0); [done|]. apply NoDup_cons. split; [|done]. intros H%used_from_in. lia.
Qed.

Lemma used_from_le freq i : zlen (used_from freq i) <= zlen freq.
Proof.
  revert i. induction freq as [|x freq IH]; intros i; cbn [used_from]; [done|]. specialize (IH (i + 1)).
  destruct (x =? 0); rewrite !zlen_cons; lia.
Qed.

Lemma used_last_eq freq i u l : used_last freq i u l = (u + zlen (used_from freq i), List.last (used_from freq i) l).
Proof.
  revert i u l. induction freq as [|x freq IH]; intros i u l; cbn [used_last used_from].
  { change (zlen (@nil Z)) with 0. by rewrite Z.add_0_r. }
  destruct (x =? 0); cbn [negb]; rewrite IH; [done|]. rewrite zlen_cons. f_equal; [lia|].
  destruct (used_from freq (i + 1)) as [|y ys]; [done|]. cbn [List.last]. clear. revert y. induction ys as [|z ys IH]; intros y; [done|].
  cbn [List.last] in *. apply IH.
Qed.

Definition leaf_trees (freq : list Z) : list (Z * tree) := map (fun i => (i, Leaf i)) (used_from freq 0).
Definition all_symbols (ts : list (Z * tree)) : list Z := concat (map (fun '(_, t) => symbols_of t) ts).

Lemma leaf_trees_fst freq : map fst (leaf_trees freq) = used_from freq 0.
Proof. unfold leaf_trees. rewrite map_map. apply map_id. Qed.

Lemma leaf_trees_symbols freq : all_symbols (leaf_trees freq) = used_from freq 0.
Proof. unfold all_symbols, leaf_trees. induction (used_from freq 0) as [|i l IH]; [done|]. cbn in *. by rewrite IH. Qed.

Lemma leaves_ok freq : forest_ok (leaves freq) (leaf_trees freq).
Proof.
  split; cbn [leaves weight alive parent].
  - unfold zlen. by rewrite length_map.
  - unfold zlen. by rewrite length_replicate.
  - rewrite leaf_trees_fst. apply used_from_nodup.
  - intros i Hi. rewrite leaf_trees_fst, used_from_in, Z.sub_0_r.
    assert (aget (map (fun x => negb (x =? 0)) freq) i = negb (aget freq i =? 0)) as ->.
    { unfold aget, zlen in *. destruct (lookup_lt_is_Some_2 freq (Z.to_nat i)) as [x Hx]; [lia|].
      rewrite (list_lookup_total_correct freq _ _ Hx). apply list_lookup_total_correct. apply list_lookup_fmap_Some. eauto. }
    destruct (aget freq i =? 0) eqn:E; zbool; cbn [negb]; intuition; lia.
  - apply Forall_forall. intros [r t] H. apply list_elem_of_fmap in H as (i & [= -> ->] & Hi). apply used_from_in in Hi as [Hi _].
    split; [lia|]. split; [|constructor]. unfold aget. apply list_lookup_total_correct, lookup_replicate. split; [done|]. unfold zlen in Hi. lia.
Qed.

(** ** Equal weights give a shallow tree *)

(** no tree is more than twice as heavy as another, so that a tree's weight
    grows by half with each level *)
Record balanced (f : forest) (ts : list (Z * tree)) (total : Z) : Prop := Balanced {
  ba_sum : zsum (map (fun '(r, _) => aget (weight f) r) ts) = total;
  ba_each : Forall (fun '(r, t) => 1 <= aget (weight f) r /\ 3 ^ height t <= aget (weight f) r * 2 ^ height t) ts;
  ba_twice : forall r t r' t', (r, t) ∈ ts -> (r', t') ∈ ts -> aget (weight f) r <= 2 * aget (weight f) r';
}.

Lemma balanced_perm f ts ts' total : ts ≡ₚ ts' -> balanced f ts total -> balanced f ts' total.
Proof.
  intros Hp [H1 H2 H3]. split.
  - rewrite <- H1. apply zsum_perm, Permutation_map. by symmetry.
  - by rewrite <- Hp.
  - intros r t r' t' Hr Hr'. rewrite <- Hp in Hr, Hr'. by eapply H3.
Qed.

Lemma balanced_pos f ts total : balanced f ts total -> 0 <= total.
Proof.
  intros [<- H _]. induction H as [|[r t] ts [Hr _] _ IH]; [done|]. cbn [map]. rewrite zsum_cons. lia.
Qed.

Lemma three_halves h w w2 : 0 <= h -> 0 <= w -> 3 ^ h <= w * 2 ^ h -> w <= 2 * w2 -> 3 ^ (1 + h) <= (w + w2) * 2 ^ (1 + h).
Proof.
  intros Hh Hw H H2. rewrite !Z.pow_add_r by lia. change (3 ^ 1) with 3. change (2 ^ 1) with 2. assert (0 < 2 ^ h) by lia. nia.
Qed.

Lemma join_balanced f ts total a ta b tb rest : balanced f ts total -> total < 2 ^ 32 -> forest_ok f ts ->
  ts ≡ₚ (a, ta) :: (b, tb) :: rest -> aget (weight f) a <= aget (weight f) b ->
  Forall (fun '(c, _) => aget (weight f) b <= aget (weight f) c) rest ->
  weight (join f) = weight f ++ [u32 (aget (weight f) a + aget (weight f) b)] ->
  balanced (join f) ((zlen (weight f), Node ta tb) :: rest) total.
Proof.
  intros Hb0 Ht Hf Hp Hab Hrest Ew. pose proof (balanced_perm _ _ _ _ Hp Hb0) as [Hs He H2].
  pose proof (forest_perm _ _ _ Hp Hf) as Hf'. pose proof (fo_trees _ _ Hf') as Htr.
  apply Forall_cons in Htr as [(Ha & _) Htr]. apply Forall_cons in Htr as [(Hb & _) Htr].
  apply Forall_cons in He as [(Hwa & Hha) He]. apply Forall_cons in He as [(Hwb & Hhb) He]. cbn [map] in Hs. rewrite !zsum_cons in Hs.
  assert (Hr0 : 0 <= zsum (map (fun '(r, _) => aget (weight f) r) rest)).
  { clear - He. induction He as [|[r t] l [Hr _] _ IH]; [done|]. cbn [map]. rewrite zsum_cons. lia. }
  assert (Enew : aget (weight (join f)) (zlen (weight f)) = aget (weight f) a + aget (weight f) b).
  { rewrite Ew, aget_mid by done. apply u32_small. unfold is_u32. lia. }
  assert (Eold : forall r, 0 <= r < zlen (weight f) -> aget (weight (join f)) r = aget (weight f) r).
  { intros r Hr. rewrite Ew, aget_app, (proj2 (Z.ltb_lt _ _)) by lia. done. }
  assert (Hin : forall r t, (r, t) ∈ rest -> aget (weight (join f)) r = aget (weight f) r /\ aget (weight f) b <= aget (weight f) r).
  { intros r t Hr. rewrite Forall_forall in Htr, Hrest. destruct (Htr _ Hr) as (Hr' & _). specialize (Hrest _ Hr). cbn in Hrest.
    split; [by apply Eold|done]. }
  split.
  - cbn [map]. rewrite zsum_cons, Enew. rewrite <- Hs. rewrite Z.add_assoc. f_equal. f_equal. apply map_ext_in. intros [r t] Hr.
    apply list_elem_of_In in Hr. apply (Hin _ _ Hr).
  - apply Forall_cons. rewrite Enew. split.
    + split; [lia|]. cbn [height]. assert (Hle : aget (weight f) b <= 2 * aget (weight f) a).
      { eapply H2; [right; by left|by left]. }
      pose proof (height_nonneg ta). pose proof (height_nonneg tb). destruct (Z.max_spec (height ta) (height tb)) as [[_ ->]|[_ ->]].
      * rewrite Z.add_comm. rewrite (Z.add_comm (aget (weight f) a)). rewrite Z.add_comm. apply three_halves; lia.
      * apply three_halves; lia.
    + apply Forall_forall. intros [r t] Hr. destruct (Hin _ _ Hr) as [-> _]. rewrite Forall_forall in He. by apply (He _ Hr).
  - intros r t r' t' Hr Hr'. apply elem_of_cons in Hr as [[= -> ->]|Hr]; apply elem_of_cons in Hr' as [[= -> ->]|Hr']; rewrite ?Enew.
    + lia.
    + destruct (Hin _ _ Hr') as [-> ?]. lia.
    + destruct (Hin _ _ Hr) as [-> ?]. assert (aget (weight f) r <= 2 * aget (weight f) a) by (eapply H2; [do 2 right; exact Hr|by left]). lia.
    + destruct (Hin _ _ Hr) as [-> _]. destruct (Hin _ _ Hr') as [-> _]. eapply H2; do 2 right; done.
Qed.

(** ** All the joins *)

Lemma all_symbols_perm ts ts' : ts ≡ₚ ts' -> all_symbols ts ≡ₚ all_symbols ts'.
Proof. intros Hp. unfold all_symbols. induction Hp as [|[r t] l l' _ IH|[r t] [r' t'] l|l l' l'' _ IH1 _ IH2]; cbn.
  - done.
  - by rewrite IH.
  - rewrite !app_assoc. apply Permutation_app_tail, Permutation_app_comm.
  - by rewrite IH1.
Qed.

Lemma joins_ok freq total k : Z.of_nat k < zlen (used_from freq 0) ->
  exists ts, forest_ok (Nat.iter k join (leaves freq)) ts /\ zlen ts = zlen (used_from freq 0) - Z.of_nat k /\
    all_symbols ts ≡ₚ used_from freq 0 /\ zlen (weight (Nat.iter k join (leaves freq))) = zlen freq + Z.of_nat k /\
    (total < 2 ^ 32 -> balanced (leaves freq) (leaf_trees freq) total -> balanced (Nat.iter k join (leaves freq)) ts total).
Proof.
  induction k as [|k IH]; intros Hk.
  - exists (leaf_trees freq). split; [apply leaves_ok|]. split; [unfold leaf_trees, zlen; rewrite length_map; lia|].
    rewrite leaf_trees_symbols. split; [done|]. split; [cbn; lia|done].
  - destruct (IH ltac:(lia)) as (ts & Hf & Hl & Hs & Hw & Hb). set (f := Nat.iter k join (leaves freq)) in *.
    destruct (join_ok f ts Hf ltac:(lia)) as (a & ta & b & tb & rest & Hp & Hab & Hrest & Ew & Hf').
    exists ((zlen (weight f), Node ta tb) :: rest). change (Nat.iter (S k) join (leaves freq)) with (join f).
    pose proof (Permutation_length Hp) as Hpl. cbn in Hpl.
    split; [done|]. split; [rewrite zlen_cons; unfold zlen in *; lia|]. split; [|split].
    + rewrite <- Hs. rewrite (all_symbols_perm _ _ Hp). unfold all_symbols. cbn. by rewrite app_assoc.
    + rewrite Ew, zlen_app, zlen_cons, zlen_nil. lia.
    + intros Ht Hbal. by apply (join_balanced f ts total a ta b tb rest); auto.
Qed.

(** ** The lengths *)

Lemma lengths_from_ok freq f maxbits i (dep : Z -> Z) :
  (forall k, 0 <= k < zlen freq -> aget freq k <> 0 -> depth (length (parent f)) (parent f) (i + k) = Some (dep (i + k))) ->
  exists l t, lengths_from freq f maxbits i = Some (l, t) /\ zlen l = zlen freq /\
    (forall k, 0 <= k < zlen freq -> aget l k = if aget freq k =? 0 then 0 else u8 (dep (i + k))) /\
    (if t : bool then exists k, 0 <= k < zlen freq /\ aget freq k <> 0 /\ maxbits < dep (i + k)
     else forall k, 0 <= k < zlen freq -> aget freq k <> 0 -> dep (i + k) <= maxbits).
Proof.
  revert i. induction freq as [|x freq IH]; intros i Hd; cbn [lengths_from].
  { exists [], false. change (zlen (@nil Z)) with 0. split; [done|]. split; [done|]. split; intros; lia. }
  rewrite zlen_cons in *. pose proof (zlen_nonneg freq) as Hz.
  assert (Hsh : forall k, 0 < k -> i + 1 + (k - 1) = i + k) by lia.
  destruct (IH (i + 1)) as (l & t & -> & Hl & Hk & Ht).
  { intros k Hk Hx. replace (i + 1 + k) with (i + (k + 1)) by lia. apply Hd; [lia|]. rewrite aget_cons_S by lia.
    by replace (k + 1 - 1) with k by lia. }
  assert (Hrest : forall y, forall k, 0 < k < 1 + zlen freq -> aget (y :: l) k = if aget (x :: freq) k =? 0 then 0 else u8 (dep (i + k))).
  { intros y k Hk'. rewrite !aget_cons_S, Hk, Hsh by lia. done. }
  assert (Htail : forall k, 0 < k < 1 + zlen freq -> aget (x :: freq) k = aget freq (k - 1)) by (intros; apply aget_cons_S; lia).
  destruct (x =? 0) eqn:Ex; zbool; cbn [mbind option_bind].
  - exists (0 :: l), t. split; [done|]. split; [rewrite zlen_cons; lia|]. split.
    + intros k Hk'. destruct (decide (k = 0)) as [->|]; [change (aget (x :: freq) 0) with x; by rewrite Ex|apply Hrest; lia].
    + destruct t.
      * destruct Ht as (k & Hk' & Hx & Hlt). exists (k + 1). rewrite Htail by lia. replace (k + 1 - 1) with k by lia.
        replace (i + (k + 1)) with (i + 1 + k) by lia. split; [lia|done].
      * intros k Hk' Hx. destruct (decide (k = 0)) as [->|]; [by change (aget (x :: freq) 0) with x in Hx|].
        rewrite <- Hsh by lia. apply Ht; [lia|]. by rewrite <- Htail by lia.
  - pose proof (Hd 0 ltac:(lia) Ex) as Hd0. rewrite Z.add_0_r in Hd0. rewrite Hd0. cbn [mbind option_bind].
    exists (u8 (dep i) :: l), ((maxbits <? dep i) || t). split; [done|]. split; [rewrite zlen_cons; lia|]. split.
    + intros k Hk'. destruct (decide (k = 0)) as [->|]; [|apply Hrest; lia]. change (aget (x :: freq) 0) with x. change (aget (?a :: l) 0) with a.
      rewrite (proj2 (Z.eqb_neq x 0)) by done. by rewrite Z.add_0_r.
    + destruct (maxbits <? dep i) eqn:Em; cbn [orb]; zbool.
      * exists 0. rewrite Z.add_0_r. split; [lia|]. by split.
      * destruct t.
        -- destruct Ht as (k & Hk' & Hx & Hlt). exists (k + 1). rewrite Htail by lia. replace (k + 1 - 1) with k by lia.
           replace (i + (k + 1)) with (i + 1 + k) by lia. split; [lia|done].
        -- intros k Hk' Hx. destruct (decide (k = 0)) as [->|]; [by rewrite Z.add_0_r|].
           rewrite <- Hsh by lia. apply Ht; [lia|]. by rewrite <- Htail by lia.
Qed.

(** the depth of symbol [i] in the list *)
Fixpoint depth_in (l : list (Z * Z)) (i : Z) : Z :=
  match l with
  | [] => 0
  | (j, d) :: l => if j =? i then d else depth_in l i
  end.

Lemma depth_in_elem l i : i ∈ map fst l -> (i, depth_in l i) ∈ l.
Proof.
  induction l as [|[j d] l IH]; cbn [map depth_in]; intros H; [by apply elem_of_nil in H|].
  destruct (j =? i) eqn:E; zbool; [subst; by left|]. right. apply IH. apply elem_of_cons in H as [H|H]; [cbn in H; lia|done].
Qed.

Lemma depth_in_unique l i d : NoDup (map fst l) -> (i, d) ∈ l -> depth_in l i = d.
Proof.
  induction l as [|[j e] l IH]; cbn [map depth_in]; intros Hn H; [by apply elem_of_nil in H|].
  apply NoDup_cons in Hn as [Hj Hn]. apply elem_of_cons in H as [[= -> ->]|H]; [by rewrite Z.eqb_refl|].
  destruct (j =? i) eqn:E; zbool; [|by apply IH]. subst. destruct Hj. apply list_elem_of_fmap. by exists (i, d).
Qed.

(** equal weights *)
Definition ones (freq : list Z) : Prop := Forall (fun x => x = 0 \/ x = 1) freq.

Lemma ones_balanced freq : ones freq -> balanced (leaves freq) (leaf_trees freq) (zlen (used_from freq 0)).
Proof.
  intros Ho. assert (Hone : forall r t, (r, t) ∈ leaf_trees freq -> aget (weight (leaves freq)) r = 1 /\ height t = 0).
  { intros r t H. apply list_elem_of_fmap in H as (i & [= -> ->] & Hi). apply used_from_in in Hi as [Hi Hx]. rewrite Z.sub_0_r in Hx.
    split; [|done]. cbn. unfold aget, zlen in *. destruct (lookup_lt_is_Some_2 freq (Z.to_nat i)) as [x Hy]; [lia|].
    rewrite (list_lookup_total_correct _ _ _ Hy) in *. pose proof (Forall_lookup_1 _ _ _ _ Ho Hy) as []; [done|done]. }
  split.
  - unfold leaf_trees in *. revert Hone. induction (used_from freq 0) as [|i l IH]; intros Hone; [done|]. cbn [map]. rewrite zsum_cons, zlen_cons.
    rewrite IH by (intros r t H; apply Hone; by right). destruct (Hone i (Leaf i)) as [-> _]; [by left|done].
  - apply Forall_forall. intros [r t] H. destruct (Hone _ _ H) as [-> ->]. cbn. lia.
  - intros r t r' t' H H'. destruct (Hone _ _ H) as [-> _]. destruct (Hone _ _ H') as [-> _]. lia.
Qed.

(** one round: a tree of the used symbols, and the lengths read off it *)
Lemma round_ok freq maxbits : 2 <= zlen (used_from freq 0) -> zlen freq < 2 ^ 32 -> maxbits < 256 ->
  exists t l too_long, symbols_of t ≡ₚ used_from freq 0 /\ 1 <= height t /\
    lengths_from freq (Nat.iter (Z.to_nat (zlen (used_from freq 0) - 1)) join (leaves freq)) maxbits 0 = Some (l, too_long) /\
    zlen l = zlen freq /\ (forall i, 0 <= i < zlen freq -> aget freq i = 0 -> aget l i = 0) /\
    (too_long = false -> forall i d, (i, d) ∈ depths t 0 -> aget l i = d /\ 1 <= d <= maxbits) /\
    (too_long = true -> maxbits < height t) /\
    (ones freq -> 3 ^ height t <= zlen (used_from freq 0) * 2 ^ height t).
Proof.
  intros Hu Hsmall Hmax. set (k := Z.to_nat (zlen (used_from freq 0) - 1)).
  destruct (joins_ok freq (zlen (used_from freq 0)) k ltac:(lia)) as (ts & Hf & Hl & Hs & Hw & Hb). set (f := Nat.iter k join (leaves freq)) in *.
  destruct ts as [|[r t] [|x ts]]; [change (zlen (@nil (Z * tree))) with 0 in Hl; lia| |rewrite !zlen_cons in Hl; pose proof (zlen_nonneg ts); lia].
  assert (Hst : symbols_of t ≡ₚ used_from freq 0) by (rewrite <- Hs; unfold all_symbols; cbn; by rewrite app_nil_r).
  pose proof (fo_trees _ _ Hf) as Ht. apply Forall_cons in Ht as [(Hr & Hpr & Hrep) _].
  assert (Hsz : zlen (symbols_of t) = zlen (used_from freq 0)) by (unfold zlen; by rewrite (Permutation_length Hst)).
  assert (Hh : 1 <= height t).
  { destruct t as [i|t1 t2]; [cbn in Hsz; change (zlen [i]) with 1 in Hsz; lia|]. cbn [height]. pose proof (height_nonneg t1). lia. }
  assert (Hdep : forall i d, (i, d) ∈ depths t 0 -> depth (length (parent f)) (parent f) i = Some d).
  { intros i d Hin. pose proof (depths_bound _ _ _ _ Hin). pose proof (height_lt t). pose proof (used_from_le freq 0).
    pose proof (fo_parent_len _ _ Hf) as Hpl. assert (Hd1 : depth 1 (parent f) r = Some 0) by (cbn [depth]; by rewrite Hpr).
    pose proof (rep_depth _ _ _ _ _ _ _ Hrep Hin Hd1) as Hd2. rewrite Z.add_0_r in Hd2.
    replace (length (parent f)) with (Z.to_nat d + 1 + (length (parent f) - (Z.to_nat d + 1)))%nat by (unfold zlen in *; lia).
    by apply depth_more. }
  assert (Hmem : forall i, 0 <= i < zlen freq -> aget freq i <> 0 -> (i, depth_in (depths t 0) i) ∈ depths t 0).
  { intros i Hi Hx. apply depth_in_elem. rewrite depths_symbols, Hst. apply used_from_in. rewrite Z.sub_0_r. split; [lia|done]. }
  assert (Hnd : NoDup (map fst (depths t 0))).
  { rewrite depths_symbols. apply NoDup_ListNoDup. eapply Permutation_NoDup; [symmetry; exact Hst|]. apply NoDup_ListNoDup, used_from_nodup. }
  destruct (lengths_from_ok freq f maxbits 0 (depth_in (depths t 0))) as (l & too_long & El & Hll & Hk & Htl).
  { intros i Hi Hx. rewrite Z.add_0_l. by apply Hdep, Hmem. }
  exists t, l, too_long. split; [done|]. split; [done|]. split; [exact El|]. split; [done|]. split.
  { intros i Hi Hx. rewrite Hk by done. by rewrite Hx. }
  split; [|split].
  - intros -> i d Hin. assert (Hi : 0 <= i < zlen freq /\ aget freq i <> 0).
    { assert (Hiu : i ∈ used_from freq 0) by (rewrite <- Hst, <- (depths_symbols t 0); apply list_elem_of_fmap; by exists (i, d)).
      apply used_from_in in Hiu. rewrite Z.sub_0_r in Hiu. lia. }
    pose proof (depth_in_unique _ _ _ Hnd Hin) as Ed. specialize (Htl i (proj1 Hi) (proj2 Hi)). rewrite Z.add_0_l, Ed in Htl.
    assert (1 <= d).
    { destruct t as [j|t1 t2]; [cbn in Hh; lia|]. cbn [depths] in Hin. apply elem_of_app in Hin as [Hin|Hin]; apply depths_bound in Hin; lia. }
    rewrite Hk, Z.add_0_l, Ed by apply Hi. rewrite (proj2 (Z.eqb_neq _ _)) by apply Hi. rewrite u8_small by (unfold is_u8; lia). lia.
  - intros ->. destruct Htl as (i & Hi & Hx & Hlt). pose proof (depths_bound _ _ _ _ (Hmem i Hi Hx)). rewrite Z.add_0_l in Hlt. lia.
  - intros Ho. pose proof (used_from_le freq 0). specialize (Hb ltac:(lia) (ones_balanced freq Ho)). destruct Hb as [Hsum He _].
    apply Forall_cons in He as [(_ & He) _]. cbn [map] in Hsum. rewrite zsum_cons in Hsum. change (zsum []) with 0 in Hsum.
    by replace (aget (weight f) r) with (zlen (used_from freq 0)) in He by lia.
Qed.

(** ** The code's lengths *)

(** what a code for symbols of these frequencies needs *)
Record code_ok (freq : list Z) (maxbits : Z) (l : list Z) : Prop := Code_ok {
  cd_len : zlen l = zlen freq;
  cd_range : Forall (fun x => 0 <= x <= maxbits) l;
  cd_used : forall i, 0 <= i < zlen freq -> aget freq i <> 0 -> 0 < aget l i;
  cd_complete : if zlen (used_from freq 0) =? 0 then Forall (fun x => x = 0) l else kraft l = 2 ^ 15;
}.

(** a sum over all symbols is one over those used *)
Lemma sum_used (g h : Z -> Z) freq l i : g 0 = 0 -> zlen l = zlen freq ->
  (forall k, 0 <= k < zlen freq -> h (i + k) = aget l k) -> (forall k, 0 <= k < zlen freq -> aget freq k = 0 -> aget l k = 0) ->
  zsum (map g l) = zsum (map (fun k => g (h k)) (used_from freq i)).
Proof.
  intros Hg. revert l i. induction freq as [|x freq IH]; intros [|y l] i Hl Hh Hz; try done.
  rewrite !zlen_cons in *. pose proof (zlen_nonneg freq). cbn [map used_from]. rewrite zsum_cons.
  rewrite (IH l (i + 1)); [|lia| |].
  - pose proof (Hh 0 ltac:(lia)) as H0. rewrite Z.add_0_r in H0. change (aget (y :: l) 0) with y in H0.
    destruct (x =? 0) eqn:E; zbool; cbn [map]; rewrite ?zsum_cons, ?H0; [|done].
    specialize (Hz 0 ltac:(lia) E). change (aget (y :: l) 0) with y in Hz. rewrite Hz, Hg. lia.
  - intros k Hk. replace (i + 1 + k) with (i + (k + 1)) by lia. rewrite Hh, aget_cons_S by lia. f_equal. lia.
  - intros k Hk Hx. specialize (Hz (k + 1) ltac:(lia)). rewrite !aget_cons_S in Hz by lia. replace (k + 1 - 1) with k in Hz by lia. auto.
Qed.

Definition kraft_term (l : Z) : Z := if l =? 0 then 0 else 2 ^ (15 - l).

Lemma tree_code_ok freq maxbits t l : 0 < maxbits <= 15 -> symbols_of t ≡ₚ used_from freq 0 -> 2 <= zlen (used_from freq 0) ->
  zlen l = zlen freq -> (forall i, 0 <= i < zlen freq -> aget freq i = 0 -> aget l i = 0) ->
  (forall i d, (i, d) ∈ depths t 0 -> aget l i = d /\ 1 <= d <= maxbits) -> height t <= 15 -> code_ok freq maxbits l.
Proof.
  intros Hm Hst Hu Hl Hz Hd Hh.
  assert (Hmem : forall i, 0 <= i < zlen freq -> aget freq i <> 0 -> exists d, (i, d) ∈ depths t 0).
  { intros i Hi Hx. exists (depth_in (depths t 0) i). apply depth_in_elem. rewrite depths_symbols, Hst. apply used_from_in.
    rewrite Z.sub_0_r. split; [lia|done]. }
  split; [done| | |].
  - apply Forall_lookup. intros k x Hk. assert (Hi : 0 <= Z.of_nat k < zlen freq).
    { rewrite <- Hl. apply lookup_lt_Some in Hk. unfold zlen. lia. }
    assert (Hx : aget l (Z.of_nat k) = x) by (unfold aget; rewrite Nat2Z.id; by apply list_lookup_total_correct).
    rewrite <- Hx. destruct (decide (aget freq (Z.of_nat k) = 0)) as [E|E]; [rewrite Hz by done; lia|].
    destruct (Hmem _ Hi E) as [d Hin]. destruct (Hd _ _ Hin). lia.
  - intros i Hi Hx. destruct (Hmem i Hi Hx) as [d Hin]. destruct (Hd _ _ Hin). lia.
  - rewrite (proj2 (Z.eqb_neq _ 0)) by lia. change (kraft l) with (zsum (map kraft_term l)).
    rewrite (sum_used kraft_term (aget l) freq l 0) by (done || intros; rewrite ?Z.add_0_l; auto).
    transitivity (2 ^ (15 - 0)); [|done]. rewrite <- (depths_kraft 15 t 0) by lia.
    transitivity (zsum (map (fun k => kraft_term (aget l k)) (map fst (depths t 0)))).
    { apply zsum_perm, Permutation_map. by rewrite depths_symbols. }
    rewrite map_map. f_equal. apply map_ext_in. intros [i d] Hin. apply list_elem_of_In in Hin. destruct (Hd _ _ Hin) as [E Hd1].
    cbn. rewrite E. unfold kraft_term. by rewrite (proj2 (Z.eqb_neq d 0)) by lia.
Qed.

Lemma kraft_update l i x : 0 <= i < zlen l -> kraft (aset l i x) = kraft l - kraft_term (aget l i) + kraft_term x.
Proof.
  intros Hi. unfold zlen in Hi. destruct (lookup_lt_is_Some_2 l (Z.to_nat i)) as [y Hy]; [lia|].
  unfold kraft, aset, aget. rewrite (list_lookup_total_correct _ _ _ Hy). by apply zsum_update.
Qed.

Lemma kraft_zeros n : kraft (replicate n 0) = 0.
Proof. induction n as [|n IH]; [done|]. cbn [replicate]. change (kraft (0 :: replicate n 0)) with (0 + kraft (replicate n 0)). by rewrite IH. Qed.

Lemma aget_replicate {A} `{Inhabited A} n (x : A) i : 0 <= i < Z.of_nat n -> aget (replicate n x) i = x.
Proof. intros Hi. unfold aget. apply list_lookup_total_correct, lookup_replicate. split; [done|lia]. Qed.

Lemma zlen_rep {A} n (x : A) : zlen (replicate n x) = Z.of_nat n.
Proof. unfold zlen. by rewrite length_replicate. Qed.

(** two codes of one bit, for one symbol that occurs *)
Lemma single_code_ok freq maxbits last : 0 < maxbits -> 2 <= zlen freq -> used_from freq 0 = [last] ->
  code_ok freq maxbits (aset (aset (replicate (length freq) 0) last 1) (if last =? 0 then 1 else 0) 1).
Proof.
  intros Hm Hn Hu. assert (Hlast : 0 <= last < zlen freq).
  { assert (H : last ∈ used_from freq 0) by (rewrite Hu; by left). apply used_from_in in H. lia. }
  set (o := if last =? 0 then 1 else 0). assert (Ho : 0 <= o < zlen freq /\ o <> last) by (unfold o; destruct (last =? 0) eqn:E; zbool; lia).
  clearbody o. assert (Hz : zlen (replicate (length freq) 0) = zlen freq) by apply zlen_rep.
  split.
  - by rewrite !zlen_aset.
  - repeat (apply Forall_insert; [|lia]). apply Forall_replicate. lia.
  - intros i Hi Hx. assert (i = last) as ->.
    { apply list_elem_of_singleton. rewrite <- Hu. apply used_from_in. rewrite Z.sub_0_r. split; [lia|done]. }
    rewrite aget_aset_ne, aget_aset_eq by lia. lia.
  - rewrite Hu. change (zlen [last] =? 0) with false. cbn [Z.eqb]. rewrite !kraft_update by (rewrite ?zlen_aset; lia).
    rewrite aget_aset_ne, !aget_replicate, kraft_zeros by (unfold zlen in *; lia). done.
Qed.

(** ** The loop ends *)

Lemma flatten_zero freq i : 0 <= i < zlen freq -> Forall (fun x => 0 <= x) freq -> aget (flatten freq) i = 0 <-> aget freq i = 0.
Proof.
  intros Hi Hf. unfold zlen in Hi. destruct (lookup_lt_is_Some_2 freq (Z.to_nat i)) as [x Hx]; [lia|].
  assert (E : aget (flatten freq) i = if negb (x =? 0) then Z.lor (Z.shiftr x 1) 1 else x).
  { unfold aget, flatten. apply list_lookup_total_correct, list_lookup_fmap_Some. eauto. }
  rewrite E. unfold aget. rewrite (list_lookup_total_correct _ _ _ Hx). destruct (x =? 0) eqn:E0; cbn [negb]; [done|]. zbool.
  split; [|done]. intros H%Z.lor_eq_0_iff. lia.
Qed.

Lemma flatten_small freq j : Forall (fun x => 0 <= x < 2 ^ (Z.of_nat (S (S j)))) freq -> Forall (fun x => 0 <= x < 2 ^ Z.of_nat (S j)) (flatten freq).
Proof.
  intros H. apply Forall_map. eapply Forall_impl; [exact H|]. intros x Hx. cbn beta in *. rewrite (Nat2Z.inj_succ (S j)), Z.pow_succ_r in Hx by lia.
  destruct (x =? 0) eqn:E; cbn [negb]; zbool; [lia|].
  assert (Hs : 0 <= Z.shiftr x 1 < 2 ^ Z.of_nat (S j)) by (rewrite Z.shiftr_div_pow2 by lia; change (2 ^ 1) with 2; lia).
  split; [apply Z.lor_nonneg; lia|]. destruct (Z.eq_dec (Z.shiftr x 1) 0) as [->|Hne]; [change (Z.lor 0 1) with 1; apply Z.pow_gt_1; lia|].
  apply Z.log2_lt_pow2; [pose proof (Z.lor_nonneg (Z.shiftr x 1) 1); assert (Z.lor (Z.shiftr x 1) 1 <> 0) by (intros E2%Z.lor_eq_0_iff; lia); lia|].
  rewrite Z.log2_lor by lia. change (Z.log2 1) with 0. pose proof (Z.log2_nonneg (Z.shiftr x 1)). rewrite Z.max_l by lia.
  apply Z.log2_lt_pow2; lia.
Qed.

Lemma flatten_used freq i : Forall (fun x => 0 <= x) freq -> used_from (flatten freq) i = used_from freq i.
Proof.
  intros Hf. revert i. induction Hf as [|x freq Hx Hf IH]; intros i; [done|]. cbn [flatten map used_from]. change (map _ freq) with (flatten freq). rewrite IH.
  destruct (x =? 0) eqn:E; cbn [negb]; [by rewrite E|]. zbool.
  rewrite (proj2 (Z.eqb_neq _ 0)); [done|]. intros H%Z.lor_eq_0_iff. lia.
Qed.

Lemma flatten_code_ok freq maxbits l : Forall (fun x => 0 <= x) freq -> code_ok (flatten freq) maxbits l -> code_ok freq maxbits l.
Proof.
  intros Hf [H1 H2 H3 H4]. assert (Hlen : zlen (flatten freq) = zlen freq) by (unfold zlen, flatten; by rewrite length_map).
  split; [lia|done| |by rewrite flatten_used in H4]. intros i Hi Hx. apply H3; [lia|]. by rewrite flatten_zero.
Qed.

(** the bound on the depth, for the number of symbols *)
Definition shallow (n maxbits : Z) : Prop := n * 2 ^ (maxbits + 1) < 3 ^ (maxbits + 1).

Lemma shallow_height n maxbits h : shallow n maxbits -> 0 <= maxbits -> 0 <= n -> 3 ^ h <= n * 2 ^ h -> 0 <= h -> h <= maxbits.
Proof.
  intros Hs Hm Hn H Hh. destruct (Z.le_gt_cases h maxbits) as [|Hgt]; [done|exfalso]. unfold shallow in Hs.
  replace h with (maxbits + 1 + (h - (maxbits + 1))) in H by lia. set (e := h - (maxbits + 1)) in *.
  rewrite !Z.pow_add_r in H by lia. assert (2 ^ e <= 3 ^ e) by (apply Z.pow_le_mono_l; lia).
  assert (0 < 2 ^ e) by lia. assert (0 < 2 ^ (maxbits + 1)) by lia. rewrite !Z.pow_add_r in Hs by lia. nia.
Qed.

Lemma deepest t d : exists i, (i, d + height t) ∈ depths t d.
Proof.
  revert d. induction t as [i|l IHl r IHr]; intros d; cbn [depths height]; [exists i; rewrite Z.add_0_r; by left|].
  destruct (IHl (d + 1)) as [i Hi]. destruct (IHr (d + 1)) as [k Hk].
  destruct (Z.max_spec (height l) (height r)) as [[_ ->]|[_ ->]]; [exists k|exists i]; apply elem_of_app; [right|left];
    rewrite Z.add_assoc; done.
Qed.

Lemma none_code_ok freq maxbits : 0 <= maxbits -> zlen (used_from freq 0) = 0 -> code_ok freq maxbits (replicate (length freq) 0).
Proof.
  intros Hm Hu. split.
  - apply zlen_rep.
  - apply Forall_replicate. lia.
  - intros i Hi Hx. assert (Hin : i ∈ used_from freq 0) by (apply used_from_in; rewrite Z.sub_0_r; split; [lia|done]).
    destruct (used_from freq 0) as [|y ys]; [by apply elem_of_nil in Hin|]. rewrite zlen_cons in Hu. pose proof (zlen_nonneg ys). lia.
  - rewrite Hu. cbn [Z.eqb]. by apply Forall_replicate.
Qed.

(** one round gives the lengths, or finds the tree too deep *)
Lemma huff_round todo freq maxbits : 2 <= zlen freq < 2 ^ 32 -> 0 < maxbits <= 15 -> shallow (zlen freq) maxbits ->
  (exists l, huff_lengths (S todo) freq maxbits = Some l /\ code_ok freq maxbits l) \/
  (huff_lengths (S todo) freq maxbits = huff_lengths todo (flatten freq) maxbits /\ ~ ones freq).
Proof.
  intros Hn Hm Hsh. cbn [huff_lengths]. rewrite used_last_eq, Z.add_0_l. pose proof (zlen_nonneg (used_from freq 0)) as Hu0.
  destruct (zlen (used_from freq 0) =? 0) eqn:E0; zbool.
  { left. eexists. split; [done|]. apply none_code_ok; [lia|done]. }
  destruct (zlen (used_from freq 0) =? 1) eqn:E1; zbool.
  { left. eexists. split; [done|]. destruct (used_from freq 0) as [|y [|z ys]] eqn:Eu; [done| |].
    - by apply single_code_ok; [lia|lia|].
    - rewrite !zlen_cons in E1. pose proof (zlen_nonneg ys). lia. }
  destruct (round_ok freq maxbits ltac:(lia) ltac:(lia) ltac:(lia)) as (t & l & too_long & Hst & Hh & -> & Hl & Hz & Hd & Hlong & Hones).
  cbn [mbind option_bind]. destruct too_long.
  - right. split; [done|]. intros Ho. pose proof (used_from_le freq 0).
    specialize (Hlong eq_refl). specialize (Hones Ho).
    assert (height t <= maxbits); [|lia]. apply (shallow_height (zlen freq)); [done|lia|lia| |lia].
    assert (0 < 2 ^ height t) by lia. nia.
  - left. exists l. split; [done|]. specialize (Hd eq_refl). apply (tree_code_ok freq maxbits t); try done; [lia|].
    destruct (deepest t 0) as [i Hi]. destruct (Hd _ _ Hi). lia.
Qed.

(** The lengths are those of a complete code no longer than the limit, in
    which every symbol that occurs has one; and the loop that flattens the
    frequencies ends. *)
Lemma huff_lengths_ok j todo freq maxbits : (S j <= todo)%nat -> Forall (fun x => 0 <= x < 2 ^ Z.of_nat (S j)) freq ->
  2 <= zlen freq < 2 ^ 32 -> 0 < maxbits <= 15 -> shallow (zlen freq) maxbits ->
  exists l, huff_lengths todo freq maxbits = Some l /\ code_ok freq maxbits l.
Proof.
  revert todo freq. induction j as [|j IH]; intros todo freq Ht Hf Hn Hm Hsh; (destruct todo as [|todo]; [lia|]);
    (destruct (huff_round todo freq maxbits Hn Hm Hsh) as [H|[-> Hno]]; [done|]).
  - exfalso. apply Hno. eapply Forall_impl; [exact Hf|]. intros x Hx. cbn beta in Hx. change (2 ^ Z.of_nat 1) with 2 in Hx. lia.
  - assert (Hlen : zlen (flatten freq) = zlen freq) by (unfold zlen, flatten; by rewrite length_map).
    destruct (IH todo (flatten freq)) as (l & Hl & Hc); [lia|by apply flatten_small|by rewrite Hlen|done|by rewrite Hlen|].
    exists l. split; [done|]. apply flatten_code_ok; [|done]. eapply Forall_impl; [exact Hf|]. cbn beta. lia.
Qed.
