(* ===== verification/DeflateLz.v ===== *)
(** * What a block is made of (kernel/deflate.c: longest, the loop's tokens, write_block's code lengths)

    Whatever the hash tables hold, a match found is one: the bytes at its
    distance are those it stands for, so the tokens of a block expand to the
    bytes it covers. The code lengths of a dynamic block are cut after the
    last that is not zero, run-length coded, and the code for that is sent
    first; the reference reads the same lengths. *)

From S2P Require Import Prelude Inflate Deflate DeflateBits HuffTree.

(** ** What tokens stand for *)

Definition expand (out : list Z) (x : tok_t) : list Z :=
  if tdist x =? 0 then out ++ [tlen x] else copy_back (Z.to_nat (tlen x)) (tdist x) out.

Definition tok_ok (out : list Z) (x : tok_t) : Prop :=
  (tdist x = 0 /\ 0 <= tlen x < 256) \/
  (3 <= tlen x <= 258 /\ 1 <= tdist x <= WSIZE /\ tdist x <= zlen out).

(** the tokens are good ones after the bytes [out] *)
Fixpoint toks_ok (out : list Z) (t : list tok_t) : Prop :=
  match t with
  | [] => True
  | x :: t => tok_ok out x /\ toks_ok (expand out x) t
  end.

Lemma toks_ok_snoc out t x : toks_ok out t -> tok_ok (foldl expand out t) x -> toks_ok out (t ++ [x]).
Proof. revert out. induction t as [|y t IH]; intros out; cbn; [auto|]. intros [H1 H2] Hx. auto. Qed.

Lemma expand_snoc out t x : foldl expand out (t ++ [x]) = expand (foldl expand out t) x.
Proof. by rewrite foldl_app. Qed.

Section Lz.
Variable input : list Z.

Lemma take_next p : 0 <= p < zlen input -> take (Z.to_nat (p + 1)) input = take (Z.to_nat p) input ++ [aget input p].
Proof.
  intros Hp. unfold aget, zlen in *. destruct (lookup_lt_is_Some_2 input (Z.to_nat p)) as [x Hx]; [lia|].
  rewrite (list_lookup_total_correct _ _ _ Hx). replace (Z.to_nat (p + 1)) with (S (Z.to_nat p)) by lia. by apply take_S_r.
Qed.

(** the [n] bytes from [d] back are those at [p] *)
Definition is_match (p n d : Z) : Prop :=
  0 <= p /\ p + n <= zlen input /\ 1 <= d <= p /\ forall k, 0 <= k < n -> aget input (p - d + k) = aget input (p + k).

Lemma copy_match n p d : is_match p (Z.of_nat n) d -> copy_back n d (take (Z.to_nat p) input) = take (Z.to_nat (p + Z.of_nat n)) input.
Proof.
  revert p. induction n as [|n IH]; intros p (Hp & Hl & Hd & Hk); cbn [copy_back]; [by rewrite Z.add_0_r|].
  rewrite zlen_take by lia. rewrite Z.min_l, aget_take by lia. pose proof (Hk 0 ltac:(lia)) as H0. rewrite !Z.add_0_r in H0.
  rewrite H0, <- take_next by lia. rewrite IH; [do 2 f_equal; lia|]. split; [lia|]. split; [lia|]. split; [lia|].
  intros k Hk'. replace (p + 1 - d + k) with (p - d + (k + 1)) by lia. rewrite Hk by lia. f_equal. lia.
Qed.

Lemma match_len_ok todo c p k : let k' := match_len input todo c p k in
  k <= k' <= k + Z.of_nat todo /\ forall j, k <= j < k' -> aget input (c + j) = aget input (p + j).
Proof.
  revert k. induction todo as [|todo IH]; intros k; cbn [match_len]; [split; [lia|intros; lia]|].
  destruct (_ =? _) eqn:E; zbool; [|split; [lia|intros; lia]]. destruct (IH (k + 1)) as [H1 H2]. split; [lia|].
  intros j Hj. destruct (decide (j = k)) as [->|]; [done|apply H2; lia].
Qed.

(** a length found so far with its distance *)
Definition found (p max best d : Z) : Prop := best = 0 \/ (0 < best <= max /\ is_match p best d /\ d <= WSIZE).

Lemma follow_found chain prev p max cand best d : 0 <= p -> 0 <= max -> p + max <= zlen input -> found p max best d ->
  let '(b, d') := follow input chain prev p max cand best d in found p max b d'.
Proof.
  intros Hp Hm Hl. revert cand best d. induction chain as [|chain IH]; intros cand best d Hf; cbn [follow]; [done|].
  destruct (_ || _) eqn:E; [done|]. zbool. destruct (_ && _); [|by apply IH].
  destruct (match_len_ok (Z.to_nat max) cand p 0) as [Hk1 Hk2]. set (k := match_len input (Z.to_nat max) cand p 0) in *. clearbody k.
  destruct (best <? k) eqn:Eb; [|by apply IH]. zbool.
  assert (Hnew : found p max k (p - cand)).
  { destruct (decide (k = 0)) as [->|]; [by left|]. right. split; [lia|]. split; [|lia]. split; [lia|]. split; [lia|]. split; [lia|].
    intros j Hj. replace (p - (p - cand) + j) with (cand + j) by lia. apply Hk2. lia. }
  destruct (k =? max); [done|]. by apply IH.
Qed.

Lemma longest_match p head prev m d : 0 <= p <= zlen input -> longest input p head prev = (m, d) -> m <> 0 ->
  3 <= m <= 258 /\ is_match p m d /\ d <= WSIZE.
Proof.
  intros Hp. unfold longest. set (max := if zlen input - p <? MAX_MATCH then zlen input - p else MAX_MATCH).
  assert (Hmax : 0 <= max <= 258 /\ p + max <= zlen input) by (unfold max, MAX_MATCH; destruct (_ <? _) eqn:E; zbool; unfold MAX_MATCH in E; lia). clearbody max.
  destruct (max <? MIN_MATCH); [by intros [= <- <-]|].
  pose proof (follow_found (Z.to_nat CHAIN_MAX) prev p max (aget head (hash3 input p)) 0 0 ltac:(lia) ltac:(lia) ltac:(lia) ltac:(by left)) as H.
  destruct (follow _ _ _ _ _ _ _ _) as [b d']. intros [= <- <-]. destruct (MIN_MATCH <=? b) eqn:E; [|done]. zbool. unfold MIN_MATCH in E. intros Hb.
  destruct H as [->|(Hb' & Hmt & Hd)]; [lia|]. split; [lia|done].
Qed.

(** ** The loop's state *)

Hypothesis Hbytes : bytes input.
Hypothesis Hlen : zlen input <= 2 ^ 30.

(** the tokens since the block began *)
Record lz_ok (z : lz_t) : Prop := Lz_ok {
  lo_pos : 0 <= block_start z <= pos z /\ pos z <= zlen input;
  lo_toks : toks_ok (take (Z.to_nat (block_start z)) input) (toks z);
  lo_expand : foldl expand (take (Z.to_nat (block_start z)) input) (toks z) = take (Z.to_nat (pos z)) input;
  lo_count : zlen (toks z) <= pos z - block_start z;
}.

Lemma literal_ok z : lz_ok z -> pos z < zlen input -> lz_ok (literal input z).
Proof.
  intros [H1 H2 H3 H4] Hp. split; cbn.
  - lia.
  - apply toks_ok_snoc; [done|]. left. split; [done|]. apply (byte_at input (pos z) Hbytes). lia.
  - rewrite expand_snoc, H3. unfold expand. cbn [tdist tlen Z.eqb]. by rewrite take_next by lia.
  - rewrite zlen_app, zlen_cons, zlen_nil. lia.
Qed.

Lemma matched_ok z m d : lz_ok z -> 3 <= m <= 258 -> is_match (pos z) m d -> d <= WSIZE -> lz_ok (matched m d z).
Proof.
  intros [H1 H2 H3 H4] Hm Hmt Hd. pose proof Hmt as (_ & Hl & Hdp & _). unfold WSIZE in Hd.
  assert (E : Tok (u16 m) (u16 d) = Tok m d) by (f_equal; apply u16_small; unfold is_u16; lia).
  split; cbn; rewrite ?E.
  - lia.
  - apply toks_ok_snoc; [done|]. right. cbn [tlen tdist]. rewrite H3, zlen_take by lia. unfold WSIZE. lia.
  - rewrite expand_snoc, H3. unfold expand. cbn [tdist tlen]. rewrite (proj2 (Z.eqb_neq d 0)) by lia.
    rewrite copy_match by (by rewrite Z2Nat.id by lia). by rewrite Z2Nat.id by lia.
  - rewrite zlen_app, zlen_cons, zlen_nil. lia.
Qed.

Lemma tables_ok z f : lz_ok z -> lz_ok (z <| tables ::= f |>).
Proof. by intros []. Qed.

(** what a turn of the loop keeps, and that it moves on *)
Definition turned (z z' : lz_t) : Prop :=
  lz_ok z' /\ pos z < pos z' /\ block_start z' = block_start z /\ out z' = out z /\ zlen (toks z') <= zlen (toks z) + 2.

Lemma next_token_ok z : lz_ok z -> pos z < zlen input -> turned z (next_token input z).
Proof.
  intros Hz Hp. pose proof Hz as [H1 _ _ _]. unfold next_token.
  destruct (longest input (pos z) _ _) as [m d] eqn:E.
  assert (Hfin : forall m d z1, lz_ok z1 -> pos z1 < zlen input -> (m <> 0 -> 3 <= m <= 258 /\ is_match (pos z1) m d /\ d <= WSIZE) ->
    let z' := if negb (m =? 0) then matched m d (z1 <| tables ::= insert_run input (Z.to_nat m) (pos z1) |>)
              else literal input (z1 <| tables ::= insert_at input (pos z1) |>) in
    lz_ok z' /\ pos z1 < pos z' /\ block_start z' = block_start z1 /\ out z' = out z1 /\ zlen (toks z') = zlen (toks z1) + 1).
  { intros m' d' z1 Hz1 Hp1 Hm. cbv zeta. destruct (m' =? 0) eqn:Em; zbool; cbn [negb].
    - split; [by apply literal_ok; [apply tables_ok|]|]. cbn. split; [lia|]. split; [done|]. split; [done|].
      rewrite zlen_app, zlen_cons, zlen_nil. lia.
    - destruct (Hm Em) as (Hm1 & Hm2 & Hm3). split; [by apply matched_ok; [apply tables_ok| | |]|]. cbn. split; [lia|]. split; [done|].
      split; [done|]. rewrite zlen_app, zlen_cons, zlen_nil. lia. }
  assert (Hm : m <> 0 -> 3 <= m <= 258 /\ is_match (pos z) m d /\ d <= WSIZE) by (apply (longest_match (pos z) (tables z).1 (tables z).2 m d ltac:(lia) E)).
  destruct (_ && _) eqn:Eg; zbool.
  - set (z1 := z <| tables ::= insert_at input (pos z) |>). assert (Hz1 : lz_ok z1) by by apply tables_ok.
    destruct (longest input (pos z + 1) _ _) as [m2 d2] eqn:E2. destruct (m <? m2) eqn:Em; zbool.
    + pose proof (literal_ok z1 Hz1 Hp) as Hz2. destruct (Hfin m2 d2 (literal input z1) Hz2) as (A & B & C & D & T).
      * cbn. lia.
      * intros Hm2. apply (longest_match (pos z + 1) (tables z1).1 (tables z1).2 m2 d2 ltac:(lia) E2 Hm2).
      * split; [exact A|]. split; [assert (pos (literal input z1) = pos z + 1) by done; lia|].
        split; [exact C|]. split; [exact D|]. rewrite T. change (toks (literal input z1)) with (toks z ++ [Tok (aget input (pos z)) 0]).
        rewrite zlen_app, zlen_cons, zlen_nil. lia.
    + destruct Hm as (Hm1 & Hm2 & Hm3); [done|]. split; [by apply matched_ok; [apply tables_ok| | |]|]. split; [cbn; lia|]. split; [done|].
      split; [done|]. cbn. rewrite zlen_app, zlen_cons, zlen_nil. lia.
  - destruct (Hfin m d z Hz Hp Hm) as (A & B & C & D & T). split; [exact A|]. split; [exact B|]. split; [exact C|]. split; [exact D|]. lia.
Qed.
End Lz.

(** ** Cutting trailing zeros *)

Lemma trim_ok todo lo len h : lo <= h -> let h' := trim todo lo len h in
  lo <= h' <= h /\ forall i, h' <= i < h -> len i = 0.
Proof.
  cbv zeta. revert h. induction todo as [|todo IH]; intros h Hh; cbn [trim]; [split; [lia|intros; lia]|].
  destruct (_ && _) eqn:E; [|split; [lia|intros; lia]]. zbool. destruct (IH (h - 1) ltac:(lia)) as [H1 H2]. split; [lia|].
  intros i Hi. destruct (decide (i = h - 1)) as [->|]; [done|apply H2; lia].
Qed.

(** the lengths that are sent, and the zeros that are not *)
Lemma trimmed l h : 0 <= h <= zlen l -> (forall i, h <= i < zlen l -> aget l i = 0) ->
  l = take (Z.to_nat h) l ++ replicate (Z.to_nat (zlen l - h)) 0.
Proof.
  intros Hh Hz. apply zlist_ext.
  - rewrite zlen_app, zlen_take, zlen_rep by lia. lia.
  - intros i Hi. rewrite aget_app, zlen_take by lia. destruct (i <? _) eqn:E; zbool; [by rewrite aget_take by lia|].
    rewrite aget_replicate by lia. apply Hz. lia.
Qed.

(** ** Runs *)

Lemma run_of_take v l : 0 <= run_of v l <= zlen l /\ take (Z.to_nat (run_of v l)) l = replicate (Z.to_nat (run_of v l)) v.
Proof.
  induction l as [|x l [IH1 IH2]]; cbn [run_of]; [done|]. rewrite zlen_cons. destruct (x =? v) eqn:E; zbool; [|split; [lia|done]].
  split; [lia|]. replace (Z.to_nat (1 + run_of v l)) with (S (Z.to_nat (run_of v l))) by lia. cbn [take replicate]. by rewrite IH2, E.
Qed.

(** what a run-length symbol with its extra bits adds to the lengths *)
Definition add_item (acc : list Z) (x : Z * Z) : list Z :=
  let '(s, e) := x in
  if s <? 16 then acc ++ [s]
  else if s =? 16 then acc ++ replicate (Z.to_nat (3 + e)) (aget acc (zlen acc - 1))
  else if s =? 17 then acc ++ replicate (Z.to_nat (3 + e)) 0
  else acc ++ replicate (Z.to_nat (11 + e)) 0.

Definition item_ok (x : Z * Z) : Prop := 0 <= x.1 <= 18 /\ 0 <= x.2 < 2 ^ rle_bits x.1.

(** the items are good ones after the lengths [acc] *)
Fixpoint items_ok (acc : list Z) (l : list (Z * Z)) : Prop :=
  match l with
  | [] => True
  | x :: l => item_ok x /\ (x.1 = 16 -> acc <> []) /\ items_ok (add_item acc x) l
  end.

Lemma run_cut v l k : 0 <= k <= run_of v l -> l = replicate (Z.to_nat k) v ++ drop (Z.to_nat k) l.
Proof.
  intros Hk. destruct (run_of_take v l) as [Hr Ht]. rewrite <- (take_drop (Z.to_nat k) l) at 1. f_equal.
  replace (Z.to_nat k) with (Nat.min (Z.to_nat k) (Z.to_nat (run_of v l))) by lia. rewrite <- take_take, Ht.
  by rewrite take_replicate.
Qed.

Lemma last_snoc (acc : list Z) v : aget (acc ++ [v]) (zlen (acc ++ [v]) - 1) = v.
Proof. rewrite zlen_app, zlen_cons, zlen_nil. rewrite aget_app by (pose proof (zlen_nonneg acc); lia).
  rewrite (proj2 (Z.ltb_ge _ _)) by lia. replace (_ - _) with 0 by lia. done.
Qed.

(** the run-length coding stands for the lengths *)
Lemma rle_lens_ok todo lens acc : (length lens <= todo)%nat -> Forall (fun x => 0 <= x <= 15) lens ->
  items_ok acc (rle_lens todo lens) /\ foldl add_item acc (rle_lens todo lens) = acc ++ lens.
Proof.
  revert lens acc. induction todo as [|todo IH]; intros [|v rest] acc Hl Hf; cbn [rle_lens]; try (by cbn; rewrite app_nil_r).
  { cbn in Hl. lia. }
  apply Forall_cons in Hf as [Hv Hf]. cbn in Hl. destruct (run_of_take v rest) as [Hr _]. set (run := run_of v rest) in *.
  assert (Hdrop : forall n, (length (drop n rest) <= todo)%nat /\ Forall (fun x => 0 <= x <= 15) (drop n rest)).
  { intros n. rewrite length_drop. split; [lia|by apply Forall_drop]. }
  assert (Hcut : forall k, 1 <= k <= 1 + run -> drop (Z.to_nat k) (v :: rest) = drop (Z.to_nat (k - 1)) rest /\
    v :: rest = replicate (Z.to_nat k) v ++ drop (Z.to_nat (k - 1)) rest).
  { intros k Hk. replace (Z.to_nat k) with (S (Z.to_nat (k - 1))) by lia. split; [done|]. cbn [replicate app]. f_equal.
    apply run_cut. unfold run in Hk. lia. }
  assert (Hu8v : u8 v = v) by (apply u8_small; unfold is_u8; lia).
  assert (Hlit : forall r, items_ok (acc ++ [v]) r -> items_ok acc ((u8 v, 0) :: r)).
  { intros r Hok. rewrite Hu8v. split; [unfold item_ok, rle_bits; cbn [fst snd]; split; [lia|]; repeat case_bool; cbn; lia|].
    split; [cbn [fst]; lia|]. unfold add_item. by rewrite (proj2 (Z.ltb_lt v 16)) by lia. }
  assert (Hadd : add_item acc (u8 v, 0) = acc ++ [v]) by (rewrite Hu8v; unfold add_item; by rewrite (proj2 (Z.ltb_lt v 16)) by lia).
  destruct ((v =? 0) && (3 <=? 1 + run)) eqn:E1; zbool.
  - subst v. set (k := if 138 <? 1 + run then 138 else 1 + run). assert (Hk : 3 <= k <= 138 /\ k <= 1 + run) by (unfold k; case_bool; zbool; lia).
    clearbody k. destruct (Hcut k ltac:(lia)) as [-> Ev]. set (r := drop (Z.to_nat (k - 1)) rest) in *.
    destruct (Hdrop (Z.to_nat (k - 1))) as [Hd1 Hd2].
    set (x := if 11 <=? k then (18, u8 (k - 11)) else (17, u8 (k - 3))).
    assert (Hx : item_ok x /\ x.1 <> 16 /\ add_item acc x = acc ++ replicate (Z.to_nat k) 0).
    { unfold x. destruct (11 <=? k) eqn:E; zbool; (rewrite u8_small by (unfold is_u8; lia)).
      - split; [split; cbn; lia|]. split; [done|]. cbn. do 2 f_equal. lia.
      - split; [split; cbn; lia|]. split; [done|]. cbn. do 2 f_equal. lia. }
    destruct Hx as (Hx1 & Hx2 & Hx3). clearbody x. cbn [items_ok foldl]. rewrite Hx3.
    destruct (IH r (acc ++ replicate (Z.to_nat k) 0) Hd1 Hd2) as [Hi ->]. split; [split; [done|]; split; [done|done]|].
    rewrite Ev. by rewrite app_assoc.
  - destruct (negb (v =? 0) && (4 <=? 1 + run)) eqn:E2; zbool.
    + set (k := if 6 <? 1 + run - 1 then 6 else 1 + run - 1). assert (Hk : 3 <= k <= 6 /\ k <= run) by (unfold k; case_bool; zbool; lia).
      clearbody k. destruct (Hcut (1 + k) ltac:(lia)) as [-> Ev]. replace (1 + k - 1) with k in * by lia. set (r := drop (Z.to_nat k) rest) in *.
      destruct (Hdrop (Z.to_nat k)) as [Hd1 Hd2]. rewrite (u8_small (k - 3)) by (unfold is_u8; lia).
      cbn [foldl]. rewrite Hadd.
      assert (H16 : add_item (acc ++ [v]) (16, k - 3) = acc ++ replicate (Z.to_nat (1 + k)) v).
      { cbn [add_item Z.ltb Z.compare Pos.compare Pos.compare_cont Z.eqb Pos.eqb]. rewrite last_snoc, <- app_assoc.
        replace (Z.to_nat (1 + k)) with (S (Z.to_nat (3 + (k - 3)))) by lia. done. }
      rewrite H16. destruct (IH r (acc ++ replicate (Z.to_nat (1 + k)) v) Hd1 Hd2) as [Hi ->]. split; [|rewrite Ev; by rewrite app_assoc].
      apply Hlit. split; [split; cbn; lia|]. split; [intros _ Hn; by destruct acc|]. by rewrite H16.
    + cbn [foldl]. rewrite Hadd. destruct (IH rest (acc ++ [v])) as [Hi ->]; [lia|done|].
      split; [by apply Hlit|]. by rewrite <- app_assoc.
Qed.

(** ** The items, sent and read *)

Definition item_bits (cc cl : list Z) (x : Z * Z) : list bool :=
  bits_of (Z.to_nat (aget cl x.1)) (aget cc x.1) ++ bits_of (Z.to_nat (rle_bits x.1)) x.2.

(** a code in use: each of the symbols has one *)
Definition code_for (lens codes : list Z) (i : Z) : Prop :=
  0 <= aget codes i < 2 ^ aget lens i /\ 0 <= aget lens i <= 15 /\
  forall s, symbol lens (bits_of (Z.to_nat (aget lens i)) (aget codes i) ++ s) = Some (i, s).

Lemma add_item_longer acc x : item_ok x -> zlen acc < zlen (add_item acc x).
Proof.
  intros [Hs He]. destruct x as [s e]. cbn in *. assert (0 <= e) by lia.
  destruct (s <? 16); [|destruct (s =? 16); [|destruct (s =? 17)]]; rewrite zlen_app, ?zlen_rep, ?zlen_cons, ?zlen_nil; lia.
Qed.

Lemma foldl_longer acc l : items_ok acc l -> zlen acc <= zlen (foldl add_item acc l).
Proof.
  revert acc. induction l as [|x l IH]; intros acc H; cbn [foldl]; [lia|]. destruct H as (Hx & _ & Hl).
  pose proof (add_item_longer acc x Hx). specialize (IH _ Hl). lia.
Qed.

Lemma read_items l acc clens cc todo s : items_ok acc l -> (length l <= todo)%nat ->
  Forall (fun x => code_for clens cc x.1) l ->
  code_lengths todo clens (zlen (foldl add_item acc l)) (concat (map (item_bits cc clens) l) ++ s) acc =
    Some (foldl add_item acc l, s).
Proof.
  revert acc todo. induction l as [|x l IH]; intros acc todo Hok Ht Hc.
  { cbn [foldl map concat app]. destruct todo; cbn [code_lengths]; by rewrite Z.ltb_irrefl, Z.eqb_refl. }
  destruct Hok as (Hx & H16 & Hok). apply Forall_cons in Hc as [(Hr & Hl15 & Hsym) Hc]. destruct todo as [|todo]; [cbn in Ht; lia|].
  cbn [foldl map concat code_lengths]. pose proof (add_item_longer acc x Hx). pose proof (foldl_longer _ _ Hok).
  rewrite (proj2 (Z.ltb_ge _ _)), (proj2 (Z.eqb_neq _ _)) by lia. unfold item_bits at 1. rewrite <- !app_assoc, Hsym. cbn [mbind option_bind].
  cbn in Ht. specialize (IH (add_item acc x) todo Hok ltac:(lia) Hc). revert IH. destruct Hx as [Hs He]. destruct x as [v e]. cbn [fst snd] in *.
  unfold rle_bits, add_item in *. intros IH.
  destruct (v <? 16) eqn:E1; zbool.
  - assert (Hv : v <> 16 /\ v <> 17 /\ v <> 18) by lia. rewrite !(proj2 (Z.eqb_neq v _)) by lia. cbn [Z.to_nat bits_of app]. exact IH.
  - destruct (v =? 16) eqn:E2; zbool.
    + assert (Hn : zlen acc <> 0) by (destruct acc; [by specialize (H16 E2)|rewrite zlen_cons; pose proof (zlen_nonneg acc); lia]).
      rewrite (proj2 (Z.eqb_neq _ _)) by done. change 2%nat with (Z.to_nat 2) at 1. rewrite (take_bits_of (Z.to_nat 2)) by exact He.
      cbn [mbind option_bind]. exact IH.
    + destruct (v =? 17) eqn:E3; zbool.
      * change 3%nat with (Z.to_nat 3) at 1. rewrite (take_bits_of (Z.to_nat 3)) by exact He. cbn [mbind option_bind]. exact IH.
      * assert (v = 18) by lia. subst v. cbn [Z.eqb Pos.eqb] in *. change 7%nat with (Z.to_nat 7) at 1.
        rewrite (take_bits_of (Z.to_nat 7)) by exact He. cbn [mbind option_bind]. exact IH.
Qed.

(** ** The lengths of the code for the code lengths *)

Lemma read_clens order n cl acc s : (forall i, 0 <= aget cl i < 8) -> (n <= length order)%nat ->
  clen_lengths order n (concat (map (fun i => bits_of 3 (aget cl i)) (take n order)) ++ s) acc =
    Some (foldl (fun a i => aset a i (aget cl i)) acc (take n order), s).
Proof.
  intros Hcl. revert order acc. induction n as [|n IH]; intros [|i order] acc Hn; cbn [take map concat foldl clen_lengths]; try done.
  rewrite <- app_assoc, (take_bits_of 3) by apply Hcl. cbn [mbind option_bind]. apply IH. cbn in Hn. lia.
Qed.

Lemma set_all_at (cl js acc : list Z) j : 0 <= j < zlen acc -> Forall (fun i => 0 <= i) js ->
  aget (foldl (fun a i => aset a i (aget cl i)) acc js) j = if bool_decide (j ∈ js) then aget cl j else aget acc j.
Proof.
  revert acc. induction js as [|i js IH]; intros acc Hj Hf; cbn [foldl].
  { rewrite bool_decide_eq_false_2; [done|apply not_elem_of_nil]. }
  apply Forall_cons in Hf as [Hi Hf]. rewrite IH by (rewrite ?zlen_aset; done). destruct (bool_decide (j ∈ js)) eqn:E.
  - rewrite bool_decide_eq_true_2; [done|]. right. by apply bool_decide_eq_true in E.
  - destruct (decide (j = i)) as [->|Hne].
    + rewrite aget_aset_eq by lia. rewrite bool_decide_eq_true_2 by (by left). done.
    + rewrite aget_aset_ne by lia. rewrite bool_decide_eq_false_2; [done|]. apply bool_decide_eq_false in E.
      intros H. apply elem_of_cons in H as [|]; done.
Qed.

Lemma zlen_set_all (cl js acc : list Z) : zlen (foldl (fun a i => aset a i (aget cl i)) acc js) = zlen acc.
Proof. revert acc. induction js as [|i js IH]; intros acc; cbn [foldl]; [done|]. by rewrite IH, zlen_aset. Qed.

(** the lengths left out are zero, so the reference has them all *)
Lemma clens_read cl n : zlen cl = 19 -> (n <= 19)%nat -> (forall k, Z.of_nat n <= k < 19 -> aget cl (aget CLORDER k) = 0) ->
  foldl (fun a i => aset a i (aget cl i)) (replicate 19 0) (take n CLORDER) = cl.
Proof.
  intros Hl Hn Hz. apply zlist_ext.
  - by rewrite zlen_set_all, Hl.
  - intros j Hj. rewrite zlen_set_all, zlen_rep in Hj. change (Z.of_nat 19) with 19 in Hj. rewrite set_all_at.
    + destruct (bool_decide _) eqn:E; [done|]. apply bool_decide_eq_false in E. rewrite aget_replicate by lia.
      assert (Hin : j ∈ CLORDER).
      { assert (Hb : forallb (fun j => bool_decide (j ∈ CLORDER)) (seqZ 0 19) = true) by (vm_compute; reflexivity).
        rewrite forallb_forall in Hb. specialize (Hb j). apply bool_decide_eq_true in Hb; [done|]. apply list_elem_of_In, elem_of_seqZ. lia. }
      rewrite <- (take_drop n CLORDER) in Hin. apply elem_of_app in Hin as [|Hin]; [done|].
      apply list_elem_of_lookup in Hin as [k Hk]. rewrite lookup_drop in Hk. symmetry.
      pose proof (lookup_lt_Some _ _ _ Hk) as Hlt. change (length CLORDER) with 19%nat in Hlt.
      rewrite <- (Hz (Z.of_nat (n + k))) by lia. f_equal. unfold aget. rewrite Nat2Z.id. symmetry. by apply list_lookup_total_correct.
    + rewrite zlen_rep. exact Hj.
    + apply Forall_take. by repeat constructor.
Qed.
