(* ===== verification/DeflateBlock.v ===== *)
(** * A block, written and read (kernel/deflate.c: write_block, stored_blocks)

    The reference reads a block's tokens back as the bytes they stand for,
    dynamic or stored, and no block is longer than storing its bytes. *)

From S2P Require Import Prelude Inflate Deflate DeflateBits HuffTree DeflateLz.

(** ** Frequencies *)

Lemma hist_at syms l : Forall (fun s => 0 <= s < zlen l) syms ->
  (forall i, 0 <= i < zlen l -> 0 <= aget l i /\ aget l i + zlen syms < 2 ^ 32) ->
  zlen (foldl bump l syms) = zlen l /\ forall i, 0 <= i < zlen l -> aget (foldl bump l syms) i = aget l i + count_len syms i.
Proof.
  intros Hs. revert l Hs. induction syms as [|x syms IH]; intros l Hs Hb; cbn [foldl].
  { split; [done|]. intros i Hi. rewrite count_len_nil. lia. }
  apply Forall_cons in Hs as [Hx Hs]. pose proof (zlen_nonneg syms). destruct (Hb x Hx) as [Hx0 Hx1]. rewrite zlen_cons in Hx1.
  assert (Hl : zlen (bump l x) = zlen l) by apply zlen_aset.
  assert (Hat : forall i, 0 <= i < zlen l -> aget (bump l x) i = aget l i + if x =? i then 1 else 0).
  { intros i Hi. unfold bump. destruct (x =? i) eqn:E; zbool.
    - subst. rewrite aget_aset_eq by lia. by rewrite u32_small by (unfold is_u32; lia).
    - rewrite aget_aset_ne by lia. lia. }
  destruct (IH (bump l x)) as [H1 H2].
  - by rewrite Hl.
  - intros i Hi. rewrite Hl in Hi. rewrite Hat by done. destruct (Hb i Hi) as [? Hbi]. rewrite zlen_cons in Hbi. case_bool; lia.
  - split; [by rewrite H1|]. intros i Hi. rewrite H2, Hat, count_len_cons by (rewrite ?Hl; done). lia.
Qed.

Lemma hist_zero n syms : Forall (fun s => 0 <= s < Z.of_nat n) syms -> zlen syms < 2 ^ 32 ->
  zlen (foldl bump (replicate n 0) syms) = Z.of_nat n /\
  (forall i, 0 <= i < Z.of_nat n -> aget (foldl bump (replicate n 0) syms) i = count_len syms i).
Proof.
  intros Hs Hl. destruct (hist_at syms (replicate n 0)) as [H1 H2]; rewrite ?zlen_rep in *; [done| |].
  - intros i Hi. rewrite aget_replicate by done. lia.
  - split; [done|]. intros i Hi. rewrite H2, aget_replicate by done. lia.
Qed.

Lemma count_len_pos syms s : s ∈ syms -> 0 < count_len syms s.
Proof.
  intros H. induction syms as [|x syms IH]; [by apply elem_of_nil in H|]. rewrite count_len_cons. pose proof (count_len_nonneg syms s).
  apply elem_of_cons in H as [->|H]; [rewrite Z.eqb_refl; lia|]. specialize (IH H). case_bool; lia.
Qed.

Definition lit_sym (x : tok_t) : Z := if tdist x =? 0 then tlen x else 257 + len_sym (tlen x).
Fixpoint dist_syms (t : list tok_t) : list Z :=
  match t with
  | [] => []
  | x :: t => if tdist x =? 0 then dist_syms t else dist_sym (tdist x) :: dist_syms t
  end.

Lemma count_tokens_eq t lf df : count_tokens t lf df = (foldl bump lf (map lit_sym t), foldl bump df (dist_syms t)).
Proof.
  revert lf df. induction t as [|x t IH]; intros lf df; [done|]. cbn [count_tokens map dist_syms foldl]. unfold lit_sym at 1.
  destruct (tdist x =? 0); rewrite IH; done.
Qed.

(** *** Sums over symbols, by frequency and by occurrence *)

Lemma sum_upto_ext n f g i : (forall k, i <= k < i + Z.of_nat n -> f k = g k) -> sum_upto n f i = sum_upto n g i.
Proof.
  revert i. induction n as [|n IH]; intros i H; cbn [sum_upto]; [done|]. rewrite (H i), (IH (i + 1)) by (intros; try apply H; lia). done.
Qed.

Lemma sum_upto_add n f g i : sum_upto n (fun k => f k + g k) i = sum_upto n f i + sum_upto n g i.
Proof. revert i. induction n as [|n IH]; intros i; cbn [sum_upto]; [done|]. rewrite IH. lia. Qed.

Lemma sum_upto_zero n i : sum_upto n (fun _ => 0) i = 0.
Proof. revert i. induction n as [|n IH]; intros i; cbn [sum_upto]; [done|]. by rewrite IH. Qed.

Lemma sum_upto_one n off x c i : sum_upto n (fun k => (if x =? off + k then 1 else 0) * c k) i =
  if (off + i <=? x) && (x <? off + i + Z.of_nat n) then c (x - off) else 0.
Proof.
  revert i. induction n as [|n IH]; intros i; cbn [sum_upto].
  - destruct (_ && _) eqn:E; [zbool; lia|done].
  - rewrite IH. destruct (x =? off + i) eqn:E; zbool.
    + replace (x - off) with i by lia. replace ((off + i <=? x) && (x <? off + i + Z.of_nat (S n))) with true by (symmetry; apply andb_true_iff; split; [apply Z.leb_le|apply Z.ltb_lt]; lia).
      replace ((off + (i + 1) <=? x) && (x <? off + (i + 1) + Z.of_nat n)) with false; [lia|]. symmetry. apply andb_false_iff. left. apply Z.leb_gt. lia.
    + replace ((off + (i + 1) <=? x) && (x <? off + (i + 1) + Z.of_nat n)) with ((off + i <=? x) && (x <? off + i + Z.of_nat (S n))); [lia|].
      apply eq_true_iff_eq. rewrite !andb_true_iff, !Z.leb_le, !Z.ltb_lt. lia.
Qed.

Lemma sum_count n off c syms : sum_upto n (fun k => count_len syms (off + k) * c k) 0 =
  zsum (map (fun s => if (off <=? s) && (s <? off + Z.of_nat n) then c (s - off) else 0) syms).
Proof.
  induction syms as [|x syms IH].
  - transitivity (sum_upto n (fun _ => 0) 0); [|apply sum_upto_zero]. apply sum_upto_ext. intros k _. by rewrite count_len_nil.
  - cbn [map]. rewrite zsum_cons, <- IH. pose proof (sum_upto_one n off x c 0) as H. rewrite !Z.add_0_r in H. rewrite <- H.
    rewrite <- sum_upto_add. apply sum_upto_ext. intros k _. rewrite count_len_cons. lia.
Qed.

(** ** Length and distance symbols *)

(** the last entry of the table that is not above [x] *)
Lemma sym_down_ok s base x : aget base 0 <= x -> let r := sym_down s base x in
  0 <= r <= Z.of_nat s /\ aget base r <= x /\ (r < Z.of_nat s -> x < aget base (r + 1)).
Proof.
  intros H0. cbv zeta. induction s as [|s IH]; cbn [sym_down].
  - change (Z.of_nat 0) with 0. rewrite (proj2 (Z.ltb_ge _ _)) by lia. lia.
  - destruct (x <? aget base (Z.of_nat (S s))) eqn:E; zbool; [|lia]. destruct IH as (H1 & H2 & H3). split; [lia|]. split; [done|]. intros _.
    destruct (decide (sym_down s base x = Z.of_nat s)) as [E2|Hne]; [|apply H3; lia]. rewrite E2. by replace (Z.of_nat s + 1) with (Z.of_nat (S s)) by lia.
Qed.

(** each entry with its extra bits reaches the next *)
Definition reaches (base ext : list Z) (n : nat) (top : Z) : bool :=
  forallb (fun r => aget base (r + 1) - aget base r <=? 2 ^ aget ext r) (seqZ 0 (Z.of_nat n)) && (top - aget base (Z.of_nat n) <? 2 ^ aget ext (Z.of_nat n)).

Lemma sym_ok base ext n top x : reaches base ext n top = true -> aget base 0 <= x <= top -> let s := sym_down n base x in
  0 <= s <= Z.of_nat n /\ 0 <= x - aget base s < 2 ^ aget ext s.
Proof.
  intros Hr Hx. destruct (sym_down_ok n base x ltac:(lia)) as (H1 & H2 & H3). cbv zeta. set (s := sym_down n base x) in *. clearbody s.
  split; [done|]. split; [lia|]. unfold reaches in Hr. zbool. destruct (decide (s = Z.of_nat n)) as [->|Hne]; [lia|].
  match goal with H : forallb _ _ = true |- _ => rewrite forallb_forall in H;
    specialize (H s ltac:(apply list_elem_of_In, elem_of_seqZ; lia)); cbn beta in H; zbool; specialize (H3 ltac:(lia)); lia end.
Qed.

Lemma len_sym_ok n : 3 <= n <= 258 -> let s := len_sym n in
  0 <= s <= 28 /\ 0 <= n - aget LBASE s < 2 ^ aget LEXT s.
Proof. intros Hn. exact (sym_ok LBASE LEXT 28 258 n eq_refl Hn). Qed.

Lemma dist_sym_ok n : 1 <= n <= 32768 -> let s := dist_sym n in
  0 <= s <= 29 /\ 0 <= n - aget DBASE s < 2 ^ aget DEXT s.
Proof. intros Hn. exact (sym_ok DBASE DEXT 29 32768 n eq_refl Hn). Qed.

Lemma ext_range tbl s : Forall (fun x => 0 <= x <= 13) tbl -> 0 <= s < zlen tbl -> 0 <= aget tbl s <= 13.
Proof.
  intros Hf Hs. unfold aget, zlen in *. destruct (lookup_lt_is_Some_2 tbl (Z.to_nat s)) as [x Hx]; [lia|].
  rewrite (list_lookup_total_correct _ _ _ Hx). exact (Forall_lookup_1 _ _ _ _ Hf Hx).
Qed.

Lemma lext_range s : 0 <= s <= 28 -> 0 <= aget LEXT s <= 13.
Proof. intros. apply ext_range; [repeat (constructor; [lia|]); constructor|]. change (zlen LEXT) with 29. lia. Qed.

Lemma dext_range s : 0 <= s <= 29 -> 0 <= aget DEXT s <= 13.
Proof. intros. apply ext_range; [repeat (constructor; [lia|]); constructor|]. change (zlen DEXT) with 30. lia. Qed.

(** ** Tokens *)

Definition tok_bits (ll lc dl dc : list Z) (x : tok_t) : list bool :=
  if tdist x =? 0 then bits_of (Z.to_nat (aget ll (tlen x))) (aget lc (tlen x))
  else
    let ls := len_sym (tlen x) in
    let ds := dist_sym (tdist x) in
    bits_of (Z.to_nat (aget ll (257 + ls))) (aget lc (257 + ls))
    ++ bits_of (Z.to_nat (aget LEXT ls)) (tlen x - aget LBASE ls)
    ++ bits_of (Z.to_nat (aget dl ds)) (aget dc ds)
    ++ bits_of (Z.to_nat (aget DEXT ds)) (tdist x - aget DBASE ds).

(** both codes have the token's symbols *)
Definition tok_coded (ll lc dl dc : list Z) (x : tok_t) : Prop :=
  code_for ll lc (lit_sym x) /\ (tdist x <> 0 -> code_for dl dc (dist_sym (tdist x))).

Definition good_token (x : tok_t) : Prop :=
  (tdist x = 0 /\ 0 <= tlen x < 256) \/ (3 <= tlen x <= 258 /\ 1 <= tdist x <= WSIZE).

Lemma tok_ok_good out x : tok_ok out x -> good_token x.
Proof. intros [?|(? & ? & ?)]; [by left|by right]. Qed.

Lemma emits_code grow lens codes i w : code_for lens codes i ->
  emits grow w (bits_of (Z.to_nat (aget lens i)) (aget codes i)) (bw_put grow w (aget codes i) (aget lens i)).
Proof. intros (Hc & Hl & _). apply emits_put; [lia|done]. Qed.

Lemma emits_extra grow w v n : 0 <= n <= 13 -> 0 <= v < 2 ^ n ->
  emits grow w (bits_of (Z.to_nat n) v) (if negb (n =? 0) then bw_put grow w v n else w).
Proof.
  intros Hn Hv. destruct (n =? 0) eqn:E; zbool; cbn [negb]; [subst; apply emits_nil|apply emits_put; [lia|done]].
Qed.

Lemma emits_token grow ll lc dl dc w x : good_token x -> tok_coded ll lc dl dc x ->
  emits grow w (tok_bits ll lc dl dc x) (put_token grow lc ll dc dl w x).
Proof.
  intros Hg (Hl & Hd). unfold put_token, tok_bits, lit_sym in *. destruct (tdist x =? 0) eqn:E; zbool; [by apply emits_code|].
  destruct Hg as [[Hg _]|[Hg1 Hg2]]; [done|]. specialize (Hd E). unfold WSIZE in Hg2.
  destruct (len_sym_ok (tlen x) Hg1) as [Hs1 Hs2]. destruct (dist_sym_ok (tdist x) Hg2) as [Hs3 Hs4].
  set (ls := len_sym (tlen x)) in *. set (ds := dist_sym (tdist x)) in *. pose proof (lext_range ls Hs1). pose proof (dext_range ds Hs3).
  assert (2 ^ aget LEXT ls <= 2 ^ 13) by (apply Z.pow_le_mono_r; lia). assert (2 ^ aget DEXT ds <= 2 ^ 13) by (apply Z.pow_le_mono_r; lia).
  rewrite (u32_small (tlen x - aget LBASE ls)), (u32_small (tdist x - aget DBASE ds)) by (unfold is_u32; lia).
  apply (emits_app grow w _ _ _ _ (emits_code grow ll lc (257 + ls) w Hl)).
  eapply emits_app; [by apply emits_extra|]. eapply emits_app; [by apply emits_code|]. by apply emits_extra.
Qed.

Lemma emits_tokens grow ll lc dl dc t w : Forall good_token t -> Forall (tok_coded ll lc dl dc) t ->
  emits grow w (concat (map (tok_bits ll lc dl dc) t)) (foldl (put_token grow lc ll dc dl) w t).
Proof.
  intros Hg Hc. revert w. induction Hg as [|x t Hx _ IH]; intros w; cbn [map concat foldl]; [apply emits_nil|].
  apply Forall_cons in Hc as [Hcx Hc]. eapply emits_app; [by apply emits_token|]. by apply IH.
Qed.

(** the reference reads a token back *)
Lemma symbols_token todo ll lc dl dc x s out : tok_ok out x -> tok_coded ll lc dl dc x ->
  symbols (S todo) ll dl (tok_bits ll lc dl dc x ++ s) out = symbols todo ll dl s (expand out x).
Proof.
  intros Hok ((_ & _ & Hl) & Hd). cbn [symbols]. unfold tok_bits, lit_sym, expand in *. destruct (tdist x =? 0) eqn:E; zbool.
  - rewrite Hl. cbn [mbind option_bind]. destruct Hok as [[_ Hb]|(_ & ? & _)]; [|lia]. by rewrite (proj2 (Z.ltb_lt _ _)) by lia.
  - destruct Hok as [[? _]|(Hn & Hdist & Hout)]; [done|]. destruct (Hd E) as (_ & _ & Hds). unfold WSIZE in Hdist.
    destruct (len_sym_ok (tlen x) Hn) as [Hs1 Hs2]. destruct (dist_sym_ok (tdist x) Hdist) as [Hs3 Hs4].
    set (ls := len_sym (tlen x)) in *. set (ds := dist_sym (tdist x)) in *. pose proof (lext_range ls Hs1). pose proof (dext_range ds Hs3).
    rewrite <- !app_assoc, Hl. cbn [mbind option_bind].
    rewrite (proj2 (Z.ltb_ge _ _)), (proj2 (Z.eqb_neq _ _)), (proj2 (Z.ltb_ge 285 _)) by lia.
    replace (257 + ls - 257) with ls by lia. change len_extra with LEXT. change len_base with LBASE. change dist_extra with DEXT. change dist_base with DBASE.
    rewrite take_bits_of by (rewrite Z2Nat.id by lia; lia). cbn [mbind option_bind]. rewrite Hds. cbn [mbind option_bind].
    rewrite (proj2 (Z.ltb_ge 29 _)) by lia. rewrite take_bits_of by (rewrite Z2Nat.id by lia; lia). cbn [mbind option_bind].
    replace (aget DBASE ds + (tdist x - aget DBASE ds)) with (tdist x) by lia. rewrite (proj2 (Z.ltb_ge _ _)) by lia.
    by replace (aget LBASE ls + (tlen x - aget LBASE ls)) with (tlen x) by lia.
Qed.

Lemma symbols_tokens todo ll lc dl dc t s out : toks_ok out t -> Forall (tok_coded ll lc dl dc) t -> code_for ll lc 256 ->
  (length t < todo)%nat ->
  symbols todo ll dl (concat (map (tok_bits ll lc dl dc) t) ++ bits_of (Z.to_nat (aget ll 256)) (aget lc 256) ++ s) out =
    Some (foldl expand out t, s).
Proof.
  intros Hok Hc (_ & _ & Heob). revert todo out Hok. induction Hc as [|x t Hx _ IH]; intros todo out Hok Ht; (destruct todo as [|todo]; [lia|]).
  - cbn [map concat app foldl symbols]. rewrite Heob. reflexivity.
  - destruct Hok as [Hx1 Hok]. cbn [map concat foldl]. rewrite <- app_assoc, symbols_token by done. apply IH; [done|]. cbn in Ht. lia.
Qed.

(** ** The codes of a block *)

Lemma code_ok_lens freq maxbits l : code_ok freq maxbits l -> maxbits <= 15 -> zlen freq < 2 ^ 16 -> lens_ok l.
Proof.
  intros [Hl Hr _ Hc] Hm Hn. split; [eapply Forall_impl; [exact Hr|]; cbn; lia|]. split; [|lia].
  destruct (_ =? 0); [|lia]. assert (kraft l = 0) as ->; [|lia]. clear - Hc. unfold kraft.
  induction Hc as [|x l -> _ IH]; [done|]. cbn [map]. by rewrite zsum_cons, IH.
Qed.

(** a symbol with a length has a code, for all the lengths and for those that
    are sent *)
Lemma code_for_sent l h i : lens_ok l -> 0 <= h <= zlen l -> (forall k, h <= k < zlen l -> aget l k = 0) ->
  0 <= i < zlen l -> 0 < aget l i ->
  code_for l (huff_codes l) i /\ code_for (take (Z.to_nat h) l) (huff_codes l) i /\ aget (take (Z.to_nat h) l) i = aget l i.
Proof.
  intros Hok Hh Hz Hi Hl. pose proof (aget_lens l Hok i Hi) as Hr.
  assert (Hih : i < h) by (destruct (Z.lt_ge_cases i h); [done|]; rewrite Hz in Hl; lia).
  assert (Ea : aget (take (Z.to_nat h) l) i = aget l i) by (apply aget_take; lia).
  pose proof (trimmed l h Hh Hz) as Et. set (n := Z.to_nat (zlen l - h)) in *.
  assert (Hcode : forall s, symbol (take (Z.to_nat h) l) (bits_of (Z.to_nat (aget l i)) (aget (huff_codes l) i) ++ s) = Some (i, s) /\
    0 <= aget (huff_codes l) i < 2 ^ aget l i).
  { intros s. pose proof (symbol_code (take (Z.to_nat h) l) n i s) as H. rewrite <- Et, Ea, zlen_take in H by lia. apply H; [done|lia|done]. }
  assert (Hfull : forall s, symbol l (bits_of (Z.to_nat (aget l i)) (aget (huff_codes l) i) ++ s) = Some (i, s)).
  { intros s. pose proof (symbol_code l 0 i s) as H. cbn [replicate] in H. rewrite app_nil_r in H. by apply H. }
  destruct (Hcode []) as [_ Hc]. split; [by split; [|split]|]. split; [|done]. split; [by rewrite Ea|]. rewrite Ea. split; [done|]. intros s. apply Hcode.
Qed.

Lemma good_syms x : good_token x -> 0 <= lit_sym x < 286 /\ lit_sym x <> 256 /\ (tdist x <> 0 -> 0 <= dist_sym (tdist x) < 30).
Proof.
  unfold lit_sym. intros [[-> Hb]|[Hl Hd]].
  - cbn [Z.eqb]. split; [lia|]. split; [lia|done].
  - rewrite (proj2 (Z.eqb_neq _ 0)) by lia. destruct (len_sym_ok _ Hl) as [? _]. unfold WSIZE in Hd. destruct (dist_sym_ok _ Hd) as [? _].
    split; [lia|]. split; [lia|]. lia.
Qed.

Lemma dist_syms_in x t : x ∈ t -> tdist x <> 0 -> dist_sym (tdist x) ∈ dist_syms t.
Proof.
  intros Hin Hx. induction t as [|y t IH]; [by apply elem_of_nil in Hin|]. cbn [dist_syms]. apply elem_of_cons in Hin as [<-|Hin].
  - rewrite (proj2 (Z.eqb_neq _ 0)) by done. by left.
  - destruct (tdist y =? 0); [auto|]. right. auto.
Qed.

Lemma dist_syms_range t : Forall good_token t -> Forall (fun s => 0 <= s < 30) (dist_syms t) /\ zlen (dist_syms t) <= zlen t.
Proof.
  intros Hg. induction Hg as [|x t Hx _ [IH1 IH2]]; [done|]. cbn [dist_syms]. rewrite zlen_cons.
  destruct (tdist x =? 0) eqn:E; [split; [done|lia]|]. rewrite zlen_cons. split; [|lia]. constructor; [|done].
  apply good_syms; [done|by zbool].
Qed.

Lemma count_len_absent syms s : Forall (fun x => x <> s) syms -> count_len syms s = 0.
Proof. intros H. induction H as [|x syms Hx _ IH]; [done|]. by rewrite count_len_cons, IH, (proj2 (Z.eqb_neq _ _)) by done. Qed.

(** the frequencies, with the end-of-block symbol's *)
Lemma freqs_ok t : Forall good_token t -> zlen t < 2 ^ 31 ->
  let '(lf, df) := count_tokens t (replicate 286 0) (replicate 30 0) in
  zlen (aset lf 256 1) = 286 /\ zlen df = 30 /\
  (forall i, 0 <= i < 286 -> aget (aset lf 256 1) i = count_len (256 :: map lit_sym t) i) /\
  (forall i, 0 <= i < 30 -> aget df i = count_len (dist_syms t) i).
Proof.
  intros Hg Ht. rewrite count_tokens_eq. destruct (dist_syms_range t Hg) as [Hd1 Hd2].
  destruct (hist_zero 286 (map lit_sym t)) as [H1 H2].
  { apply Forall_map. eapply Forall_impl; [exact Hg|]. intros x Hx. cbn beta. apply (good_syms x Hx). }
  { unfold zlen in *. rewrite length_map. lia. }
  destruct (hist_zero 30 (dist_syms t)) as [H3 H4]; [done|lia|]. change (Z.of_nat 286) with 286 in *. change (Z.of_nat 30) with 30 in *.
  split; [by rewrite zlen_aset|]. split; [done|]. split; [|done].
  intros i Hi. rewrite count_len_cons. destruct (256 =? i) eqn:E; zbool.
  - subst i. rewrite aget_aset_eq by lia. rewrite count_len_absent; [done|]. apply Forall_map. eapply Forall_impl; [exact Hg|].
    intros x Hx. cbn beta. apply (good_syms x Hx).
  - rewrite aget_aset_ne by lia. by apply H2.
Qed.

Lemma freq_range l syms n : zlen l = n -> (forall i, 0 <= i < n -> aget l i = count_len syms i) -> zlen syms < 2 ^ 32 ->
  Forall (fun x => 0 <= x < 2 ^ Z.of_nat 32) l.
Proof.
  intros Hl Hc Hs. apply Forall_lookup. intros k x Hk. pose proof (lookup_lt_Some _ _ _ Hk). specialize (Hc (Z.of_nat k) ltac:(unfold zlen in Hl; lia)).
  unfold aget in Hc. rewrite Nat2Z.id, (list_lookup_total_correct _ _ _ Hk) in Hc. subst x. pose proof (count_len_nonneg syms (Z.of_nat k)).
  pose proof (count_len_le syms (Z.of_nat k)). change (2 ^ Z.of_nat 32) with (2 ^ 32). lia.
Qed.

(** lengths for counted symbols *)
Lemma lengths_for l syms n maxbits : zlen l = n -> 2 <= n < 2 ^ 16 -> (forall i, 0 <= i < n -> aget l i = count_len syms i) -> zlen syms < 2 ^ 32 ->
  0 < maxbits <= 15 -> shallow n maxbits -> Forall (fun s => 0 <= s < n) syms ->
  exists c, huff_lengths ROUNDS l maxbits = Some c /\ lens_ok c /\ zlen c = n /\ Forall (fun x => 0 <= x <= maxbits) c /\
    Forall (fun s => 0 < aget c s) syms /\ (kraft c = 2 ^ 15 \/ (syms = [] /\ Forall (fun x => x = 0) c)).
Proof.
  intros Hl Hn Hc Hs Hm Hsh Hr. destruct (huff_lengths_ok 31 ROUNDS l maxbits) as (c & Ec & Hok);
    [unfold ROUNDS; lia|exact (freq_range l syms n Hl Hc Hs)|lia|done|by rewrite Hl|].
  exists c. split; [done|]. pose proof (code_ok_lens _ _ _ Hok ltac:(lia) ltac:(lia)) as Hlens. destruct Hok as [H1 H2 H3 H4].
  split; [done|]. split; [lia|]. split; [done|]. split.
  - apply Forall_forall. intros s Hin. rewrite Forall_forall in Hr. apply H3; [specialize (Hr s Hin); lia|].
    rewrite Hc by auto. pose proof (count_len_pos syms s Hin). lia.
  - destruct (zlen (used_from l 0) =? 0) eqn:E; [|by left]. zbool. right. split; [|done]. destruct syms as [|s syms]; [done|]. exfalso.
    assert (Hu : s ∈ used_from l 0).
    { apply used_from_in. rewrite Z.sub_0_r. apply Forall_cons in Hr as [Hr _]. split; [lia|]. rewrite Hc by done.
      pose proof (count_len_pos (s :: syms) s ltac:(by left)). lia. }
    destruct (used_from l 0) as [|y ys]; [by apply elem_of_nil in Hu|]. rewrite zlen_cons in E. pose proof (zlen_nonneg ys). lia.
Qed.

(** ** A dynamic block *)

Record codes_t := Codes {
  c_ll : list Z; c_dl : list Z; c_cl : list Z; c_hlit : Z; c_hdist : Z; c_hclen : Z; c_rle : list (Z * Z);
}.

(** the codes a block of the tokens [t] may have *)
Record codes_ok (k : codes_t) (t : list tok_t) : Prop := Codes_ok {
  ko_ll : lens_ok (c_ll k) /\ zlen (c_ll k) = 286 /\ kraft (c_ll k) = 2 ^ 15;
  ko_lit : Forall (fun x => 0 < aget (c_ll k) (lit_sym x)) t /\ 0 < aget (c_ll k) 256;
  ko_dl : lens_ok (c_dl k) /\ zlen (c_dl k) = 30 /\ (kraft (c_dl k) = 2 ^ 15 \/ Forall (fun x => x = 0) (c_dl k));
  ko_dist : Forall (fun x => tdist x <> 0 -> 0 < aget (c_dl k) (dist_sym (tdist x))) t;
  ko_hlit : 257 <= c_hlit k <= 286 /\ forall i, c_hlit k <= i < 286 -> aget (c_ll k) i = 0;
  ko_hdist : 1 <= c_hdist k <= 30 /\ forall i, c_hdist k <= i < 30 -> aget (c_dl k) i = 0;
  ko_cl : lens_ok (c_cl k) /\ zlen (c_cl k) = 19 /\ kraft (c_cl k) = 2 ^ 15 /\ Forall (fun x => 0 <= x <= 7) (c_cl k);
  ko_hclen : 4 <= c_hclen k <= 19 /\ forall i, c_hclen k <= i < 19 -> aget (c_cl k) (aget CLORDER i) = 0;
  ko_rle : items_ok [] (c_rle k) /\
    foldl add_item [] (c_rle k) = take (Z.to_nat (c_hlit k)) (c_ll k) ++ take (Z.to_nat (c_hdist k)) (c_dl k);
  ko_items : Forall (fun x => 0 < aget (c_cl k) x.1) (c_rle k);
}.

Section Dynamic.
Variables (k : codes_t) (t : list tok_t).
Hypothesis Hk : codes_ok k t.
Hypothesis Ht : Forall good_token t.
Notation lc := (huff_codes (c_ll k)).
Notation dc := (huff_codes (c_dl k)).
Notation cc := (huff_codes (c_cl k)).
Notation lit := (take (Z.to_nat (c_hlit k)) (c_ll k)).
Notation dist := (take (Z.to_nat (c_hdist k)) (c_dl k)).

Definition clens_bits : list bool := concat (map (fun i => bits_of 3 (aget (c_cl k) i)) (take (Z.to_nat (c_hclen k)) CLORDER)).
Definition rle_stream : list bool := concat (map (item_bits cc (c_cl k)) (c_rle k)).
Definition toks_stream : list bool := concat (map (tok_bits (c_ll k) lc (c_dl k) dc) t).
Definition eob_bits : list bool := bits_of (Z.to_nat (aget (c_ll k) 256)) (aget lc 256).

Definition dyn_bits : list bool :=
  bits_of 5 (c_hlit k - 257) ++ bits_of 5 (c_hdist k - 1) ++ bits_of 4 (c_hclen k - 4)
  ++ clens_bits ++ rle_stream ++ toks_stream ++ eob_bits.

Lemma lit_code i : 0 <= i < 286 -> 0 < aget (c_ll k) i ->
  code_for (c_ll k) lc i /\ code_for lit lc i /\ aget lit i = aget (c_ll k) i.
Proof.
  destruct (ko_ll _ _ Hk) as (Hok & Hl & _). destruct (ko_hlit _ _ Hk) as [Hh Hz]. intros Hi Hp.
  apply code_for_sent; [done|lia|by rewrite Hl|by rewrite Hl|done].
Qed.

Lemma dist_code i : 0 <= i < 30 -> 0 < aget (c_dl k) i ->
  code_for (c_dl k) dc i /\ code_for dist dc i /\ aget dist i = aget (c_dl k) i.
Proof.
  destruct (ko_dl _ _ Hk) as (Hok & Hl & _). destruct (ko_hdist _ _ Hk) as [Hh Hz]. intros Hi Hp.
  apply code_for_sent; [done|lia|by rewrite Hl|by rewrite Hl|done].
Qed.

Lemma clen_code i : 0 <= i < 19 -> 0 < aget (c_cl k) i -> code_for (c_cl k) cc i.
Proof.
  destruct (ko_cl _ _ Hk) as (Hok & Hl & _). intros Hi Hp.
  apply (code_for_sent (c_cl k) 19 i); [done|lia|intros; lia|by rewrite Hl|done].
Qed.

Lemma tokens_coded : Forall (tok_coded (c_ll k) lc (c_dl k) dc) t /\ Forall (tok_coded lit lc dist dc) t /\
  Forall (fun x => tok_bits lit lc dist dc x = tok_bits (c_ll k) lc (c_dl k) dc x) t.
Proof.
  destruct (ko_lit _ _ Hk) as [Hl _]. pose proof (ko_dist _ _ Hk) as Hd. rewrite Forall_forall in Hl, Hd, Ht.
  assert (H : forall x, x ∈ t -> tok_coded (c_ll k) lc (c_dl k) dc x /\ tok_coded lit lc dist dc x /\
    tok_bits lit lc dist dc x = tok_bits (c_ll k) lc (c_dl k) dc x).
  { intros x Hx. destruct (good_syms x (Ht x Hx)) as (H1 & _ & H2). destruct (lit_code _ H1 (Hl x Hx)) as (A1 & A2 & A3).
    split; [split; [done|]|split; [split; [done|]|]].
    - intros Hn. by apply dist_code; [apply H2|apply (Hd x Hx)].
    - intros Hn. by apply dist_code; [apply H2|apply (Hd x Hx)].
    - unfold tok_bits, lit_sym in *. destruct (tdist x =? 0) eqn:E; [by rewrite A3|]. zbool.
      destruct (dist_code _ (H2 E) (Hd x Hx E)) as (_ & _ & B3). by rewrite A3, B3. }
  split; [|split]; apply Forall_forall; intros x Hx; by apply H.
Qed.

Lemma items_coded : Forall (fun x => code_for (c_cl k) cc x.1) (c_rle k).
Proof.
  destruct (ko_rle _ _ Hk) as [Hok _]. pose proof (ko_items _ _ Hk) as Hi. revert Hok Hi. generalize (@nil Z). induction (c_rle k) as [|x l IH]; intros acc Hok Hi; [constructor|].
  destruct Hok as ([Hx _] & _ & Hok). apply Forall_cons in Hi as [Hx2 Hi]. constructor; [|by eapply IH]. apply clen_code; [lia|done].
Qed.

Lemma stream_longer {A} (f : A -> list bool) l : Forall (fun x => 1 <= zlen (f x)) l -> (length l <= length (concat (map f l)))%nat.
Proof.
  intros H. induction H as [|x l Hx _ IH]; [done|]. cbn [map concat length]. rewrite length_app. unfold zlen in Hx. lia.
Qed.

Lemma code_bits_long lens codes i : 0 < aget lens i -> 1 <= zlen (bits_of (Z.to_nat (aget lens i)) (aget codes i)).
Proof. intros H. rewrite zlen_bits_of by lia. lia. Qed.

Lemma rle_long : (length (c_rle k) <= length rle_stream)%nat.
Proof.
  apply stream_longer. eapply Forall_impl; [exact (ko_items _ _ Hk)|]. intros x Hx. unfold item_bits. rewrite zlen_app.
  pose proof (code_bits_long _ cc _ Hx). pose proof (zlen_nonneg (bits_of (Z.to_nat (rle_bits x.1)) x.2)). lia.
Qed.

Lemma toks_long : (length t <= length toks_stream)%nat.
Proof.
  apply stream_longer. eapply Forall_impl; [exact (proj1 (ko_lit _ _ Hk))|]. intros x Hx. cbn beta in Hx. unfold tok_bits, lit_sym in *.
  destruct (tdist x =? 0); [by apply code_bits_long|]. rewrite zlen_app. pose proof (code_bits_long _ lc _ Hx).
  match goal with |- _ <= _ + zlen ?l => pose proof (zlen_nonneg l) end. lia.
Qed.

(** the reference reads the block *)
Lemma dynamic_read out s : toks_ok out t -> dynamic_block (dyn_bits ++ s) out = Some (foldl expand out t, s).
Proof.
  intros Hok. destruct (ko_hlit _ _ Hk) as [Hh1 Hz1]. destruct (ko_hdist _ _ Hk) as [Hh2 Hz2]. destruct (ko_hclen _ _ Hk) as [Hh3 Hz3].
  destruct (ko_ll _ _ Hk) as (Hok1 & Hl1 & Hk1). destruct (ko_dl _ _ Hk) as (Hok2 & Hl2 & Hk2). destruct (ko_cl _ _ Hk) as (Hok3 & Hl3 & Hk3 & Hr3).
  destruct (ko_rle _ _ Hk) as [Hi1 Hi2]. unfold dynamic_block, dyn_bits. rewrite <- !app_assoc.
  rewrite (take_bits_of 5) by (change (2 ^ Z.of_nat 5) with 32; lia). cbn [mbind option_bind].
  rewrite (take_bits_of 5) by (change (2 ^ Z.of_nat 5) with 32; lia). cbn [mbind option_bind].
  rewrite (take_bits_of 4) by (change (2 ^ Z.of_nat 4) with 16; lia). cbn [mbind option_bind].
  replace (c_hclen k - 4 + 4) with (c_hclen k) by lia. replace (c_hlit k - 257 + 257) with (c_hlit k) by lia. replace (c_hdist k - 1 + 1) with (c_hdist k) by lia.
  change clen_order with CLORDER. unfold clens_bits. rewrite read_clens.
  2: { intros i. unfold aget. rewrite list_lookup_total_alt. destruct (c_cl k !! Z.to_nat i) as [x|] eqn:Hx; [|cbn; lia].
       pose proof (Forall_lookup_1 _ _ _ _ Hr3 Hx). cbn in *. lia. }
  2: { change (length CLORDER) with 19%nat. lia. }
  cbn [mbind option_bind]. rewrite clens_read by (done || lia || (intros; apply Hz3; lia)).
  unfold complete at 1. rewrite Hk3, Z.eqb_refl. cbn [negb].
  assert (Hlens : zlen (foldl add_item [] (c_rle k)) = c_hlit k + c_hdist k) by (rewrite Hi2, zlen_app, !zlen_take by lia; lia).
  rewrite <- Hlens. unfold rle_stream. rewrite read_items; [|done| |exact items_coded].
  2: { rewrite length_app. pose proof rle_long. unfold rle_stream in *. lia. }
  cbn [mbind option_bind]. rewrite Hi2.
  assert (Hll : length lit = Z.to_nat (c_hlit k)) by (rewrite length_take; unfold zlen in *; lia).
  rewrite (take_app_length' lit dist), (drop_app_length' lit dist) by done.
  assert (Hkl : kraft lit = 2 ^ 15).
  { rewrite <- Hk1. rewrite (trimmed (c_ll k) (c_hlit k)) at 2 by (rewrite ?Hl1; done || lia). by rewrite kraft_pad. }
  assert (Hkd : complete dist = false -> forallb (fun l => l =? 0) dist = true).
  { intros E. destruct Hk2 as [Hk2|Hk2].
    - exfalso. unfold complete in E. rewrite <- Hk2, (trimmed (c_dl k) (c_hdist k)) in E by (rewrite ?Hl2; done || lia).
      rewrite kraft_pad in E. rewrite <- (trimmed (c_dl k) (c_hdist k)) in E by (rewrite ?Hl2; done || lia). by rewrite Z.eqb_refl in E.
    - apply forallb_forall. intros x Hx. apply list_elem_of_In in Hx. apply Z.eqb_eq. pose proof (Forall_take _ (Z.to_nat (c_hdist k)) _ Hk2) as Hk2'.
      rewrite Forall_forall in Hk2'. by apply Hk2'. }
  unfold complete at 1. rewrite Hkl, Z.eqb_refl. cbn [negb orb].
  destruct (ko_lit _ _ Hk) as [_ H256]. destruct (lit_code 256 ltac:(lia) H256) as (_ & Heob & E256).
  rewrite E256, (proj2 (Z.eqb_neq _ 0)) by lia.
  replace (negb (complete dist) && negb (forallb (fun l => l =? 0) dist)) with false.
  2: { destruct (complete dist); [done|]. by rewrite Hkd. }
  destruct tokens_coded as (_ & Hcoded & Hsame). unfold toks_stream, eob_bits.
  replace (map (tok_bits (c_ll k) lc (c_dl k) dc) t) with (map (tok_bits lit lc dist dc) t)
    by (apply map_ext_Forall; exact Hsame).
  rewrite <- E256. apply symbols_tokens; [done|done|done|].
  rewrite length_app. pose proof toks_long as Hlong. unfold toks_stream in Hlong.
  replace (map (tok_bits lit lc dist dc) t) with (map (tok_bits (c_ll k) lc (c_dl k) dc) t)
    by (symmetry; apply map_ext_Forall; exact Hsame).
  rewrite length_app, length_bits_of. lia.
Qed.

(** *** As the writer puts it out *)

Lemma emits_clens grow n order w : (n <= length order)%nat -> Forall (fun x => 0 <= x <= 7) (c_cl k) ->
  emits grow w (concat (map (fun i => bits_of 3 (aget (c_cl k) i)) (take n order))) (put_clens grow n order (c_cl k) w).
Proof.
  intros Hn Hr. revert n w Hn. induction order as [|i order IH]; intros [|n] w Hn; cbn [take map concat put_clens]; try apply emits_nil.
  apply (emits_app grow w _ (bw_put grow w (aget (c_cl k) i) 3)); [|apply IH; cbn in Hn; lia].
  change 3%nat with (Z.to_nat 3). apply emits_put; [lia|]. unfold aget. rewrite list_lookup_total_alt.
  destruct (c_cl k !! Z.to_nat i) as [x|] eqn:Hx; [|cbn; lia]. pose proof (Forall_lookup_1 _ _ _ _ Hr Hx). cbn in *. lia.
Qed.

Lemma emits_rle grow acc rle w : items_ok acc rle -> Forall (fun x => code_for (c_cl k) cc x.1) rle ->
  emits grow w (concat (map (item_bits cc (c_cl k)) rle)) (put_rle grow rle cc (c_cl k) w).
Proof.
  revert acc w. induction rle as [|[v e] rle IH]; intros acc w Hok Hc; cbn [map concat put_rle]; [apply emits_nil|].
  destruct Hok as ([Hv He] & _ & Hok). apply Forall_cons in Hc as [Hx Hc]. cbn [fst snd] in *.
  set (w1 := bw_put grow w (aget cc v) (aget (c_cl k) v)).
  set (w2 := if v =? 16 then _ else _).
  apply (emits_app grow w _ w2); [|by eapply IH].
  apply (emits_app grow w _ w1); [by apply emits_code|]. unfold w2, rle_bits in *. cbn [fst snd] in *.
  destruct (v =? 16); [by apply emits_put; [lia|]|]. destruct (v =? 17); [by apply emits_put; [lia|]|].
  destruct (v =? 18); [by apply emits_put; [lia|]|]. apply emits_nil.
Qed.

Lemma emits_dynamic grow (final : bool) w :
  let w1 := bw_put grow (bw_put grow w (Z.b2z final) 1) 2 2 in
  let w2 := bw_put grow (bw_put grow (bw_put grow w1 (c_hlit k - 257) 5) (c_hdist k - 1) 5) (c_hclen k - 4) 4 in
  let w3 := put_clens grow (Z.to_nat (c_hclen k)) CLORDER (c_cl k) w2 in
  let w4 := put_rle grow (c_rle k) cc (c_cl k) w3 in
  let w5 := foldl (put_token grow lc (c_ll k) dc (c_dl k)) w4 t in
  emits grow w (bits_of 1 (Z.b2z final) ++ bits_of 2 2 ++ dyn_bits) (bw_put grow w5 (aget lc 256) (aget (c_ll k) 256)).
Proof.
  cbv zeta. destruct (ko_hlit _ _ Hk) as [Hh1 _]. destruct (ko_hdist _ _ Hk) as [Hh2 _]. destruct (ko_hclen _ _ Hk) as [Hh3 _].
  destruct (ko_cl _ _ Hk) as (_ & _ & _ & Hr3). destruct (ko_rle _ _ Hk) as [Hi _]. destruct (ko_lit _ _ Hk) as [_ H256].
  destruct (lit_code 256 ltac:(lia) H256) as (Heob & _).
  assert (Hput : forall w v n, 0 <= n <= 16 -> 0 <= v < 2 ^ n -> emits grow w (bits_of (Z.to_nat n) v) (bw_put grow w v n)) by (intros; by apply emits_put).
  eapply emits_app; [apply (Hput w _ 1); [lia|destruct final; cbn; lia]|].
  eapply emits_app; [apply (Hput _ 2 2); lia|]. unfold dyn_bits.
  eapply emits_app; [apply (Hput _ _ 5); [lia|change (2 ^ 5) with 32; lia]|].
  eapply emits_app; [apply (Hput _ _ 5); [lia|change (2 ^ 5) with 32; lia]|].
  eapply emits_app; [apply (Hput _ _ 4); [lia|change (2 ^ 4) with 16; lia]|].
  eapply emits_app; [apply emits_clens; [change (length CLORDER) with 19%nat; lia|exact Hr3]|].
  eapply emits_app; [apply (emits_rle grow []); [exact Hi|exact items_coded]|].
  eapply emits_app; [apply emits_tokens; [exact Ht|apply tokens_coded]|]. by apply emits_code.
Qed.

(** *** Its size *)

Lemma zlen_concat {A} (f : A -> list bool) (g : A -> Z) l : Forall (fun x => zlen (f x) = g x) l -> zlen (concat (map f l)) = zsum (map g l).
Proof. intros H. induction H as [|x l Hx _ IH]; [done|]. cbn [map concat]. by rewrite zlen_app, zsum_cons, Hx, IH. Qed.

Definition tok_size (x : tok_t) : Z :=
  aget (c_ll k) (lit_sym x) +
  if tdist x =? 0 then 0 else aget LEXT (len_sym (tlen x)) + (aget (c_dl k) (dist_sym (tdist x)) + aget DEXT (dist_sym (tdist x))).

Lemma tok_bits_size : Forall (fun x => zlen (tok_bits (c_ll k) lc (c_dl k) dc x) = tok_size x) t.
Proof.
  destruct (ko_lit _ _ Hk) as [Hl _]. pose proof (ko_dist _ _ Hk) as Hd. rewrite Forall_forall in *.
  intros x Hx. specialize (Hl x Hx). specialize (Hd x Hx). specialize (Ht x Hx). unfold tok_bits, tok_size, lit_sym in *.
  destruct (tdist x =? 0) eqn:E; zbool; [rewrite zlen_bits_of by lia; lia|]. specialize (Hd E).
  destruct Ht as [[? _]|[Hg1 Hg2]]; [done|]. destruct (len_sym_ok _ Hg1) as [Hs1 _]. unfold WSIZE in Hg2. destruct (dist_sym_ok _ Hg2) as [Hs2 _].
  pose proof (lext_range _ Hs1). pose proof (dext_range _ Hs2). rewrite !zlen_app, !zlen_bits_of by lia. lia.
Qed.

(** the tokens' size from the frequencies *)
Lemma freq_size lf df : (forall i, 0 <= i < 286 -> aget lf i = count_len (256 :: map lit_sym t) i) ->
  (forall i, 0 <= i < 30 -> aget df i = count_len (dist_syms t) i) ->
  sum_upto 286 (fun i => aget lf i * aget (c_ll k) i) 0 + sum_upto 29 (fun i => aget lf (257 + i) * aget LEXT i) 0
    + sum_upto 30 (fun i => aget df i * (aget (c_dl k) i + aget DEXT i)) 0 = zsum (map tok_size t) + aget (c_ll k) 256.
Proof.
  intros Hlf Hdf.
  rewrite (sum_upto_ext 286 _ (fun i => count_len (256 :: map lit_sym t) (0 + i) * aget (c_ll k) i)) by (intros i Hi; rewrite Hlf by lia; done).
  rewrite (sum_upto_ext 29 _ (fun i => count_len (256 :: map lit_sym t) (257 + i) * aget LEXT i)) by (intros i Hi; rewrite Hlf by lia; done).
  rewrite (sum_upto_ext 30 _ (fun i => count_len (dist_syms t) (0 + i) * (aget (c_dl k) i + aget DEXT i))) by (intros i Hi; rewrite Hdf by lia; done).
  rewrite !sum_count. cbn [map]. rewrite !zsum_cons. change (0 + Z.of_nat 286) with 286. change (257 + Z.of_nat 29) with 286. change (0 + Z.of_nat 30) with 30.
  change ((0 <=? 256) && (256 <? 286)) with true. change ((257 <=? 256) && (256 <? 286)) with false. cbv iota. rewrite Z.sub_0_r.
  rewrite !map_map. clear Hk Hlf Hdf. induction Ht as [|x l Hx Hl IH]; [cbn; lia|]. specialize (IH Hl). cbn [map dist_syms]. rewrite !zsum_cons.
  destruct (good_syms x Hx) as (H1 & H2 & H3). rewrite (proj2 (Z.leb_le 0 _)), (proj2 (Z.ltb_lt _ 286)) by lia. cbn [andb].
  rewrite Z.sub_0_r. unfold tok_size at 1. unfold lit_sym in *. destruct (tdist x =? 0) eqn:E; zbool.
  - replace (257 <=? tlen x) with false; [cbn [andb]; lia|]. symmetry. apply Z.leb_gt. destruct Hx as [[_ Hb]|[_ Hb]]; lia.
  - specialize (H3 E). rewrite (proj2 (Z.leb_le 257 _)) by (destruct Hx as [[? _]|[Hg _]]; [done|]; destruct (len_sym_ok _ Hg); lia).
    cbn [andb map]. rewrite zsum_cons, (proj2 (Z.leb_le 0 _)), (proj2 (Z.ltb_lt _ 30)) by lia. cbn [andb]. rewrite Z.sub_0_r.
    replace (257 + len_sym (tlen x) - 257) with (len_sym (tlen x)) by lia. lia.
Qed.

Lemma dyn_size lf df : (forall i, 0 <= i < 286 -> aget lf i = count_len (256 :: map lit_sym t) i) ->
  (forall i, 0 <= i < 30 -> aget df i = count_len (dist_syms t) i) ->
  3 + zlen dyn_bits = block_bits lf df (c_ll k) (c_dl k) (c_cl k) (c_rle k) (c_hclen k).
Proof.
  intros Hlf Hdf. unfold block_bits. pose proof (freq_size lf df Hlf Hdf) as Hs. destruct (ko_hclen _ _ Hk) as [Hh3 _].
  destruct (ko_lit _ _ Hk) as [_ H256]. unfold dyn_bits, clens_bits, rle_stream, toks_stream, eob_bits. rewrite !zlen_app.
  rewrite (zlen_concat _ tok_size t tok_bits_size). rewrite (zlen_concat _ (fun _ => 3)) by (apply Forall_forall; done).
  rewrite (zlen_concat _ (fun '(s, _) => aget (c_cl k) s + rle_bits s)).
  2: { destruct (ko_rle _ _ Hk) as [Hok _]. pose proof (ko_items _ _ Hk) as Hi. clear - Hok Hi. revert Hok Hi. generalize (@nil Z).
       induction (c_rle k) as [|[v e] l IH]; intros acc Hok Hi; [constructor|]. destruct Hok as ([Hv He] & _ & Hok). apply Forall_cons in Hi as [Hx Hi].
       constructor; [|by eapply IH]. cbn [fst snd] in *. unfold item_bits. cbn [fst snd]. rewrite zlen_app, !zlen_bits_of; [done| |lia].
       unfold rle_bits. repeat case_bool; lia. }
  assert (H3 : zsum (map (fun _ : Z => 3) (take (Z.to_nat (c_hclen k)) CLORDER)) = 3 * c_hclen k).
  { assert (Hg : forall l : list Z, zsum (map (fun _ => 3) l) = 3 * zlen l) by (intros l; induction l as [|x l IH]; [done|]; cbn [map]; rewrite zsum_cons, zlen_cons; lia).
    rewrite Hg, zlen_take by lia. change (zlen CLORDER) with 19. lia. }
  rewrite H3, (zlen_bits_of (aget (c_ll k) 256)) by lia.
  change (zlen (bits_of 5 (c_hlit k - 257))) with 5. change (zlen (bits_of 5 (c_hdist k - 1))) with 5. change (zlen (bits_of 4 (c_hclen k - 4))) with 4. lia.
Qed.
End Dynamic.

(** ** Reading several blocks *)

(** the bits [bs], [nb] bits into a byte, are blocks that take the output from
    [before] to [after]; the last of them is the stream's last when [final] *)
Definition reads (final : bool) (nb : Z) (bs : list bool) (before after : list Z) : Prop :=
  exists n, (n <= length bs)%nat /\ forall fuel s, (nb + zlen bs + zlen s) mod 8 = 0 ->
    blocks (n + fuel) (bs ++ s) before = if final then Some (after, s) else blocks fuel s after.

Lemma reads_one final nb bs before after : 1 <= zlen bs ->
  (forall s, (nb + zlen bs + zlen s) mod 8 = 0 -> block (bs ++ s) before = Some (final, after, s)) ->
  reads final nb bs before after.
Proof.
  intros Hl Hb. exists 1%nat. split; [unfold zlen in Hl; lia|]. intros fuel s Hs. cbn [Nat.add blocks]. rewrite Hb by done. by destruct final.
Qed.

Lemma reads_app final nb a b x y z : reads false nb a x y -> reads final ((nb + zlen a) mod 8) b y z -> reads final nb (a ++ b) x z.
Proof.
  intros (n & Hn & Ha) (m & Hm & Hb). exists (n + m)%nat. split; [rewrite length_app; lia|]. intros fuel s Hs.
  rewrite zlen_app in Hs. rewrite <- app_assoc, <- Nat.add_assoc, Ha, Hb; [done| |rewrite zlen_app]; rewrite <- Hs.
  - rewrite <- Z.add_assoc, Zplus_mod_idemp_l. f_equal. lia.
  - f_equal. lia.
Qed.

(** ** Stored blocks *)

Lemma take_bytes_stream l s : bytes l -> take_bytes (length l) (stream l ++ s) = Some (l, s).
Proof.
  intros Hl. induction Hl as [|b l Hb _ IH]; [done|]. cbn [length take_bytes]. change (stream (b :: l)) with (bits_of 8 b ++ stream l).
  rewrite <- app_assoc, (take_bits_of 8) by (unfold is_u8 in Hb; change (2 ^ Z.of_nat 8) with (2 ^ 8); lia). cbn [mbind option_bind]. by rewrite IH.
Qed.

Definition low16 (v : Z) : list Z := [u8 v; u8 (Z.shiftr v 8)].

Lemma take_low16 v s : 0 <= v -> take_bits 16 (stream (low16 v) ++ s) = Some (v mod 2 ^ 16, s).
Proof.
  intros Hv. change (stream (low16 v)) with (bits_of 8 (u8 v) ++ bits_of 8 (u8 (Z.shiftr v 8)) ++ []). rewrite app_nil_r.
  rewrite <- (bits_of_join 8 8) by apply u8_bound.
  replace (u8 v + u8 (Z.shiftr v 8) * 2 ^ Z.of_nat 8) with (v mod 2 ^ 16).
  - rewrite (take_bits_of 16); [done|]. change (2 ^ Z.of_nat 16) with (2 ^ 16). apply Z.mod_pos_bound. lia.
  - rewrite Z.shiftr_div_pow2 by lia. unfold u8. change (2 ^ Z.of_nat 8) with 256. change (2 ^ 16) with 65536. change (2 ^ 8) with 256. lia.
Qed.

(** one stored block of the bytes [l] *)
Definition stored_one (nb : Z) (last : bool) (l : list Z) : list bool :=
  bits_of 1 (Z.b2z last) ++ bits_of 2 0 ++ replicate (Z.to_nat ((- (nb + 3)) mod 8)) false
  ++ stream (low16 (zlen l)) ++ stream (low16 (u32 (Z.lnot (zlen l)))) ++ stream l.

Lemma stored_one_size nb last l : zlen (stored_one nb last l) = 35 + (- (nb + 3)) mod 8 + 8 * zlen l.
Proof.
  unfold stored_one. rewrite !zlen_app, zlen_rep, !zlen_stream.
  change (zlen (bits_of 1 (Z.b2z last))) with 1. change (zlen (bits_of 2 0)) with 2. change (zlen (low16 _)) with 2. lia.
Qed.

Lemma stored_one_read nb last l before s : bytes l -> zlen l <= 65535 -> 0 <= nb -> (nb + zlen (stored_one nb last l) + zlen s) mod 8 = 0 ->
  block (stored_one nb last l ++ s) before = Some (last, before ++ l, s).
Proof.
  intros Hl Hn Hnb Hs. rewrite stored_one_size in Hs. unfold block, stored_one. rewrite <- !app_assoc. pose proof (zlen_nonneg l) as Hz.
  rewrite (take_bits_of 1) by (destruct last; cbn; lia). cbn [mbind option_bind].
  rewrite (take_bits_of 2) by (cbn; lia). cbn [mbind option_bind]. change (0 =? 0) with true. cbv iota. unfold stored_block.
  set (pad := replicate (Z.to_nat ((- (nb + 3)) mod 8)) false).
  set (rest := stream (low16 (zlen l)) ++ _).
  assert (Hrest : zlen rest mod 8 = 0).
  { unfold rest. rewrite !zlen_app, !zlen_stream. change (zlen (low16 _)) with 2. lia. }
  assert (Hpad : (length (pad ++ rest) mod 8)%nat = length pad).
  { rewrite length_app. unfold pad. rewrite length_replicate. apply Nat2Z.inj. rewrite Nat2Z.inj_mod, Nat2Z.inj_add. unfold zlen in Hrest.
    change (Z.of_nat 8) with 8. rewrite Z2Nat.id by lia. lia. }
  rewrite Hpad, drop_app_length. unfold rest. rewrite take_low16 by lia. cbn [mbind option_bind].
  assert (Hc : u32 (Z.lnot (zlen l)) = 2 ^ 32 - 1 - zlen l).
  { unfold Z.lnot, u32. rewrite <- (Z_mod_plus_full _ 1), Z.mod_small by lia. lia. }
  rewrite Hc, take_low16 by lia. cbn [mbind option_bind].
  assert (H1 : zlen l mod 2 ^ 16 = zlen l) by (apply Z.mod_small; lia).
  assert (H2 : (2 ^ 32 - 1 - zlen l) mod 2 ^ 16 = 65535 - zlen l) by (change (2 ^ 32) with 4294967296; change (2 ^ 16) with 65536; lia).
  rewrite H1, H2, Z.eqb_refl. cbn [negb]. unfold zlen at 1. rewrite Nat2Z.id, take_bytes_stream by done. cbn [mbind option_bind]. by destruct last.
Qed.

Lemma emits_stored_one grow w last l : zlen l <= 65535 -> wok w ->
  let w1 := bw_align grow (bw_put grow (bw_put grow w (Z.b2z last) 1) 0 2) in
  let w2 := bw_byte grow (bw_byte grow w1 (u8 (zlen l))) (u8 (Z.shiftr (zlen l) 8)) in
  let w3 := bw_byte grow (bw_byte grow w2 (u8 (u32 (Z.lnot (zlen l))))) (u8 (Z.shiftr (u32 (Z.lnot (zlen l))) 8)) in
  emits grow w (stored_one (nbits w) last l) (bw_bytes grow w3 l) /\ nbits (bw_bytes grow w3 l) = 0.
Proof.
  intros Hn Hw. cbv zeta.
  assert (E1 : emits grow w (bits_of 1 (Z.b2z last)) (bw_put grow w (Z.b2z last) 1)) by (change 1%nat with (Z.to_nat 1); apply emits_put; [lia|destruct last; cbn; lia]).
  destruct (E1 Hw) as (Hw1 & Hn1 & _). set (wa := bw_put grow w (Z.b2z last) 1) in *.
  assert (E2 : emits grow wa (bits_of 2 0) (bw_put grow wa 0 2)) by (change 2%nat with (Z.to_nat 2); apply emits_put; lia).
  destruct (E2 Hw1) as (Hw2 & Hn2 & _). set (wb := bw_put grow wa 0 2) in *.
  destruct (emits_align grow wb Hw2) as [E3 Hn3]. set (wc := bw_align grow wb) in *.
  pose proof (fun a b w => emits_stream grow [a; b] w) as Hbytes.
  destruct (Hbytes (u8 (zlen l)) (u8 (Z.shiftr (zlen l) 8)) wc Hn3) as [E4 Hn4]. cbn [bw_bytes] in E4, Hn4. set (wd := bw_byte grow (bw_byte grow wc _) _) in *.
  destruct (Hbytes (u8 (u32 (Z.lnot (zlen l)))) (u8 (Z.shiftr (u32 (Z.lnot (zlen l))) 8)) wd Hn4) as [E5 Hn5]. cbn [bw_bytes] in E5, Hn5. set (we := bw_byte grow (bw_byte grow wd _) _) in *.
  destruct (emits_stream grow l we Hn5) as [E6 Hn6]. split; [|done]. unfold stored_one.
  assert (Hpad : (- nbits wb) mod 8 = (- (nbits w + 3)) mod 8).
  { rewrite Hn2, Hn1. change (zlen (bits_of 1 (Z.b2z last))) with 1. change (zlen (bits_of 2 0)) with 2. lia. }
  rewrite <- Hpad. do 4 (eapply emits_app; [eassumption|]). eapply emits_app; eassumption.
Qed.

Definition pieces (raw : Z) : Z := (raw + 65534) / 65535 + Z.b2z (raw =? 0).

(** the bytes [raw] in blocks of at most 65535 *)
Lemma stored_ok grow todo w raw final before : bytes raw -> (length raw < todo)%nat -> wok w ->
  exists bs, emits grow w bs (stored_blocks grow todo w raw final) /\ reads final (nbits w) bs before (before ++ raw) /\
    zlen bs <= 8 * zlen raw + 40 * pieces (zlen raw) + ((- (nbits w + 3)) mod 8 - 5).
Proof.
  revert w raw before. induction todo as [|todo IH]; intros w raw before Hb Ht Hw; [lia|]. cbn [stored_blocks].
  pose proof (zlen_nonneg raw) as Hz. set (n := if 65535 <? zlen raw then 65535 else zlen raw).
  assert (Hn : 0 <= n <= 65535 /\ n <= zlen raw /\ (n = zlen raw \/ (n = 65535 /\ n < zlen raw))) by (unfold n; case_bool; zbool; lia). clearbody n.
  set (l := take (Z.to_nat n) raw). assert (Hl : zlen l = n) by (unfold l; rewrite zlen_take; lia).
  assert (Hbl : bytes l) by by apply Forall_take.
  assert (Hnb : 0 <= nbits w) by (destruct Hw as [[_ _ []] _]; done).
  set (last := final && (n =? zlen raw)).
  destruct (emits_stored_one grow w last l ltac:(lia) Hw) as [He Hn0]. rewrite Hl in He, Hn0. cbv zeta in *.
  set (w' := bw_bytes grow _ l) in *. destruct (He Hw) as (Hw' & _ & _).
  assert (Hread : reads last (nbits w) (stored_one (nbits w) last l) before (before ++ l)).
  { apply reads_one; [rewrite stored_one_size; lia|]. intros s Hs. by apply stored_one_read; [|lia| |]. }
  destruct (zlen raw - n =? 0) eqn:E; zbool.
  - assert (Er : l = raw) by (unfold l; apply take_ge; unfold zlen in *; lia). assert (El : last = final) by (unfold last; rewrite (proj2 (Z.eqb_eq n _)) by lia; apply andb_true_r).
    exists (stored_one (nbits w) last l). split; [done|]. rewrite Er, El in *. split; [done|]. rewrite stored_one_size. unfold pieces.
    destruct (zlen raw =? 0) eqn:E0; zbool; cbn [Z.b2z]; lia.
  - assert (El : last = false) by (unfold last; rewrite (proj2 (Z.eqb_neq n _)) by lia; apply andb_false_r). rewrite El in *.
    destruct (IH w' (drop (Z.to_nat n) raw) (before ++ l)) as (bs & He2 & Hr2 & Hs2).
    { by apply Forall_drop. } { rewrite length_drop. unfold zlen in *. lia. } { done. }
    rewrite Hn0 in *. rewrite zlen_drop in Hs2 by lia.
    exists (stored_one (nbits w) false l ++ bs). split; [by eapply emits_app|]. split.
    + eapply reads_app; [exact Hread|]. destruct (He Hw) as (_ & Hmod & _). rewrite <- Hmod, Hn0.
      unfold l in Hr2. by rewrite <- app_assoc, take_drop in Hr2.
    + rewrite zlen_app, stored_one_size. unfold pieces in *. change ((- (0 + 3)) mod 8) with 5 in Hs2.
      rewrite Z.max_r in Hs2 by lia. destruct (zlen raw - n =? 0) eqn:E0; zbool; [lia|]. destruct (zlen raw =? 0) eqn:E1; zbool; [lia|]. cbn [Z.b2z] in *. lia.
Qed.

(** ** Any block *)

Lemma toks_good out t : toks_ok out t -> Forall good_token t.
Proof. revert out. induction t as [|x t IH]; intros out H; [constructor|]. destruct H as [Hx H]. constructor; [by eapply tok_ok_good|by eapply IH]. Qed.

Lemma items_range acc l : items_ok acc l -> Forall (fun x => 0 <= x.1 < 19) l.
Proof. revert acc. induction l as [|x l IH]; intros acc H; [constructor|]. destruct H as ([Hx _] & _ & H). constructor; [lia|by eapply IH]. Qed.

Lemma length_rle todo lens : (length lens <= todo)%nat -> Forall (fun x => 0 <= x <= 15) lens -> zlen (rle_lens todo lens) <= zlen lens.
Proof.
  intros Ht Hf. destruct (rle_lens_ok todo lens [] Ht Hf) as [Hok He]. rewrite app_nil_l in He. assert (Hz : zlen lens = zlen (foldl add_item [] (rle_lens todo lens))) by (by rewrite He). rewrite Hz. clear He Hz. revert Hok.
  set (items := rle_lens todo lens). clearbody items.
  enough (forall acc, items_ok acc items -> zlen acc + zlen items <= zlen (foldl add_item acc items)) as H by (intros Hok; specialize (H [] Hok); rewrite zlen_nil in H; lia).
  induction items as [|x l IH]; intros acc Hok; cbn [foldl]; [rewrite zlen_nil; lia|]. destruct Hok as (Hx & _ & Hok).
  pose proof (add_item_longer acc x Hx). specialize (IH _ Hok). rewrite zlen_cons. lia.
Qed.

Lemma shallow_286 : shallow 286 15.
Proof. reflexivity. Qed.
Lemma shallow_30 : shallow 30 15.
Proof. reflexivity. Qed.
Lemma shallow_19 : shallow 19 7.
Proof. reflexivity. Qed.

(** the writer finds codes for its tokens *)
Lemma block_codes t : Forall good_token t -> zlen t < 2 ^ 31 ->
  let '(lf, df) := count_tokens t (replicate 286 0) (replicate 30 0) in
  exists ll dl cl, huff_lengths ROUNDS (aset lf 256 1) 15 = Some ll /\ huff_lengths ROUNDS df 15 = Some dl /\
    let hlit := trim 286 257 (aget ll) 286 in
    let hdist := trim 30 1 (aget dl) 30 in
    let lens := take (Z.to_nat hlit) ll ++ take (Z.to_nat hdist) dl in
    let rle := rle_lens (length lens) lens in
    huff_lengths ROUNDS (foldl bump (replicate 19 0) (map fst rle)) 7 = Some cl /\
    codes_ok (Codes ll dl cl hlit hdist (trim 19 4 (fun i => aget cl (aget CLORDER i)) 19) rle) t.
Proof.
  intros Hg Ht. pose proof (freqs_ok t Hg Ht) as Hf. destruct (count_tokens _ _ _) as [lf df]. destruct Hf as (Hl1 & Hl2 & Hf1 & Hf2).
  destruct (dist_syms_range t Hg) as [Hd1 Hd2].
  destruct (lengths_for (aset lf 256 1) (256 :: map lit_sym t) 286 15) as (ll & Ell & Lok & Ll & Lr & Lu & Lk); [done|lia|done| |lia|exact shallow_286| |].
  { rewrite zlen_cons. unfold zlen in *. rewrite length_map. lia. }
  { constructor; [lia|]. apply Forall_map. eapply Forall_impl; [exact Hg|]. intros x Hx. cbn beta. apply (good_syms x Hx). }
  destruct (lengths_for df (dist_syms t) 30 15) as (dl & Edl & Dok & Dl & Dr & Du & Dk); [done|lia|done|lia|lia|exact shallow_30|done|].
  exists ll, dl. destruct (trim_ok 286 257 (aget ll) 286 ltac:(lia)) as [Hh1 Hz1]. destruct (trim_ok 30 1 (aget dl) 30 ltac:(lia)) as [Hh2 Hz2].
  cbv zeta in *. set (hlit := trim 286 257 (aget ll) 286) in *. set (hdist := trim 30 1 (aget dl) 30) in *. clearbody hlit hdist.
  set (lens := take (Z.to_nat hlit) ll ++ take (Z.to_nat hdist) dl) in *.
  assert (Hlens : Forall (fun x => 0 <= x <= 15) lens) by (apply Forall_app; split; by apply Forall_take).
  assert (Hllen : zlen lens = hlit + hdist) by (unfold lens; rewrite zlen_app, !zlen_take; lia).
  destruct (rle_lens_ok (length lens) lens [] ltac:(lia) Hlens) as [Hrle Hexp]. pose proof (length_rle (length lens) lens ltac:(lia) Hlens) as Hrl.
  set (rle := rle_lens (length lens) lens) in *. clearbody rle.
  assert (Hmap : zlen (map fst rle) = zlen rle) by (unfold zlen; by rewrite length_map).
  assert (Hrange : Forall (fun s => 0 <= s < 19) (map fst rle)) by (apply Forall_map, (items_range [] rle Hrle)).
  destruct (hist_zero 19 (map fst rle)) as [Hc1 Hc2]; [exact Hrange|lia|]. change (Z.of_nat 19) with 19 in *.
  destruct (lengths_for (foldl bump (replicate 19 0) (map fst rle)) (map fst rle) 19 7) as (cl & Ecl & Cok & Cl & Cr & Cu & Ck); [done|lia|done|lia|lia|exact shallow_19|done|].
  exists cl. split; [done|]. split; [done|]. split; [done|].
  destruct (trim_ok 19 4 (fun i => aget cl (aget CLORDER i)) 19 ltac:(lia)) as [Hh3 Hz3]. cbv zeta in *.
  set (hclen := trim 19 4 (fun i => aget cl (aget CLORDER i)) 19) in *. clearbody hclen.
  apply Forall_cons in Lu as [Lu256 Lu]. apply (Forall_map lit_sym (fun s => 0 < aget ll s) t) in Lu.
  split; cbn [c_ll c_dl c_cl c_hlit c_hdist c_hclen c_rle].
  - split; [done|]. split; [done|]. destruct Lk as [|[? _]]; done.
  - split; [exact Lu|done].
  - split; [done|]. split; [done|]. destruct Dk as [|[_ ?]]; auto.
  - apply Forall_forall. intros x Hx Hn. rewrite Forall_forall in Du. apply Du. by apply dist_syms_in.
  - split; [lia|done].
  - split; [lia|done].
  - split; [done|]. split; [done|]. split; [|done]. destruct Ck as [|[Hnil _]]; [done|]. exfalso.
    destruct rle; [|done]. cbn in Hexp. rewrite <- Hexp in Hllen. rewrite zlen_nil in Hllen. lia.
  - split; [lia|done].
  - by split.
  - exact (proj1 (Forall_map fst (fun s => 0 < aget cl s) rle) Cu).
Qed.

(** A block of good tokens is written, is read back as the bytes they stand
    for, and is no longer than storing those. *)
Lemma write_block_ok grow t raw final w before : toks_ok before t -> foldl expand before t = before ++ raw -> bytes raw ->
  zlen t < 2 ^ 31 -> wok w ->
  exists w' bs, write_block grow t raw final w = Some w' /\ emits grow w bs w' /\
    reads final (nbits w) bs before (before ++ raw) /\ zlen bs <= stored_bits (zlen raw).
Proof.
  intros Hok Hexp Hb Ht Hw. pose proof (toks_good _ _ Hok) as Hg. unfold write_block.
  pose proof (freqs_ok t Hg Ht) as Hf. pose proof (block_codes t Hg Ht) as Hc. destruct (count_tokens _ _ _) as [lf df].
  destruct Hf as (_ & _ & Hf1 & Hf2). destruct Hc as (ll & dl & cl & -> & Edl & Hc). cbv zeta in Hc. destruct Hc as [Ecl Hk].
  cbn [mbind option_bind]. rewrite Edl. cbn [mbind option_bind]. cbv zeta. rewrite Ecl. cbn [mbind option_bind].
  match type of Hk with codes_ok ?c _ => set (k := c) in * end.
  pose proof (dyn_size k t Hk Hg _ _ Hf1 Hf2) as Hsize. cbn [c_ll c_dl c_cl c_rle c_hclen k] in Hsize. rewrite <- Hsize.
  destruct (stored_bits (zlen raw) <=? 3 + zlen (dyn_bits k t)) eqn:E; zbool.
  - destruct (stored_ok grow (S (length raw)) w raw final before Hb ltac:(lia) Hw) as (bs & He & Hr & Hs).
    exists (stored_blocks grow (S (length raw)) w raw final), bs. split; [done|]. split; [done|]. split; [done|].
    change (stored_bits (zlen raw)) with (zlen raw * 8 + pieces (zlen raw) * 40 + 8). lia.
  - pose proof (emits_dynamic k t Hk Hg grow final w) as He. cbv zeta in He. cbn [c_ll c_dl c_cl c_rle c_hclen c_hlit c_hdist k] in He.
    eexists _, (bits_of 1 (Z.b2z final) ++ bits_of 2 2 ++ dyn_bits k t). split; [reflexivity|]. split; [exact He|].
    assert (Hl : zlen (bits_of 1 (Z.b2z final) ++ bits_of 2 2 ++ dyn_bits k t) = 3 + zlen (dyn_bits k t)).
    { rewrite !zlen_app. change (zlen (bits_of 1 (Z.b2z final))) with 1. change (zlen (bits_of 2 2)) with 2. lia. }
    split; [|lia]. apply reads_one; [pose proof (zlen_nonneg (dyn_bits k t)); lia|]. intros s _. unfold block. rewrite <- !app_assoc.
    rewrite (take_bits_of 1) by (destruct final; cbn; lia). cbn [mbind option_bind].
    rewrite (take_bits_of 2) by (cbn; lia). cbn [mbind option_bind].
    change (2 =? 0) with false. change (2 =? 1) with false. change (2 =? 2) with true. cbv iota.
    rewrite (dynamic_read k t Hk Hg) by done. cbn [mbind option_bind]. rewrite Hexp. by destruct final.
Qed.
