(* ===== verification/DeflateProps.v ===== *)
(** * Compressing and decompressing (kernel/deflate.c: deflate_compress)

    What the compressor gives is a DEFLATE stream of its input, whatever the
    hash tables held, and never much longer than it; it gives none only where
    memory ran out. *)

From S2P Require Import Prelude Wire Crc Inflate Deflate DeflateBits HuffTree DeflateLz DeflateBlock.

Section Compress.
Variables (input : list Z) (grow : Z -> bool).
Hypothesis Hbytes : bytes input.
Hypothesis Hlen : zlen input <= 2 ^ 30.

(** the last block was marked as such *)
Definition ended (z : lz_t) : bool := (0 <? block_start z) && (block_start z =? zlen input).

(** what was written so far is read as what was compressed so far, at most
    48 bits longer for each 32766 bytes *)
Definition so_far (z : lz_t) : Prop :=
  lz_ok input z /\ wok (out z) /\ exists bs, emits grow bw_zero bs (out z) /\
    reads (ended z) 0 bs [] (take (Z.to_nat (block_start z)) input) /\
    32766 * (zlen bs - 8 * block_start z) <= 48 * block_start z.

Lemma pieces_bound raw : 0 <= raw -> 32766 * (40 * pieces raw + 8) <= 48 * raw + 32766 * 48 /\
  (32766 <= raw -> 32766 * (40 * pieces raw + 8) <= 48 * raw).
Proof.
  intros H. unfold pieces. pose proof (Z.div_mod (raw + 65534) 65535 ltac:(lia)) as Hd. pose proof (Z.mod_pos_bound (raw + 65534) 65535 ltac:(lia)) as Hm.
  set (q := (raw + 65534) / 65535) in *. set (r := (raw + 65534) mod 65535) in *. clearbody q r.
  assert (q = 0 \/ q = 1 \/ 2 <= q) as [Hq|[Hq|Hq]] by lia; destruct (raw =? 0) eqn:E; zbool; cbn [Z.b2z]; subst; split; intros; lia.
Qed.

Lemma slice_split a b : 0 <= a <= b -> take (Z.to_nat b) input = take (Z.to_nat a) input ++ slice input a b.
Proof.
  intros H. unfold slice. rewrite <- (take_drop (Z.to_nat a) (take (Z.to_nat b) input)), take_take, skipn_firstn_comm. f_equal; f_equal; lia.
Qed.

(** ending a block, unless the last one was *)
Lemma end_block_ok z (final : bool) : so_far z -> ended z = false -> zlen (toks z) <= 2 ^ 16 ->
  exists z' bs, end_block input grow final z = Some z' /\
    z' = z <| out := out z' |> <| block_start := pos z |> <| toks := [] |> /\ wok (out z') /\
    emits grow bw_zero bs (out z') /\ reads final 0 bs [] (take (Z.to_nat (pos z)) input) /\
    32766 * (zlen bs - 8 * pos z) <= 48 * block_start z + 32766 * (40 * pieces (pos z - block_start z) + 8).
Proof.
  intros (Hz & Hw & bs & He & Hr & Hs) Hend Ht. rewrite Hend in Hr. pose proof Hz as [H1 H2 H3 H4].
  set (raw := slice input (block_start z) (pos z)).
  assert (Hraw : zlen raw = pos z - block_start z) by (apply zlen_slice; lia).
  destruct (write_block_ok grow (toks z) raw final (out z) (take (Z.to_nat (block_start z)) input)) as (w' & bs' & Ew & He' & Hr' & Hs');
    [done|rewrite H3; apply slice_split; lia|by apply bytes_slice|lia|done|].
  destruct (He' Hw) as (Hw' & _). destruct (He wok_zero) as (_ & Hn & _).
  exists (z <| out := w' |> <| block_start := pos z |> <| toks := [] |>), (bs ++ bs'). unfold end_block. fold raw. rewrite Ew. cbn [mbind option_bind].
  split; [done|]. split; [done|]. split; [done|]. split; [by eapply emits_app|]. split.
  - unfold raw in Hr'. rewrite <- slice_split in Hr' by lia. eapply reads_app; [exact Hr|]. cbn [nbits bw_zero] in Hn. by rewrite <- Hn.
  - rewrite zlen_app. rewrite Hraw in Hs'. change (stored_bits (pos z - block_start z)) with ((pos z - block_start z) * 8 + pieces (pos z - block_start z) * 40 + 8) in Hs'. lia.
Qed.

Lemma compress_ok todo z : so_far z -> zlen (toks z) < BLOCK_TOKENS - 2 -> zlen input - pos z <= Z.of_nat todo ->
  exists z', compress input grow todo z = Some z' /\ so_far z' /\ pos z' = zlen input /\ zlen (toks z') < BLOCK_TOKENS - 2.
Proof.
  revert z. induction todo as [|todo IH]; intros z Hz Ht Hf; cbn [compress]; pose proof (lo_pos _ _ (proj1 Hz)) as Hp.
  { rewrite (proj2 (Z.leb_le _ _)) by lia. exists z. split; [done|]. split; [done|]. lia. }
  destruct (zlen input <=? pos z) eqn:E; zbool; [exists z; split; [done|]; split; [done|]; lia|].
  destruct Hz as (Hlz & Hw & bs & He & Hr & Hs). destruct (next_token_ok input Hbytes z Hlz E) as (Hlz' & Hpos & Hb & Ho & Hc).
  set (z1 := next_token input z) in *. unfold BLOCK_TOKENS in *.
  assert (Hend : ended z1 = false).
  { unfold ended. rewrite Hb. apply andb_false_iff. right. apply Z.eqb_neq. lia. }
  assert (Hz1 : so_far z1).
  { split; [done|]. rewrite Ho. split; [done|]. exists bs. rewrite Hb. split; [done|]. split; [|done].
    unfold ended in *. by rewrite Hb in *. }
  destruct (32768 - 2 <=? zlen (toks z1)) eqn:Eb; zbool.
  - destruct (end_block_ok z1 (zlen input <=? pos z1) Hz1 Hend ltac:(lia)) as (z2 & bs2 & -> & Ez2 & Hw2 & He2 & Hr2 & Hs2). cbn [mbind option_bind].
    pose proof Hlz' as [L1 L2 L3 L4]. destruct (pieces_bound (pos z1 - block_start z1) ltac:(lia)) as [_ Hpb].
    assert (Hpos2 : pos z2 = pos z1 /\ block_start z2 = pos z1 /\ toks z2 = []) by (rewrite Ez2; done). destruct Hpos2 as (P1 & P2 & P3).
    apply IH; [|rewrite P3; done|lia]. split; [|split; [done|exists bs2; split; [done|]]].
    + split; rewrite ?P1, ?P2, ?P3; [lia|done|done|rewrite zlen_nil; lia].
    + rewrite P2. split; [|lia]. replace (ended z2) with (zlen input <=? pos z1); [done|]. unfold ended. rewrite P2.
      rewrite (proj2 (Z.ltb_lt 0 (pos z1))) by lia. cbn [andb]. apply eq_true_iff_eq. rewrite Z.leb_le, Z.eqb_eq. lia.
  - apply IH; [done|lia|lia].
Qed.

(** the whole: the bits written, and what they are *)
Lemma compressed mem prev0 : exists r, deflate_compress input grow mem prev0 = Some r /\
  match r with
  | None => mem = false \/ refused grow
  | Some p => exists bs rest, stream p = bs ++ rest /\ zlen rest < 8 /\ reads true 0 bs [] input /\
      32766 * (zlen bs - 8 * zlen input) <= 48 * zlen input + 32766 * 48
  end.
Proof.
  unfold deflate_compress. destruct mem; cbn [negb]; [|exists None; split; [done|by left]].
  set (z0 := Lz 0 0 [] _ bw_zero).
  assert (Hz0 : so_far z0).
  { split; [split; cbn; [pose proof (zlen_nonneg input); lia|done|done|done]|]. split; [apply wok_zero|]. exists []. split; [apply emits_nil|].
    split; [|subst z0; change (32766 * (0 - 8 * 0) <= 48 * 0); lia]. exists 0%nat. split; [done|]. done. }
  destruct (compress_ok (length input) z0 Hz0 eq_refl ltac:(cbn; unfold zlen; lia)) as (z & -> & Hz & Hp & Ht). cbn [mbind option_bind].
  pose proof (lo_pos _ _ (proj1 Hz)) as Hbs. pose proof (lo_count _ _ (proj1 Hz)) as Hcount.
  assert (Hfin : exists z' bs, (if negb (zlen (toks z) =? 0) || (zlen input =? 0) || (block_start z <? zlen input) then end_block input grow true z else Some z) = Some z' /\
    wok (out z') /\ emits grow bw_zero bs (out z') /\ reads true 0 bs [] input /\
    32766 * (zlen bs - 8 * zlen input) <= 48 * zlen input + 32766 * 48).
  { assert (Hall : take (Z.to_nat (zlen input)) input = input) by (apply take_ge; unfold zlen; lia).
    destruct (_ || _) eqn:E.
    - destruct (end_block_ok z true Hz) as (z' & bs & -> & _ & Hw' & He' & Hr' & Hs').
      { unfold ended. apply andb_false_iff. zbool. destruct E as [E|E]; zbool; [|right; apply Z.eqb_neq; lia].
        destruct E as [E|E]; zbool; [|left; apply Z.ltb_ge; lia]. right. apply Z.eqb_neq. pose proof (zlen_nonneg (toks z)). lia. }
      { unfold BLOCK_TOKENS in Ht. lia. }
      exists z', bs. rewrite Hp, Hall in *. split; [done|]. split; [done|]. split; [done|]. split; [done|].
      destruct (pieces_bound (zlen input - block_start z) ltac:(lia)) as [Hpb _]. lia.
    - zbool. destruct Hz as (Hlz & Hw & bs & He & Hr & Hs). exists z, bs. assert (Eb : block_start z = zlen input) by lia.
      assert (Ez : ended z = true) by (unfold ended; rewrite Eb, Z.eqb_refl, andb_true_r; apply Z.ltb_lt; pose proof (zlen_nonneg input); lia).
      rewrite Ez, Eb, Hall in *. split; [done|]. split; [done|]. split; [done|]. split; [done|]. lia. }
  destruct Hfin as (z' & bs & -> & Hw & He & Hr & Hs). cbn [mbind option_bind]. clear Hz Hp Ht Hbs Hcount z z0 Hz0.
  destruct (emits_align grow (out z') Hw) as [Hea Hn]. set (w := bw_align grow (out z')) in *.
  set (pad := replicate _ false) in *. assert (Hpad : zlen pad < 8) by (unfold pad; rewrite zlen_rep; lia).
  pose proof (emits_app grow _ _ _ _ _ He Hea wok_zero) as (Hww & Hmod & Hadd1 & Hadd2).
  destruct (oom w) eqn:Eo.
  { exists None. split; [done|]. right. apply Hadd2; [done|done|]. change (zlen (written bw_zero)) with 0. rewrite zlen_app. lia. }
  destruct (Hadd1 eq_refl) as [_ Hwr]. unfold written in Hwr at 1. rewrite Hn in Hwr. cbn [Z.to_nat bits_of] in Hwr. rewrite app_nil_r in Hwr.
  change (written bw_zero ++ bs ++ pad) with (bs ++ pad) in Hwr.
  assert (Hne : bs <> []).
  { intros ->. destruct Hr as (n & Hn0 & Hr). destruct n; [|cbn in Hn0; lia]. specialize (Hr 0%nat [] eq_refl). done. }
  assert (Hcap : (cap w =? 0) = false).
  { apply Z.eqb_neq. intros Hc. pose proof (co_len _ (wk_caps _ Hww)) as Hl. pose proof (zlen_stream (buf w)) as Hzs. rewrite Hwr, zlen_app in Hzs.
    destruct bs; [done|]. rewrite zlen_cons in Hzs. pose proof (zlen_nonneg bs). pose proof (zlen_nonneg pad). lia. }
  rewrite Hcap. cbn [andb]. exists (Some (buf w)). split; [done|]. by exists bs, pad.
Qed.
End Compress.

(** C3: whatever the input, the memory and the first contents of the hash
    chains, compressing ends and gives either a DEFLATE stream (RFC 1951)
    that decompresses to exactly the input, with less than a byte of padding
    after its last block, or NULL, and that only where an allocation was
    refused. *)
Theorem deflate_inflate input grow mem prev0 : bytes input -> zlen input <= 2 ^ 30 ->
  exists r, deflate_compress input grow mem prev0 = Some r /\
    match r with
    | None => mem = false \/ refused grow
    | Some p => exists rest, inflate p = Some (input, rest) /\ zlen rest < 8
    end.
Proof.
  intros Hb Hl. destruct (compressed input grow Hb Hl mem prev0) as (r & -> & Hr). exists r. split; [done|]. destruct r as [p|]; [|done].
  destruct Hr as (bs & rest & Es & Hrest & (n & Hn & Hread) & _). exists rest. split; [|done]. unfold inflate. rewrite Es.
  replace (length (bs ++ rest)) with (n + (length (bs ++ rest) - n))%nat by (rewrite length_app; lia).
  apply Hread. rewrite Z.add_0_l, <- zlen_app, <- Es, zlen_stream. lia.
Qed.

(** C36: the compressed data is never more than the input and 7 bytes and
    one for each 5461 of the input. *)
Theorem deflate_bound input grow mem prev0 p : bytes input -> zlen input <= 2 ^ 30 ->
  deflate_compress input grow mem prev0 = Some (Some p) -> zlen p <= zlen input + zlen input / 5461 + 7.
Proof.
  intros Hb Hl Hp. destruct (compressed input grow Hb Hl mem prev0) as (r & Er & Hr). rewrite Er in Hp. injection Hp as ->.
  destruct Hr as (bs & rest & Es & Hrest & _ & Hs). pose proof (zlen_stream p) as Hz. rewrite Es, zlen_app in Hz. pose proof (zlen_nonneg input). lia.
Qed.

(** thirty bytes that repeat, in memory that is never short *)
Definition six : list Z := [104; 101; 108; 108; 111; 32].
Definition thirty : list Z := six ++ six ++ six ++ six ++ six.

Lemma deflate_inflate_witness : exists r, deflate_compress thirty (fun _ => true) true [] = Some r /\
  match r with
  | None => true = false \/ refused (fun _ => true)
  | Some p => exists rest, inflate p = Some (thirty, rest) /\ zlen rest < 8
  end.
Proof. apply (deflate_inflate thirty (fun _ => true) true []); [apply bytes_small; vm_compute; reflexivity|vm_compute; discriminate]. Defined.

Lemma deflate_bound_witness : exists p, deflate_compress thirty (fun _ => true) true [] = Some (Some p) /\
  zlen p <= zlen thirty + zlen thirty / 5461 + 7 /\ zlen p = 23.
Proof.
  destruct (deflate_compress thirty (fun _ => true) true []) as [[p|]|] eqn:E; [|vm_compute in E; discriminate|vm_compute in E; discriminate].
  exists p. split; [reflexivity|]. split.
  - apply (deflate_bound thirty (fun _ => true) true [] p); [apply bytes_small; vm_compute; reflexivity|vm_compute; discriminate|exact E].
  - vm_compute in E. injection E as <-. reflexivity.
Defined.
