(* ===== verification/Tcp.v ===== *)
(** TCP (src/net/tcp.c): one connection.

    The fields of tcp_conn are grouped as its comments group them: the send
    side [snd_t], congestion control and the SACK scoreboard [cong_t], the
    options [opt_t], the receive side [rcv_t], the timers [tmr_t], the
    acknowledgement that waits [ack_t]. A function that takes a tcp_conn takes
    the group it uses, or the connection, and returns it changed.

    What it uses of the rest of the kernel is [world_t]: the clock, which
    stands still while one call runs; what the next kmallocs give (a block
    has some contents, or is refused); random numbers; our address; and what
    was handed to ip_send and ipv6_send, oldest first. *)

From S2P Require Import Prelude Wire Ip.

(** ** Constants *)

Definition TCP_MAX_CONN : Z := 64.
Definition TCP_MAX_LISTEN : Z := 16.
Definition TCP_BACKLOG : Z := 8.
Definition TCP6_MSS : Z := 1220.
Definition TCP_MSS : Z := 1460.
Definition RBUF_SIZE : Z := 524288.
Definition RBUF_SMALL : Z := 65536.
Definition RCV_WSCALE : Z := 4.
Definition SBUF_SIZE : Z := 262144.
Definition SBUF_SMALL : Z := 32768.
Definition OOO_MAX : Z := 256.
Definition SB_MAX : Z := 8.
Definition MAX_OPT : Z := 40.
Definition RTO_INIT : Z := 1000.
Definition RTO_MIN : Z := 200.
Definition RTO_MAX : Z := 60000.
Definition MAX_RETRIES : Z := 10.
Definition SYN_RETRIES : Z := 6.
Definition TIME_WAIT_MS : Z := 2000.

Definition F_FIN : Z := 0x01.
Definition F_SYN : Z := 0x02.
Definition F_RST : Z := 0x04.
Definition F_PSH : Z := 0x08.
Definition F_ACK : Z := 0x10.
Definition has (flags f : Z) : bool := negb (Z.land flags f =? 0).

(** ** Sequence numbers *)

Definition SEQ_LT (a b : Z) : bool := s32 (a - b) <? 0.
Definition SEQ_LEQ (a b : Z) : bool := s32 (a - b) <=? 0.
Definition SEQ_GT (a b : Z) : bool := 0 <? s32 (a - b).
Definition SEQ_GEQ (a b : Z) : bool := 0 <=? s32 (a - b).

Definition min_u32 (a b : Z) : Z := if a <? b then a else b.

(** ** The state of a connection *)

Inductive tcp_state_t :=
  | TCP_CLOSED | TCP_SYN_SENT | TCP_ESTABLISHED | TCP_FIN_WAIT1 | TCP_FIN_WAIT2
  | TCP_CLOSE_WAIT | TCP_CLOSING | TCP_LAST_ACK | TCP_TIME_WAIT | TCP_SYN_RCVD.
#[export] Instance tcp_state_eq_dec : EqDecision tcp_state_t.
Proof. solve_decision. Defined.
Definition in_state (s t : tcp_state_t) : bool := bool_decide (s = t).

(** an out-of-order segment; its length is that of its data *)
Record ooo_seg_t := OooSeg { o_seq : Z; o_data : list Z; o_fin : bool }.

(** the send side; [sbuf] has [sb_size] bytes, those from [sb_off] on are not
    acknowledged *)
Record snd_t := Snd {
  iss : Z; snd_una : Z; snd_nxt : Z; snd_max : Z; snd_wnd : Z; snd_wl1 : Z; snd_wl2 : Z;
  sbuf : list Z; sb_size : Z; sb_off : Z; sb_len : Z;
  fin_pending : bool; fin_sent : bool; fin_seq : Z;
}.
#[export] Instance snd_eta : Eta snd_t := fun s =>
  Snd (iss s) (snd_una s) (snd_nxt s) (snd_max s) (snd_wnd s) (snd_wl1 s) (snd_wl2 s)
      (sbuf s) (sb_size s) (sb_off s) (sb_len s) (fin_pending s) (fin_sent s) (fin_seq s).

(** [sb]: sb_s and sb_e as far as they are in use ([nsb] pairs) *)
Record cong_t := Cong {
  peer_mss : Z; cwnd : Z; ssthresh : Z;
  sb : list (Z * Z); in_rec : bool; recover : Z; rexmit_next : Z; dupacks : Z;
}.
#[export] Instance cong_eta : Eta cong_t := fun g =>
  Cong (peer_mss g) (cwnd g) (ssthresh g) (sb g) (in_rec g) (recover g) (rexmit_next g) (dupacks g).

(** [peer_ws]: None where the peer offered no window scale (-1) *)
Record opt_t := Opt { peer_ws : option Z; peer_sack : bool; ws_ok : bool; sack_ok : bool; snd_ws : Z; rcv_ws : Z }.
#[export] Instance opt_eta : Eta opt_t := fun o =>
  Opt (peer_ws o) (peer_sack o) (ws_ok o) (sack_ok o) (snd_ws o) (rcv_ws o).

Record rcv_t := Rcv {
  irs : Z; rcv_nxt : Z; rbuf : list Z; rb_size : Z; rb_head : Z; rb_len : Z;
  ooo : list ooo_seg_t; ooo_count : Z; last_ooo : Z; fin_rcvd : bool;
}.
#[export] Instance rcv_eta : Eta rcv_t := fun r =>
  Rcv (irs r) (rcv_nxt r) (rbuf r) (rb_size r) (rb_head r) (rb_len r) (ooo r) (ooo_count r) (last_ooo r) (fin_rcvd r).

Record tmr_t := Tmr {
  timer_on : bool; rto : Z; rto_deadline : Z; retries : Z; srtt : Z; rttvar : Z;
  have_rtt : bool; rtt_timing : bool; rtt_seq : Z; rtt_start : Z; tw_deadline : Z;
}.
#[export] Instance tmr_eta : Eta tmr_t := fun t =>
  Tmr (timer_on t) (rto t) (rto_deadline t) (retries t) (srtt t) (rttvar t)
      (have_rtt t) (rtt_timing t) (rtt_seq t) (rtt_start t) (tw_deadline t).

Record ack_t := Ack { ack_pending : bool; unacked_segs : Z; last_adv_wnd : Z }.
#[export] Instance ack_eta : Eta ack_t := fun a => Ack (ack_pending a) (unacked_segs a) (last_adv_wnd a).

(** [ip6s]: lip6 and rip6, of an IPv6 connection; [listener]: the slot of g_listeners *)
Record tcp_conn_t := Conn {
  used : bool; state : tcp_state_t; rip : Z; ip6s : option (list Z * list Z); lport : Z; rport : Z;
  snd : snd_t; cong : cong_t; opt : opt_t; rcv : rcv_t; tmr : tmr_t; ack : ack_t;
  user_closed : bool; err : Z; listener : option Z;
}.
#[export] Instance conn_eta : Eta tcp_conn_t := fun c =>
  Conn (used c) (state c) (rip c) (ip6s c) (lport c) (rport c) (snd c) (cong c) (opt c) (rcv c) (tmr c) (ack c)
       (user_closed c) (err c) (listener c).

(** memset(c, 0, sizeof( *c)) *)
Definition conn_zero : tcp_conn_t :=
  Conn false TCP_CLOSED 0 None 0 0
    (Snd 0 0 0 0 0 0 0 [] 0 0 0 false false 0) (Cong 0 0 0 [] false 0 0 0) (Opt (Some 0) false false false 0 0)
    (Rcv 0 0 [] 0 0 0 [] 0 0 false) (Tmr false 0 0 0 0 0 false false 0 0 0) (Ack false 0 0) false 0 None.
#[export] Instance conn_inhabited : Inhabited tcp_conn_t := populate conn_zero.

Record tcp_stats_t := Stats { fast_rexmit : Z; sack_rexmit : Z; rto_rexmit : Z; sack_acks : Z; test_dropped : Z }.
#[export] Instance stats_eta : Eta tcp_stats_t := fun s =>
  Stats (fast_rexmit s) (sack_rexmit s) (rto_rexmit s) (sack_acks s) (test_dropped s).

(** a segment on its way to [dst], from [src] where it is IPv6 *)
Record out_t := Out { o_src6 : option (list Z); o_dst4 : Z; o_dst6 : list Z; o_seg : list Z }.

Record world_t := World {
  clock : Z; chunks : list (option (list Z)); draws : list Z; our_ip : Z; ip6_on : bool; sent : list out_t;
  g_stats : tcp_stats_t; g_loss_every : Z; g_loss_n : Z;
}.
#[export] Instance world_eta : Eta world_t := fun w =>
  World (clock w) (chunks w) (draws w) (our_ip w) (ip6_on w) (sent w) (g_stats w) (g_loss_every w) (g_loss_n w).

Definition timer_ms : ST world_t Z := gets clock.

(** a block of [n] bytes, or NULL *)
Definition kmalloc (n : Z) : ST world_t (option (list Z)) := fun w =>
  match chunks w with
  | [] => Some (Some (replicate (Z.to_nat n) 0), w)
  | b :: l => Some (option_map (resize (Z.to_nat n) 0) b, w <| chunks := l |>)
  end.

Definition count (f : tcp_stats_t -> tcp_stats_t) : ST world_t unit := modify (fun w => w <| g_stats ::= f |>).

(** the bytes [i .. i + n) of a buffer *)
Definition bytes_in (l : list Z) (i n : Z) : ST world_t (list Z) :=
  of_option (if (0 <=? i) && (0 <=? n) && (i + n <=? zlen l) then Some (slice l i (i + n)) else None).

(** memcpy into a buffer at [i] *)
Definition put_in (l : list Z) (i : Z) (d : list Z) : ST world_t (list Z) :=
  of_option (if (0 <=? i) && (i + zlen d <=? zlen l) then Some (take (Z.to_nat i) l ++ d ++ drop (Z.to_nat (i + zlen d)) l) else None).

(** the room in the ring, as far as the window field can say it *)
Definition adv_window (c : tcp_conn_t) : Z :=
  let ws := rcv_ws (opt c) in
  let w := min_u32 (u32 (rb_size (rcv c) - rb_len (rcv c))) (u32 (Z.shiftl 65535 ws)) in
  Z.land w (u32 (Z.lnot (u32 (Z.shiftl 1 ws - 1)))).

(** ** Sending segments *)

(** ipv6.c: the checksum over the pseudo-header of IPv6 *)
Definition ip6_checksum (src dst : list Z) (proto : Z) (msg : list Z) : Z :=
  net_csum_fold (net_csum_add (net_csum_add 0 (src ++ dst ++ be32 (u32 (zlen msg)) ++ [0; 0; 0; proto])) msg).

Definition ip4_checksum (src dst : Z) (msg : list Z) : Z :=
  net_csum_fold (net_csum_add (net_csum_add 0 (be32 src ++ be32 dst ++ [0; IP_PROTO_TCP] ++ be16 (u16 (zlen msg)))) msg).

Definition segment (sport dport seq ackno flags wnd : Z) (opts data : list Z) : list Z :=
  be16 sport ++ be16 dport ++ be32 seq ++ be32 ackno ++
  [u8 (Z.shiftl ((20 + zlen opts) / 4) 4); flags] ++ be16 wnd ++ be16 0 ++ be16 0 ++ opts ++ data.

(** the segment with its checksum, as it goes to ipv6_send or ip_send; to
    127.x it comes from there, as ip_send has it *)
Definition packet (ip dst : Z) (ip6 : option (list Z * list Z)) (sport dport seq ackno flags wnd : Z) (data opts : list Z) : out_t :=
  let seg := segment sport dport seq ackno flags wnd opts data in
  match ip6 with
  | Some (src6, dst6) => Out (Some src6) 0 dst6 (wr16 seg 16 (ip6_checksum src6 dst6 IP_PROTO_TCP seg))
  | None =>
    let src := if Z.shiftr dst 24 =? 127 then dst else ip in
    Out None dst [] (wr16 seg 16 (ip4_checksum src dst seg))
  end.

Definition send_raw (dst : Z) (ip6 : option (list Z * list Z)) (sport dport seq ackno flags wnd : Z) (data opts : list Z) : ST world_t unit :=
  (* it is put together in a static buffer *)
  if 20 + MAX_OPT + TCP_MSS <? 20 + zlen opts + zlen data then fault else
  modify (fun w => w <| sent ::= fun l => l ++ [packet (our_ip w) dst ip6 sport dport seq ackno flags wnd data opts] |>).

(** a range of the out-of-order list that starts with [rs, re), and what follows it *)
Fixpoint ooo_range (l : list ooo_seg_t) (re : Z) : Z * list ooo_seg_t :=
  match l with
  | [] => (re, [])
  | o :: t =>
    if SEQ_LEQ (o_seq o) re then
      let e := u32 (o_seq o + zlen (o_data o)) in
      ooo_range t (if SEQ_GT e re then e else re)
    else (re, l)
  end.

(** the ranges; the one with the newest segment apart, at most [max] - 1 others *)
Fixpoint ooo_ranges (todo : nat) (l : list ooo_seg_t) (last : Z) (max : Z) (first : option (Z * Z)) (others : list (Z * Z)) : option (Z * Z) * list (Z * Z) :=
  match todo, l with
  | S todo, o :: t =>
    let rs := o_seq o in
    let '(re, rest) := ooo_range t (u32 (rs + zlen (o_data o))) in
    match first with
    | None =>
      if SEQ_GEQ last rs && SEQ_LT last re then ooo_ranges todo rest last max (Some (rs, re)) others
      else ooo_ranges todo rest last max first (if 1 + zlen others <? max then others ++ [(rs, re)] else others)
    | Some _ => ooo_ranges todo rest last max first (if 1 + zlen others <? max then others ++ [(rs, re)] else others)
    end
  | _, _ => (first, others)
  end.

Definition sack_blocks (r : rcv_t) (max : Z) : list (Z * Z) :=
  let '(first, others) := ooo_ranges (length (ooo r)) (ooo r) (last_ooo r) max None [] in
  match first with Some b => b :: others | None => others end.

(** the options of a SYN *)
Definition syn_options (c : tcp_conn_t) : list Z :=
  let active := in_state (state c) TCP_SYN_SENT in
  [2; 4] ++ be16 (match ip6s c with Some _ => TCP6_MSS | None => TCP_MSS end) ++
  (if active || bool_decide (is_Some (peer_ws (opt c))) then [1; 3; 3; RCV_WSCALE] else []) ++
  (if active || peer_sack (opt c) then [1; 1; 4; 2] else []).

Definition sack_option (l : list (Z * Z)) : list Z :=
  [1; 1; 5; u8 (2 + 8 * zlen l)] ++ concat (map (fun b => be32 b.1 ++ be32 b.2) l).

(** is the segment dropped, as the test asked? *)
Definition test_loss (c : tcp_conn_t) (len : Z) : ST world_t bool := fun w =>
  if negb (g_loss_every w =? 0) && negb (len =? 0) && bool_decide (ip6s c = None) && (Z.shiftr (rip c) 24 =? 127) then
    let n := u32 (g_loss_n w + 1) in
    if n mod g_loss_every w =? 0 then Some (true, w <| g_loss_n := n |> <| g_stats ::= fun s => s <| test_dropped ::= fun k => u32 (k + 1) |> |>)
    else Some (false, w <| g_loss_n := n |>)
  else Some (false, w).

(** the SACK blocks an acknowledgement without data carries *)
Definition seg_blocks (c : tcp_conn_t) (flags len : Z) : list (Z * Z) :=
  if negb (has flags F_SYN) && sack_ok (opt c) && negb (bool_decide (ooo (rcv c) = [])) && (len =? 0) && has flags F_ACK
  then sack_blocks (rcv c) 4 else [].

Definition seg_options (c : tcp_conn_t) (flags : Z) (blocks : list (Z * Z)) : list Z :=
  if has flags F_SYN then syn_options c else if bool_decide (blocks = []) then [] else sack_option blocks.

(** the window, which in a SYN is never scaled *)
Definition seg_window (c : tcp_conn_t) (flags : Z) : Z :=
  if has flags F_SYN then min_u32 (u32 (rb_size (rcv c) - rb_len (rcv c))) 65535 else adv_window c.

(** what sending an ACK does to the connection *)
Definition mark_acked (wnd : Z) (c : tcp_conn_t) : tcp_conn_t :=
  c <| ack ::= fun a => a <| ack_pending := false |> <| unacked_segs := 0 |> <| last_adv_wnd := wnd |> |>.

Definition send_seg (c : tcp_conn_t) (seq flags : Z) (data : list Z) : ST world_t tcp_conn_t :=
  let wnd := seg_window c flags in
  let field := if has flags F_SYN then wnd else Z.shiftr wnd (rcv_ws (opt c)) in
  let blocks := seg_blocks c flags (zlen data) in
  let opts := seg_options c flags blocks in
  (if MAX_OPT <? zlen opts then fault else st_ret tt) ;;;
  when (negb (bool_decide (blocks = []))) (count (fun s => s <| sack_acks ::= fun k => u32 (k + 1) |>)) ;;;
  let! lost := test_loss c (zlen data) in
  (if lost then st_ret tt
   else send_raw (rip c) (ip6s c) (lport c) (rport c) seq (if has flags F_ACK then rcv_nxt (rcv c) else 0) flags (u16 field) data opts) ;;;
  st_ret (if has flags F_ACK then mark_acked wnd c else c).

Definition arm_timer (c : tcp_conn_t) : ST world_t tcp_conn_t :=
  let! now := timer_ms in
  st_ret (c <| tmr ::= fun t => t <| timer_on := true |> <| rto_deadline := u32 (now + rto t) |> |>).

(** if the timer is off *)
Definition arm_if_off (c : tcp_conn_t) : ST world_t tcp_conn_t :=
  if timer_on (tmr c) then st_ret c else arm_timer c.

(** SB(c) + off, [n] bytes *)
Definition SB (s : snd_t) (off n : Z) : ST world_t (list Z) := bytes_in (sbuf s) (sb_off s + off) n.

(** snd_nxt += n; snd_max is at least that *)
Definition advance (n : Z) (s : snd_t) : snd_t :=
  let nxt := u32 (snd_nxt s + n) in
  s <| snd_nxt := nxt |> <| snd_max := if SEQ_GT nxt (snd_max s) then nxt else snd_max s |>.

(** one segment at a time is timed *)
Definition time_segment (seq now : Z) (t : tmr_t) : tmr_t :=
  if rtt_timing t then t else t <| rtt_timing := true |> <| rtt_seq := seq |> <| rtt_start := now |>.

(** a segment of [n] bytes from snd_nxt, [off] bytes into what is not acknowledged *)
Definition output_data (c : tcp_conn_t) (off n : Z) : ST world_t tcp_conn_t :=
  let flags := if u32 (off + n) =? sb_len (snd c) then Z.lor F_ACK F_PSH else F_ACK in
  let! d := SB (snd c) off n in
  let! c := send_seg c (snd_nxt (snd c)) flags d in
  let! now := timer_ms in
  arm_if_off (c <| tmr ::= time_segment (snd_nxt (snd c)) now |> <| snd ::= advance n |>).

(** [for (;;)]; each turn but the last sends something *)
Fixpoint output_loop (todo : nat) (c : tcp_conn_t) : ST world_t tcp_conn_t :=
  match todo with
  | O => fault
  | S todo =>
    let s := snd c in
    let off := u32 (snd_nxt s - snd_una s) in
    if sb_len s <=? off then st_ret c else
    let wnd := min_u32 (snd_wnd s) (cwnd (cong c)) in
    let usable := if off <? wnd then wnd - off else 0 in
    let n := min_u32 (min_u32 (sb_len s - off) usable) (peer_mss (cong c)) in
    if n =? 0 then arm_if_off c else let! c := output_data c off n in output_loop todo c
  end.

Definition output_fin (c : tcp_conn_t) : ST world_t tcp_conn_t :=
  let s := snd c in
  if fin_pending s && negb (fin_sent s) && (u32 (snd_nxt s - snd_una s) =? sb_len s) then
    let c := c <| snd ::= fun s => s <| fin_seq := snd_nxt s |> |> in
    let! c := send_seg c (snd_nxt (snd c)) (Z.lor F_FIN F_ACK) [] in
    let c := c <| snd ::= fun s => advance 1 (s <| fin_sent := true |>) |> in
    let c := match state c with
             | TCP_ESTABLISHED => c <| state := TCP_FIN_WAIT1 |>
             | TCP_CLOSE_WAIT => c <| state := TCP_LAST_ACK |>
             | _ => c
             end in
    arm_if_off c
  else st_ret c.

Definition may_output (s : tcp_state_t) : bool :=
  in_state s TCP_ESTABLISHED || in_state s TCP_CLOSE_WAIT || in_state s TCP_FIN_WAIT1 || in_state s TCP_CLOSING || in_state s TCP_LAST_ACK.

Definition tcp_output (c : tcp_conn_t) : ST world_t tcp_conn_t :=
  if negb (may_output (state c)) then st_ret c else
  let! c := output_loop (S (Z.to_nat (sb_len (snd c)))) c in output_fin c.

(** ** Receiving data *)

(** the bytes taken, and the ring *)
Definition rbuf_put (r : rcv_t) (data : list Z) : ST world_t (rcv_t * Z) :=
  let space := u32 (rb_size r - rb_len r) in
  let len := if space <? zlen data then space else zlen data in
  if rb_size r =? 0 then fault else
  let tail := u32 (rb_head r + rb_len r) mod rb_size r in
  let first := min_u32 len (rb_size r - tail) in
  let! b := put_in (rbuf r) tail (slice data 0 first) in
  let! b := (if first <? len then put_in b 0 (slice data first len) else st_ret b) in
  st_ret (r <| rbuf := b |> <| rb_len := u32 (rb_len r + len) |>, len).

Definition fin_received (c : tcp_conn_t) : ST world_t tcp_conn_t :=
  let! now := timer_ms in
  let c := c <| rcv ::= fun r => r <| rcv_nxt := u32 (rcv_nxt r + 1) |> <| fin_rcvd := true |> |>
             <| ack ::= fun a => a <| ack_pending := true |> <| unacked_segs := 2 |> |> in
  st_ret match state c with
         | TCP_ESTABLISHED => c <| state := TCP_CLOSE_WAIT |>
         | TCP_FIN_WAIT1 => c <| state := TCP_CLOSING |>
         | TCP_FIN_WAIT2 => c <| state := TCP_TIME_WAIT |>
                              <| tmr ::= fun t => t <| tw_deadline := u32 (now + TIME_WAIT_MS) |> <| timer_on := false |> |>
         | _ => c
         end.

Definition deliver (c : tcp_conn_t) (data : list Z) : ST world_t (tcp_conn_t * Z) :=
  let! (r, n) := (if user_closed c then st_ret (rcv c, zlen data) else rbuf_put (rcv c) data) in
  st_ret (c <| rcv := r <| rcv_nxt := u32 (rcv_nxt r + n) |> |>, n).

(** the place in the list, sorted by sequence number: None where the segment is held already *)
Fixpoint ooo_insert (l : list ooo_seg_t) (s : ooo_seg_t) : option (list ooo_seg_t) :=
  match l with
  | [] => Some [s]
  | o :: t =>
    if SEQ_LT (o_seq o) (o_seq s) then t' ← ooo_insert t s; Some (o :: t')
    else if (o_seq o =? o_seq s) && (zlen (o_data s) <=? zlen (o_data o)) then None
    else Some (s :: l)
  end.

Definition ooo_store (c : tcp_conn_t) (seq : Z) (data : list Z) (fin : bool) : ST world_t tcp_conn_t :=
  let r := rcv c in
  if OOO_MAX <=? ooo_count r then st_ret c else
  let c := c <| rcv ::= fun r => r <| last_ooo := seq |> |> in
  if SEQ_GT (u32 (seq + zlen data)) (u32 (rcv_nxt r + adv_window c)) then st_ret c else
  match ooo_insert (ooo r) (OooSeg seq data fin) with
  | None => st_ret c
  | Some l =>
    let! b := kmalloc (24 + zlen data) in
    st_ret (match b with
            | None => c
            | Some _ => c <| rcv ::= fun r => r <| ooo := l |> <| ooo_count ::= fun k => k + 1 |> |>
            end)
  end.

(** [l]: the list still to look at *)
Fixpoint ooo_drain_list (l : list ooo_seg_t) (c : tcp_conn_t) : ST world_t tcp_conn_t :=
  match l with
  | [] => st_ret c
  | s :: t =>
    if SEQ_LEQ (o_seq s) (rcv_nxt (rcv c)) then
      let c := c <| rcv ::= fun r => r <| ooo := t |> <| ooo_count ::= fun k => k - 1 |> |> in
      let e := u32 (o_seq s + zlen (o_data s)) in
      let! c := (if SEQ_GT e (rcv_nxt (rcv c)) then
                   let skip := u32 (rcv_nxt (rcv c) - o_seq s) in
                   let! d := bytes_in (o_data s) skip (zlen (o_data s) - skip) in
                   let! (c, _) := deliver c d in st_ret c
                 else st_ret c) in
      let! c := (if o_fin s && (rcv_nxt (rcv c) =? e) && negb (fin_rcvd (rcv c)) then fin_received c else st_ret c) in
      ooo_drain_list t c
    else st_ret c
  end.
Definition ooo_drain (c : tcp_conn_t) : ST world_t tcp_conn_t := ooo_drain_list (ooo (rcv c)) c.
