(* ===== verification/TcpConn.v ===== *)
(** TCP (src/net/tcp.c): what a connection does with the segments that
    arrive, with its timers, and with the calls of its user. *)

From S2P Require Import Prelude Wire Ip Tcp.

(** ** Round trip times *)

Definition update_rtt (t : tmr_t) (sample : Z) : tmr_t :=
  let t :=
    if negb (have_rtt t) then t <| srtt := sample |> <| rttvar := sample / 2 |> <| have_rtt := true |>
    else
      let diff := if sample <? srtt t then u32 (srtt t - sample) else u32 (sample - srtt t) in
      t <| rttvar ::= fun v => u32 (u32 (3 * v) + diff) / 4 |> <| srtt ::= fun v => u32 (u32 (7 * v) + sample) / 8 |> in
  let v4 := u32 (4 * rttvar t) in
  let r := u32 (srtt t + (if 10 <? v4 then v4 else 10)) in
  let r := if r <? RTO_MIN then RTO_MIN else r in
  let r := if RTO_MAX <? r then RTO_MAX else r in
  t <| rto := r |>.

(** ** SACK, sending side: the scoreboard *)

(** the ranges before the first that may touch [s, ..) *)
Fixpoint sb_before (l : list (Z * Z)) (s : Z) : list (Z * Z) :=
  match l with
  | [] => []
  | b :: l => if SEQ_LT b.2 s then b :: sb_before l s else []
  end.

(** every range that touches: into [s, e); and the ranges after *)
Fixpoint sb_merge (l : list (Z * Z)) (s e : Z) : (Z * Z) * list (Z * Z) :=
  match l with
  | [] => ((s, e), [])
  | b :: t => if SEQ_LEQ b.1 e then sb_merge t (if SEQ_LT b.1 s then b.1 else s) (if SEQ_GT b.2 e then b.2 else e)
              else ((s, e), l)
  end.

Definition sb_add (una max : Z) (l : list (Z * Z)) (s e : Z) : list (Z * Z) :=
  let s := if SEQ_LT s una then una else s in
  let e := if SEQ_GT e max then max else e in
  if negb (SEQ_LT s e) then l else
  let front := sb_before l s in
  let rest := drop (length front) l in
  let '(b, after) := sb_merge rest s e in
  if (length rest =? length after)%nat && (zlen l =? SB_MAX) then
    (* full: the highest one goes *)
    if zlen after =? 0 then l else front ++ b :: take (length after - 1) after
  else front ++ b :: after.

Definition sb_trim (una : Z) (l : list (Z * Z)) : list (Z * Z) :=
  omap (fun b => if SEQ_LEQ b.2 una then None else Some (if SEQ_LT b.1 una then una else b.1, b.2)) l.

(** the first hole from [from] on below what the peer has *)
Fixpoint sb_hole (l : list (Z * Z)) (from : Z) : option (Z * Z) :=
  match l with
  | [] => None
  | b :: l => if SEQ_LT from b.1 then Some (from, b.1)
              else sb_hole l (if SEQ_LT from b.2 then b.2 else from)
  end.

(** data from [seq] again, at most to [e]: the bytes sent *)
Definition resend (c : tcp_conn_t) (seq e : Z) : ST world_t (tcp_conn_t * Z) :=
  let s := snd c in
  let off := u32 (seq - snd_una s) in
  if sb_len s <=? off then st_ret (c, 0) else
  let n := min_u32 (min_u32 (sb_len s - off) (peer_mss (cong c))) (u32 (e - seq)) in
  if n =? 0 then st_ret (c, 0) else
  let! d := SB s off n in
  let! c := send_seg c seq F_ACK d in
  st_ret (c, n).

Definition resend_next (c : tcp_conn_t) : ST world_t tcp_conn_t :=
  let s := snd c in
  let g := cong c in
  if sack_ok (opt c) && negb (bool_decide (sb g = [])) then
    let from := if SEQ_LT (rexmit_next g) (snd_una s) then snd_una s else rexmit_next g in
    match sb_hole (sb g) from with
    | None => st_ret c
    | Some (seq, e) =>
      let! (c, n) := resend c seq e in
      if n =? 0 then st_ret c else
      count (fun s => s <| sack_rexmit ::= fun k => u32 (k + 1) |>) ;;;
      st_ret (c <| cong ::= fun g => g <| rexmit_next := u32 (seq + n) |> |>)
    end
  else if SEQ_GEQ (snd_una s) (rexmit_next g) then
    let! (c, n) := resend c (snd_una s) (u32 (snd_una s + peer_mss g)) in
    st_ret (if n =? 0 then c else c <| cong ::= fun g => g <| rexmit_next := u32 (snd_una s + n) |> |>)
  else st_ret c.

(** ** Options *)

(** the walk over the options at [opt], from index [i]: [f a i kind len] is
    what is done with an option that lies in them; a byte that is not theirs is
    a fault, and so is a walk that does not come to its end *)
Fixpoint opt_walk {A} (f : A -> Z -> Z -> Z -> option A) (todo : nat) (opts : list Z) (i : Z) (a : A) : option A :=
  match todo with
  | O => None
  | S todo =>
    if zlen opts <=? i then Some a else
    k ← rd8 opts i;
    if k =? 0 then Some a
    else if k =? 1 then opt_walk f todo opts (i + 1) a
    else if zlen opts <=? i + 1 then Some a
    else
      n ← rd8 opts (i + 1);
      if (n <? 2) || (zlen opts <? i + n) then Some a
      else a ← f a i k n; opt_walk f todo opts (i + n) a
  end.

(** every option takes a byte at least *)
Definition walk_options {A} (f : A -> Z -> Z -> Z -> option A) (opts : list Z) (a : A) : option A :=
  opt_walk f (S (length opts)) opts 0 a.

Definition syn_option (six : bool) (opts : list Z) (og : opt_t * cong_t) (i k n : Z) : option (opt_t * cong_t) :=
  let '(op, g) := og in
  if (k =? 2) && (n =? 4) then
    mss ← rd16 opts (i + 2);
    Some (op, if 64 <=? mss then g <| peer_mss := min_u32 mss (if six then TCP6_MSS else TCP_MSS) |> else g)
  else if (k =? 3) && (n =? 3) then
    ws ← rd8 opts (i + 2);
    Some (op <| peer_ws := Some (if 14 <? ws then 14 else ws) |>, g)
  else if (k =? 4) && (n =? 2) then Some (op <| peer_sack := true |>, g)
  else Some og.

Definition parse_syn_opts (c : tcp_conn_t) (opts : list Z) : ST world_t tcp_conn_t :=
  let op := opt c <| peer_ws := None |> <| peer_sack := false |> in
  let! (op, g) := of_option (walk_options (syn_option (bool_decide (is_Some (ip6s c))) opts) opts (op, cong c)) in
  st_ret (c <| opt := op |> <| cong := g |>).

Definition opts_agreed (o : opt_t) : opt_t :=
  match peer_ws o with
  | Some ws => o <| ws_ok := true |> <| snd_ws := u8 ws |> <| rcv_ws := RCV_WSCALE |> <| sack_ok := peer_sack o |>
  | None => o <| ws_ok := false |> <| snd_ws := 0 |> <| rcv_ws := 0 |> <| sack_ok := peer_sack o |>
  end.

(** the blocks [b .. e) of one option of kind 5 *)
Fixpoint sack_blocks_read (todo : nat) (una max : Z) (opts : list Z) (b e : Z) (l : list (Z * Z)) : option (list (Z * Z)) :=
  match todo with
  | O => None
  | S todo =>
    if b + 8 <=? e then
      x ← rd32 opts b; y ← rd32 opts (b + 4);
      sack_blocks_read todo una max opts (b + 8) e (sb_add una max l x y)
    else Some l
  end.

Definition sack_option_read (una max : Z) (opts : list Z) (l : list (Z * Z)) (i k n : Z) : option (list (Z * Z)) :=
  if (k =? 5) && (10 <=? n) && ((n - 2) mod 8 =? 0) then sack_blocks_read (S (length opts)) una max opts (i + 2) (i + n) l
  else Some l.

Definition parse_sack (c : tcp_conn_t) (opts : list Z) : ST world_t tcp_conn_t :=
  let! l := of_option (walk_options (sack_option_read (snd_una (snd c)) (snd_max (snd c)) opts) opts (sb (cong c))) in
  st_ret (c <| cong ::= fun g => g <| sb := l |> |>).

(** ** Acknowledgements *)

(** a segment as tcp_input reads it: where from, and its fields *)
Record hdr_t := Hdr {
  h_src : Z; h_six : option (list Z * list Z); h_sport : Z; h_dport : Z;
  h_seq : Z; h_ack : Z; h_flags : Z; h_wnd : Z; h_opts : list Z; h_data : list Z;
}.
#[export] Instance hdr_eta : Eta hdr_t := fun h =>
  Hdr (h_src h) (h_six h) (h_sport h) (h_dport h) (h_seq h) (h_ack h) (h_flags h) (h_wnd h) (h_opts h) (h_data h).

(** a reset, from where the segment went to where it came from *)
Definition send_reset_for (h : hdr_t) : ST world_t unit :=
  let six := option_map (fun p => (p.2, p.1)) (h_six h) in
  if has (h_flags h) F_RST then st_ret tt
  else if has (h_flags h) F_ACK then send_raw (h_src h) six (h_dport h) (h_sport h) (h_ack h) 0 F_RST 0 [] []
  else
    let n := zlen (h_data h) + Z.b2z (has (h_flags h) F_SYN) + Z.b2z (has (h_flags h) F_FIN) in
    send_raw (h_src h) six (h_dport h) (h_sport h) 0 (u32 (h_seq h + n)) (Z.lor F_RST F_ACK) 0 [] [].

(** [acked] bytes (and the SYN or FIN) are gone from the front of the buffer *)
Definition take_acked (ackno : Z) (s : snd_t) : snd_t :=
  let acked := u32 (ackno - snd_una s) in
  let data := min_u32 acked (sb_len s) in
  let s := if data =? 0 then s
           else let s := s <| sb_off ::= fun o => u32 (o + data) |> <| sb_len ::= fun n => u32 (n - data) |> in
                if sb_len s =? 0 then s <| sb_off := 0 |> else s in
  let s := s <| snd_una := ackno |> in
  if SEQ_LT (snd_nxt s) (snd_una s) then s <| snd_nxt := snd_una s |> else s.

(** the congestion window outside recovery *)
Definition open_cwnd (acked : Z) (g : cong_t) : cong_t :=
  let w := if cwnd g <? ssthresh g then u32 (cwnd g + min_u32 acked (peer_mss g))
           else u32 (cwnd g + u32 (peer_mss g * peer_mss g) / (if cwnd g =? 0 then 1 else cwnd g)) in
  g <| cwnd := if 4 * 2 ^ 20 <? w then 4 * 2 ^ 20 else w |>.

(** half of what is in flight, two segments at least *)
Definition half_flight (c : tcp_conn_t) : Z :=
  let flight := u32 (snd_max (snd c) - snd_una (snd c)) in
  let two := u32 (2 * peer_mss (cong c)) in
  if two <? flight / 2 then flight / 2 else two.

(** what a new acknowledgement moves: the buffer, the scoreboard, the round trip timed *)
Definition acked_conn (now ackno : Z) (c : tcp_conn_t) : tcp_conn_t :=
  let c := c <| snd ::= take_acked ackno |> in
  let c := c <| cong ::= fun g => g <| sb ::= sb_trim (snd_una (snd c)) |> |> in
  let c := if rtt_timing (tmr c) && SEQ_GT ackno (rtt_seq (tmr c))
           then c <| tmr ::= fun t => update_rtt t (u32 (now - rtt_start t)) <| rtt_timing := false |> |> else c in
  c <| tmr ::= fun t => t <| retries := 0 |> |> <| cong ::= fun g => g <| dupacks := 0 |> |>.

(** the FIN is acknowledged: the next state *)
Definition fin_acked (now ackno : Z) (c : tcp_conn_t) : tcp_conn_t :=
  if fin_sent (snd c) && SEQ_GT ackno (fin_seq (snd c)) then
    match state c with
    | TCP_FIN_WAIT1 => c <| state := TCP_FIN_WAIT2 |>
    | TCP_CLOSING => c <| state := TCP_TIME_WAIT |> <| tmr ::= fun t => t <| tw_deadline := u32 (now + TIME_WAIT_MS) |> |>
    | TCP_LAST_ACK => c <| state := TCP_CLOSED |>
    | _ => c
    end
  else c.

(** the acknowledgement moves snd_una *)
Definition new_ack (c : tcp_conn_t) (ackno : Z) : ST world_t tcp_conn_t :=
  let acked := u32 (ackno - snd_una (snd c)) in
  let! now := timer_ms in
  let c := acked_conn now ackno c in
  let! c := (if snd_una (snd c) =? snd_max (snd c) then st_ret (c <| tmr ::= fun t => t <| timer_on := false |> |>) else arm_timer c) in
  let! c := (if in_rec (cong c) then
               if SEQ_GEQ ackno (recover (cong c))
               then st_ret (c <| cong ::= fun g => g <| in_rec := false |> <| cwnd := ssthresh g |> <| sb := [] |> |>)
               else resend_next c
             else st_ret (c <| cong ::= open_cwnd acked |>)) in
  st_ret (fin_acked now ackno c).

(** the third duplicate starts the recovery, each further one sends a hole *)
Definition dup_ack (c : tcp_conn_t) : ST world_t tcp_conn_t :=
  let c := c <| cong ::= fun g => g <| dupacks ::= fun k => u32 (k + 1) |> |> in
  if (dupacks (cong c) =? 3) && negb (in_rec (cong c)) then
    let h := half_flight c in
    let c := c <| cong ::= fun g => g <| ssthresh := h |> <| cwnd := h |> <| in_rec := true |> <| recover := snd_max (snd c) |> |> in
    let una := snd_una (snd c) in
    let! (c, n) := resend c una (u32 (una + peer_mss (cong c))) in
    count (fun s => s <| fast_rexmit ::= fun k => u32 (k + 1) |>) ;;;
    st_ret (c <| cong ::= fun g => g <| rexmit_next := u32 (una + n) |> |> <| tmr ::= fun t => t <| rtt_timing := false |> |>)
  else if (3 <? dupacks (cong c)) && in_rec (cong c) && sack_ok (opt c) then resend_next c
  else st_ret c.

Definition ack_processing (c : tcp_conn_t) (h : hdr_t) (wnd : Z) : ST world_t tcp_conn_t :=
  let ackno := h_ack h in
  let! c := (if sack_ok (opt c) && negb (zlen (h_opts h) =? 0) then parse_sack c (h_opts h) else st_ret c) in
  let s := snd c in
  let! c := (if SEQ_GT ackno (snd_una s) && SEQ_LEQ ackno (snd_max s) then new_ack c ackno
             else if (ackno =? snd_una s) && (zlen (h_data h) =? 0) && negb (has (h_flags h) (Z.lor F_SYN F_FIN)) &&
                     negb (snd_max s =? snd_una s) && (wnd =? snd_wnd s) then dup_ack c
             else st_ret c) in
  let s := snd c in
  st_ret (if SEQ_LT (snd_wl1 s) (h_seq h) || ((snd_wl1 s =? h_seq h) && SEQ_LEQ (snd_wl2 s) ackno)
          then c <| snd ::= fun s => s <| snd_wnd := wnd |> <| snd_wl1 := h_seq h |> <| snd_wl2 := ackno |> |> else c).

(** ** A segment for a connection *)

(** the round trip of the SYN *)
Definition syn_timed (c : tcp_conn_t) : ST world_t tcp_conn_t :=
  let! now := timer_ms in
  let c := if rtt_timing (tmr c) then c <| tmr ::= fun t => update_rtt t (u32 (now - rtt_start t)) <| rtt_timing := false |> |> else c in
  st_ret (c <| tmr ::= fun t => t <| retries := 0 |> <| timer_on := false |> |>).

(** in SYN_RCVD: the connection, and whether the segment is to be looked at further *)
Definition input_syn_rcvd (c : tcp_conn_t) (h : hdr_t) (wnd : Z) : ST world_t (tcp_conn_t * bool) :=
  if has (h_flags h) F_RST then st_ret (c <| state := TCP_CLOSED |> <| tmr ::= fun t => t <| timer_on := false |> |>, false)
  else if has (h_flags h) F_SYN then let! c := send_seg c (iss (snd c)) (Z.lor F_SYN F_ACK) [] in st_ret (c, false)
  else if negb (has (h_flags h) F_ACK) then st_ret (c, false)
  else if negb (h_ack h =? u32 (iss (snd c) + 1)) then send_reset_for h ;;; st_ret (c, false)
  else
    let c := c <| snd ::= fun s => s <| snd_una := h_ack h |> <| snd_wnd := wnd |> <| snd_wl1 := h_seq h |> <| snd_wl2 := h_ack h |> |> in
    let! c := syn_timed c in
    st_ret (c <| cong ::= fun g => g <| cwnd := u32 (4 * peer_mss g) |> |> <| state := TCP_ESTABLISHED |>, true).

Definition input_syn_sent (c : tcp_conn_t) (h : hdr_t) (wnd : Z) : ST world_t tcp_conn_t :=
  if has (h_flags h) F_ACK && negb (h_ack h =? u32 (iss (snd c) + 1)) then send_reset_for h ;;; st_ret c
  else if has (h_flags h) F_RST then
    st_ret (if has (h_flags h) F_ACK then c <| err := NET_ERR_REFUSED |> <| state := TCP_CLOSED |> else c)
  else if has (h_flags h) F_SYN && has (h_flags h) F_ACK then
    let c := c <| rcv ::= fun r => r <| irs := h_seq h |> <| rcv_nxt := u32 (h_seq h + 1) |> |>
               <| snd ::= fun s => s <| snd_una := h_ack h |> <| snd_wnd := wnd |> <| snd_wl1 := h_seq h |> <| snd_wl2 := h_ack h |> |> in
    let! c := parse_syn_opts c (h_opts h) in
    let c := c <| opt ::= opts_agreed |> in
    let! c := syn_timed c in
    let c := c <| state := TCP_ESTABLISHED |> in
    let! c := send_seg c (snd_nxt (snd c)) F_ACK [] in
    tcp_output c
  else st_ret c.

Definition can_receive (s : tcp_state_t) : bool :=
  in_state s TCP_ESTABLISHED || in_state s TCP_FIN_WAIT1 || in_state s TCP_FIN_WAIT2.

(** the data and the FIN of a segment *)
Definition receive (c : tcp_conn_t) (seq : Z) (data : list Z) (fin : bool) : ST world_t tcp_conn_t :=
  let r := rcv c in
  if seq =? rcv_nxt r then
    let! (c, got) := deliver c data in
    let! c := (if fin && (got =? zlen data) then fin_received c else st_ret c) in
    let! c := ooo_drain c in
    st_ret (c <| ack ::= fun a => a <| ack_pending := true |> <| unacked_segs ::= fun k => u32 (k + 1) |> |>)
  else
    let! c := (if SEQ_LT seq (rcv_nxt r) then
                 let skip := u32 (rcv_nxt r - seq) in
                 if skip <? zlen data then
                   let! d := bytes_in data skip (zlen data - skip) in
                   let! (c, got) := deliver c d in
                   let! c := (if fin && (got =? zlen data - skip) then fin_received c else st_ret c) in
                   ooo_drain c
                 else if fin && (skip =? zlen data) && negb (fin_rcvd r) then fin_received c
                 else st_ret c
               else ooo_store c seq data fin) in
    st_ret (c <| ack ::= fun a => a <| ack_pending := true |> <| unacked_segs := 2 |> |>).

(** the connection is synchronised: its acknowledgement, its data, and what can go out *)
Definition input_open (c : tcp_conn_t) (h : hdr_t) (wnd : Z) : ST world_t tcp_conn_t :=
  if has (h_flags h) F_RST then
    st_ret (if SEQ_GEQ (h_seq h) (rcv_nxt (rcv c)) && SEQ_LT (h_seq h) (u32 (rcv_nxt (rcv c) + adv_window c + 1))
            then c <| err := NET_ERR_RESET |> <| state := TCP_CLOSED |> <| tmr ::= fun t => t <| timer_on := false |> |> else c)
  else if has (h_flags h) F_SYN then send_seg c (snd_nxt (snd c)) F_ACK []
  else
    let! c := (if has (h_flags h) F_ACK then ack_processing c h wnd else st_ret c) in
    if in_state (state c) TCP_CLOSED then st_ret c else
    let fin := has (h_flags h) F_FIN in
    if in_state (state c) TCP_TIME_WAIT then
      if fin then
        let! c := send_seg c (snd_nxt (snd c)) F_ACK [] in
        let! now := timer_ms in
        st_ret (c <| tmr ::= fun t => t <| tw_deadline := u32 (now + TIME_WAIT_MS) |> |>)
      else st_ret c
    else
      let! c := (if can_receive (state c) && (negb (zlen (h_data h) =? 0) || fin) then
                   let! c := receive c (h_seq h) (h_data h) fin in
                   if 2 <=? unacked_segs (ack c) then send_seg c (snd_nxt (snd c)) F_ACK [] else st_ret c
                 else st_ret c) in
      tcp_output c.

(** tcp_input once the connection is found *)
Definition conn_input (c : tcp_conn_t) (h : hdr_t) : ST world_t tcp_conn_t :=
  let wnd := if has (h_flags h) F_SYN then h_wnd h else u32 (Z.shiftl (h_wnd h) (snd_ws (opt c))) in
  let! (c, go) := (if in_state (state c) TCP_SYN_RCVD then input_syn_rcvd c h wnd else st_ret (c, true)) in
  if negb go then st_ret c
  else if in_state (state c) TCP_SYN_SENT then input_syn_sent c h wnd
  else input_open c h wnd.

(** ** Timers *)

Definition on_timeout (c : tcp_conn_t) : ST world_t tcp_conn_t :=
  let handshake := in_state (state c) TCP_SYN_SENT || in_state (state c) TCP_SYN_RCVD in
  let limit := if handshake then SYN_RETRIES else MAX_RETRIES in
  let c := c <| tmr ::= fun t => t <| retries ::= fun k => k + 1 |> |> in
  if limit <? retries (tmr c) then
    let c := c <| err := NET_ERR_TIMEOUT |> in
    let! c := (if handshake then st_ret c else send_seg c (snd_nxt (snd c)) (Z.lor F_RST F_ACK) []) in
    st_ret (c <| state := TCP_CLOSED |> <| tmr ::= fun t => t <| timer_on := false |> |>)
  else
    let c := c <| tmr ::= fun t => t <| rtt_timing := false |> <| rto := min_u32 (u32 (rto t * 2)) RTO_MAX |> |> in
    if in_state (state c) TCP_SYN_RCVD then let! c := send_seg c (iss (snd c)) (Z.lor F_SYN F_ACK) [] in arm_timer c
    else if in_state (state c) TCP_SYN_SENT then let! c := send_seg c (iss (snd c)) F_SYN [] in arm_timer c
    else
      let s := snd c in
      let off := u32 (snd_nxt s - snd_una s) in
      if (snd_wnd s =? 0) && (off <? sb_len s) then
        (* persist: probe the zero window with one byte *)
        let! d := SB s off 1 in
        let! c := send_seg c (snd_nxt s) F_ACK d in arm_timer c
      else
        let h := half_flight c in
        let c := c <| cong ::= fun g => g <| ssthresh := h |> <| cwnd := peer_mss g |> <| in_rec := false |> <| sb := [] |> <| dupacks := 0 |> |>
                   <| snd ::= fun s => s <| snd_nxt := snd_una s |> |> in
        count (fun s => s <| rto_rexmit ::= fun k => u32 (k + 1) |>) ;;;
        let c := if fin_sent (snd c) && SEQ_LEQ (snd_una (snd c)) (fin_seq (snd c)) then c <| snd ::= fun s => s <| fin_sent := false |> |> else c in
        let! c := tcp_output (c <| tmr ::= fun t => t <| timer_on := false |> |>) in
        if negb (timer_on (tmr c)) && negb (snd_una (snd c) =? snd_max (snd c)) then arm_timer c else st_ret c.

(** one connection's turn of tcp_timer, but for the freeing *)
Definition conn_timer (c : tcp_conn_t) : ST world_t tcp_conn_t :=
  let! now := timer_ms in
  let c := if in_state (state c) TCP_TIME_WAIT && (0 <=? s32 (now - tw_deadline (tmr c))) then c <| state := TCP_CLOSED |> else c in
  if timer_on (tmr c) && negb (in_state (state c) TCP_CLOSED) && (0 <=? s32 (now - rto_deadline (tmr c))) then on_timeout c else st_ret c.

(** one connection's turn of tcp_flush *)
Definition conn_flush (c : tcp_conn_t) : ST world_t tcp_conn_t :=
  if ack_pending (ack c) && negb (in_state (state c) TCP_CLOSED) && negb (in_state (state c) TCP_SYN_SENT) && negb (in_state (state c) TCP_SYN_RCVD)
  then send_seg c (snd_nxt (snd c)) F_ACK [] else st_ret c.

(** ** The user's calls

    A call that may wait is a loop around net_wait; one turn of it either
    ends the call, goes on, or waits for what happens meanwhile. *)

Inductive turn_t (A : Type) := Ends (r : A) | Again | Waits.
Arguments Ends {A} r. Arguments Again {A}. Arguments Waits {A}.

(** data goes to the end of the buffer, moved to its front where there is no room behind *)
Definition sbuf_put (s : snd_t) (want : Z) (d : list Z) : ST world_t snd_t :=
  let! s := (if sb_size s <? sb_off s + sb_len s + want then
               let! l := bytes_in (sbuf s) (sb_off s) (sb_len s) in
               let! b := put_in (sbuf s) 0 l in
               st_ret (s <| sbuf := b |> <| sb_off := 0 |>)
             else st_ret s) in
  let! b := put_in (sbuf s) (sb_off s + sb_len s) d in
  st_ret (s <| sbuf := b |> <| sb_len := u32 (sb_len s + zlen d) |>).

(** a turn of tcp_send: [data] is what is still to queue; the number queued *)
Definition send_turn (c : tcp_conn_t) (data : list Z) (start timeout : Z) (interrupted : bool) : ST world_t (tcp_conn_t * turn_t Z * Z) :=
  if zlen data =? 0 then st_ret (c, Ends NET_OK, 0) else
  if negb (err c =? 0) then st_ret (c, Ends (err c), 0) else
  if negb (in_state (state c) TCP_ESTABLISHED || in_state (state c) TCP_CLOSE_WAIT) then st_ret (c, Ends NET_ERR_CLOSED, 0) else
  let space := u32 (sb_size (snd c) - sb_len (snd c)) in
  if negb (space =? 0) then
    let n := min_u32 space (zlen data) in
    let! s := sbuf_put (snd c) n (take (Z.to_nat n) data) in
    let! c := tcp_output (c <| snd := s |>) in
    st_ret (c, Again, n)
  else
    let! now := timer_ms in
    if timeout <=? u32 (now - start) then st_ret (c, Ends NET_ERR_TIMEOUT, 0)
    else if interrupted : bool then st_ret (c, Ends NET_ERR_INTR, 0)
    else st_ret (c, Waits, 0).

(** the first [n] bytes of the ring *)
Definition ring_front (r : rcv_t) (n : Z) : ST world_t (list Z) :=
  let first := min_u32 n (u32 (rb_size r - rb_head r)) in
  let! a := bytes_in (rbuf r) (rb_head r) first in
  let! b := (if first <? n then bytes_in (rbuf r) 0 (n - first) else st_ret []) in
  st_ret (a ++ b).

(** a turn of tcp_recv: the bytes, where it ends with some *)
Definition recv_turn (c : tcp_conn_t) (max start timeout : Z) (interrupted : bool) : ST world_t (tcp_conn_t * turn_t Z * list Z) :=
  let r := rcv c in
  if negb (rb_len r =? 0) then
    let n := min_u32 max (rb_len r) in
    let! d := ring_front r n in
    (if rb_size r =? 0 then fault else st_ret tt) ;;;
    let c := c <| rcv ::= fun r => r <| rb_head := u32 (rb_head r + n) mod rb_size r |> <| rb_len := u32 (rb_len r - n) |> |> in
    let wnd := adv_window c in
    let last := last_adv_wnd (ack c) in
    let! c := (if negb (in_state (state c) TCP_CLOSED) && (last <? wnd) && ((2 * TCP_MSS <=? wnd - last) || ((last <? TCP_MSS) && (TCP_MSS <=? wnd)))
               then send_seg c (snd_nxt (snd c)) F_ACK [] else st_ret c) in
    st_ret (c, Ends n, d)
  else if fin_rcvd r then st_ret (c, Ends 0, [])
  else if negb (err c =? 0) then st_ret (c, Ends (err c), [])
  else if in_state (state c) TCP_CLOSED then st_ret (c, Ends NET_ERR_CLOSED, [])
  else
    let! now := timer_ms in
    if timeout <=? u32 (now - start) then st_ret (c, Ends NET_ERR_TIMEOUT, [])
    else if interrupted : bool then st_ret (c, Ends NET_ERR_INTR, [])
    else st_ret (c, Waits, []).

(** tcp_close, but for the freeing of a connection that is closed then *)
Definition conn_close (c : tcp_conn_t) : ST world_t tcp_conn_t :=
  let c := c <| user_closed := true |> in
  if in_state (state c) TCP_ESTABLISHED || in_state (state c) TCP_CLOSE_WAIT
  then tcp_output (c <| snd ::= fun s => s <| fin_pending := true |> |>)
  else st_ret (if in_state (state c) TCP_SYN_SENT then c <| state := TCP_CLOSED |> else c).

(** the reset of tcp_abort *)
Definition conn_abort (c : tcp_conn_t) : ST world_t tcp_conn_t :=
  if negb (in_state (state c) TCP_CLOSED) && negb (in_state (state c) TCP_SYN_SENT) && negb (in_state (state c) TCP_TIME_WAIT)
  then send_seg c (snd_nxt (snd c)) (Z.lor F_RST F_ACK) [] else st_ret c.

(** bytes waiting; -1 where no more can come *)
Definition tcp_readable (c : tcp_conn_t) : Z :=
  if negb (rb_len (rcv c) =? 0) then rb_len (rcv c)
  else if fin_rcvd (rcv c) || negb (err c =? 0) || in_state (state c) TCP_CLOSED then -1 else 0.

Definition tcp_send_space (c : tcp_conn_t) : Z :=
  if in_state (state c) TCP_ESTABLISHED || in_state (state c) TCP_CLOSE_WAIT then u32 (sb_size (snd c) - sb_len (snd c)) else 0.

Definition tcp_peek (c : tcp_conn_t) (max : Z) : ST world_t (list Z) := ring_front (rcv c) (min_u32 max (rb_len (rcv c))).
