(* ===== verification/TcpTable.v ===== *)
(** TCP (src/net/tcp.c): the table of connections and the listeners. *)

From S2P Require Import Prelude Wire Ip Tcp TcpConn.

(** a port listened on *)
Record tcp_listener_t := Listener { l_used : bool; l_six : bool; l_port : Z }.
#[export] Instance listener_inhabited : Inhabited tcp_listener_t := populate (Listener false false 0).

Record tcp_t := TcpSt { g_conns : list tcp_conn_t; g_listeners : list tcp_listener_t; world : world_t }.
#[export] Instance tcp_eta : Eta tcp_t := fun t => TcpSt (g_conns t) (g_listeners t) (world t).

(** a step of the world *)
Definition in_world {A} (m : ST world_t A) : ST tcp_t A := fun t =>
  match m (world t) with Some (a, w) => Some (a, t <| world := w |>) | None => None end.

(** the slot [i] of g_conns; there is none outside the table *)
Definition conn_at (i : Z) : ST tcp_t tcp_conn_t := let! t := get in of_option (get_at (g_conns t) i).
Definition put_conn (i : Z) (c : tcp_conn_t) : ST tcp_t unit :=
  let! t := get in
  let! l := of_option (put_at (g_conns t) i c) in
  modify (fun t => t <| g_conns := l |>).

(** and of g_listeners *)
Definition listener_at (l : Z) : ST tcp_t tcp_listener_t := let! t := get in of_option (get_at (g_listeners t) l).
Definition put_listener (i : Z) (x : tcp_listener_t) : ST tcp_t unit :=
  let! t := get in
  let! l := of_option (put_at (g_listeners t) i x) in
  modify (fun t => t <| g_listeners := l |>).

(** a step of the connection [i] *)
Definition on_conn (i : Z) (f : tcp_conn_t -> ST world_t tcp_conn_t) : ST tcp_t unit :=
  let! c := conn_at i in
  let! c := in_world (f c) in
  put_conn i c.

(** ... that gives something *)
Definition on_conn_get {A} (i : Z) (f : tcp_conn_t -> ST world_t (tcp_conn_t * A)) : ST tcp_t A :=
  let! c := conn_at i in
  let! (c, a) := in_world (f c) in
  put_conn i c ;;; st_ret a.

Definition conn_free (i : Z) : ST tcp_t unit := put_conn i conn_zero.

(** the first of a list that is so, counting from [i] *)
Fixpoint first_at {A} (p : A -> bool) (l : list A) (i : Z) : option Z :=
  match l with
  | [] => None
  | x :: l => if p x then Some i else first_at p l (i + 1)
  end.
Definition count_if {A} (p : A -> bool) (l : list A) : Z := zlen (filter (fun x => p x = true) l).

Definition random_u32 : ST world_t Z := fun w =>
  match draws w with
  | [] => None
  | r :: l => Some (u32 r, w <| draws := l |>)
  end.

(** the block of [big] bytes, or else of [small] *)
Definition kmalloc_or (big small : Z) : ST world_t (Z * option (list Z)) :=
  let! b := kmalloc big in
  match b with
  | Some b => st_ret (big, Some b)
  | None => let! b := kmalloc small in st_ret (small, b)
  end.

(** a connection with its buffers, or NULL *)
Definition fresh_conn : ST world_t (tcp_conn_t * bool) :=
  let! (sn, sblk) := kmalloc_or SBUF_SIZE SBUF_SMALL in
  let! (rn, rblk) := kmalloc_or RBUF_SIZE RBUF_SMALL in
  match sblk, rblk with
  | Some sblk, Some rblk =>
    let! isn := random_u32 in
    st_ret (conn_zero
      <| used := true |>
      <| snd := Snd isn isn (u32 (isn + 1)) (u32 (isn + 1)) 0 0 0 sblk sn 0 0 false false 0 |>
      <| cong := Cong 536 (4 * TCP_MSS) (4 * 2 ^ 20) [] false 0 0 0 |>
      <| opt ::= fun o => o <| peer_ws := None |> |>
      <| rcv ::= fun r => r <| rbuf := rblk |> <| rb_size := rn |> |>
      <| tmr ::= fun t => t <| rto := RTO_INIT |> |>, true)
  | _, _ => st_ret (conn_zero <| snd ::= fun s => s <| sb_size := sn |> |> <| rcv ::= fun r => r <| rb_size := rn |> |>, false)
  end.

Definition conn_alloc : ST tcp_t (option Z) :=
  let! t := get in
  match first_at (fun c => negb (used c)) (g_conns t) 0 with
  | None => st_ret None
  | Some i =>
    let! (c, ok) := in_world fresh_conn in
    put_conn i c ;;;
    st_ret (if ok then Some i else None)
  end.

(** sending the SYN (or SYN-ACK) that opens the connection *)
Definition send_syn (flags : Z) (c : tcp_conn_t) : ST world_t tcp_conn_t :=
  let! c := send_seg c (iss (snd c)) flags [] in
  let! now := timer_ms in
  arm_timer (c <| tmr ::= fun t => t <| rtt_timing := true |> <| rtt_seq := iss (snd c) |> <| rtt_start := now |> |>).

(** a connection that answers the SYN [h] *)
Definition passive_conn (l : Z) (h : hdr_t) (c : tcp_conn_t) : ST world_t tcp_conn_t :=
  let c := c <| listener := Some l |> <| rip := h_src h |> <| ip6s := option_map (fun p => (p.2, p.1)) (h_six h) |>
             <| rport := h_sport h |> <| lport := h_dport h |>
             <| cong ::= fun g => if bool_decide (is_Some (h_six h)) then g <| peer_mss := TCP6_MSS |> else g |>
             <| rcv ::= fun r => r <| irs := h_seq h |> <| rcv_nxt := u32 (h_seq h + 1) |> |>
             <| snd ::= fun s => s <| snd_wnd := h_wnd h |> <| snd_wl1 := h_seq h |> |> in
  let! c := parse_syn_opts c (h_opts h) in
  send_syn (Z.lor F_SYN F_ACK) (c <| opt ::= opts_agreed |> <| state := TCP_SYN_RCVD |>).

Definition listens (h : hdr_t) (l : tcp_listener_t) : bool :=
  l_used l && eqb (l_six l) (bool_decide (is_Some (h_six h))) && (l_port l =? h_dport h).

(** waits for tcp_accept *)
Definition of_listener (l : Z) (c : tcp_conn_t) : bool := used c && bool_decide (listener c = Some l).

(** false where nobody listens on the port *)
Definition passive_open (h : hdr_t) : ST tcp_t bool :=
  let! t := get in
  match first_at (listens h) (g_listeners t) 0 with
  | None => st_ret false
  | Some l =>
    if TCP_BACKLOG <=? count_if (fun c => of_listener l c && negb (in_state (state c) TCP_CLOSED)) (g_conns t) then st_ret true else
    let! o := conn_alloc in
    match o with
    | None => st_ret true
    | Some i => on_conn i (passive_conn l h) ;;; st_ret true
    end
  end.

(** the header's fields, where the segment is long enough and its checksum is right *)
Definition read_segment (src dst : Z) (six : option (list Z * list Z)) (on : bool) (seg : list Z) : option (option hdr_t) :=
  let len := zlen seg in
  if len <? 20 then Some None else
  let bad := match six with
             | Some (src6, dst6) => negb on || negb (ip6_checksum src6 dst6 IP_PROTO_TCP seg =? 0)
             | None => negb (ip4_checksum src dst seg =? 0)
             end in
  if bad then Some None else
  sport ← rd16 seg 0; dport ← rd16 seg 2; seq ← rd32 seg 4; ackno ← rd32 seg 8;
  off ← rd8 seg 12; flags ← rd8 seg 13; wnd ← rd16 seg 14;
  let hl := Z.shiftr off 4 * 4 in
  if (hl <? 20) || (len <? hl) then Some None
  else opts ← rd_range seg 20 hl; data ← rd_range seg hl len;
       Some (Some (Hdr src six sport dport seq ackno flags wnd opts data)).

(** is [c] the connection of the segment? *)
Definition matches (h : hdr_t) (c : tcp_conn_t) : bool :=
  used c && negb (in_state (state c) TCP_CLOSED) && (lport c =? h_dport h) && (rport c =? h_sport h) &&
  match ip6s c, h_six h with
  | Some (lip6, rip6), Some (src6, dst6) => bool_decide (rip6 = src6) && bool_decide (lip6 = dst6)
  | None, None => rip c =? h_src h
  | _, _ => false
  end.

Definition tcp_input (src dst : Z) (six : option (list Z * list Z)) (seg : list Z) : ST tcp_t unit :=
  let! t := get in
  let! o := of_option (read_segment src dst six (ip6_on (world t)) seg) in
  match o with
  | None => st_ret tt
  | Some h =>
    match first_at (matches h) (g_conns t) 0 with
    | Some i => on_conn i (fun c => conn_input c h)
    | None =>
      let! taken := (if Z.land (h_flags h) (Z.lor F_SYN (Z.lor F_ACK F_RST)) =? F_SYN then passive_open h else st_ret false) in
      if taken : bool then st_ret tt else in_world (send_reset_for h)
    end
  end.
Definition tcp_rx (src dst : Z) (seg : list Z) : ST tcp_t unit := tcp_input src dst None seg.
Definition tcp_rx6 (src dst : list Z) (seg : list Z) : ST tcp_t unit := tcp_input 0 0 (Some (src, dst)) seg.

(** [f] for every slot in use *)
Fixpoint each_conn (todo : nat) (i : Z) (f : Z -> tcp_conn_t -> ST tcp_t unit) : ST tcp_t unit :=
  match todo with
  | O => st_ret tt
  | S todo =>
    let! c := conn_at i in
    (if used c then f i c else st_ret tt) ;;;
    each_conn todo (i + 1) f
  end.
Definition all_conns (f : Z -> tcp_conn_t -> ST tcp_t unit) : ST tcp_t unit := each_conn (Z.to_nat TCP_MAX_CONN) 0 f.

Definition tcp_flush : ST tcp_t unit := all_conns (fun i _ => on_conn i conn_flush).

Definition tcp_timer : ST tcp_t unit := all_conns (fun i _ =>
  on_conn i conn_timer ;;;
  let! c := conn_at i in
  if in_state (state c) TCP_CLOSED && (user_closed c || bool_decide (is_Some (listener c))) then conn_free i else st_ret tt).

(** [for (;;)]: each turn takes a random number *)
Fixpoint pick_port (todo : nat) : ST tcp_t Z :=
  match todo with
  | O => fault
  | S todo =>
    let! r := in_world random_u32 in
    let p := u16 (49152 + r mod 16384) in
    let! t := get in
    if existsb (fun c => used c && (lport c =? p)) (g_conns t) then pick_port todo else st_ret p
  end.

(** the peer's address, [six]: ours and the peer's, of IPv6 *)
Definition aim_conn (ip : Z) (six : option (list Z * list Z)) (port : Z) (c : tcp_conn_t) : tcp_conn_t :=
  c <| rip := ip |> <| ip6s := six |>
    <| cong ::= fun g => if bool_decide (is_Some six) then g <| peer_mss := TCP6_MSS |> else g |> <| rport := port |>.

(** the SYN from the local port [p] *)
Definition start_conn (p : Z) (c : tcp_conn_t) : ST world_t tcp_conn_t := send_syn F_SYN (c <| lport := p |> <| state := TCP_SYN_SENT |>).

(** connect_to as far as its waiting loop, once an address is configured *)
Definition connect_begin (ip : Z) (six : option (list Z * list Z)) (port : Z) : ST tcp_t (Z + Z) :=
  let! o := conn_alloc in
  match o with
  | None => st_ret (inr NET_ERR_NOMEM)
  | Some i =>
    on_conn i (fun c => st_ret (aim_conn ip six port c)) ;;;
    let! t := get in
    let! p := pick_port (length (draws (world t))) in
    on_conn i (start_conn p) ;;;
    st_ret (inl i)
  end.

(** a turn of its loop, and what comes after it *)
Definition connect_turn (i start timeout : Z) (interrupted : bool) : ST tcp_t (turn_t Z) :=
  let! c := conn_at i in
  let! now := in_world timer_ms in
  let stop := if negb (in_state (state c) TCP_SYN_SENT) then Some NET_OK
              else if timeout <=? u32 (now - start) then Some NET_ERR_TIMEOUT
              else if interrupted : bool then Some NET_ERR_INTR else None in
  match stop with
  | None => st_ret Waits
  | Some e =>
    if in_state (state c) TCP_ESTABLISHED
    then on_conn i (fun c => st_ret (c <| cong ::= fun g => g <| cwnd := u32 (4 * peer_mss g) |> |>)) ;;; st_ret (Ends NET_OK)
    else conn_free i ;;; st_ret (Ends (if e =? NET_OK then if negb (err c =? 0) then err c else NET_ERR_REFUSED else e))
  end.

Definition tcp_close (i : Z) : ST tcp_t unit :=
  let! c := conn_at i in
  if negb (used c) then st_ret tt else
  on_conn i conn_close ;;;
  let! c := conn_at i in
  if in_state (state c) TCP_CLOSED then conn_free i else st_ret tt.

Definition tcp_abort (i : Z) : ST tcp_t unit :=
  let! c := conn_at i in
  if negb (used c) then st_ret tt else on_conn i conn_abort ;;; conn_free i.

(** ** Listeners *)

Definition listen_on (port : Z) (six : bool) : ST tcp_t (Z + Z) :=
  let! t := get in
  if (port =? 0) || (six && negb (ip6_on (world t))) then st_ret (inr NET_ERR_NOTREADY)
  else if existsb (fun l => l_used l && eqb (l_six l) six && (l_port l =? port)) (g_listeners t) then st_ret (inr NET_ERR_PROTO)
  else match first_at (fun l => negb (l_used l)) (g_listeners t) 0 with
       | None => st_ret (inr NET_ERR_NOMEM)
       | Some i => put_listener i (Listener true six port) ;;; st_ret (inl i)
       end.

Definition acceptable (l : Z) (c : tcp_conn_t) : bool :=
  of_listener l c && (in_state (state c) TCP_ESTABLISHED || in_state (state c) TCP_CLOSE_WAIT).

(** a turn of tcp_accept: the connection, where there is one *)
Definition accept_turn (l start timeout : Z) (interrupted : bool) : ST tcp_t (turn_t (option Z)) :=
  let! x := listener_at l in
  if negb (l_used x) then st_ret (Ends None) else
  let! t := get in
  match first_at (acceptable l) (g_conns t) 0 with
  | Some i => on_conn i (fun c => st_ret (c <| listener := None |>)) ;;; st_ret (Ends (Some i))
  | None =>
    let! now := in_world timer_ms in
    if timeout <=? u32 (now - start) then st_ret (Ends None)
    else if interrupted : bool then st_ret (Ends None) else st_ret Waits
  end.

Definition tcp_unlisten (l : Z) : ST tcp_t unit :=
  let! x := listener_at l in
  if negb (l_used x) then st_ret tt else
  all_conns (fun i c =>
    if bool_decide (listener c = Some l) then
      (if negb (in_state (state c) TCP_CLOSED) then on_conn i (fun c => send_seg c (snd_nxt (snd c)) (Z.lor F_RST F_ACK) []) else st_ret tt) ;;;
      conn_free i
    else st_ret tt) ;;;
  put_listener l (Listener false (l_six x) (l_port x)).

Definition tcp_pending (t : tcp_t) (l : Z) : Z :=
  if l_used (aget (g_listeners t) l) then count_if (acceptable l) (g_conns t) else 0.

(** ** When the network changes *)

Definition ip6_loopback : list Z := replicate 15 0 ++ [1].

(** fails a connection its user still holds, frees the others *)
Definition drop_conn (f : tcp_conn_t -> tcp_conn_t) (i : Z) (c : tcp_conn_t) : ST tcp_t unit :=
  if bool_decide (is_Some (listener c)) || user_closed c then conn_free i
  else on_conn i (fun c => st_ret (f (c <| err := NET_ERR_NOTREADY |> <| state := TCP_CLOSED |> <| tmr ::= fun t => t <| timer_on := false |> |>))).

Definition tcp6_disable : ST tcp_t unit := all_conns (fun i c =>
  if bool_decide (is_Some (ip6s c)) then drop_conn (fun c => c) i c else st_ret tt).

Definition local_peer (c : tcp_conn_t) : bool :=
  match ip6s c with Some (_, rip6) => bool_decide (rip6 = ip6_loopback) | None => Z.shiftr (rip c) 24 =? 127 end.

Definition tcp_network_changed : ST tcp_t unit := all_conns (fun i c =>
  if local_peer c then st_ret tt
  else drop_conn (fun c => c <| ack ::= fun a => a <| ack_pending := false |> |> <| snd ::= fun s => s <| fin_pending := false |> |>) i c).

(** ** What others ask of a connection *)

Definition tcp_state (c : tcp_conn_t) : tcp_state_t := state c.
Definition tcp_local_port (c : tcp_conn_t) : Z := lport c.
Definition tcp_peer (c : tcp_conn_t) : Z * Z := (rip c, rport c).
Definition tcp_peer6 (c : tcp_conn_t) : option (list Z * Z) :=
  match ip6s c with Some (_, rip6) => Some (rip6, rport c) | None => None end.

Record tcp_info_t := Info { wscale : bool; i_sack : bool; i_snd_ws : Z; i_rcv_ws : Z; rcv_window : Z; snd_window : Z }.
Definition tcp_info (c : tcp_conn_t) : tcp_info_t :=
  Info (ws_ok (opt c)) (sack_ok (opt c)) (snd_ws (opt c)) (rcv_ws (opt c)) (adv_window c) (snd_wnd (snd c)).

Definition tcp_stats (t : tcp_t) : tcp_stats_t := g_stats (world t).
Definition tcp_test_loss (every : Z) : ST tcp_t unit :=
  in_world (modify (fun w => w <| g_loss_every := every |> <| g_loss_n := 0 |>)).
