(* ===== verification/TcpInv.v ===== *)
(** What is true of a TCP connection between its calls, in terms of the byte
    streams it carries: a ghost state says what was written, acknowledged and
    received, as positions that do not wrap around. As long as the positions
    two sequence numbers stand for are less than 2^31 apart, comparing the
    numbers compares the positions. *)

From S2P Require Import Prelude Wire Tcp TcpConn.

Lemma u32_u32 x : u32 (u32 x) = u32 x.
Proof. apply u32_small, u32_bound. Qed.

Lemma u32_eq x y : u32 x = u32 y <-> exists k, x = y + k * 2 ^ 32.
Proof.
  unfold u32. split.
  - intros H. exists (x / 2 ^ 32 - y / 2 ^ 32). pose proof (Z.div_mod x (2 ^ 32) ltac:(lia)). pose proof (Z.div_mod y (2 ^ 32) ltac:(lia)). lia.
  - intros [k ->]. by rewrite Z.mod_add by lia.
Qed.

Lemma u32_inj x y : u32 x = u32 y -> - 2 ^ 32 < x - y < 2 ^ 32 -> x = y.
Proof. intros [k ->]%u32_eq H. lia. Qed.

Lemma u32_add x y : u32 (u32 x + y) = u32 (x + y).
Proof. unfold u32. by rewrite Zplus_mod_idemp_l. Qed.

Lemma u32_sub_r x y : u32 (x - u32 y) = u32 (x - y).
Proof. unfold u32. by rewrite Zminus_mod_idemp_r. Qed.

Lemma u32_sub_both x y : u32 (u32 x - u32 y) = u32 (x - y).
Proof. unfold u32. by rewrite Zminus_mod_idemp_l, Zminus_mod_idemp_r. Qed.

(** two positions from the same origin *)
Lemma u32_diff b x y : 0 <= x - y < 2 ^ 32 -> u32 (u32 (b + x) - u32 (b + y)) = x - y.
Proof. intros H. rewrite u32_sub_both. replace (b + x - (b + y)) with (x - y) by lia. by apply u32_small. Qed.

Lemma s32_u32 x y : s32 (u32 x - u32 y) = s32 (x - y).
Proof.
  unfold s32, sx, u32. f_equal. change (2 ^ (32 - 1)) with (2 ^ 31).
  rewrite <- (Z.add_mod_idemp_l (x - y)) by lia. rewrite <- (Z.add_mod_idemp_l (x mod 2 ^ 32 - y mod 2 ^ 32)) by lia.
  by rewrite Zminus_mod_idemp_l, Zminus_mod_idemp_r.
Qed.

Lemma s32_range x : - 2 ^ 31 <= s32 x < 2 ^ 31.
Proof. unfold s32, sx. change (2 ^ (32 - 1)) with (2 ^ 31). pose proof (Z.mod_pos_bound (x + 2 ^ 31) (2 ^ 32) ltac:(lia)). lia. Qed.

Lemma s32_mod x : u32 (s32 x) = u32 x.
Proof.
  apply u32_eq. unfold s32, sx. change (2 ^ (32 - 1)) with (2 ^ 31). exists (- ((x + 2 ^ 31) / 2 ^ 32)).
  pose proof (Z.div_mod (x + 2 ^ 31) (2 ^ 32) ltac:(lia)). lia.
Qed.

Section near.
Variables (b x y : Z).
Hypothesis H : - 2 ^ 31 <= x - y < 2 ^ 31.

Lemma s32_near : s32 (u32 (b + x) - u32 (b + y)) = x - y.
Proof. rewrite s32_u32. replace (b + x - (b + y)) with (x - y) by lia. by apply s32_small. Qed.

Lemma seq_lt : SEQ_LT (u32 (b + x)) (u32 (b + y)) = (x <? y).
Proof. unfold SEQ_LT. rewrite s32_near. apply eq_true_iff_eq. rewrite !Z.ltb_lt. lia. Qed.
Lemma seq_leq : SEQ_LEQ (u32 (b + x)) (u32 (b + y)) = (x <=? y).
Proof. unfold SEQ_LEQ. rewrite s32_near. apply eq_true_iff_eq. rewrite !Z.leb_le. lia. Qed.
Lemma seq_gt : SEQ_GT (u32 (b + x)) (u32 (b + y)) = (y <? x).
Proof. unfold SEQ_GT. rewrite s32_near. apply eq_true_iff_eq. rewrite !Z.ltb_lt. lia. Qed.
Lemma seq_geq : SEQ_GEQ (u32 (b + x)) (u32 (b + y)) = (y <=? x).
Proof. unfold SEQ_GEQ. rewrite s32_near. apply eq_true_iff_eq. rewrite !Z.leb_le. lia. Qed.
End near.

(** any number is the position of something within 2^31 of [y] *)
Lemma seq_place b y q : is_u32 q -> exists x, q = u32 (b + x) /\ - 2 ^ 31 <= x - y < 2 ^ 31.
Proof.
  intros Hq. exists (y + s32 (q - (b + y))). pose proof (s32_range (q - (b + y))). split; [|lia].
  replace (b + (y + s32 (q - (b + y)))) with (s32 (q - (b + y)) + (b + y)) by lia.
  rewrite <- u32_add, s32_mod, u32_add. replace (q - (b + y) + (b + y)) with q by lia. symmetry. by apply u32_small.
Qed.

(** a number accepted between two positions is one of those in between *)
Lemma seq_between b y n q : is_u32 q -> 0 <= n < 2 ^ 30 ->
  SEQ_GT q (u32 (b + y)) = true -> SEQ_LEQ q (u32 (b + (y + n))) = true ->
  exists d, 0 < d <= n /\ q = u32 (b + (y + d)).
Proof.
  intros Hq Hn H1 H2. destruct (seq_place b y q Hq) as (x & -> & Hx).
  rewrite seq_gt in H1 by lia. zbool. exists (x - y). rewrite seq_leq in H2 by lia. zbool.
  split; [lia|]. f_equal. lia.
Qed.

(** ** Ghost state *)

(** [gW]: all that was queued; [gU]: how much of it (and the FIN) is
    acknowledged, -1 while the SYN is not; [gF]: a FIN was sent; [gI]: the
    peer's initial number; [gR]: how much (and the FIN) was received, -1
    before the peer's SYN; [gV]: all that went into the ring, [gT] bytes of it
    taken out *)
Record ghost := Gh { gW : list Z; gU : Z; gF : bool; gI : Z; gR : Z; gV : list Z; gT : Z }.
#[export] Instance ghost_eta : Eta ghost := fun g => Gh (gW g) (gU g) (gF g) (gI g) (gR g) (gV g) (gT g).

(** one end as the other sees it: its stream, its initial number, a bound of
    the positions it sends, and whether it sent a FIN *)
Record peer_t := Peer { pW : list Z; pI : Z; pT : Z; pF : bool }.
Definition peer_of (g : ghost) (i : Z) : peer_t := Peer (gW g) i (Z.max (zlen (gW g)) (gU g) + 1) (gF g).

(** [data] and FIN, sent from position [o] of the peer's stream *)
Record piece (p : peer_t) (o : Z) (data : list Z) (fin : bool) : Prop := {
  pc_pos : 0 <= o;
  pc_data : data <> [] -> o + zlen data <= zlen (pW p) /\ data = slice (pW p) o (o + zlen data);
  pc_fin : fin = true -> pF p = true /\ data = [] /\ zlen (pW p) <= o;
  pc_top : o + zlen data + Z.b2z fin <= pT p;
}.

(** ** The invariant *)

(** how far snd_nxt and snd_max are beyond snd_una *)
Definition nx (s : snd_t) : Z := u32 (snd_nxt s - snd_una s).
Definition mx (s : snd_t) : Z := u32 (snd_max s - snd_una s).

Record snd_ok (g : ghost) (s : snd_t) : Prop := {
  so_iss : is_u32 (iss s);
  so_U : -1 <= gU g;
  so_una : snd_una s = u32 (iss s + 1 + gU g);
  so_nxt : is_u32 (snd_nxt s);
  so_max : is_u32 (snd_max s);
  so_pos : nx s <= mx s <= sb_len s + 1;
  so_syn : gU g = -1 -> nx s = 1 /\ mx s = 1;
  so_fin : zlen (gW g) < gU g + mx s -> gF g = true;
  so_size : zlen (sbuf s) = sb_size s /\ sb_size s <= SBUF_SIZE;
  so_off : 0 <= sb_off s;
  so_len : 0 <= sb_len s;
  so_room : sb_off s + sb_len s <= sb_size s;
  so_buf : slice (sbuf s) (sb_off s) (sb_off s + sb_len s) = drop (Z.to_nat (gU g)) (gW g);
}.

Record cong_ok (k : cong_t) : Prop := {
  co_sb : zlen (sb k) <= SB_MAX;
  co_num : Forall (fun b => is_u32 b.1 /\ is_u32 b.2) (sb k);
  co_next : is_u32 (rexmit_next k);
  co_mss : 64 <= peer_mss k <= TCP_MSS;
}.

Definition opt_ok (o : opt_t) : Prop := rcv_ws o = 0 \/ rcv_ws o = RCV_WSCALE.

(** what the ring holds *)
Definition ring (r : rcv_t) : list Z := slice (rbuf r ++ rbuf r) (rb_head r) (rb_head r + rb_len r).

Record rcv_ok (g : ghost) (r : rcv_t) : Prop := {
  ro_irs : is_u32 (irs r) /\ irs r = gI g;
  ro_R : -1 <= gR g;
  ro_nxt : rcv_nxt r = u32 (gI g + 1 + gR g);
  ro_size : zlen (rbuf r) = rb_size r /\ 0 < rb_size r <= RBUF_SIZE;
  ro_head : 0 <= rb_head r < rb_size r;
  ro_len : 0 <= rb_len r <= rb_size r;
  ro_count : ooo_count r = zlen (ooo r) /\ ooo_count r <= OOO_MAX;
  ro_ooo : Forall (fun s => is_u32 (o_seq s) /\ zlen (o_data s) <= 65535) (ooo r);
  ro_T : 0 <= gT g <= zlen (gV g);
  ro_ring : ring r = drop (Z.to_nat (gT g)) (gV g);
}.

(** segments held out of order: pieces in the order of their positions, from [lo] to [hi] *)
Fixpoint held (p : peer_t) (lo hi : Z) (l : list ooo_seg_t) : Prop :=
  match l with
  | [] => True
  | s :: t => exists o, lo <= o <= hi /\ o_seq s = u32 (pI p + 1 + o) /\ piece p o (o_data s) (o_fin s) /\ held p o hi t
  end.

(** what was received is the beginning of the peer's stream, and what is held
    out of order lies beyond it, by [lo] at least *)
Record tracks (lo : Z) (p : peer_t) (g : ghost) (uc : bool) (r : rcv_t) : Prop := {
  tr_prefix : gV g = take (length (gV g)) (pW p);
  tr_none : gR g = -1 -> gV g = [] /\ ooo r = [] /\ fin_rcvd r = false;
  tr_count : 0 <= gR g -> zlen (gV g) + Z.b2z (fin_rcvd r) <= gR g;
  tr_all : uc = false -> 0 <= gR g -> zlen (gV g) + Z.b2z (fin_rcvd r) = gR g;
  tr_top : gR g <= pT p;
  tr_wide : zlen (pW p) < pT p;
  tr_irs : 0 <= gR g -> gI g = pI p;
  tr_fin : if fin_rcvd r then gR g = zlen (pW p) + 1 /\ pF p = true else gR g <= zlen (pW p);
  tr_ooo : held p (gR g + lo) (gR g + 2 ^ 21) (ooo r);
}.

(** neither handshaking nor closed *)
Definition opened (s : tcp_state_t) : bool := negb (in_state s TCP_SYN_SENT || in_state s TCP_SYN_RCVD || in_state s TCP_CLOSED).

(** nothing was received *)
Definition unused (r : rcv_t) : Prop := rb_len r = 0 /\ fin_rcvd r = false.

(** [lo]: see [tracks]; it is 1 except while the held segments are looked through *)
Record conn_inv (lo : Z) (P : option peer_t) (g : ghost) (c : tcp_conn_t) : Prop := {
  ck_snd : snd_ok g (snd c);
  ck_cong : cong_ok (cong c);
  ck_opt : opt_ok (opt c);
  ck_rcv : rcv_ok g (rcv c);
  ck_tracks : match P with Some p => tracks lo p g (user_closed c) (rcv c) | None => True end;
  ck_open : opened (state c) = true -> 0 <= gU g /\ 0 <= gR g;
  ck_syn_sent : state c = TCP_SYN_SENT -> gU g = -1 /\ gR g = -1 /\ unused (rcv c);
  ck_syn_rcvd : state c = TCP_SYN_RCVD -> gU g = -1 /\ 0 <= gR g /\ unused (rcv c);
  ck_fin : gF g = true -> opened (state c) = true -> state c <> TCP_ESTABLISHED /\ state c <> TCP_CLOSE_WAIT;
  ck_early : gF g = true -> 0 <= gU g;
  ck_rfin : fin_rcvd (rcv c) = true -> can_receive (state c) = false;
}.

Notation conn_ok := (conn_inv 1).

(** ** How it grows *)

Record gle (g g' : ghost) : Prop := {
  ge_W : exists x, gW g' = gW g ++ x /\ (gF g = true -> x = []);
  ge_U : gU g <= gU g';
  ge_F : gF g = true -> gF g' = true;
  ge_R : gR g <= gR g';
  ge_I : gI g' = gI g \/ gR g < 0;
  ge_V : exists y, gV g' = gV g ++ y;
  ge_T : gT g <= gT g';
}.

(** the fields of a segment the end with initial number [i] sends, from position [lo] of its stream and
    [ro] of the other on; a reset promises nothing *)
Definition honest (i lo ro : Z) (g : ghost) (seq ackno flags : Z) (data : list Z) : Prop :=
  has flags F_RST = true \/
  has flags F_RST = false /\
  (if has flags F_SYN then seq = i /\ data = [] /\ has flags F_FIN = false
   else has flags F_ACK = true /\ exists o, lo <= o /\ seq = u32 (i + 1 + o) /\ piece (peer_of g i) o data (has flags F_FIN)) /\
  (has flags F_ACK = true -> exists r, ro <= r <= gR g /\ 0 <= r /\ ackno = u32 (gI g + 1 + r)).

Definition honest_out (i lo ro : Z) (g : ghost) (o : out_t) : Prop :=
  exists ip dst ip6 sport dport seq ackno flags wnd data opts,
    o = packet ip dst ip6 sport dport seq ackno flags wnd data opts /\
    is_u32 seq /\ is_u32 ackno /\ is_u8 flags /\ zlen opts <= 40 /\ zlen opts mod 4 = 0 /\ zlen data <= TCP_MSS /\
    honest i lo ro g seq ackno flags data.

(** what a step sends *)
Record ext (i : Z) (g g' : ghost) (w w' : world_t) : Prop := {
  ex_clock : clock w' = clock w;
  ex_sent : exists l, sent w' = sent w ++ l /\ Forall (honest_out i (gU g) (gR g) g') l;
}.

(** the end of a step from [g], [c], [w]: the ghost state moved as [Q] says *)
Definition outcome (P : option peer_t) (Q : ghost -> ghost -> Prop) (g : ghost) (c : tcp_conn_t) (w : world_t) (c' : tcp_conn_t) (w' : world_t) : Prop :=
  exists g', Q g g' /\ gle g g' /\ conn_ok P g' c' /\ iss (snd c') = iss (snd c) /\
    (user_closed c = true -> user_closed c' = true) /\ ext (iss (snd c)) g g' w w'.

(** [m] does so from any state that is well-formed *)
Definition keeps_as (P : option peer_t) (Q : ghost -> ghost -> Prop) (m : tcp_conn_t -> ST world_t tcp_conn_t) : Prop :=
  forall g c w, conn_ok P g c -> wp (m c) (outcome P Q g c w) w.

(** nothing moves but that a FIN may have been sent *)
Definition quiet (g g' : ghost) : Prop := exists f, g' = g <| gF := f |>.
(** nothing moves *)
Definition still (g g' : ghost) : Prop := g' = g.

(** ** Lemmas *)

Lemma gle_refl g : gle g g.
Proof. split; try lia; auto; exists []; by rewrite app_nil_r. Qed.

Lemma gle_trans g1 g2 g3 : gle g1 g2 -> gle g2 g3 -> gle g1 g3.
Proof.
  intros [(x & Wx & Fx) U1 F1 R1 I1 (v & Vv) T1] [(y & Wy & Fy) U2 F2 R2 I2 (z & Vz) T2]. split; [| lia | auto | lia | | | lia].
  - exists (x ++ y). rewrite Wy, Wx, app_assoc. split; [done|]. intros H. rewrite (Fx H), (Fy (F1 H)). done.
  - destruct I1 as [I1|I1]; [|by right]. destruct I2 as [I2|I2]; [left; congruence|]. right. lia.
  - exists (v ++ z). by rewrite Vz, Vv, app_assoc.
Qed.

(** a slice of the beginning *)
Lemma slice_app_l {A} (l x : list A) a b : 0 <= a -> b <= zlen l -> slice (l ++ x) a b = slice l a b.
Proof.
  unfold slice, zlen. intros Ha Hb. destruct (decide (b <= a)).
  { replace (Z.to_nat (b - a)) with 0%nat by lia. done. }
  rewrite drop_app_le by lia. rewrite take_app_le; [done|]. rewrite length_drop. lia.
Qed.

Section mono.
Variables (g g' : ghost) (i : Z).
Hypothesis Hg : gle g g'.

(** a peer that goes on *)
Record ple (p p' : peer_t) : Prop := {
  pe_W : exists x, pW p' = pW p ++ x /\ (pF p = true -> x = []);
  pe_I : pI p' = pI p;
  pe_T : pT p <= pT p';
  pe_F : pF p = true -> pF p' = true;
  pe_wide : zlen (pW p') < pT p';
}.

Lemma ple_of : ple (peer_of g i) (peer_of g' i).
Proof.
  destruct Hg as [(x & Hx & Fx) HU HF _ _ _ _]. split; cbn; [by exists x|done| |done|lia].
  rewrite Hx, zlen_app. pose proof (zlen_nonneg x). lia.
Qed.

Lemma piece_mono p p' o d f : ple p p' -> piece p o d f -> piece p' o d f.
Proof.
  intros [(x & Hx & Fx) HI HT HF HZ] [H1 H2 H3 H4]. split; [done| | |lia].
  - intros Hd. destruct (H2 Hd) as [Hl Hs]. rewrite Hx, zlen_app. pose proof (zlen_nonneg x). split; [lia|].
    rewrite slice_app_l by lia. done.
  - intros Hf. destruct (H3 Hf) as (F1 & -> & Hl). rewrite Hx, (Fx F1), app_nil_r. auto.
Qed.

Lemma honest_mono lo ro lo' ro' seq ackno flags d : lo' <= lo -> ro' <= ro ->
  honest i lo ro g seq ackno flags d -> honest i lo' ro' g' seq ackno flags d.
Proof.
  intros Hlo Hro [H|(H & Hs & Ha)]; [by left|]. right. split; [done|]. split.
  - destruct (has flags F_SYN); [done|]. destruct Hs as (Hk & o & Ho & Hq & Hp). split; [done|]. exists o.
    split; [lia|]. split; [done|]. eapply piece_mono; [apply ple_of|done].
  - intros Hk. destruct (Ha Hk) as (r & Hr & Hr0 & ->). exists r. destruct Hg as [_ _ _ HR [HI|HI] _ _]; [|lia].
    rewrite HI. split; [lia|done].
Qed.

Lemma honest_out_mono lo ro lo' ro' o : lo' <= lo -> ro' <= ro -> honest_out i lo ro g o -> honest_out i lo' ro' g' o.
Proof.
  intros Hlo Hro (ip & dst & ip6 & sp & dp & seq & ackno & flags & wnd & d & op & Ho & H1 & H2 & H3 & H4 & H5 & H6 & H).
  exists ip, dst, ip6, sp, dp, seq, ackno, flags, wnd, d, op. split_and!; try done. by eapply honest_mono.
Qed.
End mono.

Lemma held_mono p p' lo hi l : ple p p' -> held p lo hi l -> held p' lo hi l.
Proof.
  intros Hp. revert lo. induction l as [|s l IH]; intros lo; [done|]. cbn. intros (o & Ho & Hq & Hpc & Hl). exists o.
  rewrite (pe_I _ _ Hp). split; [done|]. split; [done|]. split; [by eapply piece_mono|by apply IH].
Qed.

Lemma held_wider p lo hi lo' hi' l : lo' <= lo -> hi <= hi' -> held p lo hi l -> held p lo' hi' l.
Proof.
  revert lo lo'. induction l as [|s l IH]; intros lo lo' H1 H2; [done|]. cbn. intros (o & Ho & Hq & Hpc & Hl). exists o.
  split; [lia|]. split; [done|]. split; [done|]. by apply (IH o o).
Qed.

Lemma tracks_mono lo p p' g uc r : ple p p' -> tracks lo p g uc r -> tracks lo p' g uc r.
Proof.
  intros Hp [H1 H2 H3 H4 H5 H5' H6 H7 H8]. pose proof Hp as [(x & Hx & Fx) HI HT HF HZ]. split; try done; try lia.
  - rewrite Hx, H1 at 1. rewrite take_app_le; [done|]. rewrite H1 at 1. rewrite length_take. lia.
  - destruct (fin_rcvd r).
    + destruct H7 as [H7 HF']. rewrite Hx, (Fx HF'), app_nil_r. auto.
    + rewrite Hx, zlen_app. pose proof (zlen_nonneg x). lia.
  - by eapply held_mono.
Qed.

Lemma ext_refl i g w : ext i g g w w.
Proof. split; [done|]. exists []. by rewrite app_nil_r. Qed.

Lemma ext_trans i g1 g2 g3 w1 w2 w3 : gle g1 g2 -> gle g2 g3 -> ext i g1 g2 w1 w2 -> ext i g2 g3 w2 w3 -> ext i g1 g3 w1 w3.
Proof.
  intros H12 H23 [C1 (l1 & S1 & F1)] [C2 (l2 & S2 & F2)]. split; [congruence|]. exists (l1 ++ l2). rewrite S2, S1, app_assoc. split; [done|].
  apply Forall_app. split; (eapply Forall_impl; [eassumption|]); intros o Ho.
  - eapply honest_out_mono; [exact H23| | |exact Ho]; lia.
  - eapply honest_out_mono; [apply gle_refl| | |exact Ho]; [apply H12|apply H12].
Qed.

(** ** Steps one after the other *)

Lemma outcome_here P g c w : conn_ok P g c -> outcome P still g c w c w.
Proof. intros H. exists g. split; [done|]. split; [apply gle_refl|]. split_and!; try done. apply ext_refl. Qed.

(** a change of the connection that the ghost state does not see *)
Lemma outcome_still P g c w c' : conn_ok P g c' -> iss (snd c') = iss (snd c) -> (user_closed c = true -> user_closed c' = true) ->
  outcome P still g c w c' w.
Proof. intros H Hi Hu. exists g. split; [done|]. split; [apply gle_refl|]. split_and!; try done. apply ext_refl. Qed.

(** a change of fields nothing is said of *)
Lemma outcome_from P Q g c w c0 w0 c' w' : iss (snd c) = iss (snd c0) -> (user_closed c0 = true -> user_closed c = true) ->
  clock w = clock w0 -> sent w = sent w0 -> outcome P Q g c w c' w' -> outcome P Q g c0 w0 c' w'.
Proof.
  intros Hi Hu Hw Hs (g' & HQ & Hg & Hc & Hi' & Hu' & [E1 E2]). exists g'. rewrite Hi in *. split_and!; try done; [by auto|].
  split; [congruence|]. by rewrite <- Hs.
Qed.

Lemma outcome_trans P Q1 Q2 (Q : ghost -> ghost -> Prop) g c w c1 w1 c2 w2 : outcome P Q1 g c w c1 w1 ->
  (forall g1, Q1 g g1 -> gle g g1 -> conn_ok P g1 c1 -> outcome P Q2 g1 c1 w1 c2 w2) ->
  (forall g1 g2, Q1 g g1 -> Q2 g1 g2 -> Q g g2) -> outcome P Q g c w c2 w2.
Proof.
  intros (g1 & HQ1 & Hg1 & Hc1 & Hi1 & Hu1 & He1) H2 HQ. destruct (H2 g1 HQ1 Hg1 Hc1) as (g2 & HQ2 & Hg2 & Hc2 & Hi2 & Hu2 & He2).
  rewrite Hi1 in *. exists g2. split_and!; [by eapply HQ|by eapply gle_trans|done|done|auto|]. by eapply ext_trans.
Qed.

(** a relation that does not mind a FIN *)
Definition absorbs (Q : ghost -> ghost -> Prop) : Prop := forall g g1 g2, Q g g1 -> quiet g1 g2 -> Q g g2.

Lemma quiet_quiet : absorbs quiet.
Proof. intros g g1 g2 [f ->] [f' ->]. by exists f'. Qed.

Lemma outcome_weaken P (Q Q' : ghost -> ghost -> Prop) g c w c' w' : (forall g1, Q g g1 -> Q' g g1) ->
  outcome P Q g c w c' w' -> outcome P Q' g c w c' w'.
Proof. intros HQ (g1 & H1 & H). exists g1. split; [by apply HQ|done]. Qed.

Lemma still_quiet g g' : still g g' -> quiet g g'.
Proof. intros ->. exists (gF g). by destruct g. Qed.

(** one more step that moves nothing, of a program that gives a connection [f a] *)
Lemma quiet_step {A} P Q g0 c0 w0 c w (m : ST world_t A) (f : A -> tcp_conn_t) : absorbs Q ->
  (forall g, conn_ok P g c -> wp m (fun a => outcome P quiet g c w (f a)) w) ->
  outcome P Q g0 c0 w0 c w -> wp m (fun a => outcome P Q g0 c0 w0 (f a)) w.
Proof.
  intros HQ Hm Ho. pose proof Ho as (g1 & _ & _ & Hc1 & _). pose proof (Hm g1 Hc1) as Hw. apply wp_run in Hw as (a & w' & E & _).
  unfold wp. rewrite E. eapply outcome_trans; [exact Ho| |intros g2 g3; apply HQ]. intros g2 _ _ Hc2. specialize (Hm g2 Hc2). unfold wp in Hm. by rewrite E in Hm.
Qed.

(** what nothing is said of *)
Lemma conn_ok_ext lo P g c c' : state c' = state c -> snd c' = snd c -> cong c' = cong c -> opt c' = opt c -> rcv c' = rcv c ->
  user_closed c' = user_closed c -> conn_inv lo P g c -> conn_inv lo P g c'.
Proof. intros E1 E2 E3 E4 E5 E6 []. split; by rewrite ?E1, ?E2, ?E3, ?E4, ?E5, ?E6. Qed.

(** a change of the connection alone *)
Lemma outcome_update P Q g0 c0 w0 c w c' : outcome P Q g0 c0 w0 c w -> (forall g, Q g0 g -> gle g0 g -> conn_ok P g c -> conn_ok P g c') ->
  iss (snd c') = iss (snd c) -> (user_closed c = true -> user_closed c' = true) -> outcome P Q g0 c0 w0 c' w.
Proof.
  intros (g & HQ & Hg & Hc & Hi & Hu & He) Hc' Hi' Hu'. exists g. split_and!; try done; [by apply Hc'|congruence|auto].
Qed.
