(* ===== verification/TcpOut.v ===== *)
(** Sending: a segment fits its buffer and says what is so; what tcp_output
    sends is from the stream. *)

From S2P Require Import Prelude Wire Tcp TcpConn TcpInv.

(** ** The options fit *)

Lemma ooo_ranges_len todo l last max first others : 1 + zlen others <= max -> 1 + zlen (ooo_ranges todo l last max first others).2 <= max.
Proof.
  revert l first others. induction todo as [|todo IH]; intros l first others H; [done|]. destruct l as [|o t]; [done|]. cbn [ooo_ranges].
  destruct (ooo_range t _) as [re rest].
  assert (Ho : 1 + zlen (if 1 + zlen others <? max then others ++ [(o_seq o, re)] else others) <= max).
  { destruct (1 + zlen others <? max) eqn:E; zbool; [|done]. rewrite zlen_app. change (zlen [_]) with 1. lia. }
  destruct first; [by apply IH|]. destruct (_ && _); by apply IH.
Qed.

Lemma sack_blocks_len r max : 1 <= max -> zlen (sack_blocks r max) <= max.
Proof.
  intros H. unfold sack_blocks. pose proof (ooo_ranges_len (length (ooo r)) (ooo r) (last_ooo r) max None [] ltac:(done)) as Hl.
  destruct (ooo_ranges _ _ _ _ _ _) as [[b|] others]; cbn in *; rewrite ?zlen_cons; lia.
Qed.

Lemma zlen_sack_option l : zlen (sack_option l) = 4 + 8 * zlen l.
Proof.
  unfold sack_option. rewrite zlen_app. change (zlen [1; 1; 5; _]) with 4. f_equal.
  induction l as [|b l IH]; [done|]. cbn [map concat]. rewrite zlen_app, IH, zlen_cons. rewrite zlen_app. change (zlen (be32 _)) with 4. lia.
Qed.

Lemma zlen_syn_options c : zlen (syn_options c) mod 4 = 0 /\ zlen (syn_options c) <= 40.
Proof. unfold syn_options. by repeat case_match. Qed.

(** ** Segments *)

Section seg.
Variables (P : option peer_t) (g : ghost).

Lemma iss_pos s : snd_ok g s -> is_u32 (snd_una s) /\ snd_nxt s = u32 (iss s + 1 + (gU g + nx s)) /\ snd_max s = u32 (iss s + 1 + (gU g + mx s)).
Proof.
  intros Hs. pose proof (so_una _ _ Hs) as Hu. split; [rewrite Hu; apply u32_bound|].
  assert (H : forall x, is_u32 x -> x = u32 (iss s + 1 + (gU g + u32 (x - snd_una s)))).
  { intros x Hx. rewrite Hu, u32_sub_r. rewrite (Z.add_comm (gU g)), Z.add_assoc, (Z.add_comm _ (u32 _)), <- Z.add_assoc, u32_add.
    replace (x - (iss s + 1 + gU g) + (iss s + 1 + gU g)) with x by lia. symmetry. by apply u32_small. }
  split; apply H; [apply Hs|apply Hs].
Qed.

Lemma test_loss_ok c n w : exists b w', test_loss c n w = Some (b, w') /\ clock w' = clock w /\ sent w' = sent w /\ our_ip w' = our_ip w.
Proof. unfold test_loss. repeat case_match; eauto 6. Qed.

Definition acked (c : tcp_conn_t) (c' : tcp_conn_t) : Prop := exists a, c' = c <| ack := a |>.

Lemma send_raw_ok (i lo ro : Z) g' dst ip6 sport dport seq ackno flags wnd data opts w :
  zlen data + zlen opts <= TCP_MSS + MAX_OPT -> zlen data <= TCP_MSS -> zlen opts <= 40 -> zlen opts mod 4 = 0 ->
  is_u32 seq -> is_u32 ackno -> is_u8 flags -> honest i lo ro g' seq ackno flags data ->
  wp (send_raw dst ip6 sport dport seq ackno flags wnd data opts)
     (fun _ w' => clock w' = clock w /\ exists o, sent w' = sent w ++ [o] /\ honest_out i lo ro g' o) w.
Proof.
  intros Hl Hd Ho Hm Hs Ha Hf Hh. unfold send_raw. rewrite (proj2 (Z.ltb_ge _ _)) by (unfold MAX_OPT, TCP_MSS in *; lia).
  apply wp_modify. split; [done|]. eexists. split; [reflexivity|].
  exists (our_ip w), dst, ip6, sport, dport, seq, ackno, flags, wnd, data, opts. by split_and!.
Qed.

Lemma send_seg_ok g' c seq flags data w : conn_ok P g c -> zlen data <= TCP_MSS -> is_u32 seq -> is_u8 flags ->
  honest (iss (snd c)) (gU g) (gR g) g' seq (if has flags F_ACK then rcv_nxt (rcv c) else 0) flags data ->
  wp (send_seg c seq flags data) (fun c' w' => acked c c' /\ ext (iss (snd c)) g g' w w') w.
Proof.
  intros Hc Hd Hs Hf Hh. unfold send_seg.
  set (blocks := seg_blocks c flags (zlen data)). set (opts := seg_options c flags blocks). set (field := if has flags F_SYN then _ else Z.shiftr _ _).
  assert (Hb : zlen blocks <= 4) by (unfold blocks, seg_blocks; destruct (_ && _); [by apply sack_blocks_len|done]).
  assert (Hopts : zlen opts <= 40 /\ zlen opts mod 4 = 0).
  { unfold opts, seg_options. destruct (has flags F_SYN); [by split; apply zlen_syn_options|]. case_bool_decide; [done|]. rewrite zlen_sack_option.
    pose proof (zlen_nonneg blocks). lia. }
  rewrite (proj2 (Z.ltb_ge MAX_OPT (zlen opts))) by apply Hopts. apply wp_bind, wp_ret, wp_bind.
  assert (Hcount : forall b w1, wp (when b (count (fun s => s <| sack_acks ::= fun k => u32 (k + 1) |>))) (fun _ w2 => clock w2 = clock w1 /\ sent w2 = sent w1) w1)
    by (by intros [] w1).
  eapply wp_mono; [apply Hcount|]. cbn beta. intros _ w1 [E1 E2]. apply wp_bind.
  destruct (test_loss_ok c (zlen data) w1) as (lost & w2 & E & E3 & E4 & _). unfold wp at 1. rewrite E. apply wp_bind.
  assert (Hack : is_u32 (if has flags F_ACK then rcv_nxt (rcv c) else 0)).
  { destruct (has flags F_ACK); [|done]. rewrite (ro_nxt _ _ (ck_rcv _ _ _ _ Hc)). apply u32_bound. }
  assert (Hfin : forall w3, clock w3 = clock w2 -> (exists l, sent w3 = sent w2 ++ l /\ Forall (honest_out (iss (snd c)) (gU g) (gR g) g') l) ->
    wp (st_ret (if has flags F_ACK then mark_acked (seg_window c flags) c else c)) (fun c' w' => acked c c' /\ ext (iss (snd c)) g g' w w') w3).
  { intros w3 E5 (l & E6 & Hl). apply wp_ret. split; [|split; [congruence|exists l; by rewrite E6, E4, E2]].
    destruct (has flags F_ACK); [by eexists|]. exists (ack c). by destruct c. }
  destruct lost.
  - apply wp_ret. apply Hfin; [done|]. exists []. by rewrite app_nil_r.
  - eapply wp_mono; [eapply (send_raw_ok (iss (snd c)) (gU g) (gR g) g'); try exact Hh; try done; try apply Hopts; unfold TCP_MSS, MAX_OPT in *; lia|].
    cbn beta. intros _ w3 [E5 (o & E6 & Ho)]. apply Hfin; [done|]. exists [o]. split; [done|]. by apply Forall_singleton.
Qed.
End seg.

(** ** What is in the buffer *)

Lemma slice_slice {A} (l : list A) a b c d : 0 <= a -> 0 <= c <= d -> d <= b - a -> slice (slice l a b) c d = slice l (a + c) (a + d).
Proof.
  intros Ha Hc Hd. unfold slice. rewrite skipn_firstn_comm, take_take, drop_drop. f_equal; [lia|]. f_equal. lia.
Qed.

Lemma slice_drop {A} (l : list A) k a b : 0 <= k -> 0 <= a -> slice (drop (Z.to_nat k) l) a b = slice l (k + a) (k + b).
Proof. intros Hk Ha. unfold slice. rewrite drop_drop. f_equal; [lia|]. f_equal. lia. Qed.

Lemma bytes_in_ok l i n w : 0 <= i -> 0 <= n -> i + n <= zlen l -> bytes_in l i n w = Some (slice l i (i + n), w).
Proof. intros H1 H2 H3. unfold bytes_in. by rewrite (proj2 (Z.leb_le _ _) H1), (proj2 (Z.leb_le _ _) H2), (proj2 (Z.leb_le _ _) H3). Qed.

Section out.
Variables (P : option peer_t) (g : ghost).

Lemma snd_len s : snd_ok g s -> sb_len s = Z.max 0 (zlen (gW g) - Z.max 0 (gU g)) /\ sb_len s <= SBUF_SIZE.
Proof.
  intros Hs. pose proof (so_buf _ _ Hs) as Hb. pose proof (so_size _ _ Hs). pose proof (so_room _ _ Hs). pose proof (so_off _ _ Hs). pose proof (so_len _ _ Hs).
  split; [|lia]. apply (f_equal zlen) in Hb. rewrite zlen_slice in Hb by lia. unfold zlen in *. rewrite length_drop in Hb. lia.
Qed.

Lemma SB_ok s off n w : snd_ok g s -> 0 <= gU g -> 0 <= off -> 0 <= n -> off + n <= sb_len s ->
  SB s off n w = Some (slice (gW g) (gU g + off) (gU g + off + n), w).
Proof.
  intros Hs HU Ho Hn Hl. pose proof (so_size _ _ Hs). pose proof (so_room _ _ Hs). pose proof (so_off _ _ Hs). unfold SB.
  rewrite bytes_in_ok by lia. f_equal. f_equal. replace (sb_off s + off + n) with (sb_off s + (off + n)) by lia.
  rewrite <- (slice_slice _ (sb_off s) (sb_off s + sb_len s) off (off + n)) by lia. rewrite (so_buf _ _ Hs), slice_drop by lia.
  f_equal. lia.
Qed.

(** ** Segments that are sent *)

Lemma honest_data s off n flags : snd_ok g s -> 0 <= gU g -> 0 <= gR g -> 0 <= off -> 0 < n -> off + n <= sb_len s ->
  has flags F_RST = false -> has flags F_SYN = false -> has flags F_FIN = false -> has flags F_ACK = true ->
  honest (iss s) (gU g) (gR g) g (u32 (iss s + 1 + (gU g + off))) (u32 (gI g + 1 + gR g)) flags (slice (gW g) (gU g + off) (gU g + off + n)).
Proof.
  intros Hs HU HR Ho Hn Hl F1 F2 F3 F4. destruct (snd_len s Hs) as [Hlen _]. right. split; [done|]. rewrite F2, F3. split.
  - split; [done|]. exists (gU g + off). split; [lia|]. split; [done|]. assert (Hz : zlen (slice (gW g) (gU g + off) (gU g + off + n)) = n) by (rewrite zlen_slice; lia).
    split; cbn; rewrite ?Hz; [lia| |done|lia]. intros _. split; [lia|]. done.
  - intros _. exists (gR g). split; [lia|done].
Qed.

Lemma honest_ctl s flags : snd_ok g s -> 0 <= gU g -> 0 <= gR g -> has flags F_SYN = false -> has flags F_ACK = true ->
  (has flags F_FIN = true -> gF g = true /\ sb_len s <= nx s /\ nx s <= sb_len s) ->
  honest (iss s) (gU g) (gR g) g (snd_nxt s) (u32 (gI g + 1 + gR g)) flags [].
Proof.
  intros Hs HU HR F2 F4 HF. destruct (snd_len s Hs) as [Hlen _]. pose proof (iss_pos g s Hs) as (_ & Hn & _). pose proof (so_pos _ _ Hs).
  pose proof (u32_bound (snd_nxt s - snd_una s)) as Hb. fold (nx s) in Hb. unfold is_u32 in Hb.
  destruct (has flags F_RST) eqn:F1; [by left|]. right. split; [done|]. rewrite F2. split.
  - split; [done|]. exists (gU g + nx s). split; [lia|]. split; [done|]. split; cbn; [lia|done| |].
    + intros Hf. destruct (HF Hf) as (HF1 & H1 & H2). split; [done|]. split; [done|]. lia.
    + rewrite zlen_nil. destruct (has flags F_FIN); cbn; [destruct (HF eq_refl)|]; lia.
  - intros _. exists (gR g). split; [lia|done].
Qed.

(** sending leaves all else as it is *)
Lemma send_still c seq flags data w : conn_ok P g c -> zlen data <= TCP_MSS -> is_u32 seq -> is_u8 flags ->
  honest (iss (snd c)) (gU g) (gR g) g seq (if has flags F_ACK then u32 (gI g + 1 + gR g) else 0) flags data ->
  wp (send_seg c seq flags data) (fun c' w' => acked c c' /\ outcome P still g c w c' w') w.
Proof.
  intros Hc H1 H2 H3 Hh. eapply wp_mono; [apply (send_seg_ok P g g); try done|].
  { by rewrite (ro_nxt _ _ (ck_rcv _ _ _ _ Hc)). }
  cbn beta. intros c' w' [[a ->] He]. split; [by eexists|]. exists g. split; [done|]. split; [apply gle_refl|]. split; [|done].
  by eapply conn_ok_ext; [..|exact Hc].
Qed.

(** an acknowledgement, in a connection that is open *)
Lemma send_ack_ok c w : conn_ok P g c -> 0 <= gU g -> 0 <= gR g ->
  wp (send_seg c (snd_nxt (snd c)) F_ACK []) (fun c' w' => acked c c' /\ outcome P still g c w c' w') w.
Proof.
  intros Hc HU HR. apply send_still; [done|done|apply (so_nxt _ _ (ck_snd _ _ _ _ Hc))|done|].
  by apply honest_ctl; [apply Hc|..].
Qed.

Lemma reset_honest i seq ackno flags data : has flags F_RST = true -> honest i (gU g) (gR g) g seq ackno flags data.
Proof. by left. Qed.

Lemma arm_timer_ok c w : conn_ok P g c ->
  wp (arm_timer c) (fun c' w' => (exists t, c' = c <| tmr := t |>) /\ outcome P still g c w c' w') w.
Proof.
  intros Hc. apply wp_bind, wp_gets, wp_ret. split; [by eexists|]. apply outcome_still; [|done|done]. by eapply conn_ok_ext; [..|exact Hc].
Qed.

Lemma arm_if_off_ok c w : conn_ok P g c ->
  wp (arm_if_off c) (fun c' w' => (exists t, c' = c <| tmr := t |>) /\ outcome P still g c w c' w') w.
Proof.
  intros Hc. unfold arm_if_off. destruct (timer_on (tmr c)); [|by apply arm_timer_ok].
  apply wp_ret. split; [exists (tmr c); by destruct c|by apply outcome_here].
Qed.

(** moving snd_nxt on *)
Lemma advance_pos s n : snd_ok g s -> 0 <= n <= 2 ^ 20 ->
  nx (advance n s) = nx s + n /\ mx (advance n s) = Z.max (mx s) (nx s + n) /\ is_u32 (snd_nxt (advance n s)) /\ is_u32 (snd_max (advance n s)).
Proof.
  intros Hs Hn. destruct (snd_len s Hs) as [_ Hl]. destruct (iss_pos g s Hs) as (_ & En & Em). pose proof (so_pos _ _ Hs) as Hp.
  pose proof (u32_bound (snd_nxt s - snd_una s)) as Hb. fold (nx s) in Hb. unfold is_u32, SBUF_SIZE in *.
  assert (E : u32 (snd_nxt s + n) = u32 (iss s + 1 + (gU g + (nx s + n)))).
  { rewrite En, u32_add. f_equal. lia. }
  unfold advance, nx at 1, mx at 1. cbn. rewrite (so_una _ _ Hs), E.
  rewrite u32_diff by lia. split; [lia|]. rewrite Em, seq_gt by lia.
  destruct (gU g + mx s <? gU g + (nx s + n)) eqn:Ec; zbool; rewrite u32_diff by lia.
  - split; [lia|]. split; apply u32_bound.
  - split; [lia|]. split; apply u32_bound.
Qed.
End out.

(** ** tcp_output *)

Section output.
Variable P : option peer_t.
Implicit Types g : ghost.

Lemma snd_ok_advance g s n : snd_ok g s -> 0 <= gU g -> 0 <= n <= 2 ^ 20 -> nx s + n <= sb_len s \/ (gF g = true /\ nx s + n <= sb_len s + 1) ->
  snd_ok g (advance n s).
Proof.
  intros Hs HU Hn Hl. destruct (advance_pos g s n Hs Hn) as (E1 & E2 & E3 & E4). destruct (snd_len g s Hs) as [Hlen _].
  pose proof (u32_bound (snd_nxt s - snd_una s)) as Hb. fold (nx s) in Hb. unfold is_u32 in Hb.
  pose proof Hs as []. split; rewrite ?E1, ?E2; try done; cbn; [lia|lia|].
  intros Hf. destruct Hl as [Hl|[Hl _]]; [|done]. apply so_fin. lia.
Qed.

Lemma conn_ok_snd g c s : conn_ok P g c -> snd_ok g s -> conn_ok P g (c <| snd := s |>).
Proof. intros [] Hs. by split. Qed.

Lemma output_data_ok g c n w : conn_ok P g c -> 0 <= gU g -> 0 <= gR g -> 0 < n -> nx (snd c) + n <= sb_len (snd c) -> n <= peer_mss (cong c) ->
  wp (output_data c (nx (snd c)) n) (fun c' w' => (exists a t, c' = c <| ack := a |> <| tmr := t |> <| snd ::= advance n |>) /\ outcome P still g c w c' w') w.
Proof.
  intros Hc HU HR Hn Hl Hm. pose proof (ck_snd _ _ _ _ Hc) as Hs. pose proof (ck_cong _ _ _ _ Hc) as Hk. destruct (co_mss _ Hk) as [_ Hmss].
  destruct (snd_len g _ Hs) as [Hlen Hmax]. pose proof (u32_bound (snd_nxt (snd c) - snd_una (snd c))) as Hb. fold (nx (snd c)) in Hb. unfold is_u32, SBUF_SIZE in *.
  destruct (iss_pos g _ Hs) as (_ & En & _). unfold output_data. apply wp_bind. unfold wp at 1. rewrite (SB_ok g) by (done || lia).
  apply wp_bind. set (flags := if _ =? _ then _ else _).
  assert (Hf : is_u8 flags /\ has flags F_RST = false /\ has flags F_SYN = false /\ has flags F_FIN = false /\ has flags F_ACK = true) by (unfold flags; by case_bool).
  destruct Hf as (F0 & F1 & F2 & F3 & F4).
  eapply wp_mono; [apply (send_still P g); try done; [rewrite zlen_slice; lia|by apply Hs|]|].
  { rewrite F4, En at 1. apply honest_data; try done; lia. }
  cbn beta. intros c1 w1 [[a ->] Ho]. apply wp_bind, wp_gets.
  match goal with |- context [set tmr (time_segment ?q ?n0) ?x] => change (set tmr (time_segment q n0) x) with (x <| tmr := time_segment q n0 (tmr x) |>); generalize (time_segment q n0 (tmr x)); intros t end.
  assert (Ho2 : outcome P still g c w (c <| ack := a |> <| tmr := t |> <| snd ::= advance n |>) w1).
  { eapply outcome_update; [exact Ho| |done|done]. intros g1 -> _ _. eapply conn_ok_ext; [..|apply (conn_ok_snd g c (advance n (snd c)) Hc)]; try done.
    apply snd_ok_advance; try done; lia. }
  pose proof Ho2 as (g1 & -> & _ & Hc2 & _). eapply wp_mono; [by apply (arm_if_off_ok P g)|]. cbn beta. intros c3 w3 [[t3 ->] Ho3].
  split; [by exists a, t3|]. eapply outcome_trans; [exact Ho2|by intros g1 -> _ _|]. by intros g1 g2 -> ->.
Qed.

Lemma output_loop_ok g c todo w : conn_ok P g c -> 0 <= gU g -> 0 <= gR g -> (Z.to_nat (sb_len (snd c) - nx (snd c)) < todo)%nat ->
  wp (output_loop todo c) (fun c' w' => state c' = state c /\ outcome P still g c w c' w') w.
Proof.
  revert c w. induction todo as [|todo IH]; intros c w Hc HU HR Hf; [lia|]. cbn [output_loop]. fold (nx (snd c)).
  pose proof (ck_snd _ _ _ _ Hc) as Hs. pose proof (ck_cong _ _ _ _ Hc) as Hk. destruct (co_mss _ Hk) as [Hmss _].
  pose proof (u32_bound (snd_nxt (snd c) - snd_una (snd c))) as Hb. fold (nx (snd c)) in Hb. unfold is_u32 in *.
  destruct (sb_len (snd c) <=? nx (snd c)) eqn:E; zbool; [split; [done|by apply outcome_here]|].
  set (wnd := min_u32 (snd_wnd (snd c)) (cwnd (cong c))). set (usable := if nx (snd c) <? wnd then _ else 0).
  set (n := min_u32 _ (peer_mss (cong c))).
  assert (Hn : n = 0 \/ (0 < n /\ n <= sb_len (snd c) - nx (snd c) /\ n <= peer_mss (cong c))).
  { unfold n, min_u32. assert (0 <= usable) by (unfold usable; zcases; lia). clearbody usable. zcases_all; lia. }
  destruct (n =? 0) eqn:E0; zbool.
  { eapply wp_mono; [by apply (arm_if_off_ok P g)|]. cbn beta. by intros c' w' [[t ->] Ho]. }
  destruct Hn as [Hn|(Hn & Hn1 & Hn2)]; [done|]. apply wp_bind. eapply wp_mono; [apply (output_data_ok g); try done; lia|].
  cbn beta. intros c1 w1 [(a & t & ->) Ho]. pose proof Ho as (g1 & -> & _ & Hc1 & _).
  pose proof (snd_len g _ Hs) as [_ Hmax]. unfold SBUF_SIZE in Hmax.
  destruct (advance_pos g (snd c) n Hs ltac:(lia)) as (E1 & _). eapply wp_mono; [apply IH; try done|].
  - cbn [snd sb_len]. change (sb_len (snd _)) with (sb_len (snd c)). change (nx (snd _)) with (nx (advance n (snd c))). rewrite E1. lia.
  - cbn beta. intros c' w' [Est Ho']. split; [done|]. eapply outcome_trans; [exact Ho|by intros g1 -> _ _|]. by intros g1 g2 -> ->.
Qed.
End output.

(** the state the FIN leaves *)
Definition fin_state (s : tcp_state_t) : tcp_state_t :=
  match s with TCP_ESTABLISHED => TCP_FIN_WAIT1 | TCP_CLOSE_WAIT => TCP_LAST_ACK | _ => s end.

Section fin.
Variable P : option peer_t.
Implicit Types g : ghost.

Lemma gle_fin g : gle g (g <| gF := true |>).
Proof. split; cbn; try lia; auto; exists []; by rewrite app_nil_r. Qed.

Lemma tracks_fin lo p g uc r : tracks lo p g uc r -> tracks lo p (g <| gF := true |>) uc r.
Proof. by intros []. Qed.

(** a FIN may be sent, once nothing can be queued any more *)
Lemma conn_ok_fin g c : conn_ok P g c -> 0 <= gU g -> may_output (state c) = true -> conn_ok P (g <| gF := true |>) (c <| state ::= fin_state |>).
Proof.
  intros [[] H2 H3 [] H5 H6 H7 H8 H9 H10 H11] HU Hst. split; cbn.
  - by split.
  - done.
  - done.
  - by split.
  - destruct P; [by apply tracks_fin|done].
  - intros Ho. apply H6. by destruct (state c).
  - intros Hs. by destruct (state c).
  - intros Hs. by destruct (state c).
  - intros _ _. by destruct (state c).
  - done.
  - intros Hf. specialize (H11 Hf). by destruct (state c).
Qed.

Lemma output_fin_ok g c w : conn_ok P g c -> 0 <= gU g -> 0 <= gR g -> may_output (state c) = true ->
  wp (output_fin c) (outcome P quiet g c w) w.
Proof.
  intros Hc HU HR Hst. unfold output_fin. fold (nx (snd c)).
  destruct (_ && (nx (snd c) =? sb_len (snd c))) eqn:E; [|eapply outcome_weaken; [apply still_quiet|by apply outcome_here]].
  apply andb_true_iff in E as [_ E]. zbool. cbn zeta. set (g1 := g <| gF := true |>).
  set (c0 := c <| snd ::= fun s => s <| fin_seq := snd_nxt s |> |>).
  assert (Hc1 : conn_ok P g1 (c0 <| state ::= fin_state |>)).
  { pose proof (conn_ok_fin g c Hc HU Hst) as Hf. destruct Hf as [[] ? ? ? ? ? ? ? ? ?]. by split; [split|..]. }
  (* the segment depends on the state by nothing but its stream *)
  assert (Hh : honest (iss (snd c0)) (gU g) (gR g) g1 (snd_nxt (snd c0)) (u32 (gI g + 1 + gR g)) (Z.lor F_FIN F_ACK) []).
  { apply (honest_ctl g1 (snd c0)); try done; [apply Hc1|]. intros _. split; [done|]. change (nx (snd c0)) with (nx (snd c)). change (sb_len (snd c0)) with (sb_len (snd c)). lia. }
  assert (Hc0 : conn_ok P g c0) by (destruct Hc as [[] ? ? ? ? ? ? ? ? ?]; by split; [split|..]).
  apply wp_bind. eapply wp_mono; [apply (send_seg_ok P g g1); try done; [apply (so_nxt _ _ (ck_snd _ _ _ _ Hc))|]|].
  { cbn [has]. change (has (Z.lor F_FIN F_ACK) F_ACK) with true. cbn iota. change (rcv c0) with (rcv c). by rewrite (ro_nxt _ _ (ck_rcv _ _ _ _ Hc)). }
  cbn beta. intros c2 w2 [[a ->] He].
  set (c3 := c0 <| ack := a |> <| snd ::= fun s => advance 1 (s <| fin_sent := true |>) |> <| state ::= fin_state |>).
  assert (Ho : outcome P quiet g c w c3 w2).
  { exists g1. split; [by exists true|]. split; [apply gle_fin|]. split; [|split; [done|split; [done|exact He]]].
    eapply conn_ok_ext; [..|apply (conn_ok_snd P g1 (c0 <| state ::= fin_state |>) (advance 1 (snd c0 <| fin_sent := true |>)) Hc1)]; try done.
    assert (Hs0 : snd_ok g1 (snd c0 <| fin_sent := true |>)) by (destruct (ck_snd _ _ _ _ Hc1); by split).
    apply snd_ok_advance; [exact Hs0|done|lia|]. right. split; [done|].
    change (nx (snd c) + 1 <= sb_len (snd c) + 1). lia. }
  assert (Ec : (match state (c0 <| ack := a |> <| snd ::= fun s => advance 1 (s <| fin_sent := true |>) |>) with
     | TCP_ESTABLISHED => c0 <| ack := a |> <| snd ::= fun s => advance 1 (s <| fin_sent := true |>) |> <| state := TCP_FIN_WAIT1 |>
     | TCP_CLOSE_WAIT => c0 <| ack := a |> <| snd ::= fun s => advance 1 (s <| fin_sent := true |>) |> <| state := TCP_LAST_ACK |>
     | _ => c0 <| ack := a |> <| snd ::= fun s => advance 1 (s <| fin_sent := true |>) |> end) = c3) by (destruct c as [? []]; reflexivity).
  rewrite Ec. eapply (quiet_step P quiet); [apply quiet_quiet| |exact Ho]. intros g2 Hc3.
  eapply wp_mono; [by apply (arm_if_off_ok P g2)|]. cbn beta. intros c4 w4 [_ H4]. eapply outcome_weaken; [apply still_quiet|exact H4].
Qed.

(** what can go out goes out *)
Lemma tcp_output_ok g c w : conn_ok P g c -> wp (tcp_output c) (outcome P quiet g c w) w.
Proof.
  intros Hc. unfold tcp_output. destruct (may_output (state c)) eqn:Hst; cbn [negb]; [|eapply outcome_weaken; [apply still_quiet|by apply outcome_here]].
  destruct (ck_open _ _ _ _ Hc) as [HU HR]; [by destruct (state c)|]. apply wp_bind. pose proof (so_pos _ _ (ck_snd _ _ _ _ Hc)).
  pose proof (u32_bound (snd_nxt (snd c) - snd_una (snd c))) as Hb. fold (nx (snd c)) in Hb. unfold is_u32 in *.
  eapply wp_mono; [apply (output_loop_ok P g); try done; lia|]. cbn beta. intros c1 w1 [Est Ho].
  eapply outcome_weaken in Ho; [|apply still_quiet]. eapply quiet_step; [apply quiet_quiet| |exact Ho].
  intros g1 Hc1. rewrite <- Est in Hst. destruct (ck_open _ _ _ _ Hc1) as [HU1 HR1]; [by destruct (state c1)|]. by apply output_fin_ok.
Qed.
End fin.
