(* ===== verification/TcpIn.v ===== *)
(** Receiving: the ring is a queue of bytes, and whatever order the segments
    come in, what goes into it is the beginning of the peer's stream. *)

From S2P Require Import Prelude Wire Tcp TcpConn TcpInv TcpOut.

(** ** Reading and writing blocks *)

Lemma put_in_ok l i d w : 0 <= i -> i + zlen d <= zlen l -> exists b, put_in l i d w = Some (b, w) /\ zlen b = zlen l /\
  forall j, 0 <= j < zlen l -> aget b j = if (i <=? j) && (j <? i + zlen d) then aget d (j - i) else aget l j.
Proof.
  intros Hi Hl. unfold put_in. rewrite (proj2 (Z.leb_le _ _) Hi), (proj2 (Z.leb_le _ _) Hl). cbn [andb].
  exists (take (Z.to_nat i) l ++ d ++ drop (Z.to_nat (i + zlen d)) l). pose proof (zlen_nonneg d).
  assert (Ht : zlen (take (Z.to_nat i) l) = i) by (rewrite zlen_take; lia). split; [done|]. split.
  { rewrite !zlen_app, Ht, zlen_drop by lia. lia. }
  intros j Hj. rewrite aget_app by lia. rewrite Ht. destruct (j <? i) eqn:E1; zbool.
  - rewrite aget_take by lia. destruct (i <=? j) eqn:E; zbool; [lia|done].
  - rewrite (proj2 (Z.leb_le i j)) by lia. cbn [andb]. rewrite aget_app by lia. destruct (j - i <? zlen d) eqn:E2; zbool.
    + rewrite (proj2 (Z.ltb_lt j (i + zlen d))) by lia. done.
    + rewrite (proj2 (Z.ltb_ge j (i + zlen d))) by lia. rewrite aget_drop by lia. f_equal. lia.
Qed.

Lemma aget_slice (l : list Z) a b i : 0 <= a -> 0 <= i < b - a -> aget (slice l a b) i = aget l (a + i).
Proof. intros Ha Hi. unfold slice. rewrite aget_take by lia. by rewrite aget_drop by lia. Qed.

(** ** The ring *)

Definition ring_wf (r : rcv_t) : Prop :=
  zlen (rbuf r) = rb_size r /\ 0 < rb_size r <= RBUF_SIZE /\ 0 <= rb_head r < rb_size r /\ 0 <= rb_len r <= rb_size r.

Lemma zlen_ring r : ring_wf r -> zlen (ring r) = rb_len r.
Proof. intros (H1 & H2 & H3 & H4). unfold ring. rewrite zlen_slice; rewrite ?zlen_app; lia. Qed.

Lemma ring_at r i : ring_wf r -> 0 <= i < rb_len r -> aget (ring r) i = aget (rbuf r) ((rb_head r + i) mod rb_size r).
Proof.
  intros (H1 & H2 & H3 & H4) Hi. unfold ring. rewrite aget_slice by lia. rewrite aget_app by lia. rewrite H1.
  destruct (rb_head r + i <? rb_size r) eqn:E; zbool; f_equal.
  - symmetry. apply Z.mod_small. lia.
  - apply (Z.mod_unique _ _ 1); lia.
Qed.

(** bytes put in go to its end, as many as there is room for *)
Lemma rbuf_put_ok r data w : ring_wf r -> zlen data < 2 ^ 31 -> exists b n, rbuf_put r data w = Some ((r <| rbuf := b |> <| rb_len := rb_len r + n |>, n), w) /\
  n = Z.min (zlen data) (rb_size r - rb_len r) /\ zlen b = rb_size r /\
  ring (r <| rbuf := b |> <| rb_len := rb_len r + n |>) = ring r ++ take (Z.to_nat n) data.
Proof.
  intros Hr Hd. pose proof Hr as (H1 & H2 & H3 & H4). unfold RBUF_SIZE in H2. pose proof (zlen_nonneg data) as Hd0. unfold rbuf_put.
  rewrite (u32_small (rb_size r - rb_len r)) by (unfold is_u32; lia).
  rewrite (u32_small (rb_head r + rb_len r)) by (unfold is_u32; lia).
  set (n := if _ <? zlen data then _ else zlen data). assert (Hn : n = Z.min (zlen data) (rb_size r - rb_len r)) by (unfold n; zcases; lia).
  rewrite (proj2 (Z.eqb_neq (rb_size r) 0)) by lia. set (tail := (rb_head r + rb_len r) mod rb_size r).
  assert (Ht : 0 <= tail < rb_size r) by (apply Z.mod_pos_bound; lia).
  set (first := min_u32 n (rb_size r - tail)). assert (Hf : first = Z.min n (rb_size r - tail)) by (unfold first, min_u32; zcases; lia).
  clearbody n. clearbody first.
  destruct (put_in_ok (rbuf r) tail (slice data 0 first) w) as (b1 & E1 & L1 & A1); [lia|rewrite zlen_slice; lia|].
  unfold st_bind at 1. rewrite E1. rewrite zlen_slice in A1 by lia.
  assert (Hb : exists b, (if first <? n then put_in b1 0 (slice data first n) else st_ret b1) w = Some (b, w) /\ zlen b = rb_size r /\
    forall j, 0 <= j < rb_size r -> aget b j = if (j - tail) mod rb_size r <? n then aget data ((j - tail) mod rb_size r) else aget (rbuf r) j).
  { assert (Hmod : forall j, 0 <= j < rb_size r -> (j - tail) mod rb_size r = if j <? tail then j - tail + rb_size r else j - tail).
    { intros j Hj. destruct (j <? tail) eqn:E; zbool; [symmetry; apply (Z.mod_unique _ _ (-1)); lia|apply Z.mod_small; lia]. }
    destruct (first <? n) eqn:Ef; zbool.
    - destruct (put_in_ok b1 0 (slice data first n) w) as (b2 & E2 & L2 & A2); [lia|rewrite zlen_slice; lia|].
      rewrite zlen_slice in A2 by lia. exists b2. split; [done|]. split; [lia|]. intros j Hj. rewrite A2, (Hmod j Hj) by lia.
      destruct (j <? tail) eqn:Ej; zbool.
      + rewrite (proj2 (Z.leb_le 0 j)) by lia. cbn [andb]. destruct (j <? 0 + (n - first)) eqn:E3; zbool.
        * rewrite (proj2 (Z.ltb_lt (j - tail + rb_size r) n)) by lia. rewrite aget_slice by lia. f_equal. lia.
        * rewrite (proj2 (Z.ltb_ge (j - tail + rb_size r) n)) by lia. rewrite A1 by lia. rewrite (proj2 (Z.leb_gt tail j)) by lia. done.
      + rewrite (proj2 (Z.ltb_ge j (0 + (n - first)))) by lia. rewrite andb_false_r, A1 by lia.
        rewrite (proj2 (Z.leb_le tail j)), (proj2 (Z.ltb_lt j (tail + (first - 0)))), (proj2 (Z.ltb_lt (j - tail) n)) by lia. cbn [andb].
        rewrite aget_slice by lia. f_equal; lia.
    - exists b1. split; [done|]. split; [lia|]. intros j Hj. rewrite A1, (Hmod j Hj) by lia. destruct (j <? tail) eqn:Ej; zbool.
      + rewrite (proj2 (Z.leb_gt tail j)), (proj2 (Z.ltb_ge (j - tail + rb_size r) n)) by lia. done.
      + rewrite (proj2 (Z.leb_le tail j)) by lia. cbn [andb]. destruct (j <? tail + (first - 0)) eqn:E3; zbool.
        * rewrite (proj2 (Z.ltb_lt (j - tail) n)) by lia. rewrite aget_slice by lia. f_equal; lia.
        * rewrite (proj2 (Z.ltb_ge (j - tail) n)) by lia. done. }
  destruct Hb as (b & Eb & Lb & Ab). unfold st_bind at 1. rewrite Eb. rewrite (u32_small (rb_len r + n)) by (unfold is_u32; lia).
  exists b, n. split; [done|]. split; [done|]. split; [done|].
  assert (Hr' : ring_wf (r <| rbuf := b |> <| rb_len := rb_len r + n |>)) by (unfold ring_wf, RBUF_SIZE; cbn [rbuf rb_size rb_head rb_len set setter]; cbn; lia).
  apply zlist_ext.
  - rewrite zlen_app, !zlen_ring by done. cbn. rewrite zlen_take by lia. lia.
  - rewrite (zlen_ring _ Hr'). intros i Hi. rewrite ring_at by done. cbn [set setter rbuf rb_head rb_size rb_len]. cbn in Hi.
    rewrite aget_app by lia. rewrite zlen_ring by done.
    rewrite Ab by (apply Z.mod_pos_bound; lia).
    assert (Em : ((rb_head r + i) mod rb_size r - tail) mod rb_size r = if i <? rb_len r then i - rb_len r + rb_size r else i - rb_len r).
    { unfold tail. rewrite <- Zminus_mod. replace (rb_head r + i - (rb_head r + rb_len r)) with (i - rb_len r) by lia.
      destruct (i <? rb_len r) eqn:E; zbool; [symmetry; apply (Z.mod_unique _ _ (-1)); lia|apply Z.mod_small; lia]. }
    rewrite Em. destruct (i <? rb_len r) eqn:E; zbool.
    + rewrite (proj2 (Z.ltb_ge _ n)) by lia. by rewrite ring_at by (done || lia).
    + rewrite (proj2 (Z.ltb_lt _ n)) by lia. by rewrite aget_take by lia.
Qed.

(** what is read is its front *)
Lemma ring_front_ok r n w : ring_wf r -> 0 <= n <= rb_len r -> ring_front r n w = Some (take (Z.to_nat n) (ring r), w).
Proof.
  intros Hr Hn. pose proof Hr as (H1 & H2 & H3 & H4). unfold RBUF_SIZE in H2. unfold ring_front.
  rewrite (u32_small (rb_size r - rb_head r)) by (unfold is_u32; lia). set (first := min_u32 _ _).
  assert (Hf : first = Z.min n (rb_size r - rb_head r)) by (unfold first, min_u32; zcases; lia). clearbody first.
  unfold st_bind at 1. rewrite bytes_in_ok by lia.
  assert (Hb : exists b, (if first <? n then bytes_in (rbuf r) 0 (n - first) else st_ret []) w = Some (b, w) /\ b = slice (rbuf r) 0 (n - first)).
  { destruct (first <? n) eqn:E; zbool; [rewrite bytes_in_ok by lia; by eexists|]. exists []. split; [done|]. unfold slice.
    by replace (Z.to_nat (n - first - 0)) with 0%nat by lia. }
  destruct Hb as (b & Eb & ->). unfold st_bind at 1. rewrite Eb. unfold st_ret. f_equal. f_equal.
  apply zlist_ext.
  - rewrite zlen_app, !zlen_slice by lia. rewrite zlen_take, zlen_ring by (done || lia). lia.
  - intros i Hi. rewrite zlen_app, !zlen_slice in Hi by lia. rewrite aget_app by lia. rewrite zlen_slice by lia.
    rewrite aget_take, ring_at by (done || lia). destruct (i <? rb_head r + first - rb_head r) eqn:E; zbool; rewrite aget_slice by lia; f_equal.
    + symmetry. apply Z.mod_small. lia.
    + apply (Z.mod_unique _ _ 1); lia.
Qed.

(** ... and taking it out leaves the rest *)
Lemma ring_take r n : ring_wf r -> 0 <= n <= rb_len r ->
  ring (r <| rb_head := (rb_head r + n) mod rb_size r |> <| rb_len := rb_len r - n |>) = drop (Z.to_nat n) (ring r) /\
  ring_wf (r <| rb_head := (rb_head r + n) mod rb_size r |> <| rb_len := rb_len r - n |>).
Proof.
  intros Hr Hn. pose proof Hr as (H1 & H2 & H3 & H4). unfold RBUF_SIZE in H2. set (r' := r <| rb_head := _ |> <| rb_len := _ |>).
  assert (Hr' : ring_wf r') by (pose proof (Z.mod_pos_bound (rb_head r + n) (rb_size r)); unfold ring_wf, RBUF_SIZE; cbn; lia). split; [|done].
  apply zlist_ext.
  - rewrite zlen_drop, !zlen_ring by (done || lia). cbn. lia.
  - rewrite zlen_ring by done. intros i Hi. cbn in Hi. rewrite aget_drop, !ring_at by (done || lia). cbn. f_equal.
    rewrite Z.add_mod_idemp_l by lia. f_equal. lia.
Qed.

(** only what was received changes *)
Definition received (g g' : ghost) : Prop := exists R V, g' = g <| gR := R |> <| gV := V |>.

Record rstep (g : ghost) (c : tcp_conn_t) (g' : ghost) (c' : tcp_conn_t) : Prop := {
  rs_ghost : received g g';
  rs_gle : gle g g';
  rs_snd : snd c' = snd c;
  rs_uc : user_closed c' = user_closed c;
  rs_opened : opened (state c) = true -> opened (state c') = true;
}.

Lemma rstep_refl g c : rstep g c g c.
Proof. split; try done; [exists (gR g), (gV g); by destruct g|apply gle_refl]. Qed.

Lemma rstep_trans g1 c1 g2 c2 g3 c3 : rstep g1 c1 g2 c2 -> rstep g2 c2 g3 c3 -> rstep g1 c1 g3 c3.
Proof.
  intros [(R & V & ->) H2 H3 H4 H5] [(R' & V' & ->) K2 K3 K4 K5]. split; [by exists R', V'|by eapply gle_trans|congruence|congruence|auto].
Qed.

Lemma rstep_outcome P g c w g' c' : rstep g c g' c' -> conn_ok P g' c' -> outcome P received g c w c' w.
Proof.
  intros [H1 H2 H3 H4 H5] Hc. exists g'. split_and!; try done; [by rewrite H3|congruence|]. split; [done|]. exists []. by rewrite app_nil_r.
Qed.

Lemma rcv_wf g r : rcv_ok g r -> ring_wf r.
Proof. intros []. unfold ring_wf. intuition. Qed.

Lemma gle_received g R V : gR g <= R -> (exists y, V = gV g ++ y) -> gle g (g <| gR := R |> <| gV := V |>).
Proof. intros HR [y ->]. split; cbn; try lia; auto; [exists []; by rewrite app_nil_r|by exists y]. Qed.

(** the distance [lo] is needed where the peer is known only *)
Lemma conn_inv_lo P lo lo' g c : conn_inv lo P g c -> (forall p, P = Some p -> held p (gR g + lo') (gR g + 2 ^ 21) (ooo (rcv c))) -> conn_inv lo' P g c.
Proof.
  intros [C1 C2 C3 C4 C5 C6 C7 C8 C9 C10 C11] Hh. split; try done. destruct P as [p|]; [|done]. destruct C5. split; try done. by apply Hh.
Qed.

(** the bytes are those that come next *)
Definition next_bytes (P : option peer_t) (g : ghost) (data : list Z) : Prop :=
  match P with
  | None => True
  | Some p => data <> [] -> gR g + zlen data <= zlen (pW p) /\ data = slice (pW p) (gR g) (gR g + zlen data)
  end.

Section receive.
Variable P : option peer_t.
Implicit Types g : ghost.

Lemma prefix_grows (l : list Z) v R data n : v = take (length v) l -> zlen v = R -> 0 <= n <= zlen data -> R + zlen data <= zlen l ->
  data = slice l R (R + zlen data) -> v ++ take (Z.to_nat n) data = take (length (v ++ take (Z.to_nat n) data)) l.
Proof.
  intros Hv HR Hn Hl Hd. assert (Hlen : (length (v ++ take (Z.to_nat n) data) = Z.to_nat R + Z.to_nat n)%nat).
  { rewrite length_app, length_take. unfold zlen in *. lia. }
  rewrite Hlen, <- take_take_drop. rewrite Hv at 1. f_equal; [f_equal; unfold zlen in *; lia|]. rewrite Hd at 1. unfold slice. rewrite take_take. f_equal. lia.
Qed.

Lemma deliver_ok lo g c data w : conn_inv lo P g c -> opened (state c) = true -> zlen data <= 65535 -> next_bytes P g data ->
  (is_Some P -> fin_rcvd (rcv c) = false \/ data = []) ->
  wp (deliver c data) (fun a w' => exists g', rstep g c g' a.1 /\ conn_inv (lo - a.2) P g' a.1 /\ gR g' = gR g + a.2 /\ 0 <= a.2 <= zlen data /\
    state a.1 = state c /\ ooo (rcv a.1) = ooo (rcv c) /\ fin_rcvd (rcv a.1) = fin_rcvd (rcv c) /\ w' = w) w.
Proof.
  intros Hc Ho Hd Hnext Hfr. pose proof (ck_rcv _ _ _ _ Hc) as Hr. pose proof (rcv_wf _ _ Hr) as Hwf. pose proof (zlen_nonneg data) as Hd0.
  destruct (ck_open _ _ _ _ Hc Ho) as [HU HR].
  assert (Hput : exists r n x, (if user_closed c then st_ret (rcv c, zlen data) else rbuf_put (rcv c) data) w = Some ((r, n), w) /\ 0 <= n <= zlen data /\
    ring_wf r /\ ring r = ring (rcv c) ++ x /\ x = (if user_closed c then [] else take (Z.to_nat n) data) /\
    irs r = irs (rcv c) /\ rcv_nxt r = rcv_nxt (rcv c) /\ ooo r = ooo (rcv c) /\ ooo_count r = ooo_count (rcv c) /\ fin_rcvd r = fin_rcvd (rcv c)).
  { destruct (user_closed c).
    - exists (rcv c), (zlen data), []. rewrite app_nil_r. split_and!; try done; lia.
    - destruct (rbuf_put_ok (rcv c) data w Hwf ltac:(lia)) as (b & n & E & Hn & Hb & Hring). pose proof Hwf as (W1 & W2 & W3 & W4).
      eexists _, n, _. split; [exact E|]. split; [lia|]. split; [|by rewrite Hring]. unfold ring_wf. cbn. lia. }
  destruct Hput as (r & n & x & E & Hn & Hwf' & Hring & Hx & E1 & E2 & E3 & E4 & E5).
  unfold deliver. apply wp_bind. unfold wp at 1. rewrite E. apply wp_ret. cbn [fst Datatypes.snd].
  set (g' := g <| gR := gR g + n |> <| gV := gV g ++ x |>). exists g'.
  assert (Hle : gle g g') by (apply gle_received; [lia|by exists x]).
  split; [split; [by eexists _, _|done|done|done|done]|]. split; [|split_and!; done || lia].
  destruct Hr as [R1 R2 R3 R4 R5 R6 R7 R8 R9 R10]. destruct Hc as [C1 C2 C3 C4 C5 C6 C7 C8 C9 C10 C11].
  split; cbn; try done.
  - by destruct C1; split.
  - destruct Hwf' as (W1 & W2 & W3 & W4). split; cbn; try done.
    + by rewrite E1.
    + lia.
    + rewrite E2, R3, u32_add. f_equal. lia.
    + by rewrite E4, E3.
    + by rewrite E3.
    + rewrite zlen_app. pose proof (zlen_nonneg x). lia.
    + change (ring r = drop (Z.to_nat (gT g)) (gV g ++ x)). rewrite Hring, R10, drop_app_le by (unfold zlen in *; lia). done.
  - destruct P as [p|]; [|done]. destruct C5 as [T1 T2 T3 T4 T5 TW T6 T7 T8]. specialize (Hfr ltac:(done)).
    assert (Hpos : data <> [] -> fin_rcvd (rcv c) = false /\ gR g + zlen data <= zlen (pW p) /\ data = slice (pW p) (gR g) (gR g + zlen data)).
    { intros Hne. destruct Hfr as [Hf|?]; [|done]. split; [done|]. by apply (Hnext Hne). }
    assert (Hemp : data = [] -> n = 0 /\ x = []).
    { intros Hz. assert (Hz0 : zlen data = 0) by (by rewrite Hz). split; [lia|]. rewrite Hx. destruct (user_closed c); [done|]. by rewrite Hz, take_nil. }
    split; cbn.
    + destruct (decide (data = [])) as [->|Hne]; [destruct (Hemp eq_refl) as [_ ->]; by rewrite app_nil_r|].
      destruct (Hpos Hne) as (F1 & F2 & F3). subst x. destruct (user_closed c) eqn:Eu; [by rewrite app_nil_r|].
      eapply (prefix_grows _ _ (gR g)); [done| |done|done|done]. pose proof (T4 eq_refl HR) as H4. rewrite F1 in H4. cbn in H4. lia.
    + lia.
    + intros _. rewrite E5, zlen_app. pose proof (T3 HR). destruct (user_closed c); subst x; [rewrite zlen_nil; lia|]. rewrite zlen_take by lia. lia.
    + intros Eu _. rewrite E5, zlen_app. pose proof (T4 Eu HR). rewrite Eu in Hx. subst x. rewrite zlen_take by lia. lia.
    + destruct (decide (data = [])) as [->|Hne]; [destruct (Hemp eq_refl); lia|]. destruct (Hpos Hne) as (F1 & F2 & _).
      lia.
    + done.
    + intros _. by apply T6.
    + rewrite E5. destruct (decide (data = [])) as [->|Hne]; [destruct (Hemp eq_refl) as [-> _]; by rewrite Z.add_0_r|].
      destruct (Hpos Hne) as (F1 & F2 & _). rewrite F1 in *. lia.
    + rewrite E3. eapply held_wider; [| |exact T8]; lia.
  - intros _. split; lia.
  - intros Hs. rewrite Hs in Ho. done.
  - intros Hs. rewrite Hs in Ho. done.
  - by rewrite E5.
Qed.

(** the FIN, after all the data *)
Lemma fin_received_ok lo g c w : conn_inv lo P g c -> can_receive (state c) = true ->
  (forall p, P = Some p -> gR g = zlen (pW p) /\ pF p = true) ->
  wp (fin_received c) (fun c' w' => exists g', rstep g c g' c' /\ conn_inv (lo - 1) P g' c' /\ gR g' = gR g + 1 /\
    ooo (rcv c') = ooo (rcv c) /\ fin_rcvd (rcv c') = true /\ w' = w) w.
Proof.
  intros Hc Hcan Hp. unfold fin_received. apply wp_bind, wp_gets, wp_ret.
  assert (Hfr : fin_rcvd (rcv c) = false) by (destruct (fin_rcvd (rcv c)) eqn:E; [|done]; by rewrite (ck_rfin _ _ _ _ Hc E) in Hcan).
  assert (Ho : opened (state c) = true) by (by destruct (state c)). destruct (ck_open _ _ _ _ Hc Ho) as [HU HR].
  set (g' := g <| gR := gR g + 1 |> <| gV := gV g |>). exists g'.
  assert (Hle : gle g g') by (apply gle_received; [lia|exists []; by rewrite app_nil_r]).
  set (c1 := c <| rcv ::= _ |> <| ack ::= _ |>).
  assert (Hmid : snd_ok g' (snd c) /\ rcv_ok g' (rcv c1) /\ match P with Some p => tracks (lo - 1) p g' (user_closed c) (rcv c1) | None => True end).
  { pose proof (ck_snd _ _ _ _ Hc) as []. pose proof (ck_rcv _ _ _ _ Hc) as [R1 R2 R3 R4 R5 R6 R7 R8 R9 R10]. split; [by split|]. split.
    - split; cbn; try done; [lia|]. rewrite R3, u32_add. f_equal. lia.
    - pose proof (ck_tracks _ _ _ _ Hc) as Ht. destruct P as [p|]; [|done]. destruct (Hp p eq_refl) as [Hw Hf].
      destruct Ht as [T1 T2 T3 T4 T5 TW T6 T7 T8]. rewrite Hfr in *. cbn in T3, T4. split; cbn; try done; try lia.
      { split; [lia|done]. }
      eapply held_wider; [| |exact T8]; lia. }
  destruct Hmid as (M1 & M2 & M3). destruct Hc as [C1 C2 C3 C4 C5 C6 C7 C8 C9 C10 C11].
  assert (Hfin : forall s t, opened s = true -> can_receive s = false -> s <> TCP_ESTABLISHED -> (s = TCP_CLOSE_WAIT -> state c = TCP_ESTABLISHED) -> let c2 := c1 <| state := s |> <| tmr := t |> in
    rstep g c g' c2 /\ conn_inv (lo - 1) P g' c2 /\ gR g' = gR g + 1 /\ ooo (rcv c2) = ooo (rcv c) /\ fin_rcvd (rcv c2) = true /\ w = w).
  { intros s t Hs1 Hs2 Hs3 Hs4. split; [split; try done; by exists (gR g + 1), (gV g)|]. split; [|done]. split; cbn; try done; try (by intros ->).
    - intros _. lia.
    - intros HF _. split; [done|]. intros Es. destruct (C9 HF Ho) as [H _]. by apply H, Hs4. }
  assert (Ht : forall s, c1 <| state := s |> = c1 <| state := s |> <| tmr := tmr c1 |>) by (intros; unfold c1; by destruct c).
  change (state c1) with (state c). destruct (state c) eqn:Est; try done; cbv iota.
  - rewrite Ht. by apply Hfin.
  - rewrite Ht. by apply Hfin.
  - by apply (Hfin TCP_TIME_WAIT).
Qed.

(** ** Segments out of order *)

Lemma ooo_insert_all (Q : ooo_seg_t -> Prop) l s l' : ooo_insert l s = Some l' -> Forall Q l -> Q s -> Forall Q l' /\ zlen l' = zlen l + 1.
Proof.
  intros Hi Hl Hs. revert l' Hi. induction Hl as [|o t Ho Ht IH]; intros l' Hi; cbn [ooo_insert] in Hi; [injection Hi as <-; by split; [constructor|]|].
  destruct (SEQ_LT (o_seq o) (o_seq s)).
  - destruct (ooo_insert t s) as [t'|]; [|done]. injection Hi as <-. destruct (IH t' eq_refl) as [H1 H2]. rewrite !zlen_cons. split; [by constructor|lia].
  - destruct (_ && _); [done|]. injection Hi as <-. rewrite !zlen_cons. split; [by repeat constructor|lia].
Qed.

Lemma ooo_insert_held p lo hi l s o l' : ooo_insert l s = Some l' -> held p lo hi l -> hi - lo < 2 ^ 31 -> lo <= o <= hi ->
  o_seq s = u32 (pI p + 1 + o) -> piece p o (o_data s) (o_fin s) -> held p lo hi l'.
Proof.
  intros Hi Hl Hlt Ho Hq Hp. revert lo l' Hi Hl Hlt Ho. induction l as [|x t IH]; intros lo l' Hi Hl Hlt Ho; cbn [ooo_insert] in Hi.
  { injection Hi as <-. by exists o. }
  destruct Hl as (ox & Hox & Hqx & Hpx & Ht). rewrite Hqx, Hq, seq_lt in Hi by lia. destruct (ox <? o) eqn:E; zbool.
  - destruct (ooo_insert t s) as [t'|]; [|done]. injection Hi as <-. exists ox. split_and!; try done; try lia. apply (IH ox t'); try done; lia.
  - destruct (_ && _); [done|]. injection Hi as <-. exists o. split_and!; try done; try lia. exists ox. split_and!; try done; lia.
Qed.

Lemma adv_window_bound c : ring_wf (rcv c) -> opt_ok (opt c) -> 0 <= adv_window c <= rb_size (rcv c) - rb_len (rcv c).
Proof.
  intros (H1 & H2 & H3 & H4) Ho. unfold RBUF_SIZE in H2. unfold adv_window. rewrite (u32_small (_ - _)) by (unfold is_u32; lia).
  set (w := min_u32 _ _). assert (Hw : 0 <= w <= rb_size (rcv c) - rb_len (rcv c)).
  { unfold w, min_u32. pose proof (u32_bound (Z.shiftl 65535 (rcv_ws (opt c)))) as Hb. unfold is_u32 in Hb. zcases; lia. }
  clearbody w. assert (Hl : forall k, 0 <= k <= 4 -> 0 <= Z.land w (2 ^ 32 - 2 ^ k) <= w).
  { intros k Hk. replace (2 ^ 32 - 2 ^ k) with (Z.shiftl (Z.ones (32 - k)) k) by (rewrite Z.shiftl_mul_pow2, Z.ones_equiv by lia; assert (E : 2 ^ 32 = 2 ^ (32 - k) * 2 ^ k) by (rewrite <- Z.pow_add_r by lia; f_equal; lia); lia).
    assert (E : Z.land w (Z.shiftl (Z.ones (32 - k)) k) = Z.shiftl (Z.shiftr w k) k).
    { apply Z.bits_inj'. intros i Hi. rewrite Z.land_spec. destruct (decide (i < k)).
      - rewrite !Z.shiftl_spec_low by lia. apply andb_false_r.
      - rewrite !Z.shiftl_spec, Z.shiftr_spec by lia. replace (i - k + k) with i by lia. destruct (decide (i - k < 32 - k)).
        + rewrite Z.ones_spec_low by lia. apply andb_true_r.
        + rewrite Z.ones_spec_high by lia. rewrite andb_false_r. symmetry. apply (testbit_above 32); lia. }
    rewrite E, Z.shiftl_mul_pow2, Z.shiftr_div_pow2 by lia. assert (0 < 2 ^ k) by lia. pose proof (Z.div_mod w (2 ^ k) ltac:(lia)).
    pose proof (Z.mod_pos_bound w (2 ^ k) ltac:(lia)). assert (0 <= w / 2 ^ k) by (apply Z.div_pos; lia). nia. }
  destruct Ho as [-> | ->].
  - change (u32 (Z.lnot (u32 (Z.shiftl 1 0 - 1)))) with (2 ^ 32 - 2 ^ 0). pose proof (Hl 0 ltac:(lia)). lia.
  - change (u32 (Z.lnot (u32 (Z.shiftl 1 RCV_WSCALE - 1)))) with (2 ^ 32 - 2 ^ 4). pose proof (Hl 4 ltac:(lia)). lia.
Qed.

(** another list of held segments *)
Lemma conn_inv_ooo lo lo' g c l k q : conn_inv lo P g c -> k = zlen l -> k <= OOO_MAX ->
  Forall (fun s => is_u32 (o_seq s) /\ zlen (o_data s) <= 65535) l -> opened (state c) = true ->
  (forall p, P = Some p -> held p (gR g + lo') (gR g + 2 ^ 21) l) ->
  conn_inv lo' P g (c <| rcv ::= fun r => r <| ooo := l |> <| ooo_count := k |> <| last_ooo := q |> |>).
Proof.
  intros [C1 C2 C3 C4 C5 C6 C7 C8 C9 C10 C11] Hk Hm Hl Ho Hh. split; try done.
  - destruct C4. by split.
  - destruct P as [p|]; [|done]. destruct C5. destruct (C6 Ho) as [_ HR]. split; try done; [cbn; lia|]. by apply Hh.
Qed.

(** what a segment must be, where the peer is known *)
Definition fits (g : ghost) (seq : Z) (data : list Z) (fin : bool) : Prop :=
  forall p, P = Some p -> exists o, seq = u32 (pI p + 1 + o) /\ piece p o data fin /\ gR g - 2 ^ 30 <= o <= gR g + 2 ^ 30.

Lemma rcv_nxt_at lo g c p : conn_inv lo P g c -> P = Some p -> 0 <= gR g -> rcv_nxt (rcv c) = u32 (pI p + 1 + gR g).
Proof.
  intros Hc -> HR. rewrite (ro_nxt _ _ (ck_rcv _ _ _ _ Hc)). pose proof (ck_tracks _ _ _ _ Hc) as Ht. cbn in Ht. by rewrite (tr_irs _ _ _ _ _ Ht HR).
Qed.

Lemma ooo_store_ok g c seq data fin w : conn_ok P g c -> opened (state c) = true -> zlen data <= 65535 -> is_u32 seq -> fits g seq data fin ->
  seq <> rcv_nxt (rcv c) -> SEQ_LT seq (rcv_nxt (rcv c)) = false -> wp (ooo_store c seq data fin) (outcome P still g c w) w.
Proof.
  intros Hc Ho Hd Hs Hfit Hne Hlt. unfold ooo_store. pose proof (ck_rcv _ _ _ _ Hc) as Hr. destruct (ck_open _ _ _ _ Hc Ho) as [HU HR].
  destruct (ro_count _ _ Hr) as [Hcnt _]. destruct (OOO_MAX <=? ooo_count (rcv c)) eqn:E; zbool; [by apply outcome_here|].
  set (c1 := c <| rcv ::= fun r => r <| last_ooo := seq |> |>).
  assert (Hc1 : conn_ok P g c1).
  { destruct Hc as [C1 C2 C3 C4 C5 C6 C7 C8 C9 C10 C11]. split; try done; [by destruct C4|]. destruct P; [|done]. by destruct C5. }
  change (adv_window c1) with (adv_window c). destruct (SEQ_GT _ _) eqn:Eg; [by apply outcome_still|].
  destruct (ooo_insert (ooo (rcv c)) _) as [l|] eqn:Ei; [|by apply outcome_still].
  apply wp_bind. unfold wp at 1. assert (Hm : exists b w', kmalloc (24 + zlen data) w = Some (b, w') /\ clock w' = clock w /\ sent w' = sent w).
  { unfold kmalloc. destruct (chunks w) as [|b ch]; eauto 6. }
  destruct Hm as (b & w' & Em & Ek & Es). rewrite Em. apply wp_ret.
  destruct (ooo_insert_all _ _ _ _ Ei (ro_ooo _ _ Hr) (conj Hs Hd)) as [Hall Hlen].
  assert (Hext : ext (iss (snd c)) g g w w') by (split; [done|exists []; by rewrite app_nil_r]).
  assert (Hout : forall c', conn_ok P g c' -> snd c' = snd c -> user_closed c' = user_closed c -> outcome P still g c w c' w').
  { intros c' Hc' Hsnd Huc. exists g. split; [done|]. split; [apply gle_refl|]. split; [done|]. rewrite Hsnd, Huc. by split_and!. }
  destruct b; [|by apply Hout]. apply Hout; try done.
  change (conn_ok P g (c <| rcv ::= fun r => r <| ooo := l |> <| ooo_count := ooo_count (rcv c) + 1 |> <| last_ooo := seq |> |>)).
  apply (conn_inv_ooo 1 1 g c l); try done; try lia. intros p Hp. destruct (Hfit p Hp) as (o & -> & Hpc & Hob).
  pose proof (rcv_nxt_at _ _ _ _ Hc Hp HR) as Hnxt. rewrite Hnxt in Hne, Hlt. rewrite seq_lt in Hlt by lia. zbool.
  assert (Hno : o <> gR g) by congruence. pose proof (adv_window_bound c (rcv_wf _ _ Hr) (ck_opt _ _ _ _ Hc)) as Hadv.
  destruct (ro_size _ _ Hr) as [_ Hsz]. pose proof (ro_len _ _ Hr). unfold RBUF_SIZE in Hsz.
  change (rcv_nxt (rcv c)) with (rcv_nxt (rcv c)) in Eg. rewrite Hnxt, !u32_add, <- !Z.add_assoc, !Z.add_assoc in Eg.
  rewrite <- (Z.add_assoc _ o), <- (Z.add_assoc _ (gR g)) in Eg. pose proof (zlen_nonneg data). rewrite seq_gt in Eg by lia. zbool.
  pose proof (ck_tracks _ _ _ _ Hc) as Ht. rewrite Hp in Ht.
  eapply ooo_insert_held; [exact Ei|apply Ht| | |done|done]; lia.
Qed.

(** ** Looking through what is held *)

(** the data of a held segment, where it reaches beyond what was received *)
Lemma drain_data lo g c s o w : conn_inv lo P g c -> opened (state c) = true -> is_u32 (o_seq s) -> zlen (o_data s) <= 65535 ->
  SEQ_LEQ (o_seq s) (rcv_nxt (rcv c)) = true -> -65536 <= lo <= 1 ->
  (forall p, P = Some p -> o_seq s = u32 (pI p + 1 + o) /\ piece p o (o_data s) (o_fin s) /\ gR g - 2 ^ 20 <= o <= gR g /\ held p o (gR g + 2 ^ 21) (ooo (rcv c))) ->
  wp (if SEQ_GT (u32 (o_seq s + zlen (o_data s))) (rcv_nxt (rcv c)) then
        let skip := u32 (rcv_nxt (rcv c) - o_seq s) in
        let! d := bytes_in (o_data s) skip (zlen (o_data s) - skip) in
        let! (c, _) := deliver c d in st_ret c
      else st_ret c)
    (fun c' w' => exists g', rstep g c g' c' /\ conn_inv (Z.min 0 (o - gR g')) P g' c' /\ state c' = state c /\
      ooo (rcv c') = ooo (rcv c) /\ fin_rcvd (rcv c') = fin_rcvd (rcv c) /\ (is_Some P -> gR g' <= Z.max (gR g) (o + zlen (o_data s))) /\ w' = w) w.
Proof.
  intros Hc Ho Hq Hd Hle Hlo Hp. pose proof (ck_rcv _ _ _ _ Hc) as Hr. destruct (ck_open _ _ _ _ Hc Ho) as [HU HR].
  pose proof (zlen_nonneg (o_data s)) as Hd0.
  destruct (SEQ_GT _ _) eqn:Eg.
  - destruct (seq_place (gI g + 1) (gR g) (o_seq s) Hq) as (x & Ex & Hx). rewrite (ro_nxt _ _ Hr) in *. rewrite Ex in *.
    rewrite seq_leq in Hle by lia. zbool. rewrite u32_add, <- Z.add_assoc in Eg.
    assert (Hxl : gR g < x + zlen (o_data s)).
    { destruct (decide (x + zlen (o_data s) <= gR g)) as [Hcon|]; [|lia]. rewrite seq_gt in Eg by lia. zbool. lia. }
    replace (gI g + 1 + gR g) with (gI g + 1 + gR g) by lia. rewrite u32_diff by lia. cbv zeta.
    apply wp_bind. unfold wp at 1. destruct (decide (gR g - x <= zlen (o_data s))) as [Hsk|]; [|lia].
    rewrite bytes_in_ok by lia. replace (gR g - x + (zlen (o_data s) - (gR g - x))) with (zlen (o_data s)) by lia.
    assert (Hz : zlen (slice (o_data s) (gR g - x) (zlen (o_data s))) = zlen (o_data s) - (gR g - x)) by (rewrite zlen_slice; lia).
    assert (Hxo : forall p, P = Some p -> x = o).
    { intros p Hpp. destruct (Hp p Hpp) as (E & _ & Ho1 & _). rewrite Hpp in Hc. pose proof (ck_tracks _ _ _ _ Hc) as Ht. cbn in Ht.
      rewrite (tr_irs _ _ _ _ _ Ht HR) in E. apply u32_inj in E; lia. }
    apply wp_bind. eapply wp_mono; [apply (deliver_ok lo); try done; [lia| |]|].
    + destruct P as [p|] eqn:EP; [|done]. intros Hne. destruct (Hp p eq_refl) as (_ & Hpc & Hob & _). rewrite (Hxo p eq_refl) in *.
      assert (Hne' : o_data s <> []) by (intros Hnil; rewrite Hnil in *; change (zlen (@nil Z)) with 0 in *; lia).
      destruct (pc_data _ _ _ _ Hpc Hne') as [Hl Hs]. pose proof (pc_pos _ _ _ _ Hpc). split; [lia|]. rewrite Hz. rewrite Hs at 1.
      rewrite slice_slice by lia. f_equal; lia.
    + intros [p Hpp]. left. destruct (Hp p Hpp) as (_ & Hpc & _). rewrite (Hxo p Hpp) in *.
      assert (Hne' : o_data s <> []) by (intros Hnil; rewrite Hnil in *; change (zlen (@nil Z)) with 0 in *; lia).
      destruct (pc_data _ _ _ _ Hpc Hne') as [Hl _]. rewrite Hpp in Hc. pose proof (ck_tracks _ _ _ _ Hc) as Ht. cbn in Ht.
      pose proof (tr_fin _ _ _ _ _ Ht) as Hf. destruct (fin_rcvd (rcv c)); [lia|done].
    + cbn beta. intros [c' n] w' (g' & Hs & Hc' & HR' & Hn & Est & Eo & Ef & ->). cbn [fst Datatypes.snd] in *. apply wp_ret.
      exists g'. split; [done|]. split; [|split_and!; try done].
      * eapply conn_inv_lo; [exact Hc'|]. intros p Hpp. rewrite Eo. destruct (Hp p Hpp) as (_ & _ & Ho1 & Hh).
        eapply held_wider; [| |exact Hh]; lia.
      * intros [p Hpp]. rewrite <- (Hxo p Hpp). lia.
  - apply wp_ret. exists g. split; [apply rstep_refl|]. split; [|split_and!; try done; lia].
    eapply conn_inv_lo; [exact Hc|]. intros p Hpp. destruct (Hp p Hpp) as (_ & _ & Ho1 & Hh). eapply held_wider; [| |exact Hh]; lia.
Qed.

(** the place of the first held segment, where the peer is known *)
Lemma held_first lo g c s t : conn_inv lo P g c -> ooo (rcv c) = s :: t -> 0 <= gR g -> -65536 <= lo <= 1 ->
  exists o, (forall p, P = Some p -> o_seq s = u32 (pI p + 1 + o) /\ piece p o (o_data s) (o_fin s) /\ gR g + lo <= o <= gR g + 2 ^ 21 /\
    held p o (gR g + 2 ^ 21) t /\ SEQ_LEQ (o_seq s) (rcv_nxt (rcv c)) = (o <=? gR g)).
Proof.
  intros Hc Eo HR Hlo. destruct P as [p|] eqn:EP; [|by exists 0]. pose proof (ck_tracks _ _ _ _ Hc) as Ht. cbn in Ht.
  pose proof (tr_ooo _ _ _ _ _ Ht) as Hh. rewrite Eo in Hh. destruct Hh as (o & Hob & Hq & Hpc & Hh). exists o. intros p' [= <-].
  split_and!; try done; try lia. rewrite (ro_nxt _ _ (ck_rcv _ _ _ _ Hc)), (tr_irs _ _ _ _ _ Ht HR), Hq. apply seq_leq. lia.
Qed.

Lemma drain_ok l lo g c w : conn_inv lo P g c -> opened (state c) = true -> (fin_rcvd (rcv c) = false -> can_receive (state c) = true) ->
  -65536 <= lo <= 1 -> ooo (rcv c) = l -> wp (ooo_drain_list l c) (fun c' w' => w' = w /\ exists g', rstep g c g' c' /\ conn_ok P g' c') w.
Proof.
  revert lo g c w. induction l as [|s t IH]; intros lo g c w Hc Ho Hcan Hlo El; cbn [ooo_drain_list].
  { apply wp_ret. split; [done|]. exists g. split; [apply rstep_refl|]. eapply conn_inv_lo; [exact Hc|]. intros p _. by rewrite El. }
  destruct (ck_open _ _ _ _ Hc Ho) as [HU HR]. pose proof (ck_rcv _ _ _ _ Hc) as Hr.
  destruct (held_first lo g c s t Hc El HR Hlo) as [o Hfirst].
  destruct (SEQ_LEQ (o_seq s) (rcv_nxt (rcv c))) eqn:Eleq.
  2: { apply wp_ret. split; [done|]. exists g. split; [apply rstep_refl|]. eapply conn_inv_lo; [exact Hc|]. intros p Hp.
       destruct (Hfirst p Hp) as (Hq & Hpc & Hob & Hh & Hle). symmetry in Hle. zbool. rewrite El. exists o. split_and!; try done; lia. }
  pose proof (ro_ooo _ _ Hr) as Hall. rewrite El in Hall. apply Forall_cons in Hall as [[Hsq Hsd] Hall].
  destruct (ro_count _ _ Hr) as [Hcnt Hmax]. rewrite El, zlen_cons in Hcnt. pose proof (zlen_nonneg t).
  set (c1 := c <| rcv ::= _ |>).
  assert (Hc1 : conn_inv (Z.min 0 (o - gR g)) P g c1).
  { apply (conn_inv_ooo lo _ g c t (ooo_count (rcv c) - 1) (last_ooo (rcv c)) Hc); try done; try lia.
    intros p Hp. destruct (Hfirst p Hp) as (_ & _ & Hob & Hh & _). eapply held_wider; [| |exact Hh]; lia. }
  assert (Hs1 : rstep g c g c1) by (destruct (rstep_refl g c); by split).
  assert (Hc1' : conn_inv (if P then Z.min 0 (o - gR g) else 0) P g c1) by (destruct P; [done|]; by eapply conn_inv_lo).
  apply wp_bind. eapply wp_mono; [apply (drain_data (if P then Z.min 0 (o - gR g) else 0) g c1 s o); try done|].
  { destruct P as [p|] eqn:EP; [|done]. destruct (Hfirst p eq_refl) as (_ & _ & Hob & _). lia. }
  { intros p Hp. destruct (Hfirst p Hp) as (Hq & Hpc & Hob & Hh & Hle). symmetry in Hle. zbool. split_and!; try done; lia. }
  cbn beta. intros c2 w2 (g2 & Hs2 & Hc2 & Est2 & Eo2 & Ef2 & Htop2 & ->). pose proof (ge_R _ _ (rs_gle _ _ _ _ Hs2)) as HR2.
  assert (Hlo2 : is_Some P -> -65536 <= Z.min 0 (o - gR g2) <= 1).
  { intros [p Hp]. specialize (Htop2 (ex_intro _ p Hp)). destruct (Hfirst p Hp) as (_ & _ & Hob & _). lia. }
  apply wp_bind.
  assert (Hfin : wp (if o_fin s && (rcv_nxt (rcv c2) =? u32 (o_seq s + zlen (o_data s))) && negb (fin_rcvd (rcv c2)) then fin_received c2 else st_ret c2)
    (fun c3 w3 => w3 = w /\ exists g3 lo3, rstep g2 c2 g3 c3 /\ conn_inv lo3 P g3 c3 /\ -65536 <= lo3 <= 1 /\ ooo (rcv c3) = t /\
      (fin_rcvd (rcv c3) = false -> can_receive (state c3) = true)) w).
  { destruct (_ && _) eqn:Ef.
    - apply andb_true_iff in Ef as [Ef Ef3]. apply andb_true_iff in Ef as [Ef1 Ef4]. zbool.
      assert (HP : forall p, P = Some p -> gR g2 = o /\ gR g2 = zlen (pW p) /\ pF p = true).
      { intros p Hp. destruct (Hfirst p Hp) as (Hq & Hpc & Hob & Hh & Hle). symmetry in Hle. zbool.
        destruct (pc_fin _ _ _ _ Hpc Ef1) as (HF & Hnil & Hw). rewrite Hnil in *. change (zlen (@nil Z)) with 0 in *.
        rewrite (rcv_nxt_at _ _ _ _ Hc2 Hp ltac:(lia)), Hq, u32_add, Z.add_0_r in Ef4. specialize (Htop2 (ex_intro _ p Hp)).
        apply u32_inj in Ef4; [|lia]. rewrite Hp in Hc2. pose proof (ck_tracks _ _ _ _ Hc2) as Ht. cbn in Ht. pose proof (tr_fin _ _ _ _ _ Ht) as Hf.
        rewrite Ef3 in Hf. split_and!; try done; lia. }
      eapply wp_mono; [apply (fin_received_ok (Z.min 0 (o - gR g2)) g2); try done|].
      { rewrite Est2. change (state c1) with (state c). apply Hcan. by rewrite <- Ef3, Ef2. }
      { intros p Hp. apply (HP p Hp). }
      cbn beta. intros c3 w3 (g3 & Hs3 & Hc3 & HR3 & Eo3 & Ef5 & ->). split; [done|]. exists g3, (if P then -1 else 0). split; [done|].
      split; [destruct P as [p|]; [destruct (HP p eq_refl) as (E & _); by replace (-1) with (Z.min 0 (o - gR g2) - 1) by lia|by eapply conn_inv_lo]|].
      split; [by destruct P|]. split; [by rewrite Eo3, Eo2|]. by rewrite Ef5.
    - apply wp_ret. split; [done|]. exists g2, (if P then Z.min 0 (o - gR g2) else 0). split; [apply rstep_refl|].
      split; [destruct P; [done|by eapply conn_inv_lo]|]. split; [destruct P; [by apply Hlo2|done]|]. split; [by rewrite Eo2|].
      rewrite Ef2, Est2. exact Hcan. }
  eapply wp_mono; [exact Hfin|]. cbn beta. intros c3 w3 (-> & g3 & lo3 & Hs3 & Hc3 & Hlo3 & Eo3 & Hcan3).
  assert (Hs13 : rstep g c g3 c3) by (eapply rstep_trans; [exact Hs1|]; by eapply rstep_trans).
  eapply wp_mono; [apply (IH lo3 g3); try done; by apply Hs13|]. cbn beta. intros c4 w4 [-> (g4 & Hs4 & Hc4)]. split; [done|].
  exists g4. split; [by eapply rstep_trans|done].
Qed.

(** ** The data and the FIN of a segment *)

(** after the data that is next: the FIN, and what is held *)
Lemma deliver_rest g c data fin (go : Z -> bool) w : conn_ok P g c -> can_receive (state c) = true -> zlen data <= 65535 -> next_bytes P g data ->
  (forall n, go n = true -> n = zlen data) ->
  (fin = true -> forall p, P = Some p -> data = [] /\ gR g = zlen (pW p) /\ pF p = true) ->
  wp (let! (c, got) := deliver c data in
      let! c := (if fin && go got then fin_received c else st_ret c) in ooo_drain c)
    (fun c' w' => w' = w /\ exists g', rstep g c g' c' /\ conn_ok P g' c') w.
Proof.
  intros Hc Hcan Hd Hnext Hgo Hfin. assert (Ho : opened (state c) = true) by (by destruct (state c)).
  assert (Hfr : fin_rcvd (rcv c) = false) by (destruct (fin_rcvd (rcv c)) eqn:E; [|done]; by rewrite (ck_rfin _ _ _ _ Hc E) in Hcan).
  apply wp_bind. eapply wp_mono; [apply (deliver_ok 1 g); try done; by left|]. cbn beta.
  intros [c1 n] w1 (g1 & Hs1 & Hc1 & HR1 & Hn & Est1 & Eo1 & Ef1 & ->). cbn [fst Datatypes.snd] in *. apply wp_bind.
  assert (Hmid : wp (if fin && go n then fin_received c1 else st_ret c1) (fun c2 w2 => w2 = w /\ exists g2 lo2, rstep g1 c1 g2 c2 /\ conn_inv lo2 P g2 c2 /\
    -65536 <= lo2 <= 1 /\ (fin_rcvd (rcv c2) = false -> can_receive (state c2) = true)) w).
  { destruct (fin && go n) eqn:E.
    - apply andb_true_iff in E as [-> E]. apply Hgo in E as ->.
      eapply wp_mono; [apply (fin_received_ok (1 - zlen data) g1); try done; [by rewrite Est1|]|].
      { intros p Hp. destruct (Hfin eq_refl p Hp) as (Hz & HW & HF). rewrite Hz in HR1. change (zlen (@nil Z)) with 0 in HR1. split; [lia|done]. }
      cbn beta. intros c2 w2 (g2 & Hs2 & Hc2 & _ & _ & Ef2 & ->). split; [done|]. exists g2, (1 - zlen data - 1). split; [done|]. split; [done|].
      split; [lia|]. by rewrite Ef2.
    - apply wp_ret. split; [done|]. exists g1, (1 - n). split; [apply rstep_refl|]. split; [done|]. split; [lia|]. by rewrite Est1. }
  eapply wp_mono; [exact Hmid|]. cbn beta. intros c2 w2 (-> & g2 & lo2 & Hs2 & Hc2 & Hlo2 & Hcan2).
  assert (Hs12 : rstep g c g2 c2) by (by eapply rstep_trans).
  eapply wp_mono; [apply (drain_ok (ooo (rcv c2)) lo2 g2); try done; by apply Hs12|]. cbn beta. intros c3 w3 [-> (g3 & Hs3 & Hc3)].
  split; [done|]. exists g3. split; [by eapply rstep_trans|done].
Qed.

Lemma receive_ok g c seq data fin w : conn_ok P g c -> can_receive (state c) = true -> zlen data <= 65535 -> is_u32 seq -> fits g seq data fin ->
  wp (receive c seq data fin) (outcome P received g c w) w.
Proof.
  intros Hc Hcan Hd Hq Hfit. assert (Ho : opened (state c) = true) by (by destruct (state c)).
  assert (Hfr : fin_rcvd (rcv c) = false) by (destruct (fin_rcvd (rcv c)) eqn:E; [|done]; by rewrite (ck_rfin _ _ _ _ Hc E) in Hcan).
  destruct (ck_open _ _ _ _ Hc Ho) as [HU HR]. pose proof (ck_rcv _ _ _ _ Hc) as Hr. pose proof (zlen_nonneg data) as Hd0. unfold receive.
  assert (Hend : forall k (m : ST world_t tcp_conn_t), wp m (outcome P received g c w) w ->
    wp (st_bind m (fun c => st_ret (c <| ack ::= k |>))) (outcome P received g c w) w).
  { intros k m Hm. apply wp_bind. eapply wp_mono; [exact Hm|]. cbn beta. intros c' w' Ho'. apply wp_ret.
    eapply outcome_update; [exact Ho'| |done|done]. intros g' _ _ Hc'. by eapply conn_ok_ext; [..|exact Hc']. }
  assert (Hstep : forall m : ST world_t tcp_conn_t, wp m (fun c' w' => w' = w /\ exists g', rstep g c g' c' /\ conn_ok P g' c') w -> wp m (outcome P received g c w) w).
  { intros m Hm. eapply wp_mono; [exact Hm|]. cbn beta. intros c' w' [-> (g' & Hs & Hc')]. by apply (rstep_outcome P g c w g'). }
  assert (HW : forall p, P = Some p -> gR g <= zlen (pW p)).
  { intros p Hp. rewrite Hp in Hc. pose proof (ck_tracks _ _ _ _ Hc) as Ht. cbn in Ht. pose proof (tr_fin _ _ _ _ _ Ht) as Hf. by rewrite Hfr in Hf. }
  destruct (seq =? rcv_nxt (rcv c)) eqn:E1; zbool.
  - assert (HP : forall p, P = Some p -> piece p (gR g) data fin).
    { intros p Hp. destruct (Hfit p Hp) as (o & Es & Hpc & Hob). rewrite (rcv_nxt_at _ _ _ _ Hc Hp HR), Es in E1. apply u32_inj in E1; [|lia].
      replace (gR g) with o by lia. done. }
    assert (Hnext : next_bytes P g data) by (destruct P as [p|]; [intros Hne; by apply (pc_data _ _ _ _ (HP p eq_refl))|done]).
    pose proof (deliver_rest g c data fin (fun got => got =? zlen data) w Hc Hcan Hd Hnext) as Hrest.
    specialize (Hrest (fun n Hn => proj1 (Z.eqb_eq _ _) Hn)).
    assert (Hf : fin = true -> forall p, P = Some p -> data = [] /\ gR g = zlen (pW p) /\ pF p = true).
    { intros Hf p Hp. destruct (pc_fin _ _ _ _ (HP p Hp) Hf) as (HF & Hz & Hw). specialize (HW p Hp). split; [done|]. split; [lia|done]. }
    apply Hrest, Hstep, (Hend (fun a => a <| ack_pending := true |> <| unacked_segs ::= fun k => u32 (k + 1) |>)) in Hf.
    unfold wp, st_bind in *. destruct (deliver c data w) as [[[c1 n] w1]|]; [|done].
    destruct ((if fin && (n =? zlen data) then fin_received c1 else st_ret c1) w1) as [[c2 w2]|]; exact Hf.
  - apply Hend. destruct (SEQ_LT seq (rcv_nxt (rcv c))) eqn:E2.
    2: { eapply wp_mono; [by apply (ooo_store_ok g)|]. cbn beta. intros c' w' Ho'. eapply outcome_weaken; [|exact Ho'].
         intros g1 ->. exists (gR g), (gV g). by destruct g. }
    apply Hstep. destruct (seq_place (gI g + 1) (gR g) seq Hq) as (x & Ex & Hx). rewrite (ro_nxt _ _ Hr), Ex in *. rewrite seq_lt in E2 by lia. zbool.
    rewrite u32_diff by lia.
    assert (Hxo : forall p, P = Some p -> piece p x data fin).
    { intros p Hp. destruct (Hfit p Hp) as (o & Es & Hpc & Hob). rewrite Hp in Hc. pose proof (ck_tracks _ _ _ _ Hc) as Ht. cbn in Ht.
      rewrite (tr_irs _ _ _ _ _ Ht HR) in Es. apply u32_inj in Es; [|lia]. by replace x with o by lia. }
    destruct (gR g - x <? zlen data) eqn:E3; zbool.
    + apply wp_bind. unfold wp at 1. rewrite bytes_in_ok by lia. replace (gR g - x + (zlen data - (gR g - x))) with (zlen data) by lia.
      set (d := slice data (gR g - x) (zlen data)). assert (Hz : zlen d = zlen data - (gR g - x)) by (unfold d; rewrite zlen_slice; lia).
      assert (Hne : data <> []) by (intros Hnil; rewrite Hnil in *; change (zlen (@nil Z)) with 0 in *; lia).
      apply (deliver_rest g c d fin (fun got => got =? zlen data - (gR g - x))); try done; [lia| |by intros n Hn; zbool; lia|].
      * destruct P as [p|]; [|done]. intros _. destruct (pc_data _ _ _ _ (Hxo p eq_refl) Hne) as [Hl Hs]. pose proof (pc_pos _ _ _ _ (Hxo p eq_refl)).
        split; [lia|]. rewrite Hz. unfold d. rewrite Hs at 1. rewrite slice_slice by lia. f_equal; lia.
      * intros Hf p Hp. destruct (pc_fin _ _ _ _ (Hxo p Hp) Hf) as (_ & Hnil & _). done.
    + destruct (fin && (gR g - x =? zlen data) && negb (fin_rcvd (rcv c))) eqn:E4.
      * apply andb_true_iff in E4 as [E4 _]. apply andb_true_iff in E4 as [Ef E4]. zbool.
        eapply wp_mono; [apply (fin_received_ok 1 g); try done|].
        { intros p Hp. destruct (pc_fin _ _ _ _ (Hxo p Hp) Ef) as (_ & Hnil & _). rewrite Hnil in E4. change (zlen (@nil Z)) with 0 in E4. lia. }
        cbn beta. intros c' w' (g' & Hs & Hc' & _ & _ & _ & ->). split; [done|]. exists g'. split; [done|].
        eapply conn_inv_lo; [exact Hc'|]. intros p Hp. destruct (pc_fin _ _ _ _ (Hxo p Hp) Ef) as (_ & Hnil & _). rewrite Hnil in E4. change (zlen (@nil Z)) with 0 in E4. lia.
      * apply wp_ret. split; [done|]. exists g. split; [apply rstep_refl|done].
Qed.
End receive.
