(* ===== verification/TcpAck.v ===== *)
(** Acknowledgements: what they take from the send buffer, and what is sent
    again. *)

From S2P Require Import Prelude Wire Tcp TcpConn TcpInv TcpOut.

(** ** The scoreboard *)

Definition pairs_ok (l : list (Z * Z)) : Prop := zlen l <= SB_MAX /\ Forall (fun b => is_u32 b.1 /\ is_u32 b.2) l.

Lemma sb_merge_ok l s e : is_u32 s -> is_u32 e -> Forall (fun b => is_u32 b.1 /\ is_u32 b.2) l ->
  let '(b, after) := sb_merge l s e in is_u32 b.1 /\ is_u32 b.2 /\ Forall (fun b => is_u32 b.1 /\ is_u32 b.2) after /\ (length after <= length l)%nat.
Proof.
  intros Hs He Hl. revert s e Hs He. induction Hl as [|b t [Hb1 Hb2] Ht IH]; intros s e Hs He; cbn [sb_merge]; [done|].
  destruct (SEQ_LEQ b.1 e); [|split_and!; try done; by constructor].
  specialize (IH (if SEQ_LT b.1 s then b.1 else s) (if SEQ_GT b.2 e then b.2 else e)).
  destruct (sb_merge t _ _) as [b' after]. destruct IH as (H1 & H2 & H3 & H4); [by case_bool|by case_bool|]. split_and!; try done. cbn. lia.
Qed.

Lemma sb_before_ok l s : Forall (fun b => is_u32 b.1 /\ is_u32 b.2) l -> Forall (fun b => is_u32 b.1 /\ is_u32 b.2) (sb_before l s) /\ (length (sb_before l s) <= length l)%nat.
Proof. intros Hl. induction Hl as [|b t Hb Ht [IH1 IH2]]; cbn [sb_before]; [done|]. case_bool; cbn; [split; [by constructor|lia]|split; [done|lia]]. Qed.

Lemma sb_add_ok una max l s e : is_u32 una -> is_u32 max -> is_u32 s -> is_u32 e -> pairs_ok l -> pairs_ok (sb_add una max l s e).
Proof.
  unfold pairs_ok, SB_MAX. intros Hu Hm Hs He [Hn Hl]. unfold sb_add, SB_MAX. set (s' := if SEQ_LT s una then una else s). set (e' := if SEQ_GT e max then max else e).
  assert (Hs' : is_u32 s') by (unfold s'; by case_bool). assert (He' : is_u32 e') by (unfold e'; by case_bool).
  destruct (negb _); [done|]. destruct (sb_before_ok l s' Hl) as [Hf Hfl].
  pose proof (sb_merge_ok (drop (length (sb_before l s')) l) s' e' Hs' He' (Forall_drop _ _ _ Hl)) as Hg.
  destruct (sb_merge _ s' e') as [b after]. destruct Hg as (Hb1 & Hb2 & Ha & Hal). rewrite length_drop in *. unfold SB_MAX, zlen in *.
  assert (Hall : forall x, Forall (fun b => is_u32 b.1 /\ is_u32 b.2) x -> Forall (fun b => is_u32 b.1 /\ is_u32 b.2) (sb_before l s' ++ b :: x)).
  { intros x Hx. apply Forall_app. split; [done|]. by constructor. }
  destruct (_ && _) eqn:E.
  - apply andb_true_iff in E as [E1 E2]. apply Nat.eqb_eq in E1. zbool. destruct (Z.of_nat (length after) =? 0) eqn:E3; zbool; [by split|].
    split; [|apply Hall; by apply Forall_take]. unfold zlen. rewrite length_app. cbn. rewrite length_take. lia.
  - apply andb_false_iff in E. split; [|by apply Hall]. unfold zlen. rewrite length_app. cbn.
    destruct E as [E|E]; [apply Nat.eqb_neq in E|zbool]; lia.
Qed.

Lemma sb_trim_cons una b l : sb_trim una (b :: l) = if SEQ_LEQ b.2 una then sb_trim una l else (if SEQ_LT b.1 una then una else b.1, b.2) :: sb_trim una l.
Proof. unfold sb_trim. cbn [omap list_omap]. by destruct (SEQ_LEQ b.2 una). Qed.

Lemma sb_trim_ok una l : is_u32 una -> pairs_ok l -> pairs_ok (sb_trim una l).
Proof.
  intros Hu [Hn Hl]. unfold pairs_ok. assert (H : Forall (fun b => is_u32 b.1 /\ is_u32 b.2) (sb_trim una l) /\ (length (sb_trim una l) <= length l)%nat).
  { clear Hn. induction Hl as [|b t [Hb1 Hb2] Ht [IH1 IH2]]; [done|]. rewrite sb_trim_cons. destruct (SEQ_LEQ b.2 una); cbn [length]; [split; [done|lia]|].
    split; [constructor; [cbn; by case_bool|done]|lia]. }
  destruct H as [H1 H2]. split; [|done]. unfold zlen in *. lia.
Qed.

Lemma sb_hole_ok l from q e : is_u32 from -> Forall (fun b => is_u32 b.1 /\ is_u32 b.2) l -> sb_hole l from = Some (q, e) -> is_u32 q.
Proof.
  intros Hf Hl. revert from Hf. induction Hl as [|b t [Hb1 Hb2] Ht IH]; intros from Hf; cbn [sb_hole]; [done|].
  destruct (SEQ_LT from b.1); [by intros [= <- <-]|]. apply IH. by case_bool.
Qed.

(** ** Sending again *)

Section ack.
Variable P : option peer_t.
Implicit Types g : ghost.

Lemma conn_ok_cong lo g c k : conn_inv lo P g c -> cong_ok k -> conn_inv lo P g (c <| cong := k |>).
Proof. intros []. by split. Qed.

Lemma conn_ok_opt lo g c o : conn_inv lo P g c -> opt_ok o -> conn_inv lo P g (c <| opt := o |>).
Proof. intros []. by split. Qed.

(** a later state, in which nothing more is queued *)
Lemma conn_ok_later g c s : conn_ok P g c -> opened (state c) = true -> s <> TCP_ESTABLISHED -> s <> TCP_CLOSE_WAIT -> s <> TCP_SYN_SENT -> s <> TCP_SYN_RCVD ->
  (can_receive s = true -> can_receive (state c) = true) -> conn_ok P g (c <| state := s |>).
Proof.
  intros [C1 C2 C3 C4 C5 C6 C7 C8 C9 C10 C11] Ho H1 H2 H3 H4 Hcan. split; cbn; try done; [by auto| ].
  intros Hf. specialize (C11 Hf). destruct (can_receive s); [|done]. by rewrite Hcan in C11.
Qed.

Lemma resend_ok g c seq e w : conn_ok P g c -> 0 <= gU g -> 0 <= gR g -> is_u32 seq ->
  wp (resend c seq e) (fun a w' => acked c a.1 /\ outcome P still g c w a.1 w' /\ 0 <= a.2) w.
Proof.
  intros Hc HU HR Hq. unfold resend. pose proof (ck_snd _ _ _ _ Hc) as Hs. pose proof (co_mss _ (ck_cong _ _ _ _ Hc)) as Hm.
  assert (Hsame : acked c c) by (exists (ack c); by destruct c).
  set (off := u32 (seq - snd_una (snd c))). pose proof (u32_bound (seq - snd_una (snd c))) as Hb. fold off in Hb. unfold is_u32 in Hb.
  assert (Eq : seq = u32 (iss (snd c) + 1 + (gU g + off))).
  { unfold off. rewrite (so_una _ _ Hs), u32_sub_r. rewrite (Z.add_comm (gU g)), Z.add_assoc, (Z.add_comm _ (u32 _)), <- Z.add_assoc, u32_add.
    replace (seq - (iss (snd c) + 1 + gU g) + (iss (snd c) + 1 + gU g)) with seq by lia. symmetry. by apply u32_small. }
  clearbody off. destruct (sb_len (snd c) <=? off) eqn:E; zbool; [split; [done|]; split; [by apply outcome_here|done]|].
  set (n := min_u32 _ (u32 (e - seq))). assert (Hn : 0 <= n /\ n <= sb_len (snd c) - off /\ n <= peer_mss (cong c)).
  { unfold n, min_u32. pose proof (u32_bound (e - seq)) as Hb2. unfold is_u32 in Hb2. clear - E Hm Hb2. zcases_all; lia. }
  clearbody n. destruct (n =? 0) eqn:E0; zbool; [split; [done|]; split; [by apply outcome_here|done]|].
  apply wp_bind. unfold wp at 1. rewrite (SB_ok g) by (done || lia). destruct (snd_len g _ Hs) as [Hlen _]. apply wp_bind.
  eapply wp_mono; [apply (send_still P g); try done; [rewrite zlen_slice; lia|]|].
  { change (has F_ACK F_ACK) with true. rewrite Eq at 1. apply honest_data; try done; lia. }
  cbn beta. intros c' w' [Ha Ho]. apply wp_ret. cbn. split; [done|]. split; [done|lia].
Qed.

Lemma cong_next k q : cong_ok k -> is_u32 q -> cong_ok (k <| rexmit_next := q |>).
Proof. intros [] Hq. by split. Qed.

Lemma resend_next_ok g c w : conn_ok P g c -> 0 <= gU g -> 0 <= gR g ->
  wp (resend_next c) (fun c' w' => outcome P still g c w c' w' /\ snd c' = snd c /\ state c' = state c) w.
Proof.
  intros Hc HU HR. unfold resend_next. pose proof (ck_cong _ _ _ _ Hc) as Hk. pose proof (iss_pos _ _ (ck_snd _ _ _ _ Hc)) as (Hu & _).
  assert (Hend : forall c' w' q, acked c c' -> outcome P still g c w c' w' -> is_u32 q ->
    outcome P still g c w (c' <| cong ::= fun k => k <| rexmit_next := q |> |>) w').
  { intros c' w' q [a ->] Ho Hq. eapply outcome_update; [exact Ho| |done|done]. intros g1 _ _ Hc1. apply conn_ok_cong; [done|]. by apply cong_next. }
  destruct (_ && _).
  - destruct (sb_hole _ _) as [[q e]|] eqn:Eh; [|split; [by apply outcome_here|done]].
    assert (Hq : is_u32 q) by (eapply sb_hole_ok; [|apply Hk|exact Eh]; case_bool; [done|apply Hk]).
    apply wp_bind. eapply wp_mono; [by apply (resend_ok g)|]. cbn beta. intros [c' n] w' (Ha & Ho & Hn). cbn in *.
    destruct (n =? 0); [split; [done|]; by destruct Ha as [a ->]|]. apply wp_bind, wp_modify, wp_ret. destruct Ha as [a ->]. split; [|done].
    eapply outcome_from; [| | | |apply Hend]; try done; [by exists a| |apply u32_bound].
    destruct Ho as (g1 & H1 & H2 & H3 & H4 & H5 & [E1 E2]). exists g1. by split_and!.
  - destruct (SEQ_GEQ _ _); [|split; [by apply outcome_here|done]]. apply wp_bind. eapply wp_mono; [by apply (resend_ok g)|].
    cbn beta. intros [c' n] w' (Ha & Ho & Hn). cbn in *. apply wp_ret. destruct Ha as [a ->].
    destruct (n =? 0); [done|]. split; [|done]. apply Hend; [by exists a|done|apply u32_bound].
Qed.
End ack.

(** ** Options *)

(** the walk ends, and reads no byte that is not there *)
Lemma opt_walk_ok {A} (f : A -> Z -> Z -> Z -> option A) (I : A -> Prop) opts todo i a :
  (forall a i k n, I a -> 0 <= i -> 2 <= n -> i + n <= zlen opts -> exists a', f a i k n = Some a' /\ I a') ->
  0 <= i <= zlen opts -> zlen opts - i < Z.of_nat todo -> I a -> exists a', opt_walk f todo opts i a = Some a' /\ I a'.
Proof.
  intros Hf. revert i a. induction todo as [|todo IH]; intros i a Hi Ht Ha; cbn [opt_walk].
  { lia. }
  destruct (zlen opts <=? i) eqn:E; zbool; [eauto|].
  destruct (rd8_some opts i ltac:(lia)) as [k ->]. cbn [mbind option_bind]. destruct (k =? 0); [eauto|].
  destruct (k =? 1); [apply IH; [lia..|done]|]. destruct (zlen opts <=? i + 1) eqn:E1; zbool; [eauto|].
  destruct (rd8_some opts (i + 1) ltac:(lia)) as [n ->]. cbn [mbind option_bind]. destruct (_ || _) eqn:E2; [eauto|].
  apply orb_false_iff in E2 as [E2 E3]. zbool. destruct (Hf a i k n Ha (proj1 Hi) E2 E3) as (a' & -> & Ha'). cbn [mbind option_bind]. apply IH; [lia..|done].
Qed.

Lemma walk_options_ok {A} (f : A -> Z -> Z -> Z -> option A) (I : A -> Prop) opts a : I a ->
  (forall a i k n, I a -> 0 <= i -> 2 <= n -> i + n <= zlen opts -> exists a', f a i k n = Some a' /\ I a') ->
  exists a', walk_options f opts a = Some a' /\ I a'.
Proof. intros Ha Hf. pose proof (zlen_nonneg opts). apply opt_walk_ok; [exact Hf|lia|unfold zlen; lia|done]. Qed.

Lemma rd32_u32 p i v : rd32 p i = Some v -> is_u32 v.
Proof. unfold rd32. destruct (rd8 p i), (rd8 p (i + 1)), (rd8 p (i + 2)), (rd8 p (i + 3)); try done. cbn. intros [= <-]. apply u32_bound. Qed.

Lemma syn_option_ok six opts og i k n : opt_ok og.1 /\ cong_ok og.2 -> 0 <= i -> i + n <= zlen opts ->
  exists og', syn_option six opts og i k n = Some og' /\ opt_ok og'.1 /\ cong_ok og'.2.
Proof.
  destruct og as [op g]. cbn [fst Datatypes.snd]. intros [Ho Hk] Hi Hn. unfold syn_option. destruct (_ && (n =? 4)) eqn:E1.
  { apply andb_true_iff in E1 as [_ E1]. zbool. destruct (rd16_some opts (i + 2) ltac:(lia) ltac:(lia)) as [m Em]. rewrite Em. cbn.
    eexists. split; [done|]. split; [done|]. cbn. destruct (64 <=? m) eqn:E; zbool; [|done]. destruct Hk. split; try done. cbn. unfold min_u32, TCP_MSS, TCP6_MSS in *.
    destruct six; zcases; lia. }
  destruct (_ && (n =? 3)) eqn:E2.
  { apply andb_true_iff in E2 as [_ E2]. zbool. destruct (rd8_some opts (i + 2) ltac:(lia)) as [m Em]. rewrite Em. cbn. eexists. split; [done|]. done. }
  destruct ((k =? 4) && _); [exists (op <| peer_sack := true |>, g)|exists (op, g)]; (split; [reflexivity|split; [exact Ho|exact Hk]]).
Qed.

Lemma sack_blocks_read_ok todo una max opts b e l : is_u32 una -> is_u32 max -> pairs_ok l -> 0 <= b <= e -> e <= zlen opts -> e - b < Z.of_nat todo ->
  exists l', sack_blocks_read todo una max opts b e l = Some l' /\ pairs_ok l'.
Proof.
  intros Hu Hm. revert b l. induction todo as [|todo IH]; intros b l Hl Hb He Ht; cbn [sack_blocks_read].
  { lia. }
  destruct (b + 8 <=? e) eqn:E; zbool; [|eauto].
  destruct (rd32_some opts b ltac:(lia) ltac:(lia)) as [x Ex]. destruct (rd32_some opts (b + 4) ltac:(lia) ltac:(lia)) as [y Ey]. rewrite Ex, Ey. cbn [mbind option_bind].
  apply IH; [apply sb_add_ok; try done; eapply rd32_u32; eassumption|lia..].
Qed.

Section parse.
Variable P : option peer_t.
Implicit Types g : ghost.

Lemma parse_syn_opts_ok c l w : opt_ok (opt c) -> cong_ok (cong c) ->
  wp (parse_syn_opts c l) (fun c' w' => w' = w /\ exists o k, c' = c <| opt := o |> <| cong := k |> /\ opt_ok o /\ cong_ok k) w.
Proof.
  intros Hop Hcg. unfold parse_syn_opts. set (op := opt c <| peer_ws := None |> <| peer_sack := false |>).
  destruct (walk_options_ok (syn_option (bool_decide (is_Some (ip6s c))) l) (fun og => opt_ok og.1 /\ cong_ok og.2) l (op, cong c))
    as ([o k] & E & Ho & Hk).
  { done. }
  { intros og i k n H Hi _ Hn. by apply syn_option_ok. }
  apply wp_bind, wp_option. exists (o, k). split; [done|]. apply wp_ret. split; [done|]. by exists o, k.
Qed.

Lemma opts_agreed_ok o : opt_ok (opts_agreed o).
Proof. unfold opts_agreed. destruct (peer_ws o); [by right|by left]. Qed.

Lemma parse_sack_ok g c l w : conn_ok P g c -> wp (parse_sack c l) (fun c' w' => w' = w /\ exists l', c' = c <| cong ::= fun k => k <| sb := l' |> |> /\ pairs_ok l') w.
Proof.
  intros Hc. unfold parse_sack. destruct (iss_pos _ _ (ck_snd _ _ _ _ Hc)) as (Hu & _). pose proof (so_max _ _ (ck_snd _ _ _ _ Hc)) as Hm.
  destruct (walk_options_ok (sack_option_read (snd_una (snd c)) (snd_max (snd c)) l) pairs_ok l (sb (cong c))) as (l' & E & Hl').
  { split; [apply (co_sb _ (ck_cong _ _ _ _ Hc))|apply (co_num _ (ck_cong _ _ _ _ Hc))]. }
  { intros a i k n Ha Hi Hn Hz. unfold sack_option_read. destruct (_ && _) eqn:E; [|eauto].
    apply sack_blocks_read_ok; try done; [lia..|unfold zlen in Hz; lia]. }
  apply wp_bind, wp_option. exists l'. split; [done|]. apply wp_ret. split; [done|]. by exists l'.
Qed.
End parse.

(** ** What is acknowledged leaves the buffer *)

Lemma slice_to_end {A} (l : list A) n k : zlen l = n -> 0 <= k <= n -> slice l k n = drop (Z.to_nat k) l.
Proof. intros <- Hk. unfold slice. apply take_ge. rewrite length_drop. unfold zlen in *. lia. Qed.

(** bytes go from the front of the buffer *)
Lemma snd_ok_acked g s d : snd_ok g s -> 0 <= gU g -> 0 < d <= mx s ->
  snd_ok (g <| gU := gU g + d |>) (take_acked (u32 (iss s + 1 + (gU g + d))) s).
Proof.
  intros Hs HU Hd. destruct (snd_len g s Hs) as [Hlen Hmax]. destruct (iss_pos g s Hs) as (_ & En & Em).
  pose proof (so_pos _ _ Hs) as Hp. pose proof (u32_bound (snd_nxt s - snd_una s)) as Hb. fold (nx s) in Hb. unfold is_u32, SBUF_SIZE in *.
  pose proof (so_size _ _ Hs) as [Hsz1 Hsz2]. pose proof (so_off _ _ Hs). pose proof (so_len _ _ Hs). pose proof (so_room _ _ Hs) as Hroom. unfold SBUF_SIZE in Hsz2.
  assert (Ha : u32 (u32 (iss s + 1 + (gU g + d)) - snd_una s) = d) by (rewrite (so_una _ _ Hs), u32_diff by lia; lia).
  unfold take_acked. cbv zeta. rewrite !Ha.
  set (data := min_u32 d (sb_len s)). assert (Hdata : data = Z.min d (sb_len s)) by (unfold data, min_u32; zcases; lia). clearbody data.
  set (s1 := if data =? 0 then s else _).
  assert (H1 : exists off len, s1 = s <| sb_off := off |> <| sb_len := len |> /\ len = sb_len s - data /\ 0 <= off /\ off + len <= sb_size s /\
    slice (sbuf s) off (off + len) = drop (Z.to_nat (gU g + d)) (gW g)).
  { assert (Hdrop : slice (sbuf s) (sb_off s + data) (sb_off s + sb_len s) = drop (Z.to_nat (gU g + d)) (gW g)).
    { replace (slice (sbuf s) (sb_off s + data) (sb_off s + sb_len s)) with (slice (slice (sbuf s) (sb_off s) (sb_off s + sb_len s)) data (sb_len s)) by (rewrite slice_slice by lia; done).
      rewrite slice_to_end by (rewrite ?zlen_slice; lia). rewrite (so_buf _ _ Hs), drop_drop.
      destruct (decide (d <= sb_len s)); [f_equal; lia|]. rewrite !drop_ge; [done|unfold zlen in *; lia|unfold zlen in *; lia]. }
    unfold s1. destruct (data =? 0) eqn:E0; zbool.
    - exists (sb_off s), (sb_len s). split; [by destruct s|]. split_and!; try lia. rewrite <- Hdrop. f_equal. lia.
    - assert (E2 : u32 (sb_len s - data) = sb_len s - data) by (apply u32_small; unfold is_u32; lia).
      assert (E3 : u32 (sb_off s + data) = sb_off s + data) by (apply u32_small; unfold is_u32; lia).
      change (sb_len (s <| sb_off ::= _ |> <| sb_len ::= _ |>)) with (u32 (sb_len s - data)). rewrite E2.
      destruct (sb_len s - data =? 0) eqn:E1; zbool.
      + exists 0, 0. split; [rewrite <- E1, <- E2; by destruct s|]. split_and!; try lia. rewrite <- Hdrop. unfold slice. replace (Z.to_nat (0 + 0 - 0)) with 0%nat by lia.
        by replace (Z.to_nat (sb_off s + sb_len s - (sb_off s + data))) with 0%nat by lia.
      + exists (sb_off s + data), (sb_len s - data). split; [rewrite <- E2, <- E3; by destruct s|]. split_and!; try lia. rewrite <- Hdrop. f_equal. lia. }
  clearbody s1. destruct H1 as (off & len & -> & Hl & Ho & Hr & Hbuf). cbn zeta.
  set (una := u32 (iss s + 1 + (gU g + d))). set (s2 := s <| sb_off := off |> <| sb_len := len |> <| snd_una := una |>).
  change (SEQ_LT (snd_nxt s2) (snd_una s2)) with (SEQ_LT (snd_nxt s) una). rewrite En at 1. unfold una at 1. rewrite seq_lt by lia.
  assert (Hmx : u32 (snd_max s - una) = mx s - d) by (unfold una; rewrite Em, u32_diff by lia; lia).
  assert (Hgen : forall nxt k, is_u32 nxt -> u32 (nxt - una) = k -> 0 <= k <= mx s - d -> snd_ok (g <| gU := gU g + d |>) (s2 <| snd_nxt := nxt |>)).
  { intros nxt k Hn Ek Hk. pose proof Hs as []. split; try done; cbn; try lia.
    - unfold nx, mx. cbn. rewrite Ek, Hmx. lia.
    - unfold mx. cbn. rewrite Hmx. intros Hw. apply so_fin. lia. }
  destruct (gU g + nx s <? gU g + d) eqn:E; zbool.
  - apply (Hgen una 0); [apply u32_bound|by rewrite Z.sub_diag|lia].
  - replace s2 with (s2 <| snd_nxt := snd_nxt s |>) by (by destruct s). apply (Hgen (snd_nxt s) (nx s - d)); [apply Hs| |lia].
    unfold una. rewrite En, u32_diff by lia. lia.
Qed.

(** ** An acknowledgement *)

(** the acknowledgement number [ackno] was believed, if anything moved *)
Definition ackd (i ackno : Z) (g g' : ghost) : Prop :=
  exists U f, g' = g <| gU := U |> <| gF := f |> /\ (U = gU g \/ gU g < U <= gU g + 2 ^ 19 /\ ackno = u32 (i + 1 + U)).

Lemma ackd_quiet i ackno g g' : quiet g g' -> ackd i ackno g g'.
Proof. intros [f ->]. exists (gU g), f. split; [by destruct g|by left]. Qed.

Lemma ackd_absorbs i ackno : absorbs (ackd i ackno).
Proof. intros g g1 g2 (U & f & -> & H) [f' ->]. exists U, f'. by split. Qed.

Section acks.
Variable P : option peer_t.
Implicit Types g : ghost.

Lemma conn_ok_acked g c d s : conn_ok P g c -> 0 <= gU g -> 0 < d -> snd_ok (g <| gU := gU g + d |>) s ->
  conn_ok P (g <| gU := gU g + d |>) (c <| snd := s |>).
Proof.
  intros [C1 C2 C3 C4 C5 C6 C7 C8 C9 C10 C11] HU Hd Hs. split; cbn; try done; try lia.
  - by destruct C4.
  - destruct P; [|done]. by destruct C5.
Qed.

Lemma gle_acked g d : 0 <= d -> gle g (g <| gU := gU g + d |>).
Proof. intros Hd. split; cbn; try lia; auto; exists []; by rewrite app_nil_r. Qed.

(** fields nothing is said of, and the scoreboard *)
Lemma outcome_fields Q g0 c0 w0 c w t k : outcome P Q g0 c0 w0 c w -> (cong_ok (cong c) -> cong_ok k) ->
  outcome P Q g0 c0 w0 (c <| tmr := t |> <| cong := k |>) w.
Proof.
  intros Ho Hk. eapply outcome_update; [exact Ho| |done|done]. intros g _ _ Hc. apply (conn_ok_cong P 1 g (c <| tmr := t |>)).
  - by eapply conn_ok_ext; [..|exact Hc].
  - apply Hk, Hc.
Qed.

Lemma open_cwnd_ok n k : cong_ok k -> cong_ok (open_cwnd n k).
Proof. intros []. by split. Qed.

Lemma iss_take q s : iss (take_acked q s) = iss s.
Proof. unfold take_acked. by repeat case_match. Qed.
Lemma una_take q s : snd_una (take_acked q s) = q.
Proof. unfold take_acked. by repeat case_match. Qed.

Lemma acked_conn_eq now q c : exists t,
  acked_conn now q c = c <| snd ::= take_acked q |> <| tmr := t |> <| cong := cong c <| sb := sb_trim q (sb (cong c)) |> <| dupacks := 0 |> |>.
Proof.
  unfold acked_conn. cbn zeta. change (c <| snd ::= take_acked q |>) with (c <| snd := take_acked q (snd c) |>).
  pose proof (una_take q (snd c)) as Eq. generalize dependent (take_acked q (snd c)). intros s <-.
  destruct c, cong. cbn. destruct (_ && _); eexists; reflexivity.
Qed.

Lemma acked_conn_ok g c now q w : conn_ok P g c -> opened (state c) = true -> is_u32 q -> SEQ_GT q (snd_una (snd c)) = true -> SEQ_LEQ q (snd_max (snd c)) = true ->
  outcome P (ackd (iss (snd c)) q) g c w (acked_conn now q c) w.
Proof.
  intros Hc Ho Hq H1 H2. destruct (ck_open _ _ _ _ Hc Ho) as [HU HR]. pose proof (ck_snd _ _ _ _ Hc) as Hs.
  destruct (iss_pos g _ Hs) as (_ & _ & Em). destruct (snd_len g _ Hs) as [_ Hmax]. pose proof (so_pos _ _ Hs). unfold SBUF_SIZE in Hmax.
  pose proof (u32_bound (snd_nxt (snd c) - snd_una (snd c))) as Hb. fold (nx (snd c)) in Hb. unfold is_u32 in Hb.
  rewrite (so_una _ _ Hs) in H1. rewrite Em in H2. destruct (seq_between (iss (snd c) + 1) (gU g) (mx (snd c)) q Hq ltac:(lia) H1 H2) as (d & Hd & Eq).
  assert (H0 : outcome P (ackd (iss (snd c)) q) g c w (c <| snd ::= take_acked q |>) w).
  { exists (g <| gU := gU g + d |>). split; [exists (gU g + d), (gF g); split; [by destruct g|right; split; [lia|done]]|]. split; [apply gle_acked; lia|].
    split; [|split; [apply iss_take|split; [done|split; [done|exists []; by rewrite app_nil_r]]]].
    apply (conn_ok_acked g c d (take_acked q (snd c)) Hc HU); [lia|]. rewrite Eq. by apply snd_ok_acked. }
  destruct (acked_conn_eq now q c) as [t ->]. apply outcome_fields; [exact H0|]. intros []. destruct (sb_trim_ok q (sb (cong c)) Hq); [done|]. by split.
Qed.


Lemma fin_acked_ok Q g0 c0 w0 now q c w : opened (state c) = true -> outcome P Q g0 c0 w0 c w -> outcome P Q g0 c0 w0 (fin_acked now q c) w.
Proof.
  intros Hop Ho. eapply outcome_update; [exact Ho| |unfold fin_acked; by repeat case_match|unfold fin_acked; by repeat case_match].
  intros g _ _ Hc. unfold fin_acked. destruct (_ && _); [|done].
  destruct (state c) eqn:Es; try done; try (apply conn_ok_later; rewrite ?Es; done).
  eapply (conn_ok_ext 1 P g (c <| state := TCP_TIME_WAIT |>)); try done. apply conn_ok_later; rewrite ?Es; done.
Qed.

Lemma new_ack_ok g c q w : conn_ok P g c -> opened (state c) = true -> is_u32 q -> SEQ_GT q (snd_una (snd c)) = true -> SEQ_LEQ q (snd_max (snd c)) = true ->
  wp (new_ack c q) (outcome P (ackd (iss (snd c)) q) g c w) w.
Proof.
  intros Hc Ho Hq H1 H2. unfold new_ack. apply wp_bind, wp_gets. cbn zeta. pose proof (acked_conn_ok g c (clock w) q w Hc Ho Hq H1 H2) as H3.
  assert (Ho1 : opened (state (acked_conn (clock w) q c)) = true) by (unfold acked_conn; cbn zeta; by case_match).
  generalize dependent (acked_conn (clock w) q c). intros c1 H3 Ho1. apply wp_bind.
  set (Q := ackd (iss (snd c)) q) in *. assert (HQ : absorbs Q) by apply ackd_absorbs. clearbody Q.
  eapply (wp_mono _ (fun c' w' => opened (state c') = true /\ outcome P Q g c w c' w')).
  { destruct (_ =? _).
    - apply wp_ret. split; [done|]. by apply (outcome_fields Q g c w c1 w _ (cong c1)).
    - apply wp_and; [by apply wp_bind, wp_gets, wp_ret|]. apply (quiet_step P Q g c w c1 w _ (fun c => c) HQ); [|done].
      intros g1 Hc1. eapply wp_mono; [by apply (arm_timer_ok P g1)|]. cbn beta. intros c2 w2 [_ Ho2]. eapply outcome_weaken; [apply still_quiet|done]. }
  cbn beta. intros c2 w2 [Ho2 H4]. apply wp_bind.
  eapply (wp_mono _ (fun c' w' => opened (state c') = true /\ outcome P Q g c w c' w')); [|by intros c3 w3 [Ho3 H5]; apply wp_ret, fin_acked_ok].
  destruct (in_rec (cong c2)); [destruct (SEQ_GEQ _ _)|].
  - apply wp_ret. split; [done|]. apply (outcome_fields Q g c w c2 w2 (tmr c2)); [by destruct c2|]. by intros [].
  - pose proof H4 as (g2 & _ & _ & Hc2 & _). destruct (ck_open _ _ _ _ Hc2 Ho2) as [HU2 HR2].
    apply wp_and; [eapply wp_mono; [by apply (resend_next_ok P g2)|]; cbn beta; by intros c3 w3 (_ & _ & ->)|].
    apply (quiet_step P Q g c w c2 w2 _ (fun c => c) HQ); [|done]. intros g3 Hc3. destruct (ck_open _ _ _ _ Hc3 Ho2).
    eapply wp_mono; [by apply (resend_next_ok P g3)|]. cbn beta. intros c4 w4 (H5 & _). eapply outcome_weaken; [apply still_quiet|done].
  - apply wp_ret. split; [done|]. apply (outcome_fields Q g c w c2 w2 (tmr c2)); [by destruct c2|]. apply open_cwnd_ok.
Qed.

Lemma dup_ack_ok g c w : conn_ok P g c -> opened (state c) = true -> wp (dup_ack c) (fun c' w' => state c' = state c /\ outcome P still g c w c' w') w.
Proof.
  intros Hc Ho. destruct (ck_open _ _ _ _ Hc Ho) as [HU HR]. pose proof (ck_snd _ _ _ _ Hc) as Hs. pose proof (ck_cong _ _ _ _ Hc) as Hk.
  unfold dup_ack. cbn zeta. set (c1 := c <| cong ::= fun k => k <| dupacks ::= fun n => u32 (n + 1) |> |>).
  assert (Hc1 : conn_ok P g c1) by (apply conn_ok_cong; [done|by destruct Hk]).
  destruct (_ && negb (in_rec _)); [|destruct (_ && sack_ok _)].
  - set (c2 := c1 <| cong ::= fun k => k <| ssthresh := _ |> <| cwnd := _ |> <| in_rec := true |> <| recover := _ |> |>).
    assert (Hc2 : conn_ok P g c2) by (apply conn_ok_cong; [done|by destruct Hk]). apply wp_bind.
    eapply wp_mono; [apply (resend_ok P g); try done; by destruct (iss_pos g _ Hs)|]. cbn beta. intros [c3 n] w3 (Ha & H3 & _). cbn in Ha, H3.
    apply wp_bind, wp_modify, wp_ret. destruct Ha as [a ->]. split; [done|].
    assert (H4 : outcome P still g c w (c2 <| ack := a |>) (w3 <| g_stats ::= fun s => s <| fast_rexmit ::= fun k => u32 (k + 1) |> |>)).
    { eapply outcome_from in H3; [| | |reflexivity|reflexivity]; [|done|done]. destruct H3 as (g1 & K1 & K2 & K3 & K4 & K5 & [K6 K7]). exists g1. by split_and!. }
    apply (outcome_fields still g c w (c2 <| ack := a |>) _ (tmr c2 <| rtt_timing := false |>) (cong c2 <| rexmit_next := u32 (snd_una (snd c2) + n) |>)) in H4; [exact H4|].
    intros Hk2. apply cong_next; [done|apply u32_bound].
  - eapply wp_mono; [by apply (resend_next_ok P g)|]. cbn beta. intros c3 w3 (H3 & _ & E3). split; [done|].
    by eapply outcome_from; [..|exact H3].
  - apply wp_ret. split; [done|]. by apply outcome_still.
Qed.

(** the window and where it was learnt *)
Lemma conn_ok_wnd g c a b d : conn_ok P g c -> conn_ok P g (c <| snd ::= fun s => s <| snd_wnd := a |> <| snd_wl1 := b |> <| snd_wl2 := d |> |>).
Proof. intros Hc. apply conn_ok_snd; [done|]. by destruct Hc as [[] _ _ _ _ _ _ _ _ _ _]. Qed.

Lemma ack_processing_ok g c h wnd w : conn_ok P g c -> opened (state c) = true -> is_u32 (h_ack h) ->
  wp (ack_processing c h wnd) (outcome P (ackd (iss (snd c)) (h_ack h)) g c w) w.
Proof.
  intros Hc Ho Hq. unfold ack_processing. cbn zeta. apply wp_bind.
  eapply (wp_mono _ (fun c' w' => w' = w /\ conn_ok P g c' /\ state c' = state c /\ snd c' = snd c /\ user_closed c' = user_closed c)).
  { destruct (_ && _); [|by apply wp_ret]. eapply wp_mono; [by apply (parse_sack_ok P g)|]. cbn beta. intros c' w' [-> (l & -> & Hl)].
    split; [done|]. split_and!; try done. apply conn_ok_cong; [done|]. destruct (ck_cong _ _ _ _ Hc). by destruct Hl. }
  cbn beta. intros c1 w1 (-> & Hc1 & E1 & E2 & E3). rewrite <- E1 in Ho. rewrite <- E2.
  set (Q := ackd (iss (snd c1)) (h_ack h)).
  assert (Hlift : forall c' w', outcome P Q g c1 w c' w' -> outcome P Q g c w c' w').
  { intros c' w' H. eapply outcome_from; [..|exact H]; try done; by rewrite ?E2, ?E3. }
  apply wp_bind. eapply (wp_mono _ (outcome P Q g c w)).
  { destruct (_ && SEQ_LEQ _ _) eqn:E.
    - apply andb_true_iff in E as [H1 H2]. eapply wp_mono; [by apply new_ack_ok|]. cbn beta. auto.
    - eapply (wp_mono _ (outcome P still g c1 w)); [|intros c' w' H; apply Hlift; eapply outcome_weaken; [|exact H]; intros g1 ->; by apply ackd_quiet, still_quiet].
      destruct (_ && (wnd =? _)); [|apply wp_ret; by apply outcome_here]. eapply wp_mono; [by apply dup_ack_ok|]. by intros c' w' [_ H]. }
  cbn beta. intros c2 w2 H2. apply wp_ret. destruct (_ || _); [|done].
  eapply outcome_update; [exact H2| |done|done]. intros g2 _ _ Hc2. by apply conn_ok_wnd.
Qed.
End acks.
