(* ===== verification/TcpRun.v ===== *)
(** What one call does to a TCP connection: segments, timers, and the calls of
    its user keep the invariant, and move the ghost state as they should. *)

From S2P Require Import Prelude Wire Tcp TcpConn TcpInv TcpOut TcpIn TcpAck.

(** ** Steps one after the other *)

Lemma wp_outcome P Q1 Q2 (Q : ghost -> ghost -> Prop) g c w c1 w1 (m : ST world_t tcp_conn_t) : outcome P Q1 g c w c1 w1 ->
  (forall g1, Q1 g g1 -> gle g g1 -> conn_ok P g1 c1 -> wp m (outcome P Q2 g1 c1 w1) w1) ->
  (forall g1 g2, Q1 g g1 -> Q2 g1 g2 -> Q g g2) -> wp m (outcome P Q g c w) w1.
Proof.
  intros (g1 & HQ1 & Hg1 & Hc1 & Hi1 & Hu1 & He1) Hm HQ. eapply wp_mono; [by apply Hm|]. cbn beta.
  intros c2 w2 (g2 & HQ2 & Hg2 & Hc2 & Hi2 & Hu2 & He2). rewrite Hi1 in *. exists g2.
  split_and!; [by eapply HQ|by eapply gle_trans|done|done|auto|]. by eapply ext_trans.
Qed.

(** what a segment moves: the acknowledgement number was believed if anything was acknowledged *)
Definition heard (i : Z) (h : hdr_t) (g g' : ghost) : Prop :=
  exists U f I R V, g' = Gh (gW g) U f I R V (gT g) /\
    (U = gU g \/ gU g < U <= Z.max 0 (gU g) + 2 ^ 20 /\ has (h_flags h) F_ACK = true /\ has (h_flags h) F_RST = false /\ h_ack h = u32 (i + 1 + U)).

Lemma heard_quiet i h g g' : quiet g g' -> heard i h g g'.
Proof. intros [f ->]. exists (gU g), f, (gI g), (gR g), (gV g). split; [by destruct g|by left]. Qed.

Lemma heard_absorbs i h : absorbs (heard i h).
Proof. intros g g1 g2 (U & f & I & R & V & -> & H) [f' ->]. exists U, f', I, R, V. by split. Qed.

Lemma heard_received i h g g1 g2 : heard i h g g1 -> received g1 g2 -> heard i h g g2.
Proof. intros (U & f & I & R & V & -> & H) (R' & V' & ->). exists U, f, I, R', V'. by split. Qed.

Lemma heard_still i h g g1 : still g g1 -> heard i h g g1.
Proof. intros H. by apply heard_quiet, still_quiet. Qed.

Lemma ackd_heard i h g g' : has (h_flags h) F_ACK = true -> has (h_flags h) F_RST = false -> ackd i (h_ack h) g g' -> heard i h g g'.
Proof.
  intros H1 H2 (U & f & -> & H). exists U, f, (gI g), (gR g), (gV g). split; [by destruct g|]. destruct H as [H|[H E]]; [by left|right].
  split; [lia|done].
Qed.

(** what the segment says, if it is the peer's *)
Definition meant (P : option peer_t) (g : ghost) (h : hdr_t) : Prop :=
  forall p, P = Some p -> has (h_flags h) F_RST = true \/
    if has (h_flags h) F_SYN then h_seq h = pI p
    else exists o, h_seq h = u32 (pI p + 1 + o) /\ piece p o (h_data h) (has (h_flags h) F_FIN) /\ gR g - 2 ^ 30 <= o <= gR g + 2 ^ 30.

(** its fields have the width they were read with *)
Record hdr_ok (h : hdr_t) : Prop := {
  hk_seq : is_u32 (h_seq h);
  hk_ack : is_u32 (h_ack h);
  hk_data : zlen (h_data h) <= 65535;
}.

Section run.
Variable P : option peer_t.
Implicit Types g : ghost.

Lemma conn_ok_closed lo g c : conn_inv lo P g c -> conn_inv lo P g (c <| state := TCP_CLOSED |>).
Proof. intros []. by split. Qed.

(** fields nothing is said of change besides *)
Lemma outcome_closed Q g0 c0 w0 c w c' : outcome P Q g0 c0 w0 c w -> state c' = TCP_CLOSED -> snd c' = snd c -> cong c' = cong c -> opt c' = opt c ->
  rcv c' = rcv c -> user_closed c' = user_closed c -> outcome P Q g0 c0 w0 c' w.
Proof.
  intros Ho E1 E2 E3 E4 E5 E6. eapply outcome_update; [exact Ho| |by rewrite E2|by rewrite E6]. intros g _ _ Hc.
  eapply (conn_ok_ext 1 P g (c <| state := TCP_CLOSED |>)); try done. by apply conn_ok_closed.
Qed.

Lemma is_opened g c : conn_ok P g c -> 0 <= gU g -> state c <> TCP_CLOSED -> opened (state c) = true.
Proof.
  intros Hc HU Hn. destruct (state c) eqn:E; try done.
  - destruct (ck_syn_sent _ _ _ _ Hc E). lia.
  - destruct (ck_syn_rcvd _ _ _ _ Hc E). lia.
Qed.

Lemma send_reset_ok g c h w : conn_ok P g c -> hdr_ok h -> wp (send_reset_for h) (fun _ w' => outcome P still g c w c w') w.
Proof.
  intros Hc [Hs Ha Hd]. assert (Hout : forall w', clock w' = clock w -> (exists o, sent w' = sent w ++ [o] /\ honest_out (iss (snd c)) (gU g) (gR g) g o) -> outcome P still g c w c w').
  { intros w' E1 (o & E2 & Ho). exists g. split; [done|]. split; [apply gle_refl|]. split_and!; try done. split; [done|]. exists [o]. split; [done|by constructor]. }
  unfold send_reset_for. destruct (has (h_flags h) F_RST); [by apply wp_ret, outcome_here|].
  destruct (has (h_flags h) F_ACK); (eapply wp_mono; [apply (send_raw_ok (iss (snd c)) (gU g) (gR g) g); try done; try by apply reset_honest|]);
    try (intros _ w' [E1 E2]; by apply Hout). apply u32_bound.
Qed.

(** ** The handshake *)

Lemma syn_timed_ok c w : wp (syn_timed c) (fun c' w' => w' = w /\ exists t, c' = c <| tmr := t |>) w.
Proof.
  unfold syn_timed. apply wp_bind, wp_gets. cbn zeta. apply wp_ret. split; [done|]. destruct (rtt_timing (tmr c)); eexists; reflexivity.
Qed.

(** our SYN is acknowledged *)
Lemma snd_ok_opened g s a b d : snd_ok g s -> gU g = -1 -> snd_ok (g <| gU := 0 |>) (s <| snd_una := u32 (iss s + 1) |> <| snd_wnd := a |> <| snd_wl1 := b |> <| snd_wl2 := d |>).
Proof.
  intros Hs HU. destruct (iss_pos g s Hs) as (_ & En & Em). destruct (so_syn _ _ Hs HU) as [E1 E2]. rewrite HU, E1 in En. rewrite HU, E2 in Em.
  replace (iss s + 1 + (-1 + 1)) with (iss s + 1) in * by lia. destruct Hs. split; try done; cbn; unfold nx, mx; cbn; rewrite ?En, ?Em, ?Z.sub_diag; try done.
  - f_equal. lia.
  - change (u32 0) with 0. lia.
  - change (u32 0) with 0. pose proof (zlen_nonneg (gW g)). lia.
  - by rewrite so_buf, HU.
Qed.

Lemma conn_ok_acked_syn g c s : conn_ok P g c -> state c = TCP_SYN_RCVD -> snd_ok (g <| gU := 0 |>) s ->
  conn_ok P (g <| gU := 0 |>) (c <| snd := s |> <| state := TCP_ESTABLISHED |>).
Proof.
  intros [C1 C2 C3 C4 C5 C6 C7 C8 C9 C10 C11] Hst Hs. destruct (C8 Hst) as (HU & HR & Hl & Hf). split; try done.
  - by destruct C4.
  - destruct P; [|done]. by destruct C5.
  - cbn. intros HF. specialize (C10 HF). lia.
  - cbn. by rewrite Hf.
Qed.

Lemma input_syn_rcvd_ok g c h wnd w : conn_ok P g c -> state c = TCP_SYN_RCVD -> hdr_ok h ->
  wp (input_syn_rcvd c h wnd) (fun a w' => outcome P (heard (iss (snd c)) h) g c w a.1 w' /\ (a.2 = true -> opened (state a.1) = true /\
     outcome P (fun g g' => g' = g <| gU := 0 |> /\ has (h_flags h) F_ACK = true /\ has (h_flags h) F_RST = false /\ h_ack h = u32 (iss (snd c) + 1 + 0)) g c w a.1 w')) w.
Proof.
  intros Hc Hst Hh. destruct (ck_syn_rcvd _ _ _ _ Hc Hst) as (HU & HR & Hrcv). pose proof (ck_snd _ _ _ _ Hc) as Hs. unfold input_syn_rcvd.
  assert (Hstay : forall c' w', outcome P still g c w c' w' -> outcome P (heard (iss (snd c)) h) g c w c' w').
  { intros c' w' H. eapply outcome_weaken; [|exact H]. apply heard_still. }
  destruct (has (h_flags h) F_RST) eqn:ER.
  { apply wp_ret. split; [|done]. apply Hstay. by eapply outcome_closed; [apply outcome_here|..]. }
  destruct (has (h_flags h) F_SYN) eqn:ES.
  { apply wp_bind. eapply wp_mono; [apply (send_still P g); try done; [apply Hs|]|].
    - right. split; [done|]. split; [done|]. intros _. exists (gR g). split; [lia|done].
    - cbn beta. intros c' w' [_ Ho]. apply wp_ret. split; [by apply Hstay|done]. }
  destruct (has (h_flags h) F_ACK) eqn:EA; cbn [negb]; [|apply wp_ret; split; [by apply Hstay, outcome_here|done]].
  destruct (h_ack h =? u32 (iss (snd c) + 1)) eqn:EQ; cbn [negb]; zbool.
  2: { apply wp_bind. eapply wp_mono; [by apply (send_reset_ok g c)|]. cbn beta. intros _ w' Ho. apply wp_ret. split; [by apply Hstay|done]. }
  cbn zeta. apply wp_bind. eapply wp_mono; [apply syn_timed_ok|]. cbn beta. intros c' w' [-> [t ->]]. apply wp_ret. cbn [fst Datatypes.snd].
  match goal with |- context [outcome P (heard _ _) g c w ?x w] => set (c2 := x) end.
  assert (Ho : outcome P (fun g g' => g' = g <| gU := 0 |> /\ h_ack h = u32 (iss (snd c) + 1 + 0)) g c w c2 w).
  { exists (g <| gU := 0 |>). split; [rewrite EQ; split; [done|f_equal; lia]|]. split; [split; cbn; try lia; auto; exists []; by rewrite app_nil_r|].
    split; [|split; [done|split; [done|split; [done|exists []; by rewrite app_nil_r]]]].
    pose proof (conn_ok_acked_syn g c _ Hc Hst (snd_ok_opened g (snd c) wnd (h_seq h) (h_ack h) Hs HU)) as H1. rewrite <- EQ in H1.
    apply (conn_ok_cong P 1 _ _ (cong c <| cwnd := u32 (4 * peer_mss (cong c)) |>)) in H1; [|by destruct (ck_cong _ _ _ _ Hc)].
    by eapply conn_ok_ext; [..|exact H1]. }
  split; [|intros _; split; [done|]]; (eapply outcome_weaken; [|exact Ho]); cbn beta; intros g1 [-> H1]; [|done].
  exists 0, (gF g), (gI g), (gR g), (gV g). split; [by destruct g|]. right. split; [lia|]. done.
Qed.

(** the peer's SYN acknowledges ours *)
Lemma conn_ok_synced g c q s : conn_ok P g c -> state c = TCP_SYN_SENT -> is_u32 q -> (forall p, P = Some p -> q = pI p) -> snd_ok (g <| gU := 0 |>) s ->
  conn_ok P (g <| gU := 0 |> <| gI := q |> <| gR := 0 |>)
    (c <| rcv ::= fun r => r <| irs := q |> <| rcv_nxt := u32 (q + 1) |> |> <| snd := s |> <| state := TCP_ESTABLISHED |>).
Proof.
  intros [C1 C2 C3 C4 C5 C6 C7 C8 C9 C10 C11] Hst Hq Hp Hs. destruct (C7 Hst) as (HU & HR & Hl & Hf). split; try done.
  - by destruct Hs.
  - destruct C4. split; try done; [cbn; f_equal; lia].
  - destruct P as [p|]; [|done]. destruct C5. destruct (tr_none HR) as (EV & Eo & _). pose proof (zlen_nonneg (pW p)). split; cbn; rewrite ?Eo, ?EV, ?Hf; try done; try lia.
    intros _. by apply Hp.
  - cbn. intros HF. specialize (C10 HF). lia.
  - cbn. by rewrite Hf.
Qed.

(** an acknowledgement, and what can go out *)
Lemma ack_out_ok Q g0 c0 w0 c w : absorbs Q -> (forall g, conn_ok P g c -> 0 <= gU g /\ 0 <= gR g) -> outcome P Q g0 c0 w0 c w ->
  wp (let! c := send_seg c (snd_nxt (snd c)) F_ACK [] in tcp_output c) (outcome P Q g0 c0 w0) w.
Proof.
  intros HQ Hpos Ho. apply wp_bind. eapply (wp_mono _ (outcome P Q g0 c0 w0)).
  - apply (quiet_step P Q g0 c0 w0 c w _ (fun c => c) HQ); [|done]. intros g Hc. destruct (Hpos g Hc) as [HU HR].
    eapply wp_mono; [by apply (send_ack_ok P g)|]. cbn beta. intros c' w' [_ H]. eapply outcome_weaken; [apply still_quiet|done].
  - cbn beta. intros c' w' H. apply (quiet_step P Q g0 c0 w0 c' w' _ (fun c => c) HQ); [|done]. intros g Hc. by apply tcp_output_ok.
Qed.

Lemma input_syn_sent_ok g c h wnd w : conn_ok P g c -> state c = TCP_SYN_SENT -> hdr_ok h -> meant P g h ->
  wp (input_syn_sent c h wnd) (outcome P (heard (iss (snd c)) h) g c w) w.
Proof.
  intros Hc Hst Hh Hm. destruct (ck_syn_sent _ _ _ _ Hc Hst) as (HU & HR & Hrcv). pose proof (ck_snd _ _ _ _ Hc) as Hs. unfold input_syn_sent.
  assert (Hstay : forall c' w', outcome P still g c w c' w' -> outcome P (heard (iss (snd c)) h) g c w c' w').
  { intros c' w' H. eapply outcome_weaken; [|exact H]. apply heard_still. }
  destruct (has (h_flags h) F_ACK && _) eqn:E1.
  { apply wp_bind. eapply wp_mono; [by apply (send_reset_ok g c)|]. cbn beta. intros _ w' Ho. apply wp_ret. by apply Hstay. }
  destruct (has (h_flags h) F_RST) eqn:ER.
  { apply wp_ret. apply Hstay. destruct (has (h_flags h) F_ACK); [|by apply outcome_here]. by eapply outcome_closed; [apply outcome_here|..]. }
  destruct (has (h_flags h) F_SYN && has (h_flags h) F_ACK) eqn:E2; [|apply wp_ret; by apply Hstay, outcome_here].
  apply andb_true_iff in E2 as [ES EA]. rewrite EA in E1. apply negb_false_iff in E1. zbool. cbn zeta. apply wp_bind.
  eapply wp_mono; [apply parse_syn_opts_ok; apply Hc|]. cbn beta. intros c1 w1 [-> (o & k & -> & Hop & Hk)]. cbn zeta.
  apply wp_bind. eapply wp_mono; [apply syn_timed_ok|]. cbn beta. intros c2 w2 [-> [t ->]]. cbn zeta.
  match goal with |- wp (st_bind (send_seg ?x _ _ _) _) _ _ => set (c2 := x) end.
  apply (ack_out_ok (heard (iss (snd c)) h) g c w c2 w); [apply heard_absorbs|intros g1 Hc1; by apply (ck_open _ _ _ _ Hc1)|].
  exists (g <| gU := 0 |> <| gI := h_seq h |> <| gR := 0 |>). split.
  { exists 0, (gF g), (h_seq h), 0, (gV g). split; [by destruct g|]. right. split; [lia|]. split_and!; try done. rewrite E1. f_equal. lia. }
  split; [split; cbn; try lia; auto; exists []; by rewrite app_nil_r|].
  split; [|split; [done|split; [done|split; [done|exists []; by rewrite app_nil_r]]]].
  assert (Hq : forall p, P = Some p -> h_seq h = pI p).
  { intros p Hp. destruct (Hm p Hp) as [H|H]; [congruence|]. by rewrite ES in H. }
  pose proof (conn_ok_synced g c (h_seq h) _ Hc Hst (hk_seq _ Hh) Hq (snd_ok_opened g (snd c) wnd (h_seq h) (h_ack h) Hs HU)) as H1. rewrite <- E1 in H1.
  apply (conn_ok_cong P 1 _ _ k) in H1; [|done]. apply (conn_ok_opt P 1 _ _ (opts_agreed o)) in H1; [|apply opts_agreed_ok].
  by eapply conn_ok_ext; [..|exact H1].
Qed.

(** ** A segment for an open connection *)

Lemma meant_fits g h : meant P g h -> has (h_flags h) F_RST = false -> has (h_flags h) F_SYN = false -> fits P g (h_seq h) (h_data h) (has (h_flags h) F_FIN).
Proof. intros Hm H1 H2 p Hp. destruct (Hm p Hp) as [H|H]; [congruence|]. by rewrite H2 in H. Qed.

(** one more step that moves nothing *)
Lemma outcome_quiet Q g0 c0 w0 c w (m : ST world_t tcp_conn_t) : absorbs Q -> outcome P Q g0 c0 w0 c w ->
  (forall g, Q g0 g -> gle g0 g -> conn_ok P g c -> wp m (outcome P quiet g c w) w) -> wp m (outcome P Q g0 c0 w0) w.
Proof. intros HQ Ho Hm. eapply (wp_outcome P Q quiet Q); [exact Ho|exact Hm|]. intros g1 g2. apply HQ. Qed.

Lemma send_ack_quiet g c w : conn_ok P g c -> 0 <= gU g -> 0 <= gR g -> wp (send_seg c (snd_nxt (snd c)) F_ACK []) (outcome P quiet g c w) w.
Proof.
  intros Hc HU HR. eapply wp_mono; [by apply (send_ack_ok P g)|]. cbn beta. intros c' w' [_ H]. eapply outcome_weaken; [apply still_quiet|done].
Qed.

Lemma input_open_ok g c h wnd w : conn_ok P g c -> opened (state c) = true -> hdr_ok h -> meant P g h ->
  wp (input_open c h wnd) (outcome P (heard (iss (snd c)) h) g c w) w.
Proof.
  intros Hc Hop Hh Hm. destruct (ck_open _ _ _ _ Hc Hop) as [HU HR]. unfold input_open. set (Q := heard (iss (snd c)) h).
  assert (HQ : absorbs Q) by apply heard_absorbs.
  assert (Hstay : forall c' w', outcome P still g c w c' w' -> outcome P Q g c w c' w').
  { intros c' w' H. eapply outcome_weaken; [|exact H]. apply heard_still. }
  assert (Hack : forall c1 w1, outcome P Q g c w c1 w1 -> wp (send_seg c1 (snd_nxt (snd c1)) F_ACK []) (outcome P Q g c w) w1).
  { intros c1 w1 H. eapply outcome_quiet; [done|exact H|]. intros g1 _ Hg1 Hc1. destruct Hg1. apply send_ack_quiet; [done|lia|lia]. }
  destruct (has (h_flags h) F_RST) eqn:ER.
  { apply wp_ret, Hstay. destruct (_ && _); [|by apply outcome_here]. by eapply outcome_closed; [apply outcome_here|..]. }
  destruct (has (h_flags h) F_SYN) eqn:ES; [by apply Hack, Hstay, outcome_here|].
  pose proof (meant_fits g h Hm ER ES) as Hfit. apply wp_bind.
  set (Q1 := fun g g' => heard (iss (snd c)) h g g' /\ gR g' = gR g).
  eapply (wp_mono _ (outcome P Q1 g c w)).
  { destruct (has (h_flags h) F_ACK) eqn:EA.
    - eapply wp_mono; [by apply (ack_processing_ok P g); try apply Hh|]. cbn beta. intros c1 w1 H. eapply outcome_weaken; [|exact H].
      intros g1 H1. split; [by apply ackd_heard|]. by destruct H1 as (U & f & -> & _).
    - apply wp_ret. eapply outcome_weaken; [|by apply outcome_here]. intros g1 ->. split; [by apply heard_still|done]. }
  cbn beta. intros c1 w1 H1. assert (H1' : outcome P Q g c w c1 w1) by (eapply outcome_weaken; [|exact H1]; by intros g1 []).
  unfold in_state. case_bool_decide as E1; [by apply wp_ret|]. cbn zeta. case_bool_decide as E2.
  - destruct (has (h_flags h) F_FIN); [|by apply wp_ret]. apply wp_bind. eapply wp_mono; [by apply Hack|]. cbn beta. intros c2 w2 H2.
    apply wp_bind, wp_gets, wp_ret. eapply outcome_update; [exact H2| |done|done]. intros g2 _ _ Hc2. by eapply conn_ok_ext; [..|exact Hc2].
  - apply wp_bind. eapply (wp_mono _ (outcome P Q g c w)).
    2: { cbn beta. intros c2 w2 H2. eapply outcome_quiet; [done|exact H2|]. intros g2 _ _ Hc2. by apply tcp_output_ok. }
    destruct (can_receive (state c1) && _) eqn:E; [|by apply wp_ret]. apply andb_true_iff in E as [Hcan _]. apply wp_bind.
    eapply (wp_mono _ (outcome P Q g c w)).
    + eapply (wp_outcome P Q1 received); [exact H1| |intros g2 g3 [H2 _]; by apply heard_received].
      intros g2 [_ ER2] _ Hc2. apply receive_ok; try done; [apply Hh|apply Hh|]. intros p Hp. rewrite ER2. by apply Hfit.
    + cbn beta. intros c2 w2 H2. destruct (2 <=? _); [by apply Hack|by apply wp_ret].
Qed.

(** tcp_input, once the connection is found *)
Lemma conn_input_ok g c h w : conn_ok P g c -> state c <> TCP_CLOSED -> hdr_ok h -> meant P g h -> wp (conn_input c h) (outcome P (heard (iss (snd c)) h) g c w) w.
Proof.
  intros Hc Hncl Hh Hm. unfold conn_input. cbn zeta. set (wnd := if has (h_flags h) F_SYN then _ else _). apply wp_bind.
  destruct (decide (state c = TCP_SYN_RCVD)) as [Es|Es].
  - unfold in_state at 1. rewrite bool_decide_true by done. eapply wp_mono; [by apply input_syn_rcvd_ok|]. cbn beta. intros [c1 []] w1 [H1 H2]; cbn in *.
    2: { by apply wp_ret. }
    destruct (H2 eq_refl) as [Hop H3]. unfold in_state. rewrite bool_decide_false by (by destruct (state c1)).
    set (Q1 := fun _ _ => _) in H3. eapply (wp_outcome P Q1 (heard (iss (snd c1)) h)); [exact H3| |].
    + intros g1 (-> & _) _ Hc1. apply input_open_ok; try done.
    + assert (Ei : iss (snd c1) = iss (snd c)) by (by destruct H3 as (g1 & _ & _ & _ & Ei & _)). rewrite Ei.
      destruct (ck_syn_rcvd _ _ _ _ Hc Es) as (HU & _).
      intros g1 g2 (-> & K1 & K2 & K3) (U & f & I & R & V & -> & HU2). exists U, f, I, R, V. split; [done|]. right. cbn in HU2.
      destruct HU2 as [->|(HU2 & K4)]; [split; [lia|done]|split; [lia|done]].
  - unfold in_state. rewrite bool_decide_false by done. apply wp_ret. cbn. case_bool_decide as E1; [by apply input_syn_sent_ok|].
    apply input_open_ok; try done. by destruct (state c).
Qed.

(** ** Timers *)

(** everything is sent again from snd_una on *)
Lemma snd_ok_rewind g s : snd_ok g s -> 0 <= gU g -> snd_ok g (s <| snd_nxt := snd_una s |>).
Proof.
  intros Hs HU. destruct (iss_pos g s Hs) as (Hu & _). pose proof (so_pos _ _ Hs). pose proof (u32_bound (snd_max s - snd_una s)) as Hb. fold (mx s) in Hb. unfold is_u32 in Hb.
  destruct Hs. split; try done; unfold nx; cbn; rewrite Z.sub_diag; change (u32 0) with 0; [change (mx (s <| snd_nxt := snd_una s |>)) with (mx s)|]; lia.
Qed.

(** what arming the timer adds to a step *)
Lemma then_arm Q g c w (m : ST world_t tcp_conn_t) : absorbs Q -> wp m (outcome P Q g c w) w -> wp (let! c := m in arm_timer c) (outcome P Q g c w) w.
Proof.
  intros HQ Hm. apply wp_bind. eapply wp_mono; [exact Hm|]. cbn beta. intros c1 w1 H1. eapply outcome_quiet; [done|exact H1|]. intros g1 _ _ Hc1.
  eapply wp_mono; [by apply (arm_timer_ok P g1)|]. cbn beta. intros c2 w2 [_ H2]. eapply outcome_weaken; [apply still_quiet|done].
Qed.

Lemma send_quiet g c seq flags data w : conn_ok P g c -> zlen data <= TCP_MSS -> is_u32 seq -> is_u8 flags ->
  honest (iss (snd c)) (gU g) (gR g) g seq (if has flags F_ACK then u32 (gI g + 1 + gR g) else 0) flags data ->
  wp (send_seg c seq flags data) (outcome P quiet g c w) w.
Proof.
  intros H1 H2 H3 H4 H5. eapply wp_mono; [by apply (send_still P g)|]. cbn beta. intros c' w' [_ H]. eapply outcome_weaken; [apply still_quiet|done].
Qed.

(** a change of fields nothing is said of, first *)
Lemma wp_fields g c c0 w (m : ST world_t tcp_conn_t) : snd c = snd c0 -> user_closed c = user_closed c0 ->
  wp m (outcome P quiet g c w) w -> wp m (outcome P quiet g c0 w) w.
Proof. intros E1 E2 Hm. eapply wp_mono; [exact Hm|]. cbn beta. intros c' w' H. eapply outcome_from; [..|exact H]; try done; by rewrite ?E1, ?E2. Qed.

Lemma on_timeout_ok g c w : conn_ok P g c -> state c <> TCP_CLOSED -> wp (on_timeout c) (outcome P quiet g c w) w.
Proof.
  intros Hc Hncl. pose proof (ck_snd _ _ _ _ Hc) as Hs. unfold on_timeout. cbn zeta.
  set (c1 := c <| tmr ::= fun t => t <| retries ::= fun k => k + 1 |> |>).
  assert (Hc1 : conn_ok P g c1) by (by eapply conn_ok_ext; [..|exact Hc]).
  eapply (wp_fields g c1); [done|done|]. destruct (_ <? retries (tmr c1)).
  { set (c2 := c1 <| err := NET_ERR_TIMEOUT |>). assert (Hc2 : conn_ok P g c2) by (by eapply conn_ok_ext; [..|exact Hc1]).
    eapply (wp_fields g c2); [done|done|]. apply wp_bind. eapply (wp_mono _ (outcome P quiet g c2 w)).
    - destruct (_ || _).
      + apply wp_ret. eapply outcome_weaken; [apply still_quiet|by apply outcome_here].
      + apply send_quiet; try done; [apply Hs|by apply reset_honest].
    - cbn beta. intros c3 w3 H3. apply wp_ret. by eapply outcome_closed; [exact H3|..]. }
  set (c2 := c1 <| tmr ::= fun t => t <| rtt_timing := false |> <| rto := _ |> |>).
  assert (Hc2 : conn_ok P g c2) by (by eapply conn_ok_ext; [..|exact Hc1]). change (state c2) with (state c).
  eapply (wp_fields g c2); [done|done|]. unfold in_state. case_bool_decide as E1.
  { apply then_arm; [apply quiet_quiet|]. destruct (ck_syn_rcvd _ _ _ _ Hc2 E1) as (HU & HR & _). apply send_quiet; try done; [apply Hs|].
    right. split; [done|]. split; [done|]. intros _. exists (gR g). split; [lia|done]. }
  case_bool_decide as E2.
  { apply then_arm; [apply quiet_quiet|]. apply send_quiet; try done; [apply Hs|]. right. split; [done|]. split; [done|]. done. }
  assert (Hop : opened (state c2) = true) by (change (opened (state c) = true); by destruct (state c)). destruct (ck_open _ _ _ _ Hc2 Hop) as [HU HR].
  change (snd c2) with (snd c). fold (nx (snd c)). pose proof (u32_bound (snd_nxt (snd c) - snd_una (snd c))) as Hb. fold (nx (snd c)) in Hb. unfold is_u32 in Hb.
  destruct ((snd_wnd (snd c) =? 0) && _) eqn:E3.
  { apply andb_true_iff in E3 as [_ E3]. zbool. destruct (snd_len g _ Hs) as [Hlen _]. destruct (iss_pos g _ Hs) as (_ & En & _).
    apply wp_bind. unfold wp at 1. rewrite (SB_ok g) by (done || lia). apply then_arm; [apply quiet_quiet|].
    apply send_quiet; try done; [rewrite zlen_slice; unfold TCP_MSS; lia|apply Hs|]. change (has F_ACK F_ACK) with true. rewrite En. apply honest_data; try done; lia. }
  match goal with |- context [tcp_output (?x <| tmr ::= ?f |>)] => set (c3 := x <| tmr ::= f |>) end.
  assert (Hc3 : conn_ok P g c3).
  { assert (H : conn_ok P g (c2 <| cong ::= fun k => k <| ssthresh := half_flight c2 |> <| cwnd := peer_mss k |> <| in_rec := false |> <| sb := [] |> <| dupacks := 0 |> |>
                              <| snd ::= fun s => s <| snd_nxt := snd_una s |> |>)).
    { apply conn_ok_snd; [|by apply snd_ok_rewind]. apply conn_ok_cong; [done|]. by destruct (ck_cong _ _ _ _ Hc2). }
    unfold c3. destruct (fin_sent _ && _).
    - eapply (conn_ok_ext 1 P g (_ <| snd ::= fun s => s <| fin_sent := false |> |>)); [..|apply conn_ok_snd; [exact H|]]; try done.
      by destruct H as [[] _ _ _ _ _ _ _ _ _ _].
    - by eapply conn_ok_ext; [..|exact H]. }
  assert (Es : iss (snd c3) = iss (snd c)) by (unfold c3; by case_match). assert (Eu : user_closed c3 = user_closed c) by (unfold c3; by case_match).
  clearbody c3. apply wp_bind, wp_modify, wp_bind. eapply (wp_mono _ (outcome P quiet g c2 w)).
  { eapply wp_mono; [by apply (tcp_output_ok P g)|]. cbn beta. intros c4 w4 H4. eapply outcome_from; [..|exact H4]; try done; by rewrite ?Es, ?Eu. }
  cbn beta. intros c4 w4 H4. destruct (negb (timer_on _) && _); [|by apply wp_ret]. eapply outcome_quiet; [apply quiet_quiet|exact H4|].
  intros g4 _ _ Hc4. eapply wp_mono; [by apply (arm_timer_ok P g4)|]. cbn beta. intros c5 w5 [_ H5]. eapply outcome_weaken; [apply still_quiet|done].
Qed.

Lemma conn_timer_ok g c w : conn_ok P g c -> wp (conn_timer c) (outcome P quiet g c w) w.
Proof.
  intros Hc. unfold conn_timer. apply wp_bind, wp_gets. cbn zeta.
  set (c1 := if in_state (state c) TCP_TIME_WAIT && _ then _ else c).
  assert (H1 : outcome P still g c w c1 w) by (unfold c1; destruct (_ && _); [eapply outcome_closed; [by apply outcome_here|..]; done|by apply outcome_here]).
  clearbody c1. destruct (_ && (0 <=? s32 _)) eqn:E.
  - apply andb_true_iff in E as [E _]. apply andb_true_iff in E as [_ E]. apply negb_true_iff, bool_decide_eq_false in E.
    eapply outcome_quiet; [apply quiet_quiet| |intros g1 _ _ Hc1; by apply on_timeout_ok]. eapply outcome_weaken; [apply still_quiet|done].
  - apply wp_ret. eapply outcome_weaken; [apply still_quiet|done].
Qed.

Lemma conn_flush_ok g c w : conn_ok P g c -> wp (conn_flush c) (outcome P quiet g c w) w.
Proof.
  intros Hc. unfold conn_flush. destruct (_ && negb (in_state (state c) TCP_SYN_RCVD)) eqn:E.
  - assert (Hop : opened (state c) = true).
    { unfold opened, in_state in *. repeat case_bool_decide; try done; by rewrite ?andb_false_r in E. }
    destruct (ck_open _ _ _ _ Hc Hop). by apply send_ack_quiet.
  - apply wp_ret. eapply outcome_weaken; [apply still_quiet|by apply outcome_here].
Qed.
End run.
