(* ===== verification/TcpUser.v ===== *)
(** The calls of a TCP connection's user, and how a connection begins. *)

From S2P Require Import Prelude Wire Tcp TcpConn TcpTable TcpInv TcpOut TcpIn TcpAck TcpRun.

(** ** Queueing *)

(** bytes join the stream *)
Definition wrote (d : list Z) (g g' : ghost) : Prop := exists f, g' = g <| gW := gW g ++ d |> <| gF := f |>.

Lemma wrote_absorbs d : absorbs (wrote d).
Proof. intros g g1 g2 [f ->] [f' ->]. by exists f'. Qed.

Lemma wrote_none g g' : quiet g g' -> wrote [] g g'.
Proof. intros [f ->]. exists f. rewrite app_nil_r. by destruct g. Qed.

Lemma put_in_slice l i d w b a : put_in l i d w = Some (b, w) -> 0 <= a <= i -> 0 <= i -> i + zlen d <= zlen l ->
  slice b a (i + zlen d) = slice l a i ++ d /\ zlen b = zlen l.
Proof.
  unfold put_in. intros E Ha Hi Hl. rewrite (proj2 (Z.leb_le _ _) Hi), (proj2 (Z.leb_le _ _) Hl) in E. cbn in E. injection E as <-.
  pose proof (zlen_nonneg d). assert (Ht : zlen (take (Z.to_nat i) l) = i) by (rewrite zlen_take; lia). split.
  - unfold slice. rewrite drop_app_le by (unfold zlen in *; lia). rewrite app_assoc. rewrite take_app_length'.
    + f_equal. rewrite skipn_firstn_comm. f_equal. lia.
    + rewrite length_app, length_drop. unfold zlen in *. lia.
  - rewrite !zlen_app, Ht, zlen_drop by lia. lia.
Qed.

Lemma sbuf_put_ok g s d w : snd_ok g s -> 0 <= gU g -> gF g = false -> zlen d <= sb_size s - sb_len s ->
  wp (sbuf_put s (zlen d) d) (fun s' w' => w' = w /\ iss s' = iss s /\ snd_ok (g <| gW := gW g ++ d |>) s') w.
Proof.
  intros Hs HU HF Hd. pose proof (snd_len g s Hs) as [Hlen Hmax]. destruct (so_size _ _ Hs) as [Hz1 Hz2]. pose proof (so_off _ _ Hs). pose proof (so_len _ _ Hs).
  pose proof (so_room _ _ Hs). pose proof (zlen_nonneg d). pose proof (so_pos _ _ Hs) as Hpos. unfold SBUF_SIZE in *.
  assert (HW : gU g + mx s <= zlen (gW g)). { destruct (decide (gU g + mx s <= zlen (gW g))); [done|]. rewrite (so_fin _ _ Hs) in HF by lia. done. }
  pose proof (u32_bound (snd_max s - snd_una s)) as Hb. fold (mx s) in Hb. unfold is_u32 in Hb.
  assert (Hput : forall l off b, zlen l = sb_size s -> 0 <= off -> off + sb_len s + zlen d <= sb_size s -> slice l off (off + sb_len s) = slice (sbuf s) (sb_off s) (sb_off s + sb_len s) ->
    put_in l (off + sb_len s) d w = Some (b, w) -> snd_ok (g <| gW := gW g ++ d |>) (s <| sbuf := b |> <| sb_off := off |> <| sb_len := u32 (sb_len s + zlen d) |>)).
  { intros l off b Hl Ho Hr Hsl Hp. destruct (put_in_slice l (off + sb_len s) d w b off Hp) as [K1 K2]; [lia|lia|lia|].
    pose proof Hs as []. rewrite (u32_small (sb_len s + zlen d)) by (unfold is_u32; lia). split; try done; cbn; unfold SBUF_SIZE; rewrite ?zlen_app; try lia.
    - change (nx (s <| sbuf := b |> <| sb_off := off |> <| sb_len := _ |>)) with (nx s). change (mx (s <| sbuf := b |> <| sb_off := off |> <| sb_len := _ |>)) with (mx s). lia.
    - change (mx (s <| sbuf := b |> <| sb_off := off |> <| sb_len := _ |>)) with (mx s). lia.
    - rewrite Z.add_assoc, K1, Hsl, so_buf. rewrite drop_app_le; [done|]. unfold zlen in *. lia. }
  unfold sbuf_put. apply wp_bind. destruct (sb_size s <? sb_off s + sb_len s + zlen d) eqn:E; zbool.
  - apply wp_bind. unfold wp at 1. rewrite bytes_in_ok by lia. set (l0 := slice (sbuf s) (sb_off s) (sb_off s + sb_len s)).
    assert (Hl0 : zlen l0 = sb_len s) by (unfold l0; rewrite zlen_slice; lia).
    destruct (put_in_ok (sbuf s) 0 l0 w ltac:(lia) ltac:(lia)) as (b & Eb & Hzb & _). apply wp_bind. unfold wp at 1. rewrite Eb. apply wp_ret. cbn [sbuf sb_off sb_len set].
    destruct (put_in_slice (sbuf s) 0 l0 w b 0 Eb ltac:(lia) ltac:(lia) ltac:(lia)) as [Hb0 _]. apply wp_bind.
    destruct (put_in_ok b (0 + sb_len s) d w ltac:(lia) ltac:(lia)) as (b2 & Eb2 & _). unfold wp at 1. cbn. cbn in Eb2. rewrite Eb2. apply wp_ret.
    split; [done|]. split; [done|]. eapply (Hput b 0 b2); try done; try lia. rewrite Hl0 in Hb0. rewrite Hb0. done.
  - apply wp_ret, wp_bind. destruct (put_in_ok (sbuf s) (sb_off s + sb_len s) d w ltac:(lia) ltac:(lia)) as (b & Eb & _). unfold wp at 1. rewrite Eb. apply wp_ret.
    split; [done|]. split; [done|]. pose proof (Hput (sbuf s) (sb_off s) b Hz1 ltac:(lia) ltac:(lia) eq_refl Eb) as H'. by destruct s.
Qed.

Section user.
Variable P : option peer_t.
Implicit Types g : ghost.

Lemma conn_ok_wrote g c d s : conn_ok P g c -> gF g = false -> snd_ok (g <| gW := gW g ++ d |>) s -> conn_ok P (g <| gW := gW g ++ d |>) (c <| snd := s |>).
Proof.
  intros [C1 C2 C3 C4 C5 C6 C7 C8 C9 C10 C11] HF Hs. split; try done.
  - by destruct C4.
  - destruct P; [|done]. by destruct C5.
Qed.

Lemma outcome_same Q g c w : conn_ok P g c -> (forall g', quiet g g' -> Q g g') -> outcome P Q g c w c w.
Proof. intros Hc HQ. eapply outcome_weaken; [|by apply outcome_here]. intros g1 ->. apply HQ. exists (gF g). by destruct g. Qed.

Lemma send_turn_ok g c data start timeout b w : conn_ok P g c ->
  wp (send_turn c data start timeout b) (fun a w' => 0 <= a.2 <= zlen data /\ outcome P (wrote (take (Z.to_nat a.2) data)) g c w a.1.1 w') w.
Proof.
  intros Hc. pose proof (zlen_nonneg data) as Hd0. unfold send_turn.
  assert (Hnone : outcome P (wrote (take (Z.to_nat 0) data)) g c w c w) by (apply outcome_same; [done|]; apply wrote_none).
  destruct (zlen data =? 0); [by apply wp_ret|]. destruct (negb (err c =? 0)); [by apply wp_ret|].
  destruct (negb _) eqn:Est; [by apply wp_ret|]. apply negb_false_iff in Est.
  assert (Hop : opened (state c) = true /\ gF g = false /\ 0 <= gU g).
  { unfold in_state in Est. assert (H : state c = TCP_ESTABLISHED \/ state c = TCP_CLOSE_WAIT) by (apply orb_true_iff in Est as [E|E]; apply bool_decide_eq_true in E; auto).
    assert (Hop : opened (state c) = true) by (by destruct H as [-> | ->]). split; [done|]. split; [|by apply (ck_open _ _ _ _ Hc)].
    destruct (gF g) eqn:EF; [|done]. destruct (ck_fin _ _ _ _ Hc EF Hop) as [H1 H2]. by destruct H. }
  destruct Hop as (Hop & HF & HU). pose proof (ck_snd _ _ _ _ Hc) as Hs. pose proof (so_len _ _ Hs). pose proof (so_off _ _ Hs). pose proof (so_room _ _ Hs). destruct (so_size _ _ Hs) as [_ Hz]. unfold SBUF_SIZE in Hz.
  rewrite (u32_small (sb_size (snd c) - sb_len (snd c))) by (unfold is_u32; lia).
  destruct (negb (_ =? 0)) eqn:E.
  2: { apply wp_bind, wp_gets. destruct (_ <=? _); [by apply wp_ret|]. destruct b; by apply wp_ret. }
  set (n := min_u32 _ (zlen data)). assert (Hn : n = Z.min (sb_size (snd c) - sb_len (snd c)) (zlen data)) by (unfold n, min_u32; zcases; lia). clearbody n.
  set (d := take (Z.to_nat n) data). assert (Hd : zlen d = n) by (unfold d; rewrite zlen_take; lia).
  apply wp_bind. eapply wp_mono; [rewrite <- Hd; apply (sbuf_put_ok g); try done; lia|]. cbn beta. intros s w1 (-> & Ei & Hs').
  apply wp_bind. eapply (wp_mono _ (outcome P (wrote d) g c w)).
  - eapply outcome_quiet; [apply wrote_absorbs| |intros g1 _ _ Hc1; by apply tcp_output_ok].
    exists (g <| gW := gW g ++ d |>). split; [exists (gF g); by destruct g|]. split; [split; cbn; try lia; auto; [exists d; by rewrite HF|exists []; by rewrite app_nil_r]|].
    split; [by apply conn_ok_wrote|]. split; [done|]. split; [done|]. split; [done|]. exists []. by rewrite app_nil_r.
  - cbn beta. intros c2 w2 H2. apply wp_ret. cbn. split; [lia|]. exact H2.
Qed.

(** ** Reading *)

(** the next bytes of what came were taken out *)
Definition took (d : list Z) (g g' : ghost) : Prop :=
  exists f, g' = g <| gT := gT g + zlen d |> <| gF := f |> /\ d = slice (gV g) (gT g) (gT g + zlen d).

Lemma took_absorbs d : absorbs (took d).
Proof. intros g g1 g2 (f & -> & H) [f' ->]. by exists f'. Qed.

Lemma took_nothing g g' : quiet g g' -> took [] g g'.
Proof.
  intros [f ->]. exists f. change (zlen (@nil Z)) with 0. rewrite Z.add_0_r. split; [by destruct g|].
  unfold slice. by rewrite Z.sub_diag.
Qed.

Lemma conn_ok_took g c n : conn_ok P g c -> state c <> TCP_SYN_SENT -> state c <> TCP_SYN_RCVD -> 0 <= n <= rb_len (rcv c) ->
  conn_ok P (g <| gT := gT g + n |>) (c <| rcv ::= fun r => r <| rb_head := (rb_head r + n) mod rb_size r |> <| rb_len := rb_len r - n |> |>) /\
  take (Z.to_nat n) (ring (rcv c)) = slice (gV g) (gT g) (gT g + n) /\ zlen (take (Z.to_nat n) (ring (rcv c))) = n.
Proof.
  intros [C1 C2 C3 C4 C5 C6 C7 C8 C9 C10 C11] N1 N2 Hn. pose proof (rcv_wf _ _ C4) as Hwf. destruct (ring_take _ n Hwf Hn) as [Hr (K1 & K2 & K3 & K4)].
  pose proof (zlen_ring _ Hwf) as Hz. pose proof (ro_ring _ _ C4) as Er. destruct (ro_T _ _ C4) as [HT1 HT2].
  assert (HV : zlen (gV g) - gT g = rb_len (rcv c)). { rewrite <- Hz, Er. unfold zlen in *. rewrite length_drop. lia. }
  split; [split; try done|].
  - by destruct C1.
  - destruct C4. split; try done; cbn; [lia|]. change (ring (rcv c <| rb_head := _ |> <| rb_len := _ |>)) with (ring (rcv c <| rb_head := (rb_head (rcv c) + n) mod rb_size (rcv c) |> <| rb_len := rb_len (rcv c) - n |>)).
    rewrite Hr, Er, drop_drop. f_equal. lia.
  - destruct P; [|done]. by destruct C5.
  - rewrite Er. split; [unfold slice; f_equal; lia|]. rewrite <- Er. rewrite zlen_take; lia.
Qed.

(** where it ends without an error and with no bytes, the peer's FIN came and the ring is empty *)
Lemma recv_turn_ok g c max start timeout b w : conn_ok P g c -> 0 <= max ->
  wp (recv_turn c max start timeout b) (fun a w' => outcome P (took a.2) g c w a.1.1 w' /\
    (a.1.2 = Ends 0 -> 0 < max -> fin_rcvd (rcv c) = true /\ rb_len (rcv c) = 0 /\ a.2 = [])) w.
Proof.
  intros Hc Hmax. pose proof (ck_rcv _ _ _ _ Hc) as Hr. pose proof (rcv_wf _ _ Hr) as Hwf. pose proof Hwf as (H1 & H2 & H3 & H4). unfold RBUF_SIZE in H2. unfold recv_turn.
  assert (Hnone : outcome P (took []) g c w c w) by (apply outcome_same; [done|]; apply took_nothing).
  destruct (negb (rb_len (rcv c) =? 0)) eqn:E0; zbool.
  - set (n := min_u32 max (rb_len (rcv c))). assert (Hn : n = Z.min max (rb_len (rcv c))) by (unfold n, min_u32; zcases; lia). clearbody n.
    assert (N1 : state c <> TCP_SYN_SENT /\ state c <> TCP_SYN_RCVD).
    { split; intros Es; [destruct (ck_syn_sent _ _ _ _ Hc Es) as (_ & _ & E & _)|destruct (ck_syn_rcvd _ _ _ _ Hc Es) as (_ & _ & E & _)]; lia. }
    destruct N1 as [N1 N2]. destruct (conn_ok_took g c n Hc N1 N2 ltac:(lia)) as (Hc1 & Hsl & Hz).
    apply wp_bind. unfold wp at 1. rewrite ring_front_ok by (done || lia). apply wp_bind. destruct (rb_size (rcv c) =? 0) eqn:E1; zbool; [lia|]. apply wp_ret. cbn zeta.
    match goal with |- context [adv_window ?x] => set (c1 := x) end.
    assert (Ec1 : c1 = c <| rcv ::= fun r => r <| rb_head := (rb_head r + n) mod rb_size r |> <| rb_len := rb_len r - n |> |>).
    { change (c <| rcv := rcv c <| rb_head := u32 (rb_head (rcv c) + n) mod rb_size (rcv c) |> <| rb_len := u32 (rb_len (rcv c) - n) |> |> =
              c <| rcv := rcv c <| rb_head := (rb_head (rcv c) + n) mod rb_size (rcv c) |> <| rb_len := rb_len (rcv c) - n |> |>).
      by rewrite (u32_small (rb_head (rcv c) + n)), (u32_small (rb_len (rcv c) - n)) by (unfold is_u32; lia). }
    clearbody c1. subst c1. set (c1 := c <| rcv ::= _ |>) in *. set (d := take (Z.to_nat n) (ring (rcv c))) in *.
    assert (Ho : outcome P (took d) g c w c1 w).
    { exists (g <| gT := gT g + n |>). split; [exists (gF g); rewrite Hz; split; [by destruct g|done]|]. split; [split; cbn; try lia; auto; exists []; by rewrite app_nil_r|].
      split; [done|]. split; [done|]. split; [done|]. split; [done|]. exists []. by rewrite app_nil_r. }
    apply wp_bind. eapply (wp_mono _ (outcome P (took d) g c w)).
    + destruct (_ && (_ || _)) eqn:E2; [|by apply wp_ret]. apply andb_true_iff in E2 as [E2 _]. apply andb_true_iff in E2 as [E2 _].
      apply negb_true_iff, bool_decide_eq_false in E2. eapply outcome_quiet; [apply took_absorbs|exact Ho|]. intros g1 _ _ Hg1.
      assert (Hop : opened (state c1) = true) by (change (opened (state c) = true); change (state c <> TCP_CLOSED) in E2; by destruct (state c)).
      destruct (ck_open _ _ _ _ Hg1 Hop). by apply send_ack_quiet.
    + cbn beta. intros c2 w2 H5. apply wp_ret. cbn. split; [done|]. intros [= E5] Hm. lia.
  - destruct (fin_rcvd (rcv c)) eqn:EF; [by apply wp_ret; split|]. destruct (negb (err c =? 0)) eqn:E1; zbool; [apply wp_ret; split; [done|]; by intros [= E]|].
    destruct (in_state (state c) TCP_CLOSED); [by apply wp_ret; split|]. apply wp_bind, wp_gets.
    destruct (_ <=? _); [by apply wp_ret; split|]. destruct b; by apply wp_ret; split.
Qed.

(** ** Closing *)

Lemma conn_ok_uc g c : conn_ok P g c -> conn_ok P g (c <| user_closed := true |>).
Proof.
  intros [C1 C2 C3 C4 C5 C6 C7 C8 C9 C10 C11]. split; try done. destruct P; [|done]. by destruct C5.
Qed.

Lemma conn_close_ok g c w : conn_ok P g c -> wp (conn_close c) (outcome P quiet g c w) w.
Proof.
  intros Hc. unfold conn_close. cbn zeta. set (c1 := c <| user_closed := true |>). assert (Hc1 : conn_ok P g c1) by (by apply conn_ok_uc).
  assert (Ho : outcome P quiet g c w c1 w) by (eapply outcome_weaken; [apply still_quiet|by apply outcome_still]).
  destruct (_ || _).
  - eapply outcome_quiet; [apply quiet_quiet| |intros g1 _ _ H; by apply tcp_output_ok]. eapply outcome_update; [exact Ho| |done|done].
    intros g1 _ _ H. apply conn_ok_snd; [done|]. by destruct H as [[] _ _ _ _ _ _ _ _ _ _].
  - apply wp_ret. destruct (in_state _ _); [|done]. by eapply outcome_closed; [exact Ho|..].
Qed.

Lemma conn_abort_ok g c w : conn_ok P g c -> wp (conn_abort c) (outcome P quiet g c w) w.
Proof.
  intros Hc. unfold conn_abort. destruct (_ && _).
  - apply send_quiet; try done; [apply (ck_snd _ _ _ _ Hc)|by apply reset_honest].
  - apply wp_ret. eapply outcome_weaken; [apply still_quiet|by apply outcome_here].
Qed.
End user.

(** ** How a connection begins *)

Definition ghost0 : ghost := Gh [] (-1) false 0 (-1) [] 0.

Lemma kmalloc_ok n w : 0 <= n -> wp (kmalloc n) (fun b w' => sent w' = sent w /\ draws w' = draws w /\ (forall l, b = Some l -> zlen l = n)) w.
Proof.
  intros Hn. unfold kmalloc, wp. destruct (chunks w) as [|b l]; (split; [done|split; [done|]]).
  - intros l [= <-]. unfold zlen. rewrite length_replicate. lia.
  - destruct b as [b|]; [|done]. intros l' [= <-]. unfold zlen. rewrite length_resize. lia.
Qed.

Lemma kmalloc_or_ok big small w : 0 <= small <= big ->
  wp (kmalloc_or big small) (fun a w' => sent w' = sent w /\ draws w' = draws w /\ (forall l, a.2 = Some l -> zlen l = a.1 /\ small <= a.1 <= big)) w.
Proof.
  intros Hn. unfold kmalloc_or. apply wp_bind. eapply wp_mono; [apply kmalloc_ok; lia|]. cbn beta. intros [b|] w1 (E1 & F1 & H1).
  - apply wp_ret. split; [done|split; [done|]]. intros l [= <-]. specialize (H1 b eq_refl). cbn. lia.
  - apply wp_bind. eapply wp_mono; [apply kmalloc_ok; lia|]. cbn beta. intros b w2 (E2 & F2 & H2). apply wp_ret. split; [congruence|split; [congruence|]].
    intros l H. cbn in H. specialize (H2 l H). cbn. lia.
Qed.

(** a connection as conn_alloc leaves it, for a peer that has done nothing yet *)
Record begun (c : tcp_conn_t) : Prop := {
  bg_ok : forall P, (forall p, P = Some p -> 0 <= pT p /\ zlen (pW p) < pT p) -> conn_ok P ghost0 c;
  bg_unused : unused (rcv c);
  bg_state : state c = TCP_CLOSED;
  bg_uc : user_closed c = false;
  bg_ooo : ooo (rcv c) = [];
  bg_lport : lport c = 0;
}.

Lemma begun_ok isn sblk sn rblk rn : is_u32 isn -> zlen sblk = sn -> SBUF_SMALL <= sn <= SBUF_SIZE -> zlen rblk = rn -> RBUF_SMALL <= rn <= RBUF_SIZE ->
  begun (conn_zero <| used := true |> <| snd := Snd isn isn (u32 (isn + 1)) (u32 (isn + 1)) 0 0 0 sblk sn 0 0 false false 0 |>
      <| cong := Cong 536 (4 * TCP_MSS) (4 * 2 ^ 20) [] false 0 0 0 |> <| opt ::= fun o => o <| peer_ws := None |> |>
      <| rcv ::= fun r => r <| rbuf := rblk |> <| rb_size := rn |> |> <| tmr ::= fun t => t <| rto := RTO_INIT |> |>).
Proof.
  unfold SBUF_SMALL, SBUF_SIZE, RBUF_SMALL, RBUF_SIZE. intros Hi Hs1 Hs2 Hr1 Hr2. split; try done. intros P HP.
  assert (Hnx : u32 (u32 (isn + 1) - isn) = 1) by (rewrite u32_sub_l; by replace (isn + 1 - isn) with 1 by lia).
  split; try done; cbn.
  - split; try done; cbn; unfold nx, mx, SBUF_SIZE; cbn; rewrite ?Hnx; try done; try lia; try apply u32_bound.
    replace (isn + 1 + -1) with isn by lia. symmetry. by apply u32_small.
  - by left.
  - split; try done; cbn; unfold RBUF_SIZE; lia.
  - destruct P as [p|]; [|done]. destruct (HP p eq_refl). pose proof (zlen_nonneg (pW p)). split; cbn; try done; try lia.
Qed.

Lemma fresh_conn_ok w : draws w <> [] -> 
  wp fresh_conn (fun a w' => sent w' = sent w /\ (if a.2 then begun a.1 /\ draws w' = tail (draws w) else used a.1 = false /\ state a.1 = TCP_CLOSED /\ rb_len (rcv a.1) = 0)) w.
Proof.
  intros Hd. unfold fresh_conn. apply wp_bind. eapply wp_mono; [by apply kmalloc_or_ok|]. cbn beta. intros [sn sblk] w1 (E1 & F1 & H1).
  apply wp_bind. eapply wp_mono; [by apply kmalloc_or_ok|]. cbn beta. intros [rn rblk] w2 (E2 & F2 & H2). cbn in H1, H2.
  destruct sblk as [sblk|]; [|apply wp_ret; split; [congruence|done]]. destruct rblk as [rblk|]; [|apply wp_ret; split; [congruence|done]].
  destruct (H1 _ eq_refl) as [Z1 B1]. destruct (H2 _ eq_refl) as [Z2 B2]. apply wp_bind. unfold random_u32, wp at 1. rewrite F2, F1. destruct (draws w) as [|r l]; [done|].
  apply wp_ret. split; [cbn; congruence|]. split; [|done]. apply begun_ok; try done. apply u32_bound.
Qed.

Lemma aim_ok c ip six port : begun c -> begun (aim_conn ip six port c).
Proof.
  intros [H1 H2 H3 H4 H5 H6]. split; try done. intros P HP. pose proof (H1 P HP) as Hc. unfold aim_conn.
  set (k := if bool_decide (is_Some six) then cong c <| peer_mss := TCP6_MSS |> else cong c).
  assert (Hk : cong_ok k) by (unfold k; destruct (ck_cong _ _ _ _ Hc); by case_bool_decide).
  eapply (conn_ok_ext 1 P ghost0 (c <| cong := k |>)); try done. by apply conn_ok_cong.
Qed.

Section begin.
Variable P : option peer_t.

Lemma send_syn_ok g c flags w : conn_ok P g c -> is_u8 flags -> honest (iss (snd c)) (gU g) (gR g) g (iss (snd c)) (if has flags F_ACK then u32 (gI g + 1 + gR g) else 0) flags [] ->
  wp (send_syn flags c) (fun c' w' => outcome P still g c w c' w' /\ state c' = state c) w.
Proof.
  intros Hc Hf Hh. unfold send_syn. apply wp_bind. eapply wp_mono; [apply (send_still P g); try done; apply (ck_snd _ _ _ _ Hc)|]. cbn beta.
  intros c1 w1 [[a ->] H1]. apply wp_bind, wp_gets. cbn zeta. apply wp_bind, wp_gets, wp_ret. split; [|done].
  eapply outcome_update; [exact H1| |done|done]. intros g1 _ _ Hc1. by eapply conn_ok_ext; [..|exact Hc1].
Qed.

(** an active open, until its answer comes *)
Lemma start_conn_ok c p w : begun c -> (forall q, P = Some q -> 0 <= pT q /\ zlen (pW q) < pT q) ->
  wp (start_conn p c) (fun c' w' => outcome P still ghost0 c w c' w' /\ state c' = TCP_SYN_SENT) w.
Proof.
  intros Hb HP. unfold start_conn. set (c1 := c <| lport := p |> <| state := TCP_SYN_SENT |>).
  assert (Hc1 : conn_ok P ghost0 c1).
  { destruct (bg_ok _ Hb P HP) as [C1 C2 C3 C4 C5 C6 C7 C8 C9 C10 C11]. split; try done; cbn. intros _. split_and!; try done; apply Hb. }
  eapply wp_mono; [apply (send_syn_ok ghost0 c1); try done|].
  - right. split; [done|]. split; [done|]. done.
  - cbn beta. intros c' w' [H E]. split; [|done]. by eapply outcome_from; [..|exact H].
Qed.

(** the ghost state of a passive open by the SYN numbered [q] *)
Definition ghost1 (q : Z) : ghost := ghost0 <| gI := q |> <| gR := 0 |>.

Lemma passive_conn_ok c l h w : begun c -> hdr_ok h -> (forall q, P = Some q -> 0 <= pT q /\ zlen (pW q) < pT q /\ pI q = h_seq h) ->
  wp (passive_conn l h c) (fun c' w' => outcome P still (ghost1 (h_seq h)) c w c' w' /\ state c' = TCP_SYN_RCVD) w.
Proof.
  intros Hb Hh HP. unfold passive_conn. cbn zeta. apply wp_bind.
  assert (Hc : conn_ok P ghost0 c) by (apply (bg_ok _ Hb); intros q Hq; destruct (HP q Hq) as (? & ? & _); done).
  eapply wp_mono; [apply parse_syn_opts_ok; [apply Hc|]|].
  { cbn. destruct (ck_cong _ _ _ _ Hc). by case_bool_decide. }
  cbn beta. intros c1 w1 [-> (o & k & -> & Ho & Hk)].
  match goal with |- wp (send_syn _ ?x) _ _ => set (c2 := x) end.
  assert (Hc2 : conn_ok P (ghost1 (h_seq h)) c2).
  { pose proof (bg_unused _ Hb) as Hun. pose proof (bg_ooo _ Hb) as Hooo. destruct Hun as [Hl Hf]. destruct Hc as [C1 C2 C3 C4 C5 C6 C7 C8 C9 C10 C11]. split; try done.
    - by destruct C1.
    - apply opts_agreed_ok.
    - destruct C4. split; try done; [split; [apply Hh|done]|cbn; f_equal; lia].
    - destruct P as [q|]; [|done]. destruct (HP q eq_refl) as (K1 & K2 & K3). pose proof (zlen_nonneg (pW q)). split; cbn; rewrite ?Hf, ?Hooo; try done; try lia. }
  eapply wp_mono; [apply (send_syn_ok (ghost1 (h_seq h)) c2); try done|].
  - right. split; [done|]. split; [done|]. intros _. exists 0. split; [done|]. done.
  - cbn beta. intros c' w' [H E]. split; [|done]. by eapply outcome_from; [..|exact H].
Qed.
End begin.
