(* ===== verification/TcpStream.v ===== *)
(** Two TCP connections that talk to each other over a network that loses,
    repeats and reorders segments, and is slow: the streams their users read
    and write. *)

From S2P Require Import Prelude Wire Tcp TcpConn TcpTable TcpInv TcpOut TcpIn TcpAck TcpRun TcpUser.

(** ** The two ends and the network *)

(** one end: the connection, what its user wrote and read so far *)
Record side_t := Side { conn : tcp_conn_t; written : list Z; taken : list Z }.

(** a segment on its way: from the left?, and how much the left and the right user had written then *)
Record flying_t := Fly { f_out : out_t; f_left : bool; f_wl : Z; f_wr : Z }.

Record link_t := Link { left : side_t; right : side_t; air : list flying_t }.
Definition side (l : link_t) (b : bool) : side_t := if b then left l else right l.

(** the calls of the user and of the timers *)
Inductive act_t :=
  | Timer | Flush | Close
  | Write (data : list Z) (start timeout : Z) (interrupted : bool)
  | Read (max start timeout : Z) (interrupted : bool).

Definition run_act (a : act_t) (s : side_t) : ST world_t side_t :=
  match a with
  | Timer => let! c := conn_timer (conn s) in st_ret (Side c (written s) (taken s))
  | Flush => let! c := conn_flush (conn s) in st_ret (Side c (written s) (taken s))
  | Close => let! c := conn_close (conn s) in st_ret (Side c (written s) (taken s))
  | Write data start timeout intr =>
    let! (c, _, n) := send_turn (conn s) data start timeout intr in st_ret (Side c (written s ++ take (Z.to_nat n) data) (taken s))
  | Read max start timeout intr =>
    let! (c, _, d) := recv_turn (conn s) max start timeout intr in st_ret (Side c (written s) (taken s ++ d))
  end.

(** what happens: the end it happens at, and the rest of the kernel as it is then; the segment that
    arrives stays in the air, to arrive again *)
Inductive event_t :=
  | Call (b : bool) (w : world_t) (a : act_t)
  | Arrive (b : bool) (w : world_t) (k : nat) (src dst : Z) (six : option (list Z * list Z)).

Definition LIFETIME : Z := 2 ^ 29.

(** neither user wrote more than LIFETIME bytes since it was sent *)
Definition alive (l : link_t) (f : flying_t) : bool :=
  (zlen (written (left l)) - f_wl f <=? LIFETIME) && (zlen (written (right l)) - f_wr f <=? LIFETIME).

Definition arriving (l : link_t) (b : bool) (w : world_t) (k : nat) (src dst : Z) (six : option (list Z * list Z)) : option hdr_t :=
  f ← air l !! k;
  if eqb (f_left f) (negb b) && alive l f then
    match read_segment src dst six (ip6_on w) (o_seg (f_out f)) with
    | Some (Some h) => if matches h (conn (side l b)) then Some h else None
    | _ => None
    end
  else None.

Definition possible (l : link_t) (e : event_t) : bool :=
  match e with
  | Call _ _ (Read max _ _ _) => 0 <=? max
  | Call _ _ _ => true
  | Arrive b w k src dst six => bool_decide (is_Some (arriving l b w k src dst six))
  end.

(** the end [b] is [s] now, and sent [l'] *)
Definition put_side (l : link_t) (b : bool) (s : side_t) (outs : list out_t) : link_t :=
  let a := air l ++ map (fun o => Fly o b (zlen (written (left l))) (zlen (written (right l)))) outs in
  if b then Link s (right l) a else Link (left l) s a.

(** None: the code faults *)
Definition exec (l : link_t) (e : event_t) : option link_t :=
  match e with
  | Call b w a =>
    match run_act a (side l b) (w <| sent := [] |>) with
    | Some (s, w') => Some (put_side l b s (sent w'))
    | None => None
    end
  | Arrive b w k src dst six =>
    h ← arriving l b w k src dst six;
    match conn_input (conn (side l b)) h (w <| sent := [] |>) with
    | Some (c, w') => Some (put_side l b (Side c (written (side l b)) (taken (side l b))) (sent w'))
    | None => None
    end
  end.

(** the left connects, from the port [lport]; the right, listener [n], answers its SYN *)
Definition open_link (wl wr : world_t) (ip : Z) (ip6 : option (list Z * list Z)) (port lport n src dst : Z) (six : option (list Z * list Z)) : option link_t :=
  '(c, ok, wl) ← fresh_conn wl;
  if negb ok then None else
  '(c, wl) ← start_conn lport (aim_conn ip ip6 port c) (wl <| sent := [] |>);
  o ← head (sent wl);
  r ← read_segment src dst six (ip6_on wr) (o_seg o);
  h ← r;
  if negb (Z.land (h_flags h) (Z.lor F_SYN (Z.lor F_ACK F_RST)) =? F_SYN) then None else
  '(d, ok, wr) ← fresh_conn wr;
  if negb ok then None else
  '(d, wr) ← passive_conn n h d (wr <| sent := [] |>);
  Some (Link (Side c [] []) (Side d [] []) (map (fun o => Fly o true 0 0) (sent wl) ++ map (fun o => Fly o false 0 0) (sent wr))).

Inductive reached : link_t -> Prop :=
  | reached_open wl wr ip ip6 port lport n src dst six l : open_link wl wr ip ip6 port lport n src dst six = Some l -> reached l
  | reached_exec l e l' : reached l -> possible l e = true -> exec l e = Some l' -> reached l'.

(** what has come to an end, and is still to be read *)
Definition unread (s : side_t) : list Z := ring (rcv (conn s)).

(** ** A segment is read as it was sent *)

Lemma segment_bytes sport dport seq ackno flags wnd opts data x :
  exists p, length p = 20%nat /\ wr16 (segment sport dport seq ackno flags wnd opts data) 16 x = p ++ opts ++ data /\
    rd32 (p ++ opts ++ data) 4 = Some (u32 (Z.lor (Z.lor (Z.lor (Z.shiftl (u8 (Z.shiftr seq 24)) 24) (Z.shiftl (u8 (Z.shiftr seq 16)) 16)) (Z.shiftl (u8 (Z.shiftr seq 8)) 8)) (u8 seq))) /\
    rd32 (p ++ opts ++ data) 8 = Some (u32 (Z.lor (Z.lor (Z.lor (Z.shiftl (u8 (Z.shiftr ackno 24)) 24) (Z.shiftl (u8 (Z.shiftr ackno 16)) 16)) (Z.shiftl (u8 (Z.shiftr ackno 8)) 8)) (u8 ackno))) /\
    rd8 (p ++ opts ++ data) 12 = Some (u8 (Z.shiftl ((20 + zlen opts) / 4) 4)) /\ rd8 (p ++ opts ++ data) 13 = Some flags.
Proof.
  eexists (_ :: _ :: _ :: _ :: _ :: _ :: _ :: _ :: _ :: _ :: _ :: _ :: _ :: _ :: _ :: _ :: _ :: _ :: _ :: _ :: []).
  split; [reflexivity|]. split; [reflexivity|]. split_and!; reflexivity.
Qed.

Lemma header_words n : 0 <= n <= 40 -> n mod 4 = 0 -> Z.shiftr (u8 (Z.shiftl ((20 + n) / 4) 4)) 4 * 4 = 20 + n.
Proof.
  intros Hn Hm. rewrite Z.shiftl_mul_pow2, Z.shiftr_div_pow2 by lia. unfold u8. rewrite (Z.mod_small (_ * 2 ^ 4)) by lia. lia.
Qed.

Lemma read_packet src dst six on ip d4 ip6 sport dport seq ackno flags wnd data opts h :
  read_segment src dst six on (o_seg (packet ip d4 ip6 sport dport seq ackno flags wnd data opts)) = Some (Some h) ->
  is_u32 seq -> is_u32 ackno -> zlen opts <= 40 -> zlen opts mod 4 = 0 ->
  h_seq h = seq /\ h_ack h = ackno /\ h_flags h = flags /\ h_data h = data.
Proof.
  intros Hr Hs Ha Ho Hm. pose proof (zlen_nonneg opts). pose proof (zlen_nonneg data).
  assert (Hx : exists x, o_seg (packet ip d4 ip6 sport dport seq ackno flags wnd data opts) = wr16 (segment sport dport seq ackno flags wnd opts data) 16 x).
  { unfold packet. destruct ip6 as [[]|]; cbn [o_seg]; eauto. }
  destruct Hx as [x Ex]. rewrite Ex in Hr. destruct (segment_bytes sport dport seq ackno flags wnd opts data x) as (p & Hp & Es & E4 & E8 & E12 & E13).
  rewrite Es in Hr. clear Ex Es. set (seg := p ++ opts ++ data) in *.
  assert (Hz : zlen seg = 20 + zlen opts + zlen data) by (unfold seg; rewrite !zlen_app; unfold zlen; lia).
  unfold read_segment in Hr. cbv zeta in Hr. rewrite Hz in Hr. rewrite (proj2 (Z.ltb_ge _ 20)) in Hr by lia.
  destruct (match six with Some _ => _ | None => _ end); [done|].
  destruct (rd16_some seg 0 ltac:(lia) ltac:(lia)) as [v0 E0]. destruct (rd16_some seg 2 ltac:(lia) ltac:(lia)) as [v2 E2].
  destruct (rd16_some seg 14 ltac:(lia) ltac:(lia)) as [v14 E14]. rewrite E0, E2, E4, E8, E12, E13, E14 in Hr. cbn [mbind option_bind] in Hr.
  rewrite header_words in Hr by lia. rewrite (proj2 (Z.ltb_ge _ _)), (proj2 (Z.ltb_ge (20 + zlen opts + zlen data) _)) in Hr by lia. cbn [orb] in Hr.
  rewrite !rd_range_at in Hr by lia. cbn [mbind option_bind] in Hr. injection Hr as <-. cbn. rewrite !u32_join by done. split_and!; try done.
  unfold slice, seg. rewrite app_assoc. rewrite drop_app_length' by (rewrite length_app; unfold zlen; lia). apply take_ge. unfold zlen. lia.
Qed.

Lemma honest_read i lo ro g o src dst six on h : honest_out i lo ro g o -> read_segment src dst six on (o_seg o) = Some (Some h) ->
  hdr_ok h /\ honest i lo ro g (h_seq h) (h_ack h) (h_flags h) (h_data h).
Proof.
  intros (ip & d4 & ip6 & sp & dp & seq & ackno & flags & wnd & data & opts & -> & H1 & H2 & H3 & H4 & H5 & H6 & H) Hr.
  destruct (read_packet _ _ _ _ _ _ _ _ _ _ _ _ _ _ _ _ Hr H1 H2 H4 H5) as (E1 & E2 & E3 & E4). rewrite E1, E2, E3, E4. split; [|done].
  unfold TCP_MSS in H6. split; rewrite ?E1, ?E2, ?E4; try done. lia.
Qed.

(** ** The ghost states of both ends *)

Lemma conn_ok_peer lo p p' g c : ple p p' -> conn_inv lo (Some p) g c -> conn_inv lo (Some p') g c.
Proof. intros Hp [C1 C2 C3 C4 C5 C6 C7 C8 C9 C10 C11]. split; try done. by eapply tracks_mono. Qed.

(** one end, of ghost state [g], the other being [g'] with initial number [i'] *)
Record end_ok (s : side_t) (g g' : ghost) (i' : Z) : Prop := {
  eo_conn : conn_ok (Some (peer_of g' i')) g (conn s);
  eo_written : written s = gW g;
  eo_taken : taken s = take (Z.to_nat (gT g)) (gV g);
  eo_acked : gU g <= gR g';
}.

(** how far behind a segment may be when it is sent *)
Definition BEHIND : Z := 2 ^ 18 + 1.

Definition fly_ok (l : link_t) (G : bool -> ghost) (f : flying_t) : Prop :=
  honest_out (iss (snd (conn (side l (f_left f))))) ((if f_left f then f_wl f else f_wr f) - BEHIND) ((if f_left f then f_wr f else f_wl f) - BEHIND)
    (G (f_left f)) (f_out f).

Definition coupled (l : link_t) (G : bool -> ghost) : Prop :=
  (forall b, end_ok (side l b) (G b) (G (negb b)) (iss (snd (conn (side l (negb b)))))) /\ Forall (fly_ok l G) (air l).

Lemma end_behind s g g' i' : end_ok s g g' i' -> zlen (written s) - BEHIND <= gU g.
Proof.
  intros [H1 H2 _ _]. pose proof (ck_snd _ _ _ _ H1) as Hs. destruct (snd_len g _ Hs) as [H3 H4]. pose proof (so_U _ _ Hs). rewrite H2. unfold BEHIND, SBUF_SIZE in *. lia.
Qed.

(** it received no more than the other's stream and FIN *)
Lemma end_top s g g' i' : end_ok s g g' i' -> gR g <= zlen (gW g') + 1.
Proof.
  intros [H1 _ _ _]. pose proof (ck_tracks _ _ _ _ H1) as Ht. cbn in Ht. pose proof (tr_fin _ _ _ _ _ Ht) as Hf. cbn in Hf. destruct (fin_rcvd _); lia.
Qed.

(** a step of one end *)
Lemma coupled_step l G b Q c' w w' s' : coupled l G -> sent w = [] ->
  outcome (Some (peer_of (G (negb b)) (iss (snd (conn (side l (negb b))))))) Q (G b) (conn (side l b)) w c' w' -> conn s' = c' ->
  (forall g', Q (G b) g' -> gle (G b) g' -> written s' = gW g' /\ taken s' = take (Z.to_nat (gT g')) (gV g') /\ gU g' <= gR (G (negb b))) ->
  exists G', coupled (put_side l b s' (sent w')) G'.
Proof.
  intros [Hends Hair] Hw (g' & HQ & Hg & Hc & Hi & _ & [_ (outs & Eo & Ho)]) <- HQ'. destruct (HQ' g' HQ Hg) as (E1 & E2 & E3).
  rewrite Hw in Eo. cbn in Eo. set (l' := put_side l b s' (sent w')).
  assert (Es : side l' b = s' /\ side l' (negb b) = side l (negb b)) by (by destruct b). destruct Es as [Es1 Es2].
  exists (fun x => if eqb x b then g' else G x). split.
  - assert (Hb : end_ok (side l' b) g' (G (negb b)) (iss (snd (conn (side l' (negb b)))))).
    { rewrite Es1, Es2. by split. }
    assert (Hn : end_ok (side l' (negb b)) (G (negb b)) g' (iss (snd (conn (side l' b))))).
    { rewrite Es1, Es2, Hi. pose proof (Hends (negb b)) as [K1 K2 K3 K4]. rewrite negb_involutive in *. split; try done.
      - eapply conn_ok_peer; [|exact K1]. by apply ple_of.
      - pose proof (ge_R _ _ Hg). lia. }
    intros x. destruct (decide (x = b)) as [->|Hx].
    + rewrite eqb_reflx. by destruct b.
    + assert (x = negb b) as -> by (destruct x, b; done). rewrite negb_involutive, eqb_reflx. by destruct b.
  - assert (Ei : forall x, iss (snd (conn (side l' x))) = iss (snd (conn (side l x)))).
    { intros x. destruct (decide (x = b)) as [->|Hx]; [by rewrite Es1|]. assert (x = negb b) as -> by (destruct x, b; done). by rewrite Es2. }
    assert (Hold : Forall (fly_ok l' (fun x => if eqb x b then g' else G x)) (air l)).
    { eapply Forall_impl; [exact Hair|]. intros f Hf. unfold fly_ok in *. rewrite Ei. destruct (eqb (f_left f) b) eqn:E; [|done].
      apply eqb_prop in E. rewrite E in *. by eapply honest_out_mono; [exact Hg|..]. }
    assert (Hnew : Forall (fly_ok l' (fun x => if eqb x b then g' else G x)) (map (fun o => Fly o b (zlen (written (left l))) (zlen (written (right l)))) (sent w'))).
    { rewrite Eo. apply Forall_map. eapply Forall_impl; [exact Ho|]. intros o Hout. unfold fly_ok. cbn. rewrite eqb_reflx, Ei.
      pose proof (end_behind _ _ _ _ (Hends b)) as B1. pose proof (end_behind _ _ _ _ (Hends (negb b))) as B2. pose proof (eo_acked _ _ _ _ (Hends (negb b))) as B3. rewrite negb_involutive in B3.
      eapply honest_out_mono; [apply gle_refl| | |exact Hout]; destruct b; cbn in *; lia. }
    unfold l', put_side. destruct b; cbn [air]; by apply Forall_app.
Qed.

(** ** What arrives is what was meant *)

Lemma arriving_honest l G b w k src dst six h : coupled l G -> arriving l b w k src dst six = Some h ->
  state (conn (side l b)) <> TCP_CLOSED /\ hdr_ok h /\
  honest (iss (snd (conn (side l (negb b))))) (zlen (written (side l (negb b))) - LIFETIME - BEHIND) (zlen (written (side l b)) - LIFETIME - BEHIND)
    (G (negb b)) (h_seq h) (h_ack h) (h_flags h) (h_data h).
Proof.
  intros [_ Hair] Ha. unfold arriving in Ha. destruct (air l !! k) as [f|] eqn:Ef; [|done]. cbn [mbind option_bind] in Ha.
  destruct (_ && _) eqn:E1; [|done]. apply andb_true_iff in E1 as [E1 E2]. apply eqb_prop in E1. apply andb_true_iff in E2 as [E2 E3]. zbool.
  destruct (read_segment _ _ _ _ _) as [[h'|]|] eqn:Er; try done. destruct (matches h' _) eqn:Em; [|done]. injection Ha as ->.
  split.
  { intros Es. unfold matches in Em. rewrite Es in Em. by rewrite andb_false_r in Em. }
  eapply Forall_lookup_1 in Hair; [|exact Ef]. unfold fly_ok in Hair. rewrite E1 in Hair. destruct (honest_read _ _ _ _ _ _ _ _ _ _ Hair Er) as [H1 H2].
  split; [done|]. eapply honest_mono; [apply gle_refl| | |exact H2]; destruct b; cbn; lia.
Qed.

Lemma arriving_meant l G b w k src dst six h : coupled l G -> arriving l b w k src dst six = Some h ->
  meant (Some (peer_of (G (negb b)) (iss (snd (conn (side l (negb b))))))) (G b) h.
Proof.
  intros HG Ha. destruct (arriving_honest _ _ _ _ _ _ _ _ _ HG Ha) as (_ & _ & Hh). destruct HG as [Hends _].
  pose proof (end_top _ _ _ _ (Hends b)) as Ht. pose proof (end_behind _ _ _ _ (Hends (negb b))) as Hb. pose proof (eo_acked _ _ _ _ (Hends (negb b))) as Hu.
  pose proof (eo_written _ _ _ _ (Hends (negb b))) as Hw. pose proof (end_top _ _ _ _ (Hends (negb b))) as Ht2. rewrite negb_involutive in *. unfold BEHIND, LIFETIME in *.
  intros p [= <-]. destruct Hh as [H|(HR & Hs & _)]; [by left|right]. destruct (has (h_flags h) F_SYN); [by destruct Hs|].
  destruct Hs as (_ & o & Ho & Hq & Hp). exists o. split; [done|]. split; [done|]. pose proof (pc_top _ _ _ _ Hp) as Hpt. cbn in Hpt.
  pose proof (zlen_nonneg (h_data h)). assert (0 <= Z.b2z (has (h_flags h) F_FIN)) by (destruct (has (h_flags h) F_FIN); cbn; lia). rewrite Hw in *. lia.
Qed.

(** what it acknowledges, the other end received *)
Lemma heard_acked l G b w k src dst six h g' : coupled l G -> arriving l b w k src dst six = Some h ->
  heard (iss (snd (conn (side l b)))) h (G b) g' -> gU g' <= gR (G (negb b)).
Proof.
  intros HG Ha (U & f & I & R & V & -> & HU). cbn. destruct (arriving_honest _ _ _ _ _ _ _ _ _ HG Ha) as (_ & _ & Hh). destruct HG as [Hends _].
  pose proof (eo_acked _ _ _ _ (Hends b)) as H1. destruct HU as [->|(HU & EA & ER & EQ)]; [done|].
  destruct Hh as [H|(_ & _ & Hk)]; [congruence|]. destruct (Hk EA) as (r & Hr & Hr0 & Er).
  pose proof (end_behind _ _ _ _ (Hends b)) as Hb. pose proof (eo_written _ _ _ _ (Hends b)) as Hw. pose proof (end_top _ _ _ _ (Hends (negb b))) as Ht.
  pose proof (ck_tracks _ _ _ _ (eo_conn _ _ _ _ (Hends (negb b)))) as Htr. rewrite negb_involutive in *. cbn in Htr. pose proof (tr_irs _ _ _ _ _ Htr ltac:(lia)) as Ei. cbn in Ei.
  pose proof (end_top _ _ _ _ (Hends b)) as Ht2. unfold BEHIND, LIFETIME in *. rewrite Hw in *.
  rewrite Er, Ei in EQ. apply u32_inj in EQ; lia.
Qed.

(** ** Steps *)

Lemma quiet_end s g g' g2 i' : end_ok s g g' i' -> quiet g g2 -> forall c, written (Side c (written s) (taken s)) = gW g2 /\
  taken (Side c (written s) (taken s)) = take (Z.to_nat (gT g2)) (gV g2) /\ gU g2 <= gR g'.
Proof. intros [H1 H2 H3 H4] [f ->] c. by split_and!. Qed.

Lemma call_ok l G b w a : coupled l G -> possible l (Call b w a) = true -> exists l', exec l (Call b w a) = Some l' /\ exists G', coupled l' G'.
Proof.
  intros HG Hp. pose proof HG as [Hends _]. pose proof (Hends b) as He. pose proof (eo_conn _ _ _ _ He) as Hc. set (w0 := w <| sent := [] |>).
  assert (Hquiet : forall m : ST world_t tcp_conn_t, wp m (outcome (Some (peer_of (G (negb b)) (iss (snd (conn (side l (negb b))))))) quiet (G b) (conn (side l b)) w0) w0 ->
    exists l', match (let! c := m in st_ret (Side c (written (side l b)) (taken (side l b)))) w0 with Some (s, w') => Some (put_side l b s (sent w')) | None => None end = Some l' /\
      exists G', coupled l' G').
  { intros m Hm. apply wp_run in Hm as (c' & w' & E & Ho). unfold st_bind. rewrite E. eexists. split; [reflexivity|].
    eapply (coupled_step _ _ _ _ _ w0); [exact HG|reflexivity|exact Ho|reflexivity|]. intros g' HQ _. by eapply quiet_end. }
  destruct a as [| | |data start timeout intr|max start timeout intr]; cbn [exec run_act].
  - by apply Hquiet, conn_timer_ok.
  - by apply Hquiet, conn_flush_ok.
  - by apply Hquiet, conn_close_ok.
  - pose proof (send_turn_ok _ _ _ data start timeout intr w0 Hc) as Hm. apply wp_run in Hm as ([[c' r] n] & w' & E & Hn & Ho). cbn in Hn, Ho.
    unfold st_bind. fold w0. rewrite E. eexists. split; [reflexivity|]. eapply (coupled_step _ _ _ _ _ w0); [exact HG|reflexivity|exact Ho|reflexivity|].
    intros g' [f ->] _. cbn. rewrite (eo_written _ _ _ _ He). split; [done|]. split; [apply He|]. apply (eo_acked _ _ _ _ He).
  - cbn in Hp. zbool. pose proof (recv_turn_ok _ _ _ max start timeout intr w0 Hc Hp) as Hm. apply wp_run in Hm as ([[c' r] d] & w' & E & Ho & _). cbn in Ho.
    unfold st_bind. fold w0. rewrite E. eexists. split; [reflexivity|]. eapply (coupled_step _ _ _ _ _ w0); [exact HG|reflexivity|exact Ho|reflexivity|].
    intros g' (f & -> & Hd) Hg. cbn. split; [apply He|]. split; [|apply (eo_acked _ _ _ _ He)]. rewrite (eo_taken _ _ _ _ He). rewrite Hd at 1.
    destruct (ro_T _ _ (ck_rcv _ _ _ _ Hc)) as [HT _]. pose proof (zlen_nonneg d). unfold slice.
    rewrite take_take_drop. f_equal. lia.
Qed.

Lemma arrive_ok l G b w k src dst six : coupled l G -> possible l (Arrive b w k src dst six) = true ->
  exists l', exec l (Arrive b w k src dst six) = Some l' /\ exists G', coupled l' G'.
Proof.
  intros HG Hp. cbn in Hp. apply bool_decide_eq_true in Hp as [h Ha]. pose proof HG as [Hends _]. pose proof (eo_conn _ _ _ _ (Hends b)) as Hc.
  destruct (arriving_honest _ _ _ _ _ _ _ _ _ HG Ha) as (Hn & Hh & _). pose proof (arriving_meant _ _ _ _ _ _ _ _ _ HG Ha) as Hm.
  set (w0 := w <| sent := [] |>). pose proof (conn_input_ok _ _ _ h w0 Hc Hn Hh Hm) as Hr. apply wp_run in Hr as (c' & w' & E & Ho).
  cbn [exec]. rewrite Ha. cbn [mbind option_bind]. fold w0. rewrite E. eexists. split; [reflexivity|].
  eapply (coupled_step _ _ _ _ _ w0); [exact HG|reflexivity|exact Ho|reflexivity|]. intros g' HQ Hg.
  split; [|split; [|by eapply heard_acked]].
  - rewrite (eo_written _ _ _ _ (Hends b)). by destruct HQ as (U & f & I & R & V & -> & _).
  - cbn. rewrite (eo_taken _ _ _ _ (Hends b)). destruct (ge_V _ _ Hg) as [y Ey]. assert (Et : gT g' = gT (G b)) by (by destruct HQ as (U & f & I & R & V & -> & _)).
    destruct (ro_T _ _ (ck_rcv _ _ _ _ Hc)) as [HT1 HT2]. rewrite Ey, Et, take_app_le; [done|]. unfold zlen in *. lia.
Qed.

Lemma step_ok l G e : coupled l G -> possible l e = true -> exists l', exec l e = Some l' /\ exists G', coupled l' G'.
Proof. destruct e; [apply call_ok|apply arrive_ok]. Qed.

(** ** The beginning *)

Lemma begun_iss ip six port c : iss (snd (aim_conn ip six port c)) = iss (snd c).
Proof. done. Qed.

Lemma open_ok wl wr ip ip6 port lport n src dst six l : draws wl <> [] -> draws wr <> [] ->
  open_link wl wr ip ip6 port lport n src dst six = Some l -> exists G, coupled l G.
Proof.
  intros Dl Dr. unfold open_link. pose proof (fresh_conn_ok wl Dl) as Hf. apply wp_run in Hf as ([c ok] & wl1 & -> & _ & Hc). cbn [mbind option_bind].
  destruct ok; [|done]. cbn [negb]. destruct Hc as [Hc _]. cbn in Hc. apply (aim_ok c ip ip6 port) in Hc. set (c0 := aim_conn ip ip6 port c) in *. clearbody c0.
  (* the left, whoever its peer is *)
  assert (Hstart : forall P, (forall q, P = Some q -> 0 <= pT q /\ zlen (pW q) < pT q) -> exists c1 w1, start_conn lport c0 (wl1 <| sent := [] |>) = Some (c1, w1) /\
    outcome P still ghost0 c0 (wl1 <| sent := [] |>) c1 w1).
  { intros P HP. pose proof (start_conn_ok P c0 lport (wl1 <| sent := [] |>) Hc HP) as H. apply wp_run in H as (c1 & w1 & E & Ho & _). eauto. }
  destruct (Hstart None ltac:(done)) as (c1 & w1 & E1 & (g1 & -> & _ & _ & Ei1 & _ & [_ (outs & Es1 & Hout)])). rewrite E1 in *. cbn [mbind option_bind].
  cbn in Es1. rewrite Es1. destruct outs as [|o outs]; [done|]. cbn [head mbind option_bind].
  destruct (read_segment _ _ _ _ _) as [[h|]|] eqn:Er; try done. cbn [mbind option_bind]. destruct (_ =? F_SYN) eqn:EF; [|done]. cbn [negb]. zbool.
  assert (Hh : hdr_ok h /\ h_seq h = iss (snd c1)).
  { apply Forall_cons in Hout as [Ho _]. rewrite <- Ei1 in Ho. destruct (honest_read _ _ _ _ _ _ _ _ _ _ Ho Er) as [Hk Hh]. split; [done|].
    assert (HS : has (h_flags h) F_RST = false /\ has (h_flags h) F_SYN = true).
    { unfold has. change (Z.lor F_SYN (Z.lor F_ACK F_RST)) with 22 in EF. change F_SYN with (Z.land 22 2) in EF at 1.
      assert (E4 : Z.land (h_flags h) F_RST = Z.land (Z.land (h_flags h) 22) 4) by (by rewrite <- Z.land_assoc).
      assert (E2 : Z.land (h_flags h) F_SYN = Z.land (Z.land (h_flags h) 22) 2) by (by rewrite <- Z.land_assoc).
      rewrite E4, E2, EF. done. }
    destruct HS as [HR HS]. destruct Hh as [Hh|(_ & Hh & _)]; [congruence|]. rewrite HS in Hh. by destruct Hh. }
  destruct Hh as [Hh Eseq]. pose proof (fresh_conn_ok wr Dr) as Hf. apply wp_run in Hf as ([d ok] & wr1 & -> & _ & Hd). cbn [mbind option_bind].
  destruct ok; [|done]. cbn [negb]. destruct Hd as [Hd _]. cbn in Hd.
  pose proof (passive_conn_ok (Some (peer_of ghost0 (iss (snd c1)))) d n h (wr1 <| sent := [] |>) Hd Hh) as Hp.
  apply wp_run in Hp as (d1 & w2 & -> & (g2 & -> & _ & Hc2 & Ei2 & _ & [_ (outs2 & Es2 & Hout2)]) & _); [|by intros q [= <-]].
  cbn [mbind option_bind]. cbn in Es2. intros [= <-]. rewrite Es2.
  destruct (Hstart (Some (peer_of (ghost1 (h_seq h)) (iss (snd d1))))) as (c1' & w1' & [= <- <-] & (g1 & -> & _ & Hc1 & _)); [by intros q [= <-]|].
  exists (fun b : bool => if b then ghost0 else ghost1 (h_seq h)). split.
  - intros []; cbn; split; try done.
  - apply (Forall_app _ (map (fun o => Fly o true 0 0) (o :: outs)) (map (fun o => Fly o false 0 0) outs2)). split; apply Forall_map; (eapply Forall_impl; [eassumption|]); intros x Hx; unfold fly_ok; cbn;
      [rewrite Ei1|rewrite Ei2]; (eapply honest_out_mono; [apply gle_refl| | |exact Hx]); unfold BEHIND; cbn; lia.
Qed.

(** a connection was made, so there was a random number for it *)
Lemma fresh_draws w a w' : fresh_conn w = Some (a, w') -> a.2 = true -> draws w <> [].
Proof.
  unfold fresh_conn, st_bind. destruct (wp_run _ _ _ (kmalloc_or_ok SBUF_SIZE SBUF_SMALL w ltac:(done))) as ([sn sblk] & w1 & -> & _ & F1 & _).
  destruct (wp_run _ _ _ (kmalloc_or_ok RBUF_SIZE RBUF_SMALL w1 ltac:(done))) as ([rn rblk] & w2 & -> & _ & F2 & _).
  destruct sblk; [|by intros [= <- <-]]. destruct rblk; [|by intros [= <- <-]]. unfold random_u32. rewrite F2, F1. by destruct (draws w).
Qed.

Lemma reached_ok l : reached l -> exists G, coupled l G.
Proof.
  induction 1 as [wl wr ip ip6 port lport n src dst six l Ho|l e l' _ [G HG] Hp He].
  - assert (H : draws wl <> [] /\ draws wr <> []).
    { unfold open_link in Ho. destruct (fresh_conn wl) as [[[c []] w1]|] eqn:E1; [|done|done]. cbn [mbind option_bind negb] in Ho. split; [by apply (fresh_draws _ _ _ E1)|].
      destruct (start_conn _ _ _) as [[c1 w2]|]; [|done]. cbn [mbind option_bind] in Ho. destruct (head _) as [o|]; [|done]. cbn [mbind option_bind] in Ho.
      destruct (read_segment _ _ _ _ _) as [[h|]|]; try done. cbn [mbind option_bind] in Ho. destruct (negb _); [done|].
      destruct (fresh_conn wr) as [[[d []] w3]|] eqn:E2; [by apply (fresh_draws _ _ _ E2)|done|done]. }
    destruct H. eapply (open_ok wl wr); eassumption.
  - destruct (step_ok l G e HG Hp) as (l2 & E & G' & HG'). exists G'. congruence.
Qed.
