(* ===== verification/TcpProps.v ===== *)
(** What two TCP connections promise their users. *)

From S2P Require Import Prelude Lit Wire Tcp TcpConn TcpTable TcpInv TcpOut TcpIn TcpUser TcpStream.

(** ** Runs *)

Fixpoint run_events (l : link_t) (es : list event_t) : option link_t :=
  match es with
  | [] => Some l
  | e :: es => if possible l e then l ← exec l e; run_events l es else None
  end.

Lemma run_reached es l l' : reached l -> run_events l es = Some l' -> reached l'.
Proof.
  revert l. induction es as [|e es IH]; intros l Hl E; cbn [run_events] in E; [congruence|].
  destruct (possible l e) eqn:Ep; [|done]. destruct (exec l e) as [l1|] eqn:E1; [|done]. eapply IH; [|exact E]. by eapply reached_exec.
Qed.

(** ** What is read *)

Lemma got_all s g g' i' : end_ok s g g' i' -> taken s ++ unread s = gV g.
Proof. intros [H1 _ H3 _]. unfold unread. rewrite H3, (ro_ring _ _ (ck_rcv _ _ _ _ H1)). apply take_drop. Qed.

(** at the end of the stream *)
Lemma got_end s g g' i' : end_ok s g g' i' -> user_closed (conn s) = false -> fin_rcvd (rcv (conn s)) = true -> taken s ++ unread s = gW g'.
Proof.
  intros He Hu Hf. rewrite (got_all _ _ _ _ He). pose proof (ck_tracks _ _ _ _ (eo_conn _ _ _ _ He)) as Ht. cbn in Ht.
  pose proof (tr_fin _ _ _ _ _ Ht) as Hf2. rewrite Hf in Hf2. destruct Hf2 as [HR _]. cbn in HR. pose proof (zlen_nonneg (gW g')).
  pose proof (tr_all _ _ _ _ _ Ht Hu ltac:(lia)) as Ha. rewrite Hf in Ha. cbn in Ha.
  pose proof (tr_prefix _ _ _ _ _ Ht) as Hp. cbn in Hp. rewrite Hp. apply take_ge. unfold zlen in *. lia.
Qed.

(** C1: TCP keeps the order of the bytes. Two connections run the code of tcp.c, from the SYN on, with
    any number of calls of their users and timers; the network may lose, repeat, reorder and delay the
    segments between them. At any time what a user has read, followed by what
    waits in its receive ring, is a beginning of what the other user wrote. The sequence
    numbers may wrap around; a segment is taken to be gone from the network when 2^29 more bytes were written. *)
Theorem tcp_in_order l : reached l -> forall b, taken (side l b) ++ unread (side l b) `prefix_of` written (side l (negb b)).
Proof.
  intros Hl b. destruct (reached_ok l Hl) as [G [He _]]. rewrite (got_all _ _ _ _ (He b)), (eo_written _ _ _ _ (He (negb b))).
  rewrite (tr_prefix _ _ _ _ _ (ck_tracks _ _ _ _ (eo_conn _ _ _ _ (He b)))). apply prefix_take.
Qed.

(** C5: TCP loses nothing: what a connection's send buffer holds is the end of what its user wrote, and
    all before that is with the other user, read or ready to be read (as long as that has not closed its connection, after
    which bytes that arrive are thrown away). *)
Theorem tcp_no_loss l : reached l -> forall b, let s := snd (conn (side l b)) in
  exists k, slice (sbuf s) (sb_off s) (sb_off s + sb_len s) = drop k (written (side l b)) /\
    (user_closed (conn (side l (negb b))) = false -> Z.of_nat k <= zlen (taken (side l (negb b)) ++ unread (side l (negb b)))).
Proof.
  intros Hl b s. destruct (reached_ok l Hl) as [G [He _]]. pose proof (He b) as Hb. pose proof (He (negb b)) as Hn. rewrite negb_involutive in Hn.
  exists (Z.to_nat (Z.min (gU (G b)) (zlen (gW (G b))))). rewrite (got_all _ _ _ _ Hn), (eo_written _ _ _ _ Hb). pose proof (ck_snd _ _ _ _ (eo_conn _ _ _ _ Hb)) as Hs.
  split.
  - unfold s. rewrite (so_buf _ _ Hs). destruct (decide (gU (G b) <= zlen (gW (G b)))); [by rewrite Z.min_l by done|].
    rewrite !drop_ge; [done|unfold zlen in *; lia|unfold zlen in *; lia].
  - intros Hu. pose proof (ck_tracks _ _ _ _ (eo_conn _ _ _ _ Hn)) as Ht. cbn in Ht. pose proof (eo_acked _ _ _ _ Hb) as Ha. pose proof (zlen_nonneg (gV (G (negb b)))). pose proof (zlen_nonneg (gW (G b))).
    destruct (decide (0 <= gR (G (negb b)))) as [HR|HR]; [|lia]. pose proof (tr_all _ _ _ _ _ Ht Hu HR) as Hall. pose proof (tr_fin _ _ _ _ _ Ht) as Hf. cbn in Hf.
    destruct (fin_rcvd _); cbn in Hall; lia.
Qed.

(** nothing that the users, the timers or the network do at any time makes the code of a connection read or write
    outside its buffers, send a segment larger than the static buffer it is put together in, divide by zero, or loop forever. *)
Theorem tcp_never_faults l e : reached l -> possible l e = true -> is_Some (exec l e).
Proof. intros Hl Hp. destruct (reached_ok l Hl) as [G HG]. destruct (step_ok l G e HG Hp) as (l' & E & _). by exists l'. Qed.

(** C6: tcp_recv reports the end of the stream (0 bytes, no error) only when its user has read every byte the other
    user wrote. *)
Theorem tcp_eof l b max start timeout intr w c d w' : reached l -> user_closed (conn (side l b)) = false -> 0 < max ->
  recv_turn (conn (side l b)) max start timeout intr w = Some (c, Ends 0, d, w') -> taken (side l b) = written (side l (negb b)).
Proof.
  intros Hl Hu Hmax Hr. destruct (reached_ok l Hl) as [G [He _]]. pose proof (He b) as Hb.
  pose proof (recv_turn_ok _ _ _ max start timeout intr w (eo_conn _ _ _ _ Hb) ltac:(lia)) as Hok. unfold wp in Hok. rewrite Hr in Hok.
  destruct Hok as [_ H]. destruct (H eq_refl Hmax) as (Hf & Hlen & _). rewrite (eo_written _ _ _ _ (He (negb b))), <- (got_end _ _ _ _ Hb Hu Hf).
  pose proof (zlen_ring _ (rcv_wf _ _ (ck_rcv _ _ _ _ (eo_conn _ _ _ _ Hb)))) as Hz. unfold unread. rewrite Hlen in Hz.
  destruct (ring _); [by rewrite app_nil_r|]. rewrite zlen_cons in Hz. pose proof (zlen_nonneg l0). lia.
Qed.

(** ** A run: a handshake whose numbers wrap around, data that arrives out of order and twice, the end *)

Definition demo_world (blocks : list (option (list Z))) (now ip isn : Z) : world_t := World now blocks [isn] ip false [] (Stats 0 0 0 0 0) 0 0.

(** memory is short: the small buffers *)
Definition demo_small : list (option (list Z)) := [None; Some []; None; Some []].
Definition demo_l (now : Z) : world_t := demo_world [] now 0x0A000001 0.
Definition demo_r (now : Z) : world_t := demo_world [] now 0x0A000002 0.
Definition to_right (now : Z) (k : nat) : event_t := Arrive false (demo_r now) k 0x0A000001 0x0A000002 None.
Definition to_left (now : Z) (k : nat) : event_t := Arrive true (demo_l now) k 0x0A000002 0x0A000001 None.

(** the segments 3 and 4 in the order 4, 3, 3; their acknowledgement; bytes that stay behind *)
Definition demo : option link_t :=
  l ← open_link (demo_world demo_small 0 0x0A000001 0xFFFFFFF6) (demo_world demo_small 5 0x0A000002 5000) 0x0A000002 None 80 50000 0 0x0A000001 0x0A000002 None;
  run_events l
    [to_left 10 1; to_right 15 2; Call true (demo_l 20) (Write (str "hello") 20 1000 false); Call true (demo_l 21) (Write (str " world") 21 1000 false);
     to_right 30 4; to_right 31 3; to_right 32 3; Call false (demo_r 35) (Read 5 35 1000 false); to_left 40 6; Call true (demo_l 45) (Write (str "!") 45 1000 false)].

(** the rest of it, and the FIN *)
Definition demo_end : option link_t :=
  l ← demo;
  run_events l [to_right 50 7; Call true (demo_l 60) Close; to_right 65 8; Call false (demo_r 70) (Read 100 70 1000 false)].

Definition at_end (l : link_t) : bool :=
  match recv_turn (conn (right l)) 100 80 1000 false (demo_r 80) with Some (_, Ends 0, _, _) => true | _ => false end.

Lemma demo_sum : (fun l => (taken (right l), unread (right l), written (left l), possible l (to_right 90 3))) <$> demo = Some (str "hello", str " world", str "hello world!", true).
Proof. vm_compute. reflexivity. Qed.

Lemma demo_buf : (fun l => let s := snd (conn (left l)) in slice (sbuf s) (sb_off s) (sb_off s + sb_len s)) <$> demo = Some (str "!").
Proof. vm_compute. reflexivity. Qed.

Lemma demo_end_sum : (fun l => (user_closed (conn (right l)), at_end l)) <$> demo_end = Some (false, true).
Proof. vm_compute. reflexivity. Qed.

Lemma demo_reached l : demo = Some l -> reached l.
Proof.
  unfold demo. destruct (open_link _ _ _ _ _ _ _ _ _ _) as [l0|] eqn:E; [|done]. cbn [mbind option_bind]. apply run_reached. by eapply reached_open.
Qed.

Lemma demo_end_reached l : demo_end = Some l -> reached l.
Proof.
  unfold demo_end. destruct demo as [l0|] eqn:E; [|done]. cbn [mbind option_bind]. apply run_reached. by apply demo_reached.
Qed.

Lemma tcp_in_order_witness : exists l, demo = Some l /\ str "hello" ++ str " world" `prefix_of` str "hello world!" /\ taken (right l) = str "hello".
Proof.
  pose proof demo_sum as E. destruct demo as [l|] eqn:El; [|done]. injection E as E1 E2 E3 E4. exists l. split; [done|]. split; [|done].
  pose proof (tcp_in_order l (demo_reached l El) false) as H. cbn [side negb] in H. by rewrite E1, E2, E3 in H.
Defined.

Lemma tcp_no_loss_witness : exists l k, demo = Some l /\ str "!" = drop k (str "hello world!") /\ (user_closed (conn (right l)) = false -> Z.of_nat k <= 11).
Proof.
  pose proof demo_sum as E. pose proof demo_buf as B. destruct demo as [l|] eqn:El; [|done]. injection E as E1 E2 E3 E4.
  destruct (tcp_no_loss l (demo_reached l El) true) as (k & H1 & H2). exists l, k. cbn [side negb] in H1, H2. injection B as B. rewrite B in H1. rewrite E3 in H1. rewrite E1, E2 in H2.
  change (zlen (str "hello" ++ str " world")) with 11 in H2. split; [reflexivity|]. split; [exact H1|exact H2].
Defined.

Lemma tcp_never_faults_witness : exists l, demo = Some l /\ is_Some (exec l (to_right 90 3)).
Proof.
  pose proof demo_sum as E. destruct demo as [l|] eqn:El; [|done]. injection E as E1 E2 E3 E4. exists l. split; [done|].
  by apply (tcp_never_faults l (to_right 90 3) (demo_reached l El)).
Defined.

Lemma tcp_eof_witness : exists l, demo_end = Some l /\ taken (right l) = written (left l).
Proof.
  pose proof demo_end_sum as E. destruct demo_end as [l|] eqn:El; [|done]. injection E as E1 E2. exists l. split; [done|].
  unfold at_end in E2. destruct (recv_turn (conn (right l)) 100 80 1000 false (demo_r 80)) as [[[[c r] d] w']|] eqn:Er; [|discriminate E2].
  destruct r as [n| |]; [|discriminate E2|discriminate E2]. destruct n; [|discriminate E2|discriminate E2].
  exact (tcp_eof l false 100 80 1000 false (demo_r 80) c d w' (demo_end_reached l El) E1 eq_refl Er).
Defined.

(** ** A FIN that is acknowledged and sent again *)

(** all of 2000 bytes and the FIN arrive at once; the left's timer runs out before the acknowledgement comes *)
Definition fin_demo : option link_t :=
  l ← open_link (demo_world demo_small 0 0x0A000001 0xFFFFFFF6) (demo_world demo_small 5 0x0A000002 5000) 0x0A000002 None 80 50000 0 0x0A000001 0x0A000002 None;
  run_events l
    [to_left 10 1; to_right 15 2; Call true (demo_l 20) (Write (replicate 2000 65) 20 1000 false); Call true (demo_l 21) Close;
     to_right 30 3; to_right 31 4; to_right 32 5; Call true (demo_l 2000) Timer; to_left 2010 7].

(** the left knows that the right has everything up to and with the FIN, and is still in FIN_WAIT1; the last segment it sent
    is a second FIN, numbered one higher *)
Lemma fin_sent_again : match fin_demo with
  | Some l => state (conn (left l)) = TCP_FIN_WAIT1 /\ fin_rcvd (rcv (conn (right l))) = true /\ snd_una (snd (conn (left l))) = rcv_nxt (rcv (conn (right l))) /\
      (fun f => rd32 (o_seg (f_out f)) 4) <$> last (air l) = Some (Some (rcv_nxt (rcv (conn (right l))))) /\
      (fun f => has (default 0 (rd8 (o_seg (f_out f)) 13)) F_FIN) <$> last (air l) = Some true
  | None => False
  end.
Proof. vm_compute. split_and!; reflexivity. Qed.
