(* ===== verification/TcpSafe.v ===== *)
(** The whole of TCP under any packets and any calls: no access goes outside a
    buffer, and every connection in the table stays well-formed. *)

From S2P Require Import Prelude Lit Wire Ip Tcp TcpConn TcpTable TcpInv TcpOut TcpIn TcpAck TcpRun TcpUser.

(** ** Calls *)

Inductive call_t :=
  | Packet (src dst : Z) (seg : list Z)
  | Packet6 (src dst : list Z) (seg : list Z)
  | Tick | FlushAll | NetworkChanged | Disable6
  | Connect (ip : Z) (six : option (list Z * list Z)) (port : Z)
  | ConnectTurn (i start timeout : Z) (interrupted : bool)
  | SendTurn (i : Z) (data : list Z) (start timeout : Z) (interrupted : bool)
  | RecvTurn (i max start timeout : Z) (interrupted : bool)
  | CloseConn (i : Z) | AbortConn (i : Z)
  | Listen (port : Z) (six : bool)
  | AcceptTurn (l start timeout : Z) (interrupted : bool)
  | Unlisten (l : Z)
  | TestLoss (every : Z).

Definition run_call (c : call_t) : ST tcp_t unit :=
  match c with
  | Packet src dst seg => tcp_rx src dst seg
  | Packet6 src dst seg => tcp_rx6 src dst seg
  | Tick => tcp_timer
  | FlushAll => tcp_flush
  | NetworkChanged => tcp_network_changed
  | Disable6 => tcp6_disable
  | Connect ip six port => connect_begin ip six port ;;; st_ret tt
  | ConnectTurn i start timeout intr => connect_turn i start timeout intr ;;; st_ret tt
  | SendTurn i data start timeout intr => on_conn_get i (fun c => let! (c, r, n) := send_turn c data start timeout intr in st_ret (c, (r, n))) ;;; st_ret tt
  | RecvTurn i max start timeout intr => on_conn_get i (fun c => let! (c, r, d) := recv_turn c max start timeout intr in st_ret (c, (r, d))) ;;; st_ret tt
  | CloseConn i => tcp_close i
  | AbortConn i => tcp_abort i
  | Listen port six => listen_on port six ;;; st_ret tt
  | AcceptTurn l start timeout intr => accept_turn l start timeout intr ;;; st_ret tt
  | Unlisten l => tcp_unlisten l
  | TestLoss every => tcp_test_loss every
  end.

Definition port_free (t : tcp_t) (r : Z) : bool := negb (existsb (fun c => used c && (lport c =? u16 (49152 + u32 r mod 16384))) (g_conns t)).

(** a packet is no longer than IP makes it; handles are those of the table; there are random numbers,
    for the port of tcp_connect one that is free *)
Definition ready (t : tcp_t) (c : call_t) : bool :=
  match c with
  | Packet _ _ seg | Packet6 _ _ seg => (zlen seg <=? 65535) && (0 <? zlen (draws (world t)))
  | Connect _ _ _ => match draws (world t) with [] => false | _ :: l => existsb (port_free t) l end
  | ConnectTurn i _ _ _ | SendTurn i _ _ _ _ | CloseConn i | AbortConn i => (0 <=? i) && (i <? TCP_MAX_CONN)
  | RecvTurn i max _ _ _ => (0 <=? i) && (i <? TCP_MAX_CONN) && (0 <=? max)
  | AcceptTurn l _ _ _ | Unlisten l => (0 <=? l) && (l <? TCP_MAX_LISTEN)
  | _ => true
  end.

(** after tcp_init, with any clock, memory and random numbers at each call *)
Inductive tcp_reached : tcp_t -> Prop :=
  | reached_init w : tcp_reached (TcpSt (replicate (Z.to_nat TCP_MAX_CONN) conn_zero) (replicate (Z.to_nat TCP_MAX_LISTEN) (Listener false false 0)) w)
  | reached_call t c t' w : tcp_reached t -> ready t c = true -> run_call c t = Some (tt, t') -> tcp_reached (t' <| world := w |>).

(** its buffers are as large as it says, its offsets and lengths lie in them, its lists fit their arrays *)
Record within (c : tcp_conn_t) : Prop := {
  wi_sbuf : zlen (sbuf (snd c)) = sb_size (snd c) /\ 0 <= sb_off (snd c) /\ 0 <= sb_len (snd c) /\ sb_off (snd c) + sb_len (snd c) <= sb_size (snd c) /\ sb_size (snd c) <= SBUF_SIZE;
  wi_rbuf : zlen (rbuf (rcv c)) = rb_size (rcv c) /\ 0 <= rb_head (rcv c) < rb_size (rcv c) /\ rb_size (rcv c) <= RBUF_SIZE /\ 0 <= rb_len (rcv c) <= rb_size (rcv c);
  wi_ooo : ooo_count (rcv c) = zlen (ooo (rcv c)) /\ ooo_count (rcv c) <= OOO_MAX;
  wi_sb : zlen (sb (cong c)) <= SB_MAX;
  wi_mss : 64 <= peer_mss (cong c) <= TCP_MSS;
  wi_unacked : u32 (snd_nxt (snd c) - snd_una (snd c)) <= u32 (snd_max (snd c) - snd_una (snd c)) <= sb_len (snd c) + 1;
}.

(** ** The table *)

Definition slot_ok (c : tcp_conn_t) : Prop :=
  (exists g, conn_ok None g c) \/ (used c = false /\ state c = TCP_CLOSED /\ rb_len (rcv c) = 0).

Record tcp_ok (t : tcp_t) : Prop := {
  tk_conns : zlen (g_conns t) = TCP_MAX_CONN;
  tk_listeners : zlen (g_listeners t) = TCP_MAX_LISTEN;
  tk_slots : Forall slot_ok (g_conns t);
}.

Lemma ok_within g c : conn_ok None g c -> within c.
Proof.
  intros [C1 C2 C3 C4 _ _ _ _ _ _ _]. destruct C1, C2, C4. split; unfold nx, mx in *; intuition.
Qed.

Lemma slot_zero : slot_ok conn_zero.
Proof. by right. Qed.

Lemma slot_at t i : tcp_ok t -> 0 <= i < TCP_MAX_CONN -> slot_ok (aget (g_conns t) i).
Proof.
  intros [H1 _ H3] Hi. destruct (lookup_lt_is_Some_2 (g_conns t) (Z.to_nat i)) as [c Hc]; [unfold zlen in *; lia|].
  unfold aget. rewrite (list_lookup_total_correct _ _ _ Hc). by eapply Forall_lookup_1.
Qed.

Lemma tcp_ok_world t w : tcp_ok t -> tcp_ok (t <| world := w |>).
Proof. by intros []. Qed.

Lemma tcp_ok_put t i c : tcp_ok t -> slot_ok c -> tcp_ok (t <| g_conns ::= fun l => aset l i c |>).
Proof.
  intros [H1 H2 H3] Hc. split; [|done|]; cbn.
  - by rewrite zlen_aset.
  - unfold aset. apply Forall_insert; [done|done].
Qed.

(** ** Steps *)

Lemma wp_world {A} (m : ST world_t A) (Q : A -> tcp_t -> Prop) t : wp m (fun a w => Q a (t <| world := w |>)) (world t) -> wp (in_world m) Q t.
Proof. unfold wp, in_world. by destruct (m (world t)) as [[a w]|]. Qed.

Lemma wp_conn_at i (Q : tcp_conn_t -> tcp_t -> Prop) t : 0 <= i < zlen (g_conns t) -> Q (aget (g_conns t) i) t -> wp (conn_at i) Q t.
Proof. intros Hi H. apply wp_bind, wp_get, wp_option. eexists. split; [by apply get_at_in|done]. Qed.

Lemma wp_put_conn i c (Q : unit -> tcp_t -> Prop) t : 0 <= i < zlen (g_conns t) -> Q tt (t <| g_conns ::= fun l => aset l i c |>) -> wp (put_conn i c) Q t.
Proof. intros Hi H. apply wp_bind, wp_get, wp_bind, wp_option. eexists. split; [by apply put_at_in|]. by apply wp_modify. Qed.

Lemma wp_listener_at i (Q : tcp_listener_t -> tcp_t -> Prop) t : 0 <= i < zlen (g_listeners t) -> Q (aget (g_listeners t) i) t -> wp (listener_at i) Q t.
Proof. intros Hi H. apply wp_bind, wp_get, wp_option. eexists. split; [by apply get_at_in|done]. Qed.

Lemma wp_put_listener i x (Q : unit -> tcp_t -> Prop) t : 0 <= i < zlen (g_listeners t) -> Q tt (t <| g_listeners ::= fun l => aset l i x |>) -> wp (put_listener i x) Q t.
Proof. intros Hi H. apply wp_bind, wp_get, wp_bind, wp_option. eexists. split; [by apply put_at_in|]. by apply wp_modify. Qed.

Lemma wp_conn i f (Q : unit -> tcp_t -> Prop) t : 0 <= i < zlen (g_conns t) ->
  wp (f (aget (g_conns t) i)) (fun c w => Q tt (t <| world := w |> <| g_conns ::= fun l => aset l i c |>)) (world t) -> wp (on_conn i f) Q t.
Proof. intros Hi H. apply wp_bind, wp_conn_at; [done|]. apply wp_bind, wp_world. eapply wp_mono; [exact H|]. cbn beta. intros c w Hq. by apply wp_put_conn. Qed.

(** the slots of the table *)
Lemma conns_in t i : tcp_ok t -> 0 <= i < TCP_MAX_CONN -> 0 <= i < zlen (g_conns t).
Proof. intros Ht. by rewrite (tk_conns _ Ht). Qed.
Lemma listeners_in t i : tcp_ok t -> 0 <= i < TCP_MAX_LISTEN -> 0 <= i < zlen (g_listeners t).
Proof. intros Ht. by rewrite (tk_listeners _ Ht). Qed.
#[local] Hint Resolve conns_in listeners_in : core.

(** a step of a connection in use *)
Lemma conn_step t i f : tcp_ok t -> 0 <= i < TCP_MAX_CONN -> used (aget (g_conns t) i) = true ->
  (forall g, conn_ok None g (aget (g_conns t) i) -> wp (f (aget (g_conns t) i)) (fun c _ => slot_ok c) (world t)) ->
  wp (on_conn i f) (fun _ t' => tcp_ok t') t.
Proof.
  intros Ht Hi Hu Hf. destruct (slot_at t i Ht Hi) as [[g Hc]|[Hn _]]; [|congruence]. apply wp_conn; [by auto|].
  eapply wp_mono; [by apply (Hf g)|]. cbn beta. intros c w Hs. apply tcp_ok_put; [by apply tcp_ok_world|done].
Qed.

Lemma outcome_slot Q g c w c' w' : outcome None Q g c w c' w' -> slot_ok c'.
Proof. intros (g' & _ & _ & Hc & _). left. by exists g'. Qed.

Lemma conn_free_ok t i : tcp_ok t -> 0 <= i < TCP_MAX_CONN -> wp (conn_free i) (fun _ t' => tcp_ok t') t.
Proof. intros Ht Hi. apply wp_put_conn; [by auto|]. apply tcp_ok_put; [done|apply slot_zero]. Qed.

(** every connection in use has its turn *)
Lemma each_conn_ok f todo i t : tcp_ok t -> 0 <= i -> i + Z.of_nat todo <= TCP_MAX_CONN ->
  (forall t i, tcp_ok t -> 0 <= i < TCP_MAX_CONN -> used (aget (g_conns t) i) = true -> wp (f i (aget (g_conns t) i)) (fun _ t' => tcp_ok t') t) ->
  wp (each_conn todo i f) (fun _ t' => tcp_ok t') t.
Proof.
  intros Ht Hi Hl Hf. revert t i Ht Hi Hl. induction todo as [|todo IH]; intros t i Ht Hi Hl; cbn [each_conn]; [by apply wp_ret|].
  apply wp_bind, wp_conn_at; [apply conns_in; [done|lia]|]. apply wp_bind. eapply (wp_mono _ (fun _ t' => tcp_ok t')).
  - destruct (used _) eqn:E; [apply Hf; [done|lia|done]|by apply wp_ret].
  - cbn beta. intros _ t' Ht'. apply IH; [done|lia|lia].
Qed.

Lemma all_conns_ok f t : tcp_ok t ->
  (forall t i, tcp_ok t -> 0 <= i < TCP_MAX_CONN -> used (aget (g_conns t) i) = true -> wp (f i (aget (g_conns t) i)) (fun _ t' => tcp_ok t') t) ->
  wp (all_conns f) (fun _ t' => tcp_ok t') t.
Proof. intros Ht Hf. apply each_conn_ok; [done|lia|done|done]. Qed.

Lemma first_at_found {A} `{Inhabited A} (p : A -> bool) l i j : first_at p l i = Some j -> i <= j < i + zlen l /\ p (aget l (j - i)) = true.
Proof.
  revert i. induction l as [|x l IH]; intros i E; cbn [first_at] in E; [done|]. pose proof (zlen_nonneg l). rewrite zlen_cons. destruct (p x) eqn:Ep.
  - injection E as ->. rewrite Z.sub_diag. split; [lia|done].
  - destruct (IH _ E) as [Hj Hp]. split; [lia|]. replace (j - i) with (1 + (j - (i + 1))) by lia. unfold aget in *.
    replace (Z.to_nat (1 + (j - (i + 1)))) with (S (Z.to_nat (j - (i + 1)))) by lia. done.
Qed.

(** ** Packets *)

Lemma read_segment_ok src dst six on seg : zlen seg <= 65535 -> exists o, read_segment src dst six on seg = Some o /\ forall h, o = Some h -> hdr_ok h.
Proof.
  intros Hz. unfold read_segment. cbv zeta. pose proof (zlen_nonneg seg). destruct (zlen seg <? 20) eqn:E; zbool; [by exists None|].
  destruct (match six with Some _ => _ | None => _ end); [by exists None|].
  destruct (rd16_some seg 0 ltac:(lia) ltac:(lia)) as [v0 ->]. destruct (rd16_some seg 2 ltac:(lia) ltac:(lia)) as [v2 ->].
  destruct (rd32_some seg 4 ltac:(lia) ltac:(lia)) as [v4 E4]. destruct (rd32_some seg 8 ltac:(lia) ltac:(lia)) as [v8 E8]. rewrite E4, E8.
  destruct (rd8_some seg 12 ltac:(lia)) as [v12 ->]. destruct (rd8_some seg 13 ltac:(lia)) as [v13 ->]. destruct (rd16_some seg 14 ltac:(lia) ltac:(lia)) as [v14 ->].
  cbn [mbind option_bind]. destruct (_ || _) eqn:E2; [by exists None|]. apply orb_false_iff in E2 as [E2 E3]. zbool.
  rewrite !rd_range_at by lia. cbn [mbind option_bind]. eexists. split; [reflexivity|]. intros h [= <-]. split; [by eapply rd32_u32|by eapply rd32_u32|]. cbn. rewrite zlen_slice by lia. lia.
Qed.

Lemma existsb_false {A} (f : A -> bool) l : existsb f l = false <-> Forall (fun x => f x = false) l.
Proof.
  induction l as [|x l IH]; cbn [existsb]; [by split|]. rewrite orb_false_iff, IH. split; [intros []; by constructor|by intros [? ?]%Forall_cons].
Qed.

(** a connection with no port yet takes none *)
Lemma port_free_put t i c r w : lport c = 0 -> port_free t r = true -> port_free (t <| world := w |> <| g_conns ::= fun l => aset l i c |>) r = true.
Proof.
  unfold port_free. rewrite !negb_true_iff, !existsb_false. intros Hp Hf. cbn [g_conns set]. apply Forall_insert; [done|].
  rewrite Hp. apply andb_false_iff. right. apply Z.eqb_neq. pose proof (Z.mod_pos_bound (u32 r) 16384 ltac:(lia)). unfold u16. rewrite Z.mod_small by lia. lia.
Qed.

(** a connection made, that has no port yet *)
Lemma conn_alloc_ok t : tcp_ok t -> 0 < zlen (draws (world t)) ->
  wp conn_alloc (fun o t' => tcp_ok t' /\ match o with
    | Some i => 0 <= i < TCP_MAX_CONN /\ begun (aget (g_conns t') i) /\ draws (world t') = tail (draws (world t)) /\ (forall r, port_free t r = true -> port_free t' r = true)
    | None => True
    end) t.
Proof.
  intros Ht Hd. unfold conn_alloc. apply wp_bind, wp_get. destruct (first_at _ _ _) as [i|] eqn:Ei; [|by apply wp_ret].
  apply first_at_found in Ei as [Hi Eu]. rewrite Z.sub_0_r in Eu. pose proof (tk_conns _ Ht) as Hz. apply wp_bind, wp_world.
  eapply wp_mono; [apply fresh_conn_ok; destruct (draws (world t)); [change (zlen (@nil Z)) with 0 in Hd; lia|done]|].
  cbn beta. intros [c ok] w [_ Hc]. apply wp_bind, wp_put_conn; [cbn; lia|]. apply wp_ret. cbn in Hc.
  assert (Hs : slot_ok c).
  { destruct ok; [|by right]. left. exists ghost0. destruct Hc as [Hc _]. by apply (bg_ok _ Hc). }
  split; [by apply tcp_ok_put; [apply tcp_ok_world|]|]. destruct ok; [|done]. destruct Hc as [Hc Hdr]. split; [lia|]. cbn. rewrite aget_aset_eq by lia.
  split; [done|]. split; [done|]. intros r. apply port_free_put, Hc.
Qed.

Lemma passive_slot c l h w : begun c -> hdr_ok h -> wp (passive_conn l h c) (fun c' _ => slot_ok c') w.
Proof. intros Hb Hh. eapply wp_mono; [by apply (passive_conn_ok None)|]. cbn beta. intros c' w' [Ho _]. by eapply outcome_slot. Qed.

Lemma passive_open_ok h t : tcp_ok t -> hdr_ok h -> 0 < zlen (draws (world t)) -> wp (passive_open h) (fun _ t' => tcp_ok t') t.
Proof.
  intros Ht Hh Hd. unfold passive_open. apply wp_bind, wp_get. destruct (first_at _ _ _) as [l|]; [|by apply wp_ret]. destruct (_ <=? _); [by apply wp_ret|].
  apply wp_bind. eapply wp_mono; [by apply conn_alloc_ok|]. cbn beta. intros [i|] t1 [Ht1 Hi]; [|by apply wp_ret]. destruct Hi as (Hi & Hb & _).
  apply wp_bind. apply wp_conn; [by auto|]. eapply wp_mono; [by apply passive_slot|]. cbn beta. intros c w Hs. apply wp_ret. apply tcp_ok_put; [by apply tcp_ok_world|done].
Qed.

Lemma reset_world h w : hdr_ok h -> wp (send_reset_for h) (fun _ _ => True) w.
Proof.
  intros Hh. assert (Hb : exists c, begun c).
  { eexists. eapply (begun_ok 0 (replicate (Z.to_nat SBUF_SMALL) 0) SBUF_SMALL (replicate (Z.to_nat RBUF_SMALL) 0) RBUF_SMALL); try done; unfold zlen; rewrite length_replicate; done. }
  destruct Hb as [c Hb]. eapply wp_mono; [eapply (send_reset_ok None ghost0 c); [by apply (bg_ok _ Hb)|done]|]. done.
Qed.

Lemma tcp_input_ok src dst six seg t : tcp_ok t -> zlen seg <= 65535 -> 0 < zlen (draws (world t)) -> wp (tcp_input src dst six seg) (fun _ t' => tcp_ok t') t.
Proof.
  intros Ht Hz Hd. unfold tcp_input. apply wp_bind, wp_get, wp_bind. destruct (read_segment_ok src dst six (ip6_on (world t)) seg Hz) as (o & -> & Ho).
  apply wp_option. exists o. split; [done|]. destruct o as [h|]; [|by apply wp_ret]. specialize (Ho h eq_refl).
  destruct (first_at _ _ _) as [i|] eqn:Ei.
  - apply first_at_found in Ei as [Hi Em]. rewrite Z.sub_0_r in Em. rewrite (tk_conns _ Ht) in Hi. unfold matches in Em. do 3 (apply andb_true_iff in Em as [Em _]).
    apply andb_true_iff in Em as [Eu Es]. apply conn_step; [done|lia|done|]. intros g Hc. apply negb_true_iff, bool_decide_eq_false in Es.
    eapply wp_mono; [by apply (conn_input_ok None g)|]. cbn beta. intros c w Hout. by eapply outcome_slot.
  - apply wp_bind. eapply (wp_mono _ (fun _ t' => tcp_ok t')); [destruct (_ =? F_SYN); [by apply passive_open_ok|by apply wp_ret]|].
    cbn beta. intros [] t' Ht'; [by apply wp_ret|]. apply wp_world. eapply wp_mono; [by apply reset_world|]. cbn beta. intros _ w _. by apply tcp_ok_world.
Qed.

(** ** Timers, and the network *)

(** a step that keeps a connection well-formed *)
Lemma keeps_slot Q g c (m : ST world_t tcp_conn_t) w : wp m (outcome None Q g c w) w -> wp m (fun c' _ => slot_ok c') w.
Proof. intros H. eapply wp_mono; [exact H|]. cbn beta. intros c' w' Ho. by eapply outcome_slot. Qed.

Lemma tcp_flush_ok t : tcp_ok t -> wp tcp_flush (fun _ t' => tcp_ok t') t.
Proof.
  intros Ht. apply all_conns_ok; [done|]. clear t Ht. intros t i Ht Hi Hu. apply conn_step; [done..|]. intros g Hc. by eapply keeps_slot, conn_flush_ok.
Qed.

Lemma tcp_timer_ok t : tcp_ok t -> wp tcp_timer (fun _ t' => tcp_ok t') t.
Proof.
  intros Ht. apply all_conns_ok; [done|]. clear t Ht. intros t i Ht Hi Hu. apply wp_bind. eapply wp_mono.
  - apply conn_step; [done..|]. intros g Hc. by eapply keeps_slot, conn_timer_ok.
  - cbn beta. intros _ t' Ht'. apply wp_bind, wp_conn_at; [by auto|]. destruct (_ && _); [by apply conn_free_ok|by apply wp_ret].
Qed.

(** the connection that fails is still well-formed *)
Lemma drop_conn_ok f t i : tcp_ok t -> 0 <= i < TCP_MAX_CONN -> used (aget (g_conns t) i) = true ->
  (forall g c, conn_ok None g c -> conn_ok None g (f c)) -> wp (drop_conn f i (aget (g_conns t) i)) (fun _ t' => tcp_ok t') t.
Proof.
  intros Ht Hi Hu Hf. unfold drop_conn. destruct (_ || _); [by apply conn_free_ok|]. apply conn_step; [done..|]. intros g Hc. apply wp_ret. left. exists g. apply Hf.
  eapply (conn_ok_ext 1 None g (_ <| state := TCP_CLOSED |>)); [..|by apply conn_ok_closed]; done.
Qed.

Lemma tcp6_disable_ok t : tcp_ok t -> wp tcp6_disable (fun _ t' => tcp_ok t') t.
Proof.
  intros Ht. apply all_conns_ok; [done|]. clear t Ht. intros t i Ht Hi Hu. destruct (bool_decide _); [|by apply wp_ret]. by apply drop_conn_ok.
Qed.

Lemma tcp_network_changed_ok t : tcp_ok t -> wp tcp_network_changed (fun _ t' => tcp_ok t') t.
Proof.
  intros Ht. apply all_conns_ok; [done|]. clear t Ht. intros t i Ht Hi Hu. destruct (local_peer _); [by apply wp_ret|]. apply drop_conn_ok; [done..|].
  intros g c Hc. eapply (conn_ok_ext 1 None g (c <| snd ::= fun s => s <| fin_pending := false |> |>)); [..|apply conn_ok_snd; [done|]]; try done.
  by destruct Hc as [[] _ _ _ _ _ _ _ _ _ _].
Qed.

(** ** The user's calls *)

(** a turn that gives something *)
Lemma turn_step {A} t i (f : tcp_conn_t -> ST world_t (tcp_conn_t * A)) : tcp_ok t -> 0 <= i < TCP_MAX_CONN ->
  (forall c, slot_ok c -> wp (f c) (fun a _ => slot_ok a.1) (world t)) -> wp (on_conn_get i f ;;; st_ret tt) (fun _ t' => tcp_ok t') t.
Proof.
  intros Ht Hi Hf. apply wp_bind. unfold on_conn_get. apply wp_bind, wp_conn_at; [by auto|]. apply wp_bind, wp_world. eapply wp_mono; [by apply Hf, slot_at|].
  cbn beta. intros [c a] w Hs. apply wp_bind, wp_put_conn; [by apply (conns_in t)|]. apply wp_ret, wp_ret. apply tcp_ok_put; [by apply tcp_ok_world|done].
Qed.

Lemma send_slot data start timeout intr c w : slot_ok c ->
  wp (let! (c, r, n) := send_turn c data start timeout intr in st_ret (c, (r, n))) (fun a _ => slot_ok a.1) w.
Proof.
  intros [[g Hc]|(Hu & Hs & Hl)]; apply wp_bind.
  - eapply wp_mono; [by apply (send_turn_ok None g)|]. cbn beta. intros [[c' r] n] w' [_ Ho]. apply wp_ret. by eapply outcome_slot.
  - assert (H : slot_ok c) by (by right). unfold send_turn. destruct (zlen data =? 0); [by apply wp_ret, wp_ret|]. destruct (negb (err c =? 0)); [by apply wp_ret, wp_ret|].
    rewrite Hs. by apply wp_ret, wp_ret.
Qed.

Lemma recv_slot max start timeout intr c w : 0 <= max -> slot_ok c ->
  wp (let! (c, r, d) := recv_turn c max start timeout intr in st_ret (c, (r, d))) (fun a _ => slot_ok a.1) w.
Proof.
  intros Hm [[g Hc]|(Hu & Hs & Hl)]; apply wp_bind.
  - eapply wp_mono; [by apply (recv_turn_ok None g)|]. cbn beta. intros [[c' r] d] w' [Ho _]. apply wp_ret. by eapply outcome_slot.
  - assert (H : slot_ok c) by (by right). unfold recv_turn. rewrite Hl. cbn [Z.eqb negb]. destruct (fin_rcvd (rcv c)); [by apply wp_ret, wp_ret|].
    destruct (negb (err c =? 0)); [by apply wp_ret, wp_ret|]. rewrite Hs. by apply wp_ret, wp_ret.
Qed.

Lemma tcp_close_ok t i : tcp_ok t -> 0 <= i < TCP_MAX_CONN -> wp (tcp_close i) (fun _ t' => tcp_ok t') t.
Proof.
  intros Ht Hi. unfold tcp_close. apply wp_bind, wp_conn_at; [by auto|]. destruct (used _) eqn:Eu; [|by apply wp_ret]. cbn [negb]. apply wp_bind. eapply wp_mono.
  - apply conn_step; [done..|]. intros g Hc. by eapply keeps_slot, conn_close_ok.
  - cbn beta. intros _ t' Ht'. apply wp_bind, wp_conn_at; [by auto|]. destruct (in_state _ _); [by apply conn_free_ok|by apply wp_ret].
Qed.

Lemma tcp_abort_ok t i : tcp_ok t -> 0 <= i < TCP_MAX_CONN -> wp (tcp_abort i) (fun _ t' => tcp_ok t') t.
Proof.
  intros Ht Hi. unfold tcp_abort. apply wp_bind, wp_conn_at; [by auto|]. destruct (used _) eqn:Eu; [|by apply wp_ret]. cbn [negb]. apply wp_bind. eapply wp_mono.
  - apply conn_step; [done..|]. intros g Hc. by eapply keeps_slot, conn_abort_ok.
  - cbn beta. intros _ t' Ht'. by apply conn_free_ok.
Qed.

(** a free port is found, if the random numbers come to one *)
Lemma pick_port_ok todo t : existsb (port_free t) (take todo (draws (world t))) = true -> tcp_ok t ->
  wp (pick_port todo) (fun _ t' => tcp_ok t' /\ g_conns t' = g_conns t) t.
Proof.
  revert t. induction todo as [|todo IH]; intros t He Ht; [done|]. cbn [pick_port]. destruct (draws (world t)) as [|r l] eqn:Ed; [done|]. cbn [take existsb] in He.
  apply wp_bind, wp_world. unfold random_u32, wp at 1. rewrite Ed. cbn zeta. apply wp_bind, wp_get. cbn [g_conns set]. unfold port_free at 1 in He.
  set (t1 := t <| world := world t <| draws := l |> |>). change (g_conns t1) with (g_conns t).
  destruct (existsb _ (g_conns t)) eqn:E; [|apply wp_ret; split; [by apply tcp_ok_world|done]]. cbn [negb orb] in He. apply (IH t1); [exact He|by apply tcp_ok_world].
Qed.

Lemma connect_begin_ok t ip six port : tcp_ok t -> ready t (Connect ip six port) = true -> wp (connect_begin ip six port ;;; st_ret tt) (fun _ t' => tcp_ok t') t.
Proof.
  intros Ht Hr. cbn in Hr. destruct (draws (world t)) as [|r0 l] eqn:Ed; [done|]. apply wp_bind. unfold connect_begin. apply wp_bind.
  eapply wp_mono; [apply conn_alloc_ok; [done|rewrite Ed, zlen_cons; pose proof (zlen_nonneg l); lia]|]. cbn beta. intros [i|] t1 Hi; [|apply wp_ret, wp_ret, Hi].
  destruct Hi as (Ht1 & Hi & Hb & Hdr & Hpf). rewrite Ed in Hdr. cbn in Hdr. apply wp_bind, wp_conn; [by auto|]. apply wp_ret. apply (aim_ok _ ip six port) in Hb. set (c := aim_conn ip six port _) in *.
  set (t2 := t1 <| world := _ |> <| g_conns ::= _ |>). assert (Ht2 : tcp_ok t2).
  { apply tcp_ok_put; [by apply tcp_ok_world|]. left. exists ghost0. by apply (bg_ok _ Hb). }
  assert (Ec : aget (g_conns t2) i = c) by (unfold t2; cbn; rewrite aget_aset_eq; [done|rewrite (tk_conns _ Ht1); lia]).
  apply wp_bind, wp_get, wp_bind. eapply wp_mono; [apply pick_port_ok; [|exact Ht2]|].
  { change (draws (world t2)) with (draws (world t1)). rewrite firstn_all, Hdr. apply existsb_exists in Hr as (r & Hin & Hr). apply existsb_exists. exists r. split; [done|].
    apply port_free_put; [apply Hb|]. by apply Hpf. }
  cbn beta. intros p t3 [Ht3 Eg]. apply wp_bind, wp_conn; [by auto|]. rewrite Eg, Ec. eapply wp_mono; [by apply (start_conn_ok None)|]. cbn beta. intros c' w' [Ho _].
  apply wp_ret, wp_ret. apply tcp_ok_put; [by apply tcp_ok_world|]. by eapply outcome_slot.
Qed.

Lemma conn_same t i f : tcp_ok t -> 0 <= i < TCP_MAX_CONN -> (forall c, slot_ok c -> slot_ok (f c)) ->
  wp (on_conn i (fun c => st_ret (f c))) (fun _ t' => tcp_ok t') t.
Proof. intros Ht Hi Hf. apply wp_conn; [by auto|]. apply wp_ret. apply tcp_ok_put; [by apply tcp_ok_world|]. by apply Hf, slot_at. Qed.

Lemma connect_turn_ok t i start timeout intr : tcp_ok t -> 0 <= i < TCP_MAX_CONN -> wp (connect_turn i start timeout intr ;;; st_ret tt) (fun _ t' => tcp_ok t') t.
Proof.
  intros Ht Hi. apply wp_bind. unfold connect_turn. apply wp_bind, wp_conn_at; [by auto|]. apply wp_bind, wp_world, wp_gets. cbn beta.
  assert (Ht1 : tcp_ok (t <| world := world t |>)) by (by apply tcp_ok_world).
  destruct (if negb _ then _ else _) as [e|]; [|by apply wp_ret, wp_ret]. destruct (in_state _ TCP_ESTABLISHED); apply wp_bind.
  - eapply wp_mono; [apply conn_same; [done..|]|].
    + intros c [[g Hc]|Hc]; [left; exists g; apply conn_ok_cong; [done|]; by destruct (ck_cong _ _ _ _ Hc)|by right].
    + cbn beta. intros _ t' Ht'. by apply wp_ret, wp_ret.
  - eapply wp_mono; [by apply conn_free_ok|]. cbn beta. intros _ t' Ht'. by apply wp_ret, wp_ret.
Qed.

(** ** Listeners *)

Lemma tcp_ok_listeners t i l : tcp_ok t -> tcp_ok (t <| g_listeners ::= fun ls => aset ls i l |>).
Proof. intros [H1 H2 H3]. split; [done| |done]. cbn. by rewrite zlen_aset. Qed.

Lemma listen_on_ok t port six : tcp_ok t -> wp (listen_on port six ;;; st_ret tt) (fun _ t' => tcp_ok t') t.
Proof.
  intros Ht. apply wp_bind. unfold listen_on. apply wp_bind, wp_get. destruct (_ || _); [by apply wp_ret, wp_ret|]. destruct (existsb _ _); [by apply wp_ret, wp_ret|].
  destruct (first_at _ _ _) as [i|] eqn:Ei; [|by apply wp_ret, wp_ret].
  apply first_at_found in Ei as [Hi _]. apply wp_bind, wp_put_listener; [lia|]. apply wp_ret, wp_ret. by apply tcp_ok_listeners.
Qed.

Lemma slot_other c l : slot_ok c -> slot_ok (c <| listener := l |>).
Proof. intros [[g Hc]|Hc]; [left; exists g; by eapply conn_ok_ext; [..|exact Hc]|by right]. Qed.

Lemma accept_turn_ok t l start timeout intr : tcp_ok t -> 0 <= l < TCP_MAX_LISTEN -> wp (accept_turn l start timeout intr ;;; st_ret tt) (fun _ t' => tcp_ok t') t.
Proof.
  intros Ht Hl. apply wp_bind. unfold accept_turn. apply wp_bind, wp_listener_at; [by auto|]. destruct (negb _); [by apply wp_ret, wp_ret|]. apply wp_bind, wp_get. destruct (first_at _ _ _) as [i|] eqn:Ei.
  - apply first_at_found in Ei as [Hi _]. rewrite (tk_conns _ Ht) in Hi. apply wp_bind. eapply wp_mono; [apply conn_same; [done|lia|]|].
    + intros c. apply slot_other.
    + cbn beta. intros _ t' Ht'. by apply wp_ret, wp_ret.
  - apply wp_bind, wp_world, wp_gets. assert (Ht1 : tcp_ok (t <| world := world t |>)) by (by apply tcp_ok_world).
    destruct (_ <=? _); [by apply wp_ret, wp_ret|]. destruct intr; by apply wp_ret, wp_ret.
Qed.

Lemma tcp_unlisten_ok t l : tcp_ok t -> 0 <= l < TCP_MAX_LISTEN -> wp (tcp_unlisten l) (fun _ t' => tcp_ok t') t.
Proof.
  intros Ht Hl. unfold tcp_unlisten. apply wp_bind, wp_listener_at; [by auto|]. destruct (negb _); [by apply wp_ret|]. apply wp_bind. eapply wp_mono; [apply all_conns_ok; [done|]|].
  - clear t Ht. intros t i Ht Hi Hu. destruct (bool_decide _); [|by apply wp_ret]. apply wp_bind. eapply (wp_mono _ (fun _ t' => tcp_ok t')).
    + destruct (negb _); [|by apply wp_ret]. apply conn_step; [done..|]. intros g Hc. eapply keeps_slot, send_quiet; try done; [apply (ck_snd _ _ _ _ Hc)|by apply reset_honest].
    + cbn beta. intros _ t' Ht'. by apply conn_free_ok.
  - cbn beta. intros _ t' Ht'. apply wp_put_listener; [by auto|]. by apply tcp_ok_listeners.
Qed.

(** ** All of it *)

Lemma call_table t c : tcp_ok t -> ready t c = true -> wp (run_call c) (fun _ t' => tcp_ok t') t.
Proof.
  intros Ht Hr. destruct c; cbn [run_call]; try (cbn in Hr; zbool).
  - apply tcp_input_ok; [done|lia|lia].
  - apply tcp_input_ok; [done|lia|lia].
  - by apply tcp_timer_ok.
  - by apply tcp_flush_ok.
  - by apply tcp_network_changed_ok.
  - by apply tcp6_disable_ok.
  - by apply connect_begin_ok.
  - apply connect_turn_ok; [done|lia].
  - apply turn_step; [done|lia|]. intros c Hc. by apply send_slot.
  - apply turn_step; [done|lia|]. intros c Hc. apply recv_slot; [lia|done].
  - apply tcp_close_ok; [done|lia].
  - apply tcp_abort_ok; [done|lia].
  - by apply listen_on_ok.
  - apply accept_turn_ok; [done|lia].
  - apply tcp_unlisten_ok; [done|lia].
  - apply wp_world, wp_modify. by apply tcp_ok_world.
Qed.

Lemma init_ok w : tcp_ok (TcpSt (replicate (Z.to_nat TCP_MAX_CONN) conn_zero) (replicate (Z.to_nat TCP_MAX_LISTEN) (Listener false false 0)) w).
Proof. split; [done|done|]. apply Forall_replicate, slot_zero. Qed.

Lemma tcp_reached_ok t : tcp_reached t -> tcp_ok t.
Proof.
  induction 1 as [w|t c t' w _ Ht Hr E]; [apply init_ok|]. apply tcp_ok_world. pose proof (call_table t c Ht Hr) as H. unfold wp in H. by rewrite E in H.
Qed.

(** C4: TCP as a whole is safe. From tcp_init on, whatever packets arrive (any bytes at all, from anyone), whatever the timers,
    the users and the network interface do, in any order, with any answers of the memory allocator: no call
    reads outside the packet (the options of its header included) or reads or writes outside a buffer or a table, divides by zero or
    loops forever, and the connections it leaves are well-formed: each offset and length lies in the buffer it is of, the lists of
    segments and ranges fit their arrays. What [ready] asks: a packet has at most 65535 bytes, handles are those of the tables, and the
    random numbers of a connect come to a port that is free. *)
Theorem tcp_safe t c : tcp_reached t -> ready t c = true ->
  exists t', run_call c t = Some (tt, t') /\ forall i, 0 <= i < TCP_MAX_CONN -> used (aget (g_conns t') i) = true -> within (aget (g_conns t') i).
Proof.
  intros Ht Hr. pose proof (call_table t c (tcp_reached_ok t Ht) Hr) as H. apply wp_run in H as ([] & t' & E & Ht'). exists t'. split; [done|].
  intros i Hi Hu. destruct (slot_at t' i Ht' Hi) as [[g Hc]|[Hn _]]; [by apply (ok_within g)|congruence].
Qed.

(** ** A run: a port listened on, a SYN for it, and then a segment nobody sent *)

Definition safe_init : tcp_t :=
  TcpSt (replicate (Z.to_nat TCP_MAX_CONN) conn_zero) (replicate (Z.to_nat TCP_MAX_LISTEN) (Listener false false 0))
    (World 0 [None; Some []; None; Some []] [7] 0x0A000002 false [] (Stats 0 0 0 0 0) 0 0).

(** the segment with the right checksum *)
Definition safe_seg (seq ackno flags : Z) (data opts : list Z) : list Z :=
  o_seg (packet 0x0A000001 0x0A000002 None 50000 80 seq ackno flags 1000 data opts).
Definition safe_syn : call_t := Packet 0x0A000001 0x0A000002 (safe_seg 5 0 F_SYN [] [2; 4; 0; 1; 3; 3; 200; 4; 2; 5; 10; 1]).
Definition safe_junk : call_t := Packet 0x0A000001 0x0A000002 (safe_seg 0xFFFFFFFF 8 (Z.lor F_ACK F_FIN) (replicate 100 255) [5; 10; 0; 0; 0; 9; 0; 0; 0; 1; 8; 0]).
Definition safe_demo : option tcp_t :=
  match run_call (Listen 80 false) safe_init with
  | Some (_, t) =>
    if negb (ready (t <| world := world safe_init |>) safe_syn) then None else
    match run_call safe_syn (t <| world := world safe_init |>) with
    | Some (_, t) => Some (t <| world := world safe_init |>)
    | None => None
    end
  | None => None
  end.

Definition slot_used (t : tcp_t) (c : call_t) : bool := match run_call c t with Some (_, t') => used (aget (g_conns t') 0) | None => false end.

Lemma safe_sum : match safe_demo with Some t => ready t safe_junk = true /\ slot_used t safe_junk = true | None => False end.
Proof. vm_compute. split; reflexivity. Qed.

Lemma safe_reached t : safe_demo = Some t -> tcp_reached t.
Proof.
  unfold safe_demo. destruct (run_call (Listen 80 false) safe_init) as [[[] t1]|] eqn:E1; [|done].
  assert (H1 : tcp_reached (t1 <| world := world safe_init |>)) by (exact (reached_call _ (Listen 80 false) _ _ (reached_init _) eq_refl E1)).
  destruct (ready _ safe_syn) eqn:Er; [|done]. cbn [negb]. destruct (run_call safe_syn _) as [[[] t2]|] eqn:E2; [|done]. intros [= <-].
  exact (reached_call _ safe_syn _ _ H1 Er E2).
Qed.

Lemma tcp_safe_witness : exists t t', safe_demo = Some t /\ run_call safe_junk t = Some (tt, t') /\ within (aget (g_conns t') 0).
Proof.
  pose proof safe_sum as E. destruct safe_demo as [t|] eqn:Et; [|destruct E]. destruct E as [E1 E2].
  destruct (tcp_safe t safe_junk (safe_reached t Et) E1) as (t' & E3 & H). exists t, t'. split; [reflexivity|]. split; [exact E3|].
  unfold slot_used in E2. rewrite E3 in E2. apply H; [|exact E2]. split; [lia|reflexivity].
Defined.
