(* ===== verification/Aead.v ===== *)
(** * The stream ciphers and authenticators of TLS and SSH (crypto/aead.c, crypto/chacha20.c)

    Bytes are [list Z] and the machine words [Z] with their wrap-around; a C
    array argument is the list it holds, so [zlen buf] is the C length. A
    function that writes an array returns it. [aes128_init] and
    [aes_gcm_init] take what the structure held before. The two key-stream
    loops, [chacha20_xor] and [gcm_ctr], are one loop with two block
    functions ([ctr_loop]), with the length of the buffer as fuel: a round
    takes at least a byte. The tables of AES are taken as built: the first
    [aes128_init] builds them, before anything is encrypted. *)

From S2P Require Import Prelude Wire LeBytes.

(** ** Words of a byte array *)

Definition be32_at (p : list Z) (i : Z) : Z :=
  Z.lor (Z.lor (Z.lor (Z.shiftl (aget p i) 24) (Z.shiftl (aget p (i + 1)) 16)) (Z.shiftl (aget p (i + 2)) 8))
    (aget p (i + 3)).

Definition put_be32 (v : Z) : list Z := [u8 (Z.shiftr v 24); u8 (Z.shiftr v 16); u8 (Z.shiftr v 8); u8 v].

Definition le32_at (p : list Z) (i : Z) : Z :=
  Z.lor (Z.lor (Z.lor (aget p i) (Z.shiftl (aget p (i + 1)) 8)) (Z.shiftl (aget p (i + 2)) 16))
    (Z.shiftl (aget p (i + 3)) 24).

(** [put_le32] is [le32] of [LeBytes] *)

(** the four bytes [w] written at [i] *)
Definition put4 (p : list Z) (i : Z) (w : list Z) : list Z :=
  aset (aset (aset (aset p i (aget w 0)) (i + 1) (aget w 1)) (i + 2) (aget w 2)) (i + 3) (aget w 3).

Definition ct_memcmp (x y : list Z) (len : Z) : Z :=
  foldl (fun d i => Z.lor d (Z.lxor (aget x i) (aget y i))) 0 (seqZ 0 len).

(** [for (i = 0; i < n; i++) buf[i] ^= ks[i]] *)
Definition xor_first (n : Z) (buf ks : list Z) : list Z :=
  foldl (fun b i => aset b i (Z.lxor (aget b i) (aget ks i))) buf (seqZ 0 n).

(** ** ChaCha20 *)

Definition ROTL (x n : Z) : Z := Z.lor (u32 (Z.shiftl x n)) (Z.shiftr x (32 - n)).

Definition QR (x : list Z) (a b c d : Z) : list Z :=
  let x := aset x a (u32 (aget x a + aget x b)) in
  let x := aset x d (Z.lxor (aget x d) (aget x a)) in let x := aset x d (ROTL (aget x d) 16) in
  let x := aset x c (u32 (aget x c + aget x d)) in
  let x := aset x b (Z.lxor (aget x b) (aget x c)) in let x := aset x b (ROTL (aget x b) 12) in
  let x := aset x a (u32 (aget x a + aget x b)) in
  let x := aset x d (Z.lxor (aget x d) (aget x a)) in let x := aset x d (ROTL (aget x d) 8) in
  let x := aset x c (u32 (aget x c + aget x d)) in
  let x := aset x b (Z.lxor (aget x b) (aget x c)) in aset x b (ROTL (aget x b) 7).

Definition double_round (x : list Z) : list Z :=
  let x := QR x 0 4 8 12 in
  let x := QR x 1 5 9 13 in
  let x := QR x 2 6 10 14 in
  let x := QR x 3 7 11 15 in
  let x := QR x 0 5 10 15 in
  let x := QR x 1 6 11 12 in
  let x := QR x 2 7 8 13 in
  QR x 3 4 9 14.

Definition chacha_state (key : list Z) (counter : Z) (nonce : list Z) : list Z :=
  [0x61707865; 0x3320646e; 0x79622d32; 0x6b206574] ++ map (fun i => le32_at key (i * 4)) (seqZ 0 8) ++
  [counter; le32_at nonce 0; le32_at nonce 4; le32_at nonce 8].

Definition chacha20_block (key : list Z) (counter : Z) (nonce : list Z) : list Z :=
  let s := chacha_state key counter nonce in
  let x := Nat.iter 10 double_round s in
  mjoin (map (fun i => le32 (u32 (aget x i + aget s i))) (seqZ 0 16)).

(** [while (len) { ks = block(counter++); n = min(len, w); buf[0..n) ^= ks; buf += n; len -= n; }] *)
Fixpoint ctr_loop (block : Z -> list Z) (w : Z) (fuel : nat) (counter : Z) (buf : list Z) : list Z :=
  match fuel with
  | O => buf
  | S fuel =>
    if zlen buf =? 0 then buf
    else
      let ks := block counter in
      let n := if zlen buf <? w then zlen buf else w in
      let buf := xor_first n buf ks in
      take (Z.to_nat n) buf ++ ctr_loop block w fuel (u32 (counter + 1)) (drop (Z.to_nat n) buf)
  end.

Definition chacha20_xor (key : list Z) (counter : Z) (nonce : list Z) (buf : list Z) : list Z :=
  ctr_loop (fun c => chacha20_block key c nonce) 64 (length buf) counter buf.

(** ** AES-128 *)

Definition SBOX : list Z := [
    0x63;0x7c;0x77;0x7b;0xf2;0x6b;0x6f;0xc5;0x30;0x01;0x67;0x2b;0xfe;0xd7;0xab;0x76;
    0xca;0x82;0xc9;0x7d;0xfa;0x59;0x47;0xf0;0xad;0xd4;0xa2;0xaf;0x9c;0xa4;0x72;0xc0;
    0xb7;0xfd;0x93;0x26;0x36;0x3f;0xf7;0xcc;0x34;0xa5;0xe5;0xf1;0x71;0xd8;0x31;0x15;
    0x04;0xc7;0x23;0xc3;0x18;0x96;0x05;0x9a;0x07;0x12;0x80;0xe2;0xeb;0x27;0xb2;0x75;
    0x09;0x83;0x2c;0x1a;0x1b;0x6e;0x5a;0xa0;0x52;0x3b;0xd6;0xb3;0x29;0xe3;0x2f;0x84;
    0x53;0xd1;0x00;0xed;0x20;0xfc;0xb1;0x5b;0x6a;0xcb;0xbe;0x39;0x4a;0x4c;0x58;0xcf;
    0xd0;0xef;0xaa;0xfb;0x43;0x4d;0x33;0x85;0x45;0xf9;0x02;0x7f;0x50;0x3c;0x9f;0xa8;
    0x51;0xa3;0x40;0x8f;0x92;0x9d;0x38;0xf5;0xbc;0xb6;0xda;0x21;0x10;0xff;0xf3;0xd2;
    0xcd;0x0c;0x13;0xec;0x5f;0x97;0x44;0x17;0xc4;0xa7;0x7e;0x3d;0x64;0x5d;0x19;0x73;
    0x60;0x81;0x4f;0xdc;0x22;0x2a;0x90;0x88;0x46;0xee;0xb8;0x14;0xde;0x5e;0x0b;0xdb;
    0xe0;0x32;0x3a;0x0a;0x49;0x06;0x24;0x5c;0xc2;0xd3;0xac;0x62;0x91;0x95;0xe4;0x79;
    0xe7;0xc8;0x37;0x6d;0x8d;0xd5;0x4e;0xa9;0x6c;0x56;0xf4;0xea;0x65;0x7a;0xae;0x08;
    0xba;0x78;0x25;0x2e;0x1c;0xa6;0xb4;0xc6;0xe8;0xdd;0x74;0x1f;0x4b;0xbd;0x8b;0x8a;
    0x70;0x3e;0xb5;0x66;0x48;0x03;0xf6;0x0e;0x61;0x35;0x57;0xb9;0x86;0xc1;0x1d;0x9e;
    0xe1;0xf8;0x98;0x11;0x69;0xd9;0x8e;0x94;0x9b;0x1e;0x87;0xe9;0xce;0x55;0x28;0xdf;
    0x8c;0xa1;0x89;0x0d;0xbf;0xe6;0x42;0x68;0x41;0x99;0x2d;0x0f;0xb0;0x54;0xbb;0x16].

Definition xtime (x : Z) : Z := u8 (Z.lxor (Z.shiftl x 1) (if negb (Z.land x 0x80 =? 0) then 0x1b else 0)).
Definition ror8 (v : Z) : Z := Z.lor (Z.shiftr v 8) (u32 (Z.shiftl v 24)).

(** the four static tables, built on first use *)
Record aes_tables := Aes_tables { Te0 : list Z; Te1 : list Z; Te2 : list Z; Te3 : list Z }.

Definition te0_entry (i : Z) : Z :=
  let s := aget SBOX i in let s2 := xtime s in let s3 := u8 (Z.lxor s2 s) in
  Z.lor (Z.lor (Z.lor (Z.shiftl s2 24) (Z.shiftl s 16)) (Z.shiftl s 8)) s3.

Definition build_tables : aes_tables :=
  let t0 := map te0_entry (seqZ 0 256) in
  let t1 := map ror8 t0 in
  let t2 := map ror8 t1 in
  Aes_tables t0 t1 t2 (map ror8 t2).

Definition rcon : list Z := [0x01; 0x02; 0x04; 0x08; 0x10; 0x20; 0x40; 0x80; 0x1b; 0x36].

Definition sub_word (t : Z) : Z :=
  Z.lor (Z.lor (Z.lor (Z.shiftl (aget SBOX (Z.shiftr t 24)) 24) (Z.shiftl (aget SBOX (Z.land (Z.shiftr t 16) 0xff)) 16))
    (Z.shiftl (aget SBOX (Z.land (Z.shiftr t 8) 0xff)) 8)) (aget SBOX (Z.land t 0xff)).

(** one round of the loop over [i = 4..43] *)
Definition expand_step (rk : list Z) (i : Z) : list Z :=
  let t := aget rk (i - 1) in
  let t :=
    if i mod 4 =? 0 then
      let t := Z.lor (u32 (Z.shiftl t 8)) (Z.shiftr t 24) in
      Z.lxor (sub_word t) (Z.shiftl (aget rcon (i / 4 - 1)) 24)
    else t in
  aset rk i (Z.lxor (aget rk (i - 4)) t).

(** the round keys of [a] ([a->rk], 44 words, holding anything before) *)
Definition aes128_init (rk : list Z) (key : list Z) : list Z :=
  let rk := foldl (fun rk i => aset rk i (be32_at key (4 * i))) rk (seqZ 0 4) in
  foldl expand_step rk (seqZ 4 40).

Definition table_word (t : aes_tables) (a b c d : Z) (k : Z) : Z :=
  Z.lxor (Z.lxor (Z.lxor (Z.lxor (aget (Te0 t) (Z.shiftr a 24)) (aget (Te1 t) (Z.land (Z.shiftr b 16) 0xff)))
    (aget (Te2 t) (Z.land (Z.shiftr c 8) 0xff))) (aget (Te3 t) (Z.land d 0xff))) k.

Definition table_round (t : aes_tables) (rk : list Z) (s : Z * Z * Z * Z) (r : Z) : Z * Z * Z * Z :=
  let '(s0, s1, s2, s3) := s in
  (table_word t s0 s1 s2 s3 (aget rk (4 * r)), table_word t s1 s2 s3 s0 (aget rk (4 * r + 1)),
   table_word t s2 s3 s0 s1 (aget rk (4 * r + 2)), table_word t s3 s0 s1 s2 (aget rk (4 * r + 3))).

Definition FIN (a b c d : Z) : Z :=
  Z.lor (Z.lor (Z.lor (Z.shiftl (aget SBOX (Z.shiftr a 24)) 24) (Z.shiftl (aget SBOX (Z.land (Z.shiftr b 16) 0xff)) 16))
    (Z.shiftl (aget SBOX (Z.land (Z.shiftr c 8) 0xff)) 8)) (aget SBOX (Z.land d 0xff)).

Definition aes128_encrypt (rk : list Z) (p : list Z) : list Z :=
  let s := (Z.lxor (be32_at p 0) (aget rk 0), Z.lxor (be32_at p 4) (aget rk 1),
            Z.lxor (be32_at p 8) (aget rk 2), Z.lxor (be32_at p 12) (aget rk 3)) in
  let '(s0, s1, s2, s3) := foldl (table_round build_tables rk) s (seqZ 1 9) in
  put_be32 (Z.lxor (FIN s0 s1 s2 s3) (aget rk 40)) ++ put_be32 (Z.lxor (FIN s1 s2 s3 s0) (aget rk 41)) ++
  put_be32 (Z.lxor (FIN s2 s3 s0 s1) (aget rk 42)) ++ put_be32 (Z.lxor (FIN s3 s0 s1 s2) (aget rk 43)).

(** ** GCM *)

Definition LAST4 : list Z := [
    0x0000; 0x1c20; 0x3840; 0x2460; 0x7080; 0x6ca0; 0x48c0; 0x54e0;
    0xe100; 0xfd20; 0xd940; 0xc560; 0x9180; 0x8da0; 0xa9c0; 0xb5e0].

Record aes_gcm := Aes_gcm { gcm_rk : list Z; htab_hi : list Z; htab_lo : list Z }.
#[export] Instance eta_gcm : Eta aes_gcm := fun g => Aes_gcm (gcm_rk g) (htab_hi g) (htab_lo g).

(** [g->htab_hi[i] = vh; g->htab_lo[i] = vl] *)
Definition htab_put (g : aes_gcm) (i vh vl : Z) : aes_gcm :=
  g <| htab_hi ::= fun t => aset t i vh |> <| htab_lo ::= fun t => aset t i vl |>.

(** one round of [for (i = 4; i > 0; i >>= 1)] *)
Definition htab_halve (s : Z * Z * aes_gcm) (i : Z) : Z * Z * aes_gcm :=
  let '(vh, vl, g) := s in
  let t := u32 (u32 (Z.land vl 1) * 0xe1000000) in
  let vl := Z.lor (u64 (Z.shiftl vh 63)) (Z.shiftr vl 1) in
  let vh := Z.lxor (Z.shiftr vh 1) (Z.shiftl t 32) in
  (vh, vl, htab_put g i vh vl).

(** one round of [for (i = 2; i <= 8; i *= 2)] *)
Definition htab_sums (g : aes_gcm) (i : Z) : aes_gcm :=
  let bh := aget (htab_hi g) i in let bl := aget (htab_lo g) i in
  foldl (fun g j => htab_put g (i + j) (Z.lxor bh (aget (htab_hi g) j)) (Z.lxor bl (aget (htab_lo g) j)))
    g (seqZ 1 (i - 1)).

Definition aes_gcm_init (g : aes_gcm) (key : list Z) : aes_gcm :=
  let g := g <| gcm_rk := aes128_init (gcm_rk g) key |> in
  let h := aes128_encrypt (gcm_rk g) (replicate 16 0) in
  let vh := Z.lor (Z.shiftl (be32_at h 0) 32) (be32_at h 4) in
  let vl := Z.lor (Z.shiftl (be32_at h 8) 32) (be32_at h 12) in
  let g := htab_put g 8 vh vl in
  let g := htab_put g 0 0 0 in
  let '(_, _, g) := foldl htab_halve (vh, vl, g) [4; 2; 1] in
  foldl htab_sums g [2; 4; 8].

(** four places to the right, folding what falls out back in, plus the entry of [n] *)
Definition gf_shift4 (g : aes_gcm) (n : Z) (z : Z * Z) : Z * Z :=
  let '(zh, zl) := z in
  let rem := Z.land zl 0xf in
  let zl := Z.lor (u64 (Z.shiftl zh 60)) (Z.shiftr zl 4) in
  let zh := Z.lxor (Z.shiftr zh 4) (Z.shiftl (aget LAST4 rem) 48) in
  (Z.lxor zh (aget (htab_hi g) n), Z.lxor zl (aget (htab_lo g) n)).

(** the byte [x[i]] of [for (i = 15; i >= 0; i--)] *)
Definition gf_byte (g : aes_gcm) (x : list Z) (z : Z * Z) (i : Z) : Z * Z :=
  let lo := Z.land (aget x i) 0xf in
  let hi := Z.shiftr (aget x i) 4 in
  let z := if negb (i =? 15) then gf_shift4 g lo z else z in
  gf_shift4 g hi z.

Definition gf_mult_h (g : aes_gcm) (x : list Z) : list Z :=
  let lo := Z.land (aget x 15) 0xf in
  let '(zh, zl) := foldl (gf_byte g x) (aget (htab_hi g) lo, aget (htab_lo g) lo)
    [15; 14; 13; 12; 11; 10; 9; 8; 7; 6; 5; 4; 3; 2; 1; 0] in
  put_be32 (Z.shiftr zh 32) ++ put_be32 (u32 zh) ++ put_be32 (Z.shiftr zl 32) ++ put_be32 (u32 zl).

(** [while (len)]: a round takes up to sixteen bytes *)
Fixpoint ghash_loop (g : aes_gcm) (fuel : nat) (y data : list Z) : list Z :=
  match fuel with
  | O => y
  | S fuel =>
    if zlen data =? 0 then y
    else
      let n := if zlen data <? 16 then zlen data else 16 in
      ghash_loop g fuel (gf_mult_h g (xor_first n y data)) (drop (Z.to_nat n) data)
  end.
Definition ghash_update (g : aes_gcm) (y data : list Z) : list Z := ghash_loop g (length data) y data.

Definition gcm_ctr (g : aes_gcm) (nonce buf : list Z) : list Z :=
  ctr_loop (fun c => aes128_encrypt (gcm_rk g) (take 12 nonce ++ put_be32 c)) 16 (length buf) 2 buf.

Definition gcm_tag (g : aes_gcm) (nonce aad ct : list Z) : list Z :=
  let y := replicate 16 0 in
  let y := ghash_update g y aad in
  let y := ghash_update g y ct in
  let lens := replicate 16 0 in
  let lens := put4 lens 4 (put_be32 (u32 (zlen aad * 8))) in
  let lens := put4 lens 12 (put_be32 (u32 (zlen ct * 8))) in
  let y := ghash_update g y lens in
  let j0 := aes128_encrypt (gcm_rk g) (take 12 nonce ++ put_be32 1) in
  map (fun i => Z.lxor (aget y i) (aget j0 i)) (seqZ 0 16).

Definition aes_gcm_seal (g : aes_gcm) (nonce aad buf : list Z) : list Z * list Z :=
  let buf := gcm_ctr g nonce buf in (buf, gcm_tag g nonce aad buf).

(** the result and what [buf] holds then *)
Definition aes_gcm_open (g : aes_gcm) (nonce aad buf tag : list Z) : Z * list Z :=
  let expect := gcm_tag g nonce aad buf in
  if negb (ct_memcmp expect tag 16 =? 0) then (-1, buf) else (0, gcm_ctr g nonce buf).

(** ** Poly1305 *)

Record poly1305 := Poly1305 { p_r : list Z; p_s : list Z; p_h : list Z; p_buf : list Z; p_buf_len : Z }.
#[export] Instance eta_poly : Eta poly1305 := fun p => Poly1305 (p_r p) (p_s p) (p_h p) (p_buf p) (p_buf_len p).

(** the buffer of a state on the stack holds anything; zeros stand for it *)
Definition poly_init (key : list Z) : poly1305 :=
  Poly1305
    [Z.land (le32_at key 0) 0x3ffffff; Z.land (Z.shiftr (le32_at key 3) 2) 0x3ffff03;
     Z.land (Z.shiftr (le32_at key 6) 4) 0x3ffc0ff; Z.land (Z.shiftr (le32_at key 9) 6) 0x3f03fff;
     Z.land (Z.shiftr (le32_at key 12) 8) 0x00fffff]
    (map (fun i => le32_at key (16 + 4 * i)) (seqZ 0 4)) [0; 0; 0; 0; 0] (replicate 16 0) 0.

(** the carries that bring the five sums back to limbs *)
Definition poly_carry (d0 d1 d2 d3 d4 : Z) : list Z :=
  let c := u32 (Z.shiftr d0 26) in let h0 := Z.land (u32 d0) 0x3ffffff in
  let d1 := u64 (d1 + c) in let c := u32 (Z.shiftr d1 26) in let h1 := Z.land (u32 d1) 0x3ffffff in
  let d2 := u64 (d2 + c) in let c := u32 (Z.shiftr d2 26) in let h2 := Z.land (u32 d2) 0x3ffffff in
  let d3 := u64 (d3 + c) in let c := u32 (Z.shiftr d3 26) in let h3 := Z.land (u32 d3) 0x3ffffff in
  let d4 := u64 (d4 + c) in let c := u32 (Z.shiftr d4 26) in let h4 := Z.land (u32 d4) 0x3ffffff in
  let h0 := u32 (h0 + u32 (c * 5)) in let c := Z.shiftr h0 26 in let h0 := Z.land h0 0x3ffffff in
  let h1 := u32 (h1 + c) in
  [h0; h1; h2; h3; h4].

(** one 16-byte block; [hibit] is [1 << 24] for a full block, 0 for the padded last one *)
Definition poly_block (p : poly1305) (m : list Z) (hibit : Z) : poly1305 :=
  let r0 := aget (p_r p) 0 in let r1 := aget (p_r p) 1 in let r2 := aget (p_r p) 2 in
  let r3 := aget (p_r p) 3 in let r4 := aget (p_r p) 4 in
  let s1 := u32 (r1 * 5) in let s2 := u32 (r2 * 5) in let s3 := u32 (r3 * 5) in let s4 := u32 (r4 * 5) in
  let h0 := u32 (aget (p_h p) 0 + Z.land (le32_at m 0) 0x3ffffff) in
  let h1 := u32 (aget (p_h p) 1 + Z.land (Z.shiftr (le32_at m 3) 2) 0x3ffffff) in
  let h2 := u32 (aget (p_h p) 2 + Z.land (Z.shiftr (le32_at m 6) 4) 0x3ffffff) in
  let h3 := u32 (aget (p_h p) 3 + Z.land (Z.shiftr (le32_at m 9) 6) 0x3ffffff) in
  let h4 := u32 (aget (p_h p) 4 + Z.lor (Z.shiftr (le32_at m 12) 8) hibit) in
  let d0 := u64 (h0 * r0 + h1 * s4 + h2 * s3 + h3 * s2 + h4 * s1) in
  let d1 := u64 (h0 * r1 + h1 * r0 + h2 * s4 + h3 * s3 + h4 * s2) in
  let d2 := u64 (h0 * r2 + h1 * r1 + h2 * r0 + h3 * s4 + h4 * s3) in
  let d3 := u64 (h0 * r3 + h1 * r2 + h2 * r1 + h3 * r0 + h4 * s4) in
  let d4 := u64 (h0 * r4 + h1 * r3 + h2 * r2 + h3 * r1 + h4 * r0) in
  p <| p_h := poly_carry d0 d1 d2 d3 d4 |>.

(** [while (len >= 16)]; what is left is kept in the buffer *)
Fixpoint poly_blocks (fuel : nat) (p : poly1305) (m : list Z) : poly1305 * list Z :=
  match fuel with
  | O => (p, m)
  | S fuel => if 16 <=? zlen m then poly_blocks fuel (poly_block p m (Z.shiftl 1 24)) (drop 16 m) else (p, m)
  end.

(** [memcpy(p->buf + at, m, n)] *)
Definition poly_copy (p : poly1305) (at_ : Z) (m : list Z) (n : Z) : poly1305 :=
  p <| p_buf ::= fun b => take (Z.to_nat at_) b ++ take (Z.to_nat n) m ++ drop (Z.to_nat (at_ + n)) b |>.

Definition poly_rest (p : poly1305) (m : list Z) : poly1305 :=
  let '(p, m) := poly_blocks (length m) p m in
  if zlen m =? 0 then p else poly_copy p 0 m (zlen m) <| p_buf_len := zlen m |>.

Definition poly_update (p : poly1305) (m : list Z) : poly1305 :=
  if p_buf_len p =? 0 then poly_rest p m
  else
    let take_ := 16 - p_buf_len p in
    let take_ := if zlen m <? take_ then zlen m else take_ in
    let p := poly_copy p (p_buf_len p) m take_ in
    let p := p <| p_buf_len ::= fun n => n + take_ |> in
    let m := drop (Z.to_nat take_) m in
    if p_buf_len p <? 16 then p
    else poly_rest (poly_block p (p_buf p) (Z.shiftl 1 24) <| p_buf_len := 0 |>) m.

(** the padded last block, when one is pending *)
Definition poly_last (p : poly1305) : poly1305 :=
  if p_buf_len p =? 0 then p
  else
    let last := take (Z.to_nat (p_buf_len p)) (p_buf p) ++ replicate (Z.to_nat (16 - p_buf_len p)) 0 in
    poly_block p (aset last (p_buf_len p) 1) 0 <| p_buf_len := 0 |>.

(** the carries of the accumulator *)
Definition poly_norm (h : list Z) : Z * Z * Z * Z * Z :=
  let h0 := aget h 0 in let h1 := aget h 1 in let h2 := aget h 2 in let h3 := aget h 3 in let h4 := aget h 4 in
  let c := Z.shiftr h1 26 in let h1 := Z.land h1 0x3ffffff in
  let h2 := u32 (h2 + c) in let c := Z.shiftr h2 26 in let h2 := Z.land h2 0x3ffffff in
  let h3 := u32 (h3 + c) in let c := Z.shiftr h3 26 in let h3 := Z.land h3 0x3ffffff in
  let h4 := u32 (h4 + c) in let c := Z.shiftr h4 26 in let h4 := Z.land h4 0x3ffffff in
  let h0 := u32 (h0 + u32 (c * 5)) in let c := Z.shiftr h0 26 in let h0 := Z.land h0 0x3ffffff in
  let h1 := u32 (h1 + c) in
  (h0, h1, h2, h3, h4).

(** [g = h + -p, pick g if h >= p (no borrow)] *)
Definition poly_select (h : Z * Z * Z * Z * Z) : Z * Z * Z * Z * Z :=
  let '(h0, h1, h2, h3, h4) := h in
  let g0 := u32 (h0 + 5) in let c := Z.shiftr g0 26 in let g0 := Z.land g0 0x3ffffff in
  let g1 := u32 (h1 + c) in let c := Z.shiftr g1 26 in let g1 := Z.land g1 0x3ffffff in
  let g2 := u32 (h2 + c) in let c := Z.shiftr g2 26 in let g2 := Z.land g2 0x3ffffff in
  let g3 := u32 (h3 + c) in let c := Z.shiftr g3 26 in let g3 := Z.land g3 0x3ffffff in
  let g4 := u32 (h4 + c - Z.shiftl 1 26) in
  let mask := u32 (Z.shiftr g4 31 - 1) in
  let g0 := Z.land g0 mask in let g1 := Z.land g1 mask in let g2 := Z.land g2 mask in
  let g3 := Z.land g3 mask in let g4 := Z.land g4 mask in
  let mask := u32 (Z.lnot mask) in
  (Z.lor (Z.land h0 mask) g0, Z.lor (Z.land h1 mask) g1, Z.lor (Z.land h2 mask) g2,
   Z.lor (Z.land h3 mask) g3, Z.lor (Z.land h4 mask) g4).

(** the low 128 bits of the reduced accumulator plus the second half of the key *)
Definition poly_out (h : Z * Z * Z * Z * Z) (s : list Z) : list Z :=
  let '(h0, h1, h2, h3, h4) := h in
  let h0 := Z.lor h0 (u32 (Z.shiftl h1 26)) in
  let h1 := Z.lor (Z.shiftr h1 6) (u32 (Z.shiftl h2 20)) in
  let h2 := Z.lor (Z.shiftr h2 12) (u32 (Z.shiftl h3 14)) in
  let h3 := Z.lor (Z.shiftr h3 18) (u32 (Z.shiftl h4 8)) in
  let f := u64 (h0 + aget s 0) in let h0 := u32 f in
  let f := u64 (h1 + aget s 1 + Z.shiftr f 32) in let h1 := u32 f in
  let f := u64 (h2 + aget s 2 + Z.shiftr f 32) in let h2 := u32 f in
  let f := u64 (h3 + aget s 3 + Z.shiftr f 32) in let h3 := u32 f in
  le32 h0 ++ le32 h1 ++ le32 h2 ++ le32 h3.

Definition poly_finish (p : poly1305) : list Z := let p := poly_last p in poly_out (poly_select (poly_norm (p_h p))) (p_s p).

Definition poly1305_mac (msg key : list Z) : list Z := poly_finish (poly_update (poly_init key) msg).

(** ** ChaCha20-Poly1305 *)

(** [if (n % 16) poly_update(&p, zeros, 16 - n % 16)] *)
Definition poly_zeros (p : poly1305) (n : Z) : poly1305 :=
  if negb (n mod 16 =? 0) then poly_update p (replicate (Z.to_nat (16 - n mod 16)) 0) else p.

Definition cc_tag (key nonce aad ct : list Z) : list Z :=
  let block := chacha20_block key 0 nonce in
  let p := poly_init block in
  let p := poly_update p aad in
  let p := poly_zeros p (zlen aad) in
  let p := poly_update p ct in
  let p := poly_zeros p (zlen ct) in
  let lens := replicate 16 0 in
  let lens := put4 lens 0 (le32 (zlen aad)) in
  let lens := put4 lens 8 (le32 (zlen ct)) in
  poly_finish (poly_update p lens).

Definition chacha20poly1305_seal (key nonce aad buf : list Z) : list Z * list Z :=
  let buf := chacha20_xor key 1 nonce buf in (buf, cc_tag key nonce aad buf).

Definition chacha20poly1305_open (key nonce aad buf tag : list Z) : Z * list Z :=
  let expect := cc_tag key nonce aad buf in
  if negb (ct_memcmp expect tag 16 =? 0) then (-1, buf) else (0, chacha20_xor key 1 nonce buf).

Definition byte_ok (x : Z) : bool := (0 <=? x) && (x <? 256).

(** for concrete arrays *)
Lemma bytes_check p : forallb byte_ok p = true -> bytes p.
Proof.
  intros H. apply Forall_forall. intros x Hx. rewrite forallb_forall in H. apply list_elem_of_In, H in Hx.
  unfold byte_ok in Hx. unfold is_u8. lia.
Qed.
