(* ===== verification/AeadPoly.v ===== *)
(** * Poly1305 on 26-bit limbs is RFC 8439's arithmetic modulo [2 ^ 130 - 5]

    The reference reads each block, with a one appended, as a little-endian
    number, and multiplies and reduces. The code keeps the accumulator as
    five limbs; every sum and carry it makes fits its machine word, and the
    pieces fed to [poly_update] are joined, however they are cut. *)

From S2P Require Import Prelude LeBytes Aead.

(** ** Blocks and little-endian values *)

(** [l] in blocks of [n], the last one with what is left *)
Fixpoint chunks_go (fuel n : nat) (l : list Z) : list (list Z) :=
  match fuel, l with
  | S fuel, _ :: _ => take n l :: chunks_go fuel n (drop n l)
  | _, _ => []
  end.
Definition chunks (n : nat) (l : list Z) : list (list Z) := chunks_go (length l) n l.

Definition le_val (p : list Z) : Z := foldr (fun b a => b + 256 * a) 0 p.

(** the [n] bytes of a little-endian value *)
Definition le_bytes (n : nat) (v : Z) : list Z := map (fun i => u8 (Z.shiftr v (8 * Z.of_nat i))) (seq 0 n).

Definition P1305 : Z := 2 ^ 130 - 5.
Definition poly_r (key : list Z) : Z := Z.land (le_val (take 16 key)) 0x0ffffffc0ffffffc0ffffffc0fffffff.
Definition poly_acc (r : Z) (blocks : list (list Z)) : Z :=
  foldl (fun a b => (a + le_val (b ++ [1])) * r mod P1305) 0 blocks.

(** RFC 8439, 2.5.1 *)
Definition poly1305_ref (msg key : list Z) : list Z :=
  le_bytes 16 (poly_acc (poly_r key) (chunks 16 msg) + le_val (take 16 (drop 16 key))).

Lemma chunks_more n fuel : forall k l, (0 < n)%nat -> (length l <= fuel)%nat -> (length l <= k)%nat ->
  chunks_go fuel n l = chunks_go k n l.
Proof.
  induction fuel as [|fuel IH]; intros k l Hn Hf Hk.
  - destruct l; [|cbn in *; lia]. by destruct k.
  - destruct l as [|x l]; [by destruct k|]. destruct k as [|k]; [cbn in *; lia|]. cbn [chunks_go]. f_equal.
    apply IH; rewrite ?length_drop; cbn [length] in *; lia.
Qed.

Lemma chunks_fuel n fuel l : (0 < n)%nat -> (length l <= fuel)%nat -> chunks_go fuel n l = chunks n l.
Proof. intros. by apply chunks_more. Qed.

Lemma chunks_app n b l : length b = n -> (0 < n)%nat -> chunks n (b ++ l) = b :: chunks n l.
Proof.
  intros Hb Hn. unfold chunks at 1. destruct b as [|x b]; [cbn in Hb; lia|]. cbn [length app chunks_go].
  change (x :: b ++ l) with ((x :: b) ++ l). rewrite <- Hb at 1. rewrite take_app_length. f_equal.
  rewrite drop_app_length'; [|lia]. apply chunks_fuel; [lia|]. rewrite length_app. lia.
Qed.

Lemma chunks_short n t : t <> [] -> (length t <= n)%nat -> chunks n t = [t].
Proof.
  intros Ht Hn. destruct t as [|x t]; [done|]. unfold chunks. cbn [length chunks_go].
  rewrite take_ge, drop_ge by done. by destruct (length t).
Qed.

Lemma chunks_nil n : chunks n [] = [].
Proof. done. Qed.

Lemma le_val_app a b : le_val (a ++ b) = le_val a + 2 ^ (8 * zlen a) * le_val b.
Proof.
  induction a as [|x a IH]; [change (le_val b = 0 + 1 * le_val b); lia|].
  change (x + 256 * le_val (a ++ b) = x + 256 * le_val a + 2 ^ (8 * zlen (x :: a)) * le_val b). rewrite IH, zlen_cons.
  replace (8 * (1 + zlen a)) with (8 + 8 * zlen a) by lia. pose proof (zlen_nonneg a). rewrite Z.pow_add_r by lia. lia.
Qed.

Lemma le_val_bound p : bytes p -> 0 <= le_val p < 2 ^ (8 * zlen p).
Proof.
  induction 1 as [|x p Hx Hp IH]; [done|]. change (le_val (x :: p)) with (x + 256 * le_val p). rewrite zlen_cons.
  replace (8 * (1 + zlen p)) with (8 + 8 * zlen p) by lia. pose proof (zlen_nonneg p). rewrite Z.pow_add_r by lia.
  unfold is_u8 in Hx. lia.
Qed.

(** reading four bytes at [i] *)
Lemma le32_at_val p i : bytes p -> 0 <= i -> i + 4 <= zlen p -> le32_at p i = le_val p / 2 ^ (8 * i) mod 2 ^ 32.
Proof.
  intros Hp Hi Hl. unfold le32_at.
  rewrite join_bytes by (apply byte_at; [done|lia]).
  assert (Ht : bytes (take (Z.to_nat i) p)) by (by apply Forall_take).
  pose proof (le_val_bound _ Ht) as Hb. rewrite zlen_take in Hb by lia.
  replace (Z.min i (zlen p)) with i in Hb by lia.
  assert (Hv : le_val p = le_val (take (Z.to_nat i) p) + le_val (drop (Z.to_nat i) p) * 2 ^ (8 * i)).
  { rewrite <- (take_drop (Z.to_nat i) p) at 1. rewrite le_val_app, zlen_take by lia.
    replace (Z.min i (zlen p)) with i by lia. lia. }
  rewrite Hv, Z.div_add, Z.div_small, Z.add_0_l by lia. clear Hv.
  assert (E : drop (Z.to_nat i) p = [aget p i; aget p (i + 1); aget p (i + 2); aget p (i + 3)] ++ drop (Z.to_nat (i + 4)) p).
  { apply zlist_ext.
    - rewrite zlen_app, !zlen_drop by lia. change (zlen [_; _; _; _]) with 4. lia.
    - intros k Hk. rewrite zlen_drop in Hk by lia. rewrite aget_drop by lia.
      destruct (decide (k < 4)).
      + rewrite aget_app by lia. assert (k = 0 \/ k = 1 \/ k = 2 \/ k = 3) as [-> | [-> | [-> | ->]]] by lia;
          rewrite ?Z.add_0_r; reflexivity.
      + rewrite aget_app by lia. change (zlen [_; _; _; _]) with 4. case_bool; zbool; [lia|].
        rewrite aget_drop by lia. f_equal. lia. }
  rewrite E, le_val_app. cbn [zlen length le_val foldr app]. fold (le_val (drop (Z.to_nat (i + 4)) p)).
  change (8 * zlen _) with 32.
  pose proof (byte_at p i Hp ltac:(lia)). pose proof (byte_at p (i + 1) Hp ltac:(lia)).
  pose proof (byte_at p (i + 2) Hp ltac:(lia)). pose proof (byte_at p (i + 3) Hp ltac:(lia)). unfold is_u8 in *. lia.
Qed.

(** ** Limbs *)

Lemma land26 x : Z.land x 0x3ffffff = x mod 2 ^ 26.
Proof. by rewrite <- land_ones_mod. Qed.

(** a field of a four-byte read is a field of the whole value *)
Lemma limb_at m i k w : bytes m -> 0 <= i -> i + 4 <= zlen m -> 0 <= k -> 0 <= w -> k + w <= 32 ->
  Z.shiftr (le32_at m i) k mod 2 ^ w = le_val m / 2 ^ (8 * i + k) mod 2 ^ w.
Proof.
  intros Hm Hi Hl Hk Hw Hkw. rewrite le32_at_val by done. apply Z.bits_inj'. intros j Hj.
  destruct (decide (j < w)); [|by rewrite !Z.mod_pow2_bits_high by lia].
  rewrite !Z.mod_pow2_bits_low, Z.shiftr_spec, Z.mod_pow2_bits_low by lia.
  rewrite <- !Z.shiftr_div_pow2, !Z.shiftr_spec by lia. f_equal. lia.
Qed.

Definition limb (v i : Z) : Z := v / 2 ^ (26 * i) mod 2 ^ 26.

Lemma limbs_block m : bytes m -> zlen m = 16 ->
  Z.land (le32_at m 0) 0x3ffffff = limb (le_val m) 0 /\
  Z.land (Z.shiftr (le32_at m 3) 2) 0x3ffffff = limb (le_val m) 1 /\
  Z.land (Z.shiftr (le32_at m 6) 4) 0x3ffffff = limb (le_val m) 2 /\
  Z.land (Z.shiftr (le32_at m 9) 6) 0x3ffffff = limb (le_val m) 3 /\
  Z.shiftr (le32_at m 12) 8 = limb (le_val m) 4.
Proof.
  intros Hm Hl. pose proof (le_val_bound m Hm) as Hb. rewrite Hl in Hb. unfold limb. rewrite !land26.
  repeat split; [rewrite <- (Z.shiftr_0_r (le32_at m 0)); by rewrite limb_at by (done || lia)|
    by rewrite limb_at by (done || lia)..|].
  rewrite <- (Z.mod_small (Z.shiftr _ _) (2 ^ 24)), limb_at by (done || lia || (rewrite le32_at_val by (done || lia); rewrite Z.shiftr_div_pow2 by lia; lia)).
  change (8 * 12 + 8) with 104. change (26 * 4) with 104. lia.
Qed.

Lemma limbs_sum v : 0 <= v < 2 ^ 130 ->
  v = limb v 0 + limb v 1 * 2 ^ 26 + limb v 2 * 2 ^ 52 + limb v 3 * 2 ^ 78 + limb v 4 * 2 ^ 104.
Proof. unfold limb. intros. change (26 * 0) with 0. change (26 * 1) with 26. change (26 * 2) with 52. change (26 * 3) with 78. change (26 * 4) with 104. lia. Qed.

Lemma limb_bound v i : 0 <= limb v i < 2 ^ 26.
Proof. unfold limb. lia. Qed.

(** the key's limbs are those of the clamped value *)
Lemma limb_land v c i : 0 <= i -> limb (Z.land v c) i = Z.land (limb v i) (limb c i).
Proof.
  intros Hi. unfold limb. rewrite <- !Z.shiftr_div_pow2, <- !land_ones_mod, Z.shiftr_land by lia.
  apply Z.bits_inj'. intros j Hj. rewrite !Z.land_spec. by destruct (Z.testbit (Z.ones 26) j), (Z.testbit (Z.shiftr v _) j),
    (Z.testbit (Z.shiftr c _) j).
Qed.

Lemma le32_at_take p n i : 0 <= i -> i + 4 <= n -> le32_at (take (Z.to_nat n) p) i = le32_at p i.
Proof. intros. unfold le32_at. by rewrite !aget_take by lia. Qed.

Definition CLAMP : Z := 0x0ffffffc0ffffffc0ffffffc0fffffff.

Lemma clamp_limb x i : Z.land x (limb CLAMP i) = Z.land (Z.land x 0x3ffffff) (limb CLAMP i).
Proof.
  rewrite <- Z.land_assoc. f_equal. rewrite Z.land_comm. change 0x3ffffff with (Z.ones 26).
  rewrite Z.land_ones, Z.mod_small by (lia || apply limb_bound). done.
Qed.

Lemma poly_init_r key : bytes key -> 32 <= zlen key -> p_r (poly_init key) = map (limb (poly_r key)) [0; 1; 2; 3; 4].
Proof.
  intros Hk Hl. pose (k := take 16 key). assert (Hb : bytes k) by (by apply Forall_take).
  assert (Hlk : zlen k = 16) by (unfold k; change 16%nat with (Z.to_nat 16); rewrite zlen_take by lia; lia).
  destruct (limbs_block k Hb Hlk) as (E0 & E1 & E2 & E3 & E4).
  assert (Ht : forall i, 0 <= i <= 12 -> le32_at key i = le32_at k i) by (intros; symmetry; apply (le32_at_take key 16); lia).
  unfold poly_init, poly_r. cbn [p_r map]. rewrite !Ht by lia. rewrite !(limb_land _ CLAMP) by lia.
  change 0x3ffff03 with (limb CLAMP 1). change 0x3ffc0ff with (limb CLAMP 2). change 0x3f03fff with (limb CLAMP 3).
  change 0x00fffff with (limb CLAMP 4). rewrite (clamp_limb (Z.shiftr (le32_at k 3) 2)), (clamp_limb (Z.shiftr (le32_at k 6) 4)),
    (clamp_limb (Z.shiftr (le32_at k 9) 6)), E1, E2, E3, E4, E0. repeat f_equal.
  change (limb CLAMP 0) with (Z.ones 26). rewrite Z.land_ones, Z.mod_small by (lia || apply limb_bound). done.
Qed.

(** ** One block *)

Definition hval (h : list Z) : Z :=
  aget h 0 + aget h 1 * 2 ^ 26 + aget h 2 * 2 ^ 52 + aget h 3 * 2 ^ 78 + aget h 4 * 2 ^ 104.

(** what the limbs of the accumulator keep between blocks *)
Inductive limbs_ok : list Z -> Prop :=
| Limbs_ok h0 h1 h2 h3 h4 : 0 <= h0 < 2 ^ 26 -> 0 <= h1 < 2 ^ 26 + 2 ^ 6 -> 0 <= h2 < 2 ^ 26 -> 0 <= h3 < 2 ^ 26 ->
    0 <= h4 < 2 ^ 26 -> limbs_ok [h0; h1; h2; h3; h4].

Lemma carry_hi d : 0 <= d < 2 ^ 58 -> u32 (Z.shiftr d 26) = d / 2 ^ 26.
Proof. intros. rewrite Z.shiftr_div_pow2 by lia. apply u32_small. unfold is_u32. lia. Qed.

Lemma carry_lo d : Z.land (u32 d) 0x3ffffff = d mod 2 ^ 26.
Proof. rewrite land26. unfold u32. lia. Qed.

(** no sum or carry of the chain wraps around, and it subtracts a multiple of the prime *)
Lemma poly_carry_spec d0 d1 d2 d3 d4 :
  0 <= d0 < 2 ^ 57 + 2 ^ 56 + 2 ^ 55 -> 0 <= d1 < 2 ^ 57 + 2 ^ 56 + 2 ^ 55 -> 0 <= d2 < 2 ^ 57 + 2 ^ 56 + 2 ^ 55 ->
  0 <= d3 < 2 ^ 57 + 2 ^ 56 + 2 ^ 55 -> 0 <= d4 < 2 ^ 55 + 2 ^ 54 ->
  limbs_ok (poly_carry d0 d1 d2 d3 d4) /\
  exists k, hval (poly_carry d0 d1 d2 d3 d4) + k * P1305 = d0 + d1 * 2 ^ 26 + d2 * 2 ^ 52 + d3 * 2 ^ 78 + d4 * 2 ^ 104.
Proof.
  intros H0 H1 H2 H3 H4. unfold poly_carry. rewrite (carry_hi d0), !carry_lo by lia.
  rewrite (u64_small (d1 + _)) by (unfold is_u64; lia). set (e1 := d1 + d0 / 2 ^ 26).
  assert (0 <= e1 < 2 ^ 57 + 2 ^ 56 + 2 ^ 55 + 2 ^ 32) by lia. rewrite (carry_hi e1) by lia.
  rewrite (u64_small (d2 + _)) by (unfold is_u64; lia). set (e2 := d2 + e1 / 2 ^ 26).
  assert (0 <= e2 < 2 ^ 57 + 2 ^ 56 + 2 ^ 55 + 2 ^ 32) by lia. rewrite (carry_hi e2) by lia.
  rewrite (u64_small (d3 + _)) by (unfold is_u64; lia). set (e3 := d3 + e2 / 2 ^ 26).
  assert (0 <= e3 < 2 ^ 57 + 2 ^ 56 + 2 ^ 55 + 2 ^ 32) by lia. rewrite (carry_hi e3) by lia.
  rewrite (u64_small (d4 + _)) by (unfold is_u64; lia). set (e4 := d4 + e3 / 2 ^ 26).
  assert (0 <= e4 < 2 ^ 55 + 2 ^ 54 + 2 ^ 32) by lia. rewrite (carry_hi e4) by lia.
  rewrite (u32_small (e4 / 2 ^ 26 * 5)) by (unfold is_u32; lia).
  rewrite (u32_small (d0 mod 2 ^ 26 + _)) by (unfold is_u32; lia). set (f0 := d0 mod 2 ^ 26 + e4 / 2 ^ 26 * 5).
  rewrite Z.shiftr_div_pow2 by lia.
  assert (0 <= f0 < 2 ^ 32) by lia. rewrite (u32_small (e1 mod 2 ^ 26 + _)) by (unfold is_u32; lia).
  split; [constructor; lia|]. exists (e4 / 2 ^ 26). unfold P1305.
  change (hval _) with (f0 mod 2 ^ 26 + (e1 mod 2 ^ 26 + f0 / 2 ^ 26) * 2 ^ 26 + e2 mod 2 ^ 26 * 2 ^ 52 +
    e3 mod 2 ^ 26 * 2 ^ 78 + e4 mod 2 ^ 26 * 2 ^ 104). lia.
Qed.

(** the five sums are a product of the two values, less a multiple of the prime *)
Lemma poly_sums_value h0 h1 h2 h3 h4 r0 r1 r2 r3 r4 :
  (h0 * r0 + h1 * (r4 * 5) + h2 * (r3 * 5) + h3 * (r2 * 5) + h4 * (r1 * 5)) +
  (h0 * r1 + h1 * r0 + h2 * (r4 * 5) + h3 * (r3 * 5) + h4 * (r2 * 5)) * 2 ^ 26 +
  (h0 * r2 + h1 * r1 + h2 * r0 + h3 * (r4 * 5) + h4 * (r3 * 5)) * 2 ^ 52 +
  (h0 * r3 + h1 * r2 + h2 * r1 + h3 * r0 + h4 * (r4 * 5)) * 2 ^ 78 +
  (h0 * r4 + h1 * r3 + h2 * r2 + h3 * r1 + h4 * r0) * 2 ^ 104 =
  (h0 + h1 * 2 ^ 26 + h2 * 2 ^ 52 + h3 * 2 ^ 78 + h4 * 2 ^ 104) * (r0 + r1 * 2 ^ 26 + r2 * 2 ^ 52 + r3 * 2 ^ 78 + r4 * 2 ^ 104) -
  (h1 * r4 + h2 * r3 + h3 * r2 + h4 * r1 + (h2 * r4 + h3 * r3 + h4 * r2) * 2 ^ 26 +
   (h3 * r4 + h4 * r3) * 2 ^ 52 + h4 * r4 * 2 ^ 78) * P1305.
Proof. unfold P1305. ring. Qed.

Lemma mul_bound a b m n : 0 <= a <= m -> 0 <= b <= n -> 0 <= a * b <= m * n.
Proof. nia. Qed.

(** five products of a limb that a block was added to and a limb of the key, some of them times five *)
Lemma sum_bound a0 a1 a2 a3 a4 b0 b1 b2 b3 b4 n : 0 <= n ->
  0 <= a0 <= 2 ^ 27 + 2 ^ 7 -> 0 <= a1 <= 2 ^ 27 + 2 ^ 7 -> 0 <= a2 <= 2 ^ 27 + 2 ^ 7 -> 0 <= a3 <= 2 ^ 27 + 2 ^ 7 ->
  0 <= a4 <= 2 ^ 27 + 2 ^ 7 -> 0 <= b0 <= n -> 0 <= b1 <= n -> 0 <= b2 <= n -> 0 <= b3 <= n -> 0 <= b4 <= n ->
  0 <= a0 * b0 + a1 * b1 + a2 * b2 + a3 * b3 + a4 * b4 <= 5 * ((2 ^ 27 + 2 ^ 7) * n).
Proof.
  intros Hn A0 A1 A2 A3 A4 B0 B1 B2 B3 B4. pose proof (mul_bound _ _ _ _ A0 B0). pose proof (mul_bound _ _ _ _ A1 B1).
  pose proof (mul_bound _ _ _ _ A2 B2). pose proof (mul_bound _ _ _ _ A3 B3). pose proof (mul_bound _ _ _ _ A4 B4). lia.
Qed.

Lemma hval_range h : limbs_ok h -> 0 <= hval h < 2 ^ 131.
Proof. intros [h0 h1 h2 h3 h4 ? ? ? ? ?]. change (hval _) with (h0 + h1 * 2 ^ 26 + h2 * 2 ^ 52 + h3 * 2 ^ 78 + h4 * 2 ^ 104). lia. Qed.

Definition mul_carry (a0 a1 a2 a3 a4 r0 r1 r2 r3 r4 : Z) : list Z :=
  poly_carry (u64 (a0 * r0 + a1 * u32 (r4 * 5) + a2 * u32 (r3 * 5) + a3 * u32 (r2 * 5) + a4 * u32 (r1 * 5)))
    (u64 (a0 * r1 + a1 * r0 + a2 * u32 (r4 * 5) + a3 * u32 (r3 * 5) + a4 * u32 (r2 * 5)))
    (u64 (a0 * r2 + a1 * r1 + a2 * r0 + a3 * u32 (r4 * 5) + a4 * u32 (r3 * 5)))
    (u64 (a0 * r3 + a1 * r2 + a2 * r1 + a3 * r0 + a4 * u32 (r4 * 5)))
    (u64 (a0 * r4 + a1 * r3 + a2 * r2 + a3 * r1 + a4 * r0)).

Lemma mul_carry_spec a0 a1 a2 a3 a4 r0 r1 r2 r3 r4 :
  0 <= a0 <= 2 ^ 27 + 2 ^ 7 -> 0 <= a1 <= 2 ^ 27 + 2 ^ 7 -> 0 <= a2 <= 2 ^ 27 + 2 ^ 7 -> 0 <= a3 <= 2 ^ 27 + 2 ^ 7 ->
  0 <= a4 <= 2 ^ 27 + 2 ^ 7 ->
  0 <= r0 < 2 ^ 26 -> 0 <= r1 < 2 ^ 26 -> 0 <= r2 < 2 ^ 26 -> 0 <= r3 < 2 ^ 26 -> 0 <= r4 < 2 ^ 26 ->
  limbs_ok (mul_carry a0 a1 a2 a3 a4 r0 r1 r2 r3 r4) /\
  hval (mul_carry a0 a1 a2 a3 a4 r0 r1 r2 r3 r4) mod P1305 =
    (a0 + a1 * 2 ^ 26 + a2 * 2 ^ 52 + a3 * 2 ^ 78 + a4 * 2 ^ 104) *
    (r0 + r1 * 2 ^ 26 + r2 * 2 ^ 52 + r3 * 2 ^ 78 + r4 * 2 ^ 104) mod P1305.
Proof.
  intros A0 A1 A2 A3 A4 R0 R1 R2 R3 R4. unfold mul_carry. rewrite !(u32_small (_ * 5)) by (unfold is_u32; lia).
  pose proof (sum_bound a0 a1 a2 a3 a4 r0 (r4 * 5) (r3 * 5) (r2 * 5) (r1 * 5) (5 * 2 ^ 26)) as S0.
  pose proof (sum_bound a0 a1 a2 a3 a4 r1 r0 (r4 * 5) (r3 * 5) (r2 * 5) (5 * 2 ^ 26)) as S1.
  pose proof (sum_bound a0 a1 a2 a3 a4 r2 r1 r0 (r4 * 5) (r3 * 5) (5 * 2 ^ 26)) as S2.
  pose proof (sum_bound a0 a1 a2 a3 a4 r3 r2 r1 r0 (r4 * 5) (5 * 2 ^ 26)) as S3.
  pose proof (sum_bound a0 a1 a2 a3 a4 r4 r3 r2 r1 r0 (2 ^ 26)) as S4.
  specialize (S0 ltac:(lia) A0 A1 A2 A3 A4 ltac:(lia) ltac:(lia) ltac:(lia) ltac:(lia) ltac:(lia)).
  specialize (S1 ltac:(lia) A0 A1 A2 A3 A4 ltac:(lia) ltac:(lia) ltac:(lia) ltac:(lia) ltac:(lia)).
  specialize (S2 ltac:(lia) A0 A1 A2 A3 A4 ltac:(lia) ltac:(lia) ltac:(lia) ltac:(lia) ltac:(lia)).
  specialize (S3 ltac:(lia) A0 A1 A2 A3 A4 ltac:(lia) ltac:(lia) ltac:(lia) ltac:(lia) ltac:(lia)).
  specialize (S4 ltac:(lia) A0 A1 A2 A3 A4 ltac:(lia) ltac:(lia) ltac:(lia) ltac:(lia) ltac:(lia)).
  pose proof (poly_sums_value a0 a1 a2 a3 a4 r0 r1 r2 r3 r4) as E. revert S0 S1 S2 S3 S4 E.
  generalize (a0 * r0 + a1 * (r4 * 5) + a2 * (r3 * 5) + a3 * (r2 * 5) + a4 * (r1 * 5))
    (a0 * r1 + a1 * r0 + a2 * (r4 * 5) + a3 * (r3 * 5) + a4 * (r2 * 5))
    (a0 * r2 + a1 * r1 + a2 * r0 + a3 * (r4 * 5) + a4 * (r3 * 5))
    (a0 * r3 + a1 * r2 + a2 * r1 + a3 * r0 + a4 * (r4 * 5))
    (a0 * r4 + a1 * r3 + a2 * r2 + a3 * r1 + a4 * r0). intros d0 d1 d2 d3 d4 S0 S1 S2 S3 S4 E.
  rewrite !(u64_small _) by (unfold is_u64; lia).
  destruct (poly_carry_spec d0 d1 d2 d3 d4) as [Hok [k Hk]]; [lia..|]. split; [done|].
  rewrite E in Hk. match type of Hk with _ = ?x - ?q * _ => rewrite <- (Z_mod_plus_full (hval _) (k + q)); f_equal; lia end.
Qed.

(** a block of value [v], the bit above it included *)
Lemma poly_block_spec p m hibit r : bytes m -> zlen m = 16 -> hibit = 2 ^ 24 \/ hibit = 0 ->
  limbs_ok (p_h p) -> p_r p = map (limb r) [0; 1; 2; 3; 4] -> 0 <= r < 2 ^ 130 ->
  limbs_ok (p_h (poly_block p m hibit)) /\
  hval (p_h (poly_block p m hibit)) mod P1305 = (hval (p_h p) + (le_val m + hibit * 2 ^ 104)) * r mod P1305 /\
  poly_block p m hibit = p <| p_h := p_h (poly_block p m hibit) |>.
Proof.
  intros Hm Hl Hbit Hok Hr Hrr. destruct p as [pr ps h pbuf plen]. cbn [p_h p_r] in *. subst pr.
  destruct (limbs_block m Hm Hl) as (E0 & E1 & E2 & E3 & E4).
  pose proof (le_val_bound m Hm) as Hv. rewrite Hl in Hv.
  destruct Hok as [h0 h1 h2 h3 h4 B0 B1 B2 B3 B4].
  assert (Htop : limb (le_val m) 4 < 2 ^ 24) by (unfold limb; change (26 * 4) with 104; lia).
  assert (E5 : Z.lor (limb (le_val m) 4) hibit = limb (le_val m) 4 + hibit).
  { pose proof (limb_bound (le_val m) 4). destruct Hbit as [-> | ->]; [|by rewrite Z.lor_0_r, Z.add_0_r].
    rewrite Z.lor_comm, (lor_low 24) by lia. lia. }
  unfold poly_block. rewrite E0, E1, E2, E3, E4, E5.
  pose proof (limbs_sum (le_val m) ltac:(lia)) as Hsum. pose proof (limbs_sum r Hrr) as Hrs.
  pose proof (limb_bound (le_val m)) as Hm'.
  change (aget (p_r _) 0) with (limb r 0). change (aget (p_r _) 1) with (limb r 1). change (aget (p_r _) 2) with (limb r 2).
  change (aget (p_r _) 3) with (limb r 3). change (aget (p_r _) 4) with (limb r 4).
  change (aget (p_h _) 0) with h0. change (aget (p_h _) 1) with h1. change (aget (p_h _) 2) with h2.
  change (aget (p_h _) 3) with h3. change (aget (p_h _) 4) with h4.
  change (hval [h0; h1; h2; h3; h4]) with (h0 + h1 * 2 ^ 26 + h2 * 2 ^ 52 + h3 * 2 ^ 78 + h4 * 2 ^ 104).
  pose proof (Hm' 0). pose proof (Hm' 1). pose proof (Hm' 2). pose proof (Hm' 3). pose proof (Hm' 4).
  rewrite !(u32_small (_ + _)) by (unfold is_u32; lia). cbv zeta.
  match goal with |- context [poly_carry ?a ?b ?c ?d ?e] => change (poly_carry a b c d e) with
    (mul_carry (h0 + limb (le_val m) 0) (h1 + limb (le_val m) 1) (h2 + limb (le_val m) 2) (h3 + limb (le_val m) 3)
      (h4 + (limb (le_val m) 4 + hibit)) (limb r 0) (limb r 1) (limb r 2) (limb r 3) (limb r 4)) end.
  destruct (mul_carry_spec (h0 + limb (le_val m) 0) (h1 + limb (le_val m) 1) (h2 + limb (le_val m) 2) (h3 + limb (le_val m) 3)
      (h4 + (limb (le_val m) 4 + hibit)) (limb r 0) (limb r 1) (limb r 2) (limb r 3) (limb r 4)) as [Hok Heq];
    [lia..|apply limb_bound|apply limb_bound|apply limb_bound|apply limb_bound|apply limb_bound|].
  split; [exact Hok|]. split; [|done]. cbn [p_h set Setter]. change (p_h _) with (mul_carry (h0 + limb (le_val m) 0) (h1 + limb (le_val m) 1) (h2 + limb (le_val m) 2) (h3 + limb (le_val m) 3)
      (h4 + (limb (le_val m) 4 + hibit)) (limb r 0) (limb r 1) (limb r 2) (limb r 3) (limb r 4)).
  rewrite Heq, <- Hrs. f_equal. f_equal. lia.
Qed.

(** ** The end *)

Definition tval (h : Z * Z * Z * Z * Z) : Z :=
  let '(h0, h1, h2, h3, h4) := h in h0 + h1 * 2 ^ 26 + h2 * 2 ^ 52 + h3 * 2 ^ 78 + h4 * 2 ^ 104.

Definition t26 (h : Z * Z * Z * Z * Z) : Prop :=
  let '(h0, h1, h2, h3, h4) := h in
  0 <= h0 < 2 ^ 26 /\ 0 <= h1 < 2 ^ 26 /\ 0 <= h2 < 2 ^ 26 /\ 0 <= h3 < 2 ^ 26 /\ 0 <= h4 < 2 ^ 26.

Lemma shift26 x : Z.shiftr x 26 = x / 2 ^ 26.
Proof. by rewrite Z.shiftr_div_pow2. Qed.

(** a second carry into [h1] never overflows it: the chain then started there *)
Lemma poly_norm_spec h : limbs_ok h ->
  t26 (poly_norm h) /\ exists k, tval (poly_norm h) + k * P1305 = hval h.
Proof.
  intros [h0 h1 h2 h3 h4 B0 B1 B2 B3 B4].
  change (hval _) with (h0 + h1 * 2 ^ 26 + h2 * 2 ^ 52 + h3 * 2 ^ 78 + h4 * 2 ^ 104).
  unfold poly_norm. change (aget _ 0) with h0. change (aget _ 1) with h1. change (aget _ 2) with h2.
  change (aget _ 3) with h3. change (aget _ 4) with h4. cbv zeta. rewrite !shift26, !land26.
  set (c1 := h1 / 2 ^ 26). assert (0 <= c1 <= 1) by lia. rewrite (u32_small (h2 + c1)) by (unfold is_u32; lia).
  set (c2 := (h2 + c1) / 2 ^ 26). assert (0 <= c2 <= c1) by lia. rewrite (u32_small (h3 + c2)) by (unfold is_u32; lia).
  set (c3 := (h3 + c2) / 2 ^ 26). assert (0 <= c3 <= c2) by lia. rewrite (u32_small (h4 + c3)) by (unfold is_u32; lia).
  set (c4 := (h4 + c3) / 2 ^ 26). assert (0 <= c4 <= c3) by lia.
  rewrite (u32_small (c4 * 5)), (u32_small (h0 + _)) by (unfold is_u32; lia).
  set (c0 := (h0 + c4 * 5) / 2 ^ 26). assert (0 <= c0 <= c4) by lia.
  assert (c1 = 1 -> h1 mod 2 ^ 26 < 2 ^ 6) by lia.
  rewrite (u32_small (_ + c0)) by (unfold is_u32; lia). split; [unfold t26; lia|]. exists c4. unfold P1305, tval. lia.
Qed.

Lemma land_mask x : is_u32 x -> Z.land x (2 ^ 32 - 1) = x.
Proof. intros Hx. change (2 ^ 32 - 1) with (Z.ones 32). rewrite Z.land_ones by lia. by apply Z.mod_small. Qed.

Lemma poly_select_spec h : t26 h -> t26 (poly_select h) /\ tval (poly_select h) = tval h mod P1305.
Proof.
  destruct h as [[[[h0 h1] h2] h3] h4]. intros (B0 & B1 & B2 & B3 & B4).
  unfold poly_select. rewrite !shift26, !land26. change (Z.shiftl 1 26) with (2 ^ 26).
  rewrite (u32_small (h0 + 5)) by (unfold is_u32; lia).
  set (c0 := (h0 + 5) / 2 ^ 26). assert (0 <= c0 <= 1) by lia. rewrite (u32_small (h1 + c0)) by (unfold is_u32; lia).
  set (c1 := (h1 + c0) / 2 ^ 26). assert (0 <= c1 <= 1) by lia. rewrite (u32_small (h2 + c1)) by (unfold is_u32; lia).
  set (c2 := (h2 + c1) / 2 ^ 26). assert (0 <= c2 <= 1) by lia. rewrite (u32_small (h3 + c2)) by (unfold is_u32; lia).
  set (c3 := (h3 + c2) / 2 ^ 26). assert (0 <= c3 <= 1) by lia. rewrite (Z.shiftr_div_pow2 _ 31) by lia.
  assert (Hv : tval (h0, h1, h2, h3, h4) + 5 =
    (h0 + 5) mod 2 ^ 26 + (h1 + c0) mod 2 ^ 26 * 2 ^ 26 + (h2 + c1) mod 2 ^ 26 * 2 ^ 52 + (h3 + c2) mod 2 ^ 26 * 2 ^ 78 +
    (h4 + c3) * 2 ^ 104) by (unfold tval; lia).
  destruct (decide (h4 + c3 < 2 ^ 26)).
  - assert (u32 (h4 + c3 - 2 ^ 26) / 2 ^ 31 = 1) as -> by (unfold u32; lia). change (u32 (1 - 1)) with 0.
    change (u32 (Z.lnot 0)) with (2 ^ 32 - 1). rewrite !Z.land_0_r, !Z.lor_0_r, !land_mask by (unfold is_u32; lia).
    split; [done|]. symmetry. apply Z.mod_small. unfold P1305. unfold tval in *. lia.
  - rewrite (u32_small (h4 + c3 - 2 ^ 26)) by (unfold is_u32; lia).
    assert ((h4 + c3 - 2 ^ 26) / 2 ^ 31 = 0) as -> by lia. change (u32 (0 - 1)) with (2 ^ 32 - 1).
    change (u32 (Z.lnot (2 ^ 32 - 1))) with 0. rewrite !Z.land_0_r, !Z.lor_0_l, !land_mask by (unfold is_u32; lia).
    split; [unfold t26; lia|]. apply Z.mod_unique with 1; [left|]; unfold P1305; unfold tval in *; lia.
Qed.

Definition wlimb (v i : Z) : Z := v / 2 ^ (32 * i) mod 2 ^ 32.

Lemma le_bytes_words v : le_bytes 16 v = le32 (wlimb v 0) ++ le32 (wlimb v 1) ++ le32 (wlimb v 2) ++ le32 (wlimb v 3).
Proof.
  assert (E : forall i k, 0 <= i -> 0 <= k <= 24 -> u8 (Z.shiftr (wlimb v i) k) = u8 (Z.shiftr v (32 * i + k))).
  { intros i k Hi Hk. unfold wlimb, u8. apply Z.bits_inj'. intros j Hj. destruct (decide (j < 8)); [|by rewrite !Z.mod_pow2_bits_high by lia].
    rewrite !Z.mod_pow2_bits_low, !Z.shiftr_spec, Z.mod_pow2_bits_low, <- Z.shiftr_div_pow2, Z.shiftr_spec by lia. f_equal. lia. }
  assert (W : forall i, 0 <= i -> le32 (wlimb v i) =
    [u8 (Z.shiftr v (32 * i + 0)); u8 (Z.shiftr v (32 * i + 8)); u8 (Z.shiftr v (32 * i + 16)); u8 (Z.shiftr v (32 * i + 24))]).
  { intros i Hi. unfold le32. rewrite <- !E, Z.shiftr_0_r by lia. done. }
  by rewrite !W by lia.
Qed.

Lemma poly_out_spec h s v : t26 h -> s = map (wlimb v) [0; 1; 2; 3] -> 0 <= v < 2 ^ 128 ->
  poly_out h s = le_bytes 16 (tval h + v).
Proof.
  destruct h as [[[[h0 h1] h2] h3] h4]. intros (B0 & B1 & B2 & B3 & B4) -> Hv. rewrite le_bytes_words.
  unfold poly_out. change (aget _ 0) with (wlimb v 0). change (aget _ 1) with (wlimb v 1).
  change (aget _ 2) with (wlimb v 2). change (aget _ 3) with (wlimb v 3).
  set (H := tval (h0, h1, h2, h3, h4)).
  assert (E0 : Z.lor h0 (u32 (Z.shiftl h1 26)) = wlimb H 0).
  { rewrite Z.lor_comm, (lor_low 26); rewrite ?Z.shiftl_mul_pow2 by lia; unfold u32; [|lia..].
    unfold wlimb, H, tval. change (32 * 0) with 0. lia. }
  assert (E1 : Z.lor (Z.shiftr h1 6) (u32 (Z.shiftl h2 20)) = wlimb H 1).
  { rewrite Z.lor_comm, (lor_low 20); rewrite ?Z.shiftl_mul_pow2, ?Z.shiftr_div_pow2 by lia; unfold u32; [|lia..].
    unfold wlimb, H, tval. change (32 * 1) with 32. lia. }
  assert (E2 : Z.lor (Z.shiftr h2 12) (u32 (Z.shiftl h3 14)) = wlimb H 2).
  { rewrite Z.lor_comm, (lor_low 14); rewrite ?Z.shiftl_mul_pow2, ?Z.shiftr_div_pow2 by lia; unfold u32; [|lia..].
    unfold wlimb, H, tval. change (32 * 2) with 64. lia. }
  assert (E3 : Z.lor (Z.shiftr h3 18) (u32 (Z.shiftl h4 8)) = wlimb H 3).
  { rewrite Z.lor_comm, (lor_low 8); rewrite ?Z.shiftl_mul_pow2, ?Z.shiftr_div_pow2 by lia; unfold u32; [|lia..].
    unfold wlimb, H, tval. change (32 * 3) with 96. lia. }
  rewrite E0, E1, E2, E3. assert (HH : 0 <= H < 2 ^ 130) by (unfold H, tval; lia). clearbody H. clear E0 E1 E2 E3.
  assert (B : forall x i, 0 <= wlimb x i < 2 ^ 32) by (intros; unfold wlimb; lia).
  pose proof (B H 0). pose proof (B H 1). pose proof (B H 2). pose proof (B H 3).
  pose proof (B v 0). pose proof (B v 1). pose proof (B v 2). pose proof (B v 3).
  rewrite !(Z.shiftr_div_pow2 _ 32) by lia.
  rewrite (u64_small (wlimb H 0 + wlimb v 0)) by (unfold is_u64; lia). set (f0 := wlimb H 0 + wlimb v 0) in *.
  rewrite (u64_small (wlimb H 1 + wlimb v 1 + f0 / 2 ^ 32)) by (unfold is_u64; lia). set (f1 := wlimb H 1 + wlimb v 1 + f0 / 2 ^ 32) in *.
  rewrite (u64_small (wlimb H 2 + wlimb v 2 + f1 / 2 ^ 32)) by (unfold is_u64; lia). set (f2 := wlimb H 2 + wlimb v 2 + f1 / 2 ^ 32) in *.
  rewrite (u64_small (wlimb H 3 + wlimb v 3 + f2 / 2 ^ 32)) by (unfold is_u64; lia).
  set (f3 := wlimb H 3 + wlimb v 3 + f2 / 2 ^ 32) in *.
  assert (S : forall x, 0 <= x < 2 ^ 130 -> exists t, x = wlimb x 0 + wlimb x 1 * 2 ^ 32 + wlimb x 2 * 2 ^ 64 + wlimb x 3 * 2 ^ 96 + t * 2 ^ 128).
  { intros x Hx. exists (x / 2 ^ 128). unfold wlimb. change (32 * 0) with 0. change (32 * 1) with 32. change (32 * 2) with 64. change (32 * 3) with 96. lia. }
  destruct (S H HH) as [t Ht]. destruct (S v ltac:(lia)) as [t' Ht'].
  assert (D : forall x a0 a1 a2 a3 t, 0 <= a0 < 2 ^ 32 -> 0 <= a1 < 2 ^ 32 -> 0 <= a2 < 2 ^ 32 -> 0 <= a3 < 2 ^ 32 ->
    x = a0 + a1 * 2 ^ 32 + a2 * 2 ^ 64 + a3 * 2 ^ 96 + t * 2 ^ 128 -> wlimb x 0 = a0 /\ wlimb x 1 = a1 /\ wlimb x 2 = a2 /\ wlimb x 3 = a3).
  { intros x a0 a1 a2 a3 u ? ? ? ? ->. unfold wlimb. change (32 * 0) with 0. change (32 * 1) with 32. change (32 * 2) with 64.
    change (32 * 3) with 96. repeat split; lia. }
  destruct (D (H + v) (u32 f0) (u32 f1) (u32 f2) (u32 f3) (t + t' + f3 / 2 ^ 32)) as (-> & -> & -> & ->);
    [apply u32_bound..| |done].
  unfold u32. unfold f0, f1, f2, f3 in *. lia.
Qed.

(** ** Messages fed in pieces *)

Definition poly_s (key : list Z) : Z := le_val (take 16 (drop 16 key)).

(** the state after the blocks [bs], with [tail] in its buffer *)
Record prep (key : list Z) (bs : list (list Z)) (tail : list Z) (p : poly1305) : Prop := Prep {
  prep_r : p_r p = map (limb (poly_r key)) [0; 1; 2; 3; 4];
  prep_s : p_s p = map (wlimb (poly_s key)) [0; 1; 2; 3];
  prep_ok : limbs_ok (p_h p);
  prep_acc : hval (p_h p) mod P1305 = poly_acc (poly_r key) bs;
  prep_len : p_buf_len p = zlen tail;
  prep_short : zlen tail < 16;
  prep_buf : zlen (p_buf p) = 16;
  prep_tail : take (length tail) (p_buf p) = tail;
  prep_bs : Forall (fun b => bytes b /\ length b = 16%nat) bs;
  prep_bytes : bytes tail
}.

Definition poly_fed (key msg : list Z) (p : poly1305) : Prop :=
  exists bs tail, msg = mjoin bs ++ tail /\ prep key bs tail p.

Lemma poly_r_range key : bytes key -> 0 <= poly_r key < 2 ^ 130.
Proof.
  intros Hk. assert (Hb : bytes (take 16 key)) by (by apply Forall_take). pose proof (le_val_bound _ Hb).
  unfold poly_r. assert (0 <= Z.land (le_val (take 16 key)) CLAMP) by (apply Z.land_nonneg; lia). split; [done|].
  apply below_pow2; [lia|done|]. intros j Hj. rewrite Z.land_spec, (testbit_above 130 CLAMP) by (unfold CLAMP; lia). apply andb_false_r.
Qed.

Lemma le_val_pad t k : le_val (t ++ 1 :: replicate k 0) = le_val (t ++ [1]).
Proof.
  rewrite !le_val_app. f_equal. f_equal. change (1 + 256 * le_val (replicate k 0) = 1). enough (le_val (replicate k 0) = 0) as -> by done.
  induction k as [|k IH]; [done|]. change (0 + 256 * le_val (replicate k 0) = 0). by rewrite IH.
Qed.

Lemma poly_acc_snoc r bs b : poly_acc r (bs ++ [b]) = (poly_acc r bs + le_val (b ++ [1])) * r mod P1305.
Proof. unfold poly_acc. by rewrite foldl_app. Qed.

(** one block into the sum, full or padded *)
Lemma acc_block key p bs m hibit b : bytes key -> bytes m -> zlen m = 16 -> hibit = 2 ^ 24 \/ hibit = 0 ->
  le_val m + hibit * 2 ^ 104 = le_val (b ++ [1]) ->
  limbs_ok (p_h p) -> p_r p = map (limb (poly_r key)) [0; 1; 2; 3; 4] ->
  hval (p_h p) mod P1305 = poly_acc (poly_r key) bs ->
  limbs_ok (p_h (poly_block p m hibit)) /\
  hval (p_h (poly_block p m hibit)) mod P1305 = poly_acc (poly_r key) (bs ++ [b]) /\
  poly_block p m hibit = p <| p_h := p_h (poly_block p m hibit) |>.
Proof.
  intros Hk Hm Hl Hbit Hv Hok Hr Hacc.
  destruct (poly_block_spec p m hibit (poly_r key) Hm Hl Hbit Hok Hr (poly_r_range key Hk)) as (H1 & H2 & H3).
  split; [done|]. split; [|done]. rewrite H2, poly_acc_snoc, Hv, <- Hacc.
  rewrite <- (Zmult_mod_idemp_l (hval _ + _)), <- (Zmult_mod_idemp_l (_ mod _ + _)). by rewrite Zplus_mod_idemp_l.
Qed.

Lemma zlen16 {A} (b : list A) : length b = 16%nat <-> zlen b = 16.
Proof. unfold zlen. lia. Qed.

Lemma prep_block key bs b p m : bytes key -> prep key bs [] p -> bytes b -> length b = 16%nat -> m = b ->
  prep key (bs ++ [b]) [] (poly_block p m (Z.shiftl 1 24)).
Proof.
  intros Hk [Hr Hs Hok Hacc Hlen Hsh Hbuf Htl Hbs Hbt] Hb Hl ->.
  destruct (acc_block key p bs b (2 ^ 24) b Hk Hb (proj1 (zlen16 b) Hl) (or_introl eq_refl)) as (H1 & H2 & H3); [|done..|].
  { rewrite le_val_app. apply zlen16 in Hl. rewrite Hl. change (le_val [1]) with 1. lia. }
  change (Z.shiftl 1 24) with (2 ^ 24). rewrite H3. split; try done.
  apply Forall_app. split; [done|]. by repeat constructor.
Qed.

Lemma prep_blocks key fuel : forall p bs m, bytes key -> prep key bs [] p -> bytes m -> (length m <= fuel)%nat ->
  exists cs rest, m = mjoin cs ++ rest /\ (poly_blocks fuel p m).2 = rest /\ zlen rest < 16 /\ bytes rest /\
    prep key (bs ++ cs) [] (poly_blocks fuel p m).1.
Proof.
  induction fuel as [|fuel IH]; intros p bs m Hk Hp Hm Hf.
  - exists [], m. destruct m; [|cbn in Hf; lia]. rewrite (app_nil_r bs). split_and!; (reflexivity || done || constructor).
  - cbn [poly_blocks]. destruct (16 <=? zlen m) eqn:E; zbool.
    + assert (Hl : length (take 16 m) = 16%nat) by (rewrite length_take; unfold zlen in *; lia).
      destruct (IH (poly_block p m (Z.shiftl 1 24)) (bs ++ [take 16 m]) (drop 16 m)) as (cs & rest & Hmm & Hr & Hsh & Hb & Hp'); [done| |by apply Forall_drop| |].
      * replace (poly_block p m (Z.shiftl 1 24)) with (poly_block p (take 16 m) (Z.shiftl 1 24)).
        -- apply prep_block; [done|done|by apply Forall_take|done|done].
        -- unfold poly_block. change 16%nat with (Z.to_nat 16). by rewrite !le32_at_take by lia.
      * rewrite length_drop. unfold zlen in *. lia.
      * exists (take 16 m :: cs), rest. rewrite <- app_assoc in Hp'. split_and!; try done.
        change (m = (take 16 m ++ mjoin cs) ++ rest). by rewrite <- app_assoc, <- Hmm, take_drop.
    + exists [], m. rewrite (app_nil_r bs). by split_and!.
Qed.

Lemma prep_rest key p bs m : bytes key -> prep key bs [] p -> bytes m ->
  exists cs rest, m = mjoin cs ++ rest /\ prep key (bs ++ cs) rest (poly_rest p m).
Proof.
  intros Hk Hp Hm. destruct (prep_blocks key (length m) p bs m Hk Hp Hm ltac:(lia)) as (cs & rest & Hmm & Hr & Hsh & Hb & Hp').
  exists cs, rest. split; [done|]. unfold poly_rest. destruct (poly_blocks _ p m) as [p' r]. cbn [fst snd] in *. subst r.
  destruct (zlen rest =? 0) eqn:E; zbool; [by destruct rest; [|unfold zlen in E; cbn in E; lia]|].
  destruct Hp' as [Gr Gs Gok Gacc Glen Gsh Gbuf Gtl Gbs Gbt]. unfold poly_copy. pose proof (zlen_nonneg rest).
  split; try done.
  - change (zlen (take (Z.to_nat 0) (p_buf p') ++ take (Z.to_nat (zlen rest)) rest ++ drop (Z.to_nat (0 + zlen rest)) (p_buf p')) = 16).
    rewrite !zlen_app, !zlen_take, zlen_drop by lia. lia.
  - change (take (length rest) (take (Z.to_nat (zlen rest)) rest ++ drop (Z.to_nat (0 + zlen rest)) (p_buf p')) = rest).
    unfold zlen. rewrite Nat2Z.id, (take_ge rest) by lia. apply take_app_length.
Qed.

Lemma poly_update_spec key p bs tail m : bytes key -> prep key bs tail p -> bytes m ->
  exists cs rest, tail ++ m = mjoin cs ++ rest /\ prep key (bs ++ cs) rest (poly_update p m).
Proof.
  intros Hk Hp Hm. pose proof (zlen_nonneg m) as Hm0. pose proof (zlen_nonneg tail) as Ht0. unfold poly_update.
  destruct (p_buf_len p =? 0) eqn:E; zbool.
  - assert (tail = []) as -> by (rewrite (prep_len _ _ _ _ Hp) in E; by destruct tail; [|unfold zlen in E; cbn in E; lia]).
    by apply prep_rest.
  - destruct Hp as [Gr Gs Gok Gacc Glen Gsh Gbuf Gtl Gbs Gbt]. rewrite Glen in *.
    set (n := if zlen m <? 16 - zlen tail then zlen m else 16 - zlen tail).
    assert (Hn : 0 <= n <= zlen m /\ zlen tail + n <= 16 /\ (n = zlen m \/ zlen tail + n = 16)) by (unfold n; case_bool; zbool; lia).
    clearbody n. set (tail' := tail ++ take (Z.to_nat n) m).
    assert (Hl' : zlen tail' = zlen tail + n) by (unfold tail'; rewrite zlen_app, zlen_take; lia).
    assert (Hb' : bytes tail') by (apply bytes_app; split; [done|by apply Forall_take]).
    assert (Ebuf : take (Z.to_nat (zlen tail)) (p_buf p) ++ take (Z.to_nat n) m ++ drop (Z.to_nat (zlen tail + n)) (p_buf p) =
      tail' ++ drop (Z.to_nat (zlen tail + n)) (p_buf p)).
    { unfold tail'. rewrite <- app_assoc. f_equal. unfold zlen. by rewrite Nat2Z.id. }
    set (p1 := poly_copy p (zlen tail) m n <| p_buf_len ::= fun k => k + n |>).
    assert (E1 : p_buf p1 = tail' ++ drop (Z.to_nat (zlen tail + n)) (p_buf p)) by exact Ebuf.
    assert (E2 : p_buf_len p1 = zlen tail + n) by (unfold p1; change (p_buf_len p + n = zlen tail + n); lia).
    rewrite E2. destruct (zlen tail + n <? 16) eqn:E3; zbool.
    + exists [], tail'. rewrite (app_nil_r bs). assert (n = zlen m) by lia. split.
      { unfold tail'. rewrite take_ge by (unfold zlen in *; lia). done. }
      split; try done; [lia..| |].
      * rewrite E1, zlen_app, zlen_drop by lia. lia.
      * rewrite E1. apply take_app_length.
    + assert (Hfull : zlen tail + n = 16) by lia.
      assert (Hbufeq : p_buf p1 = tail') by (rewrite E1, drop_ge, app_nil_r; [done|unfold zlen in *; lia]).
      assert (Hp1 : prep key bs [] (p1 <| p_buf_len := 0 |>)).
      { split; try done; [|constructor]. change (zlen (p_buf p1) = 16). rewrite Hbufeq. lia. }
      pose proof (prep_block key bs tail' _ tail' Hk Hp1 Hb' ltac:(apply zlen16; lia) eq_refl) as Hp2.
      destruct (prep_rest key _ _ (drop (Z.to_nat n) m) Hk Hp2 ltac:(by apply Forall_drop)) as (cs & rest & Hmm & Hp3).
      exists (tail' :: cs), rest. split.
      * change (tail ++ m = (tail' ++ mjoin cs) ++ rest). rewrite <- app_assoc, <- Hmm. unfold tail'. by rewrite <- app_assoc, take_drop.
      * rewrite Hbufeq. rewrite <- app_assoc in Hp3. exact Hp3.
Qed.

Lemma poly_init_s key : bytes key -> 32 <= zlen key -> p_s (poly_init key) = map (wlimb (poly_s key)) [0; 1; 2; 3].
Proof.
  intros Hk Hl. set (s := take 16 (drop 16 key)). assert (Hs : bytes s) by (by apply Forall_take, Forall_drop).
  assert (Hls : zlen s = 16) by (unfold s, zlen in *; rewrite length_take, length_drop; lia).
  assert (E : forall i, 0 <= i <= 12 -> le32_at key (16 + i) = le_val s / 2 ^ (8 * i) mod 2 ^ 32).
  { intros i Hi. rewrite <- le32_at_val by (done || lia). unfold s, le32_at. change 16%nat with (Z.to_nat 16).
    rewrite !aget_take, !aget_drop by lia. by rewrite !Z.add_assoc. }
  change (p_s (poly_init key)) with
    [le32_at key (16 + 0); le32_at key (16 + 4); le32_at key (16 + 8); le32_at key (16 + 12)].
  rewrite !E by lia. done.
Qed.

Lemma poly_fed_init key : bytes key -> 32 <= zlen key -> poly_fed key [] (poly_init key).
Proof.
  intros Hk Hl. exists [], []. split; [done|]. 
  split; [by apply poly_init_r|by apply poly_init_s|apply (Limbs_ok 0 0 0 0 0); lia|done..|constructor|constructor].
Qed.

Lemma poly_fed_update key msg p m : bytes key -> bytes m -> poly_fed key msg p -> poly_fed key (msg ++ m) (poly_update p m).
Proof.
  intros Hk Hm (bs & tail & -> & Hp). destruct (poly_update_spec key p bs tail m Hk Hp Hm) as (cs & rest & E & Hp').
  exists (bs ++ cs), rest. split; [|done]. by rewrite <- app_assoc, E, join_app, <- app_assoc.
Qed.

Lemma chunks_join bs tail : Forall (fun b => bytes b /\ length b = 16%nat) bs -> zlen tail < 16 ->
  chunks 16 (mjoin bs ++ tail) = bs ++ match tail with [] => [] | _ => [tail] end.
Proof.
  intros Hbs Ht. induction Hbs as [|b bs [_ Hb] Hbs IH].
  - change (mjoin [] ++ tail) with tail. destruct tail as [|x t]; [done|]. apply chunks_short; [done|]. unfold zlen in Ht. lia.
  - change (mjoin (b :: bs) ++ tail) with ((b ++ mjoin bs) ++ tail). rewrite <- app_assoc, chunks_app, IH by (done || lia). done.
Qed.

(** the pending bytes get the pad, once, and only when there are some *)
Lemma poly_last_spec key bs tail p : bytes key -> prep key bs tail p ->
  limbs_ok (p_h (poly_last p)) /\ p_s (poly_last p) = p_s p /\
  hval (p_h (poly_last p)) mod P1305 = poly_acc (poly_r key) (bs ++ match tail with [] => [] | _ => [tail] end).
Proof.
  intros Hk [Gr Gs Gok Gacc Glen Gsh Gbuf Gtl Gbs Gbt]. unfold poly_last. rewrite Glen.
  destruct (decide (tail = [])) as [->|Hne]; [by rewrite app_nil_r|].
  assert (match tail with [] => [] | _ => [tail] end = [tail]) as -> by (by destruct tail).
  destruct (zlen tail =? 0) eqn:E; zbool; [by destruct tail|].
  pose proof (zlen_nonneg tail). set (last := aset _ _ _).
  assert (El : last = tail ++ 1 :: replicate (Z.to_nat (15 - zlen tail)) 0).
  { unfold last. unfold zlen at 1. rewrite Nat2Z.id, Gtl.
    replace (Z.to_nat (16 - zlen tail)) with (S (Z.to_nat (15 - zlen tail))) by lia. by apply aset_mid. }
  assert (Hll : zlen last = 16) by (rewrite El, zlen_app, zlen_cons; unfold zlen at 2; rewrite length_replicate; lia).
  assert (Hbl : bytes last).
  { rewrite El. apply bytes_app. split; [done|]. constructor; [done|]. by apply Forall_replicate. }
  destruct (acc_block key p bs last 0 tail Hk Hbl Hll (or_intror eq_refl)) as (H1 & H2 & H3); [|done..|].
  { rewrite El, le_val_pad. lia. }
  split; [exact H1|]. split; [by rewrite H3|]. exact H2.
Qed.

Lemma poly_fed_finish key msg p : bytes key -> poly_fed key msg p -> poly_finish p = poly1305_ref msg key.
Proof.
  intros Hk (bs & tail & -> & Hp). pose proof (prep_bs _ _ _ _ Hp) as Hbs. pose proof (prep_short _ _ _ _ Hp) as Hsh.
  destruct (poly_last_spec key bs tail p Hk Hp) as (Hok & Hs & Hacc). unfold poly_finish, poly1305_ref.
  rewrite chunks_join by done. rewrite <- Hacc. destruct (poly_norm_spec _ Hok) as [Ht [k Hk']].
  destruct (poly_select_spec _ Ht) as [Ht' Hv]. 
  assert (Hsr : 0 <= poly_s key < 2 ^ 128).
  { assert (Hb : bytes (take 16 (drop 16 key))) by (by apply Forall_take, Forall_drop). pose proof (le_val_bound _ Hb) as B.
    assert (zlen (take 16 (drop 16 key)) <= 16) by (unfold zlen; rewrite length_take; lia).
    unfold poly_s. split; [lia|]. eapply Z.lt_le_trans; [apply B|]. apply Z.pow_le_mono_r; lia. }
  rewrite (poly_out_spec _ _ (poly_s key) Ht'); [|rewrite Hs; apply (prep_s _ _ _ _ Hp)|done]. f_equal. fold (poly_s key). f_equal.
  rewrite Hv, <- Hk', Z_mod_plus_full. done.
Qed.

Lemma poly_fed_pieces key ms : forall msg p, bytes key -> Forall bytes ms -> poly_fed key msg p ->
  poly_fed key (msg ++ mjoin ms) (foldl poly_update p ms).
Proof.
  induction ms as [|m ms IH]; intros msg p Hk Hm Hp; [change (mjoin []) with (@nil Z); by rewrite app_nil_r|].
  apply Forall_cons in Hm as [Hm Hms]. change (mjoin (m :: ms)) with (m ++ mjoin ms). rewrite app_assoc.
  apply (IH (msg ++ m)); [done|done|]. by apply poly_fed_update.
Qed.

(** C8: the Poly1305 of the code is RFC 8439's: for a key of 32 bytes and a
    message handed over in any pieces, empty and unaligned ones included,
    the tag [poly_finish] writes is the reference's little-endian
    [((a + block) * r mod 2 ^ 130 - 5 ...) + s] of the joined message, and
    so is what [poly1305_mac] computes in one call. *)
Theorem poly1305_rfc8439 (key : list Z) (pieces : list (list Z)) :
  bytes key -> 32 <= zlen key -> Forall bytes pieces ->
  poly_finish (foldl poly_update (poly_init key) pieces) = poly1305_ref (mjoin pieces) key /\
  (forall msg, bytes msg -> poly1305_mac msg key = poly1305_ref msg key).
Proof.
  intros Hk Hl Hp. pose proof (poly_fed_init key Hk Hl) as Hi. split.
  - apply poly_fed_finish; [done|]. by apply (poly_fed_pieces key pieces []).
  - intros msg Hm. apply poly_fed_finish; [done|]. by apply (poly_fed_update key []).
Qed.

Definition demo_key : list Z := seqZ 0x80 32.

(** five pieces cut across the blocks *)
Lemma poly1305_rfc8439_witness :
  poly_finish (foldl poly_update (poly_init demo_key) [seqZ 0 5; []; seqZ 5 30; seqZ 35 1; seqZ 36 7]) =
    poly1305_ref (seqZ 0 43) demo_key.
Proof.
  refine (proj1 (poly1305_rfc8439 demo_key [seqZ 0 5; []; seqZ 5 30; seqZ 35 1; seqZ 36 7] _ _ _)).
  - by apply bytes_check.
  - vm_compute. discriminate.
  - repeat (apply Forall_cons; split; [by apply bytes_check|]). by apply Forall_nil.
Defined.
