(* ===== verification/AeadAes.v ===== *)
(** * The AES-128 of the code is FIPS 197's cipher

    The reference works on sixteen bytes with the field of 256 elements: the
    S-box is the affine image of the inverse, a round is SubBytes, ShiftRows,
    MixColumns and AddRoundKey, and the key schedule works on four-byte
    words. The code keeps the state as four big-endian words and does a round
    with four tables. *)

From S2P Require Import Prelude LeBytes Aead.

(** ** FIPS 197 *)

(** multiplication by [x] modulo [x^8 + x^4 + x^3 + x + 1] *)
Definition gf8_x (a : Z) : Z := if 2 * a <? 256 then 2 * a else Z.lxor (2 * a) 0x11b.
Definition gf8_mul (a b : Z) : Z :=
  foldl (fun z i => if Z.testbit b (Z.of_nat i) then Z.lxor z (Nat.iter i gf8_x a) else z) 0 (seq 0 8).
(** the inverse is the power 254, the product of the squares [a ^ 2], [a ^ 4], ... [a ^ 128]; that of 0 is 0 *)
Definition gf8_inv (a : Z) : Z := foldl (fun z i => gf8_mul z (Nat.iter i (fun b => gf8_mul b b) a)) 1 (seq 1 7).

Definition affine_bit (a i : Z) : bool :=
  xorb (xorb (xorb (xorb (Z.testbit a i) (Z.testbit a ((i + 4) mod 8))) (Z.testbit a ((i + 5) mod 8)))
    (xorb (Z.testbit a ((i + 6) mod 8)) (Z.testbit a ((i + 7) mod 8)))) (Z.testbit 0x63 i).
Definition sbox (x : Z) : Z := zsum (map (fun i => Z.b2z (affine_bit (gf8_inv x) i) * 2 ^ i) (seqZ 0 8)).

Definition sub_bytes (st : list Z) : list Z := map sbox st.
(** byte [r + 4 c] of the state is row [r] of column [c] *)
Definition shift_rows (st : list Z) : list Z :=
  map (fun i => aget st (i mod 4 + 4 * ((i / 4 + i mod 4) mod 4))) (seqZ 0 16).
Definition mix_column (a b c d : Z) : list Z :=
  [Z.lxor (Z.lxor (Z.lxor (gf8_mul 2 a) (gf8_mul 3 b)) c) d; Z.lxor (Z.lxor (Z.lxor a (gf8_mul 2 b)) (gf8_mul 3 c)) d;
   Z.lxor (Z.lxor (Z.lxor a b) (gf8_mul 2 c)) (gf8_mul 3 d); Z.lxor (Z.lxor (Z.lxor (gf8_mul 3 a) b) c) (gf8_mul 2 d)].
Definition mix_columns (st : list Z) : list Z :=
  mjoin (map (fun c => mix_column (aget st (4 * c)) (aget st (4 * c + 1)) (aget st (4 * c + 2)) (aget st (4 * c + 3))) (seqZ 0 4)).

(** [w] is the key schedule, one list of four bytes for each word *)
Definition add_round_key (w : list (list Z)) (r : Z) (st : list Z) : list Z :=
  zip_with Z.lxor st (aget w (4 * r) ++ aget w (4 * r + 1) ++ aget w (4 * r + 2) ++ aget w (4 * r + 3)).

Definition rcon_byte (i : Z) : Z := Nat.iter (Z.to_nat (i - 1)) gf8_x 1.
Definition rot_word (t : list Z) : list Z := drop 1 t ++ take 1 t.
Definition next_word (w : list (list Z)) : list (list Z) :=
  let i := zlen w in
  let t := aget w (i - 1) in
  let t := if i mod 4 =? 0 then zip_with Z.lxor (map sbox (rot_word t)) [rcon_byte (i / 4); 0; 0; 0] else t in
  w ++ [zip_with Z.lxor (aget w (i - 4)) t].
Definition key_expansion (key : list Z) : list (list Z) :=
  Nat.iter 40 next_word (map (fun i => slice key (4 * i) (4 * i + 4)) (seqZ 0 4)).

Definition aes_round (w : list (list Z)) (st : list Z) (r : Z) : list Z :=
  add_round_key w r (mix_columns (shift_rows (sub_bytes st))).
Definition aes_cipher (w : list (list Z)) (st : list Z) : list Z :=
  add_round_key w 10 (shift_rows (sub_bytes (foldl (aes_round w) (add_round_key w 0 st) (seqZ 1 9)))).

(** the power 254 is the inverse *)
Lemma gf8_inverse : forallb (fun a => gf8_mul a (gf8_inv a) =? 1) (seqZ 1 255) = true.
Proof. vm_compute. reflexivity. Qed.

(** ** Big-endian words *)

Definition wd (a b c d : Z) : Z := Z.lor (Z.lor (Z.lor (Z.shiftl a 24) (Z.shiftl b 16)) (Z.shiftl c 8)) d.

Lemma be32_wd a b c d : be32_at [a; b; c; d] 0 = wd a b c d.
Proof. done. Qed.

Lemma wd_sum a b c d : is_u8 a -> is_u8 b -> is_u8 c -> is_u8 d -> wd a b c d = a * 2 ^ 24 + b * 2 ^ 16 + c * 2 ^ 8 + d.
Proof.
  unfold wd, is_u8. intros. rewrite !Z.shiftl_mul_pow2 by lia.
  rewrite (lor_low 24 (a * _)) by lia. rewrite (lor_low 16 (_ + _)) by lia. rewrite (lor_low 8 (_ + _)) by lia. done.
Qed.

Lemma wd_parts a b c d : is_u8 a -> is_u8 b -> is_u8 c -> is_u8 d ->
  Z.shiftr (wd a b c d) 24 = a /\ Z.land (Z.shiftr (wd a b c d) 16) 0xff = b /\
  Z.land (Z.shiftr (wd a b c d) 8) 0xff = c /\ Z.land (wd a b c d) 0xff = d.
Proof.
  intros. rewrite wd_sum by done. change 0xff with (Z.ones 8). rewrite !Z.land_ones, !Z.shiftr_div_pow2 by lia.
  unfold is_u8 in *. lia.
Qed.

Lemma wd_u32 a b c d : is_u8 a -> is_u8 b -> is_u8 c -> is_u8 d -> is_u32 (wd a b c d).
Proof. intros. rewrite wd_sum by done. unfold is_u8, is_u32 in *. lia. Qed.

Lemma put_wd a b c d : is_u8 a -> is_u8 b -> is_u8 c -> is_u8 d -> put_be32 (wd a b c d) = [a; b; c; d].
Proof.
  intros. unfold put_be32, u8. rewrite wd_sum, !Z.shiftr_div_pow2 by (done || lia). unfold is_u8 in *. repeat f_equal; lia.
Qed.

Lemma lxor_u8 a b : is_u8 a -> is_u8 b -> is_u8 (Z.lxor a b).
Proof.
  unfold is_u8. intros Ha Hb. assert (0 <= Z.lxor a b) by (apply Z.lxor_nonneg; lia). split; [done|].
  apply below_pow2; [lia|done|]. intros j Hj. by rewrite Z.lxor_spec, !(testbit_above 8) by lia.
Qed.

Lemma wd_bits a b c d i : is_u8 a -> is_u8 b -> is_u8 c -> is_u8 d -> 0 <= i -> Z.testbit (wd a b c d) i =
  if i <? 8 then Z.testbit d i else if i <? 16 then Z.testbit c (i - 8) else if i <? 24 then Z.testbit b (i - 16)
  else Z.testbit a (i - 24).
Proof.
  unfold is_u8. intros Ha Hb Hc Hd Hi. unfold wd. rewrite !Z.lor_spec, !Z.shiftl_spec by done.
  assert (L : forall x k, k < 0 -> Z.testbit x k = false) by (intros; by apply Z.testbit_neg_r).
  repeat case_bool; zbool;
    rewrite ?(L a), ?(L b), ?(L c) by lia; rewrite ?(testbit_above 8 d), ?(testbit_above 8 c), ?(testbit_above 8 b) by lia;
    rewrite ?orb_false_r; done.
Qed.

Lemma wd_lxor a b c d a' b' c' d' : is_u8 a -> is_u8 b -> is_u8 c -> is_u8 d -> is_u8 a' -> is_u8 b' -> is_u8 c' -> is_u8 d' ->
  Z.lxor (wd a b c d) (wd a' b' c' d') = wd (Z.lxor a a') (Z.lxor b b') (Z.lxor c c') (Z.lxor d d').
Proof.
  intros. apply Z.bits_inj'. intros i Hi. rewrite Z.lxor_spec, !wd_bits by (done || by apply lxor_u8).
  repeat case_bool; by rewrite Z.lxor_spec.
Qed.

(** ** Tables *)

Lemma sbox_table : SBOX = map sbox (seqZ 0 256).
Proof. vm_compute. reflexivity. Qed.

Lemma aget_map_seqZ (f : Z -> Z) x : is_u8 x -> aget (map f (seqZ 0 256)) x = f x.
Proof.
  unfold is_u8. intros Hx. unfold aget. apply list_lookup_total_correct. rewrite list_lookup_fmap, lookup_seqZ_lt by lia.
  cbn. f_equal. f_equal. lia.
Qed.

Lemma sbox_at x : is_u8 x -> aget SBOX x = sbox x.
Proof. intros Hx. rewrite sbox_table. by apply aget_map_seqZ. Qed.

Lemma SBOX_bytes : forallb byte_ok SBOX = true.
Proof. vm_compute. reflexivity. Qed.

Lemma sbox_u8 x : is_u8 x -> is_u8 (sbox x).
Proof.
  intros Hx. rewrite <- sbox_at by done. apply byte_at; [apply bytes_check, SBOX_bytes|]. exact Hx.
Qed.

(** the four tables, for the value [s] that the S-box gave *)
Definition te_words (s : Z) : Z * Z * Z * Z :=
  let s2 := gf8_mul 2 s in let s3 := gf8_mul 3 s in
  (wd s2 s s s3, wd s3 s2 s s, wd s s3 s2 s, wd s s s3 s2).

Lemma te_tables :
  Te0 build_tables = map (fun s => (te_words s).1.1.1) SBOX /\ Te1 build_tables = map (fun s => (te_words s).1.1.2) SBOX /\
  Te2 build_tables = map (fun s => (te_words s).1.2) SBOX /\ Te3 build_tables = map (fun s => (te_words s).2) SBOX.
Proof. repeat split; vm_compute; reflexivity. Qed.

Lemma aget_map_SBOX (f : Z -> Z) x : is_u8 x -> aget (map f SBOX) x = f (sbox x).
Proof. intros Hx. rewrite sbox_table. change (map f (map sbox (seqZ 0 256))) with (f <$> (sbox <$> seqZ 0 256)).
  rewrite <- list_fmap_compose. by apply (aget_map_seqZ (f ∘ sbox)). Qed.

Lemma mul23_bytes : forallb (fun s => byte_ok (gf8_mul 2 s) && byte_ok (gf8_mul 3 s)) (seqZ 0 256) = true.
Proof. vm_compute. reflexivity. Qed.

Lemma mul_u8 s : is_u8 s -> is_u8 (gf8_mul 2 s) /\ is_u8 (gf8_mul 3 s).
Proof.
  intros Hs. pose proof (forall_byte _ mul23_bytes s Hs) as H. unfold byte_ok in H. unfold is_u8. lia.
Qed.

(** one word of a table round is a column of MixColumns over the S-box, with the key word *)
Lemma table_word_column a b c d k0 k1 k2 k3 sa sb sc sd :
  is_u8 a -> is_u8 b -> is_u8 c -> is_u8 d -> is_u8 k0 -> is_u8 k1 -> is_u8 k2 -> is_u8 k3 ->
  Z.shiftr sa 24 = a -> Z.land (Z.shiftr sb 16) 0xff = b -> Z.land (Z.shiftr sc 8) 0xff = c -> Z.land sd 0xff = d ->
  table_word build_tables sa sb sc sd (wd k0 k1 k2 k3) =
  match zip_with Z.lxor (mix_column (sbox a) (sbox b) (sbox c) (sbox d)) [k0; k1; k2; k3] with
  | [e; f; g; h] => wd e f g h
  | _ => 0
  end.
Proof.
  intros Ha Hb Hc Hd K0 K1 K2 K3 Ea Eb Ec Ed. unfold table_word. rewrite Ea, Eb, Ec, Ed.
  destruct te_tables as (E0 & E1 & E2 & E3). rewrite E0, E1, E2, E3. clear E0 E1 E2 E3.
  rewrite !aget_map_SBOX by done. pose proof (sbox_u8 a Ha) as Sa. pose proof (sbox_u8 b Hb) as Sb.
  pose proof (sbox_u8 c Hc) as Sc. pose proof (sbox_u8 d Hd) as Sd.
  generalize dependent (sbox a). generalize dependent (sbox b). generalize dependent (sbox c). generalize dependent (sbox d).
  intros s3 S3 s2 S2 s1 S1 s0 S0. unfold te_words, mix_column. cbn [fst snd zip_with].
  pose proof (mul_u8 s0 S0) as []. pose proof (mul_u8 s1 S1) as []. pose proof (mul_u8 s2 S2) as []. pose proof (mul_u8 s3 S3) as [].
  rewrite !wd_lxor by (repeat apply lxor_u8; done). done.
Qed.

(** ** Rounds *)

Lemma mul2_u8 s : is_u8 s -> is_u8 (gf8_mul 2 s).
Proof. intros Hs. apply (mul_u8 s Hs). Qed.

Lemma mul3_u8 s : is_u8 s -> is_u8 (gf8_mul 3 s).
Proof. intros Hs. apply (mul_u8 s Hs). Qed.

Create HintDb u8.
#[export] Hint Resolve lxor_u8 sbox_u8 mul2_u8 mul3_u8 : u8.
#[export] Hint Opaque sbox gf8_mul is_u8 : u8.

Inductive st16 : list Z -> Prop :=
| St16 b0 b1 b2 b3 b4 b5 b6 b7 b8 b9 b10 b11 b12 b13 b14 b15 :
    is_u8 b0 -> is_u8 b1 -> is_u8 b2 -> is_u8 b3 -> is_u8 b4 -> is_u8 b5 -> is_u8 b6 -> is_u8 b7 -> is_u8 b8 ->
    is_u8 b9 -> is_u8 b10 -> is_u8 b11 -> is_u8 b12 -> is_u8 b13 -> is_u8 b14 -> is_u8 b15 ->
    st16 [b0; b1; b2; b3; b4; b5; b6; b7; b8; b9; b10; b11; b12; b13; b14; b15].

Inductive word4 : list Z -> Prop :=
| Word4 a b c d : is_u8 a -> is_u8 b -> is_u8 c -> is_u8 d -> word4 [a; b; c; d].

Lemma st16_of st : bytes st -> length st = 16%nat -> st16 st.
Proof.
  intros Hb Hl. do 16 (destruct st as [|? st]; [discriminate|]). destruct st; [|discriminate].
  unfold bytes in Hb. repeat match goal with H : Forall _ (_ :: _) |- _ => apply Forall_cons in H as [? H] end. by constructor.
Qed.

Lemma st16_bytes st : st16 st -> bytes st /\ length st = 16%nat.
Proof. intros []. split; [|done]. repeat (apply Forall_cons; split; [done|]). by apply Forall_nil. Qed.

Definition st_words (st : list Z) : Z * Z * Z * Z := (be32_at st 0, be32_at st 4, be32_at st 8, be32_at st 12).

(** the round keys of the code are the schedule of the reference *)
Definition keys_ok (rk : list Z) (w : list (list Z)) : Prop :=
  forall i, 0 <= i < 44 -> word4 (aget w i) /\ aget rk i = be32_at (aget w i) 0.

(** the four words of round key [r] *)
Lemma keys_at rk w r : keys_ok rk w -> 0 <= r <= 10 -> exists k0 k1 k2 k3,
  word4 k0 /\ word4 k1 /\ word4 k2 /\ word4 k3 /\
  aget w (4 * r) = k0 /\ aget w (4 * r + 1) = k1 /\ aget w (4 * r + 2) = k2 /\ aget w (4 * r + 3) = k3 /\
  aget rk (4 * r) = be32_at k0 0 /\ aget rk (4 * r + 1) = be32_at k1 0 /\ aget rk (4 * r + 2) = be32_at k2 0 /\
  aget rk (4 * r + 3) = be32_at k3 0.
Proof.
  intros Hk Hr. destruct (Hk (4 * r) ltac:(lia)). destruct (Hk (4 * r + 1) ltac:(lia)).
  destruct (Hk (4 * r + 2) ltac:(lia)). destruct (Hk (4 * r + 3) ltac:(lia)). exists (aget w (4 * r)), (aget w (4 * r + 1)), (aget w (4 * r + 2)), (aget w (4 * r + 3)). by split_and!.
Qed.

Lemma st_words_eq b0 b1 b2 b3 b4 b5 b6 b7 b8 b9 b10 b11 b12 b13 b14 b15 :
  st_words [b0; b1; b2; b3; b4; b5; b6; b7; b8; b9; b10; b11; b12; b13; b14; b15] =
  (wd b0 b1 b2 b3, wd b4 b5 b6 b7, wd b8 b9 b10 b11, wd b12 b13 b14 b15).
Proof. reflexivity. Qed.

Lemma st_words_inv b0 b1 b2 b3 b4 b5 b6 b7 b8 b9 b10 b11 b12 b13 b14 b15 :
  let st := [b0; b1; b2; b3; b4; b5; b6; b7; b8; b9; b10; b11; b12; b13; b14; b15] in
  be32_at st 0 = wd b0 b1 b2 b3 /\ be32_at st 4 = wd b4 b5 b6 b7 /\ be32_at st 8 = wd b8 b9 b10 b11 /\
  be32_at st 12 = wd b12 b13 b14 b15.
Proof. done. Qed.

Lemma add_key_ok rk w st r : st16 st -> keys_ok rk w -> 0 <= r <= 10 ->
  st16 (add_round_key w r st) /\
  st_words (add_round_key w r st) =
    (Z.lxor (be32_at st 0) (aget rk (4 * r)), Z.lxor (be32_at st 4) (aget rk (4 * r + 1)),
     Z.lxor (be32_at st 8) (aget rk (4 * r + 2)), Z.lxor (be32_at st 12) (aget rk (4 * r + 3))).
Proof.
  intros [b0 b1 b2 b3 b4 b5 b6 b7 b8 b9 b10 b11 b12 b13 b14 b15] Hk Hr.
  destruct (keys_at rk w r Hk Hr) as (k0 & k1 & k2 & k3 & K0 & K1 & K2 & K3 & E0 & E1 & E2 & E3 & -> & -> & -> & ->).
  unfold add_round_key. rewrite E0, E1, E2, E3. destruct K0 as [p0 p1 p2 p3], K1 as [p4 p5 p6 p7], K2 as [p8 p9 p10 p11], K3 as [p12 p13 p14 p15].
  split; [constructor; eauto with u8|]. unfold st_words.
  rewrite !be32_wd.
  destruct (st_words_inv b0 b1 b2 b3 b4 b5 b6 b7 b8 b9 b10 b11 b12 b13 b14 b15) as (-> & -> & -> & ->).
  rewrite !wd_lxor by done. reflexivity.
Qed.

(** SubBytes and ShiftRows, written out *)
Lemma sub_shift b0 b1 b2 b3 b4 b5 b6 b7 b8 b9 b10 b11 b12 b13 b14 b15 :
  shift_rows (sub_bytes [b0; b1; b2; b3; b4; b5; b6; b7; b8; b9; b10; b11; b12; b13; b14; b15]) =
  [sbox b0; sbox b5; sbox b10; sbox b15; sbox b4; sbox b9; sbox b14; sbox b3;
   sbox b8; sbox b13; sbox b2; sbox b7; sbox b12; sbox b1; sbox b6; sbox b11].
Proof. reflexivity. Qed.

Lemma sub_shift_ok st : st16 st -> st16 (shift_rows (sub_bytes st)).
Proof. intros []. rewrite sub_shift. constructor; eauto with u8. Qed.

Lemma mix_column_u8 a b c d : is_u8 a -> is_u8 b -> is_u8 c -> is_u8 d -> Forall is_u8 (mix_column a b c d).
Proof. intros. unfold mix_column. repeat (apply Forall_cons; split; [eauto 8 with u8|]). by apply Forall_nil. Qed.

Lemma mix_columns_eq b0 b1 b2 b3 b4 b5 b6 b7 b8 b9 b10 b11 b12 b13 b14 b15 :
  mix_columns [b0; b1; b2; b3; b4; b5; b6; b7; b8; b9; b10; b11; b12; b13; b14; b15] =
  mix_column b0 b1 b2 b3 ++ mix_column b4 b5 b6 b7 ++ mix_column b8 b9 b10 b11 ++ mix_column b12 b13 b14 b15.
Proof. reflexivity. Qed.

Lemma mix_columns_ok st : st16 st -> st16 (mix_columns st).
Proof.
  intros [b0 b1 b2 b3 b4 b5 b6 b7 b8 b9 b10 b11 b12 b13 b14 b15]. rewrite mix_columns_eq.
  apply st16_of; [|done]. unfold bytes. rewrite !Forall_app. split_and!; by apply mix_column_u8.
Qed.

Lemma aes_round_ok rk w st r : st16 st -> keys_ok rk w -> 0 <= r <= 10 ->
  st16 (aes_round w st r) /\ table_round build_tables rk (st_words st) r = st_words (aes_round w st r).
Proof.
  intros Hst Hk Hr. split; [apply (add_key_ok rk); [|done..]; by apply mix_columns_ok, sub_shift_ok|].
  destruct (keys_at rk w r Hk Hr) as (k0 & k1 & k2 & k3 & K0 & K1 & K2 & K3 & E0 & E1 & E2 & E3 & R0 & R1 & R2 & R3).
  unfold aes_round, add_round_key. rewrite E0, E1, E2, E3.
  destruct Hst as [b0 b1 b2 b3 b4 b5 b6 b7 b8 b9 b10 b11 b12 b13 b14 b15].
  destruct K0 as [p0 p1 p2 p3], K1 as [p4 p5 p6 p7], K2 as [p8 p9 p10 p11], K3 as [p12 p13 p14 p15].
  rewrite st_words_eq.
  unfold table_round. rewrite R0, R1, R2, R3.
  rewrite !be32_wd.
  destruct (wd_parts b0 b1 b2 b3) as (? & ? & ? & ?); [done..|]. destruct (wd_parts b4 b5 b6 b7) as (? & ? & ? & ?); [done..|].
  destruct (wd_parts b8 b9 b10 b11) as (? & ? & ? & ?); [done..|]. destruct (wd_parts b12 b13 b14 b15) as (? & ? & ? & ?); [done..|].
  rewrite (table_word_column b0 b5 b10 b15), (table_word_column b4 b9 b14 b3), (table_word_column b8 b13 b2 b7),
    (table_word_column b12 b1 b6 b11) by done.
  rewrite sub_shift, mix_columns_eq. unfold mix_column. cbn [app zip_with]. by rewrite st_words_eq.
Qed.

(** ** The key schedule *)

Lemma rot_wd a b c d : is_u8 a -> is_u8 b -> is_u8 c -> is_u8 d ->
  Z.lor (u32 (Z.shiftl (wd a b c d) 8)) (Z.shiftr (wd a b c d) 24) = wd b c d a.
Proof.
  intros Ha Hb Hc Hd. destruct (wd_parts a b c d Ha Hb Hc Hd) as (-> & _).
  rewrite !wd_sum, Z.shiftl_mul_pow2 by (done || lia). unfold is_u8, u32 in *. rewrite (lor_low 8) by lia. lia.
Qed.

Lemma sub_word_wd a b c d : is_u8 a -> is_u8 b -> is_u8 c -> is_u8 d ->
  sub_word (wd a b c d) = wd (sbox a) (sbox b) (sbox c) (sbox d).
Proof.
  intros. unfold sub_word. destruct (wd_parts a b c d) as (-> & -> & -> & ->); [done..|]. rewrite !sbox_at by done. unfold wd. exact eq_refl.
Qed.

Lemma rcon_check : forallb (fun i => (aget rcon (i - 1) =? rcon_byte i) && byte_ok (rcon_byte i)) (seqZ 1 10) = true.
Proof. vm_compute. reflexivity. Qed.

Lemma rcon_ok i : 1 <= i <= 10 -> aget rcon (i - 1) = rcon_byte i /\ is_u8 (rcon_byte i).
Proof.
  intros Hi. pose proof rcon_check as H. rewrite forallb_forall in H. specialize (H i).
  rewrite <- list_elem_of_In, elem_of_seqZ in H. specialize (H ltac:(lia)). unfold byte_ok in H. unfold is_u8. lia.
Qed.

Definition sched_ok (n : Z) (rk : list Z) (w : list (list Z)) : Prop :=
  zlen rk = 44 /\ zlen w = n /\ forall i, 0 <= i < n -> word4 (aget w i) /\ aget rk i = be32_at (aget w i) 0.

Lemma aes_expand_ok n rk w : sched_ok n rk w -> 4 <= n < 44 -> sched_ok (n + 1) (expand_step rk n) (next_word w).
Proof.
  intros (Hl & Hw & H) Hn. destruct (H (n - 1) ltac:(lia)) as [T1 T2]. destruct (H (n - 4) ltac:(lia)) as [F1 F2].
  unfold next_word, expand_step. rewrite Hw, T2, F2. set (t' := if n mod 4 =? 0 then zip_with _ _ _ else _).
  set (v := if n mod 4 =? 0 then _ else be32_at _ _).
  assert (Ht : word4 t' /\ v = be32_at t' 0).
  { unfold t', v. destruct T1 as [a b c d Ha Hb Hc Hd]. destruct (n mod 4 =? 0) eqn:E; zbool; [|split; [by constructor|done]].
    destruct (rcon_ok (n / 4) ltac:(lia)) as [-> Hr].
    change (zip_with _ _ _) with [Z.lxor (sbox b) (rcon_byte (n / 4)); Z.lxor (sbox c) 0; Z.lxor (sbox d) 0; Z.lxor (sbox a) 0].
    assert (is_u8 0) by done. split; [constructor; eauto with u8|].
    change (be32_at [a; b; c; d] 0) with (wd a b c d). rewrite rot_wd, sub_word_wd by done.
    assert (Z.shiftl (rcon_byte (n / 4)) 24 = wd (rcon_byte (n / 4)) 0 0 0) as ->.
    { unfold wd. rewrite !Z.shiftl_0_l, !Z.lor_0_r. done. }
    rewrite wd_lxor by eauto with u8. by rewrite be32_wd. }
  clearbody t' v. destruct Ht as [Ht ->]. clear T1 T2 F2. pose proof (zlen_nonneg w).
  split; [by rewrite zlen_aset|]. split; [rewrite zlen_app; change (zlen [_]) with 1; lia|]. intros i Hi.
  destruct (decide (i = n)) as [->|Hne].
  - rewrite aget_mid, aget_aset_eq by lia. destruct Ht as [a b c d], F1 as [a' b' c' d']. cbn [zip_with].
    split; [constructor; eauto with u8|].
    change (Z.lxor (wd a' b' c' d') (wd a b c d) = wd (Z.lxor a' a) (Z.lxor b' b) (Z.lxor c' c) (Z.lxor d' d)).
    by rewrite wd_lxor.
  - rewrite aget_aset_ne, aget_app by lia. case_bool; zbool; [|lia]. apply H. lia.
Qed.

Lemma aes128_init_ok rk key : zlen rk = 44 -> bytes key -> zlen key = 16 -> keys_ok (aes128_init rk key) (key_expansion key).
Proof.
  intros Hl Hk Hlk. unfold aes128_init. change (seqZ 0 4) with [0; 1; 2; 3]. cbn [foldl].
  set (rk4 := aset (aset (aset (aset _ _ _) _ _) _ _) _ _).
  assert (H4 : sched_ok 4 rk4 (map (fun i => slice key (4 * i) (4 * i + 4)) (seqZ 0 4))).
  { split; [unfold rk4; by rewrite !zlen_aset|]. split; [done|]. intros i Hi.
    destruct (st16_of key Hk) as [b0 b1 b2 b3 b4 b5 b6 b7 b8 b9 b10 b11 b12 b13 b14 b15]; [unfold zlen in Hlk; lia|].
    unfold rk4. assert (i = 0 \/ i = 1 \/ i = 2 \/ i = 3) as [-> | [-> | [-> | ->]]] by lia;
      (split; [by constructor|]; repeat first [rewrite aget_aset_eq by (rewrite ?zlen_aset; lia)|rewrite aget_aset_ne by lia]; done). }
  clearbody rk4.
  assert (H : forall n, (n <= 40)%nat -> sched_ok (4 + Z.of_nat n) (foldl expand_step rk4 (seqZ 4 (Z.of_nat n)))
    (Nat.iter n next_word (map (fun i => slice key (4 * i) (4 * i + 4)) (seqZ 0 4)))).
  { induction n as [|n IH]; intros Hn; [exact H4|]. rewrite seqZ_S, foldl_app, Nat.iter_succ.
    replace (4 + Z.of_nat (S n)) with (4 + Z.of_nat n + 1) by lia. apply aes_expand_ok; [apply IH; lia|lia]. }
  destruct (H 40%nat (le_n _)) as (_ & _ & Hall). exact Hall.
Qed.

(** ** The cipher *)

Lemma rounds_ok rk w : keys_ok rk w -> forall n st, (n <= 9)%nat -> st16 st ->
  st16 (foldl (aes_round w) st (seqZ 1 (Z.of_nat n))) /\
  foldl (table_round build_tables rk) (st_words st) (seqZ 1 (Z.of_nat n)) = st_words (foldl (aes_round w) st (seqZ 1 (Z.of_nat n))).
Proof.
  intros Hk n st Hn Hst. induction n as [|n IH]; [done|]. rewrite seqZ_S, !foldl_app. destruct (IH ltac:(lia)) as [H1 ->].
  apply (aes_round_ok rk w _ (1 + Z.of_nat n) H1 Hk). lia.
Qed.

Lemma FIN_bytes a b c d sa sb sc sd : is_u8 a -> is_u8 b -> is_u8 c -> is_u8 d ->
  Z.shiftr sa 24 = a -> Z.land (Z.shiftr sb 16) 0xff = b -> Z.land (Z.shiftr sc 8) 0xff = c -> Z.land sd 0xff = d ->
  FIN sa sb sc sd = wd (sbox a) (sbox b) (sbox c) (sbox d).
Proof. intros Ha Hb Hc Hd Ea Eb Ec Ed. unfold FIN. rewrite Ea, Eb, Ec, Ed. rewrite !sbox_at by done. unfold wd. exact eq_refl. Qed.

Lemma aes_final_ok rk w st : st16 st -> keys_ok rk w -> let '(s0, s1, s2, s3) := st_words st in
  put_be32 (Z.lxor (FIN s0 s1 s2 s3) (aget rk 40)) ++ put_be32 (Z.lxor (FIN s1 s2 s3 s0) (aget rk 41)) ++
  put_be32 (Z.lxor (FIN s2 s3 s0 s1) (aget rk 42)) ++ put_be32 (Z.lxor (FIN s3 s0 s1 s2) (aget rk 43)) =
  add_round_key w 10 (shift_rows (sub_bytes st)).
Proof.
  intros [b0 b1 b2 b3 b4 b5 b6 b7 b8 b9 b10 b11 b12 b13 b14 b15] Hk. rewrite st_words_eq, sub_shift.
  destruct (keys_at rk w 10 Hk ltac:(lia)) as (k0 & k1 & k2 & k3 & K0 & K1 & K2 & K3 & E0 & E1 & E2 & E3 & R0 & R1 & R2 & R3).
  unfold add_round_key. rewrite E0, E1, E2, E3. change (4 * 10) with 40 in *. change (40 + 1) with 41 in *.
  change (40 + 2) with 42 in *. change (40 + 3) with 43 in *. rewrite R0, R1, R2, R3.
  destruct K0 as [p0 p1 p2 p3], K1 as [p4 p5 p6 p7], K2 as [p8 p9 p10 p11], K3 as [p12 p13 p14 p15].
  rewrite !be32_wd.
  destruct (wd_parts b0 b1 b2 b3) as (? & ? & ? & ?); [done..|]. destruct (wd_parts b4 b5 b6 b7) as (? & ? & ? & ?); [done..|].
  destruct (wd_parts b8 b9 b10 b11) as (? & ? & ? & ?); [done..|]. destruct (wd_parts b12 b13 b14 b15) as (? & ? & ? & ?); [done..|].
  rewrite (FIN_bytes b0 b5 b10 b15), (FIN_bytes b4 b9 b14 b3), (FIN_bytes b8 b13 b2 b7), (FIN_bytes b12 b1 b6 b11) by done.
  rewrite !wd_lxor by eauto with u8. rewrite !put_wd by eauto with u8. reflexivity.
Qed.

Lemma aes_ok rk w st : st16 st -> keys_ok rk w -> st16 (aes_cipher w st) /\ aes128_encrypt rk st = aes_cipher w st.
Proof.
  intros Hst Hk. destruct (add_key_ok rk w st 0 Hst Hk ltac:(lia)) as [H0 E0].
  destruct (rounds_ok rk w Hk 9 _ ltac:(lia) H0) as [H9 E9]. split; [apply (add_key_ok rk); [by apply sub_shift_ok|done|lia]|].
  rewrite E0 in E9. change (4 * 0) with 0 in E9. change (0 + 1) with 1 in E9. change (0 + 2) with 2 in E9. change (0 + 3) with 3 in E9.
  unfold aes128_encrypt. change (Z.of_nat 9) with 9 in *. rewrite E9. pose proof (aes_final_ok rk w _ H9 Hk) as F.
  destruct (st_words _) as [[[s0 s1] s2] s3]. exact F.
Qed.

Lemma st16_zlen st : bytes st -> zlen st = 16 -> st16 st.
Proof. intros. apply st16_of; [done|]. unfold zlen in *. lia. Qed.

(** the AES-128 of the code is FIPS 197's: whatever the round keys held
    before, [aes128_encrypt] under the schedule of [aes128_init] is the
    cipher on sixteen bytes, with the S-box as the affine image of the
    inverse in the field of 256 elements and MixColumns as its matrix: the
    four tables and their rotations, the word rotations of the key schedule
    and the last round are all right. *)
Theorem aes128_fips197 (rk key block : list Z) :
  zlen rk = 44 -> bytes key -> zlen key = 16 -> bytes block -> zlen block = 16 ->
  aes128_encrypt (aes128_init rk key) block = aes_cipher (key_expansion key) block.
Proof.
  intros Hr Hk Hlk Hb Hlb. apply aes_ok; [by apply st16_zlen|by apply aes128_init_ok].
Qed.

Definition fips_block : list Z := map (fun i => i * 0x11) (seqZ 0 16).

(** FIPS 197, C.1, with a key schedule that held sevens *)
Lemma aes128_fips197_witness :
  aes128_encrypt (aes128_init (replicate 44 7) (seqZ 0 16)) fips_block =
    [0x69; 0xc4; 0xe0; 0xd8; 0x6a; 0x7b; 0x04; 0x30; 0xd8; 0xcd; 0xb7; 0x80; 0x70; 0xb4; 0xc5; 0x5a] /\
  aes128_encrypt (aes128_init (replicate 44 7) (seqZ 0 16)) fips_block =
    aes_cipher (key_expansion (seqZ 0 16)) fips_block.
Proof.
  split; [vm_compute; reflexivity|].
  exact (aes128_fips197 (replicate 44 7) (seqZ 0 16) fips_block eq_refl (bytes_check (seqZ 0 16) eq_refl) eq_refl (bytes_check fips_block eq_refl) eq_refl).
Defined.
