(* ===== verification/AeadProps.v ===== *)
(** * AES-128-GCM and ChaCha20-Poly1305 as their standards say

    What is sealed, for both ciphers, is the standard's composition of the
    parts: SP 800-38D with its multiplication in the field of [2 ^ 128]
    elements, RFC 8439 with [AeadPoly]'s reference. Opening undoes sealing
    and refuses every other tag. *)

From S2P Require Import Prelude Lit LeBytes Crc Aead AeadPoly AeadAes.

(** ** Key streams *)

(** [block c], [block (c + 1)], ... to the length of [buf], which it is added to *)
Definition stream_xor (block : Z -> list Z) (w c : Z) (buf : list Z) : list Z :=
  zip_with Z.lxor buf (mjoin (map (fun i => block (c + i)) (seqZ 0 (zlen buf / w + 1)))).

Lemma xor_first_at n b ks : 0 <= n -> zlen (xor_first n b ks) = zlen b /\
  forall i, 0 <= i < zlen b -> aget (xor_first n b ks) i = if i <? n then Z.lxor (aget b i) (aget ks i) else aget b i.
Proof.
  intros Hn. rewrite <- (Z2Nat.id n Hn). induction (Z.to_nat n) as [|k [IHl IH]].
  - split; [done|]. intros i Hi. case_bool; zbool; [lia|done].
  - unfold xor_first in *. rewrite seqZ_S, foldl_app. cbn [foldl]. split; [by rewrite zlen_aset|]. intros i Hi. rewrite Z.add_0_l.
    destruct (decide (i = Z.of_nat k)) as [->|Hne].
    + rewrite aget_aset_eq, IH by lia. rewrite Z.ltb_irrefl. case_bool; zbool; [done|lia].
    + rewrite aget_aset_ne, IH by lia. repeat case_bool; zbool; lia || done.
Qed.

Lemma aget_zip (a b : list Z) i : 0 <= i < zlen a -> zlen a <= zlen b -> aget (zip_with Z.lxor a b) i = Z.lxor (aget a i) (aget b i).
Proof.
  intros Hi Hl. unfold aget, zlen in *. apply list_lookup_total_correct. apply lookup_zip_with_Some.
  eexists _, _. split; [done|]. split; apply list_lookup_lookup_total_lt; lia.
Qed.

Lemma zlen_zip (a b : list Z) : zlen a <= zlen b -> zlen (zip_with Z.lxor a b) = zlen a.
Proof. unfold zlen. intros. rewrite length_zip_with. lia. Qed.

Lemma xor_first_take n b ks : 0 <= n <= zlen b -> n <= zlen ks ->
  take (Z.to_nat n) (xor_first n b ks) = zip_with Z.lxor (take (Z.to_nat n) b) (take (Z.to_nat n) ks) /\
  drop (Z.to_nat n) (xor_first n b ks) = drop (Z.to_nat n) b.
Proof.
  intros Hn Hk. destruct (xor_first_at n b ks ltac:(lia)) as [Hl H]. split; apply zlist_ext.
  - rewrite zlen_take, zlen_zip by (rewrite ?zlen_take; lia). rewrite zlen_take; lia.
  - intros i Hi. rewrite zlen_take in Hi by lia. rewrite aget_zip, !aget_take, H by (rewrite ?zlen_take; lia).
    case_bool; zbool; lia || done.
  - rewrite !zlen_drop; lia.
  - intros i Hi. rewrite zlen_drop in Hi by lia. rewrite !aget_drop, H by lia. case_bool; zbool; lia || done.
Qed.

Lemma zip_app_ge (a b c : list Z) : (length a <= length b)%nat -> zip_with Z.lxor a (b ++ c) = zip_with Z.lxor a b.
Proof.
  revert b. induction a as [|x a IH]; intros [|y b] Hl; [done..|cbn in Hl; lia|]. cbn [zip_with app]. f_equal. apply IH. cbn in Hl. lia.
Qed.

Lemma zip_bytes a : forall b, bytes a -> bytes b -> bytes (zip_with Z.lxor a b).
Proof.
  induction a as [|x a IH]; intros [|y b] Ha Hb; try by apply Forall_nil.
  apply Forall_cons in Ha as [? ?]. apply Forall_cons in Hb as [? ?]. apply Forall_cons. split; [by apply lxor_u8|by apply IH].
Qed.

Lemma bytes_join l : Forall bytes l -> bytes (mjoin l).
Proof. induction 1; [by apply Forall_nil|]. by apply bytes_app. Qed.

Section Stream.
Variable block : Z -> list Z.
Variable w : Z.
Hypothesis w_pos : 0 < w.
Hypothesis block_len : forall c, zlen (block c) = w.

Lemma seqZ_shift (f : Z -> list Z) k : 0 < k -> map f (seqZ 0 k) = f 0 :: map (fun i => f (1 + i)) (seqZ 0 (k - 1)).
Proof.
  intros Hk. rewrite seqZ_cons by done. cbn [map]. f_equal.
  change (Z.succ 0) with (1 + 0). rewrite <- (fmap_add_seqZ 1 0). by rewrite <- (map_map (Z.add 1) f).
Qed.

(** the loop, as long as the counter does not wrap around *)
Lemma ctr_loop_stream fuel : forall c buf, (length buf <= fuel)%nat -> 0 <= c -> c + zlen buf / w < 2 ^ 32 - 1 ->
  ctr_loop block w fuel c buf = stream_xor block w c buf.
Proof.
  induction fuel as [|fuel IH]; intros c buf Hf Hc Hw.
  - destruct buf; [done|cbn in Hf; lia].
  - cbn [ctr_loop]. destruct (zlen buf =? 0) eqn:E0; zbool; [by destruct buf|]. pose proof (zlen_nonneg buf).
    set (n := if zlen buf <? w then zlen buf else w).
    assert (Hn : 0 < n <= zlen buf /\ n <= w /\ (n = zlen buf \/ n = w)) by (unfold n; case_bool; zbool; lia). clearbody n.
    destruct (xor_first_take n buf (block c)) as [-> ->]; [lia|rewrite block_len; lia|].
    assert (Hq : 0 <= zlen buf / w) by (apply Z.div_pos; lia).
    unfold stream_xor at 1. rewrite (seqZ_shift (fun i => block (c + i))), Z.add_0_r by lia.
    change (mjoin (block c :: ?l)) with (block c ++ mjoin l).
    destruct (decide (n < w)).
    + assert (n = zlen buf) as -> by lia. rewrite zip_app_ge by (pose proof (block_len c); unfold zlen in *; lia).
      rewrite drop_ge, (take_ge buf) by (unfold zlen; lia). replace (ctr_loop _ _ _ _ []) with (@nil Z) by (by destruct fuel). rewrite app_nil_r.
      rewrite <- (zip_app_ge buf (take _ (block c)) (drop (Z.to_nat (zlen buf)) (block c))), take_drop; [done|].
      rewrite length_take. pose proof (block_len c). unfold zlen in *. lia.
    + assert (n = w) as -> by lia. rewrite (take_ge (block c)) by (pose proof (block_len c); unfold zlen in *; lia).
      assert (Hsub : zlen (drop (Z.to_nat w) buf) / w = zlen buf / w - 1).
      { rewrite zlen_drop by lia. replace (Z.max 0 (zlen buf - w)) with (zlen buf + (-1) * w) by lia. rewrite Z.div_add by lia. lia. }
      unfold u32. rewrite (Z.mod_small (c + 1)) by lia.
      rewrite IH; [|rewrite length_drop; unfold zlen in *; lia|lia|rewrite Hsub; lia].
      unfold stream_xor. rewrite Hsub. replace (zlen buf / w - 1 + 1) with (zlen buf / w + 1 - 1) by lia.
      rewrite <- (take_drop (Z.to_nat w) buf) at 4. rewrite zip_with_app by (rewrite length_take; pose proof (block_len c); unfold zlen in *; lia).
      do 3 f_equal. apply map_ext. intros i. f_equal. lia.
Qed.

Lemma stream_len k c : 0 <= k -> zlen (mjoin (map (fun i => block (c + i)) (seqZ 0 k))) = w * k.
Proof.
  intros Hk. rewrite <- (Z2Nat.id k Hk). induction (Z.to_nat k) as [|j IH]; [change (zlen (mjoin (map _ (seqZ 0 (Z.of_nat 0))))) with 0; lia|].
  rewrite seqZ_S, map_app, join_app, zlen_app, IH. change (mjoin (map _ [_])) with (block (c + (0 + Z.of_nat j)) ++ []).
  rewrite app_nil_r, block_len. lia.
Qed.

Lemma zlen_stream_xor c buf : zlen (stream_xor block w c buf) = zlen buf.
Proof.
  pose proof (zlen_nonneg buf). assert (0 <= zlen buf / w) by (apply Z.div_pos; lia). unfold stream_xor. apply zlen_zip. rewrite stream_len by lia.
  pose proof (Z.mod_pos_bound (zlen buf) w w_pos). pose proof (Z.div_mod (zlen buf) w). lia.
Qed.

Lemma stream_twice c buf : stream_xor block w c (stream_xor block w c buf) = buf.
Proof.
  unfold stream_xor at 1. rewrite zlen_stream_xor. unfold stream_xor.
  pose proof (zlen_nonneg buf). assert (0 <= zlen buf / w) by (apply Z.div_pos; lia).
  pose proof (stream_len (zlen buf / w + 1) c ltac:(lia)) as Hl.
  set (ks := mjoin _) in *. assert (Hks : zlen buf <= zlen ks).
  { rewrite Hl. pose proof (Z.mod_pos_bound (zlen buf) w w_pos). pose proof (Z.div_mod (zlen buf) w). lia. }
  apply zlist_ext; rewrite !zlen_zip by (rewrite ?zlen_zip; lia); [done|]. intros i Hi.
  rewrite !aget_zip by (rewrite ?zlen_zip; lia). by rewrite Z.lxor_assoc, Z.lxor_nilpotent, Z.lxor_0_r.
Qed.

Lemma stream_bytes c buf : (forall i, bytes (block i)) -> bytes buf -> bytes (stream_xor block w c buf).
Proof.
  intros Hb Hbuf. apply zip_bytes; [done|]. apply bytes_join, Forall_fmap, Forall_forall. intros. apply Hb.
Qed.
End Stream.

Lemma chacha_block_shape key c nonce : zlen (chacha20_block key c nonce) = 64 /\ bytes (chacha20_block key c nonce).
Proof.
  unfold chacha20_block. set (x := Nat.iter 10 double_round _). clearbody x. set (s := chacha_state key c nonce). clearbody s.
  change (seqZ 0 16) with [0; 1; 2; 3; 4; 5; 6; 7; 8; 9; 10; 11; 12; 13; 14; 15]. split; [reflexivity|].
  cbn [map mjoin list_join]. unfold bytes. rewrite !Forall_app. split_and!; try apply bytes_le32. by apply Forall_nil.
Qed.

Definition pad16 (p : list Z) : list Z := p ++ replicate (Z.to_nat ((16 - zlen p mod 16) mod 16)) 0.

(** RFC 8439, 2.8: the key stream from block 1, and Poly1305 under block 0
    of the padded data, the padded ciphertext and the two lengths *)
Definition cc_seal_ref (key nonce aad p : list Z) : list Z * list Z :=
  let c := stream_xor (fun i => chacha20_block key i nonce) 64 1 p in
  (c, poly1305_ref (pad16 aad ++ pad16 c ++ le_bytes 8 (zlen aad) ++ le_bytes 8 (zlen c)) (chacha20_block key 0 nonce)).

Lemma chacha_xor_stream key c nonce buf : 0 <= c <= 1 -> zlen buf < 2 ^ 32 ->
  chacha20_xor key c nonce buf = stream_xor (fun i => chacha20_block key i nonce) 64 c buf.
Proof.
  intros Hc Hl. apply ctr_loop_stream; [done|intros; apply chacha_block_shape|done|lia|]. pose proof (zlen_nonneg buf). lia.
Qed.

(** the zeros that fill the last block are the reference's padding *)
Lemma poly_zeros_fed key msg p d : bytes key -> bytes msg -> bytes d -> poly_fed key msg p ->
  poly_fed key (msg ++ pad16 d) (poly_zeros (poly_update p d) (zlen d)).
Proof.
  intros Hk Hm Hd Hp. pose proof (poly_fed_update key msg p d Hk Hd Hp) as Hu. pose proof (zlen_nonneg d).
  unfold poly_zeros, pad16. destruct (zlen d mod 16 =? 0) eqn:E; zbool; cbn [negb].
  - rewrite E. change (Z.to_nat ((16 - 0) mod 16)) with 0%nat. by rewrite app_nil_r.
  - rewrite app_assoc. replace ((16 - zlen d mod 16) mod 16) with (16 - zlen d mod 16) by lia.
    apply poly_fed_update; [done|by apply Forall_replicate|done].
Qed.

Lemma put4_lens a b : is_u32 a -> is_u32 b ->
  put4 (put4 (replicate 16 0) 0 (le32 a)) 8 (le32 b) = le_bytes 8 a ++ le_bytes 8 b.
Proof.
  intros Ha Hb. assert (E : forall v, is_u32 v -> le_bytes 8 v = le32 v ++ [0; 0; 0; 0]).
  { intros v Hv. unfold le_bytes. cbn [seq map]. unfold le32. unfold is_u32 in Hv.
    assert (Z0 : forall k, 32 <= k -> u8 (Z.shiftr v k) = 0).
    { intros k Hk. rewrite Z.shiftr_div_pow2 by lia. rewrite Z.div_small; [done|]. split; [lia|].
      apply Z.lt_le_trans with (2 ^ 32); [lia|]. apply Z.pow_le_mono_r; lia. }
    change (8 * Z.of_nat 0) with 0. change (8 * Z.of_nat 1) with 8. change (8 * Z.of_nat 2) with 16. change (8 * Z.of_nat 3) with 24.
    change (8 * Z.of_nat 4) with 32. change (8 * Z.of_nat 5) with 40. change (8 * Z.of_nat 6) with 48. change (8 * Z.of_nat 7) with 56.
    rewrite Z.shiftr_0_r, (Z0 32), (Z0 40), (Z0 48), (Z0 56) by lia. done. }
  rewrite !E by done. reflexivity.
Qed.

Lemma cc_tag_ref key nonce aad ct : bytes aad -> bytes ct -> zlen aad < 2 ^ 32 -> zlen ct < 2 ^ 32 ->
  cc_tag key nonce aad ct =
  poly1305_ref (pad16 aad ++ pad16 ct ++ le_bytes 8 (zlen aad) ++ le_bytes 8 (zlen ct)) (chacha20_block key 0 nonce).
Proof.
  intros Ha Hc Hla Hlc. destruct (chacha_block_shape key 0 nonce) as [Hl Hb]. unfold cc_tag.
  set (block := chacha20_block key 0 nonce) in *. clearbody block.
  pose proof (zlen_nonneg aad). pose proof (zlen_nonneg ct).
  assert (Hpad : forall d, bytes d -> bytes (pad16 d)).
  { intros d Hd. apply bytes_app. split; [done|]. by apply Forall_replicate. }
  rewrite put4_lens by (unfold is_u32; lia). apply poly_fed_finish; [done|]. rewrite app_assoc.
  apply poly_fed_update; [done| |].
  - apply bytes_app. split; (apply Forall_fmap, Forall_forall; intros; apply u8_bound).
  - apply poly_zeros_fed; [done|by apply Hpad|done|]. apply (poly_zeros_fed block []); [done|by apply Forall_nil|done|].
    apply poly_fed_init; [done|lia].
Qed.

(** ** Comparing tags *)

Lemma ct_memcmp_zero x y n : 0 <= n -> ct_memcmp x y n = 0 <-> (forall i, 0 <= i < n -> aget x i = aget y i).
Proof.
  intros Hn. rewrite <- (Z2Nat.id n Hn). unfold ct_memcmp. induction (Z.to_nat n) as [|k IH].
  - split; [intros _ i Hi; lia|done].
  - rewrite seqZ_S, foldl_app. cbn [foldl]. rewrite Z.lor_eq_0_iff, IH, Z.lxor_eq_0_iff, Z.add_0_l. split.
    + intros [H E] i Hi. destruct (decide (i = Z.of_nat k)) as [->|]; [done|]. apply H. lia.
    + intros H. split; [intros; apply H; lia|]. apply H. lia.
Qed.

Lemma ct_memcmp_tags x y : zlen x = 16 -> zlen y = 16 -> ct_memcmp x y 16 = 0 <-> x = y.
Proof.
  intros Hx Hy. rewrite ct_memcmp_zero by done. split; [|by intros ->]. intros H. apply zlist_ext; [lia|]. intros. apply H. lia.
Qed.

(** ** The field of [2 ^ 128] elements *)

(** SP 800-38D, 6.3: the bit for [x ^ i] is bit [127 - i]; multiplying by [x] shifts right *)
Definition R128 : Z := Z.shiftl 0xe1 120.
Definition gf_x (v : Z) : Z := if Z.testbit v 0 then Z.lxor (Z.shiftr v 1) R128 else Z.shiftr v 1.

(** the [n] low bits of [x], the highest first; [v] is doubled at each *)
Fixpoint gf_loop (n : nat) (x z v : Z) : Z :=
  match n with
  | O => z
  | S n => gf_loop n x (if Z.testbit x (Z.of_nat n) then Z.lxor z v else z) (gf_x v)
  end.
Definition gf_mul (x y : Z) : Z := gf_loop 128 x 0 y.

Lemma gf_x_shift v : gf_x v = crc_shift R128 v.
Proof. unfold gf_x, crc_shift. by rewrite shift_bit. Qed.

Lemma gf_x_lxor a b : gf_x (Z.lxor a b) = Z.lxor (gf_x a) (gf_x b).
Proof. rewrite !gf_x_shift. apply shift_lxor. Qed.

Definition gf_x4 (v : Z) : Z := gf_x (gf_x (gf_x (gf_x v))).

Lemma gf_x4_shifts v : gf_x4 v = shifts R128 4 v.
Proof. unfold gf_x4. by rewrite !gf_x_shift. Qed.

(** by Horner's rule, from the lowest bit *)
Fixpoint horner (n : nat) (x v : Z) : Z :=
  match n with
  | O => 0
  | S n => Z.lxor (if Z.testbit x (Z.of_nat n) then v else 0) (gf_x (horner n x v))
  end.

Lemma horner_x n x v : horner n x (gf_x v) = gf_x (horner n x v).
Proof.
  induction n as [|n IH]; [done|]. cbn [horner]. rewrite IH, !gf_x_lxor. by destruct (Z.testbit x _).
Qed.

Lemma gf_loop_horner n : forall x z v, gf_loop n x z v = Z.lxor z (horner n x v).
Proof.
  induction n as [|n IH]; intros x z v; cbn [gf_loop horner]; [by rewrite Z.lxor_0_r|]. rewrite IH, horner_x.
  destruct (Z.testbit x _); by rewrite ?Z.lxor_0_l, ?Z.lxor_assoc.
Qed.

Lemma gf_mul_horner x y : gf_mul x y = horner 128 x y.
Proof. unfold gf_mul. by rewrite gf_loop_horner, Z.lxor_0_l. Qed.

(** the multiple of [v] by a polynomial of four bits: an entry of the table *)
Definition nib (v n : Z) : Z :=
  Z.lxor (if Z.testbit n 3 then v else 0) (Z.lxor (if Z.testbit n 2 then gf_x v else 0)
    (Z.lxor (if Z.testbit n 1 then gf_x (gf_x v) else 0) (if Z.testbit n 0 then gf_x (gf_x (gf_x v)) else 0))).

Lemma horner_nib n x v : horner (4 + n) x v = Z.lxor (nib v (Z.shiftr x (Z.of_nat n) mod 2 ^ 4)) (gf_x4 (horner n x v)).
Proof.
  cbn [horner Nat.add]. unfold nib. rewrite !Z.mod_pow2_bits_low, !Z.shiftr_spec by lia. rewrite !gf_x_lxor.
  replace (3 + Z.of_nat n) with (Z.of_nat (S (S (S n)))) by lia. replace (2 + Z.of_nat n) with (Z.of_nat (S (S n))) by lia.
  replace (1 + Z.of_nat n) with (Z.of_nat (S n)) by lia. rewrite Z.add_0_l.
  assert (E : forall (b : bool) u, gf_x (if b then u else 0) = if b then gf_x u else 0) by (by intros []).
  rewrite !E. by rewrite !Z.lxor_assoc.
Qed.

(** four places at once: what is shifted out comes back as an entry of [LAST4] *)
Lemma last4_check : forallb (fun r => gf_x4 r =? Z.shiftl (aget LAST4 r) 112) (seqZ 0 16) = true.
Proof. vm_compute. reflexivity. Qed.

Lemma gf_x4_table v : 0 <= v -> gf_x4 v = Z.lxor (Z.shiftr v 4) (Z.shiftl (aget LAST4 (v mod 2 ^ 4)) 112).
Proof.
  intros Hv. assert (E : v = Z.lxor (v mod 2 ^ 4) (Z.shiftl (Z.shiftr v 4) 4)).
  { rewrite Z.lxor_lor, Z.lor_comm, (lor_low 4); rewrite ?Z.shiftl_mul_pow2, ?Z.shiftr_div_pow2 by lia; [lia|lia..|].
    apply Z.bits_inj_0. intros i. destruct (decide (0 <= i)); [|by rewrite Z.testbit_neg_r by lia].
    rewrite Z.land_spec. destruct (decide (i < 4)); [rewrite Z.mul_pow2_bits_low by lia; apply andb_false_r|].
    by rewrite Z.mod_pow2_bits_high by lia. }
  rewrite E at 1. rewrite gf_x4_shifts, shifts_lxor, <- !gf_x4_shifts, Z.lxor_comm. f_equal.
  - rewrite gf_x4_shifts. exact (shifts_high R128 4 (Z.shiftr v 4)).
  - pose proof last4_check as H. rewrite forallb_forall in H. specialize (H (v mod 2 ^ 4)).
    rewrite <- list_elem_of_In, elem_of_seqZ in H. specialize (H ltac:(lia)). zbool. exact H.
Qed.

(** ** Pairs of 64-bit words *)

Definition pv (z : Z * Z) : Z := z.1 * 2 ^ 64 + z.2.
Definition pair64 (z : Z * Z) : Prop := is_u64 z.1 /\ is_u64 z.2.

Lemma pv_bits z i : pair64 z -> 0 <= i ->
  Z.testbit (pv z) i = if i <? 64 then Z.testbit z.2 i else Z.testbit z.1 (i - 64).
Proof.
  destruct z as [zh zl]. intros [Hh Hl] Hi. unfold is_u64 in *. unfold pv. cbn [fst snd] in *.
  rewrite <- (lor_low 64 (zh * 2 ^ 64) zl) by lia. rewrite Z.lor_spec. case_bool; zbool.
  - rewrite Z.mul_pow2_bits_low by lia. done.
  - rewrite Z.mul_pow2_bits by lia. rewrite (testbit_above 64 zl) by lia. apply orb_false_r.
Qed.

Lemma pv_nonneg z : pair64 z -> 0 <= pv z < 2 ^ 128.
Proof. destruct z as [zh zl]. intros [Hh Hl]. unfold is_u64, pv in *. cbn [fst snd] in *. lia. Qed.

Lemma lxor_u64 a b : is_u64 a -> is_u64 b -> is_u64 (Z.lxor a b).
Proof.
  unfold is_u64. intros Ha Hb. assert (0 <= Z.lxor a b) by (apply Z.lxor_nonneg; lia). split; [done|].
  apply below_pow2; [lia|done|]. intros j Hj. by rewrite Z.lxor_spec, !(testbit_above 64) by lia.
Qed.

Definition pxor (y z : Z * Z) : Z * Z := (Z.lxor y.1 z.1, Z.lxor y.2 z.2).

Lemma pxor_spec y z : pair64 y -> pair64 z -> pair64 (pxor y z) /\ pv (pxor y z) = Z.lxor (pv y) (pv z).
Proof.
  intros Hy Hz. assert (Hp : pair64 (pxor y z)) by (destruct Hy, Hz; split; by apply lxor_u64). split; [done|].
  apply Z.bits_inj'. intros i Hi. rewrite Z.lxor_spec, !pv_bits by done. case_bool; cbn [pxor fst snd]; by rewrite Z.lxor_spec.
Qed.

(** a right shift across the two words *)
Definition pshift (k : Z) (z : Z * Z) : Z * Z := (Z.shiftr z.1 k, Z.lor (u64 (Z.shiftl z.1 (64 - k))) (Z.shiftr z.2 k)).

Lemma pshift_spec k z : 0 < k < 64 -> pair64 z -> pair64 (pshift k z) /\ pv (pshift k z) = Z.shiftr (pv z) k.
Proof.
  intros Hk Hz. pose proof Hz as [Hh Hl]. destruct z as [zh zl]. unfold is_u64 in Hh, Hl. cbn [fst snd] in *.
  assert (Hsh : forall x, 0 <= x < 2 ^ 64 -> 0 <= Z.shiftr x k < 2 ^ 64).
  { intros x Hx. rewrite Z.shiftr_div_pow2 by lia. pose proof (Z.div_pos x (2 ^ k)). 
    assert (x / 2 ^ k <= x) by (apply Z.div_le_upper_bound; nia). lia. }
  assert (Hlow : is_u64 (Z.lor (u64 (Z.shiftl zh (64 - k))) (Z.shiftr zl k))).
  { assert (0 <= Z.lor (u64 (Z.shiftl zh (64 - k))) (Z.shiftr zl k)) as H0.
    { apply Z.lor_nonneg. split; [unfold u64; lia|]. apply (Hsh zl). lia. }
    split; [done|]. apply below_pow2; [lia|done|]. intros j Hj. rewrite Z.lor_spec. unfold u64.
    rewrite Z.mod_pow2_bits_high by lia. rewrite (testbit_above 64 (Z.shiftr zl k)) by (split_and?; try lia; apply Hsh; lia). done. }
  assert (Hp : pair64 (pshift k (zh, zl))) by (split; [exact (Hsh zh Hh)|exact Hlow]). split; [done|].
  apply Z.bits_inj'. intros i Hi. rewrite Z.shiftr_spec, !pv_bits by (done || lia). cbn [pshift fst snd].
  destruct (i <? 64) eqn:E; zbool.
  - rewrite Z.lor_spec. unfold u64. rewrite Z.mod_pow2_bits_low, Z.shiftl_spec, Z.shiftr_spec by lia. case_bool; zbool.
    + rewrite (Z.testbit_neg_r zh) by lia. done.
    + rewrite (testbit_above 64 zl) by lia. rewrite orb_false_r. f_equal. lia.
  - rewrite Z.shiftr_spec by lia. case_bool; zbool; [lia|]. f_equal. lia.
Qed.

(** a word put into the top *)
Lemma ptop_spec x k : 0 <= k <= 64 -> 0 <= x < 2 ^ (64 - k) ->
  pair64 (Z.shiftl x k, 0) /\ pv (Z.shiftl x k, 0) = Z.shiftl x (64 + k).
Proof.
  intros Hk Hx. unfold pair64, is_u64, pv. cbn [fst snd]. rewrite !Z.shiftl_mul_pow2, Z.pow_add_r by lia.
  assert (E : 2 ^ 64 = 2 ^ (64 - k) * 2 ^ k) by (rewrite <- Z.pow_add_r by lia; f_equal; lia).
  assert (0 < 2 ^ k) by (apply Z.pow_pos_nonneg; lia). split; [|lia]. split; [|lia]. rewrite E. nia.
Qed.

Definition entry (g : aes_gcm) (n : Z) : Z * Z := (aget (htab_hi g) n, aget (htab_lo g) n).

(** what [aes_gcm_init] makes for the hash key [h] *)
Definition htab_ok (g : aes_gcm) (h : Z) : Prop :=
  forall n, 0 <= n < 16 -> pair64 (entry g n) /\ pv (entry g n) = nib h n.

Lemma LAST4_small : forallb (fun r => (0 <=? aget LAST4 r) && (aget LAST4 r <? 2 ^ 16)) (seqZ 0 16) = true.
Proof. vm_compute. reflexivity. Qed.

Lemma gf_shift4_spec g h n z : htab_ok g h -> 0 <= n < 16 -> pair64 z ->
  pair64 (gf_shift4 g n z) /\ pv (gf_shift4 g n z) = Z.lxor (nib h n) (gf_x4 (pv z)).
Proof.
  intros Hg Hn Hz. destruct (Hg n Hn) as [He Hpe]. destruct (pshift_spec 4 z ltac:(lia) Hz) as [Hs Hps].
  assert (Hrem : Z.land z.2 0xf = pv z mod 2 ^ 4).
  { change 0xf with (Z.ones 4). rewrite Z.land_ones by lia. unfold pv. lia. }
  pose proof LAST4_small as HL. rewrite forallb_forall in HL. specialize (HL (pv z mod 2 ^ 4)).
  rewrite <- list_elem_of_In, elem_of_seqZ in HL. specialize (HL ltac:(lia)). apply andb_prop in HL as [HL1 HL2]. zbool.
  set (last := aget LAST4 (pv z mod 2 ^ 4)) in *.
  destruct (ptop_spec last 48 ltac:(lia) ltac:(lia)) as [Ht Hpt].
  assert (E : gf_shift4 g n z = pxor (pxor (pshift 4 z) (Z.shiftl last 48, 0)) (entry g n)).
  { unfold last. destruct z as [zh zl]. cbn [snd] in Hrem. unfold gf_shift4, pxor, pshift, entry. rewrite Hrem. cbn [fst snd].
    rewrite Z.lxor_0_r. done. }
  rewrite E. destruct (pxor_spec _ _ Hs Ht) as [H1 P1]. destruct (pxor_spec _ _ H1 He) as [H2 P2]. split; [done|].
  rewrite P2, P1, Hps, Hpt, Hpe, gf_x4_table by apply pv_nonneg, Hz. fold last. by rewrite Z.lxor_comm.
Qed.

(** ** The table *)

(** sixteen cases *)
Lemma below_16 (P : Z -> Prop) : Forall P (map Z.of_nat (seq 0 16)) -> forall i, 0 <= i < 16 -> P i.
Proof.
  intros H i Hi. rewrite Forall_forall in H. apply H. apply list_elem_of_fmap. exists (Z.to_nat i).
  split; [lia|]. apply elem_of_seq. lia.
Qed.

Definition phalf (z : Z * Z) : Z * Z :=
  let t := u32 (u32 (Z.land z.2 1) * 0xe1000000) in
  (Z.lxor (Z.shiftr z.1 1) (Z.shiftl t 32), Z.lor (u64 (Z.shiftl z.1 63)) (Z.shiftr z.2 1)).

Lemma phalf_spec z : pair64 z -> pair64 (phalf z) /\ pv (phalf z) = gf_x (pv z).
Proof.
  intros Hz. destruct (pshift_spec 1 z ltac:(lia) Hz) as [Hs Hps].
  assert (Hb : Z.testbit (pv z) 0 = Z.odd z.2) by (rewrite pv_bits by done; apply Z.bit0_odd).
  set (t := if Z.testbit (pv z) 0 then 0xe1000000 else 0).
  assert (Ht : u32 (u32 (Z.land z.2 1) * 0xe1000000) = t).
  { unfold t. rewrite Hb. change 1 with (Z.ones 1). rewrite Z.land_ones, Zmod_odd by lia. by destruct (Z.odd _). }
  destruct (ptop_spec t 32 ltac:(lia) ltac:(unfold t; destruct (Z.testbit _ _); lia)) as [Hp Hpt].
  assert (E : phalf z = pxor (pshift 1 z) (Z.shiftl t 32, 0)).
  { unfold phalf, pxor, pshift. rewrite Ht. cbn [fst snd]. by rewrite Z.lxor_0_r. }
  rewrite E. destruct (pxor_spec _ _ Hs Hp) as [H1 P1]. split; [done|]. rewrite P1, Hps, Hpt. unfold gf_x, t.
  destruct (Z.testbit (pv z) 0); [done|]. rewrite Z.shiftl_0_l. apply Z.lxor_0_r.
Qed.

(** the sixteen entries after the stores, from the four that were computed *)
Definition sums (a b c d : Z) : list Z :=
  let ab := Z.lxor a b in let e3 := Z.lxor c d in let e5 := Z.lxor b d in let e6 := Z.lxor b c in let e7 := Z.lxor b e3 in
  [0; d; c; e3; b; e5; e6; e7; a; Z.lxor a d; Z.lxor a c; Z.lxor a e3; ab; Z.lxor a e5; Z.lxor a e6; Z.lxor a e7].

Lemma sums_fill rk hi lo z : length hi = 16%nat -> length lo = 16%nat ->
  (let '(_, _, g) := foldl htab_halve (z.1, z.2, htab_put (htab_put (Aes_gcm rk hi lo) 8 z.1 z.2) 0 0 0) [4; 2; 1] in
   foldl htab_sums g [2; 4; 8]) =
  Aes_gcm rk (sums z.1 (phalf z).1 (phalf (phalf z)).1 (phalf (phalf (phalf z))).1)
    (sums z.2 (phalf z).2 (phalf (phalf z)).2 (phalf (phalf (phalf z))).2).
Proof.
  intros Hhi Hlo. do 16 (destruct hi as [|? hi]; [discriminate|]). destruct hi; [|discriminate].
  do 16 (destruct lo as [|? lo]; [discriminate|]). destruct lo; [|discriminate].
  assert (E : forall z g i, htab_halve (z.1, z.2, g) i = ((phalf z).1, (phalf z).2, htab_put g i (phalf z).1 (phalf z).2)) by done.
  change (foldl htab_halve ?s [4; 2; 1]) with (htab_halve (htab_halve (htab_halve s 4) 2) 1). rewrite !E.
  generalize (phalf (phalf (phalf z))) (phalf (phalf z)) (phalf z). intros y1 y2 y4. destruct z, y1, y2, y4. reflexivity.
Qed.

Lemma sums_ok h z4 z2 z1 z8 rk : pair64 z8 -> pair64 z4 -> pair64 z2 -> pair64 z1 ->
  pv z8 = h -> pv z4 = gf_x h -> pv z2 = gf_x (gf_x h) -> pv z1 = gf_x (gf_x (gf_x h)) ->
  htab_ok (Aes_gcm rk (sums z8.1 z4.1 z2.1 z1.1) (sums z8.2 z4.2 z2.2 z1.2)) h.
Proof.
  intros H8 H4 H2 H1 P8 P4 P2 P1.
  assert (X : forall y z a b, pair64 y /\ pv y = a -> pair64 z /\ pv z = b -> pair64 (pxor y z) /\ pv (pxor y z) = Z.lxor a b).
  { intros y z a b [Hy <-] [Hz <-]. by apply pxor_spec. }
  assert (Z0 : pair64 (0, 0) /\ pv (0, 0) = 0) by done.
  pose proof (conj H8 P8) as A8. pose proof (conj H4 P4) as A4. pose proof (conj H2 P2) as A2. pose proof (conj H1 P1) as A1.
  clear H8 H4 H2 H1 P8 P4 P2 P1.
  assert (N : forall m, nib h m = Z.lxor (if Z.testbit m 3 then h else 0) (Z.lxor (if Z.testbit m 2 then gf_x h else 0)
    (Z.lxor (if Z.testbit m 1 then gf_x (gf_x h) else 0) (if Z.testbit m 0 then gf_x (gf_x (gf_x h)) else 0)))) by done.
  unfold htab_ok. setoid_rewrite N. revert A8 A4 A2 A1. generalize (gf_x (gf_x (gf_x h))) (gf_x (gf_x h)) (gf_x h). intros h1 h2 h4 A8 A4 A2 A1. clear N.
  pose proof (X _ _ _ _ A2 A1) as A21. pose proof (X _ _ _ _ A4 A1) as A41. pose proof (X _ _ _ _ A4 A2) as A42.
  pose proof (X _ _ _ _ A4 A21) as A421.
  apply below_16. cbn [seq map]. repeat (apply Forall_cons; split); [..|by apply Forall_nil];
    repeat match goal with |- context [Z.testbit ?a ?b] =>
      let v := eval vm_compute in (Z.testbit a b) in change (Z.testbit a b) with v end; cbv iota; rewrite ?Z.lxor_0_l, ?Z.lxor_0_r;
    first [exact Z0|exact A1|exact A2|exact A21|exact A4|exact A41|exact A42|exact A421|exact A8
      |exact (X _ _ _ _ A8 A1)|exact (X _ _ _ _ A8 A2)|exact (X _ _ _ _ A8 A21)|exact (X _ _ _ _ A8 A4)
      |exact (X _ _ _ _ A8 A41)|exact (X _ _ _ _ A8 A42)|exact (X _ _ _ _ A8 A421)].
Qed.

(** ** Big-endian values *)

Definition be_val (p : list Z) : Z := le_val (rev p).
Definition be_bytes (n : nat) (v : Z) : list Z := rev (le_bytes n v).

Lemma le_val_byte p : forall i, bytes p -> 0 <= i < zlen p -> Z.shiftr (le_val p) (8 * i) mod 2 ^ 8 = aget p i.
Proof.
  induction p as [|b p IH]; intros i Hp Hi; [change (zlen []) with 0 in Hi; lia|]. apply Forall_cons in Hp as [Hb Hp].
  change (le_val (b :: p)) with (b + 256 * le_val p). rewrite zlen_cons in Hi. pose proof (le_val_bound p Hp). unfold is_u8 in Hb.
  destruct (decide (i = 0)) as [->|]; [rewrite Z.shiftr_0_r; change (aget (b :: p) 0) with b; lia|].
  replace (8 * i) with (8 + 8 * (i - 1)) by lia. rewrite <- Z.shiftr_shiftr by lia.
  assert (Z.shiftr (b + 256 * le_val p) 8 = le_val p) as -> by (rewrite Z.shiftr_div_pow2 by lia; lia).
  rewrite IH by (done || lia). change (b :: p) with ([b] ++ p). rewrite (aget_app [b] p i) by lia. change (zlen [b]) with 1.
  case_bool; zbool; [lia|done].
Qed.

Lemma be_val_byte x i : st16 x -> 0 <= i < 16 -> Z.shiftr (be_val x) (8 * (15 - i)) mod 2 ^ 8 = aget x i.
Proof.
  intros Hx Hi. destruct (st16_bytes x Hx) as [Hb Hl]. unfold be_val.
  rewrite le_val_byte; [|by apply Forall_rev|unfold zlen; rewrite length_rev; lia].
  revert i Hi. apply below_16. destruct Hx. cbn [seq map]. repeat (apply Forall_cons; split; [reflexivity|]). by apply Forall_nil.
Qed.

Lemma be_val_range x : st16 x -> 0 <= be_val x < 2 ^ 128.
Proof.
  intros Hx. destruct (st16_bytes x Hx) as [Hb Hl]. unfold be_val. pose proof (le_val_bound (rev x) (Forall_rev Hb)) as H.
  unfold zlen in H. rewrite length_rev, Hl in H. exact H.
Qed.

Lemma le_bytes_S n v : le_bytes (S n) v = u8 v :: le_bytes n (Z.shiftr v 8).
Proof.
  unfold le_bytes. cbn [seq map]. change (8 * Z.of_nat 0) with 0. rewrite Z.shiftr_0_r. f_equal. rewrite <- seq_shift, map_map.
  apply map_ext. intros i. rewrite Z.shiftr_shiftr by lia. do 2 f_equal. lia.
Qed.

Lemma le_val_bytes n : forall v, 0 <= v < 2 ^ (8 * Z.of_nat n) -> le_val (le_bytes n v) = v.
Proof.
  induction n as [|n IH]; intros v Hv; [change (2 ^ (8 * Z.of_nat 0)) with 1 in Hv; change (0 = v); lia|].
  rewrite le_bytes_S. change (u8 v + 256 * le_val (le_bytes n (Z.shiftr v 8)) = v).
  replace (8 * Z.of_nat (S n)) with (8 + 8 * Z.of_nat n) in Hv by lia. rewrite Z.pow_add_r in Hv by lia.
  rewrite IH; rewrite Z.shiftr_div_pow2 by lia; unfold u8; lia.
Qed.

Lemma le_bytes_val p : bytes p -> le_bytes (length p) (le_val p) = p.
Proof.
  induction 1 as [|b p Hb Hp IH]; [done|]. cbn [length]. rewrite le_bytes_S. change (le_val (b :: p)) with (b + 256 * le_val p).
  pose proof (le_val_bound p Hp). unfold is_u8 in Hb.
  assert (Z.shiftr (b + 256 * le_val p) 8 = le_val p) as -> by (rewrite Z.shiftr_div_pow2 by lia; lia). rewrite IH. f_equal. unfold u8. lia.
Qed.

Lemma be_val_bytes v : 0 <= v < 2 ^ 128 -> be_val (be_bytes 16 v) = v.
Proof. intros Hv. unfold be_val, be_bytes. rewrite rev_involutive. by apply le_val_bytes. Qed.

Lemma be_bytes_val x : st16 x -> be_bytes 16 (be_val x) = x.
Proof.
  intros Hx. destruct (st16_bytes x Hx) as [Hb Hl]. unfold be_val, be_bytes.
  pose proof (le_bytes_val (rev x) (Forall_rev Hb)) as H. rewrite length_rev, Hl in H. rewrite H. apply rev_involutive.
Qed.

Lemma be_bytes_st16 v : st16 (be_bytes 16 v).
Proof. apply St16; apply u8_bound. Qed.

Lemma zip_st16 a b : st16 a -> st16 b -> st16 (zip_with Z.lxor a b).
Proof. intros [] []. constructor; by apply lxor_u8. Qed.

Lemma le_val_lxor a : forall b, bytes a -> bytes b -> length a = length b ->
  le_val (zip_with Z.lxor a b) = Z.lxor (le_val a) (le_val b).
Proof.
  induction a as [|x a IH]; intros [|y b] Ha Hb Hl; try done. apply Forall_cons in Ha as [Hx Ha]. apply Forall_cons in Hb as [Hy Hb].
  cbn [zip_with]. change (Z.lxor x y + 256 * le_val (zip_with Z.lxor a b) = Z.lxor (x + 256 * le_val a) (y + 256 * le_val b)).
  rewrite IH by (done || by injection Hl). pose proof (lxor_u8 x y Hx Hy) as Hxy. unfold is_u8 in *.
  pose proof (le_val_bound a Ha). pose proof (le_val_bound b Hb).
  assert (E : forall u v, 0 <= u < 2 ^ 8 -> forall i, 0 <= i -> Z.testbit (u + 256 * v) i = if i <? 8 then Z.testbit u i else Z.testbit v (i - 8)).
  { intros u v Hu i Hi. rewrite Z.add_comm. change 256 with (2 ^ 8). rewrite Z.mul_comm, <- (lor_low 8 (v * 2 ^ 8)) by lia. rewrite Z.lor_spec. case_bool; zbool.
    - rewrite Z.mul_pow2_bits_low by lia. done.
    - rewrite Z.mul_pow2_bits, (testbit_above 8 u) by lia. apply orb_false_r. }
  apply Z.bits_inj'. intros i Hi. rewrite Z.lxor_spec, !E by (done || lia). case_bool; by rewrite Z.lxor_spec.
Qed.

Lemma be_val_lxor a b : st16 a -> st16 b -> be_val (zip_with Z.lxor a b) = Z.lxor (be_val a) (be_val b).
Proof.
  intros Ha Hb. destruct (st16_bytes a Ha) as [Ba La]. destruct (st16_bytes b Hb) as [Bb Lb]. unfold be_val.
  rewrite <- le_val_lxor by (try (by apply Forall_rev); rewrite !length_rev; lia). f_equal. by destruct Ha, Hb.
Qed.

(** ** One multiplication *)

Lemma be_val_nibbles x i : st16 x -> 0 <= i < 16 ->
  Z.shiftr (be_val x) (8 * (15 - i)) mod 2 ^ 4 = Z.land (aget x i) 0xf /\
  Z.shiftr (be_val x) (8 * (15 - i) + 4) mod 2 ^ 4 = Z.shiftr (aget x i) 4.
Proof.
  intros Hx Hi. rewrite <- Z.shiftr_shiftr by lia. pose proof (be_val_byte x i Hx Hi) as E.
  replace (Z.land (aget x i) 0xf) with (aget x i mod 2 ^ 4) by (symmetry; apply (Z.land_ones _ 4); lia).
  rewrite !(Z.shiftr_div_pow2 _ 4), <- E by lia. clear E. generalize (Z.shiftr (be_val x) (8 * (15 - i))). intros v.
  split; lia.
Qed.

Lemma nibble_range b : is_u8 b -> 0 <= Z.land b 0xf < 16 /\ 0 <= Z.shiftr b 4 < 16.
Proof.
  unfold is_u8. intros Hb. change 0xf with (Z.ones 4). rewrite Z.land_ones, Z.shiftr_div_pow2 by lia. lia.
Qed.

Section Mult.
Variables (g : aes_gcm) (h : Z) (x : list Z).
Hypothesis g_ok : htab_ok g h.
Hypothesis x_ok : st16 x.

Lemma shift4_horner n i z : (n = 8 * (15 - i) \/ n = 8 * (15 - i) + 4)%nat -> (i < 16)%nat ->
  pair64 z -> pv z = horner n (be_val x) h ->
  let m := if (n =? 8 * (15 - i))%nat then Z.land (aget x (Z.of_nat i)) 0xf else Z.shiftr (aget x (Z.of_nat i)) 4 in
  pair64 (gf_shift4 g m z) /\ pv (gf_shift4 g m z) = horner (4 + n) (be_val x) h.
Proof.
  intros Hn Hi Hz Hpv m. destruct (be_val_nibbles x (Z.of_nat i) x_ok ltac:(lia)) as [N1 N2].
  destruct (st16_bytes x x_ok) as [Hb Hl].
  pose proof (nibble_range _ (byte_at x (Z.of_nat i) Hb ltac:(unfold zlen; lia))) as [R1 R2].
  assert (Hm : m = Z.shiftr (be_val x) (Z.of_nat n) mod 2 ^ 4 /\ 0 <= m < 16).
  { unfold m. destruct (Nat.eqb_spec n (8 * (15 - i))) as [->|]; [rewrite <- N1|rewrite <- N2]; (split; [|rewrite ?N1, ?N2; lia]).
    - do 2 f_equal. lia.
    - do 2 f_equal. lia. }
  destruct Hm as [Hm Hr]. destruct (gf_shift4_spec g h m z g_ok Hr Hz) as [H1 H2]. split; [exact H1|].
  by rewrite H2, Hpv, horner_nib, Hm.
Qed.

(** the bytes from the last down to byte [i], all of them but the first half-byte already in *)
Lemma gf_bytes_horner k : (k <= 15)%nat ->
  let z := foldl (gf_byte g x) (entry g (Z.land (aget x 15) 0xf)) (map (fun j => 15 - Z.of_nat j) (seq 0 (S k))) in
  pair64 z /\ pv z = horner (8 * S k) (be_val x) h.
Proof.
  induction k as [|k IH]; intros Hk.
  - destruct (be_val_nibbles x 15 x_ok ltac:(lia)) as [N1 _]. destruct (st16_bytes x x_ok) as [Hb Hl].
    pose proof (nibble_range _ (byte_at x 15 Hb ltac:(unfold zlen; lia))) as [R1 _].
    destruct (g_ok _ R1) as [H1 H2].
    assert (H3 : pv (entry g (Z.land (aget x 15) 0xf)) = horner 4 (be_val x) h).
    { rewrite H2. change 4%nat with (4 + 0)%nat. rewrite horner_nib. change (8 * (15 - 15)) with 0 in N1. change (Z.of_nat 0) with 0. rewrite N1.
      change (gf_x4 (horner 0 _ _)) with 0. by rewrite Z.lxor_0_r. }
    exact (shift4_horner 4 15 _ (or_intror eq_refl) ltac:(lia) H1 H3).
  - cbv zeta. rewrite seq_S, map_app, foldl_app. destruct (IH ltac:(lia)) as [H1 H2]. cbv zeta in H1, H2.
    set (z := foldl _ _ _) in *. clearbody z. cbn [map foldl Nat.add]. unfold gf_byte.
    assert (negb (15 - Z.of_nat (S k) =? 15) = true) as -> by (destruct (_ =? _) eqn:E; zbool; [lia|done]).
    destruct (shift4_horner (8 * S k) (15 - S k) z) as [H3 H4]; [lia..|done|done|].
    replace ((8 * S k =? 8 * (15 - (15 - S k)))%nat) with true in * by (symmetry; apply Nat.eqb_eq; lia).
    destruct (shift4_horner (4 + 8 * S k) (15 - S k) _ ltac:(lia) ltac:(lia) H3 H4) as [H5 H6].
    replace ((4 + 8 * S k =? 8 * (15 - (15 - S k)))%nat) with false in * by (symmetry; apply Nat.eqb_neq; lia).
    replace (Z.of_nat (15 - S k)) with (15 - Z.of_nat (S k)) in * by lia. split; [done|].
    replace (8 * S (S k))%nat with (4 + (4 + 8 * S k))%nat by lia. done.
Qed.

Lemma put_pair z : pair64 z ->
  put_be32 (Z.shiftr z.1 32) ++ put_be32 (u32 z.1) ++ put_be32 (Z.shiftr z.2 32) ++ put_be32 (u32 z.2) = be_bytes 16 (pv z).
Proof.
  intros Hz. assert (Hi : forall k, 0 <= k -> u8 (Z.shiftr z.1 k) = u8 (Z.shiftr (pv z) (64 + k))).
  { intros k Hk. rewrite <- Z.shiftr_shiftr by lia. do 2 f_equal. destruct Hz as [Hh Hl]. unfold is_u64 in *. unfold pv.
    rewrite Z.shiftr_div_pow2 by lia. lia. }
  assert (Lo : forall k, 0 <= k <= 56 -> u8 (Z.shiftr z.2 k) = u8 (Z.shiftr (pv z) k)).
  { intros k Hk. unfold u8. apply Z.bits_inj'. intros j Hj. destruct (decide (j < 8)); [|by rewrite !Z.mod_pow2_bits_high by lia].
    rewrite !Z.mod_pow2_bits_low, !Z.shiftr_spec, pv_bits by (done || lia). case_bool; zbool; [done|lia]. }
  assert (W : forall v k, 0 <= k <= 24 -> u8 (Z.shiftr (u32 v) k) = u8 (Z.shiftr v k)).
  { intros v k Hk. unfold u8, u32. apply Z.bits_inj'. intros j Hj. destruct (decide (j < 8)); [|by rewrite !Z.mod_pow2_bits_high by lia].
    by rewrite !Z.mod_pow2_bits_low, !Z.shiftr_spec, Z.mod_pow2_bits_low by lia. }
  assert (P : forall v, put_be32 v = [u8 (Z.shiftr v 24); u8 (Z.shiftr v 16); u8 (Z.shiftr v 8); u8 (Z.shiftr v 0)]).
  { intros v. by rewrite Z.shiftr_0_r. }
  rewrite !P, !Z.shiftr_shiftr, !W by lia. rewrite !Hi, !Lo by lia. reflexivity.
Qed.

Lemma gf_mult_h_spec : gf_mult_h g x = be_bytes 16 (gf_mul (be_val x) h).
Proof.
  destruct (gf_bytes_horner 15 ltac:(lia)) as [H1 H2]. unfold gf_mult_h.
  change (map (fun j => 15 - Z.of_nat j) (seq 0 16)) with [15; 14; 13; 12; 11; 10; 9; 8; 7; 6; 5; 4; 3; 2; 1; 0] in *.
  unfold entry in *. rewrite gf_mul_horner. change (8 * 16)%nat with 128%nat in H2. rewrite <- H2.
  destruct (foldl _ _ _) as [zh zl]. by apply (put_pair (zh, zl)).
Qed.
End Mult.

(** ** GHASH *)

Definition ghash (h : Z) (data : list Z) : Z :=
  foldl (fun y b => gf_mul (Z.lxor y (be_val b)) h) 0 (chunks 16 data).

Lemma pad16_cons data n : data <> [] -> n = (if zlen data <? 16 then zlen data else 16) ->
  let b := take (Z.to_nat n) data ++ replicate (Z.to_nat (16 - n)) 0 in
  length b = 16%nat /\ pad16 data = b ++ pad16 (drop (Z.to_nat n) data).
Proof.
  intros Hd -> b. assert (Hl : 0 < zlen data) by (destruct data; [done|]; rewrite zlen_cons; pose proof (zlen_nonneg data); lia).
  unfold b, pad16. destruct (zlen data <? 16) eqn:E; zbool.
  - rewrite (take_ge data), (drop_ge data) by (unfold zlen; lia). change (zlen []) with 0. change (Z.to_nat ((16 - 0 mod 16) mod 16)) with 0%nat.
    cbn [replicate app]. rewrite app_nil_r. replace ((16 - zlen data mod 16) mod 16) with (16 - zlen data) by lia. split; [|done].
    rewrite length_app, length_replicate. unfold zlen in *. lia.
  - change (Z.to_nat (16 - 16)) with 0%nat. cbn [replicate]. rewrite app_nil_r. rewrite zlen_drop by lia.
    replace (Z.max 0 (zlen data - 16) mod 16) with (zlen data mod 16) by lia. rewrite app_assoc, take_drop. split; [|done].
    rewrite length_take. unfold zlen in *. lia.
Qed.

Lemma xor_first_pad n y data : st16 y -> 0 <= n <= 16 -> n <= zlen data ->
  xor_first n y data = zip_with Z.lxor y (take (Z.to_nat n) data ++ replicate (Z.to_nat (16 - n)) 0).
Proof.
  intros Hy Hn Hd. destruct (st16_bytes y Hy) as [_ Hl]. assert (Hz : zlen y = 16) by (unfold zlen; lia).
  destruct (xor_first_at n y data ltac:(lia)) as [Hxl Hx].
  assert (Hb : zlen (take (Z.to_nat n) data ++ replicate (Z.to_nat (16 - n)) 0) = 16).
  { rewrite zlen_app, zlen_take by lia. unfold zlen at 2. rewrite length_replicate. lia. }
  apply zlist_ext; [rewrite zlen_zip by lia; lia|]. intros i Hi. rewrite Hx, aget_zip, aget_app by lia. rewrite zlen_take by lia.
  replace (Z.min n (zlen data)) with n by lia. case_bool; zbool.
  - by rewrite aget_take by lia.
  - unfold aget at 3. rewrite lookup_total_replicate_2 by lia. by rewrite Z.lxor_0_r.
Qed.

Definition is_u128 (v : Z) : Prop := 0 <= v < 2 ^ 128.

Lemma lxor_u128 a b : is_u128 a -> is_u128 b -> is_u128 (Z.lxor a b).
Proof.
  unfold is_u128. intros Ha Hb. assert (0 <= Z.lxor a b) by (apply Z.lxor_nonneg; lia). split; [done|].
  apply below_pow2; [lia|done|]. intros j Hj. by rewrite Z.lxor_spec, !(testbit_above 128) by lia.
Qed.

Lemma gf_x_u128 v : is_u128 v -> is_u128 (gf_x v).
Proof.
  intros Hv. assert (is_u128 (Z.shiftr v 1)) by (unfold is_u128 in *; rewrite Z.shiftr_div_pow2 by lia; lia).
  unfold gf_x. destruct (Z.testbit v 0); [|done]. apply lxor_u128; [done|]. by vm_compute.
Qed.

Lemma horner_u128 n x v : is_u128 v -> is_u128 (horner n x v).
Proof.
  intros Hv. induction n as [|n IH]; [by vm_compute|]. cbn [horner]. apply lxor_u128; [|by apply gf_x_u128].
  destruct (Z.testbit _ _); [done|by vm_compute].
Qed.

Lemma gf_mul_range x v : is_u128 v -> is_u128 (gf_mul x v).
Proof. rewrite gf_mul_horner. apply horner_u128. Qed.

Section Ghash.
Variables (g : aes_gcm) (h : Z).
Hypothesis g_ok : htab_ok g h.

Lemma hash_key_range : is_u128 h.
Proof.
  destruct (g_ok 8 ltac:(lia)) as [H1 H2]. pose proof (pv_nonneg _ H1) as H. rewrite H2 in H.
  assert (E : nib h 8 = h) by (unfold nib; change (Z.lxor h 0 = h); apply Z.lxor_0_r). by rewrite E in H.
Qed.

Lemma ghash_loop_spec fuel : forall y data, (length data <= fuel)%nat -> st16 y -> bytes data ->
  ghash_loop g fuel y data =
    be_bytes 16 (foldl (fun y b => gf_mul (Z.lxor y (be_val b)) h) (be_val y) (chunks 16 (pad16 data))) /\
  st16 (ghash_loop g fuel y data).
Proof.
  induction fuel as [|fuel IH]; intros y data Hf Hy Hd.
  - destruct data; [|cbn in Hf; lia]. split; [|done]. symmetry. by apply be_bytes_val.
  - cbn [ghash_loop]. destruct (zlen data =? 0) eqn:E; zbool.
    { destruct data; [|rewrite zlen_cons in E; pose proof (zlen_nonneg data); lia]. split; [|done]. symmetry. by apply be_bytes_val. }
    set (n := if zlen data <? 16 then zlen data else 16). pose proof (zlen_nonneg data).
    assert (Hn : 0 < n <= 16 /\ n <= zlen data) by (unfold n; case_bool; zbool; lia).
    destruct (pad16_cons data n ltac:(by intros ->) eq_refl) as [Hbl Hpad]. cbv zeta in Hbl, Hpad.
    rewrite xor_first_pad by (done || lia). set (b := take _ _ ++ _) in *.
    assert (Hb : st16 b).
    { apply st16_of; [|done]. apply bytes_app. split; [by apply Forall_take|by apply Forall_replicate]. }
    rewrite (gf_mult_h_spec g h _ g_ok (zip_st16 y b Hy Hb)), Hpad, chunks_app by (done || lia). cbn [foldl].
    destruct (IH (be_bytes 16 (gf_mul (be_val (zip_with Z.lxor y b)) h)) (drop (Z.to_nat n) data)) as [H1 H2];
      [rewrite length_drop; unfold zlen in *; lia|apply be_bytes_st16|by apply Forall_drop|].
    split; [|exact H2]. rewrite H1, be_val_bytes by apply gf_mul_range, hash_key_range. rewrite be_val_lxor by done. exact eq_refl.
Qed.
End Ghash.

(** ** AES-128-GCM *)

Definition ciph (key block : list Z) : list Z := aes_cipher (key_expansion key) block.

(** SP 800-38D, 7.1, with a nonce of 96 bits: the key stream from the second
    counter, and the hash of the padded data, the padded ciphertext and the
    two lengths in bits, under the first counter *)
Definition gcm_tag_ref (key nonce aad c : list Z) : list Z :=
  let s := ghash (be_val (ciph key (replicate 16 0)))
             (pad16 aad ++ pad16 c ++ be_bytes 8 (8 * zlen aad) ++ be_bytes 8 (8 * zlen c)) in
  zip_with Z.lxor (be_bytes 16 s) (ciph key (nonce ++ be_bytes 4 1)).

Definition gcm_ctr_ref (key nonce p : list Z) : list Z := stream_xor (fun i => ciph key (nonce ++ be_bytes 4 i)) 16 2 p.

Definition gcm_seal_ref (key nonce aad p : list Z) : list Z * list Z :=
  let c := gcm_ctr_ref key nonce p in (c, gcm_tag_ref key nonce aad c).

(** the structure after [aes_gcm_init] *)
Record gcm_ready (key : list Z) (g : aes_gcm) : Prop := Gcm_ready {
  ready_aes : forall b, st16 b -> st16 (ciph key b) /\ aes128_encrypt (gcm_rk g) b = ciph key b;
  ready_htab : htab_ok g (be_val (ciph key (replicate 16 0)))
}.

Lemma st16_zeros : st16 (replicate 16 0).
Proof. by constructor. Qed.

Lemma hash_key_pair b : st16 b ->
  let z := (Z.lor (Z.shiftl (be32_at b 0) 32) (be32_at b 4), Z.lor (Z.shiftl (be32_at b 8) 32) (be32_at b 12)) in
  pair64 z /\ pv z = be_val b.
Proof.
  intros [b0 b1 b2 b3 b4 b5 b6 b7 b8 b9 b10 b11 b12 b13 b14 b15]. cbv zeta.
  destruct (st_words_inv b0 b1 b2 b3 b4 b5 b6 b7 b8 b9 b10 b11 b12 b13 b14 b15) as (-> & -> & -> & ->).
  assert (J : forall u v, is_u32 v -> Z.lor (Z.shiftl u 32) v = u * 2 ^ 32 + v).
  { intros u v Hv. rewrite Z.shiftl_mul_pow2 by lia. unfold is_u32 in Hv. rewrite (lor_low 32) by lia. done. }
  rewrite !J by by apply wd_u32. rewrite !wd_sum by done. unfold pv, pair64, is_u64. cbn [fst snd].
  change (be_val _) with (b15 + 256 * (b14 + 256 * (b13 + 256 * (b12 + 256 * (b11 + 256 * (b10 + 256 * (b9 + 256 * (b8 +
    256 * (b7 + 256 * (b6 + 256 * (b5 + 256 * (b4 + 256 * (b3 + 256 * (b2 + 256 * (b1 + 256 * (b0 + 256 * 0)))))))))))))))).
  unfold is_u8 in *. lia.
Qed.

Definition fill (z : Z * Z) (g : aes_gcm) : aes_gcm :=
  let '(_, _, g) := foldl htab_halve (z.1, z.2, htab_put (htab_put g 8 z.1 z.2) 0 0 0) [4; 2; 1] in foldl htab_sums g [2; 4; 8].

Lemma init_fill rk hi lo key : aes_gcm_init (Aes_gcm rk hi lo) key =
  let h := aes128_encrypt (aes128_init rk key) (replicate 16 0) in
  fill (Z.lor (Z.shiftl (be32_at h 0) 32) (be32_at h 4), Z.lor (Z.shiftl (be32_at h 8) 32) (be32_at h 12))
    (Aes_gcm (aes128_init rk key) hi lo).
Proof.
  unfold aes_gcm_init, fill. change (set gcm_rk _ _) with (Aes_gcm (aes128_init rk key) hi lo). cbn [gcm_rk fst snd].
  generalize (aes128_init rk key). intros r. generalize (aes128_encrypt r (replicate 16 0)). intros h. reflexivity.
Qed.

Lemma aes_gcm_init_ready g key : zlen (gcm_rk g) = 44 -> length (htab_hi g) = 16%nat -> length (htab_lo g) = 16%nat ->
  bytes key -> zlen key = 16 -> gcm_ready key (aes_gcm_init g key).
Proof.
  intros Hrk Hhi Hlo Hk Hl. destruct g as [rk hi lo]. cbn [gcm_rk htab_hi htab_lo] in *.
  pose proof (aes128_init_ok rk key Hrk Hk Hl) as Hkeys. set (rk' := aes128_init rk key) in *.
  assert (Haes : forall b, st16 b -> st16 (ciph key b) /\ aes128_encrypt rk' b = ciph key b) by (intros b Hb; by apply aes_ok).
  destruct (Haes _ st16_zeros) as [Hh He].
  assert (E : exists hi' lo', aes_gcm_init (Aes_gcm rk hi lo) key = Aes_gcm rk' hi' lo' /\
    htab_ok (Aes_gcm rk' hi' lo') (be_val (ciph key (replicate 16 0)))).
  { rewrite init_fill. fold rk'. cbv zeta. rewrite He. clearbody rk'. set (hb := ciph key (replicate 16 0)) in *. clearbody hb.
    destruct (hash_key_pair hb Hh) as [Hz Hpv]. cbv zeta in Hz, Hpv. revert Hz Hpv.
    generalize (Z.lor (Z.shiftl (be32_at hb 0) 32) (be32_at hb 4), Z.lor (Z.shiftl (be32_at hb 8) 32) (be32_at hb 12)). intros z Hz Hpv.
    destruct (phalf_spec z Hz) as [H4 P4]. destruct (phalf_spec _ H4) as [H2 P2]. destruct (phalf_spec _ H2) as [H1 P1].
    eexists _, _. split; [apply (sums_fill rk' hi lo z Hhi Hlo)|].
    rewrite Hpv in P4. rewrite P4 in P2. rewrite P2 in P1. exact (sums_ok _ _ _ _ z rk' Hz H4 H2 H1 Hpv P4 P2 P1). }
  destruct E as (hi' & lo' & -> & Ht). by split.
Qed.

Lemma chunks_mult n k : forall a l, (0 < n)%nat -> length a = (k * n)%nat -> chunks n (a ++ l) = chunks n a ++ chunks n l.
Proof.
  induction k as [|k IH]; intros a l Hn Ha; [by destruct a|].
  rewrite <- (take_drop n a). assert (Ht : length (take n a) = n) by (rewrite length_take; lia).
  rewrite <- app_assoc, (chunks_app n _ (drop n a ++ l)), (chunks_app n _ (drop n a)), IH by (done || (rewrite length_drop; lia)). done.
Qed.

Lemma pad16_length p : exists k, length (pad16 p) = (k * 16)%nat.
Proof.
  exists (Z.to_nat ((zlen p + 15) / 16)). unfold pad16. rewrite length_app, length_replicate.
  pose proof (zlen_nonneg p). apply Nat2Z.inj. rewrite Nat2Z.inj_add, Nat2Z.inj_mul. change (Z.of_nat (length p)) with (zlen p). lia.
Qed.

Lemma gcm_lens a b : 0 <= a < 2 ^ 29 -> 0 <= b < 2 ^ 29 ->
  put4 (put4 (replicate 16 0) 4 (put_be32 (u32 (a * 8)))) 12 (put_be32 (u32 (b * 8))) = be_bytes 8 (8 * a) ++ be_bytes 8 (8 * b).
Proof.
  intros Ha Hb. rewrite !u32_small by (unfold is_u32; lia).
  assert (E : forall v, is_u32 v -> be_bytes 8 v = [0; 0; 0; 0] ++ put_be32 v).
  { intros v Hv. assert (Z0 : forall k, 32 <= k -> u8 (Z.shiftr v k) = 0).
    { intros k Hk. rewrite Z.shiftr_div_pow2 by lia. unfold is_u32 in Hv. rewrite Z.div_small; [done|]. split; [lia|].
      apply Z.lt_le_trans with (2 ^ 32); [lia|]. apply Z.pow_le_mono_r; lia. }
    change (be_bytes 8 v) with [u8 (Z.shiftr v 56); u8 (Z.shiftr v 48); u8 (Z.shiftr v 40); u8 (Z.shiftr v 32);
      u8 (Z.shiftr v 24); u8 (Z.shiftr v 16); u8 (Z.shiftr v 8); u8 (Z.shiftr v 0)].
    rewrite (Z0 32), (Z0 40), (Z0 48), (Z0 56), Z.shiftr_0_r by lia. done. }
  rewrite !E by (unfold is_u32; lia). replace (8 * a) with (a * 8) by lia. replace (8 * b) with (b * 8) by lia. reflexivity.
Qed.

Lemma be_bytes_4 c : put_be32 c = be_bytes 4 c.
Proof. change (be_bytes 4 c) with [u8 (Z.shiftr c 24); u8 (Z.shiftr c 16); u8 (Z.shiftr c 8); u8 (Z.shiftr c 0)]. by rewrite Z.shiftr_0_r. Qed.

Lemma counter_block nonce c : bytes nonce -> zlen nonce = 12 -> take 12 nonce ++ put_be32 c = nonce ++ be_bytes 4 c /\ st16 (nonce ++ be_bytes 4 c).
Proof.
  intros Hb Hl. rewrite take_ge by (unfold zlen in *; lia). rewrite be_bytes_4. split; [done|]. apply st16_of.
  - apply bytes_app. split; [done|]. rewrite <- be_bytes_4. unfold put_be32. repeat (apply Forall_cons; split; [apply u8_bound|]). by apply Forall_nil.
  - rewrite length_app. change (length (be_bytes 4 c)) with 4%nat. unfold zlen in *. lia.
Qed.

Lemma gcm_tag_spec key g nonce aad c : gcm_ready key g -> bytes nonce -> zlen nonce = 12 -> bytes aad -> bytes c ->
  zlen aad < 2 ^ 29 -> zlen c < 2 ^ 29 -> gcm_tag g nonce aad c = gcm_tag_ref key nonce aad c.
Proof.
  intros [Haes Ht] Hn Hln Ha Hc Hla Hlc. pose proof (zlen_nonneg aad). pose proof (zlen_nonneg c).
  unfold gcm_tag, gcm_tag_ref, ghash_update. rewrite gcm_lens by lia. set (lens := be_bytes 8 _ ++ _).
  set (h := be_val (ciph key (replicate 16 0))) in *.
  destruct (counter_block nonce 1 Hn Hln) as [-> Hj]. destruct (Haes _ Hj) as [Hs ->].
  assert (Hlens : st16 lens) by (apply St16; apply u8_bound). destruct (st16_bytes lens Hlens) as [Hbl Hll].
  destruct (ghash_loop_spec g h Ht (length aad) (replicate 16 0) aad (le_n _) st16_zeros Ha) as [E1 S1].
  destruct (ghash_loop_spec g h Ht (length c) _ c (le_n _) S1 Hc) as [E2 S2].
  destruct (ghash_loop_spec g h Ht (length lens) _ lens (le_n _) S2 Hbl) as [E3 S3].
  pose proof (hash_key_range g h Ht) as Hh.
  assert (Hfold : forall bs y, is_u128 y -> is_u128 (foldl (fun y b => gf_mul (Z.lxor y (be_val b)) h) y bs)).
  { induction bs as [|b bs IH]; intros y Hy; [done|]. by apply IH, gf_mul_range. }
  set (y3 := ghash_loop g (length lens) _ lens) in *. clearbody y3.
  assert (Hy3 : y3 = be_bytes 16 (ghash h (pad16 aad ++ pad16 c ++ lens))).
  { assert (B : forall bs y, st16 y -> be_val (be_bytes 16 (foldl (fun y b => gf_mul (Z.lxor y (be_val b)) h) (be_val y) bs)) =
      foldl (fun y b => gf_mul (Z.lxor y (be_val b)) h) (be_val y) bs).
    { intros bs y Hy. apply be_val_bytes. apply Hfold. by apply be_val_range. }
    assert (Hp : pad16 lens = lens).
    { unfold pad16. replace (zlen lens) with 16 by (unfold zlen; lia). change (Z.to_nat _) with 0%nat. apply app_nil_r. }
    rewrite E3, E2, (B _ _ S1), E1, (B _ _ st16_zeros), Hp.
    unfold ghash. destruct (pad16_length aad) as [ka Hka]. destruct (pad16_length c) as [kc Hkc].
    rewrite (chunks_mult 16 ka), (chunks_mult 16 kc), !foldl_app by (done || lia). done. }
  rewrite <- Hy3. destruct S3. destruct Hs. done.
Qed.

Lemma gcm_ctr_spec key g nonce p : gcm_ready key g -> bytes nonce -> zlen nonce = 12 -> zlen p < 2 ^ 32 ->
  gcm_ctr g nonce p = gcm_ctr_ref key nonce p.
Proof.
  intros [Haes _] Hn Hln Hp. pose proof (zlen_nonneg p).
  assert (E : forall c, aes128_encrypt (gcm_rk g) (take 12 nonce ++ put_be32 c) = ciph key (nonce ++ be_bytes 4 c)).
  { intros c. destruct (counter_block nonce c Hn Hln) as [-> Hb]. by apply Haes. }
  unfold gcm_ctr. rewrite ctr_loop_stream; [| |intros c|done|lia|lia].
  - unfold gcm_ctr_ref, stream_xor. do 2 f_equal. apply map_ext. intros i. apply E.
  - done.
  - destruct (counter_block nonce c Hn Hln) as [-> Hb]. destruct (Haes _ Hb) as [Hs ->]. destruct (st16_bytes _ Hs). unfold zlen. lia.
Qed.

Lemma gcm_ctr_ref_len key g nonce : gcm_ready key g -> bytes nonce -> zlen nonce = 12 ->
  forall i, zlen (ciph key (nonce ++ be_bytes 4 i)) = 16 /\ bytes (ciph key (nonce ++ be_bytes 4 i)).
Proof.
  intros [Haes _] Hn Hln i. destruct (counter_block nonce i Hn Hln) as [_ Hb]. destruct (Haes _ Hb) as [Hs _].
  destruct (st16_bytes _ Hs) as [Hbb Hl]. split; [unfold zlen; lia|done].
Qed.

(** ** What is sealed, and what opens *)

(** C37: sealing with ChaCha20-Poly1305 is RFC 8439's composition: the data
    gets the key stream from block 1, and the tag is the reference Poly1305,
    under the first 32 bytes of block 0, of the padded associated data, the
    padded ciphertext and the two lengths as 64-bit numbers, although the
    code feeds the pieces one by one and pads with a table of zeros. *)
Theorem chacha20poly1305_rfc8439 (key nonce aad p : list Z) :
  bytes aad -> bytes p -> zlen aad < 2 ^ 32 -> zlen p < 2 ^ 32 ->
  chacha20poly1305_seal key nonce aad p = cc_seal_ref key nonce aad p.
Proof.
  intros Ha Hp Hla Hlp. unfold chacha20poly1305_seal, cc_seal_ref. rewrite chacha_xor_stream by (done || lia).
  assert (Hl : forall i, zlen (chacha20_block key i nonce) = 64) by (intros; apply chacha_block_shape).
  f_equal. apply cc_tag_ref; [done| |done|].
  - apply stream_bytes; [intros i; apply chacha_block_shape|done].
  - rewrite (zlen_stream_xor (fun i => chacha20_block key i nonce) 64) by done. done.
Qed.

(** C7: sealing with AES-128-GCM is SP 800-38D's, for a structure that
    [aes_gcm_init] made over anything: FIPS 197's cipher in counter mode, and
    the tag from GHASH, whose multiplication in the field of [2 ^ 128]
    elements is the standard's bit-by-bit one although the code does it four
    bits at a time with a table. Up to [2 ^ 29] bytes: the code's length
    fields are 32 bits wide. *)
Theorem aes_gcm_sp800_38d (g : aes_gcm) (key nonce aad p : list Z) :
  zlen (gcm_rk g) = 44 -> length (htab_hi g) = 16%nat -> length (htab_lo g) = 16%nat ->
  bytes key -> zlen key = 16 -> bytes nonce -> zlen nonce = 12 -> bytes aad -> bytes p ->
  zlen aad < 2 ^ 29 -> zlen p < 2 ^ 29 ->
  aes_gcm_seal (aes_gcm_init g key) nonce aad p = gcm_seal_ref key nonce aad p.
Proof.
  intros Hrk Hhi Hlo Hk Hl Hn Hln Ha Hp Hla Hlp.
  pose proof (aes_gcm_init_ready g key Hrk Hhi Hlo Hk Hl) as Hg. set (g' := aes_gcm_init g key) in *. clearbody g'.
  pose proof (gcm_ctr_ref_len key g' nonce Hg Hn Hln) as Hblk.
  unfold aes_gcm_seal, gcm_seal_ref. rewrite (gcm_ctr_spec key) by (done || lia). f_equal.
  apply gcm_tag_spec; try done.
  - apply stream_bytes; [intros i; apply Hblk|done].
  - unfold gcm_ctr_ref. rewrite zlen_stream_xor; [done|done|]. intros c. apply Hblk.
Qed.

Lemma cc_tag_len key nonce aad c : zlen (cc_tag key nonce aad c) = 16.
Proof.
  unfold cc_tag, poly_finish. set (p := poly_last _). clearbody p. destruct (poly_select _) as [[[[h0 h1] h2] h3] h4].
  unfold poly_out. reflexivity.
Qed.

Lemma aes_len rk b : zlen (aes128_encrypt rk b) = 16.
Proof.
  unfold aes128_encrypt. destruct (foldl _ _ _) as [[[s0 s1] s2] s3]. reflexivity.
Qed.

Lemma gcm_tag_len g nonce aad c : zlen (gcm_tag g nonce aad c) = 16.
Proof. reflexivity. Qed.

Lemma gcm_ctr_twice g nonce p : zlen p < 2 ^ 32 -> gcm_ctr g nonce (gcm_ctr g nonce p) = p.
Proof.
  intros Hp. pose proof (zlen_nonneg p). unfold gcm_ctr at 2.
  rewrite ctr_loop_stream; [|done|intros; apply aes_len|done|lia|lia]. unfold gcm_ctr.
  rewrite ctr_loop_stream; [apply stream_twice; [done|intros; apply aes_len]|done|intros; apply aes_len|done|lia|].
  rewrite zlen_stream_xor; [lia|done|intros; apply aes_len].
Qed.

Lemma chacha_twice key nonce p : zlen p < 2 ^ 32 -> chacha20_xor key 1 nonce (chacha20_xor key 1 nonce p) = p.
Proof.
  intros Hp. assert (Hl : forall i, zlen (chacha20_block key i nonce) = 64) by (intros; apply chacha_block_shape).
  rewrite (chacha_xor_stream key 1 nonce p) by (done || lia). rewrite chacha_xor_stream; [by apply stream_twice|lia|].
  by rewrite zlen_stream_xor.
Qed.

(** C38: opening undoes sealing, and refuses everything else that could be
    refused: of all tags of 16 bytes exactly the one computed from the
    ciphertext is accepted, whatever the ciphertext, and a refused buffer is
    left as it was. For both ciphers, any key, nonce and associated data and
    all lengths a [uint32_t] can have. *)
Theorem aead_open_seal (key nonce aad p : list Z) (g : aes_gcm) :
  zlen p < 2 ^ 32 ->
  (let '(c, tag) := chacha20poly1305_seal key nonce aad p in chacha20poly1305_open key nonce aad c tag = (0, p)) /\
  (let '(c, tag) := aes_gcm_seal g nonce aad p in aes_gcm_open g nonce aad c tag = (0, p)) /\
  (forall c tag, zlen tag = 16 ->
     chacha20poly1305_open key nonce aad c tag =
       (if decide (tag = cc_tag key nonce aad c) then (0, chacha20_xor key 1 nonce c) else (-1, c)) /\
     aes_gcm_open g nonce aad c tag =
       (if decide (tag = gcm_tag g nonce aad c) then (0, gcm_ctr g nonce c) else (-1, c))).
Proof.
  intros Hp. assert (C : forall x y, zlen x = 16 -> zlen y = 16 -> (ct_memcmp x y 16 =? 0) = bool_decide (y = x)).
  { intros x y Hx Hy. pose proof (ct_memcmp_tags x y Hx Hy) as H. case_bool_decide; [apply Z.eqb_eq|apply Z.eqb_neq]; naive_solver. }
  unfold chacha20poly1305_seal, chacha20poly1305_open, aes_gcm_seal, aes_gcm_open.
  split_and!; [..|intros c tag Ht]; rewrite !C by (apply cc_tag_len || apply gcm_tag_len || done).
  - rewrite bool_decide_true by done. cbn [negb]. by rewrite chacha_twice.
  - rewrite bool_decide_true by done. cbn [negb]. by rewrite gcm_ctr_twice.
  - split; case_bool_decide; case_decide; done.
Qed.

(** ** Known answers *)

Definition rfc_nonce : list Z := [7; 0; 0; 0] ++ seqZ 0x40 8.
Definition rfc_aad : list Z := [0x50; 0x51; 0x52; 0x53] ++ seqZ 0xc0 8.
Definition rfc_text : list Z :=
  str "Ladies and Gentlemen of the class of '99: If I could offer you only one tip for the future, sunscreen would be it.".

(** RFC 8439, 2.8.2: the tag there, and the theorem at its input *)
Lemma chacha20poly1305_rfc8439_witness :
  (chacha20poly1305_seal demo_key rfc_nonce rfc_aad rfc_text).2 =
    [0x1a; 0xe1; 0x0b; 0x59; 0x4f; 0x09; 0xe2; 0x6a; 0x7e; 0x90; 0x2e; 0xcb; 0xd0; 0x60; 0x06; 0x91] /\
  chacha20poly1305_seal demo_key rfc_nonce rfc_aad rfc_text = cc_seal_ref demo_key rfc_nonce rfc_aad rfc_text.
Proof.
  split; [vm_compute; reflexivity|].
  exact (chacha20poly1305_rfc8439 demo_key rfc_nonce rfc_aad rfc_text (bytes_check _ (eq_refl : forallb byte_ok rfc_aad = true))
    (bytes_check _ (eq_refl : forallb byte_ok rfc_text = true)) eq_refl eq_refl).
Defined.

(** the fourth case of the GCM specification *)
Definition gcm_key : list Z := [0xfe; 0xff; 0xe9; 0x92; 0x86; 0x65; 0x73; 0x1c; 0x6d; 0x6a; 0x8f; 0x94; 0x67; 0x30; 0x83; 0x08].
Definition gcm_iv : list Z := [0xca; 0xfe; 0xba; 0xbe; 0xfa; 0xce; 0xdb; 0xad; 0xde; 0xca; 0xf8; 0x88].
Definition gcm_aad : list Z := [0xfe; 0xed; 0xfa; 0xce; 0xde; 0xad; 0xbe; 0xef; 0xfe; 0xed; 0xfa; 0xce; 0xde; 0xad; 0xbe; 0xef;
  0xab; 0xad; 0xda; 0xd2].
Definition gcm_text : list Z := [
  0xd9; 0x31; 0x32; 0x25; 0xf8; 0x84; 0x06; 0xe5; 0xa5; 0x59; 0x09; 0xc5; 0xaf; 0xf5; 0x26; 0x9a;
  0x86; 0xa7; 0xa9; 0x53; 0x15; 0x34; 0xf7; 0xda; 0x2e; 0x4c; 0x30; 0x3d; 0x8a; 0x31; 0x8a; 0x72;
  0x1c; 0x3c; 0x0c; 0x95; 0x95; 0x68; 0x09; 0x53; 0x2f; 0xcf; 0x0e; 0x24; 0x49; 0xa6; 0xb5; 0x25;
  0xb1; 0x6a; 0xed; 0xf5; 0xaa; 0x0d; 0xe6; 0x57; 0xba; 0x63; 0x7b; 0x39].
Definition gcm_memory : aes_gcm := Aes_gcm (replicate 44 7) (replicate 16 1) (replicate 16 2).

Lemma aes_gcm_sp800_38d_witness :
  (aes_gcm_seal (aes_gcm_init gcm_memory gcm_key) gcm_iv gcm_aad gcm_text).2 =
    [0x5b; 0xc9; 0x4f; 0xbc; 0x32; 0x21; 0xa5; 0xdb; 0x94; 0xfa; 0xe9; 0x5a; 0xe7; 0x12; 0x1a; 0x47] /\
  aes_gcm_seal (aes_gcm_init gcm_memory gcm_key) gcm_iv gcm_aad gcm_text = gcm_seal_ref gcm_key gcm_iv gcm_aad gcm_text.
Proof.
  split; [vm_compute; reflexivity|].
  exact (aes_gcm_sp800_38d gcm_memory gcm_key gcm_iv gcm_aad gcm_text eq_refl eq_refl eq_refl
    (bytes_check _ (eq_refl : forallb byte_ok gcm_key = true)) eq_refl (bytes_check _ (eq_refl : forallb byte_ok gcm_iv = true)) eq_refl
    (bytes_check _ (eq_refl : forallb byte_ok gcm_aad = true)) (bytes_check _ (eq_refl : forallb byte_ok gcm_text = true)) eq_refl eq_refl).
Defined.

Lemma aead_open_seal_witness :
  aes_gcm_open (aes_gcm_init gcm_memory gcm_key) gcm_iv gcm_aad (seqZ 0 40) (replicate 16 0) = (-1, seqZ 0 40) /\
  (let '(c, tag) := chacha20poly1305_seal demo_key rfc_nonce rfc_aad rfc_text in
   chacha20poly1305_open demo_key rfc_nonce rfc_aad c tag = (0, rfc_text)).
Proof.
  split; [vm_compute; reflexivity|].
  exact (proj1 (aead_open_seal demo_key rfc_nonce rfc_aad rfc_text gcm_memory eq_refl)).
Defined.
