(* ===== verification/Hash.v ===== *)
(** * SHA-256 with HMAC, HKDF and PBKDF2, and SHA-512 (crypto/sha256.c, crypto/sha512.c)

    A context is a record: the eight words, the number of bytes so far, the
    buffer and how much of it is in use. The C length of an array argument is
    that of its list. [while (c->buf_len != 56)] in the two final functions
    has the size of the buffer as fuel, and [None] is a loop that did not
    end. The two files define functions of the same names: each has a module. *)

From S2P Require Import Prelude Wire LeBytes Aead.

(** [memcpy(buf + at, m, n)] *)
Definition put_bytes (buf : list Z) (at_ : Z) (m : list Z) (n : Z) : list Z :=
  take (Z.to_nat at_) buf ++ take (Z.to_nat n) m ++ drop (Z.to_nat (at_ + n)) buf.

Record hash_ctx := Hash_ctx { hh : list Z; total : Z; hbuf : list Z; buf_len : Z }.
#[export] Instance eta_hash_ctx : Eta hash_ctx := fun c => Hash_ctx (hh c) (total c) (hbuf c) (buf_len c).

Module Sha256.

Definition K : list Z :=
  [0x428a2f98; 0x71374491; 0xb5c0fbcf; 0xe9b5dba5; 0x3956c25b; 0x59f111f1; 0x923f82a4; 0xab1c5ed5]
  ++ [0xd807aa98; 0x12835b01; 0x243185be; 0x550c7dc3; 0x72be5d74; 0x80deb1fe; 0x9bdc06a7; 0xc19bf174]
  ++ [0xe49b69c1; 0xefbe4786; 0x0fc19dc6; 0x240ca1cc; 0x2de92c6f; 0x4a7484aa; 0x5cb0a9dc; 0x76f988da]
  ++ [0x983e5152; 0xa831c66d; 0xb00327c8; 0xbf597fc7; 0xc6e00bf3; 0xd5a79147; 0x06ca6351; 0x14292967]
  ++ [0x27b70a85; 0x2e1b2138; 0x4d2c6dfc; 0x53380d13; 0x650a7354; 0x766a0abb; 0x81c2c92e; 0x92722c85]
  ++ [0xa2bfe8a1; 0xa81a664b; 0xc24b8b70; 0xc76c51a3; 0xd192e819; 0xd6990624; 0xf40e3585; 0x106aa070]
  ++ [0x19a4c116; 0x1e376c08; 0x2748774c; 0x34b0bcb5; 0x391c0cb3; 0x4ed8aa4a; 0x5b9cca4f; 0x682e6ff3]
  ++ [0x748f82ee; 0x78a5636f; 0x84c87814; 0x8cc70208; 0x90befffa; 0xa4506ceb; 0xbef9a3f7; 0xc67178f2].

Definition ROR (x n : Z) : Z := Z.lor (Z.shiftr x n) (u32 (Z.shiftl x (32 - n))).

Definition schedule_step (w : list Z) (i : Z) : list Z :=
  let s0 := Z.lxor (Z.lxor (ROR (aget w (i - 15)) 7) (ROR (aget w (i - 15)) 18)) (Z.shiftr (aget w (i - 15)) 3) in
  let s1 := Z.lxor (Z.lxor (ROR (aget w (i - 2)) 17) (ROR (aget w (i - 2)) 19)) (Z.shiftr (aget w (i - 2)) 10) in
  w ++ [u32 (aget w (i - 16) + s0 + aget w (i - 7) + s1)].

(** [w[0..63]]: an array that is written in order, so a list that grows *)
Definition schedule (p : list Z) : list Z :=
  foldl schedule_step (map (fun i => be32_at p (i * 4)) (seqZ 0 16)) (seqZ 16 48).

Definition round (w : list Z) (s : list Z) (i : Z) : list Z :=
  let a := aget s 0 in let b := aget s 1 in let c := aget s 2 in let d := aget s 3 in
  let e := aget s 4 in let f := aget s 5 in let g := aget s 6 in let hh := aget s 7 in
  let t1 := u32 (hh + Z.lxor (Z.lxor (ROR e 6) (ROR e 11)) (ROR e 25) +
    Z.lxor (Z.land e f) (Z.land (u32 (Z.lnot e)) g) + aget K i + aget w i) in
  let t2 := u32 (Z.lxor (Z.lxor (ROR a 2) (ROR a 13)) (ROR a 22) +
    Z.lxor (Z.lxor (Z.land a b) (Z.land a c)) (Z.land b c)) in
  [u32 (t1 + t2); a; b; c; u32 (d + t1); e; f; g].

Definition compress (h : list Z) (p : list Z) : list Z :=
  let w := schedule p in
  zip_with (fun x y => u32 (x + y)) h (foldl (round w) h (seqZ 0 64)).

Definition SHA256_LEN : Z := 32.
Definition SHA256_BLOCK : Z := 64.

Definition iv : list Z := [
    0x6a09e667; 0xbb67ae85; 0x3c6ef372; 0xa54ff53a;
    0x510e527f; 0x9b05688c; 0x1f83d9ab; 0x5be0cd19].

(** the buffer is left as it was *)
Definition sha256_init (c : hash_ctx) : hash_ctx :=
  c <| hh := iv |> <| total := 0 |> <| buf_len := 0 |>.

(** [while (len >= SHA256_BLOCK)] *)
Fixpoint blocks (fuel : nat) (c : hash_ctx) (p : list Z) : hash_ctx * list Z :=
  match fuel with
  | O => (c, p)
  | S fuel =>
    if SHA256_BLOCK <=? zlen p then blocks fuel (c <| hh ::= fun h => compress h p |>) (drop (Z.to_nat SHA256_BLOCK) p)
    else (c, p)
  end.

Definition rest (c : hash_ctx) (p : list Z) : hash_ctx :=
  let '(c, p) := blocks (length p) c p in
  if zlen p =? 0 then c else c <| hbuf ::= fun b => put_bytes b 0 p (zlen p) |> <| buf_len := zlen p |>.

Definition sha256_update (c : hash_ctx) (p : list Z) : hash_ctx :=
  let c := c <| total ::= fun t => u64 (t + zlen p) |> in
  if buf_len c =? 0 then rest c p
  else
    let take_ := SHA256_BLOCK - buf_len c in
    let take_ := if zlen p <? take_ then zlen p else take_ in
    let c := c <| hbuf ::= fun b => put_bytes b (buf_len c) p take_ |> <| buf_len ::= fun n => n + take_ |> in
    let p := drop (Z.to_nat take_) p in
    if buf_len c <? SHA256_BLOCK then c
    else rest (c <| hh ::= fun h => compress h (hbuf c) |> <| buf_len := 0 |>) p.

(** [while (c->buf_len != 56) sha256_update(c, &zero, 1)] *)
Fixpoint zero_fill (fuel : nat) (c : hash_ctx) : option hash_ctx :=
  if buf_len c =? 56 then Some c
  else match fuel with O => None | S fuel => zero_fill fuel (sha256_update c [0]) end.

(** the digest and the context afterwards *)
Definition sha256_final (c : hash_ctx) : option (list Z * hash_ctx) :=
  let bits := u64 (total c * 8) in
  let c := sha256_update c [0x80] in
  c ← zero_fill 64 c;
  let c := sha256_update c (map (fun i => u8 (Z.shiftr bits (56 - i * 8))) (seqZ 0 8)) in
  Some (mjoin (map (fun i => put_be32 (aget (hh c) i)) (seqZ 0 8)), c).

(** a context on the stack holds anything; [Hash_ctx [] 0 (replicate 64 0) 0] stands for it *)
Definition stack_ctx : hash_ctx := Hash_ctx [] 0 (replicate 64 0) 0.

Definition sha256 (data : list Z) : option (list Z) :=
  '(out, _) ← sha256_final (sha256_update (sha256_init stack_ctx) data); Some out.

Record hmac_ctx := Hmac_ctx { inner : hash_ctx; outer : hash_ctx }.

Definition hmac_sha256_init (key : list Z) : option hmac_ctx :=
  let k := replicate 64 0 in
  k ← (if SHA256_BLOCK <? zlen key then (d ← sha256 key; Some (put_bytes k 0 d 32)) else Some (put_bytes k 0 key (zlen key)));
  let c1 := sha256_update (sha256_init stack_ctx) (map (fun x => Z.lxor x 0x36) k) in
  let c2 := sha256_update (sha256_init stack_ctx) (map (fun x => Z.lxor x 0x5c) k) in
  Some (Hmac_ctx c1 c2).

Definition hmac_sha256_update (c : hmac_ctx) (data : list Z) : hmac_ctx := Hmac_ctx (sha256_update (inner c) data) (outer c).

Definition hmac_sha256_final (c : hmac_ctx) : option (list Z) :=
  '(ih, _) ← sha256_final (inner c);
  '(out, _) ← sha256_final (sha256_update (outer c) ih);
  Some out.

Definition hmac_sha256 (key data : list Z) : option (list Z) :=
  c ← hmac_sha256_init key; hmac_sha256_final (hmac_sha256_update c data).

(** an absent salt is the empty list *)
Definition hkdf_extract (salt ikm : list Z) : option (list Z) :=
  hmac_sha256 (if zlen salt =? 0 then replicate 32 0 else salt) ikm.

(** [while (done < out_len)]; [t] is the last block, of no bytes at first *)
Fixpoint expand (fuel : nat) (prk info t : list Z) (counter left : Z) : option (list Z) :=
  if left <=? 0 then Some []
  else match fuel with
  | O => None
  | S fuel =>
    c ← hmac_sha256_init prk;
    let c := hmac_sha256_update (hmac_sha256_update (hmac_sha256_update c t) info) [counter] in
    t ← hmac_sha256_final c;
    let take_ := if left <? SHA256_LEN then left else SHA256_LEN in
    out ← expand fuel prk info t (u8 (counter + 1)) (left - take_);
    Some (take (Z.to_nat take_) t ++ out)
  end.
Definition hkdf_expand (prk info : list Z) (out_len : Z) : option (list Z) := expand (Z.to_nat out_len) prk info [] 1 out_len.

(** one round of [for (i = 1; i < iterations; i++)]: [u] and [out] *)
Definition pbkdf2_round (base : hmac_ctx) (s : option (list Z * list Z)) (i : Z) : option (list Z * list Z) :=
  '(u, out) ← s;
  u ← hmac_sha256_final (hmac_sha256_update base u);
  Some (u, zip_with Z.lxor out u).

Definition pbkdf2_sha256 (pw salt : list Z) (iterations : Z) : option (list Z) :=
  base ← hmac_sha256_init pw;
  u ← hmac_sha256_final (hmac_sha256_update (hmac_sha256_update base salt) [0; 0; 0; 1]);
  '(_, out) ← foldl (pbkdf2_round base) (Some (u, u)) (seqZ 1 (iterations - 1));
  Some out.

End Sha256.

Module Sha512.

Definition K : list Z := [
    0x428a2f98d728ae22; 0x7137449123ef65cd; 0xb5c0fbcfec4d3b2f; 0xe9b5dba58189dbbc;
    0x3956c25bf348b538; 0x59f111f1b605d019; 0x923f82a4af194f9b; 0xab1c5ed5da6d8118;
    0xd807aa98a3030242; 0x12835b0145706fbe; 0x243185be4ee4b28c; 0x550c7dc3d5ffb4e2;
    0x72be5d74f27b896f; 0x80deb1fe3b1696b1; 0x9bdc06a725c71235; 0xc19bf174cf692694;
    0xe49b69c19ef14ad2; 0xefbe4786384f25e3; 0x0fc19dc68b8cd5b5; 0x240ca1cc77ac9c65;
    0x2de92c6f592b0275; 0x4a7484aa6ea6e483; 0x5cb0a9dcbd41fbd4; 0x76f988da831153b5;
    0x983e5152ee66dfab; 0xa831c66d2db43210; 0xb00327c898fb213f; 0xbf597fc7beef0ee4;
    0xc6e00bf33da88fc2; 0xd5a79147930aa725; 0x06ca6351e003826f; 0x142929670a0e6e70;
    0x27b70a8546d22ffc; 0x2e1b21385c26c926; 0x4d2c6dfc5ac42aed; 0x53380d139d95b3df;
    0x650a73548baf63de; 0x766a0abb3c77b2a8; 0x81c2c92e47edaee6; 0x92722c851482353b;
    0xa2bfe8a14cf10364; 0xa81a664bbc423001; 0xc24b8b70d0f89791; 0xc76c51a30654be30;
    0xd192e819d6ef5218; 0xd69906245565a910; 0xf40e35855771202a; 0x106aa07032bbd1b8;
    0x19a4c116b8d2d0c8; 0x1e376c085141ab53; 0x2748774cdf8eeb99; 0x34b0bcb5e19b48a8;
    0x391c0cb3c5c95a63; 0x4ed8aa4ae3418acb; 0x5b9cca4f7763e373; 0x682e6ff3d6b2b8a3;
    0x748f82ee5defb2fc; 0x78a5636f43172f60; 0x84c87814a1f0ab72; 0x8cc702081a6439ec;
    0x90befffa23631e28; 0xa4506cebde82bde9; 0xbef9a3f7b2c67915; 0xc67178f2e372532b;
    0xca273eceea26619c; 0xd186b8c721c0c207; 0xeada7dd6cde0eb1e; 0xf57d4f7fee6ed178;
    0x06f067aa72176fba; 0x0a637dc5a2c898a6; 0x113f9804bef90dae; 0x1b710b35131c471b;
    0x28db77f523047d84; 0x32caab7b40c72493; 0x3c9ebe0a15c9bebc; 0x431d67c49c100d4c;
    0x4cc5d4becb3e42b6; 0x597f299cfc657e2a; 0x5fcb6fab3ad6faec; 0x6c44198c4a475817].

Definition rotr (x n : Z) : Z := Z.lor (Z.shiftr x n) (u64 (Z.shiftl x (64 - n))).

(** [for (j = 0; j < 8; j++) v = (v << 8) | p[i * 8 + j]] *)
Definition be64_at (p : list Z) (i : Z) : Z := foldl (fun v j => Z.lor (u64 (Z.shiftl v 8)) (aget p (i + j))) 0 (seqZ 0 8).

Definition schedule_step (w : list Z) (i : Z) : list Z :=
  let s0 := Z.lxor (Z.lxor (rotr (aget w (i - 15)) 1) (rotr (aget w (i - 15)) 8)) (Z.shiftr (aget w (i - 15)) 7) in
  let s1 := Z.lxor (Z.lxor (rotr (aget w (i - 2)) 19) (rotr (aget w (i - 2)) 61)) (Z.shiftr (aget w (i - 2)) 6) in
  w ++ [u64 (aget w (i - 16) + s0 + aget w (i - 7) + s1)].

Definition schedule (p : list Z) : list Z :=
  foldl schedule_step (map (fun i => be64_at p (i * 8)) (seqZ 0 16)) (seqZ 16 64).

Definition round (w : list Z) (s : list Z) (i : Z) : list Z :=
  let a := aget s 0 in let b := aget s 1 in let cc := aget s 2 in let d := aget s 3 in
  let e := aget s 4 in let f := aget s 5 in let g := aget s 6 in let h := aget s 7 in
  let S1 := Z.lxor (Z.lxor (rotr e 14) (rotr e 18)) (rotr e 41) in
  let ch := Z.lxor (Z.land e f) (Z.land (u64 (Z.lnot e)) g) in
  let t1 := u64 (h + S1 + ch + aget K i + aget w i) in
  let S0 := Z.lxor (Z.lxor (rotr a 28) (rotr a 34)) (rotr a 39) in
  let maj := Z.lxor (Z.lxor (Z.land a b) (Z.land a cc)) (Z.land b cc) in
  let t2 := u64 (S0 + maj) in
  [u64 (t1 + t2); a; b; cc; u64 (d + t1); e; f; g].

Definition compress (h : list Z) (p : list Z) : list Z :=
  let w := schedule p in
  zip_with (fun x y => u64 (x + y)) h (foldl (round w) h (seqZ 0 80)).

Definition SHA512_LEN : Z := 64.
Definition SHA512_BLOCK : Z := 128.

Definition iv : list Z := [
    0x6a09e667f3bcc908; 0xbb67ae8584caa73b; 0x3c6ef372fe94f82b; 0xa54ff53a5f1d36f1;
    0x510e527fade682d1; 0x9b05688c2b3e6c1f; 0x1f83d9abfb41bd6b; 0x5be0cd19137e2179].

Definition sha512_init (c : hash_ctx) : hash_ctx :=
  c <| hh := iv |> <| total := 0 |> <| buf_len := 0 |>.

(** [while (len)]: a round takes at least a byte *)
Fixpoint update_loop (fuel : nat) (c : hash_ctx) (p : list Z) : hash_ctx :=
  match fuel with
  | O => c
  | S fuel =>
    if zlen p =? 0 then c
    else
      let n := SHA512_BLOCK - buf_len c in
      let n := if zlen p <? n then zlen p else n in
      let c := c <| hbuf ::= fun b => put_bytes b (buf_len c) p n |> <| buf_len ::= fun k => k + n |> in
      let c := if buf_len c =? SHA512_BLOCK then c <| hh ::= fun h => compress h (hbuf c) |> <| buf_len := 0 |> else c in
      update_loop fuel c (drop (Z.to_nat n) p)
  end.
Definition sha512_update (c : hash_ctx) (p : list Z) : hash_ctx :=
  update_loop (length p) (c <| total ::= fun t => u64 (t + zlen p) |>) p.

Fixpoint zero_fill (fuel : nat) (c : hash_ctx) : option hash_ctx :=
  if buf_len c =? SHA512_BLOCK - 16 then Some c
  else match fuel with O => None | S fuel => zero_fill fuel (sha512_update c [0]) end.

Definition sha512_final (c : hash_ctx) : option (list Z * hash_ctx) :=
  let bits := u64 (total c * 8) in
  let c := sha512_update c [0x80] in
  c ← zero_fill 128 c;
  let len := foldl (fun l i => aset l (15 - i) (u8 (Z.shiftr bits (8 * i)))) (replicate 16 0) (seqZ 0 8) in
  let c := sha512_update c len in
  Some (mjoin (map (fun i => map (fun j => u8 (Z.shiftr (aget (hh c) i) (56 - 8 * j))) (seqZ 0 8)) (seqZ 0 8)), c).

Definition stack_ctx : hash_ctx := Hash_ctx [] 0 (replicate 128 0) 0.

Definition sha512 (data : list Z) : option (list Z) :=
  '(out, _) ← sha512_final (sha512_update (sha512_init stack_ctx) data); Some out.

End Sha512.
