(* ===== verification/Fips180.v ===== *)
(** * FIPS 180-4: the secure hash standard, and its compression functions in the code

    The standard on words of [w] bits, from its own text: the constants are
    the fractional parts of roots of the first primes, a rotation is
    arithmetic, the message schedule is a recurrence on the newest word. The
    compression functions of crypto/sha256.c and crypto/sha512.c, with the
    tables in them, are proved equal to the standard's. *)

From S2P Require Import Prelude LeBytes Aead AeadPoly Hash.

(** ** The standard *)

(** sections 4.1 and 4.2: what the hashes differ in - the width of a word,
    the number of rounds, and the distances of the rotations (of the small
    functions, two rotations and a shift) *)
Record sha_variant := Sha_variant {
  w_bits : Z; n_rounds : nat;
  Sigma0 : Z * Z * Z; Sigma1 : Z * Z * Z; sigma0 : Z * Z * Z; sigma1 : Z * Z * Z
}.

Definition SHA_256 : sha_variant := Sha_variant 32 64 (2, 13, 22) (6, 11, 25) (7, 18, 3) (17, 19, 10).
Definition SHA_512 : sha_variant := Sha_variant 64 80 (28, 34, 39) (14, 18, 41) (1, 8, 7) (19, 61, 6).

(** the greatest [r] below [2 ^ bits] with [r ^ k <= n], one bit after the other *)
Fixpoint root_from (k n r : Z) (bits : nat) : Z :=
  match bits with
  | O => r
  | S b => let r' := r + 2 ^ Z.of_nat b in root_from k n (if r' ^ k <=? n then r' else r) b
  end.

Definition divides_none (ps : list Z) (n : Z) : bool := forallb (fun p => negb (n mod p =? 0)) ps.

(** the primes below [n] *)
Definition primes_below (n : Z) : list Z :=
  foldl (fun ps i => if divides_none ps i then ps ++ [i] else ps) [] (seqZ 2 (n - 2)).

Section Standard.
Variable v : sha_variant.
Let w := w_bits v.

(** "the first [w] bits of the fractional parts of the [k]-th root" *)
Definition frac_root (k p : Z) : Z := root_from k (p * 2 ^ (k * w)) 0 (Z.to_nat (w + 5)) mod 2 ^ w.

Definition K_const : list Z := map (frac_root 3) (take (n_rounds v) (primes_below 410)).
Definition H_init : list Z := map (frac_root 2) (take 8 (primes_below 410)).

Definition ROTR (n x : Z) : Z := x / 2 ^ n + x mod 2 ^ n * 2 ^ (w - n).
Definition SHR (n x : Z) : Z := x / 2 ^ n.
Definition Ch (x y z : Z) : Z := Z.lor (Z.land x y) (Z.ldiff z x).
Definition Maj (x y z : Z) : Z := Z.lor (Z.lor (Z.land x y) (Z.land x z)) (Z.land y z).
Definition big (s : Z * Z * Z) (x : Z) : Z :=
  let '(a, b, c) := s in Z.lxor (ROTR a x) (Z.lxor (ROTR b x) (ROTR c x)).
Definition small (s : Z * Z * Z) (x : Z) : Z :=
  let '(a, b, c) := s in Z.lxor (ROTR a x) (Z.lxor (ROTR b x) (SHR c x)).

(** the number big-endian bytes stand for, and the bytes of a word *)
Definition word_val (p : list Z) : Z := foldl (fun a b => 256 * a + b) 0 p.
Definition word_bytes (x : Z) : list Z := rev (le_bytes (Z.to_nat (w / 8)) x).

(** 6.2.2 and 6.4.2, step 1, the newest word first *)
Definition next_word (ws : list Z) : list Z :=
  (small (sigma1 v) (aget ws 1) + aget ws 6 + small (sigma0 v) (aget ws 14) + aget ws 15) mod 2 ^ w :: ws.
Definition words_of (block : list Z) : list Z := map word_val (chunks (Z.to_nat (w / 8)) block).
Definition W (block : list Z) : list Z := reverse (Nat.iter (n_rounds v - 16) next_word (reverse (words_of block))).

(** step 3 *)
Definition sha_round (s : list Z) (kw : Z * Z) : list Z :=
  match s with
  | [a; b; c; d; e; f; g; h] =>
    let T1 := h + big (Sigma1 v) e + Ch e f g + kw.1 + kw.2 in
    let T2 := big (Sigma0 v) a + Maj a b c in
    [(T1 + T2) mod 2 ^ w; a; b; c; (d + T1) mod 2 ^ w; e; f; g]
  | _ => s
  end.

(** steps 2 to 4 on a block *)
Definition sha_block (H block : list Z) : list Z :=
  zip_with (fun x y => (x + y) mod 2 ^ w) H (foldl sha_round H (zip K_const (W block))).

(** 5.1: a one bit, the fewest zeros, the length in bits *)
Definition sha_padded (msg : list Z) : list Z :=
  let B := 2 * w in let l := zlen msg in
  msg ++ [0x80] ++ replicate (Z.to_nat ((B - w / 4 - 1 - l) mod B)) 0 ++ rev (le_bytes (Z.to_nat (w / 4)) (8 * l)).

Definition sha (msg : list Z) : list Z :=
  mjoin (map word_bytes (foldl sha_block H_init (chunks (Z.to_nat (2 * w)) (sha_padded msg)))).
End Standard.

Lemma root_from_spec k n bits : 0 < k -> forall r, 0 <= r -> r ^ k <= n < (r + 2 ^ Z.of_nat bits) ^ k ->
  let s := root_from k n r bits in s ^ k <= n < (s + 1) ^ k.
Proof.
  intros Hk. induction bits as [|b IH]; intros r Hr Hn; [done|]. cbn [root_from].
  pose proof (Z.pow_nonneg 2 (Z.of_nat b) ltac:(lia)). rewrite Nat2Z.inj_succ, Z.pow_succ_r in Hn by lia.
  destruct (Z.leb_spec ((r + 2 ^ Z.of_nat b) ^ k) n); apply IH; try lia.
  replace (r + 2 ^ Z.of_nat b + 2 ^ Z.of_nat b) with (r + 2 * 2 ^ Z.of_nat b) by lia. lia.
Qed.

(** ** The tables of the code *)

Lemma K256 : K_const SHA_256 = Sha256.K.
Proof. vm_compute. reflexivity. Qed.
Lemma K512 : K_const SHA_512 = Sha512.K.
Proof. vm_compute. reflexivity. Qed.
Lemma H256 : H_init SHA_256 = Sha256.iv.
Proof. vm_compute. reflexivity. Qed.
Lemma H512 : H_init SHA_512 = Sha512.iv.
Proof. vm_compute. reflexivity. Qed.

(** ** The functions on words *)

Lemma rotate_or w n x : 0 < n < w -> 0 <= x < 2 ^ w ->
  Z.lor (Z.shiftr x n) ((Z.shiftl x (w - n)) mod 2 ^ w) = x / 2 ^ n + x mod 2 ^ n * 2 ^ (w - n).
Proof.
  intros Hn Hx. rewrite Z.shiftr_div_pow2, Z.shiftl_mul_pow2, Z.lor_comm by lia.
  assert (E : 2 ^ w = 2 ^ n * 2 ^ (w - n)) by (rewrite <- Z.pow_add_r by lia; f_equal; lia).
  rewrite E, Z.mul_mod_distr_r by (apply Z.pow_nonzero; lia). rewrite (lor_low (w - n)); [lia|lia| |].
  - split; [apply Z.div_pos; lia|]. apply Z.div_lt_upper_bound; lia.
  - apply Z.mod_mul, Z.pow_nonzero; lia.
Qed.

Lemma ROR_eq n x : 0 < n < 32 -> is_u32 x -> Sha256.ROR x n = ROTR SHA_256 n x.
Proof. intros. by apply rotate_or. Qed.

Lemma rotr_eq n x : 0 < n < 64 -> is_u64 x -> Sha512.rotr x n = ROTR SHA_512 n x.
Proof. intros. by apply rotate_or. Qed.

(** the code's [(x & y) ^ (~x & z)] and [(x & y) ^ (x & z) ^ (y & z)] *)
Lemma ch_eq w x y z : 0 <= w -> 0 <= z < 2 ^ w ->
  Z.lxor (Z.land x y) (Z.land (Z.lnot x mod 2 ^ w) z) = Ch x y z.
Proof.
  intros Hw Hz. apply Z.bits_inj'. intros i Hi. unfold Ch.
  rewrite Z.lxor_spec, Z.lor_spec, !Z.land_spec, Z.ldiff_spec. destruct (Z.lt_ge_cases i w).
  - rewrite Z.mod_pow2_bits_low, Z.lnot_spec by lia. by destruct (Z.testbit x i), (Z.testbit y i), (Z.testbit z i).
  - rewrite (testbit_above w z i) by lia. by rewrite !andb_false_r, xorb_false_r, orb_false_r.
Qed.

Lemma maj_eq x y z : Z.lxor (Z.lxor (Z.land x y) (Z.land x z)) (Z.land y z) = Maj x y z.
Proof.
  apply Z.bits_inj'. intros i Hi. unfold Maj. rewrite !Z.lxor_spec, !Z.lor_spec, !Z.land_spec.
  by destruct (Z.testbit x i), (Z.testbit y i), (Z.testbit z i).
Qed.

Lemma aget_reverse (l : list Z) j : 0 <= j < zlen l -> aget (reverse l) j = aget l (zlen l - 1 - j).
Proof.
  intros Hj. unfold aget, zlen in *. rewrite !list_lookup_total_alt, reverse_lookup by lia. by do 2 f_equal; lia.
Qed.

Lemma mod_word w x : 0 <= w -> 0 <= x mod 2 ^ w < 2 ^ w.
Proof. intros. apply Z.mod_pos_bound, Z.pow_pos_nonneg; lia. Qed.

(** ** A compression function of the code, and the standard's *)

Lemma zip_seqZ (k l : list Z) n : zlen k = n -> zlen l = n -> map (fun i => (aget k i, aget l i)) (seqZ 0 n) = zip k l.
Proof.
  intros Hk Hl. apply list_eq. intros i. unfold zlen in *. rewrite list_lookup_fmap.
  destruct (decide (i < Z.to_nat n)%nat) as [Hi | Hi].
  - rewrite lookup_seqZ_lt by lia. cbn. rewrite lookup_zip_with. unfold aget. rewrite !Z.add_0_l, Nat2Z.id.
    rewrite !list_lookup_lookup_total_lt by lia. done.
  - rewrite lookup_seqZ_ge by lia. symmetry. apply lookup_ge_None. rewrite length_zip_with. lia.
Qed.

Lemma forall_zip_with {A B D} (P : D -> Prop) (f : A -> B -> D) l : (forall x y, P (f x y)) -> forall k, Forall P (zip_with f l k).
Proof. intros Hf. induction l as [|x l IH]; intros [|y k]; constructor; auto. Qed.

Section Words_kept.
Variable v : sha_variant.
Hypothesis w_pos : 0 < w_bits v.

Lemma next_word_words ws : words (w_bits v) ws -> words (w_bits v) (next_word v ws).
Proof. intros Hw. apply Forall_cons. split; [apply mod_word; lia|done]. Qed.

Lemma sha_round_words s kw : words (w_bits v) s -> length s = 8%nat ->
  words (w_bits v) (sha_round v s kw) /\ length (sha_round v s kw) = 8%nat.
Proof.
  intros Hs Hl. destruct s as [|a [|b [|c [|d [|e [|f [|g [|h []]]]]]]]]; try done.
  unfold words in *. rewrite !Forall_cons in *. pose proof (mod_word (w_bits v)) as Hm.
  split; [|done]. unfold sha_round. rewrite !Forall_cons. naive_solver lia.
Qed.

Lemma sha_block_words h block : words (w_bits v) h -> length h = 8%nat ->
  words (w_bits v) (sha_block v h block) /\ length (sha_block v h block) = 8%nat.
Proof.
  intros Hh Hl. unfold sha_block. generalize (zip (K_const v) (W v block)). intros kws.
  assert (H : length (foldl (sha_round v) h kws) = 8%nat).
  { revert h Hh Hl. induction kws as [|kw kws IH]; intros h Hh Hl; [done|]. cbn [foldl].
    destruct (sha_round_words h kw Hh Hl). by apply IH. }
  split; [|rewrite length_zip_with, H, Hl; done]. apply forall_zip_with. intros. apply mod_word. lia.
Qed.
End Words_kept.

Section Compression.
Variable v : sha_variant.
Variable step : list Z -> Z -> list Z.           (* the code's next word *)
Variable rd : list Z -> list Z -> Z -> list Z.   (* and its round *)
Variable K : list Z.
Hypothesis w_pos : 0 < w_bits v.
Hypothesis K_eq : K_const v = K.
Hypothesis K_len : zlen K = Z.of_nat (n_rounds v).
Hypothesis enough : (16 <= n_rounds v)%nat.
Hypothesis step_eq : forall l, words (w_bits v) l -> 16 <= zlen l ->
  exists x, next_word v (reverse l) = x :: reverse l /\ step l (zlen l) = l ++ [x].
Hypothesis rd_eq : forall ws s i, words (w_bits v) s -> length s = 8%nat -> rd ws s i = sha_round v s (aget K i, aget ws i).

Lemma schedule_iter n l : words (w_bits v) l -> zlen l = 16 ->
  let l' := foldl step l (seqZ 16 (Z.of_nat n)) in
  reverse l' = Nat.iter n (next_word v) (reverse l) /\ zlen l' = 16 + Z.of_nat n /\ words (w_bits v) l'.
Proof.
  intros Hw Hl. induction n as [|n IH]; [by rewrite Z.add_0_r|]. cbv zeta in *. rewrite seqZ_S, foldl_app, Nat.iter_succ.
  cbn [foldl]. destruct IH as (Hr & Hz & Hws). set (l' := foldl step l (seqZ 16 (Z.of_nat n))) in *. rewrite <- Hz, <- Hr.
  destruct (step_eq l' Hws ltac:(lia)) as (x & Hx & ->). rewrite reverse_snoc, Hx, zlen_app. change (zlen [x]) with 1.
  split_and!; [done|lia|]. pose proof (next_word_words v w_pos (reverse l')) as Hn. rewrite Hx in Hn.
  apply Forall_app. split; [done|]. apply Forall_cons. split; [|done].
  apply Forall_reverse, Hn, Forall_cons in Hws. apply Hws.
Qed.


Lemma rounds_eq ws l : forall s, words (w_bits v) s -> length s = 8%nat ->
  let s' := foldl (rd ws) s l in
  s' = foldl (sha_round v) s (map (fun i => (aget K i, aget ws i)) l) /\ words (w_bits v) s' /\ length s' = 8%nat.
Proof.
  induction l as [|i l IH]; intros s Hs Hl; [done|]. cbn [foldl map]. rewrite rd_eq by done.
  destruct (sha_round_words v w_pos s (aget K i, aget ws i) Hs Hl). by apply IH.
Qed.

Lemma block_eq h block : words (w_bits v) h -> length h = 8%nat ->
  words (w_bits v) (words_of v block) -> zlen (words_of v block) = 16 ->
  zip_with (fun x y => (x + y) mod 2 ^ w_bits v) h
    (foldl (rd (foldl step (words_of v block) (seqZ 16 (Z.of_nat (n_rounds v) - 16)))) h (seqZ 0 (Z.of_nat (n_rounds v)))) =
  sha_block v h block.
Proof.
  intros Hh Hl Hw Hz. replace (Z.of_nat (n_rounds v) - 16) with (Z.of_nat (n_rounds v - 16)) by lia.
  destruct (schedule_iter (n_rounds v - 16) _ Hw Hz) as (Hr & Hlen & _). cbv zeta in *. unfold sha_block. f_equal.
  set (ws := foldl step _ _) in *. rewrite (proj1 (rounds_eq ws _ h Hh Hl)). f_equal. unfold W.
  rewrite <- Hr, reverse_involutive, K_eq. apply zip_seqZ; lia.
Qed.

End Compression.

(** ** Words of a block *)

Section Words.
Variable k : nat.
Variable rdw : list Z -> Z -> Z.   (* the code's word at a byte of the block *)
Hypothesis k_pos : (0 < k)%nat.
Hypothesis rdw_skip : forall b p i, length b = k -> 0 <= i -> rdw (b ++ p) (Z.of_nat k + i) = rdw p i.
Hypothesis rdw_head : forall b p, length b = k -> bytes b -> rdw (b ++ p) 0 = word_val b.

Lemma words_eq n : forall p, bytes p -> length p = (k * n)%nat ->
  map (fun i => rdw p (i * Z.of_nat k)) (seqZ 0 (Z.of_nat n)) = map word_val (chunks k p).
Proof.
  induction n as [|n IH]; intros p Hp Hl.
  - rewrite Nat.mul_0_r in Hl. destruct p; [by rewrite chunks_nil|done].
  - assert (E : p = take k p ++ drop k p) by (by rewrite take_drop). set (b := take k p) in *. set (q := drop k p) in *.
    assert (Hb : length b = k) by (subst b; rewrite length_take; lia).
    assert (Hq : length q = (k * n)%nat) by (subst q; rewrite length_drop; lia). clearbody b q. subst p.
    apply bytes_app in Hp as [Hpb Hpq]. rewrite chunks_app by done. cbn [map]. rewrite <- (IH q) by done.
    rewrite seqZ_cons, Nat2Z.inj_succ, Z.pred_succ by lia. cbn [map]. rewrite Z.mul_0_l, rdw_head by done. f_equal.
    change (Z.succ 0) with (1 + 0). rewrite <- (fmap_add_seqZ 1 0).
    change (map ?f (Z.add 1 <$> ?l)) with (f <$> (Z.add 1 <$> l)). rewrite <- list_fmap_compose.
    apply list_fmap_ext. intros j i Hi. apply list_elem_of_lookup_2, elem_of_seqZ in Hi. unfold compose. rewrite <- (rdw_skip b q) by lia. f_equal. lia.
Qed.
End Words.

Lemma aget_cons x (p : list Z) i : 0 <= i -> aget (x :: p) (1 + i) = aget p i.
Proof. intros. unfold aget. replace (Z.to_nat (1 + i)) with (S (Z.to_nat i)) by lia. done. Qed.

Lemma be32_skip b p i : length b = 4%nat -> 0 <= i -> be32_at (b ++ p) (4 + i) = be32_at p i.
Proof.
  intros Hb Hi. assert (E : forall j, 0 <= j -> aget (b ++ p) (4 + j) = aget p j).
  { intros j Hj. rewrite aget_app by lia. unfold zlen. rewrite Hb. case_bool; zbool; [lia|]. f_equal. lia. }
  unfold be32_at. by rewrite <- !Z.add_assoc, !E by lia.
Qed.

Lemma be32_head b p : length b = 4%nat -> bytes b -> be32_at (b ++ p) 0 = word_val b.
Proof.
  intros Hb Hp. destruct b as [|b0 [|b1 [|b2 [|b3 []]]]]; try done. unfold bytes in Hp. rewrite !Forall_cons in Hp.
  destruct Hp as (H0 & H1 & H2 & H3 & _). unfold be32_at.
  change (Z.lor (Z.lor (Z.lor (Z.shiftl b0 24) (Z.shiftl b1 16)) (Z.shiftl b2 8)) b3 = word_val [b0; b1; b2; b3]).
  unfold is_u8 in *. rewrite !Z.shiftl_mul_pow2 by lia.
  rewrite (lor_low 24 (b0 * 2 ^ 24)), (lor_low 16 (_ + _)), (lor_low 8 (_ + _)) by lia. cbn [word_val foldl]. lia.
Qed.

Lemma word_val_range b : bytes b -> 0 <= word_val b < 2 ^ (8 * zlen b).
Proof.
  unfold word_val. induction b as [|x b IH] using rev_ind; intros Hb; [done|]. apply bytes_app in Hb as [Hb Hx].
  apply Forall_cons in Hx as [Hx _]. rewrite foldl_app. cbn [foldl]. specialize (IH Hb). rewrite zlen_app.
  change (zlen [x]) with 1. pose proof (zlen_nonneg b). replace (8 * (zlen b + 1)) with (8 + 8 * zlen b) by lia.
  rewrite Z.pow_add_r by lia. unfold is_u8 in Hx. lia.
Qed.

Lemma chunks_forall n (P : list Z -> Prop) l : (0 < n)%nat -> (forall b, length b = n -> bytes b -> P b) ->
  forall m, bytes l -> length l = (n * m)%nat -> Forall P (chunks n l).
Proof.
  intros Hn HP m. revert l. induction m as [|m IH]; intros l Hb Hl.
  - rewrite Nat.mul_0_r in Hl. destruct l; [rewrite chunks_nil; constructor|done].
  - rewrite <- (take_drop n l) in Hb |- *. apply bytes_app in Hb as [Hb1 Hb2].
    assert (Ht : length (take n l) = n) by (rewrite length_take; lia).
    rewrite chunks_app by done. constructor; [by apply HP|]. apply IH; [done|]. rewrite length_drop. lia.
Qed.

(** ** SHA-256 *)

Lemma step256 l : words 32 l -> 16 <= zlen l ->
  exists x, next_word SHA_256 (reverse l) = x :: reverse l /\ Sha256.schedule_step l (zlen l) = l ++ [x].
Proof.
  intros Hw Hl. eexists. split; [reflexivity|]. unfold Sha256.schedule_step. do 2 f_equal.
  rewrite !aget_reverse by lia. unfold small, SHR. cbn [sigma0 sigma1 SHA_256].
  replace (zlen l - 1 - 1) with (zlen l - 2) by lia. replace (zlen l - 1 - 6) with (zlen l - 7) by lia.
  replace (zlen l - 1 - 14) with (zlen l - 15) by lia. replace (zlen l - 1 - 15) with (zlen l - 16) by lia.
  assert (H2 : is_u32 (aget l (zlen l - 2))) by (apply (words_at 32); [done|lia]).
  assert (H15 : is_u32 (aget l (zlen l - 15))) by (apply (words_at 32); [done|lia]).
  rewrite !ROR_eq, !Z.shiftr_div_pow2, !Z.lxor_assoc by (done || lia). unfold u32. f_equal. lia.
Qed.

Lemma round256 ws s i : words 32 s -> length s = 8%nat ->
  Sha256.round ws s i = sha_round SHA_256 s (aget Sha256.K i, aget ws i).
Proof.
  intros Hs Hl. destruct s as [|a [|b [|c [|d [|e [|f [|g [|h []]]]]]]]]; try done.
  unfold words in Hs. rewrite !Forall_cons in Hs. destruct Hs as (Ha & Hb & Hc & Hd & He & Hf & Hg & Hh & _).
  unfold Sha256.round, sha_round. cbv zeta.
  change (aget [a; b; c; d; e; f; g; h] 0) with a. change (aget [a; b; c; d; e; f; g; h] 1) with b.
  change (aget [a; b; c; d; e; f; g; h] 2) with c. change (aget [a; b; c; d; e; f; g; h] 3) with d.
  change (aget [a; b; c; d; e; f; g; h] 4) with e. change (aget [a; b; c; d; e; f; g; h] 5) with f.
  change (aget [a; b; c; d; e; f; g; h] 6) with g. change (aget [a; b; c; d; e; f; g; h] 7) with h.
  rewrite !ROR_eq by (done || lia). unfold u32 at 2. rewrite (ch_eq 32), maj_eq by (done || lia).
  unfold big. cbn [Sigma0 Sigma1 SHA_256 w_bits fst snd]. rewrite !Z.lxor_assoc.
  unfold u32. by rewrite <- Zplus_mod, Zplus_mod_idemp_r.
Qed.

Lemma words256 p : bytes p -> zlen p = 64 ->
  map (fun i => be32_at p (i * 4)) (seqZ 0 16) = words_of SHA_256 p /\ words 32 (words_of SHA_256 p).
Proof.
  intros Hp Hl. split.
  - apply (words_eq 4 be32_at ltac:(lia) be32_skip be32_head 16); [done|unfold zlen in Hl; lia].
  - apply Forall_map, (chunks_forall 4 _ _ ltac:(lia)) with (m := 16%nat); [|done|unfold zlen in Hl; lia].
    intros b Hb Hbb. pose proof (word_val_range b Hbb) as H. unfold zlen in H. by rewrite Hb in H.
Qed.

Lemma compress256 h p : words 32 h -> length h = 8%nat -> bytes p -> zlen p = 64 -> Sha256.compress h p = sha_block SHA_256 h p.
Proof.
  intros Hh Hl Hp Hz. destruct (words256 p Hp Hz) as [Hw Hws]. unfold Sha256.compress, Sha256.schedule. rewrite Hw.
  apply (block_eq SHA_256 Sha256.schedule_step Sha256.round Sha256.K eq_refl K256 eq_refl);
    [apply Nat.leb_le; done|exact step256|exact round256|done|done|done|by rewrite <- Hw].
Qed.

(** ** SHA-512 *)

Lemma step512 l : words 64 l -> 16 <= zlen l ->
  exists x, next_word SHA_512 (reverse l) = x :: reverse l /\ Sha512.schedule_step l (zlen l) = l ++ [x].
Proof.
  intros Hw Hl. eexists. split; [reflexivity|]. unfold Sha512.schedule_step. do 2 f_equal.
  rewrite !aget_reverse by lia. unfold small, SHR. cbn [sigma0 sigma1 SHA_512].
  replace (zlen l - 1 - 1) with (zlen l - 2) by lia. replace (zlen l - 1 - 6) with (zlen l - 7) by lia.
  replace (zlen l - 1 - 14) with (zlen l - 15) by lia. replace (zlen l - 1 - 15) with (zlen l - 16) by lia.
  assert (H2 : is_u64 (aget l (zlen l - 2))) by (apply (words_at 64); [done|lia]).
  assert (H15 : is_u64 (aget l (zlen l - 15))) by (apply (words_at 64); [done|lia]).
  rewrite !rotr_eq, !Z.shiftr_div_pow2, !Z.lxor_assoc by (done || lia). unfold u64. f_equal. lia.
Qed.

Lemma round512 ws s i : words 64 s -> length s = 8%nat ->
  Sha512.round ws s i = sha_round SHA_512 s (aget Sha512.K i, aget ws i).
Proof.
  intros Hs Hl. destruct s as [|a [|b [|c [|d [|e [|f [|g [|h []]]]]]]]]; try done.
  unfold words in Hs. rewrite !Forall_cons in Hs. destruct Hs as (Ha & Hb & Hc & Hd & He & Hf & Hg & Hh & _).
  unfold Sha512.round, sha_round. cbv zeta.
  change (aget [a; b; c; d; e; f; g; h] 0) with a. change (aget [a; b; c; d; e; f; g; h] 1) with b.
  change (aget [a; b; c; d; e; f; g; h] 2) with c. change (aget [a; b; c; d; e; f; g; h] 3) with d.
  change (aget [a; b; c; d; e; f; g; h] 4) with e. change (aget [a; b; c; d; e; f; g; h] 5) with f.
  change (aget [a; b; c; d; e; f; g; h] 6) with g. change (aget [a; b; c; d; e; f; g; h] 7) with h.
  rewrite !rotr_eq by (done || lia). unfold u64 at 2. rewrite (ch_eq 64), maj_eq by (done || lia).
  unfold big. cbn [Sigma0 Sigma1 SHA_512 w_bits fst snd]. rewrite !Z.lxor_assoc.
  unfold u64. by rewrite <- Zplus_mod, Zplus_mod_idemp_r.
Qed.

Lemma be64_byte v b : is_u64 (256 * v + b) -> 0 <= v -> is_u8 b -> Z.lor (u64 (Z.shiftl v 8)) b = 256 * v + b.
Proof.
  intros Hv H0 Hb. unfold u64, is_u64, is_u8 in *. rewrite Z.shiftl_mul_pow2, Z.mod_small by lia.
  rewrite (lor_low 8) by lia. lia.
Qed.

Lemma be64_skip b p i : length b = 8%nat -> 0 <= i -> Sha512.be64_at (b ++ p) (8 + i) = Sha512.be64_at p i.
Proof.
  intros Hb Hi. unfold Sha512.be64_at. generalize 0 at 1 3. 
  assert (H : Forall (fun j => 0 <= j) (seqZ 0 8)) by (apply Forall_seqZ; lia). induction H as [|j l Hj Hl IH]; intros v; [done|].
  cbn [foldl]. rewrite (aget_app b) by lia. unfold zlen. rewrite Hb. case_bool; zbool; [lia|].
  replace (8 + i + j - Z.of_nat 8) with (i + j) by lia. apply IH.
Qed.

Lemma be64_head b p : length b = 8%nat -> bytes b -> Sha512.be64_at (b ++ p) 0 = word_val b.
Proof.
  intros Hb Hp. destruct b as [|b0 [|b1 [|b2 [|b3 [|b4 [|b5 [|b6 [|b7 []]]]]]]]]; try done.
  unfold bytes in Hp. rewrite !Forall_cons in Hp. destruct Hp as (H0 & H1 & H2 & H3 & H4 & H5 & H6 & H7 & _).
  unfold Sha512.be64_at, word_val. change (seqZ 0 8) with [0; 1; 2; 3; 4; 5; 6; 7]. cbn [foldl].
  change (aget (_ ++ p) (0 + 0)) with b0. change (aget (_ ++ p) (0 + 1)) with b1.
  change (aget (_ ++ p) (0 + 2)) with b2. change (aget (_ ++ p) (0 + 3)) with b3.
  change (aget (_ ++ p) (0 + 4)) with b4. change (aget (_ ++ p) (0 + 5)) with b5.
  change (aget (_ ++ p) (0 + 6)) with b6. change (aget (_ ++ p) (0 + 7)) with b7.
  rewrite (be64_byte 0 b0), (be64_byte (_ + b0) b1), (be64_byte (_ + b1) b2), (be64_byte (_ + b2) b3), (be64_byte (_ + b3) b4),
    (be64_byte (_ + b4) b5), (be64_byte (_ + b5) b6), (be64_byte (_ + b6) b7); unfold is_u64, is_u8 in *; lia.
Qed.

Lemma words512 p : bytes p -> zlen p = 128 ->
  map (fun i => Sha512.be64_at p (i * 8)) (seqZ 0 16) = words_of SHA_512 p /\ words 64 (words_of SHA_512 p).
Proof.
  intros Hp Hl. split.
  - apply (words_eq 8 Sha512.be64_at ltac:(lia) be64_skip be64_head 16); [done|unfold zlen in Hl; lia].
  - apply Forall_map, (chunks_forall 8 _ _ ltac:(lia)) with (m := 16%nat); [|done|unfold zlen in Hl; lia].
    intros b Hb Hbb. pose proof (word_val_range b Hbb) as H. unfold zlen in H. by rewrite Hb in H.
Qed.

Lemma compress512 h p : words 64 h -> length h = 8%nat -> bytes p -> zlen p = 128 -> Sha512.compress h p = sha_block SHA_512 h p.
Proof.
  intros Hh Hl Hp Hz. destruct (words512 p Hp Hz) as [Hw Hws]. unfold Sha512.compress, Sha512.schedule. rewrite Hw.
  apply (block_eq SHA_512 Sha512.schedule_step Sha512.round Sha512.K eq_refl K512 eq_refl);
    [apply Nat.leb_le; done|exact step512|exact round512|done|done|done|by rewrite <- Hw].
Qed.

(** ** Whole messages *)

(** a hash of the code folded over blocks, and the standard's *)
Lemma blocks_fold v (compress : list Z -> list Z -> list Z) (n : nat) : 0 < w_bits v ->
  (forall h p, words (w_bits v) h -> length h = 8%nat -> bytes p -> zlen p = Z.of_nat n -> compress h p = sha_block v h p) ->
  forall bs h, Forall (fun b => length b = n /\ bytes b) bs -> words (w_bits v) h -> length h = 8%nat ->
  foldl compress h bs = foldl (sha_block v) h bs /\ words (w_bits v) (foldl (sha_block v) h bs) /\
  length (foldl (sha_block v) h bs) = 8%nat.
Proof.
  intros Hv Hc bs. induction bs as [|b bs IH]; intros h Hbs Hh Hl; [done|]. apply Forall_cons in Hbs as [[Hb Hbb] Hbs].
  cbn [foldl]. rewrite Hc by (try done; unfold zlen; by rewrite Hb).
  destruct (sha_block_words v Hv h b Hh Hl). by apply IH.
Qed.
