(* ===== verification/HashProps.v ===== *)
(** * The hashes are FIPS 180-4's, and what is built on them RFC 2104, 5869 and 8018

    A message handed over in any pieces is padded and cut as the standard of
    Fips180.v says, the padding loop ends, and HMAC, HKDF and PBKDF2 are the
    standards' formulas over the hash of whole messages. Both hashes are one
    argument about a buffer of [B] bytes. *)

From S2P Require Import Prelude Wire LeBytes Aead AeadPoly AeadProps Hash Fips180.

(** ** A buffered hash of blocks *)

Section Fed.
Variable B : nat.
Variable compress : list Z -> list Z -> list Z.
Variable iv : list Z.
Hypothesis B_pos : (0 < B)%nat.

(** the context after the blocks [bs], with [tail] in its buffer *)
Record buffered (bs : list (list Z)) (tail : list Z) (c : hash_ctx) : Prop := Buffered {
  bf_h : hh c = foldl compress iv bs;
  bf_len : buf_len c = zlen tail;
  bf_short : (length tail < B)%nat;
  bf_buf : length (hbuf c) = B;
  bf_tail : take (length tail) (hbuf c) = tail;
  bf_bs : Forall (fun b => length b = B) bs
}.

(** the context after [msg] *)
Definition fed (msg : list Z) (c : hash_ctx) : Prop :=
  total c = u64 (zlen msg) /\ exists bs tail, msg = mjoin bs ++ tail /\ buffered bs tail c.

(** [n] more bytes in a buffer that has room *)
Lemma put_bytes_tail bs tail c m n : buffered bs tail c -> 0 <= n <= zlen m -> zlen tail + n <= Z.of_nat B ->
  let buf := put_bytes (hbuf c) (buf_len c) m n in
  length buf = B /\ take (length tail + Z.to_nat n) buf = tail ++ take (Z.to_nat n) m /\
  (zlen tail + n = Z.of_nat B -> buf = tail ++ take (Z.to_nat n) m).
Proof.
  intros [Hh Hl Hs Hb Ht Hbs] Hn Hr. cbv zeta. unfold put_bytes. rewrite Hl.
  replace (Z.to_nat (zlen tail)) with (length tail) by (unfold zlen; lia). rewrite Ht, app_assoc.
  assert (Hd : length (tail ++ take (Z.to_nat n) m) = (length tail + Z.to_nat n)%nat).
  { rewrite length_app, length_take. unfold zlen in *. lia. }
  split_and!.
  - rewrite length_app, Hd, length_drop, Hb. unfold zlen in *. lia.
  - by rewrite <- Hd, take_app_length.
  - intros E. rewrite drop_ge, app_nil_r; [done|]. unfold zlen in *. lia.
Qed.

Lemma buffered_init tot buf : length buf = B -> buffered [] [] (Hash_ctx iv tot buf 0).
Proof. intros Hb. by split. Qed.

(** a full buffer goes in *)
Lemma buffered_full bs tail c m n : buffered bs tail c -> 0 <= n <= zlen m -> zlen tail + n = Z.of_nat B ->
  let b := tail ++ take (Z.to_nat n) m in
  put_bytes (hbuf c) (buf_len c) m n = b /\
  forall tot, buffered (bs ++ [b]) [] (Hash_ctx (compress (hh c) b) tot b 0).
Proof.
  intros Hc Hn E b. destruct (put_bytes_tail bs tail c m n Hc Hn ltac:(lia)) as (H1 & _ & H3). cbv zeta in H1, H3.
  rewrite H3 in * by done. split; [done|]. intros tot. destruct Hc as [Hh Hl Hs Hb Ht Hbs]. split; try done.
  - cbn [hh]. by rewrite foldl_app, Hh.
  - apply Forall_app. split; [done|]. by apply Forall_cons.
Qed.

Lemma buffered_part bs tail c m n tot : buffered bs tail c -> 0 <= n <= zlen m -> zlen tail + n < Z.of_nat B ->
  buffered bs (tail ++ take (Z.to_nat n) m) (Hash_ctx (hh c) tot (put_bytes (hbuf c) (buf_len c) m n) (buf_len c + n)).
Proof.
  intros Hc Hn E. destruct (put_bytes_tail bs tail c m n Hc Hn ltac:(lia)) as (H1 & H2 & _). cbv zeta in H1, H2.
  assert (Hd : length (tail ++ take (Z.to_nat n) m) = (length tail + Z.to_nat n)%nat).
  { rewrite length_app, length_take. unfold zlen in *. lia. }
  destruct Hc as [Hh Hl Hs Hb Ht Hbs]. split; try done.
  - cbn [buf_len]. unfold zlen at 1. rewrite Hl, Hd. unfold zlen in *. lia.
  - rewrite Hd. unfold zlen in *. lia.
  - rewrite Hd. exact H2.
Qed.

(** whole blocks and what is left, when no byte is left over *)
Lemma fed_blocks msg c : fed msg c -> buf_len c = 0 -> hh c = foldl compress iv (chunks B msg).
Proof.
  intros (_ & bs & tail & -> & Hc) H0. pose proof (bf_len _ _ _ Hc) as Hl. rewrite H0 in Hl.
  assert (tail = []) as -> by (destruct tail; [done|rewrite zlen_cons in Hl; pose proof (zlen_nonneg tail); lia]).
  rewrite app_nil_r, (bf_h _ _ _ Hc). f_equal. pose proof (bf_bs _ _ _ Hc) as Hbs. clear -Hbs B_pos.
  induction Hbs as [|b bs Hb Hbs IH]; [done|]. change (mjoin (b :: bs)) with (b ++ mjoin bs). by rewrite chunks_app, <- IH.
Qed.

(** how much of the buffer is in use *)
Lemma fed_len msg c : fed msg c -> buf_len c = zlen msg mod Z.of_nat B.
Proof.
  intros (_ & bs & tail & -> & Hc). rewrite (bf_len _ _ _ Hc), zlen_app. pose proof (bf_short _ _ _ Hc) as Hs.
  pose proof (zlen_nonneg tail). assert (E : exists k, zlen (mjoin bs) = k * Z.of_nat B).
  { exists (zlen bs). pose proof (bf_bs _ _ _ Hc) as Hbs. clear -Hbs. induction Hbs as [|b bs Hb Hbs IH]; [done|].
    change (mjoin (b :: bs)) with (b ++ mjoin bs). rewrite zlen_app, IH, zlen_cons. unfold zlen at 1. rewrite Hb. lia. }
  destruct E as [k ->]. rewrite Z.add_comm, Z.mod_add by lia. symmetry. apply Z.mod_small. unfold zlen in *. lia.
Qed.

Lemma fed_pieces (update : hash_ctx -> list Z -> hash_ctx) :
  (forall msg m c, fed msg c -> fed (msg ++ m) (update c m)) ->
  forall ms msg c, fed msg c -> fed (msg ++ mjoin ms) (foldl update c ms).
Proof.
  intros Hu. induction ms as [|m ms IH]; intros msg c Hc; [change (mjoin []) with (@nil Z); by rewrite app_nil_r|].
  change (mjoin (m :: ms)) with (m ++ mjoin ms). rewrite app_assoc. by apply (IH (msg ++ m)), Hu.
Qed.

Section Pad.
Variable update : hash_ctx -> list Z -> hash_ctx.
Hypothesis update_fed : forall msg m c, fed msg c -> fed (msg ++ m) (update c m).
Variable zero_fill : nat -> hash_ctx -> option hash_ctx.
Variable stop : Z.
Hypothesis stop_ok : 0 <= stop < Z.of_nat B.
Hypothesis zero_fill_eq : forall fuel c, zero_fill fuel c =
  if buf_len c =? stop then Some c else match fuel with O => None | S fuel => zero_fill fuel (update c [0]) end.

(** the loop ends: each zero moves the place in the buffer on by one *)
Lemma zero_fill_ends fuel : forall msg c, fed msg c -> (stop - buf_len c) mod Z.of_nat B <= Z.of_nat fuel ->
  exists c', zero_fill fuel c = Some c' /\
    fed (msg ++ replicate (Z.to_nat ((stop - zlen msg) mod Z.of_nat B)) 0) c' /\ buf_len c' = stop.
Proof.
  induction fuel as [|fuel IH]; intros msg c Hc Hf; rewrite zero_fill_eq; pose proof (fed_len msg c Hc) as Hl;
    assert (Hz : (stop - buf_len c) mod Z.of_nat B = (stop - zlen msg) mod Z.of_nat B) by (rewrite Hl; apply Zminus_mod_idemp_r);
    (destruct (buf_len c =? stop) eqn:E; zbool;
      [exists c; rewrite <- Hz, E, Z.sub_diag, Z.mod_0_l by lia; rewrite app_nil_r; done|]).
  - exfalso. pose proof (Z.mod_pos_bound (zlen msg) (Z.of_nat B) ltac:(lia)) as Hb. rewrite <- Hl in Hb.
    pose proof (Z.mod_pos_bound (stop - buf_len c) (Z.of_nat B) ltac:(lia)).
    assert (E0 : (stop - buf_len c) mod Z.of_nat B = 0) by lia. destruct (proj1 (Z.mod_divide _ (Z.of_nat B) ltac:(lia)) E0) as [k Hk]. assert (-1 < k < 1) by nia. assert (k = 0) as -> by lia. lia.
  - pose proof (update_fed msg [0] c Hc) as Hu. pose proof (fed_len _ _ Hu) as Hlu. rewrite zlen_app in Hlu. change (zlen [0]) with 1 in Hlu.
    pose proof (Z.mod_pos_bound (zlen msg) (Z.of_nat B) ltac:(lia)) as Hb. rewrite <- Hl in Hb.
    assert (Hstep : (stop - (zlen msg + 1)) mod Z.of_nat B = (stop - zlen msg) mod Z.of_nat B - 1).
    { set (d := (stop - zlen msg) mod Z.of_nat B) in *. assert (Hd : 0 <= d < Z.of_nat B) by (apply Z.mod_pos_bound; lia).
      assert (d <> 0). { intros E0. rewrite E0 in Hz. destruct (proj1 (Z.mod_divide _ (Z.of_nat B) ltac:(lia)) Hz) as [k Hk]. assert (-1 < k < 1) by nia. assert (k = 0) as -> by lia. lia. }
      symmetry. apply Z.mod_unique with ((stop - zlen msg) / Z.of_nat B); [left; lia|].
      pose proof (Z.div_mod (stop - zlen msg) (Z.of_nat B) ltac:(lia)). fold d in H0. lia. }
    destruct (IH (msg ++ [0]) (update c [0]) Hu) as (c' & H1 & H2 & H3).
    { rewrite Hlu, Zminus_mod_idemp_r, Hstep. lia. }
    exists c'. split; [done|]. split; [|done]. rewrite zlen_app in H2. change (zlen [0]) with 1 in H2. rewrite Hstep in H2.
    rewrite <- app_assoc in H2. replace (Z.to_nat ((stop - zlen msg) mod Z.of_nat B)) with
      (S (Z.to_nat ((stop - zlen msg) mod Z.of_nat B - 1))); [exact H2|].
    pose proof (Z.mod_pos_bound (stop - (zlen msg + 1)) (Z.of_nat B) ltac:(lia)). lia.
Qed.
End Pad.
End Fed.

(** ** SHA-256 *)

(** FIPS 180-4, 5.1 and 6: the message, a one bit, zeros, and the length in bits *)
Definition sha_pad (B lenb : nat) (msg : list Z) : list Z :=
  msg ++ [0x80] ++ replicate (Z.to_nat ((Z.of_nat B - Z.of_nat lenb - (zlen msg + 1)) mod Z.of_nat B)) 0 ++
  be_bytes lenb (8 * zlen msg).

Definition sha256_ref (msg : list Z) : list Z :=
  let h := foldl Sha256.compress Sha256.iv (chunks 64 (sha_pad 64 8 msg)) in
  mjoin (map (fun i => put_be32 (aget h i)) (seqZ 0 8)).

Section Sha256.
Import Sha256.

Definition fed256 : list Z -> hash_ctx -> Prop := fed 64 compress iv.

Lemma buffered_update_total bs tail c t : buffered 64 compress iv bs tail c -> buffered 64 compress iv bs tail (c <| total := t |>).
Proof. intros []. by split. Qed.

Lemma blocks_ok fuel : forall bs c p, buffered 64 compress iv bs [] c -> (length p <= fuel)%nat ->
  exists cs, p = mjoin cs ++ (blocks fuel c p).2 /\ (length (blocks fuel c p).2 < 64)%nat /\
    buffered 64 compress iv (bs ++ cs) [] (blocks fuel c p).1 /\ total (blocks fuel c p).1 = total c.
Proof.
  induction fuel as [|fuel IH]; intros bs c p Hc Hf.
  - exists []. destruct p; [|cbn in Hf; lia]. rewrite (app_nil_r bs). cbn [blocks fst snd]. split_and!; [done|cbn; lia|done|done].
  - cbn [blocks]. unfold SHA256_BLOCK. destruct (64 <=? zlen p) eqn:E; zbool.
    + assert (Ht : length (take 64 p) = 64%nat) by (rewrite length_take; unfold zlen in *; lia).
      assert (Hcp : compress (hh c) p = compress (hh c) (take 64 p)).
      { unfold compress, schedule. f_equal. f_equal. f_equal. f_equal. apply map_ext_in. intros i Hi.
        apply list_elem_of_In, elem_of_seqZ in Hi. unfold be32_at. change 64%nat with (Z.to_nat 64). by rewrite !aget_take by lia. }
      assert (Hc' : buffered 64 compress iv (bs ++ [take 64 p]) [] (c <| hh ::= fun h => compress h p |>)).
      { destruct Hc as [Hh Hl Hs Hb Htl Hbs]. split; try done.
        - change (compress (hh c) p = foldl compress iv (bs ++ [take 64 p])). by rewrite foldl_app, <- Hh, Hcp.
        - apply Forall_app. split; [done|]. by apply Forall_cons. }
      destruct (IH _ _ (drop 64 p) Hc') as (cs & H1 & H2 & H3 & H4); [rewrite length_drop; unfold zlen in *; lia|].
      exists (take 64 p :: cs). rewrite <- app_assoc in H3. split_and!; [|done..].
      change (p = (take 64 p ++ mjoin cs) ++ (blocks fuel (c <| hh ::= fun h => compress h p |>) (drop 64 p)).2).
      by rewrite <- app_assoc, <- H1, take_drop.
    + exists []. rewrite (app_nil_r bs). cbn [fst snd]. split_and!; [done|unfold zlen in *; lia|done|done].
Qed.

Lemma rest_ok bs c p : buffered 64 compress iv bs [] c ->
  exists cs tail, p = mjoin cs ++ tail /\ buffered 64 compress iv (bs ++ cs) tail (rest c p) /\ total (rest c p) = total c.
Proof.
  intros Hc. destruct (blocks_ok (length p) bs c p Hc (le_n _)) as (cs & H1 & H2 & H3 & H4). exists cs, (blocks (length p) c p).2.
  split; [exact H1|]. unfold rest. destruct (blocks (length p) c p) as [c' tl]. cbn [fst snd] in *.
  destruct (zlen tl =? 0) eqn:E; zbool.
  - assert (tl = []) as -> by (destruct tl; [done|rewrite zlen_cons in E; pose proof (zlen_nonneg tl); lia]). done.
  - pose proof (zlen_nonneg tl). split; [|exact H4].
    pose proof (buffered_part 64 compress iv ltac:(lia) (bs ++ cs) [] c' tl (zlen tl) (total c') H3 ltac:(lia)) as Hp.
    change (zlen [] + zlen tl) with (zlen tl) in Hp. specialize (Hp ltac:(unfold zlen; lia)).
    rewrite (bf_len _ _ _ _ _ _ H3) in Hp. change (zlen [] + zlen tl) with (zlen tl) in Hp.
    cbn [app] in Hp. rewrite take_ge in Hp by (unfold zlen; lia). exact Hp.
Qed.

Lemma update_fed msg m c : fed256 msg c -> fed256 (msg ++ m) (sha256_update c m).
Proof.
  intros (Ht & bs & tail & -> & Hc). pose proof (zlen_nonneg m). pose proof (zlen_nonneg tail).
  assert (Htot : u64 (total c + zlen m) = u64 (zlen ((mjoin bs ++ tail) ++ m))).
  { rewrite Ht, (zlen_app (mjoin bs ++ tail)). unfold u64. apply Zplus_mod_idemp_l. }
  set (c1 := c <| total ::= fun t => u64 (t + zlen m) |>).
  assert (Hc1 : buffered 64 compress iv bs tail c1) by (destruct Hc; by split).
  assert (Hu : total (sha256_update c m) = total c1 /\ exists cs tl, tail ++ m = mjoin cs ++ tl /\
    buffered 64 compress iv (bs ++ cs) tl (sha256_update c m)); cycle 1.
  { destruct Hu as [Ht1 (cs & tl & E & Hb)]. split; [rewrite Ht1; exact Htot|]. exists (bs ++ cs), tl. split; [|done].
    by rewrite <- app_assoc, E, join_app, <- app_assoc. }
  unfold sha256_update. fold c1. clearbody c1. clear Hc Ht Htot. pose proof (bf_len _ _ _ _ _ _ Hc1) as Hl.
  destruct (buf_len c1 =? 0) eqn:E; zbool.
  - assert (tail = []) as -> by (destruct tail; [done|rewrite zlen_cons in Hl; pose proof (zlen_nonneg tail); lia]).
    destruct (rest_ok bs c1 m Hc1) as (cs & tl & H1 & H2 & H3). split; [done|]. by exists cs, tl.
  - unfold SHA256_BLOCK. set (n := if zlen m <? 64 - buf_len c1 then zlen m else 64 - buf_len c1).
    pose proof (bf_short _ _ _ _ _ _ Hc1) as Hs.
    assert (Hn : 0 <= n <= zlen m /\ zlen tail + n <= 64 /\ (n = zlen m \/ zlen tail + n = 64)).
    { unfold n. rewrite Hl. unfold zlen in *. case_bool; zbool; lia. }
    clearbody n. destruct c1 as [h1 t1 b1 l1]. cbn [buf_len] in *.
    change (buf_len (set buf_len _ _)) with (l1 + n). subst l1. destruct (zlen tail + n <? 64) eqn:E1; zbool.
    + split; [done|]. exists [], (tail ++ take (Z.to_nat n) m). rewrite (app_nil_r bs). split.
      { assert (n = zlen m) as -> by lia. by rewrite (take_ge m) by (unfold zlen; lia). }
      exact (buffered_part 64 compress iv ltac:(lia) bs tail _ m n t1 Hc1 ltac:(lia) E1).
    + destruct (buffered_full 64 compress iv ltac:(lia) bs tail _ m n Hc1 ltac:(lia) ltac:(lia)) as [Eb Hfull]. cbv zeta in Eb, Hfull.
      cbn [hbuf buf_len hh] in Eb, Hfull.
      set (b := tail ++ take (Z.to_nat n) m) in *.
      change (set hh _ _ <| buf_len := 0 |>) with (Hash_ctx (compress h1 (put_bytes b1 (zlen tail) m n)) t1 (put_bytes b1 (zlen tail) m n) 0).
      rewrite Eb. destruct (rest_ok _ _ (drop (Z.to_nat n) m) (Hfull t1)) as (cs & tl & H1 & H2 & H3).
      split; [exact H3|]. exists (b :: cs), tl. rewrite <- app_assoc in H2. split; [|exact H2].
      change (tail ++ m = (b ++ mjoin cs) ++ tl). rewrite <- app_assoc, <- H1. unfold b. by rewrite <- app_assoc, take_drop.
Qed.

Lemma zero_fill_256 fuel c : zero_fill fuel c =
  if buf_len c =? 56 then Some c else match fuel with O => None | S fuel => zero_fill fuel (sha256_update c [0]) end.
Proof. by destruct fuel. Qed.

Lemma sha_pad_mod B lenb msg : (0 < B)%nat -> (lenb < B)%nat -> zlen (sha_pad B lenb msg) mod Z.of_nat B = 0.
Proof.
  intros HB Hl. unfold sha_pad. rewrite !zlen_app. change (zlen [128]) with 1.
  assert (zlen (be_bytes lenb (8 * zlen msg)) = Z.of_nat lenb) as ->.
  { unfold zlen, be_bytes, le_bytes. by rewrite length_rev, length_map, length_seq. }
  set (d := Z.of_nat B - Z.of_nat lenb - (zlen msg + 1)).
  assert (zlen (replicate (Z.to_nat (d mod Z.of_nat B)) 0) = Z.of_nat (Z.to_nat (d mod Z.of_nat B))) as -> by (unfold zlen; by rewrite length_replicate).
  pose proof (Z.mod_pos_bound d (Z.of_nat B) ltac:(lia)). rewrite Z2Nat.id by lia.
  pose proof (Z.div_mod d (Z.of_nat B) ltac:(lia)) as E.
  replace (zlen msg + (1 + (d mod Z.of_nat B + Z.of_nat lenb))) with ((1 - d / Z.of_nat B) * Z.of_nat B) by (unfold d in *; lia).
  apply Z.mod_mul. lia.
Qed.

Lemma final_ok msg c : fed256 msg c -> zlen msg < 2 ^ 61 -> exists c', sha256_final c = Some (sha256_ref msg, c').
Proof.
  intros Hc Hlen. pose proof (zlen_nonneg msg). unfold sha256_final.
  assert (Ebits : u64 (total c * 8) = 8 * zlen msg).
  { destruct Hc as [-> _]. rewrite (u64_small (zlen msg)), u64_small by (unfold is_u64; lia). lia. }
  rewrite Ebits. pose proof (update_fed msg [0x80] c Hc) as H1.
  pose proof (fed_len 64 compress iv ltac:(lia) _ _ H1) as Hl1. change (Z.of_nat 64) with 64 in Hl1.
  destruct (zero_fill_ends 64 compress iv ltac:(lia) sha256_update update_fed zero_fill 56 ltac:(lia) zero_fill_256 64 _ _ H1) as (c2 & E2 & H2 & _).
  { change (Z.of_nat 64) with 64. lia. }
  rewrite E2. cbn [mbind option_bind]. change (map (fun i => u8 (Z.shiftr (8 * zlen msg) (56 - i * 8))) (seqZ 0 8)) with (be_bytes 8 (8 * zlen msg)).
  pose proof (update_fed _ (be_bytes 8 (8 * zlen msg)) c2 H2) as H3. change (Z.of_nat 64) with 64 in H3.
  rewrite <- !app_assoc, zlen_app in H3. change (zlen [0x80]) with 1 in H3. change (msg ++ [0x80] ++ _ ++ _) with (sha_pad 64 8 msg) in H3.
  set (c3 := sha256_update c2 _) in *. exists c3. unfold sha256_ref.
  rewrite (fed_blocks 64 compress iv ltac:(lia) _ _ H3); [done|]. rewrite (fed_len 64 compress iv ltac:(lia) _ _ H3).
  apply sha_pad_mod; lia.
Qed.

(** a fresh context, whatever its buffer held *)
Lemma init_fed c : length (hbuf c) = 64%nat -> fed256 [] (sha256_init c).
Proof. intros Hb. destruct c. split; [done|]. exists [], []. split; [done|]. apply (buffered_init 64 compress iv); [lia|exact Hb]. Qed.

Lemma stack_fed msg : fed256 msg (sha256_update (sha256_init stack_ctx) msg).
Proof. apply (update_fed []), init_fed. done. Qed.

Lemma sha256_ok msg : zlen msg < 2 ^ 61 -> sha256 msg = Some (sha256_ref msg).
Proof. intros Hl. unfold sha256. destruct (final_ok msg _ (stack_fed msg) Hl) as [c' ->]. done. Qed.

Lemma sha256_ref_len msg : zlen (sha256_ref msg) = 32.
Proof. reflexivity. Qed.

(** ** HMAC, HKDF, PBKDF2 *)

(** RFC 2104, for keys of any length *)
Definition hmac_key (key : list Z) : list Z :=
  let k := if 64 <? zlen key then sha256_ref key else key in k ++ replicate (Z.to_nat (64 - zlen k)) 0.
Definition hmac_ref (key msg : list Z) : list Z :=
  sha256_ref (map (fun x => Z.lxor x 0x5c) (hmac_key key) ++ sha256_ref (map (fun x => Z.lxor x 0x36) (hmac_key key) ++ msg)).

(** the context keyed with [key], after [msg] *)
Definition hmac_fed (key msg : list Z) (c : hmac_ctx) : Prop :=
  fed256 (map (fun x => Z.lxor x 0x36) (hmac_key key) ++ msg) (inner c) /\
  fed256 (map (fun x => Z.lxor x 0x5c) (hmac_key key)) (outer c).

Lemma hmac_key_len key : zlen (hmac_key key) = 64.
Proof.
  unfold hmac_key. set (k := if _ <? _ then _ else _). assert (0 <= zlen k <= 64).
  { split; [apply zlen_nonneg|]. unfold k. case_bool; zbool; [by rewrite sha256_ref_len|done]. }
  rewrite zlen_app. unfold zlen at 2. rewrite length_replicate. lia.
Qed.

Lemma put_zeros k : zlen k <= 64 -> put_bytes (replicate 64 0) 0 k (zlen k) = k ++ replicate (Z.to_nat (64 - zlen k)) 0.
Proof.
  intros Hk. pose proof (zlen_nonneg k). unfold put_bytes. rewrite (take_ge k) by (unfold zlen; lia). change (take (Z.to_nat 0) _) with (@nil Z).
  cbn [app]. rewrite Z.add_0_l, drop_replicate. by replace (64 - Z.to_nat (zlen k))%nat with (Z.to_nat (64 - zlen k)) by lia.
Qed.

Lemma hmac_init_ok key : zlen key < 2 ^ 61 -> exists c, hmac_sha256_init key = Some c /\ hmac_fed key [] c.
Proof.
  intros Hl. unfold hmac_sha256_init, SHA256_BLOCK.
  assert (E : (if 64 <? zlen key then d ← sha256 key; Some (put_bytes (replicate 64 0) 0 d 32) else Some (put_bytes (replicate 64 0) 0 key (zlen key)))
    = Some (hmac_key key)).
  { unfold hmac_key. case_bool; zbool; [|by rewrite put_zeros by lia]. rewrite sha256_ok by done. cbn [mbind option_bind].
    change 32 with (zlen (sha256_ref key)). by rewrite put_zeros by (rewrite sha256_ref_len; lia). }
  rewrite E. cbn [mbind option_bind]. eexists. split; [done|]. split; cbn [inner outer]; [rewrite app_nil_r|]; apply stack_fed.
Qed.

Lemma hmac_update_ok key msg m c : hmac_fed key msg c -> hmac_fed key (msg ++ m) (hmac_sha256_update c m).
Proof. intros [Hi Ho]. split; [|exact Ho]. rewrite app_assoc. by apply update_fed. Qed.

Lemma hmac_final_ok key msg c : hmac_fed key msg c -> zlen msg < 2 ^ 60 -> hmac_sha256_final c = Some (hmac_ref key msg).
Proof.
  intros [Hi Ho] Hl. unfold hmac_sha256_final. pose proof (hmac_key_len key) as Hk.
  assert (Hm : forall f : Z -> Z, zlen (map f (hmac_key key)) = 64) by (intros f; unfold zlen in *; by rewrite length_map).
  destruct (final_ok _ _ Hi) as [c1 ->]; [rewrite zlen_app, Hm; lia|]. cbn [mbind option_bind].
  destruct (final_ok _ _ (update_fed _ (sha256_ref (map (fun x => Z.lxor x 0x36) (hmac_key key) ++ msg)) _ Ho)) as [c2 ->].
  { rewrite zlen_app, Hm, sha256_ref_len. lia. }
  done.
Qed.

Lemma hmac_ref_len key msg : zlen (hmac_ref key msg) = 32.
Proof. apply sha256_ref_len. Qed.

Lemma hmac_ok key msg : zlen key < 2 ^ 61 -> zlen msg < 2 ^ 60 -> hmac_sha256 key msg = Some (hmac_ref key msg).
Proof.
  intros Hk Hm. unfold hmac_sha256. destruct (hmac_init_ok key Hk) as (c & -> & Hc). cbn [mbind option_bind].
  apply (hmac_final_ok key msg); [|done]. by apply (hmac_update_ok key []).
Qed.

(** RFC 5869, 2.3: T(1), T(2), ... of [n] blocks after [t], [H] the keyed hash *)
Fixpoint hkdf_blocks (H : list Z -> list Z) (info t : list Z) (i : Z) (n : nat) : list Z :=
  match n with
  | O => []
  | S n => let t := H (t ++ info ++ [i]) in t ++ hkdf_blocks H info t (i + 1) n
  end.
Definition hkdf_expand_ref (prk info : list Z) (len : Z) : list Z :=
  take (Z.to_nat len) (hkdf_blocks (hmac_ref prk) info [] 1 (Z.to_nat ((len + 31) / 32))).

Lemma obind {A C} (f : A -> option C) (x : A) : (Some x ≫= f) = f x.
Proof. exact eq_refl. Qed.

Section Expand.
Variables (prk info : list Z) (c : hmac_ctx) (H : list Z -> list Z).
Hypothesis init : hmac_sha256_init prk = Some c.
Hypothesis keyed : forall t i, zlen t <= 32 ->
  hmac_sha256_final (hmac_sha256_update (hmac_sha256_update (hmac_sha256_update c t) info) [i]) = Some (H (t ++ info ++ [i])) /\
  zlen (H (t ++ info ++ [i])) = 32.

Lemma expand_S fuel t i left : 0 < left -> zlen t <= 32 -> expand (S fuel) prk info t i left =
  let t := H (t ++ info ++ [i]) in
  let take_ := if left <? SHA256_LEN then left else SHA256_LEN in
  out ← expand fuel prk info t (u8 (i + 1)) (left - take_);
  Some (take (Z.to_nat take_) t ++ out).
Proof.
  intros Hl Ht. destruct (keyed t i Ht) as [Ek _].
  assert (E : expand (S fuel) prk info t i left = if left <=? 0 then Some [] else
    c ← hmac_sha256_init prk;
    t ← hmac_sha256_final (hmac_sha256_update (hmac_sha256_update (hmac_sha256_update c t) info) [i]);
    let take_ := if left <? SHA256_LEN then left else SHA256_LEN in
    out ← expand fuel prk info t (u8 (i + 1)) (left - take_);
    Some (take (Z.to_nat take_) t ++ out)) by exact eq_refl.
  rewrite E, init, obind, Ek, obind. destruct (left <=? 0) eqn:El; zbool; [lia|exact eq_refl].
Qed.

Lemma expand_ok n : forall fuel t i left,
  zlen t <= 32 -> 1 <= i -> i + Z.of_nat n <= 256 -> 0 <= left -> Z.of_nat n = (left + 31) / 32 -> (n <= fuel)%nat ->
  expand fuel prk info t i left = Some (take (Z.to_nat left) (hkdf_blocks H info t i n)).
Proof.
  induction n as [|n IH]; intros fuel t i left Ht H1 H2 Hl Hn Hf.
  - assert (left = 0) as -> by lia. by destruct fuel.
  - destruct fuel as [|fuel]; [lia|]. change (hkdf_blocks H info t i (S n)) with (H (t ++ info ++ [i]) ++ hkdf_blocks H info (H (t ++ info ++ [i])) (i + 1) n).
    rewrite expand_S by lia. destruct (keyed t i Ht) as [_ Ht']. cbv zeta. clear init keyed.
    set (t' := H (t ++ info ++ [i])) in *. clearbody t'.
    unfold SHA256_LEN. set (k := if left <? 32 then left else 32).
    assert (Hk : 0 < k <= 32 /\ k <= left /\ (k = left \/ k = 32)) by (unfold k; case_bool; zbool; lia). clearbody k.
    assert (u8 (i + 1) = i + 1 \/ n = 0%nat) as Hu by (destruct n; [by right|left; apply u8_small; unfold is_u8; lia]).
    assert (Hrest : expand fuel prk info t' (u8 (i + 1)) (left - k) = Some (take (Z.to_nat (left - k)) (hkdf_blocks H info t' (i + 1) n))).
    { destruct Hu as [-> | ->]; [apply IH; lia|]. assert (left - k = 0) as -> by lia. by destruct fuel. }
    rewrite Hrest. cbn [mbind option_bind]. f_equal. rewrite take_app.
    replace (Z.to_nat left - length t')%nat with (Z.to_nat (left - k)).
    + f_equal. destruct (decide (left < 32)); [by replace k with left by lia|]. rewrite !take_ge by (unfold zlen in *; lia). done.
    + unfold zlen in *. lia.
Qed.
End Expand.

Lemma hkdf_expand_ok prk info len : zlen prk < 2 ^ 61 -> zlen info < 2 ^ 32 -> 0 <= len <= 255 * 32 ->
  hkdf_expand prk info len = Some (hkdf_expand_ref prk info len).
Proof.
  intros Hp Hi Hl. destruct (hmac_init_ok prk Hp) as (c & Ec & Hc). unfold hkdf_expand, hkdf_expand_ref.
  rewrite (expand_ok prk info c (hmac_ref prk) Ec) with (n := Z.to_nat ((len + 31) / 32)); try lia; try done.
  intros t i Ht. split; [|apply hmac_ref_len]. apply (hmac_final_ok prk).
  - rewrite (app_assoc t). apply hmac_update_ok, hmac_update_ok. by apply (hmac_update_ok prk []).
  - rewrite !zlen_app. change (zlen [i]) with 1. lia.
Qed.

(** RFC 8018, 5.2, one block: the exclusive or of U(1) ... U(c) *)
Definition pbkdf2_u (pw salt : list Z) (i : nat) : list Z := Nat.iter i (hmac_ref pw) (hmac_ref pw (salt ++ [0; 0; 0; 1])).
Definition pbkdf2_ref (pw salt : list Z) (c : Z) : list Z :=
  foldl (fun out i => zip_with Z.lxor out (pbkdf2_u pw salt i)) (pbkdf2_u pw salt 0) (seq 1 (Z.to_nat (c - 1))).

Lemma pbkdf2_rounds base (H : list Z -> list Z) u n :
  (forall v, zlen v = 32 -> hmac_sha256_final (hmac_sha256_update base v) = Some (H v) /\ zlen (H v) = 32) -> zlen u = 32 ->
  foldl (pbkdf2_round base) (Some (u, u)) (seqZ 1 (Z.of_nat n)) =
    Some (Nat.iter n H u, foldl (fun out i => zip_with Z.lxor out (Nat.iter i H u)) u (seq 1 n)) /\
  zlen (Nat.iter n H u) = 32.
Proof.
  intros HH Hu. induction n as [|n [IH IHl]]; [done|]. rewrite seqZ_S, foldl_app, IH, seq_S, foldl_app.
  destruct (HH _ IHl) as [E El]. cbn [foldl pbkdf2_round mbind option_bind]. rewrite E. cbn [mbind option_bind]. by rewrite Nat.iter_succ.
Qed.

(** the whole, over any keyed hash [H] that the context computes *)
Lemma pbkdf2_over pw salt base (H : list Z -> list Z) c : hmac_sha256_init pw = Some base ->
  (forall v, zlen v = 32 -> hmac_sha256_final (hmac_sha256_update base v) = Some (H v) /\ zlen (H v) = 32) ->
  hmac_sha256_final (hmac_sha256_update (hmac_sha256_update base salt) [0; 0; 0; 1]) = Some (H (salt ++ [0; 0; 0; 1])) ->
  zlen (H (salt ++ [0; 0; 0; 1])) = 32 ->
  pbkdf2_sha256 pw salt c =
    Some (foldl (fun out i => zip_with Z.lxor out (Nat.iter i H (H (salt ++ [0; 0; 0; 1])))) (H (salt ++ [0; 0; 0; 1]))
      (seq 1 (Z.to_nat (c - 1)))).
Proof.
  intros Ei HH E1 Hl. unfold pbkdf2_sha256. rewrite Ei, obind, E1, obind. clear Ei E1.
  revert Hl. generalize (H (salt ++ [0; 0; 0; 1])). intros u Hl. destruct (decide (0 <= c - 1)).
  - rewrite <- (Z2Nat.id (c - 1)) at 1 by done. rewrite (proj1 (pbkdf2_rounds base H u _ HH Hl)). rewrite obind. exact eq_refl.
  - replace (Z.to_nat (c - 1)) with 0%nat by lia. rewrite seqZ_nil by lia. exact eq_refl.
Qed.

Lemma pbkdf2_ok pw salt c : zlen pw < 2 ^ 61 -> zlen salt < 2 ^ 32 -> pbkdf2_sha256 pw salt c = Some (pbkdf2_ref pw salt c).
Proof.
  intros Hp Hs. destruct (hmac_init_ok pw Hp) as (base & Ei & Hb).
  refine (pbkdf2_over pw salt base (hmac_ref pw) c Ei _ _ (hmac_ref_len _ _)).
  - intros v Hv. split; [|apply hmac_ref_len]. apply (hmac_final_ok pw v); [exact (hmac_update_ok pw [] v base Hb)|lia].
  - apply (hmac_final_ok pw); [exact (hmac_update_ok pw salt _ _ (hmac_update_ok pw [] salt base Hb))|].
    rewrite zlen_app. change (zlen [0; 0; 0; 1]) with 4. lia.
Qed.
End Sha256.

(** ** SHA-512 *)

Definition sha512_ref (msg : list Z) : list Z :=
  let h := foldl Sha512.compress Sha512.iv (chunks 128 (sha_pad 128 16 msg)) in
  mjoin (map (fun i => be_bytes 8 (aget h i)) (seqZ 0 8)).

Section Sha512.
Import Sha512.

Definition fed512 : list Z -> hash_ctx -> Prop := fed 128 compress iv.

Lemma update_loop_ok fuel : forall bs tail c p, buffered 128 compress iv bs tail c -> (length p <= fuel)%nat ->
  exists cs tl, tail ++ p = mjoin cs ++ tl /\ buffered 128 compress iv (bs ++ cs) tl (update_loop fuel c p) /\
    total (update_loop fuel c p) = total c.
Proof.
  induction fuel as [|fuel IH]; intros bs tail c p Hc Hf.
  - exists [], tail. destruct p; [|cbn in Hf; lia]. rewrite (app_nil_r bs), app_nil_r. done.
  - cbn [update_loop]. destruct (zlen p =? 0) eqn:E; zbool.
    { assert (p = []) as -> by (destruct p; [done|rewrite zlen_cons in E; pose proof (zlen_nonneg p); lia]).
      exists [], tail. rewrite (app_nil_r bs), app_nil_r. done. }
    pose proof (zlen_nonneg p). pose proof (bf_len _ _ _ _ _ _ Hc) as Hl. pose proof (bf_short _ _ _ _ _ _ Hc) as Hs.
    unfold SHA512_BLOCK. set (n := if zlen p <? 128 - buf_len c then zlen p else 128 - buf_len c).
    assert (Hn : 0 < n <= zlen p /\ zlen tail + n <= 128 /\ (n = zlen p \/ zlen tail + n = 128)).
    { unfold n. rewrite Hl. unfold zlen in *. case_bool; zbool; lia. }
    clearbody n. destruct c as [h1 t1 b1 l1]. cbn [buf_len] in *. subst l1.
    change (buf_len (set buf_len _ _)) with (zlen tail + n).
    assert (Hrest : drop (Z.to_nat n) p = [] \/ True) by (by right). clear Hrest.
    assert (Hd : (length (drop (Z.to_nat n) p) <= fuel)%nat) by (rewrite length_drop; unfold zlen in *; lia).
    destruct (zlen tail + n =? 128) eqn:E1; zbool.
    + destruct (buffered_full 128 compress iv ltac:(lia) bs tail _ p n Hc ltac:(lia) E1) as [Eb Hfull]. cbv zeta in Eb, Hfull.
      cbn [hbuf buf_len hh] in Eb, Hfull. set (b := tail ++ take (Z.to_nat n) p) in *.
      change (set hh _ _ <| buf_len := 0 |>) with (Hash_ctx (compress h1 (put_bytes b1 (zlen tail) p n)) t1 (put_bytes b1 (zlen tail) p n) 0).
      rewrite Eb. destruct (IH _ _ _ _ (Hfull t1) Hd) as (cs & tl & H1 & H2 & H3).
      exists (b :: cs), tl. rewrite <- app_assoc in H2. split; [|done].
      change (tail ++ p = (b ++ mjoin cs) ++ tl). cbn [app] in H1. rewrite <- app_assoc, <- H1. unfold b. by rewrite <- app_assoc, take_drop.
    + pose proof (buffered_part 128 compress iv ltac:(lia) bs tail _ p n t1 Hc ltac:(lia) ltac:(lia)) as Hp. cbn [hh hbuf buf_len] in Hp.
      destruct (IH _ _ _ _ Hp Hd) as (cs & tl & H1 & H2 & H3). exists cs, tl. split; [|by split].
      by rewrite <- H1, <- app_assoc, take_drop.
Qed.

Lemma update_fed_512 msg m c : fed512 msg c -> fed512 (msg ++ m) (sha512_update c m).
Proof.
  intros (Ht & bs & tail & -> & Hc). unfold sha512_update.
  assert (Hc1 : buffered 128 compress iv bs tail (c <| total ::= fun t => u64 (t + zlen m) |>)) by (destruct Hc; by split).
  destruct (update_loop_ok (length m) _ _ _ m Hc1 (le_n _)) as (cs & tl & E & Hb & Ht1). split.
  - rewrite Ht1. change (u64 (total c + zlen m) = u64 (zlen ((mjoin bs ++ tail) ++ m))).
    rewrite Ht, (zlen_app (mjoin bs ++ tail)). unfold u64. apply Zplus_mod_idemp_l.
  - exists (bs ++ cs), tl. split; [|done]. by rewrite <- app_assoc, E, join_app, <- app_assoc.
Qed.

Lemma zero_fill_512 fuel c : zero_fill fuel c =
  if buf_len c =? 112 then Some c else match fuel with O => None | S fuel => zero_fill fuel (sha512_update c [0]) end.
Proof. by destruct fuel. Qed.

Lemma length_field v : is_u64 v ->
  foldl (fun l i => aset l (15 - i) (u8 (Z.shiftr v (8 * i)))) (replicate 16 0) (seqZ 0 8) = be_bytes 16 v.
Proof.
  intros Hv. assert (Z0 : forall k, 64 <= k -> u8 (Z.shiftr v k) = 0).
  { intros k Hk. rewrite Z.shiftr_div_pow2 by lia. unfold is_u64 in Hv. rewrite Z.div_small; [done|]. split; [lia|].
    apply Z.lt_le_trans with (2 ^ 64); [lia|]. apply Z.pow_le_mono_r; lia. }
  change (be_bytes 16 v) with (map (fun k => u8 (Z.shiftr v (8 * Z.of_nat k))) (rev (seq 8 8)) ++
    map (fun k => u8 (Z.shiftr v (8 * Z.of_nat k))) (rev (seq 0 8))).
  rewrite (map_ext_in _ (fun _ => 0) (rev (seq 8 8))); [reflexivity|].
  intros k Hk. apply Z0. rewrite <- in_rev in Hk. apply in_seq in Hk. lia.
Qed.

Lemma final_ok_512 msg c : fed512 msg c -> zlen msg < 2 ^ 61 -> exists c', sha512_final c = Some (sha512_ref msg, c').
Proof.
  intros Hc Hlen. pose proof (zlen_nonneg msg). unfold sha512_final.
  assert (Ebits : u64 (total c * 8) = 8 * zlen msg).
  { destruct Hc as [-> _]. rewrite (u64_small (zlen msg)), u64_small by (unfold is_u64; lia). lia. }
  rewrite Ebits, length_field by (unfold is_u64; lia). pose proof (update_fed_512 msg [0x80] c Hc) as H1.
  pose proof (fed_len 128 compress iv ltac:(lia) _ _ H1) as Hl1. change (Z.of_nat 128) with 128 in Hl1.
  destruct (zero_fill_ends 128 compress iv ltac:(lia) sha512_update update_fed_512 zero_fill 112 ltac:(lia) zero_fill_512 128 _ _ H1) as (c2 & E2 & H2 & _).
  { change (Z.of_nat 128) with 128. lia. }
  rewrite E2, obind.
  pose proof (update_fed_512 _ (be_bytes 16 (8 * zlen msg)) c2 H2) as H3. change (Z.of_nat 128) with 128 in H3.
  rewrite <- !app_assoc, zlen_app in H3. change (zlen [0x80]) with 1 in H3. change (msg ++ [0x80] ++ _ ++ _) with (sha_pad 128 16 msg) in H3.
  set (c3 := sha512_update c2 _) in *. exists c3. unfold sha512_ref.
  rewrite (fed_blocks 128 compress iv ltac:(lia) _ _ H3); [done|]. rewrite (fed_len 128 compress iv ltac:(lia) _ _ H3).
  apply sha_pad_mod; lia.
Qed.

Lemma init_fed_512 c : length (hbuf c) = 128%nat -> fed512 [] (sha512_init c).
Proof. intros Hb. destruct c. split; [done|]. exists [], []. split; [done|]. apply (buffered_init 128 compress iv); [lia|exact Hb]. Qed.
End Sha512.

(** ** The standard's digests *)

Lemma bytes_sha_pad B lenb msg : bytes msg -> bytes (sha_pad B lenb msg).
Proof.
  intros Hm. unfold sha_pad. rewrite !bytes_app. split; [done|]. split; [by repeat constructor|]. split.
  - by apply Forall_replicate.
  - unfold be_bytes. apply Forall_rev, Forall_map, Forall_forall. intros. apply u8_bound.
Qed.

Lemma pad_blocks (B lenb : nat) msg : (0 < B)%nat -> (lenb < B)%nat -> bytes msg ->
  Forall (fun b => length b = B /\ bytes b) (chunks B (sha_pad B lenb msg)).
Proof.
  intros HB Hl Hm. pose proof (sha_pad_mod B lenb msg HB Hl) as Hmod. unfold zlen in Hmod.
  apply (chunks_forall B _ _ HB) with (m := (length (sha_pad B lenb msg) / B)%nat); [done|by apply bytes_sha_pad|].
  apply Nat.Div0.div_exact, Nat2Z.inj. by rewrite Nat2Z.inj_mod.
Qed.

Lemma eight (h : list Z) : length h = 8%nat -> h = map (aget h) (seqZ 0 8).
Proof. intros Hl. destruct h as [|a [|b [|c [|d [|e [|f [|g [|i []]]]]]]]]; done. Qed.

Lemma digest_words (out f : Z -> list Z) h : length h = 8%nat -> (forall x, out x = f x) ->
  mjoin (map (fun i => out (aget h i)) (seqZ 0 8)) = mjoin (map f h).
Proof.
  intros Hl Ho. f_equal. transitivity (map f (map (aget h) (seqZ 0 8))); [|by rewrite <- eight].
  rewrite map_map. apply map_ext. intros i. apply Ho.
Qed.

Lemma sha256_standard msg : bytes msg -> sha256_ref msg = sha SHA_256 msg.
Proof.
  intros Hm. unfold sha256_ref, sha. rewrite H256.
  assert (sha_padded SHA_256 msg = sha_pad 64 8 msg) as ->.
  { unfold sha_pad, sha_padded. do 3 f_equal. change (2 * w_bits SHA_256) with 64. change (w_bits SHA_256 / 4) with 8.
    do 2 f_equal. change (Z.of_nat 64) with 64. lia. }
  change (Z.to_nat (2 * w_bits SHA_256)) with 64%nat.
  destruct (blocks_fold SHA_256 Sha256.compress 64 eq_refl compress256 (chunks 64 (sha_pad 64 8 msg)) Sha256.iv) as (E & _ & Hl).
  - apply pad_blocks; [lia|lia|done].
  - cbn [SHA_256 w_bits]. unfold words, Sha256.iv. repeat (apply Forall_cons; split; [lia|]). constructor.
  - done.
  - rewrite E. apply digest_words; [done|]. intros x. unfold put_be32, word_bytes.
    change (Z.to_nat (w_bits SHA_256 / 8)) with 4%nat. unfold le_bytes. cbn [seq map rev app]. by rewrite Z.shiftr_0_r.
Qed.

Lemma sha512_standard msg : bytes msg -> sha512_ref msg = sha SHA_512 msg.
Proof.
  intros Hm. unfold sha512_ref, sha. rewrite H512.
  assert (sha_padded SHA_512 msg = sha_pad 128 16 msg) as ->.
  { unfold sha_pad, sha_padded. do 3 f_equal. change (2 * w_bits SHA_512) with 128. change (w_bits SHA_512 / 4) with 16.
    do 2 f_equal. change (Z.of_nat 128) with 128. lia. }
  change (Z.to_nat (2 * w_bits SHA_512)) with 128%nat.
  destruct (blocks_fold SHA_512 Sha512.compress 128 eq_refl compress512 (chunks 128 (sha_pad 128 16 msg)) Sha512.iv) as (E & _ & Hl).
  - apply pad_blocks; [lia|lia|done].
  - cbn [SHA_512 w_bits]. unfold words, Sha512.iv. repeat (apply Forall_cons; split; [lia|]). constructor.
  - done.
  - rewrite E. by apply digest_words.
Qed.

(** ** What the parts promise *)

(** C39: SHA-256 and SHA-512 are FIPS 180-4's of the whole message: from a
    context whose buffer held anything, however the message is cut into
    calls of the update functions, the final functions end (the loop that
    pads, one zero at a time, stops) and give the digest of the standard,
    whose definition here shares nothing with the code: its constants are
    computed from the square and cube roots of the primes, its rotations are
    arithmetic, its schedule and rounds follow the text. *)
Theorem sha_fips180 (c c' : hash_ctx) (pieces : list (list Z)) :
  length (hbuf c) = 64%nat -> length (hbuf c') = 128%nat -> Forall bytes pieces -> zlen (mjoin pieces) < 2 ^ 61 ->
  (exists d, Sha256.sha256_final (foldl Sha256.sha256_update (Sha256.sha256_init c) pieces) = Some (sha SHA_256 (mjoin pieces), d)) /\
  (exists d, Sha512.sha512_final (foldl Sha512.sha512_update (Sha512.sha512_init c') pieces) = Some (sha SHA_512 (mjoin pieces), d)) /\
  Sha256.sha256 (mjoin pieces) = Some (sha SHA_256 (mjoin pieces)) /\
  Sha512.sha512 (mjoin pieces) = Some (sha SHA_512 (mjoin pieces)).
Proof.
  intros Hc Hc' Hp Hl. assert (Hb : bytes (mjoin pieces)) by (by apply Forall_join).
  rewrite <- sha256_standard, <- sha512_standard by done. split_and!.
  - apply final_ok; [|done]. exact (fed_pieces 64 _ _ _ update_fed pieces [] _ (init_fed c Hc)).
  - apply final_ok_512; [|done]. exact (fed_pieces 128 _ _ _ update_fed_512 pieces [] _ (init_fed_512 c' Hc')).
  - by apply sha256_ok.
  - unfold Sha512.sha512. pose proof (init_fed_512 Sha512.stack_ctx eq_refl) as H0. apply (update_fed_512 [] (mjoin pieces)) in H0.
    destruct (final_ok_512 _ _ H0 Hl) as [d E]. rewrite E, obind. exact eq_refl.
Qed.

(** C40: what is derived from the hash is what the RFCs say: HMAC (RFC 2104)
    for keys shorter and longer than a block, HKDF (RFC 5869) with an absent
    salt as zeros and up to its 255 blocks of output, and PBKDF2 (RFC 8018),
    which copies the keyed context at each of its rounds instead of keying
    it again. *)
Theorem kdf_rfcs (key msg salt info : list Z) (len rounds : Z) :
  zlen key < 2 ^ 32 -> zlen msg < 2 ^ 32 -> zlen salt < 2 ^ 32 -> zlen info < 2 ^ 32 -> 0 <= len <= 255 * 32 ->
  Sha256.hmac_sha256 key msg = Some (hmac_ref key msg) /\
  Sha256.hkdf_extract salt key = Some (hmac_ref (if zlen salt =? 0 then replicate 32 0 else salt) key) /\
  Sha256.hkdf_expand key info len = Some (hkdf_expand_ref key info len) /\
  Sha256.pbkdf2_sha256 key salt rounds = Some (pbkdf2_ref key salt rounds).
Proof.
  intros Hk Hm Hs Hi Hl. split_and!.
  - apply hmac_ok; lia.
  - unfold Sha256.hkdf_extract. apply hmac_ok; [|lia]. case_bool; zbool; [by vm_compute|lia].
  - apply hkdf_expand_ok; [lia|done|done].
  - apply pbkdf2_ok; [lia|done].
Qed.

Definition used_256 : hash_ctx := Hash_ctx [1; 2; 3] 77 (seqZ 5 64) 9.
Definition used_512 : hash_ctx := Hash_ctx [1; 2; 3] 77 (seqZ 5 128) 9.

(** "abc" in two pieces, and the digests FIPS 180-4's examples print *)
Lemma sha_fips180_witness :
  Forall bytes [[97; 98]; []; [99]] /\
  (exists d, Sha256.sha256_final (foldl Sha256.sha256_update (Sha256.sha256_init used_256) [[97; 98]; []; [99]]) = Some (sha SHA_256 [97; 98; 99], d)) /\
  (exists d, Sha512.sha512_final (foldl Sha512.sha512_update (Sha512.sha512_init used_512) [[97; 98]; []; [99]]) = Some (sha SHA_512 [97; 98; 99], d)) /\
  Sha256.sha256 [97; 98; 99] = Some
    [186; 120; 22; 191; 143; 1; 207; 234; 65; 65; 64; 222; 93; 174; 34; 35; 176; 3; 97; 163; 150; 23; 122; 156; 180; 16; 255; 97; 242; 0; 21; 173] /\
  Sha512.sha512 [97; 98; 99] = Some
    ([221; 175; 53; 161; 147; 97; 122; 186; 204; 65; 115; 73; 174; 32; 65; 49; 18; 230; 250; 78; 137; 169; 126; 162; 10; 158; 238; 230; 75; 85; 211; 154] ++
     [33; 146; 153; 42; 39; 79; 193; 168; 54; 186; 60; 35; 163; 254; 235; 189; 69; 77; 68; 35; 100; 60; 232; 14; 42; 154; 201; 79; 165; 76; 164; 159]).
Proof.
  assert (Hb : Forall bytes [[97; 98]; []; [99]]) by (repeat (apply Forall_cons; split; [repeat (apply Forall_cons; split; [done|]); constructor|]); constructor).
  split; [exact Hb|]. destruct (sha_fips180 used_256 used_512 [[97; 98]; []; [99]] eq_refl eq_refl Hb eq_refl) as (H1 & H2 & _).
  split; [exact H1|]. split; [exact H2|]. split; vm_compute; reflexivity.
Defined.

(** RFC 5869, the first case *)
Lemma kdf_rfcs_witness :
  Sha256.hkdf_extract (seqZ 0 13) (replicate 22 11) = Some (hmac_ref (seqZ 0 13) (replicate 22 11)) /\
  option_map (take 4) (Sha256.hkdf_extract (seqZ 0 13) (replicate 22 11)) = Some [0x07; 0x77; 0x09; 0x36].
Proof.
  split; [|vm_compute; reflexivity].
  exact (proj1 (proj2 (kdf_rfcs (replicate 22 11) [] (seqZ 0 13) [] 0 0 eq_refl eq_refl eq_refl eq_refl ltac:(lia)))).
Defined.
